(* ===== verification/_CoqProject ===== *)
-Q . S2P
Prelude.v
Mem.v
Buf.v
MemFacts.v
BufThms.v
Cbs.v
Der.v
CbsFacts.v
CbsThms.v
Cbb.v
CbbSpec.v
CbbFacts.v
CbbOps.v
CbbThms.v
Oid.v
OidThms.v
Cells.v
Stack.v
StackThms.v
Lhash.v
LhashFacts.v
LhashOps.v
LhashDoall.v
LhashThms.v
Pb.v
PbFacts.v
PbThms.v
Ct.v
Base64.v
Base64Facts.v
Base64Thms.v
BnWords.v
BnWordsFacts.v
BnMulFacts.v
BnSqr.v
CtFacts.v
Bn.v
BnShift.v
BnBytes.v
BnFacts.v
BnCmp.v
BnAddFacts.v
BnArith.v
BnOneWord.v
BnTests.v
BnShiftFacts.v
BnRshiftFacts.v
BnBitsFacts.v
BnBytesFacts.v
BnSpec.v
BnThms.v
BnBytesThms.v
BnMul.v
BnPartFacts.v
BnKaratsuba.v
BnMulRecursive.v
BnMulThms.v
BnCtx.v
BnCtxFacts.v
BnMulCtx.v
BnSqrCtx.v
BnFrames.v
BnCtxThms.v
BnDiv.v
BnFlags.v
BnDivFacts.v
BnDivNums.v
BnDivCtx.v
BnDivWord.v
BnModFacts.v
BnQuickFacts.v
BnPrograms.v
BnMont.v
BnMontWords.v
BnMontNums.v
BnMontForm.v
BnMontSet.v
BnDivThms.v
BnModThms.v
BnMontThms.v
