(* ===== verification/Prelude.v ===== *)
(** A verification of the C core that the iOS application ships with: the byte-level
    libraries of BoringSSL (Pods/BoringSSL/crypto) and the wire format of nanopb
    (Pods/nanopb), shallowly embedded and proved.

    * How the parts of the program hang together

    The application is Swift over vendored client libraries (Firebase, gRPC). Whatever
    they send or receive goes through a few C components, each of which only rests on the
    ones before it in this list:
    - memory and strings, crypto/mem.c: the allocator with its size prefix, constant-time
      comparison, string helpers;
    - buffers, crypto/buf/buf.c: BUF_MEM, grown with realloc, and bounded string copies;
    - byte strings, crypto/bytestring: CBS, a cursor that parses big-endian integers,
      length prefixes and DER; CBB, a builder with nested children that patches the length
      of a child when it is flushed; object identifiers as text and SET OF;
    - stacks, crypto/stack/stack.c: growable arrays of pointers with a sorted flag;
    - hash tables, crypto/lhash/lhash.c: chains of items in a resizable array of buckets,
      with iteration by callbacks that may change the table;
    - base64, crypto/base64/base64.c: in blocks and streamed;
    - big numbers, crypto/fipsmodule/bn: loops over 64-bit words, products, and the BIGNUM
      with its comparisons, signed sums, shifts, bits and byte strings, using the masks of
      crypto/internal.h;
    - nanopb, pb_encode.c and pb_decode.c: streams, varints, scalars and skipping.

    * How they are modelled

    [Prelude] has machine integers as [Z] with their wrap-around written out ([u8] to
    [u64]), lists indexed by [Z] ([zget], [zset], [ztake], [zdrop], [put_at]), and the monad
    [M S A] of all components: a program maps a state to [Ok] (a value and a state), [Fail]
    (the error return of the C function, with the state it leaves) or [Stuck] (undefined
    behaviour: a read or write outside an object, an assertion, a loop out of fuel).
    [wp m Q E s] says that [m] from [s] either succeeds with [Q] or fails with [E], so every
    theorem stated with it also says that the program ends and is never stuck. Loops are
    [for_] and [iter]; the fuel of [iter] is always an expression of the state that bounds
    the number of turns (the bytes left, the words of a number, one more than the digits a
    64-bit value can have), and [wp] of the loop proves that it suffices.

    A file per component has the data and operations, [*Facts] files have its lemmas, and
    [*Thms] files the theorems and their witnesses:
    - [Mem] (crypto/mem.c) with [MemFacts]; the allocator libc provides is the class
      [Allocator] (when a request succeeds, and what is in fresh memory), and the state counts
      requests. [Cells] has arrays of 64-bit cells in such memory.
    - [Buf] (crypto/buf/buf.c), [BufThms]: state, the struct and the allocator.
    - [Cbs] (crypto/bytestring/cbs.c), [CbsFacts], [CbsThms]: state, the cursor; [Der] is the
      DER encoding as a specification, independent of the parser and the builder.
    - [Cbb] (crypto/bytestring/cbb.c), [CbbFacts], [CbbOps], [CbbThms]: state, a store of CBB
      structs and shared buffers under addresses, in which parents point to their open
      child. [CbbSpec] is the abstract builder, a stack of frames, and the representation
      relation [rep]; every operation is a function on frames (refinement).
    - [Oid], [OidThms]: the text of object identifiers and CBB_flush_asn1_set_of.
    - [Stack] (crypto/stack/stack.c), [StackThms]: state, the struct with its array;
      qsort and bsearch of libc are a class of laws with an instance.
    - [Lhash] (crypto/lhash/lhash.c), [LhashFacts], [LhashOps], [LhashDoall], [LhashThms]: state,
      the struct and a store of items linked by addresses; the user's hash and comparison
      are parameters, callbacks are programs on the same state.
    - [Ct] and [CtFacts]: the masks of crypto/internal.h; [Base64] (crypto/base64/base64.c),
      [Base64Facts], [Base64Thms]: state, the context and the output buffer.
    - [BnWords] (generic.c, and the part of mul.c on bare words) with [BnWordsFacts],
      [BnMulFacts], [BnSqr], and [BnMul] (the recursive products of mul.c) with
      [BnPartFacts], [BnKaratsuba], [BnMulRecursive]: state, a collection of arrays, a pointer
      being an array and an offset, so that operands may coincide or overlap; [Bn] (bn.c, cmp.c, add.c and
      BN_mul_word) with [BnFacts], [BnCmp], [BnAddFacts], [BnArith], [BnOneWord], [BnTests]:
      state, a store of BIGNUMs under names; [BnShift] (shift.c) with [BnShiftFacts],
      [BnRshiftFacts], [BnBitsFacts]; [BnCtx] (ctx.c, and the products of mul.c that take scratch
      numbers) with [BnCtxFacts], [BnMulCtx], [BnSqrCtx]: state, the context with its items
      and stack beside that store; [BnFrames] is its contract (a stack of frames of
      numbers); [BnDiv] (div.c): long division, by numbers, words and powers of two, and the
      modular operations, on the same state, with [BnDivFacts] (the loop on words), [BnDivNums]
      (on numbers), [BnDivCtx] (BN_div), [BnDivWord] (words and powers of two), [BnModFacts] (remainders,
      sums, products) and [BnQuickFacts] (the versions for reduced numbers); [BnMont] (montgomery.c and
      montgomery_inv.c): contexts of two numbers and a word, and the products with them, with
      [BnMontWords] (the inverse and the reduction, on words), [BnMontNums] (on numbers, and products),
      [BnMontForm] (into and out of the form; arrays of a few words) and [BnMontSet] (how a context is set);
      [BnPrograms] has what holds of calls one after the other; [BnFlags] has what
      no operation changes, the flags; and [BnBytes] (bytes.c) with [BnBytesFacts]: the same
      state, the buffers of bytes being lists; [BnSpec] is the contract (integers under names)
      and [BnThms], [BnMulThms], [BnCtxThms], [BnDivThms], [BnModThms], [BnMontThms], [BnBytesThms] the theorems.
    - [Pb] (pb_encode.c, pb_decode.c), [PbFacts], [PbThms]: state, a stream.

    * What the theorems show

    - Parsing: CBS accepts exactly the encodings of [Der] (and the BER headers it is meant
      to), reads nothing outside its window, and returns the values encoded.
    - Building: CBB refines the stack of frames on success, and on failure is left in the
      sticky error state, in which every operation that begins with a flush fails (the theorem
      is in [OidThms], behind the last of them) and CBB_did_write and CBB_discard_child do not;
      what it writes parses back.
    - Object identifiers: the texts accepted are exactly the canonical ones, text and DER
      round-trip; SET OF contents come out in the order of X.690.
    - Containers: BUF_MEM is a byte string, a stack is a list; sk_find is exact when the
      order is that of the comparison, and a theorem exhibits the stale sorted flag of
      sk_set; a hash table is a finite set, stays balanced, and its iteration visits each
      element once even when the callback deletes it. Growing is safe but for the prefix overflow another theorem exhibits. Where one of
      these fails for want of memory, the theorem names the size of the request that was refused.
    - base64: whatever the calls a text is cut into, the result is that of RFC 4648; decoding
      accepts exactly the encodings.
    - Big numbers: the unrolled and the column-wise loops compute sums, differences,
      products and squares of the numbers their words stand for, and so do the recursive
      ones for any power of two of words; any program of operations on
      signed numbers, with any aliasing, computes on integers, shifts included, and the only failure is
      a number that cannot grow; comparisons, tests and bits are exact; bytes round-trip, and
      a theorem exhibits the sign that the readers of bytes take over. The scratch context is
      a stack of frames of distinct numbers; BN_mul and BN_sqr are the product and the
      square whatever algorithm the lengths select, and close their frame on every path;
      another theorem exhibits the null temporary that bn_mul_impl does not test. BN_div
      divides rounding towards zero (each word of the quotient is estimated from the two leading
      words, lowered at most twice, which is the fuel of [refine_quotient], and once more when the
      difference is negative); programs of modular operations compute in the integers modulo the
      modulus, and the constant-time versions for reduced numbers agree with them; theorems
      exhibit the sign of the remainder of a division in place, and the sign that the
      quick sums do not set. A Montgomery context is set for exactly the odd positive moduli (the inverse of
      a word takes 64 turns, one for each bit), and programs of products in it compute in the integers modulo the modulus as
      well, numbers standing for residues. Failures are bounded: where an operation fails, a theorem names the words it
      could not have, as a function of the operands. No call changes the flags of a number.
    - nanopb: scalars round-trip, varint readers end and accept exactly the varints of
      bounded length (so that the 32-bit one never reads a negative number), skipping moves over
      exactly one value.

    * Not modelled

    The error queue and its macros (nothing modelled reads it), functions that only release
    memory, and printf-style output. Of bn: what is above the modular operations and Montgomery products (exponentiation,
    gcd, inverses, primes), and the lock of BN_MONT_CTX_set_locked. Of nanopb: messages by field descriptors, which
    write through untyped offsets into generated structs. The rest of BoringSSL, gRPC-Core,
    leveldb, the Objective-C and Swift code: other languages, operating-system glue,
    generated tables, or code resting on parts that come first. The plan: exponentiation in bn; the message layer of nanopb over a typed store. *)
From stdpp Require Export base tactics list list_numbers numbers option gmap.
From Stdlib Require Export ZArith Lia.

#[global] Open Scope Z_scope.

(** * Machine integers *)

(** Unsigned wrap-around at the widths the code uses ([uint8_t], [uint16_t],
    [uint32_t] / [unsigned], [uint64_t] / [size_t] on an LP64 target). *)
Definition u8 (z : Z) : Z := z mod 256.
Definition u16 (z : Z) : Z := z mod 65536.
Definition u32 (z : Z) : Z := z mod 4294967296.
Definition u64 (z : Z) : Z := z mod 18446744073709551616.

Definition SIZE_MAX : Z := 18446744073709551615.
Definition UINT64_MAX : Z := 18446744073709551615.
Definition INT_MAX : Z := 2147483647.
Definition UINT_MAX : Z := 4294967295.

(** The value of a C comparison used as an integer. *)
Definition b2z (b : bool) : Z := if b then 1 else 0.

Definition is_byte (z : Z) : Prop := 0 <= z < 256.
Definition bytes (l : list Z) : Prop := Forall is_byte l.

(** * Lists indexed by machine integers *)

Definition zlen {A} (l : list A) : Z := Z.of_nat (length l).
Definition ztake {A} (n : Z) (l : list A) : list A := take (Z.to_nat n) l.
Definition zdrop {A} (n : Z) (l : list A) : list A := drop (Z.to_nat n) l.
Definition zget {A} (l : list A) (i : Z) : option A :=
  if 0 <=? i then l !! Z.to_nat i else None.
Definition zrep {A} (n : Z) (x : A) : list A := replicate (Z.to_nat n) x.
(** [zseq a n] is [a; a+1; ...; a+n-1]. *)
Definition zseq (a n : Z) : list Z := seqZ a n.

(** Stores into an object: [None] when they leave it. *)
Definition zset {A} (l : list A) (i : Z) (x : A) : option (list A) :=
  if (0 <=? i) && (i <? zlen l) then Some (<[Z.to_nat i := x]> l) else None.
(** [memcpy(&l[off], bs, |bs|)] *)
Definition zput {A} (l : list A) (off : Z) (bs : list A) : option (list A) :=
  if (0 <=? off) && (off + zlen bs <=? zlen l)
  then Some (ztake off l ++ bs ++ zdrop (off + zlen bs) l) else None.

(** * Pointers *)

(** A pointer is [NULL], or points into an object: the model keeps the bytes of
    the object from the pointer to the object's end, so that reading past the
    object is visible as a missing byte. *)
Inductive ptr : Type :=
| NULL
| P (l : list Z).

Definition ptr_bytes (p : ptr) : list Z := match p with NULL => [] | P l => l end.
Definition is_null (p : ptr) : bool := match p with NULL => true | P _ => false end.

(** [p + n]; [None] when the result leaves the object (one past its end is
    allowed, and so is [NULL + 0]). *)
Definition ptr_add (p : ptr) (n : Z) : option ptr :=
  match p with
  | NULL => if n =? 0 then Some NULL else None
  | P l => if (0 <=? n) && (n <=? zlen l) then Some (P (zdrop n l)) else None
  end.

(** [p[i]] *)
Definition ptr_get (p : ptr) (i : Z) : option Z := zget (ptr_bytes p) i.

(** The [n] bytes at [p], as [memcpy] reads them; [None] when they are not all
    inside the object. [OPENSSL_memcpy] and the other wrappers of
    crypto/internal.h accept any pointer when [n] is zero. *)
Definition ptr_read (p : ptr) (n : Z) : option (list Z) :=
  if (0 <=? n) && (n <=? zlen (ptr_bytes p)) then Some (ztake n (ptr_bytes p)) else None.

(** * Programs: state, failure and undefined behaviour *)

(** The outcome of a C function called in state [s]:
    - [Ok a s']: it returned one (or the value [a]) and left [s'];
    - [Fail s']: it returned zero (or NULL) and left [s'];
    - [Stuck]: it had no defined behaviour (a read or write outside an object, a
      dangling pointer, a failed [assert]) or ran out of the model's fuel. *)
Inductive res (S A : Type) : Type :=
| Ok (a : A) (s : S)
| Fail (s : S)
| Stuck.
Arguments Ok {S A} a s.
Arguments Fail {S A} s.
Arguments Stuck {S A}.

Definition M (S A : Type) : Type := S -> res S A.

#[global] Instance M_ret S : MRet (M S) := fun A a s => Ok a s.
#[global] Instance M_bind S : MBind (M S) := fun A B k m s =>
  match m s with
  | Ok a s' => k a s'
  | Fail s' => Fail s'
  | Stuck => Stuck
  end.

Section Ops.
Context {S : Type}.

Definition get : M S S := fun s => Ok s s.
Definition put (s : S) : M S unit := fun _ => Ok tt s.
Definition modify (f : S -> S) : M S unit := fun s => Ok tt (f s).
(** [return 0;] *)
Definition fail {A} : M S A := fun s => Fail s.
Definition stuck {A} : M S A := fun _ => Stuck.
(** [if (!b) return 0;] *)
Definition require (b : bool) : M S unit := if b then mret tt else fail.
(** [assert(b);] *)
Definition assert_ (b : bool) : M S unit := if b then mret tt else stuck.
(** A value that undefined behaviour leaves missing. *)
Definition deref {A} (o : option A) : M S A :=
  match o with Some a => mret a | None => stuck end.
(** A call whose zero result the caller tests: its state changes stay. *)
Definition try_ {A} (m : M S A) : M S (option A) := fun s =>
  match m s with
  | Ok a s' => Ok (Some a) s'
  | Fail s' => Ok None s'
  | Stuck => Stuck
  end.
(** Any of the two ways a call returns, as a C truth value. *)
Definition succeeds {A} (m : M S A) : M S bool := fun s =>
  match m s with
  | Ok _ s' => Ok true s'
  | Fail s' => Ok false s'
  | Stuck => Stuck
  end.
(** A call on a local object [x]: the caller fails when the call does, and
    sees the object's new value when it succeeds. *)
Definition on {T A} (x : T) (m : M T A) : M S (A * T) := fun s =>
  match m x with
  | Ok a x' => Ok (a, x') s
  | Fail _ => Fail s
  | Stuck => Stuck
  end.
(** A call on a part of the state. *)
Definition zoom {T A} (g : S -> T) (p : T -> S -> S) (m : M T A) : M S A := fun s =>
  match m (g s) with
  | Ok a t => Ok a (p t s)
  | Fail t => Fail (p t s)
  | Stuck => Stuck
  end.

(** [for (i = a; n more times; i++) x = body(i, x);] *)
Fixpoint for_ {A} (i : Z) (n : nat) (body : Z -> A -> M S A) (x : A) : M S A :=
  match n with
  | O => mret x
  | Datatypes.S n => y ← body i x; for_ (i + 1) n body y
  end.

(** A loop whose body says whether to go on ([inl]) or leave ([inr]). *)
Fixpoint iter {A B} (fuel : nat) (body : A -> M S (A + B)) (x : A) : M S B :=
  match fuel with
  | O => stuck
  | Datatypes.S n =>
      r ← body x;
      match r with inl x' => iter n body x' | inr b => mret b end
  end.
End Ops.

(** * A weakest-precondition calculus

    [wp m Q E s]: run from [s], [m] has a defined behaviour; if it succeeds with
    [a] in [s'] then [Q a s'], and if it fails in [s'] then [E s']. Since running
    out of fuel is [Stuck], a [wp] also says that the loops of [m] end. *)
Definition wp {S A} (m : M S A) (Q : A -> S -> Prop) (E : S -> Prop) (s : S) : Prop :=
  match m s with
  | Ok a s' => Q a s'
  | Fail s' => E s'
  | Stuck => False
  end.

Section Wp.
Context {S : Type}.

Lemma wp_mono {A} (m : M S A) (Q Q' : A -> S -> Prop) (E E' : S -> Prop) s :
  wp m Q E s -> (forall a s', Q a s' -> Q' a s') -> (forall s', E s' -> E' s') ->
  wp m Q' E' s.
Proof. unfold wp. destruct (m s); auto. Qed.

Lemma wp_bind {A B} (m : M S A) (k : A -> M S B) Q E s :
  wp m (fun a s' => wp (k a) Q E s') E s -> wp (m ≫= k) Q E s.
Proof. unfold wp, mbind, M_bind. destruct (m s); auto. Qed.

Lemma wp_assoc {A B C} (m : M S A) (k : A -> M S B) (k' : B -> M S C) Q E s :
  wp (x ← m; k x ≫= k') Q E s <-> wp ((x ← m; k x) ≫= k') Q E s.
Proof. unfold wp, mbind, M_bind. by destruct (m s). Qed.

Lemma wp_ret {A} (a : A) Q E (s : S) : Q a s -> wp (mret a) Q E s.
Proof. auto. Qed.

Lemma wp_get Q E (s : S) : Q s s -> wp get Q E s.
Proof. auto. Qed.

Lemma wp_put (t : S) Q E s : Q tt t -> wp (put t) Q E s.
Proof. auto. Qed.

Lemma wp_modify f Q E (s : S) : Q tt (f s) -> wp (modify f) Q E s.
Proof. auto. Qed.

Lemma wp_fail {A} (Q : A -> S -> Prop) (E : S -> Prop) s : E s -> wp fail Q E s.
Proof. auto. Qed.

Lemma wp_require b Q E (s : S) :
  (b = true -> Q tt s) -> (b = false -> E s) -> wp (require b) Q E s.
Proof. destruct b; unfold wp, require; cbn; auto. Qed.

Lemma wp_assert b Q E (s : S) : b = true -> Q tt s -> wp (assert_ b) Q E s.
Proof. intros ->. auto. Qed.

Lemma wp_deref {A} (o : option A) a Q E (s : S) : o = Some a -> Q a s -> wp (deref o) Q E s.
Proof. intros ->. auto. Qed.

Lemma wp_try {A} (m : M S A) Q E s :
  wp m (fun a => Q (Some a)) (Q None) s -> wp (try_ m) Q E s.
Proof. unfold wp, try_. destruct (m s); auto. Qed.

Lemma wp_succeeds {A} (m : M S A) Q E s :
  wp m (fun _ => Q true) (Q false) s -> wp (succeeds m) Q E s.
Proof. unfold wp, succeeds. destruct (m s); auto. Qed.

Lemma wp_on {T A} (x : T) (m : M T A) Q E (s : S) :
  wp m (fun a x' => Q (a, x') s) (fun _ => E s) x -> wp (on x m) Q E s.
Proof. unfold wp, on. destruct (m x); auto. Qed.

Lemma wp_zoom {T A} (g : S -> T) p (m : M T A) Q E s :
  wp m (fun a t => Q a (p t s)) (fun t => E (p t s)) (g s) -> wp (zoom g p m) Q E s.
Proof. unfold wp, zoom. destruct (m (g s)); auto. Qed.

(** Both readings of one run: a [wp] that covers success and another that
    covers failure combine. *)
Lemma wp_conj {A} (m : M S A) (Q Q' : A -> S -> Prop) (E E' : S -> Prop) s :
  wp m Q E s -> wp m Q' E' s ->
  wp m (fun a s' => Q a s' /\ Q' a s') (fun s' => E s' /\ E' s') s.
Proof. unfold wp. destruct (m s); auto. Qed.

Lemma wp_ok {A} (m : M S A) Q E s a s' : wp m Q E s -> m s = Ok a s' -> Q a s'.
Proof. unfold wp. intros H Hm. by rewrite Hm in H. Qed.

Lemma wp_failed {A} (m : M S A) Q E s s' : wp m Q E s -> m s = Fail s' -> E s'.
Proof. unfold wp. intros H Hm. by rewrite Hm in H. Qed.

(** Sound and complete together: a run that fails excludes every reason to
    succeed. *)
Lemma wp_exact {A} (m : M S A) (Q : A -> S -> Prop) (E : S -> Prop) (P : Prop) s :
  wp m Q E s -> (P -> wp m (fun _ _ => True) (fun _ => False) s) -> wp m Q (fun s' => E s' /\ ~ P) s.
Proof. unfold wp. intros H HP. destruct (m s); [done|split; [done|]; by intros ?%HP|done]. Qed.

(** A run that must succeed. *)
Lemma wp_total {A} (m : M S A) Q s :
  wp m Q (fun _ => False) s -> exists a s', m s = Ok a s' /\ Q a s'.
Proof. unfold wp. destruct (m s); naive_solver. Qed.

Lemma wp_for {A} (I : Z -> A -> S -> Prop) i n (body : Z -> A -> M S A) x Q E s :
  I i x s ->
  (forall j y s', i <= j < i + Z.of_nat n -> I j y s' ->
     wp (body j y) (fun z => I (j + 1) z) E s') ->
  (forall y s', I (i + Z.of_nat n) y s' -> Q y s') ->
  wp (for_ i n body x) Q E s.
Proof.
  revert i x s. induction n as [|n IH]; intros i x s Hi Hb HQ; cbn [for_].
  - apply wp_ret, HQ. by rewrite Z.add_0_r.
  - apply wp_bind. eapply wp_mono; [apply (Hb i x s); [lia|done]| |auto].
    intros y s' Hy. apply IH; [done|intros; apply Hb; [lia|done]|].
    intros z s'' Hz. apply HQ. by replace (i + Z.of_nat (Datatypes.S n)) with (i + 1 + Z.of_nat n) by lia.
Qed.

Lemma wp_iter {A B} (I : A -> S -> Prop) (measure : A -> S -> nat)
    fuel (body : A -> M S (A + B)) x Q E s :
  I x s -> (measure x s < fuel)%nat ->
  (forall y s', I y s' ->
     wp (body y)
        (fun r s'' => match r with
           | inl z => I z s'' /\ (measure z s'' < measure y s')%nat
           | inr b => Q b s''
           end) E s') ->
  wp (iter fuel body x) Q E s.
Proof.
  revert x s. induction fuel as [|n IH]; intros x s HI Hf Hb; [lia|]. cbn [iter].
  apply wp_bind. eapply wp_mono; [by apply Hb| |auto].
  intros [z|b] s' H; [|by apply wp_ret].
  destruct H as [HIz Hz]. apply IH; [done|lia|done].
Qed.
End Wp.

(** One step of symbolic execution; calls are left to the caller's lemma. *)
Ltac wp_step :=
  match goal with
  | |- wp (mbind _ _) _ _ _ => apply wp_bind
  | |- wp (mret _) _ _ _ => apply wp_ret
  | |- wp get _ _ _ => apply wp_get
  | |- wp (put _) _ _ _ => apply wp_put
  | |- wp (modify _) _ _ _ => apply wp_modify
  | |- wp fail _ _ _ => apply wp_fail
  | |- wp (on _ _) _ _ _ => apply wp_on
  | |- wp (zoom _ _ _) _ _ _ => apply wp_zoom
  | |- wp (try_ _) _ _ _ => apply wp_try
  | |- wp (succeeds _) _ _ _ => apply wp_succeeds
  | |- wp (require ?b) _ _ _ => apply wp_require; [intros ?|intros ?]
  | |- wp (if ?b then _ else _) _ _ _ => let E := fresh "Hif" in destruct b eqn:E
  | |- wp (let '_ := ?x in _) _ _ _ => destruct x
  end.
Ltac wp_go := repeat (wp_step; cbv beta; try done).

(** Use the specification [H] of the call at the head of the goal. *)
Ltac wp_call H := eapply wp_mono; [eapply H| |]; cbv beta.

(** * Lemmas on lists indexed by machine integers *)

Section ZLists.
Context {A : Type}.
Implicit Types l : list A.

Lemma zlen_nonneg l : 0 <= zlen l.
Proof. unfold zlen. lia. Qed.
Lemma zlen_nil : zlen (@nil A) = 0.
Proof. done. Qed.
Lemma zlen_cons x l : zlen (x :: l) = 1 + zlen l.
Proof. unfold zlen. cbn [length]. lia. Qed.
Lemma zlen_app l1 l2 : zlen (l1 ++ l2) = zlen l1 + zlen l2.
Proof. unfold zlen. rewrite length_app. lia. Qed.
Lemma zlen_snoc l x : zlen (l ++ [x]) = zlen l + 1.
Proof. by rewrite zlen_app, zlen_cons. Qed.
Lemma zlen_ztake n l : 0 <= n <= zlen l -> zlen (ztake n l) = n.
Proof. unfold zlen, ztake. rewrite length_take. lia. Qed.
Lemma zlen_zdrop n l : 0 <= n <= zlen l -> zlen (zdrop n l) = zlen l - n.
Proof. unfold zlen, zdrop. rewrite length_drop. lia. Qed.
Lemma zlen_zrep n (x : A) : 0 <= n -> zlen (zrep n x) = n.
Proof. unfold zlen, zrep. rewrite length_replicate. lia. Qed.
Lemma zlen_0 l : zlen l = 0 -> l = [].
Proof. unfold zlen. destruct l; cbn; [done|lia]. Qed.
Lemma zlen_cons_inv {B} x l (k : list B) : zlen (x :: l) = zlen k -> exists y k', k = y :: k' /\ zlen l = zlen k'.
Proof. unfold zlen. destruct k as [|y k]; cbn [length]; [lia|]. intros. exists y, k. split; [done|lia]. Qed.
Lemma zlen_pos l : 0 < zlen l -> exists x l', l = x :: l'.
Proof. unfold zlen. destruct l; cbn; [lia|eauto]. Qed.

Lemma ztake_zdrop n l : ztake n l ++ zdrop n l = l.
Proof. apply take_drop. Qed.
Lemma ztake_app n l1 l2 : n = zlen l1 -> ztake n (l1 ++ l2) = l1.
Proof. unfold ztake, zlen. intros ->. rewrite Nat2Z.id. apply take_app_length. Qed.
Lemma zdrop_app n l1 l2 : n = zlen l1 -> zdrop n (l1 ++ l2) = l2.
Proof. unfold zdrop, zlen. intros ->. rewrite Nat2Z.id. apply drop_app_length. Qed.
Lemma ztake_app_le n l1 l2 : 0 <= n <= zlen l1 -> ztake n (l1 ++ l2) = ztake n l1.
Proof. unfold ztake, zlen. intros. rewrite take_app_le; [done|lia]. Qed.
Lemma ztake_app_ge n l1 l2 :
  zlen l1 <= n -> ztake n (l1 ++ l2) = l1 ++ ztake (n - zlen l1) l2.
Proof.
  unfold ztake, zlen. intros. rewrite take_app_ge by lia. do 2 f_equal. lia.
Qed.
Lemma zdrop_app_ge n l1 l2 :
  zlen l1 <= n -> zdrop n (l1 ++ l2) = zdrop (n - zlen l1) l2.
Proof. unfold zdrop, zlen. intros. rewrite drop_app_ge by lia. f_equal. lia. Qed.
Lemma zdrop_app_le n l1 l2 :
  0 <= n <= zlen l1 -> zdrop n (l1 ++ l2) = zdrop n l1 ++ l2.
Proof. unfold zdrop, zlen. intros. rewrite drop_app_le; [done|lia]. Qed.
Lemma ztake_all l : ztake (zlen l) l = l.
Proof. unfold ztake, zlen. rewrite Nat2Z.id. apply take_ge. lia. Qed.
Lemma zdrop_all l : zdrop (zlen l) l = [].
Proof. unfold zdrop, zlen. rewrite Nat2Z.id. apply drop_ge. lia. Qed.
Lemma zdrop_nil n : zdrop n (@nil A) = [].
Proof. apply drop_nil. Qed.
Lemma ztake_nil n : ztake n (@nil A) = [].
Proof. apply take_nil. Qed.
Lemma ztake_0 l : ztake 0 l = [].
Proof. done. Qed.
Lemma zdrop_0 l : zdrop 0 l = l.
Proof. done. Qed.
Lemma zdrop_zdrop a b l : 0 <= a -> 0 <= b -> zdrop a (zdrop b l) = zdrop (b + a) l.
Proof. unfold zdrop. intros. rewrite drop_drop. f_equal. lia. Qed.
Lemma ztake_ztake a b l : 0 <= a <= b -> ztake a (ztake b l) = ztake a l.
Proof. unfold ztake. intros. rewrite take_take. f_equal. lia. Qed.
(** A window splits where its first part ends. *)
Lemma ztake_split a b l :
  0 <= a -> 0 <= b -> ztake (a + b) l = ztake a l ++ ztake b (zdrop a l).
Proof.
  unfold ztake, zdrop. intros. rewrite Z2Nat.inj_add by lia.
  by rewrite take_take_drop.
Qed.

Lemma zget_Some l i x : zget l i = Some x -> 0 <= i < zlen l.
Proof.
  unfold zget, zlen. destruct (Z.leb_spec 0 i); [|done].
  intros ?%lookup_lt_Some. lia.
Qed.
Lemma zget_lt l i : 0 <= i < zlen l -> exists x, zget l i = Some x.
Proof.
  unfold zget, zlen. intros. destruct (Z.leb_spec 0 i); [|lia].
  apply lookup_lt_is_Some. lia.
Qed.
Lemma zget_app_l l1 l2 i : i < zlen l1 -> zget (l1 ++ l2) i = zget l1 i.
Proof.
  unfold zget, zlen. intros. destruct (Z.leb_spec 0 i); [|done].
  apply lookup_app_l. lia.
Qed.
Lemma zget_app_r l1 l2 i : zlen l1 <= i -> zget (l1 ++ l2) i = zget l2 (i - zlen l1).
Proof.
  unfold zget, zlen. intros. destruct (Z.leb_spec 0 i); [|lia].
  destruct (Z.leb_spec 0 (i - Z.of_nat (length l1))); [|lia].
  rewrite lookup_app_r by lia. f_equal. lia.
Qed.
Lemma zget_middle l1 x l2 i : i = zlen l1 -> zget (l1 ++ x :: l2) i = Some x.
Proof. intros ->. rewrite zget_app_r by lia. by rewrite Z.sub_diag. Qed.
(** Reading element [i] of a window splits it there. *)
Lemma zget_split l i x :
  zget l i = Some x -> l = ztake i l ++ x :: zdrop (i + 1) l.
Proof.
  intros H. pose proof (zget_Some _ _ _ H). unfold zget in H.
  destruct (Z.leb_spec 0 i); [|lia]. unfold ztake, zdrop.
  replace (Z.to_nat (i + 1)) with (S (Z.to_nat i)) by lia.
  by rewrite take_drop_middle.
Qed.

(** A window grown by the next element. *)
Lemma ztake_next l i x : zget l i = Some x -> ztake (i + 1) l = ztake i l ++ [x].
Proof.
  intros H. pose proof (zget_Some _ _ _ H). rewrite ztake_split by lia. f_equal.
  rewrite (zget_split _ _ _ H) at 1. by rewrite zdrop_app by (rewrite zlen_ztake; lia).
Qed.
Lemma zdrop_next l i x : zget l i = Some x -> zdrop i l = x :: zdrop (i + 1) l.
Proof.
  intros H. pose proof (zget_Some _ _ _ H). rewrite (zget_split _ _ _ H) at 1.
  by rewrite zdrop_app by (rewrite zlen_ztake; lia).
Qed.

Lemma zput_Some l off bs :
  0 <= off -> off + zlen bs <= zlen l ->
  zput l off bs = Some (ztake off l ++ bs ++ zdrop (off + zlen bs) l).
Proof.
  intros. unfold zput. destruct (Z.leb_spec 0 off); [|lia].
  destruct (Z.leb_spec (off + zlen bs) (zlen l)); [done|lia].
Qed.
(** Storing over the middle of three parts. *)
Lemma zput_app l1 old l2 bs :
  zlen bs = zlen old -> zput (l1 ++ old ++ l2) (zlen l1) bs = Some (l1 ++ bs ++ l2).
Proof.
  intros Hb. pose proof (zlen_nonneg l1). pose proof (zlen_nonneg l2).
  rewrite zput_Some; [|lia|rewrite !zlen_app; lia].
  rewrite ztake_app by done. rewrite (app_assoc l1 old l2).
  rewrite (zdrop_app _ (l1 ++ old) l2); [done|rewrite zlen_app; lia].
Qed.
Lemma zset_Some l i x :
  0 <= i < zlen l -> zset l i x = Some (ztake i l ++ x :: zdrop (i + 1) l).
Proof.
  intros. unfold zset. destruct (Z.leb_spec 0 i); [|lia].
  destruct (Z.ltb_spec i (zlen l)); [|lia]. cbn. f_equal.
  unfold ztake, zdrop, zlen in *.
  replace (Z.to_nat (i + 1)) with (S (Z.to_nat i)) by lia.
  apply insert_take_drop. lia.
Qed.
Lemma zset_app l1 y l2 x i :
  i = zlen l1 -> zset (l1 ++ y :: l2) i x = Some (l1 ++ x :: l2).
Proof.
  intros ->. pose proof (zlen_nonneg l1). pose proof (zlen_nonneg l2).
  rewrite zset_Some by (rewrite zlen_app, zlen_cons; lia).
  rewrite ztake_app by done.
  rewrite (zdrop_app_ge _ l1) by lia. by replace (zlen l1 + 1 - zlen l1) with 1 by lia.
Qed.
(** A store by what it changes. *)
Lemma zset_lt l i x :
  0 <= i < zlen l ->
  exists l', zset l i x = Some l' /\ zlen l' = zlen l /\ zget l' i = Some x /\ forall j, j <> i -> zget l' j = zget l j.
Proof.
  intros Hi. unfold zset. rewrite (proj2 (Z.leb_le 0 i)), (proj2 (Z.ltb_lt i _)) by lia. unfold zlen in *. eexists. split; [reflexivity|]. split; [by rewrite length_insert|].
  unfold zget. rewrite (proj2 (Z.leb_le 0 i)) by lia. split; [apply list_lookup_insert_eq; lia|]. intros j Hj. destruct (Z.leb_spec 0 j); [|done]. apply list_lookup_insert_ne. lia.
Qed.

Lemma snoc_or_nil l : l = [] \/ exists i x, l = i ++ [x].
Proof. destruct l as [|x l] using rev_ind; [by left|right; eauto]. Qed.
End ZLists.

(** * Writing a run of elements over a list *)

Section PutAt.
Context {A : Type}.
Implicit Types l bs : list A.

Definition put_at l (pos : Z) bs : list A := ztake pos l ++ bs ++ zdrop (pos + zlen bs) l.
(** [n] elements fit at [pos]. *)
Definition room l (pos n : Z) : Prop := 0 <= pos /\ 0 <= n /\ pos + n <= zlen l.

Lemma zlen_put_at l pos bs : room l pos (zlen bs) -> zlen (put_at l pos bs) = zlen l.
Proof.
  intros (? & ? & ?). unfold put_at. rewrite !zlen_app, zlen_ztake, zlen_zdrop by lia. lia.
Qed.
Lemma room_put_at l pos bs p n : room l pos (zlen bs) -> room l p n -> room (put_at l pos bs) p n.
Proof. intros H (? & ? & ?). unfold room. rewrite zlen_put_at by done. lia. Qed.

(** A second run behind the first, over what was behind it. *)
Lemma put_at_over l pos b1 c b2 :
  room l pos (zlen b1 + zlen b2) -> zlen c <= zlen b2 ->
  put_at (put_at l pos (b1 ++ c)) (pos + zlen b1) b2 = put_at l pos (b1 ++ b2).
Proof.
  intros (H0 & H1 & H2) Hc. unfold put_at. pose proof (zlen_nonneg b1). pose proof (zlen_nonneg b2). pose proof (zlen_nonneg c).
  assert (Hz : pos + zlen b1 = zlen (ztake pos l ++ b1)) by (rewrite zlen_app, zlen_ztake; lia).
  rewrite <- (app_assoc b1 c), (app_assoc (ztake pos l) b1), (ztake_app _ _ _ Hz), zdrop_app_ge by lia.
  rewrite <- Hz, zdrop_app_ge by lia. rewrite !zlen_app, zdrop_zdrop, <- !app_assoc by lia. do 4 f_equal. lia.
Qed.
Lemma put_at_app l pos b1 b2 :
  room l pos (zlen b1 + zlen b2) -> put_at (put_at l pos b1) (pos + zlen b1) b2 = put_at l pos (b1 ++ b2).
Proof. intros. rewrite <- (app_nil_r b1) at 1. apply put_at_over; [done|apply zlen_nonneg]. Qed.
Lemma put_at_nil l pos : 0 <= pos -> put_at l pos [] = l.
Proof. intros. unfold put_at. cbn [app]. rewrite Z.add_0_r. apply ztake_zdrop. Qed.
(** What was written reads back. *)
Lemma put_at_read l pos bs : room l pos (zlen bs) -> ztake (zlen bs) (zdrop pos (put_at l pos bs)) = bs.
Proof.
  intros (? & ? & ?). unfold put_at. rewrite zdrop_app by (rewrite zlen_ztake; lia). by apply ztake_app.
Qed.
Lemma zput_put_at l pos bs : room l pos (zlen bs) -> zput l pos bs = Some (put_at l pos bs).
Proof. intros (? & ? & ?). by apply zput_Some. Qed.
Lemma zset_put_at l pos b : room l pos 1 -> zset l pos b = Some (put_at l pos [b]).
Proof. intros (? & ? & ?). rewrite zset_Some by lia. done. Qed.
End PutAt.

Create HintDb zlist.
Create Rewrite HintDb zlist.
#[export] Hint Rewrite @zlen_nil @zlen_cons @zlen_app : zlist.
#[export] Hint Rewrite @zlen_ztake @zlen_zdrop @zlen_zrep using lia : zlist.

(** Arithmetic on lengths. *)
Ltac zlist := autorewrite with zlist in *; auto with zlist; try lia.

(** Arithmetic with division by constants. *)
Ltac dlia := Z.to_euclidean_division_equations; lia.

(** * Bytes *)

Lemma bytes_app l1 l2 : bytes (l1 ++ l2) <-> bytes l1 /\ bytes l2.
Proof. apply Forall_app. Qed.
Lemma bytes_cons x l : bytes (x :: l) <-> is_byte x /\ bytes l.
Proof. apply Forall_cons. Qed.
Lemma bytes_nil : bytes [].
Proof. constructor. Qed.
Lemma bytes_ztake n l : bytes l -> bytes (ztake n l).
Proof. apply Forall_take. Qed.
Lemma bytes_zdrop n l : bytes l -> bytes (zdrop n l).
Proof. apply Forall_drop. Qed.
Lemma bytes_zget l i x : bytes l -> zget l i = Some x -> is_byte x.
Proof.
  unfold zget. destruct (0 <=? i); [|done]. intros Hl Hx.
  by apply (Forall_lookup_1 _ _ _ _ Hl Hx).
Qed.
Lemma bytes_zrep n x : is_byte x -> bytes (zrep n x).
Proof. intros. apply Forall_replicate; done. Qed.
#[export] Hint Resolve bytes_nil bytes_ztake bytes_zdrop bytes_zrep : zlist.
#[export] Hint Resolve zlen_nonneg : zlist.

(** A decidable property of all 256 bytes is checked by evaluation. *)
Lemma byte_forall (f : Z -> bool) :
  forallb f (seqZ 0 256) = true -> forall b, is_byte b -> f b = true.
Proof.
  intros H b Hb. rewrite forallb_forall in H. apply H.
  apply list_elem_of_In, elem_of_seqZ. unfold is_byte in Hb. lia.
Qed.

(** * Bit operations as arithmetic *)

Lemma lor_add a b : Z.land a b = 0 -> Z.lor a b = a + b.
Proof. intros. rewrite <- Z.lxor_lor by done. by rewrite Z.add_nocarry_lxor. Qed.

Lemma land_shiftl_small a b k : 0 <= k -> 0 <= b < 2 ^ k -> Z.land (Z.shiftl a k) b = 0.
Proof.
  intros Hk Hb. destruct (decide (b = 0)) as [->|]; [apply Z.land_0_r|].
  apply Z.bits_inj'. intros i Hi. rewrite Z.land_spec, Z.bits_0.
  destruct (decide (i < k)).
  - by rewrite Z.shiftl_spec_low.
  - rewrite (Z.bits_above_log2 b), andb_false_r; [done|lia|].
    apply Z.log2_lt_pow2; [lia|]. eapply Z.lt_le_trans; [apply Hb|].
    apply Z.pow_le_mono_r; lia.
Qed.

(** Appending [k] low bits. *)
Lemma lor_shiftl a b k : 0 <= k -> 0 <= b < 2 ^ k -> Z.lor (Z.shiftl a k) b = a * 2 ^ k + b.
Proof.
  intros. rewrite lor_add by by apply land_shiftl_small. by rewrite Z.shiftl_mul_pow2.
Qed.

(** A word shifted left within its width keeps its low part. *)
Lemma shiftl_mod a k w : 0 <= k <= w -> Z.shiftl a k mod 2 ^ w = Z.shiftl (a mod 2 ^ (w - k)) k.
Proof.
  intros. rewrite !Z.shiftl_mul_pow2 by lia.
  replace (2 ^ w) with (2 ^ (w - k) * 2 ^ k) by (rewrite <- Z.pow_add_r by lia; f_equal; lia).
  rewrite Z.mul_mod_distr_r; [done|apply Z.pow_nonzero; lia..].
Qed.

Lemma land_low a k : 0 <= k -> Z.land a (2 ^ k - 1) = a mod 2 ^ k.
Proof. intros. rewrite <- Z.land_ones by done. f_equal. by rewrite Z.ones_equiv, <- Z.sub_1_r. Qed.

(** The top bit of an octet, and the other seven. *)
Lemma land_0x80 b : is_byte b -> (Z.land b 0x80 =? 0) = (b <? 128).
Proof.
  intros Hb. apply eqb_prop.
  exact (byte_forall (fun b => eqb (Z.land b 128 =? 0) (b <? 128)) ltac:(vm_compute; reflexivity) b Hb).
Qed.

Lemma land_0x7f b : Z.land b 0x7f = b mod 128.
Proof. exact (land_low b 7 ltac:(done)). Qed.

(** Testing one bit with a mask. *)
Lemma land_pow2 a k : 0 <= k -> (Z.land a (2 ^ k) =? 0) = negb (Z.testbit a k).
Proof.
  intros Hk. destruct (Z.testbit a k) eqn:E; cbn.
  - apply Z.eqb_neq. intros H. apply (f_equal (fun x => Z.testbit x k)) in H.
    by rewrite Z.land_spec, E, Z.pow2_bits_true, Z.bits_0 in H by lia.
  - apply Z.eqb_eq, Z.bits_inj'. intros i Hi. rewrite Z.land_spec, Z.bits_0.
    destruct (decide (i = k)) as [->|]; [by rewrite E|].
    rewrite Z.pow2_bits_false by lia. apply andb_false_r.
Qed.

(** Two ways of cutting one list. *)
Lemma app_cut {A} (l1 l2 h r : list A) :
  l1 ++ l2 = h ++ r -> zlen h <= zlen l1 -> exists k, l1 = h ++ k /\ r = k ++ l2.
Proof.
  intros Heq Hlen. apply app_eq_inv in Heq as [(k & -> & ->)|(k & -> & ->)].
  - eauto.
  - rewrite zlen_app in Hlen. assert (k = []) as -> by (apply zlen_0; pose proof (zlen_nonneg k); lia).
    exists []. rewrite !app_nil_r. done.
Qed.

(** Two lists that agree as far as their cut points. *)
Lemma app_inj_zlen {A} (l1 l2 h r : list A) :
  l1 ++ l2 = h ++ r -> zlen h = zlen l1 -> h = l1 /\ r = l2.
Proof.
  intros Heq Hlen. destruct (app_cut _ _ _ _ Heq) as (k & -> & ->); [lia|].
  rewrite zlen_app in Hlen. assert (k = []) as -> by (apply zlen_0; lia).
  by rewrite app_nil_r.
Qed.
