(* ===== verification/Mem.v ===== *)
(** crypto/mem.c: the allocator wrappers and the string helpers every other
    component calls. libc's [malloc] is a parameter (the class [Allocator]); the
    blocks are values owned by the record that holds the pointer, so [free] and
    [OPENSSL_cleanse] leave no trace in the model. *)
From S2P Require Import Prelude.

(** What the code relies on of [malloc]: each call may succeed or fail (the
    [n]-th call of a run, asked for [size] bytes), a successful call returns a
    block of [size] bytes of unspecified contents, and no block is larger than
    [PTRDIFF_MAX]. *)
Class Allocator := {
  malloc_ok : nat -> Z -> bool;
  garbage : nat -> Z -> Z;
  malloc_limit n size : malloc_ok n size = true -> size < 2 ^ 63;
  garbage_byte n i : is_byte (garbage n i);
}.

(** A concrete allocator: 1 MiB blocks and less always succeed, fresh memory
    reads as 0xAA. *)
#[refine] Definition plenty : Allocator := {|
  malloc_ok _ size := size <=? 1048576;
  garbage _ _ := 170;
|}.
Proof.
  - intros _ size H. apply Z.leb_le in H. lia.
  - intros. unfold is_byte. lia.
Defined.

(** An allocator that always fails. *)
#[refine] Definition exhausted : Allocator := {|
  malloc_ok _ _ := false;
  garbage _ _ := 0;
|}.
Proof.
  - done.
  - intros. unfold is_byte. lia.
Defined.

(** The number of [malloc] calls made so far. *)
Definition heap : Type := nat.

(** An allocated block, or NULL. *)
Definition block : Type := option (list Z).

Section Malloc.
Context `{alloc : Allocator}.

Definition libc_malloc (size : Z) : M heap block := fun n =>
  Ok (if malloc_ok n size
      then Some (garbage n <$> zseq 0 size)
      else None) (S n).

Definition OPENSSL_MALLOC_PREFIX : Z := 8.

(** The [size_t] written at [ptr] needs the block to hold eight bytes. *)
Definition OPENSSL_malloc (size : Z) : M heap block :=
  p ← libc_malloc (u64 (size + OPENSSL_MALLOC_PREFIX));
  match p with
  | None => mret None
  | Some l =>
      assert_ (OPENSSL_MALLOC_PREFIX <=? zlen l);;
      mret (Some (zdrop OPENSSL_MALLOC_PREFIX l))
  end.

(** The size stored in front of the block is the block's length. *)
Definition OPENSSL_realloc (orig_ptr : block) (new_size : Z) : M heap block :=
  match orig_ptr with
  | None => OPENSSL_malloc new_size
  | Some orig =>
      let old_size := zlen orig in
      ret ← OPENSSL_malloc new_size;
      match ret with
      | None => mret None
      | Some l =>
          let to_copy := if old_size <? new_size then old_size else new_size in
          assert_ (to_copy <=? zlen l);;
          mret (Some (ztake to_copy orig ++ zdrop to_copy l))
      end
  end.

(** [strlen]: [None] when the object has no NUL. *)
Fixpoint strlen_from (l : list Z) (n : Z) : option Z :=
  match l with
  | [] => None
  | c :: l => if c =? 0 then Some n else strlen_from l (n + 1)
  end.
Definition strlen (s : ptr) : option Z := strlen_from (ptr_bytes s) 0.

Definition OPENSSL_strdup (s : ptr) : M heap block :=
  n ← deref (strlen s);
  let len := u64 (n + 1) in
  ret ← OPENSSL_malloc len;
  match ret with
  | None => mret None
  | Some l =>
      str ← deref (ptr_read s len);
      assert_ (len <=? zlen l);;
      mret (Some (str ++ zdrop len l))
  end.
End Malloc.

(** The comparison accumulates the differences of every byte, whatever they
    are; only the result's being zero means anything. *)
Fixpoint CRYPTO_memcmp_loop (a b : list Z) (x : Z) : Z :=
  match a, b with
  | ai :: a, bi :: b => CRYPTO_memcmp_loop a b (Z.lor x (Z.lxor ai bi))
  | _, _ => x
  end.
Definition CRYPTO_memcmp (in_a in_b : ptr) (len : Z) : option Z :=
  a ← ptr_read in_a len;
  b ← ptr_read in_b len;
  mret (CRYPTO_memcmp_loop a b 0).

(** libc's [memcmp] on two runs of the same length, by its sign. *)
Fixpoint memcmp_sign (a b : list Z) : Z :=
  match a, b with
  | ai :: a, bi :: b => if ai <? bi then -1 else if bi <? ai then 1 else memcmp_sign a b
  | _, _ => 0
  end.

Definition fnv_kPrime : Z := 16777619.
Definition fnv_kOffsetBasis : Z := 2166136261.
Definition OPENSSL_hash32 (p : ptr) (len : Z) : option Z :=
  input ← ptr_read p len;
  mret (foldl (fun h c => u32 (Z.lxor h c * fnv_kPrime)) fnv_kOffsetBasis input).

Fixpoint OPENSSL_strnlen_loop (l : list Z) (i : Z) (n : nat) : option Z :=
  match n with
  | O => Some i
  | S n =>
      match l with
      | [] => None
      | c :: l => if c =? 0 then Some i else OPENSSL_strnlen_loop l (i + 1) n
      end
  end.
Definition OPENSSL_strnlen (s : ptr) (len : Z) : option Z :=
  OPENSSL_strnlen_loop (ptr_bytes s) 0 (Z.to_nat len).

(** The value of a [char], signed on the targets of this code. *)
Definition schar (b : Z) : Z := if b <? 128 then b else b - 256.

Definition OPENSSL_tolower (c : Z) : Z :=
  if (65 <=? c) && (c <=? 90) then c + (97 - 65) else c.

Fixpoint OPENSSL_strcasecmp_loop (a b : list Z) : option Z :=
  match a, b with
  | ai :: a, bi :: b =>
      let aa := OPENSSL_tolower (schar ai) in
      let bb := OPENSSL_tolower (schar bi) in
      if aa <? bb then Some (-1)
      else if bb <? aa then Some 1
      else if aa =? 0 then Some 0
      else OPENSSL_strcasecmp_loop a b
  | _, _ => None
  end.
Definition OPENSSL_strcasecmp (a b : ptr) : option Z :=
  OPENSSL_strcasecmp_loop (ptr_bytes a) (ptr_bytes b).

Fixpoint OPENSSL_strncasecmp_loop (a b : list Z) (n : nat) : option Z :=
  match n with
  | O => Some 0
  | S n =>
      match a, b with
      | ai :: a, bi :: b =>
          let aa := OPENSSL_tolower (schar ai) in
          let bb := OPENSSL_tolower (schar bi) in
          if aa <? bb then Some (-1)
          else if bb <? aa then Some 1
          else if aa =? 0 then Some 0
          else OPENSSL_strncasecmp_loop a b n
      | _, _ => None
      end
  end.
Definition OPENSSL_strncasecmp (a b : ptr) (n : Z) : option Z :=
  OPENSSL_strncasecmp_loop (ptr_bytes a) (ptr_bytes b) (Z.to_nat n).

(** Allocation as seen by a component whose state is paired with the heap. *)
Definition with_heap {T A} (m : M heap A) : M (T * heap) A :=
  zoom snd (fun h s => (s.1, h)) m.
(** The component's own part of such a state. *)
Definition own {T} : M (T * heap) T := fun s => Ok s.1 s.
Definition set_own {T} (t : T) : M (T * heap) unit := fun s => Ok tt (t, s.2).
