(* ===== verification/Buf.v ===== *)
(** crypto/buf/buf.c: the growable buffer [BUF_MEM] and the bounded string
    functions. The error-queue entries pushed by [OPENSSL_PUT_ERROR] are left
    out: they change nothing these functions or their callers read. *)
From S2P Require Import Prelude Mem.

(** [struct buf_mem_st] *)
Record BUF_MEM := mkBUF_MEM {
  bm_length : Z;
  bm_data : block;
  bm_max : Z;
}.

Section Buf.
Context `{alloc : Allocator}.

(** The block that holds the structure itself is only asked for: [None] is the
    NULL result. *)
Definition sizeof_BUF_MEM : Z := 24.
Definition BUF_MEM_new : M heap (option BUF_MEM) :=
  ret ← OPENSSL_malloc sizeof_BUF_MEM;
  match ret with
  | None => mret None
  | Some _ => mret (Some (mkBUF_MEM 0 None 0))
  end.

Definition BUF_MEM_reserve (cap : Z) : M (BUF_MEM * heap) unit :=
  buf ← own;
  if cap <=? bm_max buf then mret tt else
  let n := u64 (cap + 3) in
  if n <? cap then fail else
  let n := n / 3 in
  let alloc_size := u64 (n * 4) in
  if negb (alloc_size / 4 =? n) then fail else
  new_buf ← with_heap (OPENSSL_realloc (bm_data buf) alloc_size);
  match new_buf with
  | None => fail
  | Some l => set_own (mkBUF_MEM (bm_length buf) (Some l) alloc_size)
  end.

(** The bytes of [buf->data], for a store of [bs] at offset [off]; a store of no
    bytes touches nothing. *)
Definition data_put (d : block) (off : Z) (bs : list Z) : option block :=
  if zlen bs =? 0 then Some d else
  match d with
  | None => None
  | Some l => Some <$> zput l off bs
  end.

Definition BUF_MEM_grow (len : Z) : M (BUF_MEM * heap) Z :=
  BUF_MEM_reserve len;;
  buf ← own;
  d ← (if bm_length buf <? len
       then deref (data_put (bm_data buf) (bm_length buf) (zrep (len - bm_length buf) 0))
       else mret (bm_data buf));
  set_own (mkBUF_MEM len d (bm_max buf));;
  mret len.

Definition BUF_MEM_grow_clean (len : Z) : M (BUF_MEM * heap) Z := BUF_MEM_grow len.

Definition BUF_MEM_append (input : ptr) (len : Z) : M (BUF_MEM * heap) unit :=
  buf ← own;
  let new_len := u64 (bm_length buf + len) in
  if new_len <? len then fail else
  BUF_MEM_reserve new_len;;
  buf ← own;
  bs ← deref (ptr_read input len);
  d ← deref (data_put (bm_data buf) (bm_length buf) bs);
  set_own (mkBUF_MEM new_len d (bm_max buf)).

Definition BUF_strnlen (str : ptr) (max_len : Z) : option Z :=
  OPENSSL_strnlen_loop (ptr_bytes str) 0 (Z.to_nat max_len).

Definition BUF_strndup (str : ptr) (size : Z) : M heap block :=
  if is_null str then mret None else
  size ← deref (BUF_strnlen str size);
  let alloc_size := u64 (size + 1) in
  if alloc_size <? size then mret None else
  ret ← OPENSSL_malloc alloc_size;
  match ret with
  | None => mret None
  | Some l =>
      s ← deref (ptr_read str size);
      l ← deref (zput l 0 s);
      l ← deref (zset l size 0);
      mret (Some l)
  end.

Definition BUF_strdup (str : ptr) : M heap block :=
  if is_null str then mret None else
  n ← deref (strlen str);
  BUF_strndup str n.

Definition BUF_memdup (data : ptr) (size : Z) : M heap block :=
  if size =? 0 then mret None else
  ret ← OPENSSL_malloc size;
  match ret with
  | None => mret None
  | Some l =>
      bs ← deref (ptr_read data size);
      l ← deref (zput l 0 bs);
      mret (Some l)
  end.
End Buf.

(** The copying loop of [BUF_strlcpy]: [d] counts the bytes already stored, and
    the result is (what is left of the source, the destination, [d], what is left
    of [dst_size], [l]). *)
Fixpoint BUF_strlcpy_loop (src dst : list Z) (d dst_size l : Z)
    : option (list Z * list Z * Z * Z * Z) :=
  if 1 <? dst_size then
    match src with
    | [] => None
    | c :: src' =>
        if c =? 0 then Some (src, dst, d, dst_size, l)
        else dst ← zset dst d c; BUF_strlcpy_loop src' dst (d + 1) (dst_size - 1) (l + 1)
    end
  else Some (src, dst, d, dst_size, l).

(** The destination is an object's bytes; the result is (them, the return value). *)
Definition BUF_strlcpy_at (dst : list Z) (d : Z) (src : list Z) (dst_size : Z)
    : option (list Z * Z) :=
  '(src, dst, d, dst_size, l) ← BUF_strlcpy_loop src dst d dst_size 0;
  dst ← (if dst_size =? 0 then Some dst else zset dst d 0);
  n ← strlen_from src 0;
  mret (dst, u64 (l + n)).
Definition BUF_strlcpy (dst src : list Z) (dst_size : Z) : option (list Z * Z) :=
  BUF_strlcpy_at dst 0 src dst_size.

(** The loop of [BUF_strlcat] that looks for the end of [dst], [n] bytes at most. *)
Fixpoint BUF_strlcat_loop (dst : list Z) (d : Z) (n : nat) : option Z :=
  match n with
  | O => Some d
  | S n =>
      c ← zget dst d;
      if c =? 0 then Some d else BUF_strlcat_loop dst (d + 1) n
  end.
Definition BUF_strlcat (dst src : list Z) (dst_size : Z) : option (list Z * Z) :=
  l ← BUF_strlcat_loop dst 0 (Z.to_nat dst_size);
  '(dst, n) ← BUF_strlcpy_at dst l src (dst_size - l);
  mret (dst, u64 (l + n)).
