(* ===== verification/MemFacts.v ===== *)
(** Facts about [Mem] and [Buf]: the allocator wrappers, and the growable buffer
    and bounded strings against their contents. *)
From S2P Require Import Prelude Mem Buf.

Definition block_bytes (d : block) : list Z := match d with None => [] | Some l => l end.

(** The largest block [OPENSSL_malloc] can return. *)
Definition cap_max : Z := 2 ^ 63 - 9.

(** * Components paired with the heap *)

Section Own.
Context {T : Type}.
Lemma wp_own (Q : T -> T * heap -> Prop) E s : Q s.1 s -> wp own Q E s.
Proof. done. Qed.
Lemma wp_set_own t (Q : unit -> T * heap -> Prop) E s : Q tt (t, s.2) -> wp (set_own t) Q E s.
Proof. done. Qed.
Lemma wp_with_heap {A} (m : M heap A) (Q : A -> T * heap -> Prop) E s :
  wp m (fun a h => Q a (s.1, h)) (fun h => E (s.1, h)) s.2 -> wp (with_heap m) Q E s.
Proof. unfold wp, with_heap, zoom. by destruct (m s.2). Qed.
End Own.

Section Alloc.
Context `{alloc : Allocator}.

(** * libc *)

Lemma zlen_fmap {A B} (f : A -> B) (l : list A) : zlen (f <$> l) = zlen l.
Proof. unfold zlen. by rewrite length_fmap. Qed.
Lemma zlen_zseq a n : 0 <= n -> zlen (zseq a n) = n.
Proof. intros. unfold zlen, zseq. rewrite length_seqZ. lia. Qed.

Lemma bytes_garbage n l : bytes (garbage n <$> l).
Proof. apply Forall_fmap, Forall_true. intros i. apply garbage_byte. Qed.

Lemma OPENSSL_malloc_spec size h :
  0 <= size < 2 ^ 64 - 8 ->
  wp (OPENSSL_malloc size)
    (fun p h' => match p with
       | Some l => zlen l = size /\ bytes l /\ size + 8 < 2 ^ 63
       | None => exists n, malloc_ok n (size + 8) = false
       end) (fun _ => False) h.
Proof.
  intros Hs. unfold OPENSSL_malloc, OPENSSL_MALLOC_PREFIX, u64, libc_malloc.
  rewrite Z.mod_small by lia. unfold wp, mbind, M_bind.
  destruct (malloc_ok h (size + 8)) eqn:Hok; cbn; [|eauto].
  pose proof (malloc_limit _ _ Hok) as Hlim.
  assert (Hz : zlen (garbage h <$> zseq 0 (size + 8)) = size + 8).
  { rewrite zlen_fmap, zlen_zseq; lia. }
  unfold assert_. rewrite Hz, (proj2 (Z.leb_le 8 (size + 8))) by lia. cbn.
  split_and!; [rewrite zlen_zdrop; lia|apply bytes_zdrop, bytes_garbage|lia].
Qed.

Lemma OPENSSL_realloc_spec d size h :
  0 <= size < 2 ^ 64 - 8 -> zlen (block_bytes d) <= size ->
  wp (OPENSSL_realloc d size)
    (fun p h' => match p with
       | Some l => zlen l = size /\ size + 8 < 2 ^ 63 /\ exists fresh, l = block_bytes d ++ fresh
       | None => exists n, malloc_ok n (size + 8) = false
       end) (fun _ => False) h.
Proof.
  intros Hs Hd. unfold OPENSSL_realloc. destruct d as [l|]; cbn in Hd.
  - wp_go. wp_call OPENSSL_malloc_spec; [done| |done]. intros [l'|] h'; [|done].
    intros (Hl & _ & Hlim).
    assert ((if zlen l <? size then zlen l else size) = zlen l) as Heq.
    { destruct (Z.ltb_spec (zlen l) size); lia. }
    rewrite Heq. apply wp_bind. apply wp_assert; [lia|]. wp_go.
    rewrite ztake_all. split_and!; [|done|eauto]. zlist. rewrite zlen_zdrop; [lia|]. split; zlist.
  - wp_call OPENSSL_malloc_spec; [done| |done]. intros [l'|] h'; [|done].
    intros (Hl & _ & Hlim). cbn. eauto.
Qed.

Lemma BUF_memdup_spec p n bs h :
  ptr_read p n = Some bs -> 0 < n < 2 ^ 63 ->
  wp (BUF_memdup p n)
    (fun r _ => match r with Some l => l = bs | None => exists k, malloc_ok k (n + 8) = false end)
    (fun _ => False) h.
Proof.
  intros Hread Hn.
  assert (Hz : zlen bs = n).
  { revert Hread. unfold ptr_read. destruct (_ && _) eqn:E; [|done]. intros [= <-]. apply zlen_ztake. lia. }
  unfold BUF_memdup. rewrite (proj2 (Z.eqb_neq _ _)) by lia. apply wp_bind.
  wp_call OPENSSL_malloc_spec; [lia| |done]. intros [l|] h'; [|intros [k Hk]; apply wp_ret; eauto].
  intros (Hl & _). apply wp_bind. eapply wp_deref; [exact Hread|]. apply wp_bind. eapply wp_deref.
  { apply zput_Some; [done|lia]. }
  apply wp_ret. rewrite Z.add_0_l, Hz, ztake_0. cbn [app].
  rewrite <- Hl, zdrop_all. apply app_nil_r.
Qed.
End Alloc.
