(* ===== verification/BufThms.v ===== *)
(** Theorems about crypto/mem.c and crypto/buf/buf.c: the growable buffer is a byte
    string with amortised growth, the bounded copies truncate and terminate, and
    the constant-time comparison decides equality. *)
From S2P Require Import Prelude Mem Buf MemFacts.

(** * The growable buffer *)

(** The representation invariant of [BUF_MEM]. *)
Definition bm_ok (b : BUF_MEM) : Prop :=
  0 <= bm_length b <= bm_max b /\ bm_max b = zlen (block_bytes (bm_data b)) /\ bm_max b <= cap_max.

(** The byte string a [BUF_MEM] stands for. *)
Definition contents (b : BUF_MEM) : list Z := ztake (bm_length b) (block_bytes (bm_data b)).

Lemma zlen_contents b : bm_ok b -> zlen (contents b) = bm_length b.
Proof. intros (H & Hm & _). apply zlen_ztake. lia. Qed.

(** Storing at the end of the contents. *)
Lemma data_put_end b bs :
  bm_ok b -> bm_length b + zlen bs <= bm_max b ->
  exists d, data_put (bm_data b) (bm_length b) bs = Some d /\
    zlen (block_bytes d) = bm_max b /\ ztake (bm_length b + zlen bs) (block_bytes d) = contents b ++ bs.
Proof.
  intros (Hl & Hm & _) Hle. unfold data_put, contents. pose proof (zlen_nonneg bs) as Hbs.
  destruct (Z.eqb_spec (zlen bs) 0) as [H0|H0].
  - exists (bm_data b). apply zlen_0 in H0 as ->. rewrite zlen_nil, Z.add_0_r, app_nil_r. done.
  - destruct (bm_data b) as [l|]; cbn [block_bytes] in *; [|rewrite zlen_nil in Hm; lia].
    rewrite zput_Some by lia. eexists. split; [done|]. cbn [block_bytes].
    rewrite app_assoc. split.
    + rewrite !zlen_app, zlen_ztake, zlen_zdrop; lia.
    + apply ztake_app. rewrite zlen_app, zlen_ztake; lia.
Qed.

Section Grow.
Context `{alloc : Allocator}.

(** There is no room for [cap] bytes, and the allocator refuses the block to hold them. *)
Definition no_buffer (b : BUF_MEM) (cap : Z) : Prop :=
  bm_max b < cap /\ exists n, malloc_ok n ((cap + 3) / 3 * 4 + 8) = false.

Lemma BUF_MEM_reserve_spec cap b h :
  bm_ok b -> 0 <= cap <= 2 ^ 62 ->
  wp (BUF_MEM_reserve cap)
    (fun _ '(b', _) => bm_ok b' /\ bm_length b' = bm_length b /\ contents b' = contents b /\ cap <= bm_max b')
    (fun '(b', _) => b' = b /\ no_buffer b cap) (b, h).
Proof.
  intros Hok Hcap. pose proof Hok as (Hl & Hm & Hmax). unfold BUF_MEM_reserve.
  apply wp_bind, wp_own. cbn [fst].
  destruct (Z.leb_spec cap (bm_max b)); [by apply wp_ret|].
  assert (Hn : u64 (cap + 3) = cap + 3) by (unfold u64; apply Z.mod_small; lia).
  assert (Hq : (cap + 3) / 3 * 3 <= cap + 3 < (cap + 3) / 3 * 3 + 3) by (Z.div_mod_to_equations; lia).
  assert (Ha : u64 ((cap + 3) / 3 * 4) = (cap + 3) / 3 * 4) by (unfold u64; apply Z.mod_small; lia).
  rewrite Hn, Ha, (proj2 (Z.ltb_ge _ _)), Z.div_mul by lia. rewrite Z.eqb_refl. cbn [negb].
  apply wp_bind, wp_with_heap. cbn [fst snd]. wp_call OPENSSL_realloc_spec; [lia|lia| |done].
  intros [l|] h'.
  - intros (Hz & Hlim & fresh & ->). apply wp_set_own. unfold bm_ok, contents, cap_max. cbn.
    split_and!; [lia|lia|done|lia|done| |lia]. apply ztake_app_le. lia.
  - intros Hn'. by apply wp_fail.
Qed.

Lemma BUF_MEM_append_spec b h p n bs :
  bm_ok b -> ptr_read p n = Some bs -> n <= 2 ^ 61 -> bm_length b <= 2 ^ 61 ->
  wp (BUF_MEM_append p n)
    (fun _ '(b', _) => bm_ok b' /\ contents b' = contents b ++ bs)
    (fun '(b', _) => b' = b /\ no_buffer b (bm_length b + n)) (b, h).
Proof.
  intros Hok Hread Hn Hlen. pose proof Hok as (Hl & Hm & Hmax).
  assert (Hz : zlen bs = n /\ 0 <= n).
  { revert Hread. unfold ptr_read. destruct (_ && _) eqn:E; [|done]. intros [= <-]. rewrite zlen_ztake; lia. }
  destruct Hz as [Hz Hn0]. unfold BUF_MEM_append. apply wp_bind, wp_own. cbn [fst].
  assert (Hu : u64 (bm_length b + n) = bm_length b + n) by (unfold u64; apply Z.mod_small; lia).
  cbv zeta. rewrite Hu, (proj2 (Z.ltb_ge _ _)) by lia. apply wp_bind.
  wp_call BUF_MEM_reserve_spec; [done|lia| |done].
  intros _ [b1 h1] (Hok1 & Hl1 & Hc1 & Hcap1). apply wp_bind, wp_own. cbn [fst].
  apply wp_bind. eapply wp_deref; [exact Hread|]. apply wp_bind. rewrite <- Hl1.
  destruct (data_put_end b1 bs Hok1) as (d & Hd & Hzd & Ht); [lia|].
  eapply wp_deref; [exact Hd|]. apply wp_set_own. destruct Hok1 as (Hl1' & Hm1 & Hmax1).
  unfold bm_ok. cbn [bm_length bm_data bm_max]. rewrite Hzd. split.
  - split_and!; lia || done.
  - unfold contents at 1. cbn [bm_length bm_data]. by rewrite <- Hz, Ht, Hc1.
Qed.

(** Growing pads with zeros; shrinking truncates. *)
Lemma BUF_MEM_grow_spec b h len :
  bm_ok b -> 0 <= len <= 2 ^ 62 ->
  wp (BUF_MEM_grow len)
    (fun r '(b', _) => r = len /\ bm_ok b' /\
       contents b' = ztake len (contents b ++ zrep (len - bm_length b) 0))
    (fun '(b', _) => b' = b /\ no_buffer b len) (b, h).
Proof.
  intros Hok Hlen. unfold BUF_MEM_grow. apply wp_bind.
  wp_call BUF_MEM_reserve_spec; [done|done| |done].
  intros _ [b1 h1] (Hok1 & Hl1 & Hc1 & Hcap1). apply wp_bind, wp_own. cbn [fst]. rewrite <- Hl1, <- Hc1.
  pose proof (zlen_contents b1 Hok1) as Hzc. pose proof Hok1 as (Hl1' & Hm1 & Hmax1).
  apply wp_bind. destruct (Z.ltb_spec (bm_length b1) len).
  - destruct (data_put_end b1 (zrep (len - bm_length b1) 0) Hok1) as (d & Hd & Hzd & Ht);
      rewrite zlen_zrep in * by lia; [lia|].
    eapply wp_deref; [exact Hd|]. apply wp_bind, wp_set_own, wp_ret. split; [done|].
    replace (bm_length b1 + (len - bm_length b1)) with len in Ht by lia.
    unfold bm_ok, contents at 1. cbn [bm_length bm_data bm_max]. rewrite Hzd, Ht. split; [split_and!; lia || done|].
    rewrite <- (ztake_all (contents b1 ++ _)) at 1. f_equal. rewrite zlen_app, zlen_zrep; lia.
  - apply wp_ret, wp_bind, wp_set_own, wp_ret. split; [done|].
    unfold bm_ok, contents at 1. cbn [bm_length bm_data bm_max]. split; [split_and!; lia || done|].
    rewrite ztake_app_le by lia. unfold contents. by rewrite ztake_ztake by lia.
Qed.
End Grow.

(** * Bounded copies *)

Definition no_nul (s : list Z) : Prop := Forall (fun c => c <> 0) s.

Lemma strlen_from_spec s t n : no_nul s -> strlen_from (s ++ 0 :: t) n = Some (n + zlen s).
Proof.
  revert n. induction s as [|c s IH]; intros n Hs; cbn; [by rewrite Z.add_0_r|].
  apply Forall_cons in Hs as [Hc Hs]. rewrite (proj2 (Z.eqb_neq _ _) Hc), IH, zlen_cons by done. f_equal. lia.
Qed.

(** The bytes that fit in front of the terminator. *)
Definition fits (dst_size : Z) (s : list Z) : Z := Z.max 0 (Z.min (dst_size - 1) (zlen s)).

Lemma BUF_strlcpy_loop_spec s t : forall A O n l,
  no_nul s -> 0 <= n <= zlen O ->
  let k := fits n s in
  BUF_strlcpy_loop (s ++ 0 :: t) (A ++ O) (zlen A) n l =
  Some (zdrop k s ++ 0 :: t, A ++ ztake k s ++ zdrop k O, zlen A + k, n - k, l + k).
Proof.
  induction s as [|c s IH]; intros A O n l Hs Hn; unfold fits; cbv zeta.
  - change (zlen (@nil Z)) with 0. replace (Z.max 0 (Z.min (n - 1) 0)) with 0 by lia.
    cbn. rewrite !Z.add_0_r, Z.sub_0_r. by destruct (1 <? n).
  - apply Forall_cons in Hs as [Hc Hs]. rewrite zlen_cons. cbn [app BUF_strlcpy_loop].
    pose proof (zlen_nonneg s). destruct (Z.ltb_spec 1 n) as [H1|H1].
    + rewrite (proj2 (Z.eqb_neq c 0)) by done.
      destruct (zlen_pos O) as (o & O' & ->); [lia|]. rewrite zset_app by done. cbn [mbind option_bind].
      replace (zlen A + 1) with (zlen (A ++ [c])) by by rewrite zlen_snoc.
      replace (A ++ c :: O') with ((A ++ [c]) ++ O') by by rewrite <- app_assoc.
      rewrite zlen_cons in Hn. rewrite (IH (A ++ [c]) O' (n - 1) (l + 1) Hs) by lia.
      unfold fits. set (k := Z.max 0 (Z.min (n - 1 - 1) (zlen s))).
      replace (Z.max 0 (Z.min (n - 1) (1 + zlen s))) with (1 + k) by lia.
      rewrite zlen_snoc. unfold zdrop, ztake. rewrite !Z2Nat.inj_add by lia. cbn [Nat.add take drop].
      change (Z.to_nat 1) with 1%nat. cbn [Nat.add take drop]. rewrite <- app_assoc. cbn [app].
      replace (zlen A + 1 + k) with (zlen A + (1 + k)) by lia.
      replace (n - 1 - k) with (n - (1 + k)) by lia. by replace (l + 1 + k) with (l + (1 + k)) by lia.
    + replace (Z.max 0 (Z.min (n - 1) (1 + zlen s))) with 0 by lia.
      by rewrite !Z.add_0_r, Z.sub_0_r.
Qed.

Lemma BUF_strlcpy_at_spec A O s t n :
  no_nul s -> 0 <= n <= zlen O -> zlen s < 2 ^ 64 ->
  BUF_strlcpy_at (A ++ O) (zlen A) (s ++ 0 :: t) n =
  Some (if n =? 0 then A ++ O else A ++ ztake (fits n s) s ++ 0 :: zdrop (fits n s + 1) O, zlen s).
Proof.
  intros Hs Hn Hlen. unfold BUF_strlcpy_at. rewrite BUF_strlcpy_loop_spec by done. cbn [mbind option_bind].
  pose proof (zlen_nonneg s). set (k := fits n s). assert (Hk : 0 <= k <= zlen s /\ (0 < n -> k <= n - 1)) by (unfold k, fits; lia).
  assert (Hn' : strlen_from (zdrop k s ++ 0 :: t) 0 = Some (zlen s - k)).
  { rewrite strlen_from_spec by by apply Forall_drop. rewrite zlen_zdrop; [f_equal; lia|lia]. }
  destruct (Z.eqb_spec n 0) as [->|Hnz].
  - assert (k = 0) as Hk0 by (unfold k, fits; lia). rewrite Hk0 in *. cbn [mbind option_bind Z.sub Z.eqb].
    change (0 - 0 =? 0) with true. cbn [mbind option_bind]. rewrite Hn'. cbn. unfold u64. rewrite Z.mod_small by lia.
    do 2 f_equal. lia.
  - rewrite (proj2 (Z.eqb_neq (n - k) 0)) by lia.
    destruct (zlen_pos (zdrop k O)) as (o & O' & HO); [rewrite zlen_zdrop; lia|].
    rewrite HO. rewrite app_assoc. rewrite zset_app by (rewrite zlen_app, zlen_ztake; lia).
    cbn [mbind option_bind]. rewrite Hn'. cbn [mbind option_bind]. unfold u64. rewrite Z.mod_small by lia.
    assert (O' = zdrop (k + 1) O) as ->.
    { rewrite <- (zdrop_zdrop 1 k) by lia. by rewrite HO. }
    rewrite <- app_assoc. unfold mret, option_ret. do 2 f_equal. lia.
Qed.

Lemma BUF_strlcat_loop_end d0 tl : forall A n,
  no_nul d0 -> (length d0 < n)%nat ->
  BUF_strlcat_loop (A ++ d0 ++ 0 :: tl) (zlen A) n = Some (zlen A + zlen d0).
Proof.
  induction d0 as [|c d0 IH]; intros A [|n] Hd Hn; cbn in Hn; try lia; cbn [app BUF_strlcat_loop].
  - rewrite zget_middle by done. cbn. by rewrite Z.add_0_r.
  - apply Forall_cons in Hd as [Hc Hd]. rewrite zget_middle by done. cbn [mbind option_bind].
    rewrite (proj2 (Z.eqb_neq c 0)) by done.
    replace (zlen A + 1) with (zlen (A ++ [c])) by by rewrite zlen_snoc.
    replace (A ++ c :: d0 ++ 0 :: tl) with ((A ++ [c]) ++ d0 ++ 0 :: tl) by by rewrite <- app_assoc.
    rewrite IH by (done || lia). rewrite zlen_snoc, zlen_cons. f_equal. lia.
Qed.

(** * Comparisons *)

Lemma CRYPTO_memcmp_loop_zero a b x :
  length a = length b -> CRYPTO_memcmp_loop a b x = 0 <-> x = 0 /\ a = b.
Proof.
  revert b x. induction a as [|ai a IH]; intros [|bi b] x Hl; try done; cbn.
  - split; [auto|by intros []].
  - injection Hl as Hl. rewrite IH, Z.lor_eq_0_iff, Z.lxor_eq_0_iff by done.
    split; [intros [[-> ->] ->]; done|intros [-> [= -> ->]]; done].
Qed.

(** The characters of a string, as the comparison sees them. *)
Definition folded (s : list Z) : list Z := (fun b => OPENSSL_tolower (schar b)) <$> s.

Lemma tolower_nul b : is_byte b -> (OPENSSL_tolower (schar b) = 0 <-> b = 0).
Proof.
  intros Hb. unfold is_byte in Hb. unfold OPENSSL_tolower, schar.
  destruct (Z.ltb_spec b 128); destruct (_ && _) eqn:E; lia.
Qed.

Lemma strcasecmp_loop_spec s : forall s' t t',
  bytes s -> bytes s' -> no_nul s -> no_nul s' ->
  exists r, OPENSSL_strcasecmp_loop (s ++ 0 :: t) (s' ++ 0 :: t') = Some r /\
    OPENSSL_strcasecmp_loop (s' ++ 0 :: t') (s ++ 0 :: t) = Some (- r) /\
    (r = 0 <-> folded s = folded s').
Proof.
  assert (Hz : OPENSSL_tolower (schar 0) = 0) by done.
  induction s as [|c s IH]; intros [|c' s'] t t' Hb Hb' Hn Hn'; cbn [app OPENSSL_strcasecmp_loop folded fmap list_fmap].
  - by exists 0.
  - apply bytes_cons in Hb' as [Hc' _]. apply Forall_cons in Hn' as [Hn' _].
    pose proof (tolower_nul c' Hc') as Ht. rewrite Hz.
    destruct (Z.ltb_spec 0 (OPENSSL_tolower (schar c'))).
    + exists (-1). rewrite (proj2 (Z.ltb_ge _ 0)) by lia. split_and!; done.
    + rewrite (proj2 (Z.ltb_lt _ 0)) by (destruct (Z.eq_dec (OPENSSL_tolower (schar c')) 0); [tauto|lia]).
      exists 1. split_and!; done.
  - apply bytes_cons in Hb as [Hc _]. apply Forall_cons in Hn as [Hn _].
    pose proof (tolower_nul c Hc) as Ht. rewrite Hz.
    destruct (Z.ltb_spec (OPENSSL_tolower (schar c)) 0).
    + exists (-1). rewrite (proj2 (Z.ltb_ge 0 _)) by lia. split_and!; done.
    + rewrite (proj2 (Z.ltb_lt 0 _)) by (destruct (Z.eq_dec (OPENSSL_tolower (schar c)) 0); [tauto|lia]).
      exists 1. split_and!; done.
  - apply bytes_cons in Hb as [Hc Hb]. apply bytes_cons in Hb' as [Hc' Hb'].
    apply Forall_cons in Hn as [Hn1 Hn]. apply Forall_cons in Hn' as [Hn1' Hn'].
    pose proof (tolower_nul c Hc) as Ht. pose proof (tolower_nul c' Hc') as Ht'.
    destruct (Z.ltb_spec (OPENSSL_tolower (schar c)) (OPENSSL_tolower (schar c'))).
    { exists (-1). rewrite (proj2 (Z.ltb_ge (OPENSSL_tolower (schar c')) _)) by lia.
      split_and!; [done|done|]. split; [done|]. intros [= Heq _]. lia. }
    destruct (Z.ltb_spec (OPENSSL_tolower (schar c')) (OPENSSL_tolower (schar c))).
    { exists 1. split_and!; [done|done|]. split; [done|]. intros [= Heq _]. lia. }
    rewrite (proj2 (Z.eqb_neq (OPENSSL_tolower (schar c)) 0)), (proj2 (Z.eqb_neq (OPENSSL_tolower (schar c')) 0)) by tauto.
    destruct (IH s' t t' Hb Hb' Hn Hn') as (r & Hr & Hr' & Hf). exists r. split_and!; [done|done|].
    rewrite Hf. assert (OPENSSL_tolower (schar c) = OPENSSL_tolower (schar c')) as Heq by lia. unfold folded.
    rewrite Heq. split; [by intros ->|by intros [= ->]].
Qed.

(** * The theorems *)

Section Theorems.
Context `{alloc : Allocator}.

(** [BUF_MEM] is a byte string: [BUF_MEM_append] appends exactly the bytes it
    is given and keeps the representation invariant (the length within the
    allocation), or, when they do not fit and the allocator refuses the larger
    block, fails and leaves the buffer as it was. *)
Theorem BUF_MEM_append_appends b h l n :
  bm_ok b -> 0 <= n <= zlen l -> n <= 2 ^ 61 -> bm_length b <= 2 ^ 61 ->
  wp (BUF_MEM_append (P l) n)
    (fun _ '(b', _) => bm_ok b' /\ contents b' = contents b ++ ztake n l)
    (fun '(b', _) => b' = b /\ no_buffer b (bm_length b + n)) (b, h).
Proof.
  intros Hok Hn H1 H2. apply BUF_MEM_append_spec; [done| |done|done]. unfold ptr_read. cbn [ptr_bytes].
  by rewrite (proj2 (Z.leb_le 0 _)), (proj2 (Z.leb_le _ _)) by lia.
Qed.

(** [BUF_MEM_grow] pads the byte string with zeros up to the length asked for,
    or truncates it, keeping the invariant; it fails only when the block it needs is refused and
    then changes nothing. *)
Theorem BUF_MEM_grow_pads b h len :
  bm_ok b -> 0 <= len <= 2 ^ 62 ->
  wp (BUF_MEM_grow len)
    (fun r '(b', _) => r = len /\ bm_ok b' /\
       contents b' = ztake len (contents b ++ zrep (len - bm_length b) 0))
    (fun '(b', _) => b' = b /\ no_buffer b len) (b, h).
Proof. apply BUF_MEM_grow_spec. Qed.
End Theorems.

(** C23. The request [BUF_MEM_reserve] computes can wrap inside [OPENSSL_malloc]:
    for a capacity near three quarters of the address space the overflow checks of
    [BUF_MEM_reserve] pass, [size + OPENSSL_MALLOC_PREFIX] wraps to 4, and the
    eight-byte size prefix is stored in a four-byte block. *)
Theorem BUF_MEM_reserve_prefix_overflow (alloc : Allocator) h :
  malloc_ok h 4 = true ->
  BUF_MEM_reserve (3 * 2 ^ 62 - 6) (mkBUF_MEM 0 None 0, h) = Stuck.
Proof.
  intros Hok. unfold BUF_MEM_reserve, mbind, M_bind, own. cbn [fst bm_max].
  change (3 * 2 ^ 62 - 6 <=? 0) with false. cbv beta iota zeta.
  change (u64 (3 * 2 ^ 62 - 6 + 3)) with (3 * 2 ^ 62 - 3). change (3 * 2 ^ 62 - 3 <? 3 * 2 ^ 62 - 6) with false.
  change (u64 ((3 * 2 ^ 62 - 3) / 3 * 4)) with (2 ^ 64 - 4). change (negb ((2 ^ 64 - 4) / 4 =? (3 * 2 ^ 62 - 3) / 3)) with false.
  cbv beta iota. unfold with_heap, zoom. cbn [fst snd bm_data OPENSSL_realloc].
  unfold OPENSSL_malloc, libc_malloc, mbind, M_bind.
  change (u64 (2 ^ 64 - 4 + OPENSSL_MALLOC_PREFIX)) with 4. by rewrite Hok.
Qed.

(** [BUF_strlcpy] copies as much of the string as fits in front of a
    terminator, always terminates a non-empty destination, writes nothing past it,
    and returns the length of the source. *)
Theorem BUF_strlcpy_truncates dst s t n :
  no_nul s -> 0 <= n <= zlen dst -> zlen s < 2 ^ 64 ->
  BUF_strlcpy dst (s ++ 0 :: t) n =
  Some (if n =? 0 then dst else ztake (fits n s) s ++ 0 :: zdrop (fits n s + 1) dst, zlen s).
Proof. intros. unfold BUF_strlcpy. by rewrite (BUF_strlcpy_at_spec [] dst). Qed.

(** [BUF_strlcat] appends to the string already in the destination in the same
    way, and returns the length the whole would have had. *)
Theorem BUF_strlcat_appends d0 tl s t n :
  no_nul d0 -> no_nul s -> zlen d0 < n <= zlen (d0 ++ 0 :: tl) -> zlen d0 + zlen s < 2 ^ 64 ->
  let k := fits (n - zlen d0) s in
  BUF_strlcat (d0 ++ 0 :: tl) (s ++ 0 :: t) n =
  Some (d0 ++ ztake k s ++ 0 :: zdrop (k + 1) (0 :: tl), zlen d0 + zlen s).
Proof.
  intros Hd Hs Hn Hlt k. pose proof (zlen_nonneg d0). pose proof (zlen_nonneg s). unfold BUF_strlcat.
  assert (BUF_strlcat_loop (d0 ++ 0 :: tl) 0 (Z.to_nat n) = Some (zlen d0)) as ->.
  { apply (BUF_strlcat_loop_end d0 tl [] (Z.to_nat n)); [done|unfold zlen in *; lia]. }
  cbn [mbind option_bind].
  rewrite zlen_app in Hn. rewrite BUF_strlcpy_at_spec by (done || lia). cbn [mbind option_bind].
  rewrite (proj2 (Z.eqb_neq _ 0)) by lia. unfold mret, option_ret, u64. by rewrite Z.mod_small by lia.
Qed.

(** [CRYPTO_memcmp] of two buffers of the same length is zero exactly when they
    are equal. *)
Theorem CRYPTO_memcmp_decides a b len :
  0 <= len <= zlen a -> len <= zlen b ->
  exists r, CRYPTO_memcmp (P a) (P b) len = Some r /\ (r = 0 <-> ztake len a = ztake len b).
Proof.
  intros Ha Hb. unfold CRYPTO_memcmp, ptr_read. cbn [ptr_bytes].
  rewrite (proj2 (Z.leb_le 0 len)), (proj2 (Z.leb_le len (zlen a))), (proj2 (Z.leb_le len (zlen b))) by lia.
  eexists. split; [reflexivity|]. rewrite CRYPTO_memcmp_loop_zero; [tauto|].
  apply Nat2Z.inj. fold (zlen (ztake len a)) (zlen (ztake len b)). rewrite !zlen_ztake; lia.
Qed.

(** [OPENSSL_strcasecmp] of two C strings is zero exactly when they agree up to
    the case of ASCII letters, and changes sign when they are swapped. *)
Theorem OPENSSL_strcasecmp_folds s s' t t' :
  bytes s -> bytes s' -> no_nul s -> no_nul s' ->
  exists r, OPENSSL_strcasecmp (P (s ++ 0 :: t)) (P (s' ++ 0 :: t')) = Some r /\
    OPENSSL_strcasecmp (P (s' ++ 0 :: t')) (P (s ++ 0 :: t)) = Some (- r) /\
    (r = 0 <-> folded s = folded s').
Proof. apply strcasecmp_loop_spec. Qed.

(** * Witnesses *)

Definition ex_buf : BUF_MEM := mkBUF_MEM 2 (Some [1; 2; 9; 9]) 4.
Lemma ex_buf_ok : bm_ok ex_buf.
Proof. unfold bm_ok, cap_max. cbn. split_and!; lia || done. Qed.

Lemma BUF_MEM_append_appends_witness :
  exists s, @BUF_MEM_append plenty (P [7; 8; 9]) 3 (ex_buf, 0%nat) = Ok tt s /\ contents s.1 = [1; 2; 7; 8; 9].
Proof.
  pose proof (@BUF_MEM_append_appends plenty ex_buf 0%nat [7; 8; 9] 3 ex_buf_ok ltac:(done) ltac:(done) ltac:(done)) as H.
  eexists. split; [vm_compute; reflexivity|].
  eapply wp_ok in H; [|vm_compute; reflexivity]. destruct H as [_ Hc]. exact Hc.
Defined.

Lemma BUF_MEM_grow_pads_witness :
  exists s, @BUF_MEM_grow plenty 6 (ex_buf, 0%nat) = Ok 6 s /\ contents s.1 = [1; 2; 0; 0; 0; 0].
Proof.
  pose proof (@BUF_MEM_grow_pads plenty ex_buf 0%nat 6 ex_buf_ok ltac:(done)) as H.
  eexists. split; [vm_compute; reflexivity|].
  eapply wp_ok in H; [|vm_compute; reflexivity]. destruct H as (_ & _ & Hc). exact Hc.
Defined.

Lemma BUF_MEM_reserve_prefix_overflow_witness :
  @BUF_MEM_reserve plenty (3 * 2 ^ 62 - 6) (mkBUF_MEM 0 None 0, 0%nat) = Stuck.
Proof. apply (BUF_MEM_reserve_prefix_overflow plenty). reflexivity. Defined.

Lemma BUF_strlcpy_truncates_witness :
  BUF_strlcpy [9; 9; 9; 9] [65; 66; 67; 0] 3 = Some ([65; 66; 0; 9], 3).
Proof. apply (BUF_strlcpy_truncates [9; 9; 9; 9] [65; 66; 67] [] 3); [repeat constructor; done|done|done]. Defined.

Lemma BUF_strlcat_appends_witness :
  BUF_strlcat [65; 0; 9; 9] [66; 67; 68; 0] 4 = Some ([65; 66; 67; 0], 4).
Proof.
  apply (BUF_strlcat_appends [65] [9; 9] [66; 67; 68] [] 4); [repeat constructor; done..|done|done].
Defined.

Lemma CRYPTO_memcmp_decides_witness :
  exists r, CRYPTO_memcmp (P [1; 2; 3]) (P [1; 2; 4]) 3 = Some r /\ (r = 0 <-> [1; 2; 3] = [1; 2; 4]).
Proof. apply (CRYPTO_memcmp_decides [1; 2; 3] [1; 2; 4] 3); done. Defined.

Lemma OPENSSL_strcasecmp_folds_witness :
  exists r, OPENSSL_strcasecmp (P [65; 98; 0]) (P [97; 66; 0]) = Some r /\
    OPENSSL_strcasecmp (P [97; 66; 0]) (P [65; 98; 0]) = Some (- r) /\ (r = 0 <-> folded [65; 98] = folded [97; 66]).
Proof. apply (OPENSSL_strcasecmp_folds [65; 98] [97; 66] [] []); repeat constructor; done. Defined.
