(* ===== verification/Cbs.v ===== *)
(** crypto/bytestring/cbs.c: the byte-string parser. A [CBS] is a cursor (pointer
    and length); the object it points into never changes, so the state of a parse
    is the cursor alone and every operation is a program of type [M CBS]. *)
From S2P Require Import Prelude Mem Buf.

(** [struct cbs_st] *)
Record CBS := mkCBS {
  cbs_data : ptr;
  cbs_len : Z;
}.

(** include/openssl/bytestring.h: tag values. The class and the constructed bit
    sit in the top three bits of a 32-bit word, the tag number below. *)
Definition CBS_ASN1_TAG_SHIFT : Z := 24.
Definition CBS_ASN1_CONSTRUCTED : Z := Z.shiftl 0x20 CBS_ASN1_TAG_SHIFT.
Definition CBS_ASN1_TAG_NUMBER_MASK : Z := Z.shiftl 1 (5 + CBS_ASN1_TAG_SHIFT) - 1.
Definition CBS_ASN1_BOOLEAN : Z := 0x1.
Definition CBS_ASN1_INTEGER : Z := 0x2.
Definition CBS_ASN1_BITSTRING : Z := 0x3.
Definition CBS_ASN1_OCTETSTRING : Z := 0x4.
Definition CBS_ASN1_UTF8STRING : Z := 0xc.
Definition CBS_ASN1_NUMERICSTRING : Z := 0x12.
Definition CBS_ASN1_PRINTABLESTRING : Z := 0x13.
Definition CBS_ASN1_T61STRING : Z := 0x14.
Definition CBS_ASN1_VIDEOTEXSTRING : Z := 0x15.
Definition CBS_ASN1_IA5STRING : Z := 0x16.
Definition CBS_ASN1_GRAPHICSTRING : Z := 0x19.
Definition CBS_ASN1_VISIBLESTRING : Z := 0x1a.
Definition CBS_ASN1_GENERALSTRING : Z := 0x1b.
Definition CBS_ASN1_UNIVERSALSTRING : Z := 0x1c.
Definition CBS_ASN1_BMPSTRING : Z := 0x1e.

(** * Cursor operations *)

Definition CBS_init (data : ptr) (len : Z) : CBS := mkCBS data len.

(** The result is the pointer [*p]. *)
Definition cbs_get (n : Z) : M CBS ptr :=
  cbs ← get;
  if cbs_len cbs <? n then fail else
  d ← deref (ptr_add (cbs_data cbs) n);
  put (mkCBS d (cbs_len cbs - n));;
  mret (cbs_data cbs).

Definition CBS_skip (len : Z) : M CBS unit := cbs_get len;; mret tt.

Definition CBS_data (cbs : CBS) : ptr := cbs_data cbs.
Definition CBS_len (cbs : CBS) : Z := cbs_len cbs.

(** The old [*out_ptr] is freed; the result is the new one with its length. *)
Definition CBS_stow `{alloc : Allocator} (cbs : CBS) : M heap (block * Z) :=
  if cbs_len cbs =? 0 then mret (None, 0) else
  out ← BUF_memdup (cbs_data cbs) (cbs_len cbs);
  match out with
  | None => fail
  | Some l => mret (Some l, cbs_len cbs)
  end.

Definition CBS_strdup `{alloc : Allocator} (cbs : CBS) : M heap (list Z) :=
  out ← BUF_strndup (cbs_data cbs) (cbs_len cbs);
  match out with
  | None => fail
  | Some l => mret l
  end.

Definition CBS_contains_zero_byte (cbs : CBS) : option bool :=
  l ← ptr_read (cbs_data cbs) (cbs_len cbs);
  mret (existsb (Z.eqb 0) l).

Definition CBS_mem_equal (cbs : CBS) (data : ptr) (len : Z) : option bool :=
  if negb (len =? cbs_len cbs) then Some false else
  x ← CRYPTO_memcmp (cbs_data cbs) data len;
  mret (x =? 0).

Definition cbs_get_u (len : Z) : M CBS Z :=
  data ← cbs_get len;
  for_ 0 (Z.to_nat len) (fun i result =>
    b ← deref (ptr_get data i);
    mret (Z.lor (u32 (Z.shiftl result 8)) b)) 0.

Definition CBS_get_u8 : M CBS Z :=
  v ← cbs_get 1;
  deref (ptr_get v 0).

Definition CBS_get_u16 : M CBS Z :=
  v ← cbs_get_u 2;
  mret (u16 v).

Definition CBS_get_u24 : M CBS Z := cbs_get_u 3.
Definition CBS_get_u32 : M CBS Z := cbs_get_u 4.

Definition CBS_get_last_u8 : M CBS Z :=
  cbs ← get;
  if cbs_len cbs =? 0 then fail else
  b ← deref (ptr_get (cbs_data cbs) (cbs_len cbs - 1));
  put (mkCBS (cbs_data cbs) (cbs_len cbs - 1));;
  mret b.

Definition CBS_get_bytes (len : Z) : M CBS CBS :=
  v ← cbs_get len;
  mret (CBS_init v len).

(** The result is what is copied to [out]. *)
Definition CBS_copy_bytes (len : Z) : M CBS (list Z) :=
  v ← cbs_get len;
  deref (ptr_read v len).

Definition cbs_get_length_prefixed (len_len : Z) : M CBS CBS :=
  len ← cbs_get_u len_len;
  CBS_get_bytes len.

Definition CBS_get_u8_length_prefixed : M CBS CBS := cbs_get_length_prefixed 1.
Definition CBS_get_u16_length_prefixed : M CBS CBS := cbs_get_length_prefixed 2.
Definition CBS_get_u24_length_prefixed : M CBS CBS := cbs_get_length_prefixed 3.

(** * ASN.1 elements *)

(** Enough turns for any loop that takes a byte from [cbs] each time. *)
Definition cbs_fuel (cbs : CBS) : nat := S (Z.to_nat (cbs_len cbs)).

(** One turn of the [do ... while] loop; the shift drops the high bits of the
    64-bit accumulator. *)
Definition parse_base128_step (v : Z) : M CBS (Z + Z) :=
  b ← CBS_get_u8;
  if negb (Z.shiftr v (64 - 7) =? 0) then fail else
  if (v =? 0) && (b =? 0x80) then fail else
  let v := Z.lor (u64 (Z.shiftl v 7)) (Z.land b 0x7f) in
  mret (if negb (Z.land b 0x80 =? 0) then inl v else inr v).

Definition parse_base128_integer : M CBS Z :=
  cbs ← get;
  iter (cbs_fuel cbs) parse_base128_step 0.

Definition parse_asn1_tag : M CBS Z :=
  tag_byte ← CBS_get_u8;
  let tag := u32 (Z.shiftl (Z.land tag_byte 0xe0) CBS_ASN1_TAG_SHIFT) in
  let tag_number := Z.land tag_byte 0x1f in
  tag_number ←
    (if tag_number =? 0x1f then
       v ← parse_base128_integer;
       if (CBS_ASN1_TAG_NUMBER_MASK <? v) || (v <? 0x1f) then fail
       else mret (u32 v)
     else mret tag_number);
  mret (Z.lor tag tag_number).

(** The results are [out], [*out_tag] and [*out_header_len]; [header] is the
    local copy of the cursor the header is read from. *)
Definition cbs_get_any_asn1_element (ber_ok : bool) : M CBS (CBS * Z * Z) :=
  cbs ← get;
  '(tag, header) ← on cbs parse_asn1_tag;
  '(length_byte, header) ← on header CBS_get_u8;
  let header_len := u64 (CBS_len cbs - CBS_len header) in
  if Z.land length_byte 0x80 =? 0 then
    let len := u64 (length_byte + header_len) in
    out ← CBS_get_bytes len;
    mret (out, tag, header_len)
  else
    let num_bytes := Z.land length_byte 0x7f in
    if ber_ok && negb (Z.land tag CBS_ASN1_CONSTRUCTED =? 0) && (num_bytes =? 0) then
      out ← CBS_get_bytes header_len;
      mret (out, tag, header_len)
    else
    if (num_bytes =? 0) || (4 <? num_bytes) then fail else
    '(len32, header) ← on header (cbs_get_u num_bytes);
    if len32 <? 128 then fail else
    if Z.shiftr len32 ((num_bytes - 1) * 8) =? 0 then fail else
    let len := len32 in
    if u64 (len + header_len + num_bytes) <? len then fail else
    let len := u64 (len + header_len + num_bytes) in
    out ← CBS_get_bytes len;
    mret (out, tag, u64 (header_len + num_bytes)).

Definition CBS_get_any_asn1_element : M CBS (CBS * Z * Z) :=
  cbs_get_any_asn1_element false.
Definition CBS_get_any_ber_asn1_element : M CBS (CBS * Z * Z) :=
  cbs_get_any_asn1_element true.

(** The [CBS_skip] that cannot fail is followed by [assert(0)]. *)
Definition skip_header (out : CBS) (header_len : Z) : M CBS CBS :=
  r ← try_ (on out (CBS_skip header_len));
  match r with
  | Some (_, out) => mret out
  | None => stuck
  end.

Definition CBS_get_any_asn1 : M CBS (CBS * Z) :=
  '(out, tag, header_len) ← CBS_get_any_asn1_element;
  out ← skip_header out header_len;
  mret (out, tag).

Definition cbs_get_asn1 (tag_value : Z) (skip : bool) : M CBS CBS :=
  '(out, tag, header_len) ← CBS_get_any_asn1_element;
  if negb (tag =? tag_value) then fail else
  if skip then skip_header out header_len else mret out.

Definition CBS_get_asn1 (tag_value : Z) : M CBS CBS := cbs_get_asn1 tag_value true.
Definition CBS_get_asn1_element (tag_value : Z) : M CBS CBS := cbs_get_asn1 tag_value false.

(** The cursor is only read: the parse runs on a copy. *)
Definition CBS_peek_asn1_tag (tag_value : Z) : M CBS bool :=
  cbs ← get;
  if CBS_len cbs <? 1 then mret false else
  r ← try_ (on cbs parse_asn1_tag);
  match r with
  | Some (actual_tag, _) => mret (tag_value =? actual_tag)
  | None => mret false
  end.

(** [data[0] == 0 && len > 1 && (data[1] & 0x80) == 0], where [d0] is [data[0]]. *)
Definition extra_leading_zero (data : ptr) (len d0 : Z) : M CBS bool :=
  if (d0 =? 0) && (1 <? len) then
    d1 ← deref (ptr_get data 1);
    mret (Z.land d1 0x80 =? 0)
  else mret false.

Definition CBS_get_asn1_uint64 : M CBS Z :=
  bytes ← CBS_get_asn1 CBS_ASN1_INTEGER;
  let data := CBS_data bytes in
  let len := CBS_len bytes in
  if len =? 0 then fail else
  d0 ← deref (ptr_get data 0);
  if negb (Z.land d0 0x80 =? 0) then fail else
  extra ← extra_leading_zero data len d0;
  if extra : bool then fail else
  for_ 0 (Z.to_nat len) (fun i out =>
    if negb (Z.shiftr out 56 =? 0) then fail else
    b ← deref (ptr_get data i);
    mret (Z.lor (u64 (Z.shiftl out 8)) b)) 0.

Definition CBS_get_asn1_bool : M CBS Z :=
  bytes ← CBS_get_asn1 CBS_ASN1_BOOLEAN;
  if negb (CBS_len bytes =? 1) then fail else
  value ← deref (ptr_get (CBS_data bytes) 0);
  if negb (value =? 0) && negb (value =? 0xff) then fail else
  mret (b2z (negb (value =? 0))).

(** [*out] is set only when the element is present: the result is [None] when
    [*out_present] is zero. *)
Definition CBS_get_optional_asn1 (tag : Z) : M CBS (option CBS) :=
  present ← CBS_peek_asn1_tag tag;
  if present : bool then
    out ← CBS_get_asn1 tag;
    mret (Some out)
  else mret None.

Definition CBS_get_optional_asn1_octet_string (tag : Z) : M CBS (CBS * bool) :=
  r ← CBS_get_optional_asn1 tag;
  match r with
  | Some child =>
      '(out, child) ← on child (CBS_get_asn1 CBS_ASN1_OCTETSTRING);
      if negb (CBS_len child =? 0) then fail else
      mret (out, true)
  | None => mret (CBS_init NULL 0, false)
  end.

Definition CBS_get_optional_asn1_uint64 (tag default_value : Z) : M CBS Z :=
  r ← CBS_get_optional_asn1 tag;
  match r with
  | Some child =>
      '(out, child) ← on child CBS_get_asn1_uint64;
      if negb (CBS_len child =? 0) then fail else
      mret out
  | None => mret default_value
  end.

Definition CBS_get_optional_asn1_bool (tag default_value : Z) : M CBS Z :=
  r ← CBS_get_optional_asn1 tag;
  match r with
  | Some child =>
      '(child2, child) ← on child (CBS_get_asn1 CBS_ASN1_BOOLEAN);
      if negb (CBS_len child2 =? 1) || negb (CBS_len child =? 0) then fail else
      boolean ← deref (ptr_get (CBS_data child2) 0);
      if boolean =? 0 then mret 0
      else if boolean =? 0xff then mret 1
      else fail
  | None => mret default_value
  end.

(** * Bit strings *)

(** The argument is const: both functions work on a copy of the cursor. *)
Definition CBS_is_valid_asn1_bitstring : M CBS unit :=
  cbs ← get;
  '(num_unused_bits, input) ← on cbs CBS_get_u8;
  if 7 <? num_unused_bits then fail else
  if num_unused_bits =? 0 then mret tt else
  '(last, _) ← on input CBS_get_last_u8;
  if negb (Z.land last (Z.shiftl 1 num_unused_bits - 1) =? 0) then fail else
  mret tt.

Definition CBS_asn1_bitstring_has_bit (bit : Z) : M CBS bool :=
  cbs ← get;
  valid ← succeeds CBS_is_valid_asn1_bitstring;
  if negb valid then mret false else
  let byte_num := u32 (Z.shiftr bit 3 + 1) in
  let bit_num := 7 - Z.land bit 7 in
  if byte_num <? CBS_len cbs then
    b ← deref (ptr_get (CBS_data cbs) byte_num);
    mret (negb (Z.land b (Z.shiftl 1 bit_num) =? 0))
  else mret false.
