(* ===== verification/Der.v ===== *)
(** The encodings of ITU-T X.690 that the bytestring library reads and writes, as
    functions on byte lists: fixed-width big-endian integers, base-128 integers,
    tags, definite lengths, INTEGER contents. They are the abstract specification
    the parser ([Cbs], [CbsFacts]) and the builder ([Cbb], [CbbFacts]) are proved
    against; nothing here models code. *)
From S2P Require Import Prelude Cbs.

(** * Big-endian integers *)

Fixpoint be (n : nat) (v : Z) : list Z :=
  match n with
  | O => []
  | S n => be n (v / 256) ++ [v mod 256]
  end.

(** Reading one more byte. *)
Definition be_step (a b : Z) : Z := a * 256 + b.
Definition be_val (l : list Z) : Z := foldl be_step 0 l.

(** * Base-128 integers *)

(** All groups but the last, most significant first; [fuel] bounds their number. *)
Fixpoint b128_prefix (fuel : nat) (w : Z) : list Z :=
  match fuel with
  | O => []
  | S fuel => if w =? 0 then [] else b128_prefix fuel (w / 128) ++ [128 + w mod 128]
  end.
Definition b128_step (a b : Z) : Z := a * 128 + b mod 128.

(** Ten groups are enough for 64 bits. *)
Definition enc_base128 (v : Z) : list Z := b128_prefix 10 (v / 128) ++ [v mod 128].

(** * Elements *)

Definition tag_bits (tag : Z) : Z := tag / 2 ^ 29 * 32.
Definition tag_number (tag : Z) : Z := tag mod 2 ^ 29.
Definition constructed (tag : Z) : bool := (tag / 2 ^ 29) mod 2 =? 1.

Definition enc_tag (tag : Z) : list Z :=
  if tag_number tag <? 31 then [tag_bits tag + tag_number tag]
  else tag_bits tag + 31 :: enc_base128 (tag_number tag).

(** The octets the long form spends on a length. *)
Definition len_octets (len : Z) : nat :=
  if len <? 2 ^ 8 then 1 else if len <? 2 ^ 16 then 2 else if len <? 2 ^ 24 then 3 else 4.

Definition enc_len (len : Z) : list Z :=
  if len <? 128 then [len]
  else 128 + Z.of_nat (len_octets len) :: be (len_octets len) len.

Definition der_header (tag len : Z) : list Z := enc_tag tag ++ enc_len len.
Definition der (tag : Z) (contents : list Z) : list Z :=
  der_header tag (zlen contents) ++ contents.

(** An indefinite-length header: the element's contents follow it and end at the
    matching end-of-contents octets. *)
Definition indef_header (tag : Z) : list Z := enc_tag tag ++ [128].

(** What a 32-bit tag word and a 32-bit length can be. *)
Definition tag_ok (tag : Z) : Prop := 0 <= tag < 2 ^ 32.
Definition len_ok (len : Z) : Prop := 0 <= len < 2 ^ 32.

(** * INTEGER contents *)

(** The octets of the shortest two's-complement form of [0 <= v < 2^64]. *)
Fixpoint uint_width (fuel : nat) (v : Z) : nat :=
  match fuel with
  | O => 1
  | S fuel => if v <? 128 then 1 else S (uint_width fuel (v / 256))
  end.
Definition enc_uint64 (v : Z) : list Z := be (uint_width 8 v) v.

(** * Facts about big-endian integers *)

Lemma is_byte_mod v : is_byte (v mod 256).
Proof. unfold is_byte. pose proof (Z.mod_pos_bound v 256). lia. Qed.

Lemma length_be n v : length (be n v) = n.
Proof. revert v. induction n as [|n IH]; intros v; cbn; [done|]. rewrite length_app, IH. cbn. lia. Qed.
Lemma zlen_be n v : zlen (be n v) = Z.of_nat n.
Proof. unfold zlen. by rewrite length_be. Qed.
#[export] Hint Rewrite zlen_be : zlist.

Lemma bytes_be n v : bytes (be n v).
Proof.
  revert v. induction n as [|n IH]; intros v; [apply bytes_nil|]. cbn. apply bytes_app.
  split; [done|]. apply bytes_cons. split; [apply is_byte_mod|apply bytes_nil].
Qed.
#[export] Hint Resolve bytes_be : zlist.

Lemma foldl_be_acc a l : foldl be_step a l = a * 256 ^ zlen l + be_val l.
Proof.
  unfold be_val. revert a. induction l as [|b l IH] using rev_ind; intros a.
  - rewrite zlen_nil, Z.pow_0_r. cbn. lia.
  - rewrite !foldl_app. cbn. rewrite IH, (IH 0). unfold be_step.
    rewrite zlen_snoc, Z.pow_add_r by zlist. ring.
Qed.

Lemma be_val_app l1 l2 : be_val (l1 ++ l2) = be_val l1 * 256 ^ zlen l2 + be_val l2.
Proof. unfold be_val at 1. rewrite foldl_app. apply foldl_be_acc. Qed.
Lemma be_val_snoc l b : be_val (l ++ [b]) = be_val l * 256 + b.
Proof. rewrite be_val_app. by cbn. Qed.
Lemma be_val_cons b l : be_val (b :: l) = b * 256 ^ zlen l + be_val l.
Proof. by rewrite (be_val_app [b] l : be_val (b :: l) = _). Qed.

Lemma be_val_bound l : bytes l -> 0 <= be_val l < 256 ^ zlen l.
Proof.
  induction l as [|b l IH] using rev_ind; [done|].
  intros [Hl Hb]%bytes_app.
  apply bytes_cons in Hb as [Hb _]. rewrite be_val_snoc, zlen_snoc, Z.pow_add_r by zlist.
  specialize (IH Hl). unfold is_byte in Hb. lia.
Qed.

Lemma be_val_be n v : 0 <= v < 256 ^ Z.of_nat n -> be_val (be n v) = v.
Proof.
  revert v. induction n as [|n IH]; intros v Hv; [cbn in *; lia|]. cbn [be].
  rewrite be_val_snoc, IH; [|].
  - pose proof (Z.div_mod v 256). lia.
  - rewrite Nat2Z.inj_succ, Z.pow_succ_r in Hv by lia.
    split; [apply Z.div_pos; lia|]. apply Z.div_lt_upper_bound; lia.
Qed.

Lemma be_be_val l : bytes l -> be (length l) (be_val l) = l.
Proof.
  induction l as [|b l IH] using rev_ind; [done|]. intros [Hl Hb]%bytes_app.
  apply bytes_cons in Hb as [Hb _]. rewrite length_app, Nat.add_comm. cbn [length Nat.add be].
  rewrite be_val_snoc. unfold is_byte in Hb.
  replace ((be_val l * 256 + b) / 256) with (be_val l) by (Z.div_mod_to_equations; lia).
  replace ((be_val l * 256 + b) mod 256) with b by (Z.div_mod_to_equations; lia).
  by rewrite IH.
Qed.

Lemma be_inj l1 l2 : bytes l1 -> bytes l2 -> length l1 = length l2 -> be_val l1 = be_val l2 -> l1 = l2.
Proof. intros H1 H2 Hlen Hv. by rewrite <- (be_be_val l1), <- (be_be_val l2), Hlen, Hv. Qed.
(** The most significant byte comes first. *)
Lemma be_cons n v : 0 <= v -> be (S n) v = (v / 256 ^ Z.of_nat n) mod 256 :: be n v.
Proof.
  revert v. induction n as [|n IH]; intros v Hv.
  - cbn. by rewrite Z.div_1_r.
  - change (be (S (S n)) v) with (be (S n) (v / 256) ++ [v mod 256]).
    rewrite IH by (apply Z.div_pos; lia). rewrite Z.div_div by lia.
    replace (256 * 256 ^ Z.of_nat n) with (256 ^ Z.of_nat (S n)); [done|].
    rewrite Nat2Z.inj_succ, Z.pow_succ_r by lia. done.
Qed.

(** * Facts about base-128 integers *)

Lemma b128_prefix_more f w : 0 <= w < 128 ^ Z.of_nat f -> b128_prefix (S f) w = b128_prefix f w.
Proof.
  revert w. induction f as [|f IH]; intros w Hw.
  - cbn in *. by replace w with 0 by lia.
  - cbn [b128_prefix] in *. destruct (w =? 0); [done|].
    rewrite IH; [done|]. rewrite Nat2Z.inj_succ, Z.pow_succ_r in Hw by lia.
    split; [apply Z.div_pos; lia|]. apply Z.div_lt_upper_bound; lia.
Qed.

(** One more group, in the order a reader sees them. *)
Lemma b128_prefix_step v b :
  0 <= v < 2 ^ 57 -> 128 <= b < 256 -> ~ (v = 0 /\ b = 128) ->
  b128_prefix 10 (b128_step v b) = b128_prefix 10 v ++ [b].
Proof.
  intros Hv Hb H0. unfold b128_step.
  replace (b mod 128) with (b - 128) by (Z.div_mod_to_equations; lia).
  change (b128_prefix 10 (v * 128 + (b - 128))) with
    (if v * 128 + (b - 128) =? 0 then []
     else b128_prefix 9 ((v * 128 + (b - 128)) / 128) ++ [128 + (v * 128 + (b - 128)) mod 128]).
  destruct (Z.eqb_spec (v * 128 + (b - 128)) 0); [exfalso; lia|].
  replace ((v * 128 + (b - 128)) / 128) with v by (Z.div_mod_to_equations; lia).
  rewrite (b128_prefix_more 9) by lia. do 2 f_equal. Z.div_mod_to_equations; lia.
Qed.

Lemma enc_base128_step v b :
  0 <= v < 2 ^ 57 -> 0 <= b < 128 -> enc_base128 (b128_step v b) = b128_prefix 10 v ++ [b].
Proof.
  intros Hv Hb. unfold enc_base128, b128_step.
  replace (b mod 128) with b by (Z.div_mod_to_equations; lia).
  replace ((v * 128 + b) / 128) with v by (Z.div_mod_to_equations; lia).
  do 2 f_equal. Z.div_mod_to_equations; lia.
Qed.

(** Every byte of the prefix has its high bit set, and the first one is not
    0x80. *)
Definition b128_groups (l : list Z) : Prop :=
  Forall (fun b => 128 <= b < 256) l /\ head l <> Some 128.

Lemma b128_prefix_spec f w :
  0 <= w < 128 ^ Z.of_nat f ->
  b128_groups (b128_prefix f w) /\ foldl b128_step 0 (b128_prefix f w) = w.
Proof.
  revert w. induction f as [|f IH]; intros w Hw.
  - cbn in *. split; [by split; [constructor|]|lia].
  - cbn [b128_prefix]. destruct (Z.eqb_spec w 0) as [->|Hw0]; [by repeat split; [constructor|]|].
    rewrite Nat2Z.inj_succ, Z.pow_succ_r in Hw by lia.
    destruct (IH (w / 128)) as [[Hall Hhd] Hval].
    { split; [apply Z.div_pos; lia|]. apply Z.div_lt_upper_bound; lia. }
    pose proof (Z.mod_pos_bound w 128). split; [split|].
    + apply Forall_app. split; [done|]. constructor; [lia|constructor].
    + destruct (b128_prefix f (w / 128)) as [|x l] eqn:E; [|done].
      cbn in *. intros [= Heq]. Z.div_mod_to_equations; lia.
    + rewrite foldl_app, Hval. cbn. unfold b128_step. Z.div_mod_to_equations; lia.
Qed.

Lemma zlen_b128_prefix f w : zlen (b128_prefix f w) <= Z.of_nat f.
Proof.
  revert w. induction f as [|f IH]; intros w; cbn [b128_prefix]; [done|].
  destruct (w =? 0); zlist. specialize (IH (w / 128)). lia.
Qed.

(** * Facts about elements *)

Lemma tag_number_range tag : 0 <= tag_number tag < 2 ^ 29.
Proof. unfold tag_number. apply Z.mod_pos_bound. done. Qed.

Lemma zlen_enc_base128 v : 1 <= zlen (enc_base128 v) <= 11.
Proof.
  unfold enc_base128. rewrite zlen_snoc. pose proof (zlen_b128_prefix 10 (v / 128)).
  pose proof (zlen_nonneg (b128_prefix 10 (v / 128))). lia.
Qed.

Lemma zlen_enc_tag tag : 1 <= zlen (enc_tag tag) <= 12.
Proof.
  unfold enc_tag. destruct (_ <? 31); zlist. pose proof (zlen_enc_base128 (tag_number tag)). lia.
Qed.

Lemma len_octets_bound len : (1 <= len_octets len <= 4)%nat.
Proof. unfold len_octets. repeat case_match; lia. Qed.

Lemma zlen_enc_len len : 1 <= zlen (enc_len len) <= 5.
Proof. unfold enc_len. pose proof (len_octets_bound len). destruct (_ <? 128); zlist. Qed.

Lemma zlen_der_header tag len : 2 <= zlen (der_header tag len) <= 17.
Proof.
  unfold der_header. rewrite zlen_app.
  pose proof (zlen_enc_tag tag). pose proof (zlen_enc_len len). lia.
Qed.

(** The number of octets of a length is the least that holds it. *)
Lemma len_octets_unique n len :
  (1 <= n <= 4)%nat -> 128 <= len < 256 ^ Z.of_nat n -> 256 ^ (Z.of_nat n - 1) <= len ->
  len_octets len = n.
Proof.
  intros Hn Hlen Hmin.
  assert (n = 1 \/ n = 2 \/ n = 3 \/ n = 4)%nat as [->|[->|[->| ->]]] by lia; cbn in *;
    unfold len_octets; repeat case_match; lia.
Qed.

Lemma len_octets_fits len : len_ok len -> len < 256 ^ Z.of_nat (len_octets len).
Proof.
  unfold len_ok, len_octets. intros.
  repeat match goal with |- context [?a <? ?b] => destruct (Z.ltb_spec a b) end; cbn; lia.
Qed.
Lemma len_octets_least len :
  128 <= len < 2 ^ 32 -> 256 ^ (Z.of_nat (len_octets len) - 1) <= len.
Proof.
  unfold len_octets. intros.
  repeat match goal with |- context [?a <? ?b] => destruct (Z.ltb_spec a b) end; cbn; lia.
Qed.

(** * Facts about INTEGER contents *)

(** The width is the least that leaves the sign bit clear. *)
Lemma uint_width_spec fuel v :
  0 <= v < 128 * 256 ^ Z.of_nat fuel ->
  let n := Z.of_nat (uint_width fuel v) in
  1 <= n <= 1 + Z.of_nat fuel /\ v < 128 * 256 ^ (n - 1) /\ (n = 1 \/ 128 * 256 ^ (n - 2) <= v).
Proof.
  revert v. induction fuel as [|f IH]; intros v Hv; cbn [uint_width].
  - cbn in *. lia.
  - destruct (Z.ltb_spec v 128); [cbn; lia|].
    rewrite Nat2Z.inj_succ, Z.pow_succ_r in Hv by lia.
    destruct (IH (v / 256)) as (H1 & H2 & H3).
    { split; [apply Z.div_pos; lia|]. apply Z.div_lt_upper_bound; lia. }
    cbv zeta. rewrite Nat2Z.inj_succ. set (n := Z.of_nat (uint_width f (v / 256))) in *.
    assert (Hp : 256 ^ (Z.succ n - 1) = 256 * 256 ^ (n - 1)).
    { rewrite <- Z.pow_succ_r by lia. f_equal. lia. }
    split_and!; [lia|lia| |].
    + rewrite Hp. Z.div_mod_to_equations; lia.
    + right. destruct (Z.eq_dec n 1) as [->|]; [cbn; lia|]. destruct H3 as [?|H3]; [done|].
      replace (Z.succ n - 2) with (Z.succ (n - 2)) by lia. rewrite Z.pow_succ_r by lia.
      Z.div_mod_to_equations; lia.
Qed.

(** Big-endian contents with no redundant leading octet are the encoder's. *)
Lemma enc_uint64_unique b l :
  bytes (b :: l) -> b < 128 -> (b = 0 -> l = [] \/ exists b' l', l = b' :: l' /\ 128 <= b') ->
  be_val (b :: l) < 2 ^ 64 -> enc_uint64 (be_val (b :: l)) = b :: l.
Proof.
  intros Hb Hb0 Hmin Hmax. set (v := be_val (b :: l)) in *.
  pose proof (be_val_bound _ Hb) as Hbound. fold v in Hbound.
  assert (Hv : v = b * 256 ^ zlen l + be_val l) by apply be_val_cons.
  apply bytes_cons in Hb as Hbl. destruct Hbl as [Hbb Hbl]. unfold is_byte in Hbb.
  pose proof (be_val_bound l Hbl) as Hl. pose proof (zlen_nonneg l) as Hz.
  destruct (uint_width_spec 8 v) as (H1 & H2 & H3); [change (Z.of_nat 8) with 8; lia|].
  enough (Hn : uint_width 8 v = length (b :: l)).
  { unfold enc_uint64. rewrite Hn. by apply be_be_val. }
  set (n := Z.of_nat (uint_width 8 v)) in *. apply Nat2Z.inj. fold n. fold (zlen (b :: l)). rewrite zlen_cons.
  (* the value fits in the octets given, and not in fewer *)
  assert (Hle : v < 128 * 256 ^ zlen l) by nia.
  assert (Hge : zlen l = 0 \/ 128 * 256 ^ (zlen l - 1) <= v).
  { destruct (Z.eq_dec (zlen l) 0); [by left|right].
    assert (Hp : 256 ^ zlen l = 256 * 256 ^ (zlen l - 1)) by (rewrite <- Z.pow_succ_r by lia; f_equal; lia).
    destruct (Z.eq_dec b 0) as [->|]; [|nia].
    destruct (Hmin eq_refl) as [->|(b' & l' & -> & Hb')]; [done|].
    rewrite be_val_cons in Hv. rewrite zlen_cons in *. replace (1 + zlen l' - 1) with (zlen l') in * by lia.
    apply bytes_cons in Hbl as [_ Hbl]. pose proof (be_val_bound l' Hbl). nia. }
  assert (~ n < 1 + zlen l).
  { intros Hlt. destruct Hge as [Hge|Hge]; [lia|].
    pose proof (Z.pow_le_mono_r 256 (n - 1) (zlen l - 1) ltac:(lia) ltac:(lia)). lia. }
  assert (~ 1 + zlen l < n).
  { intros Hlt. destruct H3 as [H3|H3]; [lia|].
    pose proof (Z.pow_le_mono_r 256 (zlen l) (n - 2) ltac:(lia) ltac:(lia)). lia. }
  lia.
Qed.

(** What the encoder's own output looks like. *)
Lemma enc_uint64_spec v :
  0 <= v < 2 ^ 64 ->
  exists b l, enc_uint64 v = b :: l /\ bytes (b :: l) /\ be_val (b :: l) = v /\ b < 128 /\
    (b = 0 -> l = [] \/ exists b' l', l = b' :: l' /\ 128 <= b') /\ 1 + zlen l <= 9.
Proof.
  intros Hv. destruct (uint_width_spec 8 v) as (H1 & H2 & H3); [change (Z.of_nat 8) with 8; lia|].
  set (n := Z.of_nat (uint_width 8 v)) in *.
  pose proof (bytes_be (uint_width 8 v) v) as Hb. pose proof (zlen_be (uint_width 8 v) v) as Hz. fold n in Hz.
  assert (Hval : be_val (be (uint_width 8 v) v) = v).
  { apply be_val_be. fold n. split; [lia|]. replace (256 ^ n) with (256 * 256 ^ (n - 1)); [pose proof (Z.pow_nonneg 256 (n - 1)); lia|].
    rewrite <- Z.pow_succ_r by lia. f_equal. lia. }
  unfold enc_uint64. destruct (be (uint_width 8 v) v) as [|b l] eqn:E; [change (0 = n) in Hz; lia|].
  exists b, l. rewrite zlen_cons in Hz. rewrite be_val_cons in Hval. replace (n - 1) with (zlen l) in H2 by lia.
  pose proof Hb as [Hbb Hbl]%bytes_cons. unfold is_byte in Hbb. pose proof (be_val_bound l Hbl) as Hl.
  split_and!; [done|done|by rewrite be_val_cons|nia| |lia].
  intros ->. destruct l as [|b' l']; [by left|right]. exists b', l'. split; [done|].
  destruct H3 as [H3|H3]; [rewrite zlen_cons in Hz; pose proof (zlen_nonneg l'); lia|].
  rewrite zlen_cons in Hz. replace (n - 2) with (zlen l') in H3 by lia.
  rewrite be_val_cons in Hval. apply bytes_cons in Hbl as [Hbb' Hbl']. unfold is_byte in Hbb'.
  pose proof (be_val_bound l' Hbl'). nia.
Qed.
