(* ===== verification/CbsFacts.v ===== *)
(** Facts about [Cbs]: no operation reads outside the cursor's window, and each
    one parses exactly the encodings of [Der]. *)
From S2P Require Import Prelude Mem Buf Cbs Der.

(** The bytes still to be parsed. *)
Definition view (c : CBS) : list Z := ztake (cbs_len c) (ptr_bytes (cbs_data c)).

(** A cursor the C code may be handed: its window lies inside the object. *)
Definition cbs_ok (c : CBS) : Prop :=
  0 <= cbs_len c <= zlen (ptr_bytes (cbs_data c)) /\
  cbs_len c <= SIZE_MAX /\ bytes (view c).

(** Two cursors over the same bytes, wherever these lie and whatever follows. *)
Definition same_view (c d : CBS) : Prop := cbs_ok c /\ cbs_ok d /\ view c = view d.

Lemma zlen_view c : cbs_ok c -> zlen (view c) = cbs_len c.
Proof. intros [? _]. unfold view. by rewrite zlen_ztake. Qed.

Lemma bytes_view c : cbs_ok c -> bytes (view c).
Proof. by intros (_ & _ & ?). Qed.
#[export] Hint Resolve bytes_view : zlist.

Lemma cbs_ok_len c : cbs_ok c -> 0 <= cbs_len c <= SIZE_MAX.
Proof. unfold cbs_ok. lia. Qed.

Lemma view_cons_len c b l : cbs_ok c -> view c = b :: l -> 0 < cbs_len c.
Proof. intros Hc Hv. rewrite <- zlen_view, Hv by done. zlist. pose proof (zlen_nonneg l). lia. Qed.

(** A window over a whole object. *)
Definition cbs_of (l : list Z) : CBS := mkCBS (P l) (zlen l).

Lemma view_cbs_of l : view (cbs_of l) = l.
Proof. apply ztake_all. Qed.
Lemma cbs_of_ok l : bytes l -> zlen l <= SIZE_MAX -> cbs_ok (cbs_of l).
Proof.
  intros. unfold cbs_ok. rewrite view_cbs_of. unfold cbs_of. cbn. pose proof (zlen_nonneg l).
  split_and!; [lia..|done].
Qed.

(** * The cursor *)

(** Reading [n] bytes at a pointer whose object starts with [l]. *)
Lemma ptr_get_app l t i : ptr_get (P (l ++ t)) i = zget (l ++ t) i.
Proof. done. Qed.

Lemma cbs_get_spec n c :
  cbs_ok c -> 0 <= n ->
  wp (cbs_get n)
    (fun p c' => exists l t, cbs_ok c' /\ ptr_bytes p = l ++ t /\ zlen l = n /\
       view c = l ++ view c' /\ bytes l /\ cbs_ok (mkCBS p n) /\ view (mkCBS p n) = l)
    (fun c' => c' = c /\ cbs_len c < n) c.
Proof.
  intros Hok Hn. pose proof Hok as ([H0 H1] & H2 & Hb). unfold cbs_get. wp_go.
  { split; [done|lia]. }
  assert (ptr_add (cbs_data c) n = Some (match cbs_data c with NULL => NULL | P l => P (zdrop n l) end)) as Ha.
  { unfold ptr_add. destruct (cbs_data c) as [|l]; cbn in *; [by rewrite (proj2 (Z.eqb_eq n 0)) by (unfold zlen in *; cbn in *; lia)|].
    rewrite (proj2 (Z.leb_le 0 n)), (proj2 (Z.leb_le n (zlen l))) by lia. done. }
  eapply wp_deref; [exact Ha|]. wp_go.
  assert (ptr_bytes (match cbs_data c with NULL => NULL | P l => P (zdrop n l) end) = zdrop n (ptr_bytes (cbs_data c))) as Hpb.
  { destruct (cbs_data c); cbn; [by rewrite zdrop_nil|done]. }
  assert (Hsplit : view c = ztake n (ptr_bytes (cbs_data c)) ++
            ztake (cbs_len c - n) (zdrop n (ptr_bytes (cbs_data c)))).
  { unfold view. rewrite <- ztake_split by lia. f_equal. lia. }
  rewrite Hsplit in Hb. apply bytes_app in Hb as [Hb1 Hb2].
  exists (ztake n (ptr_bytes (cbs_data c))), (zdrop n (ptr_bytes (cbs_data c))).
  split_and!; [split_and!| | | | |split_and!|]; unfold view; cbn; rewrite ?Hpb; try done; try lia; try zlist.
  by rewrite ztake_zdrop.
Qed.

Lemma CBS_get_u8_spec c :
  cbs_ok c ->
  wp CBS_get_u8
    (fun b c' => cbs_ok c' /\ view c = b :: view c' /\ is_byte b)
    (fun c' => c' = c /\ view c = []) c.
Proof.
  intros Hok. unfold CBS_get_u8. wp_go. wp_call cbs_get_spec; [done|lia| |].
  - intros p c' (l & t & Hc' & Hp & Hl & Hv & Hb & _).
    destruct (zlen_pos l) as (b & l' & ->); [lia|].
    rewrite zlen_cons in Hl. assert (l' = []) as -> by (apply zlen_0; lia).
    eapply wp_deref; [unfold ptr_get; by rewrite Hp|]. apply bytes_cons in Hb as [? _]. done.
  - intros c' [-> Hlt]. split; [done|]. apply zlen_0. rewrite zlen_view by done.
    apply cbs_ok_len in Hok. lia.
Qed.

(** The accumulating loop reads [i] bytes as a big-endian number. *)
Lemma u32_shift_byte r b :
  0 <= r < 2 ^ 24 -> is_byte b -> Z.lor (u32 (Z.shiftl r 8)) b = be_step r b.
Proof.
  intros Hr Hb. unfold u32, is_byte in *. rewrite Z.mod_small.
  - rewrite lor_shiftl by lia. done.
  - rewrite Z.shiftl_mul_pow2 by lia. lia.
Qed.

Lemma cbs_get_u_spec n c :
  cbs_ok c -> 0 <= n <= 4 ->
  wp (cbs_get_u n)
    (fun v c' => exists l, cbs_ok c' /\ view c = l ++ view c' /\ zlen l = n /\ bytes l /\ v = be_val l)
    (fun c' => c' = c /\ cbs_len c < n) c.
Proof.
  intros Hok Hn. unfold cbs_get_u. wp_go. wp_call cbs_get_spec; [done|lia| |done].
  intros p c' (l & t & Hc' & Hp & Hl & Hv & Hb & _).
  eapply (wp_for (fun i r s => s = c' /\ r = be_val (ztake i l))).
  - done.
  - intros j r s Hj [-> ->]. rewrite Z2Nat.id in Hj by lia. cbn in Hj.
    destruct (zget_lt l j) as [b Hget]; [lia|].
    eapply wp_bind, wp_deref.
    { unfold ptr_get. rewrite Hp, zget_app_l by lia. done. }
    wp_go. split; [done|].
    pose proof (bytes_zget _ _ _ Hb Hget) as Hbb.
    pose proof (be_val_bound (ztake j l)) as Hbd. rewrite zlen_ztake in Hbd by lia.
    rewrite u32_shift_byte; [| |done].
    + rewrite (zget_split _ _ _ Hget) at 2. rewrite ztake_app_ge by zlist.
      rewrite zlen_ztake by lia. replace (j + 1 - j) with 1 by lia.
      change (ztake 1 (b :: zdrop (j + 1) l)) with [b]. by rewrite be_val_snoc.
    + specialize (Hbd ltac:(zlist)). split; [lia|].
      eapply Z.lt_le_trans; [apply Hbd|]. change (2 ^ 24) with (256 ^ 3).
      apply Z.pow_le_mono_r; lia.
  - intros r s [-> ->]. exists l. rewrite Z2Nat.id, Z.add_0_l by lia. rewrite <- Hl, ztake_all. done.
Qed.

Lemma CBS_get_bytes_spec n c :
  cbs_ok c -> 0 <= n ->
  wp (CBS_get_bytes n)
    (fun out c' => cbs_ok c' /\ cbs_ok out /\ view c = view out ++ view c' /\ cbs_len out = n)
    (fun c' => c' = c /\ cbs_len c < n) c.
Proof.
  intros Hok Hn. unfold CBS_get_bytes. wp_go. wp_call cbs_get_spec; [done|lia| |done].
  intros p c' (l & t & Hc' & Hp & Hl & Hv & Hb & Ho & Hov). wp_go.
  split_and!; [done|done|by unfold CBS_init; rewrite Hov|done].
Qed.

Lemma CBS_skip_spec n c :
  cbs_ok c -> 0 <= n ->
  wp (CBS_skip n)
    (fun _ c' => exists l, cbs_ok c' /\ view c = l ++ view c' /\ zlen l = n)
    (fun c' => c' = c /\ cbs_len c < n) c.
Proof.
  intros Hok Hn. unfold CBS_skip. wp_go. wp_call cbs_get_spec; [done|lia| |done].
  intros p c' (l & t & Hc' & Hp & Hl & Hv & _). wp_go. eauto.
Qed.

Lemma CBS_copy_bytes_spec n c :
  cbs_ok c -> 0 <= n ->
  wp (CBS_copy_bytes n)
    (fun l c' => cbs_ok c' /\ view c = l ++ view c' /\ zlen l = n)
    (fun c' => c' = c /\ cbs_len c < n) c.
Proof.
  intros Hok Hn. unfold CBS_copy_bytes. wp_go. wp_call cbs_get_spec; [done|lia| |done].
  intros p c' (l & t & Hc' & Hp & Hl & Hv & _).
  eapply wp_deref; [|done]. unfold ptr_read. rewrite Hp.
  rewrite (proj2 (Z.leb_le 0 n)), (proj2 (Z.leb_le n _)) by (zlist; pose proof (zlen_nonneg t); lia).
  by rewrite ztake_app.
Qed.

Lemma CBS_get_last_u8_spec c :
  cbs_ok c ->
  wp CBS_get_last_u8
    (fun b c' => cbs_ok c' /\ view c = view c' ++ [b] /\ is_byte b)
    (fun c' => c' = c /\ view c = []) c.
Proof.
  intros Hok. pose proof Hok as (H1 & H2 & Hb). unfold CBS_get_last_u8. wp_go.
  { split; [done|]. apply zlen_0. rewrite zlen_view by done. lia. }
  destruct (zget_lt (ptr_bytes (cbs_data c)) (cbs_len c - 1)) as [b Hget]; [lia|].
  assert (Hsplit : view c = ztake (cbs_len c - 1) (ptr_bytes (cbs_data c)) ++ [b]).
  { unfold view. replace (cbs_len c) with (cbs_len c - 1 + 1) at 1 by lia.
    rewrite ztake_split by lia. f_equal.
    rewrite (zget_split _ _ _ Hget) at 1. rewrite zdrop_app by zlist. done. }
  pose proof Hb as Hb'. rewrite Hsplit in Hb'. apply bytes_app in Hb' as [Hb1 [Hb2 _]%bytes_cons].
  eapply wp_deref; [exact Hget|]. wp_go. split_and!; [split_and!| |]; unfold view; cbn; done || lia.
Qed.

(** Length-prefixed strings: big-endian length, then that many bytes. *)
Lemma cbs_get_length_prefixed_spec n c :
  cbs_ok c -> 0 <= n <= 4 ->
  wp (cbs_get_length_prefixed n)
    (fun out c' => cbs_ok c' /\ cbs_ok out /\
       view c = be (Z.to_nat n) (zlen (view out)) ++ view out ++ view c')
    (fun _ => True) c.
Proof.
  intros Hok Hn. unfold cbs_get_length_prefixed. wp_go.
  wp_call cbs_get_u_spec; [done|done| |done].
  intros v c1 (l & Hc1 & Hv & Hl & Hb & ->).
  pose proof (be_val_bound l Hb). wp_call CBS_get_bytes_spec; [done|lia| |done].
  intros out c' (Hc' & Ho & Hv1 & Hlen). split_and!; [done|done|].
  rewrite Hv, Hv1, zlen_view, Hlen by done. f_equal.
  rewrite <- (be_be_val l) at 1 by done. f_equal. unfold zlen in Hl. lia.
Qed.

(** * Base-128 integers *)

(** The guard on the accumulator is what keeps the shift from losing bits. *)
Lemma shiftr_57 v : 0 <= v -> (Z.shiftr v (64 - 7) =? 0) = (v <? 2 ^ 57).
Proof.
  intros Hv. rewrite Z.shiftr_div_pow2 by lia. change (64 - 7) with 57.
  destruct (Z.ltb_spec v (2 ^ 57)).
  - by rewrite Z.div_small by lia.
  - apply Z.eqb_neq. assert (1 <= v / 2 ^ 57); [|lia]. apply Z.div_le_lower_bound; lia.
Qed.

Lemma b128_accumulate v b :
  0 <= v < 2 ^ 57 -> Z.lor (u64 (Z.shiftl v 7)) (Z.land b 0x7f) = b128_step v b.
Proof.
  intros Hv. rewrite land_0x7f. unfold u64. rewrite Z.mod_small.
  - apply lor_shiftl; [done|]. apply Z.mod_pos_bound. done.
  - rewrite Z.shiftl_mul_pow2 by lia. lia.
Qed.

(** One turn of the loop, on each of its exits. *)
Lemma parse_base128_step_spec v c :
  cbs_ok c -> 0 <= v < 2 ^ 64 ->
  wp (parse_base128_step v)
    (fun r c' => cbs_ok c' /\ v < 2 ^ 57 /\ exists b, is_byte b /\ view c = b :: view c' /\
       ~ (v = 0 /\ b = 128) /\
       r = if b <? 128 then inr (b128_step v b) else inl (b128_step v b))
    (fun _ => view c = [] \/ 2 ^ 57 <= v \/ v = 0 /\ head (view c) = Some 128) c.
Proof.
  intros Hok Hv. unfold parse_base128_step. wp_go.
  wp_call CBS_get_u8_spec; [done| |intros c' [-> ?]; by left].
  intros b c' (Hc' & Hview & Hb). rewrite shiftr_57, land_0x80 by (done || lia).
  destruct (Z.ltb_spec v (2 ^ 57)); cbn [negb]; [|wp_go; right; left; lia].
  wp_go.
  - apply andb_true_iff in Hif as [Hv0 Hb0]. right. right. rewrite Hview. cbn.
    split; [lia|]. f_equal. lia.
  - apply andb_false_iff in Hif. split_and!; [done|lia|]. exists b.
    rewrite b128_accumulate by lia. split_and!; [done|done|lia|].
    by destruct (b <? 128).
Qed.

(** Whatever [parse_base128_integer] accepts is the one minimal encoding of the
    64-bit value it returns. *)
Lemma parse_base128_integer_sound c :
  cbs_ok c ->
  wp parse_base128_integer
    (fun v c' => cbs_ok c' /\ view c = enc_base128 v ++ view c' /\ 0 <= v < 2 ^ 64)
    (fun _ => True) c.
Proof.
  intros Hok. unfold parse_base128_integer. wp_go.
  eapply (wp_iter (fun v c' => cbs_ok c' /\ 0 <= v < 2 ^ 64 /\ view c = b128_prefix 10 v ++ view c')
            (fun _ c' => Z.to_nat (cbs_len c'))).
  - split_and!; [done|lia..|done].
  - unfold cbs_fuel. lia.
  - intros v c1 (Hc1 & Hv & Hview). wp_call parse_base128_step_spec; [done|lia| |done].
    intros r c2 (Hc2 & Hv57 & b & Hb & Hv1 & Hmin & ->). unfold is_byte in Hb.
    assert (0 <= b128_step v b < 2 ^ 64).
    { unfold b128_step. pose proof (Z.mod_pos_bound b 128). lia. }
    assert (Hlen : (Z.to_nat (cbs_len c2) < Z.to_nat (cbs_len c1))%nat).
    { rewrite <- !zlen_view, Hv1 by done. zlist. pose proof (zlen_nonneg (view c2)). lia. }
    destruct (Z.ltb_spec b 128).
    + split_and!; [done| |lia..]. rewrite enc_base128_step by lia.
      by rewrite Hview, Hv1, <- app_assoc.
    + split_and!; [done|lia..| |done]. rewrite b128_prefix_step by lia.
      by rewrite Hview, Hv1, <- app_assoc.
Qed.

(** The loop over any run of continuation bytes and its last byte. *)
Lemma parse_base128_loop_complete fuel v c groups b rest :
  cbs_ok c -> view c = groups ++ b :: rest -> (length groups < fuel)%nat ->
  Forall (fun x => 128 <= x < 256) groups -> 0 <= b < 128 ->
  (v = 0 -> head groups <> Some 128) ->
  0 <= v -> foldl b128_step v (groups ++ [b]) < 2 ^ 64 ->
  wp (iter fuel parse_base128_step v)
    (fun w c' => cbs_ok c' /\ view c' = rest /\ w = foldl b128_step v (groups ++ [b]))
    (fun _ => False) c.
Proof.
  revert v c groups. induction fuel as [|n IH]; intros v c groups Hok Hview Hfuel Hall Hb Hmin Hv Hmax; [lia|].
  cbn [iter].
  assert (Hgrow : forall l x, 0 <= x -> x <= foldl b128_step x l).
  { clear. induction l as [|y l IH]; intros x Hx; cbn; [lia|].
    pose proof (Z.mod_pos_bound y 128). unfold b128_step in *.
    eapply Z.le_trans; [|apply IH]; lia. }
  destruct groups as [|x groups]; cbn [app foldl] in *.
  - assert (v < 2 ^ 57). { unfold b128_step in Hmax. pose proof (Z.mod_pos_bound b 128). lia. }
    wp_go. wp_call parse_base128_step_spec; [done|lia| |].
    + intros r c' (Hc' & _ & b' & _ & Hv' & _ & ->). rewrite Hview in Hv'. injection Hv' as <- ->.
      destruct (Z.ltb_spec b 128); [|lia]. wp_go.
    + intros c' [He|[He|[_ He]]]; [by rewrite Hview in He|lia|].
      rewrite Hview in He. injection He as ->. lia.
  - apply Forall_cons in Hall as [Hx Hall].
    pose proof (Z.mod_pos_bound x 128 ltac:(lia)) as Hxm.
    assert (Hnz : b128_step v x <> 0).
    { intros H0. unfold b128_step in H0. assert (v = 0) as -> by lia.
      apply (Hmin eq_refl). cbn. f_equal. Z.div_mod_to_equations. lia. }
    assert (0 <= b128_step v x) by (unfold b128_step; lia).
    assert (v < 2 ^ 57).
    { pose proof (Hgrow (groups ++ [b]) (b128_step v x) ltac:(lia)). unfold b128_step in *. lia. }
    wp_go. wp_call parse_base128_step_spec; [done|lia| |].
    + intros r c' (Hc' & _ & b' & _ & Hv' & _ & ->). rewrite Hview in Hv'. injection Hv' as <- Hvc.
      destruct (Z.ltb_spec x 128); [lia|].
      apply IH; [done|done|cbn in Hfuel; lia|done|done|lia|lia|done].
    + intros c' [He|[He|[He0 He]]]; [by rewrite Hview in He|lia|].
      rewrite Hview in He. cbn in He. by apply Hmin.
Qed.

Lemma parse_base128_integer_complete c v rest :
  cbs_ok c -> 0 <= v < 2 ^ 64 -> view c = enc_base128 v ++ rest ->
  wp parse_base128_integer
    (fun w c' => cbs_ok c' /\ w = v /\ view c' = rest) (fun _ => False) c.
Proof.
  intros Hok Hv Hview. unfold parse_base128_integer. wp_go.
  unfold enc_base128 in Hview. rewrite <- app_assoc in Hview. cbn [app] in Hview.
  assert (Hv' : 0 <= v / 128 < 2 ^ 57).
  { split; [apply Z.div_pos; lia|]. apply Z.div_lt_upper_bound; lia. }
  destruct (b128_prefix_spec 10 (v / 128)) as [[Hall Hhd] Hval].
  { change (Z.of_nat 10) with 10. lia. }
  assert (Hfold : foldl b128_step 0 (b128_prefix 10 (v / 128) ++ [v mod 128]) = v).
  { rewrite foldl_app, Hval. cbn. unfold b128_step. Z.div_mod_to_equations. lia. }
  pose proof (Z.mod_pos_bound v 128 ltac:(lia)).
  wp_call parse_base128_loop_complete; [done|exact Hview| |done|lia|done|lia|by rewrite Hfold; lia| |done].
  - unfold cbs_fuel. rewrite <- zlen_view, Hview by done. unfold zlen. rewrite length_app. cbn. lia.
  - intros w c' (Hc' & Hr & ->). done.
Qed.

(** * Tags *)

Lemma tag_word b n :
  is_byte b -> 0 <= n < 2 ^ 29 ->
  Z.lor (u32 (Z.shiftl (Z.land b 0xe0) CBS_ASN1_TAG_SHIFT)) n = b / 32 * 2 ^ 29 + n.
Proof.
  intros Hb Hn.
  assert (He0 : Z.land b 0xe0 = b / 32 * 32).
  { apply Z.eqb_eq. exact (byte_forall (fun b => Z.land b 224 =? b / 32 * 32) ltac:(vm_compute; reflexivity) b Hb). }
  rewrite He0. unfold u32, CBS_ASN1_TAG_SHIFT, is_byte in *.
  assert (Hq : 0 <= b / 32 < 8) by (Z.div_mod_to_equations; lia).
  replace (Z.shiftl (b / 32 * 32) 24) with (Z.shiftl (b / 32) 29)
    by (rewrite !Z.shiftl_mul_pow2 by lia; lia).
  rewrite Z.mod_small by (rewrite Z.shiftl_mul_pow2 by lia; lia).
  by apply lor_shiftl.
Qed.

Lemma tag_bits_word q n : 0 <= n < 2 ^ 29 -> tag_bits (q * 2 ^ 29 + n) = q * 32.
Proof. intros. unfold tag_bits. f_equal. Z.div_mod_to_equations. lia. Qed.
Lemma tag_number_word q n : 0 <= n < 2 ^ 29 -> tag_number (q * 2 ^ 29 + n) = n.
Proof. intros. unfold tag_number. Z.div_mod_to_equations. lia. Qed.
Lemma tag_split tag : tag = tag / 2 ^ 29 * 2 ^ 29 + tag_number tag.
Proof. unfold tag_number. Z.div_mod_to_equations. lia. Qed.

Lemma land_0x1f b : Z.land b 0x1f = b mod 32.
Proof. exact (land_low b 5 ltac:(done)). Qed.

Lemma parse_asn1_tag_sound c :
  cbs_ok c ->
  wp parse_asn1_tag
    (fun tag c' => cbs_ok c' /\ view c = enc_tag tag ++ view c' /\ tag_ok tag)
    (fun _ => True) c.
Proof.
  intros Hok. unfold parse_asn1_tag. wp_go. wp_call CBS_get_u8_spec; [done| |done].
  intros b c1 (Hc1 & Hview & Hb). rewrite land_0x1f. unfold is_byte in Hb.
  assert (Hq : 0 <= b / 32 < 8) by (Z.div_mod_to_equations; lia).
  pose proof (Z.mod_pos_bound b 32 ltac:(lia)). wp_go.
  - apply Z.eqb_eq in Hif. wp_call parse_base128_integer_sound; [done| |done].
    intros v c2 (Hc2 & Hv2 & Hv). wp_go.
    change CBS_ASN1_TAG_NUMBER_MASK with (2 ^ 29 - 1) in *.
    apply orb_false_iff in Hif0 as [Hmax Hmin].
    replace (u32 v) with v by (unfold u32; rewrite Z.mod_small; lia).
    rewrite tag_word by (unfold is_byte; lia).
    split_and!; [done| |unfold tag_ok; lia..].
    unfold enc_tag. rewrite tag_bits_word, tag_number_word by lia.
    destruct (Z.ltb_spec v 31); [lia|]. rewrite Hview, Hv2. cbn [app]. f_equal.
    Z.div_mod_to_equations; lia.
  - apply Z.eqb_neq in Hif. rewrite tag_word by (unfold is_byte; lia).
    split_and!; [done| |unfold tag_ok; lia..].
    unfold enc_tag. rewrite tag_bits_word, tag_number_word by lia.
    destruct (Z.ltb_spec (b mod 32) 31); [|lia]. rewrite Hview. cbn [app]. f_equal.
    Z.div_mod_to_equations; lia.
Qed.

Lemma parse_asn1_tag_complete c tag rest :
  cbs_ok c -> tag_ok tag -> view c = enc_tag tag ++ rest ->
  wp parse_asn1_tag
    (fun t c' => cbs_ok c' /\ t = tag /\ view c' = rest) (fun _ => False) c.
Proof.
  intros Hok Htag Hview. unfold parse_asn1_tag, tag_ok in *. wp_go.
  pose proof (tag_number_range tag) as Hn. pose proof (tag_split tag) as Hsplit.
  assert (Hq : 0 <= tag / 2 ^ 29 < 8) by (Z.div_mod_to_equations; lia).
  wp_call CBS_get_u8_spec; [done| |].
  2: { intros c' [_ He]. rewrite Hview in He. unfold enc_tag in He. by destruct (_ <? 31). }
  intros b c1 (Hc1 & Hv1 & Hb). rewrite land_0x1f. rewrite Hview in Hv1.
  unfold enc_tag, tag_bits in Hv1. destruct (Z.ltb_spec (tag_number tag) 31).
  - cbn in Hv1. injection Hv1 as <- Hr. wp_go.
    + Z.div_mod_to_equations; lia.
    + rewrite tag_word by (unfold is_byte in *; Z.div_mod_to_equations; lia).
      split_and!; [done| |done]. Z.div_mod_to_equations; lia.
  - cbn [app] in Hv1. injection Hv1 as <- Hr. wp_go; [|Z.div_mod_to_equations; lia].
    wp_call parse_base128_integer_complete; [done| |by symmetry|intros v c2 (Hc2 & -> & Hv2)|done]; [lia|].
    wp_go.
    { change CBS_ASN1_TAG_NUMBER_MASK with (2 ^ 29 - 1) in *. lia. }
    replace (u32 (tag_number tag)) with (tag_number tag) by (unfold u32; rewrite Z.mod_small; lia).
    rewrite tag_word by (done || lia).
    split_and!; [done| |done]. Z.div_mod_to_equations; lia.
Qed.

(** * Elements *)

Lemma constructed_spec tag :
  negb (Z.land tag CBS_ASN1_CONSTRUCTED =? 0) = constructed tag.
Proof.
  change CBS_ASN1_CONSTRUCTED with (2 ^ 29). rewrite land_pow2 by done.
  rewrite negb_involutive. apply Z.testbit_eqb. done.
Qed.

(** What one element looks like: a minimally encoded definite-length element, or,
    where BER is allowed, the header of a constructed element of indefinite
    length. *)
Inductive element (ber_ok : bool) (tag header_len : Z) : list Z -> Prop :=
| element_definite contents :
    len_ok (zlen contents) -> header_len = zlen (der_header tag (zlen contents)) ->
    element ber_ok tag header_len (der tag contents)
| element_indefinite :
    ber_ok = true -> constructed tag = true -> header_len = zlen (indef_header tag) ->
    element ber_ok tag header_len (indef_header tag).

(** A definite-length element is cut off once its header and its length are
    known. *)
Lemma get_definite c h len rest :
  cbs_ok c -> view c = h ++ rest -> 0 <= len ->
  wp (CBS_get_bytes (len + zlen h))
    (fun out c' => cbs_ok c' /\ cbs_ok out /\ view c = view out ++ view c' /\
       exists contents, view out = h ++ contents /\ zlen contents = len)
    (fun c' => c' = c /\ cbs_len c < len + zlen h) c.
Proof.
  intros Hok Hview Hlen. pose proof (zlen_nonneg h).
  wp_call CBS_get_bytes_spec; [done|lia| |done].
  intros out c' (Hc' & Ho & Hv & Hl). split_and!; [done..|].
  assert (Hzo : zlen (view out) = len + zlen h) by by rewrite zlen_view.
  rewrite Hv in Hview. destruct (app_cut _ _ _ _ Hview) as (k & Hk & _); [lia|].
  exists k. split; [done|]. rewrite Hk, zlen_app in Hzo. lia.
Qed.

(** How far a parse got. *)
Lemma consumed c c' h :
  cbs_ok c -> cbs_ok c' -> view c = h ++ view c' -> u64 (CBS_len c - CBS_len c') = zlen h.
Proof.
  intros Hc Hc' Hv. unfold CBS_len. rewrite <- (zlen_view c), <- (zlen_view c') by done.
  rewrite Hv, zlen_app. replace (zlen h + zlen (view c') - zlen (view c')) with (zlen h) by lia.
  unfold u64. apply Z.mod_small. pose proof (cbs_ok_len c Hc) as Hl. rewrite <- zlen_view, Hv, zlen_app in Hl by done.
  pose proof (zlen_nonneg h). pose proof (zlen_nonneg (view c')). unfold SIZE_MAX in Hl. lia.
Qed.

(** The checks on a long-form length leave exactly [enc_len]. *)
Lemma long_form l n lb :
  bytes l -> zlen l = n -> 0 < n <= 4 -> lb = 128 + n -> 128 <= be_val l ->
  Z.shiftr (be_val l) ((n - 1) * 8) <> 0 ->
  enc_len (be_val l) = lb :: l /\ len_ok (be_val l).
Proof.
  intros Hb Hl Hn -> Hmin Hsh. pose proof (be_val_bound l Hb) as Hbound.
  rewrite Z.shiftr_div_pow2 in Hsh by lia.
  assert (Hp : 2 ^ ((n - 1) * 8) = 256 ^ (n - 1)).
  { change 256 with (2 ^ 8). rewrite <- Z.pow_mul_r by lia. f_equal. lia. }
  rewrite Hp in Hsh.
  assert (256 ^ (n - 1) <= be_val l).
  { destruct (Z.le_gt_cases (256 ^ (n - 1)) (be_val l)); [done|]. exfalso. apply Hsh, Z.div_small. lia. }
  assert (Hlen : len_octets (be_val l) = Z.to_nat n).
  { apply len_octets_unique; rewrite ?Z2Nat.id by lia; rewrite ?Hl in *; lia. }
  split.
  - unfold enc_len. destruct (Z.ltb_spec (be_val l) 128); [lia|]. rewrite Hlen, Z2Nat.id by lia.
    f_equal. replace (Z.to_nat n) with (length l) by (unfold zlen in Hl; lia). by apply be_be_val.
  - unfold len_ok. rewrite Hl in Hbound.
    pose proof (Z.pow_le_mono_r 256 n 4 ltac:(lia) ltac:(lia)). change (256 ^ 4) with (2 ^ 32) in *. lia.
Qed.

(** The header part of [cbs_get_any_asn1_element] followed by cutting off the
    element, for a definite length. *)
Lemma get_element_sound c (ber_ok : bool) tag lh len rest :
  cbs_ok c -> view c = (enc_tag tag ++ lh) ++ rest -> lh = enc_len len -> len_ok len ->
  wp (CBS_get_bytes (len + zlen (enc_tag tag ++ lh)))
    (fun out c' => cbs_ok c' /\ cbs_ok out /\ view c = view out ++ view c' /\
       element ber_ok tag (zlen (enc_tag tag ++ lh)) (view out))
    (fun c' => c' = c) c.
Proof.
  intros Hok Hview -> Hlen.
  wp_call get_definite; [done|exact Hview|unfold len_ok in *; lia| |by intros c' [-> _]].
  intros out c' (Hc' & Ho & Hv & contents & Hcont & Hzl). split_and!; [done..|].
  rewrite Hcont. rewrite <- Hzl in *. by apply element_definite.
Qed.

Lemma cbs_get_any_asn1_element_sound ber_ok c :
  cbs_ok c ->
  wp (cbs_get_any_asn1_element ber_ok)
    (fun '(out, tag, header_len) c' =>
       cbs_ok c' /\ cbs_ok out /\ tag_ok tag /\ view c = view out ++ view c' /\
       element ber_ok tag header_len (view out))
    (fun c' => c' = c) c.
Proof.
  intros Hok. unfold cbs_get_any_asn1_element. wp_go.
  wp_call parse_asn1_tag_sound; [done| |done]. intros tag c1 (Hc1 & Hv1 & Htag).
  wp_go. wp_call CBS_get_u8_spec; [done| |done]. intros lb c2 (Hc2 & Hv2 & Hlb).
  rewrite (consumed c c2 (enc_tag tag ++ [lb])) by (rewrite ?Hv1, ?Hv2, <- ?app_assoc; done).
  rewrite land_0x80, constructed_spec, land_0x7f by done. unfold is_byte in Hlb.
  pose proof (zlen_enc_tag tag) as Hzt. rewrite !zlen_snoc. wp_go.
  - (* short form *)
    unfold u64. rewrite Z.mod_small by lia.
    assert (enc_len lb = [lb]) as Hel by (unfold enc_len; by rewrite Hif).
    replace (zlen (enc_tag tag) + 1) with (zlen (enc_tag tag ++ [lb])) by by rewrite zlen_snoc.
    wp_call (get_element_sound c ber_ok tag [lb] lb (view c2)); [done|..|done].
    + by rewrite Hv1, Hv2, <- app_assoc.
    + done.
    + unfold len_ok. lia.
    + intros out c' (Hc' & Ho & Hv & Hel'). wp_go.
  - (* indefinite length *)
    apply andb_true_iff in Hif0 as [[-> Hcons]%andb_true_iff Hz].
    assert (lb = 128) as -> by (Z.div_mod_to_equations; lia).
    replace (zlen (enc_tag tag) + 1) with (0 + zlen (enc_tag tag ++ [128])) by (rewrite zlen_snoc; lia).
    wp_call (get_definite c (enc_tag tag ++ [128]) 0 (view c2)); [done|by rewrite Hv1, Hv2, <- app_assoc|done| |by intros c' [-> _]].
    intros out c' (Hc' & Ho & Hv & k & Hk & Hk0). apply zlen_0 in Hk0 as ->. rewrite app_nil_r in Hk.
    wp_go. rewrite Hk in Hv |- *. split_and!; [done..|]. by apply element_indefinite.
  - (* long form *)
    apply orb_false_iff in Hif1 as [Hn0 Hn4]. pose proof (Z.mod_pos_bound lb 128 ltac:(lia)).
    wp_call cbs_get_u_spec; [done|lia| |done].
    intros len32 c3 (l & Hc3 & Hv3 & Hl & Hb & ->). wp_go.
    destruct (long_form l (lb mod 128) lb) as [Hel Hlok]; [done|done|lia|Z.div_mod_to_equations; lia|lia|lia|].
    unfold len_ok in Hlok.
    replace (u64 (zlen (enc_tag tag) + 1 + lb mod 128)) with (zlen (enc_tag tag ++ lb :: l)).
    2: { unfold u64. rewrite Z.mod_small by lia. zlist. }
    replace (u64 (be_val l + (zlen (enc_tag tag) + 1) + lb mod 128)) with (be_val l + zlen (enc_tag tag ++ lb :: l)).
    2: { unfold u64. rewrite Z.mod_small by lia. zlist. }
    wp_call (get_element_sound c ber_ok tag (lb :: l) (be_val l) (view c3)); [done|..|done].
    + by rewrite Hv1, Hv2, Hv3, <- app_assoc.
    + done.
    + done.
    + intros out c' (Hc' & Ho & Hv & Hel'). wp_go.
Qed.

(** Conversely every such element is accepted. *)
Lemma get_bytes_exact c n a rest :
  cbs_ok c -> view c = a ++ rest -> n = zlen a ->
  wp (CBS_get_bytes n)
    (fun out c' => cbs_ok c' /\ cbs_ok out /\ view out = a /\ view c' = rest)
    (fun _ => False) c.
Proof.
  intros Hok Hview ->. wp_call CBS_get_bytes_spec; [done|zlist| |].
  - intros out c' (Hc' & Ho & Hv & Hl). rewrite Hview in Hv.
    apply app_inj_zlen in Hv as [<- <-]; [done|]. by rewrite zlen_view.
  - intros c' [-> Hlt]. rewrite <- zlen_view, Hview, zlen_app in Hlt by done.
    pose proof (zlen_nonneg rest). lia.
Qed.

Lemma cbs_get_u_exact c n l rest :
  cbs_ok c -> view c = l ++ rest -> zlen l = n -> n <= 4 -> bytes l ->
  wp (cbs_get_u n)
    (fun v c' => cbs_ok c' /\ view c' = rest /\ v = be_val l) (fun _ => False) c.
Proof.
  intros Hok Hview <- Hn Hb. wp_call cbs_get_u_spec; [done|split; zlist| |].
  - intros v c' (l' & Hc' & Hv & Hl & _ & ->). rewrite Hview in Hv.
    by apply app_inj_zlen in Hv as [<- <-].
  - intros c' [-> Hlt]. rewrite <- zlen_view, Hview, zlen_app in Hlt by done.
    pose proof (zlen_nonneg rest). lia.
Qed.

Lemma CBS_get_u8_exact c b rest :
  cbs_ok c -> view c = b :: rest ->
  wp CBS_get_u8 (fun x c' => cbs_ok c' /\ view c' = rest /\ x = b) (fun _ => False) c.
Proof.
  intros Hok Hview. wp_call CBS_get_u8_spec; [done| |].
  - intros x c' (Hc' & Hv & _). rewrite Hview in Hv. by injection Hv as -> ->.
  - intros c' [_ He]. by rewrite Hview in He.
Qed.

(** The guards of the long form, seen from the encoder. *)
Lemma long_form_complete len :
  128 <= len < 2 ^ 32 ->
  Z.shiftr len ((Z.of_nat (len_octets len) - 1) * 8) <> 0 /\
  be_val (be (len_octets len) len) = len.
Proof.
  intros Hlen. pose proof (len_octets_bound len). pose proof (len_octets_least len Hlen) as Hleast.
  split.
  - rewrite Z.shiftr_div_pow2 by lia.
    assert (2 ^ ((Z.of_nat (len_octets len) - 1) * 8) = 256 ^ (Z.of_nat (len_octets len) - 1)) as ->.
    { change 256 with (2 ^ 8). rewrite <- Z.pow_mul_r by lia. f_equal. lia. }
    assert (1 <= len / 256 ^ (Z.of_nat (len_octets len) - 1)); [|lia].
    apply Z.div_le_lower_bound; [apply Z.pow_pos_nonneg|]; lia.
  - apply be_val_be. split; [lia|]. apply len_octets_fits. unfold len_ok. lia.
Qed.

Lemma cbs_get_any_asn1_element_complete ber_ok c tag contents rest :
  cbs_ok c -> tag_ok tag -> len_ok (zlen contents) -> view c = der tag contents ++ rest ->
  wp (cbs_get_any_asn1_element ber_ok)
    (fun '(out, t, header_len) c' =>
       cbs_ok c' /\ cbs_ok out /\ t = tag /\ header_len = zlen (der_header tag (zlen contents)) /\
       view out = der tag contents /\ view c' = rest)
    (fun _ => False) c.
Proof.
  intros Hok Htag Hlen Hview. unfold cbs_get_any_asn1_element. wp_go.
  pose proof (zlen_enc_tag tag) as Hzt. pose proof (cbs_ok_len c Hok) as Hcl.
  assert (Hzd : zlen (der tag contents) <= cbs_len c).
  { rewrite <- zlen_view, Hview, zlen_app by done. pose proof (zlen_nonneg rest). lia. }
  unfold SIZE_MAX in Hcl. unfold der, der_header in Hzd. rewrite !zlen_app in Hzd.
  pose proof Hview as Hview'. unfold der, der_header in Hview'. rewrite <- !app_assoc in Hview'.
  wp_call (parse_asn1_tag_complete c tag _ Hok Htag Hview'); [|done].
  intros t c1 (Hc1 & -> & Hv1). unfold enc_len in Hzd, Hv1. unfold len_ok in Hlen.
  destruct (Z.ltb_spec (zlen contents) 128) as [Hs|Hs]; cbn [app] in Hv1; wp_go.
  - wp_call CBS_get_u8_exact; [done|exact Hv1| |done]. intros b c2 (Hc2 & Hv2 & ->).
    rewrite (consumed c c2 (enc_tag tag ++ [zlen contents])).
    2-4: done || by rewrite Hview', Hv2; unfold enc_len; rewrite (proj2 (Z.ltb_lt _ _)), <- app_assoc by lia.
    rewrite land_0x80 by (unfold is_byte; lia). rewrite (proj2 (Z.ltb_lt _ _) Hs).
    rewrite zlen_snoc in *. unfold u64. rewrite Z.mod_small by zlist.
    assert (Hh : der_header tag (zlen contents) = enc_tag tag ++ [zlen contents]).
    { unfold der_header, enc_len. by rewrite (proj2 (Z.ltb_lt _ _) Hs). }
    wp_go. wp_call get_bytes_exact; [done|exact Hview| | |done].
    + unfold der. rewrite Hh. zlist.
    + intros out c' (Hc' & Ho & Hvo & Hvc). wp_go. rewrite Hh, zlen_snoc. done.
  - set (n := len_octets (zlen contents)) in *. pose proof (len_octets_bound (zlen contents)) as Hn. fold n in Hn.
    destruct (long_form_complete (zlen contents)) as [Hsh Hbe]; [lia|]. fold n in Hsh, Hbe.
    assert (Hh : der_header tag (zlen contents) = enc_tag tag ++ (128 + Z.of_nat n) :: be n (zlen contents)).
    { unfold der_header, enc_len. rewrite (proj2 (Z.ltb_ge _ _) Hs). done. }
    rewrite zlen_cons, zlen_be in Hzd.
    wp_call CBS_get_u8_exact; [done|exact Hv1| |done]. intros b c2 (Hc2 & Hv2 & ->).
    rewrite (consumed c c2 (enc_tag tag ++ [128 + Z.of_nat n])).
    2-4: done || by rewrite Hview, Hv2; unfold der; rewrite Hh; rewrite <- !app_assoc.
    rewrite land_0x80, land_0x7f by (unfold is_byte; lia).
    rewrite (proj2 (Z.ltb_ge _ _)) by lia.
    replace ((128 + Z.of_nat n) mod 128) with (Z.of_nat n) by (Z.div_mod_to_equations; lia).
    rewrite (proj2 (Z.eqb_neq (Z.of_nat n) 0)), (proj2 (Z.ltb_ge 4 (Z.of_nat n))), andb_false_r by lia.
    cbn [orb]. wp_go.
    wp_call cbs_get_u_exact; [done|exact Hv2|apply zlen_be|lia|apply bytes_be| |done].
    intros len32 c3 (Hc3 & Hv3 & ->). rewrite Hbe, zlen_snoc. wp_go; [lia|lia|unfold u64 in *; rewrite Z.mod_small in * by lia; lia|].
    wp_call get_bytes_exact; [done|exact Hview| | |done].
    + unfold der. rewrite Hh. unfold u64. rewrite Z.mod_small by lia. zlist.
    + intros out c' (Hc' & Ho & Hvo & Hvc). wp_go. rewrite Hh. unfold u64.
      rewrite Z.mod_small by lia. zlist. split_and!; done || zlist.
Qed.

(** DER elements parse uniquely: no encoding is a prefix of another one. *)
Lemma der_prefix_free tag tag' contents contents' rest rest' :
  tag_ok tag -> tag_ok tag' -> bytes (der tag contents ++ rest) ->
  len_ok (zlen contents) -> len_ok (zlen contents') -> zlen (der tag contents ++ rest) <= SIZE_MAX ->
  der tag contents ++ rest = der tag' contents' ++ rest' ->
  tag = tag' /\ contents = contents' /\ rest = rest'.
Proof.
  intros Ht Ht' Hb Hl Hl' Hmax Heq. set (c := cbs_of (der tag contents ++ rest)).
  assert (Hok : cbs_ok c) by by apply cbs_of_ok.
  pose proof (cbs_get_any_asn1_element_complete false c tag contents rest Hok Ht Hl (view_cbs_of _)) as H1.
  pose proof (cbs_get_any_asn1_element_complete false c tag' contents' rest' Hok Ht' Hl') as H2.
  unfold c in H2. rewrite view_cbs_of in H2. specialize (H2 Heq). fold c in H2.
  unfold wp in *. destruct (cbs_get_any_asn1_element false c) as [[[out t] hl] c'|c'|]; [|done..].
  destruct H1 as (_ & _ & -> & -> & Hv & Hr). destruct H2 as (_ & _ & -> & Hh & Hv' & Hr').
  rewrite Hv in Hv'. rewrite Hr in Hr'. unfold der in Hv'.
  apply app_inj_zlen in Hv' as [_ ->]; done.
Qed.

(** * Typed elements *)

Lemma der_app tag contents rest :
  der tag contents ++ rest = der_header tag (zlen contents) ++ contents ++ rest.
Proof. unfold der. by rewrite <- app_assoc. Qed.

Lemma skip_header_spec out tag contents c :
  cbs_ok out -> view out = der tag contents ->
  wp (skip_header out (zlen (der_header tag (zlen contents))))
    (fun o c' => c' = c /\ cbs_ok o /\ view o = contents) (fun _ => False) c.
Proof.
  intros Ho Hv. unfold skip_header. wp_go. pose proof (zlen_der_header tag (zlen contents)).
  wp_call CBS_skip_spec; [done|lia| |].
  - intros _ o (l & Hok & Hvo & Hl). wp_go. split_and!; [done..|].
    rewrite Hv in Hvo. unfold der in Hvo. by apply app_inj_zlen in Hvo as [_ ->].
  - intros o [-> Hlt]. exfalso. rewrite <- zlen_view, Hv in Hlt by done. unfold der in Hlt.
    rewrite zlen_app in Hlt. pose proof (zlen_nonneg contents). lia.
Qed.

Lemma cbs_get_asn1_sound tag skip c :
  cbs_ok c ->
  wp (cbs_get_asn1 tag skip)
    (fun out c' => cbs_ok c' /\ cbs_ok out /\ tag_ok tag /\ exists contents,
       len_ok (zlen contents) /\ view c = der tag contents ++ view c' /\
       view out = if skip then contents else der tag contents)
    (fun _ => True) c.
Proof.
  intros Hok. unfold cbs_get_asn1, CBS_get_any_asn1_element. wp_go.
  wp_call cbs_get_any_asn1_element_sound; [done| |done].
  intros [[out t] hl] c' (Hc' & Ho & Ht & Hv & Hel).
  inversion Hel as [contents Hlen Hh Hvo|]; [|done]. wp_go;
    apply negb_false_iff, Z.eqb_eq in Hif as ->.
  - subst hl. wp_call skip_header_spec; [done|by symmetry| |done].
    intros o ? (-> & Hoo & Hvoo). split_and!; [done..|]. exists contents. rewrite Hvo. done.
  - wp_go. split_and!; [done..|]. exists contents. by rewrite Hvo.
Qed.

Lemma cbs_get_asn1_complete tag skip c contents rest :
  cbs_ok c -> tag_ok tag -> len_ok (zlen contents) -> view c = der tag contents ++ rest ->
  wp (cbs_get_asn1 tag skip)
    (fun out c' => cbs_ok c' /\ cbs_ok out /\ view c' = rest /\
       view out = if skip then contents else der tag contents)
    (fun _ => False) c.
Proof.
  intros Hok Ht Hl Hv. unfold cbs_get_asn1, CBS_get_any_asn1_element. wp_go.
  wp_call (cbs_get_any_asn1_element_complete false c tag contents rest Hok Ht Hl Hv); [|done].
  intros [[out t] hl] c' (Hc' & Ho & -> & -> & Hvo & Hr). rewrite Z.eqb_refl. cbn [negb]. destruct skip.
  - wp_call skip_header_spec; [done|exact Hvo| |done]. by intros o ? (-> & ? & ?).
  - wp_go.
Qed.

Lemma CBS_peek_asn1_tag_sound tag c :
  cbs_ok c -> tag_ok tag ->
  wp (CBS_peek_asn1_tag tag)
    (fun b c' => c' = c /\ (b = true <-> exists rest, view c = enc_tag tag ++ rest))
    (fun _ => False) c.
Proof.
  intros Hok Ht. unfold CBS_peek_asn1_tag. wp_go.
  { split; [done|]. split; [done|]. intros [rest Hv].
    assert (cbs_len c = zlen (enc_tag tag) + zlen rest) as Hl by by rewrite <- zlen_view, Hv, zlen_app.
    unfold CBS_len in Hif. pose proof (zlen_enc_tag tag). pose proof (zlen_nonneg rest). lia. }
  assert (Hcomp : forall rest, view c = enc_tag tag ++ rest ->
    wp parse_asn1_tag (fun t _ => t = tag) (fun _ => False) c).
  { intros rest Hv. by wp_call (parse_asn1_tag_complete c tag rest Hok Ht Hv); [intros ??(?&?&?)|]. }
  pose proof (parse_asn1_tag_sound c Hok) as Hsound. unfold wp in *.
  destruct (parse_asn1_tag c) as [t c1|c1|]; [| |done].
  - destruct Hsound as (_ & Hv & _). cbn. split; [done|]. rewrite Z.eqb_eq. split.
    + intros ->. eauto.
    + intros [rest Hrest]. symmetry. exact (Hcomp rest Hrest).
  - cbn. split; [done|]. split; [done|]. intros [rest Hrest]. destruct (Hcomp rest Hrest).
Qed.

(** * INTEGERs *)

(** The accumulating loop, for contents that fit in 64 bits. *)
Lemma uint64_loop_spec (c1 : CBS) (p : ptr) l t :
  ptr_bytes p = l ++ t -> bytes l ->
  wp (for_ 0 (Z.to_nat (zlen l)) (fun i out =>
        if negb (Z.shiftr out 56 =? 0) then fail else
        b ← deref (ptr_get p i);
        mret (Z.lor (u64 (Z.shiftl out 8)) b)) 0)
    (fun v c' => c' = c1 /\ v = be_val l /\ v < 2 ^ 64)
    (fun _ => 2 ^ 64 <= be_val l) c1.
Proof.
  intros Hp Hb.
  eapply (wp_for (fun i r s => s = c1 /\ r = be_val (ztake i l) /\ r < 2 ^ 64)).
  - done.
  - intros j r s Hj (-> & -> & Hr). rewrite Z2Nat.id in Hj by zlist. cbn in Hj.
    destruct (zget_lt l j) as [b Hget]; [lia|].
    pose proof (bytes_zget _ _ _ Hb Hget) as Hbb. unfold is_byte in Hbb.
    pose proof (be_val_bound (ztake j l) ltac:(zlist)) as Hbd.
    pose proof (zget_split _ _ _ Hget) as Hsplit.
    rewrite Z.shiftr_div_pow2 by lia. wp_go.
    + (* the accumulator already has a ninth byte's worth *)
      apply negb_true_iff, Z.eqb_neq in Hif.
      assert (2 ^ 56 <= be_val (ztake j l)).
      { destruct (Z.le_gt_cases (2 ^ 56) (be_val (ztake j l))); [done|]. exfalso. apply Hif, Z.div_small. lia. }
      rewrite Hsplit, be_val_app, be_val_cons, zlen_cons.
      assert (bytes (zdrop (j + 1) l)) as Hbd1 by zlist. pose proof (be_val_bound _ Hbd1) as Hb1.
      pose proof (Z.pow_pos_nonneg 256 (zlen (zdrop (j + 1) l)) ltac:(lia) ltac:(zlist)).
      rewrite Z.pow_add_r by zlist. nia.
    + apply negb_false_iff, Z.eqb_eq in Hif.
      assert (be_val (ztake j l) < 2 ^ 56) by (Z.div_mod_to_equations; lia).
      eapply wp_deref.
      { unfold ptr_get. rewrite Hp, zget_app_l by lia. exact Hget. }
      wp_go.
      assert (Hv : be_val (ztake (j + 1) l) = be_val (ztake j l) * 256 + b).
      { rewrite Hsplit at 1. rewrite ztake_app_ge by zlist. rewrite zlen_ztake by lia.
        replace (j + 1 - j) with 1 by lia. change (ztake 1 (b :: zdrop (j + 1) l)) with [b].
        by rewrite be_val_snoc. }
      unfold u64. rewrite Z.mod_small by (rewrite Z.shiftl_mul_pow2 by lia; lia).
      rewrite lor_shiftl by lia. rewrite Hv. change (2 ^ 8) with 256. split_and!; [done|done|lia].
  - intros v s (-> & -> & Hv). rewrite Z2Nat.id, Z.add_0_l in * by zlist. by rewrite ztake_all in *.
Qed.

Lemma extra_leading_zero_spec (c1 : CBS) (p : ptr) b l t :
  ptr_bytes p = (b :: l) ++ t -> bytes l ->
  wp (extra_leading_zero p (zlen (b :: l)) b)
    (fun x s => s = c1 /\ if x then ~ (b = 0 -> l = [] \/ exists b' l', l = b' :: l' /\ 128 <= b')
       else b = 0 -> l = [] \/ exists b' l', l = b' :: l' /\ 128 <= b')
    (fun _ => False) c1.
Proof.
  intros Hp Hb. unfold extra_leading_zero. rewrite zlen_cons. wp_go.
  - apply andb_true_iff in Hif as [->%Z.eqb_eq Hlen].
    destruct l as [|b' l']; [done|].
    eapply wp_deref; [unfold ptr_get; by rewrite Hp|]. wp_go. split; [done|].
    apply bytes_cons in Hb as [Hb' _]. rewrite land_0x80 by done.
    destruct (Z.ltb_spec b' 128).
    + intros Hx. destruct (Hx eq_refl) as [?|(? & ? & [= <- <-] & ?)]; [done|lia].
    + intros _. eauto.
  - split; [done|]. intros ->. left. apply zlen_0. pose proof (zlen_nonneg l). lia.
Qed.

(** The checks made on the contents octets of a non-negative INTEGER. *)
Lemma CBS_get_asn1_uint64_sound c :
  cbs_ok c ->
  wp CBS_get_asn1_uint64
    (fun v c' => cbs_ok c' /\ 0 <= v < 2 ^ 64 /\
       view c = der CBS_ASN1_INTEGER (enc_uint64 v) ++ view c')
    (fun _ => True) c.
Proof.
  intros Hok. unfold CBS_get_asn1_uint64, CBS_get_asn1. wp_go.
  wp_call cbs_get_asn1_sound; [done| |done].
  intros out c1 (Hc1 & Ho & _ & contents & Hlen & Hv & Hvo). cbn in Hvo.
  pose proof Ho as ([Hl0 Hl1] & _ & Hbo). unfold CBS_data, CBS_len. wp_go.
  assert (Hp : ptr_bytes (cbs_data out) = contents ++ zdrop (cbs_len out) (ptr_bytes (cbs_data out))).
  { rewrite <- Hvo. symmetry. apply ztake_zdrop. }
  assert (Hzl : cbs_len out = zlen contents) by by rewrite <- Hvo, zlen_view.
  assert (Hbc : bytes contents) by (rewrite <- Hvo; zlist).
  destruct contents as [|b l]; [by rewrite Hzl in Hif|].
  eapply wp_deref; [unfold ptr_get; by rewrite Hp|].
  pose proof Hbc as [Hbb Hbl]%bytes_cons. rewrite land_0x80 by done. wp_go.
  rewrite Hzl. wp_call (extra_leading_zero_spec c1 _ b l _ Hp Hbl); [|done].
  intros [|] s [-> Hmin]; [wp_go|].
  wp_call uint64_loop_spec; [exact Hp|done| |done].
  intros v s (-> & -> & Hv64). split_and!; [done|by apply be_val_bound|done|].
  rewrite enc_uint64_unique; [done..|lia|by apply Hmin|done].
Qed.

Lemma CBS_get_asn1_uint64_complete c v rest :
  cbs_ok c -> 0 <= v < 2 ^ 64 -> view c = der CBS_ASN1_INTEGER (enc_uint64 v) ++ rest ->
  wp CBS_get_asn1_uint64
    (fun w c' => cbs_ok c' /\ w = v /\ view c' = rest) (fun _ => False) c.
Proof.
  intros Hok Hv Hview. unfold CBS_get_asn1_uint64, CBS_get_asn1. wp_go.
  destruct (enc_uint64_spec v Hv) as (b & l & He & Hb & Hval & Hb128 & Hmin & Hlen).
  rewrite He in Hview. pose proof (zlen_nonneg l) as Hzn.
  wp_call cbs_get_asn1_complete; [done|by unfold tag_ok| |exact Hview| |done].
  { unfold len_ok. rewrite zlen_cons. lia. }
  intros out c1 (Hc1 & Ho & Hr & Hvo). cbn in Hvo. unfold CBS_data, CBS_len.
  assert (Hp : ptr_bytes (cbs_data out) = (b :: l) ++ zdrop (cbs_len out) (ptr_bytes (cbs_data out))).
  { rewrite <- Hvo. symmetry. apply ztake_zdrop. }
  assert (Hzl : cbs_len out = zlen (b :: l)) by by rewrite <- Hvo, zlen_view.
  rewrite Hzl, zlen_cons. rewrite (proj2 (Z.eqb_neq _ 0)) by lia.
  eapply wp_bind, wp_deref; [unfold ptr_get; by rewrite Hp|].
  pose proof Hb as [Hbb Hbl]%bytes_cons. rewrite land_0x80, (proj2 (Z.ltb_lt b 128)) by done. cbn [negb].
  rewrite <- (zlen_cons b l). wp_go. wp_call (extra_leading_zero_spec c1 _ b l _ Hp Hbl); [|done].
  intros [|] s [-> Hx]; [|clear Hx]; [by apply Hx|].
  wp_call uint64_loop_spec; [exact Hp|done| |lia].
  intros w s (-> & -> & _). done.
Qed.

(** A constructed element of indefinite length is accepted where BER is. *)
Lemma cbs_get_any_asn1_element_indefinite c tag rest :
  cbs_ok c -> tag_ok tag -> constructed tag = true -> view c = indef_header tag ++ rest ->
  wp (cbs_get_any_asn1_element true)
    (fun '(out, t, header_len) c' =>
       cbs_ok c' /\ cbs_ok out /\ t = tag /\ header_len = zlen (indef_header tag) /\
       view out = indef_header tag /\ view c' = rest)
    (fun _ => False) c.
Proof.
  intros Hok Htag Hcons Hview. unfold cbs_get_any_asn1_element. wp_go.
  pose proof (zlen_enc_tag tag) as Hzt. pose proof Hview as Hview'.
  unfold indef_header in Hview'. rewrite <- app_assoc in Hview'.
  wp_call (parse_asn1_tag_complete c tag _ Hok Htag Hview'); [|done].
  intros t c1 (Hc1 & -> & Hv1). wp_go.
  wp_call CBS_get_u8_exact; [done|exact Hv1| |done]. intros b c2 (Hc2 & Hv2 & ->).
  rewrite (consumed c c2 (indef_header tag)) by (done || by rewrite Hview, Hv2).
  rewrite constructed_spec, Hcons. cbn -[u64].
  wp_go. wp_call get_bytes_exact; [done|exact Hview|done| |done].
  intros out c' (Hc' & Ho & Hvo & Hvc). wp_go.
Qed.

(** * Bit strings *)

(** Bit [i] of a bit string whose octets are [l], the first octet's high bit
    first. *)
Definition bit_at (l : list Z) (i : Z) : bool :=
  match zget l (i / 8) with
  | Some b => Z.testbit b (7 - i mod 8)
  | None => false
  end.

(** X.690 8.6 and 11.2: the contents of a BIT STRING are a count of unused bits
    and the octets, and the unused bits, which must exist, are zero. *)
Definition bitstring_ok (contents : list Z) : Prop :=
  exists unused octets, contents = unused :: octets /\ unused <= 7 /\
    (unused = 0 \/ exists init last, octets = init ++ [last] /\ last mod 2 ^ unused = 0).

Lemma unused_mask last u : 0 <= u -> Z.land last (Z.shiftl 1 u - 1) = last mod 2 ^ u.
Proof. intros. rewrite Z.shiftl_1_l. by apply land_low. Qed.

Lemma CBS_is_valid_asn1_bitstring_exact c :
  cbs_ok c ->
  wp CBS_is_valid_asn1_bitstring
    (fun _ c' => c' = c /\ bitstring_ok (view c)) (fun c' => c' = c /\ ~ bitstring_ok (view c)) c.
Proof.
  intros Hok. unfold CBS_is_valid_asn1_bitstring. wp_go.
  wp_call CBS_get_u8_spec; [done| |].
  2: { intros c' [_ He]. split; [done|]. intros (u & o & He' & _). by rewrite He' in He. }
  intros u c1 (Hc1 & Hv1 & Hu). unfold is_byte in Hu. wp_go.
  - split; [done|]. intros (u' & o & He & Hu' & _). rewrite Hv1 in He. injection He as <- _. lia.
  - split; [done|]. apply Z.eqb_eq in Hif0 as ->. exists 0, (view c1). split_and!; [done|lia|by left].
  - apply Z.eqb_neq in Hif0. wp_call CBS_get_last_u8_spec; [done| |].
    2: { intros c' [-> He]. split; [done|]. intros (u' & o & He' & _ & [->|(i & x & Ho & _)]).
         - rewrite Hv1 in He'. injection He' as -> _. done.
         - rewrite Hv1 in He'. injection He' as -> <-. rewrite He in Ho. by destruct i. }
    intros last c2 (Hc2 & Hv2 & Hlast). rewrite unused_mask by lia. wp_go.
    + split; [done|]. intros (u' & o & He' & _ & [->|(i & x & Ho & Hx)]).
      * rewrite Hv1 in He'. injection He' as -> _. done.
      * rewrite Hv1 in He'. injection He' as -> <-. rewrite Hv2 in Ho.
        apply app_inj_tail in Ho as [_ ->]. rewrite Hx in Hif1. done.
    + split; [done|]. apply negb_false_iff, Z.eqb_eq in Hif1. exists u, (view c1).
      split_and!; [done|lia|right]. exists (view c2), last. done.
Qed.

Lemma CBS_asn1_bitstring_has_bit_exact c bit :
  cbs_ok c -> 0 <= bit <= UINT_MAX ->
  wp (CBS_asn1_bitstring_has_bit bit)
    (fun b c' => c' = c /\
       (b = true <-> bitstring_ok (view c) /\ bit_at (tail (view c)) bit = true))
    (fun _ => False) c.
Proof.
  intros Hok Hbit. unfold UINT_MAX in Hbit. unfold CBS_asn1_bitstring_has_bit. wp_go.
  wp_call CBS_is_valid_asn1_bitstring_exact; [done| |].
  2: { intros c' [-> Hn]. wp_go. split; [done|]. split; [done|tauto]. }
  intros _ c' [-> Hvalid]. cbn [negb]. pose proof Hvalid as (u & o & Hv & Hu & _).
  assert (Hq : 0 <= bit / 8 <= 2 ^ 29 - 1) by (Z.div_mod_to_equations; lia).
  assert (Hbn : u32 (Z.shiftr bit 3 + 1) = bit / 8 + 1).
  { rewrite Z.shiftr_div_pow2 by lia. change (2 ^ 3) with 8. unfold u32. apply Z.mod_small. lia. }
  assert (Hbm : 7 - Z.land bit 7 = 7 - bit mod 8) by (f_equal; exact (land_low bit 3 ltac:(done))).
  pose proof (Z.mod_pos_bound bit 8 ltac:(lia)) as Hm. rewrite Hbn, Hbm.
  assert (Hlen : CBS_len c = 1 + zlen o) by (unfold CBS_len; by rewrite <- zlen_view, Hv, zlen_cons).
  assert (Hp : ptr_bytes (cbs_data c) = (u :: o) ++ zdrop (cbs_len c) (ptr_bytes (cbs_data c))).
  { rewrite <- Hv. symmetry. apply ztake_zdrop. }
  replace (tail (view c)) with o by by rewrite Hv. unfold bit_at. rewrite Hlen. wp_go.
  - destruct (zget_lt o (bit / 8)) as [x Hx]; [lia|]. eapply wp_deref.
    { unfold ptr_get, CBS_data. rewrite Hp, zget_app_l by (rewrite zlen_cons; lia).
      change (u :: o) with ([u] ++ o). rewrite zget_app_r by (change (zlen [u]) with 1; lia).
      change (zlen [u]) with 1. replace (bit / 8 + 1 - 1) with (bit / 8) by lia. exact Hx. }
    wp_go. split; [done|]. rewrite Hx, Z.shiftl_1_l, land_pow2, negb_involutive by lia. tauto.
  - split; [done|]. split; [done|]. intros [_ Hb]. destruct (zget o (bit / 8)) eqn:E; [|done].
    apply zget_Some in E. lia.
Qed.
