(* ===== verification/CbsThms.v ===== *)
(** The theorems about the parser: each operation accepts exactly the encodings of
    [Der], never reads outside its cursor's window, and always returns (a [wp]
    excludes running out of fuel). *)
From S2P Require Import Prelude Mem Buf Cbs Der CbsFacts.

(** C1. [cbs_get_any_asn1_element] without BER accepts exactly the DER elements: it
    succeeds if and only if the window starts with the minimal identifier and length
    octets of some tag and contents of less than 2^32 bytes, returns the whole
    element, the tag and the header's length and moves past it; otherwise it fails
    and leaves the cursor. *)
Theorem cbs_get_any_asn1_element_exact c :
  cbs_ok c ->
  wp (cbs_get_any_asn1_element false)
    (fun '(out, tag, header_len) c' =>
       cbs_ok c' /\ cbs_ok out /\ tag_ok tag /\ exists contents, len_ok (zlen contents) /\
       view out = der tag contents /\ view c = der tag contents ++ view c' /\
       header_len = zlen (der_header tag (zlen contents)))
    (fun c' => c' = c /\ ~ exists tag contents rest,
       tag_ok tag /\ len_ok (zlen contents) /\ view c = der tag contents ++ rest) c.
Proof.
  intros Hok. eapply wp_exact.
  - wp_call cbs_get_any_asn1_element_sound; [done| |done].
    intros [[out tag] hl] c' (Hc' & Ho & Ht & Hv & Hel).
    inversion Hel as [contents Hl Hh Hvo|]; [|done]. split_and!; [done..|].
    exists contents. rewrite Hvo. done.
  - intros (tag & contents & rest & Ht & Hl & Hv). by wp_call (cbs_get_any_asn1_element_complete false c tag contents rest).
Qed.

(** With BER allowed, the parser accepts in addition exactly the headers of
    constructed elements of indefinite length, and returns the bare header for
    them; nothing else of BER (no long form where a shorter one exists) gets in. *)
Theorem cbs_get_any_ber_asn1_element_exact c :
  cbs_ok c ->
  wp CBS_get_any_ber_asn1_element
    (fun '(out, tag, header_len) c' =>
       cbs_ok c' /\ cbs_ok out /\ tag_ok tag /\ view c = view out ++ view c' /\
       element true tag header_len (view out))
    (fun c' => c' = c /\ ~ exists tag rest, tag_ok tag /\
       ((constructed tag = true /\ view c = indef_header tag ++ rest) \/
        exists contents, len_ok (zlen contents) /\ view c = der tag contents ++ rest)) c.
Proof.
  intros Hok. eapply wp_exact; [by apply cbs_get_any_asn1_element_sound|].
  intros (tag & rest & Ht & [[Hcons Hv]|(contents & Hl & Hv)]).
  - by wp_call (cbs_get_any_asn1_element_indefinite c tag rest).
  - by wp_call (cbs_get_any_asn1_element_complete true c tag contents rest).
Qed.

(** C20. [CBS_get_asn1] accepts exactly the elements with the tag asked for and
    returns their contents; [CBS_get_asn1_element] returns header and contents. *)
Theorem cbs_get_asn1_exact tag skip c :
  cbs_ok c -> tag_ok tag ->
  wp (cbs_get_asn1 tag skip)
    (fun out c' => cbs_ok c' /\ cbs_ok out /\ exists contents,
       len_ok (zlen contents) /\ view c = der tag contents ++ view c' /\
       view out = if skip then contents else der tag contents)
    (fun _ => ~ exists contents rest, len_ok (zlen contents) /\ view c = der tag contents ++ rest) c.
Proof.
  intros Hok Ht. eapply wp_mono; [eapply (wp_exact _ _ (fun _ => True))| |by intros ? [_ ?]].
  - by apply cbs_get_asn1_sound.
  - intros (contents & rest & Hl & Hv). by wp_call (cbs_get_asn1_complete tag skip c contents rest).
  - intros out c' (Hc' & Ho & _ & contents & ?). eauto.
Qed.

(** [CBS_peek_asn1_tag] says whether the window starts with the tag's minimal
    identifier octets, and moves nothing. *)
Theorem CBS_peek_asn1_tag_exact tag c :
  cbs_ok c -> tag_ok tag ->
  wp (CBS_peek_asn1_tag tag)
    (fun b c' => c' = c /\ (b = true <-> exists rest, view c = enc_tag tag ++ rest))
    (fun _ => False) c.
Proof. apply CBS_peek_asn1_tag_sound. Qed.

(** C21. [CBS_get_asn1_uint64] accepts exactly the INTEGERs between 0 and 2^64-1 in
    their shortest form and returns the value: no negative number, no redundant
    leading octet, no overflow. *)
Theorem CBS_get_asn1_uint64_exact c :
  cbs_ok c ->
  wp CBS_get_asn1_uint64
    (fun v c' => cbs_ok c' /\ 0 <= v < 2 ^ 64 /\
       view c = der CBS_ASN1_INTEGER (enc_uint64 v) ++ view c')
    (fun _ => ~ exists v rest, 0 <= v < 2 ^ 64 /\
       view c = der CBS_ASN1_INTEGER (enc_uint64 v) ++ rest) c.
Proof.
  intros Hok. eapply wp_mono; [eapply (wp_exact _ _ (fun _ => True))| |by intros ? [_ ?]].
  - by apply CBS_get_asn1_uint64_sound.
  - intros (v & rest & Hv & Hview). by wp_call (CBS_get_asn1_uint64_complete c v rest).
  - done.
Qed.

(** [CBS_asn1_bitstring_has_bit] reads bit [bit] of a well-formed BIT STRING
    (X.690 8.6: a count of at most seven unused bits, which are zero) and says no
    for every other contents and for a bit past the end. *)
Theorem CBS_asn1_bitstring_has_bit_reads c bit :
  cbs_ok c -> 0 <= bit <= UINT_MAX ->
  wp (CBS_asn1_bitstring_has_bit bit)
    (fun b c' => c' = c /\ (b = true <-> bitstring_ok (view c) /\ bit_at (tail (view c)) bit = true))
    (fun _ => False) c.
Proof. apply CBS_asn1_bitstring_has_bit_exact. Qed.

(** The length-prefixed reader returns the [n]-octet big-endian number of bytes
    that follow the prefix, and fails exactly when the window does not hold them. *)
Theorem cbs_get_length_prefixed_exact n c :
  cbs_ok c -> 0 <= n <= 4 ->
  wp (cbs_get_length_prefixed n)
    (fun out c' => cbs_ok c' /\ cbs_ok out /\
       view c = be (Z.to_nat n) (zlen (view out)) ++ view out ++ view c')
    (fun _ => ~ exists l rest, zlen l < 256 ^ n /\ view c = be (Z.to_nat n) (zlen l) ++ l ++ rest) c.
Proof.
  intros Hok Hn. eapply wp_mono; [eapply (wp_exact _ _ (fun _ => True))| |by intros ? [_ ?]].
  - by apply cbs_get_length_prefixed_spec.
  - intros (l & rest & Hl & Hv). unfold cbs_get_length_prefixed. wp_go.
    wp_call cbs_get_u_exact; [done|exact Hv|rewrite zlen_be, Z2Nat.id by lia; reflexivity|lia|apply bytes_be| |done].
    intros v c' (Hc' & Hv' & ->). rewrite be_val_be by (rewrite Z2Nat.id by lia; zlist).
    by wp_call get_bytes_exact.
  - done.
Qed.

(** Parsing depends on the window's bytes alone: from two cursors over the same
    bytes, wherever these lie and whatever follows them in memory, the element
    parser returns the same tag, lengths and bytes, or fails on both. *)
Theorem cbs_get_any_asn1_element_local ber_ok c d :
  same_view c d ->
  match cbs_get_any_asn1_element ber_ok c, cbs_get_any_asn1_element ber_ok d with
  | Ok (out, tag, hl) c', Ok (out', tag', hl') d' =>
      same_view out out' /\ tag = tag' /\ hl = hl' /\ same_view c' d'
  | Fail c', Fail d' => c' = c /\ d' = d
  | _, _ => False
  end.
Proof.
  intros (Hc & Hd & Heq).
  assert (Hgo : forall c d, cbs_ok c -> cbs_ok d -> view c = view d ->
    forall out tag hl c', cbs_get_any_asn1_element ber_ok c = Ok (out, tag, hl) c' ->
    exists out' d', cbs_get_any_asn1_element ber_ok d = Ok (out', tag, hl) d' /\
      same_view out out' /\ same_view c' d').
  { clear. intros c d Hc Hd Heq out tag hl c' Hrun.
    pose proof (wp_ok _ _ _ _ _ _ (cbs_get_any_asn1_element_sound ber_ok c Hc) Hrun)
      as (Hc' & Ho & Ht & Hv & Hel). rewrite Heq in Hv.
    inversion Hel as [contents Hl Hh Hvo|Hber Hcons Hh Hvo]; rewrite <- Hvo in Hv.
    - destruct (wp_total _ _ _ (cbs_get_any_asn1_element_complete ber_ok d tag contents _ Hd Ht Hl Hv))
        as ([[out' t] h] & d' & Hrun' & Hd' & Ho' & -> & -> & Hvo' & Hr'). subst hl.
      exists out', d'. unfold same_view. rewrite Hvo', <- Hvo. done.
    - subst ber_ok. destruct (wp_total _ _ _ (cbs_get_any_asn1_element_indefinite d tag _ Hd Ht Hcons Hv))
        as ([[out' t] h] & d' & Hrun' & Hd' & Ho' & -> & -> & Hvo' & Hr'). subst hl.
      exists out', d'. unfold same_view. rewrite Hvo', <- Hvo. done. }
  pose proof (cbs_get_any_asn1_element_sound ber_ok c Hc) as Hsc.
  pose proof (cbs_get_any_asn1_element_sound ber_ok d Hd) as Hsd. unfold wp in Hsc, Hsd.
  destruct (cbs_get_any_asn1_element ber_ok c) as [[[out tag] hl] c'|c'|] eqn:Ec; [| |done].
  - destruct (Hgo c d Hc Hd Heq _ _ _ _ Ec) as (out' & d' & -> & Ho & Hc'). done.
  - destruct (cbs_get_any_asn1_element ber_ok d) as [[[out tag] hl] d'|d'|] eqn:Ed; [|done|done].
    destruct (Hgo d c Hd Hc (eq_sym Heq) _ _ _ _ Ed) as (out' & c'' & He & _). by rewrite Ec in He.
Qed.

(** * Witnesses *)

(** An INTEGER with a high tag-number sibling behind it, in a larger object. *)
Definition ex_der : list Z := [0x02; 0x02; 0x00; 0x80; 0x5f; 0x81; 0x00; 0x01; 0x55; 9; 9].
Definition ex_cbs : CBS := mkCBS (P ex_der) 9.
Lemma ex_cbs_ok : cbs_ok ex_cbs.
Proof. unfold cbs_ok. cbn. split_and!; [lia|done|done|repeat constructor; done]. Qed.

(** The window of a run that succeeds, from the theorem [H] about it. *)
Ltac run_eq H := eexists _, _; split; [vm_compute; reflexivity|];
  eapply wp_ok in H; [|vm_compute; reflexivity].

Lemma cbs_get_any_asn1_element_exact_witness :
  exists out c', cbs_get_any_asn1_element false ex_cbs = Ok (out, CBS_ASN1_INTEGER, 2) c' /\
    exists contents, view out = der CBS_ASN1_INTEGER contents.
Proof.
  pose proof (cbs_get_any_asn1_element_exact ex_cbs ex_cbs_ok) as H.
  run_eq H. destruct H as (_ & _ & _ & contents & _ & Hv & _). by exists contents.
Defined.

Lemma cbs_get_any_ber_asn1_element_exact_witness :
  exists out c', CBS_get_any_ber_asn1_element (cbs_of [0x30; 0x80; 0; 0]) = Ok (out, 0x20000010, 2) c' /\
    element true 0x20000010 2 (view out).
Proof.
  assert (Hok : cbs_ok (cbs_of [0x30; 0x80; 0; 0])) by (apply cbs_of_ok; [repeat constructor; done|done]).
  pose proof (cbs_get_any_ber_asn1_element_exact _ Hok) as H.
  run_eq H. apply H.
Defined.

Lemma cbs_get_asn1_exact_witness :
  exists out c', cbs_get_asn1 CBS_ASN1_INTEGER true ex_cbs = Ok out c' /\ cbs_ok out.
Proof.
  pose proof (cbs_get_asn1_exact CBS_ASN1_INTEGER true ex_cbs ex_cbs_ok ltac:(done)) as H.
  run_eq H. apply H.
Defined.

Lemma CBS_peek_asn1_tag_exact_witness :
  CBS_peek_asn1_tag CBS_ASN1_INTEGER ex_cbs = Ok true ex_cbs /\
  exists rest, view ex_cbs = enc_tag CBS_ASN1_INTEGER ++ rest.
Proof.
  pose proof (CBS_peek_asn1_tag_exact CBS_ASN1_INTEGER ex_cbs ex_cbs_ok ltac:(done)) as H.
  split; [reflexivity|]. eapply wp_ok in H; [|vm_compute; reflexivity]. by apply H.
Defined.

Lemma CBS_get_asn1_uint64_exact_witness :
  exists v c', CBS_get_asn1_uint64 ex_cbs = Ok v c' /\ view ex_cbs = der CBS_ASN1_INTEGER (enc_uint64 v) ++ view c'.
Proof.
  pose proof (CBS_get_asn1_uint64_exact ex_cbs ex_cbs_ok) as H. run_eq H. apply H.
Defined.

Lemma CBS_asn1_bitstring_has_bit_reads_witness :
  CBS_asn1_bitstring_has_bit 9 (cbs_of [6; 0; 0x40]) = Ok true (cbs_of [6; 0; 0x40]) /\
  bitstring_ok [6; 0; 0x40].
Proof.
  assert (Hok : cbs_ok (cbs_of [6; 0; 0x40])) by (apply cbs_of_ok; [repeat constructor; done|done]).
  pose proof (CBS_asn1_bitstring_has_bit_reads _ 9 Hok ltac:(done)) as H.
  split; [reflexivity|]. eapply wp_ok in H; [|vm_compute; reflexivity]. by apply H.
Defined.

Lemma cbs_get_length_prefixed_exact_witness :
  exists out c', CBS_get_u16_length_prefixed (cbs_of [0; 2; 7; 8; 9]) = Ok out c' /\
    view (cbs_of [0; 2; 7; 8; 9]) = be 2 (zlen (view out)) ++ view out ++ view c'.
Proof.
  assert (Hok : cbs_ok (cbs_of [0; 2; 7; 8; 9])) by (apply cbs_of_ok; [repeat constructor; done|done]).
  pose proof (cbs_get_length_prefixed_exact 2 _ Hok ltac:(done)) as H. run_eq H. apply H.
Defined.

Lemma cbs_get_any_asn1_element_local_witness :
  same_view ex_cbs (cbs_of (ztake 9 ex_der)) /\
  match cbs_get_any_asn1_element true ex_cbs, cbs_get_any_asn1_element true (cbs_of (ztake 9 ex_der)) with
  | Ok (out, _, _) _, Ok (out', _, _) _ => same_view out out'
  | _, _ => False
  end.
Proof.
  assert (Hs : same_view ex_cbs (cbs_of (ztake 9 ex_der))).
  { split_and!; [apply ex_cbs_ok|apply cbs_of_ok; [repeat constructor; done|done]|done]. }
  split; [exact Hs|]. pose proof (cbs_get_any_asn1_element_local true _ _ Hs) as H.
  destruct (cbs_get_any_asn1_element true ex_cbs) as [[[out t] hl] c'|c'|] eqn:E;
    [|exfalso; vm_compute in E; discriminate|done].
  destruct (cbs_get_any_asn1_element true (cbs_of _)) as [[[out' t'] hl'] d'|d'|]; [by destruct H|done..].
Defined.
