(* ===== verification/Cbb.v ===== *)
(** crypto/bytestring/cbb.c: the byte-string builder. Several [CBB]s share one
    buffer: a parent whose length prefix is pending points to its open child. The
    state is therefore a store of [CBB] objects and of buffers, both named by
    address, in which a missing address is a dangling pointer. *)
From S2P Require Import Prelude Mem Buf Cbs.

(** [struct cbb_buffer_st] *)
Record cbb_buffer_st := mkBase {
  b_buf : block;
  b_len : Z;
  b_cap : Z;
  b_can_resize : bool;
  b_error : bool;
}.

(** [struct cbb_st] *)
Record CBB := mkCBB {
  c_base : option nat;
  c_child : option nat;
  c_offset : Z;
  c_pending_len_len : Z;
  c_pending_is_asn1 : bool;
  c_is_top_level : bool;
}.

(** [OPENSSL_memset(cbb, 0, sizeof(CBB))] *)
Definition zero_CBB : CBB := mkCBB None None 0 0 false false.

(** A [CBB] object that exists but was never written is [None]. *)
Record store := mkStore {
  s_cbbs : gmap nat (option CBB);
  s_bases : gmap nat cbb_buffer_st;
  s_next : nat;
  s_heap : heap;
}.

Definition set_cbbs (f : gmap nat (option CBB) -> gmap nat (option CBB)) (s : store) : store :=
  mkStore (f (s_cbbs s)) (s_bases s) (s_next s) (s_heap s).
Definition set_bases (f : gmap nat cbb_buffer_st -> gmap nat cbb_buffer_st) (s : store) : store :=
  mkStore (s_cbbs s) (f (s_bases s)) (s_next s) (s_heap s).

Definition base_with (b : cbb_buffer_st) (buf : block) (len cap : Z) : cbb_buffer_st :=
  mkBase buf len cap (b_can_resize b) (b_error b).

(** * Access to the store *)

Definition get_cbb (id : nat) : M store CBB :=
  s ← get;
  o ← deref (s_cbbs s !! id);
  deref o.

(** A store to an object; the object must exist. *)
Definition put_cbb (id : nat) (c : CBB) : M store unit :=
  s ← get;
  _ ← deref (s_cbbs s !! id);
  put (set_cbbs <[id := Some c]> s).

Definition get_base (b : nat) : M store cbb_buffer_st :=
  s ← get;
  deref (s_bases s !! b).

Definition put_base (b : nat) (x : cbb_buffer_st) : M store unit :=
  s ← get;
  _ ← deref (s_bases s !! b);
  put (set_bases <[b := x]> s).

(** [cbb->base], where the code goes on to dereference it. *)
Definition base_of (cbb : nat) : M store nat :=
  c ← get_cbb cbb;
  deref (c_base c).

Definition in_heap {A} (m : M heap A) : M store A :=
  zoom s_heap (fun h s => mkStore (s_cbbs s) (s_bases s) (s_next s) h) m.

(** [CBB child;] in a function: an object that exists while [k] runs, whichever
    way [k] returns. *)
Definition with_local {A} (k : nat -> M store A) : M store A := fun s =>
  let id := s_next s in
  let s0 := mkStore (<[id := None]> (s_cbbs s)) (s_bases s) (S id) (s_heap s) in
  match k id s0 with
  | Ok a s' => Ok a (set_cbbs (delete id) s')
  | Fail s' => Fail (set_cbbs (delete id) s')
  | Stuck => Stuck
  end.

(** [base->error = 1; return 0;] *)
Definition set_error (b : nat) : M store unit :=
  x ← get_base b;
  put_base b (mkBase (b_buf x) (b_len x) (b_cap x) (b_can_resize x) true).
Definition err {A} (b : nat) : M store A := set_error b;; fail.

(** Stores of bytes into [base->buf]. *)
Definition buf_put (b : nat) (off : Z) (bs : list Z) : M store unit :=
  x ← get_base b;
  d ← deref (data_put (b_buf x) off bs);
  put_base b (base_with x d (b_len x) (b_cap x)).

(** [for (i = n - 1; i < n; i--) { buf[i] = v; v >>= 8; }], where [i] is a
    [size_t] that wraps below zero; the result is what is left of [v]. *)
Definition write_be_loop (b : nat) (off n v : Z) : M store Z :=
  iter (S (Z.to_nat n)) (fun '(i, v) =>
    if i <? n then
      buf_put b (off + i) [u8 v];;
      mret (inl (u64 (i - 1), Z.shiftr v 8))
    else mret (inr v)) (u64 (n - 1), v).

Section Cbb.
Context `{alloc : Allocator}.

(** * Life cycle *)

Definition CBB_zero (cbb : nat) : M store unit := put_cbb cbb zero_CBB.

Definition sizeof_cbb_buffer_st : Z := 32.

Definition cbb_init (cbb : nat) (buf : block) (cap : Z) : M store unit :=
  p ← in_heap (OPENSSL_malloc sizeof_cbb_buffer_st);
  match p with
  | None => fail
  | Some _ =>
      s ← get;
      let b := s_next s in
      put (mkStore (s_cbbs s) (<[b := mkBase buf 0 cap true false]> (s_bases s)) (S b) (s_heap s));;
      c ← get_cbb cbb;
      put_cbb cbb (mkCBB (Some b) (c_child c) (c_offset c) (c_pending_len_len c)
                     (c_pending_is_asn1 c) true)
  end.

Definition CBB_init (cbb : nat) (initial_capacity : Z) : M store unit :=
  CBB_zero cbb;;
  buf ← in_heap (OPENSSL_malloc initial_capacity);
  if (0 <? initial_capacity) && bool_decide (buf = None) then fail else
  cbb_init cbb buf initial_capacity.

(** [buf] is the caller's object, [len] the size the caller states. *)
Definition CBB_init_fixed (cbb : nat) (buf : block) (len : Z) : M store unit :=
  CBB_zero cbb;;
  cbb_init cbb buf len;;
  b ← base_of cbb;
  x ← get_base b;
  put_base b (mkBase (b_buf x) (b_len x) (b_cap x) false (b_error x)).

Definition CBB_cleanup (cbb : nat) : M store unit :=
  c ← get_cbb cbb;
  match c_base c with
  | Some b =>
      assert_ (c_is_top_level c);;
      _ ← get_base b;
      modify (set_bases (delete b))
  | None => mret tt
  end;;
  put_cbb cbb (mkCBB None (c_child c) (c_offset c) (c_pending_len_len c)
                 (c_pending_is_asn1 c) (c_is_top_level c)).

(** * The buffer *)

(** The result [*out] is an offset into [base->buf]. *)
Definition cbb_buffer_reserve (base : option nat) (len : Z) : M store Z :=
  match base with
  | None => fail
  | Some b =>
      x ← get_base b;
      let newlen := u64 (b_len x + len) in
      if newlen <? b_len x then err b else
      if b_cap x <? newlen then
        let newcap := u64 (b_cap x * 2) in
        if negb (b_can_resize x) then err b else
        let newcap := if (newcap <? b_cap x) || (newcap <? newlen) then newlen else newcap in
        newbuf ← in_heap (OPENSSL_realloc (b_buf x) newcap);
        match newbuf with
        | None => err b
        | Some l =>
            put_base b (base_with x (Some l) (b_len x) newcap);;
            mret (b_len x)
        end
      else mret (b_len x)
  end.

Definition cbb_buffer_add (base : option nat) (len : Z) : M store Z :=
  out ← cbb_buffer_reserve base len;
  b ← deref base;
  x ← get_base b;
  put_base b (base_with x (b_buf x) (b_len x + len) (b_cap x));;
  mret out.

Definition cbb_buffer_add_u (base : option nat) (v len_len : Z) : M store unit :=
  if len_len =? 0 then mret tt else
  buf ← cbb_buffer_add base len_len;
  b ← deref base;
  v ← write_be_loop b buf len_len v;
  if negb (v =? 0) then err b else mret tt.

(** * Flushing *)

(** The number of octets an ASN.1 length takes, its first octet, and what is
    left to be written; [None] is "too large". *)
Definition asn1_length (len : Z) : option (Z * Z * Z) :=
  if 0xfffffffe <? len then None
  else if 0xffffff <? len then Some (5, Z.lor 0x80 4, len)
  else if 0xffff <? len then Some (4, Z.lor 0x80 3, len)
  else if 0xff <? len then Some (3, Z.lor 0x80 2, len)
  else if 0x7f <? len then Some (2, Z.lor 0x80 1, len)
  else Some (1, len, 0).

(** The ASN.1 branch of [CBB_flush]: makes room for the length octets, writes the
    first one, and returns what the loop that follows has to write. *)
Definition flush_asn1 (b child : nat) (child_start len : Z) : M store Z :=
  ch ← get_cbb child;
  assert_ (c_pending_len_len ch =? 1);;
  match asn1_length len with
  | None => err b
  | Some (len_len, initial_length_byte, len) =>
      (if negb (len_len =? 1) then
         let extra_bytes := len_len - 1 in
         r ← try_ (cbb_buffer_add (Some b) extra_bytes);
         match r with
         | None => err b
         | Some _ =>
             x ← get_base b;
             l ← deref (b_buf x);
             bs ← deref (ptr_read (P (zdrop child_start l)) len);
             buf_put b (child_start + extra_bytes) bs
         end
       else mret tt);;
      buf_put b (c_offset ch) [initial_length_byte];;
      put_cbb child (mkCBB (c_base ch) (c_child ch) (c_offset ch + 1) (len_len - 1)
                       (c_pending_is_asn1 ch) (c_is_top_level ch));;
      mret len
  end.

(** [CBB_flush] calls itself on the child; [fuel] bounds the depth. *)
Fixpoint CBB_flush_fuel (fuel : nat) (cbb : nat) : M store unit :=
  match fuel with
  | O => stuck
  | S fuel =>
      c ← get_cbb cbb;
      match c_base c with
      | None => fail
      | Some b =>
          x ← get_base b;
          if b_error x then fail else
          match c_child c with
          | None => mret tt
          | Some child =>
              ch ← get_cbb child;
              if c_pending_len_len ch =? 0 then mret tt else
              let child_start := u64 (c_offset ch + c_pending_len_len ch) in
              flushed ← succeeds (CBB_flush_fuel fuel child);
              x ← get_base b;
              if negb flushed || (child_start <? c_offset ch) || (b_len x <? child_start)
              then err b else
              let len := b_len x - child_start in
              len ← (if c_pending_is_asn1 ch then flush_asn1 b child child_start len
                     else mret len);
              ch ← get_cbb child;
              len ← write_be_loop b (c_offset ch) (c_pending_len_len ch) len;
              if negb (len =? 0) then err b else
              put_cbb child (mkCBB None (c_child ch) (c_offset ch) (c_pending_len_len ch)
                               (c_pending_is_asn1 ch) (c_is_top_level ch));;
              c ← get_cbb cbb;
              put_cbb cbb (mkCBB (c_base c) None (c_offset c) (c_pending_len_len c)
                             (c_pending_is_asn1 c) (c_is_top_level c))
          end
      end
  end.

(** A chain of children has no more members than there are objects. *)
Definition CBB_flush (cbb : nat) : M store unit :=
  s ← get;
  CBB_flush_fuel (S (size (s_cbbs s))) cbb.

(** [*out_data] and [*out_len]; the arguments say whether the caller passed NULL
    for them. *)
Definition CBB_finish (cbb : nat) (out_data_null out_len_null : bool)
    : M store (block * Z) :=
  c ← get_cbb cbb;
  if negb (c_is_top_level c) then fail else
  CBB_flush cbb;;
  b ← base_of cbb;
  x ← get_base b;
  if b_can_resize x && (out_data_null || out_len_null) then fail else
  put_base b (base_with x None (b_len x) (b_cap x));;
  CBB_cleanup cbb;;
  mret (b_buf x, b_len x).

(** * Contents *)

Definition CBB_data (cbb : nat) : M store ptr :=
  c ← get_cbb cbb;
  assert_ (bool_decide (c_child c = None));;
  b ← deref (c_base c);
  x ← get_base b;
  deref (ptr_add (match b_buf x with None => NULL | Some l => P l end)
           (c_offset c + c_pending_len_len c)).

Definition CBB_len (cbb : nat) : M store Z :=
  c ← get_cbb cbb;
  assert_ (bool_decide (c_child c = None));;
  b ← deref (c_base c);
  x ← get_base b;
  assert_ (u64 (c_offset c + c_pending_len_len c) <=? b_len x);;
  mret (u64 (b_len x - c_offset c - c_pending_len_len c)).

(** * Children *)

(** The zeroed [*out_contents] becomes the child of [cbb], its prefix of
    [len_len] bytes starting at [offset]. *)
Definition open_child (cbb out_contents : nat) (offset len_len : Z) (is_asn1 : bool)
    : M store unit :=
  b ← base_of cbb;
  put_cbb out_contents (mkCBB (Some b) None offset len_len is_asn1 false);;
  c ← get_cbb cbb;
  put_cbb cbb (mkCBB (c_base c) (Some out_contents) (c_offset c) (c_pending_len_len c)
                 (c_pending_is_asn1 c) (c_is_top_level c)).

Definition cbb_add_length_prefixed (cbb out_contents : nat) (len_len : Z) : M store unit :=
  CBB_flush cbb;;
  b ← base_of cbb;
  x ← get_base b;
  let offset := b_len x in
  prefix_bytes ← cbb_buffer_add (Some b) len_len;
  buf_put b prefix_bytes (zrep len_len 0);;
  open_child cbb out_contents offset len_len false.

Definition CBB_add_u8_length_prefixed (cbb out_contents : nat) : M store unit :=
  cbb_add_length_prefixed cbb out_contents 1.
Definition CBB_add_u16_length_prefixed (cbb out_contents : nat) : M store unit :=
  cbb_add_length_prefixed cbb out_contents 2.
Definition CBB_add_u24_length_prefixed (cbb out_contents : nat) : M store unit :=
  cbb_add_length_prefixed cbb out_contents 3.

(** * Integers and bytes *)

(** The arguments have the widths of the C parameters. *)
Definition cbb_add_u (cbb : nat) (value len_len : Z) : M store unit :=
  CBB_flush cbb;;
  c ← get_cbb cbb;
  cbb_buffer_add_u (c_base c) value len_len.
Definition CBB_add_u8 (cbb : nat) (value : Z) : M store unit := cbb_add_u cbb (u8 value) 1.
Definition CBB_add_u16 (cbb : nat) (value : Z) : M store unit := cbb_add_u cbb (u16 value) 2.
Definition CBB_add_u24 (cbb : nat) (value : Z) : M store unit := cbb_add_u cbb (u32 value) 3.
Definition CBB_add_u32 (cbb : nat) (value : Z) : M store unit := cbb_add_u cbb (u32 value) 4.

Definition CBB_add_bytes (cbb : nat) (data : ptr) (len : Z) : M store unit :=
  CBB_flush cbb;;
  c ← get_cbb cbb;
  dest ← cbb_buffer_add (c_base c) len;
  bs ← deref (ptr_read data len);
  b ← deref (c_base c);
  buf_put b dest bs.

(** [*out_data] is an offset into the buffer. *)
Definition CBB_add_space (cbb : nat) (len : Z) : M store Z :=
  CBB_flush cbb;;
  c ← get_cbb cbb;
  cbb_buffer_add (c_base c) len.

Definition CBB_reserve (cbb : nat) (len : Z) : M store Z :=
  CBB_flush cbb;;
  c ← get_cbb cbb;
  cbb_buffer_reserve (c_base c) len.

Definition CBB_did_write (cbb : nat) (len : Z) : M store unit :=
  c ← get_cbb cbb;
  b ← deref (c_base c);
  x ← get_base b;
  let newlen := u64 (b_len x + len) in
  if bool_decide (c_child c ≠ None) || (newlen <? b_len x) || (b_cap x <? newlen) then fail else
  put_base b (base_with x (b_buf x) newlen (b_cap x)).

Definition CBB_discard_child (cbb : nat) : M store unit :=
  c ← get_cbb cbb;
  match c_child c with
  | None => mret tt
  | Some child =>
      b ← deref (c_base c);
      ch ← get_cbb child;
      x ← get_base b;
      put_base b (base_with x (b_buf x) (c_offset ch) (b_cap x));;
      put_cbb child (mkCBB None (c_child ch) (c_offset ch) (c_pending_len_len ch)
                       (c_pending_is_asn1 ch) (c_is_top_level ch));;
      c ← get_cbb cbb;
      put_cbb cbb (mkCBB (c_base c) None (c_offset c) (c_pending_len_len c)
                     (c_pending_is_asn1 c) (c_is_top_level c))
  end.

(** * ASN.1 *)

(** The number of 7-bit groups of [v]. *)
Definition base128_len (v : Z) : M store Z :=
  len_len ← iter 11 (fun '(len_len, copy) =>
    mret (if 0 <? copy then inl (len_len + 1, Z.shiftr copy 7) else inr len_len)) (0, v);
  mret (if len_len =? 0 then 1 else len_len).

Definition add_base128_integer (cbb : nat) (v : Z) : M store unit :=
  len_len ← base128_len v;
  iter (S (Z.to_nat len_len)) (fun i =>
    if i <? len_len then
      let byte := Z.land (Z.shiftr v (7 * i)) 0x7f in
      let byte := if negb (i =? 0) then Z.lor byte 0x80 else byte in
      CBB_add_u8 cbb byte;;
      mret (inl (u32 (i - 1)))
    else mret (inr tt)) (u32 (len_len - 1)).

Definition CBB_add_asn1 (cbb out_contents : nat) (tag : Z) : M store unit :=
  CBB_flush cbb;;
  let tag_bits := Z.land (Z.shiftr tag CBS_ASN1_TAG_SHIFT) 0xe0 in
  let tag_number := Z.land tag CBS_ASN1_TAG_NUMBER_MASK in
  (if 0x1f <=? tag_number then
     CBB_add_u8 cbb (Z.lor tag_bits 0x1f);;
     add_base128_integer cbb tag_number
   else CBB_add_u8 cbb (Z.lor tag_bits tag_number));;
  b ← base_of cbb;
  x ← get_base b;
  let offset := b_len x in
  CBB_add_u8 cbb 0;;
  open_child cbb out_contents offset 1 true.

Definition CBB_add_asn1_uint64 (cbb : nat) (value : Z) : M store unit :=
  with_local (fun child =>
    CBB_add_asn1 cbb child CBS_ASN1_INTEGER;;
    started ← for_ 0 8 (fun i started =>
      let byte := Z.land (Z.shiftr value (8 * (7 - i))) 0xff in
      if negb started && (byte =? 0) then mret started else
      (if negb started && negb (Z.land byte 0x80 =? 0) then CBB_add_u8 child 0 else mret tt);;
      CBB_add_u8 child byte;;
      mret true) false;
    (if negb started then CBB_add_u8 child 0 else mret tt);;
    CBB_flush cbb).

Definition CBB_add_asn1_octet_string (cbb : nat) (data : ptr) (data_len : Z) : M store unit :=
  with_local (fun child =>
    CBB_add_asn1 cbb child CBS_ASN1_OCTETSTRING;;
    CBB_add_bytes child data data_len;;
    CBB_flush cbb).

Definition CBB_add_asn1_bool (cbb : nat) (value : Z) : M store unit :=
  with_local (fun child =>
    CBB_add_asn1 cbb child CBS_ASN1_BOOLEAN;;
    CBB_add_u8 child (if negb (value =? 0) then 0xff else 0);;
    CBB_flush cbb).
End Cbb.
