(* ===== verification/CbbSpec.v ===== *)
(** What the builder of [Cbb] promises: an abstract builder is a stack of frames,
    one per open CBB, and every operation is a function on that stack. This file
    has the abstract builder, the relation between it and the store, and the
    behaviour of the shared buffer; [CbbFacts] has the refinement. *)
From S2P Require Import Prelude Mem Buf MemFacts Cbs Der Cbb.

(** * The abstract builder *)

(** What stands in front of a frame's bytes once it is closed: nothing, a length
    of [n] octets, or an ASN.1 length. *)
Inductive kind : Type :=
| Top
| Len (n : Z)
| Asn1.

(** An open CBB, with the bytes written to it before its open child if it has
    one. *)
Record frame := mkFrame { f_kind : kind; f_body : list Z }.

(** The bytes reserved for the prefix while the frame is open. *)
Definition plen (k : kind) : Z := match k with Top => 0 | Len n => n | Asn1 => 1 end.

(** The prefix of a closed frame of [len] bytes, if there is one. *)
Definition prefix (k : kind) (len : Z) : option (list Z) :=
  match k with
  | Top => Some []
  | Len n => if len <? 256 ^ n then Some (be (Z.to_nat n) len) else None
  | Asn1 => if len <=? 0xfffffffe then Some (enc_len len) else None
  end.

(** The bytes a stack of frames becomes when it is closed from the inside. *)
Fixpoint close_frames (fs : list frame) : option (list Z) :=
  match fs with
  | [] => Some []
  | f :: fs =>
      inner ← close_frames fs;
      p ← prefix (f_kind f) (zlen (f_body f ++ inner));
      Some (p ++ f_body f ++ inner)
  end.

(** The bytes in the buffer while the frames are open. *)
Fixpoint flat (fs : list frame) : list Z :=
  match fs with
  | [] => []
  | f :: fs => zrep (plen (f_kind f)) 0 ++ f_body f ++ flat fs
  end.

Definition extend (f : frame) (bs : list Z) : frame := mkFrame (f_kind f) (f_body f ++ bs).

(** * The relation with the store *)

Definition is_asn1 (k : kind) : bool := match k with Asn1 => true | _ => false end.
Definition is_top (k : kind) : bool := match k with Top => true | _ => false end.

(** The CBB that follows: the first of [ids], or [last]. *)
Definition head_or (ids : list nat) (last : option nat) : option nat :=
  match ids with [] => last | i :: _ => Some i end.

(** The objects [ids] are a chain of children that start at offset [off] of the
    buffer [b] and represent the frames [fs]; the last one's child is [last]. *)
Fixpoint chain (m : gmap nat (option CBB)) (b : nat) (off : Z) (ids : list nat)
    (last : option nat) (fs : list frame) : Prop :=
  match ids, fs with
  | [], [] => True
  | id :: ids, f :: fs =>
      m !! id = Some (Some (mkCBB (Some b) (head_or ids last) off (plen (f_kind f))
                              (is_asn1 (f_kind f)) (is_top (f_kind f)))) /\
      chain m b (off + plen (f_kind f) + zlen (f_body f)) ids last fs
  | _, _ => False
  end.

(** The outermost CBB has no prefix, all the others do. *)
Definition inner_ok (f : frame) : Prop :=
  match f_kind f with Top => False | Len n => 1 <= n <= 3 | Asn1 => True end.
Definition shape (fs : list frame) : Prop :=
  match fs with [] => False | f :: fs => f_kind f = Top /\ Forall inner_ok fs end.

(** The buffer is usable and its valid bytes are [content]. *)
Definition buf_is (x : cbb_buffer_st) (content : list Z) : Prop :=
  b_error x = false /\ b_cap x <= cap_max /\ b_cap x = zlen (block_bytes (b_buf x)) /\
  b_len x = zlen content /\ exists spare, block_bytes (b_buf x) = content ++ spare.

(** No object has been given an address that is still to be given out. *)
Definition fresh_ok (s : store) : Prop := forall j, (s_next s <= j)%nat -> s_cbbs s !! j = None.

(** [s] represents the builder [fs], whose open CBBs are [ids], outermost first,
    and whose shared buffer is [x], at [b]. *)
Definition rep (s : store) (b : nat) (x : cbb_buffer_st) (ids : list nat) (fs : list frame) : Prop :=
  NoDup ids /\ chain (s_cbbs s) b 0 ids None fs /\ shape fs /\ fresh_ok s /\
  s_bases s !! b = Some x /\ buf_is x (flat fs).

(** The sticky failure: nothing is promised but that every operation fails. *)
Definition errored (s : store) (b : nat) : Prop :=
  exists x, s_bases s !! b = Some x /\ b_error x = true.

(** The object [id] is a CBB that uses the buffer [b]. *)
Definition alive (s : store) (b id : nat) (top : bool) : Prop :=
  exists c, s_cbbs s !! id = Some (Some c) /\ c_base c = Some b /\ c_is_top_level c = top.

(** * Store updates *)

(** The effect of an operation on buffer [b] alone. *)
Definition upd (s : store) (b : nat) (x : cbb_buffer_st) (h : heap) : store :=
  mkStore (s_cbbs s) (<[b := x]> (s_bases s)) (s_next s) h.

(** What an operation on the CBBs [ids] of the buffer [b] leaves alone. *)
Definition frame_ok (b : nat) (ids : list nat) (s s' : store) : Prop :=
  (forall j, j ∉ ids -> s_cbbs s' !! j = s_cbbs s !! j) /\
  (forall j, is_Some (s_cbbs s !! j) -> is_Some (s_cbbs s' !! j)) /\
  (forall c, c <> b -> s_bases s' !! c = s_bases s !! c) /\
  (s_next s <= s_next s')%nat /\ (fresh_ok s -> fresh_ok s').

Section Facts.
Context `{alloc : Allocator}.

(** Why an operation that needs [need] bytes of buffer may fail: they are not
    there, and the buffer is fixed or the allocator refused a request of a
    size in proportion. *)
Definition no_room (x : cbb_buffer_st) (need : Z) : Prop :=
  b_cap x < need /\
  (b_can_resize x = false \/ exists n size, size <= 2 * need + 8 /\ malloc_ok n size = false).

(** [x'] is [x] after some growth. *)
Definition grown (x x' : cbb_buffer_st) : Prop :=
  b_can_resize x' = b_can_resize x /\ b_cap x <= b_cap x'.

Lemma grown_refl x : grown x x.
Proof. split; [done|lia]. Qed.
Lemma grown_trans x y z : grown x y -> grown y z -> grown x z.
Proof. unfold grown. intros [-> ?] [-> ?]. split; [done|lia]. Qed.
Lemma no_room_grown x y need need' :
  grown x y -> need <= need' -> no_room y need -> no_room x need'.
Proof.
  unfold no_room, grown. intros [<- ?] ? [? Hr]. split; [lia|].
  destruct Hr as [?|(n & sz & ? & ?)]; [by left|right]. exists n, sz. split; [lia|done].
Qed.

Lemma buf_is_len x content : buf_is x content -> 0 <= zlen content <= b_cap x /\ b_cap x <= cap_max.
Proof.
  intros (_ & Hcap & Hc & Hl & spare & Hs). rewrite Hs, zlen_app in Hc.
  pose proof (zlen_nonneg spare). pose proof (zlen_nonneg content). lia.
Qed.

(** * The buffer *)

Lemma wp_get_base b x s Q E :
  s_bases s !! b = Some x -> Q x s -> wp (get_base b) Q E s.
Proof. intros Hx HQ. unfold get_base. wp_go. by eapply wp_deref. Qed.

Lemma wp_put_base b x y s Q E :
  s_bases s !! b = Some x -> Q tt (upd s b y (s_heap s)) -> wp (put_base b y) Q E s.
Proof. intros Hx HQ. unfold put_base. wp_go. eapply wp_deref; [done|]. by wp_go. Qed.

Lemma wp_get_cbb id c s Q E :
  s_cbbs s !! id = Some (Some c) -> Q c s -> wp (get_cbb id) Q E s.
Proof. intros Hc HQ. unfold get_cbb. wp_go. eapply wp_deref; [done|]. wp_go. by eapply wp_deref. Qed.

Lemma wp_put_cbb id o c s Q E :
  s_cbbs s !! id = Some o -> Q tt (set_cbbs <[id := Some c]> s) -> wp (put_cbb id c) Q E s.
Proof. intros Hc HQ. unfold put_cbb. wp_go. eapply wp_deref; [done|]. by wp_go. Qed.

Lemma wp_err {A} b x s (Q : A -> store -> Prop) (E : store -> Prop) :
  s_bases s !! b = Some x ->
  E (upd s b (mkBase (b_buf x) (b_len x) (b_cap x) (b_can_resize x) true) (s_heap s)) ->
  wp (err b) Q E s.
Proof.
  intros Hx HE. unfold err, set_error. wp_go. eapply wp_get_base; [done|].
  eapply wp_put_base; [done|]. wp_go.
Qed.

Lemma upd_lookup s b x h : s_bases (upd s b x h) !! b = Some x.
Proof. cbn. apply lookup_insert_eq. Qed.
Lemma upd_upd s b x y h h' : upd (upd s b x h) b y h' = upd s b y h'.
Proof. unfold upd. cbn. by rewrite insert_insert_eq. Qed.
End Facts.
(** Membership in a list of addresses. *)
Ltac ids_in :=
  first [let j := fresh in intros j | idtac]; rewrite ?not_elem_of_cons, ?elem_of_cons, ?elem_of_nil; tauto.

Create HintDb cbb.
#[export] Hint Resolve grown_refl grown_trans upd_lookup : cbb.
