(* ===== verification/CbbFacts.v ===== *)
(** The builder [Cbb] implements the abstract builder of [CbbSpec]: the behaviour
    of the buffer operations, of [CBB_flush] on a chain of children, and of every
    operation built on it, on success and on failure. *)
From S2P Require Import Prelude Mem Buf MemFacts Cbs Der Cbb CbbSpec.

Section BufferOps.
Context `{alloc : Allocator}.

Lemma buf_is_extend x c n :
  buf_is x c -> 0 <= n -> zlen c + n <= b_cap x ->
  exists junk, zlen junk = n /\
    buf_is (base_with x (b_buf x) (b_len x + n) (b_cap x)) (c ++ junk).
Proof.
  intros (He & Hm & Hc & Hl & spare & Hs) Hn Hle. rewrite Hs, zlen_app in Hc.
  exists (ztake n spare). split; [apply zlen_ztake; lia|].
  unfold buf_is, base_with; cbn. rewrite Hs. split_and!; [done|lia|by rewrite zlen_app|..].
  - rewrite zlen_app, zlen_ztake; lia.
  - exists (zdrop n spare). by rewrite <- app_assoc, ztake_zdrop.
Qed.

(** Room for [n] more bytes. *)
Lemma cbb_buffer_reserve_spec b x content n s :
  s_bases s !! b = Some x -> buf_is x content -> 0 <= n <= 2 ^ 62 ->
  wp (cbb_buffer_reserve (Some b) n)
    (fun off s' => exists x' h, s' = upd s b x' h /\ off = zlen content /\ buf_is x' content /\
       grown x x' /\ zlen content + n <= b_cap x')
    (fun s' => exists x' h, s' = upd s b x' h /\ b_error x' = true /\
       no_room x (zlen content + n)) s.
Proof.
  intros Hx Hbuf Hn. pose proof (buf_is_len _ _ Hbuf) as [Hlen Hcap]. unfold cap_max in Hcap.
  pose proof Hbuf as (He & _ & Hc & Hl & spare & Hs).
  unfold cbb_buffer_reserve. apply wp_bind. eapply wp_get_base; [done|].
  assert (Hnl : u64 (zlen content + n) = zlen content + n) by (unfold u64; apply Z.mod_small; lia).
  cbv zeta. rewrite Hl, !Hnl. wp_go; try lia.
  - eapply wp_err; [done|]. eexists _, _. split_and!; [done..|]. split; [lia|left; by destruct (b_can_resize x)].
  - assert (Hnew : u64 (b_cap x * 2) = b_cap x * 2) by (unfold u64; apply Z.mod_small; lia).
    rewrite !Hnew. rewrite (proj2 (Z.ltb_ge _ (b_cap x))) by lia. cbn [orb].
    set (newcap := if b_cap x * 2 <? zlen content + n then _ else _).
    assert (Hnc : zlen content + n <= newcap <= 2 * (zlen content + n) /\
                  b_cap x <= newcap < 2 ^ 64 - 8).
    { unfold newcap. destruct (Z.ltb_spec (b_cap x * 2) (zlen content + n)); lia. }
    unfold in_heap. wp_go. wp_call OPENSSL_realloc_spec; [lia|rewrite <- Hc; lia| |done].
    intros [l|] h.
    + intros (Hz & Hlim & fr & Hl'). eapply wp_bind, wp_put_base; [exact Hx|]. wp_go.
      eexists _, _. split_and!; [done|done| |split; [done|cbn; lia]|cbn; lia].
      unfold buf_is; cbn. split_and!; [done|unfold cap_max; lia|done|done|].
      exists (spare ++ fr). by rewrite Hl', Hs, app_assoc.
    + intros (k & Hk). eapply wp_err; [exact Hx|]. eexists _, _.
      split_and!; [done..|]. split; [lia|]. right. exists k, (newcap + 8). split; [lia|done].
  - eexists x, (s_heap s). split_and!; [|done|done|apply grown_refl|lia].
    unfold upd. rewrite insert_id by done. by destruct s.
Qed.

(** [cbb_buffer_add] appends [n] bytes of no particular value. *)
Lemma cbb_buffer_add_spec b x content n s :
  s_bases s !! b = Some x -> buf_is x content -> 0 <= n <= 2 ^ 62 ->
  wp (cbb_buffer_add (Some b) n)
    (fun off s' => exists x' h junk, s' = upd s b x' h /\ off = zlen content /\
       zlen junk = n /\ buf_is x' (content ++ junk) /\ grown x x')
    (fun s' => exists x' h, s' = upd s b x' h /\ b_error x' = true /\
       no_room x (zlen content + n)) s.
Proof.
  intros Hx Hbuf Hn. unfold cbb_buffer_add. apply wp_bind.
  wp_call cbb_buffer_reserve_spec; [done..| |auto].
  intros off s' (x' & h & -> & -> & Hbuf' & Hg & Hroom). cbn [deref].
  wp_go. eapply wp_get_base; [apply upd_lookup|]. wp_go.
  eapply wp_put_base; [apply upd_lookup|]. wp_go. rewrite upd_upd.
  destruct (buf_is_extend x' content n Hbuf') as (junk & Hj & Hb); [lia|done|].
  eexists _, _, junk. split_and!; [done|done|done|done|].
  eapply grown_trans; [exact Hg|]. split; [done|cbn; lia].
Qed.

(** Stores into the valid bytes. *)
Lemma buf_put_spec b x l1 old l2 bs s :
  s_bases s !! b = Some x -> buf_is x (l1 ++ old ++ l2) -> zlen bs = zlen old ->
  wp (buf_put b (zlen l1) bs)
    (fun _ s' => exists x', s' = upd s b x' (s_heap s) /\ buf_is x' (l1 ++ bs ++ l2) /\ grown x x')
    (fun _ => False) s.
Proof.
  intros Hx (He & Hm & Hc & Hl & spare & Hs) Hz. unfold buf_put.
  apply wp_bind. eapply wp_get_base; [done|].
  unfold data_put. destruct (Z.eqb_spec (zlen bs) 0) as [H0|H0].
  - rewrite H0 in Hz. apply zlen_0 in H0 as ->. symmetry in Hz. apply zlen_0 in Hz as ->.
    cbn [deref]. wp_go. eapply wp_put_base; [done|].
    exists (base_with x (b_buf x) (b_len x) (b_cap x)). split_and!; [done| |split; [done|cbn; lia]].
    unfold buf_is; cbn. split_and!; [done..|]. by exists spare.
  - destruct (b_buf x) as [l|] eqn:Hd; cbn [block_bytes] in *.
    2: { rewrite !zlen_app in Hl. apply (f_equal zlen) in Hs. rewrite !zlen_app, zlen_nil in Hs.
         pose proof (zlen_nonneg l1); pose proof (zlen_nonneg l2); pose proof (zlen_nonneg spare);
         pose proof (zlen_nonneg old). lia. }
    rewrite Hs. rewrite <- !app_assoc. rewrite zput_app by done. cbn.
    wp_go. eapply wp_put_base; [done|].
    eexists. split_and!; [done| |split; [done|cbn; lia]].
    unfold buf_is; cbn. rewrite Hs in Hc. rewrite !zlen_app in *.
    split_and!; [done|done|lia|lia|]. exists spare. by rewrite <- !app_assoc.
Qed.

(** The big-endian loop, over the [n] bytes [old]. *)
Lemma write_be_loop_spec b x l1 old l2 n v s :
  s_bases s !! b = Some x -> buf_is x (l1 ++ old ++ l2) -> zlen old = n -> n < 2 ^ 63 -> 0 <= v ->
  wp (write_be_loop b (zlen l1) n v)
    (fun rest s' => exists x', s' = upd s b x' (s_heap s) /\ grown x x' /\
       rest = v / 256 ^ n /\ buf_is x' (l1 ++ be (Z.to_nat n) v ++ l2))
    (fun _ => False) s.
Proof.
  intros Hx Hbuf Hn Hn63 Hv. pose proof (zlen_nonneg old) as Hn0. rewrite Hn in Hn0.
  unfold write_be_loop.
  eapply (wp_iter (fun '(i, w) s' => exists j x', i = u64 (n - 1 - j) /\ 0 <= j <= n /\
            w = v / 256 ^ j /\ s' = upd s b x' (s_heap s) /\ grown x x' /\
            buf_is x' (l1 ++ (ztake (n - j) old ++ be (Z.to_nat j) v) ++ l2))
          (fun '(i, _) _ => if i <? n then S (Z.to_nat i) else O)).
  - exists 0, x. split_and!; [by rewrite Z.sub_0_r|lia|lia|by rewrite Z.div_1_r| |apply grown_refl|].
    + unfold upd. rewrite insert_id by done. by destruct s.
    + rewrite Z.sub_0_r, <- Hn, ztake_all. cbn. by rewrite app_nil_r.
  - destruct (decide (n = 0)) as [->|]; [change (u64 (0 - 1) <? 0) with false; cbn; lia|]. unfold u64. rewrite Z.mod_small by lia.
    destruct (Z.ltb_spec (n - 1) n); lia.
  - intros [i w] s' (j & x' & -> & Hj & -> & -> & Hg & Hb').
    destruct (decide (j = n)) as [->|Hjn].
    + assert (Hu : u64 (n - 1 - n) = 2 ^ 64 - 1).
      { unfold u64. replace (n - 1 - n) with (-1) by lia. done. }
      rewrite Hu, (proj2 (Z.ltb_ge _ n)) by lia. wp_go. exists x'. split_and!; [done..|].
      rewrite Z.sub_diag in Hb'. exact Hb'.
    + assert (Hu : u64 (n - 1 - j) = n - 1 - j) by (unfold u64; apply Z.mod_small; lia).
      rewrite Hu, (proj2 (Z.ltb_lt _ n)) by lia. wp_go.
      destruct (zget_lt old (n - 1 - j)) as [o Ho]; [lia|].
      pose proof (zget_split _ _ _ Ho) as Hsp.
      assert (Htk : ztake (n - j) old = ztake (n - 1 - j) old ++ [o]).
      { replace (n - j) with ((n - 1 - j) + 1) by lia. rewrite ztake_split by lia. f_equal.
        rewrite Hsp at 1. rewrite zdrop_app by (rewrite zlen_ztake; lia). done. }
      rewrite Htk in Hb'. rewrite <- !app_assoc in Hb'. rewrite app_assoc in Hb'.
      assert (Hzl : zlen l1 + (n - 1 - j) = zlen (l1 ++ ztake (n - 1 - j) old)).
      { rewrite zlen_app, zlen_ztake; lia. }
      rewrite Hzl. wp_call buf_put_spec; [apply upd_lookup|exact Hb'|done| |done].
      intros _ s'' (x'' & -> & Hb'' & Hg'). rewrite upd_upd. wp_go.
      assert (Hui : u64 (n - 1 - j - 1) = u64 (n - 1 - (j + 1))) by (f_equal; lia).
      split.
      * exists (j + 1), x''. split_and!; [done|lia|lia| |done|by eapply grown_trans|].
        { rewrite Z.shiftr_div_pow2, Z.div_div by (try apply Z.pow_nonzero; lia).
          f_equal. by rewrite Z.pow_add_r by lia. }
        rewrite Z2Nat.inj_add by lia. rewrite Nat.add_1_r, be_cons, Z2Nat.id by lia.
        replace (n - (j + 1)) with (n - 1 - j) by lia.
        by rewrite <- !app_assoc in Hb'' |- *.
      * rewrite Hui. destruct (decide (j + 1 = n)) as [<-|].
        { replace (u64 (j + 1 - 1 - (j + 1))) with (2 ^ 64 - 1)
            by (replace (j + 1 - 1 - (j + 1)) with (-1) by lia; done).
          rewrite (proj2 (Z.ltb_ge _ (j + 1))) by lia. lia. }
        unfold u64. rewrite Z.mod_small by lia. rewrite (proj2 (Z.ltb_lt _ n)) by lia. lia.
Qed.
End BufferOps.

(** * Length prefixes *)

Lemma asn1_length_spec len :
  0 <= len ->
  match asn1_length len with
  | None => 0xfffffffe < len
  | Some (len_len, first, rest) => len <= 0xfffffffe /\ 1 <= len_len <= 5 /\
      enc_len len = first :: be (Z.to_nat (len_len - 1)) rest /\ 0 <= rest < 256 ^ (len_len - 1) /\
      (len_len <> 1 -> rest = len)
  end.
Proof.
  intros Hl. unfold asn1_length, enc_len, len_octets.
  destruct (Z.ltb_spec 0xfffffffe len); [lia|].
  destruct (Z.ltb_spec 0xffffff len); [repeat case_match; split_and!; done || lia|].
  destruct (Z.ltb_spec 0xffff len); [repeat case_match; split_and!; done || lia|].
  destruct (Z.ltb_spec 0xff len); [repeat case_match; split_and!; done || lia|].
  destruct (Z.ltb_spec 0x7f len); repeat case_match; split_and!; done || lia.
Qed.

Lemma plen_prefix k len p : inner_ok (mkFrame k []) -> prefix k len = Some p -> plen k <= zlen p.
Proof.
  destruct k as [|n|]; cbn; [done|..]; intros Hn.
  - destruct (_ <? _); [|done]. intros [= <-]. rewrite zlen_be. lia.
  - destruct (_ <=? _); [|done]. intros [= <-]. apply zlen_enc_len.
Qed.

Lemma plen_inner f : inner_ok f -> 1 <= plen (f_kind f) <= 3.
Proof. unfold inner_ok. destruct (f_kind f); cbn; lia. Qed.

(** Closing a frame never makes it shorter. *)
Lemma close_flat fs bs : Forall inner_ok fs -> close_frames fs = Some bs -> zlen (flat fs) <= zlen bs.
Proof.
  revert bs. induction fs as [|f fs IH]; intros bs Hf; cbn; [intros [= <-]; done|].
  apply Forall_cons in Hf as [Hf Hfs].
  destruct (close_frames fs) as [inner|]; [cbn|done].
  destruct (prefix _ _) as [p|] eqn:Hp; [cbn|done]. intros [= <-].
  apply plen_prefix in Hp; [|exact Hf]. pose proof (plen_inner _ Hf). specialize (IH inner Hfs eq_refl).
  rewrite !zlen_app, zlen_zrep; lia.
Qed.

Lemma flat_app fs1 fs2 : flat (fs1 ++ fs2) = flat fs1 ++ flat fs2.
Proof. induction fs1 as [|f fs1 IH]; cbn; [done|]. by rewrite IH, <- !app_assoc. Qed.

Lemma flat_snoc fs k body : flat (fs ++ [mkFrame k body]) = flat fs ++ zrep (plen k) 0 ++ body.
Proof. rewrite flat_app. cbn. by rewrite app_nil_r. Qed.

(** * Chains *)

Lemma chain_length m b off ids last fs : chain m b off ids last fs -> length ids = length fs.
Proof.
  revert off fs. induction ids as [|id ids IH]; intros off [|f fs]; cbn; try done.
  intros [_ H]. f_equal. by eapply IH.
Qed.

Definition plen_ok (f : frame) : Prop := 0 <= plen (f_kind f).

Lemma inner_plen_ok fs : Forall inner_ok fs -> Forall plen_ok fs.
Proof. intros H. eapply Forall_impl; [exact H|]. intros f Hf. pose proof (plen_inner _ Hf). unfold plen_ok. lia. Qed.
Lemma shape_plen_ok fs : shape fs -> Forall plen_ok fs.
Proof.
  destruct fs as [|f fs]; [done|]. intros [Hf Hfs]. apply Forall_cons.
  split; [by unfold plen_ok; rewrite Hf|by apply inner_plen_ok].
Qed.

Lemma chain_app m b off ids1 ids2 last fs1 fs2 :
  length ids1 = length fs1 -> Forall plen_ok fs1 ->
  chain m b off (ids1 ++ ids2) last (fs1 ++ fs2) <->
  chain m b off ids1 (head_or ids2 last) fs1 /\ chain m b (off + zlen (flat fs1)) ids2 last fs2.
Proof.
  revert off fs1. induction ids1 as [|id ids1 IH]; intros off [|f fs1] Hl Hk; try done.
  - cbn. replace (off + zlen []) with off by (rewrite zlen_nil; lia). tauto.
  - cbn. injection Hl as Hl. apply Forall_cons in Hk as [Hk Hks]. unfold plen_ok in Hk.
    rewrite (IH _ fs1 Hl Hks).
    replace (head_or (ids1 ++ ids2) last) with (head_or ids1 (head_or ids2 last)) by by destruct ids1.
    rewrite !zlen_app, zlen_zrep by lia. rewrite !Z.add_assoc. tauto.
Qed.

(** A chain only depends on its own objects. *)
Lemma chain_frame m m' b off ids last fs :
  (forall j, j ∈ ids -> m' !! j = m !! j) -> chain m b off ids last fs -> chain m' b off ids last fs.
Proof.
  revert off fs. induction ids as [|id ids IH]; intros off [|f fs] Hm; cbn; try done.
  intros [Hid H]. split; [rewrite Hm; [done|by left]|]. apply IH; [|done]. intros. apply Hm. by right.
Qed.

Lemma chain_dom m b off ids last fs j :
  chain m b off ids last fs -> j ∈ ids -> exists c, m !! j = Some (Some c) /\ c_base c = Some b.
Proof.
  revert off fs. induction ids as [|id ids IH]; intros off [|f fs]; cbn; try done; intros H Hj.
  - by apply not_elem_of_nil in Hj.
  - destruct H as [Hid H]. apply elem_of_cons in Hj as [->|Hj]; [by eexists|by eapply IH].
Qed.

Lemma chain_size m b off ids last fs : NoDup ids -> chain m b off ids last fs -> (length ids <= size m)%nat.
Proof.
  intros Hnd Hc. rewrite <- size_dom, <- (size_list_to_set (C := gset nat) ids) by done.
  apply subseteq_size. intros j Hj%elem_of_list_to_set. apply elem_of_dom.
  destruct (chain_dom _ _ _ _ _ _ _ Hc Hj) as (c & Hc' & _). by exists (Some c).
Qed.

(** * Frame conditions *)

Lemma frame_refl b ids s : frame_ok b ids s s.
Proof. done. Qed.
Lemma frame_weaken b ids ids' s s' : ids ⊆ ids' -> frame_ok b ids s s' -> frame_ok b ids' s s'.
Proof. unfold frame_ok. intros Hsub (H & Hrest). split; [|done]. intros j Hj. apply H. intros Hin. apply Hj, Hsub, Hin. Qed.
Lemma frame_trans b ids s1 s2 s3 : frame_ok b ids s1 s2 -> frame_ok b ids s2 s3 -> frame_ok b ids s1 s3.
Proof.
  intros (H1 & H2 & H3 & H4 & H5) (G1 & G2 & G3 & G4 & G5). split_and!; [|by auto|..].
  - intros j Hj. by rewrite G1, H1.
  - intros c Hc. by rewrite G3, H3.
  - lia.
  - by auto.
Qed.
Lemma frame_upd b ids s x h : frame_ok b ids s (upd s b x h).
Proof. split_and!; try done. intros c Hc. cbn. by rewrite lookup_insert_ne. Qed.
Lemma frame_put b id ids c s :
  is_Some (s_cbbs s !! id) -> id ∈ ids -> frame_ok b ids s (set_cbbs <[id := Some c]> s).
Proof.
  intros Hs Hid. split_and!; cbn; try done.
  - intros j Hj. rewrite lookup_insert_ne; [done|]. intros ->. done.
  - intros j Hj. destruct (decide (id = j)) as [->|]; [by rewrite lookup_insert_eq|by rewrite lookup_insert_ne].
  - intros Hf j Hj. cbn in *. rewrite lookup_insert_ne; [by apply Hf|]. intros ->.
    rewrite (Hf j Hj) in Hs. by destruct Hs.
Qed.
#[export] Hint Resolve frame_refl frame_upd : cbb.

Section Flush.
Context `{alloc : Allocator}.

(** Moving the contents up to make room for the length octets. *)
Lemma make_room_spec b x A B old extra s :
  s_bases s !! b = Some x -> buf_is x (A ++ [old] ++ B) -> 1 <= extra <= 4 ->
  wp (r ← try_ (cbb_buffer_add (Some b) extra);
      match r with
      | None => err b
      | Some _ =>
          x ← get_base b;
          l ← deref (b_buf x);
          bs ← deref (ptr_read (P (zdrop (zlen A + 1) l)) (zlen B));
          buf_put b (zlen A + 1 + extra) bs
      end)
    (fun _ s' => exists x' h junk, s' = upd s b x' h /\ zlen junk = extra /\
       buf_is x' (A ++ [old] ++ junk ++ B) /\ grown x x')
    (fun s' => exists x' h, s' = upd s b x' h /\ b_error x' = true /\
       no_room x (zlen (A ++ [old] ++ B) + extra)) s.
Proof.
  intros Hx Hbuf He. apply wp_bind, wp_try. wp_call cbb_buffer_add_spec; [done..|lia| |].
  2: { intros s' (x' & h & -> & Herr & Hno). eapply wp_err; [apply upd_lookup|].
       eexists _, _. rewrite upd_upd. split_and!; [done|done|exact Hno]. }
  intros _ s' (x' & h & junk & -> & _ & Hj & Hb & Hg).
  apply wp_bind. eapply wp_get_base; [apply upd_lookup|].
  assert (exists l spare, b_buf x' = Some l /\ l = ((A ++ [old] ++ B) ++ junk) ++ spare) as (l & spare & Hl & ->).
  { destruct Hb as (_ & _ & _ & _ & spare & Hs). destruct (b_buf x') as [l|]; [eauto|].
    apply (f_equal zlen) in Hs. cbn in Hs. rewrite !zlen_app, zlen_nil, zlen_cons in Hs.
    pose proof (zlen_nonneg A). pose proof (zlen_nonneg B). pose proof (zlen_nonneg spare).
    pose proof (zlen_nonneg junk). lia. }
  rewrite Hl. apply wp_bind. eapply wp_deref; [done|]. apply wp_bind.
  assert (Hread : ptr_read (P (zdrop (zlen A + 1) (((A ++ [old] ++ B) ++ junk) ++ spare))) (zlen B) = Some B).
  { unfold ptr_read; cbn [ptr_bytes].
    replace (((A ++ [old] ++ B) ++ junk) ++ spare) with ((A ++ [old]) ++ B ++ junk ++ spare)
      by by rewrite <- !app_assoc.
    rewrite zdrop_app by by rewrite zlen_snoc. rewrite (ztake_app (zlen B)), !zlen_app by done.
    pose proof (zlen_nonneg B). pose proof (zlen_nonneg junk). pose proof (zlen_nonneg spare).
    by rewrite (proj2 (Z.leb_le _ _)), (proj2 (Z.leb_le (zlen B) _)) by lia. }
  eapply wp_deref; [exact Hread|].
  set (C := B ++ junk). pose proof (ztake_zdrop extra C) as HC. pose proof (zlen_nonneg B).
  assert (HzC : zlen C = zlen B + extra) by (unfold C; rewrite zlen_app; lia).
  assert (Hb2 : buf_is x' ((A ++ [old] ++ ztake extra C) ++ zdrop extra C ++ [])).
  { rewrite app_nil_r, <- !app_assoc, HC. unfold C. by rewrite <- !app_assoc in Hb. }
  assert (Hzl : zlen A + 1 + extra = zlen (A ++ [old] ++ ztake extra C)).
  { rewrite !zlen_app. change (zlen [old]) with 1. rewrite zlen_ztake; lia. }
  rewrite Hzl. wp_call buf_put_spec; [apply upd_lookup|exact Hb2|rewrite zlen_zdrop; lia| |done].
  intros _ s' (x'' & -> & Hb3 & Hg'). rewrite upd_upd. eexists x'', _, (ztake extra C).
  split_and!; [done|rewrite zlen_ztake; lia| |by eapply grown_trans].
  by rewrite app_nil_r, <- !app_assoc in Hb3.
Qed.

(** The ASN.1 branch, for a child whose one placeholder octet [old] is followed
    by the contents [B]. *)
Lemma flush_asn1_spec b child next s x A B old :
  s_bases s !! b = Some x -> buf_is x (A ++ [old] ++ B) ->
  s_cbbs s !! child = Some (Some (mkCBB (Some b) next (zlen A) 1 true false)) ->
  wp (flush_asn1 b child (zlen A + 1) (zlen B))
    (fun rest s' => exists x' h first junk,
       zlen B <= 0xfffffffe /\ zlen junk <= 4 /\
       enc_len (zlen B) = first :: be (Z.to_nat (zlen junk)) rest /\ 0 <= rest < 256 ^ zlen junk /\
       s' = set_cbbs <[child := Some (mkCBB (Some b) next (zlen A + 1) (zlen junk) true false)]>
              (upd s b x' h) /\
       buf_is x' ((A ++ [first]) ++ junk ++ B) /\ grown x x')
    (fun s' => exists x' h, s' = upd s b x' h /\ b_error x' = true /\
       (zlen B <= 0xfffffffe -> no_room x (zlen (A ++ enc_len (zlen B) ++ B)))) s.
Proof.
  intros Hx Hbuf Hch. unfold flush_asn1. apply wp_bind. eapply wp_get_cbb; [done|].
  cbn [c_pending_len_len c_offset c_base c_child c_pending_is_asn1 c_is_top_level].
  apply wp_bind, wp_assert; [done|].
  pose proof (asn1_length_spec (zlen B) (zlen_nonneg B)) as Hlen.
  destruct (asn1_length (zlen B)) as [[[ll first] rest]|].
  2: { eapply wp_err; [done|]. eexists _, _. split_and!; [done|done|lia]. }
  destruct Hlen as (Hle & Hll & Henc & Hrest & Hmove).
  apply wp_bind. eapply wp_mono with
    (Q := fun _ s' => exists x' h junk, s' = upd s b x' h /\ zlen junk = ll - 1 /\
            buf_is x' (A ++ [old] ++ junk ++ B) /\ grown x x')
    (E := fun s' => exists x' h, s' = upd s b x' h /\ b_error x' = true /\
            no_room x (zlen (A ++ enc_len (zlen B) ++ B))).
  - destruct (Z.eqb_spec ll 1); cbn [negb].
    2: { pose proof (Hmove n) as ->.
      wp_call (make_room_spec b x A B old (ll - 1)); [done..|lia|auto|].
      intros s' (x' & h & -> & Herr & Hno). exists x', h. split_and!; [done|done|].
      revert Hno. rewrite Henc, !zlen_app, !zlen_cons, zlen_nil, zlen_be, Z2Nat.id by lia.
      apply no_room_grown; [apply grown_refl|lia]. }
    apply wp_ret. exists x, (s_heap s), []. split_and!; [|change (zlen (@nil Z)) with 0; lia|done|apply grown_refl].
      unfold upd. rewrite insert_id by done. by destruct s.
  - intros _ s' (x' & h & junk & -> & Hj & Hb & Hg).
    apply wp_bind. wp_call buf_put_spec; [apply upd_lookup|exact Hb|done| |done].
    intros _ s' (x'' & -> & Hb' & Hg'). rewrite upd_upd. apply wp_bind.
    eapply wp_put_cbb; [exact Hch|]. wp_go.
    exists x'', h, first, junk. rewrite Hj. split_and!; [done|lia|done|lia|lia|done| |].
    + by rewrite <- app_assoc.
    + by eapply grown_trans.
  - intros s' (x' & h & -> & Herr & Hno). exists x', h. auto.
Qed.

(** Writing the prefix of a child that has no child of its own, before [K]. *)
Lemma write_prefix_spec b child k next s x A B (K : CBB -> M store unit) Q E :
  inner_ok (mkFrame k []) -> s_bases s !! b = Some x ->
  buf_is x (A ++ zrep (plen k) 0 ++ B) ->
  s_cbbs s !! child = Some (Some (mkCBB (Some b) next (zlen A) (plen k) (is_asn1 k) false)) ->
  (forall ch p x' s', prefix k (zlen B) = Some p -> s_bases s' !! b = Some x' ->
     buf_is x' (A ++ p ++ B) -> grown x x' -> frame_ok b [child] s s' -> wp (K ch) Q E s') ->
  (forall s', errored s' b -> frame_ok b [child] s s' ->
     (forall p, prefix k (zlen B) = Some p -> no_room x (zlen (A ++ p ++ B))) -> E s') ->
  wp (len ← (if is_asn1 k then flush_asn1 b child (zlen A + plen k) (zlen B) else mret (zlen B));
      ch ← get_cbb child;
      len ← write_be_loop b (c_offset ch) (c_pending_len_len ch) len;
      if negb (len =? 0) then err b else K ch) Q E s.
Proof.
  intros Hk Hx Hb Hch HK HE. pose proof (zlen_nonneg B) as HB0.
  destruct k as [|n|]; cbn in Hk; [done|..]; cbn [plen is_asn1] in *.
  - wp_go. eapply wp_get_cbb; [done|].
    cbn [c_offset c_pending_len_len]. apply wp_bind.
    wp_call write_be_loop_spec; [done|exact Hb|by rewrite zlen_zrep by lia|lia|done| |done].
    intros rest s' (x' & -> & Hg & -> & Hb').
    assert (Hp : prefix (Len n) (zlen B) = if zlen B <? 256 ^ n then Some (be (Z.to_nat n) (zlen B)) else None)
      by done.
    destruct (Z.ltb_spec (zlen B) (256 ^ n)) as [Hlt|Hge].
    + rewrite Z.div_small by lia. cbn. eapply HK; [done|apply upd_lookup|done|done|apply frame_upd].
    + assert (0 < zlen B / 256 ^ n) by (apply Z.div_str_pos; lia).
      rewrite (proj2 (Z.eqb_neq _ 0)) by lia. cbn. eapply wp_err; [apply upd_lookup|].
      rewrite upd_upd. apply HE; [eexists; split; [apply upd_lookup|done]|apply frame_upd|].
      intros p. by rewrite Hp.
  - apply wp_bind. change (zrep 1 0) with [0] in Hb.
    wp_call flush_asn1_spec; [done|exact Hb|exact Hch| |].
    2: { intros s' (x' & h & -> & Herr & Hno).
         apply HE; [by exists x'; rewrite upd_lookup|apply frame_upd|].
         intros p. cbn. destruct (Z.leb_spec (zlen B) 0xfffffffe); [|done]. intros [= <-]. auto. }
    intros rest s' (x' & h & first & junk & Hle & Hj & Henc & Hrest & -> & Hb' & Hg).
    apply wp_bind. eapply wp_get_cbb; [cbn; by rewrite lookup_insert_eq|].
    cbn [c_offset c_pending_len_len]. apply wp_bind.
    replace (zlen A + 1) with (zlen (A ++ [first])) by by rewrite zlen_snoc.
    wp_call write_be_loop_spec; [cbn; by rewrite lookup_insert_eq|exact Hb'|done|lia|lia| |done].
    intros r s' (x'' & -> & Hg' & -> & Hb''). rewrite Z.div_small by lia. cbn [Z.eqb negb].
    eapply HK; [|apply upd_lookup| |by eapply grown_trans|].
    + cbn. rewrite (proj2 (Z.leb_le _ _)) by lia. done.
    + rewrite Henc. by rewrite <- app_assoc in Hb''.
    + eapply frame_trans; [|apply frame_upd].
      eapply frame_trans; [apply (frame_upd _ _ _ x' h)|]. apply frame_put; [|by left]. cbn. by eexists.
Qed.

(** [CBB_flush] closes the frames below [id]. *)
Lemma flush_fuel_spec b post : forall ids id f off fuel s x pre,
  (length post < fuel)%nat -> NoDup (id :: ids) ->
  chain (s_cbbs s) b off (id :: ids) None (f :: post) -> Forall inner_ok post -> plen_ok f ->
  s_bases s !! b = Some x -> zlen pre = off -> buf_is x (pre ++ flat (f :: post)) ->
  wp (CBB_flush_fuel fuel id)
    (fun _ s' => exists bs x', close_frames post = Some bs /\
       chain (s_cbbs s') b off [id] None [extend f bs] /\ s_bases s' !! b = Some x' /\
       buf_is x' (pre ++ flat [extend f bs]) /\ grown x x' /\ frame_ok b (id :: ids) s s')
    (fun s' => errored s' b /\ frame_ok b ids s s' /\
       forall bs, close_frames post = Some bs -> no_room x (zlen (pre ++ flat [extend f bs]))) s.
Proof.
  induction post as [|f0 post IH]; intros ids id f off [|fuel] s x pre Hf Hnd Hch Hin Hpf Hx Hpre Hb;
    [cbn in Hf; lia| |cbn in Hf; lia|]; cbn [CBB_flush_fuel]; pose proof Hb as (Herr & _).
  - (* no child *)
    destruct ids as [|? ?]; [|by destruct Hch as [_ []]]. cbn in Hch. destruct Hch as [Hid _].
    apply wp_bind. eapply wp_get_cbb; [done|]. cbn [c_base c_child].
    apply wp_bind. eapply wp_get_base; [done|]. rewrite Herr. wp_go.
    exists [], x. unfold extend. cbn. rewrite app_nil_r.
    split_and!; try done; apply grown_refl.
  - destruct ids as [|id0 ids]; [by destruct Hch as [_ []]|].
    cbn [chain head_or] in Hch. destruct Hch as [Hid [Hid0 Hch']].
    apply Forall_cons in Hin as [Hf0 Hin]. pose proof (plen_inner _ Hf0) as Hp0. unfold plen_ok in Hpf.
    apply NoDup_cons in Hnd as [Hni Hnd]. assert (id <> id0) as Hne by (intros ->; apply Hni; by left).
    pose proof (zlen_nonneg (f_body f)). pose proof (zlen_nonneg pre).
    set (pre' := pre ++ zrep (plen (f_kind f)) 0 ++ f_body f) in *.
    assert (Hpre' : zlen pre' = off + plen (f_kind f) + zlen (f_body f)).
    { unfold pre'. rewrite !zlen_app, zlen_zrep; lia. }
    assert (Hb' : buf_is x (pre' ++ flat (f0 :: post))).
    { unfold pre'. cbn [flat] in Hb |- *. by rewrite <- !app_assoc. }
    apply wp_bind. eapply wp_get_cbb; [done|]. cbn [c_base c_child].
    apply wp_bind. eapply wp_get_base; [done|]. rewrite Herr.
    apply wp_bind. eapply wp_get_cbb; [exact Hid0|].
    cbn [c_base c_child c_offset c_pending_len_len c_pending_is_asn1]. cbv zeta.
    rewrite (proj2 (Z.eqb_neq _ 0)) by lia. rewrite <- Hpre'.
    pose proof (buf_is_len _ _ Hb') as [Hl Hcap]. unfold cap_max in Hcap.
    cbn [flat] in Hl. rewrite !zlen_app, zlen_zrep in Hl by lia.
    pose proof (zlen_nonneg (f_body f0)). pose proof (zlen_nonneg (flat post)).
    assert (Hcs : u64 (zlen pre' + plen (f_kind f0)) = zlen pre' + plen (f_kind f0)).
    { unfold u64. apply Z.mod_small. lia. }
    rewrite Hcs. apply wp_bind, wp_succeeds.
    wp_call (IH ids id0 f0 (zlen pre') fuel s x pre'); [cbn in Hf; lia|done| |done|unfold plen_ok; lia|done|done|exact Hb'| |].
    { cbn [chain]. rewrite Hpre'. split; [exact Hid0|exact Hch']. }
    + (* the child's own children are closed *)
      intros _ s1 (bs0 & x1 & Hcl & [Hid0' _] & Hx1 & Hb1 & Hg1 & Hfr1).
      apply wp_bind. eapply wp_get_base; [done|]. cbn [flat extend f_kind f_body] in Hb1.
      rewrite app_nil_r in Hb1. set (B := f_body f0 ++ bs0) in *.
      assert (Hlen1 : b_len x1 = zlen pre' + plen (f_kind f0) + zlen B).
      { destruct Hb1 as (_ & _ & _ & -> & _). rewrite !zlen_app, zlen_zrep; lia. }
      pose proof (zlen_nonneg B).
      rewrite (proj2 (Z.ltb_ge (zlen pre' + _) _)), (proj2 (Z.ltb_ge (b_len x1) _)) by lia. cbn [negb orb].
      replace (b_len x1 - (zlen pre' + plen (f_kind f0))) with (zlen B) by lia.
      assert (Hid1 : s_cbbs s1 !! id = s_cbbs s !! id).
      { apply Hfr1. done. }
      assert (Hid0s : forall s', frame_ok b [id0] s1 s' ->
                s_cbbs s' !! id = s_cbbs s !! id /\ is_Some (s_cbbs s' !! id0)).
      { intros s' Hfr. split; [rewrite <- Hid1; apply Hfr, not_elem_of_cons; split; [done|apply not_elem_of_nil]|].
        apply Hfr. by rewrite Hid0'. }
      assert (Hclose : close_frames (f0 :: post) =
                p ← prefix (f_kind f0) (zlen B); Some (p ++ B)) by (cbn; by rewrite Hcl).
      assert (is_top (f_kind f0) = false) as Htop.
      { unfold inner_ok in Hf0. by destruct (f_kind f0). }
      eapply write_prefix_spec; [done|done|exact Hb1|rewrite Hid0'; cbn; by rewrite Htop|..].
      * intros ch p x2 s2 Hp Hx2 Hb2 Hg2 Hfr2. destruct (Hid0s _ Hfr2) as [Hid2 [o Ho]].
        apply wp_bind. eapply wp_put_cbb; [exact Ho|].
        apply wp_bind. eapply wp_get_cbb; [cbn; rewrite lookup_insert_ne by done; by rewrite Hid2|].
        cbn [c_base c_child c_offset c_pending_len_len c_pending_is_asn1 c_is_top_level].
        eapply wp_put_cbb; [cbn; rewrite lookup_insert_ne by done; by rewrite Hid2|].
        rewrite Hclose, Hp. cbn [mbind option_bind]. exists (p ++ B), x2.
        split_and!; [done| |exact Hx2| |by eapply grown_trans|].
        { cbn. by rewrite lookup_insert_eq. }
        { cbn. rewrite app_nil_r. unfold pre' in Hb2. by rewrite <- !app_assoc in Hb2. }
        eapply frame_trans; [eapply frame_weaken; [|exact Hfr1]; ids_in|].
        eapply frame_trans; [eapply frame_weaken; [|exact Hfr2]; ids_in|].
        eapply frame_trans; [apply frame_put; [by eexists|ids_in]|].
        apply frame_put; [|ids_in]. cbn. rewrite lookup_insert_ne by done. by rewrite Hid2, Hid.
      * intros s2 Herr2 Hfr2 Hno. split_and!; [done| |].
        { eapply frame_trans; [exact Hfr1|]. eapply frame_weaken; [|exact Hfr2]. ids_in. }
        intros bs. rewrite Hclose. destruct (prefix _ _) as [p|]; [cbn|done]. intros [= <-].
        eapply no_room_grown; [exact Hg1| |by apply Hno].
        cbn [flat extend f_kind f_body]. unfold pre'. rewrite app_nil_r, <- !app_assoc. lia.
    + (* they are not *)
      intros s1 ((x1 & Hx1 & Herr1) & Hfr & Hno). apply wp_bind. eapply wp_get_base; [done|].
      cbn [negb orb]. eapply wp_err; [done|]. split_and!.
      * eexists. split; [apply upd_lookup|done].
      * eapply frame_trans; [|apply frame_upd]. eapply frame_weaken; [|exact Hfr]. ids_in.
      * intros bs Hcl. cbn in Hcl. destruct (close_frames post) as [bs0|]; [cbn in Hcl|done].
        destruct (prefix _ _) as [p|] eqn:Hp; [cbn in Hcl|done]. injection Hcl as <-.
        apply plen_prefix in Hp; [|done].
        eapply no_room_grown; [apply grown_refl| |by apply Hno].
        cbn [flat extend f_kind f_body]. unfold pre'. rewrite !app_nil_r, !zlen_app, !zlen_zrep; lia.
Qed.
End Flush.
