(* ===== verification/CbbOps.v ===== *)
(** Every writing operation of the builder, against the abstract builder: what it
    writes into the frame of the CBB it is called on, after closing the frames
    below it, and why it may fail instead. *)
From S2P Require Import Prelude Mem Buf MemFacts Cbs Der CbsFacts Cbb CbbSpec CbbFacts.

(** * Judgements *)

Section Judgements.
Context `{alloc : Allocator}.

(** Failure: the buffer is marked, [id] still points to it, and if the output
    exists then there was no room for it. *)
Definition failed (s s' : store) (b id : nat) (f : frame) (ids : list nat) (x : cbb_buffer_st)
    (out : option (list frame)) : Prop :=
  errored s' b /\ alive s' b id (is_top (f_kind f)) /\ frame_ok b ids s s' /\
  forall fs, out = Some fs -> no_room x (zlen (flat fs)).

(** [m], run when [id] is the innermost open CBB, returns [a] and writes [out]
    into its frame ([None]: it cannot be written). *)
Definition writes {A} (m : M store A) (b id : nat) (a : A) (out : option (list Z)) : Prop :=
  forall s x ids fs f,
    rep s b x (ids ++ [id]) (fs ++ [f]) -> length ids = length fs ->
    wp m (fun a' s' => exists o x', out = Some o /\ a' = a /\
            rep s' b x' (ids ++ [id]) (fs ++ [extend f o]) /\ grown x x' /\ frame_ok b [id] s s')
      (fun s' => failed s s' b id f [id] x (o ← out; Some (fs ++ [extend f o]))) s.

(** The same for a [m] that closes the frames below [id] first. *)
Definition appends {A} (m : M store A) (b id : nat) (a : A) (out : option (list Z)) : Prop :=
  forall s x ids ids2 fs f fs2,
    rep s b x (ids ++ id :: ids2) (fs ++ f :: fs2) -> length ids = length fs ->
    wp m (fun a' s' => exists bs o x', close_frames fs2 = Some bs /\ out = Some o /\ a' = a /\
            rep s' b x' (ids ++ [id]) (fs ++ [extend f (bs ++ o)]) /\ grown x x' /\
            frame_ok b (id :: ids2) s s')
      (fun s' => failed s s' b id f (id :: ids2) x
         (bs ← close_frames fs2; o ← out; Some (fs ++ [extend f (bs ++ o)]))) s.

(** [m] closes the frames below [id], writes [o] and opens [child] with a prefix
    of kind [k]. *)
Definition opens (m : M store unit) (b id child : nat) (o : list Z) (k : kind) : Prop :=
  forall s x ids ids2 fs f fs2,
    rep s b x (ids ++ id :: ids2) (fs ++ f :: fs2) -> length ids = length fs ->
    is_Some (s_cbbs s !! child) -> child ∉ ids ++ id :: ids2 ->
    wp m (fun _ s' => exists bs x', close_frames fs2 = Some bs /\
            rep s' b x' (ids ++ [id; child]) (fs ++ [extend f (bs ++ o); mkFrame k []]) /\
            grown x x' /\ frame_ok b (id :: child :: ids2) s s')
      (fun s' => failed s s' b id f (id :: child :: ids2) x
         (bs ← close_frames fs2; Some (fs ++ [extend f (bs ++ o); mkFrame k []]))) s.
End Judgements.

(** * The relation, at the innermost CBB *)

Section Rep.
Context `{alloc : Allocator}.

Lemma extend_nil f : extend f [] = f.
Proof. destruct f. unfold extend. cbn. by rewrite app_nil_r. Qed.
Lemma extend_extend f a b : extend (extend f a) b = extend f (a ++ b).
Proof. unfold extend. cbn. by rewrite app_assoc. Qed.
Lemma flat_extend fs f o : flat (fs ++ [extend f o]) = flat (fs ++ [f]) ++ o.
Proof. rewrite !flat_app. cbn. by rewrite !app_nil_r, !app_assoc. Qed.

Lemma shape_app fs f fs2 : shape (fs ++ f :: fs2) -> shape (fs ++ [f]) /\ Forall inner_ok fs2 /\ plen_ok f.
Proof.
  destruct fs as [|g fs]; cbn.
  - intros [Hf Hfs]. split_and!; [done|constructor|done|unfold plen_ok; by rewrite Hf].
  - intros [Hg [Hfs [Hf Hfs2]%Forall_cons]%Forall_app].
    split_and!; [done|by apply Forall_app; auto|done|]. pose proof (plen_inner _ Hf). unfold plen_ok. lia.
Qed.
Lemma shape_extend fs f o : shape (fs ++ [f]) -> shape (fs ++ [extend f o]).
Proof.
  destruct fs as [|g fs]; cbn; [done|]. rewrite !Forall_app. intros (Hg & Hfs & [Hf _]%Forall_cons).
  split_and!; [done..|]. by apply Forall_cons.
Qed.
Lemma shape_prefix fs f fs2 : shape (fs ++ f :: fs2) -> Forall plen_ok fs.
Proof. intros H%shape_plen_ok. by apply Forall_app in H as [H _]. Qed.

Lemma rep_base s b x ids fs : rep s b x ids fs -> s_bases s !! b = Some x.
Proof. by intros (_ & _ & _ & _ & H & _). Qed.
Lemma rep_buf s b x ids fs : rep s b x ids fs -> buf_is x (flat fs).
Proof. by intros (_ & _ & _ & _ & _ & H). Qed.

(** The innermost CBB. *)
Lemma rep_last s b x ids id fs f :
  rep s b x (ids ++ [id]) (fs ++ [f]) -> length ids = length fs ->
  s_cbbs s !! id = Some (Some (mkCBB (Some b) None (zlen (flat fs)) (plen (f_kind f))
                                (is_asn1 (f_kind f)) (is_top (f_kind f)))).
Proof.
  intros (_ & Hch & Hs & _) Hl. apply chain_app in Hch as [_ [Hid _]]; [exact Hid|done|].
  by eapply shape_prefix.
Qed.

(** Bytes added to the buffer go to the innermost frame. *)
Lemma rep_write s b x x' h ids id fs f o :
  rep s b x (ids ++ [id]) (fs ++ [f]) -> length ids = length fs ->
  buf_is x' (flat (fs ++ [f]) ++ o) ->
  rep (upd s b x' h) b x' (ids ++ [id]) (fs ++ [extend f o]).
Proof.
  intros (Hnd & Hch & Hs & Hfr & Hx & Hb) Hl Hb'. split_and!; [done| |by apply shape_extend|done|apply upd_lookup|].
  - pose proof (shape_prefix _ _ _ Hs). apply chain_app in Hch as [H1 [H2 _]]; [|done..].
    by apply chain_app.
  - by rewrite flat_extend.
Qed.

Lemma rep_same s b x x' h ids fs : rep s b x ids fs -> buf_is x' (flat fs) -> rep (upd s b x' h) b x' ids fs.
Proof. intros (Hnd & Hch & Hs & Hfr & Hx & Hb) Hb'. split_and!; try done. apply upd_lookup. Qed.

Lemma alive_upd s b id c t x h : alive s c id t -> alive (upd s b x h) c id t.
Proof. done. Qed.
Lemma rep_alive s b x ids id fs f : rep s b x (ids ++ [id]) (fs ++ [f]) -> length ids = length fs ->
  alive s b id (is_top (f_kind f)).
Proof. intros Hr Hl. eexists. split; [by eapply rep_last|done]. Qed.

Lemma rep_alive_at s b x ids id ids2 fs f fs2 :
  rep s b x (ids ++ id :: ids2) (fs ++ f :: fs2) -> length ids = length fs -> alive s b id (is_top (f_kind f)).
Proof.
  intros (_ & Hch & Hs & _) Hl. apply chain_app in Hch as [_ [Hid _]]; [by eexists|done|].
  by eapply shape_prefix.
Qed.

Lemma errored_upd s b x h : b_error x = true -> errored (upd s b x h) b.
Proof. intros. exists x. by rewrite upd_lookup. Qed.

Lemma zlen_flat_snoc fs f o : zlen (flat (fs ++ [extend f o])) = zlen (flat (fs ++ [f])) + zlen o.
Proof. by rewrite flat_extend, zlen_app. Qed.
End Rep.

(** * Composition *)

Section Compose.
Context `{alloc : Allocator}.

Lemma no_room_grown_flat x x' fs f f' o o' :
  f' = extend f o' -> grown x x' -> no_room x' (zlen (flat (fs ++ [extend f o]))) ->
  zlen o <= zlen o' -> no_room x (zlen (flat (fs ++ [f']))).
Proof.
  intros -> Hg Hno Hle. eapply no_room_grown; [exact Hg| |exact Hno]. rewrite !zlen_flat_snoc. lia.
Qed.

Lemma CBB_flush_spec b id : appends (CBB_flush id) b id tt (Some []).
Proof.
  intros s x ids ids2 fs f fs2 Hrep Hl. pose proof Hrep as (Hnd & Hch & Hs & Hfr & Hx & Hb).
  pose proof (shape_app _ _ _ Hs) as (Hs' & Hin & Hpf). pose proof (shape_prefix _ _ _ Hs) as Hpl.
  pose proof Hch as Hch0. apply chain_app in Hch as [Hout Hch]; [|done..]. cbn [head_or] in Hout.
  pose proof Hnd as (Hnd1 & Hdis & Hnd2)%NoDup_app.
  assert (Hid : ∀ j, j ∈ ids -> j ∉ id :: ids2) by exact Hdis.
  assert (Hali : alive s b id (is_top (f_kind f))).
  { destruct Hch as [Hc _]. by eexists. }
  unfold CBB_flush. apply wp_bind, wp_get.
  wp_call (flush_fuel_spec b fs2 ids2 id f (zlen (flat fs))); [|done|exact Hch|done|done|exact Hx|done| | |].
  - apply chain_length in Hch as Hlen. cbn in Hlen.
    pose proof (chain_size _ _ _ _ _ _ Hnd Hch0) as Hsz. rewrite length_app in Hsz. cbn in Hsz. lia.
  - by rewrite <- flat_app.
  - intros [] s' (bs & x' & Hcl & Hch' & Hx' & Hb' & Hg & Hfr').
    exists bs, [], x'. rewrite app_nil_r. split_and!; [done|done|done| |done|done].
    assert (Hni : id ∉ ids) by (intros H; by apply (Hid id H); left).
    split_and!; [|by apply chain_app; [done|done|split; [|exact Hch']];
                   (eapply chain_frame; [|exact Hout]; intros j Hj; apply Hfr', Hid)
                |by apply shape_extend|by apply Hfr'|done|by rewrite flat_app].
    apply NoDup_app. split_and!; [done| |apply NoDup_singleton].
    intros j Hj ->%list_elem_of_singleton. done.
  - intros s' (Herr & Hfr' & Hno). split_and!; [done| | |].
    + destruct Hali as (c & Hc & Hcb). exists c. split; [|done]. rewrite <- Hc. apply Hfr'.
      by apply NoDup_cons in Hnd2 as [? _].
    + eapply frame_weaken; [|exact Hfr']. ids_in.
    + intros fs'. destruct (close_frames fs2) as [bs|]; [cbn|done]. intros [= <-].
      rewrite app_nil_r. specialize (Hno bs eq_refl). by rewrite <- flat_app in Hno.
Qed.

Lemma writes_ret {A} (a : A) b id : writes (mret a) b id a (Some []).
Proof.
  intros s x ids fs f Hr Hl. apply wp_ret. exists [], x. rewrite extend_nil.
  split_and!; done.
Qed.

(** A step that does not touch the store. *)
Lemma writes_pure {A B} (m : M store A) (k : A -> M store B) b id a c o :
  (forall s, m s = Ok a s) -> writes (k a) b id c o -> writes (m ≫= k) b id c o.
Proof.
  intros Hm Hk s x ids fs f Hr Hl. apply wp_bind. unfold wp at 1. rewrite Hm. by eapply Hk.
Qed.

Lemma writes_bind {A B} (m : M store A) (k : A -> M store B) b id a c o1 o2 :
  writes m b id a o1 -> writes (k a) b id c o2 ->
  writes (m ≫= k) b id c (p ← o1; q ← o2; Some (p ++ q)).
Proof.
  intros Hm Hk s x ids fs f Hr Hl. apply wp_bind. wp_call Hm; [exact Hr|done| |].
  - intros ? s1 (p & x1 & -> & -> & Hr1 & Hg1 & Hf1). cbn [mbind option_bind].
    wp_call Hk; [exact Hr1|done| |].
    + intros ? s2 (q & x2 & -> & -> & Hr2 & Hg2 & Hf2). exists (p ++ q), x2.
      rewrite extend_extend in Hr2. split_and!; [done..|by eapply grown_trans|by eapply frame_trans].
    + intros s2 (He & Ha & Hf2 & Hno). split_and!; [done|done|by eapply frame_trans|].
      intros fs'. destruct o2 as [q|]; [cbn|done]. intros [= <-]. cbn in Hno.
      eapply no_room_grown; [exact Hg1| |by apply Hno]. by rewrite extend_extend.
  - intros s1 (He & Ha & Hf1 & Hno). split_and!; [done..|].
    intros fs'. destruct o1 as [p|]; [cbn|done]. destruct o2 as [q|]; [cbn|done]. intros [= <-].
    eapply no_room_grown; [apply grown_refl| |by apply Hno]. rewrite !zlen_flat_snoc, zlen_app.
    pose proof (zlen_nonneg q). lia.
Qed.

Lemma appends_bind {A B} (m : M store A) (k : A -> M store B) b id a c o1 o2 :
  appends m b id a o1 -> writes (k a) b id c o2 ->
  appends (m ≫= k) b id c (p ← o1; q ← o2; Some (p ++ q)).
Proof.
  intros Hm Hk s x ids ids2 fs f fs2 Hr Hl. apply wp_bind. wp_call Hm; [exact Hr|done| |].
  - intros ? s1 (bs & p & x1 & -> & -> & -> & Hr1 & Hg1 & Hf1). cbn [mbind option_bind].
    wp_call Hk; [exact Hr1|done| |].
    + intros ? s2 (q & x2 & -> & -> & Hr2 & Hg2 & Hf2). exists bs, (p ++ q), x2.
      rewrite extend_extend, <- app_assoc in Hr2.
      split_and!; [done..|by eapply grown_trans|]. eapply frame_trans; [exact Hf1|].
      eapply frame_weaken; [|exact Hf2]. ids_in.
    + intros s2 (He & Ha & Hf2 & Hno). split_and!; [done|done| |].
      { eapply frame_trans; [exact Hf1|]. eapply frame_weaken; [|exact Hf2]. ids_in. }
      intros fs'. destruct o2 as [q|]; [cbn|done]. intros [= <-]. cbn in Hno.
      eapply no_room_grown; [exact Hg1| |by apply Hno]. by rewrite extend_extend, <- app_assoc.
  - intros s1 (He & Ha & Hf1 & Hno). split_and!; [done..|].
    intros fs'. destruct (close_frames fs2) as [bs|]; [cbn|done].
    destruct o1 as [p|]; [cbn|done]. destruct o2 as [q|]; [cbn|done]. intros [= <-].
    eapply no_room_grown; [apply grown_refl| |by apply Hno].
    rewrite !zlen_flat_snoc, !zlen_app. pose proof (zlen_nonneg q). lia.
Qed.

Lemma appends_writes {A} (m : M store A) b id a o : appends m b id a o -> writes m b id a o.
Proof.
  intros Hm s x ids fs f Hr Hl. wp_call (Hm s x ids [] fs f []); [exact Hr|done| |].
  - intros ? s' (bs & p & x' & [= <-] & -> & -> & Hr' & Hg & Hf). by exists p, x'.
  - intros s' (He & Ha & Hf & Hno). by split_and!.
Qed.

(** An operation that starts with [CBB_flush]. *)
Lemma appends_flush {A} (k : M store A) b id a o :
  writes k b id a o -> appends (CBB_flush id;; k) b id a o.
Proof.
  intros Hk. replace o with (p ← Some []; q ← o; Some (p ++ q)) by by destruct o.
  by eapply appends_bind; [apply CBB_flush_spec|].
Qed.
End Compose.

(** * Integers and bytes *)

Section Writes.
Context `{alloc : Allocator}.

(** [c ← get_cbb id; k (c_base c)] on the innermost CBB. *)
Lemma writes_base {A} (k : option nat -> M store A) b id a o :
  writes (k (Some b)) b id a o -> writes (c ← get_cbb id; k (c_base c)) b id a o.
Proof.
  intros Hk s x ids fs f Hr Hl. apply wp_bind. eapply wp_get_cbb; [by eapply rep_last|].
  cbn [c_base]. by apply Hk.
Qed.

(** Growing the buffer by [n] bytes and storing [bs] there. *)
Lemma add_bytes_spec b id n bs :
  zlen bs = n -> n <= 2 ^ 62 ->
  writes (dest ← cbb_buffer_add (Some b) n; buf_put b dest bs) b id tt (Some bs).
Proof.
  intros Hn Hle s x ids fs f Hr Hl. pose proof (rep_base _ _ _ _ _ Hr) as Hx.
  pose proof (zlen_nonneg bs). pose proof (rep_buf _ _ _ _ _ Hr) as Hb. apply wp_bind.
  wp_call cbb_buffer_add_spec; [exact Hx|exact Hb|lia| |].
  - intros ? s' (x' & h & junk & -> & -> & Hj & Hb' & Hg).
    rewrite <- (app_nil_r (_ ++ junk)), <- app_assoc in Hb'.
    wp_call buf_put_spec; [apply upd_lookup|exact Hb'|lia| |done].
    intros [] s' (x'' & -> & Hb'' & Hg'). rewrite upd_upd, app_nil_r in *. exists bs, x''.
    split_and!; [done|done|by eapply rep_write|by eapply grown_trans|apply frame_upd].
  - intros s' (x' & h & -> & He & Hno). split_and!; [by apply errored_upd| |apply frame_upd|].
    + apply alive_upd. by eapply rep_alive.
    + intros fs' [= <-]. by rewrite zlen_flat_snoc, Hn.
Qed.

Lemma cbb_buffer_add_u_spec b id v n :
  1 <= n <= 8 -> 0 <= v ->
  writes (cbb_buffer_add_u (Some b) v n) b id tt
    (if v <? 256 ^ n then Some (be (Z.to_nat n) v) else None).
Proof.
  intros Hn Hv s x ids fs f Hr Hl. pose proof (rep_base _ _ _ _ _ Hr) as Hx.
  pose proof (rep_buf _ _ _ _ _ Hr) as Hb. unfold cbb_buffer_add_u.
  rewrite (proj2 (Z.eqb_neq n 0)) by lia. apply wp_bind.
  wp_call cbb_buffer_add_spec; [exact Hx|exact Hb|lia| |].
  - intros ? s' (x' & h & junk & -> & -> & Hj & Hb' & Hg). cbn [deref]. wp_go.
    rewrite <- (app_nil_r (_ ++ junk)), <- app_assoc in Hb'.
    wp_call write_be_loop_spec; [apply upd_lookup|exact Hb'|done|lia|done| |done].
    intros rest s' (x'' & -> & Hg' & -> & Hb''). rewrite upd_upd, app_nil_r in *.
    destruct (Z.ltb_spec v (256 ^ n)).
    + rewrite Z.div_small by lia. apply wp_ret. eexists _, x''.
      split_and!; [done|done|by eapply rep_write|by eapply grown_trans|apply frame_upd].
    + assert (0 < v / 256 ^ n) by (apply Z.div_str_pos; lia).
      rewrite (proj2 (Z.eqb_neq _ 0)) by lia. cbn [negb].
      eapply wp_err; [apply upd_lookup|]. rewrite upd_upd.
      split_and!; [by apply errored_upd|apply alive_upd; by eapply rep_alive|apply frame_upd|done].
  - intros s' (x' & h & -> & He & Hno).
    split_and!; [by apply errored_upd|apply alive_upd; by eapply rep_alive|apply frame_upd|].
    intros fs'. destruct (v <? 256 ^ n); [|done]. intros [= <-].
    rewrite zlen_flat_snoc, zlen_be, Z2Nat.id by lia. done.
Qed.

Lemma cbb_add_u_spec b id v n :
  1 <= n <= 8 -> 0 <= v ->
  appends (cbb_add_u id v n) b id tt (if v <? 256 ^ n then Some (be (Z.to_nat n) v) else None).
Proof.
  intros Hn Hv. unfold cbb_add_u. apply appends_flush.
  apply (writes_base (fun base => cbb_buffer_add_u base v n)). by apply cbb_buffer_add_u_spec.
Qed.

Lemma CBB_add_u8_spec b id v : appends (CBB_add_u8 id v) b id tt (Some [u8 v]).
Proof.
  pose proof (is_byte_mod v) as Hb. unfold is_byte in Hb. unfold CBB_add_u8.
  replace (Some [u8 v]) with (if u8 v <? 256 ^ 1 then Some (be (Z.to_nat 1) (u8 v)) else None).
  - apply cbb_add_u_spec; [done|unfold u8; lia].
  - unfold u8. change (256 ^ 1) with 256. rewrite (proj2 (Z.ltb_lt _ _)) by lia.
    change (be (Z.to_nat 1) (v mod 256)) with [v mod 256 mod 256]. by rewrite Z.mod_mod.
Qed.
Lemma CBB_add_u16_spec b id v : appends (CBB_add_u16 id v) b id tt (Some (be 2 (u16 v))).
Proof.
  pose proof (Z.mod_pos_bound v 65536 ltac:(done)). unfold CBB_add_u16.
  pose proof (cbb_add_u_spec b id (u16 v) 2 ltac:(done) ltac:(unfold u16; lia)) as H'.
  by rewrite (proj2 (Z.ltb_lt _ _)) in H' by (change (256 ^ 2) with 65536; unfold u16; lia).
Qed.
Lemma CBB_add_u24_spec b id v :
  appends (CBB_add_u24 id v) b id tt (if u32 v <? 2 ^ 24 then Some (be 3 (u32 v)) else None).
Proof. apply (cbb_add_u_spec b id (u32 v) 3); [done|]. apply Z.mod_pos_bound. done. Qed.
Lemma CBB_add_u32_spec b id v : appends (CBB_add_u32 id v) b id tt (Some (be 4 (u32 v))).
Proof.
  pose proof (Z.mod_pos_bound v 4294967296 ltac:(done)). unfold CBB_add_u32.
  pose proof (cbb_add_u_spec b id (u32 v) 4 ltac:(done) ltac:(unfold u32; lia)) as H'.
  by rewrite (proj2 (Z.ltb_lt _ _)) in H' by (change (256 ^ 4) with (2 ^ 32); unfold u32; lia).
Qed.

Lemma CBB_add_bytes_spec b id data len bs :
  ptr_read data len = Some bs -> len <= 2 ^ 62 -> appends (CBB_add_bytes id data len) b id tt (Some bs).
Proof.
  intros Hbs Hle. unfold CBB_add_bytes. apply appends_flush.
  apply (writes_base (fun base => dest ← cbb_buffer_add base len;
                        bs ← deref (ptr_read data len); b ← deref base; buf_put b dest bs)).
  rewrite Hbs. cbn [deref]. apply (add_bytes_spec b id len bs); [|done].
  revert Hbs. unfold ptr_read. destruct (_ && _) eqn:E; [|done]. intros [= <-]. apply zlen_ztake. lia.
Qed.
End Writes.

(** * Opening a child *)

Section Opens.
Context `{alloc : Allocator}.

Lemma flat_open fs f k : flat (fs ++ [extend f (zrep (plen k) 0)]) = flat (fs ++ [f; mkFrame k []]).
Proof. rewrite !flat_app. cbn. by rewrite !app_nil_r. Qed.

Lemma rep_open s b x ids id child fs f k o :
  rep s b x (ids ++ [id]) (fs ++ [extend f (zrep (plen k) 0)]) -> length ids = length fs ->
  inner_ok (mkFrame k []) -> s_cbbs s !! child = Some o -> child ∉ ids ++ [id] ->
  rep (set_cbbs <[id := Some (mkCBB (Some b) (Some child) (zlen (flat fs)) (plen (f_kind f))
                                (is_asn1 (f_kind f)) (is_top (f_kind f)))]>
        (set_cbbs <[child := Some (mkCBB (Some b) None (zlen (flat (fs ++ [f]))) (plen k)
                                     (is_asn1 k) false)]> s))
    b x (ids ++ [id; child]) (fs ++ [f; mkFrame k []]).
Proof.
  intros (Hnd & Hch & Hs & Hfr & Hx & Hb) Hl Hk Hc Hni.
  pose proof (shape_prefix _ _ _ Hs) as Hpl. apply chain_app in Hch as [H1 [H2 _]]; [|done..].
  assert (Hidc : child <> id) by (intros ->; apply Hni, elem_of_app; right; by left).
  split_and!.
  - change [id; child] with ([id] ++ [child]). rewrite app_assoc. apply NoDup_app.
    split_and!; [done|intros j Hj ->%list_elem_of_singleton; done|apply NoDup_singleton].
  - apply chain_app; [done|done|]. split.
    + cbn [head_or] in H1 |- *. eapply chain_frame; [|exact H1]. intros j Hj. cbn.
      apply NoDup_app in Hnd as (_ & Hd & _).
      rewrite !lookup_insert_ne; [done| |].
      * intros ->. apply Hni, elem_of_app. by left.
      * intros ->. by apply (Hd j Hj), list_elem_of_singleton.
    + cbn. rewrite lookup_insert_eq. split; [done|]. rewrite lookup_insert_ne, lookup_insert_eq by done.
      apply shape_app in Hs as (_ & _ & Hpf). unfold plen_ok in Hpf. cbn in Hpf.
      split; [|done]. do 2 f_equal. rewrite flat_app. cbn.
      replace (is_top k) with false by by destruct k.
      rewrite app_nil_r, !zlen_app, zlen_zrep by done. f_equal. lia.
  - change [f; mkFrame k []] with ([f] ++ [mkFrame k []]). rewrite app_assoc.
    apply (shape_extend _ _ (zrep 0 0)) in Hs.
    destruct fs as [|g fs]; cbn in Hs |- *.
    + destruct Hs. split; [done|]. by apply Forall_cons.
    + destruct Hs as [? Hs]. split; [done|]. apply Forall_app in Hs as [? [? _]%Forall_cons].
      apply Forall_app; split; [apply Forall_app; split; [done|by apply Forall_cons]|by apply Forall_cons].
  - intros j Hj. cbn in Hj |- *. pose proof (Hfr j Hj) as Hn.
    rewrite !lookup_insert_ne; [done| |].
    + intros ->. by rewrite Hc in Hn.
    + intros ->. cbn in H2. by rewrite H2 in Hn.
  - done.
  - by rewrite <- flat_open.
Qed.

(** Reserving the prefix and linking the child, on the innermost CBB. *)
Lemma open_tail_spec b id child k (W : nat -> M store unit) s x ids fs f :
  writes (W b) b id tt (Some (zrep (plen k) 0)) -> inner_ok (mkFrame k []) ->
  rep s b x (ids ++ [id]) (fs ++ [f]) -> length ids = length fs ->
  is_Some (s_cbbs s !! child) -> child ∉ ids ++ [id] ->
  wp (b ← base_of id; x ← get_base b; W b;; open_child id child (b_len x) (plen k) (is_asn1 k))
    (fun _ s' => exists x', rep s' b x' (ids ++ [id; child]) (fs ++ [f; mkFrame k []]) /\
       grown x x' /\ frame_ok b [id; child] s s')
    (fun s' => failed s s' b id f [id; child] x (Some (fs ++ [f; mkFrame k []]))) s.
Proof.
  intros HW Hk Hr Hl Hc Hni. unfold base_of. apply wp_bind, wp_bind.
  eapply wp_get_cbb; [by eapply rep_last|]. cbn [c_base deref]. wp_go.
  eapply wp_get_base; [by eapply rep_base|]. wp_go. wp_call HW; [exact Hr|done| |].
  - intros ? s1 (o & x1 & [= <-] & -> & Hr1 & Hg1 & Hf1).
    unfold open_child, base_of. wp_go. eapply wp_get_cbb; [by eapply rep_last|]. cbn [c_base deref]. wp_go.
    assert (is_Some (s_cbbs s1 !! child)) as [o Ho] by by apply Hf1.
    assert (Hne : id <> child) by (intros ->; apply Hni, elem_of_app; right; by left).
    eapply wp_put_cbb; [exact Ho|].
    wp_go. eapply wp_get_cbb.
    { cbn. rewrite lookup_insert_ne by done. by eapply rep_last. }
    cbn [c_base c_child c_offset c_pending_len_len c_pending_is_asn1 c_is_top_level].
    eapply wp_put_cbb.
    { cbn. rewrite lookup_insert_ne by done. by eapply rep_last. }
    assert (Hoff : b_len x = zlen (flat (fs ++ [f]))).
    { pose proof (rep_buf _ _ _ _ _ Hr) as (_ & _ & _ & -> & _). done. }
    rewrite Hoff. exists x1. split_and!; [exact (rep_open s1 b x1 ids id child fs f k o Hr1 Hl Hk Ho Hni)|done|].
    eapply frame_trans; [eapply frame_weaken; [|exact Hf1]; ids_in|].
    eapply frame_trans; apply frame_put; [by eexists|ids_in| |ids_in].
    cbn. rewrite lookup_insert_ne by done. eexists. by eapply rep_last.
  - intros s1 (He & Ha & Hf1 & Hno). split_and!; [done|done|eapply frame_weaken; [|exact Hf1]; ids_in|].
    intros fs' [= <-]. rewrite <- flat_open. by apply Hno.
Qed.

Lemma opens_bind b id child k W (m : M store unit) o :
  appends m b id tt (Some o) -> writes (W b) b id tt (Some (zrep (plen k) 0)) -> inner_ok (mkFrame k []) ->
  opens (m;; b ← base_of id; x ← get_base b; W b;;
         open_child id child (b_len x) (plen k) (is_asn1 k)) b id child o k.
Proof.
  intros Hm HW Hk s x ids ids2 fs f fs2 Hr Hl Hc Hni. apply wp_bind. wp_call Hm; [exact Hr|done| |].
  - intros ? s1 (bs & o' & x1 & Hcl & [= <-] & -> & Hr1 & Hg1 & Hf1).
    wp_call open_tail_spec; [exact HW|exact Hk|exact Hr1|done|by apply Hf1| | |].
    + intros Hin. apply Hni. rewrite elem_of_app in *. rewrite list_elem_of_singleton in Hin. ids_in.
    + intros _ s2 (x2 & Hr2 & Hg2 & Hf2). exists bs, x2.
      split_and!; [done|done|by eapply grown_trans|].
      eapply frame_trans; [eapply frame_weaken; [|exact Hf1]|eapply frame_weaken; [|exact Hf2]]; ids_in.
    + intros s2 (He & Ha & Hf2 & Hno). split_and!; [done|done| |].
      { eapply frame_trans; [eapply frame_weaken; [|exact Hf1]|eapply frame_weaken; [|exact Hf2]]; ids_in. }
      intros fs'. rewrite Hcl. intros [= <-].
      eapply no_room_grown; [exact Hg1|reflexivity|by apply Hno].
  - intros s1 (He & Ha & Hf1 & Hno). split_and!; [done|done|eapply frame_weaken; [|exact Hf1]; ids_in|].
    intros fs'. destruct (close_frames fs2) as [bs|]; [cbn|done]. intros [= <-].
    eapply no_room_grown; [apply grown_refl| |by apply Hno].
    rewrite <- flat_open, !zlen_flat_snoc. pose proof (zlen_nonneg (zrep (plen k) 0)). lia.
Qed.

Lemma cbb_add_length_prefixed_spec b id child n :
  1 <= n <= 3 -> opens (cbb_add_length_prefixed id child n) b id child [] (Len n).
Proof.
  intros Hn s x ids ids2 fs f fs2 Hr Hl Hc Hni. unfold cbb_add_length_prefixed.
  pose proof (opens_bind b id child (Len n)
    (fun b => dest ← cbb_buffer_add (Some b) n; buf_put b dest (zrep n 0)) (CBB_flush id) []
    (CBB_flush_spec b id) (add_bytes_spec b id n (zrep n 0) (zlen_zrep n 0 ltac:(lia)) ltac:(lia)) Hn
    s x ids ids2 fs f fs2 Hr Hl Hc Hni) as H. revert H. cbn [plen is_asn1].
  unfold wp, mbind, M_bind. destruct (CBB_flush id s) as [? s1|?|]; try done.
  destruct (base_of id s1) as [b1 s2|?|]; try done. destruct (get_base b1 s2) as [x1 s3|?|]; try done.
  destruct (cbb_buffer_add (Some b1) n s3) as [off s4|?|]; try done.
Qed.
End Opens.

(** * Base-128 integers and tags *)

Section Base128.
Context `{alloc : Allocator}.

(** Exactly [n] groups of [w], all with the continuation bit. *)
Fixpoint b128_fixed (n : nat) (w : Z) : list Z :=
  match n with
  | O => []
  | S n => b128_fixed n (w / 128) ++ [128 + w mod 128]
  end.

Lemma b128_fixed_cons n w :
  0 <= w -> b128_fixed (S n) w = 128 + (w / 128 ^ Z.of_nat n) mod 128 :: b128_fixed n w.
Proof.
  revert w. induction n as [|n IH]; intros w Hw; [cbn; by rewrite Z.div_1_r|].
  change (b128_fixed (S (S n)) w) with (b128_fixed (S n) (w / 128) ++ [128 + w mod 128]).
  rewrite IH by (apply Z.div_pos; lia). rewrite Z.div_div by lia.
  replace (128 * 128 ^ Z.of_nat n) with (128 ^ Z.of_nat (S n)); [done|].
  rewrite Nat2Z.inj_succ, Z.pow_succ_r by lia. done.
Qed.

Lemma b128_prefix_fixed f w : b128_prefix f w = b128_fixed (length (b128_prefix f w)) w.
Proof.
  revert w. induction f as [|f IH]; intros w; cbn; [done|].
  destruct (w =? 0); [done|]. rewrite length_app, Nat.add_1_r. cbn. by rewrite <- IH.
Qed.

Lemma base128_len_loop f l w (s : store) :
  0 <= w < 128 ^ Z.of_nat f ->
  iter (S f) (fun '(len_len, copy) =>
    mret (if 0 <? copy then inl (len_len + 1, Z.shiftr copy 7) else inr len_len)) (l, w) s
  = Ok (l + zlen (b128_prefix f w)) s.
Proof.
  revert l w. induction f as [|f IH]; intros l w Hw.
  - cbn in Hw. assert (w = 0) as -> by lia. cbn. by rewrite Z.add_0_r.
  - cbn [iter]. unfold mbind, M_bind, mret, M_ret. rewrite Z.shiftr_div_pow2 by lia. change (2 ^ 7) with 128.
    destruct (Z.ltb_spec 0 w).
    + cbn [iter] in IH. unfold mbind, M_bind, mret, M_ret in IH.
      rewrite IH. 2: { rewrite Nat2Z.inj_succ, Z.pow_succ_r in Hw by lia.
        split; [apply Z.div_pos; lia|apply Z.div_lt_upper_bound; lia]. }
      cbn. rewrite (proj2 (Z.eqb_neq w 0)) by lia. rewrite zlen_snoc. f_equal. lia.
    + assert (w = 0) as -> by lia. cbn. by rewrite Z.add_0_r.
Qed.

Lemma base128_len_spec v (s : store) :
  0 <= v < 2 ^ 64 -> base128_len v s = Ok (zlen (enc_base128 v)) s.
Proof.
  intros Hv. unfold base128_len. unfold mbind, M_bind. rewrite (base128_len_loop 10) by lia.
  unfold mret, M_ret, enc_base128. f_equal. rewrite Z.add_0_l, zlen_snoc.
  destruct (Z.eq_dec v 0) as [->|Hn]; [done|].
  rewrite (b128_prefix_more 9 (v / 128))
    by (split; [apply Z.div_pos; lia|apply Z.div_lt_upper_bound; lia]).
  change (b128_prefix 10 v) with (if v =? 0 then [] else b128_prefix 9 (v / 128) ++ [128 + v mod 128]).
  rewrite (proj2 (Z.eqb_neq v 0)) by lia. rewrite zlen_snoc.
  pose proof (zlen_nonneg (b128_prefix 9 (v / 128))). by rewrite (proj2 (Z.eqb_neq _ 0)) by lia.
Qed.

Lemma lor_0x80 x : Z.lor (x mod 128) 0x80 = 128 + x mod 128.
Proof.
  pose proof (Z.mod_pos_bound x 128 ltac:(lia)).
  rewrite Z.lor_comm.
  change (Z.lor 128 (x mod 128)) with (Z.lor (Z.shiftl 1 7) (x mod 128)). rewrite lor_shiftl by lia. done.
Qed.

Lemma base128_loop_spec b id v len n : forall fuel,
  0 <= v -> (S n < fuel)%nat -> Z.of_nat n < len -> len < 2 ^ 32 ->
  writes (iter fuel (fun i =>
      if i <? len then
        let byte := Z.land (Z.shiftr v (7 * i)) 0x7f in
        let byte := if negb (i =? 0) then Z.lor byte 0x80 else byte in
        CBB_add_u8 id byte;;
        mret (inl (u32 (i - 1)))
      else mret (inr tt)) (Z.of_nat n)) b id tt (Some (b128_fixed n (v / 128) ++ [v mod 128])).
Proof.
  induction n as [|n IH]; intros [|fuel] Hv Hf Hn Hlen; try lia; cbn [iter];
    rewrite (proj2 (Z.ltb_lt _ len)) by lia; cbv zeta.
  - replace (Some (b128_fixed 0 (v / 128) ++ [v mod 128]))
      with (p ← Some [v mod 128]; q ← Some []; Some (p ++ q)) by done.
    apply (writes_bind _ _ b id (inl (u32 (0 - 1)))).
    + replace (Some [v mod 128]) with (p ← Some [u8 (Z.land (Z.shiftr v (7 * 0)) 0x7f)]; q ← Some []; Some (p ++ q)).
      { eapply writes_bind; [apply appends_writes, CBB_add_u8_spec|apply writes_ret]. }
      cbn [mbind option_bind app]. change (7 * 0) with 0. rewrite Z.shiftr_0_r, land_0x7f. unfold u8.
      rewrite Z.mod_small; [done|]. pose proof (Z.mod_pos_bound v 128 ltac:(lia)). lia.
    + destruct fuel as [|fuel]; [lia|]. cbn [iter]. change (u32 (0 - 1)) with 4294967295.
      rewrite (proj2 (Z.ltb_ge _ len)) by lia. eapply writes_pure; [done|]. apply writes_ret.
  - assert (Hi : Z.of_nat (S n) - 1 = Z.of_nat n) by lia.
    rewrite (proj2 (Z.eqb_neq _ 0)) by lia. cbn [negb].
    assert (Hbyte : u8 (Z.lor (Z.land (Z.shiftr v (7 * Z.of_nat (S n))) 0x7f) 0x80)
              = 128 + (v / 128 / 128 ^ Z.of_nat n) mod 128).
    { rewrite land_0x7f, lor_0x80. rewrite Z.shiftr_div_pow2 by lia.
      rewrite Z.pow_mul_r by lia. change (2 ^ 7) with 128.
      rewrite Z.div_div by (try apply Z.pow_pos_nonneg; lia).
      rewrite <- Z.pow_succ_r by lia. rewrite <- Nat2Z.inj_succ. unfold u8. apply Z.mod_small.
      pose proof (Z.mod_pos_bound (v / 128 ^ Z.of_nat (S n)) 128 ltac:(lia)). lia. }
    rewrite b128_fixed_cons by (apply Z.div_pos; lia). rewrite <- Hbyte.
    rewrite <- app_comm_cons.
    set (byte := Z.lor _ _). set (tail := b128_fixed n (v / 128) ++ [v mod 128]) in *.
    replace (Some (u8 byte :: tail)) with (p ← Some [u8 byte]; q ← Some tail; Some (p ++ q)) by done.
    apply (writes_bind _ _ b id (inl (Z.of_nat n))).
    + replace (Some [u8 byte]) with (p ← Some [u8 byte]; q ← Some []; Some (p ++ q)) by done.
      eapply writes_bind; [apply appends_writes, CBB_add_u8_spec|]. rewrite Hi.
      unfold u32. rewrite Z.mod_small by lia. apply writes_ret.
    + apply IH; lia.
Qed.

Lemma add_base128_integer_spec b id v :
  0 <= v < 2 ^ 64 -> writes (add_base128_integer id v) b id tt (Some (enc_base128 v)).
Proof.
  intros Hv. unfold add_base128_integer.
  eapply writes_pure; [intros; by apply base128_len_spec|].
  pose proof (zlen_enc_base128 v) as Hl. unfold enc_base128 in *. rewrite zlen_snoc in *.
  set (g := b128_prefix 10 (v / 128)) in *.
  replace (u32 (zlen g + 1 - 1)) with (Z.of_nat (length g)).
  - assert (Hg : b128_fixed (length g) (v / 128) = g) by (symmetry; apply b128_prefix_fixed).
    pose proof (base128_loop_spec b id v (zlen g + 1) (length g) (S (Z.to_nat (zlen g + 1)))) as H.
    rewrite Hg in H. apply H; unfold zlen in *; lia.
  - unfold u32, zlen in *. rewrite Z.mod_small; lia.
Qed.
End Base128.

(** * ASN.1 elements *)

Section Elements.
Context `{alloc : Allocator}.

Lemma CBB_add_asn1_tag b id tag :
  tag_ok tag ->
  appends (CBB_flush id;;
    if 0x1f <=? Z.land tag CBS_ASN1_TAG_NUMBER_MASK then
      CBB_add_u8 id (Z.lor (Z.land (Z.shiftr tag CBS_ASN1_TAG_SHIFT) 0xe0) 0x1f);;
      add_base128_integer id (Z.land tag CBS_ASN1_TAG_NUMBER_MASK)
    else CBB_add_u8 id (Z.lor (Z.land (Z.shiftr tag CBS_ASN1_TAG_SHIFT) 0xe0)
                          (Z.land tag CBS_ASN1_TAG_NUMBER_MASK)))
    b id tt (Some (enc_tag tag)).
Proof.
  intros Htag. unfold tag_ok in Htag. apply appends_flush.
  assert (Hn : Z.land tag CBS_ASN1_TAG_NUMBER_MASK = tag_number tag) by exact (land_low tag 29 ltac:(done)).
  assert (Hb : Z.land (Z.shiftr tag CBS_ASN1_TAG_SHIFT) 0xe0 = Z.shiftl (tag / 2 ^ 29) 5).
  { change 0xe0 with (Z.shiftl 7 5). apply Z.bits_inj'. intros i Hi.
    rewrite Z.land_spec. destruct (Z.ltb_spec i 5).
    - rewrite !Z.shiftl_spec_low by done. apply andb_false_r.
    - rewrite Z.shiftr_spec, !Z.shiftl_spec by lia.
      rewrite <- (Z.shiftr_div_pow2 tag 29), Z.shiftr_spec by lia.
      unfold CBS_ASN1_TAG_SHIFT. replace (i - 5 + 29) with (i + 24) by lia.
      change 7 with (Z.ones 3). destruct (Z.ltb_spec (i - 5) 3).
      + rewrite Z.ones_spec_low by lia. apply andb_true_r.
      + rewrite Z.ones_spec_high, andb_false_r by lia. symmetry.
        destruct (Z.eq_dec tag 0) as [->|]; [apply Z.bits_0|].
        apply Z.bits_above_log2; [lia|]. apply Z.log2_lt_pow2; [lia|].
        eapply Z.lt_le_trans; [apply Htag|]. apply Z.pow_le_mono_r; lia. }
  rewrite Hn, Hb. clear Hn Hb. pose proof (tag_number_range tag) as Hr.
  assert (0 <= tag / 2 ^ 29 < 8) by (Z.div_mod_to_equations; lia).
  assert (Hlow : forall n, 0 <= n < 32 -> u8 (Z.lor (Z.shiftl (tag / 2 ^ 29) 5) n) = tag_bits tag + n).
  { intros n Hn. rewrite lor_shiftl by lia. unfold u8, tag_bits. apply Z.mod_small. lia. }
  unfold enc_tag. destruct (Z.leb_spec 0x1f (tag_number tag)); destruct (Z.ltb_spec (tag_number tag) 31); try lia.
  - change (Some (?a :: ?l)) with (p ← Some [a]; q ← Some l; Some (p ++ q)).
    eapply writes_bind; [|apply add_base128_integer_spec; lia].
    rewrite <- Hlow by lia. apply appends_writes, CBB_add_u8_spec.
  - rewrite <- Hlow by lia. apply appends_writes, CBB_add_u8_spec.
Qed.

Lemma CBB_add_asn1_spec b id child tag :
  tag_ok tag -> opens (CBB_add_asn1 id child tag) b id child (enc_tag tag) Asn1.
Proof.
  intros Htag s x ids ids2 fs f fs2 Hr Hl Hc Hni. unfold CBB_add_asn1.
  pose proof (opens_bind b id child Asn1 (fun b => CBB_add_u8 id 0) _ (enc_tag tag)
    (CBB_add_asn1_tag b id tag Htag) (appends_writes _ b id tt _ (CBB_add_u8_spec b id 0)) I
    s x ids ids2 fs f fs2 Hr Hl Hc Hni) as H. revert H. cbn [plen is_asn1]. cbv zeta.
  unfold wp, mbind, M_bind. by destruct (CBB_flush id s) as [? s1|?|].
Qed.

(** ** A child that lives for one call *)

Lemma wp_with_local {A} (k : nat -> M store A) Q E s :
  wp (k (s_next s)) (fun a s' => Q a (set_cbbs (delete (s_next s)) s'))
    (fun s' => E (set_cbbs (delete (s_next s)) s'))
    (mkStore (<[s_next s := None]> (s_cbbs s)) (s_bases s) (S (s_next s)) (s_heap s)) ->
  wp (with_local k) Q E s.
Proof. unfold wp, with_local. by destruct (k _ _). Qed.

Lemma rep_lt s b x ids fs j : rep s b x ids fs -> j ∈ ids -> (j < s_next s)%nat.
Proof.
  intros (_ & Hch & _ & Hfr & _) Hj. destruct (chain_dom _ _ _ _ _ _ _ Hch Hj) as (c & Hc & _).
  destruct (decide (s_next s <= j)%nat) as [Hle|]; [|lia]. cbn in Hc. by rewrite (Hfr j Hle) in Hc.
Qed.

Lemma rep_local s b x ids fs :
  rep s b x ids fs ->
  rep (mkStore (<[s_next s := None]> (s_cbbs s)) (s_bases s) (S (s_next s)) (s_heap s)) b x ids fs.
Proof.
  intros Hr. pose proof Hr as (Hnd & Hch & Hs & Hfr & Hx & Hb). split_and!; try done.
  - eapply chain_frame; [|exact Hch]. intros j Hj. cbn. rewrite lookup_insert_ne; [done|].
    pose proof (rep_lt _ _ _ _ _ _ Hr Hj). lia.
  - intros j Hj. cbn in *. rewrite lookup_insert_ne by lia. apply Hfr. lia.
Qed.

Lemma rep_delete s b x ids fs child :
  rep s b x ids fs -> child ∉ ids -> rep (set_cbbs (delete child) s) b x ids fs.
Proof.
  intros (Hnd & Hch & Hs & Hfr & Hx & Hb) Hc. split_and!; try done.
  - eapply chain_frame; [|exact Hch]. intros j Hj. cbn. rewrite lookup_delete_ne; [done|]. by intros ->.
  - intros j Hj. cbn in *. apply lookup_delete_None. right. by apply Hfr.
Qed.

Lemma frame_local b id ids2 s s' :
  fresh_ok s ->
  frame_ok b (id :: s_next s :: ids2)
    (mkStore (<[s_next s := None]> (s_cbbs s)) (s_bases s) (S (s_next s)) (s_heap s)) s' ->
  frame_ok b (id :: ids2) s (set_cbbs (delete (s_next s)) s').
Proof.
  intros Hfr (H1 & H2 & H3 & H4 & H5). cbn in *. split_and!; cbn.
  - intros j Hj. destruct (decide (j = s_next s)) as [->|Hne].
    + rewrite lookup_delete_eq. symmetry. by apply Hfr.
    + rewrite lookup_delete_ne by done. rewrite H1, lookup_insert_ne; [done|done|].
      rewrite !not_elem_of_cons in *. tauto.
  - intros j Hj. assert (j <> s_next s) by (intros ->; rewrite Hfr in Hj by done; by destruct Hj).
    rewrite lookup_delete_ne by done. apply H2. by rewrite lookup_insert_ne.
  - done.
  - lia.
  - intros _ j Hj. cbn in *. apply lookup_delete_None. right. apply H5; [|done].
    intros i Hi. cbn in *. rewrite lookup_insert_ne by lia. apply Hfr. lia.
Qed.

Lemma failed_local s s' b id f ids2 x out :
  fresh_ok s -> id <> s_next s ->
  failed (mkStore (<[s_next s := None]> (s_cbbs s)) (s_bases s) (S (s_next s)) (s_heap s)) s' b id f
    (id :: s_next s :: ids2) x out ->
  failed s (set_cbbs (delete (s_next s)) s') b id f (id :: ids2) x out.
Proof.
  intros Hfr Hne (He & (c & Hc & Hcb) & Hf & Hno). split_and!; [done| |by apply frame_local|done].
  exists c. split; [|done]. cbn. by rewrite lookup_delete_ne.
Qed.

(** One element: header, contents, and the flush that writes its length. *)
Lemma appends_element b id o k c (m1 m2 : nat -> M store unit) :
  inner_ok (mkFrame k []) ->
  (forall child, opens (m1 child) b id child o k) ->
  (forall child, writes (m2 child) b child tt (Some c)) ->
  appends (with_local (fun child => m1 child;; m2 child;; CBB_flush id)) b id tt
    (p ← prefix k (zlen c); Some (o ++ p ++ c)).
Proof.
  intros Hk Hm1 Hm2 s x ids ids2 fs f fs2 Hr Hl. apply wp_with_local. set (child := s_next s).
  pose proof Hr as (_ & _ & _ & Hfr & _).
  pose proof (rep_local _ _ _ _ _ Hr) as Hr0.
  assert (Hni : child ∉ ids ++ id :: ids2).
  { intros Hin. pose proof (rep_lt _ _ _ _ _ _ Hr Hin). unfold child in *. lia. }
  assert (Hne : id <> child) by (intros ->; apply Hni, elem_of_app; right; by left).
  assert (Hfl : forall s' (out out' : option (list frame)),
    failed (mkStore (<[s_next s := None]> (s_cbbs s)) (s_bases s) (S (s_next s)) (s_heap s)) s' b id f
      (id :: child :: ids2) x out ->
    (forall fs', out' = Some fs' -> exists fs0, out = Some fs0 /\ zlen (flat fs0) <= zlen (flat fs')) ->
    failed s (set_cbbs (delete child) s') b id f (id :: ids2) x out').
  { intros s' out out' Hf Hout. apply (failed_local s s' b id f ids2 x out Hfr Hne) in Hf.
    destruct Hf as (He & Ha & Hf & Hno). split_and!; [done..|]. intros fs' Hfs'.
    destruct (Hout fs' Hfs') as (fs0 & Hfs0 & Hle). eapply no_room_grown; [apply grown_refl|exact Hle|by apply Hno]. }
  set (final := bs ← close_frames fs2; _).
  assert (Hfin : forall fs', final = Some fs' -> exists bs p, close_frames fs2 = Some bs /\
    prefix k (zlen c) = Some p /\ plen k <= zlen p /\
    zlen (flat fs') = zlen (flat (fs ++ [extend f (bs ++ o)])) + zlen p + zlen c).
  { intros fs'. unfold final. destruct (close_frames fs2) as [bs|]; [cbn|done].
    destruct (prefix k (zlen c)) as [p|] eqn:Hp; [cbn|done]. intros [= <-]. exists bs, p.
    split_and!; [done|done|by eapply plen_prefix|]. rewrite !zlen_flat_snoc, !zlen_app. lia. }
  apply wp_bind. wp_call (Hm1 child); [exact Hr0|done|cbn; rewrite lookup_insert_eq; by eexists|exact Hni| |].
  2: { intros s1 Hf1. eapply Hfl; [exact Hf1|]. intros fs' Hfs'.
       destruct (Hfin fs' Hfs') as (bs & p & Hcl & _ & Hpl & Hz). rewrite Hcl. eexists. split; [done|].
       rewrite <- flat_open, zlen_flat_snoc. pose proof (zlen_nonneg c).
       rewrite zlen_zrep by (destruct k; cbn in *; lia). lia. }
  intros _ s1 (bs & x1 & Hcl & Hr1 & Hg1 & Hf1). apply wp_bind.
  change [id; child] with ([id] ++ [child]) in Hr1. rewrite app_assoc in Hr1.
  change [extend f (bs ++ o); mkFrame k []] with ([extend f (bs ++ o)] ++ [mkFrame k []]) in Hr1.
  rewrite app_assoc in Hr1.
  assert (Hl1 : length (ids ++ [id]) = length (fs ++ [extend f (bs ++ o)])) by (rewrite !length_app, Hl; done).
  wp_call (Hm2 child); [exact Hr1|exact Hl1| |].
  2: { intros s2 (He & _ & Hf2 & Hno).
       apply (Hfl s2 (Some ((fs ++ [extend f (bs ++ o)]) ++ [extend (mkFrame k []) c]))).
       - split_and!; [done| | |].
         + rewrite <- !app_assoc in Hr1. destruct (rep_alive_at _ _ _ _ _ _ _ _ _ Hr1 Hl) as (cc & Hcc & Hcb).
           exists cc. split; [|done]. rewrite <- Hcc. apply Hf2.
           apply not_elem_of_cons; split; [done|apply not_elem_of_nil].
         + eapply frame_trans; [exact Hf1|]. eapply frame_weaken; [|exact Hf2]. ids_in.
         + intros fs' [= <-]. eapply no_room_grown; [exact Hg1|reflexivity|by apply Hno].
       - intros fs' Hfs'. destruct (Hfin fs' Hfs') as (bs' & p & Hcl' & _ & Hpl & Hz).
         rewrite Hcl in Hcl'. injection Hcl' as <-. eexists. split; [done|].
         rewrite zlen_flat_snoc, flat_app, zlen_app. cbn. rewrite app_nil_r.
         rewrite zlen_zrep by (destruct k; cbn in *; lia). lia. }
  intros _ s2 (c' & x2 & [= <-] & _ & Hr2 & Hg2 & Hf2).
  rewrite <- !app_assoc in Hr2. cbn [app] in Hr2.
  wp_call (CBB_flush_spec b id); [exact Hr2|exact Hl| |].
  - intros ? s3 (bs3 & o3 & x3 & Hcl3 & [= <-] & -> & Hr3 & Hg3 & Hf3).
    cbn in Hcl3. rewrite app_nil_r in Hcl3. destruct (prefix k (zlen c)) as [p|] eqn:Hp; [cbn in Hcl3|done].
    injection Hcl3 as <-. exists bs, (o ++ p ++ c), x3. rewrite app_nil_r, extend_extend in Hr3.
    split_and!; [done|done|done| |eapply grown_trans; [exact Hg1|by eapply grown_trans]|].
    + rewrite <- app_assoc in Hr3. apply rep_delete; [done|].
      intros Hin. apply Hni. rewrite elem_of_app in *. rewrite list_elem_of_singleton in Hin. ids_in.
    + apply frame_local; [done|]. eapply frame_trans; [exact Hf1|].
      eapply frame_trans; [eapply frame_weaken; [|exact Hf2]; ids_in|].
      eapply frame_weaken; [|exact Hf3]. ids_in.
  - intros s3 (He & Ha & Hf3 & Hno).
    apply (Hfl s3 (bs0 ← close_frames [mkFrame k c]; Some (fs ++ [extend (extend f (bs ++ o)) (bs0 ++ [])]))).
    + split_and!; [done|done| |].
      * eapply frame_trans; [exact Hf1|]. eapply frame_trans; [eapply frame_weaken; [|exact Hf2]; ids_in|].
        eapply frame_weaken; [|exact Hf3]. ids_in.
      * intros fs' Hfs'. eapply no_room_grown; [eapply grown_trans; [exact Hg1|exact Hg2]|reflexivity|].
        apply Hno. rewrite <- Hfs'. done.
    + intros fs' Hfs'. destruct (Hfin fs' Hfs') as (bs' & p & Hcl' & Hp & Hpl & Hz).
      rewrite Hcl in Hcl'. injection Hcl' as <-. cbn. rewrite app_nil_r, Hp. cbn. eexists. split; [done|].
      rewrite app_nil_r, zlen_flat_snoc, zlen_app. lia.
Qed.
End Elements.

(** * INTEGER, OCTET STRING and BOOLEAN *)

(** The shortest INTEGER contents with the octets [l], if any is not zero. *)
Fixpoint strip_zeros (l : list Z) : list Z :=
  match l with
  | [] => []
  | b :: l => if b =? 0 then strip_zeros l else if 128 <=? b then 0 :: b :: l else b :: l
  end.
Definition nonzero (l : list Z) : bool := existsb (fun b => negb (b =? 0)) l.

Lemma strip_zeros_spec l :
  bytes l -> be_val l < 2 ^ 64 ->
  strip_zeros l ++ (if nonzero l then [] else [0]) = enc_uint64 (be_val l).
Proof.
  unfold nonzero. induction l as [|b l IH]; intros Hb Hv; [done|].
  pose proof Hb as [Hbb Hbl]%bytes_cons. unfold is_byte in Hbb. cbn [strip_zeros existsb].
  destruct (Z.eqb_spec b 0) as [->|Hb0]; cbn [negb orb].
  - rewrite be_val_cons in *. rewrite Z.mul_0_l, Z.add_0_l in *. by apply IH.
  - rewrite app_nil_r. destruct (Z.leb_spec 128 b).
    + assert (He : be_val (b :: l) = be_val (0 :: b :: l)) by (rewrite (be_val_cons 0); lia).
      rewrite He in *. symmetry. apply enc_uint64_unique; [|done| |done].
      * by apply bytes_cons.
      * intros _. right. by exists b, l.
    + symmetry. by apply enc_uint64_unique.
Qed.

Section Contents.
Context `{alloc : Allocator}.

Lemma appends_ext {A} (m m' : M store A) b id a o :
  (forall s, m s = m' s) -> appends m b id a o -> appends m' b id a o.
Proof.
  intros He Hm s x ids ids2 fs f fs2 Hr Hl. specialize (Hm s x ids ids2 fs f fs2 Hr Hl).
  unfold wp in *. by rewrite <- He.
Qed.

Lemma appends_out {A} (m : M store A) b id a o o' : o = o' -> appends m b id a o -> appends m b id a o'.
Proof. by intros ->. Qed.
Lemma writes_out {A} (m : M store A) b id a o o' : o = o' -> writes m b id a o -> writes m b id a o'.
Proof. by intros ->. Qed.

Lemma with_local_ext {A} (k k' : nat -> M store A) s :
  (forall id s, k id s = k' id s) -> with_local k s = with_local k' s.
Proof. intros He. unfold with_local. by rewrite He. Qed.

Lemma assoc_eq {S A B C} (m : M S A) (k : A -> M S B) (h : B -> M S C) s :
  ((m ≫= k) ≫= h) s = (m ≫= fun a => k a ≫= h) s.
Proof. unfold mbind, M_bind. by destruct (m s). Qed.

Lemma bind_ext {S A B} (m : M S A) (k k' : A -> M S B) s :
  (forall a s, k a s = k' a s) -> (m ≫= k) s = (m ≫= k') s.
Proof. intros He. unfold mbind, M_bind. by destruct (m s). Qed.

Lemma bool_spec b id value :
  0 <= value -> writes (CBB_add_u8 id (if negb (value =? 0) then 0xff else 0)) b id tt
    (Some [if negb (value =? 0) then 0xff else 0]).
Proof.
  intros Hv. eapply writes_out; [|apply appends_writes, CBB_add_u8_spec].
  by destruct (negb (value =? 0)).
Qed.

Lemma uint64_bytes_loop b child v n : forall started,
  0 <= v -> (n <= 8)%nat ->
  writes (for_ (8 - Z.of_nat n) n (fun i started =>
      let byte := Z.land (Z.shiftr v (8 * (7 - i))) 0xff in
      if negb started && (byte =? 0) then mret started else
      (if negb started && negb (Z.land byte 0x80 =? 0) then CBB_add_u8 child 0 else mret tt);;
      CBB_add_u8 child byte;;
      mret true) started) b child (started || nonzero (be n v))
    (Some (if started : bool then be n v else strip_zeros (be n v))).
Proof.
  induction n as [|n IH]; intros started Hv Hn; cbn [for_].
  - cbn. rewrite orb_false_r. destruct started; apply writes_ret.
  - rewrite be_cons by done. set (w := (v / 256 ^ Z.of_nat n) mod 256).
    assert (Hw : is_byte w) by apply is_byte_mod.
    assert (Hbyte : Z.land (Z.shiftr v (8 * (7 - (8 - Z.of_nat (S n))))) 0xff = w).
    { rewrite (land_low _ 8) by done. rewrite Z.shiftr_div_pow2 by lia. unfold w.
      replace (8 * (7 - (8 - Z.of_nat (S n)))) with (8 * Z.of_nat n) by lia.
      by rewrite Z.pow_mul_r by lia. }
    rewrite Hbyte. cbv zeta. rewrite land_0x80 by done.
    replace (8 - Z.of_nat (S n) + 1) with (8 - Z.of_nat n) by lia.
    assert (Hu8 : u8 w = w) by (unfold u8; apply Z.mod_small; exact Hw).
    (* the byte is written, with or without a zero in front of it *)
    assert (Htail : forall z (pad : M store unit), writes pad b child tt (Some z) ->
      writes (y ← (pad;; CBB_add_u8 child w;; mret true);
              for_ (8 - Z.of_nat n) n (fun i started =>
                let byte := Z.land (Z.shiftr v (8 * (7 - i))) 0xff in
                if negb started && (byte =? 0) then mret started else
                (if negb started && negb (Z.land byte 0x80 =? 0) then CBB_add_u8 child 0 else mret tt);;
                CBB_add_u8 child byte;;
                mret true) y) b child true (Some (z ++ w :: be n v))).
    { intros z pad Hpad. eapply writes_out; [|eapply writes_bind].
      3: { apply (IH true Hv). lia. }
      2: { eapply writes_bind; [exact Hpad|].
           eapply writes_bind; [apply appends_writes, CBB_add_u8_spec|apply writes_ret]. }
      cbn. by rewrite Hu8, <- app_assoc. }
    destruct started; cbn [negb andb orb].
    + apply (Htail [] (mret tt)), writes_ret.
    + unfold nonzero. cbn [strip_zeros existsb]. destruct (Z.eqb_spec w 0) as [Hw0|Hw0]; cbn [negb orb].
      * eapply writes_out; [|eapply writes_bind; [apply writes_ret|apply (IH false Hv); lia]]. done.
      * destruct (Z.ltb_spec w 128); cbn [negb].
        -- rewrite (proj2 (Z.leb_gt _ _)) by done. apply (Htail [] (mret tt)), writes_ret.
        -- rewrite (proj2 (Z.leb_le _ _)) by done. apply (Htail [0]).
           apply appends_writes, CBB_add_u8_spec.
Qed.

Lemma uint64_contents_spec b child v :
  0 <= v < 2 ^ 64 ->
  writes (started ← for_ 0 8 (fun i started =>
            let byte := Z.land (Z.shiftr v (8 * (7 - i))) 0xff in
            if negb started && (byte =? 0) then mret started else
            (if negb started && negb (Z.land byte 0x80 =? 0) then CBB_add_u8 child 0 else mret tt);;
            CBB_add_u8 child byte;;
            mret true) false;
          if negb started then CBB_add_u8 child 0 else mret tt) b child tt (Some (enc_uint64 v)).
Proof.
  intros Hv. assert (Hval : be_val (be 8 v) = v) by by apply be_val_be.
  pose proof (strip_zeros_spec (be 8 v) (bytes_be 8 v) ltac:(lia)) as Hs. rewrite Hval in Hs.
  eapply writes_out; [|apply (writes_bind _ _ b child _ tt _ (Some (if nonzero (be 8 v) then [] else [0]))
    (uint64_bytes_loop b child v 8 false ltac:(lia) ltac:(lia)))].
  2: { cbn [orb]. destruct (nonzero (be 8 v)); cbn [negb].
       - apply writes_ret.
       - apply appends_writes, CBB_add_u8_spec. }
  rewrite <- Hs. by destruct (nonzero (be 8 v)).
Qed.

(** Contents that fit in a length. *)
Lemma der_out tag c : (p ← prefix Asn1 (zlen c); Some (enc_tag tag ++ p ++ c)) =
  if zlen c <=? 0xfffffffe then Some (der tag c) else None.
Proof.
  cbn. destruct (_ <=? _); [|done]. cbn. unfold der, der_header. by rewrite <- app_assoc.
Qed.

Lemma appends_der b id tag c (m : nat -> M store unit) :
  tag_ok tag -> (forall child, writes (m child) b child tt (Some c)) ->
  appends (with_local (fun child => CBB_add_asn1 id child tag;; m child;; CBB_flush id)) b id tt
    (if zlen c <=? 0xfffffffe then Some (der tag c) else None).
Proof.
  intros Htag Hm. rewrite <- der_out. apply appends_element; [done|intros; by apply CBB_add_asn1_spec|done].
Qed.

Lemma CBB_add_asn1_uint64_spec b id v :
  0 <= v < 2 ^ 64 -> appends (CBB_add_asn1_uint64 id v) b id tt (Some (der CBS_ASN1_INTEGER (enc_uint64 v))).
Proof.
  intros Hv. assert (Hlen : zlen (enc_uint64 v) <= 9).
  { destruct (enc_uint64_spec v Hv) as (c & l & -> & _ & _ & _ & _ & Hl). rewrite zlen_cons. lia. }
  eapply appends_ext; [|eapply appends_out; [|apply (appends_der b id CBS_ASN1_INTEGER (enc_uint64 v));
    [done|intros child; by apply uint64_contents_spec]]].
  - intros s. apply with_local_ext. intros child s1. apply bind_ext. intros [] s2. apply assoc_eq.
  - by rewrite (proj2 (Z.leb_le _ _)) by lia.
Qed.

Lemma CBB_add_asn1_octet_string_spec b id data len bs :
  ptr_read data len = Some bs -> len <= 2 ^ 62 ->
  appends (CBB_add_asn1_octet_string id data len) b id tt
    (if zlen bs <=? 0xfffffffe then Some (der CBS_ASN1_OCTETSTRING bs) else None).
Proof.
  intros Hbs Hle. apply appends_der; [done|]. intros child. by apply appends_writes, CBB_add_bytes_spec.
Qed.

Lemma CBB_add_asn1_bool_spec b id value :
  0 <= value ->
  appends (CBB_add_asn1_bool id value) b id tt
    (Some (der CBS_ASN1_BOOLEAN [if negb (value =? 0) then 0xff else 0])).
Proof.
  intros Hv. set (v := if negb (value =? 0) then 0xff else 0).
  apply (appends_out _ _ _ _ (if zlen [v] <=? 0xfffffffe then Some (der CBS_ASN1_BOOLEAN [v]) else None)); [done|].
  apply (appends_der b id CBS_ASN1_BOOLEAN [v] (fun child => CBB_add_u8 child v)); [done|].
  intros child. by apply bool_spec.
Qed.
End Contents.
