(* ===== verification/CbbThms.v ===== *)
(** The theorems about the builder: its life cycle ([CBB_init], [CBB_finish]),
    the sticky error, discarding a child, direct access to the buffer, and the
    round trips with the parser. *)
From S2P Require Import Prelude Mem Buf MemFacts Cbs Der CbsFacts Cbb CbbSpec CbbFacts CbbOps.

Section LifeCycle.
Context `{alloc : Allocator}.

(** A new builder: [cap] is only a hint. *)
Lemma CBB_init_spec id cap s :
  is_Some (s_cbbs s !! id) -> fresh_ok s -> 0 <= cap <= 2 ^ 62 ->
  wp (CBB_init id cap)
    (fun _ s' => exists x, rep s' (s_next s) x [id] [mkFrame Top []] /\ b_can_resize x = true)
    (fun s' => s_cbbs s' !! id = Some (Some zero_CBB) /\
       exists n size, size <= cap + 40 /\ malloc_ok n size = false) s.
Proof.
  intros [o Ho] Hfr Hcap. unfold CBB_init, CBB_zero, cbb_init, in_heap. wp_go.
  eapply wp_put_cbb; [exact Ho|]. wp_go. wp_call OPENSSL_malloc_spec; [lia| |done].
  intros buf h Hbuf. destruct ((0 <? cap) && bool_decide (buf = None)) eqn:Hnull.
  { apply wp_fail. destruct buf; [by rewrite andb_false_r in Hnull|].
    destruct Hbuf as (n & Hn). split; [cbn; by rewrite lookup_insert_eq|].
    exists n, (cap + 8). split; [lia|done]. }
  unfold in_heap. wp_go. cbn [s_heap]. wp_call OPENSSL_malloc_spec; [done| |done].
  intros [p|] h'. 2: { intros (n & Hn). apply wp_fail. split; [cbn; by rewrite lookup_insert_eq|].
                       exists n, (sizeof_cbb_buffer_st + 8). unfold sizeof_cbb_buffer_st. split; [lia|done]. }
  intros _. wp_go. eapply wp_get_cbb; [cbn; by rewrite lookup_insert_eq|].
  cbn [c_base c_child c_offset c_pending_len_len c_pending_is_asn1 c_is_top_level zero_CBB].
  eapply wp_put_cbb; [cbn; by rewrite lookup_insert_eq|]. exists (mkBase buf 0 cap true false). split; [|done].
  assert (Hlt : (id < s_next s)%nat).
  { destruct (decide (s_next s <= id)%nat) as [Hle|]; [|lia]. by rewrite (Hfr id Hle) in Ho. }
  split_and!; cbn; try done.
  - apply NoDup_singleton.
  - by rewrite lookup_insert_eq.
  - intros j Hj. cbn in *. rewrite !lookup_insert_ne by lia. apply Hfr. lia.
  - by rewrite lookup_insert_eq.
  - destruct buf as [l|]; cbn in *.
    + destruct Hbuf as (<- & _ & Hlim). split_and!; [done|cbn; unfold cap_max; lia|done|done|by exists l].
    + rewrite andb_true_r in Hnull.
      assert (cap = 0) as -> by lia.
      split_and!; [done|cbn; unfold cap_max; lia|done|done|by exists []].
Qed.

(** The finished string is what the frames close to. *)
Lemma CBB_finish_spec b id ids f fs x s data_null len_null :
  rep s b x (id :: ids) (f :: fs) ->
  wp (CBB_finish id data_null len_null)
    (fun '(buf, len) s' => exists bs spare, close_frames fs = Some bs /\
       block_bytes buf = (f_body f ++ bs) ++ spare /\ len = zlen (f_body f ++ bs) /\
       s_bases s' !! b = None)
    (fun s' => (b_can_resize x && (data_null || len_null) = true) \/
       failed s s' b id f (id :: ids) x (bs ← close_frames fs; Some [extend f bs])) s.
Proof.
  intros Hr. pose proof Hr as (_ & [Hid _] & [Htop _] & _). rewrite Htop in Hid. cbn in Hid.
  unfold CBB_finish. wp_go. eapply wp_get_cbb; [exact Hid|]. cbn [c_is_top_level negb].
  wp_go. wp_call (CBB_flush_spec b id s x [] ids [] f fs); [exact Hr|done| |].
  2: { intros s' (He & Ha & Hf & Hno). right. split_and!; [done..|].
       intros fs' Hfs'. apply Hno. destruct (close_frames fs); [cbn in *|done]. by rewrite app_nil_r. }
  intros ? s1 (bs & ? & x1 & Hcl & [= <-] & -> & Hr1 & [Hg _] & _). rewrite app_nil_r in Hr1. cbn [app] in Hr1.
  unfold base_of. pose proof (rep_last _ _ _ [] _ [] _ Hr1 eq_refl) as Hid1.
  wp_go. eapply wp_get_cbb; [exact Hid1|]. cbn [c_base deref]. wp_go.
  eapply wp_get_base; [by eapply rep_base|]. rewrite Hg.
  destruct (b_can_resize x && (data_null || len_null)); [by left|].
  wp_go. eapply wp_put_base; [by eapply rep_base|]. unfold CBB_cleanup. wp_go.
  eapply wp_get_cbb; [exact Hid1|].
  cbn [c_base c_child c_offset c_pending_len_len c_pending_is_asn1 c_is_top_level extend f_kind].
  rewrite Htop. wp_go. apply wp_assert; [done|]. wp_go. eapply wp_get_base; [apply upd_lookup|]. wp_go.
  eapply wp_put_cbb; [exact Hid1|]. wp_go. exists bs.
  pose proof (rep_buf _ _ _ _ _ Hr1) as (_ & _ & _ & Hlen & spare & Hbuf).
  cbn in Hlen, Hbuf. rewrite Htop, app_nil_r in Hlen, Hbuf. exists spare.
  split_and!; [done..|]. cbn. apply lookup_delete_eq.
Qed.

(** Discarding the child drops everything written since it was opened. *)
Lemma CBB_discard_child_spec b id x s ids ids2 fs f f2 fs2 :
  rep s b x (ids ++ id :: ids2) (fs ++ f :: f2 :: fs2) -> length ids = length fs ->
  wp (CBB_discard_child id)
    (fun _ s' => exists x', rep s' b x' (ids ++ [id]) (fs ++ [f]) /\ grown x x' /\
       frame_ok b (id :: ids2) s s')
    (fun _ => False) s.
Proof.
  intros (Hnd & Hch & Hs & Hfr & Hx & Hb) Hl. pose proof (shape_prefix _ _ _ Hs) as Hpl.
  pose proof (shape_app _ _ _ Hs) as (Hs' & Hin & Hpf).
  apply chain_app in Hch as [Hout [Hid Hch]]; [|done..].
  destruct ids2 as [|id2 ids2]; [done|]. destruct Hch as [Hid2 _]. cbn [head_or] in Hid, Hid2.
  apply NoDup_app in Hnd as (Hnd1 & Hd & Hnd2).
  assert (Hne : id2 <> id) by (intros ->; apply NoDup_cons in Hnd2 as [Hn _]; apply Hn; by left).
  unfold CBB_discard_child. wp_go. eapply wp_get_cbb; [exact Hid|].
  cbn [c_base c_child deref]. wp_go. eapply wp_get_cbb; [exact Hid2|]. wp_go.
  eapply wp_get_base; [exact Hx|]. wp_go. eapply wp_put_base; [exact Hx|]. wp_go.
  eapply wp_put_cbb; [exact Hid2|]. wp_go.
  eapply wp_get_cbb; [cbn; rewrite lookup_insert_ne by done; exact Hid|].
  cbn [c_base c_child c_offset c_pending_len_len c_pending_is_asn1 c_is_top_level].
  eapply wp_put_cbb; [cbn; rewrite lookup_insert_ne by done; exact Hid|].
  unfold plen_ok in Hpf. rewrite Z.add_0_l.
  assert (Hoff : zlen (flat fs) + plen (f_kind f) + zlen (f_body f) = zlen (flat (fs ++ [f]))).
  { rewrite flat_app, !zlen_app. cbn [flat]. rewrite !zlen_app, zlen_zrep, zlen_nil by done. lia. }
  eexists. split; [split_and!|split].
  - apply NoDup_app. split_and!; [done| |apply NoDup_singleton].
    intros j Hj ->%list_elem_of_singleton. apply (Hd id Hj). by left.
  - apply chain_app; [done|done|]. split.
    + eapply chain_frame; [|exact Hout]. intros j Hj. cbn. rewrite !lookup_insert_ne; [done| |].
      * intros ->. apply (Hd j Hj). right. by left.
      * intros ->. apply (Hd j Hj). by left.
    + cbn. rewrite lookup_insert_eq. done.
  - done.
  - intros j Hj. cbn in *. pose proof (Hfr j Hj) as Hn.
    rewrite !lookup_insert_ne; [done| |]; intros ->; [by rewrite Hid2 in Hn|by rewrite Hid in Hn].
  - apply upd_lookup.
  - destruct Hb as (He & Hm & Hc & Hlen & spare & Hbuf).
    unfold buf_is, base_with. cbn [b_error b_cap b_buf b_len]. split_and!; [done..|].
    exists (flat (f2 :: fs2) ++ spare). rewrite Hbuf. change (f :: f2 :: fs2) with ([f] ++ f2 :: fs2).
    by rewrite !(app_assoc fs), (flat_app (fs ++ [f])), <- !app_assoc.
  - split; [done|cbn; lia].
  - eapply frame_trans; [apply frame_upd|].
    eapply frame_trans; apply frame_put; cbn.
    + by rewrite Hid2.
    + ids_in.
    + rewrite lookup_insert_ne by done. by rewrite Hid.
    + ids_in.
Qed.

(** * Direct access *)

(** What [CBB_data] points to starts with the frame's bytes, [CBB_len] of them. *)
Lemma CBB_data_spec b id x s ids fs f :
  rep s b x (ids ++ [id]) (fs ++ [f]) -> length ids = length fs ->
  wp (CBB_data id) (fun p s' => s' = s /\ exists t, ptr_bytes p = f_body f ++ t) (fun _ => False) s.
Proof.
  intros Hr Hl. pose proof (rep_last _ _ _ _ _ _ _ Hr Hl) as Hid.
  pose proof (rep_buf _ _ _ _ _ Hr) as Hb. pose proof (rep_base _ _ _ _ _ Hr) as Hx.
  destruct Hb as (_ & _ & Hc & Hbl & spare & Hbuf).
  pose proof Hr as (_ & _ & Hs & _). apply shape_app in Hs as (_ & _ & Hpf). unfold plen_ok in Hpf.
  rewrite flat_app in Hbuf. cbn [flat] in Hbuf. rewrite app_nil_r in Hbuf.
  pose proof (zlen_nonneg (flat fs)) as H1. pose proof (zlen_nonneg (f_body f)) as H2. pose proof (zlen_nonneg spare) as H3.
  unfold CBB_data. apply wp_bind. eapply wp_get_cbb; [exact Hid|].
  cbn [c_base c_child c_offset c_pending_len_len]. apply wp_bind, wp_assert; [done|].
  apply wp_bind. eapply wp_deref; [done|]. apply wp_bind. eapply wp_get_base; [exact Hx|].
  destruct (b_buf x) as [l|]; cbn [block_bytes] in Hbuf.
  - rewrite Hbuf. eapply wp_deref.
    + unfold ptr_add. rewrite !zlen_app, zlen_zrep by done.
      rewrite (proj2 (Z.leb_le 0 _)), (proj2 (Z.leb_le _ (_ + _))) by lia. done.
    + split; [done|]. exists spare. cbn [ptr_bytes].
      replace ((flat fs ++ zrep (plen (f_kind f)) 0 ++ f_body f) ++ spare)
        with ((flat fs ++ zrep (plen (f_kind f)) 0) ++ f_body f ++ spare) by by rewrite <- !app_assoc.
      apply zdrop_app. rewrite zlen_app, zlen_zrep; lia.
  - apply (f_equal zlen) in Hbuf. rewrite !zlen_app, zlen_zrep in Hbuf by done. change (zlen []) with 0 in Hbuf.
    assert (zlen (flat fs) + plen (f_kind f) = 0) as -> by lia. eapply wp_deref; [done|].
    split; [done|]. exists []. cbn. rewrite app_nil_r. symmetry. apply zlen_0. lia.
Qed.

Lemma CBB_len_spec b id x s ids fs f :
  rep s b x (ids ++ [id]) (fs ++ [f]) -> length ids = length fs ->
  wp (CBB_len id) (fun n s' => s' = s /\ n = zlen (f_body f)) (fun _ => False) s.
Proof.
  intros Hr Hl. pose proof (rep_last _ _ _ _ _ _ _ Hr Hl) as Hid.
  pose proof (rep_buf _ _ _ _ _ Hr) as Hb. pose proof (rep_base _ _ _ _ _ Hr) as Hx.
  pose proof (buf_is_len _ _ Hb) as [Hlen Hmax]. destruct Hb as (_ & _ & _ & Hbl & _).
  pose proof Hr as (_ & _ & Hs & _). apply shape_app in Hs as (_ & _ & Hpf). unfold plen_ok in Hpf.
  assert (Hz : zlen (flat (fs ++ [f])) = zlen (flat fs) + plen (f_kind f) + zlen (f_body f)).
  { rewrite flat_app, zlen_app. cbn [flat]. rewrite !zlen_app, zlen_zrep, zlen_nil by done. lia. }
  pose proof (zlen_nonneg (flat fs)). pose proof (zlen_nonneg (f_body f)). unfold cap_max in Hmax.
  unfold CBB_len. apply wp_bind. eapply wp_get_cbb; [exact Hid|].
  cbn [c_base c_child c_offset c_pending_len_len]. apply wp_bind, wp_assert; [done|].
  apply wp_bind. eapply wp_deref; [done|]. apply wp_bind. eapply wp_get_base; [exact Hx|].
  assert (Hu : u64 (zlen (flat fs) + plen (f_kind f)) = zlen (flat fs) + plen (f_kind f))
    by (unfold u64; apply Z.mod_small; lia).
  rewrite Hu, Hbl, Hz. apply wp_bind, wp_assert; [lia|]. apply wp_ret. split; [done|].
  unfold u64. rewrite Z.mod_small; lia.
Qed.

(** Room reserved with [CBB_reserve] and claimed with [CBB_did_write]: [n] bytes,
    whatever was stored there, join the frame. *)
Lemma CBB_reserve_did_write b id x s ids ids2 fs f fs2 n m :
  rep s b x (ids ++ id :: ids2) (fs ++ f :: fs2) -> length ids = length fs ->
  0 <= m <= n -> n <= 2 ^ 62 ->
  wp (CBB_reserve id n;; CBB_did_write id m)
    (fun _ s' => exists bs o x', close_frames fs2 = Some bs /\ zlen o = m /\
       rep s' b x' (ids ++ [id]) (fs ++ [extend f (bs ++ o)]) /\ grown x x')
    (fun s' => errored s' b) s.
Proof.
  intros Hr Hl Hm Hn. unfold CBB_reserve. wp_go.
  wp_call (CBB_flush_spec b id); [exact Hr|done| |by intros s' [He _]].
  intros ? s1 (bs & ? & x1 & Hcl & [= <-] & -> & Hr1 & Hg1 & _). rewrite app_nil_r in Hr1. wp_go.
  eapply wp_get_cbb; [by eapply rep_last|]. cbn [c_base].
  wp_call cbb_buffer_reserve_spec; [by eapply rep_base|by eapply rep_buf|lia| |].
  2: { intros s2 (x2 & h & -> & He & _). by apply errored_upd. }
  intros ? s2 (x2 & h & -> & -> & Hb2 & Hg2 & Hroom). unfold CBB_did_write. wp_go.
  eapply wp_get_cbb; [exact (rep_last _ _ _ _ _ _ _ Hr1 Hl)|]. cbn [c_base c_child deref]. wp_go.
  eapply wp_get_base; [apply upd_lookup|].
  pose proof (buf_is_len _ _ Hb2) as [Hlen Hmax]. unfold cap_max in Hmax.
  pose proof Hb2 as (_ & _ & _ & -> & _).
  assert (Hu : u64 (zlen (flat (fs ++ [extend f bs])) + m) = zlen (flat (fs ++ [extend f bs])) + m)
    by (unfold u64; apply Z.mod_small; lia).
  rewrite Hu, bool_decide_eq_false_2 by auto.
  rewrite (proj2 (Z.ltb_ge _ (zlen _))), (proj2 (Z.ltb_ge (b_cap x2) _)) by lia. cbn [orb].
  eapply wp_put_base; [apply upd_lookup|]. rewrite upd_upd.
  destruct (buf_is_extend x2 _ m Hb2) as (o & Ho & Hb3); [lia|lia|].
  exists bs, o. eexists. split_and!; [done|done| |].
  - rewrite <- extend_extend. eapply rep_write; [exact Hr1|done|].
    pose proof Hb2 as (_ & _ & _ & Hbl & _). rewrite Hbl in Hb3. exact Hb3.
  - eapply grown_trans; [exact Hg1|]. eapply grown_trans; [exact Hg2|]. split; [done|cbn; lia].
Qed.
End LifeCycle.

(** * The sticky error *)

(** A CBB that is of no more use: it was closed by a flush or a discard of its
    parent, or its buffer has met an error. *)
Definition dead (s : store) (id : nat) : Prop :=
  exists c, s_cbbs s !! id = Some (Some c) /\
    match c_base c with None => True | Some b => errored s b end.

Section Sticky.
Context `{alloc : Allocator}.

Lemma CBB_flush_dead s id : dead s id -> CBB_flush id s = Fail s.
Proof.
  intros (c & Hc & Hd). unfold CBB_flush, get, mbind, M_bind. cbn [CBB_flush_fuel].
  unfold get_cbb, get, mbind, M_bind. rewrite Hc. cbn. destruct (c_base c) as [b|]; [|done].
  destruct Hd as (x & Hx & He). unfold get_base, get, mbind, M_bind. rewrite Hx. cbn. by rewrite He.
Qed.

(** An operation that starts with the flush. *)
Lemma flush_first {A} s id (k : unit -> M store A) : dead s id -> (CBB_flush id ≫= k) s = Fail s.
Proof. intros H. unfold mbind, M_bind. by rewrite CBB_flush_dead. Qed.

(** An operation with a local CBB of its own leaves only its address behind. *)
Lemma local_first {A} s id (k : nat -> unit -> M store A) :
  dead s id -> fresh_ok s ->
  with_local (fun child => CBB_flush id ≫= k child) s =
    Fail (mkStore (s_cbbs s) (s_bases s) (S (s_next s)) (s_heap s)).
Proof.
  intros Hd Hf. unfold with_local. rewrite flush_first.
  - unfold set_cbbs. cbn [s_cbbs s_bases s_next s_heap]. by rewrite delete_insert_id by by apply Hf.
  - destruct Hd as (c & Hc & Hb). exists c. split; [|exact Hb]. cbn [s_cbbs]. rewrite lookup_insert_ne; [done|].
    intros <-. by rewrite Hf in Hc.
Qed.

(** The two operations that do not look at the error. *)
Lemma did_write_runs s id c b x n :
  s_cbbs s !! id = Some (Some c) -> c_base c = Some b -> s_bases s !! b = Some x -> c_child c = None ->
  0 <= n -> 0 <= b_len x -> b_len x + n <= b_cap x < 2 ^ 64 ->
  CBB_did_write id n s = Ok tt (set_bases <[b := base_with x (b_buf x) (b_len x + n) (b_cap x)]> s).
Proof.
  intros Hc Hb Hx Hch Hn Hl Hcap.
  assert (u64 (b_len x + n) = b_len x + n) as Hu by (unfold u64; apply Z.mod_small; lia).
  unfold CBB_did_write, get_cbb, get_base, put_base, get, mbind, M_bind. rewrite Hc. cbn. rewrite Hb. cbn.
  rewrite Hx, Hch. cbn. rewrite Hu. rewrite (proj2 (Z.ltb_ge _ _)), (proj2 (Z.ltb_ge _ _)) by lia. cbn. by rewrite Hx.
Qed.

Lemma discard_child_runs s id c b x i ch :
  dead s id -> s_cbbs s !! id = Some (Some c) -> c_base c = Some b -> s_bases s !! b = Some x ->
  c_child c = Some i -> i <> id -> s_cbbs s !! i = Some (Some ch) ->
  exists s', CBB_discard_child id s = Ok tt s' /\
    s_bases s' = <[b := base_with x (b_buf x) (c_offset ch) (b_cap x)]> (s_bases s) /\
    s_cbbs s' !! id = Some (Some (mkCBB (Some b) None (c_offset c) (c_pending_len_len c)
                                    (c_pending_is_asn1 c) (c_is_top_level c))) /\ dead s' id.
Proof.
  intros (c0 & Hc0 & Hd) Hc Hb Hx Hch Hne Hi. rewrite Hc in Hc0. injection Hc0 as <-.
  rewrite Hb in Hd. destruct Hd as (y & Hy & He). rewrite Hx in Hy. injection Hy as <-.
  unfold CBB_discard_child, get_cbb, put_cbb, get_base, put_base, get, mbind, M_bind. rewrite Hc. cbn. rewrite Hch, Hb. cbn.
  rewrite Hi. cbn. rewrite Hx. cbn. rewrite Hx. cbn. rewrite Hi. cbn. rewrite lookup_insert_ne, Hc by done. cbn.
  rewrite lookup_insert_ne, Hc by done. cbn. rewrite Hb. eexists. split; [reflexivity|]. cbn.
  split; [done|]. rewrite lookup_insert_eq. split; [done|]. eexists. cbn. rewrite lookup_insert_eq. split; [done|]. cbn.
  eexists. cbn. by rewrite lookup_insert_eq.
Qed.

Lemma failed_dead s s' b id f ids x out : failed s s' b id f ids x out -> dead s' id.
Proof. intros (He & (c & Hc & Hb & _) & _). exists c. by rewrite Hb. Qed.
End Sticky.

(** * Round trips *)

Section RoundTrip.
Context `{alloc : Allocator}.

(** A value appended to an empty builder is the whole of the finished string. *)
Lemma append_finish b id x s (m : M store unit) bs :
  rep s b x [id] [mkFrame Top []] -> appends m b id tt (Some bs) ->
  wp (m;; CBB_finish id false false)
    (fun '(buf, len) _ => len = zlen bs /\ ztake len (block_bytes buf) = bs)
    (fun s' => errored s' b) s.
Proof.
  intros Hr Hm. apply wp_bind.
  wp_call (Hm s x [] [] [] (mkFrame Top []) []); [exact Hr|done| |by intros s' [He _]].
  intros ? s1 (? & ? & x1 & [= <-] & [= <-] & -> & Hr1 & _). cbn [app] in Hr1.
  wp_call (CBB_finish_spec b id [] (extend (mkFrame Top []) bs) []); [exact Hr1| |].
  - intros [buf len] s2 (? & spare & [= <-] & Hbuf & -> & _). cbn in *. rewrite app_nil_r in *.
    rewrite Hbuf. split; [done|]. by apply ztake_app.
  - intros s2 [Hn|[He _]]; [by rewrite andb_false_r in Hn|done].
Qed.
End RoundTrip.

(** * The theorems *)

Section Theorems.
Context `{alloc : Allocator}.

(** C2. [CBB_flush] on any CBB of a nest of open children succeeds exactly by
    writing the length prefixes of the children from the inside out: the frames
    below [id] become the bytes [close_frames] gives (definite DER lengths moved
    into place, or big-endian ones), everything written before them stays, and no
    other CBB or buffer changes. It fails only when a prefix cannot hold its
    length or the buffer cannot hold the result, and then marks the buffer. It
    never leaves the buffer and always returns. *)
Theorem CBB_flush_refines b id x s ids ids2 fs f fs2 :
  rep s b x (ids ++ id :: ids2) (fs ++ f :: fs2) -> length ids = length fs ->
  wp (CBB_flush id)
    (fun _ s' => exists bs x', close_frames fs2 = Some bs /\
       rep s' b x' (ids ++ [id]) (fs ++ [extend f bs]) /\ frame_ok b (id :: ids2) s s')
    (fun s' => errored s' b /\ frame_ok b (id :: ids2) s s' /\
       forall bs, close_frames fs2 = Some bs -> no_room x (zlen (flat (fs ++ [extend f bs])))) s.
Proof.
  intros Hr Hl. wp_call (CBB_flush_spec b id); [exact Hr|done| |].
  - intros ? s' (bs & ? & x' & Hcl & [= <-] & -> & Hr' & _ & Hf). rewrite app_nil_r in Hr'. eauto.
  - intros s' (He & _ & Hf & Hno). split_and!; [done..|]. intros bs Hcl. apply Hno.
    rewrite Hcl. cbn. by rewrite app_nil_r.
Qed.

(** The integer and byte-string writers: each closes the children of [id]
    and then appends exactly the big-endian octets of its argument (or the given
    bytes) to the frame of [id], fails only for want of room, and for a 24-bit
    value that does not fit. *)
Theorem CBB_writers_append b id :
  (forall v, appends (CBB_add_u8 id v) b id tt (Some [u8 v])) /\
  (forall v, appends (CBB_add_u16 id v) b id tt (Some (be 2 (u16 v)))) /\
  (forall v, appends (CBB_add_u24 id v) b id tt
     (if u32 v <? 2 ^ 24 then Some (be 3 (u32 v)) else None)) /\
  (forall v, appends (CBB_add_u32 id v) b id tt (Some (be 4 (u32 v)))) /\
  (forall l n, 0 <= n <= zlen l -> n <= 2 ^ 62 ->
     appends (CBB_add_bytes id (P l) n) b id tt (Some (ztake n l))).
Proof.
  split_and!; intros.
  - apply CBB_add_u8_spec.
  - apply CBB_add_u16_spec.
  - apply CBB_add_u24_spec.
  - apply CBB_add_u32_spec.
  - apply CBB_add_bytes_spec; [|done]. unfold ptr_read. cbn [ptr_bytes].
    by rewrite (proj2 (Z.leb_le 0 _)), (proj2 (Z.leb_le _ _)) by lia.
Qed.

(** Opening a child: the length-prefixed and ASN.1 variants close the
    previous children of [id], write the identifier octets of the tag (high tag
    numbers included), reserve the prefix, and leave [child] as an empty open
    frame inside [id]. *)
Theorem CBB_children_open b id child :
  opens (CBB_add_u8_length_prefixed id child) b id child [] (Len 1) /\
  opens (CBB_add_u16_length_prefixed id child) b id child [] (Len 2) /\
  opens (CBB_add_u24_length_prefixed id child) b id child [] (Len 3) /\
  (forall tag, tag_ok tag -> opens (CBB_add_asn1 id child tag) b id child (enc_tag tag) Asn1).
Proof.
  split_and!; [by apply cbb_add_length_prefixed_spec..|]. intros. by apply CBB_add_asn1_spec.
Qed.

(** The whole-element writers append one DER element: the INTEGER contents
    are the shortest two's-complement octets, a BOOLEAN is FF or 00, and an OCTET
    STRING is refused when its length does not fit. *)
Theorem CBB_elements_append_der b id :
  (forall v, 0 <= v < 2 ^ 64 ->
     appends (CBB_add_asn1_uint64 id v) b id tt (Some (der CBS_ASN1_INTEGER (enc_uint64 v)))) /\
  (forall value, 0 <= value ->
     appends (CBB_add_asn1_bool id value) b id tt
       (Some (der CBS_ASN1_BOOLEAN [if negb (value =? 0) then 0xff else 0]))) /\
  (forall l n, 0 <= n <= zlen l -> n <= 2 ^ 62 ->
     appends (CBB_add_asn1_octet_string id (P l) n) b id tt
       (if n <=? 0xfffffffe then Some (der CBS_ASN1_OCTETSTRING (ztake n l)) else None)).
Proof.
  split_and!; intros.
  - by apply CBB_add_asn1_uint64_spec.
  - by apply CBB_add_asn1_bool_spec.
  - rewrite <- (zlen_ztake n l) at 2 by done. apply CBB_add_asn1_octet_string_spec; [|done].
    unfold ptr_read. cbn [ptr_bytes]. by rewrite (proj2 (Z.leb_le 0 _)), (proj2 (Z.leb_le _ _)) by lia.
Qed.

(** [CBB_finish] on the outermost CBB returns its bytes with every open
    child closed, and their number, and releases the buffer; it fails only when
    the flush fails or a growing builder is finished without a place for the
    result. *)
Theorem CBB_finish_result b id ids f fs x s data_null len_null :
  rep s b x (id :: ids) (f :: fs) ->
  wp (CBB_finish id data_null len_null)
    (fun '(buf, len) s' => exists bs, close_frames fs = Some bs /\
       len = zlen (f_body f ++ bs) /\ ztake len (block_bytes buf) = f_body f ++ bs /\
       s_bases s' !! b = None)
    (fun s' => (b_can_resize x && (data_null || len_null) = true) \/ errored s' b) s.
Proof.
  intros Hr. wp_call CBB_finish_spec; [exact Hr| |].
  - intros [buf len] s' (bs & spare & Hcl & Hbuf & -> & Hb). exists bs. split_and!; [done|done| |done].
    rewrite Hbuf. by apply ztake_app.
  - intros s' [?|[? _]]; auto.
Qed.

(** [CBB_discard_child] takes the builder back to where the child was
    opened: the child's prefix and contents, and those of its own children, are
    gone, and what was written before stays. *)
Theorem CBB_discard_child_restores b id x s ids ids2 fs f f2 fs2 :
  rep s b x (ids ++ id :: ids2) (fs ++ f :: f2 :: fs2) -> length ids = length fs ->
  wp (CBB_discard_child id)
    (fun _ s' => exists x', rep s' b x' (ids ++ [id]) (fs ++ [f]) /\ frame_ok b (id :: ids2) s s')
    (fun _ => False) s.
Proof.
  intros Hr Hl. wp_call CBB_discard_child_spec; [exact Hr|done| |done]. intros _ s' (x' & ? & _ & ?). eauto.
Qed.

(** C3. What [CBB_add_asn1_uint64] writes, [CBS_get_asn1_uint64] reads: the
    finished string parses back to the value with nothing left over, for every
    64-bit value. *)
Theorem CBB_CBS_uint64_roundtrip b id x s v :
  rep s b x [id] [mkFrame Top []] -> 0 <= v < 2 ^ 64 ->
  wp (CBB_add_asn1_uint64 id v;; CBB_finish id false false)
    (fun '(buf, len) _ => forall c, cbs_ok c -> view c = ztake len (block_bytes buf) ->
       exists c', CBS_get_asn1_uint64 c = Ok v c' /\ view c' = [])
    (fun s' => errored s' b) s.
Proof.
  intros Hr Hv. wp_call append_finish; [exact Hr|by apply CBB_add_asn1_uint64_spec| |done].
  intros [buf len] s' [_ ->] c Hc Hview.
  rewrite <- (app_nil_r (der _ _)) in Hview.
  destruct (wp_total _ _ _ (CBS_get_asn1_uint64_complete c v [] Hc Hv Hview)) as (w & c' & Heq & _ & -> & Hr').
  eauto.
Qed.
End Theorems.

(** * Witnesses *)

#[local] Existing Instance plenty.

(** A fresh builder over a 16-byte buffer, and one with an ASN.1 child and a
    16-bit length-prefixed grandchild open. *)
Definition ex_base (bs : list Z) : cbb_buffer_st :=
  mkBase (Some (bs ++ zrep (16 - zlen bs) 0)) (zlen bs) 16 true false.
Definition ex_empty : store :=
  mkStore {[1%nat := Some (mkCBB (Some 0%nat) None 0 0 false true)]} {[0%nat := ex_base []]} 2%nat 0%nat.
Definition ex_frames : list frame :=
  [mkFrame Top [5]; mkFrame Asn1 [1; 2]; mkFrame (Len 2) [7; 8; 9]].
Definition ex_nested : store :=
  mkStore (<[1%nat := Some (mkCBB (Some 0%nat) (Some 2%nat) 0 0 false true)]>
          (<[2%nat := Some (mkCBB (Some 0%nat) (Some 3%nat) 1 1 true false)]>
          {[3%nat := Some (mkCBB (Some 0%nat) None 4 2 false false)]}))
    {[0%nat := ex_base [5; 0; 1; 2; 0; 0; 7; 8; 9]]} 4%nat 0%nat.

Lemma ex_base_is bs : zlen bs <= 16 -> buf_is (ex_base bs) bs.
Proof.
  intros Hl. unfold buf_is, ex_base. cbn [b_error b_cap b_buf b_len block_bytes].
  split_and!; [done|unfold cap_max; lia|rewrite zlen_app, zlen_zrep; lia|done|eauto].
Qed.

Lemma ex_empty_rep : rep ex_empty 0 (ex_base []) [1%nat] [mkFrame Top []].
Proof.
  split_and!; try done.
  - apply NoDup_singleton.
  - intros j Hj. cbn in *. apply lookup_singleton_None. lia.
  - by apply ex_base_is.
Qed.

Lemma ex_nested_rep : rep ex_nested 0 (ex_base [5; 0; 1; 2; 0; 0; 7; 8; 9]) [1%nat; 2%nat; 3%nat] ex_frames.
Proof.
  split_and!; try done.
  - apply (bool_decide_unpack _). by vm_compute.
  - cbn. split; [done|]. repeat constructor; done.
  - intros j Hj. cbn in *. rewrite !lookup_insert_ne by lia. apply lookup_singleton_None. lia.
  - by apply ex_base_is.
Qed.

(** A run that succeeds on a concrete store. *)
Ltac run_ok H :=
  unfold wp in H;
  match type of H with
  | context [match ?r with Ok _ _ => _ | Fail _ => _ | Stuck => _ end] =>
      let E := fresh "Hrun" in destruct r eqn:E; [|exfalso; vm_compute in E; discriminate|destruct H]
  end.

Lemma CBB_flush_refines_witness :
  exists s' x', @CBB_flush plenty 1 ex_nested = Ok tt s' /\
    rep s' 0 x' [1%nat] [mkFrame Top [5; 7; 1; 2; 0; 3; 7; 8; 9]].
Proof.
  pose proof (@CBB_flush_refines plenty 0 1 _ ex_nested [] [2%nat; 3%nat] [] (mkFrame Top [5])
    (tail ex_frames) ex_nested_rep eq_refl) as H.
  run_ok H. destruct H as (bs & x' & Hcl & Hr & _). vm_compute in Hcl. injection Hcl as <-.
  destruct a. eauto.
Defined.

Lemma CBB_finish_result_witness :
  exists buf s', @CBB_finish plenty 1 false false ex_nested = Ok (buf, 9) s' /\
    ztake 9 (block_bytes buf) = [5; 7; 1; 2; 0; 3; 7; 8; 9].
Proof.
  pose proof (@CBB_finish_result plenty 0 1 [2%nat; 3%nat] (mkFrame Top [5]) (tail ex_frames)
    _ ex_nested false false ex_nested_rep) as H.
  run_ok H. destruct a as [buf len]. destruct H as (bs & Hcl & -> & Hb & _).
  vm_compute in Hcl. injection Hcl as <-. eauto.
Defined.

Lemma CBB_discard_child_restores_witness :
  exists s' x', CBB_discard_child 2 ex_nested = Ok tt s' /\
    rep s' 0 x' [1%nat; 2%nat] [mkFrame Top [5]; mkFrame Asn1 [1; 2]].
Proof.
  pose proof (@CBB_discard_child_restores 0 2 _ ex_nested [1%nat] [3%nat] [mkFrame Top [5]]
    (mkFrame Asn1 [1; 2]) _ [] ex_nested_rep eq_refl) as H.
  run_ok H. destruct a, H as (x' & Hr & _). eauto.
Defined.

Lemma CBB_CBS_uint64_roundtrip_witness :
  exists buf len s', (CBB_add_asn1_uint64 1 0x80;; CBB_finish 1 false false) ex_empty = Ok (buf, len) s' /\
    exists c', CBS_get_asn1_uint64 (cbs_of (ztake len (block_bytes buf))) = Ok 0x80 c'.
Proof.
  pose proof (@CBB_CBS_uint64_roundtrip plenty 0 1 _ ex_empty 0x80 ex_empty_rep ltac:(lia)) as H.
  unfold wp in H.
  destruct ((CBB_add_asn1_uint64 1 0x80;; CBB_finish 1 false false) ex_empty) as [[buf len] s'|s'|] eqn:E;
    [|exfalso; vm_compute in E; discriminate|destruct H].
  exists buf, len, s'. split; [reflexivity|].
  destruct (H (cbs_of (ztake len (block_bytes buf)))) as (c' & Hc' & _); [|apply view_cbs_of|by exists c'].
  vm_compute in E. injection E as <- <- _. apply cbs_of_ok; [|by vm_compute].
  repeat constructor; by vm_compute.
Defined.
