(* ===== verification/Oid.v ===== *)
(** Object identifiers and SET OF: the functions of cbs.c and cbb.c that work on
    both a parser and a builder, or that reorder what a builder holds. *)
From S2P Require Import Prelude Mem Buf MemFacts Cbs Der CbsFacts Cbb CbbSpec CbbFacts CbbOps CbbThms.

(** * Dotted decimals *)

Definition dot : Z := 46.
Definition digit0 : Z := 48.

(** One turn of the [for (;;)] loop, on [*out] and [seen_digit]. *)
Definition parse_dotted_decimal_step (st : Z * bool) : M CBS (Z * bool + Z * bool) :=
  let '(out, seen_digit) := st in
  r ← try_ CBS_get_u8;
  match r with
  | None => mret (inr (out, seen_digit))
  | Some u =>
      cbs ← get;
      if (u =? dot) && (0 <? CBS_len cbs) then mret (inr (out, seen_digit)) else
      if (u <? digit0) || (digit0 + 9 <? u) || (seen_digit && (out =? 0)) ||
         (UINT64_MAX / 10 <? out) || (UINT64_MAX - (u - digit0) <? u64 (out * 10)) then fail else
      mret (inl (u64 (out * 10 + (u - digit0)), true))
  end.

Definition parse_dotted_decimal : M CBS Z :=
  cbs ← get;
  '(out, seen_digit) ← iter (S (cbs_fuel cbs)) parse_dotted_decimal_step (0, false);
  if seen_digit : bool then mret out else fail.

(** [BIO_snprintf(buf, sizeof(buf), "%" PRIu64, v)]: the decimal digits of [v]. *)
Fixpoint decimal_digits (fuel : nat) (v : Z) : list Z :=
  match fuel with
  | O => []
  | S fuel => if v <? 10 then [digit0 + v] else decimal_digits fuel (v / 10) ++ [digit0 + v mod 10]
  end.
Definition decimal (v : Z) : list Z := decimal_digits 20 v.
#[global] Arguments decimal : simpl never.

Section Oid.
Context `{alloc : Allocator}.

Definition add_decimal (out : nat) (v : Z) : M store unit :=
  CBB_add_bytes out (P (decimal v ++ [0])) (zlen (decimal v)).

(** [CBS_init(&cbs, text, len)] starts the local cursor. *)
Definition CBB_add_asn1_oid_from_text (cbb : nat) (text : ptr) (len : Z) : M store unit :=
  CBB_flush cbb;;
  '(a, cbs) ← on (CBS_init text len) parse_dotted_decimal;
  '(b, cbs) ← on cbs parse_dotted_decimal;
  if (2 <? a) || ((a <? 2) && (39 <? b)) || (UINT64_MAX - 80 <? b) then fail else
  add_base128_integer cbb (u64 (40 * a + b));;
  iter (cbs_fuel cbs) (fun cbs =>
    if 0 <? CBS_len cbs then
      '(a, cbs) ← on cbs parse_dotted_decimal;
      add_base128_integer cbb a;;
      mret (inl cbs)
    else mret (inr tt)) cbs.

(** The text's block, which ends in a NUL; [CBB_cleanup] runs on every error. *)
Definition CBS_asn1_oid_to_text (cbs : CBS) : M store block :=
  with_local (fun cbb =>
    r ← try_ (
      CBB_init cbb 32;;
      '(v, copy) ← on cbs parse_base128_integer;
      (if 80 <=? v then
         CBB_add_bytes cbb (P [50; dot; 0]) 2;;
         add_decimal cbb (v - 80)
       else
         add_decimal cbb (v / 40);;
         CBB_add_u8 cbb dot;;
         add_decimal cbb (v mod 40));;
      iter (cbs_fuel copy) (fun copy =>
        if negb (CBS_len copy =? 0) then
          '(v, copy) ← on copy parse_base128_integer;
          CBB_add_u8 cbb dot;;
          add_decimal cbb v;;
          mret (inl copy)
        else mret (inr tt)) copy;;
      CBB_add_u8 cbb 0;;
      CBB_finish cbb false false);
    match r with
    | Some (txt, _) => mret txt
    | None => CBB_cleanup cbb;; fail
    end).

(** * SET OF *)

(** The sign of the comparison, on the elements' bytes. *)
Definition compare_set_of_element (a b : list Z) : Z :=
  let a_len := zlen a in
  let b_len := zlen b in
  let min_len := if a_len <? b_len then a_len else b_len in
  let ret := memcmp_sign (ztake min_len a) (ztake min_len b) in
  if negb (ret =? 0) then ret
  else if a_len =? b_len then 0
  else if a_len <? b_len then -1 else 1.

(** libc's [qsort]: the order it leaves equal elements in is not observable here,
    since elements that compare equal have the same bytes. *)
Fixpoint qsort_insert (cmp : list Z -> list Z -> Z) (x : list Z) (l : list (list Z)) : list (list Z) :=
  match l with
  | [] => [x]
  | y :: l => if cmp x y <=? 0 then x :: y :: l else y :: qsort_insert cmp x l
  end.
Definition qsort (cmp : list Z -> list Z -> Z) (l : list (list Z)) : list (list Z) :=
  foldr (qsort_insert cmp) [] l.

(** The two loops over the elements: one counts them, the other collects the
    cursors; both fail on the first thing that is not an element. *)
Definition split_elements : M CBS (list CBS) :=
  cbs ← get;
  iter (cbs_fuel cbs) (fun children =>
    cbs ← get;
    if negb (CBS_len cbs =? 0) then
      '(child, _, _) ← CBS_get_any_asn1_element;
      mret (inl (children ++ [child]))
    else mret (inr children)) [].

Definition sizeof_CBS : Z := 16.

Definition CBB_flush_asn1_set_of (cbb : nat) : M store unit :=
  CBB_flush cbb;;
  data ← CBB_data cbb;
  len ← CBB_len cbb;
  '(counted, _) ← on (CBS_init data len) split_elements;
  let num_children := zlen counted in
  if num_children <? 2 then mret tt else
  if UINT64_MAX / sizeof_CBS <? num_children then fail else
  buf_len ← CBB_len cbb;
  data ← CBB_data cbb;
  buf ← in_heap (BUF_memdup data buf_len);
  children ← in_heap (OPENSSL_malloc (num_children * sizeof_CBS));
  match buf, children with
  | Some buf, Some _ =>
      '(children, _) ← on (CBS_init (P buf) buf_len) split_elements;
      elems ← deref (mapM (fun c => ptr_read (CBS_data c) (CBS_len c)) children);
      let sorted := qsort compare_set_of_element elems in
      b ← base_of cbb;
      c ← get_cbb cbb;
      x ← get_base b;
      put_base b (base_with x (b_buf x) (u64 (c_offset c + c_pending_len_len c)) (b_cap x));;
      for_ 0 (length sorted) (fun i _ =>
        e ← deref (zget sorted i);
        CBB_add_bytes cbb (P e) (zlen e)) tt;;
      n ← CBB_len cbb;
      assert_ (n =? buf_len)
  | _, _ => fail
  end.
End Oid.
