(* ===== verification/OidThms.v ===== *)
(** Theorems about [Oid]: the text and DER forms of an object identifier determine
    each other, and SET OF contents come out sorted. *)
From stdpp Require Import sorting.
From S2P Require Import Prelude Mem Buf MemFacts Cbs Der CbsFacts Cbb CbbSpec CbbFacts CbbOps CbbThms Oid.

(** * Decimal numerals *)

Lemma decimal_digits_more f v : 0 <= v < 10 ^ Z.of_nat (S f) -> decimal_digits (S (S f)) v = decimal_digits (S f) v.
Proof.
  revert v. induction f as [|f IH]; intros v Hv.
  - cbn in *. by rewrite (proj2 (Z.ltb_lt v 10)) by lia.
  - change (decimal_digits (S (S (S f))) v)
      with (if v <? 10 then [digit0 + v] else decimal_digits (S (S f)) (v / 10) ++ [digit0 + v mod 10]).
    rewrite IH; [done|]. rewrite Nat2Z.inj_succ, Z.pow_succ_r in Hv by lia.
    split; [apply Z.div_pos; lia|apply Z.div_lt_upper_bound; lia].
Qed.

(** One more digit. *)
Lemma decimal_step v d :
  0 < v -> 0 <= d < 10 -> v * 10 + d < 2 ^ 64 -> decimal (v * 10 + d) = decimal v ++ [digit0 + d].
Proof.
  intros Hv Hd Hlt. unfold decimal.
  change (decimal_digits 20 (v * 10 + d)) with (if v * 10 + d <? 10 then [digit0 + (v * 10 + d)]
    else decimal_digits 19 ((v * 10 + d) / 10) ++ [digit0 + (v * 10 + d) mod 10]).
  rewrite (proj2 (Z.ltb_ge _ 10)) by lia.
  replace ((v * 10 + d) / 10) with v by (Z.div_mod_to_equations; lia).
  replace ((v * 10 + d) mod 10) with d by (Z.div_mod_to_equations; lia).
  rewrite (decimal_digits_more 18); [done|]. change (10 ^ Z.of_nat 19) with 10000000000000000000. lia.
Qed.
Lemma decimal_digit d : 0 <= d < 10 -> decimal d = [digit0 + d].
Proof. intros. unfold decimal. cbn [decimal_digits]. by rewrite (proj2 (Z.ltb_lt _ _)) by lia. Qed.

Lemma decimal_nonempty v : decimal v <> [].
Proof. unfold decimal. cbn [decimal_digits]. destruct (v <? 10); [done|]. intros H. by apply app_nil in H as [_ ?]. Qed.

Definition is_digit (c : Z) : Prop := digit0 <= c <= digit0 + 9.
Lemma decimal_digits_are f v : 0 <= v -> Forall is_digit (decimal_digits f v).
Proof.
  revert v. induction f as [|f IH]; intros v Hv; cbn; [constructor|].
  destruct (Z.ltb_spec v 10).
  - repeat constructor; lia.
  - apply Forall_app. split; [apply IH, Z.div_pos; lia|]. repeat constructor; pose proof (Z.mod_pos_bound v 10); lia.
Qed.

(** * Components *)

(** [text] is the numeral [v], and either ends there ([rest] is empty) or goes on
    with a dot and a non-empty [rest]. *)
Definition component (v : Z) (text rest : list Z) : Prop :=
  (text = decimal v /\ rest = []) \/ (text = decimal v ++ dot :: rest /\ rest <> []).

(** One turn of the loop on a digit, on the final dot, and at the end. *)
Lemma step_spec out seen c :
  cbs_ok c -> 0 <= out < 2 ^ 64 -> (seen = false -> out = 0) ->
  wp (parse_dotted_decimal_step (out, seen))
    (fun r c' => cbs_ok c' /\ match r with
       | inl (out', seen') => seen' = true /\ exists d, 0 <= d < 10 /\ view c = (digit0 + d) :: view c' /\
           out' = out * 10 + d /\ out' < 2 ^ 64 /\ (seen = true -> out <> 0)
       | inr st => st = (out, seen) /\
           ((view c = [] /\ view c' = []) \/ (view c = dot :: view c' /\ view c' <> []))
       end)
    (fun _ => match view c with
       | [] => False
       | u :: rest => ~ (u = dot /\ rest <> []) /\
           ~ exists d, u = digit0 + d /\ 0 <= d < 10 /\ (seen = true -> out <> 0) /\ out * 10 + d < 2 ^ 64
       end) c.
Proof.
  intros Hc Hout Hseen. unfold parse_dotted_decimal_step. wp_go. wp_call CBS_get_u8_spec; [done| |].
  2: { intros c' [-> Hv]. apply wp_ret. rewrite Hv. auto. }
  intros u c' (Hc' & Hv & Hu). apply wp_bind, wp_get. rewrite Hv.
  assert (Hlen : (0 <? CBS_len c') = true <-> view c' <> []).
  { pose proof (zlen_view c' Hc') as Hz. unfold CBS_len. rewrite Z.ltb_lt.
    destruct (view c') as [|? l]; [rewrite zlen_nil in Hz; split; [lia|done]|].
    rewrite zlen_cons in Hz. pose proof (zlen_nonneg l). split; [done|lia]. }
  destruct ((u =? dot) && (0 <? CBS_len c')) eqn:Hdot.
  { apply andb_true_iff in Hdot as [->%Z.eqb_eq Hn%Hlen]. apply wp_ret. auto. }
  assert (Hnd : ~ (u = dot /\ view c' <> [])).
  { intros [-> Hn%Hlen]. by rewrite Hn in Hdot. }
  unfold is_byte, UINT64_MAX, digit0 in *. unfold u64.
  destruct (_ || _) eqn:Hbad.
  - apply wp_fail. split; [done|]. intros (d & -> & Hd & Hz & Hlt).
    assert (seen && (out =? 0) = false).
    { destruct seen; [|done]. cbn. apply Z.eqb_neq. auto. }
    rewrite H in Hbad. rewrite Z.mod_small in Hbad by lia.
    assert (out <= 1844674407370955161) by lia.
    change (18446744073709551615 / 10) with 1844674407370955161 in Hbad. lia.
  - apply orb_false_iff in Hbad as [Hbad H5]. apply orb_false_iff in Hbad as [Hbad H4].
    apply orb_false_iff in Hbad as [Hbad H3]. change (18446744073709551615 / 10) with 1844674407370955161 in H4.
    rewrite Z.mod_small in H5 by lia.
    apply wp_ret. split; [done|]. split; [done|]. exists (u - 48). rewrite Z.mod_small by lia.
    split_and!; [lia|lia|f_equal; lia|done|lia|]. intros ->. cbn in H3. by apply Z.eqb_neq in H3.
Qed.

(** What has been read when the loop is at [(out, seen)]. *)
Definition read_so_far (out : Z) (seen : bool) (ds : list Z) : Prop :=
  if seen then ds = decimal out else out = 0 /\ ds = [].

Lemma parse_dotted_decimal_sound c :
  cbs_ok c ->
  wp parse_dotted_decimal
    (fun v c' => cbs_ok c' /\ 0 <= v < 2 ^ 64 /\ component v (view c) (view c')) (fun _ => True) c.
Proof.
  intros Hc. unfold parse_dotted_decimal. wp_go.
  eapply (wp_iter (fun '(out, seen) c' => cbs_ok c' /\ 0 <= out < 2 ^ 64 /\ exists ds,
             view c = ds ++ view c' /\ read_so_far out seen ds)
            (fun _ c' => Z.to_nat (cbs_len c'))).
  - split_and!; [done|lia|lia|]. by exists [].
  - unfold cbs_fuel. lia.
  - intros [out seen] c1 (Hc1 & Hout & ds & Hv & Hds). wp_call step_spec; [done|done| | |done].
    { intros ->. by destruct Hds. }
    intros [[out' seen']|[out' seen']] c2 [Hc2 Hr].
    + destruct Hr as (-> & d & Hd & Hv1 & -> & Hlt & Hnz). split.
      * split_and!; [done|lia|lia|]. exists (ds ++ [digit0 + d]). rewrite Hv, Hv1, <- app_assoc.
        split; [done|]. unfold read_so_far in *. destruct seen.
        -- specialize (Hnz eq_refl). by rewrite decimal_step, Hds by lia.
        -- destruct Hds as [-> ->]. by rewrite decimal_digit.
      * pose proof (zlen_view c1 Hc1) as Hz1. rewrite Hv1, zlen_cons, zlen_view in Hz1 by done.
        pose proof (cbs_ok_len c2 Hc2). lia.
    + destruct Hr as [[= -> ->] Hr]. destruct seen; wp_go. cbn in Hds. subst ds.
      split_and!; [done|lia|lia|]. unfold component. destruct Hr as [[H1 H2]|[Hd Hn]].
      * left. by rewrite Hv, H1, app_nil_r.
      * right. by rewrite Hv, Hd.
Qed.

(** Reading the digits of [v]. *)
Lemma read_decimal f tail Q E : forall v m c,
  cbs_ok c -> 0 <= v < 2 ^ 64 -> v < 10 ^ Z.of_nat (S f) -> view c = decimal_digits (S f) v ++ tail ->
  (forall c', cbs_ok c' -> view c' = tail -> wp (iter m parse_dotted_decimal_step (v, true)) Q E c') ->
  wp (iter (length (decimal_digits (S f) v) + m) parse_dotted_decimal_step (0, false)) Q E c.
Proof.
  (* the first digit *)
  assert (Hone : forall tail v m c, cbs_ok c -> 0 <= v < 10 -> view c = [digit0 + v] ++ tail ->
    (forall c', cbs_ok c' -> view c' = tail -> wp (iter m parse_dotted_decimal_step (v, true)) Q E c') ->
    wp (iter (S m) parse_dotted_decimal_step (0, false)) Q E c).
  { clear tail. intros tail v m c Hc Hv Hview HQ. cbn [iter]. apply wp_bind.
    wp_call step_spec; [done|lia|done| |].
    - intros [[out seen]|st] c' [Hc' Hr]; rewrite Hview in Hr.
      + destruct Hr as (-> & d & Hd & [= Hdv Htl] & -> & _).
        replace (0 * 10 + d) with v by lia. by apply HQ.
      + destruct Hr as [_ [[? _]|[[= Hdot _] _]]]; [done|]. unfold dot, digit0 in *. lia.
    - intros c'. rewrite Hview. intros [_ Hn]. exfalso. apply Hn. exists v. lia. }
  revert tail. induction f as [|f IH]; intros tail v m c Hc Hv Hf Hview HQ.
  - cbn in Hf. cbn [decimal_digits] in *. rewrite (proj2 (Z.ltb_lt v 10)) in * by lia.
    apply (Hone tail v); [done|lia|done|done].
  - change (decimal_digits (S (S f)) v)
      with (if v <? 10 then [digit0 + v] else decimal_digits (S f) (v / 10) ++ [digit0 + v mod 10]) in *.
    destruct (Z.ltb_spec v 10); [apply (Hone tail v); [done|lia|done|done]|].
    rewrite length_app. cbn [length]. rewrite <- Nat.add_assoc. rewrite <- app_assoc in Hview.
    rewrite Nat2Z.inj_succ, Z.pow_succ_r in Hf by lia.
    apply (IH ([digit0 + v mod 10] ++ tail)); [done| | |done|].
    + split; [apply Z.div_pos; lia|]. apply Z.div_lt_upper_bound; lia.
    + apply Z.div_lt_upper_bound; lia.
    + intros c1 Hc1 Hv1. cbn [Nat.add iter]. apply wp_bind.
      assert (Hq : 1 <= v / 10 < 2 ^ 64) by (Z.div_mod_to_equations; lia).
      wp_call step_spec; [done|lia|done| |].
      * intros [[out seen]|st] c' [Hc' Hr]; rewrite Hv1 in Hr.
        -- destruct Hr as (-> & d & Hd & [= Hdv Htl] & -> & _).
           replace (v / 10 * 10 + d) with v by (Z.div_mod_to_equations; lia). by apply HQ.
        -- destruct Hr as [_ [[? _]|[[= Hdot _] _]]]; [done|]. unfold dot, digit0 in *.
           Z.div_mod_to_equations; lia.
      * intros c'. rewrite Hv1. intros [_ Hn]. exfalso. apply Hn. exists (v mod 10).
        Z.div_mod_to_equations; lia.
Qed.

Lemma parse_dotted_decimal_complete c v rest :
  cbs_ok c -> 0 <= v < 2 ^ 64 -> component v (view c) rest ->
  wp parse_dotted_decimal (fun w c' => cbs_ok c' /\ w = v /\ view c' = rest) (fun _ => False) c.
Proof.
  intros Hc Hv Hcomp. unfold parse_dotted_decimal. wp_go.
  set (tail := if bool_decide (rest = []) then [] else dot :: rest).
  assert (Hview : view c = decimal v ++ tail).
  { unfold tail. destruct Hcomp as [[-> ->]|[-> Hr]].
    - by rewrite bool_decide_eq_true_2, app_nil_r by done.
    - by rewrite bool_decide_eq_false_2 by done. }
  pose proof (zlen_view c Hc) as Hz. rewrite Hview, zlen_app in Hz. pose proof (zlen_nonneg tail).
  assert (Hfuel : S (cbs_fuel c) = (length (decimal v) + S (S (Z.to_nat (zlen tail))))%nat).
  { unfold cbs_fuel. rewrite <- Hz. unfold zlen. lia. }
  rewrite Hfuel. apply (read_decimal 19 tail); [done|done| |done|].
  { change (10 ^ Z.of_nat 20) with 100000000000000000000. lia. }
  intros c1 Hc1 Hv1. cbn [iter]. apply wp_bind. wp_call step_spec; [done|done|done| |].
  - intros r c2 [Hc2 Hr]. rewrite Hv1 in Hr. unfold tail in Hr. destruct r as [[out seen]|st].
    + destruct Hr as (_ & d & Hd & Hr & _). case_bool_decide; [done|]. injection Hr as Hdot _.
      unfold dot, digit0 in *. lia.
    + destruct Hr as [-> Hr]. wp_go. split_and!; [done..|]. case_bool_decide.
      * subst rest. by destruct Hr as [[_ ?]|[? _]].
      * destruct Hr as [[? _]|[[= <-] _]]; done.
  - intros c2. rewrite Hv1. unfold tail. case_bool_decide; [done|]. intros [Hn _]. by apply Hn.
Qed.

(** * Object identifiers *)

(** The text of a list of components. *)
Definition dotted (vs : list Z) : list Z :=
  match vs with
  | [] => []
  | v :: vs => decimal v ++ flat_map (fun w => dot :: decimal w) vs
  end.

Definition is_u64 (v : Z) : Prop := 0 <= v < 2 ^ 64.

(** X.660: the first component is 0, 1 or 2, and the second is below 40 under the
    first two; the components fit in 64 bits, as the DER subidentifiers must. *)
Definition oid_ok (a b : Z) (vs : list Z) : Prop :=
  0 <= a <= 2 /\ 0 <= b <= UINT64_MAX - 80 /\ (a < 2 -> b <= 39) /\ Forall is_u64 vs.

Definition oid_text (a b : Z) (vs : list Z) : list Z := dotted (a :: b :: vs).
Definition oid_der (a b : Z) (vs : list Z) : list Z :=
  enc_base128 (40 * a + b) ++ flat_map enc_base128 vs.

Lemma dotted_component v vs : component v (dotted (v :: vs)) (dotted vs).
Proof.
  unfold component. destruct vs as [|w vs]; cbn; [left; by rewrite app_nil_r|right].
  split; [done|]. intros H. apply app_nil in H as [H _]. by apply decimal_nonempty in H.
Qed.

(** What reading components one after the other leaves. *)
Inductive read_components : list Z -> list Z -> list Z -> Prop :=
| read_none t : read_components [] t t
| read_snoc vs v t m r : read_components vs t m -> component v m r -> read_components (vs ++ [v]) t r.

Lemma read_components_dotted vs t m :
  read_components vs t m -> forall ws, m = dotted ws -> t = dotted (vs ++ ws).
Proof.
  induction 1 as [t|vs v t m r Hr IH Hc]; intros ws Hm; [done|]. rewrite <- app_assoc. cbn [app].
  apply IH. destruct Hc as [[-> ->]|[-> Hne]].
  - destruct ws as [|w ws]; cbn in *; [by rewrite app_nil_r|].
    symmetry in Hm. apply app_nil in Hm as [Hm _]. by apply decimal_nonempty in Hm.
  - destruct ws as [|w ws]; [done|]. by subst r.
Qed.

Section FromText.
Context `{alloc : Allocator}.

(** The components after the second, and the rest of the program. *)
Lemma components_writes b id vs : forall fuel c,
  cbs_ok c -> Forall is_u64 vs -> view c = dotted vs -> (length vs < fuel)%nat ->
  writes (iter fuel (fun cbs =>
      if 0 <? CBS_len cbs then
        '(a, cbs) ← on cbs parse_dotted_decimal;
        add_base128_integer id a;;
        mret (inl cbs)
      else mret (inr tt)) c) b id tt (Some (flat_map enc_base128 vs)).
Proof.
  induction vs as [|v vs IH]; intros [|fuel] c Hc Hvs Hview Hf; cbn in Hf; try lia; cbn [iter];
    pose proof (zlen_view c Hc) as Hz; rewrite Hview in Hz; unfold CBS_len; rewrite <- Hz.
  - cbn. eapply writes_pure; [done|]. apply writes_ret.
  - apply Forall_cons in Hvs as [Hv Hvs].
    assert (0 < zlen (dotted (v :: vs))).
    { cbn [dotted]. destruct (decimal v) as [|d l] eqn:E; [by apply decimal_nonempty in E|].
      rewrite zlen_app, zlen_cons. pose proof (zlen_nonneg l).
      pose proof (zlen_nonneg (flat_map (fun w => dot :: decimal w) vs)). lia. }
    rewrite (proj2 (Z.ltb_lt _ _)) by done.
    pose proof (dotted_component v vs) as Hcomp. rewrite <- Hview in Hcomp.
    destruct (wp_total _ _ _ (parse_dotted_decimal_complete c v (dotted vs) Hc Hv Hcomp))
      as (w & c' & Hrun & Hc' & -> & Hview').
    eapply writes_out; [|eapply (writes_bind _ _ b id (inl c') tt (Some (enc_base128 v)) (Some (flat_map enc_base128 vs)))].
    + done.
    + eapply writes_pure; [intros s; unfold on; by rewrite Hrun|].
      replace (Some (enc_base128 v)) with (p ← Some (enc_base128 v); q ← Some []; Some (p ++ q))
        by (cbn; by rewrite app_nil_r).
      eapply writes_bind; [by apply add_base128_integer_spec|apply writes_ret].
    + apply IH; [done|done|done|lia].
Qed.

Lemma length_dotted vs : (length vs <= length (dotted vs))%nat.
Proof.
  destruct vs as [|v vs]; [done|]. cbn [dotted]. rewrite length_app.
  assert (H : (length vs <= length (flat_map (fun w => dot :: decimal w) vs))%nat).
  { induction vs as [|w vs IH]; [done|]. cbn. rewrite length_app. lia. }
  destruct (decimal v) as [|d l] eqn:E; [by apply decimal_nonempty in E|]. cbn. lia.
Qed.

(** Every well-formed text is accepted and encoded. *)
Lemma oid_from_text_complete b id text len a1 a2 vs :
  cbs_ok (CBS_init text len) -> oid_ok a1 a2 vs -> view (CBS_init text len) = oid_text a1 a2 vs ->
  appends (CBB_add_asn1_oid_from_text id text len) b id tt (Some (oid_der a1 a2 vs)).
Proof.
  intros Hc (Ha & Hb & Hab & Hvs) Hview. unfold UINT64_MAX in Hb. unfold CBB_add_asn1_oid_from_text.
  apply appends_flush.
  pose proof (dotted_component a1 (a2 :: vs)) as Hc1. fold (oid_text a1 a2 vs) in Hc1. rewrite <- Hview in Hc1.
  destruct (wp_total _ _ _ (parse_dotted_decimal_complete _ a1 _ Hc ltac:(lia) Hc1))
    as (? & c1 & Hrun1 & Hok1 & -> & Hv1).
  pose proof (dotted_component a2 vs) as Hc2. rewrite <- Hv1 in Hc2.
  destruct (wp_total _ _ _ (parse_dotted_decimal_complete _ a2 _ Hok1 ltac:(lia) Hc2))
    as (? & c2 & Hrun2 & Hok2 & -> & Hv2).
  eapply writes_pure; [intros s; unfold on; by rewrite Hrun1|]. cbv beta iota.
  eapply writes_pure; [intros s; unfold on; by rewrite Hrun2|]. cbv beta iota.
  rewrite (proj2 (Z.ltb_ge 2 a1)), (proj2 (Z.ltb_ge (UINT64_MAX - 80) a2)) by (unfold UINT64_MAX; lia).
  assert ((a1 <? 2) && (39 <? a2) = false) as -> by lia. cbn [orb].
  assert (u64 (40 * a1 + a2) = 40 * a1 + a2) as -> by (unfold u64; apply Z.mod_small; lia).
  eapply writes_out; [|eapply (writes_bind _ _ b id tt tt (Some (enc_base128 _)) (Some (flat_map enc_base128 vs)))].
  2: { apply add_base128_integer_spec. lia. }
  2: { apply components_writes; [done|done|exact Hv2|]. unfold cbs_fuel. rewrite <- zlen_view, Hv2 by done.
       pose proof (length_dotted vs). unfold zlen. lia. }
  done.
Qed.

(** Only well-formed texts are accepted. *)
Lemma oid_from_text_sound b id text len s x ids ids2 fs f fs2 :
  cbs_ok (CBS_init text len) ->
  rep s b x (ids ++ id :: ids2) (fs ++ f :: fs2) -> length ids = length fs ->
  wp (CBB_add_asn1_oid_from_text id text len)
    (fun _ _ => exists a1 a2 vs, oid_ok a1 a2 vs /\ view (CBS_init text len) = oid_text a1 a2 vs)
    (fun _ => True) s.
Proof.
  intros Hc Hr Hl. unfold CBB_add_asn1_oid_from_text. wp_go.
  wp_call (CBB_flush_spec b id); [exact Hr|done| |done].
  intros ? s1 (bs & o1 & x1 & _ & _ & _ & Hr1 & _). wp_go.
  wp_call parse_dotted_decimal_sound; [exact Hc| |done]. intros a1 c1 (Hc1 & Ha1 & Hcomp1). wp_go.
  wp_call parse_dotted_decimal_sound; [exact Hc1| |done]. intros a2 c2 (Hc2 & Ha2 & Hcomp2). wp_go.
  apply orb_false_iff in Hif as [Hif H3]. apply orb_false_iff in Hif as [H1 H2].
  unfold UINT64_MAX in H3.
  assert (Hu : u64 (40 * a1 + a2) = 40 * a1 + a2) by (unfold u64; apply Z.mod_small; lia).
  rewrite Hu. wp_call (add_base128_integer_spec b id); [lia|exact Hr1|done| |done].
  intros ? s2 (? & x2 & _ & _ & Hr2 & _).
  eapply (wp_iter (fun c' s' => cbs_ok c' /\ (exists x' f', rep s' b x' (ids ++ [id]) (fs ++ [f'])) /\
             exists vs, Forall is_u64 vs /\ read_components vs (view c2) (view c'))
           (fun c' _ => Z.to_nat (cbs_len c'))).
  - split_and!; [done|eauto|]. exists []. split; [constructor|apply read_none].
  - unfold cbs_fuel. lia.
  - intros c' s' (Hc' & (x' & f' & Hr') & vs & Hvs & Hread). destruct (Z.ltb_spec 0 (CBS_len c')).
    + wp_go. wp_call parse_dotted_decimal_sound; [exact Hc'| |done]. intros v c3 (Hc3 & Hv & Hcomp). wp_go.
      wp_call (add_base128_integer_spec b id); [done|exact Hr'|done| |done].
      intros ? s3 (? & x3 & _ & _ & Hr3 & _). wp_go. split.
      * split_and!; [done|eauto|]. exists (vs ++ [v]). split; [by apply Forall_app; auto|by eapply read_snoc].
      * pose proof (zlen_view c' Hc') as Hz. pose proof (zlen_view c3 Hc3) as Hz3.
        pose proof (cbs_ok_len c3 Hc3). destruct Hcomp as [[Ht Hn]|[Ht _]].
        -- rewrite Hn, zlen_nil in Hz3. unfold CBS_len in *. lia.
        -- rewrite Ht, zlen_app, zlen_cons in Hz. pose proof (zlen_nonneg (decimal v)). lia.
    + wp_go. exists a1, a2, vs. unfold CBS_len in *.
      assert (Hnil : view c' = []).
      { apply zlen_0. rewrite zlen_view by done. pose proof (cbs_ok_len c' Hc'). lia. }
      split; [unfold oid_ok, UINT64_MAX; split_and!; lia || done|].
      pose proof (read_components_dotted _ _ _ Hread [] Hnil) as Hd. rewrite app_nil_r in Hd.
      unfold oid_text. change (a1 :: a2 :: vs) with ([a1; a2] ++ vs).
      eapply read_components_dotted; [|exact Hd].
      apply (read_snoc [a1] a2 _ (view c1)); [|done]. by apply (read_snoc [] a1 _ (view (CBS_init text len))); [apply read_none|].
Qed.
End FromText.

Lemma zlen_decimal v : zlen (decimal v) <= 20.
Proof.
  unfold decimal. change 20 with (Z.of_nat 20). generalize 20%nat. intros f. revert v.
  induction f as [|f IH]; intros v; cbn [decimal_digits]; [done|].
  destruct (v <? 10); [rewrite zlen_cons, zlen_nil; lia|]. rewrite zlen_snoc. specialize (IH (v / 10)). lia.
Qed.

Section ToText.
Context `{alloc : Allocator}.

Lemma add_decimal_spec b id v : appends (add_decimal id v) b id tt (Some (decimal v)).
Proof.
  pose proof (zlen_decimal v). pose proof (zlen_nonneg (decimal v)). unfold add_decimal.
  apply CBB_add_bytes_spec; [|lia]. unfold ptr_read. cbn [ptr_bytes]. rewrite ztake_app by done.
  rewrite zlen_snoc. by rewrite (proj2 (Z.leb_le 0 _)), (proj2 (Z.leb_le _ (_ + _))) by lia.
Qed.

Lemma subidentifiers_writes b id vs : forall fuel c,
  cbs_ok c -> Forall is_u64 vs -> view c = flat_map enc_base128 vs -> (length vs < fuel)%nat ->
  writes (iter fuel (fun copy =>
      if negb (CBS_len copy =? 0) then
        '(v, copy) ← on copy parse_base128_integer;
        CBB_add_u8 id dot;;
        add_decimal id v;;
        mret (inl copy)
      else mret (inr tt)) c) b id tt (Some (flat_map (fun w => dot :: decimal w) vs)).
Proof.
  induction vs as [|v vs IH]; intros [|fuel] c Hc Hvs Hview Hf; cbn in Hf; try lia; cbn [iter];
    pose proof (zlen_view c Hc) as Hz; rewrite Hview in Hz; unfold CBS_len; rewrite <- Hz.
  - cbn. eapply writes_pure; [done|]. apply writes_ret.
  - apply Forall_cons in Hvs as [Hv Hvs]. cbn [flat_map] in *. rewrite zlen_app in *.
    pose proof (zlen_enc_base128 v). pose proof (zlen_nonneg (flat_map enc_base128 vs)).
    rewrite (proj2 (Z.eqb_neq _ 0)) by lia. cbn [negb].
    destruct (wp_total _ _ _ (parse_base128_integer_complete c v _ Hc Hv Hview))
      as (w & c' & Hrun & Hc' & -> & Hview').
    eapply writes_out; [|eapply (writes_bind _ _ b id (inl c') tt (Some (dot :: decimal v))
      (Some (flat_map (fun w => dot :: decimal w) vs)))]; [done| |].
    + eapply writes_pure; [intros s; unfold on; by rewrite Hrun|]. cbv beta iota.
      replace (Some (dot :: decimal v)) with
        (p ← Some [u8 dot]; q ← (p ← Some (decimal v); q ← Some []; Some (p ++ q)); Some (p ++ q))
        by (cbn; by rewrite app_nil_r).
      eapply writes_bind; [apply appends_writes, CBB_add_u8_spec|].
      eapply writes_bind; [apply appends_writes, add_decimal_spec|apply writes_ret].
    + apply IH; [done|done|done|lia].
Qed.

(** The first subidentifier holds two components. *)
Lemma first_writes b id a1 a2 :
  0 <= a1 <= 2 -> 0 <= a2 -> (a1 < 2 -> a2 <= 39) ->
  writes (if 80 <=? 40 * a1 + a2 then
       CBB_add_bytes id (P [50; dot; 0]) 2;;
       add_decimal id (40 * a1 + a2 - 80)
     else
       add_decimal id ((40 * a1 + a2) / 40);;
       CBB_add_u8 id dot;;
       add_decimal id ((40 * a1 + a2) mod 40)) b id tt (Some (decimal a1 ++ dot :: decimal a2)).
Proof.
  intros Ha Hb Hab. destruct (Z.leb_spec 80 (40 * a1 + a2)).
  - assert (a1 = 2) as -> by lia. replace (40 * 2 + a2 - 80) with a2 by lia.
    eapply writes_out; [|eapply (writes_bind _ _ b id tt tt (Some [50; dot]) (Some (decimal a2)))].
    + done.
    + apply appends_writes, CBB_add_bytes_spec; done.
    + apply appends_writes, add_decimal_spec.
  - assert ((40 * a1 + a2) / 40 = a1) as -> by (Z.div_mod_to_equations; lia).
    assert ((40 * a1 + a2) mod 40 = a2) as -> by (Z.div_mod_to_equations; lia).
    eapply writes_out; [|eapply (writes_bind _ _ b id tt tt (Some (decimal a1)) (Some (dot :: decimal a2)))]; [done| |].
    + apply appends_writes, add_decimal_spec.
    + eapply writes_out; [|eapply (writes_bind _ _ b id tt tt (Some [u8 dot]) (Some (decimal a2)))]; [done| |].
      * apply appends_writes, CBB_add_u8_spec.
      * apply appends_writes, add_decimal_spec.
Qed.

Lemma flat_map_zlen vs : zlen (flat_map enc_base128 vs) >= zlen vs.
Proof.
  induction vs as [|v vs IH]; [done|]. cbn [flat_map]. rewrite zlen_app, zlen_cons.
  pose proof (zlen_enc_base128 v). lia.
Qed.

(** The allocator refuses some request of at most [m] bytes. *)
Definition refused_up_to (m : Z) : Prop := exists n size, size <= m /\ malloc_ok n size = false.

(** The cleanup that follows an error. *)
Lemma cleanup_fail id s c :
  s_cbbs s !! id = Some (Some c) ->
  match c_base c with None => True | Some b => c_is_top_level c = true /\ is_Some (s_bases s !! b) end ->
  forall (E : store -> Prop) (Q : block -> store -> Prop), (forall s', E s') -> wp (CBB_cleanup id;; fail) Q E s.
Proof.
  intros Hc Hb E Q HE. unfold CBB_cleanup. wp_go. eapply wp_get_cbb; [exact Hc|].
  destruct (c_base c) as [b|]; cbn.
  - destruct Hb as [Htop [x Hx]]. wp_go. apply wp_assert; [done|]. wp_go.
    eapply wp_get_base; [exact Hx|]. wp_go. eapply wp_put_cbb; [exact Hc|]. wp_go. apply HE.
  - wp_go. eapply wp_put_cbb; [exact Hc|]. wp_go. apply HE.
Qed.

Lemma oid_to_text_complete cbs a1 a2 vs s :
  cbs_ok cbs -> fresh_ok s -> oid_ok a1 a2 vs -> view cbs = oid_der a1 a2 vs ->
  wp (CBS_asn1_oid_to_text cbs)
    (fun txt _ => ztake (zlen (oid_text a1 a2 vs) + 1) (block_bytes txt) = oid_text a1 a2 vs ++ [0])
    (fun _ => refused_up_to (2 * zlen (oid_text a1 a2 vs) + 72)) s.
Proof.
  intros Hc Hfr (Ha & Hb & Hab & Hvs) Hview. unfold UINT64_MAX in Hb.
  unfold CBS_asn1_oid_to_text. apply wp_with_local.
  set (cbb := s_next s). set (s0 := mkStore _ _ _ _).
  assert (Hs0 : s_cbbs s0 !! cbb = Some None) by (cbn; by rewrite lookup_insert_eq).
  assert (Hfr0 : fresh_ok s0).
  { intros j Hj. cbn in *. rewrite lookup_insert_ne by lia. apply Hfr. lia. }
  destruct (wp_total _ _ _ (parse_base128_integer_complete cbs (40 * a1 + a2) _ Hc ltac:(lia) Hview))
    as (w & c1 & Hrun & Hc1 & -> & Hview1).
  set (t := oid_text a1 a2 vs).
  set (F := fun s' : store => refused_up_to (2 * zlen t + 72) /\ exists c,
    s_cbbs s' !! cbb = Some (Some c) /\
    match c_base c with None => True | Some b => c_is_top_level c = true /\ is_Some (s_bases s' !! b) end).
  apply wp_bind, wp_try. eapply wp_mono with
    (Q := fun '(txt, _) _ => ztake (zlen t + 1) (block_bytes txt) = t ++ [0]) (E := F).
  2: { intros [txt len] s' Htxt. by apply wp_ret. }
  2: { intros s' (Hmal & c & Hcc & Hb'). eapply cleanup_fail; [exact Hcc|exact Hb'|done]. }
  assert (Ht : t ++ [0] = ((decimal a1 ++ dot :: decimal a2) ++ flat_map (fun w => dot :: decimal w) vs) ++ [u8 0])
    by (unfold t, oid_text; cbn [dotted flat_map]; by rewrite <- !app_assoc).
  assert (Htl : zlen (decimal a1 ++ dot :: decimal a2) + zlen (flat_map (fun w => dot :: decimal w) vs) = zlen t).
  { apply (f_equal zlen) in Ht. rewrite !zlen_snoc, zlen_app in Ht. lia. }
  pose proof (zlen_nonneg (flat_map (fun w => dot :: decimal w) vs)). pose proof (zlen_nonneg t).
  wp_go. wp_call CBB_init_spec; [by rewrite Hs0|exact Hfr0|lia| |].
  2: { intros s1 (Hz & n & size & Hsz & Hmal). split; [exists n, size; split; [lia|done]|]. exists zero_CBB. done. }
  intros _ s1 (x & Hr & Hres). set (b0 := s_next s0) in *.
  assert (Hfail : forall x1 s1 s' f ids o, grown x x1 -> is_top (f_kind f) = true ->
    zlen (f_body f) + zlen o <= zlen t + 1 -> failed s1 s' b0 cbb f ids x1 (Some [extend f o]) -> F s').
  { intros x1 s1' s' f ids o [Hg _] Htop Hlen ((y & Hy & _) & (c & Hcc & Hcb & Hct) & _ & Hno). split.
    - destruct (Hno _ eq_refl) as [_ [Hno'|(n & size & Hsz & Hmal)]]; [congruence|].
      exists n, size. split; [|done]. cbn [flat extend f_kind f_body] in Hsz.
      destruct (f_kind f); try done. rewrite app_nil_r, !zlen_app in Hsz. cbn [plen] in Hsz.
      change (zlen (zrep 0 0)) with 0 in Hsz. lia.
    - exists c. rewrite Hcb, Hct. split; [done|]. split; [done|]. by exists y. }
  apply wp_bind. unfold wp at 1, on at 1. rewrite Hrun. cbv beta iota. apply wp_bind.
  wp_call (first_writes b0 cbb a1 a2); [lia|lia|done|exact (Hr : rep _ _ _ ([] ++ [cbb]) ([] ++ [mkFrame Top []]))|done| |].
  2: { intros s' Hf. eapply (Hfail x s1 s' (mkFrame Top [])); [apply grown_refl|done| |exact Hf]; cbn [f_body]; rewrite zlen_nil; lia. }
  intros _ s2 (? & x2 & [= <-] & _ & Hr2 & Hg2 & _). wp_go.
  wp_call (subidentifiers_writes b0 cbb vs); [exact Hc1|exact Hvs|exact Hview1| |exact Hr2|done| |].
  { unfold cbs_fuel. rewrite <- zlen_view, Hview1 by done. pose proof (flat_map_zlen vs). unfold zlen in *. lia. }
  2: { intros s' Hf. eapply Hfail; [exact Hg2| | |exact Hf]; [done|cbn [f_body extend app]; lia]. }
  intros _ s3 (? & x3 & [= <-] & _ & Hr3 & Hg3 & _). wp_go.
  wp_call (appends_writes _ _ _ _ _ (CBB_add_u8_spec b0 cbb 0)); [exact Hr3|done| |].
  2: { intros s' Hf. eapply Hfail; [eapply grown_trans; [exact Hg2|exact Hg3]| | |exact Hf]; [done|].
       cbn [f_body extend app]. rewrite zlen_app. change (zlen [u8 0]) with 1. lia. }
  intros _ s4 (? & x4 & [= <-] & _ & Hr4 & Hg4 & _). cbn [app] in Hr4.
  set (f4 := extend (extend (extend _ _) _) _) in Hr4.
  wp_call (CBB_finish_spec b0 cbb [] f4 []); [exact Hr4| |].
  - intros [txt len] s5 (? & spare & [= <-] & Htxt & _). rewrite Htxt, app_nil_r. unfold f4. cbn [f_body extend app].
    rewrite <- Ht. by rewrite ztake_app by by rewrite zlen_snoc.
  - intros s' [Hn|Hf]; [by rewrite andb_false_r in Hn|]. cbn [close_frames] in Hf.
    eapply (Hfail x4 s4 s' f4 _ []); [|done| |exact Hf]; [by eauto with cbb|].
    unfold f4. cbn [f_body extend app]. rewrite <- Ht, zlen_snoc, zlen_nil. lia.
Qed.
End ToText.

(** * SET OF *)

(** ** The comparison and the sort *)

Lemma memcmp_sign_sym a b : memcmp_sign b a = - memcmp_sign a b.
Proof.
  revert b. induction a as [|x a IH]; intros [|y b]; try done. cbn.
  destruct (Z.ltb_spec x y), (Z.ltb_spec y x); try lia. apply IH.
Qed.
Lemma memcmp_sign_eq a b : length a = length b -> memcmp_sign a b = 0 -> a = b.
Proof.
  revert b. induction a as [|x a IH]; intros [|y b] Hl; try done. cbn.
  destruct (Z.ltb_spec x y), (Z.ltb_spec y x); try done. intros H1. injection Hl as Hl.
  rewrite (IH b) by done. f_equal. lia.
Qed.

Lemma compare_sym a b : compare_set_of_element b a = - compare_set_of_element a b.
Proof.
  unfold compare_set_of_element. cbv zeta. rewrite (Z.eqb_sym (zlen b)).
  destruct (Z.ltb_spec (zlen a) (zlen b)), (Z.ltb_spec (zlen b) (zlen a)); try lia.
  - rewrite (memcmp_sign_sym (ztake (zlen a) a)). rewrite (proj2 (Z.eqb_neq (zlen a) _)) by lia.
    destruct (Z.eqb_spec (memcmp_sign (ztake (zlen a) a) (ztake (zlen a) b)) 0) as [->|Hn]; [done|].
    rewrite (proj2 (Z.eqb_neq (- _) 0)) by lia. done.
  - rewrite (memcmp_sign_sym (ztake (zlen b) a)). rewrite (proj2 (Z.eqb_neq (zlen a) _)) by lia.
    destruct (Z.eqb_spec (memcmp_sign (ztake (zlen b) a) (ztake (zlen b) b)) 0) as [->|Hn]; [done|].
    rewrite (proj2 (Z.eqb_neq (- _) 0)) by lia. done.
  - assert (zlen a = zlen b) as -> by lia. rewrite Z.eqb_refl, (memcmp_sign_sym (ztake (zlen b) a)).
    destruct (Z.eqb_spec (memcmp_sign (ztake (zlen b) a) (ztake (zlen b) b)) 0) as [->|Hn]; [done|].
    rewrite (proj2 (Z.eqb_neq (- _) 0)) by lia. done.
Qed.

(** Elements that compare equal are equal: the sort has one possible result. *)
Lemma compare_eq a b : compare_set_of_element a b = 0 -> a = b.
Proof.
  unfold compare_set_of_element. cbv zeta.
  destruct (Z.eqb_spec (memcmp_sign (ztake (if zlen a <? zlen b then zlen a else zlen b) a)
    (ztake (if zlen a <? zlen b then zlen a else zlen b) b)) 0) as [Hm|Hm]; [cbn [negb]|done].
  destruct (Z.eqb_spec (zlen a) (zlen b)) as [Hl|]; [|by destruct (_ <? _)].
  intros _. rewrite Hl, Z.ltb_irrefl in Hm. rewrite <- Hl in Hm at 1. rewrite ztake_all in Hm.
  rewrite ztake_all in Hm. apply memcmp_sign_eq; [|done]. unfold zlen in Hl. lia.
Qed.

(** The order of X.690 11.6: octet by octet, an encoding that another begins with first. *)
Fixpoint set_of_le (a b : list Z) : Prop :=
  match a, b with
  | [], _ => True
  | _ :: _, [] => False
  | x :: a, y :: b => x < y \/ x = y /\ set_of_le a b
  end.
Lemma compare_cons x a y b :
  compare_set_of_element (x :: a) (y :: b) = if x <? y then -1 else if y <? x then 1 else compare_set_of_element a b.
Proof.
  unfold compare_set_of_element. cbv zeta. rewrite !zlen_cons. pose proof (zlen_nonneg a). pose proof (zlen_nonneg b).
  assert (Hlt : (1 + zlen a <? 1 + zlen b) = (zlen a <? zlen b)) by (apply eq_true_iff_eq; rewrite !Z.ltb_lt; lia).
  assert (Heq : (1 + zlen a =? 1 + zlen b) = (zlen a =? zlen b)) by (apply eq_true_iff_eq; rewrite !Z.eqb_eq; lia).
  rewrite Hlt, Heq. clear Hlt Heq. set (k := if zlen a <? zlen b then zlen a else zlen b). assert (0 <= k) by (unfold k; destruct (zlen a <? zlen b); lia).
  assert (Htake : forall z (l : list Z), ztake (if zlen a <? zlen b then 1 + zlen a else 1 + zlen b) (z :: l) = z :: ztake k l).
  { intros z l. unfold k, ztake. destruct (zlen a <? zlen b); by rewrite Z2Nat.inj_add by lia. }
  rewrite !Htake. cbn [memcmp_sign]. destruct (x <? y); [done|]. by destruct (y <? x).
Qed.
Lemma set_of_le_compare a b : set_of_le a b <-> compare_set_of_element a b <= 0.
Proof.
  revert b. induction a as [|x a IH]; intros [|y b]; cbn [set_of_le]; [done| | |].
  - split; [|done]. intros _. unfold compare_set_of_element. cbv zeta. rewrite zlen_cons. pose proof (zlen_nonneg b). change (zlen (@nil Z)) with 0.
    rewrite (proj2 (Z.ltb_lt _ _)), (proj2 (Z.eqb_neq 0 (1 + zlen b))), !ztake_0 by lia. done.
  - split; [done|]. unfold compare_set_of_element. cbv zeta. rewrite zlen_cons. pose proof (zlen_nonneg a). change (zlen (@nil Z)) with 0.
    rewrite (proj2 (Z.ltb_ge _ _)), (proj2 (Z.eqb_neq (1 + zlen a) 0)), !ztake_0 by lia. cbn. lia.
  - rewrite compare_cons, IH. destruct (Z.ltb_spec x y), (Z.ltb_spec y x); lia.
Qed.

Lemma qsort_insert_perm x l : qsort_insert compare_set_of_element x l ≡ₚ x :: l.
Proof.
  induction l as [|y l IH]; [done|]. cbn. destruct (_ <=? 0); [done|]. rewrite IH. apply Permutation_swap.
Qed.
Lemma qsort_perm l : qsort compare_set_of_element l ≡ₚ l.
Proof. induction l as [|x l IH]; [done|]. cbn. by rewrite qsort_insert_perm, IH. Qed.

Lemma qsort_insert_sorted x l : Sorted set_of_le l -> Sorted set_of_le (qsort_insert compare_set_of_element x l).
Proof.
  assert (Hhd : forall y x l, ~ set_of_le x y -> HdRel set_of_le y l ->
    HdRel set_of_le y (qsort_insert compare_set_of_element x l)).
  { intros y z [|w l'] Hn Hh; cbn.
    - constructor. rewrite set_of_le_compare in *. rewrite compare_sym. lia.
    - apply HdRel_inv in Hh. destruct (_ <=? 0); constructor; [|done].
      rewrite set_of_le_compare in *. rewrite compare_sym. lia. }
  induction l as [|y l IH]; intros Hs; cbn; [by repeat constructor|].
  apply Sorted_inv in Hs as [Hs Hh]. destruct (Z.leb_spec (compare_set_of_element x y) 0) as [Hle|Hgt].
  - constructor; [by constructor|]. constructor. by apply set_of_le_compare.
  - constructor; [by apply IH|]. apply Hhd; [|done]. rewrite set_of_le_compare. lia.
Qed.
Lemma qsort_sorted l : Sorted set_of_le (qsort compare_set_of_element l).
Proof. induction l as [|x l IH]; cbn; [constructor|by apply qsort_insert_sorted]. Qed.

Lemma zlen_concat_perm (l k : list (list Z)) : l ≡ₚ k -> zlen (concat l) = zlen (concat k).
Proof.
  induction 1 as [|x l k _ IH|x y l|l k m _ IH1 _ IH2]; cbn; rewrite ?zlen_app; try lia.
Qed.

(** ** The elements *)

Definition element_ok (e : Z * list Z) : Prop := tag_ok e.1 /\ len_ok (zlen e.2).
Definition encoded (e : Z * list Z) : list Z := der e.1 e.2.

Lemma encoded_pos e : 2 <= zlen (encoded e).
Proof. unfold encoded, der. rewrite zlen_app. pose proof (zlen_der_header e.1 (zlen e.2)). pose proof (zlen_nonneg e.2). lia. Qed.

Lemma split_elements_spec es c :
  cbs_ok c -> Forall element_ok es -> view c = concat (encoded <$> es) ->
  wp split_elements
    (fun children _ => Forall cbs_ok children /\ view <$> children = encoded <$> es) (fun _ => False) c.
Proof.
  intros Hc Hes Hview. unfold split_elements. apply wp_bind, wp_get.
  eapply (wp_iter (fun children c' => cbs_ok c' /\ Forall cbs_ok children /\ exists es1 es2, es = es1 ++ es2 /\
            view <$> children = encoded <$> es1 /\ view c' = concat (encoded <$> es2))
            (fun _ c' => Z.to_nat (cbs_len c'))).
  - split_and!; [done|constructor|]. exists [], es. done.
  - unfold cbs_fuel. lia.
  - intros ch c' (Hc' & Hch & es1 & es2 & -> & Hv1 & Hv2). apply wp_bind, wp_get.
    pose proof (zlen_view c' Hc') as Hz. rewrite Hv2 in Hz. unfold CBS_len. rewrite <- Hz.
    destruct es2 as [|[tag con] es2]; cbn [fmap list_fmap concat] in *.
    + cbn. apply wp_ret. split; [done|]. by rewrite app_nil_r.
    + pose proof (encoded_pos (tag, con)). pose proof (zlen_nonneg (concat (encoded <$> es2))).
      rewrite zlen_app in *. rewrite (proj2 (Z.eqb_neq _ 0)) by lia. cbn [negb].
      apply Forall_app in Hes as [_ [[Ht Hl] _]%Forall_cons]. apply wp_bind.
      wp_call (cbs_get_any_asn1_element_complete false c' tag con); [done|done|done|exact Hv2| |done].
      intros [[out t] hl] c2 (Hc2 & Ho & _ & _ & Hvo & Hr). apply wp_ret. split.
      * split_and!; [done|apply Forall_app; auto|]. exists (es1 ++ [(tag, con)]), es2.
        rewrite <- app_assoc. split_and!; [done| |done]. rewrite !fmap_app, Hv1. cbn. by rewrite Hvo.
      * pose proof (zlen_view c2 Hc2) as Hz2. rewrite Hr in Hz2. pose proof (cbs_ok_len c' Hc').
        cbn [fmap] in Hz2. lia.
Qed.

Lemma read_children children :
  Forall cbs_ok children -> mapM (fun c => ptr_read (CBS_data c) (CBS_len c)) children = Some (view <$> children).
Proof.
  induction 1 as [|c l [Hc _] _ IH]; [done|].
  assert (Hread : ptr_read (CBS_data c) (CBS_len c) = Some (view c)).
  { unfold ptr_read, CBS_data, CBS_len. by rewrite (proj2 (Z.leb_le 0 _)), (proj2 (Z.leb_le (cbs_len c) _)) by lia. }
  simpl. rewrite Hread. simpl. by rewrite IH.
Qed.

Section SetOf.
Context `{alloc : Allocator}.

(** Going back to the start of the frame's contents. *)
Lemma rewind_spec b id x s ids fs f :
  rep s b x (ids ++ [id]) (fs ++ [f]) -> length ids = length fs ->
  rep (upd s b (base_with x (b_buf x) (zlen (flat fs) + plen (f_kind f)) (b_cap x)) (s_heap s)) b
    (base_with x (b_buf x) (zlen (flat fs) + plen (f_kind f)) (b_cap x)) (ids ++ [id]) (fs ++ [mkFrame (f_kind f) []]).
Proof.
  intros (Hnd & Hch & Hs & Hfr & Hx & Hb) Hl. pose proof (shape_prefix _ _ _ Hs) as Hpl.
  pose proof (shape_app _ _ _ Hs) as (_ & _ & Hpf). unfold plen_ok in Hpf.
  split_and!; [done| | |done|apply upd_lookup|].
  - apply chain_app in Hch as [H1 [H2 _]]; [|done..]. by apply chain_app.
  - destruct f as [k body]. exact (shape_extend fs (mkFrame k []) [] ltac:(
      destruct fs as [|g fs']; cbn in *; [done|]; destruct Hs as [? Hs];
      apply Forall_app in Hs as [? [? _]%Forall_cons]; split; [done|];
      apply Forall_app; split; [done|]; by apply Forall_cons)).
  - destruct Hb as (He & Hm & Hc & Hlen & spare & Hbuf). unfold buf_is, base_with. cbn.
    rewrite flat_app in *. cbn [flat f_kind f_body] in *. rewrite !app_nil_r in *.
    split_and!; [done..| |].
    + rewrite zlen_app, zlen_zrep by done. lia.
    + exists (f_body f ++ spare). by rewrite Hbuf, <- !app_assoc.
Qed.

(** Writing the elements back, into room that is known to be there. *)
Lemma write_back_spec b id x s ids fs k l total :
  rep s b x (ids ++ [id]) (fs ++ [mkFrame k []]) -> length ids = length fs ->
  Forall (fun e => zlen e <= 2 ^ 62) l ->
  zlen (flat (fs ++ [mkFrame k []])) + zlen (concat l) <= total -> total <= b_cap x ->
  wp (for_ 0 (length l) (fun i _ => e ← deref (zget l i); CBB_add_bytes id (P e) (zlen e)) tt)
    (fun _ s' => exists x', rep s' b x' (ids ++ [id]) (fs ++ [mkFrame k (concat l)]) /\ frame_ok b [id] s s')
    (fun _ => False) s.
Proof.
  intros Hr Hl Hlen Htot Hcap.
  eapply (wp_for (fun i _ s' => exists x', rep s' b x' (ids ++ [id]) (fs ++ [mkFrame k (concat (ztake i l))]) /\
    grown x x' /\ frame_ok b [id] s s')).
  - exists x. split_and!; [done|apply grown_refl|apply frame_refl].
  - intros j [] s' Hj (x' & Hr' & Hg & Hf). destruct (zget_lt l j) as [e He]; [unfold zlen; lia|].
    apply wp_bind. eapply wp_deref; [exact He|].
    assert (Hsplit : ztake (j + 1) l = ztake j l ++ [e]).
    { rewrite ztake_split by lia. f_equal. rewrite (zget_split _ _ _ He) at 1.
      rewrite zdrop_app by (rewrite zlen_ztake; unfold zlen in *; lia). done. }
    assert (Hrest : zlen (concat (ztake (j + 1) l)) <= zlen (concat l)).
    { rewrite <- (ztake_zdrop (j + 1) l) at 2. rewrite concat_app, zlen_app. zlist.
      pose proof (zlen_nonneg (concat (zdrop (j + 1) l))). lia. }
    rewrite Hsplit, concat_app in Hrest. cbn [concat] in Hrest. rewrite app_nil_r, zlen_app in Hrest.
    assert (Hread : ptr_read (P e) (zlen e) = Some e).
    { unfold ptr_read. cbn [ptr_bytes]. rewrite (proj2 (Z.leb_le 0 _)), (proj2 (Z.leb_le (zlen e) _)) by zlist.
      cbn. by rewrite ztake_all. }
    wp_call (appends_writes _ _ _ _ _ (CBB_add_bytes_spec b id (P e) (zlen e) e Hread ltac:(
      apply (Forall_lookup_1 _ _ (Z.to_nat j) e Hlen); unfold zget in He; by destruct (0 <=? j))));
      [exact Hr'|done| |].
    + intros [] s2 (? & x2 & [= <-] & _ & Hr2 & Hg2 & Hf2). exists x2. split_and!.
      * rewrite Hsplit, concat_app. cbn [concat]. rewrite app_nil_r. exact Hr2.
      * by eapply grown_trans.
      * by eapply frame_trans.
    + intros s2 (_ & _ & _ & Hno). destruct (Hno _ eq_refl) as [Hn _]. destruct Hg as [_ Hg].
      change (mkFrame k (concat (ztake j l))) with (extend (mkFrame k []) (concat (ztake j l))) in Hn.
      rewrite !zlen_flat_snoc in Hn. lia.
  - intros [] s' (x' & Hr' & _ & Hf). exists x'. split; [|done].
    change (0 + Z.of_nat (length l)) with (zlen l) in Hr'. by rewrite ztake_all in Hr'.
Qed.

Lemma CBB_flush_asn1_set_of_spec b id x s ids ids2 fs f fs2 bs es :
  rep s b x (ids ++ id :: ids2) (fs ++ f :: fs2) -> length ids = length fs ->
  close_frames fs2 = Some bs -> f_body f ++ bs = concat (encoded <$> es) ->
  Forall element_ok es -> bytes (f_body f ++ bs) -> zlen (f_body f ++ bs) <= 2 ^ 60 ->
  wp (CBB_flush_asn1_set_of id)
    (fun _ s' => exists x', rep s' b x' (ids ++ [id])
       (fs ++ [mkFrame (f_kind f) (concat (qsort compare_set_of_element (encoded <$> es)))]))
    (fun s' => (exists k, malloc_ok k (zlen (f_body f ++ bs) + 8) = false) \/
       (exists k, malloc_ok k (16 * zlen es + 8) = false) \/
       (errored s' b /\ no_room x (zlen (flat (fs ++ [extend f bs]))))) s.
Proof.
  intros Hr Hl Hcl Hbody Hes Hbytes Hshort. unfold CBB_flush_asn1_set_of. apply wp_bind.
  wp_call (CBB_flush_spec b id); [exact Hr|done| |].
  2: { intros s' (He & _ & _ & Hno). rewrite Hcl in Hno. cbn in Hno. rewrite app_nil_r in Hno. eauto. }
  intros ? s1 (bs' & ? & x1 & Hcl' & [= <-] & -> & Hr1 & _). rewrite Hcl in Hcl'. injection Hcl' as <-.
  rewrite app_nil_r in Hr1. set (f1 := extend f bs) in *.
  assert (Hbody1 : f_body f1 = concat (encoded <$> es)) by exact Hbody.
  assert (Hshort' : zlen (f_body f1) <= 2 ^ 60) by exact Hshort.
  assert (Hbytes1 : bytes (f_body f1)) by exact Hbytes.
  change (f_body f ++ bs) with (f_body f1). change (f_kind f) with (f_kind f1). clearbody f1. clear Hbody Hshort Hbytes.
  assert (Hfl : zlen (f_body f1) <= b_cap x1 /\ b_cap x1 <= cap_max).
  { pose proof (buf_is_len _ _ (rep_buf _ _ _ _ _ Hr1)) as [Hlen Hmax]. split; [|done].
    rewrite flat_app, zlen_app in Hlen. cbn [flat] in Hlen. rewrite !zlen_app in Hlen.
    pose proof (zlen_nonneg (flat fs)). pose proof (zlen_nonneg (zrep (plen (f_kind f1)) 0)).
    pose proof (zlen_nonneg (@nil Z)). lia. }
  destruct Hfl as [Hbl Hmax]. unfold cap_max in Hmax.
  apply wp_bind. wp_call CBB_data_spec; [exact Hr1|done| |done]. intros p ? [-> [t Hp]].
  apply wp_bind. wp_call CBB_len_spec; [exact Hr1|done| |done]. intros n ? [-> ->].
  assert (Hcok : forall q u, ptr_bytes q = f_body f1 ++ u -> cbs_ok (CBS_init q (zlen (f_body f1))) /\
            view (CBS_init q (zlen (f_body f1))) = concat (encoded <$> es)).
  { intros q u Hq. assert (Hv : view (CBS_init q (zlen (f_body f1))) = f_body f1).
    { unfold view, CBS_init. cbn. rewrite Hq. by apply ztake_app. }
    rewrite <- Hbody1. split; [|done]. unfold cbs_ok. rewrite Hv. cbn. rewrite Hq, zlen_app. unfold SIZE_MAX.
    pose proof (zlen_nonneg u). pose proof (zlen_nonneg (f_body f1)). split_and!; lia || exact Hbytes1. }
  destruct (Hcok p t Hp) as [Hok Hv]. apply wp_bind, wp_on.
  wp_call split_elements_spec; [exact Hok|exact Hes|exact Hv| |done]. intros counted ? [_ Hcnt].
  assert (Hnum : zlen counted = zlen es).
  { apply (f_equal length) in Hcnt. rewrite !length_fmap in Hcnt. unfold zlen. lia. }
  cbv beta iota. rewrite Hnum. destruct (Z.ltb_spec (zlen es) 2) as [Hsmall|Hbig].
  { apply wp_ret. exists x1. replace (qsort compare_set_of_element (encoded <$> es)) with (encoded <$> es).
    - rewrite <- Hbody1. by destruct f1.
    - destruct es as [|e [|e' es]]; [done|done|]. rewrite !zlen_cons in Hsmall. pose proof (zlen_nonneg es). lia. }
  assert (He2 : forall e, e ∈ encoded <$> es -> zlen e <= zlen (f_body f1)).
  { intros e He. rewrite Hbody1. apply list_elem_of_split in He as (l1 & l2 & ->).
    rewrite concat_app, zlen_app. cbn [concat]. rewrite zlen_app.
    pose proof (zlen_nonneg (concat l1)). pose proof (zlen_nonneg (concat l2)). lia. }
  assert (Hes2 : 2 * zlen es <= zlen (f_body f1)).
  { rewrite Hbody1. clear. induction es as [|e es IH]; [done|]. cbn [fmap list_fmap concat].
    rewrite zlen_app, zlen_cons. pose proof (encoded_pos e). cbn [fmap] in IH. lia. }
  change (UINT64_MAX / sizeof_CBS) with 1152921504606846975.
  rewrite (proj2 (Z.ltb_ge 1152921504606846975 _)) by lia.
  apply wp_bind. wp_call CBB_len_spec; [exact Hr1|done| |done]. intros n ? [-> ->].
  apply wp_bind. wp_call CBB_data_spec; [exact Hr1|done| |done]. intros q ? [-> [u Hq]].
  apply wp_bind. unfold in_heap. apply wp_zoom.
  assert (Hread : ptr_read q (zlen (f_body f1)) = Some (f_body f1)).
  { unfold ptr_read. rewrite Hq, zlen_app, ztake_app by done. pose proof (zlen_nonneg u).
    by rewrite (proj2 (Z.leb_le 0 _)), (proj2 (Z.leb_le _ (_ + _))) by lia. }
  wp_call BUF_memdup_spec; [exact Hread|lia| |done]. intros buf h Hbuf.
  apply wp_bind, wp_zoom. cbn [s_heap]. unfold sizeof_CBS.
  wp_call OPENSSL_malloc_spec; [lia| |done]. intros ch h' Hch.
  destruct buf as [l|]. 2: { apply wp_fail. by left. }
  destruct ch as [c|]. 2: { apply wp_fail. right. left. by rewrite (Z.mul_comm 16). }
  subst l. destruct (Hcok (P (f_body f1)) []) as [Hok2 Hv2]; [cbn; by rewrite app_nil_r|].
  apply wp_bind, wp_on. wp_call split_elements_spec; [exact Hok2|exact Hes|exact Hv2| |done].
  intros children ? [Hchok Hchv]. cbv beta iota. rewrite read_children, Hchv by done.
  apply wp_bind. eapply wp_deref; [done|].
  set (sorted := qsort compare_set_of_element (encoded <$> es)).
  set (s2 := mkStore (s_cbbs s1) (s_bases s1) (s_next s1) h').
  assert (Hr2 : rep s2 b x1 (ids ++ [id]) (fs ++ [f1])) by exact Hr1.
  change (mkStore _ _ _ h') with s2.
  apply wp_bind. unfold base_of. apply wp_bind. eapply wp_get_cbb; [by eapply rep_last|].
  cbn [c_base]. eapply wp_deref; [done|]. apply wp_bind. eapply wp_get_cbb; [by eapply rep_last|].
  cbn [c_offset c_pending_len_len]. apply wp_bind. eapply wp_get_base; [by eapply rep_base|].
  apply wp_bind. eapply wp_put_base; [by eapply rep_base|].
  pose proof (rewind_spec _ _ _ _ _ _ _ Hr2 Hl) as Hr3.
  pose proof (buf_is_len _ _ (rep_buf _ _ _ _ _ Hr1)) as [Hlen1 _].
  assert (Hz1 : zlen (flat (fs ++ [f1])) = zlen (flat (fs ++ [mkFrame (f_kind f1) []])) + zlen (f_body f1)).
  { rewrite <- zlen_flat_snoc. do 2 f_equal. by destruct f1. }
  pose proof (buf_is_len _ _ (rep_buf _ _ _ _ _ Hr3)) as [Hlen3 _].
  assert (Hu : u64 (zlen (flat fs) + plen (f_kind f1)) = zlen (flat fs) + plen (f_kind f1)).
  { pose proof (rep_buf _ _ _ _ _ Hr3) as (_ & _ & _ & Hbl3 & _). cbn in Hbl3.
    unfold u64. apply Z.mod_small. rewrite Hbl3. lia. }
  rewrite Hu. apply wp_bind.
  assert (Hperm : sorted ≡ₚ encoded <$> es) by apply qsort_perm.
  assert (Hzs : zlen (concat sorted) = zlen (f_body f1)) by (rewrite Hbody1; by apply zlen_concat_perm).
  eapply wp_mono; [apply (fun H => write_back_spec b id _ _ ids fs (f_kind f1) sorted
    (zlen (flat (fs ++ [f1]))) Hr3 Hl H)| |done]; [|lia|cbn; lia|].
  { apply Forall_forall. intros e He. rewrite Hperm in He. specialize (He2 e He). lia. }
  intros _ s4 (x4 & Hr4 & _). apply wp_bind. wp_call CBB_len_spec; [exact Hr4|done| |done].
  intros n ? [-> ->]. apply wp_assert; [cbn [f_body]; lia|]. by exists x4.
Qed.
End SetOf.

(** * The theorems *)

Section Theorems.
Context `{alloc : Allocator}.

(** C18. [CBB_add_asn1_oid_from_text] accepts exactly the dotted decimal texts of
    object identifiers (at least two components, no leading zero, a first
    component of at most 2, a second below 40 under 0 and 1, everything in 64
    bits), and appends the DER subidentifiers; on such a text it fails only when
    the buffer cannot hold them. *)
Theorem CBB_add_asn1_oid_from_text_exact b id text len s x ids ids2 fs f fs2 :
  cbs_ok (CBS_init text len) ->
  rep s b x (ids ++ id :: ids2) (fs ++ f :: fs2) -> length ids = length fs ->
  wp (CBB_add_asn1_oid_from_text id text len)
    (fun _ s' => exists a1 a2 vs bs x', oid_ok a1 a2 vs /\
       view (CBS_init text len) = oid_text a1 a2 vs /\ close_frames fs2 = Some bs /\
       rep s' b x' (ids ++ [id]) (fs ++ [extend f (bs ++ oid_der a1 a2 vs)]))
    (fun s' => forall a1 a2 vs, oid_ok a1 a2 vs -> view (CBS_init text len) = oid_text a1 a2 vs -> errored s' b) s.
Proof.
  intros Hc Hr Hl. pose proof (oid_from_text_sound b id text len s x ids ids2 fs f fs2 Hc Hr Hl) as Hs.
  assert (Hcomp : forall a1 a2 vs, oid_ok a1 a2 vs -> view (CBS_init text len) = oid_text a1 a2 vs ->
    wp (CBB_add_asn1_oid_from_text id text len)
      (fun _ s' => exists bs x', close_frames fs2 = Some bs /\
         rep s' b x' (ids ++ [id]) (fs ++ [extend f (bs ++ oid_der a1 a2 vs)]))
      (fun s' => errored s' b) s).
  { intros a1 a2 vs Hoid Hview.
    wp_call (oid_from_text_complete b id text len a1 a2 vs Hc Hoid Hview); [exact Hr|done| |by intros s' [? _]].
    intros ? s' (bs & ? & x' & Hcl & [= <-] & _ & Hr' & _). eauto. }
  unfold wp in *. destruct (CBB_add_asn1_oid_from_text id text len s) as [[] s'|s'|]; [| |done].
  - destruct Hs as (a1 & a2 & vs & Hoid & Hview). destruct (Hcomp a1 a2 vs Hoid Hview) as (bs & x' & ? & ?).
    by exists a1, a2, vs, bs, x'.
  - intros a1 a2 vs Hoid Hview. by apply (Hcomp a1 a2 vs).
Qed.

(** [CBS_asn1_oid_to_text] prints the DER contents of an object identifier as
    its dotted decimal text, NUL-terminated, and gives up only when the allocator
    refuses a request no larger than twice the text and 72 bytes. *)
Theorem CBS_asn1_oid_to_text_prints cbs a1 a2 vs s :
  cbs_ok cbs -> fresh_ok s -> oid_ok a1 a2 vs -> view cbs = oid_der a1 a2 vs ->
  wp (CBS_asn1_oid_to_text cbs)
    (fun txt _ => ztake (zlen (oid_text a1 a2 vs) + 1) (block_bytes txt) = oid_text a1 a2 vs ++ [0])
    (fun _ => refused_up_to (2 * zlen (oid_text a1 a2 vs) + 72)) s.
Proof. apply oid_to_text_complete. Qed.

(** C22. Errors are sticky: on a CBB whose buffer has met an error, or that its parent
    has closed or discarded, every operation that begins with a flush fails and changes
    nothing (those with a local child use up an address), so that no stale child is ever
    followed. The others do not look at the error: on a CBB with a buffer,
    [CBB_did_write] moves the length as long as it stays in the buffer and no child is
    open, and [CBB_discard_child] discards; the error stays. *)
Theorem CBB_dead_operations_fail s id child v n p :
  dead s id ->
  (CBB_flush id s = Fail s /\ CBB_add_u8 id v s = Fail s /\ CBB_add_u16 id v s = Fail s /\
   CBB_add_u24 id v s = Fail s /\ CBB_add_u32 id v s = Fail s /\ CBB_add_bytes id p n s = Fail s /\
   CBB_add_space id n s = Fail s /\ CBB_reserve id n s = Fail s /\
   CBB_add_u8_length_prefixed id child s = Fail s /\ CBB_add_u16_length_prefixed id child s = Fail s /\
   CBB_add_u24_length_prefixed id child s = Fail s /\ CBB_add_asn1 id child v s = Fail s /\
   (forall data_null len_null, CBB_finish id data_null len_null s = Fail s) /\
   CBB_add_asn1_oid_from_text id p n s = Fail s /\ CBB_flush_asn1_set_of id s = Fail s) /\
  (fresh_ok s ->
   let s' := mkStore (s_cbbs s) (s_bases s) (S (s_next s)) (s_heap s) in
   CBB_add_asn1_uint64 id v s = Fail s' /\ CBB_add_asn1_octet_string id p n s = Fail s' /\
   CBB_add_asn1_bool id v s = Fail s') /\
  (forall c b x,
   s_cbbs s !! id = Some (Some c) -> c_base c = Some b -> s_bases s !! b = Some x ->
   (c_child c = None -> 0 <= n -> 0 <= b_len x -> b_len x + n <= b_cap x < 2 ^ 64 ->
    CBB_did_write id n s = Ok tt (set_bases <[b := base_with x (b_buf x) (b_len x + n) (b_cap x)]> s)) /\
   (forall i ch, c_child c = Some i -> i <> id -> s_cbbs s !! i = Some (Some ch) ->
    exists s', CBB_discard_child id s = Ok tt s' /\
      s_bases s' = <[b := base_with x (b_buf x) (c_offset ch) (b_cap x)]> (s_bases s) /\
      s_cbbs s' !! id = Some (Some (mkCBB (Some b) None (c_offset c) (c_pending_len_len c)
                                      (c_pending_is_asn1 c) (c_is_top_level c))) /\ dead s' id)).
Proof.
  intros Hd. split; [|split].
  - split_and!; try by apply flush_first.
    + by apply CBB_flush_dead.
    + intros data_null len_null. pose proof Hd as (c & Hc & _). unfold CBB_finish, get_cbb, get, mbind, M_bind.
      rewrite Hc. cbn. destruct (c_is_top_level c); [|done]. cbn. by rewrite CBB_flush_dead.
  - intros Hf. cbv zeta. unfold CBB_add_asn1_uint64, CBB_add_asn1_octet_string, CBB_add_asn1_bool, CBB_add_asn1.
    split_and!; (etransitivity; [apply with_local_ext; intros; apply assoc_eq|by apply local_first]).
  - intros c b x Hc Hb Hx. split.
    + intros Hch Hn Hl Hcap. apply did_write_runs with c; done.
    + intros i ch Hch Hne Hi. by eapply discard_child_runs.
Qed.

(** C4. Text to DER and back: what the builder accepts as text, the parser prints
    as the same text, from any cursor over the finished bytes; the printer gives
    up only when the allocator refuses a request of at most twice the text's
    length and 72 bytes, and the builder, on the text of an object identifier,
    only with its buffer marked. *)
Theorem oid_text_roundtrip b id x s text len :
  cbs_ok (CBS_init text len) -> rep s b x [id] [mkFrame Top []] ->
  wp (CBB_add_asn1_oid_from_text id text len;; CBB_finish id false false)
    (fun '(buf, n) _ => forall c s2, cbs_ok c -> view c = ztake n (block_bytes buf) -> fresh_ok s2 ->
       wp (CBS_asn1_oid_to_text c)
         (fun txt _ => ztake (len + 1) (block_bytes txt) = view (CBS_init text len) ++ [0])
         (fun _ => refused_up_to (2 * len + 72)) s2)
    (fun s' => forall a1 a2 vs, oid_ok a1 a2 vs -> view (CBS_init text len) = oid_text a1 a2 vs -> errored s' b) s.
Proof.
  intros Hc Hr. apply wp_bind.
  pose proof (oid_from_text_sound b id text len s x [] [] [] (mkFrame Top []) [] Hc Hr eq_refl) as Hs.
  unfold wp at 1. unfold wp at 1 in Hs.
  destruct (CBB_add_asn1_oid_from_text id text len s) as [[] s1|s1|] eqn:E; [| |done].
  2: { intros a1 a2 vs Hoid Hview.
       pose proof (oid_from_text_complete b id text len a1 a2 vs Hc Hoid Hview s x [] [] [] (mkFrame Top []) [] Hr eq_refl) as Hw.
       unfold wp in Hw. rewrite E in Hw. apply Hw. }
  destruct Hs as (a1 & a2 & vs & Hoid & Hview).
  pose proof (oid_from_text_complete b id text len a1 a2 vs Hc Hoid Hview s x [] [] [] (mkFrame Top []) [] Hr eq_refl) as Hw.
  unfold wp in Hw. rewrite E in Hw. destruct Hw as (? & ? & x1 & [= <-] & [= <-] & _ & Hr1 & _). cbn [app] in Hr1.
  wp_call (CBB_finish_spec b id [] (extend (mkFrame Top []) (oid_der a1 a2 vs)) []); [exact Hr1| |].
  2: { intros s2 [Hn|[He _]]; [by rewrite andb_false_r in Hn|done]. }
  intros [buf n] s2 (? & spare & [= <-] & Hbuf & -> & _) c s3 Hc3 Hv3 Hf3.
  cbn [f_body extend] in *. rewrite app_nil_r in *. rewrite Hbuf, ztake_app in Hv3 by done.
  assert (Hlen : len = zlen (oid_text a1 a2 vs)) by (rewrite <- Hview, zlen_view; done).
  wp_call oid_to_text_complete; [exact Hc3|exact Hf3|exact Hoid|exact Hv3| |].
  - intros txt s4 Htxt. by rewrite Hview, Hlen.
  - intros s4 Hno. by rewrite Hlen.
Qed.

(** C19. [CBB_flush_asn1_set_of] reorders the DER elements of a SET OF into the
    order of X.690 11.6: the contents become the same elements, sorted by their
    encodings octet by octet, in the room they already take (it never grows the
    buffer). It fails only when the allocator refuses the copy of the contents or
    the array of [CBS]es, or when the buffer cannot hold the closed children. *)
Theorem CBB_flush_asn1_set_of_sorts b id x s ids ids2 fs f fs2 bs es :
  rep s b x (ids ++ id :: ids2) (fs ++ f :: fs2) -> length ids = length fs ->
  close_frames fs2 = Some bs -> f_body f ++ bs = concat (encoded <$> es) ->
  Forall element_ok es -> bytes (f_body f ++ bs) -> zlen (f_body f ++ bs) <= 2 ^ 60 ->
  wp (CBB_flush_asn1_set_of id)
    (fun _ s' => exists x' l, l ≡ₚ encoded <$> es /\ Sorted set_of_le l /\
       rep s' b x' (ids ++ [id]) (fs ++ [mkFrame (f_kind f) (concat l)]))
    (fun s' => (exists k, malloc_ok k (zlen (f_body f ++ bs) + 8) = false) \/
       (exists k, malloc_ok k (16 * zlen es + 8) = false) \/
       (errored s' b /\ no_room x (zlen (flat (fs ++ [extend f bs]))))) s.
Proof.
  intros. wp_call CBB_flush_asn1_set_of_spec; [done..| |done]. intros _ s' [x' Hr'].
  exists x'. eexists. split_and!; [apply qsort_perm|apply qsort_sorted|exact Hr'].
Qed.
End Theorems.

(** * Witnesses *)

#[local] Existing Instance plenty.

(** "2.999.3" and its DER contents. *)
Definition ex_oid_text : list Z := [50; 46; 57; 57; 57; 46; 51].
Definition ex_oid_cbs : CBS := CBS_init (P ex_oid_text) 7.
Lemma ex_oid_cbs_ok : cbs_ok ex_oid_cbs.
Proof. apply (cbs_of_ok ex_oid_text); [repeat constructor; done|done]. Qed.
Lemma ex_oid_ok : oid_ok 2 999 [3].
Proof. unfold oid_ok, UINT64_MAX. split_and!; try lia. repeat constructor; done. Qed.

Lemma CBB_add_asn1_oid_from_text_exact_witness :
  exists s', CBB_add_asn1_oid_from_text 1 (P ex_oid_text) 7 ex_empty = Ok tt s' /\
    exists a1 a2 vs, oid_ok a1 a2 vs /\ view ex_oid_cbs = oid_text a1 a2 vs.
Proof.
  pose proof (CBB_add_asn1_oid_from_text_exact 0 1 (P ex_oid_text) 7 ex_empty _ [] [] [] _ []
    ex_oid_cbs_ok ex_empty_rep eq_refl) as H.
  eexists. split; [vm_compute; reflexivity|]. eapply wp_ok in H; [|vm_compute; reflexivity].
  destruct H as (a1 & a2 & vs & _ & _ & H1 & H2 & _). by exists a1, a2, vs.
Defined.

(** A builder that has met an error: adding a byte fails, and writing one past the length
    works. *)
Definition ex_errored : store :=
  mkStore {[1%nat := Some (mkCBB (Some 0%nat) None 0 0 false true)]}
    {[0%nat := mkBase (Some [1; 2; 3; 4]) 2 4 true true]} 2%nat 0%nat.
Lemma ex_errored_dead : dead ex_errored 1.
Proof. eexists. split; [reflexivity|]. cbn. eexists. split; reflexivity. Qed.
Lemma CBB_dead_operations_fail_witness :
  CBB_add_u8 1 7 ex_errored = Fail ex_errored /\
  CBB_did_write 1 1 ex_errored =
    Ok tt (set_bases <[0%nat := mkBase (Some [1; 2; 3; 4]) 3 4 true true]> ex_errored).
Proof.
  destruct (CBB_dead_operations_fail ex_errored 1 0 7 1 NULL ex_errored_dead) as ((_ & H & _) & _ & Hw).
  split; [exact H|]. destruct (Hw _ 0%nat _ eq_refl eq_refl eq_refl) as [Hd _]. apply Hd; cbn; lia || reflexivity.
Defined.

Lemma CBS_asn1_oid_to_text_prints_witness :
  exists txt s', CBS_asn1_oid_to_text (cbs_of [0x88; 0x37; 3]) ex_empty = Ok txt s' /\
    ztake 8 (block_bytes txt) = ex_oid_text ++ [0].
Proof.
  assert (Hok : cbs_ok (cbs_of [0x88; 0x37; 3])) by (apply cbs_of_ok; [repeat constructor; done|done]).
  assert (Hfr : fresh_ok ex_empty) by apply ex_empty_rep.
  pose proof (CBS_asn1_oid_to_text_prints _ 2 999 [3] ex_empty Hok Hfr ex_oid_ok eq_refl) as H.
  assert (E : exists txt s', CBS_asn1_oid_to_text (cbs_of [0x88; 0x37; 3]) ex_empty = Ok txt s')
    by (eexists _, _; vm_compute; reflexivity).
  destruct E as (txt & s' & E). exists txt, s'. split; [exact E|]. exact (wp_ok _ _ _ _ _ _ H E).
Defined.

Lemma oid_text_roundtrip_witness :
  exists buf s', (CBB_add_asn1_oid_from_text 1 (P ex_oid_text) 7;; CBB_finish 1 false false) ex_empty
    = Ok (buf, 3) s' /\
    forall c s2, cbs_ok c -> view c = ztake 3 (block_bytes buf) -> fresh_ok s2 ->
      wp (CBS_asn1_oid_to_text c)
        (fun txt _ => ztake 8 (block_bytes txt) = ex_oid_text ++ [0])
        (fun _ => refused_up_to 86) s2.
Proof.
  assert (E : exists buf s', (CBB_add_asn1_oid_from_text 1 (P ex_oid_text) 7;; CBB_finish 1 false false) ex_empty
    = Ok (buf, 3) s') by (eexists _, _; vm_compute; reflexivity).
  destruct E as (buf & s' & E). exists buf, s'. split; [exact E|].
  pose proof (oid_text_roundtrip 0 1 _ ex_empty (P ex_oid_text) 7 ex_oid_cbs_ok ex_empty_rep) as H.
  exact (wp_ok _ _ _ _ _ _ H E).
Defined.

(** A SET OF two INTEGERs out of order. *)
Definition ex_set_base : cbb_buffer_st := ex_base [2; 1; 5; 2; 1; 3].
Definition ex_set : store :=
  mkStore {[1%nat := Some (mkCBB (Some 0%nat) None 0 0 false true)]} {[0%nat := ex_set_base]} 2%nat 0%nat.
Lemma ex_set_rep : rep ex_set 0 ex_set_base [1%nat] [mkFrame Top [2; 1; 5; 2; 1; 3]].
Proof.
  split_and!; try done.
  - apply NoDup_singleton.
  - intros j Hj. cbn in *. apply lookup_singleton_None. lia.
  - by apply ex_base_is.
Qed.

Lemma CBB_flush_asn1_set_of_sorts_witness :
  exists s', CBB_flush_asn1_set_of 1 ex_set = Ok tt s' /\ exists l, Sorted set_of_le l /\ l ≡ₚ [[2; 1; 5]; [2; 1; 3]].
Proof.
  pose proof (CBB_flush_asn1_set_of_sorts 0 1 _ ex_set [] [] [] _ [] [] [(2, [5]); (2, [3])] ex_set_rep eq_refl
    eq_refl eq_refl ltac:(repeat constructor; done) ltac:(repeat constructor; done) ltac:(done)) as H.
  eexists. split; [vm_compute; reflexivity|]. eapply wp_ok in H; [|vm_compute; reflexivity].
  destruct H as (x' & l & Hp & Hs & _). by exists l.
Defined.
