(* ===== verification/Cells.v ===== *)
(** Arrays of 64-bit cells (pointers, or words of a number) in the allocator's
    blocks of bytes, least significant byte first. *)
From S2P Require Import Prelude Mem Der MemFacts.

Definition sizeof_cell : Z := 8.
(** The bytes of an array of cells, least significant byte first, and back. *)
Definition of_cells (cs : list Z) : list Z := flat_map (fun c => rev (be 8 c)) cs.
Fixpoint to_cells_n (n : nat) (l : list Z) : list Z :=
  match n with
  | O => []
  | S n => be_val (rev (ztake sizeof_cell l)) :: to_cells_n n (zdrop sizeof_cell l)
  end.
Definition to_cells (l : list Z) : list Z := to_cells_n (Z.to_nat (zlen l / sizeof_cell)) l.

(** [OPENSSL_malloc] and [OPENSSL_realloc] of an array of cells. *)
Section CellAlloc.
Context `{alloc : Allocator}.
Definition malloc_cells (size : Z) : M heap (option (list Z)) :=
  p ← OPENSSL_malloc size; mret (to_cells <$> p).
Definition realloc_cells (data : list Z) (size : Z) : M heap (option (list Z)) :=
  p ← OPENSSL_realloc (Some (of_cells data)) size; mret (to_cells <$> p).
End CellAlloc.

Definition is_cell (c : Z) : Prop := 0 <= c < 2 ^ 64.

Lemma zlen_of_cells cs : zlen (of_cells cs) = 8 * zlen cs.
Proof.
  induction cs as [|c cs IH]; [done|]. unfold of_cells in *. cbn [flat_map].
  rewrite zlen_app, IH, zlen_cons. unfold zlen at 1. rewrite length_rev, length_be. lia.
Qed.

Lemma zlen_to_cells l : zlen (to_cells l) = zlen l / 8.
Proof.
  unfold to_cells, sizeof_cell. generalize l at 2. intros k.
  transitivity (Z.of_nat (Z.to_nat (zlen l / 8))); [|pose proof (zlen_nonneg l); pose proof (Z.div_pos (zlen l) 8); lia].
  revert k. generalize (Z.to_nat (zlen l / 8)). intros n.
  induction n as [|n IH]; intros k; [done|]. cbn [to_cells_n]. rewrite zlen_cons, IH. lia.
Qed.

Lemma to_cells_n_app cs n l :
  Forall is_cell cs -> to_cells_n (length cs + n) (of_cells cs ++ l) = cs ++ to_cells_n n l.
Proof.
  induction 1 as [|c cs Hc Hcs IH]; [done|]. unfold of_cells in *. cbn [length Nat.add to_cells_n flat_map].
  rewrite <- app_assoc. assert (zlen (rev (be 8 c)) = 8) as Hz by (unfold zlen; by rewrite length_rev).
  rewrite (ztake_app _ (rev (be 8 c))), (zdrop_app _ (rev (be 8 c))), rev_involutive, IH by done.
  rewrite be_val_be by (unfold is_cell in Hc; lia). done.
Qed.

Lemma to_cells_app cs l : Forall is_cell cs -> to_cells (of_cells cs ++ l) = cs ++ to_cells l.
Proof.
  intros Hcs. unfold to_cells, sizeof_cell. rewrite zlen_app, zlen_of_cells, Z.add_comm, (Z.mul_comm 8), Z.div_add by lia.
  pose proof (Z.div_pos (zlen l) 8 (zlen_nonneg l)). rewrite <- to_cells_n_app by done. f_equal. unfold zlen in *. lia.
Qed.

