(* ===== verification/Stack.v ===== *)
(** crypto/stack/stack.c: the growable array of pointers (_STACK). A pointer is
    its address, 0 is NULL; a comparison function is an identifier that
    [call_cmp] calls; libc's [qsort] and [bsearch] are the class [Libc_sort]. *)
From S2P Require Import Prelude Mem Der Cells.
From Stdlib Require Import Sorted.

(** * libc's sort and search *)

(** A comparison function that orders its arguments. *)
Record cmp_ok (cmp : Z -> Z -> Z) : Prop := {
  cmp_flip x y : cmp x y <= 0 <-> 0 <= cmp y x;
  cmp_trans x y z : cmp x y <= 0 -> cmp y z <= 0 -> cmp x z <= 0;
}.
Definition cmp_le (cmp : Z -> Z -> Z) (x y : Z) : Prop := cmp x y <= 0.

(** What the C standard promises: [qsort] sorts, and [bsearch] returns the index
    of some match in a sorted array, or nothing when there is none. Whatever the
    array, an index it returns is one of a match. *)
Class Libc_sort := {
  libc_qsort : (Z -> Z -> Z) -> list Z -> list Z;
  libc_bsearch : (Z -> Z -> Z) -> Z -> list Z -> option Z;
  qsort_law cmp l :
    cmp_ok cmp -> libc_qsort cmp l ≡ₚ l /\ StronglySorted (cmp_le cmp) (libc_qsort cmp l);
  qsort_length cmp l : length (libc_qsort cmp l) = length l;
  bsearch_match cmp key l i :
    libc_bsearch cmp key l = Some i -> exists x, zget l i = Some x /\ cmp key x = 0;
  bsearch_none cmp key l :
    cmp_ok cmp -> StronglySorted (cmp_le cmp) l -> libc_bsearch cmp key l = None ->
    Forall (fun x => cmp key x <> 0) l;
}.

Definition sizeof_ptr : Z := 8.

(** * The stack *)

Record STACK := mkSTACK {
  sk_num_ : Z;
  sk_data : list Z;
  sk_sorted_ : Z;
  sk_num_alloc : Z;
  sk_comp : option nat;
}.
Definition kMinSize : Z := 4.
Definition sizeof_STACK : Z := 40.

Definition with_data (sk : STACK) (num : Z) (data : list Z) (sorted : Z) : STACK :=
  mkSTACK num data sorted (sk_num_alloc sk) (sk_comp sk).

Section Stack.
Context `{alloc : Allocator} `{libc : Libc_sort}.
(** The comparison functions. *)
Variable call_cmp : nat -> Z -> Z -> Z.

(** The state of an operation: the stack it is given (or NULL) and the heap. *)
Definition sk_state : Type := option STACK * heap.

(** [if (sk == NULL) return d;] *)
Definition with_sk {A} (d : A) (k : STACK -> M sk_state A) : M sk_state A :=
  sk ← own; match sk with None => mret d | Some sk => k sk end.
Definition set_sk (sk : STACK) : M sk_state unit := set_own (Some sk).

Definition sk_new (comp : option nat) : M heap STACK :=
  ret ← OPENSSL_malloc sizeof_STACK;
  match ret with
  | None => fail
  | Some _ =>
      data ← malloc_cells (sizeof_ptr * kMinSize);
      match data with
      | None => fail
      | Some cells =>
          cells ← deref (zput cells 0 (zrep kMinSize 0));
          mret (mkSTACK 0 cells 0 kMinSize comp)
      end
  end.

Definition sk_new_null : M heap STACK := sk_new None.

Definition sk_num : M sk_state Z := with_sk 0 (fun sk => mret (sk_num_ sk)).

Definition sk_zero : M sk_state unit :=
  with_sk tt (fun sk =>
    if sk_num_ sk =? 0 then mret tt else
    data ← deref (zput (sk_data sk) 0 (zrep (sk_num_ sk) 0));
    set_sk (with_data sk 0 data 0)).

Definition sk_value (i : Z) : M sk_state Z :=
  with_sk 0 (fun sk => if sk_num_ sk <=? i then mret 0 else deref (zget (sk_data sk) i)).

Definition sk_set (i value : Z) : M sk_state Z :=
  with_sk 0 (fun sk =>
    if sk_num_ sk <=? i then mret 0 else
    data ← deref (zset (sk_data sk) i value);
    set_sk (with_data sk (sk_num_ sk) data (sk_sorted_ sk));;
    mret value).

(** The size of the grown array, and whether [n] pointers can be asked for. *)
Definition alloc_overflows (num_alloc new_alloc alloc_size : Z) : bool :=
  (new_alloc <? num_alloc) || negb (alloc_size / sizeof_ptr =? new_alloc).

Definition sk_grow (sk : STACK) : M sk_state STACK :=
  if sk_num_alloc sk <=? u64 (sk_num_ sk + 1) then
    let new_alloc := u64 (Z.shiftl (sk_num_alloc sk) 1) in
    let alloc_size := u64 (new_alloc * sizeof_ptr) in
    let new_alloc := if alloc_overflows (sk_num_alloc sk) new_alloc alloc_size
                     then u64 (sk_num_alloc sk + 1) else new_alloc in
    let alloc_size := u64 (new_alloc * sizeof_ptr) in
    if alloc_overflows (sk_num_alloc sk) new_alloc alloc_size then fail else
    data ← with_heap (realloc_cells (sk_data sk) alloc_size);
    match data with
    | None => fail
    | Some data => mret (mkSTACK (sk_num_ sk) data (sk_sorted_ sk) new_alloc (sk_comp sk))
    end
  else mret sk.

(** The cells [from, from + n) of an array. *)
Definition cells_at (data : list Z) (from n : Z) : option (list Z) :=
  if (0 <=? from) && (0 <=? n) && (from + n <=? zlen data) then Some (ztake n (zdrop from data)) else None.

(** Returns the number of elements; zero is a failure. *)
Definition sk_insert (p where_ : Z) : M sk_state Z :=
  sk ← own;
  match sk with
  | None => fail
  | Some sk =>
      sk ← sk_grow sk;
      set_sk sk;;
      data ← deref (if sk_num_ sk <=? where_ then zset (sk_data sk) (sk_num_ sk) p
                    else moved ← cells_at (sk_data sk) where_ (sk_num_ sk - where_);
                         data ← zput (sk_data sk) (where_ + 1) moved;
                         zset data where_ p);
      let num := u64 (sk_num_ sk + 1) in
      set_sk (with_data sk num data 0);;
      mret num
  end.

Definition sk_delete (where_ : Z) : M sk_state Z :=
  with_sk 0 (fun sk =>
    if sk_num_ sk <=? where_ then mret 0 else
    ret ← deref (zget (sk_data sk) where_);
    data ← deref (if where_ =? sk_num_ sk - 1 then Some (sk_data sk)
                  else moved ← cells_at (sk_data sk) (where_ + 1) (sk_num_ sk - where_ - 1);
                       zput (sk_data sk) where_ moved);
    set_sk (with_data sk (sk_num_ sk - 1) data (sk_sorted_ sk));;
    mret ret).

(** The loops that look for a pointer: the index of the first cell holding it. *)
Fixpoint find_ptr (data : list Z) (p i : Z) (n : nat) : option (option Z) :=
  match n with
  | O => Some None
  | S n =>
      x ← zget data i;
      if x =? p then Some (Some i) else find_ptr data p (i + 1) n
  end.

Definition sk_delete_ptr (p : Z) : M sk_state Z :=
  with_sk 0 (fun sk =>
    found ← deref (find_ptr (sk_data sk) p 0 (Z.to_nat (sk_num_ sk)));
    match found with Some i => sk_delete i | None => mret 0 end).

Definition sk_sort : M sk_state unit :=
  with_sk tt (fun sk =>
    match sk_comp sk with
    | None => mret tt
    | Some comp =>
        if negb (sk_sorted_ sk =? 0) then mret tt else
        elems ← deref (cells_at (sk_data sk) 0 (sk_num_ sk));
        data ← deref (zput (sk_data sk) 0 (libc_qsort (call_cmp comp) elems));
        set_sk (with_data sk (sk_num_ sk) data 1)
    end).

(** [while (idx > 0 && comp(&p, &data[idx - 1]) == 0) idx--;] *)
Fixpoint find_first (cmp : Z -> Z -> Z) (data : list Z) (p : Z) (idx : nat) : option Z :=
  match idx with
  | O => Some 0
  | S idx' =>
      x ← zget data (Z.of_nat idx');
      if cmp p x =? 0 then find_first cmp data p idx' else Some (Z.of_nat idx)
  end.

(** The index found; failing is returning zero. *)
Definition sk_find (p : Z) : M sk_state Z :=
  sk ← own;
  match sk with
  | None => fail
  | Some sk =>
      match sk_comp sk with
      | None =>
          found ← deref (find_ptr (sk_data sk) p 0 (Z.to_nat (sk_num_ sk)));
          match found with Some i => mret i | None => fail end
      | Some comp =>
          if p =? 0 then fail else
          sk_sort;;
          sk ← own;
          sk ← deref sk;
          elems ← deref (cells_at (sk_data sk) 0 (sk_num_ sk));
          match libc_bsearch (call_cmp comp) p elems with
          | None => fail
          | Some idx => deref (find_first (call_cmp comp) (sk_data sk) p (Z.to_nat idx))
          end
      end
  end.

Definition sk_shift : M sk_state Z :=
  with_sk 0 (fun sk => if sk_num_ sk =? 0 then mret 0 else sk_delete 0).

Definition sk_push (p : Z) : M sk_state Z :=
  sk ← own;
  match sk with
  | None => fail
  | Some sk => sk_insert p (sk_num_ sk)
  end.

Definition sk_pop : M sk_state Z :=
  with_sk 0 (fun sk => if sk_num_ sk =? 0 then mret 0 else sk_delete (sk_num_ sk - 1)).

Definition sk_dup (sk : option STACK) : M heap STACK :=
  match sk with
  | None => fail
  | Some sk =>
      ret ← sk_new (sk_comp sk);
      s ← realloc_cells (sk_data ret) (u64 (sizeof_ptr * sk_num_alloc sk));
      match s with
      | None => fail
      | Some s =>
          elems ← deref (cells_at (sk_data sk) 0 (sk_num_ sk));
          data ← deref (zput s 0 elems);
          mret (mkSTACK (sk_num_ sk) data (sk_sorted_ sk) (sk_num_alloc sk) (sk_comp sk))
      end
  end.

Definition sk_is_sorted : M sk_state Z := with_sk 1 (fun sk => mret (sk_sorted_ sk)).

Definition sk_set_cmp_func (comp : option nat) : M sk_state (option nat) :=
  sk ← own;
  sk ← deref sk;
  let sorted := if bool_decide (sk_comp sk = comp) then sk_sorted_ sk else 0 in
  set_sk (mkSTACK (sk_num_ sk) (sk_data sk) sorted (sk_num_alloc sk) comp);;
  mret (sk_comp sk).

(** The functions that take callbacks: these run in a state of the caller's. *)
Definition sk_pop_free {T} (sk : option STACK) (func : Z -> M T unit) : M T unit :=
  match sk with
  | None => mret tt
  | Some sk =>
      for_ 0 (Z.to_nat (sk_num_ sk)) (fun i _ =>
        x ← deref (zget (sk_data sk) i);
        if x =? 0 then mret tt else func x) tt
  end.

Definition sk_deep_copy {T} (sk : option STACK) (copy_func : Z -> M (T * heap) Z)
    (free_func : Z -> M (T * heap) unit) : M (T * heap) STACK :=
  ret ← with_heap (sk_dup sk);
  data ← for_ 0 (Z.to_nat (sk_num_ ret)) (fun i data =>
    x ← deref (zget data i);
    if x =? 0 then mret data else
    y ← copy_func x;
    data ← deref (zset data i y);
    if y =? 0 then
      for_ 0 (Z.to_nat i) (fun j _ =>
        z ← deref (zget data j);
        if z =? 0 then mret tt else free_func z) tt;;
      fail
    else mret data) (sk_data ret);
  mret (with_data ret (sk_num_ ret) data (sk_sorted_ ret)).
End Stack.
