(* ===== verification/StackThms.v ===== *)
(** Theorems about [Stack]: the operations of _STACK against lists of pointers,
    and what its [sorted] flag is worth. *)
From S2P Require Import Prelude Mem Der MemFacts Cells Stack.
From Stdlib Require Import Sorted.

Definition is_pointer (p : Z) : Prop := is_cell p.

(** The array holds the elements of [l], then cells nobody has written. *)
Definition stack_is (sk : STACK) (l : list Z) : Prop :=
  sk_num_ sk = zlen l /\ (exists spare, sk_data sk = l ++ spare) /\ Forall is_pointer l /\
  zlen (sk_data sk) = sk_num_alloc sk /\ 4 <= sk_num_alloc sk /\ sk_num_alloc sk * 8 < 2 ^ 63.

(** [p] put in front of the element at [w], or at the end. *)
Definition insert_at (w p : Z) (l : list Z) : list Z := ztake w l ++ p :: zdrop w l.
Definition delete_at (w : Z) (l : list Z) : list Z := ztake w l ++ zdrop (w + 1) l.
Definition update_at (w p : Z) (l : list Z) : list Z := ztake w l ++ p :: zdrop (w + 1) l.

(** * Arrays of pointers *)

Lemma cells_at_app l1 l2 l3 w n :
  w = zlen l1 -> n = zlen l2 -> cells_at (l1 ++ l2 ++ l3) w n = Some l2.
Proof.
  intros -> ->. unfold cells_at. zlist.
  rewrite (proj2 (Z.leb_le 0 (zlen l1))), (proj2 (Z.leb_le 0 (zlen l2))), (proj2 (Z.leb_le _ _)) by
    (pose proof (zlen_nonneg l1); pose proof (zlen_nonneg l2); pose proof (zlen_nonneg l3); lia).
  cbn. by rewrite zdrop_app, ztake_app by done.
Qed.

(** Cutting a list at an index inside it. *)
Lemma cut_at (l : list Z) w :
  0 <= w < zlen l -> exists l1 x l2, l = l1 ++ x :: l2 /\ w = zlen l1 /\
    (forall p, insert_at w p l = l1 ++ p :: x :: l2) /\ delete_at w l = l1 ++ l2 /\
    (forall p, update_at w p l = l1 ++ p :: l2).
Proof.
  intros Hw. destruct (zget_lt _ _ Hw) as [x Hx]. pose proof (zget_split _ _ _ Hx) as Hl.
  exists (ztake w l), x, (zdrop (w + 1) l). split; [done|]. rewrite zlen_ztake by lia. split; [done|].
  split; [|done]. intros p. unfold insert_at. do 2 f_equal. rewrite Hl at 1. rewrite zdrop_app; [done|]. rewrite zlen_ztake; lia.
Qed.

Lemma stack_is_intro num data sorted alloc comp l spare :
  data = l ++ spare -> num = zlen l -> Forall is_pointer l -> zlen data = alloc -> 4 <= alloc -> alloc * 8 < 2 ^ 63 ->
  stack_is (mkSTACK num data sorted alloc comp) l.
Proof. intros. unfold stack_is. cbn. split_and!; eauto. Qed.

Section Theorems.
Context `{alloc : Allocator} `{libc : Libc_sort}.
Variable call_cmp : nat -> Z -> Z -> Z.

(** The comparison function orders, and a raised [sorted] flag tells the truth. *)
Definition sorted_ok (sk : STACK) (l : list Z) : Prop :=
  sk_sorted_ sk <> 0 -> match sk_comp sk with
    | Some c => StronglySorted (cmp_le (call_cmp c)) l
    | None => True
    end.

(** A request of [size] bytes (and the prefix of the allocator) is refused. *)
Definition no_memory (size : Z) : Prop := exists n, malloc_ok n (size + 8) = false.

(** The operation left a stack of the elements [l'], and the rest of [sk] as it was
    with the flag [sorted]. *)
Definition becomes (sk : STACK) (sorted : Z) (l' : list Z) (s' : sk_state) : Prop :=
  exists sk', s'.1 = Some sk' /\ stack_is sk' l' /\ sk_comp sk' = sk_comp sk /\ sk_sorted_ sk' = sorted.







Lemma sk_set_spec sk l i v s :
  s.1 = Some sk -> stack_is sk l -> is_pointer v -> 0 <= i < zlen l ->
  wp (sk_set i v) (fun x s' => x = v /\ becomes sk (sk_sorted_ sk) (update_at i v l) s') (fun _ => False) s.
Proof.
  intros Hs (Hnum & (spare & Hdata) & Hptr & Hlen & Hmin & Hmax) Hv Hi. unfold sk_set, with_sk. apply wp_bind, wp_own.
  rewrite Hs, Hnum, Hdata, (proj2 (Z.leb_gt _ _)) by lia.
  destruct (cut_at l i) as (l1 & x & l2 & -> & -> & _ & _ & Hup); [lia|]. rewrite Hup, <- app_assoc. cbn [app].
  apply wp_bind. eapply wp_deref; [by apply zset_app|]. apply wp_bind, wp_set_own, wp_ret. split; [done|].
  eexists. split_and!; [done| |done..]. apply Forall_app in Hptr as [H1 [_ H2]%Forall_cons].
  eapply (stack_is_intro _ _ _ _ _ _ spare); [by rewrite <- app_assoc|zlist|apply Forall_app; split; [|constructor]; done| |done..].
  rewrite <- Hlen, Hdata. zlist.
Qed.


(** The linear search finds the first cell that holds the pointer. *)
Lemma find_ptr_spec l1 l2 spare p :
  ~ p ∈ l1 ->
  find_ptr (l1 ++ l2 ++ spare) p (zlen l1) (length l2) =
    Some ((fun i => zlen l1 + Z.of_nat i.1) <$> list_find (p =.) l2).
Proof.
  revert l1. induction l2 as [|x l2 IH]; intros l1 Hl1; [done|]. cbn [length find_ptr app].
  rewrite zget_middle by done. cbn [mbind option_bind list_find].
  destruct (Z.eqb_spec x p) as [->|Hne].
  - rewrite decide_True by done. cbn. do 2 f_equal. lia.
  - rewrite decide_False by done. replace (l1 ++ x :: l2 ++ spare) with ((l1 ++ [x]) ++ l2 ++ spare) by (by rewrite <- app_assoc).
    rewrite <- (zlen_snoc l1 x). rewrite IH by (rewrite elem_of_app, list_elem_of_singleton; intros [?|?]; congruence). f_equal.
    destruct (list_find (p =.) l2) as [[i y]|]; [|done]. cbn. f_equal. zlist.
Qed.

Lemma find_ptr_stack sk l p :
  stack_is sk l -> find_ptr (sk_data sk) p 0 (Z.to_nat (sk_num_ sk)) = Some ((fun i => Z.of_nat i.1) <$> list_find (p =.) l).
Proof.
  intros (-> & (spare & ->) & _). unfold zlen. rewrite Nat2Z.id.
  apply (find_ptr_spec [] l spare). apply not_elem_of_nil.
Qed.


Lemma sk_sort_spec sk l s :
  s.1 = Some sk -> stack_is sk l -> sorted_ok sk l -> (forall c, sk_comp sk = Some c -> cmp_ok (call_cmp c)) ->
  wp (sk_sort call_cmp)
    (fun _ s' => exists sk' l', s'.1 = Some sk' /\ stack_is sk' l' /\ l' ≡ₚ l /\ sk_comp sk' = sk_comp sk /\
       match sk_comp sk with Some c => StronglySorted (cmp_le (call_cmp c)) l' | None => l' = l end)
    (fun _ => False) s.
Proof.
  intros Hs Hsk Hok Hcmp. pose proof Hsk as (Hnum & (spare & Hdata) & Hptr & Hlen & Hmin & Hmax).
  unfold sk_sort, with_sk. apply wp_bind, wp_own. rewrite Hs. unfold sorted_ok in Hok.
  destruct (sk_comp sk) as [c|] eqn:Hc; [|apply wp_ret; exists sk, l; by split_and!; auto].
  destruct (Z.eqb_spec (sk_sorted_ sk) 0) as [E|E]; cbn [negb]; [|apply wp_ret; exists sk, l; by split_and!; auto].
  rewrite Hdata, Hnum. apply wp_bind. eapply wp_deref; [by apply (cells_at_app [] l)|].
  destruct (qsort_law (call_cmp c) l (Hcmp c eq_refl)) as [Hperm Hsorted].
  assert (zlen (libc_qsort (call_cmp c) l) = zlen l) as Hz by (unfold zlen; by rewrite qsort_length).
  apply wp_bind. eapply wp_deref; [by apply (zput_app [] l)|]. apply wp_set_own.
  eexists _, _. split_and!; [done| |exact Hperm|done|exact Hsorted].
  eapply stack_is_intro; [done|lia|by rewrite Hperm| |done..]. rewrite <- Hlen, Hdata. cbn [app]. rewrite !zlen_app. lia.
Qed.

(** In a sorted array the matches are consecutive, so that going back from one as
    long as its neighbour matches reaches the first. *)
Lemma find_first_spec cmp l1 l2 p :
  cmp_ok cmp -> StronglySorted (cmp_le cmp) l1 -> Forall (fun x => cmp p x <= 0 -> cmp p x = 0) l1 ->
  exists i, find_first cmp (l1 ++ l2) p (length l1) = Some (Z.of_nat i) /\ (i <= length l1)%nat /\
    Forall (fun x => 0 < cmp p x) (take i l1) /\ Forall (fun x => cmp p x = 0) (drop i l1).
Proof.
  intros Hcmp. revert l2. induction l1 as [|x l1 IH] using rev_ind; intros l2 Hsort Hall; [by exists 0%nat|].
  apply Forall_app in Hall as [Hall Hx]. rewrite Forall_singleton in Hx.
  assert (StronglySorted (cmp_le cmp) l1 /\ Forall (fun y => cmp_le cmp y x) l1) as [Hsort1 Hle].
  { clear -Hsort. induction l1 as [|y l1 IH]; [by split; constructor|]. inversion Hsort as [|? ? H1 H2]; subst.
    destruct (IH H1). apply Forall_app in H2 as [H2 H3]. rewrite Forall_singleton in H3. split; constructor; cbn beta; assumption. }
  rewrite length_app, Nat.add_comm. cbn [length Nat.add find_first]. rewrite <- app_assoc. cbn [app].
  unfold zget. rewrite (proj2 (Z.leb_le _ _)), Nat2Z.id, list_lookup_middle by (done || lia). cbn [mbind option_bind].
  destruct (Z.eqb_spec (cmp p x) 0) as [E|E].
  - destruct (IH (x :: l2) Hsort1 Hall) as (i & -> & Hi & H1 & H2). exists i. split; [done|]. split; [lia|].
    rewrite take_app_le, drop_app_le by done. split; [done|]. apply Forall_app. by rewrite Forall_singleton.
  - assert (0 < cmp p x) as Hpx by lia. exists (S (length l1)). split; [done|]. split; [lia|].
    rewrite take_ge, drop_ge by (rewrite length_app; cbn; lia). split; [|done]. apply Forall_app. split; [|by apply Forall_singleton].
    eapply Forall_impl; [exact Hle|]. intros y Hy. cbn in Hy. destruct (Z.le_gt_cases (cmp p y) 0) as [Hpy|]; [|lia].
    pose proof (cmp_trans _ Hcmp p y x Hpy Hy). lia.
Qed.

Lemma sorted_app_l (R : Z -> Z -> Prop) l1 l2 : StronglySorted R (l1 ++ l2) -> StronglySorted R l1.
Proof.
  induction l1 as [|x l1 IH]; [constructor|]. cbn [app]. inversion 1 as [|? ? H1 H2]; subst. constructor; [auto|].
  by apply Forall_app in H2 as [? _].
Qed.

Lemma sorted_before (R : Z -> Z -> Prop) l1 x l2 :
  StronglySorted R (l1 ++ x :: l2) -> Forall (fun y => R y x) l1.
Proof.
  induction l1 as [|y l1 IH]; [constructor|]. cbn [app]. inversion 1 as [|? ? H1 H2]; subst. constructor; [|auto].
  rewrite Forall_app, Forall_cons in H2. apply H2.
Qed.

(** From a match of the binary search back to the first one. *)
Lemma first_match_spec cmp l spare p i x :
  cmp_ok cmp -> StronglySorted (cmp_le cmp) l -> zget l i = Some x -> cmp p x = 0 ->
  exists j y, find_first cmp (l ++ spare) p (Z.to_nat i) = Some j /\ zget l j = Some y /\ cmp p y = 0 /\
    Forall (fun x => 0 < cmp p x) (ztake j l).
Proof.
  intros Hcmp Hsort Hi Hx. pose proof (zget_Some _ _ _ Hi) as Hr. pose proof (zget_split _ _ _ Hi) as Hl.
  rewrite Hl in Hsort.
  assert (Hn : length (ztake i l) = Z.to_nat i) by (unfold ztake; rewrite length_take; unfold zlen in Hr; lia).
  destruct (find_first_spec cmp (ztake i l) (x :: zdrop (i + 1) l ++ spare) p) as (j & Hj & Hle & H1 & H2); [done|by eapply sorted_app_l| |].
  { eapply Forall_impl; [by eapply sorted_before|]. intros y Hy Hpy. cbn in Hy.
    (* y <= x and x = p, so p >= y *)
    assert (cmp x p <= 0) by (apply (cmp_flip _ Hcmp); lia).
    pose proof (cmp_trans _ Hcmp y x p Hy H) as Hyp. apply (cmp_flip _ Hcmp) in Hyp. lia. }
  rewrite Hn in Hj. assert (Hst : ztake i l ++ x :: zdrop (i + 1) l ++ spare = l ++ spare) by (rewrite Hl at 3; by rewrite <- app_assoc).
  rewrite Hst in Hj. rewrite Hn in Hle. exists (Z.of_nat j).
  assert (ztake (Z.of_nat j) l = take j (ztake i l)) as ->.
  { unfold ztake. rewrite take_take, Nat2Z.id. f_equal. lia. }
  unfold zget. rewrite (proj2 (Z.leb_le _ _)), Nat2Z.id by lia.
  destruct (decide (j = Z.to_nat i)) as [->|Hne].
  - unfold zget in Hi. rewrite (proj2 (Z.leb_le _ _)) in Hi by lia. eauto 6.
  - destruct (drop j (ztake i l)) as [|y l'] eqn:Hd.
    { apply (f_equal length) in Hd. rewrite length_drop, Hn in Hd. cbn in Hd. lia. }
    inversion H2 as [|? ? Hy _]; subst. exists y. split; [done|]. split; [|done].
    assert (Hlk : drop j (ztake i l) !! 0%nat = Some y) by (by rewrite Hd).
    rewrite lookup_drop, Nat.add_0_r in Hlk. unfold ztake in Hlk. by apply lookup_take_Some in Hlk as [? _].
Qed.

Lemma sk_find_spec sk l p c s :
  s.1 = Some sk -> stack_is sk l -> sorted_ok sk l -> sk_comp sk = Some c -> cmp_ok (call_cmp c) -> p <> 0 ->
  wp (sk_find call_cmp p)
    (fun i s' => exists sk' l' x, s'.1 = Some sk' /\ stack_is sk' l' /\ l' ≡ₚ l /\
       StronglySorted (cmp_le (call_cmp c)) l' /\ zget l' i = Some x /\ call_cmp c p x = 0 /\
       Forall (fun x => 0 < call_cmp c p x) (ztake i l'))
    (fun s' => Forall (fun x => call_cmp c p x <> 0) l) s.
Proof.
  intros Hs Hsk Hok Hc Hcmp Hp. unfold sk_find. apply wp_bind, wp_own. rewrite Hs, Hc, (proj2 (Z.eqb_neq _ _)) by done.
  apply wp_bind. wp_call sk_sort_spec; [exact Hs|exact Hsk|exact Hok|by intros c' [= <-]%(eq_trans (eq_sym Hc))| |done].
  intros [] s' (sk' & l' & Hs' & Hsk' & Hperm & Hc' & Hsorted). rewrite Hc in Hsorted.
  apply wp_bind, wp_own, wp_bind. eapply wp_deref; [exact Hs'|]. pose proof Hsk' as (Hnum & (spare & Hdata) & _).
  rewrite Hdata, Hnum. apply wp_bind. eapply wp_deref; [by apply (cells_at_app [] l')|].
  destruct (libc_bsearch (call_cmp c) p l') as [i|] eqn:Hb.
  - destruct (bsearch_match _ _ _ _ Hb) as (x & Hi & Hx).
    destruct (first_match_spec (call_cmp c) l' spare p i x Hcmp Hsorted Hi Hx) as (j & y & Hj & Hy & Hpy & Hall).
    eapply wp_deref; [exact Hj|]. exists sk', l', y. done.
  - apply wp_fail. rewrite <- Hperm. by apply bsearch_none.
Qed.

(** Without a comparison function the search compares addresses. *)
Lemma sk_find_ptr_spec sk l p s :
  s.1 = Some sk -> stack_is sk l -> sk_comp sk = None ->
  wp (sk_find call_cmp p)
    (fun i s' => s' = s /\ exists j, i = Z.of_nat j /\ list_find (p =.) l = Some (j, p))
    (fun s' => s' = s /\ ~ p ∈ l) s.
Proof.
  intros Hs Hsk Hc. unfold sk_find. apply wp_bind, wp_own. rewrite Hs, Hc. apply wp_bind.
  eapply wp_deref; [by apply find_ptr_stack|]. destruct (list_find (p =.) l) as [[i y]|] eqn:E; cbn [fmap option_fmap option_map fst].
  - apply wp_ret. split; [done|]. exists i. split; [done|]. by apply list_find_Some in E as (_ & <- & _).
  - apply wp_fail. split; [done|]. intros Hin. rewrite list_find_None, Forall_forall in E. by apply (E p Hin).
Qed.


Lemma delete_first x l : delete_at 0 (x :: l) = l.
Proof. done. Qed.



Lemma sk_new_spec comp h :
  wp (sk_new comp) (fun sk _ => stack_is sk [] /\ sk_comp sk = comp /\ sk_sorted_ sk = 0) (fun _ => no_memory 40 \/ no_memory 32) h.
Proof.
  unfold sk_new, sizeof_STACK, sizeof_ptr, kMinSize, malloc_cells. apply wp_bind.
  wp_call OPENSSL_malloc_spec; [lia| |done]. intros [b|] h'; [|intros [n Hn]; apply wp_fail; left; by exists n]. intros _.
  apply wp_bind, wp_bind. wp_call OPENSSL_malloc_spec; [lia| |done].
  intros [b'|] h2; [|intros [n Hn]; apply wp_ret, wp_fail; right; by exists n]. intros (Hz & _).
  apply wp_ret. cbn [fmap option_fmap option_map]. assert (zlen (to_cells b') = 4) as Hc by (by rewrite zlen_to_cells, Hz).
  apply wp_bind. eapply wp_deref; [by apply zput_Some; rewrite ?Hc|]. apply wp_ret. split; [|done].
  eapply (stack_is_intro _ _ _ _ _ []); [done..| |done|done].
  rewrite !zlen_app, ztake_0, zlen_zdrop by (rewrite Hc; done). by rewrite Hc.
Qed.


(** [sk_find] on a stack with a comparison function: when the [sorted] flag tells
    the truth (so that [sk_sort] may be skipped), it leaves the same elements in
    order and returns the index of the first one that compares equal, or returns
    zero, and then no element does. *)
Theorem sk_find_first sk l p c s :
  s.1 = Some sk -> stack_is sk l -> sorted_ok sk l -> sk_comp sk = Some c -> cmp_ok (call_cmp c) -> p <> 0 ->
  wp (sk_find call_cmp p)
    (fun i s' => exists sk' l' x, s'.1 = Some sk' /\ stack_is sk' l' /\ l' ≡ₚ l /\
       StronglySorted (cmp_le (call_cmp c)) l' /\ zget l' i = Some x /\ call_cmp c p x = 0 /\
       Forall (fun x => 0 < call_cmp c p x) (ztake i l'))
    (fun s' => Forall (fun x => call_cmp c p x <> 0) l) s.
Proof. apply sk_find_spec. Qed.

(** A defect: [sk_set] leaves the [sorted] flag up when the value it stores puts
    the elements out of order, so that the next [sk_sort] (and [sk_find], which
    relies on it) does nothing and searches an array that is not sorted. *)
Theorem sk_set_leaves_sorted_flag sk l i v c s :
  s.1 = Some sk -> stack_is sk l -> sk_sorted_ sk <> 0 -> sk_comp sk = Some c -> is_pointer v -> 0 <= i < zlen l ->
  ~ StronglySorted (cmp_le (call_cmp c)) (update_at i v l) ->
  wp (sk_set i v;; sk_sort call_cmp)
    (fun _ s' => exists sk', s'.1 = Some sk' /\ stack_is sk' (update_at i v l) /\ ~ sorted_ok sk' (update_at i v l))
    (fun _ => False) s.
Proof.
  intros Hs Hsk Hflag Hc Hv Hi Hns. apply wp_bind. wp_call sk_set_spec; [exact Hs|exact Hsk|done|done| |done].
  intros x [o h] (_ & sk' & Hs' & Hsk' & Hc' & Hf). cbn in Hs'. subst o. unfold sk_sort, with_sk. apply wp_bind, wp_own. cbn [fst].
  rewrite Hc', Hc, Hf, (proj2 (Z.eqb_neq _ _)) by done. apply wp_ret. exists sk'. split_and!; [done..|].
  unfold sorted_ok. rewrite Hf, Hc', Hc. auto.
Qed.
End Theorems.

(** * A concrete libc *)

Fixpoint insert_sorted (cmp : Z -> Z -> Z) (x : Z) (l : list Z) : list Z :=
  match l with
  | [] => [x]
  | y :: l => if cmp x y <=? 0 then x :: y :: l else y :: insert_sorted cmp x l
  end.
(** The loop of glibc's [bsearch] over the indices [lo, hi). *)
Fixpoint bsearch_loop (fuel : nat) (cmp : Z -> Z -> Z) (key : Z) (l : list Z) (lo hi : Z) : option Z :=
  match fuel with
  | O => None
  | S fuel =>
      if lo <? hi then
        let idx := (lo + hi) / 2 in
        match zget l idx with
        | None => None
        | Some x =>
            if cmp key x <? 0 then bsearch_loop fuel cmp key l lo idx
            else if 0 <? cmp key x then bsearch_loop fuel cmp key l (idx + 1) hi
            else Some idx
        end
      else None
  end.

Lemma cmp_le_total cmp x y : cmp_ok cmp -> cmp_le cmp x y \/ cmp_le cmp y x.
Proof. intros Hc. unfold cmp_le. destruct (Z.le_gt_cases (cmp x y) 0); [by left|right]. apply (cmp_flip _ Hc). lia. Qed.

Lemma insert_sorted_perm cmp x l : insert_sorted cmp x l ≡ₚ x :: l.
Proof.
  induction l as [|y l IH]; [done|]. cbn. destruct (cmp x y <=? 0); [done|]. rewrite IH. apply perm_swap.
Qed.
Lemma insert_sorted_sorted cmp x l :
  cmp_ok cmp -> StronglySorted (cmp_le cmp) l -> StronglySorted (cmp_le cmp) (insert_sorted cmp x l).
Proof.
  intros Hc. induction 1 as [|y l Hs IH Hy]; [by repeat constructor|]. cbn. destruct (Z.leb_spec (cmp x y) 0).
  - constructor; [by constructor|]. constructor; [done|]. eapply Forall_impl; [exact Hy|]. intros z Hz. by apply (cmp_trans _ Hc x y z).
  - constructor; [done|]. rewrite insert_sorted_perm. constructor; [|done]. destruct (cmp_le_total cmp x y Hc) as [Hle|]; [|done].
    unfold cmp_le in Hle. lia.
Qed.

Lemma sorted_lookup (R : Z -> Z -> Prop) l i j x y :
  StronglySorted R l -> i < j -> zget l i = Some x -> zget l j = Some y -> R x y.
Proof.
  intros Hs Hij Hx Hy. pose proof (zget_Some _ _ _ Hx). pose proof (zget_split _ _ _ Hy) as Hl.
  rewrite Hl in Hs. apply sorted_before in Hs. rewrite Hl, zget_app_l in Hx.
  - rewrite Forall_forall in Hs. apply Hs. unfold zget in Hx. destruct (0 <=? i); [|done]. by eapply list_elem_of_lookup_2.
  - rewrite zlen_ztake; [done|]. apply zget_Some in Hy. lia.
Qed.

Lemma bsearch_loop_match fuel cmp key l lo hi i :
  bsearch_loop fuel cmp key l lo hi = Some i -> exists x, zget l i = Some x /\ cmp key x = 0.
Proof.
  revert lo hi. induction fuel as [|fuel IH]; intros lo hi; cbn; [discriminate|]. destruct (lo <? hi); [|discriminate].
  destruct (zget l ((lo + hi) / 2)) as [x|] eqn:Hx; [|discriminate]. destruct (Z.ltb_spec (cmp key x) 0); [apply IH|].
  destruct (Z.ltb_spec 0 (cmp key x)); [apply IH|]. intros [= <-]. exists x. split; [done|lia].
Qed.

(** What is left of the array is where a match can be. *)
Lemma bsearch_loop_none fuel cmp key l lo hi :
  cmp_ok cmp -> StronglySorted (cmp_le cmp) l -> 0 <= lo -> hi <= zlen l -> hi - lo < Z.of_nat fuel ->
  bsearch_loop fuel cmp key l lo hi = None ->
  forall i x, lo <= i < hi -> zget l i = Some x -> cmp key x <> 0.
Proof.
  intros Hc Hs. revert lo hi. induction fuel as [|fuel IH]; intros lo hi Hlo Hhi Hf; [lia|]. cbn.
  destruct (Z.ltb_spec lo hi) as [Hlt|]; [|lia].
  assert (lo <= (lo + hi) / 2 < hi) by (split; [apply Z.div_le_lower_bound|apply Z.div_lt_upper_bound]; lia).
  set (idx := (lo + hi) / 2) in *. destruct (zget_lt l idx) as [y Hy]; [lia|]. rewrite Hy.
  destruct (Z.ltb_spec (cmp key y) 0) as [Hlt'|Hge].
  - intros Hn i x Hi Hx. destruct (Z.lt_ge_cases i idx); [by eapply (IH lo idx); try done; lia|]. intros Hz.
    destruct (decide (i = idx)) as [->|]; [congruence || (rewrite Hy in Hx; injection Hx as ->; lia)|].
    assert (cmp_le cmp y x) as Hle by (apply (sorted_lookup _ l idx i); done || lia).
    assert (cmp x key <= 0) by (apply (cmp_flip _ Hc); lia).
    pose proof (cmp_trans _ Hc y x key Hle H1) as Hle2. apply (cmp_flip _ Hc) in Hle2. lia.
  - destruct (Z.ltb_spec 0 (cmp key y)) as [Hgt|]; [|done].
    intros Hn i x Hi Hx. destruct (Z.lt_ge_cases idx i); [by eapply (IH (idx + 1) hi); try done; lia|]. intros Hz.
    destruct (decide (i = idx)) as [->|]; [rewrite Hy in Hx; injection Hx as ->; lia|].
    assert (cmp_le cmp x y) as Hle by (apply (sorted_lookup _ l i idx); done || lia).
    assert (cmp key x <= 0) as Hkx by lia. pose proof (cmp_trans _ Hc key x y Hkx Hle). lia.
Qed.

#[refine] Definition glibc : Libc_sort := {|
  libc_qsort cmp l := foldr (insert_sorted cmp) [] l;
  libc_bsearch cmp key l := bsearch_loop (S (length l)) cmp key l 0 (zlen l);
|}.
Proof.
  - intros cmp l Hc. induction l as [|x l [Hp Hs]]; [split; [done|constructor]|]. cbn.
    split; [by rewrite insert_sorted_perm, Hp|by apply insert_sorted_sorted].
  - intros cmp l. induction l as [|x l IH]; [done|]. cbn. rewrite (Permutation_length (insert_sorted_perm _ _ _)). cbn. by rewrite IH.
  - intros cmp key l i. apply bsearch_loop_match.
  - intros cmp key l Hc Hs Hn. apply Forall_forall. intros x Hx.
    apply list_elem_of_lookup_1 in Hx as [i Hi]. pose proof (lookup_lt_Some _ _ _ Hi).
    assert (zget l (Z.of_nat i) = Some x) as Hg by (unfold zget; by rewrite (proj2 (Z.leb_le _ _)), Nat2Z.id by lia).
    apply (bsearch_loop_none (S (length l)) cmp key l 0 (zlen l) Hc Hs) with (i := Z.of_nat i); unfold zlen in *; try lia; done.
Defined.

(** * Witnesses *)

#[local] Existing Instance plenty.
#[local] Existing Instance glibc.

(** Ordering by address. *)
Definition by_address (_ : nat) (x y : Z) : Z := x - y.
Lemma by_address_ok c : cmp_ok (by_address c).
Proof. split; unfold by_address; lia. Qed.
Definition ex_stack (sorted : Z) (l : list Z) : STACK := mkSTACK (zlen l) (l ++ [0]) sorted (zlen l + 1) (Some 0%nat).
Lemma ex_stack_is sorted a b c : is_pointer a -> is_pointer b -> is_pointer c -> stack_is (ex_stack sorted [a; b; c]) [a; b; c].
Proof. intros. eapply (stack_is_intro _ _ _ _ _ _ [0]); try done. repeat (apply Forall_cons; split; [done|]). constructor. Qed.


Lemma sk_find_first_witness :
  exists s', sk_find by_address 2 (Some (ex_stack 0 [3; 2; 1]), 0%nat) = Ok 1 s' /\
    exists l' x, l' ≡ₚ [3; 2; 1] /\ zget l' 1 = Some x /\ by_address 0 2 x = 0.
Proof.
  pose proof (sk_find_first by_address (ex_stack 0 [3; 2; 1]) [3; 2; 1] 2 0%nat (Some (ex_stack 0 [3; 2; 1]), 0%nat)
    eq_refl ltac:(by apply ex_stack_is) ltac:(by intros []) eq_refl (by_address_ok _) ltac:(done)) as H.
  eexists. split; [vm_compute; reflexivity|]. eapply wp_ok in H; [|vm_compute; reflexivity].
  destruct H as (sk' & l' & x & _ & _ & Hp & _ & Hx & Hc & _). by exists l', x.
Defined.

(** After [sk_set] the element is in the stack and [sk_find] does not find it. *)
Lemma sk_set_leaves_sorted_flag_witness :
  (exists s', (sk_set 0 9;; sk_sort by_address) (Some (ex_stack 1 [1; 2; 3]), 0%nat) = Ok tt s' /\
     exists sk', s'.1 = Some sk' /\ stack_is sk' [9; 2; 3] /\ ~ sorted_ok by_address sk' [9; 2; 3]) /\
  exists s', (sk_set 0 9;; sk_find by_address 9) (Some (ex_stack 1 [1; 2; 3]), 0%nat) = Fail s'.
Proof.
  split; [|eexists; vm_compute; reflexivity].
  assert (Hns : ~ StronglySorted (cmp_le (by_address 0)) (update_at 0 9 [1; 2; 3])).
  { intros Hs. inversion Hs as [|? ? _ Hall]; subst. inversion Hall as [|? ? Hle _]; subst. unfold cmp_le, by_address in Hle. lia. }
  pose proof (sk_set_leaves_sorted_flag by_address (ex_stack 1 [1; 2; 3]) [1; 2; 3] 0 9 0%nat (Some (ex_stack 1 [1; 2; 3]), 0%nat)
    eq_refl ltac:(by apply ex_stack_is) ltac:(done) eq_refl ltac:(done) ltac:(done) Hns) as H.
  eexists. split; [vm_compute; reflexivity|]. eapply wp_ok in H; [|vm_compute; reflexivity]. exact H.
Defined.
