(* ===== verification/Lhash.v ===== *)
(** crypto/lhash/lhash.c: the chained hash table (_LHASH). The LHASH_ITEMs live in a store
    under their addresses, an address being the number of the request that got it and 0
    NULL; a freed item is no longer in the store. The hash and comparison functions are
    identifiers that [call_hash] and [call_comp] call. *)
From S2P Require Import Prelude Mem Cells.

Record LHASH_ITEM := mkItem {
  li_data : Z;
  li_next : Z;
  li_hash : Z;
}.
Record LHASH := mkLHASH {
  lh_num_items_ : Z;
  lh_buckets : list Z;
  lh_num_buckets : Z;
  lh_callback_depth : Z;
  lh_comp : nat;
  lh_hash : nat;
}.
Definition kMinNumBuckets : Z := 16.
Definition kMaxAverageChainLength : Z := 2.
Definition kMinAverageChainLength : Z := 1.
Definition sizeof_LHASH : Z := 48.
Definition sizeof_LHASH_ITEM : Z := 24.

(** The table an operation is given (or NULL), its items, and the requests made so far. *)
Record lh_state := mkLh {
  lh_table : option LHASH;
  lh_items : gmap Z LHASH_ITEM;
  lh_requests : heap;
}.

(** What a [LHASH_ITEM **] points to: a bucket, or the [next] of an item. *)
Inductive link := Bucket (i : Z) | NextOf (a : Z).

Definition with_next (v : Z) (it : LHASH_ITEM) : LHASH_ITEM := mkItem (li_data it) v (li_hash it).
Definition with_data (d : Z) (it : LHASH_ITEM) : LHASH_ITEM := mkItem d (li_next it) (li_hash it).
Definition with_buckets (n : Z) (bs : list Z) (lh : LHASH) : LHASH :=
  mkLHASH (lh_num_items_ lh) bs n (lh_callback_depth lh) (lh_comp lh) (lh_hash lh).
Definition with_num (n : Z) (lh : LHASH) : LHASH :=
  mkLHASH n (lh_buckets lh) (lh_num_buckets lh) (lh_callback_depth lh) (lh_comp lh) (lh_hash lh).
Definition with_depth (d : Z) (lh : LHASH) : LHASH :=
  mkLHASH (lh_num_items_ lh) (lh_buckets lh) (lh_num_buckets lh) d (lh_comp lh) (lh_hash lh).

Section Lhash.
Context `{alloc : Allocator}.
(** The comparison and the hash functions ([uint32_t]). *)
Variable call_comp : nat -> Z -> Z -> Z.
Variable call_hash : nat -> Z -> Z.

Definition lh_get : M lh_state LHASH := s ← get; deref (lh_table s).
Definition lh_put (lh : LHASH) : M lh_state unit := modify (fun s => mkLh (Some lh) (lh_items s) (lh_requests s)).
Definition item_get (a : Z) : M lh_state LHASH_ITEM := s ← get; deref (lh_items s !! a).
Definition item_put (a : Z) (it : LHASH_ITEM) : M lh_state unit :=
  modify (fun s => mkLh (lh_table s) (<[a := it]> (lh_items s)) (lh_requests s)).
Definition on_requests {A} (m : M heap A) : M lh_state A :=
  zoom lh_requests (fun h s => mkLh (lh_table s) (lh_items s) h) m.

(** [OPENSSL_malloc(sizeof(LHASH_ITEM))]: the address, or NULL. *)
Definition item_malloc : M lh_state Z :=
  s ← get;
  p ← on_requests (OPENSSL_malloc sizeof_LHASH_ITEM);
  mret (match p with None => 0 | Some _ => Z.of_nat (lh_requests s) + 1 end).
Definition item_free (a : Z) : M lh_state unit :=
  item_get a;; modify (fun s => mkLh (lh_table s) (delete a (lh_items s)) (lh_requests s)).

(** [*p] and [*p = v] *)
Definition link_get (p : link) : M lh_state Z :=
  match p with
  | Bucket i => lh ← lh_get; deref (zget (lh_buckets lh) i)
  | NextOf a => it ← item_get a; mret (li_next it)
  end.
Definition link_set (p : link) (v : Z) : M lh_state unit :=
  match p with
  | Bucket i => lh ← lh_get; bs ← deref (zset (lh_buckets lh) i v); lh_put (with_buckets (lh_num_buckets lh) bs lh)
  | NextOf a => it ← item_get a; item_put a (with_next v it)
  end.

Definition lh_new (hash comp : nat) : M heap LHASH :=
  ret ← OPENSSL_malloc sizeof_LHASH;
  match ret with
  | None => fail
  | Some _ =>
      buckets ← malloc_cells (sizeof_cell * kMinNumBuckets);
      match buckets with
      | None => fail
      | Some bs =>
          bs ← deref (zput bs 0 (zrep kMinNumBuckets 0));
          mret (mkLHASH 0 bs kMinNumBuckets 0 comp hash)
      end
  end.

Definition lh_free : M lh_state unit :=
  s ← get;
  match lh_table s with
  | None => mret tt
  | Some lh =>
      for_ 0 (Z.to_nat (lh_num_buckets lh)) (fun i _ =>
        n ← deref (zget (lh_buckets lh) i);
        iter (S (size (lh_items s))) (fun n =>
          if n =? 0 then mret (inr tt) else
          it ← item_get n; item_free n;; mret (inl (li_next it))) n) tt;;
      modify (fun s => mkLh None (lh_items s) (lh_requests s))
  end.

Definition lh_num_items : M lh_state Z := lh ← lh_get; mret (lh_num_items_ lh).

(** The link to the item found (or to NULL), and the hash. *)
Definition get_next_ptr_and_hash (data : Z) : M lh_state (link * Z) :=
  s ← get;
  lh ← lh_get;
  let hash := u32 (call_hash (lh_hash lh) data) in
  ret ← iter (S (size (lh_items s))) (fun ret =>
    cur ← link_get ret;
    if cur =? 0 then mret (inr ret) else
    it ← item_get cur;
    if call_comp (lh_comp lh) (li_data it) data =? 0 then mret (inr ret) else
    mret (inl (NextOf cur))) (Bucket (hash mod lh_num_buckets lh));
  mret (ret, hash).

Definition lh_retrieve (data : Z) : M lh_state Z :=
  '(next_ptr, _) ← get_next_ptr_and_hash data;
  p ← link_get next_ptr;
  if p =? 0 then mret 0 else it ← item_get p; mret (li_data it).

(** One item moved to its new bucket, at the front. *)
Definition rebucket_step (new_num_buckets : Z) '((cur, new_buckets) : Z * list Z) : M lh_state (Z * list Z + list Z) :=
  if cur =? 0 then mret (inr new_buckets) else
  it ← item_get cur;
  let new_bucket := li_hash it mod new_num_buckets in
  head ← deref (zget new_buckets new_bucket);
  item_put cur (with_next head it);;
  new_buckets ← deref (zset new_buckets new_bucket cur);
  mret (inl (li_next it, new_buckets)).

Definition lh_rebucket (new_num_buckets : Z) : M lh_state unit :=
  let alloc_size := u64 (sizeof_cell * new_num_buckets) in
  if negb (alloc_size / sizeof_cell =? new_num_buckets) then mret tt else
  new_buckets ← on_requests (malloc_cells alloc_size);
  match new_buckets with
  | None => mret tt
  | Some bs =>
      bs ← deref (zput bs 0 (zrep new_num_buckets 0));
      s ← get;
      lh ← lh_get;
      bs ← for_ 0 (Z.to_nat (lh_num_buckets lh)) (fun i bs =>
        cur ← deref (zget (lh_buckets lh) i);
        iter (S (size (lh_items s))) (rebucket_step new_num_buckets) (cur, bs)) bs;
      lh_put (with_buckets new_num_buckets bs lh)
  end.

Definition lh_maybe_resize : M lh_state unit :=
  lh ← lh_get;
  if 0 <? lh_callback_depth lh then mret tt else
  assert_ (kMinNumBuckets <=? lh_num_buckets lh);;
  let avg_chain_length := lh_num_items_ lh / lh_num_buckets lh in
  if kMaxAverageChainLength <? avg_chain_length then
    let new_num_buckets := u64 (lh_num_buckets lh * 2) in
    if lh_num_buckets lh <? new_num_buckets then lh_rebucket new_num_buckets else mret tt
  else if (avg_chain_length <? kMinAverageChainLength) && (kMinNumBuckets <? lh_num_buckets lh) then
    let new_num_buckets := lh_num_buckets lh / 2 in
    lh_rebucket (if new_num_buckets <? kMinNumBuckets then kMinNumBuckets else new_num_buckets)
  else mret tt.

(** The old data that is replaced, or NULL. *)
Definition lh_insert (data : Z) : M lh_state Z :=
  '(next_ptr, hash) ← get_next_ptr_and_hash data;
  p ← link_get next_ptr;
  if negb (p =? 0) then
    it ← item_get p;
    item_put p (with_data data it);;
    mret (li_data it)
  else
    item ← item_malloc;
    if item =? 0 then fail else
    item_put item (mkItem data 0 hash);;
    link_set next_ptr item;;
    lh ← lh_get;
    lh_put (with_num (u64 (lh_num_items_ lh + 1)) lh);;
    lh_maybe_resize;;
    mret 0.

Definition lh_delete (data : Z) : M lh_state Z :=
  '(next_ptr, _) ← get_next_ptr_and_hash data;
  p ← link_get next_ptr;
  if p =? 0 then mret 0 else
  it ← item_get p;
  link_set next_ptr (li_next it);;
  item_free p;;
  lh ← lh_get;
  lh_put (with_num (u64 (lh_num_items_ lh - 1)) lh);;
  lh_maybe_resize;;
  mret (li_data it).

(** * Iteration

    A callback runs on the table, and on a state of its own. It may add items to the chain
    it is called from, so that nothing bounds the turns beforehand: [fuel] is given. *)
Section Doall.
Context {T : Type}.
Definition on_table {A} (m : M lh_state A) : M (lh_state * T) A := zoom fst (fun l s => (l, s.2)) m.

Definition lh_doall_internal (fuel : nat) (no_arg_func : Z -> M (lh_state * T) unit)
    (arg_func : option (Z -> Z -> M (lh_state * T) unit)) (arg : Z) : M (lh_state * T) unit :=
  s ← get;
  match lh_table s.1 with
  | None => mret tt
  | Some lh =>
      on_table (lh_put (if lh_callback_depth lh <? UINT_MAX then with_depth (lh_callback_depth lh + 1) lh else lh));;
      iter (S (Z.to_nat (lh_num_buckets lh))) (fun i =>
        lh ← on_table lh_get;
        if i <? lh_num_buckets lh then
          cur ← deref (zget (lh_buckets lh) i);
          iter fuel (fun cur =>
            if cur =? 0 then mret (inr tt) else
            it ← on_table (item_get cur);
            (match arg_func with
             | Some f => f (li_data it) arg
             | None => no_arg_func (li_data it)
             end);;
            mret (inl (li_next it))) cur;;
          mret (inl (i + 1))
        else mret (inr tt)) 0;;
      lh ← on_table lh_get;
      on_table (lh_put (if lh_callback_depth lh <? UINT_MAX then with_depth (u32 (lh_callback_depth lh - 1)) lh else lh));;
      on_table lh_maybe_resize
  end.
Definition lh_doall (fuel : nat) (func : Z -> M (lh_state * T) unit) : M (lh_state * T) unit :=
  lh_doall_internal fuel func None 0.
Definition lh_doall_arg (fuel : nat) (func : Z -> Z -> M (lh_state * T) unit) (arg : Z) : M (lh_state * T) unit :=
  lh_doall_internal fuel (fun _ => stuck) (Some func) arg.
End Doall.
End Lhash.

Definition lh_strhash (c : ptr) : option Z :=
  match c with NULL => Some 0 | P _ => n ← strlen c; OPENSSL_hash32 c n end.
