(* ===== verification/LhashFacts.v ===== *)
(** Facts about [Lhash]: chains of items, what a well-formed table is, and the set of data
    that it holds. *)
From S2P Require Import Prelude Mem MemFacts Cells Lhash.

(** * Chains *)

(** The items at [l], linked from [p] up to [q]. *)
Fixpoint seg (m : gmap Z LHASH_ITEM) (p q : Z) (l : list Z) : Prop :=
  match l with
  | [] => p = q
  | a :: l => p = a /\ a <> 0 /\ exists it, m !! a = Some it /\ seg m (li_next it) q l
  end.

Lemma seg_app m p q l1 l2 : seg m p q (l1 ++ l2) <-> exists r, seg m p r l1 /\ seg m r q l2.
Proof.
  revert p. induction l1 as [|a l1 IH]; intros p; cbn [app seg]; [split; [by exists p|by intros (r & -> & H)]|].
  split.
  - intros (-> & Ha & it & Hit & (r & H1 & H2)%IH). exists r. eauto 10.
  - intros (r & (-> & Ha & it & Hit & H1) & H2). split_and!; [done..|]. exists it. split; [done|]. apply IH. eauto.
Qed.
Lemma seg_snoc m p q l a : seg m p q (l ++ [a]) <-> seg m p a l /\ a <> 0 /\ exists it, m !! a = Some it /\ li_next it = q.
Proof. rewrite seg_app. cbn [seg]. split; [intros (r & H & -> & Ha & it & Hit & Hq); eauto|]. intros (H & Ha & it & Hit & Hq). eauto 10. Qed.

(** Only the links of the items matter. *)
Lemma seg_ext m m' p q l :
  (forall a it, a ∈ l -> m !! a = Some it -> exists it', m' !! a = Some it' /\ li_next it' = li_next it) -> seg m p q l -> seg m' p q l.
Proof.
  revert p. induction l as [|a l IH]; intros p H; [done|]. cbn [seg]. intros (-> & Ha & it & Hit & Hl). split_and!; [done..|].
  destruct (H a it) as (it' & Hit' & Hn); [by left|done|]. exists it'. split; [done|]. rewrite Hn. apply IH; [|done]. intros b ib Hb. apply H. by right.
Qed.
Lemma seg_eq m m' p q l : (forall a, a ∈ l -> m' !! a = m !! a) -> seg m p q l -> seg m' p q l.
Proof. intros H. apply seg_ext. intros a it Ha Hit. exists it. by rewrite H. Qed.
Lemma seg_det m p l l' : seg m p 0 l -> seg m p 0 l' -> l = l'.
Proof.
  revert p l'. induction l as [|a l IH]; intros p l'; cbn [seg].
  - intros ->. destruct l' as [|b l']; [done|]. cbn. naive_solver.
  - intros (-> & Ha & it & Hit & Hl). destruct l' as [|b l']; [cbn; naive_solver|]. cbn. intros (<- & _ & it' & Hit' & Hl').
    rewrite Hit in Hit'. injection Hit' as <-. f_equal. by eapply IH.
Qed.
Lemma seg_in m p q l a : seg m p q l -> a ∈ l -> a <> 0 /\ exists it, m !! a = Some it.
Proof.
  revert p. induction l as [|b l IH]; intros p; [intros _ H; by apply elem_of_nil in H|]. cbn [seg].
  intros (_ & Hb & it & Hit & Hl) [->|H]%elem_of_cons; [eauto|by eapply IH].
Qed.

(** The link behind [l] in bucket [i]. *)
Definition link_of (i : Z) (l : list Z) : link := match last l with None => Bucket i | Some a => NextOf a end.
Lemma link_of_snoc i l a : link_of i (l ++ [a]) = NextOf a.
Proof. unfold link_of. by rewrite last_snoc. Qed.

(** The same items, but for the links of those that satisfy [R]. *)
Definition upto (R : Z -> LHASH_ITEM -> Prop) (m m' : gmap Z LHASH_ITEM) : Prop :=
  forall a, option_Forall2 (fun it it' => li_data it' = li_data it /\ li_hash it' = li_hash it /\ (it' = it \/ R a it)) (m !! a) (m' !! a).

Lemma upto_refl R m : upto R m m.
Proof. intros a. destruct (m !! a); constructor. auto. Qed.
Lemma upto_some R m m' a it : upto R m m' -> m !! a = Some it -> exists it', m' !! a = Some it' /\ li_data it' = li_data it /\ li_hash it' = li_hash it /\ (it' = it \/ R a it).
Proof. intros H Ha. specialize (H a). rewrite Ha in H. inversion H; subst; eauto. Qed.
Lemma upto_some' R m m' a it : upto R m m' -> m' !! a = Some it -> exists it0, m !! a = Some it0 /\ li_data it = li_data it0 /\ li_hash it = li_hash it0 /\ (it = it0 \/ R a it0).
Proof. intros H Ha. specialize (H a). rewrite Ha in H. inversion H; subst; eauto. Qed.
Lemma upto_same R m m' a : upto R m m' -> (forall it, m !! a = Some it -> ~ R a it) -> m' !! a = m !! a.
Proof.
  intros H HR. specialize (H a). inversion H as [it it' (_ & _ & [->|Hr]) E1 E2|]; [done| |done]. exfalso. by eapply HR.
Qed.
Lemma upto_dom R m m' : upto R m m' -> dom m' = dom m.
Proof.
  intros H. apply set_eq. intros a. rewrite !elem_of_dom. specialize (H a). inversion H; split; intros [? ?]; eauto; done.
Qed.
Lemma upto_mono (R R' : Z -> LHASH_ITEM -> Prop) m m' : (forall a it, R a it -> R' a it) -> upto R m m' -> upto R' m m'.
Proof. intros HR H a. specialize (H a). inversion H as [it it' (H1 & H2 & H3)|]; constructor. naive_solver. Qed.
Lemma upto_trans (D : Z -> Prop) m1 m2 m3 : upto (fun a _ => D a) m1 m2 -> upto (fun a _ => D a) m2 m3 -> upto (fun a _ => D a) m1 m3.
Proof.
  intros H1 H2 a. specialize (H1 a). specialize (H2 a). inversion H1 as [x y (A1 & A2 & A3) E1 E2|E1 E2]; rewrite <- E2 in H2; inversion H2 as [y' z (B1 & B2 & B3)|].
  - constructor. split_and!; [congruence|congruence|]. naive_solver.
  - constructor.
Qed.
Lemma upto_put (R : Z -> LHASH_ITEM -> Prop) m a it v : m !! a = Some it -> R a it -> upto R m (<[a := with_next v it]> m).
Proof.
  intros Ha HR b. destruct (decide (b = a)) as [->|Hne].
  - rewrite Ha, lookup_insert_eq. constructor. cbn. auto.
  - rewrite lookup_insert_ne by done. apply upto_refl.
Qed.
Lemma size_of_dom (m m' : gmap Z LHASH_ITEM) : dom m' = dom m -> size m' = size m.
Proof. intros H. by rewrite <- !size_dom, H. Qed.

(** * Well-formed tables *)

Definition in_bucket (m : gmap Z LHASH_ITEM) (nb i a : Z) : Prop := exists it, m !! a = Some it /\ li_hash it mod nb = i.

(** The chain from [h] is made of the items of bucket [i]. *)
Definition bucket_list (m : gmap Z LHASH_ITEM) (nb i h : Z) (l : list Z) : Prop :=
  seg m h 0 l /\ NoDup l /\ forall a, a ∈ l <-> in_bucket m nb i a.
Definition buckets_ok (m : gmap Z LHASH_ITEM) (nb : Z) (bs : list Z) : Prop :=
  zlen bs = nb /\ forall i h, zget bs i = Some h -> exists l, bucket_list m nb i h l.

(** [comp] is an equivalence that [hash] respects. *)
Record functions_ok (comp : Z -> Z -> Z) (hash : Z -> Z) : Prop := {
  comp_refl x : comp x x = 0;
  comp_sym x y : comp x y = 0 -> comp y x = 0;
  comp_trans x y z : comp x y = 0 -> comp y z = 0 -> comp x z = 0;
  comp_hash x y : comp x y = 0 -> hash x = hash y;
}.

(** The data in the items. *)
Definition contents (m : gmap Z LHASH_ITEM) : gset Z := list_to_set ((li_data ∘ snd) <$> map_to_list m).
Lemma elem_of_contents m x : x ∈ contents m <-> exists a it, m !! a = Some it /\ li_data it = x.
Proof.
  unfold contents. rewrite elem_of_list_to_set, list_elem_of_fmap. split.
  - intros ([a it] & -> & H%elem_of_map_to_list). eauto.
  - intros (a & it & H & <-). exists (a, it). split; [done|]. by apply elem_of_map_to_list.
Qed.

Section Facts.
Context `{alloc : Allocator}.
Variable call_comp : nat -> Z -> Z -> Z.
Variable call_hash : nat -> Z -> Z.
#[local] Set Default Proof Using "Type".

Definition lh_eqv (lh : LHASH) (x y : Z) : Prop := call_comp (lh_comp lh) x y = 0.
Definition lh_hashes (lh : LHASH) (x : Z) : Z := u32 (call_hash (lh_hash lh) x).

(** The items: their hashes are those of their data, which no two share, and they were
    allocated before. *)
Definition items_ok (lh : LHASH) (m : gmap Z LHASH_ITEM) (h : heap) : Prop :=
  (forall a it, m !! a = Some it -> li_hash it = lh_hashes lh (li_data it) /\ 1 <= a <= Z.of_nat h) /\
  (forall a b ia ib, m !! a = Some ia -> m !! b = Some ib -> lh_eqv lh (li_data ia) (li_data ib) -> a = b).
Definition table_ok (lh : LHASH) (m : gmap Z LHASH_ITEM) (h : heap) : Prop :=
  functions_ok (call_comp (lh_comp lh)) (call_hash (lh_hash lh)) /\
  kMinNumBuckets <= lh_num_buckets lh < 2 ^ 60 /\
  buckets_ok m (lh_num_buckets lh) (lh_buckets lh) /\
  items_ok lh m h /\
  lh_num_items_ lh = u64 (Z.of_nat (size m)).

(** ** Looking up *)

Lemma wp_lh_get lh m h Q E : Q lh (mkLh (Some lh) m h) -> wp lh_get Q E (mkLh (Some lh) m h).
Proof. done. Qed.
Lemma wp_item_get t m h a it Q E : m !! a = Some it -> Q it (mkLh t m h) -> wp (item_get a) Q E (mkLh t m h).
Proof. intros Ha HQ. apply wp_bind, wp_get. by eapply wp_deref. Qed.
Lemma wp_item_put t m h a it (Q : unit -> lh_state -> Prop) E : Q tt (mkLh t (<[a := it]> m) h) -> wp (item_put a it) Q E (mkLh t m h).
Proof. done. Qed.
Lemma wp_on_requests {A} (f : M heap A) t m h Q E :
  wp f (fun a h' => Q a (mkLh t m h')) (fun h' => E (mkLh t m h')) h -> wp (on_requests f) Q E (mkLh t m h).
Proof. intros H. by apply wp_zoom. Qed.

Lemma link_get_spec lh m h i hd q l (Q : Z -> lh_state -> Prop) E :
  zget (lh_buckets lh) i = Some hd -> seg m hd q l -> Q q (mkLh (Some lh) m h) -> wp (link_get (link_of i l)) Q E (mkLh (Some lh) m h).
Proof.
  intros Hhd Hl HQ. destruct (snoc_or_nil l) as [->|(l' & a & ->)].
  - cbn in Hl. subst q. apply wp_bind, wp_lh_get. by eapply wp_deref.
  - rewrite link_of_snoc. apply seg_snoc in Hl as (_ & _ & it & Hit & <-). apply wp_bind. eapply wp_item_get; [exact Hit|]. by apply wp_ret.
Qed.

Lemma length_items (m : gmap Z LHASH_ITEM) l : NoDup l -> (forall a, a ∈ l -> is_Some (m !! a)) -> (length l <= size m)%nat.
Proof.
  intros Hnd Hin. rewrite <- size_dom, <- (size_list_to_set (C := gset Z) l) by done. apply subseteq_size. intros a Ha%elem_of_list_to_set.
  by apply elem_of_dom, Hin.
Qed.
Lemma bucket_size m nb i hd l : bucket_list m nb i hd l -> (length l <= size m)%nat.
Proof. intros (_ & Hnd & Hin). apply length_items; [done|]. intros a (it & Hit & _)%Hin. by eexists. Qed.

Definition bucket_of (lh : LHASH) (d : Z) : Z := lh_hashes lh d mod lh_num_buckets lh.
Lemma bucket_range lh m h i : table_ok lh m h -> exists hd, zget (lh_buckets lh) (i mod lh_num_buckets lh) = Some hd.
Proof.
  intros (_ & Hnb & [Hz _] & _). unfold kMinNumBuckets in Hnb. pose proof (Z.mod_pos_bound i (lh_num_buckets lh) ltac:(lia)). apply zget_lt. lia.
Qed.

(** Where the data [d] is, or where it would go: behind [pre] in its bucket, where [q] is. *)
Definition found (lh : LHASH) (m : gmap Z LHASH_ITEM) (d : Z) (lk : link) (q : Z) : Prop :=
  exists pre post hd,
    zget (lh_buckets lh) (bucket_of lh d) = Some hd /\ bucket_list m (lh_num_buckets lh) (bucket_of lh d) hd (pre ++ post) /\
    seg m hd q pre /\ seg m q 0 post /\ lk = link_of (bucket_of lh d) pre /\
    match post with
    | [] => forall a it, m !! a = Some it -> ~ lh_eqv lh (li_data it) d
    | _ => exists it, m !! q = Some it /\ lh_eqv lh (li_data it) d
    end.

Lemma get_next_ptr_and_hash_spec lh m h d :
  table_ok lh m h ->
  wp (get_next_ptr_and_hash call_comp call_hash d) (fun r s' => s' = mkLh (Some lh) m h /\ r.2 = lh_hashes lh d /\ exists q, found lh m d r.1 q) (fun _ => False) (mkLh (Some lh) m h).
Proof.
  intros Hok. pose proof Hok as (Hf & Hnb & [Hz Hb] & [Hi Hd] & _). destruct (bucket_range lh m h (lh_hashes lh d) Hok) as [hd Hhd].
  destruct (Hb _ _ Hhd) as [l Hl]. pose proof (bucket_size _ _ _ _ _ Hl) as Hsize.
  unfold get_next_ptr_and_hash. apply wp_bind, wp_get, wp_bind, wp_lh_get, wp_bind. fold (lh_hashes lh d). fold (bucket_of lh d). cbn [lh_items].
  enough (Hloop : forall post pre q fuel, l = pre ++ post -> (length post < fuel)%nat -> seg m hd q pre -> seg m q 0 post ->
    (forall a it, a ∈ pre -> m !! a = Some it -> ~ lh_eqv lh (li_data it) d) ->
    wp (iter fuel (fun ret => cur ← link_get ret; if cur =? 0 then mret (inr ret) else it ← item_get cur;
      if call_comp (lh_comp lh) (li_data it) d =? 0 then mret (inr ret) else mret (inl (NextOf cur))) (link_of (bucket_of lh d) pre))
      (fun r s' => s' = mkLh (Some lh) m h /\ exists q, found lh m d r q) (fun _ => False) (mkLh (Some lh) m h)).
  { wp_call (Hloop l [] hd); [done|lia|done|apply Hl|by intros ? ? ?%elem_of_nil| |done]. intros r s' [-> Hr]. by apply wp_ret. }
  induction post as [|p post IH]; intros pre q fuel -> Hfuel Hpre Hpost Hno; (destruct fuel as [|fuel]; [cbn in Hfuel; lia|]); cbn [iter].
  - cbn in Hpost. subst q. do 2 apply wp_bind. eapply link_get_spec; [exact Hhd|exact Hpre|]. cbn [Z.eqb]. apply wp_ret, wp_ret. split; [done|].
    exists 0, pre, [], hd. split_and!; try done. intros a it Ha He. destruct (Hi a it Ha) as [Hh _].
    assert (a ∈ pre ++ []) as Hin; [|rewrite app_nil_r in Hin; by apply (Hno a it)].
    apply Hl. exists it. split; [done|]. unfold bucket_of. rewrite Hh. unfold lh_hashes. f_equal. f_equal. by apply Hf.
  - pose proof Hpost as (-> & Hp & it & Hit & Hrest). do 2 apply wp_bind. eapply link_get_spec; [exact Hhd|exact Hpre|].
    rewrite (proj2 (Z.eqb_neq p 0)) by done. apply wp_bind. eapply wp_item_get; [exact Hit|]. destruct (Z.eqb_spec (call_comp (lh_comp lh) (li_data it) d) 0) as [He|Hne].
    + apply wp_ret, wp_ret. split; [done|]. exists p, pre, (p :: post), hd. split_and!; try done. by exists it.
    + apply wp_ret. rewrite <- (link_of_snoc (bucket_of lh d) pre p). apply (IH _ (li_next it)); [by rewrite <- app_assoc|cbn in Hfuel; lia|apply seg_snoc; by eauto|done|].
      intros a ia [Ha|Ha%list_elem_of_singleton]%elem_of_app Hia; [by eapply Hno|]. subst a. by simplify_eq.
Qed.

(** ** Changing a link *)

Lemma with_buckets_id lh : with_buckets (lh_num_buckets lh) (lh_buckets lh) lh = lh.
Proof. by destruct lh. Qed.

Lemma link_set_spec lh m h i hd q l v :
  zget (lh_buckets lh) i = Some hd -> seg m hd q l -> NoDup l ->
  wp (link_set (link_of i l) v)
    (fun _ s' => exists bs' m' hd', s' = mkLh (Some (with_buckets (lh_num_buckets lh) bs' lh)) m' h /\
       zlen bs' = zlen (lh_buckets lh) /\ zget bs' i = Some hd' /\ (forall j, j <> i -> zget bs' j = zget (lh_buckets lh) j) /\
       seg m' hd' v l /\ upto (fun a it => a ∈ l /\ li_next it = q) m m') (fun _ => False) (mkLh (Some lh) m h).
Proof.
  intros Hhd Hl Hnd. destruct (snoc_or_nil l) as [->|(l' & a & ->)].
  - apply wp_bind, wp_lh_get. destruct (zset_lt (lh_buckets lh) i v (zget_Some _ _ _ Hhd)) as (bs' & Hset & Hz & Hi & Ho).
    apply wp_bind. eapply wp_deref; [exact Hset|]. apply wp_modify. exists bs', m, v. split_and!; try done. apply upto_refl.
  - rewrite link_of_snoc. apply seg_snoc in Hl as (Hl & Ha & it & Hit & Hq). apply wp_bind. eapply wp_item_get; [exact Hit|]. apply wp_item_put.
    apply NoDup_app in Hnd as (_ & Hnin & _). exists (lh_buckets lh), (<[a := with_next v it]> m), hd. rewrite with_buckets_id. split_and!; try done.
    + apply seg_snoc. split_and!; [|done|exists (with_next v it); by rewrite lookup_insert_eq]. eapply seg_eq; [|exact Hl]. intros b Hb. apply lookup_insert_ne.
      intros ->. by apply (Hnin b Hb), list_elem_of_singleton.
    + apply upto_put; [done|]. split; [|done]. apply elem_of_app. right. by apply list_elem_of_singleton.
Qed.

(** One bucket changes, the others keep their items as they are. *)
Lemma buckets_ok_change m m' nb bs bs' i hd l :
  buckets_ok m nb bs -> zlen bs' = zlen bs -> (forall j, j <> i -> zget bs' j = zget bs j) -> zget bs' i = Some hd -> bucket_list m' nb i hd l ->
  (forall j a, j <> i -> in_bucket m nb j a -> m' !! a = m !! a) -> (forall j a, j <> i -> in_bucket m' nb j a -> in_bucket m nb j a) -> buckets_ok m' nb bs'.
Proof.
  intros [Hz Hb] Hz' Ho Hi Hl Hsame Hback. split; [congruence|]. intros j hj Hj. destruct (decide (j = i)) as [->|Hne]; [exists l; congruence|].
  rewrite Ho in Hj by done. destruct (Hb j hj Hj) as (l' & Hseg & Hnd & Hin). exists l'. split_and!; [|done|].
  - eapply seg_eq; [|exact Hseg]. intros a Ha. eapply Hsame; [done|by apply Hin].
  - intros a. rewrite Hin. split; [|by apply Hback]. intros H. pose proof (Hsame j a Hne H) as E. destruct H as (it & Hit & Hh). exists it. by rewrite E.
Qed.

Lemma in_bucket_inj m nb i j a : in_bucket m nb i a -> in_bucket m nb j a -> i = j.
Proof. intros (it & H & <-) (it' & H' & <-). by simplify_eq. Qed.
Lemma in_bucket_upto R m m' nb i a : upto R m m' -> in_bucket m' nb i a <-> in_bucket m nb i a.
Proof.
  intros H. split; intros (it & Hit & <-).
  - destruct (upto_some' _ _ _ _ _ H Hit) as (it0 & H0 & _ & Hh & _). exists it0. by rewrite Hh.
  - destruct (upto_some _ _ _ _ _ H Hit) as (it' & H0 & _ & Hh & _). exists it'. by rewrite Hh.
Qed.
Lemma items_ok_upto R lh m m' h : upto R m m' -> items_ok lh m h -> items_ok lh m' h.
Proof.
  intros H [H1 H2]. split.
  - intros a it Hit. destruct (upto_some' _ _ _ _ _ H Hit) as (it0 & H0 & -> & -> & _). by apply H1.
  - intros a b ia ib Ha Hb He. destruct (upto_some' _ _ _ _ _ H Ha) as (ia0 & Ha0 & Ea & _), (upto_some' _ _ _ _ _ H Hb) as (ib0 & Hb0 & Eb & _).
    rewrite Ea, Eb in He. by eapply H2.
Qed.
Lemma contents_upto R m m' : upto R m m' -> contents m' = contents m.
Proof.
  intros H. apply set_eq. intros x. rewrite !elem_of_contents. split; intros (a & it & Hit & <-).
  - destruct (upto_some' _ _ _ _ _ H Hit) as (it0 & H0 & Hd & _). eauto.
  - destruct (upto_some _ _ _ _ _ H Hit) as (it' & H0 & Hd & _). eauto.
Qed.

(** ** Moving the items to other buckets *)

(** The items that satisfy [D] are in the [n] chains at [bs]. *)
Definition moved (m : gmap Z LHASH_ITEM) (D : Z -> Prop) (n : Z) (bs : list Z) : Prop :=
  zlen bs = n /\ forall j h, zget bs j = Some h -> exists l, seg m h 0 l /\ NoDup l /\ forall a, a ∈ l <-> D a /\ in_bucket m n j a.

Lemma moved_ext m D D' n bs : (forall a, is_Some (m !! a) -> D a <-> D' a) -> moved m D n bs -> moved m D' n bs.
Proof.
  intros HD [Hz H]. split; [done|]. intros j h Hj. destruct (H j h Hj) as (l & Hl & Hnd & Hin). exists l. split_and!; [done..|].
  intros a. rewrite Hin. split; intros (Ha & it & Hit & Hh); (split; [by apply HD; eauto|by exists it]).
Qed.

Lemma moved_step m D n bs cur it :
  0 < n -> moved m D n bs -> m !! cur = Some it -> ~ D cur -> cur <> 0 ->
  exists head bs', zget bs (li_hash it mod n) = Some head /\ zset bs (li_hash it mod n) cur = Some bs' /\
    moved (<[cur := with_next head it]> m) (fun a => D a \/ a = cur) n bs'.
Proof.
  intros Hn [Hz Hm] Hit HD Hc. set (j := li_hash it mod n). pose proof (Z.mod_pos_bound (li_hash it) n Hn : 0 <= j < n).
  destruct (zget_lt bs j) as [head Hhead]; [lia|]. destruct (zset_lt bs j cur) as (bs' & Hset & Hz' & Hj & Ho); [lia|].
  exists head, bs'. split_and!; [done|done|]. set (m' := <[cur := with_next head it]> m).
  assert (Hup : upto (fun a _ => a = cur) m m') by by apply upto_put. split; [congruence|]. intros k hk Hk.
  assert (Hkeep : forall h l i, seg m h 0 l -> (forall a, a ∈ l <-> D a /\ in_bucket m n i a) -> seg m' h 0 l).
  { intros h l i Hl Hin. eapply seg_eq; [|exact Hl]. intros a Ha. apply lookup_insert_ne. intros <-. by apply HD, (Hin cur). }
  destruct (decide (k = j)) as [->|Hne].
  - assert (hk = cur) as -> by congruence. destruct (Hm j head Hhead) as (l & Hl & Hnd & Hin).
    exists (cur :: l). split_and!.
    + cbn. split_and!; [done|done|]. exists (with_next head it). split; [apply lookup_insert_eq|]. by eapply Hkeep.
    + apply NoDup_cons. split; [|done]. intros Ha%Hin. by apply HD, Ha.
    + intros a. rewrite elem_of_cons, Hin, (in_bucket_upto _ m m') by exact Hup. split; [|naive_solver].
      intros [->|[HDa Ha]]; [|by auto]. split; [by right|]. by exists it.
  - rewrite Ho in Hk by done. destruct (Hm k hk Hk) as (l & Hl & Hnd & Hin). exists l. split_and!; [by eapply Hkeep|done|].
    intros a. rewrite Hin, (in_bucket_upto _ m m') by exact Hup. split; [naive_solver|]. intros [[HDa| ->] Ha]; [done|].
    exfalso. apply Hne. eapply in_bucket_inj; [exact Ha|]. by exists it.
Qed.

Lemma rebucket_chain t h n l cur D m bs fuel :
  0 < n -> seg m cur 0 l -> NoDup l -> (forall a, a ∈ l -> ~ D a) -> moved m D n bs -> (length l < fuel)%nat ->
  wp (iter fuel (rebucket_step n) (cur, bs))
    (fun bs' s' => exists m', s' = mkLh t m' h /\ upto (fun a _ => a ∈ l) m m' /\ moved m' (fun a => D a \/ a ∈ l) n bs') (fun _ => False) (mkLh t m h).
Proof using alloc.
  clear call_comp call_hash.
  intros Hn. revert cur D m bs fuel. induction l as [|a l IH]; intros cur D m bs fuel Hl Hnd HD Hm Hfuel; (destruct fuel as [|fuel]; [cbn in Hfuel; lia|]); cbn [iter].
  - cbn in Hl. subst cur. cbn. exists m. split_and!; [done|apply upto_refl|]. eapply moved_ext; [|exact Hm]. intros a _. rewrite elem_of_nil. tauto.
  - cbn [seg] in Hl. destruct Hl as (-> & Ha & it & Hit & Hl). apply NoDup_cons in Hnd as [Hnin Hnd]. apply wp_bind. unfold rebucket_step. rewrite (proj2 (Z.eqb_neq a 0)) by done.
    destruct (moved_step m D n bs a it) as (head & bs' & Hhead & Hset & Hm'); [done|done|done|apply HD; by left|done|].
    apply wp_bind. eapply wp_item_get; [exact Hit|]. apply wp_bind. eapply wp_deref; [exact Hhead|]. apply wp_bind, wp_item_put, wp_bind. eapply wp_deref; [exact Hset|]. apply wp_ret.
    wp_call IH; [|exact Hnd| |exact Hm'|cbn in Hfuel; lia| |done].
    + eapply seg_eq; [|exact Hl]. intros b Hb. apply lookup_insert_ne. by intros <-.
    + intros b Hb [HDb| ->]; [|done]. apply (HD b); [by right|done].
    + intros bs'' s' (m' & -> & Hup & Hmv). exists m'. split_and!; [done| |eapply moved_ext; [|exact Hmv]; intros b _; rewrite elem_of_cons; tauto].
      eapply (upto_trans (fun b => b ∈ a :: l)); [apply upto_put; [exact Hit|by left]|]. eapply upto_mono; [|exact Hup]. intros b ib Hb. by right.
Qed.
End Facts.
