(* ===== verification/LhashOps.v ===== *)
(** The operations of [Lhash] on well-formed tables. *)
From S2P Require Import Prelude Mem MemFacts Cells Lhash LhashFacts.

Section Ops.
Context `{alloc : Allocator}.
Variable call_comp : nat -> Z -> Z -> Z.
Variable call_hash : nat -> Z -> Z.
Abbreviation table_ok := (table_ok call_comp call_hash).
Abbreviation items_ok := (items_ok call_comp call_hash).
Abbreviation eqv := (lh_eqv call_comp).

(** ** Growing and shrinking *)

Lemma malloc_counts size h :
  0 <= size < 2 ^ 64 - 8 ->
  wp (OPENSSL_malloc size) (fun p h' => h' = S h /\ match p with Some l => zlen l = size /\ size < 2 ^ 63 - 8 | None => malloc_ok h (size + 8) = false end) (fun _ => False) h.
Proof.
  intros Hs. unfold OPENSSL_malloc, OPENSSL_MALLOC_PREFIX, u64, libc_malloc. rewrite Z.mod_small by lia. unfold wp, mbind, M_bind.
  destruct (malloc_ok h (size + 8)) eqn:Hok; cbn; [|done]. pose proof (malloc_limit _ _ Hok).
  assert (Hz : zlen (garbage h <$> zseq 0 (size + 8)) = size + 8) by (rewrite zlen_fmap, zlen_zseq; lia).
  unfold assert_. rewrite Hz, (proj2 (Z.leb_le 8 (size + 8))) by lia. cbn. split_and!; [done| |lia]. rewrite zlen_zdrop; lia.
Qed.

Lemma items_ok_later lh m h h' : (h <= h')%nat -> items_ok lh m h -> items_ok lh m h'.
Proof. intros Hh [H1 H2]. split; [|done]. intros a it Ha. destruct (H1 a it Ha). split; [done|lia]. Qed.

Lemma moved_all m n bs : moved m (fun a => is_Some (m !! a)) n bs -> buckets_ok m n bs.
Proof.
  intros [Hz H]. split; [done|]. intros j hd Hj. destruct (H j hd Hj) as (l & Hl & Hnd & Hin). exists l. split_and!; [done..|].
  intros a. rewrite Hin. split; [tauto|]. intros (it & Hit & Hh). split; [by eexists|by exists it].
Qed.
Lemma moved_none m n : 0 <= n -> moved m (fun _ => False) n (zrep n 0).
Proof.
  intros Hn. split; [by apply zlen_zrep|]. intros j hd Hj. exists []. split_and!; [|apply NoDup_nil_2|].
  - cbn. unfold zget, zrep in Hj. destruct (0 <=? j); [|done]. by apply lookup_replicate in Hj as [-> _].
  - intros a. rewrite elem_of_nil. tauto.
Qed.

Lemma rebucket_all lh m h n bs :
  0 < lh_num_buckets lh -> buckets_ok m (lh_num_buckets lh) (lh_buckets lh) -> 0 < n -> moved m (fun _ => False) n bs ->
  wp (for_ 0 (Z.to_nat (lh_num_buckets lh)) (fun i bs => cur ← deref (zget (lh_buckets lh) i); iter (S (size m)) (rebucket_step n) (cur, bs)) bs)
    (fun bs' s' => exists m', s' = mkLh (Some lh) m' h /\ upto (fun _ _ => True) m m' /\ buckets_ok m' n bs') (fun _ => False) (mkLh (Some lh) m h).
Proof.
  intros Hnb [Hz Hb] Hn Hm. set (D i a := exists it, m !! a = Some it /\ li_hash it mod lh_num_buckets lh < i).
  eapply (wp_for (fun i bs s' => exists m', s' = mkLh (Some lh) m' h /\ upto (fun a _ => D i a) m m' /\ moved m' (D i) n bs)).
  - exists m. split_and!; [done|apply upto_refl|]. eapply moved_ext; [|exact Hm]. intros a _. split; [done|]. intros (it & _ & Hh).
    pose proof (Z.mod_pos_bound (li_hash it) _ Hnb). lia.
  - intros i bs1 s' Hi (m' & -> & Hup & Hmv). destruct (zget_lt (lh_buckets lh) i) as [hd Hhd]; [lia|]. apply wp_bind. eapply wp_deref; [exact Hhd|].
    destruct (Hb i hd Hhd) as (l & Hl & Hnd & Hin). rewrite <- (size_of_dom m m') by by eapply upto_dom.
    assert (Hfr : forall a, a ∈ l -> ~ D i a).
    { intros a (it & Hit & Hh)%Hin (it' & Hit' & Hlt). simplify_eq. lia. }
    wp_call (rebucket_chain (Some lh) h n l hd (D i) m' bs1); [done| |exact Hnd|exact Hfr|exact Hmv| | |done].
    + eapply seg_eq; [|exact Hl]. intros a Ha. eapply upto_same; [exact Hup|]. intros it Hit. by apply Hfr.
    + apply PeanoNat.Nat.lt_succ_r. rewrite (size_of_dom m m') by by eapply upto_dom. eapply bucket_size. by split_and!.
    + intros bs2 s2 (m2 & -> & Hup2 & Hmv2).
      assert (HD : forall a, D (i + 1) a <-> D i a \/ a ∈ l).
      { intros a. rewrite Hin. unfold D, in_bucket. split; [|intros [(it & Hit & Hh)|(it & Hit & Hh)]; exists it; (split; [done|lia])].
        intros (it & Hit & Hh). destruct (Z.eq_dec (li_hash it mod lh_num_buckets lh) i); [right|left]; exists it; (split; [done|lia]). }
      exists m2. split_and!; [done| |eapply moved_ext; [|exact Hmv2]; intros a _; by rewrite HD].
      eapply (upto_trans (D (i + 1))); (eapply upto_mono; [|eassumption]); intros a ia Ha; apply HD; tauto.
  - intros bs' s' (m' & -> & Hup & Hmv). exists m'. split_and!; [done|by eapply upto_mono; [|exact Hup]|]. apply moved_all. eapply moved_ext; [|exact Hmv].
    intros a [it Hit]. split; [by eexists|]. intros _. destruct (upto_some' _ _ _ _ _ Hup Hit) as (it0 & H0 & _). exists it0. split; [done|].
    pose proof (Z.mod_pos_bound (li_hash it0) _ Hnb). lia.
Qed.

(** No memory for [n] buckets. *)
Definition refused (n : Z) : Prop := exists k, malloc_ok k (8 * n + 8) = false.
(** The table with its items moved to [n'] buckets. *)
Definition resized (n' : Z) (lh : LHASH) (m : gmap Z LHASH_ITEM) (h : heap) (s' : lh_state) : Prop :=
  exists bs' m' h', let lh' := with_buckets n' bs' lh in
    s' = mkLh (Some lh') m' h' /\ table_ok lh' m' h' /\ upto (fun _ _ => True) m m' /\ (h <= h')%nat.

Lemma resized_same lh m h : table_ok lh m h -> resized (lh_num_buckets lh) lh m h (mkLh (Some lh) m h).
Proof. intros H. exists (lh_buckets lh), m, h. rewrite with_buckets_id. split_and!; [done|done|apply upto_refl|done]. Qed.

Lemma lh_rebucket_spec lh m h n :
  table_ok lh m h -> kMinNumBuckets <= n < 2 ^ 61 - 1 ->
  wp (lh_rebucket n) (fun _ s' => resized n lh m h s' \/ refused n /\ resized (lh_num_buckets lh) lh m h s') (fun _ => False) (mkLh (Some lh) m h).
Proof.
  intros Hok Hn. pose proof Hok as (Hf & Hnb & Hb & Hi & Hnum). unfold kMinNumBuckets in *. unfold lh_rebucket, u64, sizeof_cell.
  rewrite Z.mod_small, (Z.mul_comm 8 n), Z.div_mul, Z.eqb_refl by lia. cbn [negb]. apply wp_bind, wp_on_requests. unfold malloc_cells. apply wp_bind.
  wp_call malloc_counts; [lia| |done]. intros [l|] h' [-> Hl]; apply wp_ret; cbn [fmap option_fmap option_map].
  - destruct Hl as [Hzl Hlim]. assert (Hcells : zlen (to_cells l) = n) by (rewrite zlen_to_cells, Hzl; apply Z.div_mul; lia).
    apply wp_bind. eapply wp_deref. { apply zput_Some; [done|rewrite zlen_zrep; lia]. }
    rewrite ztake_0, zlen_zrep, Z.add_0_l, <- Hcells, zdrop_all, app_nil_r, Hcells by lia. cbn [app]. apply wp_bind, wp_get, wp_bind, wp_lh_get, wp_bind. cbn [lh_items].
    wp_call rebucket_all; [lia|exact Hb|lia|apply moved_none; lia| |done]. intros bs' s' (m' & -> & Hup & Hb'). apply wp_modify. left. exists bs', m', (S h).
    split_and!; [done| |done|lia]. split; [done|]. split; [cbn; unfold kMinNumBuckets; lia|]. split; [done|]. split.
    + eapply items_ok_later; [|by eapply items_ok_upto]. lia.
    + cbn. rewrite Hnum. by rewrite (size_of_dom m m') by by eapply upto_dom.
  - apply wp_ret. right. split; [exists h; by rewrite (Z.mul_comm 8 n)|]. exists (lh_buckets lh), m, (S h). cbn. rewrite with_buckets_id. split_and!; [done| |apply upto_refl|lia].
    split; [done|]. split; [done|]. split; [done|]. split; [|done]. eapply items_ok_later; [|exact Hi]. lia.
Qed.

(** The number of buckets the sizes ask for. *)
Definition wanted (lh : LHASH) : Z :=
  let nb := lh_num_buckets lh in
  let avg := lh_num_items_ lh / nb in
  if 0 <? lh_callback_depth lh then nb else
  if 2 <? avg then 2 * nb else if (avg <? 1) && (16 <? nb) then Z.max 16 (nb / 2) else nb.

Lemma lh_maybe_resize_spec lh m h :
  table_ok lh m h ->
  wp lh_maybe_resize
    (fun _ s' => (resized (wanted lh) lh m h s' \/ refused (wanted lh) /\ resized (lh_num_buckets lh) lh m h s') /\
       (0 < lh_callback_depth lh -> s' = mkLh (Some lh) m h)) (fun _ => False) (mkLh (Some lh) m h).
Proof.
  intros Hok. pose proof (resized_same lh m h Hok) as Hsame. pose proof Hok as (_ & Hnb & _). unfold kMinNumBuckets in Hnb.
  unfold lh_maybe_resize, wanted, kMaxAverageChainLength, kMinAverageChainLength, kMinNumBuckets. apply wp_bind, wp_lh_get.
  destruct (Z.ltb_spec 0 (lh_callback_depth lh)) as [Hd|Hd]; [apply wp_ret; auto|]. apply wp_bind, wp_assert; [apply Z.leb_le; lia|].
  set (avg := lh_num_items_ lh / lh_num_buckets lh). destruct (2 <? avg).
  - unfold u64. rewrite Z.mod_small, (Z.mul_comm _ 2) by lia. rewrite (proj2 (Z.ltb_lt (lh_num_buckets lh) (2 * lh_num_buckets lh))) by lia.
    wp_call lh_rebucket_spec; [done|unfold kMinNumBuckets; lia| |done]. intros _ s' H. split; [done|lia].
  - destruct ((avg <? 1) && (16 <? lh_num_buckets lh)) eqn:E; [|apply wp_ret; auto].
    assert ((if lh_num_buckets lh / 2 <? 16 then 16 else lh_num_buckets lh / 2) = Z.max 16 (lh_num_buckets lh / 2)) as -> by (destruct (Z.ltb_spec (lh_num_buckets lh / 2) 16); lia).
    wp_call lh_rebucket_spec; [done| | |done]; [|intros _ s' H; split; [done|lia]]. unfold kMinNumBuckets. split; [lia|]. apply Z.max_lub_lt; [lia|].
    pose proof (Z.div_le_upper_bound (lh_num_buckets lh) 2 (2 ^ 60)). lia.
Qed.

(** The table [lh] with the items [m], once it has the size it asks for. *)
Definition settles (lh : LHASH) (m : gmap Z LHASH_ITEM) (h : heap) (s' : lh_state) : Prop :=
  (resized (wanted lh) lh m h s' \/ refused (wanted lh) /\ resized (lh_num_buckets lh) lh m h s') /\
  (0 < lh_callback_depth lh -> s' = mkLh (Some lh) m h).
(** But for the buckets and the count. *)
Definition similar (lh lh' : LHASH) : Prop :=
  lh_comp lh' = lh_comp lh /\ lh_hash lh' = lh_hash lh /\ lh_callback_depth lh' = lh_callback_depth lh /\ lh_num_buckets lh' = lh_num_buckets lh.

(** ** What the items hold *)

Lemma contents_insert m a it : m !! a = None -> contents (<[a := it]> m) = {[li_data it]} ∪ contents m.
Proof.
  intros Ha. apply set_eq. intros x. rewrite elem_of_union, elem_of_singleton, !elem_of_contents. split.
  - intros (b & ib & Hb & <-). destruct (decide (b = a)) as [->|Hne]; [rewrite lookup_insert_eq in Hb; simplify_eq; by left|].
    rewrite lookup_insert_ne in Hb by done. right. eauto.
  - intros [->|(b & ib & Hb & <-)]; [exists a, it; by rewrite lookup_insert_eq|]. exists b, ib. rewrite lookup_insert_ne; [done|]. intros ->. congruence.
Qed.
Lemma items_inj lh m h a b ia ib :
  functions_ok (call_comp (lh_comp lh)) (call_hash (lh_hash lh)) -> items_ok lh m h -> m !! a = Some ia -> m !! b = Some ib -> li_data ia = li_data ib -> a = b.
Proof. intros Hf [_ H] Ha Hb E. eapply H; [exact Ha|exact Hb|]. rewrite E. apply Hf. Qed.
Lemma contents_delete lh m h a it :
  functions_ok (call_comp (lh_comp lh)) (call_hash (lh_hash lh)) -> items_ok lh m h -> m !! a = Some it -> contents (delete a m) = contents m ∖ {[li_data it]}.
Proof.
  intros Hf Hi Ha. apply set_eq. intros x. rewrite elem_of_difference, elem_of_singleton, !elem_of_contents. split.
  - intros (b & ib & [Hne Hb]%lookup_delete_Some & <-). split; [eauto|]. intros E. apply Hne. symmetry. by eapply items_inj.
  - intros ((b & ib & Hb & <-) & Hne). exists b, ib. split; [|done]. rewrite lookup_delete_ne; [done|]. intros ->. by simplify_eq.
Qed.
Lemma size_contents lh m h :
  functions_ok (call_comp (lh_comp lh)) (call_hash (lh_hash lh)) -> items_ok lh m h -> size (contents m) = size m.
Proof.
  intros Hf Hi. unfold contents. rewrite size_list_to_set; [rewrite length_fmap; apply length_map_to_list|]. apply NoDup_fmap_2_strong; [|apply NoDup_map_to_list].
  intros [a ia] [b ib] Ha%elem_of_map_to_list Hb%elem_of_map_to_list E. cbn in E. assert (a = b) as -> by by eapply items_inj. by simplify_eq.
Qed.

(** ** The operations *)

(** The three ways a search ends. *)
Definition absent (lh : LHASH) (m : gmap Z LHASH_ITEM) (d : Z) : Prop := forall a it, m !! a = Some it -> ~ eqv lh (li_data it) d.

Lemma link_search lh m h d (Q : Z -> lh_state -> Prop) E lk q :
  found call_comp call_hash lh m d lk q -> Q q (mkLh (Some lh) m h) -> wp (link_get lk) Q E (mkLh (Some lh) m h).
Proof. intros (pre & post & hd & Hhd & _ & Hpre & _ & -> & _). by eapply link_get_spec. Qed.

Lemma found_cases lh m d lk q :
  found call_comp call_hash lh m d lk q -> (q = 0 /\ absent lh m d) \/ (q <> 0 /\ exists it, m !! q = Some it /\ eqv lh (li_data it) d).
Proof.
  intros (pre & post & hd & _ & _ & _ & Hpost & _ & Hc). destruct post as [|p post]; [by left|]. right. destruct Hpost as (-> & Hp & _). done.
Qed.

Lemma lh_retrieve_spec lh m h d :
  table_ok lh m h ->
  wp (lh_retrieve call_comp call_hash d)
    (fun r s' => s' = mkLh (Some lh) m h /\ ((r = 0 /\ absent lh m d) \/ exists a it, m !! a = Some it /\ eqv lh (li_data it) d /\ r = li_data it))
    (fun _ => False) (mkLh (Some lh) m h).
Proof.
  intros Hok. unfold lh_retrieve. apply wp_bind. wp_call get_next_ptr_and_hash_spec; [exact Hok| |done]. intros [lk hash] s' (-> & _ & q & Hq). cbn [fst] in Hq.
  apply wp_bind. eapply link_search; [exact Hq|]. destruct (found_cases _ _ _ _ _ Hq) as [[-> Hab]|(Hq0 & it & Hit & He)]; [apply wp_ret; auto|].
  rewrite (proj2 (Z.eqb_neq q 0)) by done. apply wp_bind. eapply wp_item_get; [exact Hit|]. apply wp_ret. split; [done|]. right. eauto.
Qed.

(** *** Replacing the data of an item *)

Lemma buckets_ok_data m nb bs a it d : buckets_ok m nb bs -> m !! a = Some it -> buckets_ok (<[a := with_data d it]> m) nb bs.
Proof.
  intros [Hz Hb] Hit. split; [done|]. intros i hd Hi. destruct (Hb i hd Hi) as (l & Hl & Hnd & Hin).
  assert (Hsame : forall b ib, m !! b = Some ib -> exists ib', <[a := with_data d it]> m !! b = Some ib' /\ li_next ib' = li_next ib /\ li_hash ib' = li_hash ib).
  { intros b ib Hib. destruct (decide (b = a)) as [->|Hne]; [rewrite lookup_insert_eq; simplify_eq; by eexists|rewrite lookup_insert_ne by done; by eexists]. }
  exists l. split_and!; [|done|].
  - eapply seg_ext; [|exact Hl]. intros b ib _ Hib. destruct (Hsame b ib Hib) as (ib' & H & Hn & _). eauto.
  - intros b. rewrite Hin. split.
    + intros (ib & Hib & <-). destruct (Hsame b ib Hib) as (ib' & H & _ & Hh). exists ib'. by rewrite Hh.
    + intros (ib & Hib & <-). destruct (decide (b = a)) as [->|Hne]; [rewrite lookup_insert_eq in Hib; simplify_eq; by exists it|].
      rewrite lookup_insert_ne in Hib by done. by exists ib.
Qed.

Lemma table_ok_replace lh m h a it d :
  table_ok lh m h -> m !! a = Some it -> eqv lh (li_data it) d -> table_ok lh (<[a := with_data d it]> m) h.
Proof.
  intros (Hf & Hnb & Hb & [H1 H2] & Hnum) Hit He. split; [done|]. split; [done|]. split; [by apply buckets_ok_data|]. split; [split|].
  - intros b ib Hib. destruct (decide (b = a)) as [->|Hne]; [|rewrite lookup_insert_ne in Hib by done; by apply H1].
    rewrite lookup_insert_eq in Hib. simplify_eq. cbn. destruct (H1 a it Hit) as [-> Ha]. split; [|done]. unfold lh_hashes. f_equal. by apply Hf.
  - assert (Hrep : forall b ib, <[a := with_data d it]> m !! b = Some ib -> exists ib0, m !! b = Some ib0 /\ eqv lh (li_data ib0) (li_data ib)).
    { intros b ib Hib. destruct (decide (b = a)) as [->|Hne]; [rewrite lookup_insert_eq in Hib; simplify_eq; by exists it|].
      rewrite lookup_insert_ne in Hib by done. exists ib. split; [done|apply Hf]. }
    intros b c ib ic Hib Hic E. destruct (Hrep b ib Hib) as (ib0 & Hb0 & Eb), (Hrep c ic Hic) as (ic0 & Hc0 & Ec). eapply H2; [done..|].
    eapply (comp_trans _ _ Hf); [exact Eb|]. eapply (comp_trans _ _ Hf); [exact E|]. by apply (comp_sym _ _ Hf).
  - rewrite Hnum. f_equal. f_equal. symmetry. apply size_of_dom. rewrite dom_insert_L. assert (a ∈ dom m) by (apply elem_of_dom; by exists it). set_solver.
Qed.
Lemma contents_replace lh m h a it d :
  table_ok lh m h -> m !! a = Some it -> contents (<[a := with_data d it]> m) = {[d]} ∪ contents m ∖ {[li_data it]}.
Proof.
  intros (Hf & _ & _ & Hi & _) Hit. rewrite <- insert_delete_eq, contents_insert by apply lookup_delete_eq. cbn. f_equal. by eapply contents_delete.
Qed.

(** *** Adding an item *)

Lemma in_bucket_insert m nb i a it b : m !! a = None -> in_bucket (<[a := it]> m) nb i b <-> (b = a /\ li_hash it mod nb = i) \/ in_bucket m nb i b.
Proof.
  intros Ha. split.
  - intros (ib & Hib & Hh). destruct (decide (b = a)) as [->|Hne]; [rewrite lookup_insert_eq in Hib; simplify_eq; by left|].
    rewrite lookup_insert_ne in Hib by done. right. by exists ib.
  - intros [[-> Hh]|(ib & Hib & Hh)]; [exists it; by rewrite lookup_insert_eq|]. exists ib. split; [|done]. rewrite lookup_insert_ne; [done|]. intros ->. congruence.
Qed.

Lemma buckets_ok_append m nb bs i hd pre a it bs' m' hd' :
  buckets_ok m nb bs -> bucket_list m nb i hd pre -> m !! a = None -> a <> 0 -> li_hash it mod nb = i -> li_next it = 0 ->
  zlen bs' = zlen bs -> zget bs' i = Some hd' -> (forall j, j <> i -> zget bs' j = zget bs j) ->
  seg m' hd' a pre -> upto (fun b ib => b ∈ pre /\ li_next ib = 0) (<[a := it]> m) m' -> buckets_ok m' nb bs'.
Proof.
  intros Hok (Hpre & Hnd & Hin) Ha Ha0 Hh Hnx Hz Hi Ho Hseg Hup.
  assert (Hna : a ∉ pre) by (intros (it' & Hit' & _)%Hin; congruence).
  assert (Ea : m' !! a = Some it).
  { rewrite (upto_same _ _ _ a Hup); [apply lookup_insert_eq|]. intros ib _ [H _]. done. }
  apply (buckets_ok_change m m' nb bs bs' i hd' (pre ++ [a])); [done..| | |].
  - split_and!.
    + apply seg_snoc. split_and!; [done|done|]. by exists it.
    + apply NoDup_app. split_and!; [done| |apply NoDup_singleton]. intros b Hb ->%list_elem_of_singleton. done.
    + intros b. rewrite (in_bucket_upto _ _ m' _ _ _ Hup). rewrite in_bucket_insert, elem_of_app, Hin, list_elem_of_singleton by done. tauto.
  - intros j b Hne Hb. destruct (decide (b = a)) as [->|Hba]; [destruct Hb as (ib & Hib & _); congruence|].
    rewrite <- (lookup_insert_ne m a b it) by done. eapply upto_same; [exact Hup|]. intros ib Hib [Hp%Hin _]. apply Hne. by eapply in_bucket_inj.
  - intros j b Hne Hb. rewrite (in_bucket_upto _ _ m' _ _ _ Hup) in Hb. rewrite in_bucket_insert in Hb by done. destruct Hb as [[-> Hj]|Hb]; [congruence|done].
Qed.

Lemma items_ok_add lh m h a d :
  functions_ok (call_comp (lh_comp lh)) (call_hash (lh_hash lh)) -> items_ok lh m h -> m !! a = None -> 1 <= a <= Z.of_nat h -> absent lh m d ->
  items_ok lh (<[a := mkItem d 0 (lh_hashes call_hash lh d)]> m) h.
Proof.
  intros Hf [H1 H2] Hna Ha Hab. split.
  - intros b ib [[<- <-]|[Hne Hb]]%lookup_insert_Some; [done|by apply H1].
  - intros b c ib ic [[<- <-]|[Hb Hib]]%lookup_insert_Some [[<- <-]|[Hc Hic]]%lookup_insert_Some E; [done| | |by eapply H2].
    + exfalso. apply (Hab c ic Hic). by apply (comp_sym _ _ Hf).
    + exfalso. by apply (Hab b ib Hib).
Qed.

Lemma size_succ n : u64 (u64 (Z.of_nat n) + 1) = u64 (Z.of_nat (S n)).
Proof. unfold u64. rewrite Nat2Z.inj_succ. dlia. Qed.

Lemma lh_insert_new lh m h d lk q :
  table_ok lh m h -> found call_comp call_hash lh m d lk q -> absent lh m d -> q = 0 ->
  let a := Z.of_nat h + 1 in let new := mkItem d 0 (lh_hashes call_hash lh d) in
  wp (link_set lk a) (fun _ s' => exists lh1 m1, s' = mkLh (Some lh1) m1 (S h) /\ similar lh lh1 /\ lh_num_items_ lh1 = lh_num_items_ lh /\
       upto (fun _ ib => li_next ib = 0) (<[a := new]> m) m1 /\
       table_ok (with_num (u64 (lh_num_items_ lh1 + 1)) lh1) m1 (S h)) (fun _ => False) (mkLh (Some lh) (<[a := new]> m) (S h)).
Proof.
  intros Hok (pre & post & hd & Hhd & Hl & Hpre & Hpost & -> & Hc) Hab -> a new. pose proof Hok as (Hf & Hnb & Hb & Hi & Hnum).
  assert (Hna : m !! a = None). { destruct (m !! a) as [ia|] eqn:E; [|done]. destruct (proj1 Hi a ia E) as [_ Hle]. unfold a in Hle. lia. }
  assert (post = []) as ->. { destruct post as [|p post]; [done|]. destruct Hpost as (<- & Hp & _). done. } rewrite app_nil_r in Hl.
  pose proof Hl as (Hlseg & Hnd & Hin). assert (Hpre1 : seg (<[a := new]> m) hd 0 pre).
  { eapply seg_eq; [|exact Hpre]. intros b Hb0. apply lookup_insert_ne. intros E. subst b. apply Hin in Hb0 as (ib & Hib & _). congruence. }
  wp_call link_set_spec; [exact Hhd|exact Hpre1|exact Hnd| |done]. intros _ s' (bs' & m' & hd' & -> & Hz & Hhd' & Ho & Hseg & Hup).
  exists (with_buckets (lh_num_buckets lh) bs' lh), m'. split; [done|]. split; [done|]. split; [done|]. split; [eapply upto_mono; [|exact Hup]; tauto|].
  split; [done|]. split; [done|]. split.
  - cbn. eapply (buckets_ok_append m _ (lh_buckets lh) _ hd pre a new); [done|done|done|unfold a; lia|done|done|done|exact Hhd'|done|done|done].
  - split; [|cbn; rewrite Hnum, size_succ; do 2 f_equal; rewrite (size_of_dom (<[a := new]> m) m') by (by eapply upto_dom); symmetry; by apply map_size_insert_None].
    apply (items_ok_upto _ _ _ _ (<[a := new]> m) _ _ Hup). apply (items_ok_add (with_num (u64 (lh_num_items_ lh + 1)) (with_buckets (lh_num_buckets lh) bs' lh))); [done| |done|unfold a; lia|done].
    eapply items_ok_later; [|exact Hi]. lia.
Qed.

Lemma item_malloc_spec lh m h :
  wp item_malloc (fun a s' => s' = mkLh (Some lh) m (S h) /\ (a = Z.of_nat h + 1 \/ a = 0 /\ malloc_ok h 32 = false)) (fun _ => False) (mkLh (Some lh) m h).
Proof.
  unfold item_malloc, sizeof_LHASH_ITEM. apply wp_bind, wp_get, wp_bind, wp_on_requests. cbn [lh_requests].
  wp_call malloc_counts; [done| |done]. intros [l|] h' [-> Hl]; apply wp_ret; auto.
Qed.

Lemma absent_found lh m d lk q : absent lh m d -> found call_comp call_hash lh m d lk q -> q = 0.
Proof. intros Hab Hq. destruct (found_cases _ _ _ _ _ Hq) as [[-> _]|(_ & it & Hit & He)]; [done|]. exfalso. by apply (Hab q it). Qed.

(** An item is replaced, or one is added, or there is no memory for it. *)
Lemma lh_insert_spec lh m h d :
  table_ok lh m h ->
  wp (lh_insert call_comp call_hash d)
    (fun r s' =>
      (exists a it, m !! a = Some it /\ eqv lh (li_data it) d /\ r = li_data it /\ s' = mkLh (Some lh) (<[a := with_data d it]> m) h) \/
      (absent lh m d /\ r = 0 /\ exists a lh1 m1, m !! a = None /\ similar lh lh1 /\ lh_num_items_ lh1 = u64 (lh_num_items_ lh + 1) /\
         upto (fun _ ib => li_next ib = 0) (<[a := mkItem d 0 (lh_hashes call_hash lh d)]> m) m1 /\
         table_ok lh1 m1 (S h) /\ settles lh1 m1 (S h) s'))
    (fun s' => absent lh m d /\ malloc_ok h 32 = false /\ s' = mkLh (Some lh) m (S h)) (mkLh (Some lh) m h).
Proof.
  intros Hok. unfold lh_insert. apply wp_bind. wp_call get_next_ptr_and_hash_spec; [exact Hok| |done]. intros [lk hash] s' (-> & Eh & q & Hq). cbn [fst snd] in *. subst hash.
  apply wp_bind. eapply link_search; [exact Hq|]. destruct (found_cases _ _ _ _ _ Hq) as [[-> Hab]|(Hq0 & it & Hit & He)].
  - cbn [Z.eqb negb]. apply wp_bind. wp_call item_malloc_spec; [|done]. intros a s' [-> Ha]. destruct Ha as [-> |[-> Hno]].
    2: { apply wp_fail. auto. }
    rewrite (proj2 (Z.eqb_neq _ 0)) by lia. apply wp_bind, wp_item_put, wp_bind. wp_call lh_insert_new; [exact Hok|exact Hq|done|done| |done].
    intros _ s' (lh1 & m1 & -> & Hsim & Hnum & Hup & Hok1). apply wp_bind, wp_lh_get, wp_bind. apply wp_modify. cbn [lh_items lh_requests]. apply wp_bind.
    wp_call lh_maybe_resize_spec; [exact Hok1| |done]. intros _ s' Hs. apply wp_ret. right. split; [done|]. split; [done|].
    exists (Z.of_nat h + 1), (with_num (u64 (lh_num_items_ lh1 + 1)) lh1), m1. split.
    { destruct (m !! _) as [ia|] eqn:E; [|done]. destruct Hok as (_ & _ & _ & [Hi _] & _). destruct (Hi _ ia E) as [_ Hle]. lia. }
    split; [done|]. split; [cbn; by rewrite Hnum|]. done.
  - rewrite (proj2 (Z.eqb_neq q 0)) by done. cbn [negb]. apply wp_bind. eapply wp_item_get; [exact Hit|]. apply wp_bind, wp_item_put, wp_ret. left. eauto 10.
Qed.

(** *** Taking an item out *)

Lemma buckets_ok_unlink m nb bs i hd pre a post it bs' m' hd' :
  buckets_ok m nb bs -> bucket_list m nb i hd (pre ++ a :: post) -> m !! a = Some it -> seg m (li_next it) 0 post ->
  zlen bs' = zlen bs -> zget bs' i = Some hd' -> (forall j, j <> i -> zget bs' j = zget bs j) ->
  seg m' hd' (li_next it) pre -> upto (fun b ib => b ∈ pre /\ li_next ib = a) m m' -> buckets_ok (delete a m') nb bs'.
Proof.
  intros Hok (Hl & Hnd & Hin) Hit Hpost Hz Hi Ho Hseg Hup.
  apply NoDup_app in Hnd as (Hnd1 & Hdis & Hnd2). apply NoDup_cons in Hnd2 as [Hna Hnd2].
  assert (Hpa : a ∉ pre) by (intros H; apply (Hdis a H); by left).
  assert (Hia : in_bucket m nb i a) by (apply Hin; apply elem_of_app; right; by left).
  apply (buckets_ok_change m _ nb bs bs' i hd' (pre ++ post)); [done..| | |].
  - split_and!.
    + apply seg_app. exists (li_next it). split.
      * eapply seg_eq; [|exact Hseg]. intros b Hb. apply lookup_delete_ne. intros ->. done.
      * eapply seg_eq; [|exact Hpost]. intros b Hb. rewrite lookup_delete_ne by (intros ->; done). eapply upto_same; [exact Hup|]. intros ib _ [H _].
        apply (Hdis b H). by right.
    + apply NoDup_app. split_and!; [done| |done]. intros b Hb Hb2. apply (Hdis b Hb). by right.
    + intros b. assert (E : in_bucket (delete a m') nb i b <-> b <> a /\ in_bucket m nb i b).
      { rewrite <- (in_bucket_upto _ _ m' _ _ _ Hup). unfold in_bucket. split; [intros (ib & [Hne Hib]%lookup_delete_Some & Hh)|intros (Hne & ib & Hib & Hh)].
        - split; [done|]. by exists ib.
        - exists ib. split; [|done]. by apply lookup_delete_Some. }
      rewrite E, <- Hin, !elem_of_app, elem_of_cons. split; [|tauto]. intros [H|H]; (split; [intros ->; done|tauto]).
  - intros j b Hne Hb. assert (b <> a) as Hba by (intros ->; apply Hne; by eapply in_bucket_inj). rewrite lookup_delete_ne by done. eapply upto_same; [exact Hup|].
    intros ib Hib [Hp _]. apply Hne. eapply in_bucket_inj; [exact Hb|]. apply Hin, elem_of_app. by left.
  - intros j b Hne (ib & [Hba Hib]%lookup_delete_Some & Hh). apply (in_bucket_upto _ _ m' _ _ _ Hup). by exists ib.
Qed.

Lemma upto_delete R m m' a : upto R m m' -> upto R (delete a m) (delete a m').
Proof.
  intros H b. destruct (decide (b = a)) as [->|Hne]; [rewrite !lookup_delete_eq; constructor|]. rewrite !lookup_delete_ne by done. apply H.
Qed.
Lemma items_ok_delete lh m h a : items_ok lh m h -> items_ok lh (delete a m) h.
Proof.
  intros [H1 H2]. split; [intros b ib [_ Hib]%lookup_delete_Some; by apply H1|]. intros b c ib ic [_ Hb]%lookup_delete_Some [_ Hc]%lookup_delete_Some. by apply H2.
Qed.

Lemma size_pred n : (0 < n)%nat -> u64 (u64 (Z.of_nat n) - 1) = u64 (Z.of_nat (Nat.pred n)).
Proof. unfold u64. intros. rewrite Nat2Z.inj_pred by done. dlia. Qed.

Lemma lh_delete_found lh m h d lk q it :
  table_ok lh m h -> found call_comp call_hash lh m d lk q -> m !! q = Some it -> q <> 0 ->
  wp (link_set lk (li_next it);; item_free q)
    (fun _ s' => exists lh1 m1, s' = mkLh (Some lh1) m1 h /\ similar lh lh1 /\ lh_num_items_ lh1 = lh_num_items_ lh /\
       upto (fun _ ib => li_next ib = q) (delete q m) m1 /\ table_ok (with_num (u64 (lh_num_items_ lh1 - 1)) lh1) m1 h) (fun _ => False) (mkLh (Some lh) m h).
Proof.
  intros Hok (pre & post & hd & Hhd & Hl & Hpre & Hpost & -> & Hc) Hit Hq. pose proof Hok as (Hf & Hnb & Hb & Hi & Hnum).
  destruct post as [|p post]; [by cbn in Hpost|]. cbn in Hpost. destruct Hpost as (-> & _ & it' & Hit' & Hpost). rewrite Hit in Hit'. injection Hit' as <-. clear Hc.
  pose proof Hl as (_ & Hnd & _). apply NoDup_app in Hnd as (Hnd1 & Hdis & _). assert (Hpp : p ∉ pre) by (intros H; apply (Hdis p H); by left).
  apply wp_bind. wp_call link_set_spec; [exact Hhd|exact Hpre|exact Hnd1| |done]. intros _ s' (bs' & m' & hd' & -> & Hz & Hhd' & Ho & Hseg & Hup).
  assert (Hpm : m' !! p = Some it) by (rewrite (upto_same _ _ _ p Hup); [done|]; intros ib _ [H _]; done).
  apply wp_bind. eapply wp_item_get; [exact Hpm|]. apply wp_modify. cbn [lh_table lh_items lh_requests].
  exists (with_buckets (lh_num_buckets lh) bs' lh), (delete p m'). split; [done|]. split; [done|]. split; [done|].
  split; [apply upto_delete; eapply upto_mono; [|exact Hup]; tauto|].
  split; [done|]. split; [done|]. split; [by eapply buckets_ok_unlink|]. split.
  - apply (items_ok_delete (with_num (u64 (lh_num_items_ lh - 1)) (with_buckets (lh_num_buckets lh) bs' lh))). exact (items_ok_upto _ _ _ _ _ _ _ Hup Hi).
  - cbn. rewrite Hnum. rewrite map_size_delete_Some by by eexists. rewrite (size_of_dom m m') by by eapply upto_dom. apply size_pred.
    apply Nat.neq_0_lt_0. eapply map_size_ne_0_lookup_2. by exists it.
Qed.

Lemma lh_delete_spec lh m h d :
  table_ok lh m h ->
  wp (lh_delete call_comp call_hash d)
    (fun r s' => (absent lh m d /\ r = 0 /\ s' = mkLh (Some lh) m h) \/
      (exists a it lh1 m1, m !! a = Some it /\ eqv lh (li_data it) d /\ r = li_data it /\ similar lh lh1 /\ lh_num_items_ lh1 = u64 (lh_num_items_ lh - 1) /\
         upto (fun _ ib => li_next ib = a) (delete a m) m1 /\ table_ok lh1 m1 h /\ settles lh1 m1 h s')) (fun _ => False) (mkLh (Some lh) m h).
Proof.
  intros Hok. unfold lh_delete. apply wp_bind. wp_call get_next_ptr_and_hash_spec; [exact Hok| |done]. intros [lk hash] s' (-> & _ & q & Hq). cbn [fst] in Hq.
  apply wp_bind. eapply link_search; [exact Hq|]. destruct (found_cases _ _ _ _ _ Hq) as [[-> Hab]|(Hq0 & it & Hit & He)]; [apply wp_ret; auto|].
  rewrite (proj2 (Z.eqb_neq q 0)) by done. apply wp_bind. eapply wp_item_get; [exact Hit|].
  apply (wp_assoc (link_set lk (li_next it)) (fun _ => item_free q)), wp_bind. wp_call lh_delete_found; [exact Hok|exact Hq|exact Hit|done| |done].
  intros _ s' (lh1 & m1 & -> & Hsim & Hnum & Hup & Hok1). apply wp_bind, wp_lh_get, wp_bind. apply wp_modify. cbn [lh_items lh_requests]. apply wp_bind.
  wp_call lh_maybe_resize_spec; [exact Hok1| |done]. intros _ s' Hs. apply wp_ret. right. exists q, it, (with_num (u64 (lh_num_items_ lh1 - 1)) lh1), m1.
  split; [done|]. split; [done|]. split; [done|]. split; [done|]. split; [cbn; by rewrite Hnum|]. done.
Qed.
End Ops.
