(* ===== verification/LhashDoall.v ===== *)
(** The operations of [Lhash] that go through all items: lh_doall with a callback that may
    delete the element it is called on, and lh_free. *)
From S2P Require Import Prelude Mem MemFacts Cells Lhash LhashFacts LhashOps.

Lemma seg_next_in m p l b ib : seg m p 0 l -> b ∈ l -> m !! b = Some ib -> li_next ib = 0 \/ li_next ib ∈ l.
Proof.
  revert p. induction l as [|a l IH]; intros p Hl Hb Hib; [by apply elem_of_nil in Hb|]. cbn in Hl. destruct Hl as (-> & _ & it & Hit & Hl).
  apply elem_of_cons in Hb as [->|Hb].
  - simplify_eq. destruct l as [|c l]; [by left|]. cbn in Hl. destruct Hl as (-> & _). right. right. by left.
  - destruct (IH _ Hl Hb Hib) as [H|H]; [by left|]. right. by right.
Qed.

Section Doall.
Context `{alloc : Allocator}.
Variable call_comp : nat -> Z -> Z -> Z.
Variable call_hash : nat -> Z -> Z.
Context {T : Type}.
(** What the callback does: deletes the element when [p] says so, and does [f] of its own. *)
Variable p : Z -> bool.
Variable f : Z -> T -> T.
Abbreviation table_ok := (table_ok call_comp call_hash).
Abbreviation settles := (settles call_comp call_hash).

Definition visit (x : Z) : M (lh_state * T) unit :=
  (if p x then on_table (lh_delete call_comp call_hash x);; mret tt else mret tt);;
  modify (fun s => (s.1, f x s.2)).

Lemma wp_on_table {A} (m : M lh_state A) s (t : T) Q E :
  wp m (fun a s' => Q a (s', t)) (fun s' => E (s', t)) s -> wp (on_table m) Q E (s, t).
Proof. intros H. by apply wp_zoom. Qed.

(** The items of [m0] when those at [L] have been visited: some are gone. *)
Section Visited.
Variable m0 : gmap Z LHASH_ITEM.

Definition data_at (a : Z) : Z := default 0 (li_data <$> m0 !! a).
Definition left_over (L : list Z) (a : Z) : option LHASH_ITEM :=
  if bool_decide (a ∈ L) && p (data_at a) then None else m0 !! a.
Definition visited (L : list Z) (m : gmap Z LHASH_ITEM) : Prop :=
  forall a, option_Forall2 (fun it it' => li_data it' = li_data it /\ li_hash it' = li_hash it) (left_over L a) (m !! a).

Lemma visited_some L m a it : visited L m -> m !! a = Some it -> exists it0, m0 !! a = Some it0 /\ li_data it = li_data it0 /\ li_hash it = li_hash it0 /\ data_at a = li_data it /\ (a ∈ L -> p (li_data it) = false).
Proof.
  intros H Ha. specialize (H a). rewrite Ha in H. inversion H as [it0 it' [Hd Hh] E|]; subst. unfold left_over in E.
  destruct (bool_decide _ && _) eqn:Eb; [done|]. exists it0. assert (Hda : data_at a = li_data it) by (unfold data_at; rewrite <- E; cbn; congruence). rewrite <- Hda.
  split_and!; [done|congruence|done|done|]. intros HL. rewrite (bool_decide_eq_true_2 _ HL) in Eb. by destruct (p (data_at a)).
Qed.
Lemma visited_other L m a it0 : visited L m -> m0 !! a = Some it0 -> a ∉ L \/ p (li_data it0) = false -> exists it, m !! a = Some it /\ li_data it = li_data it0 /\ li_hash it = li_hash it0.
Proof.
  intros H Ha Hor. specialize (H a). assert (left_over L a = Some it0) as E.
  { unfold left_over, data_at. rewrite Ha. cbn. destruct Hor as [Hn|Hp]; [by rewrite bool_decide_eq_false_2 by done|by rewrite Hp, andb_false_r]. }
  rewrite E in H. inversion H as [x y [Hd Hh]|]; subst. by exists y.
Qed.

Lemma left_over_snoc L a b : b <> a -> left_over (L ++ [a]) b = left_over L b.
Proof.
  intros Hb. unfold left_over. assert (bool_decide (b ∈ L ++ [a]) = bool_decide (b ∈ L)) as ->; [|done].
  apply bool_decide_ext. rewrite elem_of_app, list_elem_of_singleton. tauto.
Qed.
Lemma visited_keep L m a it : visited L m -> m !! a = Some it -> p (li_data it) = false -> visited (L ++ [a]) m.
Proof.
  intros H Ha Hp b. destruct (decide (b = a)) as [->|Hne]; [|rewrite left_over_snoc by done; apply H].
  destruct (visited_some L m a it H Ha) as (it0 & H0 & Hd & Hh & Hda & _). rewrite Ha. unfold left_over. rewrite Hda, Hp, andb_false_r, H0. by constructor.
Qed.
Lemma visited_drop L m m' a it R : visited L m -> m !! a = Some it -> p (li_data it) = true -> upto R (delete a m) m' -> visited (L ++ [a]) m'.
Proof.
  intros H Ha Hp Hup b. specialize (Hup b). destruct (decide (b = a)) as [->|Hne].
  - rewrite lookup_delete_eq in Hup. inversion Hup. destruct (visited_some L m a it H Ha) as (_ & _ & _ & _ & Hda & _).
    unfold left_over. rewrite Hda, Hp, bool_decide_eq_true_2; [constructor|]. apply elem_of_app. right. by left.
  - rewrite left_over_snoc by done. rewrite lookup_delete_ne in Hup by done. specialize (H b). inversion Hup as [x y (Hd & Hh & _) E1 E2|E1 E2]; rewrite <- E1 in H; inversion H; subst; constructor.
    destruct_and?. split; congruence.
Qed.
End Visited.

Lemma visit_spec m0 L lh m h t a it :
  table_ok lh m h -> 0 < lh_callback_depth lh -> visited m0 L m -> m !! a = Some it ->
  wp (visit (li_data it)) (fun _ s' => exists lh' m', s' = (mkLh (Some lh') m' h, f (li_data it) t) /\ similar lh lh' /\ table_ok lh' m' h /\
      visited m0 (L ++ [a]) m' /\ forall b ib, b <> a -> m !! b = Some ib -> li_next ib <> a -> m' !! b = Some ib) (fun _ => False) (mkLh (Some lh) m h, t).
Proof.
  intros Hok Hdep Hv Ha. pose proof Hok as (Hf & _ & _ & [_ Hdist] & _). unfold visit. apply wp_bind. destruct (p (li_data it)) eqn:Hp.
  - apply wp_bind, wp_on_table. wp_call lh_delete_spec; [exact Hok| |done].
    intros r s' [[Hab _]|(a' & it' & lh1 & m1 & Ha' & He & _ & Hsim & _ & Hup & Hok1 & _ & Hs)]; [exfalso; apply (Hab a it Ha), Hf|].
    assert (a' = a) as -> by by eapply Hdist. rewrite Ha in Ha'. injection Ha' as <-.
    rewrite Hs by (destruct Hsim as (_ & _ & -> & _); done). apply wp_ret, wp_modify. cbn [fst snd]. exists lh1, m1. split; [done|]. split; [done|]. split; [done|].
    split; [by eapply visited_drop|]. intros b ib Hb Hib Hn. rewrite (upto_same _ _ _ b Hup), lookup_delete_ne; [done|done|].
    intros ib' [_ Hib']%lookup_delete_Some. congruence.
  - apply wp_ret, wp_modify. cbn [fst snd]. exists lh, m. split; [done|]. split; [done|]. split; [done|]. split; [by eapply visited_keep|done].
Qed.

Lemma similar_trans lh1 lh2 lh3 : similar lh1 lh2 -> similar lh2 lh3 -> similar lh1 lh3.
Proof. unfold similar. intros ? ?. destruct_and?. split_and!; congruence. Qed.

(** The chain of one bucket. *)
Definition doall_chain (arg_func : option (Z -> Z -> M (lh_state * T) unit)) (no_arg_func : Z -> M (lh_state * T) unit) (arg : Z) (cur : Z) : M (lh_state * T) (Z + unit) :=
  if cur =? 0 then mret (inr tt) else
  it ← on_table (item_get cur);
  (match arg_func with Some f => f (li_data it) arg | None => no_arg_func (li_data it) end);;
  mret (inl (li_next it)).

Lemma doall_chain_spec m0 rest cur L lh m h t fuel :
  table_ok lh m h -> 0 < lh_callback_depth lh -> visited m0 L m -> seg m cur 0 rest -> NoDup rest -> (length rest < fuel)%nat ->
  wp (iter fuel (doall_chain None visit 0) cur)
    (fun _ s' => exists lh' m', s' = (mkLh (Some lh') m' h, foldl (fun t a => f (data_at m0 a) t) t rest) /\ similar lh lh' /\ table_ok lh' m' h /\ visited m0 (L ++ rest) m')
    (fun _ => False) (mkLh (Some lh) m h, t).
Proof.
  revert cur L lh m t fuel. induction rest as [|a rest IH]; intros cur L lh m t fuel Hok Hdep Hv Hl Hnd Hfuel; (destruct fuel as [|fuel]; [cbn in Hfuel; lia|]); cbn [iter]; apply wp_bind; unfold doall_chain at 1.
  - cbn in Hl. subst cur. cbn [Z.eqb]. apply wp_ret, wp_ret. exists lh, m. rewrite app_nil_r. done.
  - cbn in Hl. destruct Hl as (-> & Ha0 & it & Ha & Hl). apply NoDup_cons in Hnd as [Hnin Hnd]. rewrite (proj2 (Z.eqb_neq a 0)) by done.
    destruct (visited_some m0 L m a it Hv Ha) as (_ & _ & _ & _ & Hda & _). apply wp_bind, wp_on_table. eapply wp_item_get; [exact Ha|]. apply wp_bind.
    wp_call visit_spec; [exact Hok|done|exact Hv|exact Ha| |done]. intros _ s' (lh1 & m1 & -> & Hsim & Hok1 & Hv1 & Hkeep). apply wp_ret.
    wp_call IH; [exact Hok1|destruct Hsim as (_ & _ & -> & _); done|exact Hv1| |exact Hnd|cbn in Hfuel; lia| |done].
    + eapply seg_eq; [|exact Hl]. intros b Hb. destruct (seg_in _ _ _ _ _ Hl Hb) as (_ & ib & Hib). rewrite Hib. apply Hkeep; [by intros ->|done|].
      destruct (seg_next_in _ _ _ _ _ Hl Hb Hib) as [->|H]; [done|]. by intros E; rewrite E in H.
    + intros _ s' (lh2 & m2 & -> & Hsim2 & Hok2 & Hv2). exists lh2, m2. split; [cbn; by rewrite Hda|]. split; [by eapply similar_trans|]. split; [done|]. by rewrite <- app_assoc in Hv2.
Qed.

(** ** All buckets *)

Definition doall_bucket (fuel : nat) (i : Z) : M (lh_state * T) (Z + unit) :=
  lh ← on_table lh_get;
  if i <? lh_num_buckets lh then
    cur ← deref (zget (lh_buckets lh) i);
    iter fuel (doall_chain None visit 0) cur;;
    mret (inl (i + 1))
  else mret (inr tt).

(** Exactly the items of the buckets before [i] have been visited, each once. *)
Definition visited_to (m0 : gmap Z LHASH_ITEM) (nb i : Z) (L : list Z) (m : gmap Z LHASH_ITEM) : Prop :=
  visited m0 L m /\ NoDup L /\ forall a, a ∈ L <-> exists it, m0 !! a = Some it /\ li_hash it mod nb < i.

Lemma visited_to_next m0 nb i L m hd l m' :
  visited_to m0 nb i L m -> bucket_list m nb i hd l -> visited m0 (L ++ l) m' -> visited_to m0 nb (i + 1) (L ++ l) m'.
Proof.
  intros (Hv & Hnd & HL) (_ & Hndl & Hin) Hv'. assert (Hl : forall a, a ∈ l -> exists it, m0 !! a = Some it /\ li_hash it mod nb = i).
  { intros a (it & Hit & Hh)%Hin. destruct (visited_some m0 L m a it Hv Hit) as (it0 & H0 & _ & Eh & _). exists it0. by rewrite <- Eh. }
  split; [done|]. split.
  - apply NoDup_app. split_and!; [done| |done]. intros a (it & Hit & Hlt)%HL (it' & Hit' & He)%Hl. simplify_eq. lia.
  - intros a. rewrite elem_of_app, HL. split.
    + intros [(it & Hit & Hlt)|(it & Hit & He)%Hl]; exists it; (split; [done|lia]).
    + intros (it & Hit & Hlt). destruct (Z.eq_dec (li_hash it mod nb) i) as [He|Hne]; [right|left; exists it; split; [done|lia]].
      destruct (visited_other m0 L m a it Hv Hit) as (it' & Hit' & _ & Eh).
      { left. intros (it' & Hit' & Hlt')%HL. simplify_eq. lia. }
      apply Hin. exists it'. by rewrite Eh.
Qed.

Lemma doall_buckets_spec m0 t0 fuel k i L lh m h :
  table_ok lh m h -> 0 < lh_callback_depth lh -> visited_to m0 (lh_num_buckets lh) i L m -> 0 <= i -> i + Z.of_nat k = lh_num_buckets lh -> (size m0 < fuel)%nat ->
  wp (iter (S k) (doall_bucket fuel) i)
    (fun _ s' => exists lh' m' L', s' = (mkLh (Some lh') m' h, foldl (fun t a => f (data_at m0 a) t) t0 L') /\ similar lh lh' /\ table_ok lh' m' h /\
       visited_to m0 (lh_num_buckets lh) (lh_num_buckets lh) L' m') (fun _ => False) (mkLh (Some lh) m h, foldl (fun t a => f (data_at m0 a) t) t0 L).
Proof.
  revert i L lh m. induction k as [|k IH]; intros i L lh m Hok Hdep Hv Hi Hk Hfuel; cbn [iter]; apply wp_bind; unfold doall_bucket at 1; apply wp_bind, wp_on_table, wp_lh_get.
  - rewrite (proj2 (Z.ltb_ge i (lh_num_buckets lh))) by lia. apply wp_ret, wp_ret. exists lh, m, L. replace i with (lh_num_buckets lh) in Hv by lia. done.
  - rewrite (proj2 (Z.ltb_lt i (lh_num_buckets lh))) by lia. pose proof Hok as (_ & _ & [Hz Hb] & _). destruct (zget_lt (lh_buckets lh) i) as [hd Hhd]; [lia|].
    apply wp_bind. eapply wp_deref; [exact Hhd|]. destruct (Hb i hd Hhd) as (l & Hl). pose proof Hl as (Hseg & Hnd & Hin). pose proof Hv as (Hvm & _).
    apply wp_bind. wp_call (doall_chain_spec m0 l hd L lh m h); [exact Hok|done|exact Hvm|exact Hseg|exact Hnd| | |done].
    + eapply Nat.le_lt_trans; [|exact Hfuel]. apply length_items; [done|]. intros a (it & Hit & _)%Hin. destruct (visited_some m0 L m a it Hvm Hit) as (it0 & H0 & _). by eexists.
    + intros _ s' (lh1 & m1 & -> & Hsim & Hok1 & Hv1). apply wp_ret. rewrite <- foldl_app. pose proof Hsim as (_ & _ & Ed & En).
      wp_call (IH (i + 1) (L ++ l) lh1 m1); [exact Hok1|by rewrite Ed| |lia|lia|done| |done]; rewrite En; [by eapply visited_to_next|].
      intros _ s' (lh2 & m2 & L' & -> & Hsim2 & Hok2 & Hv2). exists lh2, m2, L'. split; [done|]. split; [by eapply similar_trans|]. done.
Qed.

Lemma table_ok_depth lh m h d : table_ok (with_depth d lh) m h <-> table_ok lh m h.
Proof. done. Qed.

(** Deeper by one, unless the counter is full. *)
Definition deeper (d : Z) : Z := if d <? UINT_MAX then d + 1 else d.
Definition shallower (d : Z) : Z := if d <? UINT_MAX then d - 1 else d.

Lemma lh_doall_spec lh m h t fuel :
  table_ok lh m h -> 0 <= lh_callback_depth lh <= UINT_MAX -> (size m < fuel)%nat ->
  wp (lh_doall fuel visit)
    (fun _ s' => exists lh1 m1 L, table_ok lh1 m1 h /\ visited_to m (lh_num_buckets lh) (lh_num_buckets lh) L m1 /\
       similar (with_depth (shallower (deeper (lh_callback_depth lh))) lh) lh1 /\
       s'.2 = foldl (fun t a => f (data_at m a) t) t L /\ settles lh1 m1 h s'.1) (fun _ => False) (mkLh (Some lh) m h, t).
Proof.
  intros Hok Hd Hfuel. pose proof Hok as (_ & Hnb & _). unfold kMinNumBuckets in Hnb. unfold lh_doall, lh_doall_internal. apply wp_bind, wp_get. cbn [fst lh_table].
  apply wp_bind, wp_on_table, wp_modify. cbn [lh_items lh_requests]. set (d1 := deeper (lh_callback_depth lh)).
  assert ((if lh_callback_depth lh <? UINT_MAX then with_depth (lh_callback_depth lh + 1) lh else lh) = with_depth d1 lh) as ->.
  { unfold d1, deeper. destruct (_ <? _); [done|by destruct lh]. }
  assert (Hd1 : 0 < d1 <= UINT_MAX). { unfold d1, deeper. destruct (Z.ltb_spec (lh_callback_depth lh) UINT_MAX); unfold UINT_MAX in *; lia. }
  apply wp_bind. wp_call (doall_buckets_spec m t fuel (Z.to_nat (lh_num_buckets lh)) 0 [] (with_depth d1 lh) m h); [by apply table_ok_depth|cbn; lia| |done|cbn; lia|done| |done].
  - split; [|split; [apply NoDup_nil_2|]].
    + intros a. unfold left_over. rewrite bool_decide_eq_false_2 by apply not_elem_of_nil. cbn. destruct (m !! a); by constructor.
    + intros a. rewrite elem_of_nil. split; [done|]. intros (it & _ & Hlt). pose proof (Z.mod_pos_bound (li_hash it) (lh_num_buckets lh)). cbn in Hlt. lia.
  - intros _ s' (lh1 & m1 & L & -> & Hsim & Hok1 & Hv). pose proof Hsim as (E1 & E2 & E3 & E4). cbn in E1, E2, E3, E4.
    apply wp_bind, wp_on_table, wp_lh_get, wp_bind, wp_on_table, wp_modify. cbn [lh_items lh_requests]. rewrite E3.
    assert ((if d1 <? UINT_MAX then with_depth (u32 (d1 - 1)) lh1 else lh1) = with_depth (shallower d1) lh1) as ->.
    { unfold shallower. destruct (Z.ltb_spec d1 UINT_MAX); [|rewrite <- E3; by destruct lh1]. unfold u32. rewrite Z.mod_small by (unfold UINT_MAX in *; lia). done. }
    apply wp_on_table. wp_call lh_maybe_resize_spec; [apply table_ok_depth; exact Hok1| |done]. intros _ s' Hs.
    exists (with_depth (shallower d1) lh1), m1, L. cbn [fst snd]. split; [by apply table_ok_depth|]. split; [done|]. split; [by split_and!|]. done.
Qed.
End Doall.

(** ** Releasing the items *)

Section Free.
Context `{alloc : Allocator}.
Variable call_comp : nat -> Z -> Z -> Z.
Variable call_hash : nat -> Z -> Z.

Lemma free_chain t h l cur m fuel :
  seg m cur 0 l -> NoDup l -> (length l < fuel)%nat ->
  wp (iter fuel (fun n => if n =? 0 then mret (inr tt) else it ← item_get n; item_free n;; mret (inl (li_next it))) cur)
    (fun _ s' => exists m', s' = mkLh t m' h /\ forall a, m' !! a = if bool_decide (a ∈ l) then None else m !! a) (fun _ => False) (mkLh t m h).
Proof.
  revert cur m fuel. induction l as [|a l IH]; intros cur m fuel Hl Hnd Hfuel; (destruct fuel as [|fuel]; [cbn in Hfuel; lia|]); cbn [iter]; apply wp_bind.
  - cbn in Hl. subst cur. cbn [Z.eqb]. apply wp_ret, wp_ret. exists m. split; [done|]. intros a. by rewrite bool_decide_eq_false_2 by apply not_elem_of_nil.
  - cbn in Hl. destruct Hl as (-> & Ha0 & it & Ha & Hl). apply NoDup_cons in Hnd as [Hnin Hnd]. rewrite (proj2 (Z.eqb_neq a 0)) by done.
    apply wp_bind. eapply wp_item_get; [exact Ha|]. apply wp_bind, wp_bind. eapply wp_item_get; [exact Ha|]. apply wp_modify, wp_ret. cbn [lh_table lh_items lh_requests].
    wp_call IH; [|exact Hnd|cbn in Hfuel; lia| |done]; [eapply seg_eq; [|exact Hl]; intros b Hb; apply lookup_delete_ne; by intros ->|].
    intros _ s' (m' & -> & Hm'). exists m'. split; [done|]. intros b. rewrite Hm'. destruct (decide (b = a)) as [->|Hne].
    + rewrite lookup_delete_eq, bool_decide_eq_false_2, bool_decide_eq_true_2; [done|by left|done].
    + rewrite lookup_delete_ne by done. assert (bool_decide (b ∈ a :: l) = bool_decide (b ∈ l)) as ->; [|done]. apply bool_decide_ext. rewrite elem_of_cons. tauto.
Qed.

Lemma lh_free_spec lh m h :
  table_ok call_comp call_hash lh m h -> wp lh_free (fun _ s' => s' = mkLh None ∅ h) (fun _ => False) (mkLh (Some lh) m h).
Proof.
  intros (_ & Hnb & [Hz Hb] & _). unfold kMinNumBuckets in Hnb. unfold lh_free. apply wp_bind, wp_get. cbn [lh_table lh_items]. apply wp_bind.
  eapply (wp_for (fun i _ s' => exists m', s' = mkLh (Some lh) m' h /\
    forall a, m' !! a = match m !! a with Some it => if li_hash it mod lh_num_buckets lh <? i then None else Some it | None => None end)).
  - exists m. split; [done|]. intros a. destruct (m !! a) as [it|]; [|done]. pose proof (Z.mod_pos_bound (li_hash it) (lh_num_buckets lh)).
    by rewrite (proj2 (Z.ltb_ge _ 0)) by lia.
  - intros i [] s' Hi (m' & -> & Hm'). destruct (zget_lt (lh_buckets lh) i) as [hd Hhd]; [lia|]. apply wp_bind. eapply wp_deref; [exact Hhd|].
    destruct (Hb i hd Hhd) as (l & Hl). pose proof (bucket_size _ _ _ _ _ Hl) as Hsz. destruct Hl as (Hseg & Hnd & Hin).
    wp_call (free_chain (Some lh) h l hd m'); [|exact Hnd|lia| |done].
    + eapply seg_eq; [|exact Hseg]. intros a (it & Hit & Hh)%Hin. rewrite Hm', Hit. by rewrite (proj2 (Z.ltb_ge _ i)) by lia.
    + intros _ s' (m2 & -> & Hm2). exists m2. split; [done|]. intros a. rewrite Hm2, Hm'. destruct (m !! a) as [it|] eqn:E.
      * destruct (Z.eq_dec (li_hash it mod lh_num_buckets lh) i) as [He|Hne].
        -- rewrite bool_decide_eq_true_2 by (apply Hin; by exists it). by rewrite (proj2 (Z.ltb_lt _ (i + 1))) by lia.
        -- rewrite bool_decide_eq_false_2 by (intros (it' & Hit' & Hh)%Hin; simplify_eq; lia).
           destruct (Z.ltb_spec (li_hash it mod lh_num_buckets lh) i), (Z.ltb_spec (li_hash it mod lh_num_buckets lh) (i + 1)); done || lia.
      * by destruct (bool_decide _).
  - intros [] s' (m' & -> & Hm'). apply wp_modify. cbn. f_equal. apply map_empty. intros a. rewrite Hm'. destruct (m !! a) as [it|]; [|done].
    pose proof (Z.mod_pos_bound (li_hash it) (lh_num_buckets lh)). by rewrite (proj2 (Z.ltb_lt _ _)) by lia.
Qed.
End Free.
