(* ===== verification/LhashThms.v ===== *)
(** Theorems about crypto/lhash/lhash.c: the hash table is a finite set of data, no two of
    which compare equal; its size follows the number of its elements. *)
From S2P Require Import Prelude Mem MemFacts Cells Lhash LhashFacts LhashOps LhashDoall.

(** * The abstract table *)

Inductive lh_op : Type :=
| OpInsert (d : Z)
| OpDelete (d : Z)
| OpRetrieve (d : Z)
| OpNumItems.

Section Spec.
Variable comp : Z -> Z -> Z.

(** The elements that compare equal to [d], and the one an operation returns (or NULL). *)
Definition matching (d : Z) (X : gset Z) : gset Z := filter (fun x => comp x d = 0) X.
Definition match_of (d : Z) (X : gset Z) : Z := default 0 (head (elements (matching d X))).
Definition eval_lh (o : lh_op) (X : gset Z) : Z * gset Z :=
  match o with
  | OpInsert d => (match_of d X, {[d]} ∪ (X ∖ matching d X))
  | OpDelete d => (match_of d X, X ∖ matching d X)
  | OpRetrieve d => (match_of d X, X)
  | OpNumItems => (u64 (Z.of_nat (size X)), X)
  end.

(** What a run of operations may do: an insertion of something new may fail. *)
Inductive computes (no_memory : Prop) : gset Z -> list lh_op -> list (option Z) -> gset Z -> Prop :=
| computes_nil X : computes no_memory X [] [] X
| computes_step X o ops rs Y : computes no_memory (eval_lh o X).2 ops rs Y -> computes no_memory X (o :: ops) (Some (eval_lh o X).1 :: rs) Y
| computes_full X d ops rs Y : no_memory -> matching d X = ∅ -> computes no_memory X ops rs Y -> computes no_memory X (OpInsert d :: ops) (None :: rs) Y.
End Spec.

Section Thms.
Context `{alloc : Allocator}.
Variable call_comp : nat -> Z -> Z -> Z.
Variable call_hash : nat -> Z -> Z.

Definition run_lh (o : lh_op) : M lh_state Z :=
  match o with
  | OpInsert d => lh_insert call_comp call_hash d
  | OpDelete d => lh_delete call_comp call_hash d
  | OpRetrieve d => lh_retrieve call_comp call_hash d
  | OpNumItems => lh_num_items
  end.
Fixpoint run_lhs (ops : list lh_op) : M lh_state (list (option Z)) :=
  match ops with [] => mret [] | o :: ops => r ← try_ (run_lh o); rs ← run_lhs ops; mret (r :: rs) end.

(** The state holds the set [X], with these functions and this depth of calls of lh_doall. *)
Definition table (comp hash : nat) (depth : Z) (X : gset Z) (s : lh_state) : Prop :=
  exists lh m h, s = mkLh (Some lh) m h /\ table_ok call_comp call_hash lh m h /\ contents m = X /\
    lh_comp lh = comp /\ lh_hash lh = hash /\ lh_callback_depth lh = depth.

Lemma matching_one lh m h a it d :
  table_ok call_comp call_hash lh m h -> m !! a = Some it -> call_comp (lh_comp lh) (li_data it) d = 0 -> matching (call_comp (lh_comp lh)) d (contents m) = {[li_data it]}.
Proof.
  intros (Hf & _ & _ & [_ Hd] & _) Ha He. apply set_eq. intros x. unfold matching. rewrite elem_of_filter, elem_of_contents, elem_of_singleton. split; [|intros ->; eauto].
  intros (Hx & b & ib & Hb & <-). assert (b = a) as -> by (eapply Hd; [done..|]; eapply (comp_trans _ _ Hf); [exact Hx|by apply (comp_sym _ _ Hf)]). by simplify_eq.
Qed.
Lemma matching_none lh m d : absent call_comp lh m d -> matching (call_comp (lh_comp lh)) d (contents m) = ∅.
Proof.
  intros Hab. apply set_eq. intros x. unfold matching. rewrite elem_of_filter, elem_of_contents. split; [|set_solver]. intros (Hx & a & it & Ha & <-). exfalso. by apply (Hab a it).
Qed.
Lemma match_of_one comp d X x : matching comp d X = {[x]} -> match_of comp d X = x.
Proof. unfold match_of. intros ->. by rewrite elements_singleton. Qed.
Lemma match_of_none comp d X : matching comp d X = ∅ -> match_of comp d X = 0.
Proof. unfold match_of. intros ->. by rewrite elements_empty. Qed.

Lemma settles_table lh m h s' : settles call_comp call_hash lh m h s' -> table (lh_comp lh) (lh_hash lh) (lh_callback_depth lh) (contents m) s'.
Proof.
  intros [[H|[_ H]] _]; destruct H as (bs' & m' & h' & -> & Hok & Hup & _); (eexists _, m', h'; split_and!; [done|exact Hok|by eapply contents_upto|done..]).
Qed.

Lemma run_lh_spec o comp hash depth X s :
  table comp hash depth X s ->
  wp (run_lh o) (fun r s' => r = (eval_lh (call_comp comp) o X).1 /\ table comp hash depth (eval_lh (call_comp comp) o X).2 s')
    (fun s' => table comp hash depth X s' /\ exists d, o = OpInsert d /\ matching (call_comp comp) d X = ∅ /\ exists n, malloc_ok n 32 = false) s.
Proof.
  intros (lh & m & h & -> & Hok & <- & <- & <- & <-). pose proof Hok as (Hf & _ & _ & Hi & Hnum). destruct o as [d|d|d|]; cbn [run_lh eval_lh fst snd].
  - wp_call lh_insert_spec; [exact Hok| |].
    + intros r s' [(a & it & Ha & He & -> & ->)|(Hab & -> & a & lh1 & m1 & Ha & (E1 & E2 & E3 & _) & _ & Hup & _ & Hs)].
      * rewrite (match_of_one _ _ _ _ (matching_one _ _ _ _ _ _ Hok Ha He)), (matching_one _ _ _ _ _ _ Hok Ha He). split; [done|].
        exists lh, (<[a := with_data d it]> m), h. split_and!; [done|by apply table_ok_replace|by eapply contents_replace|done..].
      * rewrite (match_of_none _ _ _ (matching_none _ _ _ Hab)), (matching_none _ _ _ Hab). split; [done|]. apply settles_table in Hs.
        rewrite E1, E2, E3, (contents_upto _ _ _ Hup), contents_insert in Hs by done. cbn in Hs. by replace (contents m ∖ ∅) with (contents m) by set_solver.
    + intros s' (Hab & Hno & ->). split; [|exists d; split; [done|]; split; [by apply matching_none|by exists h]]. exists lh, m, (S h). split_and!; try done.
      destruct Hok as (? & ? & ? & ? & ?). split; [done|]. split; [done|]. split; [done|]. split; [|done]. eapply items_ok_later; [|done]. lia.
  - wp_call lh_delete_spec; [exact Hok| |done].
    intros r s' [(Hab & -> & ->)|(a & it & lh1 & m1 & Ha & He & -> & (E1 & E2 & E3 & _) & _ & Hup & _ & Hs)].
    + rewrite (match_of_none _ _ _ (matching_none _ _ _ Hab)), (matching_none _ _ _ Hab). split; [done|]. exists lh, m, h. split_and!; try done. set_solver.
    + rewrite (match_of_one _ _ _ _ (matching_one _ _ _ _ _ _ Hok Ha He)), (matching_one _ _ _ _ _ _ Hok Ha He). split; [done|]. apply settles_table in Hs.
      by rewrite E1, E2, E3, (contents_upto _ _ _ Hup), (contents_delete _ _ _ _ _ _ _ Hf Hi Ha) in Hs.
  - wp_call lh_retrieve_spec; [exact Hok| |done]. intros r s' (-> & Hr). split; [|by exists lh, m, h].
    destruct Hr as [[-> Hab]|(a & it & Ha & He & ->)]; [by rewrite (match_of_none _ _ _ (matching_none _ _ _ Hab))|].
    by rewrite (match_of_one _ _ _ _ (matching_one _ _ _ _ _ _ Hok Ha He)).
  - apply wp_bind, wp_lh_get, wp_ret. split; [|by exists lh, m, h]. by rewrite Hnum, (size_contents _ _ _ _ _ Hf Hi).
Qed.

Lemma lh_new_spec comp hash h :
  functions_ok (call_comp comp) (call_hash hash) ->
  wp (lh_new hash comp) (fun lh h' => table comp hash 0 ∅ (mkLh (Some lh) ∅ h')) (fun _ => malloc_ok h 56 = false \/ malloc_ok (S h) 136 = false) h.
Proof.
  intros Hf. unfold lh_new, sizeof_LHASH, kMinNumBuckets, sizeof_cell. apply wp_bind. wp_call malloc_counts; [done| |done]. intros [l|] h' [-> Hl]; [|apply wp_fail; eauto].
  unfold malloc_cells. apply wp_bind, wp_bind. wp_call malloc_counts; [done| |done]. intros [l'|] h' [-> Hl']; apply wp_ret; cbn [fmap option_fmap option_map]; [|apply wp_fail; eauto].
  destruct Hl' as [Hz _]. assert (Hcells : zlen (to_cells l') = 16) by (rewrite zlen_to_cells, Hz; done).
  apply wp_bind. eapply wp_deref; [apply zput_Some; [done|rewrite zlen_zrep; lia]|]. apply wp_ret. rewrite ztake_0, zlen_zrep, Z.add_0_l, <- Hcells, zdrop_all, app_nil_r, Hcells by lia.
  eexists _, ∅, _. split; [done|]. split; [|done]. split; [done|]. split; [done|]. split; [|by split].
  apply moved_all, (moved_ext _ (fun _ => False)); [|by apply moved_none]. intros a [it Hit]. done.
Qed.

(** C25. A hash table is a set: a new one is empty (and fails only when the table or its
    buckets are refused); every sequence of operations returns what the
    same operations on a finite set return and leaves the set they leave, but that inserting
    something new may fail for want of memory and then changes nothing; no two elements
    compare equal; and lh_free releases every item, once. *)
Theorem LHASH_refines_set comp hash depth X s ops :
  functions_ok (call_comp comp) (call_hash hash) -> table comp hash depth X s ->
  (forall h, wp (lh_new hash comp) (fun lh h' => table comp hash 0 ∅ (mkLh (Some lh) ∅ h')) (fun _ => malloc_ok h 56 = false \/ malloc_ok (S h) 136 = false) h) /\
  wp (run_lhs ops) (fun rs s' => exists Y, computes (call_comp comp) (exists n, malloc_ok n 32 = false) X ops rs Y /\ table comp hash depth Y s') (fun _ => False) s /\
  (forall x y, x ∈ X -> y ∈ X -> call_comp comp x y = 0 -> x = y) /\
  wp lh_free (fun _ s' => lh_table s' = None /\ lh_items s' = ∅) (fun _ => False) s.
Proof.
  intros Hf Ht. split; [intros h; by apply lh_new_spec|]. split; [|split].
  - revert X s Ht. induction ops as [|o ops IH]; intros X s Ht; cbn [run_lhs]; [apply wp_ret; exists X; split; [constructor|done]|].
    apply wp_bind, wp_try. wp_call run_lh_spec; [exact Ht| |].
    + intros r s' [-> Ht']. apply wp_bind. wp_call IH; [exact Ht'| |done]. intros rs s2 (Y & HY & HtY). apply wp_ret. exists Y. split; [by constructor|done].
    + intros s' (Ht' & d & -> & Hno & Hm). apply wp_bind. wp_call IH; [exact Ht'| |done]. intros rs s2 (Y & HY & HtY). apply wp_ret. exists Y. split; [by constructor|done].
  - destruct Ht as (lh & m & h & -> & (_ & _ & _ & [_ Hd] & _) & <- & <- & _). intros x y (a & ia & Ha & <-)%elem_of_contents (b & ib & Hb & <-)%elem_of_contents E.
    assert (a = b) as -> by by eapply Hd. by simplify_eq.
  - destruct Ht as (lh & m & h & -> & Hok & _). wp_call lh_free_spec; [exact Hok| |done]. by intros _ s' ->.
Qed.

(** ** The number of buckets *)





(** ** Iteration *)

Lemma foldl_data {T} (f : Z -> T -> T) (g : Z -> Z) t L : foldl (fun t a => f (g a) t) t L = foldl (fun t x => f x t) t (g <$> L).
Proof. revert t. induction L as [|a L IH]; intros t; [done|]. apply IH. Qed.

Lemma visited_contents (p : Z -> bool) lh m h nb L m1 :
  0 < nb -> functions_ok (call_comp (lh_comp lh)) (call_hash (lh_hash lh)) -> items_ok call_comp call_hash lh m h -> visited_to p m nb nb L m1 ->
  (data_at m <$> L) ≡ₚ elements (contents m) /\ contents m1 = filter (fun x => p x = false) (contents m).
Proof.
  intros Hnb Hf Hi (Hv & Hnd & HL). assert (Hall : forall a, a ∈ L <-> is_Some (m !! a)).
  { intros a. rewrite HL. split; [intros (it & Hit & _); by eexists|]. intros [it Hit]. exists it. split; [done|]. apply Z.mod_pos_bound. lia. }
  assert (Hdat : forall a it, m !! a = Some it -> data_at m a = li_data it) by (intros a it Ha; unfold data_at; by rewrite Ha).
  split.
  - apply NoDup_Permutation; [|apply NoDup_elements|].
    + apply NoDup_fmap_2_strong; [|done]. intros a b [ia Ha]%Hall [ib Hb]%Hall E. rewrite (Hdat a ia Ha), (Hdat b ib Hb) in E. by eapply items_inj.
    + intros x. rewrite elem_of_elements, list_elem_of_fmap, elem_of_contents. split.
      * intros (a & -> & [it Ha]%Hall). exists a, it. split; [done|]. by rewrite (Hdat a it Ha).
      * intros (a & it & Ha & <-). exists a. split; [by rewrite (Hdat a it Ha)|]. apply Hall. by eexists.
  - apply set_eq. intros x. rewrite elem_of_filter, !elem_of_contents. split.
    + intros (a & it & Ha & <-). destruct (visited_some p m L m1 a it Hv Ha) as (it0 & H0 & Ed & _ & _ & Hp). split; [apply Hp, Hall; by eexists|]. exists a, it0. by rewrite Ed.
    + intros (Hp & a & it & Ha & <-). destruct (visited_other p m L m1 a it Hv Ha) as (it' & Ha' & Ed & _); [by right|]. exists a, it'. by rewrite Ed.
Qed.

(** C27. lh_doall calls the callback on every element of the table exactly once, in some order,
    even when the callback deletes the element that it is called on; afterwards the table
    holds the elements that were not deleted, at the same depth (a depth counter that gets
    full stays full). *)
Theorem lh_doall_visits_once {T} (p : Z -> bool) (f : Z -> T -> T) comp hash depth X s t fuel :
  table comp hash depth X s -> 0 <= depth <= UINT_MAX -> (size X < fuel)%nat ->
  wp (lh_doall fuel (visit call_comp call_hash p f))
    (fun _ s' => exists l, l ≡ₚ elements X /\ s'.2 = foldl (fun t x => f x t) t l /\
       table comp hash (shallower (deeper depth)) (filter (fun x => p x = false) X) s'.1) (fun _ => False) (s, t).
Proof.
  intros (lh & m & h & -> & Hok & <- & <- & <- & <-) Hd Hfuel. pose proof Hok as (Hf & Hnb & _ & Hi & _). unfold kMinNumBuckets in Hnb. rewrite (size_contents _ _ _ _ _ Hf Hi) in Hfuel.
  wp_call lh_doall_spec; [exact Hok|done|done| |done]. intros _ s' (lh1 & m1 & L & Hok1 & Hv & (E1 & E2 & E3 & _) & Ht & Hs).
  destruct (visited_contents p lh m h (lh_num_buckets lh) L m1 ltac:(lia) Hf Hi Hv) as [HL Hc].
  exists (data_at m <$> L). split; [done|]. split; [by rewrite Ht, foldl_data|]. apply settles_table in Hs. rewrite E1, E2, E3, Hc in Hs. exact Hs.
Qed.
End Thms.

(** * Witnesses *)

#[local] Existing Instance plenty.

(** Data are compared by their address; they collide in the bucket when equal modulo 4. *)
Definition by_value (_ : nat) (x y : Z) : Z := if x =? y then 0 else 1.
Definition modulo_4 (_ : nat) (x : Z) : Z := x mod 4.
Lemma by_value_ok : functions_ok (by_value 0) (modulo_4 0).
Proof.
  unfold by_value, modulo_4. split; intros; repeat match goal with H : context [?x =? ?y] |- _ => destruct (Z.eqb_spec x y) | |- context [?x =? ?y] => destruct (Z.eqb_spec x y) end; congruence || done.
Qed.

(** A new table, and one with 4 and 8 in one chain. *)
Definition ex_empty : lh_state := mkLh (Some (mkLHASH 0 (zrep 16 0) 16 0 0 0)) ∅ 2%nat.
Definition ex_table : lh_state :=
  mkLh (Some (mkLHASH 2 (3 :: zrep 15 0) 16 0 0 0)) (<[3 := mkItem 4 4 0]> (<[4 := mkItem 8 0 0]> ∅)) 4%nat.
Lemma ex_empty_is : table by_value modulo_4 0 0 0 ∅ ex_empty.
Proof.
  refine (wp_ok _ _ _ _ _ _ (lh_new_spec by_value modulo_4 0 0 0%nat by_value_ok) _). vm_compute. reflexivity.
Qed.
Definition ex_four : lh_state :=
  mkLh (Some (mkLHASH 1 (3 :: zrep 15 0) 16 0 0 0)) (<[3 := mkItem 4 0 0]> ∅) 3%nat.
Lemma ex_four_is : table by_value modulo_4 0 0 0 {[4]} ex_four.
Proof.
  assert (run_lh by_value modulo_4 (OpInsert 4) ex_empty = Ok 0 ex_four) as E by (vm_compute; reflexivity).
  destruct (wp_ok _ _ _ _ _ _ (run_lh_spec by_value modulo_4 (OpInsert 4) 0 0 0 ∅ ex_empty ex_empty_is) E) as [_ H]. by replace {[4]} with (eval_lh (by_value 0) (OpInsert 4) ∅).2 by by vm_compute.
Qed.
Lemma ex_table_is : table by_value modulo_4 0 0 0 {[4; 8]} ex_table.
Proof.
  assert (run_lh by_value modulo_4 (OpInsert 8) ex_four = Ok 0 ex_table) as E by (vm_compute; reflexivity).
  destruct (wp_ok _ _ _ _ _ _ (run_lh_spec by_value modulo_4 (OpInsert 8) 0 0 0 {[4]} ex_four ex_four_is) E) as [_ H].
  by replace {[4; 8]} with (eval_lh (by_value 0) (OpInsert 8) {[4]}).2 by by vm_compute.
Qed.

Lemma LHASH_refines_set_witness :
  wp (run_lhs by_value modulo_4 [OpDelete 4; OpRetrieve 4; OpInsert 12; OpNumItems])
    (fun rs s' => exists Y, computes (by_value 0) (exists n, malloc_ok n 32 = false) {[4; 8]} [OpDelete 4; OpRetrieve 4; OpInsert 12; OpNumItems] rs Y /\ table by_value modulo_4 0 0 0 Y s')
    (fun _ => False) ex_table.
Proof. apply (LHASH_refines_set by_value modulo_4 0 0 0 {[4; 8]} ex_table _ by_value_ok ex_table_is). Defined.


(** Visiting both elements, adding them up, and deleting the one that is 4. *)
Lemma lh_doall_visits_once_witness :
  wp (lh_doall 3 (visit by_value modulo_4 (fun x => x =? 4) Z.add))
    (fun _ s' => exists l, l ≡ₚ elements ({[4; 8]} : gset Z) /\ s'.2 = foldl (fun t x => x + t) 0 l /\
       table by_value modulo_4 0 0 (shallower (deeper 0)) (filter (fun x => (x =? 4) = false) {[4; 8]}) s'.1) (fun _ => False) (ex_table, 0).
Proof. apply (lh_doall_visits_once by_value modulo_4 (fun x => x =? 4) Z.add 0 0 0 {[4; 8]} ex_table 0 3 ex_table_is); [done|by vm_compute; lia]. Defined.
