(* ===== verification/Pb.v ===== *)
(** nanopb (Pods/nanopb): the streams and the wire format, pb_decode.c and
    pb_encode.c below the level of messages. The configuration is the one the
    Pods project builds: PB_FIELD_32BIT, error messages on, no malloc, callbacks. *)
From Stdlib Require Import String.
From S2P Require Import Prelude.
Open Scope string_scope.
Open Scope list_scope.
Open Scope Z_scope.

Definition PB_SIZE_MAX : Z := 4294967295.

Definition PB_WT_VARINT : Z := 0.
Definition PB_WT_64BIT : Z := 1.
Definition PB_WT_STRING : Z := 2.
Definition PB_WT_32BIT : Z := 5.

(** [PB_SET_ERROR]: the first message stays. *)
Definition first_error (old : option string) (msg : string) : option string :=
  match old with Some m => Some m | None => Some msg end.

(** * Input streams *)

(** The reader of a stream: [buf_read], or a function of the application's. *)
Inductive icallback : Type :=
| buf_read_cb
| user_read_cb (f : nat).
#[global] Instance icallback_eq : EqDecision icallback.
Proof. solve_decision. Defined.

Record pb_istream_t := mk_istream {
  is_callback : icallback;
  is_state : ptr;
  is_bytes_left : Z;
  is_errmsg : option string;
}.

Definition with_left (s : pb_istream_t) (n : Z) : pb_istream_t :=
  mk_istream (is_callback s) (is_state s) n (is_errmsg s).
Definition with_istate (s : pb_istream_t) (p : ptr) : pb_istream_t :=
  mk_istream (is_callback s) p (is_bytes_left s) (is_errmsg s).
Definition with_ierrmsg (s : pb_istream_t) (m : option string) : pb_istream_t :=
  mk_istream (is_callback s) (is_state s) (is_bytes_left s) m.

(** [PB_RETURN_ERROR(stream, msg)] *)
Definition ierror {A} (msg : string) : M pb_istream_t A :=
  modify (fun s => with_ierrmsg s (first_error (is_errmsg s) msg));; fail.

(** The bytes a call stores at [buf]: none when [buf] is NULL. *)
Definition buf_read (buf_null : bool) (count : Z) : M pb_istream_t (list Z) :=
  s ← get;
  state ← deref (ptr_add (is_state s) count);
  put (with_istate s state);;
  if buf_null then mret [] else deref (ptr_read (is_state s) count).

Definition pb_istream_from_buffer (buf : ptr) (bufsize : Z) : pb_istream_t :=
  mk_istream buf_read_cb buf bufsize None.

Section Decode.
(** The application's readers: they are given the stream and how many bytes to
    store, and may fail. *)
Variable user_read : nat -> Z -> M pb_istream_t (list Z).

Definition call_read (buf_null : bool) (count : Z) : M pb_istream_t (list Z) :=
  s ← get;
  match is_callback s with
  | buf_read_cb => buf_read buf_null count
  | user_read_cb f => user_read f count
  end.

(** [if (!stream->callback(stream, buf, count)) PB_RETURN_ERROR(stream, "io error");] *)
Definition io_read (buf_null : bool) (count : Z) : M pb_istream_t (list Z) :=
  r ← try_ (call_read buf_null count);
  match r with
  | Some bs => mret bs
  | None => ierror "io error"
  end.

(** The part of [pb_read] behind the skipping. *)
Definition pb_read_counted (buf_null : bool) (count : Z) : M pb_istream_t (list Z) :=
  s ← get;
  if is_bytes_left s <? count then ierror "end-of-stream" else
  bs ← io_read buf_null count;
  modify (fun s => with_left s (u64 (is_bytes_left s - count)));;
  mret bs.

(** [while (count > 16)]: sixteen bytes at a time into a scratch buffer. *)
Definition pb_skip_chunks (count : Z) : M pb_istream_t Z :=
  iter (S (Z.to_nat (count / 16))) (fun count =>
    if 16 <? count then pb_read_counted false 16;; mret (inl (count - 16))
    else mret (inr count)) count.

Definition pb_read (buf_null : bool) (count : Z) : M pb_istream_t (list Z) :=
  s ← get;
  if buf_null && negb (bool_decide (is_callback s = buf_read_cb)) then
    count ← pb_skip_chunks count;
    pb_read_counted false count;;
    mret []
  else pb_read_counted buf_null count.

Definition pb_readbyte : M pb_istream_t Z :=
  s ← get;
  if is_bytes_left s =? 0 then ierror "end-of-stream" else
  bs ← io_read false 1;
  modify (fun s => with_left s (u64 (is_bytes_left s - 1)));;
  deref (zget bs 0).

(** The body of the loop of [pb_decode_varint32]; [bitpos] stays below 64. *)
Definition varint32_step (st : Z * Z) : M pb_istream_t (Z * Z + Z) :=
  let '(result, bitpos) := st in
  if 32 <=? bitpos then ierror "varint overflow" else
  byte ← pb_readbyte;
  let result := Z.lor result (u32 (Z.shiftl (Z.land byte 0x7F) bitpos)) in
  let bitpos := u8 (bitpos + 7) in
  if negb (Z.land byte 0x80 =? 0) then mret (inl (result, bitpos)) else mret (inr result).

Definition pb_decode_varint32 : M pb_istream_t Z :=
  byte ← pb_readbyte;
  if Z.land byte 0x80 =? 0 then mret byte
  else iter 6 varint32_step (Z.land byte 0x7F, 7).

Definition varint_step (st : Z * Z) : M pb_istream_t (Z * Z + Z) :=
  let '(result, bitpos) := st in
  if 64 <=? bitpos then ierror "varint overflow" else
  byte ← pb_readbyte;
  let result := Z.lor result (u64 (Z.shiftl (Z.land byte 0x7F) bitpos)) in
  let bitpos := u8 (bitpos + 7) in
  if negb (Z.land byte 0x80 =? 0) then mret (inl (result, bitpos)) else mret (inr result).

Definition pb_decode_varint : M pb_istream_t Z := iter 11 varint_step (0, 0).

Definition pb_skip_varint : M pb_istream_t unit :=
  s ← get;
  iter (S (Z.to_nat (is_bytes_left s))) (fun _ : unit =>
    bs ← pb_read false 1;
    byte ← deref (zget bs 0);
    if negb (Z.land byte 0x80 =? 0) then mret (inl tt) else mret (inr tt)) tt.

Definition pb_skip_string : M pb_istream_t unit :=
  length ← pb_decode_varint32;
  pb_read true length;;
  mret tt.

(** The wire type and the tag, or [None] for false; and [*eof]. *)
Definition pb_decode_tag : M pb_istream_t (option (Z * Z) * bool) :=
  temp ← try_ pb_decode_varint32;
  s ← get;
  match temp with
  | None => mret (None, is_bytes_left s =? 0)
  | Some temp =>
      if temp =? 0 then mret (None, true)
      else mret (Some (Z.land temp 7, Z.shiftr temp 3), false)
  end.

Definition pb_skip_field (wire_type : Z) : M pb_istream_t unit :=
  if wire_type =? PB_WT_VARINT then pb_skip_varint
  else if wire_type =? PB_WT_64BIT then pb_read true 8;; mret tt
  else if wire_type =? PB_WT_STRING then pb_skip_string
  else if wire_type =? PB_WT_32BIT then pb_read true 4;; mret tt
  else ierror "invalid wire_type".

(** The bytes of one scalar, at most [max_size] of them for a varint. *)
Definition read_raw_value (wire_type max_size : Z) : M pb_istream_t (list Z) :=
  if wire_type =? PB_WT_VARINT then
    iter (S (Z.to_nat max_size)) (fun buf =>
      let size := zlen buf + 1 in
      if max_size <? size then fail else
      bs ← pb_read false 1;
      byte ← deref (zget bs 0);
      let buf := buf ++ [byte] in
      if negb (Z.land byte 0x80 =? 0) then mret (inl buf) else mret (inr buf)) []
  else if wire_type =? PB_WT_64BIT then pb_read false 8
  else if wire_type =? PB_WT_32BIT then pb_read false 4
  else ierror "invalid wire_type".

Definition pb_make_string_substream : M pb_istream_t pb_istream_t :=
  size ← pb_decode_varint32;
  substream ← get;
  if is_bytes_left substream <? size then ierror "parent stream too short" else
  put (with_left substream (is_bytes_left substream - size));;
  mret (with_left substream size).

Definition pb_close_string_substream (substream : pb_istream_t) : M pb_istream_t unit :=
  substream ← (if negb (is_bytes_left substream =? 0)
               then '(_, substream) ← on substream (pb_read true (is_bytes_left substream)); mret substream
               else mret substream);
  modify (fun s => with_ierrmsg (with_istate s (is_state substream)) (is_errmsg substream)).

(** The value as a signed integer. *)
Definition pb_decode_svarint : M pb_istream_t Z :=
  value ← pb_decode_varint;
  mret (if negb (Z.land value 1 =? 0) then Z.lnot (Z.shiftr value 1) else Z.shiftr value 1).

(** Little-endian bytes, as the shifts of the code put them together. *)
Fixpoint le_value (bs : list Z) (shift : Z) : Z :=
  match bs with
  | [] => 0
  | b :: bs => Z.lor (Z.shiftl b shift) (le_value bs (shift + 8))
  end.
Definition pb_decode_fixed32 : M pb_istream_t Z :=
  bytes ← pb_read false 4; mret (le_value bytes 0).
Definition pb_decode_fixed64 : M pb_istream_t Z :=
  bytes ← pb_read false 8; mret (le_value bytes 0).
End Decode.

(** * Output streams *)

Inductive ocallback : Type :=
| buf_write_cb
| user_write_cb (f : nat).

(** [os_callback] is [None] for a stream that only counts ([PB_OSTREAM_SIZING]);
    the state of a buffer stream is the buffer and the position in it. *)
Record pb_ostream_t := mk_ostream {
  os_callback : option ocallback;
  os_buf : list Z;
  os_pos : Z;
  os_max_size : Z;
  os_bytes_written : Z;
  os_errmsg : option string;
}.

Definition with_oerrmsg (s : pb_ostream_t) (m : option string) : pb_ostream_t :=
  mk_ostream (os_callback s) (os_buf s) (os_pos s) (os_max_size s) (os_bytes_written s) m.
Definition with_written (s : pb_ostream_t) (n : Z) : pb_ostream_t :=
  mk_ostream (os_callback s) (os_buf s) (os_pos s) (os_max_size s) n (os_errmsg s).
Definition with_ostate (s : pb_ostream_t) (buf : list Z) (pos : Z) : pb_ostream_t :=
  mk_ostream (os_callback s) buf pos (os_max_size s) (os_bytes_written s) (os_errmsg s).

Definition PB_OSTREAM_SIZING : pb_ostream_t := mk_ostream None [] 0 0 0 None.
Definition pb_ostream_from_buffer (buf : list Z) (bufsize : Z) : pb_ostream_t :=
  mk_ostream (Some buf_write_cb) buf 0 bufsize 0 None.

Definition oerror {A} (msg : string) : M pb_ostream_t A :=
  modify (fun s => with_oerrmsg s (first_error (os_errmsg s) msg));; fail.

Definition buf_write (buf : ptr) (count : Z) : M pb_ostream_t unit :=
  s ← get;
  bs ← deref (ptr_read buf count);
  dest ← deref (zput (os_buf s) (os_pos s) bs);
  put (with_ostate s dest (os_pos s + count)).

Section Encode.
Variable user_write : nat -> ptr -> Z -> M pb_ostream_t unit.

Definition pb_write (buf : ptr) (count : Z) : M pb_ostream_t unit :=
  s ← get;
  match os_callback s with
  | None => mret tt
  | Some cb =>
      if os_max_size s <? u64 (os_bytes_written s + count) then oerror "stream full" else
      r ← try_ (match cb with
                | buf_write_cb => buf_write buf count
                | user_write_cb f => user_write f buf count
                end);
      match r with Some _ => mret tt | None => oerror "io error" end
  end;;
  modify (fun s => with_written s (u64 (os_bytes_written s + count))).

(** [while (value)] fills the ten bytes of the buffer. *)
Definition encode_varint_loop (value : Z) : M pb_ostream_t (list Z) :=
  iter 11 (fun '(value, buffer) =>
    if value =? 0 then mret (inr buffer) else
    assert_ (zlen buffer <? 10);;
    mret (inl (Z.shiftr value 7, buffer ++ [u8 (Z.lor (Z.land value 0x7F) 0x80)]))) (value, []).

Definition pb_encode_varint (value : Z) : M pb_ostream_t unit :=
  if value <=? 0x7F then pb_write (P [u8 value]) 1 else
  buffer ← encode_varint_loop value;
  let i := zlen buffer in
  last ← deref (zget buffer (i - 1));
  buffer ← deref (zset buffer (i - 1) (Z.land last 0x7F));
  pb_write (P buffer) i.

(** [value] is an [int64_t]. *)
Definition pb_encode_svarint (value : Z) : M pb_ostream_t unit :=
  let zigzagged := if value <? 0 then u64 (Z.lnot (u64 (Z.shiftl (u64 value) 1)))
                   else u64 (Z.shiftl (u64 value) 1) in
  pb_encode_varint zigzagged.

(** [(pb_byte_t)((val >> 8*i) & 0xFF)] for each of [n] bytes. *)
Definition fixed_bytes (n val : Z) : list Z :=
  (fun i => u8 (Z.land (Z.shiftr val (8 * i)) 0xFF)) <$> zseq 0 n.
Definition pb_encode_fixed32 (val : Z) : M pb_ostream_t unit := pb_write (P (fixed_bytes 4 val)) 4.
Definition pb_encode_fixed64 (val : Z) : M pb_ostream_t unit := pb_write (P (fixed_bytes 8 val)) 8.

Definition pb_encode_tag (wiretype field_number : Z) : M pb_ostream_t unit :=
  pb_encode_varint (Z.lor (u64 (Z.shiftl field_number 3)) wiretype).

Definition pb_encode_string (buffer : ptr) (size : Z) : M pb_ostream_t unit :=
  pb_encode_varint size;;
  pb_write buffer size.
End Encode.
