(* ===== verification/PbFacts.v ===== *)
(** Facts about [Pb]: what each reader takes from a buffer stream, and what each
    writer appends to an output stream. *)
From Stdlib Require Import String.
From S2P Require Import Prelude Pb.
Open Scope string_scope.
Open Scope list_scope.
Open Scope Z_scope.

(** * The wire format *)

(** The octets of a varint: a run of octets with the top bit set, and one without. *)
Definition varint (o : list Z) : Prop :=
  exists i l, o = i ++ [l] /\ Forall (fun b => 128 <= b) i /\ l < 128.
(** Its value: seven bits from each octet, the least significant first. *)
Fixpoint vval (o : list Z) : Z :=
  match o with
  | [] => 0
  | b :: o => b mod 128 + 128 * vval o
  end.
Fixpoint enc_varint_fuel (fuel : nat) (v : Z) : list Z :=
  match fuel with
  | O => []
  | S fuel => if v <? 128 then [v] else (v mod 128 + 128) :: enc_varint_fuel fuel (v / 128)
  end.
(** The shortest varint of a 64-bit value. *)
Definition enc_varint (v : Z) : list Z := enc_varint_fuel 10 v.

Fixpoint le (n : nat) (v : Z) : list Z :=
  match n with O => [] | S n => v mod 256 :: le n (v / 256) end.

Lemma vval_app o p : vval (o ++ p) = vval o + 128 ^ zlen o * vval p.
Proof.
  induction o as [|b o IH]; [change (zlen (@nil Z)) with 0; cbn; lia|]. cbn [vval app]. rewrite IH, zlen_cons.
  rewrite Z.pow_add_r by (pose proof (zlen_nonneg o); lia). change (128 ^ 1) with 128. lia.
Qed.

Lemma vval_range o : 0 <= vval o < 128 ^ zlen o.
Proof.
  induction o as [|b o IH]; [done|]. cbn [vval]. rewrite zlen_cons, Z.pow_add_r by (pose proof (zlen_nonneg o); lia).
  change (128 ^ 1) with 128. pose proof (Z.mod_pos_bound b 128). lia.
Qed.

Lemma varint_cons b o : 128 <= b -> varint o -> varint (b :: o).
Proof. intros Hb (i & l & -> & Hi & Hl). exists (b :: i), l. split_and!; [done|by constructor|done]. Qed.
Lemma varint_one b : b < 128 -> varint [b].
Proof. exists [], b. by split_and!. Qed.

(** A varint is determined by what it starts. *)
Lemma varint_split o l o' l' : varint o -> varint o' -> o ++ l = o' ++ l' -> o = o' /\ l = l'.
Proof.
  intros (i & x & -> & Hi & Hx) (i' & x' & -> & Hi' & Hx'). rewrite <- !app_assoc. cbn [app]. revert i' Hi'.
  induction Hi as [|y i Hy Hi IH]; intros [|y' i'] Hi' Heq; cbn [app] in Heq; injection Heq as -> Heq.
  - done.
  - inversion Hi'; subst. lia.
  - lia.
  - inversion Hi' as [|? ? _ Hi'']; subst. destruct (IH i' Hi'' Heq) as [Heq' ->]. cbn [app]. by rewrite Heq'.
Qed.

Lemma enc_varint_fuel_spec fuel v :
  (0 < fuel)%nat -> 0 <= v < 128 ^ Z.of_nat fuel ->
  varint (enc_varint_fuel fuel v) /\ vval (enc_varint_fuel fuel v) = v /\ bytes (enc_varint_fuel fuel v).
Proof.
  revert v. induction fuel as [|fuel IH]; intros v Hf Hv; [lia|]. cbn [enc_varint_fuel]. destruct (Z.ltb_spec v 128).
  - split_and!; [by apply varint_one| |].
    + cbn. rewrite Z.mod_small by lia. lia.
    + apply bytes_cons. split; [unfold is_byte; lia|apply bytes_nil].
  - assert (0 < fuel)%nat as Hf'. { destruct fuel; [|lia]. change (128 ^ Z.of_nat 1) with 128 in Hv. lia. }
    destruct (IH (v / 128)) as (Hvar & Hval & Hby); [done| |].
    { rewrite Nat2Z.inj_succ, Z.pow_succ_r in Hv by lia. split; [apply Z.div_pos; lia|apply Z.div_lt_upper_bound; lia]. }
    pose proof (Z.mod_pos_bound v 128). split_and!; [apply varint_cons; [lia|done]| |].
    + cbn [vval]. rewrite Hval. replace (v mod 128 + 128) with (v mod 128 + 1 * 128) by lia.
      rewrite Z.mod_add, Z.mod_mod by lia. rewrite Z.add_comm. symmetry. apply Z.div_mod. lia.
    + apply bytes_cons. split; [unfold is_byte; lia|done].
Qed.

Lemma enc_varint_spec v :
  0 <= v < 2 ^ 64 -> varint (enc_varint v) /\ vval (enc_varint v) = v /\ bytes (enc_varint v).
Proof. intros. apply enc_varint_fuel_spec; [lia|]. change (128 ^ Z.of_nat 10) with (2 ^ 70). lia. Qed.

Lemma zlen_enc_varint_fuel fuel k v :
  0 <= v < 128 ^ Z.of_nat k -> (0 < k <= fuel)%nat -> zlen (enc_varint_fuel fuel v) <= Z.of_nat k.
Proof.
  revert k v. induction fuel as [|fuel IH]; intros k v Hv Hk; [lia|]. cbn [enc_varint_fuel]. destruct (Z.ltb_spec v 128).
  - rewrite zlen_cons. change (zlen (@nil Z)) with 0. lia.
  - destruct k as [|[|k]]; [lia|change (128 ^ Z.of_nat 1) with 128 in Hv; lia|]. rewrite zlen_cons.
    assert (zlen (enc_varint_fuel fuel (v / 128)) <= Z.of_nat (S k)); [|lia]. apply IH; [|lia].
    rewrite Nat2Z.inj_succ, Z.pow_succ_r in Hv by lia. split; [apply Z.div_pos; lia|apply Z.div_lt_upper_bound; lia].
Qed.
Lemma zlen_enc_varint v : 0 <= v < 2 ^ 64 -> 1 <= zlen (enc_varint v) <= 10.
Proof.
  intros Hv. split.
  - destruct (enc_varint_spec v Hv) as ((i & l & -> & _) & _). rewrite zlen_snoc. pose proof (zlen_nonneg i). lia.
  - apply (zlen_enc_varint_fuel 10 10); [|lia]. change (128 ^ Z.of_nat 10) with (2 ^ 70). lia.
Qed.
Lemma zlen_enc_varint32 v : 0 <= v < 2 ^ 32 -> zlen (enc_varint v) <= 5.
Proof. intros Hv. apply (zlen_enc_varint_fuel 10 5); [|lia]. change (128 ^ Z.of_nat 5) with (2 ^ 35). lia. Qed.

(** * Input from a buffer *)

(** The stream reads [l] from a buffer where [t] comes behind it. *)
Definition in_ok (s : pb_istream_t) (l t : list Z) : Prop :=
  is_callback s = buf_read_cb /\ is_state s = P (l ++ t) /\ is_bytes_left s = zlen l /\
  zlen l < 2 ^ 64 /\ bytes l.

(** [s'] reads what is left of [s] after some octets, with no new error. *)
Definition advanced (s s' : pb_istream_t) (l' t : list Z) : Prop :=
  in_ok s' l' t /\ is_errmsg s' = is_errmsg s.

Lemma in_ok_from_buffer l tail :
  bytes l -> zlen l < 2 ^ 64 -> in_ok (pb_istream_from_buffer (P (l ++ tail)) (zlen l)) l tail.
Proof. intros. unfold in_ok. cbn. by split_and!. Qed.

Section Decode.
Variable user_read : nat -> Z -> M pb_istream_t (list Z).

(** An error: the stream still reads from its buffer, and says why. *)
Definition in_error (s' : pb_istream_t) : Prop := is_callback s' = buf_read_cb /\ is_errmsg s' <> None.

Lemma ierror_spec {A} msg (Q : A -> pb_istream_t -> Prop) s :
  is_callback s = buf_read_cb -> wp (ierror msg) Q in_error s.
Proof. intros H. unfold wp, ierror, in_error, first_error. cbn. split; [done|]. by destruct (is_errmsg s). Qed.

Lemma io_read_spec buf_null n s l t :
  in_ok s l t -> 0 <= n <= zlen l ->
  wp (io_read user_read buf_null n)
    (fun bs s' => bs = (if buf_null then [] else ztake n l) /\ is_callback s' = buf_read_cb /\
       is_state s' = P (zdrop n l ++ t) /\ is_bytes_left s' = zlen l /\ is_errmsg s' = is_errmsg s)
    (fun _ => False) s.
Proof.
  intros (Hcb & Hst & Hleft & Hlen & Hby) Hn. unfold io_read, call_read, buf_read.
  unfold wp, mbind, M_bind, get, try_. rewrite Hcb, Hst. cbn. pose proof (zlen_nonneg t).
  rewrite (proj2 (Z.leb_le 0 n)), (proj2 (Z.leb_le n _)) by (rewrite ?zlen_app; lia). cbn.
  rewrite zdrop_app_le by done. destruct buf_null; cbn; [eauto 10|]. unfold ptr_read. cbn.
  rewrite (proj2 (Z.leb_le 0 n)), (proj2 (Z.leb_le n _)) by (rewrite ?zlen_app; lia). cbn.
  rewrite ztake_app_le by done. eauto 10.
Qed.

Lemma pb_read_spec buf_null n s l t :
  in_ok s l t -> 0 <= n ->
  wp (pb_read user_read buf_null n)
    (fun bs s' => exists p l', l = p ++ l' /\ zlen p = n /\ bs = (if buf_null then [] else p) /\ advanced s s' l' t)
    (fun s' => zlen l < n /\ in_error s') s.
Proof.
  intros Hs Hn. pose proof Hs as (Hcb & _ & Hleft & Hlen & Hby). unfold pb_read. apply wp_bind, wp_get.
  rewrite (bool_decide_eq_true_2 _ Hcb), andb_false_r. unfold pb_read_counted. apply wp_bind, wp_get. rewrite Hleft.
  destruct (Z.ltb_spec (zlen l) n) as [Hlt|Hge].
  { eapply wp_mono; [by apply (ierror_spec _ (fun _ _ => False))|done|]. done. }
  apply wp_bind. wp_call io_read_spec; [exact Hs|done| |done]. intros bs s' (-> & Hcb' & Hst' & Hleft' & Herr).
  wp_go. exists (ztake n l), (zdrop n l). rewrite ztake_zdrop, zlen_ztake by done. split_and!; [done..|].
  split; [|done]. unfold in_ok. cbn. rewrite Hleft'. unfold u64. pose proof (zlen_nonneg (zdrop n l)).
  rewrite zlen_zdrop in * by done. rewrite Z.mod_small by lia. split_and!; [done|done|done|lia|by apply bytes_zdrop].
Qed.

Lemma pb_readbyte_spec s l t :
  in_ok s l t ->
  wp (pb_readbyte user_read) (fun b s' => exists l', l = b :: l' /\ is_byte b /\ advanced s s' l' t)
    (fun s' => l = [] /\ in_error s' /\ is_bytes_left s' = 0) s.
Proof.
  intros Hs. pose proof Hs as (Hcb & Hst & Hleft & Hlen & Hby). unfold pb_readbyte. apply wp_bind, wp_get. rewrite Hleft.
  destruct (Z.eqb_spec (zlen l) 0) as [E|E].
  { apply zlen_0 in E as ->. unfold wp, ierror, in_error, first_error. cbn. split_and!; [done|done|by destruct (is_errmsg s)|done]. }
  destruct (zlen_pos l) as (b & l' & ->); [pose proof (zlen_nonneg l); lia|]. rewrite zlen_cons in *. pose proof (zlen_nonneg l').
  apply wp_bind. wp_call io_read_spec; [exact Hs|rewrite zlen_cons; lia| |done]. intros bs s' (-> & Hcb' & Hst' & Hleft' & Herr).
  wp_go. apply bytes_cons in Hby as [Hb Hby]. apply (wp_deref _ b); [done|]. exists l'. split_and!; [done|apply Hb..|].
  split; [|done]. unfold in_ok. cbn. rewrite Hleft'. unfold u64. rewrite zlen_cons, Z.mod_small by lia.
  split_and!; [done|done|lia|lia|done].
Qed.

(** * Varints from a buffer *)

(** The body of both varint loops, at the width [w]. *)
Definition vstep (w : Z) (st : Z * Z) : M pb_istream_t (Z * Z + Z) :=
  let '(result, bitpos) := st in
  if w <=? bitpos then ierror "varint overflow" else
  byte ← pb_readbyte user_read;
  let result := Z.lor result (Z.shiftl (Z.land byte 0x7F) bitpos mod 2 ^ w) in
  let bitpos := u8 (bitpos + 7) in
  if negb (Z.land byte 0x80 =? 0) then mret (inl (result, bitpos)) else mret (inr result).
Lemma vstep_at w result bitpos :
  vstep w (result, bitpos) =
    if w <=? bitpos then ierror "varint overflow" else
    byte ← pb_readbyte user_read;
    let result := Z.lor result (Z.shiftl (Z.land byte 0x7F) bitpos mod 2 ^ w) in
    let bitpos := u8 (bitpos + 7) in
    if negb (Z.land byte 0x80 =? 0) then mret (inl (result, bitpos)) else mret (inr result).
Proof. done. Qed.
Lemma varint_step_vstep : varint_step user_read = vstep 64.
Proof. done. Qed.
Lemma varint32_step_vstep : varint32_step user_read = vstep 32.
Proof. done. Qed.

(** One more group of seven bits. *)
Lemma vval_accumulate w pre b :
  0 <= w -> Z.lor (vval pre mod 2 ^ w) (Z.shiftl (Z.land b 0x7F) (7 * zlen pre) mod 2 ^ w) = vval (pre ++ [b]) mod 2 ^ w.
Proof.
  intros Hw. rewrite land_0x7f, <- !Z.land_ones, <- Z.land_lor_distr_l by done. f_equal.
  pose proof (zlen_nonneg pre). rewrite Z.lor_comm, lor_shiftl; [|lia|].
  - rewrite vval_app. cbn [vval]. rewrite Z.pow_mul_r by lia. change (2 ^ 7) with 128. lia.
  - rewrite Z.pow_mul_r by lia. change (2 ^ 7) with 128. apply vval_range.
Qed.

(** How many octets a varint of [w] bits may take. *)
Definition octets (w : Z) : Z := (w + 6) / 7.

Definition has_varint (n : Z) (l : list Z) : Prop := exists o l', l = o ++ l' /\ varint o /\ zlen o <= n.

(** A first octet with the top bit set leaves the rest to decide. *)
Lemma no_varint_cons n b l : 128 <= b -> ~ has_varint (n - 1) l -> ~ has_varint n (b :: l).
Proof.
  intros Hb Hno (o & l2 & Heq & (i & x & -> & Hi & Hx) & Hz). apply Hno.
  destruct i as [|y i]; cbn [app] in *; injection Heq as <- Heq; [lia|]. inversion Hi; subst.
  exists (i ++ [x]), l2. split_and!; [done|by exists i, x|]. rewrite zlen_cons in Hz. lia.
Qed.
Lemma no_varint_nil n : ~ has_varint n [].
Proof. intros (o & l2 & Heq & (i & x & -> & _) & _). rewrite <- app_assoc in Heq. by destruct i. Qed.

Lemma vstep_loop w fuel pre s l t :
  0 < w <= 64 -> zlen pre <= octets w -> octets w < zlen pre + Z.of_nat fuel -> in_ok s l t ->
  wp (iter fuel (vstep w) (vval pre mod 2 ^ w, 7 * zlen pre))
    (fun v s' => exists o l', l = o ++ l' /\ varint o /\ zlen pre + zlen o <= octets w /\
       v = vval (pre ++ o) mod 2 ^ w /\ advanced s s' l' t)
    (fun s' => ~ has_varint (octets w - zlen pre) l /\ in_error s') s.
Proof.
  intros Hw. revert pre s l. induction fuel as [|fuel IH]; intros pre s l Hpre Hfuel Hs; [lia|]. cbn [iter]. rewrite vstep_at.
  pose proof (zlen_nonneg pre). assert (octets w <= 10) as Hmax by (apply Z.div_le_upper_bound; lia).
  destruct (Z.leb_spec w (7 * zlen pre)) as [Hfull|Hroom].
  { apply wp_bind. eapply wp_mono; [apply (ierror_spec _ (fun _ _ => False)); apply Hs|done|]. intros s' Herr. split; [|done].
    intros (o & l' & _ & (i & x & -> & _) & Ho). rewrite zlen_snoc in Ho. pose proof (zlen_nonneg i).
    unfold octets in *.
    assert ((w + 6) / 7 < zlen pre + 1) by (apply Z.div_lt_upper_bound; lia). lia. }
  assert (zlen pre + 1 <= octets w) as Hk by (apply Z.div_le_lower_bound; lia).
  apply wp_bind, wp_bind. wp_call pb_readbyte_spec; [exact Hs| |].
  - intros b s' (l' & -> & Hb & Hadv). rewrite land_0x80, vval_accumulate by (done || lia).
    unfold u8. rewrite (Z.mod_small (7 * zlen pre + 7)) by lia. destruct (Z.ltb_spec b 128); cbn [negb]; apply wp_ret.
    + apply wp_ret. exists [b], l'. split_and!; [done|by apply varint_one|rewrite zlen_cons; change (zlen (@nil Z)) with 0; lia|done|done].
    + replace (7 * zlen pre + 7) with (7 * zlen (pre ++ [b])) by (rewrite zlen_snoc; lia).
      destruct Hadv as [Hs' Herr]. wp_call IH; [rewrite zlen_snoc; lia|rewrite zlen_snoc; lia|exact Hs'| |].
      * intros v s2 (o & l2 & -> & Ho & Hz & -> & Hs2 & Herr2). rewrite zlen_snoc in Hz. exists (b :: o), l2.
        rewrite <- app_assoc, zlen_cons. split_and!; [done|by apply varint_cons|lia|done|split; [done|by rewrite Herr2]].
      * intros s2 [Hno Herr2]. split; [|done]. apply no_varint_cons; [done|]. rewrite zlen_snoc in Hno.
        by replace (octets w - zlen pre - 1) with (octets w - (zlen pre + 1)) by lia.
  - intros s' (-> & Herr & _). split; [apply no_varint_nil|done].
Qed.

Lemma pb_decode_varint_spec s l t :
  in_ok s l t ->
  wp (pb_decode_varint user_read)
    (fun v s' => exists o l', l = o ++ l' /\ varint o /\ zlen o <= 10 /\ v = vval o mod 2 ^ 64 /\ advanced s s' l' t)
    (fun s' => ~ has_varint 10 l /\ in_error s') s.
Proof.
  intros Hs. unfold pb_decode_varint. rewrite varint_step_vstep.
  wp_call (vstep_loop 64 11 [] s l t); [lia|done|done|exact Hs| |done]. intros v s' (o & l' & H). by exists o, l'.
Qed.

Lemma pb_decode_varint32_spec s l t :
  in_ok s l t ->
  wp (pb_decode_varint32 user_read)
    (fun v s' => exists o l', l = o ++ l' /\ varint o /\ zlen o <= 5 /\ v = vval o mod 2 ^ 32 /\ advanced s s' l' t)
    (fun s' => ~ has_varint 5 l /\ in_error s') s.
Proof.
  intros Hs. unfold pb_decode_varint32. rewrite varint32_step_vstep. apply wp_bind. wp_call pb_readbyte_spec; [exact Hs| |].
  - intros b s' (l' & -> & Hb & [Hs' Herr]). rewrite land_0x80 by done. destruct (Z.ltb_spec b 128).
    + apply wp_ret. exists [b], l'. split_and!; [done|by apply varint_one|done| |done].
      unfold is_byte in Hb. cbn [vval]. rewrite (Z.mod_small b), Z.mul_0_r, Z.add_0_r, Z.mod_small by lia. done.
    + rewrite land_0x7f. pose proof (Z.mod_pos_bound b 128).
      replace (b mod 128) with (vval [b] mod 2 ^ 32) by (cbn [vval]; rewrite Z.mul_0_r, Z.add_0_r, Z.mod_small by lia; done).
      wp_call (vstep_loop 32 6 [b] s' l' t); [lia|done|done|exact Hs'| |].
      * intros v s2 (o & l2 & -> & Ho & Hz & -> & Hs2 & Herr2). exists (b :: o), l2. change (zlen [b]) with 1 in Hz. change (octets 32) with 5 in Hz.
        split_and!; [done|by apply varint_cons|rewrite zlen_cons; lia|done|split; [done|by rewrite Herr2]].
      * intros s2 [Hno Herr2]. split; [|done]. by apply no_varint_cons.
  - intros s' (-> & Herr & _). split; [apply no_varint_nil|done].
Qed.

(** * Skipping and cutting *)

(** The octets of a value of each wire type. *)
Definition wire_value (wt : Z) (o : list Z) : Prop :=
  (wt = PB_WT_VARINT /\ varint o) \/ (wt = PB_WT_64BIT /\ zlen o = 8) \/ (wt = PB_WT_32BIT /\ zlen o = 4) \/
  (wt = PB_WT_STRING /\ exists n body, o = n ++ body /\ varint n /\ zlen n <= 5 /\ zlen body = vval n mod 2 ^ 32).
Definition has_value (wt : Z) (l : list Z) : Prop := exists o l', l = o ++ l' /\ wire_value wt o.

Lemma has_varint_cut n o l : varint o -> has_varint n (o ++ l) -> zlen o <= n.
Proof. intros Ho (o' & l' & Heq & Ho' & Hn). destruct (varint_split _ _ _ _ Ho Ho' Heq) as [-> _]. done. Qed.

(** A negative number on the wire is its 64-bit two's complement, of ten octets. *)
Lemma negative_long v l : - 2 ^ 63 <= v < 0 -> ~ has_varint 5 (enc_varint (v mod 2 ^ 64) ++ l).
Proof.
  intros Hv. assert (v mod 2 ^ 64 = v + 2 ^ 64) as -> by (symmetry; apply (Z.mod_unique _ _ (-1)); lia).
  destruct (enc_varint_spec (v + 2 ^ 64)) as (Ho & Hval & _); [lia|]. intros Hc%has_varint_cut; [|done].
  pose proof (vval_range (enc_varint (v + 2 ^ 64))) as Hr. rewrite Hval in Hr.
  pose proof (Z.pow_le_mono_r 128 _ _ ltac:(lia) Hc). change (128 ^ 5) with (2 ^ 35) in *. lia.
Qed.

(** A read that has enough octets for the value it wants. *)
Lemma pb_read_true_spec n s l t :
  in_ok s l t -> 0 <= n ->
  wp (pb_read user_read true n)
    (fun _ s' => exists p l', l = p ++ l' /\ zlen p = n /\ advanced s s' l' t)
    (fun s' => zlen l < n /\ in_error s') s.
Proof.
  intros Hs Hn. wp_call pb_read_spec; [exact Hs|done| |done]. intros bs s' (p & l' & H1 & H2 & _ & H3). eauto.
Qed.

Lemma pb_skip_varint_loop fuel s l t :
  in_ok s l t -> zlen l < Z.of_nat fuel ->
  wp (iter fuel (fun _ : unit =>
        bs ← pb_read user_read false 1;
        byte ← deref (zget bs 0);
        if negb (Z.land byte 0x80 =? 0) then mret (inl tt) else mret (inr tt)) tt)
    (fun _ s' => exists o l', l = o ++ l' /\ varint o /\ advanced s s' l' t)
    (fun s' => ~ has_value PB_WT_VARINT l /\ in_error s') s.
Proof.
  revert s l. induction fuel as [|fuel IH]; intros s l Hs Hf; [pose proof (zlen_nonneg l); lia|]. cbn [iter].
  apply wp_bind, wp_bind. wp_call pb_read_spec; [exact Hs|done| |].
  - intros bs s' (p & l' & -> & Hp & -> & [Hs' Herr]). destruct (zlen_pos p) as (b & p' & ->); [lia|].
    rewrite zlen_cons in Hp. assert (p' = []) as -> by (apply zlen_0; lia). apply wp_bind. apply (wp_deref _ b); [done|].
    pose proof Hs as (_ & _ & _ & _ & Hby). apply bytes_app in Hby as [[Hb _]%bytes_cons _].
    rewrite land_0x80 by done. cbn [app] in *. rewrite zlen_cons in Hf. destruct (Z.ltb_spec b 128); cbn [negb].
    + apply wp_ret, wp_ret. exists [b], l'. split_and!; [done|by apply varint_one|done].
    + apply wp_ret. wp_call IH; [exact Hs'|lia| |].
      * intros _ s2 (o & l2 & -> & Ho & Hs2 & Herr2). exists (b :: o), l2. split_and!; [done|by apply varint_cons|split; [done|by rewrite Herr2]].
      * intros s2 [Hno Herr2]. split; [|done]. intros (o & l2 & Heq & [[_ (i & x & -> & Hi & Hx)]|[[? _]|[[? _]|[? _]]]]); [|done..].
        apply Hno. destruct i as [|y i]; cbn [app] in Heq; injection Heq as <- Heq; [lia|]. inversion Hi; subst.
        exists (i ++ [x]), l2. split; [done|]. left. split; [done|]. by exists i, x.
  - intros s' [Hlt Herr]. assert (l = []) as -> by (apply zlen_0; pose proof (zlen_nonneg l); lia). split; [|done].
    intros (o & l2 & Heq & [[_ (i & x & -> & _)]|[[? _]|[[? _]|[? _]]]]); [|done..]. rewrite <- app_assoc in Heq. by destruct i.
Qed.

Lemma pb_skip_string_spec s l t :
  in_ok s l t ->
  wp (pb_skip_string user_read)
    (fun _ s' => exists o l', l = o ++ l' /\ wire_value PB_WT_STRING o /\ advanced s s' l' t)
    (fun s' => ~ has_value PB_WT_STRING l /\ in_error s') s.
Proof.
  intros Hs. unfold pb_skip_string. apply wp_bind. wp_call pb_decode_varint32_spec; [exact Hs| |].
  - intros n s' (o & l' & -> & Ho & Hz & -> & [Hs' Herr]). pose proof (Z.mod_pos_bound (vval o) (2 ^ 32)).
    apply wp_bind. wp_call pb_read_true_spec; [exact Hs'|lia| |].
    + intros _ s2 (p & l2 & -> & Hp & Hs2 & Herr2). apply wp_ret. exists (o ++ p), l2. rewrite <- app_assoc.
      split_and!; [done| |split; [done|by rewrite Herr2]]. right; right; right. split; [done|]. by exists o, p.
    + intros s2 [Hlt Herr2]. split; [|done].
      intros (o' & l2 & Heq & [[? _]|[[? _]|[[? _]|[_ (n & body & -> & Hn & _ & Hbody)]]]]); [done..|].
      rewrite <- app_assoc in Heq. destruct (varint_split _ _ _ _ Ho Hn Heq) as [-> ->].
      rewrite zlen_app in Hlt. pose proof (zlen_nonneg l2). lia.
  - intros s' [Hno Herr]. split; [|done]. intros (o' & l2 & -> & [[? _]|[[? _]|[[? _]|[_ (n & body & -> & Hn & Hz & _)]]]]); [done..|].
    apply Hno. exists n, (body ++ l2). by rewrite <- app_assoc.
Qed.

Lemma wire_value_fixed wt n s l t :
  (wt = PB_WT_64BIT /\ n = 8) \/ (wt = PB_WT_32BIT /\ n = 4) -> in_ok s l t ->
  wp (pb_read user_read true n;; mret tt)
    (fun _ s' => exists o l', l = o ++ l' /\ wire_value wt o /\ advanced s s' l' t)
    (fun s' => ~ has_value wt l /\ in_error s') s.
Proof.
  intros Hwt Hs. apply wp_bind. wp_call pb_read_true_spec; [exact Hs|lia| |].
  - intros _ s' (p & l' & -> & Hp & Hadv). apply wp_ret. exists p, l'. split_and!; [done| |done].
    unfold wire_value. destruct Hwt as [[-> ->]|[-> ->]]; auto.
  - intros s' [Hlt Herr]. split; [|done]. intros (o & l' & -> & Hv). rewrite zlen_app in Hlt. pose proof (zlen_nonneg l').
    assert (zlen o = n); [|lia]. destruct Hwt as [[-> ->]|[-> ->]], Hv as [[? _]|[[? ?]|[[? ?]|[? _]]]]; done.
Qed.

Lemma pb_skip_field_spec wt s l t :
  in_ok s l t ->
  wp (pb_skip_field user_read wt)
    (fun _ s' => exists o l', l = o ++ l' /\ wire_value wt o /\ advanced s s' l' t)
    (fun s' => ~ has_value wt l /\ in_error s') s.
Proof.
  intros Hs. unfold pb_skip_field. destruct (Z.eqb_spec wt PB_WT_VARINT) as [->|H0].
  { unfold pb_skip_varint. apply wp_bind, wp_get. pose proof Hs as (_ & _ & -> & _). pose proof (zlen_nonneg l).
    wp_call pb_skip_varint_loop; [exact Hs|lia| |done]. intros _ s' (o & l' & -> & Ho & Hadv). exists o, l'.
    split_and!; [done| |done]. by left. }
  destruct (Z.eqb_spec wt PB_WT_64BIT) as [->|H1]; [apply wire_value_fixed; [by left|done]|].
  destruct (Z.eqb_spec wt PB_WT_STRING) as [->|H2]; [by apply pb_skip_string_spec|].
  destruct (Z.eqb_spec wt PB_WT_32BIT) as [->|H3]; [apply wire_value_fixed; [by right|done]|].
  eapply wp_mono; [apply (ierror_spec _ (fun _ _ => False)); apply Hs|done|]. intros s' Herr. split; [|done].
  intros (o & l' & _ & [[? _]|[[? _]|[[? _]|[? _]]]]); done.
Qed.

(** A substream: its octets, and the parent stream in between, which has given
    them up but still stands before them. *)
Lemma pb_make_string_substream_spec s l t :
  in_ok s l t ->
  wp (pb_make_string_substream user_read)
    (fun sub s' => exists n body l', l = n ++ body ++ l' /\ varint n /\ zlen n <= 5 /\ zlen body = vval n mod 2 ^ 32 /\
       in_ok sub body (l' ++ t) /\ is_errmsg sub = is_errmsg s /\
       s' = with_left sub (zlen l') /\ bytes l' /\ zlen l' < 2 ^ 64)
    (fun s' => ~ has_value PB_WT_STRING l /\ in_error s') s.
Proof.
  intros Hs. unfold pb_make_string_substream. apply wp_bind. wp_call pb_decode_varint32_spec; [exact Hs| |].
  - intros n s' (o & l' & -> & Ho & Hz & -> & [Hs' Herr]). pose proof (Z.mod_pos_bound (vval o) (2 ^ 32)).
    pose proof Hs' as (Hcb & Hst & Hleft & Hlen & Hby). apply wp_bind, wp_get. rewrite Hleft.
    destruct (Z.ltb_spec (zlen l') (vval o mod 2 ^ 32)) as [Hlt|Hge].
    + eapply wp_mono; [by apply (ierror_spec _ (fun _ _ => False))|done|]. intros s2 Herr2. split; [|done].
      intros (o' & l2 & Heq & [[? _]|[[? _]|[[? _]|[_ (n & body & -> & Hn & _ & Hbody)]]]]); [done..|].
      rewrite <- app_assoc in Heq. destruct (varint_split _ _ _ _ Ho Hn Heq) as [-> ->].
      rewrite zlen_app in Hlt. pose proof (zlen_nonneg l2). lia.
    + wp_go. set (k := vval o mod 2 ^ 32) in *.
      assert (Hk : 0 <= k <= zlen l') by lia.
      assert (Hcut : l' = ztake k l' ++ zdrop k l') by (by rewrite ztake_zdrop).
      assert (Hzd : zlen (zdrop k l') = zlen l' - k) by (apply zlen_zdrop; lia).
      exists o, (ztake k l'), (zdrop k l'). split_and!; [by rewrite <- Hcut|done|done|by rewrite zlen_ztake| |done| | |].
      * unfold in_ok. cbn. rewrite zlen_ztake by done. rewrite app_assoc, <- Hcut. split_and!; try done; [lia|by apply bytes_ztake].
      * unfold with_left. cbn. by rewrite Hzd.
      * by apply bytes_zdrop.
      * lia.
  - intros s' [Hno Herr]. split; [|done]. intros (o' & l2 & -> & [[? _]|[[? _]|[[? _]|[_ (n & body & -> & Hn & Hz & _)]]]]); [done..|].
    apply Hno. exists n, (body ++ l2). by rewrite <- app_assoc.
Qed.

(** Closing it moves the parent past what is left of the substream. *)
Lemma pb_close_string_substream_spec sub b l' t s :
  in_ok sub b (l' ++ t) -> is_callback s = buf_read_cb -> is_bytes_left s = zlen l' -> bytes l' -> zlen l' < 2 ^ 64 ->
  wp (pb_close_string_substream user_read sub)
    (fun _ s' => in_ok s' l' t /\ is_errmsg s' = is_errmsg sub) (fun _ => False) s.
Proof.
  intros Hsub Hcb Hleft Hby Hlen. unfold pb_close_string_substream. pose proof Hsub as (Hcbs & Hst & Hls & Hlens & Hbys).
  rewrite Hls. apply wp_bind.
  apply (wp_mono _ (fun sub' s' => in_ok sub' [] (l' ++ t) /\ is_errmsg sub' = is_errmsg sub /\ s' = s) _ (fun _ => False)); [|
    |done].
  - destruct (Z.eqb_spec (zlen b) 0) as [E|E]; cbn [negb].
    + apply zlen_0 in E as ->. apply wp_ret. done.
    + apply wp_bind, wp_on. wp_call pb_read_true_spec; [exact Hsub|apply zlen_nonneg| |].
      * intros bs sub' (p & b' & -> & Hp & Hs' & Herr). rewrite zlen_app in Hp.
        assert (b' = []) as -> by (apply zlen_0; lia). apply wp_ret. done.
      * intros s' [Hlt _]. lia.
  - intros sub' s' ((_ & Hst' & _) & Herr & ->). apply wp_modify. split; [|done]. unfold in_ok. cbn. by split_and!.
Qed.

(** * Scalars *)

(** Zigzag: the integer a [sint] varint stands for. *)
Definition zigzag_dec (u : Z) : Z := if Z.odd u then - (u / 2) - 1 else u / 2.
Definition zigzag_enc (v : Z) : Z := if v <? 0 then - 2 * v - 1 else 2 * v.

Lemma zigzag_dec_enc v : zigzag_dec (zigzag_enc v) = v.
Proof.
  unfold zigzag_dec, zigzag_enc. destruct (Z.ltb_spec v 0).
  - replace (- 2 * v - 1) with (1 + 2 * (- v - 1)) by lia. rewrite Z.odd_add_mul_2. cbn [Z.odd].
    rewrite (Z.mul_comm 2), Z.div_add by lia. change (1 / 2) with 0. lia.
  - rewrite Z.odd_mul. cbn [Z.odd andb]. rewrite Z.mul_comm, Z.div_mul by lia. done.
Qed.

Lemma pb_decode_svarint_spec s l t :
  in_ok s l t ->
  wp (pb_decode_svarint user_read)
    (fun v s' => exists o l', l = o ++ l' /\ varint o /\ zlen o <= 10 /\ v = zigzag_dec (vval o mod 2 ^ 64) /\ advanced s s' l' t)
    (fun s' => ~ has_varint 10 l /\ in_error s') s.
Proof.
  intros Hs. unfold pb_decode_svarint. apply wp_bind. wp_call pb_decode_varint_spec; [exact Hs| |done].
  intros u s' (o & l' & -> & Ho & Hz & -> & Hadv). apply wp_ret. exists o, l'. split_and!; try done.
  unfold zigzag_dec. set (u := vval o mod 2 ^ 64). rewrite <- Z.div2_spec, Z.div2_div.
  change 1 with (2 ^ 1 - 1) at 1. rewrite land_low by lia. change (2 ^ 1) with 2. rewrite Zmod_odd.
  destruct (Z.odd u); cbn; [unfold Z.lnot; lia|done].
Qed.

Fixpoint le_val (l : list Z) : Z := match l with [] => 0 | b :: l => b + 256 * le_val l end.

Lemma le_val_range l : bytes l -> 0 <= le_val l < 256 ^ zlen l.
Proof.
  induction 1 as [|b l Hb Hl IH]; [done|]. cbn [le_val]. rewrite zlen_cons, Z.pow_add_r by (pose proof (zlen_nonneg l); lia).
  change (256 ^ 1) with 256. unfold is_byte in Hb. lia.
Qed.

Lemma le_value_spec l k : 0 <= k -> bytes l -> le_value l (8 * k) = 256 ^ k * le_val l.
Proof.
  intros Hk Hl. revert k Hk. induction Hl as [|b l Hb Hl IH]; intros k Hk; [cbn; lia|]. cbn [le_value le_val].
  replace (8 * k + 8) with (8 * (k + 1)) by lia. rewrite IH by lia.
  replace (256 ^ (k + 1) * le_val l) with (Z.shiftl (le_val l) (8 * (k + 1))).
  - rewrite Z.lor_comm. replace (8 * (k + 1)) with (8 + 8 * k) by lia. rewrite <- Z.shiftl_shiftl by lia.
    rewrite <- Z.shiftl_lor, lor_shiftl by (unfold is_byte in Hb; lia). rewrite Z.shiftl_mul_pow2, Z.pow_mul_r by lia.
    change (2 ^ 8) with 256. lia.
  - rewrite Z.shiftl_mul_pow2, Z.pow_mul_r by lia. change (2 ^ 8) with 256. lia.
Qed.

Lemma pb_decode_fixed_spec n s l t :
  in_ok s l t -> 0 <= n ->
  wp (bytes ← pb_read user_read false n; mret (le_value bytes 0))
    (fun v s' => exists o l', l = o ++ l' /\ zlen o = n /\ v = le_val o /\ advanced s s' l' t)
    (fun s' => zlen l < n /\ in_error s') s.
Proof.
  intros Hs Hn. apply wp_bind. wp_call pb_read_spec; [exact Hs|done| |done]. intros bs s' (p & l' & -> & Hp & -> & Hadv).
  apply wp_ret. exists p, l'. split_and!; try done. pose proof Hs as (_ & _ & _ & _ & [Hby _]%bytes_app).
  pose proof (le_value_spec p 0 ltac:(done) Hby) as Hle. change (8 * 0) with 0 in Hle. rewrite Hle. lia.
Qed.

Lemma pb_decode_tag_spec s l t :
  in_ok s l t ->
  wp (pb_decode_tag user_read)
    (fun '(r, eof) s' => match r with
       | Some (wt, tag) => exists o l', l = o ++ l' /\ varint o /\ zlen o <= 5 /\ vval o mod 2 ^ 32 <> 0 /\
           wt = vval o mod 2 ^ 32 mod 8 /\ tag = vval o mod 2 ^ 32 / 8 /\ eof = false /\ advanced s s' l' t
       | None => (exists o l', l = o ++ l' /\ varint o /\ zlen o <= 5 /\ vval o mod 2 ^ 32 = 0 /\ eof = true /\ advanced s s' l' t) \/
           (~ has_varint 5 l /\ eof = (is_bytes_left s' =? 0) /\ in_error s')
       end) (fun _ => False) s.
Proof.
  intros Hs. unfold pb_decode_tag. apply wp_bind, wp_try. wp_call pb_decode_varint32_spec; [exact Hs| |].
  - intros v s' (o & l' & -> & Ho & Hz & -> & Hadv). apply wp_bind, wp_get. set (v := vval o mod 2 ^ 32) in *.
    destruct (Z.eqb_spec v 0) as [E|E]; apply wp_ret; [left|]; exists o, l'; split_and!; try done.
    + change 7 with (2 ^ 3 - 1). by rewrite land_low.
    + by rewrite Z.shiftr_div_pow2.
  - intros s' [Hno Herr]. apply wp_bind, wp_get, wp_ret. right. by split_and!.
Qed.
End Decode.

(** * Output *)

(** What [bs] makes of an output stream. *)
Definition out_append (s : pb_ostream_t) (bs : list Z) : pb_ostream_t :=
  match os_callback s with
  | None => with_written s (os_bytes_written s + zlen bs)
  | Some _ => with_written (with_ostate s (ztake (os_pos s) (os_buf s) ++ bs ++ zdrop (os_pos s + zlen bs) (os_buf s))
                              (os_pos s + zlen bs)) (os_bytes_written s + zlen bs)
  end.

(** A counting stream, or one that writes to a buffer with as much room as the
    stream says. *)
Definition out_ok (s : pb_ostream_t) : Prop :=
  0 <= os_bytes_written s /\
  match os_callback s with
  | None => True
  | Some buf_write_cb => 0 <= os_pos s /\ os_bytes_written s <= os_max_size s < 2 ^ 64 /\
      os_pos s + (os_max_size s - os_bytes_written s) <= zlen (os_buf s)
  | Some (user_write_cb _) => False
  end.
Definition fits (s : pb_ostream_t) (n : Z) : Prop :=
  match os_callback s with None => True | Some _ => os_bytes_written s + n <= os_max_size s end.

Section Encode.
Variable user_write : nat -> ptr -> Z -> M pb_ostream_t unit.

(** [m] appends [bs] when they fit, and fails when they do not. *)
Definition emits (m : M pb_ostream_t unit) (bs : list Z) : Prop :=
  forall s, out_ok s -> os_bytes_written s + zlen bs < 2 ^ 64 ->
    wp m (fun _ s' => s' = out_append s bs /\ fits s (zlen bs)) (fun _ => ~ fits s (zlen bs)) s.

Lemma out_append_ok s bs : out_ok s -> fits s (zlen bs) -> out_ok (out_append s bs).
Proof.
  unfold out_ok, out_append, fits. pose proof (zlen_nonneg bs). destruct s as [[[|f]|] buf pos max w e]; cbn; [|tauto|lia].
  intros (Hw & Hp & Hm & Hb) Hfit. split_and!; try lia. zlist.
Qed.

Lemma out_append_app s b1 b2 : out_ok s -> fits s (zlen (b1 ++ b2)) -> out_append (out_append s b1) b2 = out_append s (b1 ++ b2).
Proof.
  pose proof (zlen_nonneg b1). pose proof (zlen_nonneg b2).
  unfold out_ok, out_append, fits. destruct s as [[[|f]|] buf pos max w e]; cbn; [|tauto|].
  - rewrite zlen_app. intros (Hw & Hp & Hm & Hb) Hfit. unfold with_written, with_ostate. cbn. f_equal; [|lia..].
    assert (Hz : pos + zlen b1 = zlen (ztake pos buf ++ b1)) by (rewrite zlen_app, zlen_ztake; lia).
    rewrite (app_assoc (ztake pos buf) b1 (zdrop _ buf)), (ztake_app _ _ _ Hz), zdrop_app_ge by lia.
    rewrite <- Hz, zdrop_zdrop, <- !app_assoc by lia. do 4 f_equal. lia.
  - intros _ _. unfold with_written. cbn. rewrite zlen_app. f_equal. lia.
Qed.

Lemma emits_bind m1 m2 b1 b2 : emits m1 b1 -> emits m2 b2 -> emits (m1;; m2) (b1 ++ b2).
Proof.
  intros H1 H2 s Hs Hlt. pose proof (zlen_nonneg b1). pose proof (zlen_nonneg b2). rewrite zlen_app in *.
  apply wp_bind. wp_call H1; [done|lia| |].
  - intros _ s' [-> Hfit]. wp_call H2; [by apply out_append_ok| | |].
    + destruct s as [[cb|] buf pos max w e]; cbn in *; lia.
    + intros _ s' [-> Hfit2]. assert (fits s (zlen b1 + zlen b2)) as Hf by
        (unfold fits in *; destruct s as [[cb|] buf pos max w e]; cbn in *; lia).
      split; [|done]. apply out_append_app; [done|]. by rewrite zlen_app.
    + intros _ Hfit2. unfold fits in *. destruct s as [[cb|] buf pos max w e]; cbn in *; lia.
  - intros _ Hfit. unfold fits in *. destruct s as [[cb|] buf pos max w e]; cbn in *; lia.
Qed.

Lemma emits_ret : emits (mret tt) [].
Proof.
  intros s Hs _. apply wp_ret. unfold fits, out_append, out_ok, with_written, with_ostate in *.
  change (zlen (@nil Z)) with 0. rewrite !Z.add_0_r. cbn [app]. rewrite ztake_zdrop.
  destruct s as [[[|f]|] buf pos max w e]; cbn in *; [|tauto|done]. split; [done|lia].
Qed.

Lemma pb_write_emits bs tail : emits (pb_write user_write (P (bs ++ tail)) (zlen bs)) bs.
Proof.
  intros s Hs Hlt. unfold pb_write. pose proof (zlen_nonneg bs). pose proof (zlen_nonneg tail). apply wp_bind, wp_get.
  destruct s as [[[|f]|] buf pos max w e]; unfold out_ok in Hs; cbn in Hs, Hlt; [|tauto|].
  - destruct Hs as (Hw & Hp & Hm & Hb). cbn [os_callback os_max_size os_bytes_written]. unfold u64. rewrite Z.mod_small by lia.
    unfold fits, out_append. cbn. destruct (Z.ltb_spec max (w + zlen bs)); [by apply wp_bind, Z.lt_nge|].
    assert (Hread : ptr_read (P (bs ++ tail)) (zlen bs) = Some bs).
    { unfold ptr_read. cbn [ptr_bytes]. rewrite (proj2 (Z.leb_le 0 _)), (proj2 (Z.leb_le _ _)) by zlist. by rewrite ztake_app. }
    apply wp_bind, wp_bind, wp_try. unfold buf_write. apply wp_bind, wp_get, wp_bind. eapply wp_deref; [exact Hread|].
    apply wp_bind. eapply wp_deref; [apply zput_Some; cbn; lia|]. apply wp_put, wp_ret, wp_modify. cbn.
    unfold with_written, with_ostate, u64. cbn. by rewrite Z.mod_small by lia.
  - cbn. split; [|done]. unfold out_append, with_written, u64. cbn. by rewrite Z.mod_small by lia.
Qed.

Lemma set_top b : Z.lor (b mod 128) 0x80 = b mod 128 + 128.
Proof.
  pose proof (Z.mod_pos_bound b 128). pose proof (lor_shiftl 1 (b mod 128) 7 ltac:(lia) ltac:(lia)) as Hl.
  change (Z.shiftl 1 7) with 0x80 in Hl. rewrite Z.lor_comm, Hl. lia.
Qed.

(** The loop gives every group the continuation bit, the last one too. *)
Lemma encode_varint_loop_spec n v buffer (s : pb_ostream_t) :
  0 < v < 128 ^ Z.of_nat n -> zlen buffer + Z.of_nat n <= 10 -> forall fuel, (n < fuel)%nat ->
  wp (iter fuel (fun '(value, buffer) =>
        if value =? 0 then mret (inr buffer) else
        assert_ (zlen buffer <? 10);;
        mret (inl (Z.shiftr value 7, buffer ++ [u8 (Z.lor (Z.land value 0x7F) 0x80)]))) (v, buffer))
    (fun buf s' => s' = s /\ exists i x, enc_varint_fuel n v = i ++ [x] /\ 0 <= x < 128 /\ buf = buffer ++ i ++ [x + 128])
    (fun _ => False) s.
Proof.
  revert v buffer. induction n as [|n IH]; intros v buffer Hv Hbuf fuel Hf; [change (128 ^ Z.of_nat 0) with 1 in Hv; lia|].
  destruct fuel as [|fuel]; [lia|]. cbn [iter enc_varint_fuel]. rewrite (proj2 (Z.eqb_neq v 0)) by lia.
  apply wp_bind, wp_bind, wp_assert; [lia|]. apply wp_ret. rewrite land_0x7f, set_top. pose proof (Z.mod_pos_bound v 128).
  unfold u8. rewrite Z.mod_small, Z.shiftr_div_pow2 by lia. change (2 ^ 7) with 128.
  rewrite Nat2Z.inj_succ, Z.pow_succ_r in Hv by lia.
  destruct (Z.ltb_spec v 128) as [Hlt|Hge].
  - rewrite Z.div_small, (Z.mod_small v) by lia. destruct fuel as [|fuel]; [lia|]. cbn [iter]. apply wp_bind, wp_ret, wp_ret.
    split; [done|]. exists [], v. split_and!; [done|lia..|done].
  - assert (0 < v / 128) by (apply Z.div_str_pos; lia). assert (v / 128 < 128 ^ Z.of_nat n) by (apply Z.div_lt_upper_bound; lia).
    wp_call IH; [lia|rewrite zlen_snoc; lia|lia| |done]. intros buf s' (-> & i & x & -> & Hx & ->). split; [done|].
    exists ((v mod 128 + 128) :: i), x. rewrite <- app_assoc. split_and!; (done || lia).
Qed.

Lemma pb_encode_varint_emits v : 0 <= v < 2 ^ 64 -> emits (pb_encode_varint user_write v) (enc_varint v).
Proof.
  intros Hv s Hs Hlt. unfold pb_encode_varint. destruct (Z.leb_spec v 0x7F) as [Hsmall|Hbig].
  - assert (enc_varint v = [v]) as E by (unfold enc_varint; cbn [enc_varint_fuel]; rewrite (proj2 (Z.ltb_lt v 128)) by lia; done).
    rewrite E in *. unfold u8. rewrite Z.mod_small by lia. by apply (pb_write_emits [v] []).
  - apply wp_bind. unfold encode_varint_loop.
    wp_call (encode_varint_loop_spec 10 v [] s); [change (128 ^ Z.of_nat 10) with (2 ^ 70); lia|done|lia| |done].
    intros buf s' (-> & i & x & E & Hx & ->). unfold enc_varint in *. rewrite E in *. cbn [app]. rewrite zlen_snoc, Z.add_simpl_r.
    apply wp_bind. eapply wp_deref; [by apply zget_middle|]. apply wp_bind. eapply wp_deref; [by apply zset_app|].
    rewrite land_0x7f. replace (x + 128) with (x + 1 * 128) by lia. rewrite Z.mod_add, Z.mod_small by lia.
    pose proof (pb_write_emits (i ++ [x]) [] s Hs Hlt) as H. rewrite app_nil_r, zlen_snoc in H. rewrite zlen_snoc. exact H.
Qed.

Lemma zigzag_enc_range v : - 2 ^ 63 <= v < 2 ^ 63 -> 0 <= zigzag_enc v < 2 ^ 64.
Proof. unfold zigzag_enc. destruct (Z.ltb_spec v 0); lia. Qed.

Lemma pb_encode_svarint_emits v :
  - 2 ^ 63 <= v < 2 ^ 63 -> emits (pb_encode_svarint user_write v) (enc_varint (zigzag_enc v)).
Proof.
  intros Hv. unfold pb_encode_svarint.
  assert ((if v <? 0 then u64 (Z.lnot (u64 (Z.shiftl (u64 v) 1))) else u64 (Z.shiftl (u64 v) 1)) = zigzag_enc v) as ->.
  { unfold zigzag_enc, u64. rewrite !Z.shiftl_mul_pow2 by lia. change (2 ^ 1) with 2. destruct (Z.ltb_spec v 0).
    - rewrite Z.mul_mod_idemp_l by lia. replace (v * 2) with (2 * v + 2 ^ 64 + (-1) * 18446744073709551616) by lia.
      rewrite Z.mod_add, (Z.mod_small (2 * v + 2 ^ 64)) by lia. unfold Z.lnot.
      replace (Z.pred (- (2 * v + 2 ^ 64))) with ((- 2 * v - 1) + (-1) * 18446744073709551616) by lia.
      rewrite Z.mod_add, Z.mod_small by lia. done.
    - rewrite (Z.mod_small v), Z.mod_small by lia. lia. }
  apply pb_encode_varint_emits. by apply zigzag_enc_range.
Qed.

Lemma fixed_bytes_le n v : 0 <= v -> fixed_bytes (Z.of_nat n) v = le n v.
Proof.
  intros Hv. unfold fixed_bytes, zseq.
  assert (forall k, (fun i => u8 (Z.land (Z.shiftr v (8 * i)) 0xFF)) <$> seqZ k (Z.of_nat n) = le n (v / 256 ^ k) \/ k < 0) as H.
  { induction n as [|n IH]; intros k; [by left|]. destruct (Z.lt_ge_cases k 0); [by right|left].
    rewrite seqZ_cons by lia. rewrite Nat2Z.inj_succ, Z.pred_succ. cbn [fmap list_fmap le].
    destruct (IH (Z.succ k)) as [IHk|]; [|lia]. rewrite IHk. f_equal.
    - rewrite Z.shiftr_div_pow2 by lia. rewrite Z.pow_mul_r by lia. change (2 ^ 8) with 256.
      change 0xFF with (2 ^ 8 - 1). rewrite land_low by lia. unfold u8. by rewrite Z.mod_mod.
    - f_equal. rewrite Z.pow_succ_r, Z.div_div by lia. f_equal. lia. }
  destruct (H 0) as [->|]; [|lia]. by rewrite Z.div_1_r.
Qed.

Lemma le_val_le n v : 0 <= v < 256 ^ Z.of_nat n -> le_val (le n v) = v.
Proof.
  revert v. induction n as [|n IH]; intros v Hv; [change (256 ^ Z.of_nat 0) with 1 in Hv; cbn; lia|]. cbn [le le_val].
  rewrite Nat2Z.inj_succ, Z.pow_succ_r in Hv by lia. rewrite IH by (split; [apply Z.div_pos; lia|apply Z.div_lt_upper_bound; lia]).
  rewrite Z.add_comm. symmetry. apply Z.div_mod. lia.
Qed.
Lemma length_le n v : length (le n v) = n.
Proof. revert v. induction n as [|n IH]; intros v; [done|]. cbn. by rewrite IH. Qed.

Lemma pb_encode_fixed_emits n v :
  0 <= v -> emits (pb_write user_write (P (fixed_bytes (Z.of_nat n) v)) (Z.of_nat n)) (le n v).
Proof.
  intros Hv s Hs Hlt. rewrite fixed_bytes_le by done. pose proof (pb_write_emits (le n v) [] s Hs Hlt) as H.
  rewrite app_nil_r in H. unfold zlen at 1 in H. by rewrite length_le in H.
Qed.

Lemma pb_encode_tag_emits wt field :
  0 <= wt < 8 -> 0 <= field < 2 ^ 32 -> emits (pb_encode_tag user_write wt field) (enc_varint (field * 8 + wt)).
Proof.
  intros Hwt Hf. unfold pb_encode_tag, u64. rewrite Z.shiftl_mul_pow2 by lia. change (2 ^ 3) with 8.
  rewrite Z.mod_small by lia. replace (field * 8) with (Z.shiftl field 3) at 1 by (rewrite Z.shiftl_mul_pow2; lia).
  rewrite lor_shiftl by lia. apply pb_encode_varint_emits. lia.
Qed.

Lemma pb_encode_string_emits bs tail :
  zlen bs < 2 ^ 64 -> emits (pb_encode_string user_write (P (bs ++ tail)) (zlen bs)) (enc_varint (zlen bs) ++ bs).
Proof.
  intros Hlen. unfold pb_encode_string. apply emits_bind; [|apply pb_write_emits].
  apply pb_encode_varint_emits. pose proof (zlen_nonneg bs). lia.
Qed.
End Encode.
