(* ===== verification/PbThms.v ===== *)
(** Theorems about [Pb]: the scalars of the wire format round-trip, the varint
    readers accept exactly the varints that fit, and skipping moves past exactly
    one value. *)
From S2P Require Import Prelude Pb PbFacts.

(** A reader that returns [v] from the octets [o]. *)
Definition reads {A} (m : M pb_istream_t A) (o : list Z) (v : A) : Prop :=
  forall s l t, in_ok s (o ++ l) t -> wp m (fun u s' => u = v /\ advanced s s' l t) (fun _ => False) s.

Section Theorems.
Variable user_read : nat -> Z -> M pb_istream_t (list Z).
Variable user_write : nat -> ptr -> Z -> M pb_ostream_t unit.

Lemma varint_reads v n (m : M pb_istream_t Z) (f : Z -> Z) w :
  (forall s l t, in_ok s l t ->
    wp m (fun v s' => exists o l', l = o ++ l' /\ varint o /\ zlen o <= n /\ v = f (vval o mod w) /\ advanced s s' l' t)
      (fun s' => ~ has_varint n l /\ in_error s') s) ->
  0 <= v < 2 ^ 64 -> v < w -> zlen (enc_varint v) <= n -> reads m (enc_varint v) (f v).
Proof.
  intros Hm Hv Hw Hn s l t Hs. destruct (enc_varint_spec v Hv) as (Hvar & Hval & _). wp_call Hm; [exact Hs| |].
  - intros u s' (o & l' & Heq & Ho & _ & -> & Hadv). destruct (varint_split _ _ _ _ Hvar Ho Heq) as [<- <-].
    rewrite Hval, Z.mod_small by lia. done.
  - intros s' [Hno _]. apply Hno. by exists (enc_varint v), l.
Qed.

Lemma fixed_reads n v : 0 <= v < 256 ^ Z.of_nat n ->
  reads (bytes ← pb_read user_read false (Z.of_nat n); mret (le_value bytes 0)) (le n v) v.
Proof.
  intros Hv s l t Hs. assert (Hz : zlen (le n v) = Z.of_nat n) by (unfold zlen; by rewrite length_le).
  wp_call pb_decode_fixed_spec; [exact Hs|lia| |].
  - intros u s' (o & l' & Heq & Ho & -> & Hadv). apply app_inj_zlen in Heq as [-> ->]; [|lia]. by rewrite le_val_le.
  - intros s' [Hlt _]. rewrite zlen_app in Hlt. pose proof (zlen_nonneg l). lia.
Qed.

Lemma tag_reads wt field : 0 <= wt < 8 -> 0 < field < 2 ^ 29 ->
  reads (pb_decode_tag user_read) (enc_varint (field * 8 + wt)) (Some (wt, field), false).
Proof.
  intros Hwt Hf s l t Hs. assert (0 <= field * 8 + wt < 2 ^ 64) as Hr by lia.
  destruct (enc_varint_spec _ Hr) as (Hvar & Hval & _).
  pose proof (zlen_enc_varint32 (field * 8 + wt) ltac:(lia)) as H5.
  wp_call pb_decode_tag_spec; [exact Hs| |done]. intros [[[wt' tag]|] eof] s'.
  - intros (o & l' & Heq & Ho & _ & _ & -> & -> & -> & Hadv). destruct (varint_split _ _ _ _ Hvar Ho Heq) as [<- <-].
    rewrite Hval, (Z.mod_small (field * 8 + wt)) by lia. split; [|done]. rewrite Z.add_comm, Z.mod_add, Z.div_add by lia.
    by rewrite Z.mod_small, Z.div_small by lia.
  - intros [(o & l' & Heq & Ho & _ & Hz & _)|[Hno _]].
    + destruct (varint_split _ _ _ _ Hvar Ho Heq) as [<- _]. rewrite Hval, Z.mod_small in Hz by lia. lia.
    + destruct Hno. by exists (enc_varint (field * 8 + wt)), l.
Qed.

(** C28. The scalars of the wire format round-trip: what pb_encode_varint,
    pb_encode_svarint, pb_encode_fixed32, pb_encode_fixed64 and pb_encode_tag
    append to a stream (a buffer, or one that only counts), the decoder of the
    same name reads back from a buffer, stopping right behind it. *)
Theorem pb_scalars_roundtrip v sv v32 tag wt :
  0 <= v < 2 ^ 64 -> - 2 ^ 63 <= sv < 2 ^ 63 -> 0 <= v32 < 2 ^ 32 -> 0 < tag < 2 ^ 29 -> 0 <= wt < 8 ->
  (exists o, emits (pb_encode_varint user_write v) o /\ reads (pb_decode_varint user_read) o v) /\
  (exists o, emits (pb_encode_varint user_write v32) o /\ reads (pb_decode_varint32 user_read) o v32) /\
  (exists o, emits (pb_encode_svarint user_write sv) o /\ reads (pb_decode_svarint user_read) o sv) /\
  (exists o, emits (pb_encode_fixed32 user_write v32) o /\ reads (pb_decode_fixed32 user_read) o v32) /\
  (exists o, emits (pb_encode_fixed64 user_write v) o /\ reads (pb_decode_fixed64 user_read) o v) /\
  (exists o, emits (pb_encode_tag user_write wt tag) o /\ reads (pb_decode_tag user_read) o (Some (wt, tag), false)).
Proof.
  intros Hv Hsv Hv32 Htag Hwt. split_and!.
  - exists (enc_varint v). split; [by apply pb_encode_varint_emits|].
    apply (varint_reads v 10 _ (fun x => x) (2 ^ 64)); [apply pb_decode_varint_spec|done|lia|by apply zlen_enc_varint].
  - exists (enc_varint v32). split; [apply pb_encode_varint_emits; lia|].
    apply (varint_reads v32 5 _ (fun x => x) (2 ^ 32)); [apply pb_decode_varint32_spec|lia|lia|by apply zlen_enc_varint32].
  - exists (enc_varint (zigzag_enc sv)). split; [by apply pb_encode_svarint_emits|]. pose proof (zigzag_enc_range sv Hsv).
    rewrite <- (zigzag_dec_enc sv) at 2.
    apply (varint_reads (zigzag_enc sv) 10 _ zigzag_dec (2 ^ 64)); [apply pb_decode_svarint_spec|done|lia|by apply zlen_enc_varint].
  - exists (le 4 v32). split; [apply (pb_encode_fixed_emits _ 4); lia|by apply (fixed_reads 4)].
  - exists (le 8 v). split; [apply (pb_encode_fixed_emits _ 8); lia|by apply (fixed_reads 8)].
  - exists (enc_varint (tag * 8 + wt)). split; [apply pb_encode_tag_emits; lia|by apply tag_reads].
Qed.

(** C29. pb_decode_varint reads a varint of at most ten octets, and
    pb_decode_varint32 one of at most five, keep the low 64 (32) bits of its value
    and stop behind it; they fail, with a message, exactly when the stream does not
    start with such a varint. Both loops end. So a negative number, which is sent as
    its 64-bit two's complement, is read by the first and never by the second, which
    pb_decode.h recommends for int32 and enum as well. *)
Theorem pb_decode_varint_exact s l t :
  in_ok s l t ->
  wp (pb_decode_varint user_read)
    (fun v s' => exists o l', l = o ++ l' /\ varint o /\ zlen o <= 10 /\ v = vval o mod 2 ^ 64 /\ advanced s s' l' t)
    (fun s' => ~ has_varint 10 l /\ in_error s') s /\
  wp (pb_decode_varint32 user_read)
    (fun v s' => exists o l', l = o ++ l' /\ varint o /\ zlen o <= 5 /\ v = vval o mod 2 ^ 32 /\ advanced s s' l' t)
    (fun s' => ~ has_varint 5 l /\ in_error s') s /\
  (forall v l', - 2 ^ 63 <= v < 0 -> l = enc_varint (v mod 2 ^ 64) ++ l' ->
     wp (pb_decode_varint user_read) (fun w s' => w = v mod 2 ^ 64 /\ advanced s s' l' t) (fun _ => False) s /\
     wp (pb_decode_varint32 user_read) (fun _ _ => False) in_error s).
Proof.
  intros Hs. split_and!; [by apply pb_decode_varint_spec|by apply pb_decode_varint32_spec|].
  intros v l' Hv ->. destruct (enc_varint_spec (v mod 2 ^ 64)) as (Ho & Hval & _); [apply Z.mod_pos_bound; lia|]. split.
  - wp_call pb_decode_varint_spec; [exact Hs| |].
    + intros w s' (o & l2 & E & Ho2 & _ & -> & Ha). destruct (varint_split _ _ _ _ Ho Ho2 E) as [<- <-].
      by rewrite Hval, Z.mod_mod by lia.
    + intros s' [Hno _]. apply Hno. exists (enc_varint (v mod 2 ^ 64)), l'. split_and!; [done|done|].
      apply zlen_enc_varint, Z.mod_pos_bound. lia.
  - wp_call pb_decode_varint32_spec; [exact Hs| |by intros s' [_ ?]].
    intros w s' (o & l2 & E & Ho2 & Hz & _). apply (negative_long v l' Hv). by exists o, l2.
Qed.

(** C30. pb_skip_field moves a stream past exactly one value of the wire type it is
    given (a varint of any length, four or eight octets, or a length and that many
    octets), and fails, with a message, exactly when there is none (which is always
    the case of an unknown wire type). *)
Theorem pb_skip_field_exact wt s l t :
  in_ok s l t ->
  wp (pb_skip_field user_read wt)
    (fun _ s' => exists o l', l = o ++ l' /\ wire_value wt o /\ advanced s s' l' t)
    (fun s' => ~ has_value wt l /\ in_error s') s.
Proof. apply pb_skip_field_spec. Qed.
End Theorems.

(** * Witnesses *)

Definition no_read : nat -> Z -> M pb_istream_t (list Z) := fun _ _ => fail.
Definition no_write : nat -> ptr -> Z -> M pb_ostream_t unit := fun _ _ _ => fail.
Definition ex_in (l : list Z) : pb_istream_t := pb_istream_from_buffer (P l) (zlen l).

Lemma ex_in_ok l : bytes l -> zlen l < 2 ^ 64 -> in_ok (ex_in l) l [].
Proof. intros. pose proof (in_ok_from_buffer l [] H H0) as Hin. by rewrite app_nil_r in Hin. Qed.

Lemma pb_scalars_roundtrip_witness :
  exists o, emits (pb_encode_svarint no_write (-3)) o /\ reads (pb_decode_svarint no_read) o (-3).
Proof.
  destruct (pb_scalars_roundtrip no_read no_write 300 (-3) 7 1 0 ltac:(lia) ltac:(lia) ltac:(lia) ltac:(lia) ltac:(lia))
    as (_ & _ & H & _). exact H.
Defined.

Lemma pb_decode_varint_exact_witness :
  exists s', pb_decode_varint no_read (ex_in [0xAC; 0x02; 9]) = Ok 300 s' /\
    exists o l', [0xAC; 0x02; 9] = o ++ l' /\ varint o /\ 300 = vval o mod 2 ^ 64.
Proof.
  destruct (pb_decode_varint_exact no_read (ex_in [0xAC; 0x02; 9]) [0xAC; 0x02; 9] []) as [H _].
  { apply ex_in_ok; [repeat constructor; done|done]. }
  eexists. split; [vm_compute; reflexivity|]. eapply wp_ok in H; [|vm_compute; reflexivity].
  destruct H as (o & l' & H1 & H2 & _ & H3 & _). by exists o, l'.
Defined.

Lemma pb_skip_field_exact_witness :
  exists s', pb_skip_field no_read PB_WT_STRING (ex_in [2; 65; 66; 9]) = Ok tt s' /\
    exists o l', [2; 65; 66; 9] = o ++ l' /\ wire_value PB_WT_STRING o /\ advanced (ex_in [2; 65; 66; 9]) s' l' [].
Proof.
  pose proof (pb_skip_field_exact no_read PB_WT_STRING (ex_in [2; 65; 66; 9]) [2; 65; 66; 9] []) as H.
  eexists. split; [vm_compute; reflexivity|].
  eapply wp_ok in H; [|apply ex_in_ok; [repeat constructor; done|done]|vm_compute; reflexivity]. exact H.
Defined.
