(* ===== verification/Ct.v ===== *)
(** crypto/internal.h: the constant-time masks the other components select and
    compare with, on 64-bit words. *)
From S2P Require Import Prelude.

Definition constant_time_msb_w (a : Z) : Z := u64 (0 - Z.shiftr a 63).
Definition constant_time_is_zero_w (a : Z) : Z :=
  constant_time_msb_w (Z.land (u64 (Z.lnot a)) (u64 (a - 1))).
Definition constant_time_eq_w (a b : Z) : Z := constant_time_is_zero_w (Z.lxor a b).
Definition constant_time_eq_8 (a b : Z) : Z := u8 (constant_time_eq_w a b).
Definition constant_time_select_w (mask a b : Z) : Z :=
  Z.lor (Z.land mask a) (Z.land (u64 (Z.lnot mask)) b).
Definition constant_time_select_8 (mask a b : Z) : Z := u8 (constant_time_select_w mask (u8 a) (u8 b)).

(** Conversion to a 32-bit [int]. *)
Definition to_int (z : Z) : Z := (z + 2147483648) mod 4294967296 - 2147483648.

Definition constant_time_lt_w (a b : Z) : Z :=
  constant_time_msb_w (Z.lxor a (Z.lor (Z.lxor a b) (Z.lxor (u64 (a - b)) a))).
Definition constant_time_ge_w (a b : Z) : Z := u64 (Z.lnot (constant_time_lt_w a b)).
Definition constant_time_select_int (mask a b : Z) : Z := to_int (constant_time_select_w mask (u64 a) (u64 b)).
