(* ===== verification/Base64.v ===== *)
(** crypto/base64/base64.c: base64 encoding and decoding, in blocks and streamed,
    with the constant-time character maps. The state of an operation is the
    output buffer; a position in it stands for the pointer [out]. *)
From S2P Require Import Prelude Ct.

(** * Constant-time helpers of this file *)

Definition constant_time_lt_args_8 (a b : Z) : Z := u8 (constant_time_msb_w (u64 (a - b))).
Definition constant_time_in_range_8 (a min max : Z) : Z :=
  constant_time_lt_args_8 (u8 (a - min)) (u8 (max - min + 1)).

(** * Encoding *)

Definition conv_bin2ascii (a : Z) : Z :=
  let a := Z.land (u8 a) 0x3f in
  let ret := constant_time_select_8 (constant_time_eq_8 a 62) 43 47 in
  let ret := constant_time_select_8 (constant_time_lt_args_8 a 62) (a - 52 + 48) ret in
  let ret := constant_time_select_8 (constant_time_lt_args_8 a 52) (a - 26 + 97) ret in
  constant_time_select_8 (constant_time_lt_args_8 a 26) (a + 65) ret.

Definition EVP_EncodedLength (len : Z) : option Z :=
  if u64 (len + 2) <? len then None else
  let len := u64 (len + 2) / 3 in
  if negb (Z.shiftr (u64 (Z.shiftl len 2)) 2 =? len) then None else
  let len := u64 (Z.shiftl len 2) in
  if u64 (len + 1) <? len then None else Some (u64 (len + 1)).

(** [dst[pos] = b] *)
Definition store (pos b : Z) : M (list Z) unit :=
  buf ← get; buf ← deref (zset buf pos b); put buf.
Definition stores (pos : Z) (bs : list Z) : M (list Z) unit :=
  for_ 0 (length bs) (fun i _ => b ← deref (zget bs i); store (pos + i) b) tt.

Definition byte_at (src : ptr) (i : Z) : M (list Z) Z := deref (ptr_get src i).

(** One turn of the loop: the characters of up to three bytes. *)
Definition encode_step (src : ptr) (remaining : Z) : M (list Z) (list Z) :=
  if 3 <=? remaining then
    s0 ← byte_at src 0; s1 ← byte_at src 1; s2 ← byte_at src 2;
    let l := Z.lor (Z.lor (Z.shiftl s0 16) (Z.shiftl s1 8)) s2 in
    mret [conv_bin2ascii (Z.shiftr l 18); conv_bin2ascii (Z.shiftr l 12);
          conv_bin2ascii (Z.shiftr l 6); conv_bin2ascii l]
  else
    s0 ← byte_at src 0;
    let l := Z.shiftl s0 16 in
    l ← (if remaining =? 2 then s1 ← byte_at src 1; mret (Z.lor l (Z.shiftl s1 8)) else mret l);
    mret [conv_bin2ascii (Z.shiftr l 18); conv_bin2ascii (Z.shiftr l 12);
          if remaining =? 1 then 61 else conv_bin2ascii (Z.shiftr l 6); 61].

(** The body of the loop: [dst], [src], [remaining] and [ret]. *)
Definition encode_turn '(dst, src, remaining, ret) : M (list Z) (Z * ptr * Z * Z + Z * Z) :=
  if remaining =? 0 then mret (inr (dst, ret)) else
  out ← encode_step src remaining;
  stores dst out;;
  let remaining := if 3 <=? remaining then remaining - 3 else 0 in
  (* the pointer moves three on, past the end of a short last group *)
  let src := if remaining =? 0 then src else default NULL (ptr_add src 3) in
  mret (inl (dst + 4, src, remaining, ret + 4)).

Definition EVP_EncodeBlock (dst : Z) (src : ptr) (src_len : Z) : M (list Z) Z :=
  '(dst, ret) ← iter (S (Z.to_nat src_len)) encode_turn (dst, src, src_len, 0);
  store dst 0;;
  mret ret.

Record EVP_ENCODE_CTX := mkCTX {
  data_used : Z;
  data : list Z;
  eof_seen : bool;
  error_encountered : bool;
}.
Definition sizeof_data : Z := 48.
Definition EVP_EncodeInit : EVP_ENCODE_CTX := mkCTX 0 (zrep sizeof_data 0) false false.
Definition EVP_DecodeInit : EVP_ENCODE_CTX := EVP_EncodeInit.
Definition with_buffered (ctx : EVP_ENCODE_CTX) (used : Z) (d : list Z) : EVP_ENCODE_CTX :=
  mkCTX used d (eof_seen ctx) (error_encountered ctx).

(** The context and the output buffer. *)
Definition io : Type := EVP_ENCODE_CTX * list Z.
Definition ctx_get : M io EVP_ENCODE_CTX := fun s => Ok s.1 s.
Definition ctx_put (c : EVP_ENCODE_CTX) : M io unit := fun s => Ok tt (c, s.2).
Definition on_out {A} (m : M (list Z) A) : M io A := zoom snd (fun b s => (s.1, b)) m.

(** [memcpy(&ctx->data[off], in, n)] *)
Definition buffer_in (off : Z) (input : ptr) (n : Z) : M io unit :=
  ctx ← ctx_get;
  bs ← deref (ptr_read input n);
  d ← deref (zput (data ctx) off bs);
  ctx_put (with_buffered ctx (data_used ctx) d).

(** A line: the characters of 48 bytes, a newline and a NUL. *)
Definition encode_line (out : Z) (src : ptr) : M io Z :=
  encoded ← on_out (EVP_EncodeBlock out src sizeof_data);
  on_out (store (out + encoded) 10);;
  on_out (store (out + encoded + 1) 0);;
  mret encoded.

(** The body of the loop over the whole lines of the input: [out], [in], [in_len]
    and [total]; [None] is the return on overflow. *)
Definition encode_update_turn '(out, input, in_len, total)
    : M io (Z * ptr * Z * Z + option (ptr * Z * Z)) :=
  if sizeof_data <=? in_len then
    encoded ← encode_line out input;
    input ← deref (ptr_add input sizeof_data);
    if u64 (total + encoded + 1) <? total then mret (inr None)
    else mret (inl (out + encoded + 1, input, in_len - sizeof_data, u64 (total + encoded + 1)))
  else mret (inr (Some (input, in_len, total))).

(** The buffered bytes go first, as a line of their own. *)
Definition encode_buffered (out : Z) (input : ptr) (in_len : Z) : M io (Z * ptr * Z * Z) :=
  ctx ← ctx_get;
  if negb (data_used ctx =? 0) then
    let todo := sizeof_data - data_used ctx in
    buffer_in (data_used ctx) input todo;;
    input ← deref (ptr_add input todo);
    ctx ← ctx_get;
    encoded ← encode_line out (P (data ctx));
    ctx_put (with_buffered ctx 0 (data ctx));;
    mret (out + encoded + 1, input, in_len - todo, encoded + 1)
  else mret (out, input, in_len, 0).

(** Returns [*out_len]. *)
Definition EVP_EncodeUpdate (out : Z) (input : ptr) (in_len : Z) : M io Z :=
  if in_len =? 0 then mret 0 else
  ctx ← ctx_get;
  assert_ (data_used ctx <? sizeof_data);;
  if in_len <? sizeof_data - data_used ctx then
    buffer_in (data_used ctx) input in_len;;
    ctx ← ctx_get;
    ctx_put (with_buffered ctx (data_used ctx + in_len) (data ctx));;
    mret 0
  else
    '(out, input, in_len, total) ← encode_buffered out input in_len;
    r ← iter (S (Z.to_nat in_len)) encode_update_turn (out, input, in_len, total);
    match r with
    | None => mret 0
    | Some (input, in_len, total) =>
        (if negb (in_len =? 0) then buffer_in 0 input in_len else mret tt);;
        ctx ← ctx_get;
        ctx_put (with_buffered ctx in_len (data ctx));;
        mret (if INT_MAX <? total then 0 else total)
    end.

Definition EVP_EncodeFinal (out : Z) : M io Z :=
  ctx ← ctx_get;
  if data_used ctx =? 0 then mret 0 else
  encoded ← on_out (EVP_EncodeBlock out (P (data ctx)) (data_used ctx));
  on_out (store (out + encoded) 10);;
  on_out (store (out + encoded + 1) 0);;
  ctx_put (with_buffered ctx 0 (data ctx));;
  assert_ (encoded + 1 <=? INT_MAX);;
  mret (encoded + 1).

(** * Decoding *)

Definition EVP_DecodedLength (len : Z) : option Z :=
  if negb (len mod 4 =? 0) then None else Some (len / 4 * 3).

Definition base64_ascii_to_bin (a : Z) : Z :=
  let is_upper := constant_time_in_range_8 a 65 90 in
  let is_lower := constant_time_in_range_8 a 97 122 in
  let is_digit := constant_time_in_range_8 a 48 57 in
  let is_plus := constant_time_eq_8 a 43 in
  let is_slash := constant_time_eq_8 a 47 in
  let is_equals := constant_time_eq_8 a 61 in
  let ret := 0xff in
  let ret := constant_time_select_8 is_upper (a - 65) ret in
  let ret := constant_time_select_8 is_lower (a - 97 + 26) ret in
  let ret := constant_time_select_8 is_digit (a - 48 + 52) ret in
  let ret := constant_time_select_8 is_plus 62 ret in
  let ret := constant_time_select_8 is_slash 63 ret in
  constant_time_select_8 is_equals 0 ret.

(** Returns [*out_num_bytes]. *)
Definition base64_decode_quad (out : Z) (i0 i1 i2 i3 : Z) : M (list Z) Z :=
  let a := base64_ascii_to_bin i0 in
  let b := base64_ascii_to_bin i1 in
  let c := base64_ascii_to_bin i2 in
  let d := base64_ascii_to_bin i3 in
  require (negb ((a =? 0xff) || (b =? 0xff) || (c =? 0xff) || (d =? 0xff)));;
  let v := Z.lor (Z.lor (Z.lor (Z.shiftl a 18) (Z.shiftl b 12)) (Z.shiftl c 6)) d in
  let padding_pattern :=
    Z.lor (Z.lor (Z.lor (Z.shiftl (b2z (i0 =? 61)) 3) (Z.shiftl (b2z (i1 =? 61)) 2))
      (Z.shiftl (b2z (i2 =? 61)) 1)) (b2z (i3 =? 61)) in
  if padding_pattern =? 0 then
    store out (u8 (Z.shiftr v 16));; store (out + 1) (u8 (Z.shiftr v 8));; store (out + 2) (u8 v);; mret 3
  else if padding_pattern =? 1 then
    store out (u8 (Z.shiftr v 16));; store (out + 1) (u8 (Z.shiftr v 8));; mret 2
  else if padding_pattern =? 3 then
    store out (u8 (Z.shiftr v 16));; mret 1
  else fail.

Definition is_space (c : Z) : bool := (c =? 32) || (c =? 9) || (c =? 13) || (c =? 10).

(** [ctx->error_encountered = 1; return -1;] *)
Definition decode_error {A} : M io A :=
  ctx ← ctx_get;
  ctx_put (mkCTX (data_used ctx) (data ctx) (eof_seen ctx) true);;
  fail.

(** One character; [out] and the number of bytes written so far. *)
Definition decode_char (c : Z) (out bytes_out : Z) : M io (Z * Z) :=
  if is_space c then mret (out, bytes_out) else
  ctx ← ctx_get;
  if eof_seen ctx then decode_error else
  d ← deref (zset (data ctx) (data_used ctx) c);
  ctx_put (with_buffered ctx (data_used ctx + 1) d);;
  if data_used ctx + 1 =? 4 then
    i0 ← deref (zget d 0); i1 ← deref (zget d 1); i2 ← deref (zget d 2); i3 ← deref (zget d 3);
    r ← try_ (on_out (base64_decode_quad out i0 i1 i2 i3));
    match r with
    | None => decode_error
    | Some n =>
        ctx ← ctx_get;
        ctx_put (mkCTX 0 (data ctx) (eof_seen ctx || (n <? 3)) (error_encountered ctx));;
        mret (out + n, bytes_out + n)
    end
  else mret (out, bytes_out).

(** The value returned (0 or 1) and [*out_len]; failing is returning -1. *)
Definition EVP_DecodeUpdate (out : Z) (input : ptr) (in_len : Z) : M io (Z * Z) :=
  ctx ← ctx_get;
  if error_encountered ctx then fail else
  '(_, bytes_out) ← for_ 0 (Z.to_nat in_len) (fun i '(out, bytes_out) =>
    c ← deref (ptr_get input i);
    decode_char c out bytes_out) (out, 0);
  if INT_MAX <? bytes_out then decode_error else
  ctx ← ctx_get;
  mret (if eof_seen ctx then 0 else 1, bytes_out).

(** Failing is returning -1. *)
Definition EVP_DecodeFinal : M io unit :=
  ctx ← ctx_get;
  if error_encountered ctx || negb (data_used ctx =? 0) then fail else mret tt.

(** The body of the loop over the groups: [i], [out] and [bytes_out]. *)
Definition decode_turn (input : ptr) (in_len : Z) '(i, out, bytes_out) : M (list Z) (Z * Z * Z + Z * Z * Z) :=
  if i <? in_len then
    i0 ← byte_at input i; i1 ← byte_at input (i + 1); i2 ← byte_at input (i + 2); i3 ← byte_at input (i + 3);
    n ← base64_decode_quad out i0 i1 i2 i3;
    if negb (n =? 3) && negb (i =? u64 (in_len - 4)) then fail
    else mret (inl (i + 4, out + n, bytes_out + n))
  else mret (inr (i, out, bytes_out)).

(** Returns [*out_len]. *)
Definition EVP_DecodeBase64 (out max_out : Z) (input : ptr) (in_len : Z) : M (list Z) Z :=
  if negb (in_len mod 4 =? 0) then fail else
  match EVP_DecodedLength in_len with
  | None => fail
  | Some max_len =>
      if max_out <? max_len then fail else
      '(_, _, bytes_out) ← iter (S (Z.to_nat in_len)) (decode_turn input in_len) (0, out, 0);
      mret bytes_out
  end.

(** [while (src_len > 0)] over the blanks in front, then those behind. *)
Definition trim_front (src : ptr) (src_len : Z) : M (list Z) (ptr * Z) :=
  iter (S (Z.to_nat src_len)) (fun '(src, src_len) =>
    if 0 <? src_len then
      c ← byte_at src 0;
      if negb (c =? 32) && negb (c =? 9) then mret (inr (src, src_len))
      else src ← deref (ptr_add src 1); mret (inl (src, src_len - 1))
    else mret (inr (src, src_len))) (src, src_len).
Definition trim_back (src : ptr) (src_len : Z) : M (list Z) Z :=
  iter (S (Z.to_nat src_len)) (fun src_len =>
    if 0 <? src_len then
      c ← byte_at src (src_len - 1);
      if is_space c then mret (inl (src_len - 1)) else mret (inr src_len)
    else mret (inr src_len)) src_len.

(** The body of [while (dst_len % 3 != 0)], with [dst] where the output starts. *)
Definition pad_turn (dst dst_len : Z) : M (list Z) (Z + Z) :=
  if negb (dst_len mod 3 =? 0) then store (dst + dst_len) 0;; mret (inl (dst_len + 1))
  else mret (inr dst_len).

(** Failing is returning -1. *)
Definition EVP_DecodeBlock (dst : Z) (src : ptr) (src_len : Z) : M (list Z) Z :=
  '(src, src_len) ← trim_front src src_len;
  src_len ← trim_back src src_len;
  match EVP_DecodedLength src_len with
  | None => fail
  | Some dst_len =>
      if INT_MAX <? dst_len then fail else
      dst_len ← EVP_DecodeBase64 dst dst_len src src_len;
      dst_len ← iter 3 (pad_turn dst) dst_len;
      assert_ (dst_len <=? INT_MAX);;
      mret dst_len
  end.
