(* ===== verification/Base64Facts.v ===== *)
(** Facts about [Base64]: the reference encoding, the character maps, and what
    encoding and decoding write to the output buffer. *)
From S2P Require Import Prelude Ct Base64.

(** * The encoding (RFC 4648, section 4) *)

Definition alphabet : list Z :=
  seqZ 65 26 ++ seqZ 97 26 ++ seqZ 48 10 ++ [43; 47].
Definition char64 (v : Z) : Z := default 0 (zget alphabet v).
Definition pad : Z := 61.

(** The characters of three bytes seen as one number, and of the shorter groups. *)
Fixpoint enc64 (l : list Z) : list Z :=
  match l with
  | a :: b :: c :: l =>
      char64 (a / 4) :: char64 ((a mod 4) * 16 + b / 16) :: char64 ((b mod 16) * 4 + c / 64) :: char64 (c mod 64) :: enc64 l
  | [a; b] => [char64 (a / 4); char64 ((a mod 4) * 16 + b / 16); char64 ((b mod 16) * 4); pad]
  | [a] => [char64 (a / 4); char64 ((a mod 4) * 16); pad; pad]
  | [] => []
  end.

(** The value of a character. *)
Definition val64 (c : Z) : option Z := (fun p => Z.of_nat p.1) <$> list_find (c =.) alphabet.

Definition dec_quad (q : Z * Z * Z * Z) : option (list Z) :=
  let '(i0, i1, i2, i3) := q in
  match val64 i0, val64 i1, val64 i2, val64 i3 with
  | Some a, Some b, Some c, Some d => Some [a * 4 + b / 16; (b mod 16) * 16 + c / 4; (c mod 4) * 64 + d]
  | Some a, Some b, Some c, None => if i3 =? pad then Some [a * 4 + b / 16; (b mod 16) * 16 + c / 4] else None
  | Some a, Some b, None, None => if (i2 =? pad) && (i3 =? pad) then Some [a * 4 + b / 16] else None
  | _, _, _, _ => None
  end.

(** The bytes of an encoding: only the last group may be padded. *)
Fixpoint dec64 (l : list Z) : option (list Z) :=
  match l with
  | [] => Some []
  | i0 :: i1 :: i2 :: i3 :: l =>
      match dec_quad (i0, i1, i2, i3) with
      | Some bs =>
          match l with
          | [] => Some bs
          | _ => if zlen bs =? 3 then (bs ++.) <$> dec64 l else None
          end
      | None => None
      end
  | _ => None
  end.

(** * The character maps *)

Lemma conv_bin2ascii_char a : conv_bin2ascii a = char64 (a mod 64).
Proof.
  assert (H : forall b, is_byte b -> (conv_bin2ascii b =? char64 (b mod 64)) = true) by
    (apply (byte_forall (fun b => conv_bin2ascii b =? char64 (b mod 64))); vm_compute; reflexivity).
  specialize (H (a mod 256) ltac:(unfold is_byte; apply Z.mod_pos_bound; lia)). apply Z.eqb_eq in H.
  assert (a mod 256 mod 64 = a mod 64) as Hm by (apply (Z.mod_mod_divide a 256 64); by exists 4).
  rewrite Hm in H. rewrite <- H. unfold conv_bin2ascii, u8. by rewrite Z.mod_mod.
Qed.

(** The constant-time decoder: a value, 0 for the padding, 0xff for the rest. *)
Lemma ascii_to_bin_val c :
  is_byte c -> base64_ascii_to_bin c = if c =? pad then 0 else default 0xff (val64 c).
Proof.
  intros Hc. apply Z.eqb_eq. revert c Hc.
  apply (byte_forall (fun c => base64_ascii_to_bin c =? (if c =? pad then 0 else default 0xff (val64 c)))). vm_compute. reflexivity.
Qed.

Lemma val64_range c v : val64 c = Some v -> 0 <= v < 64.
Proof.
  unfold val64. destruct (list_find (c =.) alphabet) as [[i x]|] eqn:E; [|done]. intros [= <-].
  apply list_find_Some in E as (Hi & _). apply lookup_lt_Some in Hi. change (length alphabet) with 64%nat in Hi. cbn. lia.
Qed.
Lemma val64_pad : val64 pad = None.
Proof. reflexivity. Qed.
Lemma val64_char64 v : 0 <= v < 64 -> val64 (char64 v) = Some v.
Proof.
  intros Hv. assert (H : bool_decide (val64 (char64 v) = Some v) = true); [|by apply bool_decide_eq_true in H].
  assert (H : forallb (fun v => bool_decide (val64 (char64 v) = Some v)) (seqZ 0 64) = true) by (vm_compute; reflexivity).
  rewrite forallb_forall in H. apply H, list_elem_of_In, elem_of_seqZ. lia.
Qed.

(** Cutting three bytes into four groups of six bits, and putting them together. *)
Lemma group_1 a b : 0 <= b < 256 -> a / 4 * 4 + (a mod 4 * 16 + b / 16) / 16 = a.
Proof. intros. dlia. Qed.
Lemma group_2 a b c : 0 <= b < 256 -> 0 <= c < 256 -> (a mod 4 * 16 + b / 16) mod 16 * 16 + (b mod 16 * 4 + c / 64) / 4 = b.
Proof. intros. dlia. Qed.
Lemma group_3 b c : 0 <= c < 256 -> (b mod 16 * 4 + c / 64) mod 4 * 64 + c mod 64 = c.
Proof. intros. dlia. Qed.

(** Strong induction on lists by their length. *)
Lemma list_len_ind {A} (P : list A -> Prop) :
  (forall l, (forall k, (length k < length l)%nat -> P k) -> P l) -> forall l, P l.
Proof. intros H l. apply (well_founded_induction (well_founded_ltof _ (@length A)) P). exact H. Qed.

Lemma zlen_enc64 l : zlen (enc64 l) = 4 * ((zlen l + 2) / 3).
Proof.
  induction l as [l IH] using list_len_ind. destruct l as [|a [|b [|c l]]]; [done..|]. cbn [enc64].
  rewrite !zlen_cons, IH by (cbn; lia). replace (1 + (1 + (1 + zlen l)) + 2) with (zlen l + 2 + 1 * 3) by lia.
  rewrite Z.div_add by lia. lia.
Qed.

(** Decoding undoes encoding. *)
Lemma dec64_enc64 l : bytes l -> dec64 (enc64 l) = Some l.
Proof.
  induction l as [l IH] using list_len_ind. intros Hl. destruct l as [|a [|b [|c l]]]; [done|..].
  - apply bytes_cons in Hl as [Ha _]. unfold is_byte in Ha. cbn [enc64 dec64]. unfold dec_quad. rewrite !val64_char64, !val64_pad by dlia. cbn.
    do 2 f_equal. dlia.
  - apply bytes_cons in Hl as [Ha [Hb _]%bytes_cons]. unfold is_byte in *. cbn [enc64 dec64]. unfold dec_quad.
    rewrite !val64_char64, val64_pad by dlia. cbn. do 2 f_equal; [|f_equal]; dlia.
  - apply bytes_cons in Hl as [Ha [Hb [Hc Hl]%bytes_cons]%bytes_cons]. unfold is_byte in *. cbn [enc64 dec64]. unfold dec_quad.
    rewrite !val64_char64 by dlia. rewrite IH by (done || (cbn; lia)).
    rewrite group_1, group_2, group_3 by done. cbn [zlen]. change (zlen [a; b; c] =? 3) with true. cbn [fmap option_fmap option_map].
    destruct (enc64 l) eqn:El; [|done]. destruct l as [|? [|? [|? ?]]]; done.
Qed.

(** * Encoding blocks *)

Lemma store_spec pos b buf :
  room buf pos 1 -> wp (store pos b) (fun _ buf' => buf' = put_at buf pos [b]) (fun _ => False) buf.
Proof.
  intros Hr. unfold store. apply wp_bind, wp_get, wp_bind. eapply wp_deref; [by apply zset_put_at|]. by apply wp_put.
Qed.

Lemma stores_spec pos bs buf :
  room buf pos (zlen bs) -> wp (stores pos bs) (fun _ buf' => buf' = put_at buf pos bs) (fun _ => False) buf.
Proof.
  intros Hr. pose proof Hr as (Hp & _ & Hb). unfold stores. apply (wp_for (fun i _ buf' => buf' = put_at buf pos (ztake i bs))).
  - rewrite ztake_0, put_at_nil; done.
  - intros j [] buf' Hj ->. assert (Hjz : 0 <= j < zlen bs) by (unfold zlen; lia).
    destruct (zget_lt bs j Hjz) as [b Hbj]. apply wp_bind. eapply wp_deref; [exact Hbj|].
    assert (Hz : zlen (ztake j bs) = j) by (apply zlen_ztake; lia).
    wp_call store_spec; [apply room_put_at; unfold room in *; rewrite ?Hz; lia| |done].
    intros [] buf2 ->. rewrite <- Hz at 2. rewrite put_at_app by (rewrite Hz; unfold room; change (zlen [b]) with 1; lia).
    f_equal. rewrite ztake_split by lia. f_equal. rewrite (zget_split _ _ _ Hbj) at 1.
    rewrite zdrop_app by lia. done.
  - intros [] buf' ->. change (0 + Z.of_nat (length bs)) with (zlen bs). by rewrite ztake_all.
Qed.

Lemma byte_at_spec l i b buf :
  zget l i = Some b -> wp (byte_at (P l) i) (fun x buf' => x = b /\ buf' = buf) (fun _ => False) buf.
Proof. intros H. unfold byte_at. by eapply wp_deref. Qed.

Ltac read_byte := apply wp_bind; eapply wp_mono; [apply byte_at_spec; reflexivity| |done]; intros ? ? [-> ->].

(** The bits of a group. *)
Lemma group_bits a b c :
  is_byte b -> is_byte c -> Z.lor (Z.lor (Z.shiftl a 16) (Z.shiftl b 8)) c = a * 65536 + b * 256 + c.
Proof.
  unfold is_byte. intros Hb Hc. rewrite (Z.shiftl_mul_pow2 b), lor_shiftl by (cbn; lia).
  replace (a * 2 ^ 16 + b * 2 ^ 8) with (Z.shiftl (a * 256 + b) 8) by (rewrite Z.shiftl_mul_pow2; lia).
  rewrite lor_shiftl by (cbn; lia). lia.
Qed.

(** Character by character. *)
Ltac same_chars :=
  repeat match goal with
  | |- _ :: _ = _ :: _ => apply (f_equal2 cons)
  | |- char64 _ = char64 _ => apply (f_equal char64); dlia
  end; try reflexivity.

Lemma encode_step_spec x tail buf :
  bytes x -> x <> [] ->
  wp (encode_step (P (x ++ tail)) (zlen x))
    (fun out buf' => out = enc64 (ztake 3 x) /\ buf' = buf) (fun _ => False) buf.
Proof.
  intros Hx Hne. unfold encode_step. destruct x as [|a [|b [|c x]]]; [done|..]; rewrite !zlen_cons; cbn [app].
  - change (3 <=? 1 + zlen (@nil Z)) with false. cbn iota. read_byte.
    change (1 + zlen (@nil Z) =? 2) with false. change (1 + zlen (@nil Z) =? 1) with true. cbn iota.
    apply wp_bind, wp_ret, wp_ret. split; [|done]. apply bytes_cons in Hx as [Ha _]. unfold is_byte in Ha.
    rewrite Z.shiftl_mul_pow2, !Z.shiftr_div_pow2, !conv_bin2ascii_char by lia. cbn [ztake enc64].
    change (ztake 3 [a]) with [a]. cbn [enc64]. same_chars.
  - change (3 <=? 1 + (1 + zlen (@nil Z))) with false. cbn iota. read_byte.
    change (1 + (1 + zlen (@nil Z)) =? 2) with true. change (1 + (1 + zlen (@nil Z)) =? 1) with false. cbn iota.
    apply wp_bind. read_byte. apply wp_ret, wp_ret. split; [|done].
    apply bytes_cons in Hx as [Ha [Hb _]%bytes_cons]. pose proof (group_bits a b 0 Hb ltac:(done)) as Hg. rewrite Z.lor_0_r in Hg.
    rewrite Hg. unfold is_byte in *. rewrite !Z.shiftr_div_pow2, !conv_bin2ascii_char by lia.
    change (ztake 3 [a; b]) with [a; b]. cbn [enc64]. same_chars.
  - pose proof (zlen_nonneg x). rewrite (proj2 (Z.leb_le _ _)) by lia. read_byte. read_byte. read_byte. apply wp_ret. split; [|done].
    apply bytes_cons in Hx as [Ha [Hb [Hc _]%bytes_cons]%bytes_cons]. rewrite group_bits by done. unfold is_byte in *.
    rewrite !Z.shiftr_div_pow2, !conv_bin2ascii_char by lia. change (ztake 3 (a :: b :: c :: x)) with [a; b; c]. cbn [enc64]. same_chars.
Qed.

Lemma enc64_step x : x <> [] -> enc64 x = enc64 (ztake 3 x) ++ enc64 (zdrop 3 x).
Proof. intros Hne. destruct x as [|a [|b [|c x]]]; done. Qed.
Lemma zlen_enc64_step x : x <> [] -> zlen (enc64 (ztake 3 x)) = 4.
Proof. intros Hne. by destruct x as [|a [|b [|c x]]]. Qed.

(** Where the source stands after a turn. *)
Lemma next_source x tail :
  x <> [] -> exists t, (let remaining := if 3 <=? zlen x then zlen x - 3 else 0 in
    (if remaining =? 0 then P (x ++ tail) else default NULL (ptr_add (P (x ++ tail)) 3), remaining)) =
      (P (zdrop 3 x ++ t), zlen (zdrop 3 x)).
Proof.
  intros Hne. cbv zeta. destruct (Z.leb_spec 3 (zlen x)) as [Hge|Hlt].
  - assert (zlen (zdrop 3 x) = zlen x - 3) as Hz by (apply zlen_zdrop; lia). rewrite <- Hz.
    destruct (Z.eqb_spec (zlen (zdrop 3 x)) 0) as [E|E].
    + exists (x ++ tail). apply zlen_0 in E as ->. done.
    + exists tail. unfold ptr_add. rewrite zlen_app. pose proof (zlen_nonneg tail).
      rewrite (proj2 (Z.leb_le _ (zlen x + zlen tail))) by lia. cbn [andb Z.leb Z.compare default]. by rewrite zdrop_app_le by lia.
  - exists (x ++ tail). assert (zdrop 3 x = []) as ->; [|done].
    apply length_zero_iff_nil. unfold zdrop, zlen in *. rewrite length_drop. lia.
Qed.

Lemma EVP_EncodeBlock_loop fuel x tail dst ret buf :
  bytes x -> room buf dst (zlen (enc64 x)) -> (length x < fuel)%nat ->
  wp (iter fuel encode_turn (dst, P (x ++ tail), zlen x, ret))
    (fun r buf' => r = (dst + zlen (enc64 x), ret + zlen (enc64 x)) /\ buf' = put_at buf dst (enc64 x)) (fun _ => False) buf.
Proof.
  revert tail dst ret buf fuel. induction x as [x IH] using list_len_ind. intros tail dst ret buf fuel Hx Hr Hf.
  destruct fuel as [|fuel]; [lia|]. cbn [iter]. apply wp_bind. pose proof Hr as (Hd & _ & Hroom). unfold encode_turn at 1.
  destruct (decide (x = [])) as [->|Hne].
  { change (zlen (@nil Z) =? 0) with true. cbn iota. apply wp_ret, wp_ret. change (enc64 []) with (@nil Z). change (zlen (@nil Z)) with 0. rewrite !Z.add_0_r, put_at_nil; done. }
  assert (0 < zlen x) as Hpos by (destruct x; [done|rewrite zlen_cons; pose proof (zlen_nonneg x); lia]).
  rewrite (proj2 (Z.eqb_neq _ _)) by lia. apply wp_bind. wp_call encode_step_spec; [done|done| |done]. intros out ? [-> ->].
  pose proof (enc64_step x Hne) as Hst. pose proof (zlen_enc64_step x Hne) as H4.
  rewrite Hst, zlen_app, H4 in Hroom. pose proof (zlen_nonneg (enc64 (zdrop 3 x))).
  apply wp_bind. wp_call stores_spec; [unfold room; lia| |done]. intros [] buf' ->. apply wp_ret.
  destruct (next_source x tail Hne) as [t Ht]. cbv zeta in Ht.
  pose proof (f_equal fst Ht) as Hsrc. pose proof (f_equal snd Ht) as Hrem. cbn [fst snd] in Hsrc, Hrem. rewrite Hsrc, Hrem.
  wp_call (IH (zdrop 3 x)); [|by apply bytes_zdrop|apply room_put_at; unfold room; lia| | |done].
  - unfold zdrop. rewrite length_drop. unfold zlen in Hpos. lia.
  - unfold zdrop. rewrite length_drop. unfold zlen in Hpos. lia.
  - intros r buf'' [-> ->]. rewrite Hst, zlen_app, H4. split; [f_equal; lia|].
    rewrite <- H4 at 1. apply put_at_app. rewrite H4. unfold room. lia.
Qed.

Lemma EVP_EncodeBlock_spec x tail dst buf :
  bytes x -> room buf dst (zlen (enc64 x) + 1) ->
  wp (EVP_EncodeBlock dst (P (x ++ tail)) (zlen x))
    (fun n buf' => n = zlen (enc64 x) /\ buf' = put_at buf dst (enc64 x ++ [0])) (fun _ => False) buf.
Proof.
  intros Hx Hr. pose proof Hr as (Hd & _ & Hroom). pose proof (zlen_nonneg (enc64 x)). unfold EVP_EncodeBlock. apply wp_bind.
  wp_call EVP_EncodeBlock_loop; [done|unfold room; lia|unfold zlen; lia| |done]. intros r buf' [-> ->].
  apply wp_bind. wp_call store_spec; [apply room_put_at; unfold room; lia| |done]. intros [] buf'' ->. apply wp_ret.
  split; [done|]. by apply put_at_app.
Qed.

(** * The streaming encoder *)

(** A line: 48 bytes and a newline. *)
Definition line (c : list Z) : list Z := enc64 c ++ [10].
Definition lines (cs : list (list Z)) : list Z := concat (line <$> cs).

(** [d] cut into lines of 48 bytes and a shorter rest. *)
Definition cut (d : list Z) (cs : list (list Z)) (r : list Z) : Prop :=
  d = concat cs ++ r /\ Forall (fun c => zlen c = 48) cs /\ zlen r < 48.

Lemma cut_small d cs r : cut d cs r -> zlen d < 48 -> cs = [] /\ r = d.
Proof.
  intros (-> & Hcs & _) Hd. destruct Hcs as [|c cs Hc Hcs]; [done|]. cbn [concat] in Hd. rewrite !zlen_app in Hd.
  pose proof (zlen_nonneg (concat cs)). pose proof (zlen_nonneg r). lia.
Qed.
Lemma cut_large d1 d2 cs r : cut (d1 ++ d2) cs r -> zlen d1 = 48 -> exists cs', cs = d1 :: cs' /\ cut d2 cs' r.
Proof.
  intros (Heq & Hcs & Hr) Hd. destruct Hcs as [|c cs Hc Hcs].
  { cbn [concat app] in Heq. rewrite <- Heq, zlen_app in Hr. pose proof (zlen_nonneg d2). lia. }
  cbn [concat] in Heq. rewrite <- app_assoc in Heq. apply app_inj_zlen in Heq as [-> <-]; [|lia]. by exists cs.
Qed.
Lemma cut_exists d : exists cs r, cut d cs r.
Proof.
  induction d as [d IH] using list_len_ind. destruct (Z.lt_ge_cases (zlen d) 48) as [Hd|Hd]; [by exists [], d|].
  destruct (IH (zdrop 48 d)) as (cs & r & Heq & Hcs & Hr).
  { unfold zdrop. rewrite length_drop. unfold zlen in Hd. lia. }
  exists (ztake 48 d :: cs), r. split_and!; [|constructor; [apply zlen_ztake; lia|done]|done].
  cbn [concat]. by rewrite <- app_assoc, <- Heq, ztake_zdrop.
Qed.

Lemma zlen_line c : zlen c = 48 -> zlen (line c) = 65.
Proof. intros Hc. unfold line. rewrite zlen_app, zlen_enc64, Hc. done. Qed.

(** The bytes kept for the next call. *)
Definition buffered (ctx : EVP_ENCODE_CTX) (r : list Z) : Prop :=
  data_used ctx = zlen r /\ zlen r < 48 /\ zlen (data ctx) = 48 /\ bytes r /\ exists junk, data ctx = r ++ junk.

Lemma wp_ctx_get (Q : EVP_ENCODE_CTX -> io -> Prop) E s : Q s.1 s -> wp ctx_get Q E s.
Proof. done. Qed.
Lemma wp_ctx_put c (Q : unit -> io -> Prop) E s : Q tt (c, s.2) -> wp (ctx_put c) Q E s.
Proof. done. Qed.
Lemma wp_on_out {A} (m : M (list Z) A) (Q : A -> io -> Prop) E s :
  wp m (fun a b => Q a (s.1, b)) (fun b => E (s.1, b)) s.2 -> wp (on_out m) Q E s.
Proof. apply (wp_zoom snd (fun b s => (s.1, b))). Qed.

Lemma buffer_in_spec ctx r x tail (s : io) :
  s.1 = ctx -> buffered ctx r -> zlen r + zlen x <= 48 ->
  wp (buffer_in (zlen r) (P (x ++ tail)) (zlen x))
    (fun _ s' => s'.2 = s.2 /\ exists junk, data s'.1 = r ++ x ++ junk /\ zlen (data s'.1) = 48 /\
       s'.1 = with_buffered ctx (data_used ctx) (data s'.1)) (fun _ => False) s.
Proof.
  intros Hs (Hu & Hr & Hd & Hby & junk & Hj) Hle. pose proof (zlen_nonneg r). pose proof (zlen_nonneg x). pose proof (zlen_nonneg tail).
  unfold buffer_in. apply wp_bind, wp_ctx_get, wp_bind. rewrite Hs. eapply wp_deref.
  { unfold ptr_read. cbn [ptr_bytes]. rewrite zlen_app, (proj2 (Z.leb_le 0 _)), (proj2 (Z.leb_le _ (zlen x + zlen tail))) by lia.
    cbn [andb]. by rewrite ztake_app. }
  apply wp_bind. eapply wp_deref; [apply zput_put_at; unfold room; rewrite Hd; lia|]. apply wp_ctx_put. cbn [fst snd]. split; [done|].
  exists (zdrop (zlen x) junk). cbn [data with_buffered]. rewrite zlen_put_at by (unfold room; rewrite Hd; lia).
  split_and!; [|done|done]. unfold put_at. rewrite Hj, ztake_app, zdrop_app_ge by lia. do 3 f_equal. lia.
Qed.

Lemma encode_line_spec c tail out (s : io) :
  bytes c -> zlen c = 48 -> room s.2 out 66 ->
  wp (encode_line out (P (c ++ tail)))
    (fun n s' => n = 64 /\ s'.1 = s.1 /\ s'.2 = put_at s.2 out (line c ++ [0])) (fun _ => False) s.
Proof.
  intros Hc Hz Hr. assert (He : zlen (enc64 c) = 64) by (rewrite zlen_enc64, Hz; done). pose proof Hr as (Ho & _ & Hroom).
  unfold encode_line. apply wp_bind, wp_on_out. change sizeof_data with 48. rewrite <- Hz at 1.
  wp_call EVP_EncodeBlock_spec; [done|unfold room; lia| |done]. intros n b [-> ->]. apply wp_bind, wp_on_out. cbn [fst snd].
  assert (Hr1 : room s.2 out (zlen (enc64 c ++ [0]))) by (rewrite zlen_snoc; unfold room; lia).
  wp_call store_spec; [apply room_put_at; [done|unfold room; lia]| |done]. intros [] b ->. cbn [fst snd].
  rewrite put_at_over by (change (zlen [0]) with 1; change (zlen [10]) with 1; unfold room; lia).
  apply wp_bind, wp_on_out. cbn [fst snd]. fold (line c). assert (Hl : zlen (line c) = 65) by by apply zlen_line.
  wp_call store_spec; [apply room_put_at; unfold room; lia| |done]. intros [] b ->. apply wp_ret. cbn [fst snd].
  split_and!; [done..|]. replace (out + zlen (enc64 c) + 1) with (out + zlen (line c)) by lia.
  apply put_at_app. change (zlen [0]) with 1. unfold room. lia.
Qed.

(** The NUL behind the last line, if there is one. *)
Definition nul (cs : list (list Z)) : list Z := match cs with [] => [] | _ => [0] end.
Lemma zlen_nul cs : 0 <= zlen (nul cs) <= 1.
Proof. by destruct cs. Qed.
Lemma zlen_lines_cons c cs : zlen c = 48 -> zlen (lines (c :: cs)) = 65 + zlen (lines cs).
Proof. intros Hc. unfold lines. cbn [fmap list_fmap concat]. by rewrite zlen_app, zlen_line. Qed.

Lemma encode_lines_loop fuel y tail cs r out total base (s : io) :
  cut y cs r -> bytes y -> (length y < fuel)%nat -> zlen s.2 < 2 ^ 62 -> 0 <= total -> total + zlen (lines cs) < 2 ^ 63 ->
  room s.2 out (zlen (lines cs) + 1) -> s.2 = base ->
  wp (iter fuel encode_update_turn (out, P (y ++ tail), zlen y, total))
    (fun o s' => exists t', o = Some (P (r ++ t'), zlen r, total + zlen (lines cs)) /\ s'.1 = s.1 /\
       s'.2 = put_at base out (lines cs ++ nul cs)) (fun _ => False) s.
Proof.
  intros Hcut. pose proof Hcut as (-> & Hcs & Hr). clear Hcut. revert fuel out total base s tail.
  induction Hcs as [|c cs Hc Hcs IH]; intros fuel out total base s tail Hy Hf Hbig Htot Hsum Hroom Hbase.
  - destruct fuel as [|fuel]; [lia|]. cbn [iter concat app]. apply wp_bind. unfold encode_update_turn, sizeof_data.
    rewrite (proj2 (Z.leb_gt _ _)) by done. apply wp_ret, wp_ret. exists tail. change (zlen (lines [])) with 0. rewrite Z.add_0_r.
    change (lines [] ++ nul []) with (@nil Z). rewrite put_at_nil by apply Hroom. done.
  - destruct fuel as [|fuel]; [lia|]. cbn [iter concat]. apply wp_bind. unfold encode_update_turn at 1, sizeof_data.
    rewrite <- !app_assoc. pose proof (zlen_nonneg (concat cs ++ r)). rewrite zlen_app, Hc.
    rewrite (proj2 (Z.leb_le _ _)) by lia. cbn [concat] in Hy, Hf. rewrite <- app_assoc in Hy, Hf. apply bytes_app in Hy as [Hcb Hy].
    rewrite zlen_lines_cons in Hroom, Hsum by done. pose proof Hroom as (Ho & Hn & Hb). pose proof (zlen_nonneg (lines cs)).
    apply wp_bind. wp_call encode_line_spec; [done|done|unfold room; lia| |done]. intros n s1 (-> & Hctx & Hbuf).
    apply wp_bind. eapply wp_deref.
    { unfold ptr_add. rewrite zlen_app, Hc. cbn [Z.leb Z.compare andb]. pose proof (zlen_nonneg ((concat cs ++ r) ++ tail)).
      rewrite <- app_assoc in *. rewrite (proj2 (Z.leb_le _ _)) by lia. rewrite (zdrop_app _ c) by done. reflexivity. }
    unfold u64. rewrite Z.mod_small by lia. rewrite (proj2 (Z.ltb_ge _ _)) by lia. apply wp_ret.
    replace (48 + zlen (concat cs ++ r) - 48) with (zlen (concat cs ++ r)) by lia.
    assert (Hz1 : zlen s1.2 = zlen s.2).
    { rewrite Hbuf, zlen_put_at; [done|]. rewrite zlen_snoc, zlen_line by done. unfold room. lia. }
    replace (concat cs ++ r ++ tail) with ((concat cs ++ r) ++ tail) by (by rewrite <- app_assoc).
    wp_call (IH fuel (out + 64 + 1) (total + 64 + 1) s1.2 s1 tail); [done| |lia|lia|lia|unfold room; lia|done| |done].
    + rewrite length_app in Hf. unfold zlen in Hc. lia.
    + intros o s2 (t' & -> & Hctx2 & Hbuf2). exists t'. rewrite zlen_lines_cons by done.
      split_and!; [f_equal; f_equal; lia|by rewrite Hctx2|]. rewrite Hbuf2, Hbuf, Hbase. unfold lines. cbn [fmap list_fmap concat].
      fold (lines cs). rewrite <- (app_assoc (line c)). replace (out + 64 + 1) with (out + zlen (line c)) by (rewrite zlen_line by done; lia).
      destruct cs as [|c2 cs].
      * change (lines [] ++ nul []) with (@nil Z). rewrite put_at_nil by (pose proof (zlen_nonneg (line c)); lia). done.
      * rewrite put_at_over; [done| |].
        -- rewrite zlen_app, zlen_line by done. cbn [nul]. change (zlen [0]) with 1. unfold room. subst base. lia.
        -- rewrite zlen_app. cbn [nul]. change (zlen [0]) with 1. lia.
Qed.

Lemma lines_app cs1 cs2 : lines (cs1 ++ cs2) = lines cs1 ++ lines cs2.
Proof. unfold lines. by rewrite fmap_app, concat_app. Qed.

Lemma encode_buffered_spec ctx r x tail cs r' out (s : io) :
  s.1 = ctx -> buffered ctx r -> bytes x -> 48 <= zlen r + zlen x -> cut (r ++ x) cs r' ->
  room s.2 out (zlen (lines cs) + 1) ->
  wp (encode_buffered out (P (x ++ tail)) (zlen x))
    (fun o s' => exists cs1 cs2 x2, cs = cs1 ++ cs2 /\ cut x2 cs2 r' /\ bytes x2 /\ zlen x2 <= zlen x /\
       o = (out + zlen (lines cs1), P (x2 ++ tail), zlen x2, zlen (lines cs1)) /\
       buffered s'.1 [] /\ s'.2 = put_at s.2 out (lines cs1 ++ nul cs1)) (fun _ => False) s.
Proof.
  intros Hs Hb Hx Hle Hcut Hroom. pose proof Hb as (Hu & Hr & Hd & Hbr & Hj). pose proof (zlen_nonneg r).
  unfold encode_buffered. apply wp_bind, wp_ctx_get. rewrite Hs, Hu. destruct (Z.eqb_spec (zlen r) 0) as [E|E]; cbn [negb].
  - apply zlen_0 in E as ->. apply wp_ret. exists [], cs, x. change (lines [] ++ nul []) with (@nil Z). change (zlen (lines [])) with 0.
    rewrite Z.add_0_r, put_at_nil by apply Hroom. rewrite Hs. by split_and!.
  - unfold sizeof_data. set (x1 := ztake (48 - zlen r) x). set (x2 := zdrop (48 - zlen r) x).
    assert (Hx12 : x = x1 ++ x2) by (symmetry; apply ztake_zdrop).
    assert (Hz1 : zlen x1 = 48 - zlen r) by (apply zlen_ztake; lia).
    assert (Hz2 : zlen x2 = zlen x - (48 - zlen r)) by (apply zlen_zdrop; lia).
    assert (Hbx : bytes (r ++ x1)) by (apply bytes_app; split; [done|by apply bytes_ztake]).
    rewrite Hx12 in Hcut. rewrite app_assoc in Hcut. destruct (cut_large _ _ _ _ Hcut) as (cs' & -> & Hcut'); [rewrite zlen_app; lia|].
    assert (H48 : zlen (r ++ x1) = 48) by (rewrite zlen_app; lia).
    rewrite zlen_lines_cons in Hroom by done. pose proof (zlen_nonneg (lines cs')). pose proof Hroom as (Ho & _ & Hbig).
    apply wp_bind. rewrite Hx12, <- app_assoc, <- Hz1.
    wp_call buffer_in_spec; [exact Hs|exact Hb|lia| |done]. intros [] s1 (Hbuf & junk & Hj1 & Hd1 & Hctx).
    apply wp_bind. eapply wp_deref.
    { unfold ptr_add. rewrite zlen_app. pose proof (zlen_nonneg (x2 ++ tail)).
      rewrite (proj2 (Z.leb_le 0 _)), (proj2 (Z.leb_le _ _)) by lia. cbn [andb]. by rewrite zdrop_app. }
    apply wp_bind, wp_ctx_get, wp_bind. rewrite Hj1.
    assert (junk = []) as -> by (apply zlen_0; pose proof (zlen_nonneg junk); rewrite Hj1, !zlen_app in Hd1; lia).
    rewrite app_assoc. wp_call encode_line_spec; [done|done|unfold room; rewrite Hbuf; lia| |done]. intros n s2 (-> & Hctx2 & Hbuf2).
    apply wp_bind, wp_ctx_put, wp_ret. cbn [fst snd].
    exists [r ++ x1], cs', x2. assert (Hl : zlen (lines [r ++ x1]) = 65) by (rewrite zlen_lines_cons by done; done).
    split_and!; [done|done|by apply bytes_zdrop|rewrite <- Hx12; lia| | |].
    + rewrite Hl, zlen_app. replace (zlen x1 + zlen x2 - zlen x1) with (zlen x2) by lia. by replace (out + 64 + 1) with (out + 65) by lia.
    + unfold buffered. cbn. split_and!; [done|done| |constructor|by eexists]. by rewrite app_nil_r.
    + rewrite Hbuf2, Hbuf. unfold lines. cbn [fmap list_fmap concat nul]. by rewrite app_nil_r.
Qed.

Lemma EVP_EncodeUpdate_spec ctx r x tail cs r' out (s : io) :
  s.1 = ctx -> buffered ctx r -> bytes x -> cut (r ++ x) cs r' -> zlen s.2 < 2 ^ 62 ->
  room s.2 out (zlen (lines cs) + 1) ->
  wp (EVP_EncodeUpdate out (P (x ++ tail)) (zlen x))
    (fun n s' => n = (if INT_MAX <? zlen (lines cs) then 0 else zlen (lines cs)) /\
       buffered s'.1 r' /\ s'.2 = put_at s.2 out (lines cs ++ nul cs)) (fun _ => False) s.
Proof.
  intros Hs Hb Hx Hcut Hbig Hroom. pose proof Hb as (Hu & Hr & Hd & Hbr & Hj). pose proof Hroom as (Ho & _ & Hroom').
  unfold EVP_EncodeUpdate. assert (Hnone : put_at s.2 out (lines [] ++ nul []) = s.2) by (by apply put_at_nil).
  destruct (Z.eqb_spec (zlen x) 0) as [E|E].
  { apply zlen_0 in E as ->. rewrite app_nil_r in Hcut. destruct (cut_small _ _ _ Hcut Hr) as [-> ->]. apply wp_ret.
    rewrite Hnone, Hs. done. }
  apply wp_bind, wp_ctx_get, wp_bind, wp_assert; [rewrite Hs, Hu; by apply Z.ltb_lt|]. rewrite Hs, Hu. unfold sizeof_data.
  pose proof (zlen_nonneg r). pose proof (zlen_nonneg x).
  destruct (Z.ltb_spec (zlen x) (48 - zlen r)) as [Hsmall|Hlarge].
  - assert (zlen (r ++ x) < 48) as Hrx by (rewrite zlen_app; lia). destruct (cut_small _ _ _ Hcut Hrx) as [-> ->].
    apply wp_bind. wp_call buffer_in_spec; [exact Hs|exact Hb|lia| |done]. intros [] s1 (Hbuf & junk & Hj1 & Hd1 & Hctx).
    apply wp_bind, wp_ctx_get, wp_bind, wp_ctx_put, wp_ret. cbn [fst snd]. rewrite Hnone, Hbuf. split_and!; [done| |done].
    unfold buffered. cbn. rewrite Hctx. cbn. rewrite Hu, zlen_app. split_and!; [done|lia|done|by apply bytes_app|].
    exists junk. by rewrite Hj1, app_assoc.
  - apply wp_bind. wp_call encode_buffered_spec; [exact Hs|exact Hb|done|lia|exact Hcut|done| |done].
    intros o s1 (cs1 & cs2 & x2 & -> & Hcut2 & Hx2 & Hle & -> & Hb1 & Hbuf1). rewrite lines_app, zlen_app in *.
    pose proof (zlen_nonneg (lines cs1)). pose proof (zlen_nonneg (lines cs2)). pose proof (zlen_nul cs1).
    assert (Hz1 : zlen s1.2 = zlen s.2) by (rewrite Hbuf1, zlen_put_at; [done|rewrite zlen_app; unfold room; lia]).
    apply wp_bind. wp_call (encode_lines_loop (S (Z.to_nat (zlen x2))) x2 tail cs2 r' (out + zlen (lines cs1)) (zlen (lines cs1)) s1.2 s1);
      [done|done|unfold zlen in *; lia|lia|lia|lia|unfold room; lia|done| |done].
    intros o s2 (t' & -> & Hctx2 & Hbuf2).
    apply wp_bind. apply (wp_mono _ (fun _ s3 => s3.2 = s2.2 /\ exists junk, data s3.1 = r' ++ junk /\ zlen (data s3.1) = 48) _ (fun _ => False)).
    { pose proof Hb1 as (Hu1 & _ & Hd1 & _ & Hj1). destruct (Z.eqb_spec (zlen r') 0) as [E'|E']; cbn [negb].
      - apply wp_ret. apply zlen_0 in E' as ->. rewrite Hctx2. split; [done|]. by exists (data s1.1).
      - wp_call (buffer_in_spec s1.1 [] r' t' s2); [done|done| | |done].
        + change (zlen (@nil Z)) with 0. destruct Hcut2 as (_ & _ & ?). lia.
        + intros [] s3 (Hbuf3 & junk & Hj3 & Hd3 & _). split; [done|]. by exists junk. }
    2: done. intros [] s3 (Hbuf3 & junk & Hj3 & Hd3). apply wp_bind, wp_ctx_get, wp_bind, wp_ctx_put, wp_ret. cbn [fst snd].
    split_and!; [done| |].
    + unfold buffered. cbn. destruct Hcut2 as (Heq2 & _ & Hr2). split_and!; [done|done|done| |by exists junk].
      rewrite Heq2 in Hx2. by apply bytes_app in Hx2 as [_ ?].
    + rewrite Hbuf3, Hbuf2, Hbuf1. destruct cs2 as [|c cs2].
      * change (lines [] ++ nul []) with (@nil Z). rewrite put_at_nil by lia. change (lines []) with (@nil Z). by rewrite !app_nil_r.
      * rewrite put_at_over.
        -- rewrite <- app_assoc. by destruct cs1.
        -- rewrite zlen_app. cbn [nul]. change (zlen [0]) with 1. unfold room. lia.
        -- rewrite zlen_app. cbn [nul]. change (zlen [0]) with 1. lia.
Qed.

(** The last, shorter line. *)
Definition last_line (r : list Z) : list Z := match r with [] => [] | _ => enc64 r ++ [10] end.

Lemma EVP_EncodeFinal_spec ctx r out (s : io) :
  s.1 = ctx -> buffered ctx r -> room s.2 out (zlen (last_line r) + 1) ->
  wp (EVP_EncodeFinal out)
    (fun n s' => n = zlen (last_line r) /\ buffered s'.1 [] /\
       s'.2 = put_at s.2 out (last_line r ++ match r with [] => [] | _ => [0] end)) (fun _ => False) s.
Proof.
  intros Hs Hb Hroom. pose proof Hb as (Hu & Hr & Hd & Hbr & junk & Hj). unfold EVP_EncodeFinal. apply wp_bind, wp_ctx_get.
  rewrite Hs, Hu. pose proof Hroom as (Ho & _ & Hroom').
  assert (Hb' : forall c, data c = data ctx -> data_used c = 0 -> buffered c []).
  { intros c E1 E2. unfold buffered. rewrite E1, E2. split_and!; [done|done|done|constructor|by exists (data ctx)]. }
  destruct r as [|b r]; [|set (l := b :: r) in *].
  - change (zlen [] =? 0) with true. cbn iota. apply wp_ret. cbn [last_line app]. rewrite put_at_nil by done. split_and!; [done| |done]. by rewrite Hs.
  - assert (0 < zlen l) as Hl by (unfold l; rewrite zlen_cons; pose proof (zlen_nonneg r); lia).
    rewrite (proj2 (Z.eqb_neq _ _)) by lia. change (last_line l) with (enc64 l ++ [10]) in *. rewrite zlen_snoc in *.
    pose proof (zlen_nonneg (enc64 l)). apply wp_bind, wp_on_out. rewrite Hj.
    wp_call EVP_EncodeBlock_spec; [done|unfold room; lia| |done]. intros n b1 [-> ->]. apply wp_bind, wp_on_out. cbn [fst snd].
    wp_call store_spec; [apply room_put_at; rewrite ?zlen_snoc; unfold room; lia| |done]. intros [] b2 ->. cbn [fst snd].
    rewrite put_at_over by (change (zlen [0]) with 1; change (zlen [10]) with 1; unfold room; lia).
    apply wp_bind, wp_on_out. cbn [fst snd].
    wp_call store_spec; [apply room_put_at; rewrite ?zlen_snoc; unfold room; lia| |done]. intros [] b3 ->. cbn [fst snd].
    apply wp_bind, wp_ctx_put, wp_bind, wp_assert.
    { rewrite zlen_enc64. apply Z.leb_le. unfold INT_MAX. dlia. }
    apply wp_ret. cbn [fst snd]. split_and!; [done|by apply Hb'; rewrite ?Hs|].
    replace (out + zlen (enc64 l) + 1) with (out + zlen (enc64 l ++ [10])) by (rewrite zlen_snoc; lia).
    apply put_at_app. rewrite zlen_snoc. change (zlen [0]) with 1. unfold room. lia.
Qed.

(** * Decoding *)

(** What the decoder makes of a character: a value, the padding, or neither. *)
Inductive char_class (c : Z) : Type :=
| Value v (_ : val64 c = Some v) (_ : 0 <= v < 64) (_ : (c =? 61) = false) (_ : base64_ascii_to_bin c = v) (_ : (v =? 255) = false)
| Padding (_ : c = 61)
| Invalid (_ : val64 c = None) (_ : (c =? 61) = false) (_ : base64_ascii_to_bin c = 255).

Lemma classify c : is_byte c -> char_class c.
Proof.
  intros Hc. pose proof (ascii_to_bin_val c Hc) as H. unfold pad in H. destruct (Z.eqb_spec c 61) as [->|Hne]; [by apply Padding|].
  destruct (val64 c) as [v|] eqn:E; cbn in H.
  - pose proof (val64_range c v E). apply (Value c v); [done|done|by apply Z.eqb_neq|done|apply Z.eqb_neq; lia].
  - by apply Invalid; [|apply Z.eqb_neq|].
Qed.

(** The three bytes of four groups of six bits. *)
Lemma quad_bits a b c d :
  0 <= a < 64 -> 0 <= b < 64 -> 0 <= c < 64 -> 0 <= d < 64 ->
  let v := Z.lor (Z.lor (Z.lor (Z.shiftl a 18) (Z.shiftl b 12)) (Z.shiftl c 6)) d in
  u8 (Z.shiftr v 16) = a * 4 + b / 16 /\ u8 (Z.shiftr v 8) = (b mod 16) * 16 + c / 4 /\ u8 v = (c mod 4) * 64 + d.
Proof.
  intros Ha Hb Hc Hd. cbv zeta.
  assert (Hv : Z.lor (Z.lor (Z.lor (Z.shiftl a 18) (Z.shiftl b 12)) (Z.shiftl c 6)) d = a * 262144 + b * 4096 + c * 64 + d).
  { rewrite (Z.shiftl_mul_pow2 b), lor_shiftl by (cbn; lia).
    replace (a * 2 ^ 18 + b * 2 ^ 12) with (Z.shiftl (a * 64 + b) 12) by (rewrite Z.shiftl_mul_pow2; lia).
    rewrite (Z.shiftl_mul_pow2 c), lor_shiftl by (cbn; lia).
    replace ((a * 64 + b) * 2 ^ 12 + c * 2 ^ 6) with (Z.shiftl (a * 4096 + b * 64 + c) 6) by (rewrite Z.shiftl_mul_pow2; lia).
    rewrite lor_shiftl by (cbn; lia). lia. }
  rewrite Hv, !Z.shiftr_div_pow2 by lia. unfold u8. split_and!; dlia.
Qed.

Lemma store_next buf out l k b :
  0 <= out -> out + zlen l + 1 <= zlen buf -> k = out + zlen l ->
  wp (store k b) (fun _ b' => b' = put_at buf out (l ++ [b])) (fun _ => False) (put_at buf out l).
Proof.
  intros Ho Hr ->. pose proof (zlen_nonneg l). wp_call store_spec; [apply room_put_at; unfold room; lia| |done].
  intros [] b' ->. apply put_at_app. change (zlen [b]) with 1. unfold room. lia.
Qed.

Lemma base64_decode_quad_spec out i0 i1 i2 i3 buf :
  is_byte i0 -> is_byte i1 -> is_byte i2 -> is_byte i3 -> room buf out 3 ->
  wp (base64_decode_quad out i0 i1 i2 i3)
    (fun n buf' => exists bs, dec_quad (i0, i1, i2, i3) = Some bs /\ n = zlen bs /\ buf' = put_at buf out bs)
    (fun buf' => dec_quad (i0, i1, i2, i3) = None /\ buf' = buf) buf.
Proof.
  intros H0 H1 H2 H3 (Ho & _ & Hroom). unfold base64_decode_quad, dec_quad, pad.
  change (val64 61) with (@None Z).
  assert (Hnil : buf = put_at buf out []) by (by rewrite put_at_nil).
  destruct (classify i0 H0) as [v0 E0 R0 N0 B0 M0|E0|E0 N0 B0], (classify i1 H1) as [v1 E1 R1 N1 B1 M1|E1|E1 N1 B1],
    (classify i2 H2) as [v2 E2 R2 N2 B2 M2|E2|E2 N2 B2], (classify i3 H3) as [v3 E3 R3 N3 B3 M3|E3|E3 N3 B3];
    rewrite ?E0, ?E1, ?E2, ?E3, ?N0, ?N1, ?N2, ?N3, ?B0, ?B1, ?B2, ?B3, ?M0, ?M1, ?M2, ?M3;
    change (base64_ascii_to_bin 61) with 0; change (0 =? 255) with false; change (255 =? 255) with true;
    change (val64 61) with (@None Z); change (61 =? 61) with true; cbn [orb negb require andb b2z];
    apply wp_bind; try (apply wp_fail; by split).
  all: apply wp_ret.
  all: try (cbn; by split).
  - destruct (quad_bits v0 v1 v2 v3 R0 R1 R2 R3) as (-> & -> & ->). change (_ =? 0) with true. cbn iota.
    apply wp_bind. wp_call store_spec; [unfold room; lia| |done]. intros [] b ->.
    apply wp_bind. wp_call store_next; [done|change (zlen [_]) with 1; lia|done| |done]. intros [] b ->.
    apply wp_bind. wp_call store_next; [done|change (zlen (_ ++ _)) with 2; lia|done| |done]. intros [] b ->. apply wp_ret. by eexists.
  - destruct (quad_bits v0 v1 v2 0 R0 R1 R2 ltac:(lia)) as (-> & -> & _). change (_ =? 0) with false. change (_ =? 1) with true. cbn iota.
    apply wp_bind. wp_call store_spec; [unfold room; lia| |done]. intros [] b ->.
    apply wp_bind. wp_call store_next; [done|change (zlen [_]) with 1; lia|done| |done]. intros [] b ->. apply wp_ret. by eexists.
  - destruct (quad_bits v0 v1 0 0 R0 R1 ltac:(lia) ltac:(lia)) as (-> & _ & _).
    change (_ =? 0) with false. change (_ =? 1) with false. change (_ =? 3) with true. cbn iota.
    apply wp_bind. wp_call store_spec; [unfold room; lia| |done]. intros [] b ->. apply wp_ret. by eexists.
Qed.

Lemma zlen_dec_quad q bs : dec_quad q = Some bs -> 0 < zlen bs <= 3.
Proof.
  destruct q as [[[i0 i1] i2] i3]. unfold dec_quad.
  destruct (val64 i0), (val64 i1), (val64 i2), (val64 i3); try done; repeat case_match; try done; intros [= <-]; unfold zlen; cbn [length]; lia.
Qed.

Lemma four_at {A} (l : list A) : zlen l mod 4 = 0 -> l <> [] ->
  exists i0 i1 i2 i3 k, l = i0 :: i1 :: i2 :: i3 :: k /\ zlen k mod 4 = 0.
Proof.
  intros Hl Hne. destruct l as [|i0 [|i1 [|i2 [|i3 k]]]]; try done. exists i0, i1, i2, i3, k. split; [done|].
  rewrite !zlen_cons in Hl. rewrite <- Hl. rewrite <- (Z.mod_add (zlen k) 1 4) by lia. f_equal. lia.
Qed.

Lemma zlen_dec64_bounds l bs : dec64 l = Some bs -> zlen l mod 4 = 0 /\ zlen l / 4 * 3 - 2 <= zlen bs <= zlen l / 4 * 3.
Proof.
  revert bs. induction l as [l IH] using list_len_ind. intros bs. destruct l as [|i0 [|i1 [|i2 [|i3 k]]]]; try done; [by intros [= <-]|].
  cbn [dec64]. rewrite !zlen_cons. pose proof (zlen_nonneg k). destruct (dec_quad (i0, i1, i2, i3)) as [b|] eqn:E; [|done].
  apply zlen_dec_quad in E. destruct k as [|c k].
  { intros [= <-]. change (zlen []) with 0. dlia. }
  destruct (Z.eqb_spec (zlen b) 3); [|done]. destruct (dec64 (c :: k)) as [bs'|] eqn:E'; [|done]. intros [= <-].
  apply (IH (c :: k)) in E'; [|cbn; lia]. rewrite zlen_app. dlia.
Qed.
Lemma zlen_dec64 l bs : dec64 l = Some bs -> zlen bs <= zlen l / 4 * 3.
Proof. intros H. by apply zlen_dec64_bounds in H as (_ & _ & ?). Qed.

Lemma decode_turn_loop fuel pre x tail out n buf :
  bytes x -> zlen x mod 4 = 0 -> zlen pre + zlen x < 2 ^ 63 -> (length x < fuel)%nat -> room buf out (zlen x / 4 * 3) ->
  wp (iter fuel (decode_turn (P (pre ++ x ++ tail)) (zlen pre + zlen x)) (zlen pre, out, n))
    (fun r buf' => exists bs, dec64 x = Some bs /\ r.2 = n + zlen bs /\ buf' = put_at buf out bs)
    (fun _ => dec64 x = None) buf.
Proof.
  revert fuel pre out n buf. induction x as [x IH] using list_len_ind. intros fuel pre out n buf Hx Hm Hbig Hf (Ho & _ & Hroom).
  destruct fuel as [|fuel]; [lia|]. cbn [iter]. apply wp_bind. unfold decode_turn at 1. pose proof (zlen_nonneg pre) as Hp.
  destruct (decide (x = [])) as [->|Hne].
  { change (zlen []) with 0. rewrite (proj2 (Z.ltb_ge _ _)) by lia. apply wp_ret, wp_ret. exists []. rewrite put_at_nil by done.
    change (zlen []) with 0. by rewrite Z.add_0_r. }
  destruct (four_at x Hm Hne) as (i0 & i1 & i2 & i3 & k & -> & Hk). rewrite !zlen_cons in *. pose proof (zlen_nonneg k).
  rewrite (proj2 (Z.ltb_lt _ _)) by lia.
  apply bytes_cons in Hx as [B0 [B1 [B2 [B3 Hx]%bytes_cons]%bytes_cons]%bytes_cons].
  assert (Hget : forall bf j b, zget (i0 :: i1 :: i2 :: i3 :: k ++ tail) j = Some b -> 0 <= j ->
    wp (byte_at (P (pre ++ (i0 :: i1 :: i2 :: i3 :: k) ++ tail)) (zlen pre + j)) (fun x buf' => x = b /\ buf' = bf) (fun _ => False) bf).
  { intros bf j b Hg Hj. apply byte_at_spec. rewrite zget_app_r by lia. by replace (zlen pre + j - zlen pre) with j by lia. }
  apply wp_bind. rewrite <- (Z.add_0_r (zlen pre)) at 1. wp_call (Hget buf 0 i0); [done|lia| |done]. intros ? ? [-> ->].
  apply wp_bind. wp_call (Hget buf 1 i1); [done|lia| |done]. intros ? ? [-> ->].
  apply wp_bind. wp_call (Hget buf 2 i2); [done|lia| |done]. intros ? ? [-> ->].
  apply wp_bind. wp_call (Hget buf 3 i3); [done|lia| |done]. intros ? ? [-> ->]. clear Hget.
  assert (Hdiv : (1 + (1 + (1 + (1 + zlen k)))) / 4 * 3 = 3 + zlen k / 4 * 3) by dlia. rewrite Hdiv in Hroom.
  assert (0 <= zlen k / 4 * 3) by dlia.
  apply wp_bind. wp_call base64_decode_quad_spec; [done..|unfold room; lia| |].
  2: { intros b [E _]. cbn [dec64]. by rewrite E. }
  intros m b (bs & E & -> & ->). pose proof (zlen_dec_quad _ _ E). cbn [dec64]. rewrite E.
  unfold u64. rewrite Z.mod_small by lia. destruct (decide (k = [])) as [->|Hk0].
  - rewrite (proj2 (Z.eqb_eq (zlen pre) _)) by (change (zlen (@nil Z)) with 0; lia). rewrite andb_false_r. apply wp_ret.
    destruct fuel as [|fuel]; [cbn in Hf; lia|]. cbn [iter]. apply wp_bind. unfold decode_turn.
    rewrite (proj2 (Z.ltb_ge _ _)) by (change (zlen (@nil Z)) with 0; lia). apply wp_ret, wp_ret. by exists bs.
  - assert (0 < zlen k) by (destruct k; [done|rewrite zlen_cons; pose proof (zlen_nonneg k); lia]).
    rewrite (proj2 (Z.eqb_neq (zlen pre) _)) by lia. rewrite andb_true_r.
    destruct (Z.eqb_spec (zlen bs) 3) as [E3|E3]; cbn [negb].
    2: { apply wp_fail. by destruct k. }
    apply wp_ret. rewrite E3.
    replace (zlen pre + 4) with (zlen (pre ++ [i0; i1; i2; i3])) by (rewrite zlen_app; done).
    replace (zlen pre + (1 + (1 + (1 + (1 + zlen k))))) with (zlen (pre ++ [i0; i1; i2; i3]) + zlen k) by (rewrite zlen_app; change (zlen [i0; i1; i2; i3]) with 4; lia).
    replace (pre ++ (i0 :: i1 :: i2 :: i3 :: k) ++ tail) with ((pre ++ [i0; i1; i2; i3]) ++ k ++ tail) by (by rewrite <- app_assoc).
    wp_call (IH k); [cbn; lia|done|done| |cbn in Hf; lia| | |].
    + rewrite zlen_app. change (zlen [i0; i1; i2; i3]) with 4. lia.
    + apply room_put_at; unfold room; lia.
    + intros r b (bs' & Hr' & Hr & ->). exists (bs ++ bs'). rewrite Hr'. split_and!; [by destruct k|rewrite zlen_app; lia|].
      rewrite <- E3. pose proof (zlen_nonneg bs'). apply zlen_dec64 in Hr'. apply put_at_app. unfold room. lia.
    + intros b Hn. rewrite Hn. by destruct k.
Qed.

Lemma EVP_DecodeBase64_spec x tail out max_out buf :
  bytes x -> zlen x < 2 ^ 63 -> room buf out (zlen x / 4 * 3) ->
  wp (EVP_DecodeBase64 out max_out (P (x ++ tail)) (zlen x))
    (fun n buf' => exists bs, zlen x mod 4 = 0 /\ zlen x / 4 * 3 <= max_out /\ dec64 x = Some bs /\ n = zlen bs /\ buf' = put_at buf out bs)
    (fun _ => zlen x mod 4 <> 0 \/ max_out < zlen x / 4 * 3 \/ dec64 x = None) buf.
Proof.
  intros Hx Hbig Hr. unfold EVP_DecodeBase64, EVP_DecodedLength. destruct (Z.eqb_spec (zlen x mod 4) 0) as [Hm|Hm]; cbn [negb].
  2: { apply wp_fail. by left. }
  destruct (Z.ltb_spec max_out (zlen x / 4 * 3)) as [Hlt|Hge]; [apply wp_fail; right; by left|]. apply wp_bind.
  wp_call (decode_turn_loop (S (Z.to_nat (zlen x))) [] x tail out 0 buf); [done|done|done|unfold zlen; lia|done| |].
  - intros [[i o] n] buf' (bs & E & Hn & ->). cbn in Hn. apply wp_ret. exists bs. by split_and!.
  - intros b E. by right; right.
Qed.

(** ** The block decoder *)

(** What is left once the blanks in front (only spaces and tabs) and behind are gone. *)
Fixpoint trim_left (l : list Z) : list Z :=
  match l with c :: l' => if (c =? 32) || (c =? 9) then trim_left l' else l | [] => [] end.
Fixpoint trim_right (l : list Z) : list Z :=
  match l with
  | [] => []
  | c :: l => match trim_right l with [] => if is_space c then [] else [c] | r => c :: r end
  end.
Definition trim (l : list Z) : list Z := trim_right (trim_left l).

Lemma trim_right_split l : exists t, l = trim_right l ++ t /\ Forall (fun c => is_space c = true) t.
Proof.
  induction l as [|c l (t & Heq & Ht)]; [by exists []|]. cbn [trim_right]. destruct (trim_right l) as [|d r] eqn:E.
  - cbn in Heq. subst. destruct (is_space c) eqn:Ec; [exists (c :: t)|exists t]; split; auto.
  - exists t. rewrite Heq at 1. split; [done|done].
Qed.
Lemma trim_left_split l : exists h, l = h ++ trim_left l /\ Forall (fun c => is_space c = true) h.
Proof.
  induction l as [|c l (h & Heq & Hh)]; [by exists []|]. cbn [trim_left]. destruct ((c =? 32) || (c =? 9)) eqn:E; [|by exists []].
  exists (c :: h). cbn. rewrite <- Heq. split; [done|]. constructor; [|done]. unfold is_space. by rewrite E.
Qed.
Lemma trim_right_snoc l c : trim_right (l ++ [c]) = if is_space c then trim_right l else l ++ [c].
Proof.
  induction l as [|d l IH]; cbn [trim_right app]; [by destruct (is_space c)|]. rewrite IH. destruct (is_space c); [done|].
  by destruct l.
Qed.

Lemma trim_front_spec x tail buf :
  wp (trim_front (P (x ++ tail)) (zlen x))
    (fun r buf' => r = (P (trim_left x ++ tail), zlen (trim_left x)) /\ buf' = buf) (fun _ => False) buf.
Proof.
  unfold trim_front. assert (Hf : (length x < S (Z.to_nat (zlen x)))%nat) by (unfold zlen; lia). revert Hf.
  generalize (S (Z.to_nat (zlen x))) as fuel. induction x as [|c x IH]; intros fuel Hf; destruct fuel as [|fuel]; try lia; cbn [iter]; apply wp_bind.
  - change (0 <? zlen []) with false. cbn iota. by apply wp_ret, wp_ret.
  - rewrite zlen_cons. pose proof (zlen_nonneg x). rewrite (proj2 (Z.ltb_lt _ _)) by lia. cbn [app]. read_byte. cbn [trim_left].
    rewrite <- negb_orb. destruct ((c =? 32) || (c =? 9)) eqn:E; cbn [negb].
    + apply wp_bind. eapply wp_deref.
      { unfold ptr_add. rewrite zlen_cons, zlen_app. pose proof (zlen_nonneg tail). rewrite (proj2 (Z.leb_le _ (1 + _))) by lia. reflexivity. }
      apply wp_ret. replace (1 + zlen x - 1) with (zlen x) by lia. apply IH. cbn in Hf. lia.
    + apply wp_ret, wp_ret. by rewrite zlen_cons.
Qed.

Lemma trim_back_spec x tail buf :
  wp (trim_back (P (x ++ tail)) (zlen x)) (fun n buf' => n = zlen (trim_right x) /\ buf' = buf) (fun _ => False) buf.
Proof.
  unfold trim_back. assert (Hf : (length x < S (Z.to_nat (zlen x)))%nat) by (unfold zlen; lia). revert Hf.
  generalize (S (Z.to_nat (zlen x))) as fuel. revert tail. induction x as [|c x IH] using rev_ind; intros tail fuel Hf; destruct fuel as [|fuel]; try lia; cbn [iter]; apply wp_bind.
  - change (0 <? zlen []) with false. cbn iota. by apply wp_ret, wp_ret.
  - rewrite trim_right_snoc, zlen_snoc. pose proof (zlen_nonneg x). rewrite (proj2 (Z.ltb_lt _ _)) by lia.
    replace (zlen x + 1 - 1) with (zlen x) by lia. apply wp_bind. rewrite <- app_assoc. cbn [app].
    wp_call byte_at_spec; [by apply zget_middle| |done]. intros ? ? [-> ->]. destruct (is_space c); apply wp_ret.
    + apply IH. rewrite length_app in Hf. cbn in Hf. lia.
    + apply wp_ret. by rewrite zlen_snoc.
Qed.

Lemma zlen_trim x : zlen (trim x) <= zlen x.
Proof.
  destruct (trim_left_split x) as (h & Hh & _), (trim_right_split (trim_left x)) as (t & Ht & _). fold (trim x) in Ht.
  apply (f_equal zlen) in Hh, Ht. rewrite zlen_app in Hh, Ht. pose proof (zlen_nonneg h). pose proof (zlen_nonneg t). lia.
Qed.

(** No character of an encoding is blank, and all are bytes. *)
Lemma char64_solid v : is_space (char64 v) = false /\ is_byte (char64 v).
Proof.
  unfold char64. destruct (zget alphabet v) as [c|] eqn:E; cbn; [|by split; [|unfold is_byte]].
  assert (H : forallb (fun c => negb (is_space c) && (0 <=? c) && (c <? 256)) alphabet = true) by (vm_compute; reflexivity).
  rewrite forallb_forall in H. unfold zget in E. destruct (0 <=? v); [|done].
  specialize (H c ltac:(eapply list_elem_of_In, list_elem_of_lookup_2; exact E)).
  apply andb_true_iff in H as [[H1%negb_true_iff H2%Z.leb_le]%andb_true_iff H3%Z.ltb_lt]. unfold is_byte. by split.
Qed.
Lemma enc64_solid l : Forall (fun c => is_space c = false /\ is_byte c) (enc64 l).
Proof.
  induction l as [l IH] using list_len_ind.
  assert (is_space pad = false /\ is_byte pad) by (unfold is_byte; by vm_compute).
  destruct l as [|a [|b [|c l]]]; cbn [enc64]; repeat (constructor; auto using char64_solid). apply IH. cbn. lia.
Qed.
Lemma trim_solid l : Forall (fun c => is_space c = false /\ is_byte c) l -> trim l = l.
Proof.
  intros H. assert (Hl : trim_left l = l).
  { destruct H as [|c l [Hc _] _]; [done|]. cbn. unfold is_space in Hc. apply orb_false_iff in Hc as [[Hc _]%orb_false_iff _]. by rewrite Hc. }
  unfold trim. rewrite Hl. clear Hl. induction H as [|c l [Hc _] H IH]; [done|]. cbn. rewrite IH, Hc. by destruct l.
Qed.

(** The bytes of a block, padded with zeros to whole groups of three. *)
Definition dec_block (x : list Z) : option (list Z) :=
  (fun bs => bs ++ zrep (zlen (trim x) / 4 * 3 - zlen bs) 0) <$> dec64 (trim x).

Lemma EVP_DecodeBlock_spec x tail dst buf :
  bytes x -> zlen x < 2 ^ 63 -> room buf dst (zlen (trim x) / 4 * 3) ->
  wp (EVP_DecodeBlock dst (P (x ++ tail)) (zlen x))
    (fun n buf' => exists bs, zlen (trim x) / 4 * 3 <= INT_MAX /\ dec_block x = Some bs /\ n = zlen bs /\ buf' = put_at buf dst bs)
    (fun _ => INT_MAX < zlen (trim x) / 4 * 3 \/ dec_block x = None) buf.
Proof.
  intros Hx Hbig Hr. unfold EVP_DecodeBlock. apply wp_bind. wp_call trim_front_spec; [|done]. intros [p n] b [[= -> ->] ->].
  apply wp_bind. wp_call trim_back_spec; [|done]. intros n b [-> ->]. fold (trim x).
  destruct (trim_right_split (trim_left x)) as (t & Ht & _). fold (trim x) in Ht.
  destruct (trim_left_split x) as (h & Hh & _). pose proof (zlen_trim x) as Hle.
  assert (Hbt : bytes (trim x)).
  { assert (bytes (h ++ trim x ++ t)) as Hb by (by rewrite <- Ht, <- Hh). by apply bytes_app in Hb as [_ [? _]%bytes_app]. }
  replace (trim_left x ++ tail) with (trim x ++ (t ++ tail)) by (by rewrite app_assoc, <- Ht). unfold EVP_DecodedLength, dec_block.
  destruct (Z.eqb_spec (zlen (trim x) mod 4) 0) as [Hm|Hm]; cbn [negb].
  2: { apply wp_fail. right. destruct (dec64 (trim x)) eqn:E; [|done]. by apply zlen_dec64_bounds in E as [? _]. }
  destruct (Z.ltb_spec INT_MAX (zlen (trim x) / 4 * 3)) as [Hlt|Hge]; [apply wp_fail; by left|].
  apply wp_bind. wp_call EVP_DecodeBase64_spec; [done|lia|done| |].
  2: { intros b [?|[?|E]]; [done|lia|right]. by rewrite E. }
  intros n b (bs & _ & _ & E & -> & ->). rewrite E. pose proof (zlen_dec64_bounds _ _ E) as [_ Hb]. pose proof Hr as (Hd & _ & Hroom).
  set (N := zlen (trim x) / 4 * 3) in *. pose proof (zlen_nonneg bs).
  apply wp_bind. apply (wp_mono _ (fun n b' => n = N /\ b' = put_at buf dst (bs ++ zrep (N - zlen bs) 0)) _ (fun _ => False)).
  2: { intros n b [-> ->]. apply wp_bind, wp_assert, wp_ret; [by apply Z.leb_le|]. exists (bs ++ zrep (N - zlen bs) 0).
       rewrite zlen_app, zlen_zrep by lia. split_and!; [done|done|lia|done]. }
  2: done.
  assert (Hstep : forall l fuel Q E, zlen l < N -> N - 2 <= zlen l ->
    wp (iter fuel (pad_turn dst) (zlen (l ++ [0]))) Q E (put_at buf dst (l ++ [0])) -> wp (iter (S fuel) (pad_turn dst) (zlen l)) Q E (put_at buf dst l)).
  { intros l fuel Q E' Hl1 Hl2 Hw. cbn [iter]. apply wp_bind. unfold pad_turn at 1. assert (zlen l mod 3 <> 0) as Hne by (unfold N in *; dlia).
    rewrite (proj2 (Z.eqb_neq _ _) Hne). cbn [negb]. apply wp_bind. wp_call store_next; [done|lia|done| |done].
    intros [] b ->. apply wp_ret. by rewrite zlen_snoc in Hw. }
  assert (Hdone : forall l fuel Q E, zlen l = N -> Q N (put_at buf dst l) -> wp (iter (S fuel) (pad_turn dst) (zlen l)) Q E (put_at buf dst l)).
  { intros l fuel Q E' -> HQ. cbn [iter]. apply wp_bind. unfold pad_turn at 1. assert (N mod 3 = 0) as -> by (unfold N; dlia).
    by apply wp_ret, wp_ret. }
  assert (zlen bs = N \/ zlen bs + 1 = N \/ zlen bs + 2 = N) as [Hz|[Hz|Hz]] by lia.
  - apply Hdone; [done|]. by rewrite Hz, Z.sub_diag, app_nil_r.
  - apply Hstep; [lia..|]. apply Hdone; [by rewrite zlen_snoc|]. by replace (N - zlen bs) with 1 by lia.
  - apply Hstep; [lia..|]. apply Hstep; [rewrite zlen_snoc; lia..|]. apply Hdone; [rewrite !zlen_snoc; lia|].
    replace (N - zlen bs) with 2 by lia. by rewrite <- app_assoc.
Qed.

(** ** The streaming decoder *)

Lemma dec64_app_full g bs k :
  dec64 g = Some bs -> zlen bs = zlen g / 4 * 3 -> dec64 (g ++ k) = (bs ++.) <$> dec64 k.
Proof.
  revert bs. induction g as [g IH] using list_len_ind. intros bs. destruct g as [|i0 [|i1 [|i2 [|i3 g]]]]; try done.
  { intros [= <-] _. cbn [app]. by destruct (dec64 k). }
  cbn [dec64 app]. rewrite !zlen_cons. pose proof (zlen_nonneg g). destruct (dec_quad (i0, i1, i2, i3)) as [b|] eqn:E; [|done].
  apply zlen_dec_quad in E. intros Hg Hz. assert (zlen b = 3 /\ exists bs', dec64 g = Some bs' /\ bs = b ++ bs') as (H3 & bs' & Hg' & ->).
  { destruct g as [|c g]; [injection Hg as <-; change (zlen []) with 0 in Hz; split; [dlia|exists []; by rewrite app_nil_r]|].
    destruct (Z.eqb_spec (zlen b) 3); [|done]. destruct (dec64 (c :: g)) as [bs'|]; [|done]. injection Hg as <-. eauto. }
  rewrite zlen_app in Hz. assert (Hk : dec64 (g ++ k) = (bs' ++.) <$> dec64 k) by (apply IH; [cbn; lia|done|dlia]).
  rewrite (proj2 (Z.eqb_eq _ _)) by done. rewrite Hk. destruct (g ++ k) eqn:Egk.
  - apply app_eq_nil in Egk as [-> ->]. cbn in *. injection Hg' as <-. by rewrite app_nil_r.
  - destruct (dec64 k); [|done]. cbn. by rewrite app_assoc.
Qed.

Lemma dec64_app_short g bs k :
  dec64 g = Some bs -> zlen bs <> zlen g / 4 * 3 -> k <> [] -> dec64 (g ++ k) = None.
Proof.
  revert bs. induction g as [g IH] using list_len_ind. intros bs. destruct g as [|i0 [|i1 [|i2 [|i3 g]]]]; try done.
  { by intros [= <-]. }
  cbn [dec64 app]. rewrite !zlen_cons. pose proof (zlen_nonneg g). destruct (dec_quad (i0, i1, i2, i3)) as [b|] eqn:E; [|done].
  intros Hg Hz Hk. destruct (g ++ k) eqn:Egk; [by apply app_eq_nil in Egk as [_ ->]|]. rewrite <- Egk.
  destruct g as [|c g].
  { injection Hg as <-. change (zlen []) with 0 in Hz. rewrite (proj2 (Z.eqb_neq _ _)); [done|]. intros H3. rewrite H3 in Hz. by apply Hz. }
  destruct (Z.eqb_spec (zlen b) 3); [|done]. destruct (dec64 (c :: g)) as [bs'|] eqn:Hg'; [|done]. injection Hg as <-.
  rewrite zlen_app in Hz. rewrite (IH (c :: g) ltac:(cbn; lia) bs'); [done|done| |done]. intros Hb. apply Hz. rewrite Hb. dlia.
Qed.

Lemma dec64_small q : 0 < zlen q < 4 -> dec64 q = None.
Proof.
  destruct q as [|? [|? [|? [|? q]]]]; try done; rewrite ?zlen_cons; [change (zlen []) with 0; lia|]. pose proof (zlen_nonneg q). lia.
Qed.

(** The characters that are not blank. *)
Fixpoint solid (l : list Z) : list Z :=
  match l with [] => [] | c :: l => if is_space c then solid l else c :: solid l end.
Lemma solid_app l1 l2 : solid (l1 ++ l2) = solid l1 ++ solid l2.
Proof. induction l1 as [|c l1 IH]; [done|]. cbn. rewrite IH. by destruct (is_space c). Qed.

(** After the characters [d], which decode to [bs] up to the group begun. *)
Definition decoding (ctx : EVP_ENCODE_CTX) (d bs : list Z) : Prop :=
  exists g q junk, d = g ++ q /\ zlen g mod 4 = 0 /\ zlen q < 4 /\ dec64 g = Some bs /\ bytes q /\
    data ctx = q ++ junk /\ zlen (data ctx) = 48 /\ data_used ctx = zlen q /\
    eof_seen ctx = negb (zlen bs =? zlen g / 4 * 3) /\ (eof_seen ctx = true -> q = []) /\ error_encountered ctx = false.
(** Nothing that starts with [d] is an encoding. *)
Definition dead (d : list Z) : Prop := forall k, dec64 (d ++ k) = None.
Lemma dead_app d k : dead d -> dead (d ++ k).
Proof. intros H e. rewrite <- app_assoc. apply H. Qed.
(** The bytes that come out of [n] more characters behind [d] at most. *)
Definition out_room (d : list Z) (n : Z) : Z := (zlen d mod 4 + n) / 4 * 3.

Lemma decode_error_spec {A} Q (E : io -> Prop) s :
  E (mkCTX (data_used s.1) (data s.1) (eof_seen s.1) true, s.2) -> wp (@decode_error A) Q E s.
Proof. done. Qed.

Lemma three_of {A} (q : list A) : zlen q = 3 -> exists i0 i1 i2, q = [i0; i1; i2].
Proof.
  destruct q as [|i0 [|i1 [|i2 [|? q]]]]; try done; [by exists i0, i1, i2|]. rewrite !zlen_cons. pose proof (zlen_nonneg q). lia.
Qed.

Lemma decode_char_spec c out n d bs (s : io) :
  decoding s.1 d bs -> is_byte c -> room s.2 out (out_room d (zlen (solid [c]))) ->
  wp (decode_char c out n)
    (fun r s' => exists b, r = (out + zlen b, n + zlen b) /\ decoding s'.1 (d ++ solid [c]) (bs ++ b) /\
       s'.2 = put_at s.2 out b /\ zlen b <= out_room d (zlen (solid [c])))
    (fun s' => dead (d ++ solid [c]) /\ error_encountered s'.1 = true) s.
Proof.
  intros Hdec Hc (Ho & Hn & Hroom). unfold decode_char. cbn [solid] in *. destruct (is_space c) eqn:Ec.
  { apply wp_ret. exists []. rewrite put_at_nil, !app_nil_r by done. change (zlen []) with 0 in *. rewrite !Z.add_0_r. by split_and!. }
  destruct Hdec as (g & q & junk & -> & Hg & Hq & Hdg & Hbq & Hj & H48 & Hu & Heof & Heq & Herr).
  change (zlen [c]) with 1 in *. pose proof (zlen_nonneg q). pose proof (zlen_nonneg g).
  assert (Hroom4 : out_room (g ++ q) 1 = if zlen q =? 3 then 3 else 0).
  { unfold out_room. rewrite zlen_app. destruct (Z.eqb_spec (zlen q) 3); dlia. }
  rewrite Hroom4 in *. apply wp_bind, wp_ctx_get. destruct (eof_seen s.1) eqn:Eeof.
  { apply decode_error_spec. split; [|done]. rewrite (Heq eq_refl), app_nil_r. intros k. rewrite <- app_assoc.
    eapply dec64_app_short; [exact Hdg| |done]. symmetry in Heof. apply negb_true_iff, Z.eqb_neq in Heof. done. }
  assert (Hfull : zlen bs = zlen g / 4 * 3) by (symmetry in Heof; by apply negb_false_iff, Z.eqb_eq in Heof).
  destruct junk as [|j junk]; [rewrite app_nil_r in Hj; rewrite Hj in H48; lia|].
  assert (Hd' : zlen (q ++ c :: junk) = 48) by (rewrite Hj, !zlen_app, !zlen_cons in *; lia).
  apply wp_bind. eapply wp_deref; [rewrite Hj, Hu; by apply zset_app|]. apply wp_bind, wp_ctx_put. rewrite Hu.
  destruct (Z.eqb_spec (zlen q) 3) as [E3|E3].
  2: { rewrite (proj2 (Z.eqb_neq _ _)) by lia. apply wp_ret. exists []. rewrite put_at_nil, app_nil_r by done. change (zlen []) with 0. rewrite !Z.add_0_r.
       split_and!; [done| |done|lia]. exists g, (q ++ [c]), junk. cbn. rewrite zlen_snoc, <- !app_assoc, Eeof. split_and!; try done; [lia|].
       apply bytes_app. split; [done|]. apply bytes_cons; auto using bytes_nil. }
  rewrite E3. change (3 + 1 =? 4) with true. cbn iota.
  destruct (three_of q E3) as (i0 & i1 & i2 & ->).
  apply bytes_cons in Hbq as [B0 [B1 [B2 _]%bytes_cons]%bytes_cons].
  do 4 (apply wp_bind; eapply wp_deref; [reflexivity|]).
  apply wp_bind, wp_try, wp_on_out. cbn [fst snd].
  wp_call base64_decode_quad_spec; [done..|unfold room; lia| |].
  - intros m b (b' & E & -> & ->). pose proof (zlen_dec_quad _ _ E) as Hb'. apply wp_bind, wp_ctx_get, wp_bind, wp_ctx_put, wp_ret. cbn [fst snd].
    exists b'. split_and!; [done| |done|lia]. exists (g ++ [i0; i1; i2; c]), [], (i0 :: i1 :: i2 :: c :: junk). cbn.
    rewrite !zlen_app, Eeof. change (zlen [i0; i1; i2; c]) with 4. split_and!; try done.
    + by rewrite <- !app_assoc.
    + dlia.
    + rewrite (dec64_app_full g bs) by done. cbn [dec64]. by rewrite E.
    + constructor.
    + f_equal. rewrite orb_false_l. apply eq_true_iff_eq. rewrite Z.ltb_lt, negb_true_iff, Z.eqb_neq. dlia.
  - intros b [E ->]. apply decode_error_spec. split; [|done]. intros k. rewrite <- !app_assoc. rewrite (dec64_app_full g bs) by done.
    cbn [app dec64]. by rewrite E.
Qed.

Lemma EVP_DecodeUpdate_spec x tail out d bs (s : io) :
  decoding s.1 d bs -> bytes x -> room s.2 out (out_room d (zlen (solid x))) -> out_room d (zlen (solid x)) <= INT_MAX ->
  wp (EVP_DecodeUpdate out (P (x ++ tail)) (zlen x))
    (fun r s' => exists b, r = (if eof_seen s'.1 then 0 else 1, zlen b) /\ decoding s'.1 (d ++ solid x) (bs ++ b) /\
       s'.2 = put_at s.2 out b /\ zlen b <= out_room d (zlen (solid x)))
    (fun s' => dead (d ++ solid x) /\ error_encountered s'.1 = true) s.
Proof.
  intros Hdec Hx (Ho & _ & Hroom) Hmax. unfold EVP_DecodeUpdate. apply wp_bind, wp_ctx_get.
  assert (error_encountered s.1 = false) as -> by (by destruct Hdec as (? & ? & ? & _ & _ & _ & _ & _ & _ & _ & _ & _ & _ & ?)).
  apply wp_bind.
  apply (wp_for (fun i r s' => exists b, r = (out + zlen b, zlen b) /\ decoding s'.1 (d ++ solid (ztake i x)) (bs ++ b) /\
       s'.2 = put_at s.2 out b /\ zlen b <= out_room d (zlen (solid (ztake i x))))).
  - exists []. rewrite ztake_0, put_at_nil, !app_nil_r by done. change (zlen []) with 0. rewrite Z.add_0_r. split_and!; try done.
    change (solid []) with (@nil Z). change (zlen []) with 0. unfold out_room. dlia.
  - intros j [o n] s' Hj (b & [= -> ->] & Hdec' & Hbuf & Hb). assert (Hjz : 0 <= j < zlen x) by lia.
    destruct (zget_lt x j Hjz) as [c Hc]. apply wp_bind. eapply wp_deref.
    { cbn [ptr_get ptr_bytes]. unfold ptr_get. cbn. rewrite zget_app_l by lia. exact Hc. }
    assert (Hsplit : solid (ztake (j + 1) x) = solid (ztake j x) ++ solid [c]).
    { rewrite <- solid_app, ztake_split by lia. f_equal. f_equal. rewrite (zget_split _ _ _ Hc) at 1.
      rewrite zdrop_app by (rewrite zlen_ztake; lia). done. }
    assert (Hx1 : solid x = solid (ztake j x) ++ solid [c] ++ solid (zdrop (j + 1) x)).
    { by rewrite app_assoc, <- Hsplit, <- solid_app, ztake_zdrop. }
    assert (Hle : zlen (solid (ztake j x)) + zlen (solid [c]) <= zlen (solid x)).
    { pose proof (f_equal zlen Hx1) as Hz. rewrite !zlen_app in Hz. pose proof (zlen_nonneg (solid (zdrop (j + 1) x))). lia. }
    pose proof (zlen_nonneg b). pose proof (zlen_nonneg (solid [c])). pose proof (zlen_nonneg (solid (ztake j x))).
    assert (Hor : zlen b + out_room (d ++ solid (ztake j x)) (zlen (solid [c])) <= out_room d (zlen (solid (ztake j x)) + zlen (solid [c]))).
    { unfold out_room in *. rewrite zlen_app. dlia. }
    assert (Hor2 : out_room d (zlen (solid (ztake j x)) + zlen (solid [c])) <= out_room d (zlen (solid x))) by (unfold out_room; dlia).
    assert (Hor0 : 0 <= out_room (d ++ solid (ztake j x)) (zlen (solid [c]))) by (unfold out_room; dlia).
    wp_call decode_char_spec; [exact Hdec'|by eapply bytes_zget| | |].
    + rewrite Hbuf. apply room_put_at; unfold room; lia.
    + intros r s'' (b' & -> & Hdec'' & Hbuf' & Hb'). exists (b ++ b'). rewrite Hsplit, !app_assoc, !zlen_app, Hbuf', Hbuf.
      split_and!; [f_equal; lia|by rewrite <- app_assoc in *|apply put_at_app; pose proof (zlen_nonneg b'); unfold room; lia|lia].
    + intros s'' [Hdead Herr]. split; [|done]. rewrite Hx1, !app_assoc. by apply dead_app.
  - intros [o n] s' (b & [= -> ->] & Hdec' & Hbuf & Hb). change (0 + Z.of_nat (Z.to_nat (zlen x))) with (Z.of_nat (Z.to_nat (zlen x))) in *.
    rewrite Z2Nat.id in * by apply zlen_nonneg. rewrite ztake_all in *. rewrite (proj2 (Z.ltb_ge _ _)) by lia.
    apply wp_bind, wp_ctx_get, wp_ret. by exists b.
Qed.

Lemma EVP_DecodeFinal_spec d bs (s : io) :
  decoding s.1 d bs -> wp EVP_DecodeFinal (fun _ s' => s' = s /\ dec64 d = Some bs) (fun s' => s' = s /\ dec64 d = None) s.
Proof.
  intros (g & q & junk & -> & Hg & Hq & Hdg & Hbq & Hj & H48 & Hu & Heof & Heq & Herr). unfold EVP_DecodeFinal. apply wp_bind, wp_ctx_get.
  rewrite Herr, Hu. cbn [orb]. destruct (Z.eqb_spec (zlen q) 0) as [E|E]; cbn [negb].
  - apply zlen_0 in E as ->. apply wp_ret. by rewrite app_nil_r.
  - apply wp_fail. split; [done|]. destruct (eof_seen s.1); [by rewrite (Heq eq_refl) in E|]. symmetry in Heof. apply negb_false_iff, Z.eqb_eq in Heof.
    rewrite (dec64_app_full g bs) by done. rewrite dec64_small; [done|]. pose proof (zlen_nonneg q). lia.
Qed.

Lemma decoding_init : decoding EVP_DecodeInit [] [].
Proof. exists [], [], (zrep 48 0). repeat split; try done. constructor. Qed.
