(* ===== verification/Base64Thms.v ===== *)
(** Theorems about [Base64]: what the block and the streaming functions write is
    the encoding of RFC 4648, whatever the calls the text is cut into, and
    the decoders accept exactly the encodings. *)
From S2P Require Import Prelude Ct Base64 Base64Facts.

(** * The streaming functions on a sequence of calls *)

(** EVP_EncodeUpdate on each of the chunks, then EVP_EncodeFinal, the output of
    each call behind that of the one before; the number of characters written. *)
Fixpoint encode_calls (out : Z) (chunks : list (list Z)) : M io Z :=
  match chunks with
  | [] => n ← EVP_EncodeFinal out; mret (out + n)
  | c :: chunks => n ← EVP_EncodeUpdate out (P c) (zlen c); encode_calls (out + n) chunks
  end.

(** EVP_DecodeUpdate on each of the chunks, then EVP_DecodeFinal. *)
Fixpoint decode_calls (out : Z) (chunks : list (list Z)) : M io Z :=
  match chunks with
  | [] => EVP_DecodeFinal;; mret out
  | c :: chunks => '(_, n) ← EVP_DecodeUpdate out (P c) (zlen c); decode_calls (out + n) chunks
  end.

(** The text of whole lines and of the rest, and the NUL behind a text. *)
Definition text (cs : list (list Z)) (r : list Z) : list Z := lines cs ++ last_line r.
Definition ending (t : list Z) : list Z := match t with [] => [] | _ => [0] end.

Lemma nul_ending cs : nul cs = ending (lines cs).
Proof. destruct cs as [|c cs]; [done|]. unfold lines, line. cbn. by destruct (enc64 c). Qed.

Lemma cut_unique d cs1 r1 cs2 r2 : cut d cs1 r1 -> cut d cs2 r2 -> cs1 = cs2 /\ r1 = r2.
Proof.
  revert d cs2. induction cs1 as [|c cs1 IH]; intros d cs2 H1 H2.
  - destruct H1 as (-> & _ & Hr). cbn in H2. by destruct (cut_small _ _ _ H2 Hr) as [-> ->].
  - destruct H1 as (-> & Hcs & Hr). apply Forall_cons in Hcs as [Hc Hcs]. cbn [concat] in H2. rewrite <- app_assoc in H2.
    destruct (cut_large _ _ _ _ H2 Hc) as (cs' & -> & H2'). destruct (IH (concat cs1 ++ r1) cs') as [-> ->]; [by split_and!|done|done].
Qed.

Lemma cut_app d1 cs1 r1 d2 cs2 r2 : cut d1 cs1 r1 -> cut (r1 ++ d2) cs2 r2 -> cut (d1 ++ d2) (cs1 ++ cs2) r2.
Proof.
  intros (-> & H1 & _) (Heq & H2 & Hr). split_and!; [|by apply Forall_app|done]. by rewrite <- app_assoc, Heq, concat_app, app_assoc.
Qed.

Lemma encode_calls_spec chunks ctx r cs r' out (s : io) :
  s.1 = ctx -> buffered ctx r -> Forall bytes chunks -> cut (r ++ concat chunks) cs r' -> zlen s.2 < 2 ^ 62 ->
  zlen (text cs r') <= INT_MAX -> room s.2 out (zlen (text cs r') + 1) ->
  wp (encode_calls out chunks)
    (fun n s' => n = out + zlen (text cs r') /\ s'.2 = put_at s.2 out (text cs r' ++ ending (text cs r'))) (fun _ => False) s.
Proof.
  revert ctx r cs out s. induction chunks as [|x chunks IH]; intros ctx r cs out s Hs Hb Hx Hcut Hbig Hmax Hroom; cbn [encode_calls].
  - rewrite app_nil_r in Hcut. destruct (cut_small _ _ _ Hcut) as [-> ->]; [by destruct Hb as (_ & ? & _)|]. unfold text in *. cbn [lines fmap list_fmap concat app] in *.
    apply wp_bind. wp_call EVP_EncodeFinal_spec; [exact Hs|exact Hb|done| |done]. intros n s' (-> & _ & Hbuf). apply wp_ret. split; [done|].
    rewrite Hbuf. f_equal. destruct r as [|b r]; [done|]. unfold last_line. f_equal. by destruct (enc64 (b :: r)).
  - apply Forall_cons in Hx as [Hx Hxs]. cbn [concat] in Hcut.
    destruct (cut_exists (r ++ x)) as (cs1 & r1 & Hcut1), (cut_exists (r1 ++ concat chunks)) as (cs2 & r2 & Hcut2).
    rewrite app_assoc in Hcut. destruct (cut_unique _ _ _ _ _ Hcut (cut_app _ _ _ _ _ _ Hcut1 Hcut2)) as [-> <-].
    assert (Htext : text (cs1 ++ cs2) r' = lines cs1 ++ text cs2 r') by (unfold text; by rewrite lines_app, app_assoc).
    rewrite Htext, zlen_app in *. pose proof (zlen_nonneg (lines cs1)). pose proof (zlen_nonneg (text cs2 r')). pose proof Hroom as (Ho & _ & Hr).
    pose proof (zlen_nul cs1) as Hnul.
    pose proof (EVP_EncodeUpdate_spec ctx r x [] cs1 r1 out s) as Hup. rewrite app_nil_r in Hup.
    apply wp_bind. wp_call Hup; [done|done|done|done|done|unfold room; lia| |done]. intros n s1 (-> & Hb1 & Hbuf1).
    rewrite (proj2 (Z.ltb_ge _ _)) by lia.
    assert (Hn : zlen (lines cs1 ++ nul cs1) <= zlen (lines cs1) + 1) by (rewrite zlen_app; lia).
    assert (Hz1 : zlen s1.2 = zlen s.2).
    { rewrite Hbuf1, zlen_put_at; [done|]. unfold room. pose proof (zlen_nonneg (lines cs1 ++ nul cs1)). lia. }
    wp_call (IH s1.1 r1 cs2); [done|done|done|done|lia|lia|unfold room; lia| |done].
    intros n s2 (-> & Hbuf2). split; [lia|]. rewrite Hbuf2, Hbuf1. destruct (text cs2 r') as [|t ts] eqn:Et.
    + cbn [ending app]. rewrite put_at_nil, app_nil_r, nul_ending by lia. done.
    + rewrite <- Et in *. assert (He : ending (text cs2 r') = [0]) by (by rewrite Et).
      assert (He' : ending (lines cs1 ++ text cs2 r') = [0]) by (by rewrite Et; destruct (lines cs1)).
      rewrite He, He', <- app_assoc. apply put_at_over; rewrite zlen_app; change (zlen [0]) with 1; [unfold room|]; lia.
Qed.

Lemma decode_calls_spec chunks d bs out (s : io) :
  decoding s.1 d bs -> Forall bytes chunks ->
  room s.2 out (out_room d (zlen (solid (concat chunks)))) -> out_room d (zlen (solid (concat chunks))) <= INT_MAX ->
  wp (decode_calls out chunks)
    (fun n s' => exists b, dec64 (d ++ solid (concat chunks)) = Some (bs ++ b) /\ n = out + zlen b /\ s'.2 = put_at s.2 out b /\
       zlen b <= out_room d (zlen (solid (concat chunks))))
    (fun s' => dec64 (d ++ solid (concat chunks)) = None) s.
Proof.
  revert d bs out s. induction chunks as [|x chunks IH]; intros d bs out s Hdec Hx Hroom Hmax; cbn [decode_calls concat].
  - change (solid []) with (@nil Z). rewrite app_nil_r. apply wp_bind. wp_call EVP_DecodeFinal_spec; [exact Hdec| |by intros s' [_ ?]].
    intros [] s' [-> Hd]. apply wp_ret. exists []. rewrite app_nil_r, put_at_nil by apply Hroom. change (zlen []) with 0.
    rewrite Z.add_0_r. split_and!; [done..|apply Hroom].
  - apply Forall_cons in Hx as [Hx Hxs]. cbn [concat] in *. rewrite solid_app, zlen_app in *. destruct Hroom as (Ho & _ & Hr).
    pose proof (zlen_nonneg (solid x)). pose proof (zlen_nonneg (solid (concat chunks))).
    pose proof (EVP_DecodeUpdate_spec x [] out d bs s Hdec Hx) as Hup. rewrite app_nil_r in Hup.
    assert (out_room d (zlen (solid x)) <= out_room d (zlen (solid x) + zlen (solid (concat chunks))) /\ 0 <= out_room d (zlen (solid x))) by (unfold out_room; dlia).
    apply wp_bind. wp_call Hup; [unfold room; lia|lia| |].
    2: { intros s' [Hdead _]. rewrite app_assoc. apply Hdead. }
    intros [v n] s1 (b & [= -> ->] & Hdec1 & Hbuf1 & Hb). pose proof (zlen_nonneg b).
    assert (out_room (d ++ solid x) (zlen (solid (concat chunks))) + out_room d (zlen (solid x)) <= out_room d (zlen (solid x) + zlen (solid (concat chunks))) /\
       0 <= out_room (d ++ solid x) (zlen (solid (concat chunks)))) as [Hor1 Hor2] by (unfold out_room; rewrite zlen_app; dlia).
    wp_call (IH (d ++ solid x) (bs ++ b)); [done|done| |lia| |].
    + rewrite Hbuf1. apply room_put_at; unfold room; lia.
    + intros n s2 (b2 & E & -> & Hbuf2 & Hb2). exists (b ++ b2). rewrite app_assoc, E, <- app_assoc, zlen_app. split_and!; [done|lia| |lia].
      rewrite Hbuf2, Hbuf1. pose proof (zlen_nonneg b2).
      apply put_at_app. unfold room. lia.
    + intros s2 E. by rewrite app_assoc.
Qed.

Section Theorems.

(** C31. However the input is cut into calls of EVP_EncodeUpdate, the calls and
    EVP_EncodeFinal write the same text: the encodings of the runs of 48 bytes, each
    with a newline, and of the rest (if there is one), with a newline, and a NUL behind
    it, and return the number of characters (the text being at most INT_MAX long). *)
Theorem EVP_Encode_streams chunks cs r out (s : io) :
  s.1 = EVP_EncodeInit -> Forall bytes chunks -> cut (concat chunks) cs r -> zlen s.2 < 2 ^ 62 ->
  zlen (text cs r) <= INT_MAX -> room s.2 out (zlen (text cs r) + 1) ->
  wp (encode_calls out chunks)
    (fun n s' => n = out + zlen (text cs r) /\ s'.2 = put_at s.2 out (text cs r ++ ending (text cs r))) (fun _ => False) s.
Proof.
  intros Hs Hx Hcut Hbig Hmax Hroom. apply (encode_calls_spec chunks EVP_EncodeInit []); try done.
  unfold buffered. cbn. split_and!; try done; [constructor|]. by exists (zrep 48 0).
Qed.
Lemma EVP_Encode_streams_witness :
  let t := text [zrep 40 65 ++ [66; 67] ++ zrep 6 68] (zrep 4 68) in
  exists n s', encode_calls 0 [zrep 40 65; [66; 67]; zrep 10 68] (EVP_EncodeInit, zrep 100 0) = Ok n s' /\
    n = 0 + zlen t /\ s'.2 = put_at (zrep 100 0) 0 (t ++ ending t).
Proof.
  intros t. assert (E : exists n s', encode_calls 0 [zrep 40 65; [66; 67]; zrep 10 68] (EVP_EncodeInit, zrep 100 0) = Ok n s')
    by (eexists _, _; vm_compute; reflexivity).
  destruct E as (n & s' & E). exists n, s'. split; [exact E|].
  refine (wp_ok _ _ _ _ _ _ (EVP_Encode_streams [zrep 40 65; [66; 67]; zrep 10 68] [zrep 40 65 ++ [66; 67] ++ zrep 6 68] (zrep 4 68) 0
    (EVP_EncodeInit, zrep 100 0) eq_refl _ _ _ _ _) E).
  - repeat constructor; done.
  - split_and!; [reflexivity|repeat constructor|done].
  - done.
  - vm_compute. done.
  - split_and!; vm_compute; done.
Defined.

(** C32. However a text is cut into calls of EVP_DecodeUpdate, the calls and
    EVP_DecodeFinal succeed exactly when the text, without its blanks, is an encoding,
    and write the bytes it encodes (room for three bytes per four characters is enough,
    and is taken to be at most INT_MAX). *)
Theorem EVP_Decode_streams chunks out (s : io) :
  s.1 = EVP_DecodeInit -> Forall bytes chunks ->
  room s.2 out (zlen (solid (concat chunks)) / 4 * 3) -> zlen (solid (concat chunks)) / 4 * 3 <= INT_MAX ->
  wp (decode_calls out chunks)
    (fun n s' => exists b, dec64 (solid (concat chunks)) = Some b /\ n = out + zlen b /\ s'.2 = put_at s.2 out b)
    (fun s' => dec64 (solid (concat chunks)) = None) s.
Proof.
  intros Hs Hx Hr Hmax. wp_call (decode_calls_spec chunks [] []); [rewrite Hs; apply decoding_init|done|done|done| |done].
  intros n s' (b & E & Hn & Hb & _). by exists b.
Qed.
Lemma EVP_Decode_streams_witness :
  exists n s', decode_calls 1 [[81; 85; 10]; [74; 32; 68; 81]; [81; 61; 61; 10]] (EVP_DecodeInit, zrep 10 0) = Ok n s' /\
    exists b, dec64 [81; 85; 74; 68; 81; 81; 61; 61] = Some b /\ n = 1 + zlen b /\ s'.2 = put_at (zrep 10 0) 1 b.
Proof.
  assert (E : exists n s', decode_calls 1 [[81; 85; 10]; [74; 32; 68; 81]; [81; 61; 61; 10]] (EVP_DecodeInit, zrep 10 0) = Ok n s')
    by (eexists _, _; vm_compute; reflexivity).
  destruct E as (n & s' & E). exists n, s'. split; [exact E|].
  refine (wp_ok _ _ _ _ _ _ (EVP_Decode_streams [[81; 85; 10]; [74; 32; 68; 81]; [81; 61; 61; 10]] 1 (EVP_DecodeInit, zrep 10 0) eq_refl _ _ _) E).
  - repeat constructor; done.
  - split_and!; vm_compute; done.
  - vm_compute. done.
Defined.

(** A block round-trips: EVP_EncodeBlock writes the encoding and a NUL, and
    from its text EVP_DecodeBase64 gets the bytes back, EVP_DecodeBlock the bytes and zeros up to
    a multiple of three. *)
Theorem EVP_block_roundtrip x buf out max_out :
  bytes x -> zlen x < 2 ^ 30 -> zlen (enc64 x) + 1 <= zlen buf -> (zlen x + 2) / 3 * 3 <= zlen out -> (zlen x + 2) / 3 * 3 <= max_out ->
  wp (EVP_EncodeBlock 0 (P x) (zlen x))
    (fun n buf' => n = 4 * ((zlen x + 2) / 3) /\ zget buf' n = Some 0 /\
       wp (EVP_DecodeBase64 0 max_out (P buf') n) (fun m out' => m = zlen x /\ ztake m out' = x) (fun _ => False) out /\
       wp (EVP_DecodeBlock 0 (P buf') n) (fun m out' => m = (zlen x + 2) / 3 * 3 /\ ztake m out' = x ++ zrep (m - zlen x) 0) (fun _ => False) out)
    (fun _ => False) buf.
Proof.
  intros Hx Hbig Hbuf Hout Hmax. pose proof (zlen_nonneg x) as Hx0. pose proof (zlen_enc64 x) as Hz. pose proof (enc64_solid x) as Hsol.
  assert (Hdiv : zlen (enc64 x) / 4 * 3 = (zlen x + 2) / 3 * 3) by dlia. assert (0 <= (zlen x + 2) / 3 * 3) by dlia.
  assert (Hby : bytes (enc64 x)) by (eapply Forall_impl; [exact Hsol|]; by intros c [_ ?]).
  pose proof (EVP_EncodeBlock_spec x [] 0 buf Hx) as He. rewrite app_nil_r in He.
  wp_call He; [unfold room; lia| |done]. intros n buf' [-> ->]. unfold put_at. rewrite ztake_0, <- app_assoc. cbn [app].
  split_and!; [done|by apply zget_middle|..].
  - wp_call EVP_DecodeBase64_spec; [done|dlia|unfold room; lia| |].
    + intros m o (bs & _ & _ & E & -> & ->). rewrite dec64_enc64 in E by done. injection E as <-. split; [done|].
      rewrite <- (zdrop_0 (put_at out 0 x)). apply put_at_read. unfold room. dlia.
    + intros o [Hm|[Hm|Hm]]; [dlia|lia|by rewrite dec64_enc64 in Hm].
  - assert (Hd : dec_block (enc64 x) = Some (x ++ zrep ((zlen x + 2) / 3 * 3 - zlen x) 0)).
    { unfold dec_block. by rewrite trim_solid, dec64_enc64, Hdiv. }
    wp_call EVP_DecodeBlock_spec; [done|dlia|rewrite trim_solid by done; unfold room; lia| |].
    + intros m o (bs & _ & E & -> & ->). rewrite Hd in E. injection E as <-.
      assert (zlen (x ++ zrep ((zlen x + 2) / 3 * 3 - zlen x) 0) = (zlen x + 2) / 3 * 3) as Hm by (rewrite zlen_app, zlen_zrep; dlia).
      split; [done|]. rewrite <- (zdrop_0 (put_at _ _ _)), put_at_read by (unfold room; lia). by rewrite Hm.
    + intros o [Hm|Hm]; [rewrite trim_solid in Hm by done; unfold INT_MAX in *; dlia|by rewrite Hd in Hm].
Qed.
Lemma EVP_block_roundtrip_witness :
  exists n buf', EVP_EncodeBlock 0 (P [1; 2; 3; 255]) 4 (zrep 12 7) = Ok n buf' /\
    exists m out', EVP_DecodeBase64 0 6 (P buf') n (zrep 8 9) = Ok m out' /\ m = 4 /\ ztake m out' = [1; 2; 3; 255].
Proof.
  eexists _, _. split; [vm_compute; reflexivity|]. eexists _, _. split; [vm_compute; reflexivity|].
  pose proof (EVP_block_roundtrip [1; 2; 3; 255] (zrep 12 7) (zrep 8 9) 6) as H.
  eapply wp_ok in H; [|by repeat constructor|done..|by vm_compute|by vm_compute|vm_compute; reflexivity].
  destruct H as (_ & _ & H & _). eapply wp_ok in H; [exact H|]. vm_compute. reflexivity.
Defined.

(** EVP_DecodeBase64 succeeds on exactly the encodings (unpadded but for the last
    group, no blanks) whose decoded length can be at most [max_out]; EVP_DecodeBlock on the texts that are encodings
    once the blanks around them are gone. Both write only the bytes decoded. *)
Theorem EVP_decode_block_exact x tail out max_out buf :
  bytes x -> zlen x < 2 ^ 63 -> room buf out (zlen x / 4 * 3) ->
  wp (EVP_DecodeBase64 out max_out (P (x ++ tail)) (zlen x))
    (fun n buf' => exists bs, zlen x / 4 * 3 <= max_out /\ dec64 x = Some bs /\ n = zlen bs /\ buf' = put_at buf out bs)
    (fun _ => max_out < zlen x / 4 * 3 \/ dec64 x = None) buf /\
  wp (EVP_DecodeBlock out (P (x ++ tail)) (zlen x))
    (fun n buf' => exists bs, zlen (trim x) / 4 * 3 <= INT_MAX /\ dec_block x = Some bs /\ n = zlen bs /\ buf' = put_at buf out bs)
    (fun _ => INT_MAX < zlen (trim x) / 4 * 3 \/ dec_block x = None) buf.
Proof.
  intros Hx Hbig Hr. split.
  - wp_call EVP_DecodeBase64_spec; [done..| |].
    + intros n b (bs & _ & ? & ? & ? & ?). by exists bs.
    + intros b [Hm|H]; [|done]. right. destruct (dec64 x) eqn:E; [|done]. by apply zlen_dec64_bounds in E as [? _].
  - apply EVP_DecodeBlock_spec; [done..|]. pose proof (zlen_trim x) as Ht. destruct Hr as (? & _ & ?). unfold room.
    pose proof (zlen_nonneg (trim x)). assert (0 <= zlen (trim x) / 4 * 3 <= zlen x / 4 * 3) by dlia. lia.
Qed.
Lemma EVP_decode_block_exact_witness :
  exists n buf', EVP_DecodeBlock 1 (P [32; 81; 85; 74; 68; 10; 0]) 6 (zrep 10 0) = Ok n buf' /\
    exists bs, zlen (trim [32; 81; 85; 74; 68; 10]) / 4 * 3 <= INT_MAX /\
      dec_block [32; 81; 85; 74; 68; 10] = Some bs /\ n = zlen bs /\ buf' = put_at (zrep 10 0) 1 bs.
Proof.
  eexists _, _. split; [vm_compute; reflexivity|].
  destruct (EVP_decode_block_exact [32; 81; 85; 74; 68; 10] [0] 1 3 (zrep 10 0)) as [_ H]; [by repeat constructor|done|by vm_compute|].
  eapply wp_ok in H; [exact H|]. vm_compute. reflexivity.
Defined.
End Theorems.
