(* ===== verification/BnWords.v ===== *)
(** crypto/fipsmodule/bn/generic.c: the loops over arrays of 64-bit words, and
    the word-level half of crypto/fipsmodule/bn/mul.c. The state is a collection of
    arrays; a pointer is an array and an offset, so that the operands of a call may
    be one array, overlap, or be apart. The configuration is that of a 64-bit build
    without assembly, with [BN_ULLONG] a 128-bit integer. *)
From S2P Require Import Prelude.

Definition BN_BITS2 : Z := 64.
Definition BN_BYTES : Z := 8.
Definition BN_MASK2 : Z := 0xffffffffffffffff.
Definition u128 (z : Z) : Z := z mod 340282366920938463463374607431768211456.
(** [Lw] and [Hw]: the halves of a double word. *)
Definition Lw (t : Z) : Z := u64 t.
Definition Hw (t : Z) : Z := u64 (Z.shiftr t BN_BITS2).

(** * Arrays of words *)

Abbreviation words := (list (list Z)) (only parsing).
(** [&arr[off]] *)
Definition wptr : Type := nat * Z.
Definition wadd (p : wptr) (i : Z) : wptr := (p.1, p.2 + i).

(** [p[i]] and [p[i] = w] *)
Definition rd (p : wptr) (i : Z) : M words Z :=
  m ← get; l ← deref (m !! p.1); deref (zget l (p.2 + i)).
Definition wr (p : wptr) (i w : Z) : M words unit :=
  m ← get; l ← deref (m !! p.1); l ← deref (zset l (p.2 + i) w); put (<[p.1 := l]> m).

(** * Loops with a carry

    [bn_mul_add_words], [bn_mul_words], [bn_add_words] and [bn_sub_words] have one shape:
    four turns at a time while [n & ~3], then the rest one by one. *)

(** One turn at index [k]: two operand words and the carry give a word of
    the result and the next carry. *)
Definition carry_turn (f : Z -> Z -> Z -> Z * Z) (r a b : wptr) (k c : Z) : M words Z :=
  x ← rd a k; y ← rd b k;
  let '(w, c) := f x y c in
  wr r k w;; mret c.

Definition carry_quads (f : Z -> Z -> Z -> Z * Z) '(r, a, b, n, c)
    : M words (wptr * wptr * wptr * Z * Z + wptr * wptr * wptr * Z * Z) :=
  if negb (Z.land n (Z.lnot 3) =? 0) then
    c ← carry_turn f r a b 0 c;
    c ← carry_turn f r a b 1 c;
    c ← carry_turn f r a b 2 c;
    c ← carry_turn f r a b 3 c;
    mret (inl (wadd r 4, wadd a 4, wadd b 4, n - 4, c))
  else mret (inr (r, a, b, n, c)).

Definition carry_rest (f : Z -> Z -> Z -> Z * Z) '(r, a, b, n, c)
    : M words (wptr * wptr * wptr * Z * Z + Z) :=
  if negb (n =? 0) then
    c ← carry_turn f r a b 0 c;
    mret (inl (wadd r 1, wadd a 1, wadd b 1, n - 1, c))
  else mret (inr c).

Definition carry_loop (f : Z -> Z -> Z -> Z * Z) (r a b : wptr) (n : Z) : M words Z :=
  if n =? 0 then mret 0 else
  st ← iter (S (Z.to_nat n)) (carry_quads f) (r, a, b, n, 0);
  iter (S (Z.to_nat n)) (carry_rest f) st.

(** [mul_add(r, a, w, c)] *)
Definition mul_add (w a r c : Z) : Z * Z :=
  let t := u128 (u128 (u128 (w * a) + r) + c) in (Lw t, Hw t).
Definition bn_mul_add_words (rp ap : wptr) (num w : Z) : M words Z :=
  carry_loop (mul_add w) rp ap rp num.

(** [mul(r, a, w, c)] *)
Definition mul (w a c : Z) : Z * Z :=
  let t := u128 (u128 (w * a) + c) in (Lw t, Hw t).
Definition bn_mul_words (rp ap : wptr) (num w : Z) : M words Z :=
  carry_loop (fun x _ c => mul w x c) rp ap ap num.

Definition add_step (a b ll : Z) : Z * Z :=
  let ll := u128 (ll + u128 (a + b)) in (u64 ll, Z.shiftr ll BN_BITS2).
Definition bn_add_words (r a b : wptr) (n : Z) : M words Z :=
  ll ← carry_loop add_step r a b n; mret (u64 ll).

Definition sub_step (t1 t2 c : Z) : Z * Z :=
  (u64 (u64 (t1 - t2) - c), if negb (t1 =? t2) then b2z (t1 <? t2) else c).
Definition bn_sub_words (r a b : wptr) (n : Z) : M words Z := carry_loop sub_step r a b n.

(** [sqr(r0, r1, a)] *)
Definition sqr (r : wptr) (k : Z) (a : wptr) (i : Z) : M words unit :=
  x ← rd a i;
  let t := u128 (x * x) in
  wr r k (Lw t);; wr r (k + 1) (Hw t).
Definition sqr_quads '(r, a, n) : M words (wptr * wptr * Z + wptr * wptr * Z) :=
  if negb (Z.land n (Z.lnot 3) =? 0) then
    sqr r 0 a 0;; sqr r 2 a 1;; sqr r 4 a 2;; sqr r 6 a 3;;
    mret (inl (wadd r 8, wadd a 4, n - 4))
  else mret (inr (r, a, n)).
Definition sqr_rest '(r, a, n) : M words (wptr * wptr * Z + unit) :=
  if negb (n =? 0) then sqr r 0 a 0;; mret (inl (wadd r 2, wadd a 1, n - 1)) else mret (inr tt).
Definition bn_sqr_words (r a : wptr) (n : Z) : M words unit :=
  if n =? 0 then mret tt else
  st ← iter (S (Z.to_nat n)) sqr_quads (r, a, n);
  iter (S (Z.to_nat n)) sqr_rest st.

(** * Products of four and eight words, column by column *)

(** [mul_add_c(a, b, c0, c1, c2)]: the three words of the accumulator. *)
Definition acc3 : Type := Z * Z * Z.
Definition add_hi (t : Z) '((c0, c1, c2) : acc3) : acc3 :=
  let c0 := Lw t in
  let hi := Hw t in
  let c1 := u64 (c1 + hi) in
  (c0, c1, if c1 <? hi then u64 (c2 + 1) else c2).
Definition mul_add_c (a b : Z) (c : acc3) : acc3 := add_hi (u128 (u128 (a * b) + c.1.1)) c.
Definition mul_add_c2 (a b : Z) (c : acc3) : acc3 :=
  let t := u128 (a * b) in
  let c := add_hi (u128 (t + c.1.1)) c in
  add_hi (u128 (t + c.1.1)) c.

(** A column of a product: the indices of its terms, in the order of the code. *)
Inductive term : Type :=
| Mul (i j : Z)      (* mul_add_c(a[i], b[j], ...) *)
| Sqr (i : Z)        (* sqr_add_c(a, i, ...) *)
| Dbl (i j : Z).     (* sqr_add_c2(a, i, j, ...) *)

Definition add_term (a b : wptr) (t : term) (c : acc3) : M words acc3 :=
  match t with
  | Mul i j => x ← rd a i; y ← rd b j; mret (mul_add_c x y c)
  | Sqr i => x ← rd a i; mret (mul_add_c x x c)
  | Dbl i j => x ← rd a i; y ← rd a j; mret (mul_add_c2 x y c)
  end.
Fixpoint add_terms (a b : wptr) (ts : list term) (c : acc3) : M words acc3 :=
  match ts with [] => mret c | t :: ts => c ← add_term a b t c; add_terms a b ts c end.
(** The columns from [k] on: each is stored, and its word of the accumulator
    becomes the new, zero, high word; the last word is stored behind them. *)
Fixpoint comba (r a b : wptr) (k : Z) (cols : list (list term)) (c : acc3) : M words unit :=
  match cols with
  | [] => wr r k c.1.1
  | ts :: cols =>
      '(c0, c1, c2) ← add_terms a b ts c;
      wr r k c0;;
      comba r a b (k + 1) cols (c1, c2, 0)
  end.

Definition bn_mul_comba8 (r a b : wptr) : M words unit :=
  comba r a b 0
    [ [Mul 0 0];
      [Mul 0 1; Mul 1 0];
      [Mul 2 0; Mul 1 1; Mul 0 2];
      [Mul 0 3; Mul 1 2; Mul 2 1; Mul 3 0];
      [Mul 4 0; Mul 3 1; Mul 2 2; Mul 1 3; Mul 0 4];
      [Mul 0 5; Mul 1 4; Mul 2 3; Mul 3 2; Mul 4 1; Mul 5 0];
      [Mul 6 0; Mul 5 1; Mul 4 2; Mul 3 3; Mul 2 4; Mul 1 5; Mul 0 6];
      [Mul 0 7; Mul 1 6; Mul 2 5; Mul 3 4; Mul 4 3; Mul 5 2; Mul 6 1; Mul 7 0];
      [Mul 7 1; Mul 6 2; Mul 5 3; Mul 4 4; Mul 3 5; Mul 2 6; Mul 1 7];
      [Mul 2 7; Mul 3 6; Mul 4 5; Mul 5 4; Mul 6 3; Mul 7 2];
      [Mul 7 3; Mul 6 4; Mul 5 5; Mul 4 6; Mul 3 7];
      [Mul 4 7; Mul 5 6; Mul 6 5; Mul 7 4];
      [Mul 7 5; Mul 6 6; Mul 5 7];
      [Mul 6 7; Mul 7 6];
      [Mul 7 7] ] (0, 0, 0).

Definition bn_mul_comba4 (r a b : wptr) : M words unit :=
  comba r a b 0
    [ [Mul 0 0];
      [Mul 0 1; Mul 1 0];
      [Mul 2 0; Mul 1 1; Mul 0 2];
      [Mul 0 3; Mul 1 2; Mul 2 1; Mul 3 0];
      [Mul 3 1; Mul 2 2; Mul 1 3];
      [Mul 2 3; Mul 3 2];
      [Mul 3 3] ] (0, 0, 0).

Definition bn_sqr_comba8 (r a : wptr) : M words unit :=
  comba r a a 0
    [ [Sqr 0];
      [Dbl 1 0];
      [Sqr 1; Dbl 2 0];
      [Dbl 3 0; Dbl 2 1];
      [Sqr 2; Dbl 3 1; Dbl 4 0];
      [Dbl 5 0; Dbl 4 1; Dbl 3 2];
      [Sqr 3; Dbl 4 2; Dbl 5 1; Dbl 6 0];
      [Dbl 7 0; Dbl 6 1; Dbl 5 2; Dbl 4 3];
      [Sqr 4; Dbl 5 3; Dbl 6 2; Dbl 7 1];
      [Dbl 7 2; Dbl 6 3; Dbl 5 4];
      [Sqr 5; Dbl 6 4; Dbl 7 3];
      [Dbl 7 4; Dbl 6 5];
      [Sqr 6; Dbl 7 5];
      [Dbl 7 6];
      [Sqr 7] ] (0, 0, 0).

Definition bn_sqr_comba4 (r a : wptr) : M words unit :=
  comba r a a 0
    [ [Sqr 0];
      [Dbl 1 0];
      [Sqr 1; Dbl 2 0];
      [Dbl 3 0; Dbl 2 1];
      [Sqr 2; Dbl 3 1];
      [Dbl 3 2];
      [Sqr 3] ] (0, 0, 0).

(** * Products of any size (mul.c) *)

(** [OPENSSL_memset(p, 0, n * sizeof(BN_ULONG))] *)
Definition wzero (p : wptr) (n : Z) : M words unit :=
  for_ 0 (Z.to_nat n) (fun i _ => wr p i 0) tt.

(** The body of the loop over the words of [b]: [rr], [r], [b] and [nb]. *)
Definition mul_normal_turn (a : wptr) (na : Z) '(rr, r, b, nb) : M words (wptr * wptr * wptr * Z + unit) :=
  let step (k nb : Z) (next : Z -> M words (wptr * wptr * wptr * Z + unit)) :=
    if nb - 1 =? 0 then mret (inr tt) else
    w ← rd b k; c ← bn_mul_add_words (wadd r k) a na w; wr rr k c;;
    next (nb - 1) in
  step 1 nb (fun nb => step 2 nb (fun nb => step 3 nb (fun nb => step 4 nb (fun nb =>
    mret (inl (wadd rr 4, wadd r 4, wadd b 4, nb)))))).

Definition bn_mul_normal (r a : wptr) (na : Z) (b : wptr) (nb : Z) : M words unit :=
  let '(a, na, b, nb) := if na <? nb then (b, nb, a, na) else (a, na, b, nb) in
  let rr := wadd r na in
  if nb =? 0 then wzero r na else
  w ← rd b 0;
  c ← bn_mul_words r a na w;
  wr rr 0 c;;
  iter (S (Z.to_nat nb)) (mul_normal_turn a na) (rr, r, b, nb).

Definition bn_mul_small (r : wptr) (num_r : Z) (a : wptr) (num_a : Z) (b : wptr) (num_b : Z) : M words unit :=
  require (num_r =? num_a + num_b);;
  if (num_a =? 8) && (num_b =? 8) then bn_mul_comba8 r a b else bn_mul_normal r a num_a b num_b.

(** The contribution of [a[i] * a[j]] for [i < j]: the rows from [rp] on. *)
Definition sqr_rows (n : Z) (rp ap : wptr) : M words unit :=
  _ ← for_ 0 (Z.to_nat (n - 2)) (fun k '(rp, ap) =>
    let i := n - 2 - k in
    let ap := wadd ap 1 in
    w ← rd ap (-1); c ← bn_mul_add_words rp ap i w; wr rp i c;;
    mret (wadd rp 2, ap)) (rp, ap);
  mret tt.

Definition bn_sqr_normal (r a : wptr) (n : Z) (tmp : wptr) : M words unit :=
  if n =? 0 then mret tt else
  let max := n * 2 in
  wr r (max - 1) 0;; wr r 0 0;;
  let rp := wadd r 1 in
  '(rp, ap) ← (if 1 <? n then
      let ap := wadd a 1 in
      w ← rd ap (-1); c ← bn_mul_words rp ap (n - 1) w; wr rp (n - 1) c;;
      mret (wadd rp 2, ap)
    else mret (rp, a));
  (if 2 <? n then sqr_rows n rp ap else mret tt);;
  bn_add_words r r r max;;
  bn_sqr_words tmp a n;;
  bn_add_words r r tmp max;;
  mret tt.
