(* ===== verification/BnWordsFacts.v ===== *)
(** Facts about [BnWords]: arrays of words as numbers, what the loops write, and the
    numbers they compute. *)
From S2P Require Import Prelude BnWords.

(** * Words and the numbers they are the digits of *)

Abbreviation BASE := (2 ^ 64) (only parsing).
Definition word (x : Z) : Prop := 0 <= x < BASE.
Definition digits (l : list Z) : Prop := Forall word l.
(** Least significant word first. *)
Fixpoint val (l : list Z) : Z := match l with [] => 0 | x :: l => x + BASE * val l end.

Lemma u64_mod z : u64 z = z mod BASE.
Proof. done. Qed.
Lemma u64_word z : word (u64 z).
Proof. unfold word, u64. apply Z.mod_pos_bound. lia. Qed.
Lemma u64_id z : word z -> u64 z = z.
Proof. apply Z.mod_small. Qed.
#[export] Hint Resolve u64_word : zlist.

Lemma B_pow n : 0 <= n -> BASE ^ (n + 1) = BASE * BASE ^ n.
Proof. intros. rewrite Z.pow_add_r by lia. lia. Qed.
Lemma B_pow_pos n : 0 < BASE ^ n \/ n < 0.
Proof. destruct (Z.lt_ge_cases n 0); [by right|left; apply Z.pow_pos_nonneg; lia]. Qed.

Lemma val_cons x l : val (x :: l) = x + BASE * val l.
Proof. done. Qed.
Lemma val_app l1 l2 : val (l1 ++ l2) = val l1 + BASE ^ zlen l1 * val l2.
Proof.
  induction l1 as [|x l1 IH]; cbn [app val].
  - change (BASE ^ zlen []) with 1. lia.
  - rewrite IH, zlen_cons, (Z.add_comm 1), B_pow by apply zlen_nonneg. lia.
Qed.
Lemma val_snoc l x : val (l ++ [x]) = val l + BASE ^ zlen l * x.
Proof. rewrite val_app. cbn [val]. f_equal. lia. Qed.
Lemma val_range l : digits l -> 0 <= val l < BASE ^ zlen l.
Proof.
  induction 1 as [|x l Hx _ IH]; [change (BASE ^ zlen []) with 1; cbn; lia|]. unfold word in Hx.
  rewrite zlen_cons, (Z.add_comm 1), B_pow by apply zlen_nonneg. cbn [val]. lia.
Qed.
Lemma val_zrep n : val (zrep n 0) = 0.
Proof. unfold zrep. induction (Z.to_nat n) as [|k IH]; cbn [replicate val]; lia. Qed.
Lemma val_split k l : 0 <= k <= zlen l -> val l = val (ztake k l) + BASE ^ k * val (zdrop k l).
Proof. intros. rewrite <- (ztake_zdrop k l) at 1. rewrite val_app, zlen_ztake by done. done. Qed.

Lemma digits_app l1 l2 : digits (l1 ++ l2) <-> digits l1 /\ digits l2.
Proof. apply Forall_app. Qed.
Lemma digits_snoc l x : digits l -> word x -> digits (l ++ [x]).
Proof. intros. apply digits_app. split; [done|by constructor]. Qed.
Lemma digits_ztake n l : digits l -> digits (ztake n l).
Proof. apply Forall_take. Qed.
Lemma digits_zdrop n l : digits l -> digits (zdrop n l).
Proof. apply Forall_drop. Qed.
Lemma digits_zget l i x : digits l -> zget l i = Some x -> word x.
Proof. unfold zget. destruct (0 <=? i); [|done]. intros Hl Hx. by apply (Forall_lookup_1 _ _ _ _ Hl Hx). Qed.
#[export] Hint Resolve digits_ztake digits_zdrop digits_snoc : zlist.

(** The digits of a number are unique. *)
Lemma val_inj l1 l2 : digits l1 -> digits l2 -> zlen l1 = zlen l2 -> val l1 = val l2 -> l1 = l2.
Proof.
  intros H1. revert l2. induction H1 as [|x l1 Hx _ IH]; intros l2 H2 Hlen Hval.
  - symmetry. apply zlen_0. by rewrite <- Hlen.
  - destruct (zlen_cons_inv _ _ _ Hlen) as (y & l2' & -> & Hlen'). apply Forall_cons in H2 as [Hy H2]. cbn [val] in Hval. unfold word in *.
    assert (x = y) as -> by (apply (f_equal (fun z => z mod BASE)) in Hval; rewrite !(Z.mul_comm BASE), !Z.mod_add, !Z.mod_small in Hval by lia; done).
    f_equal. apply IH; [done|done|lia].
Qed.

(** * Pointers into arrays *)

Lemma wadd_0 p : wadd p 0 = p.
Proof. destruct p. unfold wadd. cbn. by rewrite Z.add_0_r. Qed.
Lemma wadd_wadd p i j : wadd (wadd p i) j = wadd p (i + j).
Proof. unfold wadd. cbn. by rewrite Z.add_assoc. Qed.

(** The words [l] are at [p]. *)
Definition at_ (m : words) (p : wptr) (l : list Z) : Prop :=
  exists arr, m !! p.1 = Some arr /\ 0 <= p.2 /\ p.2 + zlen l <= zlen arr /\ ztake (zlen l) (zdrop p.2 arr) = l.
(** [n] words may be stored at [p]. *)
Definition writable (m : words) (p : wptr) (n : Z) : Prop := exists arr, m !! p.1 = Some arr /\ room arr p.2 n.
(** The memory with the words [l] at [p]. *)
Definition wput (m : words) (p : wptr) (l : list Z) : words := <[p.1 := put_at (default [] (m !! p.1)) p.2 l]> m.

Lemma at_writable m p l : at_ m p l -> writable m p (zlen l).
Proof. intros (arr & Hm & H0 & H1 & _). exists arr. pose proof (zlen_nonneg l). split; [done|]. unfold room. lia. Qed.
Lemma writable_sub m p n i k : writable m p n -> 0 <= i -> 0 <= k -> i + k <= n -> writable m (wadd p i) k.
Proof. intros (arr & Hm & H0 & H1 & H2) ? ? ?. exists arr. split; [done|]. unfold room. cbn. lia. Qed.
Lemma at_sub m p l i k : at_ m p l -> 0 <= i -> 0 <= k -> i + k <= zlen l -> at_ m (wadd p i) (ztake k (zdrop i l)).
Proof.
  intros (arr & Hm & H0 & H1 & H2) Hi Hk Hik. exists arr. cbn. assert (zlen (ztake k (zdrop i l)) = k) as ->.
  { rewrite zlen_ztake; [done|]. rewrite zlen_zdrop; lia. }
  split_and!; [done|lia|lia|]. rewrite <- H2 at 1. unfold ztake, zdrop. rewrite skipn_firstn_comm, take_take, drop_drop.
  replace (Z.to_nat (p.2 + i)) with (Z.to_nat p.2 + Z.to_nat i)%nat by lia. f_equal. lia.
Qed.
Lemma at_drop m p l i : at_ m p l -> 0 <= i <= zlen l -> at_ m (wadd p i) (zdrop i l).
Proof.
  intros Hl Hi. assert (E : zdrop i l = ztake (zlen l - i) (zdrop i l)).
  { rewrite <- (ztake_all (zdrop i l)) at 1. by rewrite zlen_zdrop. }
  rewrite E. apply at_sub; [done|lia..].
Qed.
Lemma at_take m p l k : at_ m p l -> 0 <= k <= zlen l -> at_ m p (ztake k l).
Proof. intros Hl Hk. rewrite <- (wadd_0 p), <- (zdrop_0 l). apply at_sub; [done|lia..]. Qed.

Lemma wput_writable m p l q n : writable m p (zlen l) -> writable m q n -> writable (wput m p l) q n.
Proof.
  intros (arr & Hm & Hr) (arr' & Hm' & Hr'). unfold writable, wput. rewrite Hm. cbn. destruct (decide (q.1 = p.1)) as [E|E].
  - rewrite E. rewrite list_lookup_insert_eq by (by eapply lookup_lt_Some). eexists. split; [done|]. rewrite E in Hm'. simplify_eq.
    by apply room_put_at.
  - rewrite list_lookup_insert_ne by done. by exists arr'.
Qed.
Lemma wput_at m p l : writable m p (zlen l) -> at_ (wput m p l) p l.
Proof.
  intros (arr & Hm & Hr). unfold wput. rewrite Hm. cbn. exists (put_at arr p.2 l).
  rewrite list_lookup_insert_eq by (by eapply lookup_lt_Some). destruct Hr as (H0 & H1 & H2). rewrite zlen_put_at by (unfold room; lia).
  split_and!; [done|lia|lia|]. apply put_at_read. unfold room. lia.
Qed.
(** What is read apart from what was stored. *)
Definition apart (p : wptr) (n : Z) (q : wptr) (k : Z) : Prop := p.1 <> q.1 \/ p.2 + n <= q.2 \/ q.2 + k <= p.2.
Lemma wput_apart m p l q k : writable m p (zlen l) -> at_ m q k -> apart p (zlen l) q (zlen k) -> at_ (wput m p l) q k.
Proof.
  intros (arr & Hm & (H0 & H1 & H2)) (arr' & Hm' & H0' & H1' & Heq) Hap. unfold wput. rewrite Hm. cbn.
  destruct (decide (q.1 = p.1)) as [E|E].
  - rewrite E in Hm'. simplify_eq. exists (put_at arr p.2 l). rewrite E, list_lookup_insert_eq by (by eapply lookup_lt_Some).
    rewrite zlen_put_at by (unfold room; lia). split_and!; [done|lia|lia|]. pose proof (zlen_nonneg k). pose proof (zlen_nonneg l).
    rewrite <- Heq at 2. unfold put_at. destruct Hap as [?|[Hap|Hap]]; [congruence|..].
    + f_equal. rewrite zdrop_app_ge, zdrop_app_ge, zdrop_zdrop by (rewrite ?zlen_ztake; lia). f_equal. rewrite zlen_ztake by lia. lia.
    + rewrite zdrop_app_le by (rewrite zlen_ztake; lia). rewrite ztake_app_le by (rewrite zlen_zdrop, zlen_ztake by (rewrite ?zlen_ztake; lia); lia).
      unfold ztake, zdrop. rewrite skipn_firstn_comm, take_take. f_equal. lia.
  - exists arr'. rewrite list_lookup_insert_ne by done. done.
Qed.
Lemma wput_app m p l1 l2 :
  writable m p (zlen l1 + zlen l2) -> wput (wput m p l1) (wadd p (zlen l1)) l2 = wput m p (l1 ++ l2).
Proof.
  intros (arr & Hm & Hr). unfold wput. cbn. rewrite Hm. cbn. rewrite list_lookup_insert_eq by (by eapply lookup_lt_Some). cbn.
  rewrite list_insert_insert_eq. f_equal. by apply put_at_app.
Qed.
Lemma wput_nil m p : writable m p 0 -> wput m p [] = m.
Proof.
  intros (arr & Hm & Hr). unfold wput. rewrite Hm. cbn. rewrite put_at_nil by apply Hr. by apply list_insert_id.
Qed.
Lemma length_wput m p l : length (wput m p l) = length m.
Proof. apply length_insert. Qed.

Lemma rd_wadd p j i : rd (wadd p j) i = rd p (j + i).
Proof. unfold rd, wadd. cbn. by rewrite Z.add_assoc. Qed.
Lemma wr_wadd p j i w : wr (wadd p j) i w = wr p (j + i) w.
Proof. unfold wr, wadd. cbn. by rewrite Z.add_assoc. Qed.
Lemma rd_spec m p l i x : at_ m p l -> zget l i = Some x -> wp (rd p i) (fun y m' => y = x /\ m' = m) (fun _ => False) m.
Proof.
  intros (arr & Hm & H0 & H1 & H2) Hi. unfold rd. apply wp_bind, wp_get, wp_bind. eapply wp_deref; [exact Hm|].
  apply (wp_deref _ x); [|done]. pose proof (zget_Some _ _ _ Hi) as Hb. rewrite <- H2 in Hi. unfold zget in *.
  destruct (Z.leb_spec 0 i); [|lia]. rewrite (proj2 (Z.leb_le _ _)) by lia. unfold ztake, zdrop in Hi.
  rewrite lookup_take_lt in Hi by lia. rewrite lookup_drop in Hi.
  by replace (Z.to_nat (p.2 + i)) with (Z.to_nat p.2 + Z.to_nat i)%nat by lia.
Qed.
Lemma wr_spec m p i x : writable m (wadd p i) 1 -> wp (wr p i x) (fun _ m' => m' = wput m (wadd p i) [x]) (fun _ => False) m.
Proof.
  intros (arr & Hm & Hr). unfold wr. apply wp_bind, wp_get, wp_bind. eapply wp_deref; [exact Hm|]. apply wp_bind.
  eapply wp_deref; [by apply zset_put_at|]. apply wp_put. unfold wput. cbn in *. by rewrite Hm.
Qed.

(** * The loops with a carry *)

Fixpoint carry_fold (f : Z -> Z -> Z -> Z * Z) (la lb : list Z) (c : Z) : list Z * Z :=
  match la, lb with
  | x :: la, y :: lb => let '(w, c) := f x y c in let '(ws, c) := carry_fold f la lb c in (w :: ws, c)
  | _, _ => ([], c)
  end.

Lemma carry_fold_snoc f la lb x y c :
  zlen la = zlen lb ->
  carry_fold f (la ++ [x]) (lb ++ [y]) c =
    let '(ws, c1) := carry_fold f la lb c in let '(w, c2) := f x y c1 in (ws ++ [w], c2).
Proof.
  revert lb c. induction la as [|a la IH]; intros lb c Hlen.
  - symmetry in Hlen. apply zlen_0 in Hlen as ->. cbn. by destruct (f x y c).
  - destruct (zlen_cons_inv _ _ _ Hlen) as (b & lb' & -> & Hlen'). cbn [app carry_fold]. destruct (f a b c) as [w c1]. rewrite IH by done.
    destruct (carry_fold f la lb' c1) as [ws c2]. by destruct (f x y c2).
Qed.
Lemma zlen_carry_fold f la lb c : zlen la = zlen lb -> zlen (carry_fold f la lb c).1 = zlen la.
Proof.
  revert lb c. induction la as [|a la IH]; intros lb c Hlen; [done|].
  destruct (zlen_cons_inv _ _ _ Hlen) as (b & lb' & -> & Hlen'). rewrite !zlen_cons in *. cbn [carry_fold].
  destruct (f a b c) as [w c1]. specialize (IH lb' c1 Hlen'). destruct (carry_fold f la lb' c1) as [ws c2]. cbn [fst] in *. rewrite zlen_cons. lia.
Qed.

(** A step whose word and carry are the sum [g x y] (with [s = 1]), or the
    difference ([s = -1]), of the operands and the carry. *)
Definition step_is (s : Z) (f : Z -> Z -> Z -> Z * Z) (g : Z -> Z -> Z) (carry : Z -> Prop) : Prop :=
  forall x y c, word x -> word y -> carry c ->
    word (f x y c).1 /\ carry (f x y c).2 /\ (f x y c).1 + s * BASE * (f x y c).2 = g x y + s * c.

Lemma carry_fold_val s f g carry la lb c :
  step_is s f g carry -> digits la -> digits lb -> carry c -> zlen la = zlen lb ->
  digits (carry_fold f la lb c).1 /\ carry (carry_fold f la lb c).2 /\
    val (carry_fold f la lb c).1 + s * BASE ^ zlen la * (carry_fold f la lb c).2 = val (zip_with g la lb) + s * c.
Proof.
  intros Hf Ha. revert lb c. induction Ha as [|x la Hx Ha IH]; intros lb c Hb Hc Hlen.
  - cbn. change (BASE ^ zlen []) with 1. split_and!; [constructor|done|lia].
  - destruct (zlen_cons_inv _ _ _ Hlen) as (y & lb' & -> & Hlen'). apply Forall_cons in Hb as [Hy Hb]. destruct (Hf x y c Hx Hy Hc) as (H1 & H2 & H3). cbn [carry_fold zip_with].
    destruct (f x y c) as [w c1]. cbn [fst snd] in *. destruct (IH lb' c1 Hb H2 Hlen') as (H4 & H5 & H6).
    destruct (carry_fold f la lb' c1) as [ws c2]. cbn [fst snd val] in *. split_and!; [by constructor|done|].
    rewrite zlen_cons, (Z.add_comm 1), B_pow by apply zlen_nonneg. nia.
Qed.

(** [a] may be read while [r] is written from the front: it is the same
    run, or starts behind it, or ends before it. *)
Definition ahead (r : wptr) (n : Z) (a : wptr) : Prop := r.1 <> a.1 \/ r.2 <= a.2 \/ a.2 + n <= r.2.
Lemma ahead_refl r n : ahead r n r.
Proof. right. left. lia. Qed.
Lemma apart_ahead r n a k : apart r n a k -> 0 <= n -> 0 <= k -> k <= n -> ahead r k a.
Proof. unfold apart, ahead. intros [|[|]]; auto; lia. Qed.

(** [while (n & ~3)] goes on while four turns are left. *)
Lemma quads_mask n : 0 <= n -> Z.land n (Z.lnot 3) <> 0 -> 4 <= n.
Proof.
  intros Hn H. destruct (Z.lt_ge_cases n 4) as [Hlt|]; [|done]. destruct H.
  assert (Hc : n = 0 \/ n = 1 \/ n = 2 \/ n = 3) by lia. destruct Hc as [Hc|[Hc|[Hc|Hc]]]; subst n; reflexivity.
Qed.

Section CarryLoop.
Variable f : Z -> Z -> Z -> Z * Z.
Variables (m : words) (r a b : wptr) (la lb : list Z).
Hypothesis Hlen : zlen la = zlen lb.
Hypothesis Hr : writable m r (zlen la).
Hypothesis Ha : at_ m a la.
Hypothesis Hb : at_ m b lb.
Hypothesis Hra : ahead r (zlen la) a.
Hypothesis Hrb : ahead r (zlen la) b.

(** After [k] turns. *)
Definition turned (k c : Z) (m' : words) : Prop :=
  0 <= k <= zlen la /\ exists ws, carry_fold f (ztake k la) (ztake k lb) 0 = (ws, c) /\ m' = wput m r ws.

Lemma turned_zlen k ws c : 0 <= k <= zlen la -> carry_fold f (ztake k la) (ztake k lb) 0 = (ws, c) -> zlen ws = k.
Proof.
  intros Hk E. pose proof (zlen_carry_fold f (ztake k la) (ztake k lb) 0) as Hz. rewrite E, !zlen_ztake in Hz by lia. by apply Hz.
Qed.
(** The words not reached yet are as they were. *)
Lemma ahead_read p l k ws i x :
  at_ m p l -> zlen l = zlen la -> ahead r (zlen la) p -> zlen ws = k -> 0 <= k <= i -> zget l i = Some x ->
  wp (rd p i) (fun y m' => y = x /\ m' = wput m r ws) (fun _ => False) (wput m r ws).
Proof.
  intros Hp Hl Hap Hws Hk Hi. pose proof (zget_Some _ _ _ Hi). assert (Hat : at_ (wput m r ws) (wadd p i) (zdrop i l)).
  { apply wput_apart; [|by apply at_drop; [|lia]|].
    - rewrite Hws, <- (wadd_0 r). apply (writable_sub _ _ (zlen la)); [done|lia..].
    - unfold apart. cbn. rewrite zlen_zdrop by lia. destruct Hap as [?|[?|?]]; [by left|right; left; lia|right; right; lia]. }
  rewrite <- (Z.add_0_r i), <- rd_wadd. eapply rd_spec; [exact Hat|]. rewrite (zget_split _ _ _ Hi).
  rewrite zdrop_app by (rewrite zlen_ztake; lia). done.
Qed.

Lemma carry_turn_spec j i c m' :
  turned (j + i) c m' -> 0 <= j -> 0 <= i -> j + i < zlen la ->
  wp (carry_turn f (wadd r j) (wadd a j) (wadd b j) i c) (fun c' => turned (j + i + 1) c') (fun _ => False) m'.
Proof.
  intros (Hk & ws & Hfold & ->) Hj Hi Hlt. pose proof (turned_zlen _ _ _ Hk Hfold) as Hws.
  destruct (zget_lt la (j + i)) as [x Hx]; [lia|]. destruct (zget_lt lb (j + i)) as [y Hy]; [lia|].
  unfold carry_turn. apply wp_bind. rewrite rd_wadd.
  wp_call (ahead_read a la (j + i) ws (j + i) x); [done|done|done|done|lia|done| |done]. intros ? ? [-> ->].
  apply wp_bind. rewrite rd_wadd.
  wp_call (ahead_read b lb (j + i) ws (j + i) y); [done|done|done|done|lia|done| |done]. intros ? ? [-> ->].
  destruct (f x y c) as [w c'] eqn:Ef. apply wp_bind. rewrite wr_wadd. wp_call wr_spec; [| |done].
  - apply (writable_sub _ _ (zlen la)); [apply wput_writable; [|done]|lia..]. rewrite Hws, <- (wadd_0 r). apply (writable_sub _ _ (zlen la)); [done|lia..].
  - intros [] m' ->. apply wp_ret. split; [lia|]. exists (ws ++ [w]). rewrite (ztake_next _ _ _ Hx), (ztake_next _ _ _ Hy).
    rewrite carry_fold_snoc by (rewrite !zlen_ztake; lia). rewrite Hfold, Ef. split; [done|].
    rewrite <- Hws. apply wput_app. rewrite Hws. change (zlen [w]) with 1. rewrite <- (wadd_0 r). apply (writable_sub _ _ (zlen la)); [done|lia..].
Qed.

(** Four turns at a time. *)
Lemma carry_quads_loop fuel c m' j :
  turned j c m' -> zlen la - j < Z.of_nat fuel ->
  wp (iter fuel (carry_quads f) (wadd r j, wadd a j, wadd b j, zlen la - j, c))
    (fun st m' => exists j c, st = (wadd r j, wadd a j, wadd b j, zlen la - j, c) /\ turned j c m') (fun _ => False) m'.
Proof.
  revert c m' j. induction fuel as [|fuel IH]; intros c m' j HI Hf; pose proof HI as (Hj & _); [lia|]. cbn [iter]. apply wp_bind. unfold carry_quads at 1.
  destruct (Z.eqb_spec (Z.land (zlen la - j) (Z.lnot 3)) 0) as [E|E]; cbn [negb].
  { apply wp_ret, wp_ret. by exists j, c. }
  apply quads_mask in E; [|lia].
  apply wp_bind. wp_call (carry_turn_spec j 0); [by rewrite Z.add_0_r|lia|lia|lia| |done]. intros c1 m1 H1.
  apply wp_bind. wp_call (carry_turn_spec j 1); [by rewrite Z.add_0_r in H1|lia|lia|lia| |done]. intros c2 m2 H2.
  apply wp_bind. wp_call (carry_turn_spec j 2); [by replace (j + 2) with (j + 1 + 1) by lia|lia|lia|lia| |done]. intros c3 m3 H3.
  apply wp_bind. wp_call (carry_turn_spec j 3); [by replace (j + 3) with (j + 2 + 1) by lia|lia|lia|lia| |done]. intros c4 m4 H4.
  apply wp_ret. rewrite !wadd_wadd. replace (zlen la - j - 4) with (zlen la - (j + 4)) by lia.
  apply IH; [by replace (j + 4) with (j + 3 + 1) by lia|lia].
Qed.

Lemma carry_rest_loop fuel c m' j :
  turned j c m' -> zlen la - j < Z.of_nat fuel ->
  wp (iter fuel (carry_rest f) (wadd r j, wadd a j, wadd b j, zlen la - j, c))
    (fun c m' => turned (zlen la) c m') (fun _ => False) m'.
Proof.
  revert c m' j. induction fuel as [|fuel IH]; intros c m' j HI Hf; pose proof HI as (Hj & _); [lia|]. cbn [iter]. apply wp_bind. unfold carry_rest at 1.
  destruct (Z.eqb_spec (zlen la - j) 0) as [E|E]; cbn [negb].
  { apply wp_ret, wp_ret. by replace (zlen la) with j by lia. }
  apply wp_bind. wp_call (carry_turn_spec j 0); [by rewrite Z.add_0_r|lia|lia|lia| |done]. intros c1 m1 H1.
  apply wp_ret. rewrite !wadd_wadd. replace (zlen la - j - 1) with (zlen la - (j + 1)) by lia. rewrite Z.add_0_r in H1. apply IH; [done|lia].
Qed.

Lemma carry_loop_spec :
  wp (carry_loop f r a b (zlen la))
    (fun c m' => c = (carry_fold f la lb 0).2 /\ m' = wput m r (carry_fold f la lb 0).1) (fun _ => False) m.
Proof.
  pose proof (zlen_nonneg la). unfold carry_loop. destruct (Z.eqb_spec (zlen la) 0) as [E|E].
  - apply wp_ret. apply zlen_0 in E as El. rewrite El in Hlen. symmetry in Hlen. apply zlen_0 in Hlen. rewrite El. cbn.
    split; [done|]. symmetry. apply wput_nil. by rewrite <- E.
  - assert (H0 : turned 0 0 m).
    { split; [lia|]. exists []. rewrite !ztake_0. split; [done|]. symmetry. apply wput_nil.
      rewrite <- (wadd_0 r). apply (writable_sub _ _ (zlen la)); [done|lia..]. }
    apply wp_bind. pose proof (carry_quads_loop (S (Z.to_nat (zlen la))) 0 m 0 H0) as Hq. rewrite !wadd_0, Z.sub_0_r in Hq.
    wp_call Hq; [lia| |done]. intros st m1 (j & c & -> & H1). pose proof H1 as (Hj & _).
    wp_call carry_rest_loop; [exact H1|lia| |done].
    intros c' m2 (_ & ws & Hfold & ->). rewrite ztake_all in Hfold. rewrite Hlen, ztake_all in Hfold. by rewrite Hfold.
Qed.
End CarryLoop.

(** ** The four loops *)

Definition bit (c : Z) : Prop := 0 <= c <= 1.

Lemma u128_id z : 0 <= z < BASE * BASE -> u128 z = z.
Proof. apply Z.mod_small. Qed.
(** The halves of a double word. *)
Lemma halves t : 0 <= t < BASE * BASE -> word (Lw t) /\ word (Hw t) /\ Lw t + BASE * Hw t = t.
Proof.
  intros Ht. unfold Lw, Hw, word, u64. change 18446744073709551616 with BASE. change BN_BITS2 with 64.
  rewrite Z.shiftr_div_pow2 by lia. assert (0 <= t / BASE < BASE) by (split; [apply Z.div_pos; lia|apply Z.div_lt_upper_bound; lia]).
  rewrite (Z.mod_small (t / BASE)) by lia. pose proof (Z.mod_pos_bound t BASE ltac:(lia)). pose proof (Z.div_mod t BASE ltac:(lia)). lia.
Qed.

Lemma word_mul x y : word x -> word y -> 0 <= x * y <= (BASE - 1) * (BASE - 1).
Proof. unfold word. nia. Qed.

Lemma mul_add_is w : word w -> step_is 1 (mul_add w) (fun x y => w * x + y) word.
Proof.
  intros Hw' x y c Hx Hy Hc. unfold mul_add. pose proof (word_mul w x Hw' Hx). unfold word in Hy, Hc.
  rewrite (u128_id (w * x)), (u128_id (w * x + y)), (u128_id (w * x + y + c)) by lia.
  destruct (halves (w * x + y + c)) as (H1 & H2 & H3); [lia|]. cbn [fst snd]. split_and!; [done|done|lia].
Qed.
Lemma mul_is w : word w -> step_is 1 (fun x _ c => mul w x c) (fun x y => w * x) word.
Proof.
  intros Hw' x y c Hx Hy Hc. unfold mul. pose proof (word_mul w x Hw' Hx). unfold word in Hy, Hc.
  rewrite (u128_id (w * x)), (u128_id (w * x + c)) by lia.
  destruct (halves (w * x + c)) as (H1 & H2 & H3); [lia|]. cbn [fst snd]. split_and!; [done|done|lia].
Qed.
Lemma add_step_is : step_is 1 add_step Z.add bit.
Proof.
  intros x y c Hx Hy Hc. unfold add_step, word, bit in *.
  rewrite (u128_id (x + y)), (u128_id (c + (x + y))) by lia. destruct (halves (c + (x + y))) as (H1 & H2 & H3); [lia|].
  unfold Lw, Hw, word, u64 in *. change BN_BITS2 with 64 in *. rewrite Z.shiftr_div_pow2 in * by lia. cbn [fst snd].
  assert (0 <= (c + (x + y)) / BASE <= 1) by dlia. rewrite (Z.mod_small ((c + (x + y)) / 2 ^ 64)) in H3 by lia. split_and!; lia.
Qed.
Lemma sub_step_is : step_is (-1) sub_step Z.sub bit.
Proof.
  intros x y c Hx Hy Hc. unfold sub_step, word, bit, u64 in *. cbn [fst snd].
  rewrite Zminus_mod_idemp_l. change 18446744073709551616 with BASE. pose proof (Z.mod_pos_bound (x - y - c) BASE ltac:(lia)).
  assert (Hm : forall k, 0 <= x - y - c + k * BASE < BASE -> (x - y - c) mod BASE = x - y - c + k * BASE).
  { intros k Hk. rewrite <- (Z.mod_add _ k) by lia. by apply Z.mod_small. }
  destruct (Z.eqb_spec x y) as [->|Hne]; cbn [negb].
  - split_and!; [lia..|]. assert (c = 0 \/ c = 1) as [->| ->] by lia; [rewrite (Hm 0) by lia|rewrite (Hm 1) by lia]; lia.
  - destruct (Z.ltb_spec x y); cbn [b2z]; [rewrite (Hm 1) by lia|rewrite (Hm 0) by lia]; lia.
Qed.

Lemma val_zip g p q la lb :
  (forall x y, g x y = p * x + q * y) -> zlen la = zlen lb -> val (zip_with g la lb) = p * val la + q * val lb.
Proof.
  intros Hg. revert lb. induction la as [|a la IH]; intros lb Hlen.
  - symmetry in Hlen. apply zlen_0 in Hlen as ->. cbn. lia.
  - destruct (zlen_cons_inv _ _ _ Hlen) as (b & lb' & -> & Hlen'). cbn [zip_with val]. rewrite IH, Hg by done. lia.
Qed.

(** The outcome of a loop: words [ws] at [r], and a carry [c], that make up the number [v]. *)
Definition result (m : words) (r : wptr) (n s : Z) (carry : Z -> Prop) (v : Z) (c : Z) (m' : words) : Prop :=
  exists ws, m' = wput m r ws /\ zlen ws = n /\ digits ws /\ carry c /\ val ws + s * BASE ^ n * c = v.

Lemma carry_loop_result f s g carry p q m r a b la lb n :
  step_is s f g carry -> (forall x y, g x y = p * x + q * y) -> carry 0 ->
  at_ m a la -> at_ m b lb -> digits la -> digits lb -> zlen la = n -> zlen lb = n -> writable m r n -> ahead r n a -> ahead r n b ->
  wp (carry_loop f r a b n) (result m r n s carry (p * val la + q * val lb)) (fun _ => False) m.
Proof.
  intros Hf Hg Hc Ha Hb Hda Hdb <- Hlen Hr Hra Hrb. wp_call (carry_loop_spec f m r a b la lb); [done..| |done].
  intros c m' [-> ->]. destruct (carry_fold_val s f g carry la lb 0 Hf Hda Hdb Hc) as (H1 & H2 & H3); [done|].
  eexists. split_and!; [done|by apply zlen_carry_fold|done|done|]. rewrite H3, (val_zip g p q) by done. lia.
Qed.

Lemma word_0 : word 0.
Proof. unfold word. lia. Qed.
Lemma bit_0 : bit 0.
Proof. unfold bit. lia. Qed.
#[export] Hint Resolve word_0 bit_0 ahead_refl : zlist.

Lemma bn_mul_add_words_spec m r a lr la n w :
  at_ m r lr -> at_ m a la -> digits lr -> digits la -> zlen lr = n -> zlen la = n -> word w -> ahead r n a ->
  wp (bn_mul_add_words r a n w) (result m r n 1 word (w * val la + val lr)) (fun _ => False) m.
Proof.
  intros Hr Ha Hdr Hda Hlr Hla Hw' Hra. replace (w * val la + val lr) with (w * val la + 1 * val lr) by lia.
  eapply carry_loop_result; eauto using mul_add_is with zlist; [intros; cbn; lia|]. rewrite <- Hlr. by apply at_writable.
Qed.
Lemma bn_mul_words_spec m r a la n w :
  at_ m a la -> digits la -> zlen la = n -> word w -> writable m r n -> ahead r n a ->
  wp (bn_mul_words r a n w) (result m r n 1 word (w * val la)) (fun _ => False) m.
Proof.
  intros Ha Hda Hla Hw' Hr Hra. replace (w * val la) with (w * val la + 0 * val la) by lia.
  eapply carry_loop_result; eauto using mul_is with zlist. intros; cbn; lia.
Qed.
Lemma bn_add_words_spec m r a b la lb n :
  at_ m a la -> at_ m b lb -> digits la -> digits lb -> zlen la = n -> zlen lb = n -> writable m r n -> ahead r n a -> ahead r n b ->
  wp (bn_add_words r a b n) (result m r n 1 bit (val la + val lb)) (fun _ => False) m.
Proof.
  intros Ha Hb Hda Hdb Hla Hlb Hr Hra Hrb. unfold bn_add_words. apply wp_bind.
  wp_call (carry_loop_result add_step 1 Z.add bit 1 1 m r a b la lb n); eauto using add_step_is with zlist; [intros; lia|].
  intros c m' (ws & -> & H1 & H2 & H3 & H4). apply wp_ret. rewrite u64_id by (unfold word; unfold bit in H3; lia).
  exists ws. split_and!; try done. lia.
Qed.
Lemma bn_sub_words_spec m r a b la lb n :
  at_ m a la -> at_ m b lb -> digits la -> digits lb -> zlen la = n -> zlen lb = n -> writable m r n -> ahead r n a -> ahead r n b ->
  wp (bn_sub_words r a b n) (result m r n (-1) bit (val la - val lb)) (fun _ => False) m.
Proof.
  intros Ha Hb Hda Hdb Hla Hlb Hr Hra Hrb. replace (val la - val lb) with (1 * val la + (-1) * val lb) by lia.
  eapply carry_loop_result; eauto using sub_step_is with zlist. intros; cbn; lia.
Qed.
