(* ===== verification/BnMulFacts.v ===== *)
(** Facts about the products of [BnWords]: squares of words, the column-wise
    products of four and eight words, and the row-wise product of any size. *)
From S2P Require Import Prelude BnWords BnWordsFacts.

(** * bn_sqr_words *)

(** The squares of the digits, as a number of double words. *)
Fixpoint squares (l : list Z) : Z := match l with [] => 0 | x :: l => x * x + BASE * (BASE * squares l) end.
Lemma squares_snoc l x : squares (l ++ [x]) = squares l + BASE ^ (2 * zlen l) * (x * x).
Proof.
  induction l as [|y l IH]; cbn [app squares]; [change (BASE ^ (2 * zlen [])) with 1; lia|].
  rewrite IH, zlen_cons. replace (2 * (1 + zlen l)) with (2 * zlen l + 1 + 1) by lia. pose proof (zlen_nonneg l). rewrite !B_pow by lia. lia.
Qed.

Section Sqr.
Variables (m : words) (r a : wptr) (la : list Z).
Hypothesis Hr : writable m r (2 * zlen la).
Hypothesis Ha : at_ m a la.
Hypothesis Hd : digits la.
Hypothesis Hap : apart r (2 * zlen la) a (zlen la).

Definition squared (k : Z) (m' : words) : Prop :=
  0 <= k <= zlen la /\ exists ws, m' = wput m r ws /\ zlen ws = 2 * k /\ digits ws /\ val ws = squares (ztake k la).

Lemma sqr_spec j i m' :
  squared (j + i) m' -> 0 <= j -> 0 <= i -> j + i < zlen la ->
  wp (sqr (wadd r (2 * j)) (2 * i) (wadd a j) i) (fun _ => squared (j + i + 1)) (fun _ => False) m'.
Proof.
  intros (Hk & ws & -> & Hws & Hdw & Hval) Hj Hi Hlt. destruct (zget_lt la (j + i)) as [x Hx]; [lia|].
  assert (Hfit : forall n (l : list Z), 0 <= n -> zlen l <= 2 * zlen la - n -> writable m (wadd r n) (zlen l)).
  { intros n l Hn Hl. pose proof (zlen_nonneg l). apply (writable_sub _ _ (2 * zlen la)); [done|lia..]. }
  unfold sqr. apply wp_bind. rewrite rd_wadd. wp_call rd_spec; [|exact Hx| |done].
  { apply wput_apart; [rewrite <- (wadd_0 r); apply Hfit; lia|done|]. rewrite Hws. unfold apart in *. lia. }
  intros ? ? [-> ->]. pose proof (digits_zget _ _ _ Hd Hx) as Hwx. pose proof (word_mul x x Hwx Hwx).
  rewrite (u128_id (x * x)) by lia. destruct (halves (x * x)) as (H1 & H2 & H3); [lia|].
  assert (H0 : writable m r (zlen ws)) by (rewrite <- (wadd_0 r); apply Hfit; lia).
  apply wp_bind. rewrite wr_wadd. wp_call wr_spec; [| |done].
  { apply wput_writable; [done|]. apply (writable_sub _ _ (2 * zlen la)); [done|lia..]. }
  intros [] m1 ->. replace (2 * j + 2 * i) with (zlen ws) by lia. rewrite wput_app.
  2: { change (zlen [Lw (x * x)]) with 1. rewrite <- (wadd_0 r). apply (writable_sub _ _ (2 * zlen la)); [done|lia..]. }
  rewrite wr_wadd. wp_call wr_spec; [| |done].
  { apply wput_writable; [rewrite <- (wadd_0 r); apply Hfit; rewrite ?zlen_snoc; lia|]. apply (writable_sub _ _ (2 * zlen la)); [done|lia..]. }
  intros [] m1 ->. replace (2 * j + (2 * i + 1)) with (zlen (ws ++ [Lw (x * x)])) by (rewrite zlen_snoc; lia). rewrite wput_app.
  2: { rewrite zlen_snoc. change (zlen [Hw (x * x)]) with 1. rewrite <- (wadd_0 r). apply (writable_sub _ _ (2 * zlen la)); [done|lia..]. }
  split; [lia|]. eexists. split; [done|]. rewrite !zlen_snoc. split_and!; [lia|by repeat apply digits_snoc|].
  rewrite !val_snoc, zlen_snoc, (ztake_next _ _ _ Hx), squares_snoc, zlen_ztake, Hval, Hws, B_pow by lia.
  apply (f_equal (Z.mul (BASE ^ (2 * (j + i))))) in H3. lia.
Qed.

Lemma sqr_quads_loop fuel m' j :
  squared j m' -> zlen la - j < Z.of_nat fuel ->
  wp (iter fuel sqr_quads (wadd r (2 * j), wadd a j, zlen la - j))
    (fun st m' => exists j, st = (wadd r (2 * j), wadd a j, zlen la - j) /\ squared j m') (fun _ => False) m'.
Proof.
  revert m' j. induction fuel as [|fuel IH]; intros m' j HI Hf; pose proof HI as (Hj & _); [lia|]. cbn [iter]. apply wp_bind. unfold sqr_quads at 1.
  destruct (Z.eqb_spec (Z.land (zlen la - j) (Z.lnot 3)) 0) as [E|E]; cbn [negb].
  { apply wp_ret, wp_ret. by exists j. }
  apply quads_mask in E; [|lia].
  apply wp_bind. wp_call (sqr_spec j 0); [by rewrite Z.add_0_r|lia|lia|lia| |done]. intros [] m1 H1.
  apply wp_bind. wp_call (sqr_spec j 1); [by rewrite Z.add_0_r in H1|lia|lia|lia| |done]. intros [] m2 H2.
  apply wp_bind. wp_call (sqr_spec j 2); [by replace (j + 2) with (j + 1 + 1) by lia|lia|lia|lia| |done]. intros [] m3 H3.
  apply wp_bind. wp_call (sqr_spec j 3); [by replace (j + 3) with (j + 2 + 1) by lia|lia|lia|lia| |done]. intros [] m4 H4.
  apply wp_ret. rewrite !wadd_wadd. replace (zlen la - j - 4) with (zlen la - (j + 4)) by lia. replace (2 * j + 8) with (2 * (j + 4)) by lia.
  apply IH; [by replace (j + 4) with (j + 3 + 1) by lia|lia].
Qed.
Lemma sqr_rest_loop fuel m' j :
  squared j m' -> zlen la - j < Z.of_nat fuel ->
  wp (iter fuel sqr_rest (wadd r (2 * j), wadd a j, zlen la - j)) (fun _ => squared (zlen la)) (fun _ => False) m'.
Proof.
  revert m' j. induction fuel as [|fuel IH]; intros m' j HI Hf; pose proof HI as (Hj & _); [lia|]. cbn [iter]. apply wp_bind. unfold sqr_rest at 1.
  destruct (Z.eqb_spec (zlen la - j) 0) as [E|E]; cbn [negb].
  { apply wp_ret, wp_ret. by replace (zlen la) with j by lia. }
  apply wp_bind. wp_call (sqr_spec j 0); [by rewrite Z.add_0_r|lia|lia|lia| |done]. intros [] m1 H1.
  apply wp_ret. rewrite !wadd_wadd. replace (zlen la - j - 1) with (zlen la - (j + 1)) by lia. rewrite Z.add_0_r in H1.
  replace (2 * j + 2) with (2 * (j + 1)) by lia. apply IH; [done|lia].
Qed.

Lemma bn_sqr_words_spec :
  wp (bn_sqr_words r a (zlen la))
    (fun _ m' => exists ws, m' = wput m r ws /\ zlen ws = 2 * zlen la /\ digits ws /\ val ws = squares la) (fun _ => False) m.
Proof.
  pose proof (zlen_nonneg la). assert (H0 : squared 0 m).
  { split; [lia|]. exists []. split_and!; [|done|constructor|done]. symmetry. apply wput_nil.
    rewrite <- (wadd_0 r). apply (writable_sub _ _ (2 * zlen la)); [done|lia..]. }
  assert (Hend : forall m', squared (zlen la) m' -> exists ws, m' = wput m r ws /\ zlen ws = 2 * zlen la /\ digits ws /\ val ws = squares la).
  { intros m' (_ & ws & ? & ? & ? & Hv). rewrite ztake_all in Hv. by exists ws. }
  unfold bn_sqr_words. destruct (Z.eqb_spec (zlen la) 0) as [E|E].
  - apply wp_ret, Hend. by rewrite E.
  - apply wp_bind. pose proof (sqr_quads_loop (S (Z.to_nat (zlen la))) m 0 H0) as Hq. rewrite !wadd_0, Z.sub_0_r in Hq.
    wp_call Hq; [lia| |done]. intros st m1 (j & -> & H1). pose proof H1 as (Hj & _).
    wp_call sqr_rest_loop; [exact H1|lia| |done]. intros _ m2. apply Hend.
Qed.
End Sqr.

(** * Products column by column *)

Definition acc (c : acc3) : Z := c.1.1 + BASE * (c.1.2 + BASE * c.2).
Definition acc_ok (c : acc3) : Prop := word c.1.1 /\ word c.1.2 /\ word c.2.

Lemma add_hi_spec x c :
  acc_ok c -> 0 <= x <= (BASE - 1) * (BASE - 1) -> acc c + x < BASE * (BASE * BASE) ->
  acc_ok (add_hi (u128 (x + c.1.1)) c) /\ acc (add_hi (u128 (x + c.1.1)) c) = acc c + x.
Proof.
  destruct c as [[c0 c1] c2]. unfold acc_ok, acc. cbn [fst snd]. intros (H0 & H1 & H2) Hx Hlt. unfold word in H0, H1, H2.
  rewrite u128_id by lia. destruct (halves (x + c0)) as (Hl & Hh & Hs); [lia|]. unfold add_hi. unfold word in Hl, Hh.
  set (lo := Lw (x + c0)) in *. set (hi := Hw (x + c0)) in *. unfold u64. change 18446744073709551616 with BASE.
  destruct (Z.lt_ge_cases (c1 + hi) BASE) as [Hc|Hc].
  - rewrite (Z.mod_small (c1 + hi)) by lia. rewrite (proj2 (Z.ltb_ge _ _)) by lia. cbn [fst snd]. unfold word. lia.
  - assert (Hm : (c1 + hi) mod BASE = c1 + hi - BASE) by (rewrite <- (Z.mod_add _ (-1)) by lia; apply Z.mod_small; lia).
    rewrite Hm, (proj2 (Z.ltb_lt _ _)) by lia. cbn [fst snd]. assert (c2 + 1 < BASE) by nia.
    rewrite (Z.mod_small (c2 + 1)) by lia. unfold word. lia.
Qed.

Lemma mul_add_c_spec a b c :
  word a -> word b -> acc_ok c -> acc c + a * b < BASE * (BASE * BASE) ->
  acc_ok (mul_add_c a b c) /\ acc (mul_add_c a b c) = acc c + a * b.
Proof.
  intros Ha Hb Hc Hlt. pose proof (word_mul a b Ha Hb). unfold mul_add_c. rewrite (u128_id (a * b)) by lia.
  by apply add_hi_spec.
Qed.
Lemma mul_add_c2_spec a b c :
  word a -> word b -> acc_ok c -> acc c + 2 * (a * b) < BASE * (BASE * BASE) ->
  acc_ok (mul_add_c2 a b c) /\ acc (mul_add_c2 a b c) = acc c + 2 * (a * b).
Proof.
  intros Ha Hb Hc Hlt. pose proof (word_mul a b Ha Hb). unfold mul_add_c2. rewrite (u128_id (a * b)) by lia. cbv zeta.
  destruct (add_hi_spec (a * b) c Hc) as [H1 H2]; [lia|lia|].
  destruct (add_hi_spec (a * b) (add_hi (u128 (a * b + c.1.1)) c) H1) as [H3 H4]; [lia|lia|]. split; [done|lia].
Qed.

(** The value of a term, on the digits of the operands. *)
Definition digit (l : list Z) (i : Z) : Z := default 0 (zget l i).
Definition term_val (la lb : list Z) (t : term) : Z :=
  match t with
  | Mul i j => digit la i * digit lb j
  | Sqr i => digit la i * digit la i
  | Dbl i j => 2 * (digit la i * digit la j)
  end.
Definition term_in (na nb : Z) (t : term) : bool :=
  match t with
  | Mul i j => (0 <=? i) && (i <? na) && (0 <=? j) && (j <? nb)
  | Sqr i => (0 <=? i) && (i <? na)
  | Dbl i j => (0 <=? i) && (i <? na) && (0 <=? j) && (j <? na)
  end.
Definition terms_val (la lb : list Z) (ts : list term) : Z := foldr (fun t v => term_val la lb t + v) 0 ts.
(** The columns are the digits of the product, before carrying. *)
Fixpoint cols_val (la lb : list Z) (cols : list (list term)) : Z :=
  match cols with [] => 0 | ts :: cols => terms_val la lb ts + BASE * cols_val la lb cols end.

Lemma digit_word l i : digits l -> word (digit l i).
Proof. intros Hl. unfold digit. destruct (zget l i) eqn:E; [by eapply digits_zget|apply word_0]. Qed.
Lemma digit_zget l i : 0 <= i < zlen l -> zget l i = Some (digit l i).
Proof. intros Hi. destruct (zget_lt l i Hi) as [x Hx]. unfold digit. by rewrite Hx. Qed.
Lemma term_val_range la lb t : digits la -> digits lb -> 0 <= term_val la lb t <= 2 * ((BASE - 1) * (BASE - 1)).
Proof.
  intros Ha Hb. destruct t as [i j|i|i j]; cbn [term_val].
  - pose proof (word_mul (digit la i) (digit lb j) (digit_word _ _ Ha) (digit_word _ _ Hb)). lia.
  - pose proof (word_mul (digit la i) (digit la i) (digit_word _ _ Ha) (digit_word _ _ Ha)). lia.
  - pose proof (word_mul (digit la i) (digit la j) (digit_word _ _ Ha) (digit_word _ _ Ha)). lia.
Qed.
Lemma terms_val_range la lb ts : digits la -> digits lb -> 0 <= terms_val la lb ts <= zlen ts * (2 * ((BASE - 1) * (BASE - 1))).
Proof.
  intros Ha Hb. induction ts as [|t ts IH]; cbn [terms_val foldr]; [done|]. pose proof (term_val_range la lb t Ha Hb).
  rewrite zlen_cons. unfold terms_val in IH. lia.
Qed.
Lemma cols_val_nonneg la lb cols : digits la -> digits lb -> 0 <= cols_val la lb cols.
Proof. intros Ha Hb. induction cols as [|ts cols IH]; cbn [cols_val]; [done|]. pose proof (terms_val_range la lb ts Ha Hb). lia. Qed.

Section Comba.
Variables (m : words) (r a b : wptr) (la lb : list Z).
Hypothesis Hda : digits la.
Hypothesis Hdb : digits lb.

Lemma add_term_spec m' t c :
  at_ m' a la -> at_ m' b lb -> term_in (zlen la) (zlen lb) t = true -> acc_ok c -> acc c + term_val la lb t < BASE * (BASE * BASE) ->
  wp (add_term a b t c) (fun c' m'' => m'' = m' /\ acc_ok c' /\ acc c' = acc c + term_val la lb t) (fun _ => False) m'.
Proof.
  intros Ha Hb Ht Hc Hlt. destruct t as [i j|i|i j]; cbn [term_in term_val add_term] in *; rewrite ?andb_true_iff, ?Z.leb_le, ?Z.ltb_lt in Ht.
  - apply wp_bind. wp_call rd_spec; [exact Ha|apply digit_zget; lia| |done]. intros ? ? [-> ->].
    apply wp_bind. wp_call rd_spec; [exact Hb|apply digit_zget; lia| |done]. intros ? ? [-> ->].
    apply wp_ret. split; [done|]. apply mul_add_c_spec; auto using digit_word.
  - apply wp_bind. wp_call rd_spec; [exact Ha|apply digit_zget; lia| |done]. intros ? ? [-> ->].
    apply wp_ret. split; [done|]. apply mul_add_c_spec; auto using digit_word.
  - apply wp_bind. wp_call rd_spec; [exact Ha|apply digit_zget; lia| |done]. intros ? ? [-> ->].
    apply wp_bind. wp_call rd_spec; [exact Ha|apply digit_zget; lia| |done]. intros ? ? [-> ->].
    apply wp_ret. split; [done|]. apply mul_add_c2_spec; auto using digit_word.
Qed.

Lemma add_terms_spec m' ts c :
  at_ m' a la -> at_ m' b lb -> forallb (term_in (zlen la) (zlen lb)) ts = true -> acc_ok c ->
  acc c + terms_val la lb ts < BASE * (BASE * BASE) ->
  wp (add_terms a b ts c) (fun c' m'' => m'' = m' /\ acc_ok c' /\ acc c' = acc c + terms_val la lb ts) (fun _ => False) m'.
Proof.
  intros Ha Hb. revert c. induction ts as [|t ts IH]; intros c Ht Hc Hlt; cbn [add_terms].
  - apply wp_ret. cbn. split_and!; [done|done|lia].
  - cbn [forallb] in Ht. apply andb_true_iff in Ht as [Ht Hts]. change (terms_val la lb (t :: ts)) with (term_val la lb t + terms_val la lb ts) in *.
    pose proof (terms_val_range la lb ts Hda Hdb). apply wp_bind. wp_call add_term_spec; [done|done|done|done|lia| |done].
    intros c' m'' (-> & Hc' & Hv). wp_call IH; [done|done|lia| |done]. intros c'' m'' (-> & Hc'' & Hv'). split_and!; [done|done|lia].
Qed.

Hypothesis Ha : at_ m a la.
Hypothesis Hb : at_ m b lb.

Lemma comba_spec cols ws c :
  Forall (fun ts => forallb (term_in (zlen la) (zlen lb)) ts = true /\ zlen ts <= 100) cols -> acc_ok c -> acc c < 1000 * (BASE * BASE) ->
  let n := zlen ws + zlen cols + 1 in
  writable m r n -> apart r n a (zlen la) -> apart r n b (zlen lb) -> digits ws ->
  acc c + cols_val la lb cols < BASE ^ (zlen cols + 1) ->
  wp (comba r a b (zlen ws) cols c)
    (fun _ m' => exists ws', m' = wput m r ws' /\ zlen ws' = n /\ digits ws' /\
       val ws' = val ws + BASE ^ zlen ws * (acc c + cols_val la lb cols)) (fun _ => False) (wput m r ws).
Proof.
  intros Hcols. revert ws c. induction Hcols as [|ts cols [Hts H100] Hcols IH]; intros ws c Hc Hacc n Hr Hra Hrb Hdw Hlt; cbn [comba].
  - change (zlen (@nil (list term))) with 0 in *. cbn [cols_val] in *. destruct c as [[c0 c1] c2], Hc as (H0 & H1 & H2).
    unfold acc, word in *. cbn [fst snd] in *. change (BASE ^ (0 + 1)) with BASE in Hlt. pose proof (zlen_nonneg ws).
    assert (c1 = 0 /\ c2 = 0) as [-> ->] by lia.
    assert (Hw0 : writable m r (zlen ws)) by (rewrite <- (wadd_0 r); apply (writable_sub _ _ n); [done|lia..]).
    wp_call wr_spec; [apply wput_writable; [done|apply (writable_sub _ _ n); [done|lia..]]| |done]. intros [] m' ->.
    exists (ws ++ [c0]). rewrite zlen_snoc, val_snoc. split_and!; [|lia|by apply digits_snoc|lia].
    apply wput_app. change (zlen [c0]) with 1. rewrite <- (wadd_0 r). apply (writable_sub _ _ n); [done|lia..].
  - assert (Hn : n = zlen ws + (1 + zlen cols) + 1) by (unfold n; by rewrite zlen_cons). clearbody n.
    rewrite zlen_cons in *. pose proof (zlen_nonneg ws). pose proof (zlen_nonneg cols). cbn [cols_val] in *.
    pose proof (terms_val_range la lb ts Hda Hdb) as Htv. pose proof (cols_val_nonneg la lb cols Hda Hdb).
    assert (Hw0 : forall k, 0 <= k <= n -> writable m r k) by (intros; rewrite <- (wadd_0 r); apply (writable_sub _ _ n); [done|lia..]).
    assert (Hap : forall p l, at_ m p l -> apart r n p (zlen l) -> at_ (wput m r ws) p l).
    { intros p l Hp Hq. apply wput_apart; [apply Hw0; lia|done|]. unfold apart in *. lia. }
    apply wp_bind. wp_call add_terms_spec; [by apply Hap|by apply Hap|done|done|lia| |done].
    intros [[c0 c1] c2] m' (-> & (Hw0' & Hw1' & Hw2') & Hv). cbn [fst snd] in *. apply wp_bind.
    wp_call wr_spec; [apply wput_writable; [apply Hw0; lia|apply (writable_sub _ _ n); [done|lia..]]| |done]. intros [] m' ->.
    rewrite wput_app by (change (zlen [c0]) with 1; apply Hw0; lia).
    replace (zlen ws + 1) with (zlen (ws ++ [c0])) by apply zlen_snoc.
    assert (Hac : acc (c0, c1, c2) = c0 + BASE * acc (c1, c2, 0)) by (unfold acc; cbn; lia). unfold word in Hw0'.
    rewrite (Z.add_comm 1 (zlen cols)), B_pow in Hlt by lia.
    replace n with (zlen (ws ++ [c0]) + zlen cols + 1) in * by (rewrite zlen_snoc; lia).
    wp_call IH; [split_and!; [done|done|apply word_0]|lia|done|done|done|by apply digits_snoc|lia| |done].
    intros [] m' (ws' & -> & Hz & Hd & Hval). exists ws'. split_and!; [done|done|done|].
    rewrite Hval, val_snoc, zlen_snoc, B_pow by lia. lia.
Qed.
End Comba.

(** The four unrolled products. *)
Lemma comba_product m r a b la lb cols n :
  digits la -> digits lb -> at_ m a la -> at_ m b lb -> writable m r n -> apart r n a (zlen la) -> apart r n b (zlen lb) ->
  n = zlen cols + 1 -> n = zlen la + zlen lb ->
  Forall (fun ts => forallb (term_in (zlen la) (zlen lb)) ts = true /\ zlen ts <= 100) cols ->
  cols_val la lb cols = val la * val lb ->
  wp (comba r a b 0 cols (0, 0, 0))
    (fun _ m' => exists ws, m' = wput m r ws /\ zlen ws = n /\ digits ws /\ val ws = val la * val lb) (fun _ => False) m.
Proof.
  intros Hda Hdb Ha Hb Hr Hra Hrb Hn Hn2 Hcols Hval. pose proof (zlen_nonneg cols).
  rewrite <- (wput_nil m r) at 1 by (rewrite <- (wadd_0 r); apply (writable_sub _ _ n); [done|lia..]).
  assert (Hlt : val la * val lb < BASE ^ n).
  { pose proof (val_range la Hda). pose proof (val_range lb Hdb). rewrite Hn2, Z.pow_add_r by (try apply zlen_nonneg; lia). nia. }
  pose proof (comba_spec m r a b la lb Hda Hdb Ha Hb cols [] (0, 0, 0) Hcols) as Hs. change (zlen (@nil Z)) with 0 in Hs. cbv zeta in Hs.
  replace (0 + zlen cols + 1) with n in Hs by lia. rewrite <- Hn in Hs.
  wp_call Hs; [|done|done|done|done|constructor| | |done].
  - unfold acc_ok. cbn. auto using word_0.
  - rewrite Hval. exact Hlt.
  - intros [] m' (ws & -> & Hz & Hd & Hv). exists ws. split_and!; [done|done|done|]. rewrite Hv, Hval.
    change (val []) with 0. change (BASE ^ 0) with 1. change (acc (0, 0, 0)) with 0. lia.
Qed.

(** The columns of a product of [n] words, as the code lists them, add up. *)
Ltac comba_value :=
  cbn [cols_val terms_val foldr term_val val];
  repeat match goal with |- context [digit ?l ?i] => let v := eval vm_compute in (digit l i) in change (digit l i) with v end;
  generalize (2 ^ 64); intros; ring.

Lemma four_words l : zlen l = 4 -> exists x0 x1 x2 x3 : Z, l = [x0; x1; x2; x3].
Proof.
  intros H. do 4 (destruct l as [|? l]; [discriminate H|]). rewrite !zlen_cons in H.
  assert (l = []) as -> by (apply zlen_0; lia). eauto.
Qed.
Lemma eight_words l : zlen l = 8 -> exists x0 x1 x2 x3 x4 x5 x6 x7 : Z, l = [x0; x1; x2; x3; x4; x5; x6; x7].
Proof.
  intros H. do 8 (destruct l as [|? l]; [discriminate H|]). rewrite !zlen_cons in H.
  assert (l = []) as -> by (apply zlen_0; lia). eauto 10.
Qed.

Lemma bn_mul_comba8_spec m r a b la lb :
  digits la -> digits lb -> at_ m a la -> at_ m b lb -> zlen la = 8 -> zlen lb = 8 ->
  writable m r 16 -> apart r 16 a 8 -> apart r 16 b 8 ->
  wp (bn_mul_comba8 r a b)
    (fun _ m' => exists ws, m' = wput m r ws /\ zlen ws = 16 /\ digits ws /\ val ws = val la * val lb) (fun _ => False) m.
Proof.
  intros Hda Hdb Ha Hb Hla Hlb Hr Hra Hrb. apply comba_product; rewrite ?Hla, ?Hlb; try done.
  - repeat constructor; done.
  - destruct (eight_words la Hla) as (x0 & x1 & x2 & x3 & x4 & x5 & x6 & x7 & ->).
    destruct (eight_words lb Hlb) as (y0 & y1 & y2 & y3 & y4 & y5 & y6 & y7 & ->). clear. comba_value.
Qed.
Lemma bn_mul_comba4_spec m r a b la lb :
  digits la -> digits lb -> at_ m a la -> at_ m b lb -> zlen la = 4 -> zlen lb = 4 ->
  writable m r 8 -> apart r 8 a 4 -> apart r 8 b 4 ->
  wp (bn_mul_comba4 r a b)
    (fun _ m' => exists ws, m' = wput m r ws /\ zlen ws = 8 /\ digits ws /\ val ws = val la * val lb) (fun _ => False) m.
Proof.
  intros Hda Hdb Ha Hb Hla Hlb Hr Hra Hrb. apply comba_product; rewrite ?Hla, ?Hlb; try done.
  - repeat constructor; done.
  - destruct (four_words la Hla) as (x0 & x1 & x2 & x3 & ->). destruct (four_words lb Hlb) as (y0 & y1 & y2 & y3 & ->). clear. comba_value.
Qed.
Lemma bn_sqr_comba8_spec m r a la :
  digits la -> at_ m a la -> zlen la = 8 -> writable m r 16 -> apart r 16 a 8 ->
  wp (bn_sqr_comba8 r a)
    (fun _ m' => exists ws, m' = wput m r ws /\ zlen ws = 16 /\ digits ws /\ val ws = val la * val la) (fun _ => False) m.
Proof.
  intros Hda Ha Hla Hr Hra. apply comba_product; rewrite ?Hla; try done.
  - repeat constructor; done.
  - destruct (eight_words la Hla) as (x0 & x1 & x2 & x3 & x4 & x5 & x6 & x7 & ->). clear. comba_value.
Qed.
Lemma bn_sqr_comba4_spec m r a la :
  digits la -> at_ m a la -> zlen la = 4 -> writable m r 8 -> apart r 8 a 4 ->
  wp (bn_sqr_comba4 r a)
    (fun _ m' => exists ws, m' = wput m r ws /\ zlen ws = 8 /\ digits ws /\ val ws = val la * val la) (fun _ => False) m.
Proof.
  intros Hda Ha Hla Hr Hra. apply comba_product; rewrite ?Hla; try done.
  - repeat constructor; done.
  - destruct (four_words la Hla) as (x0 & x1 & x2 & x3 & ->). clear. comba_value.
Qed.

(** * The row-wise product *)

(** Storing over the middle of what was stored. *)
Lemma wput_over m p l1 l2 l3 k :
  writable m p (zlen l1 + zlen l2 + zlen l3) -> zlen k = zlen l2 ->
  wput (wput m p (l1 ++ l2 ++ l3)) (wadd p (zlen l1)) k = wput m p (l1 ++ k ++ l3).
Proof.
  intros (arr & Hm & (H0 & H1 & H2)) Hk. unfold wput. cbn. rewrite Hm. cbn. rewrite list_lookup_insert_eq by (by eapply lookup_lt_Some). cbn.
  rewrite list_insert_insert_eq. f_equal. pose proof (zlen_nonneg l1). pose proof (zlen_nonneg l2). pose proof (zlen_nonneg l3).
  unfold put_at. rewrite !zlen_app, Hk. set (pre := ztake p.2 arr). set (post := zdrop _ arr).
  assert (Hz : zlen pre = p.2) by (apply zlen_ztake; lia).
  replace (pre ++ (l1 ++ l2 ++ l3) ++ post) with ((pre ++ l1) ++ l2 ++ l3 ++ post) by (by rewrite <- !app_assoc).
  rewrite ztake_app by (rewrite zlen_app; lia). rewrite zdrop_app_ge by (rewrite zlen_app; lia). rewrite zlen_app, Hz.
  rewrite zdrop_app by lia. by rewrite <- !app_assoc.
Qed.

Section Rows.
Variables (m : words) (r a b : wptr) (la lb : list Z).
Local Abbreviation na := (zlen la) (only parsing).
Local Abbreviation nb := (zlen lb) (only parsing).
Hypothesis Hda : digits la.
Hypothesis Hdb : digits lb.
Hypothesis Ha : at_ m a la.
Hypothesis Hb : at_ m b lb.
Hypothesis Hr : writable m r (na + nb).
Hypothesis Hra : apart r (na + nb) a na.
Hypothesis Hrb : apart r (na + nb) b nb.

(** After [k] rows. *)
Definition rowed (k : Z) (m' : words) : Prop :=
  1 <= k <= nb /\ exists ws, m' = wput m r ws /\ zlen ws = na + k /\ digits ws /\ val ws = val la * val (ztake k lb).

Lemma r_fits k : 0 <= k <= na + nb -> writable m r k.
Proof. intros. pose proof (zlen_nonneg la). pose proof (zlen_nonneg lb). rewrite <- (wadd_0 r). apply (writable_sub _ _ (na + nb)); [done|lia..]. Qed.
Lemma r_apart ws p l : zlen ws <= na + nb -> at_ m p l -> apart r (na + nb) p (zlen l) -> at_ (wput m r ws) p l.
Proof.
  intros Hws Hp Hap. apply wput_apart; [apply r_fits; pose proof (zlen_nonneg ws); lia|done|]. unfold apart in *. lia.
Qed.

Lemma first_row w : zget lb 0 = Some w ->
  wp (c ← bn_mul_words r a na w; wr (wadd r na) 0 c) (fun _ => rowed 1) (fun _ => False) m.
Proof.
  intros Hw. pose proof (zget_Some _ _ _ Hw) as Hlt. pose proof (zlen_nonneg la). apply wp_bind.
  wp_call bn_mul_words_spec; [exact Ha|done|done|exact (digits_zget _ _ _ Hdb Hw)|apply r_fits; lia| | |done].
  { unfold ahead, apart in *. lia. }
  intros c m' (ws & -> & Hz & Hd & Hc & Hv). rewrite wr_wadd, Z.add_0_r. wp_call wr_spec; [| |done].
  { apply wput_writable; [apply r_fits; lia|apply (writable_sub _ _ (na + nb)); [done|lia..]]. }
  intros [] m' ->. split; [lia|]. exists (ws ++ [c]). rewrite <- Hz, wput_app by (rewrite Hz; change (zlen [c]) with 1; apply r_fits; lia).
  rewrite zlen_snoc, val_snoc. split_and!; [done|lia|by apply digits_snoc|].
  assert (Hw1 : ztake 1 lb = [w]) by (change 1 with (0 + 1); by rewrite (ztake_next _ _ _ Hw)). rewrite Hw1, Hz. cbn [val]. lia.
Qed.

Lemma next_row k w m' : rowed k m' -> zget lb k = Some w ->
  wp (c ← bn_mul_add_words (wadd r k) a na w; wr (wadd r (na + k)) 0 c) (fun _ => rowed (k + 1)) (fun _ => False) m'.
Proof.
  intros (Hk & ws & -> & Hws & Hdw & Hval) Hw. pose proof (zget_Some _ _ _ Hw) as Hlt. pose proof (zlen_nonneg la).
  set (lo := ztake k ws). set (hi := zdrop k ws). assert (Hsp : ws = lo ++ hi) by (symmetry; apply ztake_zdrop).
  assert (Hlo : zlen lo = k) by (apply zlen_ztake; lia). assert (Hhi : zlen hi = na) by (unfold hi; rewrite zlen_zdrop; lia).
  assert (Hat : at_ (wput m r ws) (wadd r k) hi).
  { apply at_drop; [|lia]. apply wput_at, r_fits. lia. }
  apply wp_bind. wp_call bn_mul_add_words_spec; [exact Hat|apply r_apart; [lia|exact Ha|done]|by apply digits_zdrop|done|done|done|exact (digits_zget _ _ _ Hdb Hw)| | |done].
  { unfold ahead, apart in *. cbn. lia. }
  intros c m' (ws' & -> & Hz' & Hd' & Hc & Hv').
  assert (Hput : wput (wput m r ws) (wadd r k) ws' = wput m r (lo ++ ws')).
  { pose proof (wput_over m r lo hi [] ws') as Ho. rewrite !app_nil_r, Hlo, <- Hsp in Ho. apply Ho; [|lia].
    change (zlen (@nil Z)) with 0. apply r_fits. lia. }
  rewrite Hput, wr_wadd, Z.add_0_r. wp_call wr_spec; [| |done].
  { apply wput_writable; [apply r_fits; rewrite zlen_app; lia|apply (writable_sub _ _ (na + nb)); [done|lia..]]. }
  intros [] m' ->. replace (na + k) with (zlen (lo ++ ws')) by (rewrite zlen_app; lia).
  rewrite wput_app by (rewrite zlen_app; change (zlen [c]) with 1; apply r_fits; lia).
  split; [lia|]. exists ((lo ++ ws') ++ [c]). rewrite zlen_snoc, zlen_app. split_and!; [done|lia| |].
  - apply digits_snoc; [|done]. apply digits_app. split; [by apply digits_ztake|done].
  - rewrite (ztake_next _ _ _ Hw), !val_snoc, val_app, zlen_app, Hlo, Hz', zlen_ztake, Z.pow_add_r by lia.
    assert (Hvs : val ws = val lo + BASE ^ k * val hi) by (apply val_split; lia). rewrite Z.mul_add_distr_l, <- Hval, Hvs. nia.
Qed.

(** A step of the loop: the row [j + i], reached through the pointers moved on by [j]. *)
Lemma mul_normal_step {A} j i (next : M words A) Q E m' :
  rowed (j + i) m' -> j + i < nb -> (forall m'', rowed (j + i + 1) m'' -> wp next Q E m'') ->
  wp (w ← rd (wadd b j) i; c ← bn_mul_add_words (wadd (wadd r j) i) a na w; wr (wadd r (na + j)) i c;; next) Q E m'.
Proof.
  intros HI Hlt Hnext. pose proof HI as (Hk & ws & Hm & Hws & _). destruct (zget_lt lb (j + i)) as [w Hw]; [lia|].
  apply wp_bind. rewrite rd_wadd. wp_call rd_spec; [|exact Hw| |done].
  { rewrite Hm. apply r_apart; [lia|exact Hb|done]. }
  intros ? ? [-> ->]. pose proof (next_row (j + i) w m' HI Hw) as Hrow.
  rewrite wadd_wadd. unfold wp in Hrow. unfold wp, mbind, M_bind in *.
  destruct (bn_mul_add_words (wadd r (j + i)) a (zlen la) w m') as [c m1|m1|]; [|done|done].
  rewrite wr_wadd, Z.add_0_r in Hrow. rewrite wr_wadd, <- Z.add_assoc. destruct (wr r (zlen la + (j + i)) c m1) as [u m2|m2|]; [|done|done].
  apply Hnext, Hrow.
Qed.

Lemma mul_normal_loop fuel j m' :
  rowed (j + 1) m' -> 0 <= j -> nb - j < Z.of_nat fuel ->
  wp (iter fuel (mul_normal_turn a na) (wadd r (na + j), wadd r j, wadd b j, nb - j)) (fun _ => rowed nb) (fun _ => False) m'.
Proof.
  revert j m'. induction fuel as [|fuel IH]; intros j m' HI Hj Hf; pose proof HI as (Hk & _); [lia|]. cbn [iter]. apply wp_bind.
  assert (Hlast : forall k n m', rowed (j + k) m' -> n = nb - j - k -> (n =? 0) = true -> rowed nb m').
  { intros k n m2 H -> E. apply Z.eqb_eq in E. by replace nb with (j + k) by lia. }
  unfold mul_normal_turn. destruct (nb - j - 1 =? 0) eqn:E1; [apply wp_ret, wp_ret; by apply (Hlast 1 (nb - j - 1))|].
  apply Z.eqb_neq in E1. apply mul_normal_step; [done|lia|]. intros m1 H1. pose proof H1 as (Hk1 & _). replace (j + 1 + 1) with (j + 2) in * by lia.
  destruct (nb - j - 1 - 1 =? 0) eqn:E2; [apply wp_ret, wp_ret; apply (Hlast 2 (nb - j - 1 - 1)); [done|lia|done]|].
  apply Z.eqb_neq in E2. apply mul_normal_step; [done|lia|]. intros m2 H2. pose proof H2 as (Hk2 & _). replace (j + 2 + 1) with (j + 3) in * by lia.
  destruct (nb - j - 1 - 1 - 1 =? 0) eqn:E3; [apply wp_ret, wp_ret; apply (Hlast 3 (nb - j - 1 - 1 - 1)); [done|lia|done]|].
  apply Z.eqb_neq in E3. apply mul_normal_step; [done|lia|]. intros m3 H3. pose proof H3 as (Hk3 & _). replace (j + 3 + 1) with (j + 4) in * by lia.
  destruct (nb - j - 1 - 1 - 1 - 1 =? 0) eqn:E4; [apply wp_ret, wp_ret; apply (Hlast 4 (nb - j - 1 - 1 - 1 - 1)); [done|lia|done]|].
  apply Z.eqb_neq in E4. apply mul_normal_step; [done|lia|]. intros m4 H4. pose proof H4 as (Hk4 & _).
  apply wp_ret. rewrite !wadd_wadd. replace (nb - j - 1 - 1 - 1 - 1) with (nb - (j + 4)) by lia. replace (na + j + 4) with (na + (j + 4)) by lia.
  apply IH; [done|lia|lia].
Qed.
End Rows.

(** ** The products with their operands of any size *)

Lemma wzero_spec m p n : 0 <= n -> writable m p n -> wp (wzero p n) (fun _ m' => m' = wput m p (zrep n 0)) (fun _ => False) m.
Proof.
  intros Hn Hp. unfold wzero.
  assert (Hfit : forall k, 0 <= k <= n -> writable m p k) by (intros; rewrite <- (wadd_0 p); apply (writable_sub _ _ n); [done|lia..]).
  apply (wp_for (fun i _ m' => m' = wput m p (zrep i 0))).
  - symmetry. apply wput_nil, Hfit. lia.
  - intros j [] m' Hj ->. assert (Hz : zlen (zrep j 0) = j) by (apply zlen_zrep; lia).
    wp_call wr_spec; [apply wput_writable; [rewrite Hz; apply Hfit; lia|apply (writable_sub _ _ n); [done|lia..]]| |done].
    intros [] m' ->. rewrite <- Hz at 2. rewrite wput_app by (rewrite Hz; apply Hfit; change (zlen [0]) with 1; lia). f_equal.
    unfold zrep. replace (Z.to_nat (j + 1)) with (Z.to_nat j + 1)%nat by lia. by rewrite replicate_add.
  - intros [] m' ->. by rewrite Z.add_0_l, Z2Nat.id.
Qed.

(** [ws] is the product of [la] and [lb], at [r]. *)
Definition product (m : words) (r : wptr) (la lb : list Z) (m' : words) : Prop :=
  exists ws, m' = wput m r ws /\ zlen ws = zlen la + zlen lb /\ digits ws /\ val ws = val la * val lb.

Lemma digits_zrep n : digits (zrep n 0).
Proof. apply Forall_replicate, word_0. Qed.

Lemma bn_mul_normal_ordered m r a b la lb :
  digits la -> digits lb -> at_ m a la -> at_ m b lb -> writable m r (zlen la + zlen lb) ->
  apart r (zlen la + zlen lb) a (zlen la) -> apart r (zlen la + zlen lb) b (zlen lb) ->
  wp (if zlen lb =? 0 then wzero r (zlen la) else
      w ← rd b 0; c ← bn_mul_words r a (zlen la) w; wr (wadd r (zlen la)) 0 c;;
      iter (S (Z.to_nat (zlen lb))) (mul_normal_turn a (zlen la)) (wadd r (zlen la), r, b, zlen lb))
    (fun _ => product m r la lb) (fun _ => False) m.
Proof.
  intros Hda Hdb Ha Hb Hr Hra Hrb. pose proof (zlen_nonneg la). pose proof (zlen_nonneg lb).
  destruct (Z.eqb_spec (zlen lb) 0) as [E|E].
  - wp_call wzero_spec; [done|by rewrite E, Z.add_0_r in Hr| |done]. intros [] m' ->. exists (zrep (zlen la) 0).
    rewrite zlen_zrep, val_zrep by done. apply zlen_0 in E as ->. cbn [val]. change (zlen []) with 0. split_and!; [done|lia|apply digits_zrep|lia].
  - destruct (zget_lt lb 0) as [w Hw]; [lia|]. apply wp_bind. wp_call rd_spec; [exact Hb|exact Hw| |done]. intros ? ? [-> ->].
    pose proof (first_row m r a b la lb Hda Hdb Ha Hr Hra Hrb w Hw) as Hrow. unfold wp in Hrow. unfold wp, mbind, M_bind in *.
    destruct (bn_mul_words r a (zlen la) w m) as [c m1|m1|]; [|done|done]. destruct (wr (wadd r (zlen la)) 0 c m1) as [u m2|m2|]; [|done|done].
    pose proof (mul_normal_loop m r a b la lb Hda Hdb Ha Hb Hr Hra Hrb (S (Z.to_nat (zlen lb))) 0 m2 Hrow) as Hloop.
    rewrite !Z.add_0_r, !wadd_0, Z.sub_0_r in Hloop. fold (wp (iter (S (Z.to_nat (zlen lb))) (mul_normal_turn a (zlen la)) (wadd r (zlen la), r, b, zlen lb)) (fun _ => product m r la lb) (fun _ => False) m2).
    wp_call Hloop; [lia|lia| |done]. intros [] m3 (_ & ws & -> & Hz & Hd & Hv). rewrite ztake_all in Hv. by exists ws.
Qed.

Lemma bn_mul_normal_spec m r a b la lb :
  digits la -> digits lb -> at_ m a la -> at_ m b lb -> writable m r (zlen la + zlen lb) ->
  apart r (zlen la + zlen lb) a (zlen la) -> apart r (zlen la + zlen lb) b (zlen lb) ->
  wp (bn_mul_normal r a (zlen la) b (zlen lb)) (fun _ => product m r la lb) (fun _ => False) m.
Proof.
  intros Hda Hdb Ha Hb Hr Hra Hrb. unfold bn_mul_normal. destruct (Z.ltb_spec (zlen la) (zlen lb)).
  - rewrite Z.add_comm in Hr, Hra, Hrb. wp_call bn_mul_normal_ordered; [done..| |done]. intros [] m' (ws & -> & Hz & Hd & Hv).
    exists ws. split_and!; [done|lia|done|lia].
  - by apply bn_mul_normal_ordered.
Qed.

Lemma bn_mul_small_spec m r num_r a b la lb :
  digits la -> digits lb -> at_ m a la -> at_ m b lb -> writable m r num_r ->
  apart r num_r a (zlen la) -> apart r num_r b (zlen lb) ->
  wp (bn_mul_small r num_r a (zlen la) b (zlen lb)) (fun _ m' => num_r = zlen la + zlen lb /\ product m r la lb m')
    (fun m' => m' = m /\ num_r <> zlen la + zlen lb) m.
Proof.
  intros Hda Hdb Ha Hb Hr Hra Hrb. unfold bn_mul_small. apply wp_bind. destruct (Z.eqb_spec num_r (zlen la + zlen lb)) as [->|E]; [|by apply wp_fail].
  apply wp_ret. destruct ((zlen la =? 8) && (zlen lb =? 8)) eqn:E8.
  - apply andb_true_iff in E8 as [E1%Z.eqb_eq E2%Z.eqb_eq]. rewrite E1, E2 in *. change (8 + 8) with 16 in *.
    wp_call (bn_mul_comba8_spec m r a b la lb); [done..| |done]. intros [] m' (ws & -> & Hz & Hd & Hv). split; [done|]. exists ws. by rewrite E1, E2.
  - wp_call bn_mul_normal_spec; [done..| |done]. by intros [] m' H.
Qed.
