(* ===== verification/BnSqr.v ===== *)
(** Facts about [BnWords.bn_sqr_normal]: the square as the doubled cross products plus
    the squares of the words. *)
From S2P Require Import Prelude BnWords BnWordsFacts BnMulFacts.

(** The products of different words, each pair once. *)
Fixpoint cross (l : list Z) : Z := match l with [] => 0 | x :: l => x * val l + BASE * (BASE * cross l) end.
Lemma val_square l : val l * val l = squares l + 2 * (BASE * cross l).
Proof. induction l as [|x l IH]; [done|]. cbn [val squares cross]. lia. Qed.
Lemma squares_nonneg l : 0 <= squares l.
Proof. induction l as [|x l IH]; cbn [squares]; [done|]. nia. Qed.
Lemma cross_nonneg l : digits l -> 0 <= cross l.
Proof.
  induction 1 as [|x l Hx Hl IH]; cbn [cross]; [done|]. pose proof (val_range l Hl). unfold word in Hx. nia.
Qed.
Lemma cross_step k w l : zget l k = Some w -> cross (zdrop k l) = w * val (zdrop (k + 1) l) + BASE ^ 2 * cross (zdrop (k + 1) l).
Proof. intros H. rewrite (zdrop_next _ _ _ H). cbn [cross]. lia. Qed.

(** The length of what is put together. *)
Local Ltac zl := repeat (rewrite zlen_app || rewrite zlen_cons); change (zlen (@nil Z)) with 0; lia.

(** What is stored already. *)
Lemma writable_self m p n : writable m p n -> exists l, m = wput m p l /\ zlen l = n.
Proof.
  intros (arr & Hm & (H0 & H1 & H2)). exists (ztake n (zdrop p.2 arr)). assert (Hz : zlen (ztake n (zdrop p.2 arr)) = n) by (rewrite zlen_ztake; [done|rewrite zlen_zdrop; lia]).
  split; [|done]. unfold wput. rewrite Hm. cbn. unfold put_at. rewrite Hz, <- (zdrop_zdrop n p.2), !ztake_zdrop by lia. by rewrite list_insert_id.
Qed.

Section Sqr.
Variables (m : words) (r a tmp : wptr) (la : list Z).
Local Abbreviation n := (zlen la) (only parsing).
Hypothesis Hda : digits la.
Hypothesis Ha : at_ m a la.
Hypothesis Hr : writable m r (2 * n).
Hypothesis Ht : writable m tmp (2 * n).
Hypothesis Hra : apart r (2 * n) a n.
Hypothesis Hta : apart tmp (2 * n) a n.
Hypothesis Hrt : apart r (2 * n) tmp (2 * n).

Lemma sqr_fits k : 0 <= k <= 2 * n -> writable m r k.
Proof. intros. rewrite <- (wadd_0 r). apply (writable_sub _ _ (2 * n)); [done|lia..]. Qed.
Lemma sqr_over l1 l2 l3 k :
  zlen l1 + zlen l2 + zlen l3 = 2 * n -> zlen k = zlen l2 ->
  wput (wput m r (l1 ++ l2 ++ l3)) (wadd r (zlen l1)) k = wput m r (l1 ++ k ++ l3).
Proof. intros Hz Hk. apply wput_over; [by rewrite Hz|done]. Qed.
(** Storing a word in the middle. *)
Lemma sqr_wr l1 x l2 i w :
  zlen l1 + 1 + zlen l2 = 2 * n -> i = zlen l1 ->
  wp (wr r i w) (fun _ m' => m' = wput m r (l1 ++ [w] ++ l2)) (fun _ => False) (wput m r (l1 ++ [x] ++ l2)).
Proof.
  intros Hz ->. pose proof (zlen_nonneg l1). pose proof (zlen_nonneg l2). wp_call wr_spec; [| |done].
  - apply wput_writable; [rewrite !zlen_app; change (zlen [x]) with 1; apply sqr_fits; lia|apply (writable_sub _ _ (2 * n)); [done|lia..]].
  - intros [] m' ->. apply sqr_over; [|done]. change (zlen [x]) with 1. lia.
Qed.
Lemma sqr_rest_at L l i : zlen L = 2 * n -> zlen l <= n -> 0 <= i -> at_ m (wadd a i) l -> i + zlen l <= n -> at_ (wput m r L) (wadd a i) l.
Proof.
  intros HL Hl Hi Hat Hn. pose proof (zlen_nonneg la). apply wput_apart; [rewrite HL; apply sqr_fits; lia|done|]. rewrite HL. unfold apart in *. cbn. pose proof (zlen_nonneg l). lia.
Qed.
Lemma a_rest k : 0 <= k <= n -> at_ m (wadd a k) (zdrop k la).
Proof. intros. by apply at_drop. Qed.
Lemma a_read L k w : zlen L = 2 * n -> zget la k = Some w -> wp (rd (wadd a (k + 1)) (-1)) (fun x m' => x = w /\ m' = wput m r L) (fun _ => False) (wput m r L).
Proof.
  intros HL Hw. rewrite rd_wadd. replace (k + 1 + -1) with k by lia. eapply rd_spec; [|exact Hw].
  apply wput_apart; [rewrite HL; apply sqr_fits; pose proof (zlen_nonneg la); lia|exact Ha|by rewrite HL].
Qed.

(** After [k] rows: their words from the second on, then what was there, then a zero. *)
Definition sqr_laid (k : Z) (m' : words) : Prop :=
  exists ws junk, m' = wput m r ([0] ++ ws ++ junk ++ [0]) /\ zlen ws = n + k - 1 /\ zlen junk = n - k - 1 /\ digits ws /\
    val ws + BASE ^ (2 * k) * cross (zdrop k la) = cross la.

Lemma sqr_first_row w J :
  2 <= n -> zget la 0 = Some w -> zlen J = 2 * n - 2 ->
  wp (c ← bn_mul_words (wadd r 1) (wadd a 1) (n - 1) w; wr (wadd r 1) (n - 1) c) (fun _ => sqr_laid 1) (fun _ => False) (wput m r ([0] ++ J ++ [0])).
Proof.
  intros Hn Hw HJ. set (J1 := ztake (n - 1) J). set (J2 := zdrop (n - 1) J).
  assert (HJ1 : zlen J1 = n - 1) by (apply zlen_ztake; lia). assert (HJ2 : zlen J2 = n - 1) by (unfold J2; rewrite zlen_zdrop; lia).
  replace J with (J1 ++ J2) by apply ztake_zdrop. clearbody J1 J2.
  destruct J2 as [|j J3]; [change (zlen []) with 0 in HJ2; lia|]. rewrite zlen_cons in HJ2.
  assert (HL : zlen ([0] ++ (J1 ++ j :: J3) ++ [0]) = 2 * n) by zl.
  apply wp_bind. wp_call (bn_mul_words_spec (wput m r ([0] ++ (J1 ++ j :: J3) ++ [0])) (wadd r 1) (wadd a 1) (zdrop 1 la));
    [apply sqr_rest_at; [done|rewrite zlen_zdrop; lia|lia|apply a_rest; lia|rewrite zlen_zdrop; lia]|by apply digits_zdrop|rewrite zlen_zdrop; lia|exact (digits_zget _ _ _ Hda Hw)| | | |done].
  { apply wput_writable; [rewrite HL; apply sqr_fits; lia|apply (writable_sub _ _ (2 * n)); [done|lia..]]. }
  { unfold ahead, apart in *. cbn. lia. }
  intros c m' (ws & -> & Hz & Hd & Hc & Hv).
  replace ([0] ++ (J1 ++ j :: J3) ++ [0]) with ([0] ++ J1 ++ ([j] ++ J3 ++ [0])) by (by rewrite <- !app_assoc).
  change 1 with (zlen [0]) at 1. rewrite sqr_over by zl.
  rewrite wr_wadd. replace ([0] ++ ws ++ [j] ++ J3 ++ [0]) with (([0] ++ ws) ++ [j] ++ (J3 ++ [0])) by (by rewrite <- !app_assoc).
  wp_call sqr_wr; [zl|zl| |done].
  intros [] m' ->. exists (ws ++ [c]), J3. rewrite zlen_snoc. split_and!; [by rewrite <- !app_assoc|lia|lia|by apply digits_snoc|].
  rewrite val_snoc, Hz. change (2 * 1) with 2. rewrite <- (zdrop_0 la) at 3. rewrite (cross_step 0 w la Hw). change (0 + 1) with 1. lia.
Qed.

Lemma sqr_next_row k w m' :
  1 <= k -> k + 1 < n -> sqr_laid k m' -> zget la k = Some w ->
  wp (c ← bn_mul_add_words (wadd r (1 + 2 * k)) (wadd a (k + 1)) (n - 1 - k) w; wr (wadd r (1 + 2 * k)) (n - 1 - k) c)
    (fun _ => sqr_laid (k + 1)) (fun _ => False) m'.
Proof.
  pose proof (zlen_nonneg la). intros Hk Hkn (ws & junk & -> & Hws & Hjunk & Hdw & Hval) Hw. destruct junk as [|j J]; [change (zlen []) with 0 in Hjunk; lia|]. rewrite zlen_cons in Hjunk.
  set (lo := ztake (2 * k) ws). set (hi := zdrop (2 * k) ws). assert (Hlo : zlen lo = 2 * k) by (apply zlen_ztake; lia).
  assert (Hhi : zlen hi = n - 1 - k) by (unfold hi; rewrite zlen_zdrop; lia). assert (Hsplit : ws = lo ++ hi) by (symmetry; apply ztake_zdrop).
  assert (Hvs : val ws = val lo + BASE ^ (2 * k) * val hi) by (rewrite Hsplit at 1; rewrite val_app, Hlo; done).
  rewrite Hsplit in *. clear Hsplit. apply digits_app in Hdw as [Hdlo Hdhi]. clearbody lo hi.
  set (L := [0] ++ (lo ++ hi) ++ (j :: J) ++ [0]). assert (HL : zlen L = 2 * n) by (unfold L; zl).
  assert (EL : L = ([0] ++ lo) ++ hi ++ ([j] ++ J ++ [0])) by (unfold L; by rewrite <- !app_assoc).
  assert (Hz0 : zlen ([0] ++ lo) = 1 + 2 * k) by (zl).
  assert (Hathi : at_ (wput m r L) (wadd r (1 + 2 * k)) hi).
  { pose proof (wput_at m r L ltac:(rewrite HL; apply sqr_fits; pose proof (zlen_nonneg la); lia)) as Hat. apply (at_sub _ _ _ (1 + 2 * k) (zlen hi)) in Hat; [|lia..].
    rewrite EL in Hat at 2. rewrite (zdrop_app (1 + 2 * k)), ztake_app in Hat by done. exact Hat. }
  apply wp_bind. wp_call (bn_mul_add_words_spec (wput m r L) (wadd r (1 + 2 * k)) (wadd a (k + 1)) hi (zdrop (k + 1) la));
    [exact Hathi|apply sqr_rest_at; [done|rewrite zlen_zdrop; lia|lia|apply a_rest; lia|rewrite zlen_zdrop; lia]|done|by apply digits_zdrop|done|rewrite zlen_zdrop; lia|exact (digits_zget _ _ _ Hda Hw)| | |done].
  { unfold ahead, apart in *. cbn. lia. }
  intros c m' (ws' & -> & Hz' & Hd' & Hc & Hv'). 
  pose proof (sqr_over ([0] ++ lo) hi ([j] ++ J ++ [0]) ws' ltac:(zl) ltac:(lia)) as Ho. rewrite Hz0 in Ho. rewrite EL, Ho. clear Ho.
  rewrite wr_wadd. replace (([0] ++ lo) ++ ws' ++ [j] ++ J ++ [0]) with (([0] ++ lo ++ ws') ++ [j] ++ (J ++ [0])) by (by rewrite <- !app_assoc).
  wp_call sqr_wr; [zl|zl| |done].
  intros [] m' ->. exists ((lo ++ ws') ++ [c]), J. rewrite zlen_snoc, zlen_app. split_and!; [by rewrite <- !app_assoc|lia|lia| |].
  - apply digits_snoc; [|done]. apply digits_app. by split.
  - rewrite val_snoc, val_app, zlen_app, Hlo, Hz', Z.pow_add_r by lia. rewrite (cross_step k w la Hw), Hvs in Hval.
    replace (2 * (k + 1)) with (2 * k + 2) by lia. rewrite (Z.pow_add_r _ (2 * k) 2) by lia. rewrite <- Hval. nia.
Qed.

Lemma sqr_rows_loop m' :
  2 < n -> sqr_laid 1 m' -> wp (sqr_rows n (wadd r 3) (wadd a 1)) (fun _ => sqr_laid (n - 1)) (fun _ => False) m'.
Proof.
  intros Hn H1. unfold sqr_rows. apply wp_bind.
  apply (wp_for (fun i '(rp, ap) m2 => rp = wadd r (3 + 2 * i) /\ ap = wadd a (1 + i) /\ sqr_laid (i + 1) m2)).
  - by split_and!.
  - intros i [rp ap] m2 Hi (-> & -> & H). destruct (zget_lt la (i + 1)) as [w Hw]; [lia|]. cbv zeta. rewrite !wadd_wadd.
    replace (1 + i + 1) with (i + 1 + 1) by lia. apply wp_bind. pose proof H as (ws & junk & -> & Hws & Hj & _).
    wp_call a_read; [zl|exact Hw| |done]. intros ? ? [-> ->].
    replace (3 + 2 * i) with (1 + 2 * (i + 1)) by lia. replace (n - 2 - i) with (n - 1 - (i + 1)) by lia.
    pose proof (sqr_next_row (i + 1) w _ ltac:(lia) ltac:(lia) H Hw) as Hrow. unfold wp in Hrow. unfold wp, mbind, M_bind in *.
    destruct (bn_mul_add_words _ _ _ w _) as [c m3|m3|]; [|done|done]. destruct (wr _ _ c m3) as [u m4|m4|]; [|done|done].
    cbn. split_and!; [f_equal; lia|f_equal; lia|exact Hrow].
  - intros [rp ap] m2 (_ & _ & H). apply wp_ret. by replace (0 + Z.of_nat (Z.to_nat (n - 2)) + 1) with (n - 1) in H by lia.
Qed.

(** All the rows: twice the second to last words and the zeros are [cross]. *)
Lemma sqr_cross_words m' :
  (1 < n -> sqr_laid (n - 1) m') -> (n = 1 -> m' = wput m r [0; 0]) -> 1 <= n ->
  exists L, m' = wput m r L /\ zlen L = 2 * n /\ digits L /\ val L = BASE * cross la.
Proof.
  intros H1 H2 Hn. destruct (Z.eq_dec n 1) as [E|E].
  - exists [0; 0]. rewrite (H2 E). destruct (zget_lt la 0) as [x Hx]; [lia|]. split_and!; [done|by rewrite E|repeat constructor; lia|].
    destruct la as [|y [|z t]]; [done|cbn; lia|exfalso; rewrite !zlen_cons in E; pose proof (zlen_nonneg t); lia].
  - destruct H1 as (ws & junk & -> & Hws & Hj & Hd & Hv); [lia|]. assert (junk = []) as -> by (apply zlen_0; lia). exists ([0] ++ ws ++ [] ++ [0]).
    split_and!; [done|zl| |].
    + apply Forall_app. split; [by constructor|]. apply digits_app. split; [done|by constructor].
    + cbn [app]. rewrite val_cons, val_snoc. destruct (zget_lt la (n - 1)) as [x Hx]; [lia|].
      rewrite (cross_step _ _ _ Hx) in Hv. replace (n - 1 + 1) with n in Hv by lia. rewrite zdrop_all in Hv. cbn [cross val] in Hv. lia.
Qed.

(** The square, and what else has been written. *)
Definition sqr_done (m' : words) : Prop :=
  exists ws1 sq ws, m' = wput (wput (wput m r ws1) tmp sq) r ws /\ zlen ws1 = 2 * n /\ zlen sq = 2 * n /\
    digits ws1 /\ digits sq /\ zlen ws = 2 * n /\ digits ws /\ val ws = val la * val la.

(** Doubled, and the squares added. *)
Lemma sqr_finish L :
  1 <= n -> zlen L = 2 * n -> digits L -> val L = BASE * cross la ->
  wp (bn_add_words r r r (2 * n);; bn_sqr_words tmp a n;; bn_add_words r r tmp (2 * n);; mret tt) (fun _ => sqr_done) (fun _ => False) (wput m r L).
Proof.
  intros Hn HL HdL HvL. pose proof (val_square la) as Hsq. pose proof (squares_nonneg la). pose proof (cross_nonneg la Hda).
  pose proof (val_range la Hda) as Hvr. assert (Hpow : BASE ^ (2 * n) = BASE ^ n * BASE ^ n) by (rewrite <- Z.pow_add_r by lia; f_equal; lia).
  assert (Hbound : val la * val la < BASE ^ (2 * n)) by (rewrite Hpow; nia).
  assert (HwL : writable m r (zlen L)) by (rewrite HL; apply sqr_fits; lia). pose proof (wput_at m r L HwL) as HatL.
  apply wp_bind. wp_call (bn_add_words_spec (wput m r L) r r r L L (2 * n)); [done|done|done|done|done|done| |apply ahead_refl|apply ahead_refl| |done].
  { apply wput_writable; [done|apply sqr_fits; lia]. }
  intros c1 m5 (D & -> & HzD & HdD & Hc1 & HvD). pose proof (val_range D HdD) as HrD. rewrite HzD in HrD. unfold bit in Hc1.
  assert (c1 = 0) as -> by nia. rewrite Z.mul_0_r, Z.add_0_r in HvD.
  assert (Hover : wput (wput m r L) r D = wput m r D).
  { pose proof (sqr_over [] L [] D) as Ho. rewrite !app_nil_r in Ho. cbn [app] in Ho. change (zlen (@nil Z)) with 0 in Ho. rewrite wadd_0 in Ho. apply Ho; lia. }
  rewrite Hover. clear Hover. assert (HwD : writable m r (zlen D)) by (rewrite HzD; apply sqr_fits; lia).
  apply wp_bind. wp_call (bn_sqr_words_spec (wput m r D) tmp a la); [|apply wput_apart; [done|exact Ha|by rewrite HzD]|done|done| |done].
  { by apply wput_writable. }
  intros [] m6 (sq & -> & Hzsq & Hdsq & Hvsq). assert (Hwtmp : writable (wput m r D) tmp (zlen sq)) by (rewrite Hzsq; by apply wput_writable).
  assert (Hwr : forall k, 0 <= k <= 2 * n -> writable (wput (wput m r D) tmp sq) r k) by (intros; apply wput_writable; [done|apply wput_writable; [done|by apply sqr_fits]]).
  apply wp_bind. wp_call (bn_add_words_spec (wput (wput m r D) tmp sq) r r tmp D sq (2 * n)); [|by apply wput_at|done|done|done|done| |apply ahead_refl| | |done].
  { apply wput_apart; [done|by apply wput_at|]. rewrite Hzsq, HzD. unfold apart in *. lia. }
  { apply Hwr. lia. }
  { unfold ahead, apart in *. lia. }
  intros c2 m7 (ws & -> & Hzw & Hdw & Hc2 & Hvw). pose proof (val_range ws Hdw) as Hrw. rewrite Hzw in Hrw. unfold bit in Hc2.
  assert (c2 = 0) as -> by nia. apply wp_ret. exists D, sq, ws. split_and!; try done. lia.
Qed.

Lemma bn_sqr_normal_spec :
  wp (bn_sqr_normal r a n tmp)
    (fun _ m' => n = 0 /\ m' = m \/ sqr_done m') (fun _ => False) m.
Proof.
  pose proof (zlen_nonneg la) as Hn0. unfold bn_sqr_normal. destruct (Z.eqb_spec n 0) as [E|E]; [apply wp_ret; by left|].
  replace (n * 2) with (2 * n) by lia.
  (* the first and the last word *)
  assert (exists R, m = wput m r R /\ zlen R = 2 * n) as (R & HR & HzR) by (by apply writable_self).
  destruct (zlen_pos R) as (x0 & R1 & ->); [lia|]. rewrite zlen_cons in HzR.
  destruct (exists_last (l := R1)) as (J & xl & ->); [intros ->; change (zlen []) with 0 in HzR; lia|]. rewrite zlen_snoc in HzR.
  apply wp_bind. rewrite HR at 1. replace (x0 :: J ++ [xl]) with ((x0 :: J) ++ [xl] ++ []) by (by rewrite app_nil_r). wp_call sqr_wr; [zl|zl| |done].
  intros [] m1 ->. apply wp_bind. replace ((x0 :: J) ++ [0] ++ []) with ([] ++ [x0] ++ (J ++ [0])) by (by rewrite app_nil_r). wp_call sqr_wr; [zl|done| |done].
  intros [] m2 ->. cbn [app].
  (* the rows *)
  apply wp_bind. set (L0 := 0 :: J ++ [0]). assert (HL0 : zlen L0 = 2 * n) by (unfold L0; zl).
  eapply (wp_mono _ (fun '(rp, ap) m3 => (1 < n -> rp = wadd r 3 /\ ap = wadd a 1 /\ sqr_laid 1 m3) /\ (n = 1 -> m3 = wput m r [0; 0])) _ (fun _ => False)); [| |done].
  { destruct (Z.ltb_spec 1 n) as [Hlt|Hle].
    - destruct (zget_lt la 0) as [w Hw]; [lia|]. apply wp_bind. wp_call (a_read L0 0 w); [done|done| |done]. intros ? ? [-> ->].
      pose proof (sqr_first_row w J ltac:(lia) Hw ltac:(lia)) as Hrow. unfold wp in Hrow. unfold wp, mbind, M_bind in *. change ([0] ++ J ++ [0]) with L0 in Hrow.
      destruct (bn_mul_words _ _ _ w _) as [c m3|m3|]; [|done|done]. destruct (wr _ _ c m3) as [u m4|m4|]; [|done|done].
      cbn. split; [intros _; by rewrite wadd_wadd|lia].
    - apply wp_ret. split; [lia|]. intros E1. unfold L0. by assert (J = []) as -> by (apply zlen_0; lia). }
  intros [rp ap] m3 [Hrows Hone]. apply wp_bind.
  eapply (wp_mono _ (fun _ m4 => exists L, m4 = wput m r L /\ zlen L = 2 * n /\ digits L /\ val L = BASE * cross la) _ (fun _ => False)); [| |done].
  { destruct (Z.ltb_spec 2 n) as [Hlt|Hle].
    - destruct Hrows as (-> & -> & H1); [lia|]. wp_call sqr_rows_loop; [done|exact H1| |done]. intros [] m4 H4. apply sqr_cross_words; [done|lia|lia].
    - apply wp_ret, sqr_cross_words; [|done|lia]. intros H1. replace (n - 1) with 1 by lia. by apply Hrows. }
  intros [] m4 (L & -> & HL & HdL & HvL). wp_call sqr_finish; [lia|done|done|done| |done]. intros [] m5 H. by right.
Qed.
End Sqr.
