(* ===== verification/CtFacts.v ===== *)
(** Facts about [Ct]: the masks are all ones or all zeros as the comparison they stand
    for decides, on every pair of 64-bit words. *)
From S2P Require Import Prelude Ct BnWords BnWordsFacts.

Definition mask_of (b : bool) : Z := if b then BN_MASK2 else 0.

Lemma word_testbit_63 a : word a -> Z.testbit a 63 = (2 ^ 63 <=? a).
Proof.
  intros Ha. unfold word in Ha. destruct (Z.leb_spec (2 ^ 63) a) as [H|H].
  - rewrite Z.testbit_true by lia. assert (a / 2 ^ 63 = 1) as -> by dlia. done.
  - apply Z.bits_above_log2; [lia|]. destruct (decide (a = 0)) as [->|]; [done|]. apply Z.log2_lt_pow2; lia.
Qed.

Lemma constant_time_msb_w_spec a : word a -> constant_time_msb_w a = mask_of (2 ^ 63 <=? a).
Proof.
  intros Ha. unfold constant_time_msb_w. unfold word in Ha. rewrite Z.shiftr_div_pow2 by lia. destruct (Z.leb_spec (2 ^ 63) a).
  - assert (a / 2 ^ 63 = 1) as -> by dlia. done.
  - assert (a / 2 ^ 63 = 0) as -> by dlia. done.
Qed.

Lemma u64_lnot a : word a -> u64 (Z.lnot a) = BASE - 1 - a.
Proof.
  intros Ha. unfold word in Ha. unfold Z.lnot, u64. change 18446744073709551616 with BASE. rewrite <- Z.sub_1_r.
  rewrite <- (Z.mod_add _ 1) by lia. rewrite Z.mod_small; lia.
Qed.

Lemma land_word a b : word a -> word b -> word (Z.land a b).
Proof.
  unfold word. intros Ha Hb. rewrite <- (Z.mod_small b BASE), <- Z.land_ones, Z.land_assoc, Z.land_ones by lia. apply Z.mod_pos_bound. lia.
Qed.
Lemma small_bits a i : word a -> 64 <= i -> Z.testbit a i = false.
Proof.
  intros Ha Hi. unfold word in Ha. destruct (decide (a = 0)) as [->|]; [apply Z.bits_0|]. apply Z.bits_above_log2; [lia|].
  assert (Z.log2 a < 64) by (apply Z.log2_lt_pow2; lia). lia.
Qed.
Lemma word_bits a : 0 <= a -> (forall i, 64 <= i -> Z.testbit a i = false) -> word a.
Proof.
  intros Ha Hb. split; [done|]. destruct (decide (a = 0)) as [->|]; [lia|]. apply Z.log2_lt_pow2; [lia|].
  destruct (Z.lt_ge_cases (Z.log2 a) 64) as [|H]; [done|]. specialize (Hb _ H). by rewrite Z.bit_log2 in Hb by lia.
Qed.
Lemma lor_word a b : word a -> word b -> word (Z.lor a b).
Proof.
  intros Ha Hb. apply word_bits; [apply Z.lor_nonneg; unfold word in *; lia|]. intros i Hi. by rewrite Z.lor_spec, !small_bits.
Qed.
Lemma lxor_word a b : word a -> word b -> word (Z.lxor a b).
Proof.
  intros Ha Hb. apply word_bits; [apply Z.lxor_nonneg; unfold word in *; lia|]. intros i Hi. by rewrite Z.lxor_spec, !small_bits.
Qed.

Lemma constant_time_is_zero_w_spec a : word a -> constant_time_is_zero_w a = mask_of (a =? 0).
Proof.
  intros Ha. unfold constant_time_is_zero_w. rewrite constant_time_msb_w_spec by (apply land_word; apply u64_word).
  f_equal. rewrite <- word_testbit_63 by (apply land_word; apply u64_word). rewrite Z.land_spec, !word_testbit_63, u64_lnot by auto using u64_word.
  unfold word in Ha. destruct (Z.eqb_spec a 0) as [->|Hne]; [done|]. rewrite (u64_id (a - 1)) by (unfold word; lia).
  apply andb_false_iff. rewrite !Z.leb_gt. lia.
Qed.

Lemma constant_time_eq_w_spec a b : word a -> word b -> constant_time_eq_w a b = mask_of (a =? b).
Proof.
  intros Ha Hb. unfold constant_time_eq_w. rewrite constant_time_is_zero_w_spec by by apply lxor_word. f_equal.
  apply eq_true_iff_eq. rewrite !Z.eqb_eq. apply Z.lxor_eq_0_iff.
Qed.

Lemma constant_time_lt_w_spec a b : word a -> word b -> constant_time_lt_w a b = mask_of (a <? b).
Proof.
  intros Ha Hb. unfold constant_time_lt_w. pose proof (u64_word (a - b)) as Hs.
  rewrite constant_time_msb_w_spec by auto using lxor_word, lor_word. f_equal.
  rewrite <- word_testbit_63 by auto using lxor_word, lor_word. rewrite !Z.lxor_spec, Z.lor_spec, !Z.lxor_spec, !word_testbit_63 by done.
  unfold word in Ha, Hb.
  assert (Hsub : u64 (a - b) = if a <? b then a - b + BASE else a - b).
  { destruct (Z.ltb_spec a b); unfold u64; change 18446744073709551616 with BASE; [rewrite <- (Z.mod_add _ 1) by lia|]; apply Z.mod_small; lia. }
  rewrite Hsub. destruct (Z.ltb_spec a b), (Z.leb_spec (2 ^ 63) a), (Z.leb_spec (2 ^ 63) b), (Z.leb_spec (2 ^ 63) (a - b)); try destruct (Z.leb_spec (2 ^ 63) (a - b + BASE)); try done; lia.
Qed.

Lemma constant_time_select_w_spec c a b : word a -> word b -> constant_time_select_w (mask_of c) a b = if c then a else b.
Proof.
  intros Ha Hb. unfold constant_time_select_w. destruct c; cbn [mask_of].
  - change (u64 (Z.lnot BN_MASK2)) with 0. rewrite Z.land_0_l, Z.lor_0_r, Z.land_comm. unfold BN_MASK2. change 0xffffffffffffffff with (BASE - 1).
    rewrite land_low by lia. by apply Z.mod_small.
  - change (u64 (Z.lnot 0)) with (BASE - 1). rewrite Z.land_0_l, Z.lor_0_l, Z.land_comm, land_low by lia. by apply Z.mod_small.
Qed.

Definition is_int (z : Z) : Prop := - 2 ^ 31 <= z < 2 ^ 31.
Lemma to_int_u64 z : is_int z -> to_int (u64 z) = z.
Proof.
  intros Hz. unfold is_int in Hz. unfold to_int, u64. rewrite <- Zplus_mod_idemp_l. change 18446744073709551616 with (4294967296 * 4294967296).
  rewrite Z.rem_mul_r by lia. rewrite (Z.mul_comm 4294967296 (_ mod _)), Z.mod_add, Z.mod_mod, Zplus_mod_idemp_l by lia. rewrite Z.mod_small; lia.
Qed.
Lemma constant_time_select_int_spec c a b : is_int a -> is_int b -> constant_time_select_int (mask_of c) a b = if c then a else b.
Proof.
  intros Ha Hb. unfold constant_time_select_int. rewrite constant_time_select_w_spec by apply u64_word. destruct c; by apply to_int_u64.
Qed.
