(* ===== verification/Bn.v ===== *)
(** crypto/fipsmodule/bn: the BIGNUM (bn.c), its comparisons (cmp.c) and sums
    (add.c). The BIGNUMs live in a store and are named by their position, so that the
    arguments of a call may be the same number; [d] of the number [x] is the array [x] of
    the collection that [BnWords] works on. *)
From S2P Require Import Prelude Mem Cells Ct BnWords.

Record BIGNUM := mkBN {
  width : Z;
  dmax : Z;
  neg : bool;
  flags : Z;
}.
Definition BN_FLG_MALLOCED : Z := 0x01.
Definition BN_FLG_STATIC_DATA : Z := 0x02.

Record bn_store := mkStore {
  nums : list BIGNUM;
  arrays : words;
  bn_heap : heap;
}.
Abbreviation bn := nat (only parsing).

(** [x->d] *)
Definition bn_d (x : bn) : wptr := (x, 0).
Definition bn_get (x : bn) : M bn_store BIGNUM := s ← get; deref (nums s !! x).
Definition bn_put (x : bn) (n : BIGNUM) : M bn_store unit :=
  _ ← bn_get x; modify (fun s => mkStore (<[x := n]> (nums s)) (arrays s) (bn_heap s)).
Definition on_words {A} (m : M words A) : M bn_store A := zoom arrays (fun w s => mkStore (nums s) w (bn_heap s)) m.
Definition on_heap {A} (m : M heap A) : M bn_store A := zoom bn_heap (fun h s => mkStore (nums s) (arrays s) h) m.
Definition bn_set_width (x : bn) (w : Z) : M bn_store unit :=
  n ← bn_get x; bn_put x (mkBN w (dmax n) (neg n) (flags n)).
Definition bn_set_neg (x : bn) (b : bool) : M bn_store unit :=
  n ← bn_get x; bn_put x (mkBN (width n) (dmax n) b (flags n)).

(** The [n] words at [p], and storing words there ([OPENSSL_memcpy]). *)
Definition wread (p : wptr) (n : Z) : M words (list Z) :=
  m ← get; l ← deref (m !! p.1); assert_ (0 <=? p.2);; deref (ptr_read (P (zdrop p.2 l)) n).
Definition wwrite (p : wptr) (ws : list Z) : M words unit :=
  m ← get; l ← deref (m !! p.1); l ← deref (zput l p.2 ws); put (<[p.1 := l]> m).

(** * bn.c *)

Section Bn.
Context `{alloc : Allocator}.

Definition sizeof_BIGNUM : Z := 24.
(** The struct goes behind the others; its name is returned. *)
Definition bn_alloc (n : BIGNUM) (d : list Z) : M bn_store bn := fun s =>
  Ok (length (nums s)) (mkStore (nums s ++ [n]) (arrays s ++ [d]) (bn_heap s)).
Definition BN_new : M bn_store bn :=
  p ← on_heap (OPENSSL_malloc sizeof_BIGNUM);
  match p with
  | None => fail
  | Some _ => bn_alloc (mkBN 0 0 false BN_FLG_MALLOCED) []
  end.

Definition bn_minimal_width (x : bn) : M bn_store Z :=
  n ← bn_get x;
  iter (S (Z.to_nat (width n))) (fun ret =>
    if 0 <? ret then
      w ← on_words (rd (bn_d x) (ret - 1));
      if w =? 0 then mret (inl (ret - 1)) else mret (inr ret)
    else mret (inr ret)) (width n).

Definition bn_set_minimal_width (x : bn) : M bn_store unit :=
  w ← bn_minimal_width x;
  bn_set_width x w;;
  if w =? 0 then bn_set_neg x false else mret tt.

Definition bn_wexpand (x : bn) (n : Z) : M bn_store unit :=
  b ← bn_get x;
  if n <=? dmax b then mret tt else
  if INT_MAX / (4 * BN_BITS2) <? n then fail else
  if negb (Z.land (flags b) BN_FLG_STATIC_DATA =? 0) then fail else
  a ← on_heap (malloc_cells (u64 (BN_BYTES * n)));
  match a with
  | None => fail
  | Some a =>
      old ← on_words (wread (bn_d x) (width b));
      a ← deref (zput a 0 old);
      modify (fun s => mkStore (<[x := mkBN (width b) n (neg b) (flags b)]> (nums s)) (<[x := a]> (arrays s)) (bn_heap s))
  end.

Definition bn_expand (x : bn) (bits : Z) : M bn_store unit :=
  if u64 (u64 (bits + BN_BITS2) - 1) <? bits then fail else
  bn_wexpand x (u64 (u64 (bits + BN_BITS2) - 1) / BN_BITS2).

Definition BN_copy (dest src : bn) : M bn_store unit :=
  if Nat.eqb src dest then mret tt else
  s ← bn_get src;
  bn_wexpand dest (width s);;
  ws ← on_words (wread (bn_d src) (width s));
  on_words (wwrite (bn_d dest) ws);;
  bn_set_width dest (width s);;
  bn_set_neg dest (neg s).

(** [BN_free] releases what the caller no longer names. *)
Definition BN_dup (src : bn) : M bn_store bn :=
  copy ← BN_new; BN_copy copy src;; mret copy.

Definition BN_clear (x : bn) : M bn_store unit :=
  n ← bn_get x;
  on_words (wzero (bn_d x) (dmax n));;
  bn_set_width x 0;; bn_set_neg x false.

(** One halving of the word: [x = l >> k] and the mask that tells whether it is zero. *)
Definition num_bits_step (k : Z) '((l, bits) : Z * Z) : Z * Z :=
  let x := Z.shiftr l k in
  let mask := u64 (0 - x) in
  let mask := u64 (0 - Z.shiftr mask (BN_BITS2 - 1)) in
  (Z.lxor l (Z.land (Z.lxor x l) mask), bits + Z.land k mask).
Definition BN_num_bits_word (l : Z) : Z :=
  let bits := b2z (negb (l =? 0)) in
  (num_bits_step 1 (num_bits_step 2 (num_bits_step 4 (num_bits_step 8 (num_bits_step 16 (num_bits_step 32 (l, bits))))))).2.

Definition BN_num_bits (x : bn) : M bn_store Z :=
  width ← bn_minimal_width x;
  if width =? 0 then mret 0 else
  w ← on_words (rd (bn_d x) (width - 1));
  mret (u32 ((width - 1) * BN_BITS2 + BN_num_bits_word w)).
Definition BN_num_bytes (x : bn) : M bn_store Z := b ← BN_num_bits x; mret (u32 (b + 7) / 8).

Definition BN_zero (x : bn) : M bn_store unit := bn_set_width x 0;; bn_set_neg x false.
Definition BN_set_word (x : bn) (value : Z) : M bn_store unit :=
  if value =? 0 then BN_zero x else
  bn_wexpand x 1;;
  bn_set_neg x false;;
  on_words (wr (bn_d x) 0 value);;
  bn_set_width x 1.
Definition BN_one (x : bn) : M bn_store unit := BN_set_word x 1.
Definition BN_set_u64 (x : bn) (value : Z) : M bn_store unit := BN_set_word x value.

Definition bn_set_words (x : bn) (ws : wptr) (num : Z) : M bn_store unit :=
  bn_wexpand x num;;
  l ← on_words (wread ws num);
  on_words (wwrite (bn_d x) l);;
  bn_set_width x num;; bn_set_neg x false.

(** [mask |= d[i]] for the words from [from] up to [to]. *)
Definition or_words (p : wptr) (from to mask : Z) : M words Z :=
  for_ from (Z.to_nat (to - from)) (fun i mask => w ← rd p i; mret (Z.lor mask w)) mask.

Definition bn_fits_in_words (x : bn) (num : Z) : M bn_store bool :=
  n ← bn_get x;
  mask ← on_words (or_words (bn_d x) num (width n) 0);
  mret (mask =? 0).

Definition bn_copy_words (out : wptr) (num : Z) (x : bn) : M bn_store unit :=
  n ← bn_get x;
  if neg n then fail else
  width ← (if num <? width n then
      fits ← bn_fits_in_words x num;
      if negb fits then fail else mret num
    else mret (width n));
  on_words (wzero out num);;
  l ← on_words (wread (bn_d x) width);
  on_words (wwrite out l).

Definition BN_is_negative (x : bn) : M bn_store bool := n ← bn_get x; mret (neg n).
Definition BN_is_zero (x : bn) : M bn_store bool := w ← bn_minimal_width x; mret (w =? 0).
Definition BN_set_negative (x : bn) (sign : bool) : M bn_store unit :=
  z ← (if sign then BN_is_zero x else mret true);
  bn_set_neg x (sign && negb z).

Definition bn_resize_words (x : bn) (num : Z) : M bn_store unit :=
  n ← bn_get x;
  if width n <=? num then
    bn_wexpand x num;;
    on_words (wzero (wadd (bn_d x) (width n)) (num - width n));;
    bn_set_width x num
  else
    fits ← bn_fits_in_words x num;
    if negb fits then fail else bn_set_width x num.

Definition bn_select_words (r : wptr) (mask : Z) (a b : wptr) (num : Z) : M words unit :=
  for_ 0 (Z.to_nat num) (fun i _ => x ← rd a i; y ← rd b i; wr r i (constant_time_select_w mask x y)) tt.

(** * cmp.c *)

Definition bn_cmp_words_consttime (a : wptr) (a_len : Z) (b : wptr) (b_len : Z) : M words Z :=
  let min := if a_len <? b_len then a_len else b_len in
  ret ← for_ 0 (Z.to_nat min) (fun i ret =>
    x ← rd a i; y ← rd b i;
    let eq := constant_time_eq_w x y in
    let lt := constant_time_lt_w x y in
    mret (constant_time_select_int eq ret (constant_time_select_int lt (-1) 1))) 0;
  if a_len <? b_len then
    mask ← or_words b a_len b_len 0;
    mret (constant_time_select_int (constant_time_is_zero_w mask) ret (-1))
  else if b_len <? a_len then
    mask ← or_words a b_len a_len 0;
    mret (constant_time_select_int (constant_time_is_zero_w mask) ret 1)
  else mret ret.

Definition BN_ucmp (a b : bn) : M bn_store Z :=
  x ← bn_get a; y ← bn_get b;
  on_words (bn_cmp_words_consttime (bn_d a) (width x) (bn_d b) (width y)).

Definition BN_cmp (a b : option bn) : M bn_store Z :=
  match a, b with
  | Some a, Some b =>
      x ← bn_get a; y ← bn_get b;
      if negb (eqb (neg x) (neg y)) then (if neg x then mret (-1) else mret 1) else
      ret ← BN_ucmp a b;
      mret (if neg x then - ret else ret)
  | Some _, None => mret (-1)
  | None, Some _ => mret 1
  | None, None => mret 0
  end.

Definition bn_less_than_words (a b : wptr) (len : Z) : M words bool :=
  r ← bn_cmp_words_consttime a len b len; mret (r <? 0).

Definition BN_abs_is_word (x : bn) (w : Z) : M bn_store bool :=
  width ← bn_minimal_width x;
  if width =? 1 then d0 ← on_words (rd (bn_d x) 0); mret (d0 =? w)
  else if width =? 0 then mret (w =? 0)
  else mret false.

(** The number on the caller's stack whose only word is [w], for the time of a call. *)
Definition with_static {A} (w : Z) (k : bn -> M bn_store A) : M bn_store A :=
  x ← bn_alloc (mkBN (b2z (0 <? w)) 1 false BN_FLG_STATIC_DATA) [w];
  r ← k x;
  modify (fun s => mkStore (take x (nums s)) (take x (arrays s)) (bn_heap s));;
  mret r.
Definition BN_cmp_word (a : bn) (b : Z) : M bn_store Z := with_static b (fun b_bn => BN_cmp (Some a) (Some b_bn)).

Definition BN_is_one (x : bn) : M bn_store bool :=
  n ← bn_get x; if neg n then mret false else BN_abs_is_word x 1.
Definition BN_is_word (x : bn) (w : Z) : M bn_store bool :=
  b ← BN_abs_is_word x w; n ← bn_get x; mret (b && ((w =? 0) || negb (neg n))).
Definition BN_is_odd (x : bn) : M bn_store bool :=
  n ← bn_get x;
  if 0 <? width n then w ← on_words (rd (bn_d x) 0); mret (Z.land w 1 =? 1) else mret false.

Definition BN_is_pow2 (x : bn) : M bn_store bool :=
  width ← bn_minimal_width x;
  n ← bn_get x;
  if (width =? 0) || neg n then mret false else
  low ← for_ 0 (Z.to_nat (width - 1)) (fun i (ok : bool) =>
    if ok then w ← on_words (rd (bn_d x) i); mret (w =? 0) else mret false) true;
  if negb low then mret false else
  w ← on_words (rd (bn_d x) (width - 1));
  mret (0 =? Z.land w (u64 (w - 1))).

Definition BN_equal_consttime (a b : bn) : M bn_store bool :=
  x ← bn_get a; y ← bn_get b;
  mask ← on_words (or_words (bn_d b) (width x) (width y) 0);
  mask ← on_words (or_words (bn_d a) (width y) (width x) mask);
  let min := if width x <? width y then width x else width y in
  mask ← on_words (for_ 0 (Z.to_nat min) (fun i mask =>
    u ← rd (bn_d a) i; v ← rd (bn_d b) i; mret (Z.lor mask (Z.lxor u v))) mask);
  mret (Z.lor mask (b2z (xorb (neg x) (neg y))) =? 0).

(** * add.c *)

Definition bn_uadd_fixed (r a b : bn) : M bn_store unit :=
  x ← bn_get a; y ← bn_get b;
  let '(a, b) := if width x <? width y then (b, a) else (a, b) in
  let '(max, min) := if width x <? width y then (width y, width x) else (width x, width y) in
  bn_wexpand r (max + 1);;
  bn_set_width r (max + 1);;
  carry ← on_words (bn_add_words (bn_d r) (bn_d a) (bn_d b) min);
  carry ← for_ min (Z.to_nat (max - min)) (fun i carry =>
    ai ← on_words (rd (bn_d a) i);
    let tmp := u64 (carry + ai) in
    on_words (wr (bn_d r) i tmp);;
    mret (b2z (tmp <? ai))) carry;
  on_words (wr (bn_d r) max carry).

Definition BN_uadd (r a b : bn) : M bn_store unit := bn_uadd_fixed r a b;; bn_set_minimal_width r.

(** The borrow goes through the words of [a] that are zero; [dif] words are left. *)
Definition usub_borrow (r a : bn) '((i, dif) : Z * Z) : M bn_store (Z * Z + Z * Z) :=
  if negb (dif =? 0) then
    t1 ← on_words (rd (bn_d a) i);
    on_words (wr (bn_d r) i (u64 (t1 - 1)));;
    if negb (t1 =? 0) then mret (inr (i + 1, dif - 1)) else mret (inl (i + 1, dif - 1))
  else mret (inr (i, dif)).

Definition usub_step (t1 t2 : Z) (carry : bool) : Z * bool :=
  if carry then (u64 (t1 - u64 (t2 + 1)), t1 <=? t2) else (u64 (t1 - t2), t1 <? t2).

Definition BN_usub (r a b : bn) : M bn_store unit :=
  max ← bn_minimal_width a;
  min ← bn_minimal_width b;
  let dif := max - min in
  if dif <? 0 then fail else
  bn_wexpand r max;;
  carry ← for_ 0 (Z.to_nat min) (fun i carry =>
    t1 ← on_words (rd (bn_d a) i); t2 ← on_words (rd (bn_d b) i);
    let '(t1, carry) := usub_step t1 t2 carry in
    on_words (wr (bn_d r) i t1);;
    mret carry) false;
  '(i, dif) ← (if (carry : bool) then
      if dif =? 0 then fail else iter (S (Z.to_nat dif)) (usub_borrow r a) (min, dif)
    else mret (min, dif));
  (if (0 <? dif) && negb (Nat.eqb r a) then
     l ← on_words (wread (wadd (bn_d a) i) dif); on_words (wwrite (wadd (bn_d r) i) l)
   else mret tt);;
  bn_set_width r max;; bn_set_neg r false;;
  bn_set_minimal_width r.

(** [r = |a| - |b|] with its sign. *)
Definition sub_signed (r a b : bn) : M bn_store unit :=
  c ← BN_ucmp a b;
  if c <? 0 then BN_usub r b a;; bn_set_neg r true
  else BN_usub r a b;; bn_set_neg r false.

Definition BN_add (r a b : bn) : M bn_store unit :=
  x ← bn_get a; y ← bn_get b;
  let a_neg := neg x in
  if xorb a_neg (neg y) then
    let '(a, b) := if a_neg then (b, a) else (a, b) in
    sub_signed r a b
  else
    ret ← succeeds (BN_uadd r a b);
    bn_set_neg r a_neg;;
    require ret.

Definition BN_sub (r a b : bn) : M bn_store unit :=
  x ← bn_get a; y ← bn_get b;
  if negb (eqb (neg x) (neg y)) then
    BN_uadd r a b;; bn_set_neg r (neg x)
  else
    let '(a, b) := if neg x then (b, a) else (a, b) in
    sub_signed r a b.

(** [w] is added to the words from [i] on, as long as it carries. *)
Definition add_word_turn (x : bn) (top : Z) '((i, w) : Z * Z) : M bn_store (Z * Z + Z * Z) :=
  if negb (w =? 0) && (i <? top) then
    d ← on_words (rd (bn_d x) i);
    let l := u64 (d + w) in
    on_words (wr (bn_d x) i l);;
    mret (inl (i + 1, b2z (l <? w)))
  else mret (inr (i, w)).
Definition add_word_pos (x : bn) (w : Z) : M bn_store unit :=
  n ← bn_get x;
  '(i, w) ← iter (S (Z.to_nat (width n))) (add_word_turn x (width n)) (0, w);
  if negb (w =? 0) && (i =? width n) then
    bn_wexpand x (width n + 1);;
    bn_set_width x (width n + 1);;
    on_words (wr (bn_d x) i w)
  else mret tt.

(** [for (;;)]: the borrow goes on until a word is large enough. *)
Definition sub_word_turn (x : bn) '((i, w) : Z * Z) : M bn_store (Z * Z + Z) :=
  d ← on_words (rd (bn_d x) i);
  on_words (wr (bn_d x) i (u64 (d - w)));;
  if w <=? d then mret (inr i) else mret (inl (i + 1, 1)).
Definition sub_word_pos (x : bn) (w : Z) : M bn_store unit :=
  mw ← bn_minimal_width x;
  d0 ← (if mw =? 1 then on_words (rd (bn_d x) 0) else mret 0);
  if (mw =? 1) && (d0 <? w) then
    on_words (wr (bn_d x) 0 (u64 (w - d0)));; bn_set_neg x true
  else
    n ← bn_get x;
    i ← iter (S (Z.to_nat (width n))) (sub_word_turn x) (0, w);
    d ← on_words (rd (bn_d x) i);
    if (d =? 0) && (i =? width n - 1) then bn_set_width x (width n - 1) else mret tt.

(** [BN_add_word] and [BN_sub_word] call each other on the negated number, once. *)
Definition BN_add_word (x : bn) (w : Z) : M bn_store unit :=
  if w =? 0 then mret tt else
  z ← BN_is_zero x;
  if (z : bool) then BN_set_word x w else
  n ← bn_get x;
  if neg n then
    bn_set_neg x false;;
    i ← succeeds (sub_word_pos x w);
    z ← BN_is_zero x;
    (if (z : bool) then mret tt else n ← bn_get x; bn_set_neg x (negb (neg n)));;
    require i
  else add_word_pos x w.

Definition BN_sub_word (x : bn) (w : Z) : M bn_store unit :=
  if w =? 0 then mret tt else
  z ← BN_is_zero x;
  if (z : bool) then BN_set_word x w;; BN_set_negative x true else
  n ← bn_get x;
  if neg n then
    bn_set_neg x false;;
    i ← succeeds (add_word_pos x w);
    bn_set_neg x true;;
    require i
  else sub_word_pos x w.

(** mul.c *)
Definition BN_mul_word (x : bn) (w : Z) : M bn_store unit :=
  n ← bn_get x;
  if width n =? 0 then mret tt else
  if w =? 0 then BN_zero x else
  ll ← on_words (bn_mul_words (bn_d x) (bn_d x) (width n) w);
  if negb (ll =? 0) then
    bn_wexpand x (width n + 1);;
    on_words (wr (bn_d x) (width n) ll);;
    bn_set_width x (width n + 1)
  else mret tt.
End Bn.
