(* ===== verification/BnShift.v ===== *)
(** crypto/fipsmodule/bn/shift.c: shifts, single bits, masks. [n] is an [int]. *)
From S2P Require Import Prelude Mem Ct BnWords Bn.

Section Shift.
Context `{alloc : Allocator}.

(** The words [i] from [n - 1] down to 0. *)
Definition for_down (n : Z) (body : Z -> M words unit) : M words unit :=
  for_ 0 (Z.to_nat n) (fun k _ => body (n - 1 - k)) tt.

Definition lshift_word (t f : wptr) (nw lb i : Z) : M words unit :=
  l ← rd f i;
  h ← rd t (nw + i + 1);
  wr t (nw + i + 1) (Z.lor h (Z.shiftr l (BN_BITS2 - lb)));;
  wr t (nw + i) (u64 (Z.shiftl l lb)).
Definition lshift_words (t f : wptr) (width nw lb : Z) : M words unit :=
  wr t (width + nw) 0;;
  (if lb =? 0 then for_down width (fun i => w ← rd f i; wr t (nw + i) w)
   else for_down width (lshift_word t f nw lb));;
  wzero t nw.

Definition BN_lshift (r a : bn) (n : Z) : M bn_store unit :=
  if n <? 0 then fail else
  x ← bn_get a;
  bn_set_neg r (neg x);;
  let nw := n / BN_BITS2 in
  bn_wexpand r (width x + nw + 1);;
  on_words (lshift_words (bn_d r) (bn_d a) (width x) nw (n mod BN_BITS2));;
  bn_set_width r (width x + nw + 1);;
  bn_set_minimal_width r.

Definition BN_lshift1 (r a : bn) : M bn_store unit :=
  x ← bn_get a;
  (if negb (Nat.eqb r a) then
     bn_set_neg r (neg x);; bn_wexpand r (width x + 1);; bn_set_width r (width x)
   else bn_wexpand r (width x + 1));;
  c ← on_words (for_ 0 (Z.to_nat (width x)) (fun i c =>
    t ← rd (bn_d a) i; wr (bn_d r) i (Z.lor (u64 (Z.shiftl t 1)) c);; mret (Z.shiftr t (BN_BITS2 - 1))) 0);
  if negb (c =? 0) then
    on_words (wr (bn_d r) (width x) 1);; y ← bn_get r; bn_set_width r (width y + 1)
  else mret tt.

(** [j] words from [f] on, moved down [rb] bits, to [t]. *)
Definition rshift_words (t f : wptr) (j rb : Z) : M words unit :=
  if rb =? 0 then for_ 0 (Z.to_nat j) (fun k _ => w ← rd f k; wr t k w) tt
  else
    l ← rd f 0;
    l ← for_ 0 (Z.to_nat (j - 1)) (fun k l =>
      let tmp := Z.shiftr l rb in
      l ← rd f (k + 1);
      wr t k (Z.lor tmp (u64 (Z.shiftl l (BN_BITS2 - rb))));;
      mret l) l;
    let l := Z.shiftr l rb in
    if negb (l =? 0) then wr t (j - 1) l else mret tt.

Definition BN_rshift (r a : bn) (n : Z) : M bn_store unit :=
  if n <? 0 then fail else
  a_width ← bn_minimal_width a;
  let nw := n / BN_BITS2 in
  if (a_width <=? nw) || (a_width =? 0) then BN_zero r else
  bits ← BN_num_bits a;
  let i := u32 (u32 (bits - n) + (BN_BITS2 - 1)) / BN_BITS2 in
  done ← (if negb (Nat.eqb r a) then
      x ← bn_get a; bn_set_neg r (neg x);; bn_wexpand r i;; mret false
    else mret (n =? 0));
  if (done : bool) then mret tt else
  bn_set_width r i;;
  on_words (rshift_words (bn_d r) (wadd (bn_d a) nw) (a_width - nw) (n mod BN_BITS2));;
  if i =? 0 then bn_set_neg r false else mret tt.

Definition BN_rshift1 (r a : bn) : M bn_store unit :=
  z ← BN_is_zero a;
  if (z : bool) then BN_zero r else
  i ← bn_minimal_width a;
  top ← on_words (rd (bn_d a) (i - 1));
  let j := i - b2z (top =? 1) in
  (if negb (Nat.eqb a r) then bn_wexpand r j;; x ← bn_get a; bn_set_neg r (neg x) else mret tt);;
  on_words (
    t ← rd (bn_d a) (i - 1);
    (if negb (Z.shiftr t 1 =? 0) then wr (bn_d r) (i - 1) (Z.shiftr t 1) else mret tt);;
    _ ← for_ 0 (Z.to_nat (i - 1)) (fun k c =>
      let i := i - 2 - k in
      t ← rd (bn_d a) i;
      wr (bn_d r) i (Z.lor (Z.shiftr t 1) c);;
      mret (u64 (Z.shiftl t (BN_BITS2 - 1)))) (u64 (Z.shiftl t (BN_BITS2 - 1)));
    mret tt);;
  bn_set_width r j;;
  if j =? 0 then bn_set_neg r false else mret tt.

Definition BN_set_bit (a : bn) (n : Z) : M bn_store unit :=
  if n <? 0 then fail else
  let i := n / BN_BITS2 in
  let j := n mod BN_BITS2 in
  x ← bn_get a;
  (if width x <=? i then
     bn_wexpand a (i + 1);;
     on_words (for_ (width x) (Z.to_nat (i + 1 - width x)) (fun k _ => wr (bn_d a) k 0) tt);;
     bn_set_width a (i + 1)
   else mret tt);;
  on_words (w ← rd (bn_d a) i; wr (bn_d a) i (Z.lor w (u64 (Z.shiftl 1 j)))).

Definition BN_clear_bit (a : bn) (n : Z) : M bn_store unit :=
  if n <? 0 then fail else
  let i := n / BN_BITS2 in
  let j := n mod BN_BITS2 in
  x ← bn_get a;
  if width x <=? i then fail else
  on_words (w ← rd (bn_d a) i; wr (bn_d a) i (Z.land w (u64 (Z.lnot (u64 (Z.shiftl 1 j))))));;
  bn_set_minimal_width a.

Definition bn_is_bit_set_words (a : wptr) (num bit : Z) : M words bool :=
  let i := bit / BN_BITS2 in
  let j := bit mod BN_BITS2 in
  if num <=? i then mret false else
  w ← rd a i; mret (negb (Z.land (Z.shiftr w j) 1 =? 0)).
Definition BN_is_bit_set (a : bn) (n : Z) : M bn_store bool :=
  if n <? 0 then mret false else
  x ← bn_get a; on_words (bn_is_bit_set_words (bn_d a) (width x) n).

Definition BN_mask_bits (a : bn) (n : Z) : M bn_store unit :=
  if n <? 0 then fail else
  let w := n / BN_BITS2 in
  let b := n mod BN_BITS2 in
  x ← bn_get a;
  if width x <=? w then fail else
  (if b =? 0 then bn_set_width a w
   else
     bn_set_width a (w + 1);;
     on_words (d ← rd (bn_d a) w; wr (bn_d a) w (Z.land d (u64 (Z.lnot (u64 (Z.shiftl BN_MASK2 b)))))));;
  bn_set_minimal_width a.

(** The zeros below the lowest one of a word that is not zero. *)
Fixpoint low_zeros (fuel : nat) (w bits : Z) : Z :=
  match fuel with
  | O => bits
  | S fuel => if Z.land w 1 =? 0 then low_zeros fuel (Z.shiftr w 1) (bits + 1) else bits
  end.
Definition BN_count_low_zero_bits (x : bn) : M bn_store Z :=
  n ← bn_get x;
  iter (S (Z.to_nat (width n))) (fun i =>
    if i <? width n then
      w ← on_words (rd (bn_d x) i);
      if negb (w =? 0) then mret (inr (i * BN_BITS2 + low_zeros 64 w 0)) else mret (inl (i + 1))
    else mret (inr 0)) 0.
End Shift.
