(* ===== verification/BnBytes.v ===== *)
(** crypto/fipsmodule/bn/bytes.c: numbers from and to strings of bytes, big-endian and
    little-endian. A buffer written to is the list of its bytes, which is returned. *)
From S2P Require Import Prelude Mem Cells BnWords Bn.

Section Bytes.
Context `{alloc : Allocator}.

(** One turn of the loop of [BN_bin2bn]: [m], [num_words] and [word]. *)
Definition bin2bn_turn (ret : bn) (inp : ptr) (i : Z) '((m, num_words, word) : Z * Z * Z) : M bn_store (Z * Z * Z) :=
  b ← deref (ptr_get inp i);
  let word := Z.lor (u64 (Z.shiftl word 8)) b in
  if m =? 0 then
    on_words (wr (bn_d ret) (num_words - 1) word);;
    mret (BN_BYTES - 1, num_words - 1, 0)
  else mret (m - 1, num_words, word).

Definition BN_bin2bn (inp : ptr) (len : Z) (ret : option bn) : M bn_store bn :=
  ret ← (match ret with None => BN_new | Some r => mret r end);
  if len =? 0 then bn_set_width ret 0;; mret ret else
  let num_words := (len - 1) / BN_BYTES + 1 in
  let m := u32 ((len - 1) mod BN_BYTES) in
  bn_wexpand ret num_words;;
  assert_ (num_words <=? INT_MAX);;
  bn_set_width ret num_words;;
  bn_set_neg ret false;;
  _ ← for_ 0 (Z.to_nat len) (bin2bn_turn ret inp) (m, num_words, 0);
  mret ret.

Definition BN_le2bn (inp : ptr) (len : Z) (ret : option bn) : M bn_store bn :=
  ret ← (match ret with None => BN_new | Some r => mret r end);
  if len =? 0 then bn_set_width ret 0;; bn_set_neg ret false;; mret ret else
  let num_words := (len - 1) / BN_BYTES + 1 in
  bn_wexpand ret num_words;;
  bn_set_width ret num_words;;
  on_words (wr (bn_d ret) (num_words - 1) 0);;
  src ← deref (ptr_read inp len);
  on_words (
    d ← wread (bn_d ret) num_words;
    d ← deref (zput (of_cells d) 0 src);
    wwrite (bn_d ret) (to_cells d));;
  mret ret.

(** The bytes stored at [out], and their number. *)
Definition BN_bn2bin (x : bn) (out : list Z) : M bn_store (list Z * Z) :=
  n ← BN_num_bytes x;
  out ← for_ 0 (Z.to_nat n) (fun k out =>
    let i := n - 1 - k in
    l ← on_words (rd (bn_d x) (i / BN_BYTES));
    deref (zset out k (Z.land (u8 (Z.shiftr l (8 * (i mod BN_BYTES)))) 0xff))) out;
  mret (out, n).

Definition fits_in_bytes (bytes : list Z) (num_bytes len : Z) : M bn_store bool :=
  mask ← for_ len (Z.to_nat (num_bytes - len)) (fun i mask => b ← deref (zget bytes i); mret (Z.lor mask b)) 0;
  mret (mask =? 0).

(** The bytes of [in->d], and how many of them count in [len] bytes. *)
Definition padded_bytes (len : Z) (x : bn) : M bn_store (list Z * Z) :=
  n ← bn_get x;
  d ← on_words (wread (bn_d x) (width n));
  let bytes := of_cells d in
  let num_bytes := width n * BN_BYTES in
  if len <? num_bytes then
    fits ← fits_in_bytes bytes num_bytes len;
    if negb fits then fail else mret (bytes, len)
  else mret (bytes, num_bytes).

Definition BN_bn2le_padded (out : list Z) (len : Z) (x : bn) : M bn_store (list Z) :=
  '(bytes, num_bytes) ← padded_bytes len x;
  src ← deref (ptr_read (P bytes) num_bytes);
  out ← deref (zput out 0 src);
  deref (zput out num_bytes (zrep (len - num_bytes) 0)).

Definition BN_bn2bin_padded (out : list Z) (len : Z) (x : bn) : M bn_store (list Z) :=
  '(bytes, num_bytes) ← padded_bytes len x;
  out ← for_ 0 (Z.to_nat num_bytes) (fun i out =>
    b ← deref (zget bytes i); deref (zset out (len - i - 1) b)) out;
  deref (zput out 0 (zrep (len - num_bytes) 0)).

Definition BN_get_word (x : bn) : M bn_store Z :=
  w ← bn_minimal_width x;
  if w =? 0 then mret 0 else if w =? 1 then on_words (rd (bn_d x) 0) else mret BN_MASK2.
Definition BN_get_u64 (x : bn) : M bn_store Z :=
  w ← bn_minimal_width x;
  if w =? 0 then mret 0 else if w =? 1 then on_words (rd (bn_d x) 0) else fail.
End Bytes.
