(* ===== verification/BnFacts.v ===== *)
(** Facts about [Bn]: what a BIGNUM of the store shows (its sign and its words), and
    how the helpers of bn.c (widths, growing) change it. *)
From S2P Require Import Prelude Mem Der MemFacts Cells Ct BnWords BnWordsFacts BnMulFacts CtFacts Bn.

(** * What a number shows *)

(** The most words an array can have: [INT_MAX / (4 * BN_BITS2)]. *)
Definition max_words : Z := 8388607.

Definition well_formed (n : BIGNUM) (d : list Z) : Prop :=
  zlen d = dmax n /\ 0 <= width n <= dmax n /\ dmax n <= max_words /\ digits d.
Definition bn_is (s : bn_store) (x : bn) (n : BIGNUM) (d : list Z) : Prop :=
  nums s !! x = Some n /\ arrays s !! x = Some d /\ well_formed n d.
(** The number [x] has the sign [ng] and the words [l]. *)
Definition shows (s : bn_store) (x : bn) (ng : bool) (l : list Z) : Prop :=
  exists n d, bn_is s x n d /\ neg n = ng /\ width n = zlen l /\ ztake (zlen l) d = l.

(** Only the number [r] differs. *)
Definition others (r : bn) (s s' : bn_store) : Prop :=
  length (nums s') = length (nums s) /\ length (arrays s') = length (arrays s) /\
  forall y, y <> r -> nums s' !! y = nums s !! y /\ arrays s' !! y = arrays s !! y.

Lemma others_refl r s : others r s s.
Proof. done. Qed.
Lemma others_trans r s1 s2 s3 : others r s1 s2 -> others r s2 s3 -> others r s1 s3.
Proof.
  intros (H1 & H2 & H3) (H4 & H5 & H6). split_and!; [congruence|congruence|]. intros y Hy.
  destruct (H3 y Hy), (H6 y Hy). split; congruence.
Qed.
#[export] Hint Resolve others_refl : zlist.
Lemma shows_others r s s' y ng l : others r s s' -> y <> r -> shows s y ng l -> shows s' y ng l.
Proof.
  intros (_ & _ & H) Hy (n & d & (H1 & H2 & H3) & H4). destruct (H y Hy) as [E1 E2]. exists n, d. unfold bn_is. by rewrite E1, E2.
Qed.
Lemma shows_digits s x ng l : shows s x ng l -> digits l /\ zlen l <= max_words.
Proof. intros (n & d & (_ & _ & (H1 & H2 & H3 & H4)) & _ & Hw & <-). split; [by apply digits_ztake|]. rewrite zlen_ztake; lia. Qed.
Lemma shows_at s x ng l : shows s x ng l -> at_ (arrays s) (bn_d x) l.
Proof.
  intros (n & d & (_ & Hd & (H1 & H2 & _)) & _ & Hw & Ht). exists d. cbn. rewrite zdrop_0. split_and!; [done|done|lia|done].
Qed.
Lemma shows_inj s x ng ng' l l' : shows s x ng l -> shows s x ng' l' -> ng = ng' /\ l = l'.
Proof.
  intros (n & d & (H1 & H2 & _) & H3 & H4 & H5) (n' & d' & (H1' & H2' & _) & H3' & H4' & H5'). simplify_eq.
  split; [done|]. rewrite <- H5, <- H5'. by rewrite <- H4, <- H4'.
Qed.

(** The state after [r] has got the header [n] and the array [d]. *)
Definition bn_upd (r : bn) (n : BIGNUM) (d : list Z) (s : bn_store) (h : heap) : bn_store :=
  mkStore (<[r := n]> (nums s)) (<[r := d]> (arrays s)) h.
Lemma bn_upd_is r n d s h : (r < length (nums s))%nat -> (r < length (arrays s))%nat -> well_formed n d -> bn_is (bn_upd r n d s h) r n d.
Proof. intros Hn Ha Hw. split_and!; [by apply list_lookup_insert_eq|by apply list_lookup_insert_eq|done]. Qed.
Lemma bn_upd_others r n d s h : others r s (bn_upd r n d s h).
Proof.
  split_and!; [apply length_insert|apply length_insert|]. intros y Hy. cbn. by rewrite !list_lookup_insert_ne by done.
Qed.
Lemma bn_upd_id r n d s h : bn_is s r n d -> bn_upd r n d s h = mkStore (nums s) (arrays s) h.
Proof. intros (H1 & H2 & _). unfold bn_upd. by rewrite !list_insert_id. Qed.
Lemma bn_upd_upd r n d s h n' d' h' : bn_upd r n' d' (bn_upd r n d s h) h' = bn_upd r n' d' s h'.
Proof. unfold bn_upd. cbn. by rewrite !list_insert_insert_eq. Qed.
Lemma bn_is_lt s x n d : bn_is s x n d -> (x < length (nums s))%nat /\ (x < length (arrays s))%nat.
Proof. intros (H1 & H2 & _). split; by eapply lookup_lt_Some. Qed.
Lemma same_shows s s' : nums s' = nums s -> arrays s' = arrays s -> forall y ng l, shows s y ng l -> shows s' y ng l.
Proof. intros H1 H2 y ng l (n & d & (H3 & H4 & H5) & H6). exists n, d. unfold bn_is. by rewrite H1, H2. Qed.

(** * The primitive steps *)

Lemma wp_bn_get x n Q E s : nums s !! x = Some n -> Q n s -> wp (bn_get x) Q E s.
Proof. intros H HQ. unfold bn_get. apply wp_bind, wp_get. by eapply wp_deref. Qed.
Lemma wp_bn_put x n n' (Q : unit -> bn_store -> Prop) E s :
  nums s !! x = Some n -> Q tt (mkStore (<[x := n']> (nums s)) (arrays s) (bn_heap s)) -> wp (bn_put x n') Q E s.
Proof. intros H HQ. unfold bn_put. apply wp_bind. eapply wp_bn_get; [exact H|]. by apply wp_modify. Qed.
Lemma wp_set_width x n w (Q : unit -> bn_store -> Prop) E s :
  nums s !! x = Some n -> Q tt (mkStore (<[x := mkBN w (dmax n) (neg n) (flags n)]> (nums s)) (arrays s) (bn_heap s)) ->
  wp (bn_set_width x w) Q E s.
Proof. intros H HQ. unfold bn_set_width. apply wp_bind. eapply wp_bn_get; [exact H|]. by eapply wp_bn_put. Qed.
Lemma wp_set_neg x n b (Q : unit -> bn_store -> Prop) E s :
  nums s !! x = Some n -> Q tt (mkStore (<[x := mkBN (width n) (dmax n) b (flags n)]> (nums s)) (arrays s) (bn_heap s)) ->
  wp (bn_set_neg x b) Q E s.
Proof. intros H HQ. unfold bn_set_neg. apply wp_bind. eapply wp_bn_get; [exact H|]. by eapply wp_bn_put. Qed.
Lemma wp_on_words {A} (m : M words A) (Q : A -> bn_store -> Prop) E s :
  wp m (fun a w => Q a (mkStore (nums s) w (bn_heap s))) (fun w => E (mkStore (nums s) w (bn_heap s))) (arrays s) -> wp (on_words m) Q E s.
Proof. apply (wp_zoom arrays (fun w s => mkStore (nums s) w (bn_heap s))). Qed.
Lemma wp_on_heap {A} (m : M heap A) (Q : A -> bn_store -> Prop) E s :
  wp m (fun a h => Q a (mkStore (nums s) (arrays s) h)) (fun h => E (mkStore (nums s) (arrays s) h)) (bn_heap s) -> wp (on_heap m) Q E s.
Proof. apply (wp_zoom bn_heap (fun h s => mkStore (nums s) (arrays s) h)). Qed.
Lemma eta_store s : mkStore (nums s) (arrays s) (bn_heap s) = s.
Proof. by destruct s. Qed.

(** Reading a word does not change the store. *)
Lemma wp_rd_word x l i w (Q : Z -> bn_store -> Prop) E s :
  at_ (arrays s) (bn_d x) l -> zget l i = Some w -> Q w s -> wp (on_words (rd (bn_d x) i)) Q E s.
Proof. intros Ha Hi HQ. apply wp_on_words. wp_call rd_spec; [exact Ha|exact Hi| |done]. intros ? ? [-> ->]. by rewrite eta_store. Qed.

Lemma wread_spec m p l : at_ m p l -> wp (wread p (zlen l)) (fun l' m' => l' = l /\ m' = m) (fun _ => False) m.
Proof.
  intros (arr & Hm & H0 & H1 & H2). unfold wread. apply wp_bind, wp_get, wp_bind. eapply wp_deref; [exact Hm|].
  apply wp_bind, wp_assert; [by apply Z.leb_le|]. eapply wp_deref; [|by split].
  unfold ptr_read. cbn. pose proof (zlen_nonneg l). rewrite (proj2 (Z.leb_le 0 _)), (proj2 (Z.leb_le _ _)) by (rewrite ?zlen_zdrop; lia). cbn. by rewrite H2.
Qed.
Lemma wwrite_spec m p l : writable m p (zlen l) -> wp (wwrite p l) (fun _ m' => m' = wput m p l) (fun _ => False) m.
Proof.
  intros (arr & Hm & Hr). unfold wwrite. apply wp_bind, wp_get, wp_bind. eapply wp_deref; [exact Hm|]. apply wp_bind.
  eapply wp_deref; [by apply zput_put_at|]. apply wp_put. unfold wput. by rewrite Hm.
Qed.

(** * Widths *)

(** [l] has no zero word at its end. *)
Definition minimal (l : list Z) : Prop := l = [] \/ exists l' w, l = l' ++ [w] /\ w <> 0.
Lemma minimal_range l : digits l -> minimal l -> (l = [] \/ BASE ^ (zlen l - 1) <= val l) /\ 0 <= val l < BASE ^ zlen l.
Proof.
  intros Hd Hm. split; [|by apply val_range]. destruct Hm as [->|(l' & w & -> & Hw)]; [by left|right].
  apply digits_app in Hd as [Hd' [Hw' _]%Forall_cons]. pose proof (val_range l' Hd').
  rewrite val_snoc, zlen_snoc. replace (zlen l' + 1 - 1) with (zlen l') by lia. unfold word in Hw'.
  assert (BASE ^ zlen l' * 1 <= BASE ^ zlen l' * w) by (apply Z.mul_le_mono_nonneg_l; lia). lia.
Qed.
Lemma minimal_zero l : digits l -> minimal l -> val l = 0 -> l = [].
Proof.
  intros Hd Hm Hv. destruct (minimal_range l Hd Hm) as [[|H] _]; [done|]. destruct l as [|x l]; [done|].
  rewrite zlen_cons in H. assert (0 < BASE ^ (1 + zlen l - 1)); [|lia]. apply Z.pow_pos_nonneg; [lia|]. pose proof (zlen_nonneg l). lia.
Qed.
Lemma minimal_le l1 l2 : digits l1 -> digits l2 -> minimal l1 -> val l1 <= val l2 -> zlen l1 <= zlen l2.
Proof.
  intros H1 H2 Hm Hle. destruct (minimal_range l1 H1 Hm) as [[->|H] _]; [apply zlen_nonneg|]. pose proof (val_range l2 H2).
  destruct (Z.le_gt_cases (zlen l1) (zlen l2)); [done|]. pose proof (zlen_nonneg l2).
  assert (BASE ^ zlen l2 <= BASE ^ (zlen l1 - 1)) by (apply Z.pow_le_mono_r; lia). lia.
Qed.

(** The words of [l] up to the last that is not zero. *)
Fixpoint shrink (l : list Z) : list Z :=
  match l with [] => [] | x :: l => match shrink l with [] => if x =? 0 then [] else [x] | l' => x :: l' end end.
Lemma shrink_snoc l x : shrink (l ++ [x]) = if x =? 0 then shrink l else l ++ [x].
Proof.
  induction l as [|y l IH]; cbn [shrink app]; [done|]. rewrite IH. destruct (x =? 0); [done|]. by destruct l.
Qed.
Lemma shrink_spec l : minimal (shrink l) /\ val (shrink l) = val l /\ exists k, l = shrink l ++ zrep k 0 /\ 0 <= k.
Proof.
  induction l as [|x l (IH1 & IH2 & IH3)] using rev_ind; [split_and!; [by left|done|by exists 0]|]. rewrite shrink_snoc, val_snoc. destruct (Z.eqb_spec x 0) as [->|Hx].
  - split_and!; [done|lia|]. destruct IH3 as (k & Hk & H0). exists (k + 1). split; [|lia]. rewrite Hk at 1. rewrite <- app_assoc. f_equal.
    unfold zrep. replace (Z.to_nat (k + 1)) with (Z.to_nat k + 1)%nat by lia. by rewrite replicate_add.
  - split_and!; [right; by exists l, x|by rewrite val_snoc|]. exists 0. by rewrite app_nil_r.
Qed.
Lemma zlen_shrink l : zlen (shrink l) <= zlen l.
Proof. destruct (shrink_spec l) as (_ & _ & k & H & Hk). apply (f_equal zlen) in H. rewrite zlen_app, zlen_zrep in H by done. lia. Qed.
Lemma ztake_shrink l : ztake (zlen (shrink l)) l = shrink l.
Proof. destruct (shrink_spec l) as (_ & _ & k & H & _). rewrite H at 2. by apply ztake_app. Qed.
Lemma digits_shrink l : digits l -> digits (shrink l).
Proof. intros H. rewrite <- ztake_shrink. by apply digits_ztake. Qed.

Lemma bn_minimal_width_spec x ng l s :
  shows s x ng l -> wp (bn_minimal_width x) (fun w s' => w = zlen (shrink l) /\ s' = s) (fun _ => False) s.
Proof.
  intros Hs. pose proof (shows_at _ _ _ _ Hs) as Hat. destruct Hs as (n & d & (Hn & _) & _ & Hw & _).
  unfold bn_minimal_width. apply wp_bind. eapply wp_bn_get; [exact Hn|]. rewrite Hw.
  assert (Hf : (length l < S (Z.to_nat (zlen l)))%nat) by (unfold zlen; lia). revert Hf.
  generalize (S (Z.to_nat (zlen l))) as fuel. clear Hw. revert Hat. induction l as [|w l IH] using rev_ind; intros Hat fuel Hf; destruct fuel as [|fuel]; try lia; cbn [iter]; apply wp_bind.
  - change (0 <? zlen []) with false. cbn iota. by apply wp_ret, wp_ret.
  - rewrite zlen_snoc, shrink_snoc. pose proof (zlen_nonneg l). rewrite (proj2 (Z.ltb_lt _ _)) by lia.
    replace (zlen l + 1 - 1) with (zlen l) by lia. apply wp_bind. eapply wp_rd_word; [exact Hat|by apply zget_middle|].
    destruct (Z.eqb_spec w 0) as [->|Hw]; apply wp_ret.
    + apply IH; [|rewrite length_app in Hf; cbn in Hf; lia]. rewrite <- (ztake_app (zlen l) l [0]) by done. apply at_take; [done|]. rewrite zlen_snoc. lia.
    + apply wp_ret. by rewrite zlen_snoc.
Qed.

Lemma shows_get s x ng l : shows s x ng l -> exists n, nums s !! x = Some n /\ neg n = ng /\ width n = zlen l.
Proof. intros (n & d & (Hn & _) & Hng & Hw & _). by exists n. Qed.

Lemma bn_set_minimal_width_spec x ng l s :
  shows s x ng l ->
  wp (bn_set_minimal_width x)
    (fun _ s' => shows s' x (ng && negb (val l =? 0)) (shrink l) /\ others x s s') (fun _ => False) s.
Proof.
  intros Hs. unfold bn_set_minimal_width. apply wp_bind. wp_call bn_minimal_width_spec; [exact Hs| |done]. intros w s' [-> ->].
  pose proof (shows_digits _ _ _ _ Hs) as [Hd _]. destruct Hs as (n & d & Hbn & Hng & Hw & Ht). pose proof Hbn as (Hn & Hda & Hwf).
  destruct (bn_is_lt _ _ _ _ Hbn) as [Hlt1 Hlt2]. pose proof (zlen_shrink l). pose proof (zlen_nonneg (shrink l)).
  apply wp_bind. eapply wp_set_width; [exact Hn|].
  assert (Hshow : forall b, shows (mkStore (<[x := mkBN (zlen (shrink l)) (dmax n) b (flags n)]> (nums s)) (arrays s) (bn_heap s)) x b (shrink l)).
  { intros b. exists (mkBN (zlen (shrink l)) (dmax n) b (flags n)), d. destruct Hwf as (H1 & H2 & H3 & H4).
    split_and!; [|done|done|].
    - split_and!; [by apply list_lookup_insert_eq|done|]. unfold well_formed. cbn. split_and!; try done; lia.
    - cbn. transitivity (ztake (zlen (shrink l)) (ztake (zlen l) d)); [by rewrite ztake_ztake by lia|]. rewrite Ht. apply ztake_shrink. }
  assert (Hoth : forall b, others x s (mkStore (<[x := mkBN (zlen (shrink l)) (dmax n) b (flags n)]> (nums s)) (arrays s) (bn_heap s))).
  { intros b. split_and!; [by apply length_insert|done|]. intros y Hy. cbn. by rewrite list_lookup_insert_ne. }
  destruct (shrink_spec l) as (Hmin & Hval & _). destruct (Z.eqb_spec (zlen (shrink l)) 0) as [E|E].
  - eapply wp_set_neg; [by apply list_lookup_insert_eq|]. cbn. rewrite list_insert_insert_eq.
    apply zlen_0 in E as E'. rewrite <- Hval, E'. change (val [] =? 0) with true. cbn [negb]. rewrite andb_false_r, <- E'. split; [apply Hshow|apply Hoth].
  - apply wp_ret. assert (Hne : val l <> 0).
    { rewrite <- Hval. intros Hz. apply E. by rewrite (minimal_zero (shrink l)) by auto using digits_shrink. }
    rewrite (proj2 (Z.eqb_neq _ _) Hne). cbn [negb]. rewrite andb_true_r, <- Hng. split; [apply Hshow|apply Hoth].
Qed.

(** * Growing *)

Lemma digits_to_cells b : bytes b -> digits (to_cells b).
Proof.
  intros Hb. unfold to_cells. assert (forall n l, bytes l -> digits (to_cells_n n l)) as H; [|by apply H].
  induction n as [|n IH]; intros l Hl; cbn [to_cells_n]; [constructor|]. constructor; [|apply IH; by apply bytes_zdrop].
  unfold word. assert (bytes (rev (ztake sizeof_cell l))) as Hr by (apply Forall_rev; by apply bytes_ztake).
  pose proof (be_val_bound _ Hr) as Hv. assert (zlen (rev (ztake sizeof_cell l)) <= 8).
  { unfold zlen, ztake. rewrite length_rev, length_take. change (Z.to_nat sizeof_cell) with 8%nat. lia. }
  assert (256 ^ zlen (rev (ztake sizeof_cell l)) <= 256 ^ 8) by (apply Z.pow_le_mono_r; lia). change (256 ^ 8) with BASE in *. lia.
Qed.

(** There is room for [k] words in the array of [x]. *)
Definition roomy (s : bn_store) (x : bn) (k : Z) : Prop := exists n d, bn_is s x n d /\ k <= dmax n.
Lemma roomy_writable s x k : roomy s x k -> 0 <= k -> writable (arrays s) (bn_d x) k.
Proof. intros (n & d & (_ & Hd & Hz & _) & Hk) H0. exists d. split; [done|]. unfold room. cbn. lia. Qed.

Section Grow.
Context `{alloc : Allocator}.

(** Why [bn_wexpand] fails. *)
Definition cannot_grow (s : bn_store) (x : bn) (k : Z) : Prop :=
  exists n, nums s !! x = Some n /\ dmax n < k /\
    (max_words < k \/ Z.land (flags n) BN_FLG_STATIC_DATA <> 0 \/ exists i, malloc_ok i (8 * k + 8) = false).

Lemma malloc_cells_spec k h :
  0 <= k <= max_words ->
  wp (malloc_cells (u64 (BN_BYTES * k)))
    (fun p h' => match p with Some a => zlen a = k /\ digits a | None => exists i, malloc_ok i (8 * k + 8) = false end) (fun _ => False) h.
Proof.
  intros Hk. unfold max_words in Hk. unfold malloc_cells, u64, BN_BYTES. rewrite Z.mod_small by lia. apply wp_bind.
  wp_call OPENSSL_malloc_spec; [lia| |done]. intros [b|] h' Hb; apply wp_ret; cbn [fmap option_fmap option_map]; [|done].
  destruct Hb as (Hz & Hb & _). split; [|by apply digits_to_cells]. rewrite zlen_to_cells, Hz. dlia.
Qed.

Lemma bn_wexpand_spec x k s :
  roomy s x 0 -> 0 <= k ->
  wp (bn_wexpand x k)
    (fun _ s' => others x s s' /\ (forall y ng l, shows s y ng l -> shows s' y ng l) /\ roomy s' x k)
    (fun s' => nums s' = nums s /\ arrays s' = arrays s /\ cannot_grow s x k) s.
Proof.
  intros (n & d & Hbn & _) Hk. pose proof Hbn as (Hn & Hd & (H1 & H2 & H3 & H4)). destruct (bn_is_lt _ _ _ _ Hbn) as [Hlt1 Hlt2].
  unfold bn_wexpand. apply wp_bind. eapply wp_bn_get; [exact Hn|].
  destruct (Z.leb_spec k (dmax n)) as [Hfit|Hgrow]; [apply wp_ret; split_and!; [done..|by exists n, d]|].
  change (INT_MAX / (4 * BN_BITS2)) with max_words. destruct (Z.ltb_spec max_words k) as [Hbig|Hok].
  { apply wp_fail. split_and!; [done..|]. exists n. auto. }
  destruct (Z.eqb_spec (Z.land (flags n) BN_FLG_STATIC_DATA) 0) as [Ef|Ef]; cbn [negb].
  2: { apply wp_fail. split_and!; [done..|]. exists n. auto. }
  apply wp_bind, wp_on_heap. wp_call malloc_cells_spec; [lia| |done]. intros [a|] h' Ha.
  2: { apply wp_fail. split_and!; [done..|]. exists n. auto. }
  destruct Ha as [Hza Hda]. apply wp_bind, wp_on_words. cbn.
  assert (Hold : at_ (arrays s) (bn_d x) (ztake (width n) d)).
  { exists d. cbn. rewrite zdrop_0, zlen_ztake by lia. split_and!; [done|done|lia|done]. }
  assert (Hzt : zlen (ztake (width n) d) = width n) by (apply zlen_ztake; lia). rewrite <- Hzt.
  wp_call wread_spec; [exact Hold| |done]. intros ? ? [-> ->]. rewrite Hzt. apply wp_bind.
  eapply wp_deref; [apply zput_put_at; unfold room; lia|]. apply wp_modify. cbn.
  set (d' := put_at a 0 (ztake (width n) d)). set (n' := mkBN (width n) k (neg n) (flags n)).
  assert (Hd' : d' = ztake (width n) d ++ zdrop (width n) a) by (unfold d', put_at; rewrite ztake_0, Hzt; done).
  assert (Hzd : zlen d' = k) by (unfold d'; rewrite zlen_put_at; [done|unfold room; lia]).
  assert (Hbn' : bn_is (bn_upd x n' d' s h') x n' d').
  { apply bn_upd_is; [done|done|]. unfold well_formed. cbn. split_and!; [done|lia|lia|lia|].
    rewrite Hd'. apply digits_app. split; [by apply digits_ztake|by apply digits_zdrop]. }
  split_and!; [apply bn_upd_others| |exists n', d'; split; [exact Hbn'|done]].
  intros y ng l Hs. destruct (decide (y = x)) as [->|Hne]; [|eapply shows_others; [apply bn_upd_others|done|done]].
  destruct Hs as (n2 & d2 & (Hn2 & Hd2 & _) & Hng & Hw & Ht). rewrite Hn in Hn2. injection Hn2 as <-. rewrite Hd in Hd2. injection Hd2 as <-. exists n', d'. split_and!; [exact Hbn'|done|done|].
  rewrite Hd', <- Hw, ztake_app by done. by rewrite Hw.
Qed.
End Grow.

(** * Writing the words of a number *)

Lemma wput_is (m : words) (x : bn) d ws : m !! x = Some d -> wput m (bn_d x) ws = <[x := ws ++ zdrop (zlen ws) d]> m.
Proof. intros H. unfold wput. change (bn_d x).1 with x. rewrite H. done. Qed.

(** The words written and the header that goes with them. *)
Lemma written s x n d ws n' h :
  bn_is s x n d -> digits ws -> zlen ws <= dmax n -> width n' = zlen ws -> dmax n' = dmax n ->
  let s' := mkStore (<[x := n']> (nums s)) (wput (arrays s) (bn_d x) ws) h in
  shows s' x (neg n') ws /\ others x s s' /\ roomy s' x (dmax n).
Proof.
  intros Hbn Hws Hle Hw Hdm s'. pose proof Hbn as (Hn & Hd & (H1 & H2 & H3 & H4)). destruct (bn_is_lt _ _ _ _ Hbn) as [Hlt1 Hlt2].
  pose proof (zlen_nonneg ws). subst s'. rewrite (wput_is _ _ _ _ Hd).
  assert (Hbn' : bn_is (mkStore (<[x := n']> (nums s)) (<[x := ws ++ zdrop (zlen ws) d]> (arrays s)) h) x n' (ws ++ zdrop (zlen ws) d)).
  { apply bn_upd_is; [done|done|]. unfold well_formed. rewrite zlen_app, zlen_zdrop by lia. split_and!; try lia.
    apply digits_app. split; [done|by apply digits_zdrop]. }
  split_and!; [|apply bn_upd_others|].
  - exists n', (ws ++ zdrop (zlen ws) d). split_and!; [exact Hbn'|done|done|by apply ztake_app].
  - eexists _, _. split; [exact Hbn'|lia].
Qed.

(** Reading [l] at [p] behind what has been written at [r]. *)
Lemma read_behind m r a ws l i x :
  at_ m (bn_d a) l -> writable m (bn_d r) (zlen ws) -> zlen ws <= i -> zget l i = Some x ->
  wp (rd (bn_d a) i) (fun y m' => y = x /\ m' = wput m (bn_d r) ws) (fun _ => False) (wput m (bn_d r) ws).
Proof.
  intros Ha Hr Hi Hx. pose proof (zget_Some _ _ _ Hx). pose proof (zlen_nonneg ws). rewrite <- (Z.add_0_r i), <- rd_wadd. eapply rd_spec.
  - apply wput_apart; [done|apply at_drop; [exact Ha|]; lia|]. unfold apart. cbn. right. left. lia.
  - by rewrite (zdrop_next _ _ _ Hx).
Qed.
(** Writing the next word. *)
Lemma write_next m r ws w k :
  writable m (bn_d r) k -> zlen ws < k ->
  wp (wr (bn_d r) (zlen ws) w) (fun _ m' => m' = wput m (bn_d r) (ws ++ [w])) (fun _ => False) (wput m (bn_d r) ws).
Proof.
  intros Hr Hk. pose proof (zlen_nonneg ws).
  assert (Hfit : forall j, 0 <= j <= k -> writable m (bn_d r) j) by (intros; rewrite <- (wadd_0 (bn_d r)); apply (writable_sub _ _ k); [done|lia..]).
  wp_call wr_spec; [apply wput_writable; [apply Hfit; lia|apply (writable_sub _ _ k); [done|lia..]]| |done].
  intros [] m' ->. apply wput_app. change (zlen [w]) with 1. apply Hfit. lia.
Qed.
