(* ===== verification/BnCmp.v ===== *)
(** Facts about the comparisons of [Bn] (cmp.c). *)
From S2P Require Import Prelude Ct BnWords BnWordsFacts CtFacts Bn BnFacts.

(** The sign of a comparison. *)
Definition cmp_sign (x y : Z) : Z := match x ?= y with Lt => -1 | Eq => 0 | Gt => 1 end.
Lemma cmp_sign_int x y : is_int (cmp_sign x y).
Proof. unfold cmp_sign, is_int. destruct (x ?= y); lia. Qed.
Lemma cmp_sign_lt x y : x < y -> cmp_sign x y = -1.
Proof. intros H. unfold cmp_sign. apply Z.compare_lt_iff in H. by rewrite H. Qed.
Lemma cmp_sign_gt x y : y < x -> cmp_sign x y = 1.
Proof. intros H. unfold cmp_sign. apply Z.compare_gt_iff in H. by rewrite H. Qed.
Lemma cmp_sign_eq x y : x = y -> cmp_sign x y = 0.
Proof. intros H. unfold cmp_sign. apply Z.compare_eq_iff in H. by rewrite H. Qed.
Lemma cmp_sign_ltb x y : (cmp_sign x y <? 0) = (x <? y).
Proof. unfold cmp_sign, Z.ltb. by destruct (x ?= y). Qed.
Lemma cmp_sign_opp x y : cmp_sign (- x) (- y) = - cmp_sign x y.
Proof. unfold cmp_sign. rewrite Z.compare_opp, (Z.compare_antisym x y). by destruct (x ?= y). Qed.

(** The most significant digit decides. *)
Lemma cmp_sign_top k u v x y :
  0 <= u < BASE ^ k -> 0 <= v < BASE ^ k ->
  cmp_sign (u + BASE ^ k * x) (v + BASE ^ k * y) = if x =? y then cmp_sign u v else if x <? y then -1 else 1.
Proof.
  intros Hu Hv. destruct (Z.eqb_spec x y) as [->|Hne].
  - unfold cmp_sign. by rewrite (Z.add_comm u), (Z.add_comm v), Z.add_compare_mono_l.
  - set (p := BASE ^ k) in *. destruct (Z.ltb_spec x y); [apply cmp_sign_lt|apply cmp_sign_gt].
    + assert (p * (x + 1) <= p * y) by (apply Z.mul_le_mono_nonneg_l; lia). lia.
    + assert (p * (y + 1) <= p * x) by (apply Z.mul_le_mono_nonneg_l; lia). lia.
Qed.

Lemma or_words_spec m p l from to mask :
  at_ m p l -> digits l -> word mask -> 0 <= from -> to <= zlen l ->
  wp (or_words p from to mask)
    (fun r m' => m' = m /\ word r /\ (r = 0 <-> mask = 0 /\ val (ztake (to - from) (zdrop from l)) = 0)) (fun _ => False) m.
Proof.
  intros Hp Hd Hm Hf Ht. unfold or_words.
  apply (wp_for (fun i r m' => m' = m /\ word r /\ (r = 0 <-> mask = 0 /\ val (ztake (i - from) (zdrop from l)) = 0))).
  - split_and!; [done|done|]. rewrite Z.sub_diag, ztake_0. cbn. tauto.
  - intros j r m' Hj (-> & Hr & Hiff). destruct (zget_lt l j) as [x Hx]; [lia|]. apply wp_bind.
    wp_call rd_spec; [exact Hp|exact Hx| |done]. intros ? ? [-> ->]. apply wp_ret.
    pose proof (digits_zget _ _ _ Hd Hx) as Hwx. split_and!; [done|by apply lor_word|].
    assert (Hnx : zget (zdrop from l) (j - from) = Some x).
    { rewrite <- (ztake_zdrop from l), zget_app_r in Hx by (rewrite zlen_ztake; lia). by rewrite zlen_ztake in Hx by lia. }
    replace (j + 1 - from) with (j - from + 1) by lia. rewrite (ztake_next _ _ _ Hnx), val_snoc, Z.lor_eq_0_iff, Hiff.
    assert (Hz : zlen (ztake (j - from) (zdrop from l)) = j - from) by (apply zlen_ztake; rewrite zlen_zdrop; lia). rewrite Hz.
    assert (0 <= val (ztake (j - from) (zdrop from l))) by (apply val_range; auto with zlist).
    assert (0 < BASE ^ (j - from)) by (apply Z.pow_pos_nonneg; lia). unfold word in Hwx. nia.
  - intros r m' (-> & Hr & Hiff). split_and!; [done|done|]. destruct (Z.le_gt_cases from to).
    + by replace (from + Z.of_nat (Z.to_nat (to - from)) - from) with (to - from) in Hiff by lia.
    + replace (from + Z.of_nat (Z.to_nat (to - from)) - from) with 0 in Hiff by lia. rewrite ztake_0 in Hiff.
      assert (ztake (to - from) (zdrop from l) = []) as -> by (unfold ztake; by replace (Z.to_nat (to - from)) with 0%nat by lia). done.
Qed.

Lemma bn_cmp_words_consttime_spec m a b la lb :
  at_ m a la -> at_ m b lb -> digits la -> digits lb ->
  wp (bn_cmp_words_consttime a (zlen la) b (zlen lb)) (fun r m' => m' = m /\ r = cmp_sign (val la) (val lb)) (fun _ => False) m.
Proof.
  intros Ha Hb Hda Hdb. unfold bn_cmp_words_consttime. set (min := if zlen la <? zlen lb then zlen la else zlen lb).
  pose proof (zlen_nonneg la). pose proof (zlen_nonneg lb).
  assert (Hmin : 0 <= min /\ min <= zlen la /\ min <= zlen lb) by (unfold min; destruct (Z.ltb_spec (zlen la) (zlen lb)); lia).
  assert (Hr : forall l k, digits l -> 0 <= k <= zlen l -> 0 <= val (ztake k l) < BASE ^ k).
  { intros l k Hl Hk. pose proof (val_range (ztake k l)) as Hv. rewrite zlen_ztake in Hv by done. apply Hv. auto with zlist. }
  apply wp_bind. apply (wp_for (fun i r m' => m' = m /\ r = cmp_sign (val (ztake i la)) (val (ztake i lb)))); [done|..].
  - intros j r m' Hj [-> ->]. destruct (zget_lt la j) as [x Hx]; [lia|]. destruct (zget_lt lb j) as [y Hy]; [lia|].
    apply wp_bind. wp_call rd_spec; [exact Ha|exact Hx| |done]. intros ? ? [-> ->].
    apply wp_bind. wp_call rd_spec; [exact Hb|exact Hy| |done]. intros ? ? [-> ->]. apply wp_ret. split; [done|].
    pose proof (digits_zget _ _ _ Hda Hx). pose proof (digits_zget _ _ _ Hdb Hy).
    rewrite constant_time_eq_w_spec, constant_time_lt_w_spec by done.
    rewrite (constant_time_select_int_spec (x <? y)) by (unfold is_int; lia).
    rewrite constant_time_select_int_spec by (try apply cmp_sign_int; unfold is_int; destruct (x <? y); lia).
    rewrite (ztake_next _ _ _ Hx), (ztake_next _ _ _ Hy), !val_snoc, !zlen_ztake by lia. symmetry. apply cmp_sign_top; apply Hr; by try lia.
  - intros r m' [-> ->]. rewrite Z.add_0_l, Z2Nat.id by lia.
    assert (Htail : forall l k mask, digits l -> 0 <= k <= zlen l -> word mask ->
      (mask = 0 <-> 0 = 0 /\ val (ztake (zlen l - k) (zdrop k l)) = 0) ->
      constant_time_is_zero_w mask = mask_of (val (zdrop k l) =? 0) /\ val l = val (ztake k l) + BASE ^ k * val (zdrop k l) /\ 0 <= val (zdrop k l)).
    { intros l k mask Hl Hk Hmask Hiff. rewrite constant_time_is_zero_w_spec by done. split_and!.
      - f_equal. apply eq_true_iff_eq. rewrite !Z.eqb_eq, Hiff. rewrite <- (zlen_zdrop k l), ztake_all by done. tauto.
      - by apply val_split.
      - apply val_range. auto with zlist. }
    unfold min in *. destruct (Z.ltb_spec (zlen la) (zlen lb)) as [Hlt|Hge].
    + apply wp_bind. wp_call or_words_spec; [exact Hb|done|apply word_0|lia|lia| |done]. intros mask m' (-> & Hw & Hiff). apply wp_ret. split; [done|].
      destruct (Htail lb (zlen la) mask) as (-> & Hv & Hnn); [done|lia|done|exact Hiff|].
      rewrite constant_time_select_int_spec by (try apply cmp_sign_int; unfold is_int; lia). rewrite ztake_all, Hv.
      pose proof (Hr lb (zlen la) Hdb ltac:(lia)). pose proof (val_range la Hda).
      destruct (Z.eqb_spec (val (zdrop (zlen la) lb)) 0) as [->|Hne]; [by rewrite Z.mul_0_r, Z.add_0_r|]. symmetry. apply cmp_sign_lt. nia.
    + destruct (Z.ltb_spec (zlen lb) (zlen la)) as [Hlt|Heq].
      * apply wp_bind. wp_call or_words_spec; [exact Ha|done|apply word_0|lia|lia| |done]. intros mask m' (-> & Hw & Hiff). apply wp_ret. split; [done|].
        destruct (Htail la (zlen lb) mask) as (-> & Hv & Hnn); [done|lia|done|exact Hiff|].
        rewrite constant_time_select_int_spec by (try apply cmp_sign_int; unfold is_int; lia). rewrite ztake_all, Hv.
        pose proof (Hr la (zlen lb) Hda ltac:(lia)). pose proof (val_range lb Hdb).
        destruct (Z.eqb_spec (val (zdrop (zlen lb) la)) 0) as [->|Hne]; [by rewrite Z.mul_0_r, Z.add_0_r|]. symmetry. apply cmp_sign_gt. nia.
      * apply wp_ret. split; [done|]. rewrite ztake_all. by replace (zlen lb) with (zlen la) by lia; rewrite ztake_all.
Qed.

Lemma BN_ucmp_spec a b na nb la lb s :
  shows s a na la -> shows s b nb lb -> wp (BN_ucmp a b) (fun r s' => s' = s /\ r = cmp_sign (val la) (val lb)) (fun _ => False) s.
Proof.
  intros Ha Hb. destruct (shows_get _ _ _ _ Ha) as (x & Hx & _ & Hwx), (shows_get _ _ _ _ Hb) as (y & Hy & _ & Hwy). unfold BN_ucmp.
  apply wp_bind. eapply wp_bn_get; [exact Hx|]. apply wp_bind. eapply wp_bn_get; [exact Hy|]. rewrite Hwx, Hwy. apply wp_on_words.
  wp_call bn_cmp_words_consttime_spec; [by eapply shows_at|by eapply shows_at|by eapply shows_digits|by eapply shows_digits| |done].
  intros r m' [-> ->]. by rewrite eta_store.
Qed.

(** The number shown. *)
Definition signed (ng : bool) (v : Z) : Z := if ng then - v else v.
(** A number whose zero is not negative. *)
Definition canonical (ng : bool) (l : list Z) : Prop := ng = true -> 0 < val l.

Lemma BN_cmp_spec a b na nb la lb s :
  shows s a na la -> shows s b nb lb -> canonical na la -> canonical nb lb ->
  wp (BN_cmp (Some a) (Some b)) (fun r s' => s' = s /\ r = cmp_sign (signed na (val la)) (signed nb (val lb))) (fun _ => False) s.
Proof.
  intros Ha Hb Hca Hcb. destruct (shows_get _ _ _ _ Ha) as (x & Hx & Hnx & _), (shows_get _ _ _ _ Hb) as (y & Hy & Hny & _).
  assert (0 <= val la) by (eapply val_range, shows_digits; exact Ha). assert (0 <= val lb) by (eapply val_range, shows_digits; exact Hb).
  unfold BN_cmp. apply wp_bind. eapply wp_bn_get; [exact Hx|]. apply wp_bind. eapply wp_bn_get; [exact Hy|]. rewrite Hnx, Hny.
  destruct na, nb; cbn [eqb negb signed]; unfold canonical in *.
  - apply wp_bind. wp_call BN_ucmp_spec; [exact Ha|exact Hb| |done]. intros r s' [-> ->]. apply wp_ret. split; [done|]. by rewrite cmp_sign_opp.
  - apply wp_ret. split; [done|]. symmetry. apply cmp_sign_lt. specialize (Hca eq_refl). lia.
  - apply wp_ret. split; [done|]. symmetry. apply cmp_sign_gt. specialize (Hcb eq_refl). lia.
  - apply wp_bind. wp_call BN_ucmp_spec; [exact Ha|exact Hb| |done]. intros r s' [-> ->]. by apply wp_ret.
Qed.

Lemma BN_is_zero_spec x ng l s : shows s x ng l -> wp (BN_is_zero x) (fun b s' => s' = s /\ b = (val l =? 0)) (fun _ => False) s.
Proof.
  intros Hs. unfold BN_is_zero. apply wp_bind. wp_call bn_minimal_width_spec; [exact Hs| |done]. intros w s' [-> ->]. apply wp_ret. split; [done|].
  destruct (shows_digits _ _ _ _ Hs) as [Hd _]. destruct (shrink_spec l) as (Hm & Hv & _). apply eq_true_iff_eq. rewrite !Z.eqb_eq, <- Hv. split.
  - intros E. by apply zlen_0 in E as ->.
  - intros E. by rewrite (minimal_zero (shrink l)) by auto using digits_shrink.
Qed.
