(* ===== verification/BnAddFacts.v ===== *)
(** Facts about the sums of [Bn] (add.c): unsigned sums and differences of numbers that
    may be the same, and their signed versions. *)
From S2P Require Import Prelude Mem Ct BnWords BnWordsFacts CtFacts Bn BnFacts BnCmp.

Section Add.
Context `{alloc : Allocator}.

(** The number [r] has become what [P] says, and the others are as they were. *)
Definition makes (r : bn) (P : bool -> list Z -> Prop) (s s' : bn_store) : Prop :=
  others r s s' /\ exists ng l, shows s' r ng l /\ P ng l.
(** The only way to fail: [r] cannot get the words it needs, [k] at most. *)
Definition stunted (r : bn) (k : Z) (s s' : bn_store) : Prop := others r s s' /\ roomy s' r 0 /\ exists k', k' <= k /\ cannot_grow s r k'.

Lemma others_same r s s' : nums s' = nums s -> arrays s' = arrays s -> others r s s'.
Proof. intros H1 H2. unfold others. by rewrite H1, H2. Qed.
Lemma roomy_same r k s s' : nums s' = nums s -> arrays s' = arrays s -> roomy s r k -> roomy s' r k.
Proof. intros H1 H2 (n & d & (H3 & H4 & H5) & H6). exists n, d. unfold bn_is. by rewrite H1, H2. Qed.
Lemma stunted_same r k k' s s' : roomy s r 0 -> nums s' = nums s -> arrays s' = arrays s -> cannot_grow s r k' -> k' <= k -> stunted r k s s'.
Proof. intros Hr H1 H2 H3 Hk. split_and!; [by apply others_same|by eapply roomy_same|by exists k']. Qed.
Lemma stunted_le r k k' s s' : stunted r k s s' -> k <= k' -> stunted r k' s s'.
Proof. intros (H1 & H2 & j & H3 & H4) Hk. split_and!; [done|done|]. exists j. split; [lia|done]. Qed.
(** The width of a number. *)
Definition words_of (s : bn_store) (x : bn) : Z := match nums s !! x with Some n => width n | None => 0 end.
Lemma shows_words s x ng l : shows s x ng l -> words_of s x = zlen l.
Proof. intros Hs. destruct (shows_get _ _ _ _ Hs) as (n & Hn & _ & Hw). unfold words_of. by rewrite Hn. Qed.

Lemma bn_uadd_fixed_spec r a b na nb la lb s :
  shows s a na la -> shows s b nb lb -> roomy s r 0 ->
  wp (bn_uadd_fixed r a b) (fun _ => makes r (fun _ ws => val ws = val la + val lb) s) (stunted r (Z.max (zlen la) (zlen lb) + 1) s) s.
Proof.
  intros Ha Hb Hr. destruct (shows_get _ _ _ _ Ha) as (x & Hx & _ & Hwx), (shows_get _ _ _ _ Hb) as (y & Hy & _ & Hwy).
  unfold bn_uadd_fixed. apply wp_bind. eapply wp_bn_get; [exact Hx|]. apply wp_bind. eapply wp_bn_get; [exact Hy|].
  assert (exists a' b' na' nb' la' lb', shows s a' na' la' /\ shows s b' nb' lb' /\ zlen lb' <= zlen la' /\ zlen la' = Z.max (zlen la) (zlen lb) /\ val la' + val lb' = val la + val lb /\
    (if width x <? width y then (b, a) else (a, b)) = (a', b') /\
    (if width x <? width y then (width y, width x) else (width x, width y)) = (zlen la', zlen lb')) as (a' & b' & na' & nb' & la' & lb' & Ha' & Hb' & Hle & <- & Hsum & -> & ->).
  { destruct (Z.ltb_spec (width x) (width y)); [exists b, a, nb, na, lb, la|exists a, b, na, nb, la, lb]; rewrite Hwx, Hwy in *; split_and!; done || lia. }
  clear x y Hx Hy Hwx Hwy Ha Hb. pose proof (zlen_nonneg lb'). pose proof (zlen_nonneg la'). destruct (shows_digits _ _ _ _ Ha') as [Hda _], (shows_digits _ _ _ _ Hb') as [Hdb _].
  apply wp_bind. wp_call bn_wexpand_spec; [exact Hr|lia| |].
  2: { intros s' (H1 & H2 & H3). eapply stunted_same; [exact Hr|done|done|exact H3|lia]. }
  intros [] s1 (Hoth & Hsh & n & d & Hbn & Hroom). pose proof Hbn as (Hn & _). apply wp_bind. eapply wp_set_width; [exact Hn|].
  set (n' := mkBN (zlen la' + 1) (dmax n) (neg n) (flags n)). set (m := arrays s1).
  assert (Hata : at_ m (bn_d a') la') by (eapply shows_at; by apply Hsh). assert (Hatb : at_ m (bn_d b') lb') by (eapply shows_at; by apply Hsh).
  assert (Hfit : forall k, 0 <= k <= zlen la' + 1 -> writable m (bn_d r) k) by (intros k Hk; apply roomy_writable; [|lia]; exists n, d; split; [done|lia]).
  apply wp_bind, wp_on_words. cbn [arrays nums bn_heap].
  wp_call (bn_add_words_spec m (bn_d r) (bn_d a') (bn_d b') (ztake (zlen lb') la') lb' (zlen lb')); [apply at_take; [exact Hata|lia]|exact Hatb|auto with zlist|done|apply zlen_ztake; lia|done|apply Hfit; lia|right; left; cbn; lia|right; left; cbn; lia| |done].
  intros c m1 (ws & -> & Hz & Hdw & Hc & Hv). apply wp_bind.
  apply (wp_for (fun i c s' => exists ws, s' = mkStore (<[r := n']> (nums s1)) (wput m (bn_d r) ws) (bn_heap s1) /\
    zlen ws = i /\ digits ws /\ bit c /\ val ws + BASE ^ i * c = val (ztake i la') + val lb')).
  - exists ws. split_and!; try done. lia.
  - intros i c' s' Hi (ws' & -> & Hz' & Hdw' & Hc' & Hv'). destruct (zget_lt la' i) as [w Hw]; [lia|]. pose proof (digits_zget _ _ _ Hda Hw) as Hww.
    apply wp_bind, wp_on_words. cbn [arrays nums bn_heap]. wp_call read_behind; [exact Hata|apply Hfit; lia|lia|exact Hw| |done]. intros ? ? [-> ->].
    apply wp_bind, wp_on_words. cbn [arrays nums bn_heap]. rewrite <- Hz'. wp_call write_next; [apply (Hfit (zlen la' + 1)); lia|lia| |done]. intros [] m' ->.
    apply wp_ret. eexists. split; [done|]. unfold bit, word in *.
    assert (Hsp : u64 (c' + w) + BASE * b2z (u64 (c' + w) <? w) = c' + w /\ 0 <= b2z (u64 (c' + w) <? w) <= 1).
    { unfold u64. change 18446744073709551616 with BASE. destruct (Z.lt_ge_cases (c' + w) BASE).
      - rewrite Z.mod_small by lia. rewrite (proj2 (Z.ltb_ge _ _)) by lia. cbn. lia.
      - assert ((c' + w) mod BASE = 0) as -> by (replace (c' + w) with (0 + 1 * BASE) by lia; rewrite Z.mod_add by lia; done).
        rewrite (proj2 (Z.ltb_lt _ _)) by lia. cbn. lia. }
    destruct Hsp as [Hsp Hbit]. split_and!; [by rewrite zlen_snoc|apply digits_snoc; [done|apply u64_word]|lia|lia|].
    rewrite val_snoc, Hz', (ztake_next _ _ _ Hw), val_snoc, zlen_ztake, B_pow by lia. nia.
  - intros c' s' (ws' & -> & Hz' & Hdw' & Hc' & Hv'). replace (zlen lb' + Z.of_nat (Z.to_nat (zlen la' - zlen lb'))) with (zlen la') in * by lia.
    rewrite ztake_all in Hv'. apply wp_on_words. cbn [arrays nums bn_heap]. rewrite <- Hz'. wp_call write_next; [apply (Hfit (zlen la' + 1)); lia|lia| |done].
    intros [] m' ->.
    destruct (written s1 r n d (ws' ++ [c']) n' (bn_heap s1)) as (H1 & H2 & _); [done|apply digits_snoc; [done|unfold word; unfold bit in Hc'; lia]|rewrite zlen_snoc; lia|cbn; rewrite zlen_snoc; lia|done|].
    split; [by eapply others_trans|]. eexists _, _. split; [exact H1|]. rewrite val_snoc, Hz'. lia.
Qed.

Lemma BN_uadd_spec r a b na nb la lb s :
  shows s a na la -> shows s b nb lb -> roomy s r 0 ->
  wp (BN_uadd r a b) (fun _ => makes r (fun ng ws => val ws = val la + val lb /\ minimal ws /\ canonical ng ws) s) (stunted r (Z.max (zlen la) (zlen lb) + 1) s) s.
Proof.
  intros Ha Hb Hr. unfold BN_uadd. apply wp_bind. wp_call bn_uadd_fixed_spec; [exact Ha|exact Hb|exact Hr| |done].
  intros [] s1 (Hoth & ng & ws & Hs & Hv). wp_call bn_set_minimal_width_spec; [exact Hs| |done]. intros [] s2 [Hs2 Hoth2].
  split; [by eapply others_trans|]. eexists _, _. split; [exact Hs2|]. destruct (shrink_spec ws) as (Hm & Hvs & _). split_and!; [lia|done|].
  intros Hc. apply andb_true_iff in Hc as [_ Hc%negb_true_iff%Z.eqb_neq]. destruct (shows_digits _ _ _ _ Hs) as [Hd _]. pose proof (val_range _ Hd). lia.
Qed.

(** ** Differences *)

Lemma usub_step_spec x y (c : bool) :
  word x -> word y -> word (usub_step x y c).1 /\ (usub_step x y c).1 - BASE * b2z (usub_step x y c).2 = x - y - b2z c.
Proof.
  intros Hx Hy. unfold usub_step, word, u64 in *. change 18446744073709551616 with BASE. destruct c; cbn [fst snd b2z].
  - rewrite Zminus_mod_idemp_r. pose proof (Z.mod_pos_bound (x - (y + 1)) BASE ltac:(lia)). split; [done|]. destruct (Z.leb_spec x y); cbn [b2z].
    + rewrite <- (Z.mod_add _ 1) by lia. rewrite Z.mod_small by lia. lia.
    + rewrite Z.mod_small by lia. lia.
  - pose proof (Z.mod_pos_bound (x - y) BASE ltac:(lia)). split; [done|]. destruct (Z.ltb_spec x y); cbn [b2z].
    + rewrite <- (Z.mod_add _ 1) by lia. rewrite Z.mod_small by lia. lia.
    + rewrite Z.mod_small by lia. lia.
Qed.

Section Usub.
Variables (r a b : bn) (m : words) (A B : list Z) (hd : list BIGNUM) (hp : heap).
Hypothesis HdA : digits A.
Hypothesis HdB : digits B.
Hypothesis HatA : at_ m (bn_d a) A.
Hypothesis HatB : at_ m (bn_d b) B.
Hypothesis Hle : zlen B <= zlen A.
Hypothesis Hr : writable m (bn_d r) (zlen A).

(** [i] words of the difference with a borrow [c] are done. *)
Definition differed (i c : Z) (s' : bn_store) : Prop :=
  exists ws, s' = mkStore hd (wput m (bn_d r) ws) hp /\ zlen ws = i /\ digits ws /\
    val ws - BASE ^ i * c = val (ztake i A) - val (ztake i B).

Lemma usub_fit k : 0 <= k <= zlen A -> writable m (bn_d r) k.
Proof. intros Hk. rewrite <- (wadd_0 (bn_d r)). apply (writable_sub _ _ (zlen A)); [done|lia..]. Qed.

Lemma usub_words_loop :
  wp (for_ 0 (Z.to_nat (zlen B)) (fun i (carry : bool) =>
    t1 ← on_words (rd (bn_d a) i); t2 ← on_words (rd (bn_d b) i);
    let '(t1, carry) := usub_step t1 t2 carry in
    on_words (wr (bn_d r) i t1);;
    mret carry) false) (fun c => differed (zlen B) (b2z c)) (fun _ => False) (mkStore hd m hp).
Proof.
  pose proof (zlen_nonneg B). apply (wp_for (fun i c => differed i (b2z c))).
  - exists []. split_and!; [|done|constructor|done]. f_equal. symmetry. apply wput_nil, usub_fit. lia.
  - intros i c s' Hi (ws & -> & Hz & Hdw & Hv). destruct (zget_lt A i) as [x Hx]; [lia|]. destruct (zget_lt B i) as [y Hy]; [lia|].
    pose proof (digits_zget _ _ _ HdA Hx). pose proof (digits_zget _ _ _ HdB Hy).
    apply wp_bind, wp_on_words. cbn [arrays nums bn_heap]. wp_call read_behind; [exact HatA|apply usub_fit; lia|lia|exact Hx| |done]. intros ? ? [-> ->].
    apply wp_bind, wp_on_words. cbn [arrays nums bn_heap]. wp_call read_behind; [exact HatB|apply usub_fit; lia|lia|exact Hy| |done]. intros ? ? [-> ->].
    destruct (usub_step_spec x y c) as [Hw Hst]; [done|done|]. destruct (usub_step x y c) as [w c']. cbn [fst snd] in *.
    apply wp_bind, wp_on_words. cbn [arrays nums bn_heap]. rewrite <- Hz. wp_call write_next; [apply (usub_fit (zlen A)); lia|lia| |done]. intros [] m' ->.
    apply wp_ret. exists (ws ++ [w]). split_and!; [done|by rewrite zlen_snoc|by apply digits_snoc|].
    rewrite val_snoc, Hz, (ztake_next _ _ _ Hx), (ztake_next _ _ _ Hy), !val_snoc, !zlen_ztake, B_pow by lia. nia.
  - intros c s' H'. by rewrite Z.add_0_l, Z2Nat.id in H' by lia.
Qed.

(** The borrow ends before [A] does. *)
Lemma usub_borrow_loop fuel i dif s' :
  val B <= val A -> zlen B <= i -> i + dif = zlen A -> 0 <= dif < Z.of_nat fuel ->
  (exists ws, s' = mkStore hd (wput m (bn_d r) ws) hp /\ zlen ws = i /\ digits ws /\ val ws - BASE ^ i = val (ztake i A) - val B) ->
  wp (iter fuel (usub_borrow r a) (i, dif))
    (fun o s' => exists i dif ws, o = (i, dif) /\ i + dif = zlen A /\ 0 <= dif /\ s' = mkStore hd (wput m (bn_d r) ws) hp /\
       zlen ws = i /\ digits ws /\ val ws = val (ztake i A) - val B) (fun _ => False) s'.
Proof.
  intros Hval. pose proof (zlen_nonneg B). revert i dif s'. induction fuel as [|fuel IH]; intros i dif s' HB Hsum Hf (ws & -> & Hz & Hdw & Hv); [lia|].
  cbn [iter]. apply wp_bind. unfold usub_borrow at 1. pose proof (val_range ws Hdw) as Hws. rewrite Hz in Hws.
  destruct (Z.eqb_spec dif 0) as [->|Hd]; cbn [negb].
  { exfalso. rewrite Z.add_0_r in Hsum. subst i. rewrite ztake_all in Hv. lia. }
  destruct (zget_lt A i) as [x Hx]; [lia|]. pose proof (digits_zget _ _ _ HdA Hx) as Hwx. unfold word in Hwx.
  apply wp_bind, wp_on_words. cbn [arrays nums bn_heap]. wp_call read_behind; [exact HatA|apply usub_fit; lia|lia|exact Hx| |done]. intros ? ? [-> ->].
  apply wp_bind, wp_on_words. cbn [arrays nums bn_heap]. rewrite <- Hz at 1. wp_call write_next; [apply (usub_fit (zlen A)); lia|lia| |done]. intros [] m' ->.
  assert (Hnew : zlen (ws ++ [u64 (x - 1)]) = i + 1 /\ digits (ws ++ [u64 (x - 1)])) by (rewrite zlen_snoc; split; [lia|apply digits_snoc; [done|apply u64_word]]).
  assert (Hval' : val (ws ++ [u64 (x - 1)]) = val ws + BASE ^ i * u64 (x - 1)) by (by rewrite val_snoc, Hz).
  assert (Htk : val (ztake (i + 1) A) = val (ztake i A) + BASE ^ i * x) by (by rewrite (ztake_next _ _ _ Hx), val_snoc, zlen_ztake by lia).
  destruct (Z.eqb_spec x 0) as [->|Hx0]; cbn [negb].
  - apply wp_ret. apply IH; [lia|lia|lia|]. exists (ws ++ [u64 (0 - 1)]). destruct Hnew as [H1 H2]. split_and!; [done|done|done|].
    rewrite Hval', Htk, B_pow by lia. change (u64 (0 - 1)) with (BASE - 1). nia.
  - apply wp_ret, wp_ret. exists (i + 1), (dif - 1), (ws ++ [u64 (x - 1)]). destruct Hnew as [H1 H2]. split_and!; try done; try lia.
    rewrite Hval', Htk, u64_id by (unfold word; lia). nia.
Qed.

(** The words of [A] that the borrow did not reach. *)
Lemma usub_rest i dif ws :
  zlen ws = i -> i + dif = zlen A -> 0 <= dif ->
  wp (if (0 <? dif) && negb (Nat.eqb r a) then
        l ← on_words (wread (wadd (bn_d a) i) dif); on_words (wwrite (wadd (bn_d r) i) l)
      else mret tt)
    (fun _ s' => s' = mkStore hd (wput m (bn_d r) (ws ++ zdrop i A)) hp) (fun _ => False) (mkStore hd (wput m (bn_d r) ws) hp).
Proof.
  intros Hz Hsum Hd. pose proof (zlen_nonneg ws). assert (Hzd : zlen (zdrop i A) = dif) by (rewrite zlen_zdrop; lia).
  destruct (Z.ltb_spec 0 dif) as [Hpos|Hnone]; cbn [andb].
  2: { apply wp_ret. assert (zdrop i A = []) as -> by (apply zlen_0; lia). by rewrite app_nil_r. }
  destruct (Nat.eqb_spec r a) as [->|Hne]; cbn [negb].
  - apply wp_ret. f_equal. destruct HatA as (d & Hd' & _ & Hlen & Ht). cbn in Hd', Hlen, Ht. rewrite zdrop_0 in Ht.
    rewrite !(wput_is _ _ _ _ Hd'). f_equal. rewrite zlen_app, Hzd, <- app_assoc. f_equal.
    rewrite <- (ztake_zdrop (zlen A) d) at 1. rewrite Ht, zdrop_app_le by lia. by rewrite Hz, Hsum.
  - apply wp_bind, wp_on_words. cbn [arrays nums bn_heap]. rewrite <- Hzd. wp_call wread_spec; [| |done].
    + apply wput_apart; [apply usub_fit; lia|apply at_drop; [exact HatA|lia]|]. left. cbn. done.
    + intros ? ? [-> ->]. apply wp_on_words. cbn [arrays nums bn_heap]. wp_call wwrite_spec; [| |done].
      * apply wput_writable; [apply usub_fit; lia|]. apply (writable_sub _ _ (zlen A)); [done|lia..].
      * intros [] m' ->. f_equal. rewrite <- Hz at 1. apply wput_app. rewrite Hz, Hzd. apply usub_fit. lia.
Qed.
End Usub.

Lemma roomy_shows s x ng l : shows s x ng l -> roomy s x 0.
Proof. intros (n & d & Hbn & _). exists n, d. split; [done|]. destruct Hbn as (_ & _ & (_ & ? & _)). lia. Qed.
Lemma shows_shrink s x ng l : shows s x ng l -> at_ (arrays s) (bn_d x) (shrink l) /\ digits (shrink l).
Proof.
  intros Hs. destruct (shows_digits _ _ _ _ Hs) as [Hd _]. split; [|by apply digits_shrink]. rewrite <- ztake_shrink.
  apply at_take; [by eapply shows_at|]. pose proof (zlen_shrink l). pose proof (zlen_nonneg (shrink l)). lia.
Qed.

Lemma BN_usub_spec r a b na nb la lb s :
  shows s a na la -> shows s b nb lb -> roomy s r 0 ->
  wp (BN_usub r a b)
    (fun _ s' => val lb <= val la /\ makes r (fun ng ws => ng = false /\ val ws = val la - val lb /\ minimal ws) s s')
    (fun s' => others r s s' /\ val la < val lb \/ stunted r (zlen la) s s') s.
Proof.
  intros Ha Hb Hr. unfold BN_usub. apply wp_bind. wp_call bn_minimal_width_spec; [exact Ha| |done]. intros ? ? [-> ->].
  apply wp_bind. wp_call bn_minimal_width_spec; [exact Hb| |done]. intros ? ? [-> ->].
  destruct (shrink_spec la) as (HmA & HvA & _), (shrink_spec lb) as (HmB & HvB & _).
  destruct (shows_shrink _ _ _ _ Ha) as [_ HdA], (shows_shrink _ _ _ _ Hb) as [_ HdB].
  pose proof (zlen_nonneg (shrink la)). pose proof (zlen_nonneg (shrink lb)).
  destruct (Z.ltb_spec (zlen (shrink la) - zlen (shrink lb)) 0) as [Hlt|Hge].
  { apply wp_fail. left. split; [done|]. rewrite <- HvA, <- HvB. destruct (Z.lt_ge_cases (val (shrink la)) (val (shrink lb))) as [|H1]; [done|].
    apply minimal_le in H1; [lia|done..]. }
  apply wp_bind. wp_call bn_wexpand_spec; [exact Hr|lia| |].
  2: { intros s' (H1 & H2 & H3). right. eapply stunted_same; [exact Hr|done|done|exact H3|apply zlen_shrink]. }
  intros [] s1 (Hoth & Hsh & n & d & Hbn & Hroom). pose proof Hbn as (Hn & _).
  destruct (shows_shrink _ _ _ _ (Hsh _ _ _ Ha)) as [HatA _], (shows_shrink _ _ _ _ (Hsh _ _ _ Hb)) as [HatB _].
  assert (Hw : writable (arrays s1) (bn_d r) (zlen (shrink la))) by (apply roomy_writable; [exists n, d; done|lia]).
  rewrite <- (eta_store s1) at 1. apply wp_bind.
  wp_call (usub_words_loop r a b (arrays s1) (shrink la) (shrink lb) (nums s1) (bn_heap s1)); [done..|lia|done| |done].
  intros c s2 (ws & -> & Hz & Hdw & Hv). rewrite ztake_all in Hv.
  assert (Hsplit := val_split (zlen (shrink lb)) (shrink la) ltac:(lia)).
  assert (Hfin : forall i dif ws, i + dif = zlen (shrink la) -> 0 <= dif -> zlen ws = i -> digits ws -> val ws = val (ztake i (shrink la)) - val (shrink lb) ->
    val lb <= val la /\ val (ws ++ zdrop i (shrink la)) = val la - val lb /\ digits (ws ++ zdrop i (shrink la)) /\ zlen (ws ++ zdrop i (shrink la)) = zlen (shrink la)).
  { intros i dif ws' Hs Hd Hz' Hdw' Hv'. pose proof (zlen_nonneg ws'). pose proof (val_split i (shrink la) ltac:(lia)) as Hsp.
    assert (Hdd : digits (ws' ++ zdrop i (shrink la))) by (apply digits_app; split; [done|by apply digits_zdrop]).
    pose proof (val_range _ Hdd) as Hrg. assert (Hva : val (ws' ++ zdrop i (shrink la)) = val (shrink la) - val (shrink lb)) by (rewrite val_app, Hz'; lia).
    split_and!; [lia|lia|done|]. rewrite zlen_app, zlen_zdrop; lia. }
  assert (Htail : forall i dif ws Q E, i + dif = zlen (shrink la) -> 0 <= dif -> zlen ws = i -> digits ws -> val ws = val (ztake i (shrink la)) - val (shrink lb) ->
    (forall s', val lb <= val la -> makes r (fun ng ws => ng = false /\ val ws = val la - val lb /\ minimal ws) s s' -> Q tt s') ->
    wp ((if (0 <? dif) && negb (Nat.eqb r a) then
           l ← on_words (wread (wadd (bn_d a) i) dif); on_words (wwrite (wadd (bn_d r) i) l)
         else mret tt);; bn_set_width r (zlen (shrink la));; bn_set_neg r false;; bn_set_minimal_width r) Q E
      (mkStore (nums s1) (wput (arrays s1) (bn_d r) ws) (bn_heap s1))).
  { intros i dif ws' Q E Hs Hd Hz' Hdw' Hv' HQ. destruct (Hfin i dif ws' Hs Hd Hz' Hdw' Hv') as (Hge' & Hva & Hdd & Hzz).
    apply wp_bind. wp_call (usub_rest r a (arrays s1) (shrink la) (nums s1) (bn_heap s1)); [done..| |done]. intros [] s' ->.
    apply wp_bind. eapply wp_set_width; [exact Hn|]. cbn [arrays nums bn_heap].
    apply wp_bind. eapply wp_set_neg; [apply list_lookup_insert_eq; by destruct (bn_is_lt _ _ _ _ Hbn)|]. cbn [arrays nums bn_heap width dmax flags].
    rewrite list_insert_insert_eq.
    destruct (written s1 r n d (ws' ++ zdrop i (shrink la)) (mkBN (zlen (shrink la)) (dmax n) false (flags n)) (bn_heap s1)) as (H1 & H2 & _);
      [done|done|rewrite Hzz; lia|by rewrite Hzz|done|].
    wp_call bn_set_minimal_width_spec; [exact H1| |done]. intros [] s' [H3 H4]. apply HQ; [done|]. split; [by eapply others_trans; [|eapply others_trans]|].
    eexists _, _. split; [exact H3|]. destruct (shrink_spec (ws' ++ zdrop i (shrink la))) as (Hm & Hvs & _). split_and!; [done|lia|done]. }
  destruct c; cbn [b2z] in Hv.
  - destruct (Z.eqb_spec (zlen (shrink la) - zlen (shrink lb)) 0) as [E0|E0].
    + apply wp_bind, wp_fail. left. split.
      * eapply others_trans; [exact Hoth|]. unfold others. cbn [nums arrays]. rewrite length_wput. split_and!; [done|done|]. intros y Hy. split; [done|].
        unfold wput. by rewrite list_lookup_insert_ne.
      * replace (zlen (shrink lb)) with (zlen (shrink la)) in * by lia. rewrite ztake_all in Hv. pose proof (val_range ws Hdw) as Hrg. rewrite Hz in Hrg. lia.
    + apply wp_bind. assert (Hlong : val (shrink lb) <= val (shrink la)).
      { destruct (Z.le_gt_cases (val (shrink lb)) (val (shrink la))) as [|H1]; [done|]. apply Z.lt_le_incl, minimal_le in H1; [lia|done..]. }
      wp_call (usub_borrow_loop r a (arrays s1) (shrink la) (shrink lb) (nums s1) (bn_heap s1)); [done|done|done|exact Hlong|lia|lia|lia| | |done].
      * exists ws. split_and!; try done. lia.
      * intros [i dif] s' (i' & dif' & ws' & [= -> ->] & Hs & Hd & -> & Hz' & Hdw' & Hv'). by eapply Htail.
  - apply wp_bind, wp_ret. eapply (Htail _ _ ws); [lia|lia|done|done|lia|]. by split.
Qed.
End Add.
