(* ===== verification/BnArith.v ===== *)
(** Facts about the signed operations of [Bn]: BN_add and BN_sub, and the
    operations with one word. *)
From S2P Require Import Prelude Mem Ct BnWords BnWordsFacts CtFacts Bn BnFacts BnCmp BnAddFacts.

(** The number [x] stands for [z]; zero is not negative. *)
Definition holds (s : bn_store) (x : bn) (z : Z) : Prop :=
  exists ng l, shows s x ng l /\ canonical ng l /\ z = signed ng (val l).
Lemma holds_others r s s' y z : others r s s' -> y <> r -> holds s y z -> holds s' y z.
Proof. intros Ho Hy (ng & l & Hs & H). exists ng, l. split; [by eapply shows_others|done]. Qed.
Lemma holds_roomy s x z : holds s x z -> roomy s x 0.
Proof. intros (ng & l & Hs & _). by eapply roomy_shows. Qed.
Lemma holds_pos s x l : shows s x false l -> holds s x (val l).
Proof. intros Hs. by exists false, l. Qed.

Section Arith.
Context `{alloc : Allocator}.

(** [r] stands for [z] now, and the other numbers are as they were. *)
Definition sets (r : bn) (z : Z) (s s' : bn_store) : Prop := others r s s' /\ holds s' r z.
Lemma sets_after r z s1 s2 s3 : others r s1 s2 -> sets r z s2 s3 -> sets r z s1 s3.
Proof. intros H1 [H2 H3]. split; [by eapply others_trans|done]. Qed.
Lemma stunted_after r k s1 s2 s3 : nums s2 = nums s1 -> others r s1 s2 -> stunted r k s2 s3 -> stunted r k s1 s3.
Proof.
  intros Hn H1 (H2 & H3 & k' & Hk & n & Hr & H). split_and!; [by eapply others_trans|done|]. exists k'. split; [done|]. exists n. by rewrite Hn in Hr.
Qed.

Lemma bn_set_neg_spec r ng b l s :
  shows s r ng l -> wp (bn_set_neg r b) (fun _ s' => shows s' r b l /\ others r s s') (fun _ => False) s.
Proof.
  intros (n & d & Hbn & Hng & Hw & Ht). pose proof Hbn as (Hn & Hd & Hwf). destruct (bn_is_lt _ _ _ _ Hbn) as [Hlt _].
  eapply wp_set_neg; [exact Hn|]. split.
  - exists (mkBN (width n) (dmax n) b (flags n)), d. split_and!; try done. split_and!; [by apply list_lookup_insert_eq|done|done].
  - unfold others. cbn. rewrite length_insert. split_and!; [done|done|]. intros y Hy. by rewrite list_lookup_insert_ne.
Qed.
Lemma BN_zero_shows x ng l s : shows s x ng l -> wp (BN_zero x) (fun _ s' => others x s s' /\ shows s' x false []) (fun _ => False) s.
Proof.
  intros (n & d & Hbn & Hng & Hw & Ht). pose proof Hbn as (Hn & Hd & (H1 & H2 & H3 & H4)). destruct (bn_is_lt _ _ _ _ Hbn) as [Hlt _].
  unfold BN_zero. apply wp_bind. eapply wp_set_width; [exact Hn|]. eapply wp_set_neg; [by apply list_lookup_insert_eq|]. cbn. rewrite list_insert_insert_eq.
  split.
  - unfold others. cbn. rewrite length_insert. split_and!; [done|done|]. intros y Hy. by rewrite list_lookup_insert_ne.
  - exists (mkBN 0 (dmax n) false (flags n)), d. split_and!; try done.
    split_and!; [by apply list_lookup_insert_eq|done|]. unfold well_formed. cbn. split_and!; try done; lia.
Qed.
Lemma BN_zero_spec x ng l s : shows s x ng l -> wp (BN_zero x) (fun _ => sets x 0 s) (fun _ => False) s.
Proof. intros Hs. wp_call BN_zero_shows; [exact Hs| |done]. intros [] s' [Ho H]. split; [done|]. by exists false, []. Qed.

Lemma BN_set_word_spec x w s : roomy s x 0 -> word w -> wp (BN_set_word x w) (fun _ => sets x w s) (stunted x 1 s) s.
Proof.
  intros Hr Hw. unfold BN_set_word. destruct (Z.eqb_spec w 0) as [->|Hne].
  - destruct Hr as (n & d & Hbn & _). wp_call (BN_zero_spec x (neg n) (ztake (width n) d)); [|done|done].
    exists n, d. pose proof Hbn as (_ & _ & (H1 & H2 & _)). rewrite !zlen_ztake by lia. by split_and!.
  - apply wp_bind. wp_call bn_wexpand_spec; [exact Hr|lia| |].
    2: { intros s' (H1 & H2 & H3). by eapply stunted_same. }
    intros [] s1 (Hoth & _ & n & d & Hbn & Hroom). pose proof Hbn as (Hn & _). destruct (bn_is_lt _ _ _ _ Hbn) as [Hlt _].
    apply wp_bind. eapply wp_set_neg; [exact Hn|]. apply wp_bind, wp_on_words. cbn [arrays nums bn_heap].
    assert (Hwr : writable (arrays s1) (bn_d x) 1) by (apply roomy_writable; [exists n, d; split; [done|lia]|lia]).
    wp_call wr_spec; [by rewrite wadd_0| |done]. intros [] m' ->. rewrite wadd_0.
    eapply wp_set_width; [by apply list_lookup_insert_eq|]. cbn [arrays nums bn_heap dmax neg flags]. rewrite list_insert_insert_eq.
    destruct (written s1 x n d [w] (mkBN 1 (dmax n) false (flags n)) (bn_heap s1)) as (H1 & H2 & _); [done|by constructor|done|done|done|].
    eapply sets_after; [exact Hoth|]. split; [done|]. exists false, [w]. split_and!; [done|done|]. cbn. lia.
Qed.

(** A number that could not grow still gets its sign. *)
Lemma stunted_set_neg r k b s s1 : stunted r k s s1 -> wp (bn_set_neg r b) (fun _ => stunted r k s) (fun _ => False) s1.
Proof.
  intros (Ho & (n & d & Hbn & Hk) & Hc). pose proof Hbn as (Hn & Hd & Hwf). destruct (bn_is_lt _ _ _ _ Hbn) as [Hlt _]. eapply wp_set_neg; [exact Hn|]. split_and!; [| |done].
  - eapply others_trans; [exact Ho|]. unfold others. cbn. rewrite length_insert. split_and!; [done|done|]. intros z Hz. by rewrite list_lookup_insert_ne.
  - exists (mkBN (width n) (dmax n) b (flags n)), d. split; [|done]. split_and!; [by apply list_lookup_insert_eq|exact Hd|exact Hwf].
Qed.

(** ** BN_add and BN_sub *)

(** A value, and at most [k] words. *)
Definition sized (r : bn) (z k : Z) (s s' : bn_store) : Prop := sets r z s s' /\ words_of s' r <= k.
Lemma minimal_fits l k : digits l -> minimal l -> 0 <= k -> val l < BASE ^ k -> zlen l <= k.
Proof.
  intros Hd Hm Hk Hv. destruct (minimal_range l Hd Hm) as [[->|H] _]; [done|]. destruct (Z.le_gt_cases (zlen l) k); [done|].
  assert (BASE ^ k <= BASE ^ (zlen l - 1)) by (apply Z.pow_le_mono_r; lia). lia.
Qed.
Lemma sum_fits la lb l : digits la -> digits lb -> digits l -> minimal l -> val l <= val la + val lb -> zlen l <= Z.max (zlen la) (zlen lb) + 1.
Proof.
  intros Hda Hdb Hd Hm Hv. pose proof (val_range _ Hda). pose proof (val_range _ Hdb). pose proof (zlen_nonneg la). pose proof (zlen_nonneg lb). apply minimal_fits; [done|done|lia|].
  assert (BASE ^ zlen la <= BASE ^ Z.max (zlen la) (zlen lb)) by (apply Z.pow_le_mono_r; lia). assert (BASE ^ zlen lb <= BASE ^ Z.max (zlen la) (zlen lb)) by (apply Z.pow_le_mono_r; lia).
  rewrite Z.pow_add_r by lia. change (BASE ^ 1) with BASE. lia.
Qed.

Lemma sub_signed_spec r a b na nb la lb s :
  shows s a na la -> shows s b nb lb -> roomy s r 0 ->
  wp (sub_signed r a b) (fun _ => sized r (val la - val lb) (Z.max (zlen la) (zlen lb) + 1) s) (stunted r (Z.max (zlen la) (zlen lb) + 1) s) s.
Proof.
  intros Ha Hb Hr. destruct (shows_digits _ _ _ _ Ha) as [Hda _], (shows_digits _ _ _ _ Hb) as [Hdb _]. pose proof (val_range _ Hda). pose proof (val_range _ Hdb).
  unfold sub_signed. apply wp_bind. wp_call BN_ucmp_spec; [exact Ha|exact Hb| |done]. intros c s' [-> ->].
  rewrite cmp_sign_ltb. destruct (Z.ltb_spec (val la) (val lb)) as [Hlt|Hge]; apply wp_bind.
  - wp_call BN_usub_spec; [exact Hb|exact Ha|exact Hr| |].
    + intros [] s1 (_ & Hoth & ng & l & Hs & -> & Hv & Hm). wp_call bn_set_neg_spec; [exact Hs| |done]. intros [] s2 [Hs2 Hoth2]. destruct (shows_digits _ _ _ _ Hs) as [Hd _].
      split; [|rewrite (shows_words _ _ _ _ Hs2); apply (sum_fits la lb l); done || lia]. split; [by eapply others_trans|]. exists true, l. split_and!; [done|intros _; lia|]. cbn. lia.
    + intros s1 [[_ ?]|Hst]; [lia|]. eapply stunted_le; [exact Hst|lia].
  - wp_call BN_usub_spec; [exact Ha|exact Hb|exact Hr| |].
    + intros [] s1 (_ & Hoth & ng & l & Hs & -> & Hv & Hm). wp_call bn_set_neg_spec; [exact Hs| |done]. intros [] s2 [Hs2 Hoth2]. destruct (shows_digits _ _ _ _ Hs) as [Hd _].
      split; [|rewrite (shows_words _ _ _ _ Hs2); apply (sum_fits la lb l); done || lia]. split; [by eapply others_trans|]. rewrite <- Hv. by apply holds_pos.
    + intros s1 [[_ ?]|Hst]; [lia|]. eapply stunted_le; [exact Hst|lia].
Qed.

(** The sum of the absolute values with the sign [ng]; what fails still sets the sign. *)
Lemma uadd_signed r a b na nb la lb ng s :
  shows s a na la -> shows s b nb lb -> roomy s r 0 -> (ng = true -> 0 < val la + val lb) ->
  wp (BN_uadd r a b;; bn_set_neg r ng) (fun _ => sized r (signed ng (val la + val lb)) (Z.max (zlen la) (zlen lb) + 1) s) (stunted r (Z.max (zlen la) (zlen lb) + 1) s) s.
Proof.
  intros Ha Hb Hr Hng. apply wp_bind. wp_call BN_uadd_spec; [exact Ha|exact Hb|exact Hr| |done].
  intros [] s1 (Hoth & ng' & l & Hs & Hv & Hm & _). wp_call bn_set_neg_spec; [exact Hs| |done]. intros [] s2 [Hs2 Hoth2].
  destruct (shows_digits _ _ _ _ Ha) as [Hda _], (shows_digits _ _ _ _ Hb) as [Hdb _], (shows_digits _ _ _ _ Hs) as [Hd _].
  split; [|rewrite (shows_words _ _ _ _ Hs2); apply (sum_fits la lb l); done || lia]. split; [by eapply others_trans|]. exists ng, l. split_and!; [done|unfold canonical; by rewrite Hv|by rewrite Hv].
Qed.

Lemma roomy_others r s s' : roomy s r 0 -> others r s s' -> (r < length (nums s'))%nat.
Proof. intros (n & d & Hbn & _) (H & _). rewrite H. by destruct (bn_is_lt _ _ _ _ Hbn). Qed.

Lemma BN_add_sized r a b u v s :
  holds s a u -> holds s b v -> roomy s r 0 -> wp (BN_add r a b) (fun _ => sized r (u + v) (Z.max (words_of s a) (words_of s b) + 1) s) (stunted r (Z.max (words_of s a) (words_of s b) + 1) s) s.
Proof.
  intros (na & la & Ha & Hca & ->) (nb & lb & Hb & Hcb & ->) Hr. rewrite (shows_words _ _ _ _ Ha), (shows_words _ _ _ _ Hb).
  destruct (shows_get _ _ _ _ Ha) as (x & Hx & Hnx & _), (shows_get _ _ _ _ Hb) as (y & Hy & Hny & _).
  assert (0 <= val la) by (eapply val_range, shows_digits; exact Ha). assert (0 <= val lb) by (eapply val_range, shows_digits; exact Hb).
  unfold BN_add. apply wp_bind. eapply wp_bn_get; [exact Hx|]. apply wp_bind. eapply wp_bn_get; [exact Hy|]. rewrite Hnx, Hny.
  destruct (xorb na nb) eqn:Exor.
  - destruct na, nb; try done; cbn [signed].
    + replace (- val la + val lb) with (val lb - val la) by lia. rewrite (Z.max_comm (zlen la)). by eapply sub_signed_spec.
    + replace (val la + - val lb) with (val la - val lb) by lia. by eapply sub_signed_spec.
  - assert (nb = na) as -> by (by destruct na, nb).
    replace (signed na (val la) + signed na (val lb)) with (signed na (val la + val lb)) by (destruct na; cbn; lia).
    assert (Hng : na = true -> 0 < val la + val lb) by (intros E; specialize (Hca E); lia).
    apply wp_bind, wp_succeeds. wp_call BN_uadd_spec; [exact Ha|exact Hb|exact Hr| |].
    + intros [] s1 (Hoth & ng' & l & Hs & Hv & Hm & _). apply wp_bind. wp_call bn_set_neg_spec; [exact Hs| |done]. intros [] s2 [Hs2 Hoth2].
      destruct (shows_digits _ _ _ _ Ha) as [Hda _], (shows_digits _ _ _ _ Hb) as [Hdb _], (shows_digits _ _ _ _ Hs) as [Hd _].
      apply wp_ret. split; [|rewrite (shows_words _ _ _ _ Hs2); apply (sum_fits la lb l); done || lia]. split; [by eapply others_trans|]. exists na, l. split_and!; [done|unfold canonical; by rewrite Hv|by rewrite Hv].
    + intros s1 Hst. apply wp_bind. wp_call stunted_set_neg; [exact Hst| |done]. intros [] s2 H2. by apply wp_fail.
Qed.

Lemma BN_add_spec r a b u v s :
  holds s a u -> holds s b v -> roomy s r 0 -> wp (BN_add r a b) (fun _ => sets r (u + v) s) (stunted r (Z.max (words_of s a) (words_of s b) + 1) s) s.
Proof. intros Ha Hb Hr. wp_call BN_add_sized; [exact Ha|exact Hb|exact Hr| |done]. by intros [] s' [? _]. Qed.

Lemma BN_sub_sized r a b u v s :
  holds s a u -> holds s b v -> roomy s r 0 -> wp (BN_sub r a b) (fun _ => sized r (u - v) (Z.max (words_of s a) (words_of s b) + 1) s) (stunted r (Z.max (words_of s a) (words_of s b) + 1) s) s.
Proof.
  intros (na & la & Ha & Hca & ->) (nb & lb & Hb & Hcb & ->) Hr. rewrite (shows_words _ _ _ _ Ha), (shows_words _ _ _ _ Hb).
  destruct (shows_get _ _ _ _ Ha) as (x & Hx & Hnx & _), (shows_get _ _ _ _ Hb) as (y & Hy & Hny & _).
  assert (0 <= val la) by (eapply val_range, shows_digits; exact Ha). assert (0 <= val lb) by (eapply val_range, shows_digits; exact Hb).
  unfold BN_sub. apply wp_bind. eapply wp_bn_get; [exact Hx|]. apply wp_bind. eapply wp_bn_get; [exact Hy|]. rewrite Hnx, Hny.
  destruct na, nb; cbn [eqb negb signed]; unfold canonical in *.
  - replace (- val la - - val lb) with (val lb - val la) by lia. rewrite (Z.max_comm (zlen la)). by eapply sub_signed_spec.
  - replace (- val la - val lb) with (signed true (val la + val lb)) by (cbn; lia). eapply uadd_signed; [done..|]. intros _. specialize (Hca eq_refl). lia.
  - replace (val la - - val lb) with (signed false (val la + val lb)) by (cbn; lia). by eapply uadd_signed.
  - by eapply sub_signed_spec.
Qed.
Lemma BN_sub_spec r a b u v s :
  holds s a u -> holds s b v -> roomy s r 0 -> wp (BN_sub r a b) (fun _ => sets r (u - v) s) (stunted r (Z.max (words_of s a) (words_of s b) + 1) s) s.
Proof. intros Ha Hb Hr. wp_call BN_sub_sized; [exact Ha|exact Hb|exact Hr| |done]. by intros [] s' [? _]. Qed.

(** ** One word *)

(** What is behind the words written stays. *)
Lemma wput_keep m x l ws : at_ m (bn_d x) l -> zlen ws <= zlen l -> wput m (bn_d x) ws = wput m (bn_d x) (ws ++ zdrop (zlen ws) l).
Proof.
  intros (d & Hd & _ & Hlen & Ht) Hle. cbn in Hd, Hlen, Ht. rewrite zdrop_0 in Ht. pose proof (zlen_nonneg ws).
  rewrite !(wput_is _ _ _ _ Hd). f_equal. rewrite zlen_app, zlen_zdrop, <- app_assoc by lia. f_equal.
  rewrite <- (ztake_zdrop (zlen l) d) at 1. rewrite Ht, zdrop_app_le by lia. f_equal. f_equal. lia.
Qed.

(** The words of [x] are replaced by as many others. *)
Lemma rewritten s x ng l ws h n :
  shows s x ng l -> nums s !! x = Some n -> digits ws -> zlen ws = zlen l ->
  let s' := mkStore (nums s) (wput (arrays s) (bn_d x) ws) h in shows s' x ng ws /\ others x s s'.
Proof.
  intros (n' & d & Hbn & Hng & Hw & Ht) Hn Hd Hz s'. pose proof Hbn as (Hn' & _ & (_ & ? & _)). rewrite Hn in Hn'. injection Hn' as <-.
  destruct (written s x n d ws n h) as (H1 & H2 & _); [done|done|lia|lia|done|]. rewrite list_insert_id in H1, H2 by done. by rewrite Hng in H1.
Qed.

Lemma bit_word c : bit c -> word c.
Proof. unfold bit, word. lia. Qed.

Lemma add_word_pos_spec x l w s :
  shows s x false l -> word w -> wp (add_word_pos x w) (fun _ => sets x (val l + w) s) (stunted x (zlen l + 1) s) s.
Proof.
  intros Hs Hw. destruct (shows_get _ _ _ _ Hs) as (n & Hn & Hng & Hwd). destruct (shows_digits _ _ _ _ Hs) as [Hd Hmax].
  pose proof (shows_at _ _ _ _ Hs) as Hat. pose proof (zlen_nonneg l). pose proof (at_writable _ _ _ Hat) as Hwr.
  assert (Hfit : forall k, 0 <= k <= zlen l -> writable (arrays s) (bn_d x) k) by (intros; rewrite <- (wadd_0 (bn_d x)); apply (writable_sub _ _ (zlen l)); [done|lia..]).
  unfold add_word_pos. apply wp_bind. eapply wp_bn_get; [exact Hn|]. rewrite Hwd. apply wp_bind.
  apply (wp_iter (fun '(i, c) s' => 0 <= i <= zlen l /\ word c /\ (i = 0 \/ bit c) /\ exists ws, s' = mkStore (nums s) (wput (arrays s) (bn_d x) ws) (bn_heap s) /\
      zlen ws = i /\ digits ws /\ val ws + BASE ^ i * c = val (ztake i l) + w) (fun '(i, _) _ => Z.to_nat (zlen l - i))).
  - split_and!; [lia|lia|done|by left|]. exists []. split_and!; [|done|constructor|].
    + rewrite wput_nil by (apply Hfit; lia). by rewrite eta_store.
    + rewrite ztake_0. change (val []) with 0. change (BASE ^ 0) with 1. lia.
  - lia.
  - intros [i c] s' (Hi & Hc & Hbit & ws & -> & Hz & Hdw & Hv). unfold add_word_turn.
    destruct (negb (c =? 0) && (i <? zlen l)) eqn:Econd.
    + apply andb_true_iff in Econd as [Hc0 Hlt%Z.ltb_lt]. destruct (zget_lt l i) as [d Hdi]; [lia|]. pose proof (digits_zget _ _ _ Hd Hdi) as Hwd'.
      apply wp_bind, wp_on_words. cbn [arrays nums bn_heap]. wp_call read_behind; [exact Hat|apply Hfit; lia|lia|exact Hdi| |done]. intros ? ? [-> ->].
      apply wp_bind, wp_on_words. cbn [arrays nums bn_heap]. rewrite <- Hz at 1. wp_call write_next; [apply (Hfit (zlen l)); lia|lia| |done]. intros [] m' ->.
      apply wp_ret. assert (Hsum : u64 (d + c) + BASE * b2z (u64 (d + c) <? c) = d + c /\ bit (b2z (u64 (d + c) <? c))).
      { unfold word in Hwd', Hc. unfold u64, bit. change 18446744073709551616 with BASE. destruct (Z.lt_ge_cases (d + c) BASE).
        - rewrite Z.mod_small by lia. rewrite (proj2 (Z.ltb_ge _ _)) by lia. cbn. lia.
        - assert ((d + c) mod BASE = d + c - BASE) as -> by (rewrite <- (Z.mod_add _ (-1)) by lia; apply Z.mod_small; lia).
          rewrite (proj2 (Z.ltb_lt _ _)) by lia. cbn. lia. }
      destruct Hsum as [Hsum Hb]. split; [|lia]. split_and!; [lia|lia|by apply bit_word|by right|]. exists (ws ++ [u64 (d + c)]).
      split_and!; [done|by rewrite zlen_snoc, Hz|apply digits_snoc; [done|apply u64_word]|].
      rewrite val_snoc, Hz, (ztake_next _ _ _ Hdi), val_snoc, zlen_ztake, B_pow by lia. nia.
    + apply wp_ret. apply andb_false_iff in Econd as Hout.
      assert (Hkeep : wput (arrays s) (bn_d x) ws = wput (arrays s) (bn_d x) (ws ++ zdrop i l)) by (rewrite <- Hz; apply wput_keep; [done|lia]).
      assert (Hdk : digits (ws ++ zdrop i l)) by (apply digits_app; split; [done|by apply digits_zdrop]).
      assert (Hzk : zlen (ws ++ zdrop i l) = zlen l) by (rewrite zlen_app, zlen_zdrop; lia).
      assert (Hvk : val (ws ++ zdrop i l) + BASE ^ i * c = val l + w) by (rewrite val_app, Hz, (val_split i l) by lia; lia).
      destruct (negb (c =? 0) && (i =? zlen l)) eqn:Eend.
      * apply andb_true_iff in Eend as [Hc0%negb_true_iff%Z.eqb_neq Hil%Z.eqb_eq].
        rewrite Hkeep. rewrite Hil, zdrop_all, app_nil_r in *. clear Hkeep Hout Econd.
        destruct (rewritten s x false l ws (bn_heap s) n) as [Hs' Hoth']; [done..|]. set (s' := mkStore _ _ _) in *.
        apply wp_bind. wp_call bn_wexpand_spec; [by eapply roomy_shows|lia| |].
        2: { intros s2 (H1 & H2 & H3). eapply (stunted_after x _ s s' s2); [done|done|]. eapply stunted_same; [by eapply roomy_shows|done|done|exact H3|lia]. }
        intros [] s2 (Hoth2 & Hsh2 & n2 & d2 & Hbn2 & Hroom2). pose proof Hbn2 as (Hn2 & _). destruct (bn_is_lt _ _ _ _ Hbn2) as [Hlt2 _].
        apply wp_bind. eapply wp_set_width; [exact Hn2|]. apply wp_on_words. cbn [arrays nums bn_heap].
        pose proof (Hsh2 _ _ _ Hs') as Hs2. pose proof (shows_at _ _ _ _ Hs2) as Hat2.
        assert (Hwr2 : writable (arrays s2) (bn_d x) (zlen l + 1)) by (apply roomy_writable; [by exists n2, d2|lia]).
        assert (Hself : wput (arrays s2) (bn_d x) ws = arrays s2).
        { pose proof Hbn2 as (_ & Hd2 & _). rewrite (wput_is _ _ _ _ Hd2). destruct Hat2 as (d2' & Hd2' & _ & _ & Ht2). cbn in Hd2'. rewrite Hd2 in Hd2'. injection Hd2' as <-.
          rewrite zdrop_0 in Ht2. rewrite <- Ht2 at 1. rewrite ztake_zdrop. by apply list_insert_id. }
        rewrite <- Hself, <- Hz. wp_call write_next; [exact Hwr2|lia| |done]. intros [] m' ->.
        destruct (written s2 x n2 d2 (ws ++ [c]) (mkBN (zlen l + 1) (dmax n2) (neg n2) (flags n2)) (bn_heap s2)) as (H1 & H2 & _);
          [done|by apply digits_snoc|rewrite zlen_snoc; lia|rewrite zlen_snoc; cbn; lia|done|].
        assert (Hneg2 : neg n2 = false) by (destruct (shows_get _ _ _ _ Hs2) as (n3 & Hn3 & Hng3 & _); congruence). cbn [neg] in H1. rewrite Hneg2 in *.
        rewrite Hz. split; [eapply others_trans; [exact Hoth'|eapply others_trans; [exact Hoth2|exact H2]]|]. exists false, (ws ++ [c]). split_and!; [exact H1|done|]. cbn. rewrite val_snoc, Hz. lia.
      * apply wp_ret. assert (c = 0) as ->.
        { apply andb_false_iff in Eend. destruct Hout as [Hc0%negb_false_iff%Z.eqb_eq|Hi'%Z.ltb_ge]; [done|]. destruct Eend as [Hc0%negb_false_iff%Z.eqb_eq|Hi2%Z.eqb_neq]; [done|lia]. }
        rewrite Hkeep. destruct (rewritten s x false l (ws ++ zdrop i l) (bn_heap s) n) as [Hs' Hoth']; [done..|].
        split; [done|]. replace (val l + w) with (val (ws ++ zdrop i l)) by lia. by apply holds_pos.
Qed.

Lemma shrink_one l : zlen (shrink l) = 1 -> exists d0, zget l 0 = Some d0 /\ val l = d0 /\ val (zdrop 1 l) = 0 /\ 1 <= zlen l.
Proof.
  intros H. destruct (shrink_spec l) as (_ & Hv & k & Hk & Hk0). destruct (shrink l) as [|d0 t] eqn:E; [done|]. rewrite zlen_cons in H.
  assert (t = []) as -> by (apply zlen_0; lia). exists d0. rewrite Hk in *. split_and!; [done|rewrite <- Hv; cbn; lia|apply val_zrep|].
  cbn. rewrite zlen_cons. pose proof (zlen_nonneg (zrep k 0)). lia.
Qed.
Lemma shrink_many l : digits l -> 1 < zlen (shrink l) -> BASE <= val l.
Proof.
  intros Hd H. destruct (shrink_spec l) as (Hm & Hv & _). destruct (minimal_range _ (digits_shrink _ Hd) Hm) as [[E|Hr] _]; [by rewrite E in H|].
  rewrite <- Hv. assert (BASE ^ 1 <= BASE ^ (zlen (shrink l) - 1)) by (apply Z.pow_le_mono_r; lia). lia.
Qed.

(** The loop of the borrow: it stops inside the words, the number being at least [w]. *)
Lemma sub_word_loop x l w s hd :
  at_ (arrays s) (bn_d x) l -> digits l -> word w -> w <= val l -> 0 < w ->
  wp (iter (S (Z.to_nat (zlen l))) (sub_word_turn x) (0, w))
    (fun i s' => 0 <= i < zlen l /\ exists ws, s' = mkStore hd (wput (arrays s) (bn_d x) ws) (bn_heap s) /\ zlen ws = i + 1 /\ digits ws /\
       val ws = val (ztake (i + 1) l) - w) (fun _ => False) (mkStore hd (arrays s) (bn_heap s)).
Proof.
  intros Hat Hd Hw Hle Hpos. pose proof (zlen_nonneg l). pose proof (at_writable _ _ _ Hat) as Hwr.
  assert (Hfit : forall k, 0 <= k <= zlen l -> writable (arrays s) (bn_d x) k) by (intros; rewrite <- (wadd_0 (bn_d x)); apply (writable_sub _ _ (zlen l)); [done|lia..]).
  apply (wp_iter (fun '(i, c) s' => 0 <= i <= zlen l /\ word c /\ 0 < c /\ exists ws, s' = mkStore hd (wput (arrays s) (bn_d x) ws) (bn_heap s) /\
      zlen ws = i /\ digits ws /\ val ws - BASE ^ i * c = val (ztake i l) - w) (fun '(i, _) _ => Z.to_nat (zlen l - i))).
  - split_and!; [lia|lia|done|done|]. exists []. split_and!; [|done|constructor|].
    + by rewrite wput_nil by (apply Hfit; lia).
    + rewrite ztake_0. change (val []) with 0. change (BASE ^ 0) with 1. lia.
  - lia.
  - intros [i c] s' (Hi & Hc & Hc0 & ws & -> & Hz & Hdw & Hv). unfold word in Hc. pose proof (val_range ws Hdw) as Hrw. rewrite Hz in Hrw.
    assert (Hlt : i < zlen l).
    { destruct (Z.lt_ge_cases i (zlen l)) as [|Hge]; [done|]. exfalso. replace i with (zlen l) in * by lia. rewrite ztake_all in Hv. nia. }
    destruct (zget_lt l i) as [d Hdi]; [lia|]. pose proof (digits_zget _ _ _ Hd Hdi) as Hwd. unfold word in Hwd. unfold sub_word_turn.
    apply wp_bind, wp_on_words. cbn [arrays nums bn_heap]. wp_call read_behind; [exact Hat|apply Hfit; lia|lia|exact Hdi| |done]. intros ? ? [-> ->].
    apply wp_bind, wp_on_words. cbn [arrays nums bn_heap]. rewrite <- Hz at 1. wp_call write_next; [apply (Hfit (zlen l)); lia|lia| |done]. intros [] m' ->.
    assert (Hval : val (ws ++ [u64 (d - c)]) = val ws + BASE ^ i * u64 (d - c)) by (by rewrite val_snoc, Hz).
    assert (Htk : val (ztake (i + 1) l) = val (ztake i l) + BASE ^ i * d) by (by rewrite (ztake_next _ _ _ Hdi), val_snoc, zlen_ztake by lia).
    destruct (Z.leb_spec c d) as [Hcd|Hcd]; apply wp_ret.
    + rewrite (u64_id (d - c)) in * by (unfold word; lia). split; [lia|]. exists (ws ++ [d - c]). split_and!; [done|by rewrite zlen_snoc, Hz|apply digits_snoc; [done|unfold word; lia]|]. nia.
    + assert (Hu : u64 (d - c) = d - c + BASE) by (unfold u64; change 18446744073709551616 with BASE; rewrite <- (Z.mod_add _ 1) by lia; apply Z.mod_small; lia).
      split; [|lia]. split_and!; [lia|lia|unfold word; lia|lia|]. exists (ws ++ [u64 (d - c)]).
      split_and!; [done|by rewrite zlen_snoc, Hz|apply digits_snoc; [done|apply u64_word]|]. rewrite Hval, Htk, Hu, B_pow by lia. nia.
Qed.

Lemma sub_word_pos_spec x l w s :
  shows s x false l -> word w -> 0 < w -> 0 < val l -> wp (sub_word_pos x w) (fun _ => sets x (val l - w) s) (fun _ => False) s.
Proof.
  intros Hs Hw Hpos Hl. destruct (shows_get _ _ _ _ Hs) as (n & Hn & Hng & Hwd). destruct (shows_digits _ _ _ _ Hs) as [Hd Hmax].
  pose proof (shows_at _ _ _ _ Hs) as Hat. pose proof (zlen_nonneg l). pose proof (at_writable _ _ _ Hat) as Hwr. unfold word in Hw.
  unfold sub_word_pos. apply wp_bind. wp_call bn_minimal_width_spec; [exact Hs| |done]. intros mw s' [-> ->].
  assert (Hmain : w <= val l -> forall Q E, (forall s', sets x (val l - w) s s' -> Q tt s') ->
    wp (n ← bn_get x; i ← iter (S (Z.to_nat (width n))) (sub_word_turn x) (0, w); d ← on_words (rd (bn_d x) i);
        if (d =? 0) && (i =? width n - 1) then bn_set_width x (width n - 1) else mret tt) Q E s).
  { intros Hle Q E HQ. apply wp_bind. eapply wp_bn_get; [exact Hn|]. rewrite Hwd. apply wp_bind. rewrite <- (eta_store s) at 1.
    wp_call (sub_word_loop x l w s (nums s)); [done|done|done|done|done| |done]. intros i s' (Hi & ws & -> & Hz & Hdw & Hv).
    assert (Hkeep : wput (arrays s) (bn_d x) ws = wput (arrays s) (bn_d x) (ws ++ zdrop (i + 1) l)) by (rewrite <- Hz; apply wput_keep; [done|lia]).
    rewrite Hkeep. set (l' := ws ++ zdrop (i + 1) l). assert (Hdl : digits l') by (apply digits_app; split; [done|by apply digits_zdrop]).
    assert (Hzl : zlen l' = zlen l) by (unfold l'; rewrite zlen_app, zlen_zdrop; lia).
    assert (Hvl : val l' = val l - w) by (unfold l'; rewrite val_app, Hz, (val_split (i + 1) l) by lia; lia).
    destruct (rewritten s x false l l' (bn_heap s) n) as [Hs' Hoth']; [done..|]. set (s' := mkStore (nums s) _ _) in *.
    destruct (zget_lt l' i) as [d Hdi]; [lia|]. apply wp_bind. eapply wp_rd_word; [by eapply shows_at|exact Hdi|].
    destruct ((d =? 0) && (i =? zlen l - 1)) eqn:Etop.
    - apply andb_true_iff in Etop as [->%Z.eqb_eq Ei%Z.eqb_eq]. destruct Hs' as (n' & d' & Hbn' & Hng' & Hw' & Ht'). pose proof Hbn' as (Hn' & Hd' & (H1 & H2 & H3 & H4)).
      destruct (bn_is_lt _ _ _ _ Hbn') as [Hlt _]. eapply wp_set_width; [exact Hn'|]. apply HQ. split.
      + eapply others_trans; [exact Hoth'|]. unfold others. cbn [nums arrays]. rewrite length_insert. split_and!; [done|done|]. intros y Hy. by rewrite list_lookup_insert_ne.
      + exists false, (ztake i l'). assert (Hzi : zlen (ztake i l') = i) by (apply zlen_ztake; lia). split_and!; [|done|].
        * eexists _, d'. split; [split_and!; [by apply list_lookup_insert_eq|exact Hd'|]|]. { unfold well_formed. cbn. split_and!; try done; lia. }
          cbn. rewrite Hzi. split_and!; [done|lia|]. rewrite <- Ht' at 1. by rewrite ztake_ztake by lia.
        * cbn. rewrite <- Hvl, (val_split i l') by lia. rewrite (zdrop_next _ _ _ Hdi). replace (i + 1) with (zlen l') by lia. rewrite zdrop_all. cbn [val]. lia.
    - apply wp_ret, HQ. split; [done|]. rewrite <- Hvl. by apply holds_pos. }
  destruct (Z.eqb_spec (zlen (shrink l)) 1) as [E1|E1].
  - destruct (shrink_one l E1) as (d0 & Hd0 & Hv0 & Hv1 & Hz1). pose proof (digits_zget _ _ _ Hd Hd0) as Hwd0. unfold word in Hwd0.
    apply wp_bind. eapply wp_rd_word; [exact Hat|exact Hd0|]. cbn [andb]. destruct (Z.ltb_spec d0 w) as [Hlt|Hge].
    + apply wp_bind, wp_on_words. wp_call wr_spec; [apply (writable_sub _ _ (zlen l)); [done|lia..]| |done]. intros [] m' ->. rewrite wadd_0.
      rewrite (u64_id (w - d0)) by (unfold word; lia).
      rewrite (wput_keep _ _ l) by (done || (change (zlen [w - d0]) with 1; lia)). change (zlen [w - d0]) with 1. set (l' := [w - d0] ++ zdrop 1 l).
      destruct (rewritten s x false l l' (bn_heap s) n) as [Hs' Hoth']; [done|done| | |].
      { apply digits_app. split; [constructor; [unfold word; lia|constructor]|by apply digits_zdrop]. }
      { unfold l'. rewrite zlen_app, zlen_zdrop by lia. change (zlen [w - d0]) with 1. lia. }
      wp_call bn_set_neg_spec; [exact Hs'| |done]. intros [] s2 [Hs2 Hoth2]. split; [by eapply others_trans|].
      assert (Hvl : val l' = w - d0) by (unfold l'; rewrite val_app, Hv1; cbn [val]; lia).
      exists true, l'. split_and!; [done|intros _; lia|]. cbn. lia.
    + apply Hmain; [lia|]. by intros s'.
  - apply wp_bind, wp_ret. cbn [andb]. apply Hmain; [|by intros s'].
    assert (1 < zlen (shrink l)).
    { pose proof (zlen_nonneg (shrink l)). destruct (decide (zlen (shrink l) = 0)) as [E0|]; [|lia]. apply zlen_0 in E0.
      destruct (shrink_spec l) as (_ & Hv & _). rewrite E0 in Hv. cbn in Hv. lia. }
    pose proof (shrink_many l Hd ltac:(done)). lia.
Qed.
End Arith.
