(* ===== verification/BnOneWord.v ===== *)
(** Facts about [Bn]: BN_add_word, BN_sub_word and BN_mul_word, on signed numbers. *)
From S2P Require Import Prelude Mem Ct BnWords BnWordsFacts CtFacts Bn BnFacts BnCmp BnAddFacts BnArith.

Section OneWord.
Context `{alloc : Allocator}.

(** The sign is turned round. *)
Lemma bn_set_neg_holds x b z s l ng :
  shows s x ng l -> canonical b l -> z = signed b (val l) -> wp (bn_set_neg x b) (fun _ => sets x z s) (fun _ => False) s.
Proof.
  intros Hs Hc ->. wp_call bn_set_neg_spec; [exact Hs| |done]. intros [] s' [Hs' Ho]. split; [done|]. by exists b, l.
Qed.
Lemma BN_is_zero_holds x z s : holds s x z -> wp (BN_is_zero x) (fun b s' => s' = s /\ b = (z =? 0)) (fun _ => False) s.
Proof.
  intros (ng & l & Hs & Hc & ->). wp_call BN_is_zero_spec; [exact Hs| |done]. intros b s' [-> ->]. split; [done|].
  destruct ng; [|done]. specialize (Hc eq_refl). cbn. apply eq_true_iff_eq. rewrite !Z.eqb_eq. lia.
Qed.

(** What can stop a growing number: its room, seen before and after its sign was set. *)
Definition unsigned (n : BIGNUM) : BIGNUM := mkBN (width n) (dmax n) false (flags n).
Lemma stunted_unsigned r k s s1 s2 :
  others r s s1 -> fmap unsigned (nums s1 !! r) = fmap unsigned (nums s !! r) -> stunted r k s1 s2 -> stunted r k s s2.
Proof.
  intros H1 Hu (H2 & H3 & k' & Hk & n & Hr & H). split_and!; [by eapply others_trans|done|]. exists k'. split; [done|]. rewrite Hr in Hu. destruct (nums s !! r) as [n0|] eqn:E; [|done].
  cbn in Hu. exists n0. split; [done|]. destruct n as [? ? ? ?], n0 as [? ? ? ?]. unfold unsigned in Hu. cbn in *. by injection Hu as -> -> ->.
Qed.
Lemma bn_set_neg_unsigned r ng b l s :
  shows s r ng l -> wp (bn_set_neg r b)
    (fun _ s' => shows s' r b l /\ others r s s' /\ fmap unsigned (nums s' !! r) = fmap unsigned (nums s !! r)) (fun _ => False) s.
Proof.
  intros (n & d & Hbn & Hng & Hw & Ht). pose proof Hbn as (Hn & Hd & Hwf). destruct (bn_is_lt _ _ _ _ Hbn) as [Hlt _].
  eapply wp_set_neg; [exact Hn|]. split_and!.
  - exists (mkBN (width n) (dmax n) b (flags n)), d. split_and!; try done. split_and!; [by apply list_lookup_insert_eq|done|done].
  - unfold others. cbn. rewrite length_insert. split_and!; [done|done|]. intros y Hy. by rewrite list_lookup_insert_ne.
  - cbn. by rewrite list_lookup_insert_eq, Hn.
Qed.

Lemma BN_add_word_spec x v w s :
  holds s x v -> word w -> wp (BN_add_word x w) (fun _ => sets x (v + w) s) (stunted x (words_of s x + 1) s) s.
Proof.
  intros Hx Hw. pose proof Hx as (ng & l & Hs & Hc & Hv). rewrite (shows_words _ _ _ _ Hs). pose proof (zlen_nonneg l). unfold BN_add_word.
  destruct (Z.eqb_spec w 0) as [->|Hne]; [apply wp_ret; split; [done|by rewrite Z.add_0_r]|]. unfold word in Hw.
  apply wp_bind. wp_call BN_is_zero_holds; [exact Hx| |done]. intros z ? [-> ->].
  destruct (Z.eqb_spec v 0) as [->|Hv0]; [wp_call BN_set_word_spec; [by eapply roomy_shows|done|done|]; intros s'; intros Hst; eapply stunted_le; [exact Hst|lia]|].
  destruct (shows_get _ _ _ _ Hs) as (n & Hn & Hng & _). apply wp_bind. eapply wp_bn_get; [exact Hn|]. rewrite Hng.
  destruct ng; cbn [signed] in Hv; [|subst v; by apply add_word_pos_spec].
  specialize (Hc eq_refl). apply wp_bind. wp_call bn_set_neg_spec; [exact Hs| |done]. intros [] s1 [Hs1 Ho1].
  apply wp_bind, wp_succeeds. wp_call sub_word_pos_spec; [exact Hs1|done|lia|done| |done]. intros [] s2 [Ho2 Hx2].
  apply wp_bind. wp_call BN_is_zero_holds; [exact Hx2| |done]. intros z ? [-> ->]. apply wp_bind.
  destruct (Z.eqb_spec (val l - w) 0) as [E|E].
  - apply wp_ret, wp_ret. split; [by eapply others_trans|]. by replace (v + w) with (val l - w) by lia.
  - destruct Hx2 as (ng2 & l2 & Hs2 & Hc2 & Hv2). destruct (shows_get _ _ _ _ Hs2) as (n2 & Hn2 & Hng2 & _).
    apply wp_bind. eapply wp_bn_get; [exact Hn2|]. rewrite Hng2. wp_call bn_set_neg_spec; [exact Hs2| |done]. intros [] s3 [Hs3 Ho3].
    apply wp_ret. split; [by do 2 (eapply others_trans; [done|])|]. pose proof (val_range l2 ltac:(by eapply shows_digits)). exists (negb ng2), l2.
    split_and!; [done|intros Hb|]; destruct ng2; cbn [signed negb] in *; try done; lia.
Qed.

Lemma BN_sub_word_spec x v w s :
  holds s x v -> word w -> wp (BN_sub_word x w) (fun _ => sets x (v - w) s) (stunted x (words_of s x + 1) s) s.
Proof.
  intros Hx Hw. pose proof Hx as (ng & l & Hs & Hc & Hv). rewrite (shows_words _ _ _ _ Hs). pose proof (zlen_nonneg l). unfold BN_sub_word.
  destruct (Z.eqb_spec w 0) as [->|Hne]; [apply wp_ret; split; [done|by rewrite Z.sub_0_r]|]. pose proof Hw as Hw'. unfold word in Hw'.
  apply wp_bind. wp_call BN_is_zero_holds; [exact Hx| |done]. intros z ? [-> ->].
  destruct (Z.eqb_spec v 0) as [->|Hv0].
  - apply wp_bind. wp_call BN_set_word_spec; [by eapply roomy_shows|exact Hw| |intros s1 Hst; eapply stunted_le; [exact Hst|lia]]. intros [] s1 [Ho1 (ng1 & l1 & Hs1 & Hc1 & Hv1)].
    unfold BN_set_negative. apply wp_bind. wp_call BN_is_zero_holds; [by exists ng1, l1|  |done]. intros z ? [-> ->].
    rewrite (proj2 (Z.eqb_neq _ _)) by lia. cbn [andb negb]. wp_call bn_set_neg_spec; [exact Hs1| |done]. intros [] s2 [Hs2 Ho2].
    split; [by eapply others_trans|]. pose proof (val_range l1 ltac:(by eapply shows_digits)). exists true, l1.
    split_and!; [done|intros _|]; destruct ng1; cbn [signed] in *; try (specialize (Hc1 eq_refl)); lia.
  - destruct (shows_get _ _ _ _ Hs) as (n & Hn & Hng & _). apply wp_bind. eapply wp_bn_get; [exact Hn|]. rewrite Hng.
    pose proof (val_range l ltac:(by eapply shows_digits)).
    destruct ng; cbn [signed] in Hv; [|subst v; wp_call sub_word_pos_spec; [exact Hs|done|lia|lia|done|done]].
    apply wp_bind. wp_call bn_set_neg_unsigned; [exact Hs| |done]. intros [] s1 (Hs1 & Ho1 & Hu).
    apply wp_bind, wp_succeeds. wp_call add_word_pos_spec; [exact Hs1|done| |].
    + intros [] s2 [Ho2 (ng2 & l2 & Hs2 & Hc2 & Hv2)]. apply wp_bind. pose proof (val_range l2 ltac:(by eapply shows_digits)).
      wp_call bn_set_neg_spec; [exact Hs2| |done]. intros [] s3 [Hs3 Ho3].
      apply wp_ret. split; [by do 2 (eapply others_trans; [done|])|]. exists true, l2. split_and!; [done|intros _|]; destruct ng2; cbn [signed] in *; lia.
    + intros s2 Hst. apply (stunted_unsigned x _ s s1 s2) in Hst; [|done|done]. apply wp_bind. wp_call stunted_set_neg; [exact Hst| |done]. intros [] s3 H3. by apply wp_fail.
Qed.

(** A word more at the end of the words of [x]. *)
Lemma grow_one s x ng l n c :
  shows s x ng l -> nums s !! x = Some n -> word c ->
  wp (bn_wexpand x (width n + 1);; on_words (wr (bn_d x) (width n) c);; bn_set_width x (width n + 1))
    (fun _ s' => others x s s' /\ shows s' x ng (l ++ [c])) (stunted x (zlen l + 1) s) s.
Proof.
  intros Hs Hn Hc. destruct (shows_get _ _ _ _ Hs) as (n' & Hn' & Hng & Hw). rewrite Hn in Hn'. injection Hn' as <-. rewrite Hw.
  pose proof (zlen_nonneg l). apply wp_bind. wp_call bn_wexpand_spec; [by eapply roomy_shows|lia| |].
  2: { intros s2 (H1 & H2 & H3). eapply stunted_same; [by eapply roomy_shows|done|done|exact H3|lia]. }
  intros [] s2 (Ho2 & Hsh2 & n2 & d2 & Hbn2 & Hroom2). pose proof Hbn2 as (Hn2 & Hd2 & _). pose proof (Hsh2 _ _ _ Hs) as Hs2.
  destruct (shows_digits _ _ _ _ Hs) as [Hdl _].
  assert (Hwr2 : writable (arrays s2) (bn_d x) (zlen l + 1)) by (apply roomy_writable; [by exists n2, d2|lia]).
  assert (Hself : wput (arrays s2) (bn_d x) l = arrays s2).
  { rewrite (wput_is _ _ _ _ Hd2). destruct (shows_at _ _ _ _ Hs2) as (d2' & Hd2' & _ & _ & Ht2). cbn in Hd2'. rewrite Hd2 in Hd2'. injection Hd2' as <-.
    rewrite zdrop_0 in Ht2. rewrite <- Ht2 at 1. rewrite ztake_zdrop. by apply list_insert_id. }
  apply wp_bind, wp_on_words. rewrite <- Hself. wp_call write_next; [exact Hwr2|lia| |done]. intros [] m' ->.
  eapply wp_set_width; [exact Hn2|]. cbn [arrays nums bn_heap].
  destruct (written s2 x n2 d2 (l ++ [c]) (mkBN (zlen l + 1) (dmax n2) (neg n2) (flags n2)) (bn_heap s2)) as (H1 & H2 & _);
    [done|by apply digits_snoc|rewrite zlen_snoc; lia|rewrite zlen_snoc; cbn; lia|done|].
  split; [by eapply others_trans|]. destruct (shows_get _ _ _ _ Hs2) as (n3 & Hn3 & Hng3 & _). rewrite Hn2 in Hn3. injection Hn3 as <-.
  cbn [neg] in H1. by rewrite <- Hng3.
Qed.

Lemma BN_mul_word_spec x v w s :
  holds s x v -> word w -> wp (BN_mul_word x w) (fun _ => sets x (v * w) s) (stunted x (words_of s x + 1) s) s.
Proof.
  intros Hx Hw. pose proof Hx as (ng & l & Hs & Hc & Hv). rewrite (shows_words _ _ _ _ Hs). pose proof (zlen_nonneg l). unfold BN_mul_word. destruct (shows_get _ _ _ _ Hs) as (n & Hn & Hng & Hwd).
  apply wp_bind. eapply wp_bn_get; [exact Hn|]. rewrite Hwd. destruct (Z.eqb_spec (zlen l) 0) as [E|E].
  { apply zlen_0 in E as ->. apply wp_ret. split; [done|]. replace (v * w) with v; [done|]. subst v. by destruct ng. }
  destruct (Z.eqb_spec w 0) as [->|Hne].
  { wp_call BN_zero_spec; [exact Hs| |done]. intros [] s' H'. by rewrite Z.mul_0_r. }
  destruct (shows_digits _ _ _ _ Hs) as [Hd _]. pose proof (shows_at _ _ _ _ Hs) as Hat.
  apply wp_bind, wp_on_words. wp_call (bn_mul_words_spec (arrays s) (bn_d x) (bn_d x) l (zlen l) w); [done|done|done|done|by apply at_writable|apply ahead_refl| |done].
  intros c m' (ws & -> & Hz & Hdw & Hcw & Hval). destruct (rewritten s x ng l ws (bn_heap s) n) as [Hs1 Ho1]; [done..|]. set (s1 := mkStore _ _ _) in *.
  assert (Hpos : ng = true -> 0 < w * val l) by (intros Eng; specialize (Hc Eng); unfold word in Hw; nia).
  assert (Hvw : v * w = signed ng (w * val l)) by (subst v; destruct ng; cbn; lia).
  destruct (Z.eqb_spec c 0) as [->|Hc0]; cbn [negb].
  - apply wp_ret. split; [done|]. exists ng, ws. replace (val ws) with (w * val l) by lia. split_and!; [done| |done]. intros Eng. replace (val ws) with (w * val l) by lia. by apply Hpos.
  - rewrite <- Hwd. wp_call (grow_one s1 x ng ws n c); [done|done|done| |].
    + intros [] s2 [Ho2 Hs2]. split; [by eapply others_trans|]. exists ng, (ws ++ [c]). unfold canonical. rewrite val_snoc, Hz.
      replace (val ws + BASE ^ zlen l * c) with (w * val l) by lia. by split_and!.
    + intros s2 Hst. rewrite Hz, <- Hwd in Hst. by apply (stunted_after x _ s s1 s2).
Qed.
End OneWord.
