(* ===== verification/BnTests.v ===== *)
(** Facts about [Bn]: copies, bit lengths, and the tests of one number. *)
From S2P Require Import Prelude Mem Ct BnWords BnWordsFacts CtFacts Bn BnFacts BnCmp BnAddFacts BnArith.

Section Tests.
Context `{alloc : Allocator}.

(** ** BN_copy *)

Lemma BN_copy_shows dest src ng l s :
  shows s src ng l -> roomy s dest 0 ->
  wp (BN_copy dest src) (fun _ s' => others dest s s' /\ shows s' dest ng l) (fun s' => nums s' = nums s /\ arrays s' = arrays s /\ cannot_grow s dest (zlen l)) s.
Proof.
  intros Hs Hr. unfold BN_copy. destruct (Nat.eqb_spec src dest) as [->|Hne]; [by apply wp_ret|].
  destruct (shows_get _ _ _ _ Hs) as (n & Hn & Hng & Hw). pose proof (zlen_nonneg l). destruct (shows_digits _ _ _ _ Hs) as [Hd _].
  apply wp_bind. eapply wp_bn_get; [exact Hn|]. rewrite Hw. apply wp_bind. wp_call bn_wexpand_spec; [exact Hr|lia| |done].
  intros [] s1 (Ho1 & Hsh1 & n1 & d1 & Hbn1 & Hroom). pose proof (Hsh1 _ _ _ Hs) as Hs1. pose proof Hbn1 as (Hn1 & Hd1 & _).
  apply wp_bind, wp_on_words. wp_call wread_spec; [by eapply shows_at| |done]. intros ? ? [-> ->]. rewrite eta_store.
  apply wp_bind, wp_on_words. wp_call wwrite_spec; [apply roomy_writable; [by exists n1, d1|lia]| |done]. intros [] m' ->.
  apply wp_bind. eapply wp_set_width; [exact Hn1|]. eapply wp_set_neg; [apply list_lookup_insert_eq; by eapply lookup_lt_Some|].
  cbn [nums arrays bn_heap width dmax flags]. rewrite list_insert_insert_eq.
  destruct (written s1 dest n1 d1 l (mkBN (zlen l) (dmax n1) (neg n) (flags n1)) (bn_heap s1)) as (H1 & H2 & _); [done|done|lia|done|done|].
  split; [by eapply others_trans|]. by rewrite <- Hng.
Qed.
Lemma BN_copy_spec dest src v s :
  holds s src v -> roomy s dest 0 -> wp (BN_copy dest src) (fun _ => sets dest v s) (stunted dest (words_of s src) s) s.
Proof.
  intros (ng & l & Hs & Hc & ->) Hr. rewrite (shows_words _ _ _ _ Hs). wp_call BN_copy_shows; [exact Hs|exact Hr| |].
  - intros [] s' [Ho H]. split; [done|]. by exists ng, l.
  - intros s' (H1 & H2 & H3). by eapply stunted_same.
Qed.

(** ** Bit lengths *)

(** The number of bits of [z]. *)
Definition bit_length (z : Z) : Z := if z =? 0 then 0 else Z.log2 z + 1.

Lemma num_bits_step_spec k l bits :
  0 <= l < 2 ^ (2 * k) -> 0 <= k <= 32 ->
  num_bits_step k (l, bits) = if l <? 2 ^ k then (l, bits) else (l / 2 ^ k, bits + k).
Proof.
  intros Hl Hk. unfold num_bits_step. rewrite Z.shiftr_div_pow2 by lia. assert (0 < 2 ^ k) by (apply Z.pow_pos_nonneg; lia).
  assert (Hx : 0 <= l / 2 ^ k < 2 ^ k).
  { split; [apply Z.div_pos; lia|]. apply Z.div_lt_upper_bound; [lia|]. rewrite <- Z.pow_add_r by lia. replace (k + k) with (2 * k) by lia. lia. }
  assert (2 ^ k <= 2 ^ 32) by (apply Z.pow_le_mono_r; lia).
  destruct (Z.ltb_spec l (2 ^ k)) as [Hlt|Hge].
  - rewrite Z.div_small by lia. cbn. rewrite Z.land_0_r, Z.lxor_0_r, Z.land_0_r. by rewrite Z.add_0_r.
  - assert (Hpos : 1 <= l / 2 ^ k) by (apply Z.div_le_lower_bound; lia). set (x := l / 2 ^ k) in *.
    assert (Hm : u64 (0 - Z.shiftr (u64 (0 - x)) (BN_BITS2 - 1)) = BN_MASK2).
    { unfold u64 at 2. rewrite <- (Z.mod_add _ 1) by lia. rewrite Z.mod_small by lia.
      rewrite Z.shiftr_div_pow2 by (unfold BN_BITS2; lia). change (2 ^ (BN_BITS2 - 1)) with 9223372036854775808.
      assert ((0 - x + 1 * 18446744073709551616) / 9223372036854775808 = 1) as -> by (symmetry; apply Z.div_unique with (9223372036854775808 - x); lia). done. }
    rewrite Hm. change BN_MASK2 with (Z.ones 64). rewrite !Z.land_ones by lia.
    assert (Hxl : 0 <= Z.lxor x l < 2 ^ 64).
    { apply lxor_word; unfold word; split; try lia. apply Z.lt_le_trans with (2 ^ (2 * k)); [lia|]. apply Z.pow_le_mono_r; lia. }
    rewrite !Z.mod_small by (done || (split; [lia|]; apply Z.le_lt_trans with 32; [lia|done])). f_equal.
    by rewrite (Z.lxor_comm x l), <- Z.lxor_assoc, Z.lxor_nilpotent, Z.lxor_0_l.
Qed.

(** One halving keeps the bit length of the whole. *)
Lemma num_bits_step_length k l bits :
  0 <= l < 2 ^ (2 * k) -> 0 < k <= 32 ->
  let '(l', bits') := num_bits_step k (l, bits) in
  0 <= l' < 2 ^ k /\ bits' + Z.log2 l' = bits + Z.log2 l.
Proof.
  intros Hl Hk. rewrite num_bits_step_spec by lia. assert (0 < 2 ^ k) by (apply Z.pow_pos_nonneg; lia).
  destruct (Z.ltb_spec l (2 ^ k)); [split; lia|]. split.
  - split; [apply Z.div_pos; lia|]. apply Z.div_lt_upper_bound; [lia|]. rewrite <- Z.pow_add_r by lia. replace (k + k) with (2 * k) by lia. lia.
  - rewrite <- Z.shiftr_div_pow2, Z.log2_shiftr by lia. assert (k <= Z.log2 l) by (apply Z.log2_le_pow2; lia). lia.
Qed.

Lemma BN_num_bits_word_spec l : word l -> BN_num_bits_word l = bit_length l.
Proof.
  intros Hl. unfold BN_num_bits_word, bit_length. set (b := b2z (negb (l =? 0))).
  assert (H0 : 0 <= l < 2 ^ (2 * 32)) by done.
  pose proof (num_bits_step_length 32 l b H0 ltac:(lia)) as H1. destruct (num_bits_step 32 (l, b)) as [l1 b1]. destruct H1 as [H1 E1].
  pose proof (num_bits_step_length 16 l1 b1 H1 ltac:(lia)) as H2. destruct (num_bits_step 16 (l1, b1)) as [l2 b2]. destruct H2 as [H2 E2].
  pose proof (num_bits_step_length 8 l2 b2 H2 ltac:(lia)) as H3. destruct (num_bits_step 8 (l2, b2)) as [l3 b3]. destruct H3 as [H3 E3].
  pose proof (num_bits_step_length 4 l3 b3 H3 ltac:(lia)) as H4. destruct (num_bits_step 4 (l3, b3)) as [l4 b4]. destruct H4 as [H4 E4].
  pose proof (num_bits_step_length 2 l4 b4 H4 ltac:(lia)) as H5. destruct (num_bits_step 2 (l4, b4)) as [l5 b5]. destruct H5 as [H5 E5].
  pose proof (num_bits_step_length 1 l5 b5 H5 ltac:(lia)) as H6. destruct (num_bits_step 1 (l5, b5)) as [l6 b6]. destruct H6 as [H6 E6].
  cbn [snd]. assert (Z.log2 l6 = 0) as Hl6 by (assert (l6 = 0 \/ l6 = 1) as [-> | ->] by lia; done).
  assert (b6 = b + Z.log2 l) as -> by lia. unfold b. destruct (Z.eqb_spec l 0) as [->|]; cbn; lia.
Qed.

(** A number without leading zero words has the bits of its top word and 64 for each other. *)
Lemma bit_length_top l w : digits l -> 0 < w -> bit_length (val (l ++ [w])) = 64 * zlen l + bit_length w.
Proof.
  intros Hd Hw. rewrite val_snoc. pose proof (val_range l Hd). pose proof (zlen_nonneg l).
  assert (0 < BASE ^ zlen l) by (apply Z.pow_pos_nonneg; lia).
  assert (Hp : BASE ^ zlen l = 2 ^ (64 * zlen l)) by (by rewrite <- Z.pow_mul_r by lia). unfold bit_length.
  rewrite !(proj2 (Z.eqb_neq _ _)) by nia.
  assert (Hlog : Z.log2 (val l + BASE ^ zlen l * w) = 64 * zlen l + Z.log2 w); [|lia].
  assert (Hq : Z.shiftr (val l + BASE ^ zlen l * w) (64 * zlen l) = w).
  { rewrite Z.shiftr_div_pow2, <- Hp, Z.mul_comm, Z.div_add by lia. rewrite Z.div_small by lia. lia. }
  assert (64 * zlen l <= Z.log2 (val l + BASE ^ zlen l * w)) by (apply Z.log2_le_pow2; [nia|rewrite <- Hp; nia]).
  pose proof (Z.log2_shiftr (val l + BASE ^ zlen l * w) (64 * zlen l) ltac:(nia)) as Hs. rewrite Hq in Hs. lia.
Qed.

(** The words without the zeros at the end: none, or some and a word that is not zero. *)
Lemma shrink_cases l : digits l ->
  (shrink l = [] /\ val l = 0) \/
  (exists l' w, shrink l = l' ++ [w] /\ digits l' /\ word w /\ 0 < w /\ val l = val (l' ++ [w]) /\ zget l (zlen l') = Some w /\ ztake (zlen l') l = l' /\ zlen l' < zlen l).
Proof.
  intros Hd. destruct (shrink_spec l) as (Hm & Hv & k & Hk & Hk0). pose proof (digits_shrink l Hd) as Hds.
  destruct Hm as [E|(l' & w & E & Hw)]; [left; rewrite E in *; by split|right]. exists l', w. rewrite E in *.
  apply digits_app in Hds as [Hd' [Hww _]%Forall_cons]. rewrite <- app_assoc in Hk. cbn in Hk.
  split_and!; try done; [unfold word in Hww; lia|by rewrite Hk; apply zget_middle|by rewrite Hk; apply ztake_app|].
  rewrite Hk, zlen_app, zlen_cons. pose proof (zlen_nonneg (zrep k 0)). lia.
Qed.

Lemma bit_length_range n l : digits l -> zlen l <= n -> 0 <= bit_length (val l) <= 64 * n.
Proof.
  intros Hd Hn. pose proof (val_range l Hd). pose proof (zlen_nonneg l). unfold bit_length. destruct (Z.eqb_spec (val l) 0); [lia|].
  pose proof (Z.log2_nonneg (val l)). assert (Z.log2 (val l) < 64 * zlen l); [|lia].
  apply Z.log2_lt_pow2; [lia|]. rewrite Z.pow_mul_r by lia. lia.
Qed.

Lemma BN_num_bits_spec x ng l s : shows s x ng l -> wp (BN_num_bits x) (fun b s' => s' = s /\ b = bit_length (val l)) (fun _ => False) s.
Proof.
  intros Hs. unfold BN_num_bits. apply wp_bind. wp_call bn_minimal_width_spec; [exact Hs| |done]. intros w s' [-> ->].
  destruct (shows_digits _ _ _ _ Hs) as [Hd Hmax]. destruct (shrink_cases l Hd) as [[-> ->]|(l' & w & -> & Hd' & Hw & Hpos & Hv & Hget & _ & Hlen)].
  - by apply wp_ret.
  - rewrite zlen_snoc. pose proof (zlen_nonneg l'). rewrite (proj2 (Z.eqb_neq _ _)) by lia. replace (zlen l' + 1 - 1) with (zlen l') by lia.
    apply wp_bind. eapply wp_rd_word; [by eapply shows_at|exact Hget|]. apply wp_ret. split; [done|].
    rewrite BN_num_bits_word_spec, Hv, bit_length_top by done. unfold BN_BITS2.
    assert (0 <= bit_length w <= 64 * 1). { replace w with (val [w]) by (cbn; lia). apply bit_length_range; [by constructor|done]. }
    unfold max_words in Hmax. unfold u32. rewrite Z.mod_small by lia. lia.
Qed.
Lemma BN_num_bytes_spec x ng l s : shows s x ng l -> wp (BN_num_bytes x) (fun b s' => s' = s /\ b = (bit_length (val l) + 7) / 8) (fun _ => False) s.
Proof.
  intros Hs. unfold BN_num_bytes. apply wp_bind. wp_call BN_num_bits_spec; [exact Hs| |done]. intros b s' [-> ->]. apply wp_ret. split; [done|].
  destruct (shows_digits _ _ _ _ Hs) as [Hd Hmax]. pose proof (bit_length_range _ _ Hd Hmax). unfold max_words in *. unfold u32. by rewrite Z.mod_small by lia.
Qed.

(** ** Tests *)

Lemma BN_abs_is_word_spec x ng l w s :
  shows s x ng l -> word w -> wp (BN_abs_is_word x w) (fun b s' => s' = s /\ b = (val l =? w)) (fun _ => False) s.
Proof.
  intros Hs Hw. unfold BN_abs_is_word. apply wp_bind. wp_call bn_minimal_width_spec; [exact Hs| |done]. intros mw s' [-> ->].
  destruct (shows_digits _ _ _ _ Hs) as [Hd Hmax]. destruct (shrink_cases l Hd) as [[-> ->]|(l' & t & -> & Hd' & Ht & Hpos & Hv & Hget & _ & Hlen)].
  - apply wp_ret. split; [done|]. apply Z.eqb_sym.
  - rewrite zlen_snoc, Hv, val_snoc. pose proof (zlen_nonneg l'). pose proof (val_range l' Hd'). destruct (Z.eqb_spec (zlen l' + 1) 1) as [E|E].
    + assert (zlen l' = 0) as E0 by lia. apply zlen_0 in E0 as ->. apply wp_bind. eapply wp_rd_word; [by eapply shows_at|exact Hget|].
      apply wp_ret. split; [done|]. f_equal. change (zlen (@nil Z)) with 0. change (val []) with 0. lia.
    + rewrite (proj2 (Z.eqb_neq _ _)) by lia. apply wp_ret. split; [done|]. symmetry. apply Z.eqb_neq. unfold word in *.
      assert (BASE ^ 1 <= BASE ^ zlen l') by (apply Z.pow_le_mono_r; lia). change (BASE ^ 1) with BASE in *. nia.
Qed.

Lemma BN_is_word_spec x v w s : holds s x v -> word w -> wp (BN_is_word x w) (fun b s' => s' = s /\ b = (v =? w)) (fun _ => False) s.
Proof.
  intros (ng & l & Hs & Hc & ->) Hw. unfold BN_is_word. apply wp_bind. wp_call BN_abs_is_word_spec; [exact Hs|exact Hw| |done]. intros b s' [-> ->].
  destruct (shows_get _ _ _ _ Hs) as (n & Hn & Hng & _). apply wp_bind. eapply wp_bn_get; [exact Hn|]. apply wp_ret. split; [done|]. rewrite Hng.
  pose proof (val_range l ltac:(by eapply shows_digits)). unfold word in Hw. destruct ng; cbn [signed negb].
  - specialize (Hc eq_refl). rewrite orb_false_r. rewrite (proj2 (Z.eqb_neq (- val l) w)) by lia.
    destruct (Z.eqb_spec (val l) w), (Z.eqb_spec w 0); try done; lia.
  - by rewrite orb_true_r, andb_true_r.
Qed.
Lemma BN_is_one_spec x v s : holds s x v -> wp (BN_is_one x) (fun b s' => s' = s /\ b = (v =? 1)) (fun _ => False) s.
Proof.
  intros (ng & l & Hs & Hc & ->). unfold BN_is_one. destruct (shows_get _ _ _ _ Hs) as (n & Hn & Hng & _). apply wp_bind. eapply wp_bn_get; [exact Hn|]. rewrite Hng.
  pose proof (val_range l ltac:(by eapply shows_digits)). destruct ng; cbn [signed].
  - apply wp_ret. split; [done|]. symmetry. apply Z.eqb_neq. lia.
  - wp_call BN_abs_is_word_spec; [exact Hs|unfold word; lia|done|done].
Qed.
Lemma BN_is_odd_spec x ng l s : shows s x ng l -> wp (BN_is_odd x) (fun b s' => s' = s /\ b = Z.odd (val l)) (fun _ => False) s.
Proof.
  intros Hs. unfold BN_is_odd. destruct (shows_get _ _ _ _ Hs) as (n & Hn & Hng & Hw). apply wp_bind. eapply wp_bn_get; [exact Hn|]. rewrite Hw.
  destruct l as [|d l]; [by apply wp_ret|]. pose proof (zlen_nonneg l). rewrite zlen_cons. rewrite (proj2 (Z.ltb_lt _ _)) by lia.
  apply wp_bind. eapply wp_rd_word; [by eapply shows_at|done|]. apply wp_ret. split; [done|]. rewrite val_cons.
  change BASE with (2 * 2 ^ 63). rewrite <- Z.mul_assoc, Z.odd_add_mul_2. change 1 with (Z.ones 1) at 1. rewrite Z.land_ones by lia.
  change (2 ^ 1) with 2. rewrite Zmod_odd. by destruct (Z.odd d).
Qed.

(** A word that loses all its bits when one is taken from it is a power of two. *)
Lemma pow2_word w : word w -> 0 < w -> (0 =? Z.land w (u64 (w - 1))) = (w =? 2 ^ Z.log2 w).
Proof.
  intros Hw Hpos. rewrite u64_id by (unfold word in *; lia). pose proof (Z.log2_spec w Hpos) as [Hlo Hhi]. pose proof (Z.log2_nonneg w).
  apply eq_true_iff_eq. rewrite !Z.eqb_eq. split.
  - intros E. destruct (Z.eq_dec w (2 ^ Z.log2 w)) as [|Hne]; [done|exfalso].
    assert (Hb : Z.testbit (Z.land w (w - 1)) (Z.log2 w) = true); [|rewrite <- E, Z.bits_0 in Hb; done].
    rewrite Z.land_spec, Z.bit_log2 by lia. assert (Z.log2 (w - 1) = Z.log2 w) as <- by (apply Z.log2_unique; lia). rewrite Z.bit_log2; [done|].
    destruct (Z.eq_dec w 1) as [->|]; [by cbn in Hne|lia].
  - intros ->. rewrite Z.sub_1_r, <- Z.ones_equiv, Z.land_ones by lia. symmetry. apply Z.mod_same. apply Z.pow_nonzero; lia.
Qed.

Lemma val_low_zero l w k : digits l -> 0 < w -> val l + BASE ^ zlen l * w = 2 ^ k -> word w -> 0 <= k -> val l = 0.
Proof.
  intros Hd Hw E Hww Hk. pose proof (val_range l Hd). pose proof (zlen_nonneg l).
  assert (Hp : BASE ^ zlen l = 2 ^ (64 * zlen l)) by (by rewrite <- Z.pow_mul_r by lia). rewrite Hp in *. unfold word in Hww.
  assert (0 < 2 ^ (64 * zlen l)) by (apply Z.pow_pos_nonneg; lia).
  assert (64 * zlen l <= k). { destruct (Z.le_gt_cases (64 * zlen l) k); [done|]. assert (2 ^ k < 2 ^ (64 * zlen l)) by (apply Z.pow_lt_mono_r; lia). nia. }
  replace k with (k - 64 * zlen l + 64 * zlen l) in E by lia. rewrite Z.pow_add_r in E by lia.
  assert (Hm : (val l + 2 ^ (64 * zlen l) * w) mod 2 ^ (64 * zlen l) = 0) by (rewrite E; apply Z.mod_mul; lia).
  rewrite Z.mul_comm, Z.mod_add, Z.mod_small in Hm by lia. done.
Qed.

Lemma low_words_loop x l j s :
  at_ (arrays s) (bn_d x) l -> digits l -> 0 <= j <= zlen l ->
  wp (for_ 0 (Z.to_nat j) (fun i (ok : bool) => if ok then w ← on_words (rd (bn_d x) i); mret (w =? 0) else mret false) true)
    (fun ok s' => s' = s /\ ok = (val (ztake j l) =? 0)) (fun _ => False) s.
Proof.
  intros Hat Hd Hj. apply (wp_for (fun i ok s' => s' = s /\ ok = (val (ztake i l) =? 0))).
  - by rewrite ztake_0.
  - intros i ok s' Hi [-> ->]. destruct (zget_lt l i) as [w Hw]; [lia|]. pose proof (digits_zget _ _ _ Hd Hw) as Hww. unfold word in Hww.
    rewrite (ztake_next _ _ _ Hw), val_snoc, zlen_ztake by lia. pose proof (val_range (ztake i l) ltac:(auto with zlist)).
    assert (0 < BASE ^ i) by (apply Z.pow_pos_nonneg; lia). destruct (Z.eqb_spec (val (ztake i l)) 0) as [E|E].
    + apply wp_bind. eapply wp_rd_word; [exact Hat|exact Hw|]. apply wp_ret. split; [done|]. rewrite E. apply eq_true_iff_eq. rewrite !Z.eqb_eq. nia.
    + apply wp_ret. split; [done|]. symmetry. apply Z.eqb_neq. nia.
  - intros ok s' [-> ->]. split; [done|]. by replace (0 + Z.of_nat (Z.to_nat j)) with j by lia.
Qed.

Lemma BN_is_pow2_spec x v s :
  holds s x v -> wp (BN_is_pow2 x) (fun b s' => s' = s /\ (b = true <-> exists k, 0 <= k /\ v = 2 ^ k)) (fun _ => False) s.
Proof.
  intros (ng & l & Hs & Hc & ->). unfold BN_is_pow2. apply wp_bind. wp_call bn_minimal_width_spec; [exact Hs| |done]. intros mw s' [-> ->].
  destruct (shows_get _ _ _ _ Hs) as (n & Hn & Hng & _). apply wp_bind. eapply wp_bn_get; [exact Hn|]. rewrite Hng.
  destruct (shows_digits _ _ _ _ Hs) as [Hd Hmax]. pose proof (val_range l Hd).
  assert (Hneg : forall b, ng = true \/ val l = 0 -> b = false -> b = true <-> exists k, 0 <= k /\ signed ng (val l) = 2 ^ k).
  { intros b Hno ->. split; [done|]. intros (k & Hk & E). assert (0 < 2 ^ k) by (apply Z.pow_pos_nonneg; lia). destruct ng; cbn in E; [|destruct Hno; [done|]]; lia. }
  destruct (shrink_cases l Hd) as [[-> Hv]|(l' & w & -> & Hd' & Hw & Hpos & Hv & Hget & Htk & Hlen)].
  - change (zlen (@nil Z)) with 0. cbn [Z.eqb orb]. apply wp_ret. split; [done|]. apply Hneg; [by right|done].
  - rewrite zlen_snoc. pose proof (zlen_nonneg l'). rewrite (proj2 (Z.eqb_neq _ _)) by lia. cbn [orb]. destruct ng; [apply wp_ret; split; [done|by apply Hneg; [left|]]|].
    replace (zlen l' + 1 - 1) with (zlen l') by lia. apply wp_bind. wp_call low_words_loop; [by eapply shows_at|exact Hd|lia| |done].
    intros ok s' [-> ->]. rewrite Htk. cbn [signed]. rewrite Hv, val_snoc. destruct (Z.eqb_spec (val l') 0) as [E|E]; cbn [negb].
    + apply wp_bind. eapply wp_rd_word; [by eapply shows_at|exact Hget|]. apply wp_ret. split; [done|]. rewrite pow2_word, E, Z.eqb_eq by done.
      assert (Hp : BASE ^ zlen l' = 2 ^ (64 * zlen l')) by (by rewrite <- Z.pow_mul_r by lia). rewrite Hp.
      assert (0 < 2 ^ (64 * zlen l')) by (apply Z.pow_pos_nonneg; lia). split.
      * intros Ew. pose proof (Z.log2_nonneg w). exists (64 * zlen l' + Z.log2 w). split; [lia|]. rewrite Z.pow_add_r by lia. rewrite <- Ew. lia.
      * intros (k & Hk & Ek). assert (Z.log2 w = k - 64 * zlen l') as ->.
        { assert (Hlog : Z.log2 (0 + 2 ^ (64 * zlen l') * w) = k) by (rewrite Ek; apply Z.log2_pow2; lia).
          rewrite Z.add_0_l, Z.mul_comm, Z.log2_mul_pow2 in Hlog by lia. lia. }
        assert (64 * zlen l' <= k). { destruct (Z.le_gt_cases (64 * zlen l') k); [done|]. assert (2 ^ k < 2 ^ (64 * zlen l')) by (apply Z.pow_lt_mono_r; lia). nia. }
        apply (Z.mul_reg_l _ _ (2 ^ (64 * zlen l'))); [lia|]. rewrite <- Z.pow_add_r by lia. replace (64 * zlen l' + (k - 64 * zlen l')) with k by lia. lia.
    + apply wp_ret. split; [done|]. split; [done|]. intros (k & Hk & Ek). exfalso. apply E. by eapply val_low_zero.
Qed.

(** ** Equality, and the comparison with a word *)

Lemma val_eq_split la lb k : digits la -> digits lb -> 0 <= k <= zlen la -> k <= zlen lb -> (k = zlen la \/ k = zlen lb) ->
  val la = val lb <-> ztake k la = ztake k lb /\ val (zdrop k la) = 0 /\ val (zdrop k lb) = 0.
Proof.
  intros Ha Hb Hka Hkb Hmin. rewrite (val_split k la), (val_split k lb) by lia.
  pose proof (val_range _ (digits_ztake k _ Ha)) as H1. pose proof (val_range _ (digits_ztake k _ Hb)) as H2. rewrite !zlen_ztake in * by lia.
  pose proof (val_range _ (digits_zdrop k _ Ha)). pose proof (val_range _ (digits_zdrop k _ Hb)).
  assert (0 < BASE ^ k) by (apply Z.pow_pos_nonneg; lia). set (A := val (zdrop k la)) in *. set (B := val (zdrop k lb)) in *.
  assert (A = 0 \/ B = 0) by (destruct Hmin as [->| ->]; [left; unfold A|right; unfold B]; by rewrite zdrop_all). split.
  - intros E. assert (A = 0 /\ B = 0) as [HA HB] by nia. split_and!; [|done|done]. apply val_inj; [by auto with zlist..|by rewrite !zlen_ztake by lia|nia].
  - intros (-> & -> & ->). lia.
Qed.

Lemma rest_words k n (l : list Z) : zlen l = n -> val (ztake (n - k) (zdrop k l)) = val (zdrop k l) \/ k > n.
Proof.
  intros <-. destruct (Z.le_gt_cases k (zlen l)); [left|right; lia]. destruct (Z.le_gt_cases 0 k).
  - replace (zlen l - k) with (zlen (zdrop k l)) by (rewrite zlen_zdrop; lia). by rewrite ztake_all.
  - assert (zdrop k l = l) as -> by (unfold zdrop; by replace (Z.to_nat k) with 0%nat by lia).
    f_equal. unfold ztake. apply take_ge. unfold zlen in *. lia.
Qed.

Lemma equal_words_loop a b la lb k mask s :
  at_ (arrays s) a la -> at_ (arrays s) b lb -> digits la -> digits lb -> 0 <= k <= zlen la -> k <= zlen lb -> word mask ->
  wp (on_words (for_ 0 (Z.to_nat k) (fun i mask => u ← rd a i; v ← rd b i; mret (Z.lor mask (Z.lxor u v))) mask))
    (fun r s' => s' = s /\ word r /\ (r = 0 <-> mask = 0 /\ ztake k la = ztake k lb)) (fun _ => False) s.
Proof.
  intros Ha Hb Hda Hdb Hka Hkb Hm. apply wp_on_words.
  apply (wp_for (fun i r m' => m' = arrays s /\ word r /\ (r = 0 <-> mask = 0 /\ ztake i la = ztake i lb))).
  - rewrite !ztake_0. split_and!; [done|done|tauto].
  - intros i r m' Hi (-> & Hr & Hiff). destruct (zget_lt la i) as [u Hu]; [lia|]. destruct (zget_lt lb i) as [v Hv]; [lia|].
    apply wp_bind. wp_call rd_spec; [exact Ha|exact Hu| |done]. intros ? ? [-> ->]. apply wp_bind. wp_call rd_spec; [exact Hb|exact Hv| |done]. intros ? ? [-> ->].
    pose proof (digits_zget _ _ _ Hda Hu). pose proof (digits_zget _ _ _ Hdb Hv). apply wp_ret. split_and!; [done|by apply lor_word, lxor_word|].
    rewrite Z.lor_eq_0_iff, Z.lxor_eq_0_iff, Hiff, (ztake_next _ _ _ Hu), (ztake_next _ _ _ Hv).
    split; [intros [[-> ->] ->]; done|]. intros [-> E]. apply app_inj_tail in E as [-> ->]. done.
  - intros r m' (-> & Hr & Hiff). rewrite eta_store. by replace (0 + Z.of_nat (Z.to_nat k)) with k in Hiff by lia.
Qed.

Lemma BN_equal_consttime_spec a b na nb la lb s :
  shows s a na la -> shows s b nb lb ->
  wp (BN_equal_consttime a b) (fun r s' => s' = s /\ r = (eqb na nb && (val la =? val lb))) (fun _ => False) s.
Proof.
  intros Ha Hb. destruct (shows_get _ _ _ _ Ha) as (x & Hx & Hnx & Hwx), (shows_get _ _ _ _ Hb) as (y & Hy & Hny & Hwy).
  destruct (shows_digits _ _ _ _ Ha) as [Hda _], (shows_digits _ _ _ _ Hb) as [Hdb _]. pose proof (shows_at _ _ _ _ Ha) as Hata. pose proof (shows_at _ _ _ _ Hb) as Hatb.
  pose proof (zlen_nonneg la). pose proof (zlen_nonneg lb). unfold BN_equal_consttime.
  apply wp_bind. eapply wp_bn_get; [exact Hx|]. apply wp_bind. eapply wp_bn_get; [exact Hy|]. rewrite Hwx, Hwy, Hnx, Hny.
  apply wp_bind, wp_on_words. wp_call or_words_spec; [exact Hatb|done|apply word_0|lia|lia| |done]. intros r1 m' (-> & Hr1 & Hi1). rewrite eta_store.
  apply wp_bind, wp_on_words. wp_call or_words_spec; [exact Hata|done|exact Hr1|lia|lia| |done]. intros r2 m' (-> & Hr2 & Hi2). rewrite eta_store.
  set (k := if zlen la <? zlen lb then zlen la else zlen lb). assert (Hk : 0 <= k <= zlen la /\ k <= zlen lb /\ (k = zlen la \/ k = zlen lb)) by (unfold k; destruct (Z.ltb_spec (zlen la) (zlen lb)); lia).
  apply wp_bind. wp_call equal_words_loop; [exact Hata|exact Hatb|done|done|lia|lia|exact Hr2| |done]. intros r3 s' (-> & Hr3 & Hi3). apply wp_ret. split; [done|].
  assert (Hall : r3 = 0 <-> val la = val lb).
  { rewrite Hi3, Hi2, Hi1, (val_eq_split la lb k) by (done || lia).
    assert (Hz : forall n (l : list Z), val (ztake (- n) l) = 0 \/ n < 0) by (intros n l; destruct (Z.lt_ge_cases n 0); [by right|left]; unfold ztake; by replace (Z.to_nat (- n)) with 0%nat by lia).
    unfold k in *. destruct (Z.ltb_spec (zlen la) (zlen lb)) as [Hlt|Hge].
    - destruct (rest_words (zlen la) (zlen lb) lb) as [->|]; [done| |lia]. rewrite zdrop_all. change (val []) with 0.
      destruct (Hz (zlen lb - zlen la) (zdrop (zlen lb) la)) as [E|]; [|lia]. replace (- (zlen lb - zlen la)) with (zlen la - zlen lb) in E by lia. rewrite E. tauto.
    - destruct (rest_words (zlen lb) (zlen la) la) as [->|]; [done| |lia]. rewrite zdrop_all. change (val []) with 0.
      destruct (Hz (zlen la - zlen lb) (zdrop (zlen la) lb)) as [E|]; [|lia]. replace (- (zlen la - zlen lb)) with (zlen lb - zlen la) in E by lia. rewrite E. tauto. }
  apply eq_true_iff_eq. rewrite andb_true_iff, !Z.eqb_eq, Z.lor_eq_0_iff, Hall. destruct na, nb; cbn; intuition (done || lia).
Qed.

(** Numbers and arrays go together, one array for each number. *)
Definition aligned (s : bn_store) : Prop := length (nums s) = length (arrays s).

(** The call sees the static number [one], behind those there are; it is gone afterwards. *)
Lemma with_static_spec {A} w (k : bn -> M bn_store A) (Q : A -> bn_store -> Prop) E s :
  aligned s -> word w ->
  (forall s1 one, length (nums s1) = S (length (nums s)) -> length (arrays s1) = S (length (nums s)) -> one = length (nums s) ->
     (exists lw, shows s1 one false lw /\ val lw = w /\ zlen lw <= 1) -> (forall y ng l, shows s y ng l -> shows s1 y ng l) ->
     (forall y, (y < length (nums s))%nat -> nums s1 !! y = nums s !! y /\ arrays s1 !! y = arrays s !! y) -> bn_heap s1 = bn_heap s ->
     wp (k one) (fun r t => Q r (mkStore (take one (nums t)) (take one (arrays t)) (bn_heap t))) E s1) ->
  wp (with_static w k) Q E s.
Proof.
  intros Hal Hw Hk. unfold with_static. apply wp_bind. unfold bn_alloc, wp at 1.
  set (n := mkBN (b2z (0 <? w)) 1 false BN_FLG_STATIC_DATA). set (s1 := mkStore (nums s ++ [n]) (arrays s ++ [[w]]) (bn_heap s)).
  assert (Hold : forall y, (y < length (nums s))%nat -> nums s1 !! y = nums s !! y /\ arrays s1 !! y = arrays s !! y).
  { intros y Hy. cbn. rewrite !lookup_app_l; [done|by rewrite <- Hal|done]. }
  assert (Hx : nums s1 !! length (nums s) = Some n /\ arrays s1 !! length (nums s) = Some [w]).
  { cbn. split; [by rewrite list_lookup_middle|]. rewrite Hal. by rewrite list_lookup_middle. }
  assert (Hwf : well_formed n [w]). { unfold well_formed, max_words. cbn. destruct (0 <? w); cbn; split_and!; try lia; try (by constructor). }
  apply wp_bind. eapply wp_mono; [eapply (Hk s1 (length (nums s)))| |done].
  - cbn. rewrite length_app. cbn. lia.
  - cbn. rewrite length_app, <- Hal. cbn. lia.
  - done.
  - unfold word in Hw. exists (ztake (b2z (0 <? w)) [w]). destruct Hx as [Hx1 Hx2]. destruct (Z.ltb_spec 0 w) as [Hp|Hz0].
    + split_and!; [exists n, [w]; split_and!; try done; unfold n; cbn; by rewrite (proj2 (Z.ltb_lt 0 w) Hp)|change (val [w] = w); cbn [val]; lia|done].
    + split_and!; [exists n, [w]; split_and!; try done; unfold n; cbn; by rewrite (proj2 (Z.ltb_ge 0 w) Hz0)|change (0 = w); lia|done].
  - intros y ng l (n0 & d & (Hn & Hd & Hwf0) & Hrest). exists n0, d. split; [|done]. unfold bn_is. destruct (Hold y) as [-> ->]; [by eapply lookup_lt_Some|done].
  - exact Hold.
  - done.
  - intros r t HQ. by apply wp_bind, wp_modify, wp_ret.
Qed.

Lemma BN_cmp_word_spec a v w s :
  aligned s -> holds s a v -> word w -> wp (BN_cmp_word a w) (fun r s' => s' = s /\ r = cmp_sign v w) (fun _ => False) s.
Proof.
  intros Hal (ng & l & Hs & Hc & ->) Hw. apply with_static_spec; [done|done|]. intros s1 one Hlen _ -> (lw & Hsw & Hvw & _) Hsh Hold Hh.
  wp_call BN_cmp_spec; [by apply Hsh|exact Hsw|exact Hc|done| |done]. intros r s' [-> ->]. rewrite Hvw. split; [|done].
  assert (E : forall {A} (l1 l : list A), length l1 = length (nums s) -> (forall y, (y < length (nums s))%nat -> l !! y = l1 !! y) -> take (length (nums s)) l = l1).
  { intros A l1 l2 Hl1 H12. apply list_eq. intros i. destruct (Nat.lt_ge_cases i (length (nums s))) as [Hi|Hi]; [rewrite lookup_take_lt by done; by apply H12|].
    rewrite lookup_take_ge by done. symmetry. by apply lookup_ge_None_2; rewrite Hl1. }
  rewrite (E _ (nums s)), (E _ (arrays s)), Hh by (done || (intros; by apply Hold)). apply eta_store.
Qed.
End Tests.
