(* ===== verification/BnShiftFacts.v ===== *)
(** Facts about the shifts of [BnShift]: what the loops over words write, and the
    numbers they make. *)
From S2P Require Import Prelude Mem Ct BnWords BnWordsFacts BnMulFacts CtFacts Bn BnShift BnFacts BnCmp BnAddFacts BnArith BnOneWord BnTests.

(** * Words stored from the top down *)

Lemma rd_at p i : rd p i = rd (wadd p i) 0.
Proof. by rewrite rd_wadd, Z.add_0_r. Qed.
Lemma wr_at p i w : wr p i w = wr (wadd p i) 0 w.
Proof. by rewrite wr_wadd, Z.add_0_r. Qed.
(** In front of what has been stored. *)
Lemma wput_front m p l1 l2 :
  writable m p (zlen l1 + zlen l2) -> wput (wput m (wadd p (zlen l1)) l2) p l1 = wput m p (l1 ++ l2).
Proof.
  intros (arr & Hm & (H0 & H1 & H2)). pose proof (zlen_nonneg l1). pose proof (zlen_nonneg l2).
  unfold wput. cbn. rewrite Hm. cbn. rewrite list_lookup_insert_eq by (by eapply lookup_lt_Some). cbn. rewrite list_insert_insert_eq. f_equal.
  unfold put_at. rewrite zlen_app. assert (Hz : zlen (ztake (p.2 + zlen l1) arr) = p.2 + zlen l1) by (apply zlen_ztake; lia).
  rewrite ztake_app_le by lia. rewrite ztake_ztake by lia. rewrite (zdrop_app (p.2 + zlen l1)) by done. rewrite <- app_assoc. by replace (p.2 + zlen l1 + zlen l2) with (p.2 + (zlen l1 + zlen l2)) by lia.
Qed.
(** The word before those stored, and the first of those. *)
Lemma wr_front m p w l k :
  writable m p k -> 1 + zlen l <= k -> wp (wr p 0 w) (fun _ m' => m' = wput m p (w :: l)) (fun _ => False) (wput m (wadd p 1) l).
Proof.
  intros Hp Hk. pose proof (zlen_nonneg l). assert (Hfit : forall j, 0 <= j <= k -> writable m p j) by (intros; rewrite <- (wadd_0 p); apply (writable_sub _ _ k); [done|lia..]).
  wp_call wr_spec; [rewrite wadd_0; apply wput_writable; [apply (writable_sub _ _ k); [done|lia..]|apply Hfit; lia]| |done].
  intros [] m' ->. rewrite wadd_0. apply (wput_front m p [w] l). change (zlen [w]) with 1. apply Hfit. lia.
Qed.
Lemma wr_first m p x w l k :
  writable m p k -> 1 + zlen l <= k -> wp (wr p 0 w) (fun _ m' => m' = wput m p (w :: l)) (fun _ => False) (wput m p (x :: l)).
Proof.
  intros Hp Hk. pose proof (zlen_nonneg l). assert (Hfit : forall j, 0 <= j <= k -> writable m p j) by (intros; rewrite <- (wadd_0 p); apply (writable_sub _ _ k); [done|lia..]).
  wp_call wr_spec; [rewrite wadd_0; apply wput_writable; [rewrite zlen_cons; apply Hfit; lia|apply Hfit; lia]| |done].
  intros [] m' ->. rewrite wadd_0. pose proof (wput_over m p [] [x] l [w]) as Ho. cbn [app] in Ho. change (zlen (@nil Z)) with 0 in Ho. change (zlen [x]) with 1 in Ho.
  rewrite wadd_0 in Ho. apply Ho; [|done]. apply Hfit. lia.
Qed.
(** What is below the words stored stays. *)
Lemma read_below m r a ws l off i x :
  at_ m (bn_d a) l -> writable m (bn_d r) (off + zlen ws) -> i < off -> 0 <= off -> zget l i = Some x ->
  wp (rd (bn_d a) i) (fun y m' => y = x /\ m' = wput m (wadd (bn_d r) off) ws) (fun _ => False) (wput m (wadd (bn_d r) off) ws).
Proof.
  intros Ha Hr Hi Hoff Hx. pose proof (zget_Some _ _ _ Hx). pose proof (zlen_nonneg ws). eapply rd_spec.
  - apply wput_apart; [apply (writable_sub _ _ (off + zlen ws)); [done|lia..]|apply (at_take _ _ _ (i + 1)) in Ha; [exact Ha|lia]|]. unfold apart. cbn. rewrite zlen_ztake by lia. lia.
  - rewrite (ztake_next _ _ _ Hx). rewrite zget_app_r by (rewrite zlen_ztake; lia). rewrite zlen_ztake by lia. by rewrite Z.sub_diag.
Qed.

(** * The left shift *)

(** A word in two parts: what stays in the place and what goes up. *)
Lemma shl_parts l lb : word l -> 0 < lb < 64 ->
  u64 (Z.shiftl l lb) + BASE * Z.shiftr l (64 - lb) = 2 ^ lb * l /\ (u64 (Z.shiftl l lb)) mod 2 ^ lb = 0 /\ 0 <= Z.shiftr l (64 - lb) < 2 ^ lb.
Proof.
  intros Hl Hlb. rewrite Z.shiftl_mul_pow2, Z.shiftr_div_pow2 by lia. assert (Hp : BASE = 2 ^ lb * 2 ^ (64 - lb)) by (rewrite <- Z.pow_add_r by lia; f_equal; lia).
  assert (0 < 2 ^ lb) by (apply Z.pow_pos_nonneg; lia). assert (0 < 2 ^ (64 - lb)) by (apply Z.pow_pos_nonneg; lia).
  assert (Hu : u64 (l * 2 ^ lb) = 2 ^ lb * (l mod 2 ^ (64 - lb))) by (rewrite u64_mod, Hp, (Z.mul_comm l), Z.mul_mod_distr_l by lia; done).
  rewrite Hu. unfold word in Hl. split_and!.
  - rewrite Hp. pose proof (Z.div_mod l (2 ^ (64 - lb)) ltac:(lia)). nia.
  - rewrite Z.mul_comm. apply Z.mod_mul. lia.
  - apply Z.div_pos; lia.
  - apply Z.div_lt_upper_bound; lia.
Qed.
Lemma lor_low h x lb : 0 <= lb -> h mod 2 ^ lb = 0 -> 0 <= x < 2 ^ lb -> Z.lor h x = h + x.
Proof.
  intros Hlb Hh Hx. pose proof (Z.add_lor_land h x) as Ha. assert (Z.land h x = 0); [|lia]. clear Ha. rewrite Z.mod_divide in Hh by (apply Z.pow_nonzero; lia). destruct Hh as [q ->].
  apply Z.bits_inj'. intros i Hi. rewrite Z.land_spec, Z.bits_0. destruct (Z.lt_ge_cases i lb).
  - by rewrite Z.mul_pow2_bits_low.
  - destruct (Z.eq_dec x 0) as [->|]; [by rewrite Z.bits_0, andb_false_r|]. rewrite (Z.bits_above_log2 x), andb_false_r; [done|lia|].
    assert (Z.log2 x < lb) by (apply Z.log2_lt_pow2; lia). lia.
Qed.

Section LeftShift.
Variables (m : words) (r a : bn) (l : list Z) (nw lb : Z).
Hypothesis Ha : at_ m (bn_d a) l.
Hypothesis Hd : digits l.
Hypothesis Hr : writable m (bn_d r) (zlen l + nw + 1).
Hypothesis Hnw : 0 <= nw.
Hypothesis Hlb : 0 <= lb < 64.

(** The words from [i] on are done: the shifted words are from [nw + i] on. *)
Definition lshifted (i : Z) (m' : words) : Prop :=
  exists ws, m' = wput m (wadd (bn_d r) (nw + i)) ws /\ zlen ws = zlen l - i + 1 /\ digits ws /\ val ws = 2 ^ lb * val (zdrop i l) /\
    exists w0 ws', ws = w0 :: ws' /\ w0 mod 2 ^ lb = 0.

Lemma lshift_room k : 0 <= k <= zlen l + nw + 1 -> writable m (bn_d r) k.
Proof. intros. rewrite <- (wadd_0 (bn_d r)). apply (writable_sub _ _ (zlen l + nw + 1)); [done|lia..]. Qed.
Lemma lshift_fits i k : 0 <= i -> 0 <= k -> i + k <= zlen l + 1 -> writable m (wadd (bn_d r) (nw + i)) k.
Proof. intros. apply (writable_sub _ _ (zlen l + nw + 1)); [done|lia..]. Qed.

Lemma lshift_start : wp (wr (bn_d r) (zlen l + nw) 0) (fun _ => lshifted (zlen l)) (fun _ => False) m.
Proof.
  pose proof (zlen_nonneg l). wp_call wr_spec; [apply (writable_sub _ _ (zlen l + nw + 1)); [done|lia..]| |done].
  intros [] m' ->. exists [0]. rewrite zdrop_all. cbn [val]. replace (zlen l + nw) with (nw + zlen l) by lia.
  split_and!; [done|change (zlen [0]) with 1; lia|repeat constructor; lia|lia|]. exists 0, []. split; [done|]. apply Z.mod_0_l. apply Z.pow_nonzero; lia.
Qed.

Lemma lshift_read i w m' : lshifted (i + 1) m' -> 0 <= i < zlen l -> zget l i = Some w ->
  wp (rd (bn_d a) i) (fun x m2 => x = w /\ m2 = m') (fun _ => False) m'.
Proof.
  intros (ws & -> & Hz & _) Hi Hw. wp_call read_below; [exact Ha|apply lshift_room; lia|lia|lia|exact Hw|done|done].
Qed.

(** Whole words. *)
Lemma lshift_copy_step i m' :
  lb = 0 -> 0 <= i < zlen l -> lshifted (i + 1) m' ->
  wp (w ← rd (bn_d a) i; wr (bn_d r) (nw + i) w) (fun _ => lshifted i) (fun _ => False) m'.
Proof.
  intros Hlb0 Hi H. destruct (zget_lt l i) as [w Hw]; [lia|]. apply wp_bind. wp_call lshift_read; [exact H|lia|exact Hw| |done]. intros ? ? [-> ->].
  destruct H as (ws & -> & Hz & Hdw & Hv & w0 & ws' & -> & _). pose proof (digits_zget _ _ _ Hd Hw) as Hww.
  rewrite wr_at. replace (nw + (i + 1)) with (nw + i + 1) by lia. rewrite <- wadd_wadd.
  wp_call (wr_front m (wadd (bn_d r) (nw + i)) w (w0 :: ws') (zlen l - i + 1)); [apply lshift_fits; lia|lia| |done]. intros [] m' ->.
  exists (w :: w0 :: ws'). rewrite zlen_cons. split_and!; [done|lia|by constructor| |exists w, (w0 :: ws'); split; [done|rewrite Hlb0; apply Z.mod_1_r]].
  rewrite val_cons, Hv, (zdrop_next _ _ _ Hw), val_cons, Hlb0. lia.
Qed.

(** Words in two parts. *)
Lemma lshift_word_step i m' :
  0 < lb -> 0 <= i < zlen l -> lshifted (i + 1) m' ->
  wp (lshift_word (bn_d r) (bn_d a) nw lb i) (fun _ => lshifted i) (fun _ => False) m'.
Proof.
  intros Hlb0 Hi H. destruct (zget_lt l i) as [w Hw]; [lia|]. unfold lshift_word. apply wp_bind. wp_call lshift_read; [exact H|lia|exact Hw| |done]. intros ? ? [-> ->].
  destruct H as (ws & -> & Hz & Hdw & Hv & w0 & ws' & -> & Hlow). pose proof (digits_zget _ _ _ Hd Hw) as Hww. rewrite zlen_cons in Hz.
  replace (nw + (i + 1)) with (nw + i + 1) by lia. pose proof (lshift_fits i (zlen l - i + 1) ltac:(lia) ltac:(lia) ltac:(lia)) as Hfit.
  pose proof (lshift_fits (i + 1) (zlen l - i) ltac:(lia) ltac:(lia) ltac:(lia)) as Hfit1. replace (nw + (i + 1)) with (nw + i + 1) in Hfit1 by lia.
  assert (Hat : at_ (wput m (wadd (bn_d r) (nw + i + 1)) (w0 :: ws')) (wadd (bn_d r) (nw + i + 1)) (w0 :: ws')) by (apply wput_at; rewrite zlen_cons; by replace (1 + zlen ws') with (zlen l - i) by lia).
  apply wp_bind. rewrite rd_at. wp_call rd_spec; [exact Hat|done| |done]. intros ? ? [-> ->].
  apply wp_bind. rewrite wr_at. wp_call wr_first; [exact Hfit1|lia| |done]. intros [] m' ->.
  rewrite wr_at, <- wadd_wadd.
  wp_call wr_front; [exact Hfit|rewrite zlen_cons; lia| |done]. intros [] m' ->.
  apply Forall_cons in Hdw as [Hw0 Hdw']. destruct (shl_parts w lb Hww) as (Hparts & Hmod & Hhi); [lia|]. unfold BN_BITS2. rewrite (lor_low w0 _ lb) by (done || lia).
  exists (u64 (Z.shiftl w lb) :: (w0 + Z.shiftr w (64 - lb)) :: ws'). rewrite !zlen_cons. split_and!; [done|lia| | |eexists _, _; split; [done|exact Hmod]].
  - constructor; [apply u64_word|]. constructor; [|done]. rewrite <- (lor_low w0 _ lb) by (done || lia). apply lor_word; [done|].
    unfold word in *. split; [lia|]. apply Z.lt_le_trans with (2 ^ lb); [lia|]. apply Z.pow_le_mono_r; lia.
  - rewrite !val_cons in *. rewrite (zdrop_next _ _ _ Hw), val_cons. lia.
Qed.

Lemma lshift_words_spec :
  wp (lshift_words (bn_d r) (bn_d a) (zlen l) nw lb)
    (fun _ m' => exists ws, m' = wput m (bn_d r) ws /\ zlen ws = zlen l + nw + 1 /\ digits ws /\ val ws = 2 ^ (64 * nw + lb) * val l) (fun _ => False) m.
Proof.
  pose proof (zlen_nonneg l) as Hz. unfold lshift_words. apply wp_bind. wp_call lshift_start. 2: done. intros [] m1 H1.
  assert (Hdown : forall body, (forall i m', 0 <= i < zlen l -> lshifted (i + 1) m' -> wp (body i) (fun _ => lshifted i) (fun _ => False) m') ->
    wp (for_down (zlen l) body) (fun _ => lshifted 0) (fun _ => False) m1).
  { intros body Hb. unfold for_down. apply (wp_for (fun k _ m' => lshifted (zlen l - k) m')).
    - by rewrite Z.sub_0_r.
    - intros k [] m' Hk H. replace (zlen l - (k + 1)) with (zlen l - 1 - k) by lia. apply Hb; [lia|]. by replace (zlen l - 1 - k + 1) with (zlen l - k) by lia.
    - intros [] m' H. by replace (zlen l - (0 + Z.of_nat (Z.to_nat (zlen l)))) with 0 in H by lia. }
  apply wp_bind. eapply (wp_mono _ (fun _ => lshifted 0) _ (fun _ => False)); [| |done].
  { destruct (Z.eqb_spec lb 0) as [E|E]; apply Hdown; intros; [by apply lshift_copy_step|apply lshift_word_step; [lia|done|done]]. }
  intros [] m2 (ws & -> & Hzw & Hdw & Hv & _). rewrite Z.add_0_r. rewrite zdrop_0 in Hv.
  wp_call wzero_spec; [done|apply wput_writable; [rewrite <- (Z.add_0_r nw), Hzw; apply lshift_fits; lia|apply lshift_room; lia]| |done]. intros [] m3 ->.
  exists (zrep nw 0 ++ ws). assert (Hzr : zlen (zrep nw 0) = nw) by (by apply zlen_zrep). rewrite zlen_app, val_app, val_zrep, Hzr.
  split_and!; [rewrite <- Hzr at 1; apply wput_front; rewrite Hzr; apply lshift_room; lia|lia|apply digits_app; split; [apply digits_zrep|done]|].
  rewrite Hv, Z.pow_add_r, Z.pow_mul_r by lia. lia.
Qed.
End LeftShift.

(** * On numbers *)

Section Numbers.
Context `{alloc : Allocator}.

Lemma roomy_inv s r : roomy s r 0 -> exists ng l, shows s r ng l.
Proof.
  intros (n & d & Hbn & _). pose proof Hbn as (_ & _ & (H1 & H2 & _)). exists (neg n), (ztake (width n) d), n, d.
  rewrite zlen_ztake by lia. by split_and!.
Qed.
(** Setting the sign of a number with room: every number keeps its words. *)
Lemma bn_set_neg_all r b s :
  roomy s r 0 ->
  wp (bn_set_neg r b)
    (fun _ s' => others r s s' /\ roomy s' r 0 /\ fmap unsigned (nums s' !! r) = fmap unsigned (nums s !! r) /\
       (exists l, shows s' r b l) /\ forall y ng l, shows s y ng l -> shows s' y (if decide (y = r) then b else ng) l) (fun _ => False) s.
Proof.
  intros Hr. destruct (roomy_inv _ _ Hr) as (ng & l & Hs). wp_call bn_set_neg_unsigned; [exact Hs| |done]. intros [] s' (Hs' & Ho & Hu).
  split_and!; [done|by eapply roomy_shows|done|by exists l|]. intros y ng' l' Hy. destruct (decide (y = r)) as [->|Hne]; [|by eapply shows_others].
  assert (l' = l) as ->; [|done]. destruct Hs as (n1 & d1 & (Hn1 & Hd1 & _) & _ & Hw1 & <-), Hy as (n2 & d2 & (Hn2 & Hd2 & _) & _ & Hw2 & <-).
  assert (n1 = n2) as -> by congruence. assert (d1 = d2) as -> by congruence. congruence.
Qed.
Lemma if_same {A} (x y : nat) (u : A) : (if decide (x = y) then u else u) = u.
Proof. by destruct (decide _). Qed.

(** Room for [k] words in [r], whose sign becomes that of [a]. *)
Lemma take_sign r a ng la k s :
  shows s a ng la -> roomy s r 0 -> 0 <= k ->
  wp (bn_set_neg r ng;; bn_wexpand r k)
    (fun _ s' => others r s s' /\ shows s' a ng la /\ roomy s' r k /\ exists l, shows s' r ng l) (stunted r k s) s.
Proof.
  intros Ha Hr Hk. apply wp_bind. wp_call bn_set_neg_all; [exact Hr| |done]. intros [] s1 (Ho1 & Hr1 & Hu & (l & Hl) & Hsh1).
  pose proof (Hsh1 _ _ _ Ha) as Ha1. rewrite if_same in Ha1. wp_call bn_wexpand_spec; [exact Hr1|done| |].
  - intros [] s2 (Ho2 & Hsh2 & Hr2). split_and!; [by eapply others_trans|by apply Hsh2|done|exists l; by apply Hsh2].
  - intros s2 (H1 & H2 & H3). apply (stunted_unsigned r _ s s1 s2); [done|done|]. by eapply stunted_same.
Qed.

(** The words [ws] stored in [r], with the width that goes with them. *)
Lemma store_words s r ng l k ws h :
  shows s r ng l -> roomy s r k -> digits ws -> zlen ws <= k ->
  wp (bn_set_width r (zlen ws)) (fun _ s' => others r s s' /\ shows s' r ng ws) (fun _ => False) (mkStore (nums s) (wput (arrays s) (bn_d r) ws) h).
Proof.
  intros Hs (n & d & Hbn & Hk) Hd Hz. pose proof Hbn as (Hn & _). destruct (shows_get _ _ _ _ Hs) as (n' & Hn' & Hng & _). rewrite Hn in Hn'. injection Hn' as <-.
  eapply wp_set_width; [exact Hn|]. cbn [nums arrays bn_heap].
  destruct (written s r n d ws (mkBN (zlen ws) (dmax n) (neg n) (flags n)) h) as (H1 & H2 & _); [done|done|lia|done|done|].
  split; [done|]. cbn [neg] in H1. by rewrite <- Hng.
Qed.

Lemma minimal_sized r ng ws s :
  shows s r ng ws -> wp (bn_set_minimal_width r) (fun _ s' => sets r (signed ng (val ws)) s s' /\ words_of s' r <= zlen ws) (fun _ => False) s.
Proof.
  intros Hs. wp_call bn_set_minimal_width_spec; [exact Hs| |done]. intros [] s' [Hs' Ho]. split; [|rewrite (shows_words _ _ _ _ Hs'); apply zlen_shrink]. split; [done|].
  destruct (shrink_spec ws) as (_ & Hv & _). pose proof (val_range ws ltac:(by eapply shows_digits)). exists (ng && negb (val ws =? 0)), (shrink ws). unfold canonical. rewrite Hv.
  split_and!; [done| |]; destruct ng; cbn; try done; destruct (Z.eqb_spec (val ws) 0); cbn; done || lia.
Qed.

Lemma minimal_holds r ng ws s :
  shows s r ng ws -> wp (bn_set_minimal_width r) (fun _ => sets r (signed ng (val ws)) s) (fun _ => False) s.
Proof. intros Hs. wp_call minimal_sized; [exact Hs| |done]. by intros [] s' [? _]. Qed.

Lemma BN_lshift_spec r a u n s :
  holds s a u -> roomy s r 0 -> 0 <= n -> wp (BN_lshift r a n) (fun _ => sets r (u * 2 ^ n) s) (stunted r (words_of s a + n / 64 + 1) s) s.
Proof.
  intros (ng & l & Hs & Hc & ->) Hr Hn. rewrite (shows_words _ _ _ _ Hs). unfold BN_lshift. rewrite (proj2 (Z.ltb_ge _ _)) by lia.
  destruct (shows_get _ _ _ _ Hs) as (x & Hx & Hng & Hw). apply wp_bind. eapply wp_bn_get; [exact Hx|]. rewrite Hng, Hw.
  pose proof (zlen_nonneg l). assert (Hnw : 0 <= n / BN_BITS2) by (apply Z.div_pos; unfold BN_BITS2; lia).
  assert (Hlb : 0 <= n mod BN_BITS2 < 64) by (apply Z.mod_pos_bound; done).
  apply (wp_assoc (bn_set_neg r ng) (fun _ => bn_wexpand r (zlen l + n / BN_BITS2 + 1))), wp_bind.
  wp_call take_sign; [exact Hs|exact Hr|lia| |done]. intros [] s1 (Ho1 & Hs1 & Hr1 & lr & Hlr).
  apply wp_bind, wp_on_words. wp_call lshift_words_spec; [by eapply shows_at|by eapply shows_digits|by apply roomy_writable; [|lia]|done|done| |done].
  intros [] m' (ws & -> & Hz & Hdw & Hv). rewrite <- Hz. apply wp_bind. wp_call store_words; [exact Hlr|exact Hr1|done|lia| |done].
  intros [] s2 [Ho2 Hs2]. wp_call minimal_holds; [exact Hs2| |done]. intros [] s3 H3.
  eapply sets_after; [exact Ho1|]. eapply sets_after; [exact Ho2|]. replace (signed ng (val l) * 2 ^ n) with (signed ng (val ws)); [done|].
  rewrite Hv. replace (64 * (n / BN_BITS2) + n mod BN_BITS2) with n by (unfold BN_BITS2; pose proof (Z.div_mod n 64); lia). destruct ng; cbn; lia.
Qed.

(** ** One bit *)

Lemma shl1_word t c : word t -> bit c ->
  word (Z.lor (u64 (Z.shiftl t 1)) c) /\ Z.lor (u64 (Z.shiftl t 1)) c + BASE * Z.shiftr t 63 = 2 * t + c /\ bit (Z.shiftr t 63).
Proof.
  intros Ht Hc. destruct (shl_parts t 1 Ht) as (Hp & Hm & Hr); [lia|]. change (64 - 1) with 63 in *. unfold bit in *.
  assert (Hl : Z.lor (u64 (Z.shiftl t 1)) c = u64 (Z.shiftl t 1) + c) by (apply (lor_low _ _ 1); [lia|done|lia]).
  split_and!; try lia. apply lor_word; [apply u64_word|unfold word; lia].
Qed.

(** The loop of [BN_lshift1]. *)
Lemma lshift1_loop r a l m k h (hd : list BIGNUM) :
  at_ m (bn_d a) l -> digits l -> writable m (bn_d r) k -> zlen l <= k ->
  wp (on_words (for_ 0 (Z.to_nat (zlen l)) (fun i c =>
        t ← rd (bn_d a) i; wr (bn_d r) i (Z.lor (u64 (Z.shiftl t 1)) c);; mret (Z.shiftr t (BN_BITS2 - 1))) 0))
    (fun c s' => exists ws, s' = mkStore hd (wput m (bn_d r) ws) h /\ zlen ws = zlen l /\ digits ws /\ bit c /\ val ws + BASE ^ zlen l * c = 2 * val l)
    (fun _ => False) (mkStore hd m h).
Proof.
  intros Ha Hd Hr Hk. pose proof (zlen_nonneg l). assert (Hfit : forall j, 0 <= j <= k -> writable m (bn_d r) j) by (intros; rewrite <- (wadd_0 (bn_d r)); apply (writable_sub _ _ k); [done|lia..]).
  apply wp_on_words. cbn [arrays nums bn_heap].
  apply (wp_for (fun i c m' => exists ws, m' = wput m (bn_d r) ws /\ zlen ws = i /\ digits ws /\ bit c /\ val ws + BASE ^ i * c = 2 * val (ztake i l))).
  - exists []. rewrite wput_nil by (apply Hfit; lia). rewrite ztake_0. split_and!; [done|done|constructor|unfold bit; lia|change (val []) with 0; lia].
  - intros i c m' Hi (ws & -> & Hz & Hdw & Hc & Hv). destruct (zget_lt l i) as [t Ht]; [lia|]. pose proof (digits_zget _ _ _ Hd Ht) as Hwt.
    apply wp_bind. wp_call read_behind; [exact Ha|apply Hfit; lia|lia|exact Ht| |done]. intros ? ? [-> ->].
    apply wp_bind. rewrite <- Hz at 1. wp_call write_next; [exact Hr|lia| |done]. intros [] m' ->. apply wp_ret.
    destruct (shl1_word t c Hwt Hc) as (Hw1 & Hv1 & Hb1). eexists. split; [done|]. change (BN_BITS2 - 1) with 63.
    split_and!; [by rewrite zlen_snoc, Hz|by apply digits_snoc|done|].
    rewrite val_snoc, Hz, (ztake_next _ _ _ Ht), val_snoc, zlen_ztake, B_pow by lia. nia.
  - intros c m' (ws & -> & Hz & Hdw & Hc & Hv). replace (0 + Z.of_nat (Z.to_nat (zlen l))) with (zlen l) in * by lia. rewrite ztake_all in Hv. by exists ws.
Qed.

(** A number that has the width of [l] already, its words being replaced. *)
Lemma same_width s r n ws h k :
  nums s !! r = Some n -> roomy s r k -> digits ws -> width n = zlen ws -> zlen ws <= k ->
  let s' := mkStore (nums s) (wput (arrays s) (bn_d r) ws) h in shows s' r (neg n) ws /\ others r s s'.
Proof.
  intros Hn (n' & d & Hbn & Hk) Hd Hw Hz. pose proof Hbn as (Hn' & _). rewrite Hn in Hn'. injection Hn' as <-.
  destruct (written s r n d ws n h) as (H1 & H2 & _); [done|done|lia|done|done|]. by rewrite list_insert_id in H1, H2.
Qed.

Lemma BN_lshift1_sized r a u s :
  holds s a u -> roomy s r 0 -> wp (BN_lshift1 r a) (fun _ => sized r (2 * u) (words_of s a + 1) s) (stunted r (words_of s a + 1) s) s.
Proof.
  intros (ng & l & Hs & Hc & ->) Hr. rewrite (shows_words _ _ _ _ Hs). unfold BN_lshift1. destruct (shows_get _ _ _ _ Hs) as (x & Hx & Hng & Hw). apply wp_bind. eapply wp_bn_get; [exact Hx|].
  rewrite Hng, Hw. pose proof (zlen_nonneg l). destruct (shows_digits _ _ _ _ Hs) as [Hd _]. apply wp_bind.
  eapply (wp_mono _ (fun _ s1 => others r s s1 /\ shows s1 a ng l /\ roomy s1 r (zlen l + 1) /\ exists n, nums s1 !! r = Some n /\ neg n = ng /\ width n = zlen l) _ (stunted r (zlen l + 1) s)); [| |done].
  { destruct (Nat.eqb_spec r a) as [->|Hne]; cbn [negb].
    - wp_call bn_wexpand_spec; [exact Hr|lia| |].
      + intros [] s1 (Ho1 & Hsh1 & Hr1). pose proof (Hsh1 _ _ _ Hs) as Hs1. split_and!; [done|done|done|by eapply shows_get].
      + intros s1 (H1 & H2 & H3). by eapply stunted_same.
    - apply (wp_assoc (bn_set_neg r ng) (fun _ => bn_wexpand r (zlen l + 1))), wp_bind.
      wp_call take_sign; [exact Hs|exact Hr|lia| |done]. intros [] s1 (Ho1 & Hs1 & (n & d & Hbn & Hroom) & lr & Hlr). pose proof Hbn as (Hn & Hdr & (H1 & H2 & H3 & H4)).
      destruct (shows_get _ _ _ _ Hlr) as (n' & Hn' & Hngr & _). rewrite Hn in Hn'. injection Hn' as <-. destruct (bn_is_lt _ _ _ _ Hbn) as [Hlt _].
      eapply wp_set_width; [exact Hn|]. set (s2 := mkStore _ _ _). assert (Ho2 : others r s1 s2).
      { unfold others, s2. cbn. rewrite length_insert. split_and!; [done|done|]. intros y Hy. by rewrite list_lookup_insert_ne. }
      split_and!; [by eapply others_trans|eapply shows_others; [exact Ho2|congruence|done]| |].
      + eexists _, d. split; [split_and!; [by apply list_lookup_insert_eq|exact Hdr|]|done]. unfold well_formed. cbn. split_and!; done || lia.
      + eexists. split; [by apply list_lookup_insert_eq|done]. }
  intros [] s1 (Ho1 & Hs1 & Hr1 & n & Hn & Hngn & Hwn). apply wp_bind. rewrite <- (eta_store s1).
  wp_call lshift1_loop; [by eapply shows_at|done|by apply roomy_writable; [exact Hr1|lia]|lia| |done]. intros c s2 (ws & -> & Hz & Hdw & Hcb & Hv).
  unfold bit in Hcb. destruct (Z.eqb_spec c 0) as [->|Hc0]; cbn [negb].
  - apply wp_ret. destruct (same_width s1 r n ws (bn_heap s1) (zlen l + 1)) as [Hs2 Ho2]; [done|done|done|congruence|lia|].
    split; [|rewrite (shows_words _ _ _ _ Hs2); lia]. split; [by eapply others_trans|]. exists ng, ws. rewrite Hngn in Hs2. split_and!; [done| |].
    + intros E. specialize (Hc E). lia.
    + replace (val ws) with (2 * val l) by lia. destruct ng; cbn; lia.
  - assert (c = 1) as -> by lia. apply wp_bind, wp_on_words. cbn [arrays nums bn_heap]. rewrite <- Hz. wp_call write_next; [by apply roomy_writable; [exact Hr1|lia]|lia| |done].
    intros [] m' ->. apply wp_bind. eapply wp_bn_get; [exact Hn|]. rewrite Hwn, <- Hz, <- (zlen_snoc ws 1).
    destruct (roomy_inv s1 r) as (ngr & lr & Hlr). { destruct Hr1 as (n1 & d1 & H1 & H2). exists n1, d1. split; [done|]. destruct H1 as (_ & _ & (_ & ? & _)). lia. }
    destruct (shows_get _ _ _ _ Hlr) as (n' & Hn' & Hngr & _). rewrite Hn in Hn'. injection Hn' as <-.
    wp_call store_words; [exact Hlr|exact Hr1|apply digits_snoc; [done|unfold word; lia]|rewrite zlen_snoc; lia| |done].
    intros [] s3 [Ho3 Hs3]. split; [|rewrite (shows_words _ _ _ _ Hs3), zlen_snoc; lia]. split; [by eapply others_trans|]. exists ng, (ws ++ [1]). rewrite <- Hngr, Hngn in Hs3. unfold canonical. rewrite val_snoc, Hz.
    replace (val ws + BASE ^ zlen l * 1) with (2 * val l) by lia. split_and!; [done| |destruct ng; cbn; lia]. intros E. specialize (Hc E). lia.
Qed.
Lemma BN_lshift1_spec r a u s :
  holds s a u -> roomy s r 0 -> wp (BN_lshift1 r a) (fun _ => sets r (2 * u) s) (stunted r (words_of s a + 1) s) s.
Proof. intros Ha Hr. wp_call BN_lshift1_sized; [exact Ha|exact Hr| |done]. by intros [] s' [? _]. Qed.
End Numbers.
