(* ===== verification/BnRshiftFacts.v ===== *)
(** Facts about the right shifts of [BnShift]. *)
From S2P Require Import Prelude Mem Ct BnWords BnWordsFacts BnMulFacts CtFacts Bn BnShift BnFacts BnCmp BnAddFacts BnArith BnOneWord BnTests BnShiftFacts.

(** A word of the result: what stays of [x], and what comes down from [y] above it. *)
Lemma shr_word x y rb : word x -> word y -> 0 < rb < 64 ->
  let t := Z.lor (Z.shiftr x rb) (u64 (Z.shiftl y (64 - rb))) in
  word t /\ t + BASE * Z.shiftr y rb = Z.shiftr x rb + 2 ^ (64 - rb) * y.
Proof.
  intros Hx Hy Hrb t. destruct (shl_parts y (64 - rb) Hy) as (Hp & Hm & _); [lia|]. replace (64 - (64 - rb)) with rb in Hp by lia.
  assert (Hsx : 0 <= Z.shiftr x rb < 2 ^ (64 - rb)).
  { unfold word in Hx. rewrite Z.shiftr_div_pow2 by lia. split; [apply Z.div_pos; [lia|apply Z.pow_pos_nonneg; lia]|].
    apply Z.div_lt_upper_bound; [apply Z.pow_pos_nonneg; lia|]. rewrite <- Z.pow_add_r by lia. replace (rb + (64 - rb)) with 64 by lia. lia. }
  assert (Ht : t = u64 (Z.shiftl y (64 - rb)) + Z.shiftr x rb) by (unfold t; rewrite Z.lor_comm; apply (lor_low _ _ (64 - rb)); [lia|done|done]).
  split; [|lia]. apply lor_word; [|apply u64_word]. assert (2 ^ (64 - rb) <= 2 ^ 64) by (apply Z.pow_le_mono_r; lia). unfold word. lia.
Qed.

Section RightShift.
Variables (m : words) (r a : bn) (l : list Z) (nw rb k : Z).
Hypothesis Ha : at_ m (bn_d a) l.
Hypothesis Hd : digits l.
Hypothesis Hnw : 0 <= nw < zlen l.
Hypothesis Hrb : 0 <= rb < 64.
Local Abbreviation j := (zlen l - nw) (only parsing).
Local Abbreviation f := (zdrop nw l) (only parsing).
Hypothesis Hr : writable m (bn_d r) k.
Hypothesis Hk : j - 1 <= k.

Lemma rshift_fits i : 0 <= i <= k -> writable m (bn_d r) i.
Proof. intros. rewrite <- (wadd_0 (bn_d r)). apply (writable_sub _ _ k); [done|lia..]. Qed.
Lemma f_get i : 0 <= i < j -> exists w, zget f i = Some w /\ zget l (nw + i) = Some w /\ word w.
Proof.
  intros Hi. destruct (zget_lt l (nw + i)) as [w Hw]; [lia|]. exists w. split_and!; [|done|by eapply digits_zget].
  rewrite <- (ztake_zdrop nw l), zget_app_r in Hw by (rewrite zlen_ztake; lia). rewrite zlen_ztake in Hw by lia. by replace (nw + i - nw) with i in Hw by lia.
Qed.
Lemma f_read i w ws :
  0 <= i < j -> zget f i = Some w -> zlen ws <= i -> zlen ws <= k ->
  wp (rd (wadd (bn_d a) nw) i) (fun x m' => x = w /\ m' = wput m (bn_d r) ws) (fun _ => False) (wput m (bn_d r) ws).
Proof.
  intros Hi Hw Hz Hzk. rewrite rd_wadd. destruct (f_get i Hi) as (w' & Hw1 & Hw2 & _). rewrite Hw in Hw1. injection Hw1 as <-.
  wp_call read_behind; [exact Ha|apply rshift_fits; pose proof (zlen_nonneg ws); lia|lia|exact Hw2|done|done].
Qed.
Lemma zlen_f : zlen f = j.
Proof. rewrite zlen_zdrop; lia. Qed.

(** Whole words. *)
Lemma rshift_copy : rb = 0 -> j <= k ->
  wp (rshift_words (bn_d r) (wadd (bn_d a) nw) j rb) (fun _ m' => m' = wput m (bn_d r) f) (fun _ => False) m.
Proof.
  intros -> Hjk. unfold rshift_words. cbn [Z.eqb]. apply (wp_for (fun i _ m' => m' = wput m (bn_d r) (ztake i f))).
  - rewrite ztake_0, wput_nil; [done|apply rshift_fits; lia].
  - intros i [] m' Hi ->. destruct (f_get i) as (w & Hw & _); [lia|]. assert (Hz : zlen (ztake i f) = i) by (apply zlen_ztake; rewrite zlen_f; lia).
    apply wp_bind. wp_call f_read; [lia|exact Hw|lia|lia| |done]. intros ? ? [-> ->].
    rewrite <- Hz at 1. wp_call write_next; [exact Hr|lia| |done]. intros [] m' ->. by rewrite <- (ztake_next _ _ _ Hw).
  - intros [] m' ->. rewrite Z.add_0_l, Z2Nat.id by lia. by rewrite <- zlen_f, ztake_all.
Qed.

(** Words in two parts: the last is stored when something is left of it. *)
Lemma rshift_bits top : 0 < rb -> zget f (j - 1) = Some top -> (Z.shiftr top rb <> 0 -> j <= k) ->
  wp (rshift_words (bn_d r) (wadd (bn_d a) nw) j rb)
    (fun _ m' => exists ws, m' = wput m (bn_d r) ws /\ zlen ws = (if Z.shiftr top rb =? 0 then j - 1 else j) /\ digits ws /\ val ws = val f / 2 ^ rb)
    (fun _ => False) m.
Proof.
  intros Hpos Htop Hkt. unfold rshift_words. rewrite (proj2 (Z.eqb_neq _ _)) by lia. assert (Hm : wput m (bn_d r) [] = m) by (apply wput_nil, rshift_fits; lia).
  destruct (f_get 0) as (w0 & Hw0 & _ & Hww0); [lia|]. pose proof (f_read 0 w0 [] ltac:(lia) Hw0 ltac:(done) ltac:(change (zlen (@nil Z)) with 0; lia)) as Hread. rewrite Hm in Hread.
  apply wp_bind. wp_call Hread. 2: done. intros ? ? [-> ->]. apply wp_bind.
  apply (wp_for (fun i w m' => zget f i = Some w /\ word w /\ exists ws, m' = wput m (bn_d r) ws /\ zlen ws = i /\ digits ws /\
    val ws + BASE ^ i * Z.shiftr w rb = val (ztake (i + 1) f) / 2 ^ rb)).
  - split_and!; [done|done|]. exists []. split_and!; [by rewrite Hm|done|constructor|]. rewrite (ztake_next _ _ _ Hw0), ztake_0. cbn [app val]. rewrite Z.shiftr_div_pow2 by lia.
    change (BASE ^ 0) with 1. f_equal. rewrite Z.mul_0_r, Z.add_0_r. lia.
  - intros i w m' Hi (Hw & Hww & ws & -> & Hz & Hdw & Hv). destruct (f_get (i + 1)) as (y & Hy & _ & Hwy); [lia|].
    apply wp_bind. wp_call f_read; [lia|exact Hy|lia|lia| |done]. intros ? ? [-> ->].
    apply wp_bind. rewrite <- Hz at 1. wp_call write_next; [exact Hr|lia| |done]. intros [] m' ->. apply wp_ret.
    destruct (shr_word w y rb Hww Hwy) as [Hwt Hvt]; [lia|]. split_and!; [done|done|]. eexists. split; [done|]. change BN_BITS2 with 64.
    split_and!; [by rewrite zlen_snoc, Hz|by apply digits_snoc|].
    rewrite (ztake_next _ _ _ Hy), !val_snoc, Hz, zlen_ztake by (rewrite zlen_f; lia).
    assert (Hb : BASE ^ (i + 1) * y = BASE ^ i * 2 ^ (64 - rb) * y * 2 ^ rb).
    { rewrite B_pow by lia. assert (BASE = 2 ^ (64 - rb) * 2 ^ rb) as -> by (rewrite <- Z.pow_add_r by lia; f_equal; lia). lia. }
    rewrite Hb, Z.div_add, <- Hv, B_pow by (try apply Z.pow_nonzero; lia). nia.
  - intros w m' (Hw & Hww & ws & -> & Hz & Hdw & Hv). replace (0 + Z.of_nat (Z.to_nat (j - 1))) with (j - 1) in * by lia.
    rewrite Htop in Hw. injection Hw as <-. replace (j - 1 + 1) with (zlen f) in Hv by (rewrite zlen_f; lia). rewrite ztake_all in Hv.
    destruct (Z.eqb_spec (Z.shiftr top rb) 0) as [E|E]; cbn [negb].
    + apply wp_ret. exists ws. rewrite E, Z.mul_0_r, Z.add_0_r in Hv. by split_and!.
    + specialize (Hkt E). rewrite <- Hz at 1. wp_call write_next; [exact Hr|lia| |done]. intros [] m' ->. exists (ws ++ [Z.shiftr top rb]).
      rewrite zlen_snoc, val_snoc, Hz. split_and!; [done|lia| |done]. apply digits_snoc; [done|]. unfold word in *. rewrite Z.shiftr_div_pow2 by lia.
      assert (0 < 2 ^ rb) by (apply Z.pow_pos_nonneg; lia). split; [apply Z.div_pos; lia|]. apply Z.div_lt_upper_bound; [lia|]. nia.
Qed.
End RightShift.

(** * On numbers *)

Section Numbers.
Context `{alloc : Allocator}.

(** How many words are left, as the code computes it. *)
Lemma rshift_width nw rb j w :
  0 <= nw -> 0 <= rb < 64 -> 1 <= j -> nw + j <= max_words -> word w -> 0 < w ->
  u32 (u32 (64 * (nw + j - 1) + bit_length w - (64 * nw + rb)) + 63) / 64 = if Z.shiftr w rb =? 0 then j - 1 else j.
Proof.
  intros Hnw Hrb Hj Hmax Hw Hpos. unfold max_words in Hmax.
  assert (Hb : bit_length w = Z.log2 w + 1) by (unfold bit_length; by rewrite (proj2 (Z.eqb_neq _ _)) by lia). rewrite Hb.
  assert (0 <= Z.log2 w < 64) by (split; [apply Z.log2_nonneg|apply Z.log2_lt_pow2; [lia|unfold word in Hw; lia]]).
  assert (Hs : Z.shiftr w rb = 0 <-> Z.log2 w < rb) by (rewrite Z.shiftr_eq_0_iff; lia).
  unfold u32. rewrite Z.add_mod_idemp_l by done. rewrite Z.mod_small by lia.
  destruct (Z.eqb_spec (Z.shiftr w rb) 0) as [E|E].
  - symmetry. apply (Z.div_unique _ _ _ (Z.log2 w + 1 - rb + 63)); lia.
  - symmetry. apply (Z.div_unique _ _ _ (Z.log2 w - rb)); lia.
Qed.

Lemma signed_quot ng v p : 0 <= v -> 0 < p -> Z.quot (signed ng v) p = signed ng (v / p).
Proof. intros. destruct ng; cbn [signed]; [rewrite Z.quot_opp_l by lia|]; by rewrite Z.quot_div_nonneg by lia. Qed.

(** The end of the shifts: a width of zero takes the sign away. *)
Lemma clear_sign r ng ws v s :
  shows s r ng ws -> val ws = v -> (zlen ws = 0 <-> v = 0) ->
  wp (if zlen ws =? 0 then bn_set_neg r false else mret tt) (fun _ s' => sets r (signed ng v) s s' /\ words_of s' r = zlen ws) (fun _ => False) s.
Proof.
  intros Hs Hv Hz. pose proof (val_range ws ltac:(by eapply shows_digits)). destruct (Z.eqb_spec (zlen ws) 0) as [E|E].
  - wp_call bn_set_neg_spec; [exact Hs| |done]. intros [] s' [Hs' Ho]. split; [|by eapply shows_words]. split; [done|]. exists false, ws. split_and!; [done|done|]. cbn [signed].
    apply Hz in E. rewrite Hv, E. by destruct ng.
  - apply wp_ret. split; [|by eapply shows_words]. split; [done|]. exists ng, ws. split_and!; [done|intros _; lia|by rewrite Hv].
Qed.

(** The numbers of a right shift of the words [l'] and [w], the highest. *)
Section RshiftNumbers.
Variables (l' : list Z) (w nw rb : Z).
Local Abbreviation L := (l' ++ [w]) (only parsing).
Local Abbreviation j := (zlen l' + 1 - nw) (only parsing).
Hypothesis Hd : digits l'.
Hypothesis Hw : word w.
Hypothesis Hpos : 0 < w.
Hypothesis Hnw : 0 <= nw <= zlen l'.
Hypothesis Hrb : 0 <= rb < 64.

Lemma rshift_digits : digits L.
Proof. by apply digits_snoc. Qed.
Lemma rshift_top : zget (zdrop nw L) (j - 1) = Some w.
Proof. rewrite zdrop_app_le by lia. apply zget_middle. rewrite zlen_zdrop; lia. Qed.
Lemma rshift_value : val (zdrop nw L) / 2 ^ rb = val L / 2 ^ (64 * nw + rb).
Proof.
  pose proof rshift_digits as HdL. assert (HzL : zlen L = zlen l' + 1) by apply zlen_snoc.
  rewrite (val_split nw L) by lia. pose proof (val_range (ztake nw L) ltac:(by apply digits_ztake)) as Hrt. rewrite zlen_ztake in Hrt by lia.
  assert (Hp : BASE ^ nw = 2 ^ (64 * nw)) by (by rewrite <- Z.pow_mul_r by lia). rewrite Hp in *.
  assert (0 < 2 ^ (64 * nw)) by (apply Z.pow_pos_nonneg; lia). assert (0 < 2 ^ rb) by (apply Z.pow_pos_nonneg; lia).
  rewrite Z.pow_add_r, <- Z.div_div by lia. f_equal. rewrite Z.mul_comm, Z.div_add, Z.div_small by lia. lia.
Qed.
Lemma rshift_empty : (if Z.shiftr w rb =? 0 then j - 1 else j) = 0 <-> val (zdrop nw L) / 2 ^ rb = 0.
Proof.
  pose proof (zlen_nonneg l'). assert (Hrbp : 0 < 2 ^ rb) by (apply Z.pow_pos_nonneg; lia).
  destruct (val_range (zdrop nw L) ltac:(apply digits_zdrop, rshift_digits)) as [Hf0 _]. rewrite Z.div_small_iff by lia.
  assert (Hw0 : Z.shiftr w rb = 0 <-> w < 2 ^ rb). { rewrite Z.shiftr_div_pow2, Z.div_small_iff by lia. unfold word in Hw. lia. }
  assert (Hsplit : val (zdrop nw L) = val (zdrop nw l') + BASE ^ (j - 1) * w).
  { rewrite zdrop_app_le by lia. rewrite val_snoc, zlen_zdrop by lia. do 3 f_equal. lia. }
  pose proof (val_range (zdrop nw l') ltac:(by apply digits_zdrop)) as Hlow. rewrite zlen_zdrop in Hlow by lia. replace (zlen l' - nw) with (j - 1) in Hlow by lia.
  assert (Hp1 : 1 <= BASE ^ (j - 1)) by (apply (Z.pow_le_mono_r BASE 0); lia). rewrite Hsplit in *. split.
  - intros E. destruct (Z.eqb_spec (Z.shiftr w rb) 0) as [E0|E0]; [|lia]. left. replace (j - 1) with 0 in * by lia. change (BASE ^ 0) with 1 in *. apply Hw0 in E0. lia.
  - intros [[_ Hlt]|]; [|lia]. destruct (Z.eqb_spec (Z.shiftr w rb) 0) as [E0|E0]; [|nia].
    destruct (Z.eq_dec (j - 1) 0) as [->|Hj]; [done|]. assert (BASE ^ 1 <= BASE ^ (j - 1)) by (apply Z.pow_le_mono_r; lia). change (BASE ^ 1) with BASE in *.
    assert (2 ^ rb < BASE) by (apply Z.pow_lt_mono_r; lia). nia.
Qed.
End RshiftNumbers.

(** The words of a right shift, from a number with the highest word [w] to one with room. *)
Lemma rshift_words_spec m r a l' w nw rb k :
  at_ m (bn_d a) (l' ++ [w]) -> digits l' -> word w -> 0 <= nw <= zlen l' -> 0 <= rb < 64 ->
  k = (if Z.shiftr w rb =? 0 then zlen l' + 1 - nw - 1 else zlen l' + 1 - nw) -> 0 < w -> writable m (bn_d r) k ->
  wp (rshift_words (bn_d r) (wadd (bn_d a) nw) (zlen l' + 1 - nw) rb)
    (fun _ m' => exists ws, m' = wput m (bn_d r) ws /\ zlen ws = k /\ digits ws /\ val ws = val (l' ++ [w]) / 2 ^ (64 * nw + rb)) (fun _ => False) m.
Proof.
  intros Ha Hd Hw Hnw Hrb Hk Hpos Hr. pose proof (rshift_digits l' w Hd Hw) as HdL. assert (HzL : zlen (l' ++ [w]) = zlen l' + 1) by apply zlen_snoc.
  assert (Hk1 : zlen l' + 1 - nw - 1 <= k /\ (Z.shiftr w rb <> 0 -> zlen l' + 1 - nw <= k)) by (destruct (Z.eqb_spec (Z.shiftr w rb) 0); lia).
  pose proof (rshift_value l' w nw rb Hd Hw ltac:(lia) ltac:(lia)) as Hval. destruct (Z.eq_dec rb 0) as [E|E].
  - assert (Z.shiftr w rb = w) as Esh by (rewrite E; apply Z.shiftr_0_r). rewrite Esh in *. rewrite (proj2 (Z.eqb_neq w 0)) in Hk by lia.
    pose proof (rshift_copy m r a (l' ++ [w]) nw rb k) as Hc. rewrite HzL in Hc. wp_call Hc; try done; try lia.
    intros [] m' ->. exists (zdrop nw (l' ++ [w])). rewrite zlen_zdrop by lia. split_and!; [done|lia|by apply digits_zdrop|]. rewrite <- Hval, E. by rewrite Z.div_1_r.
  - pose proof (rshift_bits m r a (l' ++ [w]) nw rb k) as Hc. rewrite HzL in Hc. wp_call Hc; try done; try lia; [by apply rshift_top; lia|lia|].
    intros [] m' (ws & -> & Hz & Hdw & Hv). exists ws. split_and!; [done|by rewrite Hz, Hk|done|by rewrite Hv].
Qed.

(** A right shift needs no more words than there were. *)
Lemma BN_rshift_sized r a u n s :
  holds s a u -> roomy s r 0 -> 0 <= n -> wp (BN_rshift r a n) (fun _ s' => sets r (Z.quot u (2 ^ n)) s s' /\ words_of s' r <= words_of s a) (stunted r (words_of s a) s) s.
Proof.
  intros (ng & l & Hs & Hc & ->) Hr Hn. rewrite (shows_words _ _ _ _ Hs). unfold BN_rshift. rewrite (proj2 (Z.ltb_ge _ _)) by lia. assert (0 < 2 ^ n) by (apply Z.pow_pos_nonneg; lia).
  destruct (shows_digits _ _ _ _ Hs) as [Hd Hmax]. pose proof (val_range l Hd). rewrite signed_quot by lia.
  set (nw := n / BN_BITS2). set (rb := n mod BN_BITS2). assert (Hnr : n = 64 * nw + rb) by (apply Z.div_mod; done).
  assert (Hnw : 0 <= nw) by (apply Z.div_pos; unfold BN_BITS2; lia). assert (Hrb : 0 <= rb < 64) by (apply Z.mod_pos_bound; done).
  apply wp_bind. wp_call bn_minimal_width_spec; [exact Hs| |done]. intros aw s' [-> ->].
  assert (Hzero : val l < 2 ^ n -> wp (BN_zero r) (fun _ s' => sets r (signed ng (val l / 2 ^ n)) s s' /\ words_of s' r <= zlen l) (stunted r (zlen l) s) s).
  { intros Hlt. destruct (roomy_inv _ _ Hr) as (ngr & lr & Hlr). wp_call BN_zero_shows; [exact Hlr| |done]. intros [] s' [Ho H'].
    rewrite Z.div_small by lia. rewrite (shows_words _ _ _ _ H'). split; [split; [done|]; exists false, []; split_and!; [done|done|by destruct ng]|apply zlen_nonneg]. }
  destruct (shows_shrink _ _ _ _ Hs) as [Hat _].
  destruct (shrink_cases l Hd) as [[-> Hv0]|(l' & w & El & Hd' & Hw & Hpos & Hv & _ & _ & Hlen)]; [rewrite orb_true_r; apply Hzero; lia|].
  rewrite El in *. rewrite zlen_snoc. pose proof (zlen_nonneg l').
  destruct (Z.leb_spec (zlen l' + 1) nw) as [Hbig|Hsmall]; cbn [orb].
  { apply Hzero. pose proof (val_range (l' ++ [w]) ltac:(by apply digits_snoc)) as Hrl. rewrite zlen_snoc in Hrl. rewrite Hv.
    apply Z.lt_le_trans with (BASE ^ (zlen l' + 1)); [apply Hrl|]. rewrite <- Z.pow_mul_r by lia. apply Z.pow_le_mono_r; lia. }
  rewrite (proj2 (Z.eqb_neq (zlen l' + 1) 0)) by lia. apply wp_bind. wp_call BN_num_bits_spec; [exact Hs| |done]. intros bits s' [-> ->].
  rewrite Hv, bit_length_top by done. change (BN_BITS2 - 1) with 63. change BN_BITS2 with 64.
  replace (64 * zlen l' + bit_length w - n) with (64 * (nw + (zlen l' + 1 - nw) - 1) + bit_length w - (64 * nw + rb)) by lia.
  rewrite rshift_width by (done || lia). set (i := if Z.shiftr w rb =? 0 then _ else _).
  assert (Hi : 0 <= i) by (unfold i; destruct (Z.eqb_spec (Z.shiftr w rb) 0); lia).
  pose proof (rshift_empty l' w nw rb Hd' Hw Hpos ltac:(lia) Hrb) as Hempty. fold i in Hempty. rewrite (rshift_value l' w nw rb), <- Hnr in Hempty by (done || lia).
  (* the sign and the room *)
  apply wp_bind. eapply (wp_mono _ (fun (done : bool) s1 => if done then n = 0 /\ a = r /\ s1 = s else
    others r s s1 /\ at_ (arrays s1) (bn_d a) (l' ++ [w]) /\ roomy s1 r i /\ exists lr, shows s1 r ng lr) _ (stunted r (zlen l) s)); [| |done].
  { destruct (shows_get _ _ _ _ Hs) as (x & Hx & Hng & _). destruct (Nat.eqb_spec r a) as [->|Hne]; cbn [negb].
    - apply wp_ret. destruct (Z.eqb_spec n 0) as [E0|E0]; [done|]. split_and!; [done|done| |by exists l]. destruct Hs as (n0 & d & Hbn & _ & Hw0 & _). exists n0, d. split; [done|].
      pose proof Hbn as (_ & _ & (_ & ? & _)). unfold i. destruct (Z.eqb_spec (Z.shiftr w rb) 0); lia.
    - apply wp_bind. eapply wp_bn_get; [exact Hx|]. rewrite Hng. apply (wp_assoc (bn_set_neg r ng) (fun _ => bn_wexpand r i)), wp_bind.
      wp_call take_sign; [exact Hs|exact Hr|lia| |intros s1 Hst; eapply stunted_le; [exact Hst|unfold i; destruct (_ =? 0); lia]]. intros [] s1 (Ho1 & Hs1 & Hr1 & Hlr). apply wp_ret. split_and!; [done| |done|done].
      destruct (shows_shrink _ _ _ _ Hs1) as [Hat1 _]. by rewrite El in Hat1. }
  intros [|] s1; [intros (-> & -> & ->); apply wp_ret; split; [|by rewrite (shows_words _ _ _ _ Hs)]; split; [done|]; exists ng, l; rewrite Hv; by rewrite Z.div_1_r|]. intros (Ho1 & Hat1 & Hr1 & lr & Hlr).
  destruct Hr1 as (n1 & d1 & Hbn1 & Hroom1). pose proof Hbn1 as (Hn1 & _). destruct (shows_get _ _ _ _ Hlr) as (n1' & Hn1' & Hng1 & _). rewrite Hn1 in Hn1'. injection Hn1' as <-.
  apply wp_bind. eapply wp_set_width; [exact Hn1|]. apply wp_bind, wp_on_words. cbn [arrays nums bn_heap].
  wp_call (rshift_words_spec (arrays s1) r a l' w nw rb i); [done|done|done|lia|done|done|done|apply roomy_writable; [by exists n1, d1|done]| |done].
  intros [] m' (ws & -> & Hz & Hdw & Hvw). rewrite <- Hnr in Hvw. rewrite <- Hz.
  destruct (written s1 r n1 d1 ws (mkBN (zlen ws) (dmax n1) (neg n1) (flags n1)) (bn_heap s1)) as (Hs2 & Ho2 & _); [done|done|lia|done|done|]. cbn [neg] in Hs2. rewrite Hng1 in *.
  wp_call clear_sign; [exact Hs2|exact Hvw|rewrite Hz; exact Hempty| |done].
  intros [] s3 [H3 Hw3]. split; [|rewrite Hw3, Hz; unfold i; destruct (Z.shiftr w rb =? 0); lia]. eapply sets_after; [exact Ho1|]. by eapply sets_after; [exact Ho2|].
Qed.
Lemma BN_rshift_spec r a u n s :
  holds s a u -> roomy s r 0 -> 0 <= n -> wp (BN_rshift r a n) (fun _ => sets r (Z.quot u (2 ^ n)) s) (stunted r (words_of s a) s) s.
Proof. intros Hx Hr Hn. wp_call BN_rshift_sized; [done|done|done| |done]. by intros [] s' [? _]. Qed.

(** ** One bit *)

Lemma shr1_word t c : word t -> bit c ->
  Z.lor (Z.shiftr t 1) (c * 2 ^ 63) = t / 2 + c * 2 ^ 63 /\ word (t / 2 + c * 2 ^ 63) /\ u64 (Z.shiftl t 63) = (t mod 2) * 2 ^ 63.
Proof.
  intros Ht Hc. unfold word, bit in *. rewrite Z.shiftr_div_pow2, Z.shiftl_mul_pow2 by lia. change (2 ^ 1) with 2.
  assert (0 <= t / 2 < 2 ^ 63) by dlia. split_and!.
  - rewrite Z.lor_comm, (lor_low _ _ 63); [lia|lia|apply Z.mod_mul; done|lia].
  - lia.
  - lia.
  - rewrite u64_mod. change (2 ^ 64) with (2 * 2 ^ 63). by rewrite Z.mul_mod_distr_r.
Qed.

Section Rshift1.
Variables (m : words) (r a : bn) (l' : list Z) (w : Z).
Local Abbreviation L := (l' ++ [w]) (only parsing).
Local Abbreviation j := (zlen l' + 1 - b2z (w =? 1)) (only parsing).
Hypothesis Ha : at_ m (bn_d a) L.
Hypothesis Hd : digits l'.
Hypothesis Hw : word w.
Hypothesis Hpos : 0 < w.
Hypothesis Hr : writable m (bn_d r) j.

(** The words from [p] on are done; [c] is the bit that goes down. *)
Definition rshifted1 (p c : Z) (m' : words) : Prop :=
  exists ws, m' = wput m (wadd (bn_d r) p) ws /\ zlen ws = j - p /\ digits ws /\ val ws = val (zdrop p L) / 2 /\ c = (val (zdrop p L) mod 2) * 2 ^ 63.

Lemma rshift1_top :
  wp (t ← rd (bn_d a) (zlen l'); if negb (Z.shiftr t 1 =? 0) then wr (bn_d r) (zlen l') (Z.shiftr t 1) else mret tt)
    (fun _ => rshifted1 (zlen l') (u64 (Z.shiftl w 63))) (fun _ => False) m.
Proof.
  pose proof (zlen_nonneg l'). apply wp_bind. wp_call rd_spec; [exact Ha|by apply zget_middle| |done]. intros ? ? [-> ->].
  destruct (shr1_word w 0 Hw ltac:(unfold bit; lia)) as (_ & _ & ->). unfold word in Hw.
  assert (Hz : zdrop (zlen l') L = [w]) by (by apply zdrop_app). unfold rshifted1. rewrite Hz. cbn [val]. rewrite Z.mul_0_r, Z.add_0_r.
  rewrite Z.shiftr_div_pow2 by lia. change (2 ^ 1) with 2. destruct (Z.eqb_spec (w / 2) 0) as [E|E]; cbn [negb].
  - assert (w = 1) as -> by dlia. apply wp_ret. exists []. cbn in Hr. rewrite wput_nil by (apply (writable_sub _ _ (zlen l' + 1 - 1)); [done|lia..]).
    split_and!; [done|change (zlen (@nil Z)) with 0; cbn; lia|constructor|done|done].
  - assert ((w =? 1) = false) as E1 by (apply Z.eqb_neq; intros ->; done). rewrite E1 in *. cbn [b2z] in *.
    wp_call wr_spec; [apply (writable_sub _ _ (zlen l' + 1 - 0)); [done|lia..]| |done]. intros [] m' ->. exists [w / 2].
    split_and!; [done|change (zlen [w / 2]) with 1; lia|constructor; [unfold word; dlia|constructor]|cbn; lia|done].
Qed.

Lemma rshift1_step p m' c :
  0 <= p < zlen l' -> rshifted1 (p + 1) c m' ->
  wp (t ← rd (bn_d a) p; wr (bn_d r) p (Z.lor (Z.shiftr t 1) c);; mret (u64 (Z.shiftl t (BN_BITS2 - 1)))) (fun c => rshifted1 p c) (fun _ => False) m'.
Proof.
  intros Hp (ws & -> & Hz & Hdw & Hv & ->). destruct (zget_lt L p) as [t Ht]; [rewrite zlen_snoc; lia|].
  assert (Hwt : word t) by (eapply digits_zget; [|exact Ht]; by apply digits_snoc).
  assert (Hjp : p + 1 <= j) by (destruct (w =? 1); cbn; lia).
  apply wp_bind. wp_call read_below; [exact Ha| |lia|lia|exact Ht| |done]. { rewrite Hz. by replace (p + 1 + (j - (p + 1))) with j by lia. }
  intros ? ? [-> ->]. set (V := val (zdrop (p + 1) L)) in *. pose proof (Z.mod_pos_bound V 2 ltac:(lia)).
  destruct (shr1_word t (V mod 2) Hwt ltac:(unfold bit; lia)) as (-> & Hww & Hu). apply wp_bind. rewrite wr_at, <- wadd_wadd.
  wp_call (wr_front m (wadd (bn_d r) p) (t / 2 + V mod 2 * 2 ^ 63) ws (j - p)); [apply (writable_sub _ _ j); [done|lia..]|lia| |done]. intros [] m' ->.
  apply wp_ret. change (BN_BITS2 - 1) with 63. rewrite Hu. exists ((t / 2 + V mod 2 * 2 ^ 63) :: ws).
  assert (HV : val (zdrop p L) = t + BASE * V) by (by rewrite (zdrop_next _ _ _ Ht)). rewrite HV. rewrite zlen_cons. split_and!; [done|lia|by constructor| |].
  - rewrite val_cons, Hv. replace (t + BASE * V) with (t + 2 ^ 63 * V * 2) by lia. rewrite Z.div_add by lia. pose proof (Z.div_mod V 2 ltac:(lia)). lia.
  - replace (t + BASE * V) with (t + 2 ^ 63 * V * 2) by lia. by rewrite Z.mod_add by lia.
Qed.

Lemma rshift1_words_spec :
  wp (t ← rd (bn_d a) (zlen l');
      (if negb (Z.shiftr t 1 =? 0) then wr (bn_d r) (zlen l') (Z.shiftr t 1) else mret tt);;
      _ ← for_ 0 (Z.to_nat (zlen l')) (fun k c =>
        let i := zlen l' - 1 - k in
        t ← rd (bn_d a) i;
        wr (bn_d r) i (Z.lor (Z.shiftr t 1) c);;
        mret (u64 (Z.shiftl t (BN_BITS2 - 1)))) (u64 (Z.shiftl t (BN_BITS2 - 1)));
      mret tt)
    (fun _ m' => exists ws, m' = wput m (bn_d r) ws /\ zlen ws = j /\ digits ws /\ val ws = val L / 2) (fun _ => False) m.
Proof.
  pose proof (zlen_nonneg l'). pose proof rshift1_top as Htop. apply wp_bind. wp_call rd_spec; [exact Ha|by apply zget_middle| |done]. intros ? ? [-> ->].
  apply wp_bind. assert (Hrd : wp (rd (bn_d a) (zlen l')) (fun y m' => y = w /\ m' = m) (fun _ => False) m) by (eapply rd_spec; [exact Ha|by apply zget_middle]).
  unfold wp in Htop, Hrd. unfold mbind, M_bind in Htop. destruct (rd (bn_d a) (zlen l') m) as [y m1|m1|]; [|done|done]. destruct Hrd as [-> ->].
  apply (wp_mono _ (fun _ => rshifted1 (zlen l') (u64 (Z.shiftl w 63))) _ (fun _ => False)); [exact Htop| |done]. intros [] m1 H1. apply wp_bind.
  apply (wp_for (fun k c m' => rshifted1 (zlen l' - k) c m')).
  - by rewrite Z.sub_0_r.
  - intros k c m' Hk H'. replace (zlen l' - (k + 1)) with (zlen l' - 1 - k) by lia. apply rshift1_step; [lia|]. by replace (zlen l' - 1 - k + 1) with (zlen l' - k) by lia.
  - intros c m' H'. replace (zlen l' - (0 + Z.of_nat (Z.to_nat (zlen l')))) with 0 in H' by lia. destruct H' as (ws & -> & Hz & Hdw & Hv & _). apply wp_ret.
    exists ws. rewrite wadd_0. rewrite zdrop_0 in Hv. split_and!; [done|lia|done|done].
Qed.
End Rshift1.

Lemma BN_rshift1_spec r a u s :
  holds s a u -> roomy s r 0 -> wp (BN_rshift1 r a) (fun _ => sets r (Z.quot u 2) s) (stunted r (words_of s a) s) s.
Proof.
  intros Hx Hr. pose proof Hx as (ng & l & Hs & Hc & Hu). rewrite (shows_words _ _ _ _ Hs). unfold BN_rshift1. destruct (shows_digits _ _ _ _ Hs) as [Hd Hmax]. pose proof (val_range l Hd).
  apply wp_bind. wp_call BN_is_zero_spec; [exact Hs| |done]. intros z ? [-> ->]. destruct (Z.eqb_spec (val l) 0) as [E0|E0].
  { destruct (roomy_inv _ _ Hr) as (ngr & lr & Hlr). wp_call BN_zero_spec; [exact Hlr| |done]. intros [] s' H'. subst u. rewrite E0. by destruct ng. }
  apply wp_bind. wp_call bn_minimal_width_spec; [exact Hs| |done]. intros i ? [-> ->]. destruct (shows_shrink _ _ _ _ Hs) as [Hat _].
  destruct (shrink_cases l Hd) as [[E Hv0]|(l' & w & El & Hd' & Hw & Hpos & Hv & _ & _ & Hlen)]; [lia|]. rewrite El in *. rewrite zlen_snoc. pose proof (zlen_nonneg l').
  replace (zlen l' + 1 - 1) with (zlen l') by lia. replace (zlen l' + 1 - 2) with (zlen l' - 1) by lia.
  apply wp_bind. eapply wp_rd_word; [exact Hat|by apply zget_middle|]. set (j := zlen l' + 1 - b2z (w =? 1)).
  assert (Hj : 0 <= j <= zlen l' + 1) by (unfold j; destruct (w =? 1); cbn; lia). apply wp_bind.
  eapply (wp_mono _ (fun _ s1 => others r s s1 /\ at_ (arrays s1) (bn_d a) (l' ++ [w]) /\ roomy s1 r j /\ exists lr, shows s1 r ng lr) _ (stunted r (zlen l) s)); [| |done].
  { destruct (Nat.eqb_spec a r) as [->|Hne]; cbn [negb].
    - apply wp_ret. split_and!; [done|done| |by exists l]. destruct Hs as (n0 & d & Hbn & _ & Hw0 & _). exists n0, d. split; [done|]. pose proof Hbn as (_ & _ & (_ & ? & _)). lia.
    - apply wp_bind. wp_call bn_wexpand_spec; [exact Hr|lia| |].
      + intros [] s1 (Ho1 & Hsh1 & Hr1). pose proof (Hsh1 _ _ _ Hs) as Hs1. destruct (shows_get _ _ _ _ Hs1) as (x & Hx1 & Hng & _).
        apply wp_bind. eapply wp_bn_get; [exact Hx1|]. rewrite Hng. destruct Hr1 as (n1 & d1 & Hbn1 & Hroom). pose proof Hbn1 as (Hn1 & Hd1 & (H1 & H2 & H3 & H4)).
        destruct (bn_is_lt _ _ _ _ Hbn1) as [Hlt _]. eapply wp_set_neg; [exact Hn1|]. set (s2 := mkStore _ _ _).
        assert (Ho2 : others r s1 s2). { unfold others, s2. cbn. rewrite length_insert. split_and!; [done|done|]. intros y Hy. by rewrite list_lookup_insert_ne. }
        assert (Hbn2 : bn_is s2 r (mkBN (width n1) (dmax n1) ng (flags n1)) d1) by (split_and!; [by apply list_lookup_insert_eq|done|done]).
        split_and!; [by eapply others_trans| |by eexists _, d1|].
        * assert (Hs2 : shows s2 a ng l) by (by eapply shows_others). destruct (shows_shrink _ _ _ _ Hs2) as [Hat2 _]. by rewrite El in Hat2.
        * exists (ztake (width n1) d1). eexists _, d1. rewrite zlen_ztake by lia. by split_and!.
      + intros s1 (H1 & H2 & H3). eapply stunted_same; [exact Hr|done|done|exact H3|lia]. }
  intros [] s1 (Ho1 & Hat1 & Hr1 & lr & Hlr). apply wp_bind, wp_on_words.
  wp_call (rshift1_words_spec (arrays s1) r a l' w); [done|done|done|done|by apply roomy_writable; [|lia]| |done]. intros [] m' (ws & -> & Hz & Hdw & Hvw).
  fold j in Hz. rewrite <- Hz. apply wp_bind. wp_call store_words; [exact Hlr|exact Hr1|done|lia| |done]. intros [] s2 [Ho2 Hs2].
  wp_call clear_sign; [exact Hs2|exact Hvw| | |done].
  - rewrite Hz, <- Hv. assert (Hone : val l / 2 = 0 <-> val l = 1) by dlia. rewrite Hone, Hv, val_snoc. pose proof (val_range l' Hd'). assert (0 < BASE ^ zlen l') by (apply Z.pow_pos_nonneg; lia).
    unfold j. split.
    + intros Ej. destruct (Z.eqb_spec w 1) as [->|]; cbn [b2z] in Ej; [|lia]. assert (zlen l' = 0) as E1 by lia. apply zlen_0 in E1 as ->. done.
    + intros E1. assert (Hp1 : BASE ^ zlen l' = 1) by nia. destruct (Z.eq_dec (zlen l') 0) as [E2|E2].
      * rewrite Hp1 in E1. assert (w = 1) as -> by (apply zlen_0 in E2 as ->; cbn in E1; lia). rewrite E2. done.
      * assert (BASE ^ 1 <= BASE ^ zlen l') by (apply Z.pow_le_mono_r; lia). lia.
  - intros [] s3 [H3 _]. eapply sets_after; [exact Ho1|]. eapply sets_after; [exact Ho2|]. rewrite <- Hv in H3. subst u. rewrite signed_quot by lia. done.
Qed.
End Numbers.
