(* ===== verification/BnBitsFacts.v ===== *)
(** Facts about the single bits and masks of [BnShift]. *)
From S2P Require Import Prelude Mem Ct BnWords BnWordsFacts BnMulFacts CtFacts Bn BnShift BnFacts BnCmp BnAddFacts BnArith BnOneWord BnTests BnShiftFacts.

(** * The bits of a number are the bits of its words *)

Lemma val_testbit l n : digits l -> 0 <= n -> Z.testbit (val l) n = Z.testbit (digit l (n / 64)) (n mod 64).
Proof.
  intros Hd. revert n. induction Hd as [|x l Hx Hd IH]; intros n Hn.
  - unfold digit. assert (zget (@nil Z) (n / 64) = None) as -> by (unfold zget; destruct (_ <=? _); done). by rewrite !Z.bits_0.
  - rewrite val_cons. assert (Hlor : x + BASE * val l = Z.lor (Z.shiftl (val l) 64) x).
    { rewrite Z.shiftl_mul_pow2 by lia. rewrite (lor_low _ x 64); [lia|lia|by apply Z.mod_mul|exact Hx]. }
    rewrite Hlor, Z.lor_spec. destruct (Z.lt_ge_cases n 64) as [Hlt|Hge].
    + rewrite Z.shiftl_spec_low by lia. rewrite Z.div_small, Z.mod_small by lia. done.
    + rewrite Z.shiftl_spec by lia. rewrite (small_bits x n Hx), orb_false_r by lia. rewrite IH by lia.
      assert (n / 64 = (n - 64) / 64 + 1) as -> by dlia. assert (n mod 64 = (n - 64) mod 64) as -> by dlia. f_equal. unfold digit. f_equal.
      assert (0 <= (n - 64) / 64) by (apply Z.div_pos; lia). unfold zget. rewrite !(proj2 (Z.leb_le _ _)) by lia.
      by rewrite Z2Nat.inj_add, Nat.add_comm by lia.
Qed.

Lemma digit_middle l1 w l2 k : digit (l1 ++ w :: l2) k = if k =? zlen l1 then w else digit (l1 ++ 0 :: l2) k.
Proof.
  unfold digit. destruct (Z.eqb_spec k (zlen l1)) as [->|Hne]; [by rewrite zget_middle|].
  destruct (Z.lt_ge_cases k (zlen l1)); [by rewrite !zget_app_l by lia|]. rewrite !zget_app_r by lia.
  unfold zget. rewrite !(proj2 (Z.leb_le _ _)) by lia. by destruct (Z.to_nat (k - zlen l1)) as [|i] eqn:E; [lia|].
Qed.

(** Two numbers that differ in one word differ in its bits. *)
Lemma val_set_word l1 w w' l2 v :
  digits (l1 ++ w :: l2) -> word w' -> 0 <= v ->
  (forall j, 0 <= j < 64 -> Z.testbit w' j = Z.testbit v (64 * zlen l1 + j)) ->
  (forall n, 0 <= n -> n / 64 <> zlen l1 -> Z.testbit v n = Z.testbit (val (l1 ++ w :: l2)) n) ->
  val (l1 ++ w' :: l2) = v.
Proof.
  intros Hd Hw' Hv Hin Hout. assert (Hd' : digits (l1 ++ w' :: l2)) by (apply digits_app in Hd as [H1 [_ H2]%Forall_cons]; apply digits_app; split; [done|by constructor]).
  apply Z.bits_inj'. intros n Hn. rewrite val_testbit, digit_middle by done. destruct (Z.eqb_spec (n / 64) (zlen l1)) as [E|E].
  - rewrite Hin by (apply Z.mod_pos_bound; lia). f_equal. rewrite <- E. symmetry. apply Z.div_mod. lia.
  - rewrite Hout, val_testbit, (digit_middle l1 w) by done. by rewrite (proj2 (Z.eqb_neq _ _) E).
Qed.

Lemma pow2_bit n k : 0 <= n -> Z.testbit (2 ^ n) k = (k =? n).
Proof. intros. rewrite Z.pow2_bits_eqb by lia. apply Z.eqb_sym. Qed.
(** The position of a bit, by word. *)
Lemma bit_pos i j n : 0 <= j < 64 -> 0 <= n mod 64 < 64 -> i = n / 64 -> (64 * i + j =? n) = (j =? n mod 64).
Proof. intros Hj Hm ->. pose proof (Z.div_mod n 64 ltac:(lia)). apply eq_true_iff_eq. rewrite !Z.eqb_eq. lia. Qed.

Lemma word_bit_in l1 w l2 j : digits (l1 ++ w :: l2) -> 0 <= j < 64 -> Z.testbit w j = Z.testbit (val (l1 ++ w :: l2)) (64 * zlen l1 + j).
Proof.
  intros Hd Hj. pose proof (zlen_nonneg l1). rewrite val_testbit by (done || lia). assert ((64 * zlen l1 + j) / 64 = zlen l1) as -> by (symmetry; apply (Z.div_unique _ _ _ j); lia).
  rewrite digit_middle, Z.eqb_refl. f_equal. apply (Z.mod_unique _ _ (zlen l1)); lia.
Qed.

Section Bit.
Variables (l1 : list Z) (w : Z) (l2 : list Z) (n : Z).
Hypothesis Hd : digits (l1 ++ w :: l2).
Hypothesis Hn : 0 <= n.
Hypothesis Hi : zlen l1 = n / 64.
Local Abbreviation V := (val (l1 ++ w :: l2)) (only parsing).

Lemma its_word : word w.
Proof. by apply digits_app in Hd as [_ [H _]%Forall_cons]. Qed.
Lemma bit_one : u64 (Z.shiftl 1 (n mod 64)) = 2 ^ (n mod 64) /\ word (2 ^ (n mod 64)).
Proof.
  pose proof (Z.mod_pos_bound n 64 ltac:(lia)). rewrite Z.shiftl_1_l. assert (Hw2 : word (2 ^ (n mod 64))); [|by rewrite u64_id].
  unfold word. split; [lia|]. apply Z.pow_lt_mono_r; lia.
Qed.
Lemma set_bit_value : val (l1 ++ Z.lor w (u64 (Z.shiftl 1 (n mod 64))) :: l2) = Z.lor V (2 ^ n).
Proof.
  pose proof its_word. destruct bit_one as [-> H1]. pose proof (Z.mod_pos_bound n 64 ltac:(lia)). pose proof (val_range _ Hd). assert (0 < 2 ^ n) by (apply Z.pow_pos_nonneg; lia).
  apply (val_set_word l1 w); [done|by apply lor_word|apply Z.lor_nonneg; lia| |].
  - intros j Hj. rewrite !Z.lor_spec, !pow2_bit, (word_bit_in l1 w l2) by (done || lia). by rewrite (bit_pos (zlen l1) j n) by done.
  - intros k Hk Hne. rewrite Z.lor_spec, pow2_bit by lia. rewrite (proj2 (Z.eqb_neq k n)), orb_false_r; [done|]. intros ->. congruence.
Qed.
Lemma clear_bit_value : val (l1 ++ Z.land w (u64 (Z.lnot (u64 (Z.shiftl 1 (n mod 64))))) :: l2) = Z.ldiff V (2 ^ n).
Proof.
  pose proof its_word as Hww. destruct bit_one as [-> H1]. pose proof (Z.mod_pos_bound n 64 ltac:(lia)). pose proof (val_range _ Hd). assert (0 < 2 ^ n) by (apply Z.pow_pos_nonneg; lia).
  assert (Hland : Z.land w (u64 (Z.lnot (2 ^ (n mod 64)))) = Z.ldiff w (2 ^ (n mod 64))).
  { rewrite Z.ldiff_land. apply Z.bits_inj'. intros k Hk. rewrite !Z.land_spec. destruct (Z.lt_ge_cases k 64).
    - f_equal. rewrite u64_mod. apply Z.mod_pow2_bits_low. lia.
    - by rewrite (small_bits w k Hww). }
  rewrite Hland. apply (val_set_word l1 w); [done| |apply Z.ldiff_nonneg; lia| |].
  - apply word_bits; [apply Z.ldiff_nonneg; unfold word in Hww; lia|]. intros k Hk. rewrite Z.ldiff_spec, (small_bits w k) by done. done.
  - intros j Hj. rewrite !Z.ldiff_spec, !pow2_bit, (word_bit_in l1 w l2) by (done || lia). by rewrite (bit_pos (zlen l1) j n) by done.
  - intros k Hk Hne. rewrite Z.ldiff_spec, pow2_bit by lia. rewrite (proj2 (Z.eqb_neq k n)), andb_true_r; [done|]. intros ->. congruence.
Qed.
End Bit.

(** * On numbers *)

Section Numbers.
Context `{alloc : Allocator}.

Lemma shows_self s x ng l : shows s x ng l -> wput (arrays s) (bn_d x) l = arrays s.
Proof.
  intros (n & d & (_ & Hd & (H1 & H2 & _)) & _ & Hw & Ht). rewrite (wput_is _ _ _ _ Hd). rewrite <- Ht at 1. rewrite ztake_zdrop. by apply list_insert_id.
Qed.
(** Words written behind those of a number. *)
Lemma append_put s x ng l ws : shows s x ng l -> writable (arrays s) (bn_d x) (zlen l + zlen ws) -> wput (arrays s) (wadd (bn_d x) (zlen l)) ws = wput (arrays s) (bn_d x) (l ++ ws).
Proof. intros Hs Hw. rewrite <- (shows_self _ _ _ _ Hs) at 1. by apply wput_app. Qed.
Lemma split_at l i (w : Z) : zget l i = Some w -> l = ztake i l ++ w :: zdrop (i + 1) l /\ zlen (ztake i l) = i.
Proof.
  intros Hw. pose proof (zget_Some _ _ _ Hw). split; [|apply zlen_ztake; lia]. rewrite <- (zdrop_next _ _ _ Hw). symmetry. apply ztake_zdrop.
Qed.

Lemma roomy_width s x ng l : shows s x ng l -> roomy s x (zlen l).
Proof. intros (n & d & Hbn & _ & Hw & _). pose proof Hbn as (_ & _ & (_ & ? & _)). exists n, d. split; [done|lia]. Qed.

(** One word of a number is replaced. *)
Lemma set_one_word s x ng l1 w l2 w' :
  shows s x ng (l1 ++ w :: l2) -> word w' ->
  wp (on_words (wr (bn_d x) (zlen l1) w')) (fun _ s' => others x s s' /\ shows s' x ng (l1 ++ w' :: l2)) (fun _ => False) s.
Proof.
  intros Hs Hw'. destruct (shows_get _ _ _ _ Hs) as (n & Hn & Hng & Hwd). pose proof (shows_self _ _ _ _ Hs) as Hself.
  destruct (shows_digits _ _ _ _ Hs) as [Hd _]. pose proof (at_writable _ _ _ (shows_at _ _ _ _ Hs)) as Hwr. pose proof (zlen_nonneg l1). pose proof (zlen_nonneg l2).
  assert (Hz : zlen (l1 ++ w :: l2) = zlen l1 + 1 + zlen l2) by (rewrite zlen_app, zlen_cons; lia). rewrite Hz in Hwr.
  apply wp_on_words. wp_call wr_spec; [apply (writable_sub _ _ (zlen l1 + 1 + zlen l2)); [done|lia..]| |done]. intros [] m' ->.
  rewrite <- Hself, (wput_over _ _ l1 [w] l2 [w']) by done. cbn [app].
  destruct (rewritten s x ng (l1 ++ w :: l2) (l1 ++ w' :: l2) (bn_heap s) n) as [H1 H2]; [done|done| |by rewrite !zlen_app, !zlen_cons|done].
  apply digits_app in Hd as [Hd1 [_ Hd2]%Forall_cons]. apply digits_app. split; [done|by constructor].
Qed.

(** Zero words are put behind a number. *)
Lemma pad_words x ng l k s :
  shows s x ng l -> zlen l <= k ->
  wp (bn_wexpand x k;; on_words (for_ (zlen l) (Z.to_nat (k - zlen l)) (fun j _ => wr (bn_d x) j 0) tt);; bn_set_width x k)
    (fun _ s' => others x s s' /\ shows s' x ng (l ++ zrep (k - zlen l) 0)) (stunted x k s) s.
Proof.
  intros Hs Hk. pose proof (zlen_nonneg l). apply wp_bind. wp_call bn_wexpand_spec; [by eapply roomy_shows|lia| |].
  2: { intros s' (H1 & H2 & H3). eapply stunted_same; [by eapply roomy_shows|done|done|exact H3|lia]. }
  intros [] s1 (Ho1 & Hsh1 & Hr1). pose proof (Hsh1 _ _ _ Hs) as Hs1. pose proof (shows_self _ _ _ _ Hs1) as Hself.
  assert (Hwr : writable (arrays s1) (bn_d x) k) by (apply roomy_writable; [done|lia]).
  apply wp_bind, wp_on_words. apply (wp_for (fun j _ m' => m' = wput (arrays s1) (bn_d x) (l ++ zrep (j - zlen l) 0))).
  - by rewrite Z.sub_diag, app_nil_r.
  - intros j [] m' Hj ->. set (ws := l ++ zrep (j - zlen l) 0). assert (Hz : zlen ws = j) by (unfold ws; rewrite zlen_app, zlen_zrep; lia).
    rewrite <- Hz. wp_call write_next; [exact Hwr|lia| |done]. intros [] m' ->. rewrite Hz. f_equal. unfold ws. rewrite <- app_assoc. f_equal.
    unfold zrep. replace (Z.to_nat (j + 1 - zlen l)) with (Z.to_nat (j - zlen l) + 1)%nat by lia. by rewrite replicate_add.
  - intros [] m' ->. replace (zlen l + Z.of_nat (Z.to_nat (k - zlen l))) with k by lia. assert (Hz : zlen (l ++ zrep (k - zlen l) 0) = k) by (rewrite zlen_app, zlen_zrep; lia).
    rewrite <- Hz at 1. wp_call store_words; [exact Hs1|exact Hr1| |lia| |done].
    + apply digits_app. split; [by eapply shows_digits|apply digits_zrep].
    + intros [] s2 [Ho2 Hs2]. split; [by eapply others_trans|done].
Qed.

Lemma val_pad l k : val (l ++ zrep k 0) = val l.
Proof. rewrite val_app, val_zrep. lia. Qed.

(** One word of a number goes through [f]. *)
Lemma update_word s x ng l i f :
  shows s x ng l -> 0 <= i < zlen l -> (forall w, word w -> word (f w)) ->
  wp (on_words (w ← rd (bn_d x) i; wr (bn_d x) i (f w)))
    (fun _ s' => others x s s' /\ exists l1 w l2, l = l1 ++ w :: l2 /\ zlen l1 = i /\ shows s' x ng (l1 ++ f w :: l2)) (fun _ => False) s.
Proof.
  intros Hs Hi Hf. destruct (zget_lt l i) as [w Hget]; [lia|]. destruct (split_at _ _ _ Hget) as [El Hz].
  pose proof (shows_at _ _ _ _ Hs) as Hat. destruct (shows_digits _ _ _ _ Hs) as [Hd _]. pose proof (digits_zget _ _ _ Hd Hget) as Hww.
  set (l1 := ztake i l) in *. set (l2 := zdrop (i + 1) l) in *. rewrite El in Hs. pose proof (set_one_word s x ng l1 w l2 (f w) Hs (Hf w Hww)) as Hset.
  unfold on_words, wp, zoom, mbind, M_bind in *. pose proof (rd_spec _ _ _ _ _ Hat Hget) as Hrd. unfold wp in Hrd.
  destruct (rd (bn_d x) i (arrays s)) as [y m1|m1|]; [|done|done]. destruct Hrd as [-> ->]. rewrite <- Hz.
  destruct (wr (bn_d x) (zlen l1) (f w) (arrays s)) as [[] m2|m2|]; [|done|done]. destruct Hset as [Ho Hs']. split; [done|]. by exists l1, w, l2.
Qed.

Lemma holds_sign a u s : holds s a u ->
  exists l, shows s a (u <? 0) l /\ val l = Z.abs u.
Proof.
  intros (ng & l & Hs & Hc & Hu). exists l. pose proof (val_range l ltac:(by eapply shows_digits)).
  assert ((u <? 0) = ng) as -> by (destruct ng; cbn [signed] in Hu; [specialize (Hc eq_refl); apply Z.ltb_lt; lia|apply Z.ltb_ge; lia]).
  split; [done|]. destruct ng; cbn [signed] in Hu; lia.
Qed.
Lemma word_set_bit n w : 0 <= n -> word w -> word (Z.lor w (u64 (Z.shiftl 1 (n mod 64)))).
Proof. intros _ Hw. apply lor_word; [done|apply u64_word]. Qed.

Lemma BN_set_bit_spec a u n s :
  holds s a u -> 0 <= n -> wp (BN_set_bit a n) (fun _ => sets a (signed (u <? 0) (Z.lor (Z.abs u) (2 ^ n))) s) (stunted a (n / 64 + 1) s) s.
Proof.
  intros Hx Hn. destruct (holds_sign _ _ _ Hx) as (l & Hs & Hv). unfold BN_set_bit. rewrite (proj2 (Z.ltb_ge _ _)) by lia. destruct (shows_get _ _ _ _ Hs) as (x & Hxg & Hng & Hw).
  apply wp_bind. eapply wp_bn_get; [exact Hxg|]. rewrite Hw. change BN_BITS2 with 64. assert (0 <= n / 64) by (apply Z.div_pos; lia).
  apply wp_bind. eapply (wp_mono _ (fun _ s1 => others a s s1 /\ exists l2, shows s1 a (u <? 0) l2 /\ val l2 = val l /\ n / 64 < zlen l2) _ (stunted a (n / 64 + 1) s)); [| |done].
  { destruct (Z.leb_spec (zlen l) (n / 64)) as [Hle|Hgt]; [|apply wp_ret; split; [done|by exists l]].
    wp_call (pad_words a (u <? 0) l (n / 64 + 1)); [exact Hs|lia| |done]. intros [] s1 [Ho1 Hs1]. split; [done|]. eexists. split; [exact Hs1|].
    rewrite val_pad, zlen_app, zlen_zrep by lia. split; [done|lia]. }
  intros [] s1 (Ho1 & l2 & Hs1 & Hv2 & Hlt). wp_call (update_word s1 a (u <? 0) l2 (n / 64) (fun w => Z.lor w (u64 (Z.shiftl 1 (n mod 64)))));
    [exact Hs1|lia|intros; by apply word_set_bit| |done].
  intros [] s2 (Ho2 & la & w & lb & -> & Hz & Hs2). split; [by eapply others_trans|]. assert (Hd : digits (la ++ w :: lb)) by (by eapply shows_digits).
  eexists _, _. split; [exact Hs2|]. unfold canonical. rewrite (set_bit_value la w lb n) by done. rewrite Hv2, Hv. split; [|done]. intros _.
  assert (0 < 2 ^ n) by (apply Z.pow_pos_nonneg; lia). assert (0 <= Z.lor (Z.abs u) (2 ^ n)) by (apply Z.lor_nonneg; lia).
  destruct (Z.eq_dec (Z.lor (Z.abs u) (2 ^ n)) 0) as [E|]; [|lia]. apply Z.lor_eq_0_iff in E. lia.
Qed.

(** The number is long enough to have bit [n] in its words. *)
Definition spans (s : bn_store) (a : bn) (n : Z) : Prop := exists x, nums s !! a = Some x /\ n / 64 < width x.

Lemma BN_clear_bit_spec a u n s :
  holds s a u -> 0 <= n ->
  wp (BN_clear_bit a n) (fun _ s' => spans s a n /\ sets a (signed (u <? 0) (Z.ldiff (Z.abs u) (2 ^ n))) s s') (fun s' => s' = s /\ ~ spans s a n) s.
Proof.
  intros Hx Hn. destruct (holds_sign _ _ _ Hx) as (l & Hs & Hv). unfold BN_clear_bit. rewrite (proj2 (Z.ltb_ge _ _)) by lia. destruct (shows_get _ _ _ _ Hs) as (x & Hxg & Hng & Hw).
  apply wp_bind. eapply wp_bn_get; [exact Hxg|]. rewrite Hw. change BN_BITS2 with 64. assert (0 <= n / 64) by (apply Z.div_pos; lia).
  destruct (Z.leb_spec (zlen l) (n / 64)) as [Hle|Hgt].
  { apply wp_fail. split; [done|]. intros (x' & Hx' & Hlt). assert (x' = x) as -> by congruence. lia. }
  apply wp_bind. wp_call (update_word s a (u <? 0) l (n / 64) (fun w => Z.land w (u64 (Z.lnot (u64 (Z.shiftl 1 (n mod 64)))))));
    [exact Hs|lia|intros w Hww; apply land_word; [done|apply u64_word]| |done].
  intros [] s1 (Ho1 & la & w & lb & El & Hz & Hs1). subst l. assert (Hd : digits (la ++ w :: lb)) by (by eapply shows_digits).
  wp_call minimal_holds; [exact Hs1| |done]. intros [] s2 H2. split; [exists x; split; [done|lia]|]. eapply sets_after; [exact Ho1|].
  rewrite (clear_bit_value la w lb n) in H2 by done. by rewrite Hv in H2.
Qed.

Lemma BN_is_bit_set_spec a u n s :
  holds s a u -> wp (BN_is_bit_set a n) (fun b s' => s' = s /\ b = ((0 <=? n) && Z.testbit (Z.abs u) n)) (fun _ => False) s.
Proof.
  intros Hx. destruct (holds_sign _ _ _ Hx) as (l & Hs & Hv). unfold BN_is_bit_set. destruct (Z.ltb_spec n 0) as [Hneg|Hn]; [apply wp_ret; by rewrite (proj2 (Z.leb_gt _ _)) by lia|].
  rewrite (proj2 (Z.leb_le 0 n)) by lia. destruct (shows_get _ _ _ _ Hs) as (x & Hxg & Hng & Hw). destruct (shows_digits _ _ _ _ Hs) as [Hd _].
  apply wp_bind. eapply wp_bn_get; [exact Hxg|]. rewrite Hw. apply wp_on_words. unfold bn_is_bit_set_words. change BN_BITS2 with 64. assert (0 <= n / 64) by (apply Z.div_pos; lia).
  rewrite <- Hv, val_testbit by done. cbn [andb]. destruct (Z.leb_spec (zlen l) (n / 64)) as [Hle|Hgt].
  - apply wp_ret. rewrite eta_store. split; [done|]. unfold digit. assert (zget l (n / 64) = None) as ->; [|by rewrite Z.bits_0].
    unfold zget. rewrite (proj2 (Z.leb_le _ _)) by lia. apply lookup_ge_None_2. unfold zlen in Hle. lia.
  - destruct (zget_lt l (n / 64)) as [w Hget]; [lia|]. apply wp_bind. wp_call rd_spec; [by eapply shows_at|exact Hget| |done]. intros ? ? [-> ->]. apply wp_ret. rewrite eta_store.
    split; [done|]. unfold digit. rewrite Hget. cbn [default]. change 1 with (Z.ones 1). rewrite Z.land_ones by lia. change (2 ^ 1) with 2.
    change (id w) with w. rewrite Z.testbit_eqb, Z.shiftr_div_pow2 by (apply Z.mod_pos_bound; lia). rewrite !Zmod_odd. by destruct (Z.odd (w / 2 ^ (n mod 64))).
Qed.

(** ** Masks *)

Lemma mask_word w b : word w -> 0 < b < 64 -> Z.land w (u64 (Z.lnot (u64 (Z.shiftl BN_MASK2 b)))) = w mod 2 ^ b.
Proof.
  intros Hw Hb. rewrite <- Z.land_ones by lia. apply Z.bits_inj'. intros k Hk. rewrite !Z.land_spec, Z.testbit_ones_nonneg by lia.
  destruct (Z.lt_ge_cases k 64) as [Hlt|Hge]; [|by rewrite (small_bits w k Hw)]. f_equal.
  assert (Hu : forall z, Z.testbit (u64 z) k = Z.testbit z k) by (intros z; rewrite u64_mod; apply Z.mod_pow2_bits_low; lia).
  rewrite Hu, Z.lnot_spec, Hu, Z.shiftl_spec by lia. change BN_MASK2 with (Z.ones 64). destruct (Z.ltb_spec k b).
  - by rewrite Z.testbit_neg_r by lia.
  - by rewrite Z.testbit_ones_nonneg, (proj2 (Z.ltb_lt _ _)) by lia.
Qed.
(** The low words, and the low bits of the next. *)
Lemma mask_value l1 w l2 b : digits (l1 ++ w :: l2) -> 0 <= b < 64 ->
  val l1 + BASE ^ zlen l1 * (w mod 2 ^ b) = val (l1 ++ w :: l2) mod 2 ^ (64 * zlen l1 + b).
Proof.
  intros Hd Hb. rewrite val_app, val_cons. apply digits_app in Hd as [Hd1 [Hw Hd2]%Forall_cons]. pose proof (val_range l1 Hd1). pose proof (zlen_nonneg l1).
  assert (Hp : BASE ^ zlen l1 = 2 ^ (64 * zlen l1)) by (by rewrite <- Z.pow_mul_r by lia). rewrite Z.pow_add_r, <- Hp by lia. set (p := BASE ^ zlen l1) in *.
  assert (H2 : 0 < 2 ^ b) by (apply Z.pow_pos_nonneg; lia). pose proof (Z.mod_pos_bound w (2 ^ b) ltac:(lia)).
  assert (HB : BASE = 2 ^ b * 2 ^ (64 - b)) by (rewrite <- Z.pow_add_r by lia; f_equal; lia).
  apply (Z.mod_unique_pos _ _ (w / 2 ^ b + 2 ^ (64 - b) * val l2)); [nia|]. pose proof (Z.div_mod w (2 ^ b) ltac:(lia)) as Hdm. rewrite HB at 1. nia.
Qed.

(** A number is cut to its first words. *)
Lemma cut_words s x ng l k :
  shows s x ng l -> 0 <= k <= zlen l -> wp (bn_set_width x k) (fun _ s' => others x s s' /\ shows s' x ng (ztake k l)) (fun _ => False) s.
Proof.
  intros Hs Hk. assert (Hz : zlen (ztake k l) = k) by (apply zlen_ztake; lia).
  assert (Hput : wput (arrays s) (bn_d x) (ztake k l) = arrays s).
  { rewrite (wput_keep _ _ l); [|by eapply shows_at|lia]. rewrite Hz, ztake_zdrop. by eapply shows_self. }
  pose proof (store_words s x ng l (zlen l) (ztake k l) (bn_heap s) Hs (roomy_width _ _ _ _ Hs) (digits_ztake _ _ (proj1 (shows_digits _ _ _ _ Hs))) ltac:(lia)) as Hst.
  by rewrite Hput, eta_store, Hz in Hst.
Qed.

Lemma BN_mask_bits_spec a u n s :
  holds s a u -> 0 <= n -> wp (BN_mask_bits a n) (fun _ s' => spans s a n /\ sets a (Z.rem u (2 ^ n)) s s') (fun s' => s' = s /\ ~ spans s a n) s.
Proof.
  intros Hx Hn. destruct (holds_sign _ _ _ Hx) as (l & Hs & Hv). unfold BN_mask_bits. rewrite (proj2 (Z.ltb_ge _ _)) by lia. destruct (shows_get _ _ _ _ Hs) as (x & Hxg & Hng & Hw).
  apply wp_bind. eapply wp_bn_get; [exact Hxg|]. rewrite Hw. change BN_BITS2 with 64. set (i := n / 64). set (b := n mod 64).
  assert (Hi : 0 <= i) by (apply Z.div_pos; lia). assert (Hb : 0 <= b < 64) by (apply Z.mod_pos_bound; lia). assert (Hnib : n = 64 * i + b) by (apply Z.div_mod; lia).
  destruct (Z.leb_spec (zlen l) i) as [Hle|Hgt].
  { apply wp_fail. split; [done|]. intros (x' & Hx' & Hlt). assert (x' = x) as -> by congruence. unfold i in *. lia. }
  assert (Hsp : spans s a n) by (exists x; split; [done|unfold i in *; lia]).
  destruct (zget_lt l i) as [w Hget]; [lia|]. destruct (split_at _ _ _ Hget) as [El Hz1]. pose proof Hs as Hs'. rewrite El in Hs'. destruct (shows_digits _ _ _ _ Hs') as [Hd' _].
  pose proof (mask_value _ _ _ b Hd' Hb) as Hval. rewrite <- El, Hz1, <- Hnib, Hv in Hval.
  assert (Hrem : Z.rem u (2 ^ n) = signed (u <? 0) (Z.abs u mod 2 ^ n)).
  { assert (0 < 2 ^ n) by (apply Z.pow_pos_nonneg; lia). destruct (Z.ltb_spec u 0); cbn [signed].
    - replace u with (- Z.abs u) at 1 by lia. rewrite Z.rem_opp_l by lia. by rewrite Z.rem_mod_nonneg by lia.
    - by rewrite Z.rem_mod_nonneg, Z.abs_eq by lia. }
  apply wp_bind. eapply (wp_mono _ (fun _ s1 => others a s s1 /\ exists l2, shows s1 a (u <? 0) l2 /\ val l2 = Z.abs u mod 2 ^ n) _ (fun _ => False)); [| |done].
  { destruct (Z.eqb_spec b 0) as [E|E].
    - wp_call cut_words; [exact Hs|lia| |done]. intros [] s1 [Ho1 Hs1]. split; [done|]. eexists. split; [exact Hs1|].
      rewrite E, Z.mod_1_r in Hval. lia.
    - apply wp_bind. wp_call cut_words; [exact Hs|lia| |done]. intros [] s1 [Ho1 Hs1]. rewrite (ztake_next _ _ _ Hget) in Hs1.
      assert (Hww : word w) by (by eapply its_word).
      wp_call (update_word s1 a (u <? 0) (ztake i l ++ [w]) i (fun w => Z.land w (u64 (Z.lnot (u64 (Z.shiftl BN_MASK2 b))))));
        [exact Hs1|rewrite zlen_snoc; lia|intros; apply land_word; [done|apply u64_word]| |done].
      intros [] s2 (Ho2 & la & w' & lb & El2 & Hz2 & Hs2). split; [by eapply others_trans|].
      assert (lb = []) as ->. { apply (f_equal zlen) in El2. rewrite zlen_snoc, zlen_app, zlen_cons in El2. apply zlen_0. lia. }
      apply app_inj_tail in El2 as [<- <-]. eexists. split; [exact Hs2|]. rewrite val_snoc, mask_word by (done || lia). by rewrite Hz2. }
  intros [] s1 (Ho1 & l2 & Hs1 & Hv1). wp_call minimal_holds; [exact Hs1| |done]. intros [] s2 H2. split; [done|]. eapply sets_after; [exact Ho1|].
  by rewrite Hv1, <- Hrem in H2.
Qed.

(** ** The lowest bit *)

(** Bit [k] is the lowest of [v] that is set. *)
Definition lowest_bit (v k : Z) : Prop := 0 <= k /\ Z.testbit v k = true /\ forall i, 0 <= i < k -> Z.testbit v i = false.

Lemma low_zeros_spec fuel w bits : 0 < w < 2 ^ Z.of_nat fuel -> lowest_bit w (low_zeros fuel w bits - bits).
Proof.
  revert w bits. induction fuel as [|fuel IH]; intros w bits Hw; [change (2 ^ Z.of_nat 0) with 1 in Hw; lia|]. cbn [low_zeros].
  change 1 with (Z.ones 1) at 1. rewrite Z.land_ones by lia. change (2 ^ 1) with 2. rewrite Nat2Z.inj_succ, Z.pow_succ_r in Hw by lia.
  destruct (Z.eqb_spec (w mod 2) 0) as [E|E].
  - rewrite Z.shiftr_div_pow2 by lia. change (2 ^ 1) with 2. destruct (IH (w / 2) (bits + 1)) as (H0 & H1 & H2); [dlia|]. set (r := low_zeros fuel (w / 2) (bits + 1)) in *.
    assert (Ew : w = 2 * (w / 2)) by dlia. split_and!; [lia| |].
    + replace (r - bits) with (Z.succ (r - (bits + 1))) by lia. rewrite Ew, Z.testbit_even_succ by lia. done.
    + intros i Hi. rewrite Ew. destruct (Z.eq_dec i 0) as [->|Hi0]; [apply Z.testbit_even_0|].
      replace i with (Z.succ (i - 1)) by lia. rewrite Z.testbit_even_succ by lia. apply H2. lia.
  - rewrite Z.sub_diag. split_and!; [done| |lia]. rewrite Z.bit0_odd. rewrite Zmod_odd in E. by destruct (Z.odd w).
Qed.

(** The lowest bit of the words behind [i] zero words. *)
Lemma lowest_words l1 w l2 k : digits (l1 ++ w :: l2) -> val l1 = 0 -> 0 < w -> lowest_bit w k -> k < 64 -> lowest_bit (val (l1 ++ w :: l2)) (64 * zlen l1 + k).
Proof.
  intros Hd H1 Hw (Hk & Hb & Hlow) Hk64. pose proof (zlen_nonneg l1). split_and!; [lia| |].
  - by rewrite <- (word_bit_in l1 w l2) by (done || lia).
  - intros i Hi. destruct (Z.lt_ge_cases i (64 * zlen l1)) as [Hlt|Hge].
    + assert (Hp : BASE ^ zlen l1 = 2 ^ (64 * zlen l1)) by (by rewrite <- Z.pow_mul_r by lia).
      rewrite val_app, H1, Hp, Z.add_0_l, Z.mul_comm. by apply Z.mul_pow2_bits_low.
    + replace i with (64 * zlen l1 + (i - 64 * zlen l1)) by lia. rewrite <- (word_bit_in l1 w l2) by (done || lia). apply Hlow. lia.
Qed.

Lemma BN_count_low_zero_bits_spec a u s :
  holds s a u -> wp (BN_count_low_zero_bits a) (fun k s' => s' = s /\ if u =? 0 then k = 0 else lowest_bit (Z.abs u) k) (fun _ => False) s.
Proof.
  intros Hx. destruct (holds_sign _ _ _ Hx) as (l & Hs & Hv). unfold BN_count_low_zero_bits. destruct (shows_get _ _ _ _ Hs) as (x & Hxg & Hng & Hw).
  apply wp_bind. eapply wp_bn_get; [exact Hxg|]. rewrite Hw. destruct (shows_digits _ _ _ _ Hs) as [Hd _]. pose proof (zlen_nonneg l).
  apply (wp_iter (fun i s' => s' = s /\ 0 <= i <= zlen l /\ val (ztake i l) = 0) (fun i _ => Z.to_nat (zlen l - i))).
  - by rewrite ztake_0.
  - lia.
  - intros i s' (-> & Hi & Hz). destruct (Z.ltb_spec i (zlen l)) as [Hlt|Hge].
    + destruct (zget_lt l i) as [w Hget]; [lia|]. pose proof (digits_zget _ _ _ Hd Hget) as Hww. unfold word in Hww. destruct (split_at _ _ _ Hget) as [El Hzi].
      apply wp_bind. eapply wp_rd_word; [by eapply shows_at|exact Hget|]. destruct (Z.eqb_spec w 0) as [->|Hw0]; cbn [negb]; apply wp_ret.
      * split; [|lia]. split_and!; [done|lia|lia|]. by rewrite (ztake_next _ _ _ Hget), val_snoc, Hz, Z.mul_0_r.
      * assert (Hlow : lowest_bit w (low_zeros 64 w 0 - 0)) by (apply low_zeros_spec; change (2 ^ Z.of_nat 64) with BASE; lia). rewrite Z.sub_0_r in Hlow.
        assert (Hk64 : low_zeros 64 w 0 < 64).
        { destruct (Z.lt_ge_cases (low_zeros 64 w 0) 64) as [|Hge]; [done|]. destruct Hlow as (_ & Hb & _). by rewrite (small_bits w _ Hww) in Hb. }
        split; [done|]. rewrite El in Hv, Hd. pose proof (lowest_words _ _ _ _ Hd Hz ltac:(lia) Hlow Hk64) as Hl. rewrite Hv, Hzi in Hl.
        destruct (Z.eqb_spec u 0) as [->|]; [destruct Hl as (_ & Hb & _); by rewrite Z.bits_0 in Hb|]. change BN_BITS2 with 64. by rewrite (Z.mul_comm i).
    + apply wp_ret. split; [done|]. replace i with (zlen l) in Hz by lia. rewrite ztake_all in Hz. by rewrite (proj2 (Z.eqb_eq u 0)) by lia.
Qed.
End Numbers.
