(* ===== verification/BnBytesFacts.v ===== *)
(** Facts about [BnBytes]: the number of a string of bytes, big-endian and
    little-endian, and the bytes of a number. *)
From S2P Require Import Prelude Mem Der MemFacts Cells Ct BnWords BnWordsFacts BnMulFacts CtFacts Bn BnBytes BnShift BnFacts BnCmp BnAddFacts BnArith BnOneWord BnTests BnShiftFacts BnBitsFacts.

(** * Bytes and words *)

(** The number whose bytes are [l], least significant first. *)
Definition le_val (l : list Z) : Z := be_val (rev l).
Lemma le_val_cons b l : le_val (b :: l) = b + 256 * le_val l.
Proof. unfold le_val. cbn [rev]. rewrite be_val_snoc. lia. Qed.
Lemma le_val_app l1 l2 : le_val (l1 ++ l2) = le_val l1 + 256 ^ zlen l1 * le_val l2.
Proof. unfold le_val. rewrite rev_app_distr, be_val_app. unfold zlen. rewrite length_rev. lia. Qed.
Lemma bytes_rev l : bytes l -> bytes (rev l).
Proof. intros. by apply Forall_rev. Qed.
Lemma zlen_rev {A} (l : list A) : zlen (rev l) = zlen l.
Proof. unfold zlen. by rewrite length_rev. Qed.
Lemma le_val_bound l : bytes l -> 0 <= le_val l < 256 ^ zlen l.
Proof. intros Hb. rewrite <- (zlen_rev l). by apply be_val_bound, bytes_rev. Qed.

Lemma pow256 n : 0 <= n -> 256 ^ n = 2 ^ (8 * n).
Proof. intros. by rewrite Z.pow_mul_r by lia. Qed.
Lemma base256 n : 0 <= n -> 256 ^ (8 * n) = BASE ^ n.
Proof. intros. by rewrite Z.pow_mul_r by lia. Qed.

Lemma digits_cells l : digits l -> Forall is_cell l.
Proof. intros Hd. eapply Forall_impl; [exact Hd|]. done. Qed.
Lemma bytes_of_cells l : bytes (of_cells l).
Proof. unfold of_cells. induction l as [|x l IH]; cbn [flat_map]; [constructor|]. apply bytes_app. split; [apply bytes_rev, bytes_be|done]. Qed.
Lemma le_val_of_cells l : digits l -> le_val (of_cells l) = val l.
Proof.
  induction 1 as [|x l Hx Hl IH]; [done|]. unfold of_cells in *. cbn [flat_map]. rewrite le_val_app, IH, val_cons, zlen_rev, zlen_be.
  unfold le_val at 1. rewrite rev_involutive, be_val_be by exact Hx. done.
Qed.
Lemma to_of_cells l : digits l -> to_cells (of_cells l) = l.
Proof. intros Hd. rewrite <- (app_nil_r (of_cells l)), to_cells_app by (by apply digits_cells). unfold to_cells. cbn. apply app_nil_r. Qed.

(** The bytes of a number as its low bytes. *)
Lemma be_mod n v : 0 <= v -> be n v = be n (v mod 256 ^ Z.of_nat n).
Proof.
  revert v. induction n as [|n IH]; intros v Hv; [done|]. cbn [be]. rewrite Nat2Z.inj_succ, Z.pow_succ_r by lia. assert (0 < 256 ^ Z.of_nat n) by (apply Z.pow_pos_nonneg; lia).
  rewrite IH by (apply Z.div_pos; lia). f_equal; f_equal.
  - rewrite Z.rem_mul_r by lia. rewrite (Z.mul_comm 256), Z.div_add by lia. rewrite (Z.div_small (v mod 256)) by (apply Z.mod_pos_bound; lia). done.
  - rewrite Z.rem_mul_r by lia. rewrite (Z.mul_comm 256), Z.mod_add, Z.mod_mod by lia. done.
Qed.
Lemma bytes_are_be l : bytes l -> rev l = be (length l) (le_val l).
Proof. intros Hb. unfold le_val. rewrite <- (length_rev l). symmetry. by apply be_be_val, bytes_rev. Qed.
Lemma be_app n k v : 0 <= v -> be (n + k) v = be n (v / 256 ^ Z.of_nat k) ++ be k v.
Proof.
  revert v. induction k as [|k IH]; intros v Hv; [by rewrite Nat.add_0_r, Z.div_1_r, app_nil_r|].
  rewrite Nat.add_succ_r. cbn [be]. rewrite IH by (apply Z.div_pos; lia). rewrite <- app_assoc. f_equal. f_equal.
  rewrite Z.div_div by (try apply Z.pow_pos_nonneg; lia). f_equal. rewrite Nat2Z.inj_succ, Z.pow_succ_r by lia. done.
Qed.
Lemma be_zero n : be n 0 = zrep (Z.of_nat n) 0.
Proof.
  induction n as [|n IH]; [done|]. cbn [be]. change (0 / 256) with 0. rewrite IH. change (0 mod 256) with 0. unfold zrep. rewrite !Nat2Z.id.
  by rewrite <- replicate_S_end.
Qed.

(** A byte of a number, found in its word. *)
Lemma val_byte l i w :
  digits l -> 0 <= i -> zget l (i / 8) = Some w -> Z.land (u8 (Z.shiftr w (8 * (i mod 8)))) 0xff = (val l / 256 ^ i) mod 256.
Proof.
  intros Hd Hi Hw. change 0xff with (Z.ones 8). rewrite Z.land_ones by lia. unfold u8. change (2 ^ 8) with 256. rewrite Z.mod_mod by lia.
  pose proof (Z.mod_pos_bound i 8 ltac:(lia)) as Hm. set (q := i / 8) in *. set (r := i mod 8) in *. assert (Hqr : i = 8 * q + r) by (apply Z.div_mod; lia).
  assert (Hq : 0 <= q) by (apply Z.div_pos; lia). rewrite Z.shiftr_div_pow2, <- pow256 by lia.
  pose proof (zget_Some _ _ _ Hw) as Hq2. rewrite (val_split q l), (zdrop_next _ _ _ Hw), val_cons by lia.
  pose proof (val_range (ztake q l) ltac:(by apply digits_ztake)) as Hlow. rewrite zlen_ztake in Hlow by lia.
  rewrite Hqr, Z.pow_add_r, base256, <- Z.div_div by (try apply Z.pow_nonzero; try apply Z.pow_pos_nonneg; lia).
  assert (0 < BASE ^ q) by (apply Z.pow_pos_nonneg; lia). assert (0 < 256 ^ r) by (apply Z.pow_pos_nonneg; lia).
  rewrite (Z.mul_comm (BASE ^ q)), Z.div_add, (Z.div_small (val (ztake q l))), Z.add_0_l by lia.
  assert (HB : BASE = 256 * 256 ^ (7 - r) * 256 ^ r). { rewrite <- Z.mul_assoc, <- Z.pow_add_r by lia. replace (7 - r + r) with 7 by lia. done. }
  rewrite HB. replace (w + 256 * 256 ^ (7 - r) * 256 ^ r * val (zdrop (q + 1) l)) with (w + 256 ^ (7 - r) * val (zdrop (q + 1) l) * 256 * 256 ^ r) by lia.
  rewrite Z.div_add by lia. by rewrite Z.mod_add by lia.
Qed.

(** * From bytes *)

Section Numbers.
Context `{alloc : Allocator}.

(** What is at [inp]: [len] bytes and maybe more. *)
Definition input_is (inp : ptr) (len : Z) (l : list Z) : Prop := ptr_read inp len = Some l /\ bytes l.
Lemma input_get inp len l i b : input_is inp len l -> zget l i = Some b -> ptr_get inp i = Some b.
Proof.
  intros [Hr _] Hb. unfold ptr_read in Hr. destruct (_ && _) eqn:E; [|done]. injection Hr as <-. unfold ptr_get.
  pose proof (zget_Some _ _ _ Hb) as Hi. apply andb_true_iff in E as [H1%Z.leb_le H2%Z.leb_le]. rewrite zlen_ztake in Hi by lia.
  rewrite <- (ztake_zdrop len (ptr_bytes inp)). by rewrite zget_app_l by (rewrite zlen_ztake; lia).
Qed.
Lemma input_len inp len l : input_is inp len l -> zlen l = len.
Proof.
  intros [Hr _]. unfold ptr_read in Hr. destruct (_ && _) eqn:E; [|done]. injection Hr as <-. apply andb_true_iff in E as [H1%Z.leb_le H2%Z.leb_le]. by apply zlen_ztake.
Qed.
(** The loop of [BN_bin2bn]: [rest] bytes are to come; the words from [nw] on are stored,
    and the word being put together has [7 - m] bytes. *)
Lemma bin2bn_loop r (s : bn_store) hd h inp l N :
  input_is inp (zlen l) l -> 0 < zlen l -> N = (zlen l - 1) / 8 + 1 -> writable (arrays s) (bn_d r) N ->
  wp (for_ 0 (Z.to_nat (zlen l)) (bin2bn_turn r inp) (u32 ((zlen l - 1) mod 8), N, 0))
    (fun _ s' => exists ws, s' = mkStore hd (wput (arrays s) (bn_d r) ws) h /\ zlen ws = N /\ digits ws /\ val ws = be_val l) (fun _ => False)
    (mkStore hd (arrays s) h).
Proof.
  intros Hin Hlen HN Hr. pose proof Hin as [_ Hb]. assert (Hm0 : u32 ((zlen l - 1) mod 8) = (zlen l - 1) mod 8) by (unfold u32; pose proof (Z.mod_pos_bound (zlen l - 1) 8 ltac:(lia)); apply Z.mod_small; lia).
  assert (Hfit : forall i k, 0 <= i -> 0 <= k -> i + k <= N -> writable (arrays s) (wadd (bn_d r) i) k) by (intros; by apply (writable_sub _ _ N)).
  apply (wp_for (fun i '(m, nw, wd) s' => exists ws, s' = mkStore hd (wput (arrays s) (wadd (bn_d r) nw) ws) h /\ 0 <= m <= 7 /\ 0 <= nw <= N /\ zlen ws = N - nw /\ digits ws /\
    zlen l - i = 8 * (nw - 1) + m + 1 /\ 0 <= wd < 256 ^ (7 - m) /\ val ws * 256 ^ (7 - m) + wd = be_val (ztake i l))).
  - exists []. rewrite wput_nil, Hm0 by (apply Hfit; dlia). split_and!; [done|dlia|dlia|dlia|dlia|change (zlen (@nil Z)) with 0; lia|constructor|dlia|done|apply Z.pow_pos_nonneg; dlia|].
    by rewrite ztake_0.
  - intros i [[m nw] wd] s' Hi (ws & -> & Hm & Hnw & Hz & Hdw & Hrest & Hwd & Hval). unfold bin2bn_turn.
    destruct (zget_lt l i) as [b Hget]; [lia|]. pose proof (bytes_zget _ _ _ Hb Hget) as Hbb. unfold is_byte in Hbb.
    apply wp_bind. eapply wp_deref; [by eapply input_get|].
    assert (Hp8 : 256 ^ (8 - m) = 256 * 256 ^ (7 - m)) by (replace (8 - m) with (Z.succ (7 - m)) by lia; rewrite Z.pow_succ_r by lia; done).
    assert (H7 : 256 ^ (7 - m) <= 256 ^ 7) by (apply Z.pow_le_mono_r; lia). change (256 ^ 7) with 72057594037927936 in H7.
    assert (Hw' : Z.lor (u64 (Z.shiftl wd 8)) b = wd * 256 + b).
    { rewrite Z.shiftl_mul_pow2 by lia. change (2 ^ 8) with 256. rewrite u64_id by (unfold word; lia). apply (lor_low _ _ 8); [lia|by apply Z.mod_mul|done]. }
    rewrite Hw', (ztake_next _ _ _ Hget), be_val_snoc, <- Hval. destruct (Z.eqb_spec m 0) as [->|Hm0'].
    + assert (1 <= nw) by lia. change (7 - 0) with 7 in *. change (256 ^ 7) with 72057594037927936 in *.
      apply wp_bind, wp_on_words. cbn [arrays nums bn_heap]. rewrite wr_at. replace (wadd (bn_d r) nw) with (wadd (wadd (bn_d r) (nw - 1)) 1) by (rewrite wadd_wadd; f_equal; lia).
      wp_call wr_front; [apply (Hfit (nw - 1) (N - nw + 1)); lia|lia| |done]. intros [] m' ->. apply wp_ret. exists ((wd * 256 + b) :: ws). change BN_BYTES with 8.
      rewrite zlen_cons, val_cons. split_and!; [done|lia|lia|lia|lia|lia|constructor; [unfold word; lia|done]|lia|lia|done|]. change (256 ^ (7 - (8 - 1))) with 1. lia.
    + apply wp_ret. exists ws. replace (7 - (m - 1)) with (8 - m) by lia. rewrite Hp8. split_and!; try done; try lia.
  - intros [[m nw] wd] s' (ws & -> & Hm & Hnw & Hz & Hdw & Hrest & Hwd & Hval). replace (0 + Z.of_nat (Z.to_nat (zlen l))) with (zlen l) in * by lia.
    assert (m = 7 /\ nw = 0) as [-> ->] by lia. rewrite ztake_all in Hval. change (256 ^ (7 - 7)) with 1 in *. exists ws. rewrite wadd_0. split_and!; [done|lia|done|lia].
Qed.


(** The number [r] is [v] with the sign [ng]; it may be a negative zero. *)
Definition has (s : bn_store) (r : bn) (ng : bool) (v : Z) : Prop := exists ws, shows s r ng ws /\ val ws = v.
Lemma has_holds s r ng v : has s r ng v -> (ng = true -> 0 < v) -> holds s r (signed ng v).
Proof. intros (ws & Hs & <-) Hc. by exists ng, ws. Qed.
Lemma set_width_0 s r ng :
  (exists l, shows s r ng l) -> wp (bn_set_width r 0) (fun _ s' => others r s s' /\ shows s' r ng []) (fun _ => False) s.
Proof.
  intros (l & Hs). pose proof (zlen_nonneg l). wp_call cut_words; [exact Hs|lia| |done]. intros [] s' [Ho Hs']. by rewrite ztake_0 in Hs'.
Qed.
Lemma signed_room s r ng k : roomy s r k -> (exists l, shows s r ng l) -> exists n d, bn_is s r n d /\ neg n = ng /\ k <= dmax n.
Proof.
  intros (n & d & Hbn & Hk) (l & n' & d' & (Hn' & _) & Hng & _). exists n, d. split_and!; [done| |done]. destruct Hbn as (Hn & _). congruence.
Qed.

Lemma BN_bin2bn_spec r inp len l ng s :
  input_is inp len l -> roomy s r 0 -> (exists l, shows s r ng l) ->
  wp (BN_bin2bn inp len (Some r)) (fun x s' => x = r /\ others r s s' /\ has s' r (ng && (len =? 0)) (be_val l)) (stunted r ((len - 1) / 8 + 1) s) s.
Proof.
  intros Hin Hr Hng. pose proof (input_len _ _ _ Hin) as Hz. unfold BN_bin2bn. apply wp_bind, wp_ret. destruct (Z.eqb_spec len 0) as [E|E].
  { apply wp_bind. wp_call set_width_0; [exact Hng| |done]. intros [] s' [Ho Hs']. apply wp_ret. split_and!; [done|done|]. rewrite andb_true_r. exists [].
    rewrite E in Hz. apply zlen_0 in Hz as ->. by split. }
  rewrite andb_false_r. pose proof (zlen_nonneg l). change BN_BYTES with 8. set (N := (len - 1) / 8 + 1). assert (HN : 1 <= N) by (unfold N; dlia).
  apply wp_bind. wp_call bn_wexpand_spec; [exact Hr|lia| |].
  2: { intros s' (H1 & H2 & H3). eapply stunted_same; [exact Hr|done|done|exact H3|lia]. }
  intros [] s1 (Ho1 & Hsh1 & Hr1). destruct (signed_room s1 r ng N Hr1) as (n & d & Hbn & Hngn & Hroom); [destruct Hng as [lr Hlr]; exists lr; by apply Hsh1|].
  pose proof Hbn as (Hn & Hd & (H1 & H2 & H3 & H4)). destruct (bn_is_lt _ _ _ _ Hbn) as [Hlt _]. unfold max_words in H3.
  apply wp_bind, wp_assert; [apply Z.leb_le; unfold INT_MAX; lia|]. apply wp_bind. eapply wp_set_width; [exact Hn|].
  apply wp_bind. eapply wp_set_neg; [by apply list_lookup_insert_eq|]. cbn [nums arrays bn_heap width dmax flags]. rewrite list_insert_insert_eq.
  apply wp_bind. rewrite <- Hz. wp_call (bin2bn_loop r s1 (<[r:=mkBN N (dmax n) false (flags n)]> (nums s1)) (bn_heap s1) inp l N);
    [by rewrite Hz|lia|by rewrite Hz|apply roomy_writable; [done|lia]| |done].
  intros x s2 (ws & -> & Hzw & Hdw & Hv). apply wp_ret.
  destruct (written s1 r n d ws (mkBN N (dmax n) false (flags n)) (bn_heap s1)) as (Hs2 & Ho2 & _); [done|done|lia|by rewrite Hzw|done|].
  split_and!; [done|by eapply others_trans|]. by exists ws.
Qed.

(** ** Little-endian *)

Lemma val_to_cells N l : bytes l -> zlen l = 8 * Z.of_nat N -> val (to_cells_n N l) = le_val l.
Proof.
  revert l. induction N as [|N IH]; intros l Hb Hz; cbn [to_cells_n].
  - assert (zlen l = 0) as E by lia. by apply zlen_0 in E as ->.
  - unfold sizeof_cell. rewrite val_cons, IH by (auto using bytes_zdrop; rewrite zlen_zdrop; lia). rewrite <- (ztake_zdrop 8 l) at 3.
    rewrite le_val_app, zlen_ztake by lia. done.
Qed.
Lemma le_val_zeros n : le_val (zrep n 0) = 0.
Proof. unfold zrep. induction (Z.to_nat n) as [|k IH]; [done|]. cbn [replicate]. by rewrite le_val_cons, IH. Qed.
Lemma of_cells_app a b : of_cells (a ++ b) = of_cells a ++ of_cells b.
Proof. apply flat_map_app. Qed.

(** Bytes over the words of a number, the last of which is zero and begins below their end. *)
Lemma bytes_over D l :
  digits D -> bytes l -> 8 * zlen D < zlen l <= 8 * zlen D + 8 ->
  exists X, zput (of_cells (D ++ [0])) 0 l = Some X /\ zlen (to_cells X) = zlen D + 1 /\ digits (to_cells X) /\ val (to_cells X) = le_val l.
Proof.
  intros HD Hb Hz. set (C := of_cells (D ++ [0])). assert (HzC : zlen C = 8 * (zlen D + 1)) by (unfold C; rewrite zlen_of_cells, zlen_snoc; lia).
  exists (l ++ zdrop (zlen l) C). pose proof (zlen_nonneg l). split; [by rewrite zput_Some by lia|]. set (X := l ++ zdrop (zlen l) C).
  assert (HzX : zlen X = 8 * (zlen D + 1)) by (unfold X; rewrite zlen_app, zlen_zdrop; lia).
  assert (HbX : bytes X) by (apply bytes_app; split; [done|apply bytes_zdrop, bytes_of_cells]).
  assert (HzN : zlen X / 8 = zlen D + 1) by (rewrite HzX, Z.mul_comm; apply Z.div_mul; lia). split_and!; [by rewrite zlen_to_cells|by apply digits_to_cells|].
  unfold to_cells, sizeof_cell. rewrite HzN. pose proof (zlen_nonneg D). rewrite val_to_cells by (done || lia). unfold X. rewrite le_val_app.
  assert (Hzero : le_val (zdrop (zlen l) C) = 0); [|lia]. unfold C. rewrite of_cells_app. change (of_cells [0]) with (zrep 8 0).
  rewrite zdrop_app_ge by (rewrite zlen_of_cells; lia). rewrite zlen_of_cells. unfold zdrop, zrep. rewrite drop_replicate.
  pose proof (le_val_zeros (Z.of_nat (Z.to_nat 8 - Z.to_nat (zlen l - 8 * zlen D)))) as Hzz. unfold zrep in Hzz. by rewrite Nat2Z.id in Hzz.
Qed.

Lemma BN_le2bn_spec r inp len l ng s :
  input_is inp len l -> roomy s r 0 -> (exists l, shows s r ng l) ->
  wp (BN_le2bn inp len (Some r)) (fun x s' => x = r /\ others r s s' /\ has s' r (ng && negb (len =? 0)) (le_val l)) (stunted r ((len - 1) / 8 + 1) s) s.
Proof.
  intros Hin Hr Hng. pose proof (input_len _ _ _ Hin) as Hz. unfold BN_le2bn. apply wp_bind, wp_ret. destruct (Z.eqb_spec len 0) as [E|E]; cbn [negb].
  { apply wp_bind. wp_call set_width_0; [exact Hng| |done]. intros [] s1 [Ho1 Hs1]. apply wp_bind. wp_call bn_set_neg_spec; [exact Hs1| |done].
    intros [] s2 [Hs2 Ho2]. apply wp_ret. split_and!; [done|by eapply others_trans|]. rewrite andb_false_r. exists []. rewrite E in Hz. apply zlen_0 in Hz as ->. by split. }
  rewrite andb_true_r. pose proof (zlen_nonneg l). change BN_BYTES with 8. set (N := (len - 1) / 8 + 1). assert (HN : 1 <= N) by (unfold N; dlia).
  apply wp_bind. wp_call bn_wexpand_spec; [exact Hr|lia| |].
  2: { intros s' (H1 & H2 & H3). eapply stunted_same; [exact Hr|done|done|exact H3|lia]. }
  intros [] s1 (Ho1 & Hsh1 & Hr1). destruct (signed_room s1 r ng N Hr1) as (n & d & Hbn & Hngn & Hroom); [destruct Hng as [lr Hlr]; exists lr; by apply Hsh1|].
  pose proof Hbn as (Hn & Hd & (H1 & H2 & H3 & H4)). apply wp_bind. eapply wp_set_width; [exact Hn|].
  (* the words that are there *)
  destruct (exists_last (l := ztake N d)) as (D & x & ED). { intros E0. apply (f_equal zlen) in E0. rewrite zlen_ztake in E0 by lia. change (zlen (@nil Z)) with 0 in E0. lia. }
  assert (HzD : zlen D = N - 1) by (apply (f_equal zlen) in ED; rewrite zlen_ztake, zlen_snoc in ED by lia; lia).
  assert (HdD : digits D) by (pose proof (digits_ztake N d H4) as Ht; rewrite ED in Ht; by apply digits_app in Ht as [Ht _]).
  assert (Hself : wput (arrays s1) (bn_d r) (D ++ [x] ++ []) = arrays s1).
  { rewrite app_nil_r, <- ED, (wput_is _ _ _ _ Hd), zlen_ztake, ztake_zdrop by lia. by apply list_insert_id. }
  assert (Hfit : forall k, 0 <= k <= N -> writable (arrays s1) (bn_d r) k) by (intros; apply roomy_writable; [exists n, d; split; [done|lia]|lia]).
  apply wp_bind, wp_on_words. cbn [arrays nums bn_heap]. wp_call wr_spec; [apply (writable_sub _ _ N); [apply Hfit; lia|lia..]| |done]. intros [] m1 ->.
  rewrite <- Hself, <- HzD, (wput_over _ _ D [x] [] [0]), app_nil_r by (done || (apply Hfit; change (zlen [x]) with 1; change (zlen (@nil Z)) with 0; lia)).
  apply wp_bind. eapply wp_deref; [apply Hin|]. apply wp_bind, wp_on_words. cbn [arrays nums bn_heap].
  assert (HzD0 : zlen (D ++ [0]) = N) by (rewrite zlen_snoc; lia).
  assert (Hat : at_ (wput (arrays s1) (bn_d r) (D ++ [0])) (bn_d r) (D ++ [0])) by (apply wput_at, Hfit; lia).
  apply wp_bind. rewrite <- HzD0 at 1. wp_call wread_spec; [exact Hat| |done]. intros ? ? [-> ->].
  destruct (bytes_over D l HdD) as (X & HX & HzX & HdX & HvX); [apply Hin|rewrite Hz, HzD; unfold N; dlia|]. apply wp_bind. eapply wp_deref; [exact HX|].
  wp_call wwrite_spec; [apply wput_writable; apply Hfit; lia| |done]. intros [] m2 ->. apply wp_ret.
  pose proof (wput_over (arrays s1) (bn_d r) [] (D ++ [0]) [] (to_cells X)) as Hov. rewrite !app_nil_r in Hov. cbn [app] in Hov. change (zlen (@nil Z)) with 0 in Hov.
  rewrite wadd_0 in Hov. rewrite Hov by (try apply Hfit; lia).
  destruct (written s1 r n d (to_cells X) (mkBN N (dmax n) (neg n) (flags n)) (bn_heap s1)) as (Hs2 & Ho2 & _); [done|done|lia|cbn; lia|done|].
  split_and!; [done|by eapply others_trans|]. exists (to_cells X). cbn [neg] in Hs2. rewrite <- Hngn. by split.
Qed.

(** * To bytes *)

Lemma put_at_next (out : list Z) n bs b : room out 0 n -> zlen bs < n -> zset (put_at out 0 bs) (zlen bs) b = Some (put_at out 0 (bs ++ [b])).
Proof.
  intros (_ & Hn & Hr) Hlt. pose proof (zlen_nonneg bs). rewrite zset_put_at.
  - f_equal. rewrite <- (Z.add_0_l (zlen bs)). apply put_at_app. unfold room. change (zlen [b]) with 1. lia.
  - apply room_put_at; unfold room; lia.
Qed.

(** In front of what was stored. *)
Lemma put_at_front (out : list Z) p b bs : 0 <= p -> room out p (1 + zlen bs) -> put_at (put_at out (p + 1) bs) p [b] = put_at out p (b :: bs).
Proof.
  intros Hp (_ & _ & Hr). pose proof (zlen_nonneg bs). unfold put_at. rewrite (zlen_cons b bs). change (zlen [b]) with 1.
  assert (Hz : zlen (ztake (p + 1) out) = p + 1) by (apply zlen_ztake; lia). rewrite ztake_app_le, ztake_ztake by lia. rewrite (zdrop_app (p + 1)) by done.
  cbn [app]. by replace (p + (1 + zlen bs)) with (p + 1 + zlen bs) by lia.
Qed.
Lemma put_at_before (out : list Z) p a bs : zlen a = p -> room out 0 (p + zlen bs) -> put_at (put_at out p bs) 0 a = put_at out 0 (a ++ bs).
Proof.
  intros <- (_ & _ & Hr). pose proof (zlen_nonneg bs). pose proof (zlen_nonneg a). unfold put_at. rewrite zlen_app, !ztake_0, !Z.add_0_l. cbn [app].
  rewrite zdrop_app by (rewrite zlen_ztake; lia). by rewrite <- app_assoc.
Qed.
Lemma rev_zrep n (x : Z) : rev (zrep n x) = zrep n x.
Proof. rewrite rev_alt. apply reverse_replicate. Qed.

Lemma BN_bn2bin_spec x ng l out s :
  let n := (bit_length (val l) + 7) / 8 in
  shows s x ng l -> room out 0 n ->
  wp (BN_bn2bin x out) (fun r s' => s' = s /\ r = (put_at out 0 (be (Z.to_nat n) (val l)), n)) (fun _ => False) s.
Proof.
  intros n Hs Hroom. unfold BN_bn2bin. destruct (shows_digits _ _ _ _ Hs) as [Hd Hmax]. pose proof (val_range l Hd). pose proof (bit_length_range _ _ Hd (Z.le_refl _)) as Hbl.
  assert (Hn : 0 <= n <= 8 * zlen l) by (unfold n; dlia). apply wp_bind. wp_call BN_num_bytes_spec; [exact Hs| |done]. intros ? ? [-> ->]. fold n.
  apply wp_bind. apply (wp_for (fun k o s' => s' = s /\ o = put_at out 0 (be (Z.to_nat k) (val l / 256 ^ (n - k))))).
  - split; [done|]. symmetry. by apply (put_at_nil out 0).
  - intros k o s' Hk [-> ->]. change BN_BYTES with 8. set (i := n - 1 - k). destruct (zget_lt l (i / 8)) as [w Hw]; [unfold i; dlia|].
    apply wp_bind. eapply wp_rd_word; [by eapply shows_at|exact Hw|]. rewrite (val_byte l i w Hd) by (done || (unfold i; lia)).
    eapply wp_deref; [|split; [done|reflexivity]]. replace k with (zlen (be (Z.to_nat k) (val l / 256 ^ (n - k)))) at 3 by (rewrite zlen_be; lia).
    rewrite (put_at_next out n) by (done || (rewrite zlen_be; lia)). f_equal. f_equal.
    replace (Z.to_nat (k + 1)) with (S (Z.to_nat k)) by lia. cbn [be]. replace (n - (k + 1)) with i by (unfold i; lia). f_equal. f_equal.
    replace (n - k) with (i + 1) by (unfold i; lia). rewrite Z.pow_add_r, Z.div_div by (try apply Z.pow_nonzero; try apply Z.pow_pos_nonneg; unfold i; lia). done.
  - intros o s' [-> ->]. apply wp_ret. split; [done|]. replace (0 + Z.of_nat (Z.to_nat n)) with n by lia. by rewrite Z.sub_diag, Z.div_1_r.
Qed.

(** The bytes from [len] on are all zero exactly when the number fits in [len] bytes. *)
Lemma fits_in_bytes_spec bs len s :
  bytes bs -> 0 <= len <= zlen bs -> wp (fits_in_bytes bs (zlen bs) len) (fun b s' => s' = s /\ b = (le_val bs <? 256 ^ len)) (fun _ => False) s.
Proof.
  intros Hb Hlen. unfold fits_in_bytes. apply wp_bind.
  apply (wp_for (fun i mask s' => s' = s /\ is_byte mask /\ (mask = 0 <-> le_val (ztake (i - len) (zdrop len bs)) = 0))).
  - rewrite Z.sub_diag, ztake_0. split_and!; [done|done|done].
  - intros i mask s' Hi (-> & Hm & Hiff). destruct (zget_lt bs i) as [b Hget]; [lia|]. apply wp_bind. eapply wp_deref; [exact Hget|]. apply wp_ret.
    pose proof (bytes_zget _ _ _ Hb Hget) as Hbb.
    assert (Hnx : zget (zdrop len bs) (i - len) = Some b). { rewrite <- (ztake_zdrop len bs), zget_app_r in Hget by (rewrite zlen_ztake; lia). by rewrite zlen_ztake in Hget by lia. }
    assert (Hlor : is_byte (Z.lor mask b)).
    { unfold is_byte in *. split; [apply Z.lor_nonneg; lia|]. destruct (Z.eq_dec (Z.lor mask b) 0) as [->|Hne]; [lia|]. change 256 with (2 ^ 8).
      assert (0 <= Z.lor mask b) by (apply Z.lor_nonneg; lia). apply Z.log2_lt_pow2; [lia|]. rewrite Z.log2_lor by lia.
      assert (forall z, 0 <= z < 256 -> Z.log2 z < 8) as Hl by (intros z Hz; destruct (Z.eq_dec z 0) as [->|]; [done|apply Z.log2_lt_pow2; lia]).
      specialize (Hl mask Hm) as H1. specialize (Hl b Hbb) as H2. lia. }
    split_and!; [done|done|]. replace (i + 1 - len) with (i - len + 1) by lia. rewrite (ztake_next _ _ _ Hnx), le_val_app, Z.lor_eq_0_iff, Hiff.
    pose proof (le_val_bound (ztake (i - len) (zdrop len bs)) ltac:(auto using bytes_ztake, bytes_zdrop)). unfold le_val at 3. cbn. unfold is_byte in Hbb.
    assert (0 < 256 ^ zlen (ztake (i - len) (zdrop len bs))) by (apply Z.pow_pos_nonneg; [lia|apply zlen_nonneg]). unfold be_step. nia.
  - intros mask s' (-> & Hm & Hiff). apply wp_ret. split; [done|]. replace (len + Z.of_nat (Z.to_nat (zlen bs - len)) - len) with (zlen (zdrop len bs)) in Hiff by (rewrite zlen_zdrop; lia).
    rewrite ztake_all in Hiff. rewrite <- (ztake_zdrop len bs), le_val_app, zlen_ztake by lia. apply eq_true_iff_eq. rewrite Z.eqb_eq, Z.ltb_lt, Hiff.
    pose proof (le_val_bound (ztake len bs) ltac:(by apply bytes_ztake)) as Hl. rewrite zlen_ztake in Hl by lia. pose proof (le_val_bound (zdrop len bs) ltac:(by apply bytes_zdrop)).
    assert (0 < 256 ^ len) by (apply Z.pow_pos_nonneg; lia). nia.
Qed.

Lemma padded_bytes_spec len x ng l s :
  shows s x ng l -> 0 <= len ->
  wp (padded_bytes len x)
    (fun r s' => s' = s /\ val l < 256 ^ len /\ exists k, r = (of_cells l, k) /\ 0 <= k <= len /\ k <= zlen (of_cells l) /\ val l < 256 ^ k)
    (fun s' => s' = s /\ 256 ^ len <= val l) s.
Proof.
  intros Hs Hlen. unfold padded_bytes. destruct (shows_get _ _ _ _ Hs) as (n & Hn & _ & Hw). destruct (shows_digits _ _ _ _ Hs) as [Hd _]. pose proof (val_range l Hd).
  apply wp_bind. eapply wp_bn_get; [exact Hn|]. rewrite Hw. apply wp_bind, wp_on_words. wp_call wread_spec; [by eapply shows_at| |done]. intros ? ? [-> ->]. rewrite eta_store.
  change BN_BYTES with 8. pose proof (zlen_of_cells l) as Hz. pose proof (zlen_nonneg l). destruct (Z.ltb_spec len (zlen l * 8)) as [Hlt|Hge].
  - apply wp_bind. replace (zlen l * 8) with (zlen (of_cells l)) by lia. wp_call fits_in_bytes_spec; [apply bytes_of_cells|lia| |done]. intros b ? [-> ->].
    rewrite le_val_of_cells by done. destruct (Z.ltb_spec (val l) (256 ^ len)); cbn [negb].
    + apply wp_ret. split_and!; [done|done|]. exists len. split_and!; done || lia.
    + by apply wp_fail.
  - apply wp_ret. assert (val l < 256 ^ (8 * zlen l)) by (rewrite base256 by lia; lia). split_and!; [done| |exists (zlen l * 8); split_and!; try lia; [done|by rewrite Z.mul_comm]].
    apply Z.lt_le_trans with (256 ^ (8 * zlen l)); [done|]. apply Z.pow_le_mono_r; lia.
Qed.

(** The low bytes of a number, and zeros above them. *)
Lemma low_bytes l k : digits l -> 0 <= k <= zlen (of_cells l) -> rev (ztake k (of_cells l)) = be (Z.to_nat k) (val l).
Proof.
  intros Hd Hk. set (C := of_cells l) in *. assert (HbC : bytes C) by apply bytes_of_cells. rewrite bytes_are_be by (by apply bytes_ztake).
  assert (length (ztake k C) = Z.to_nat k) as -> by (unfold ztake; rewrite length_take; unfold zlen in Hk; lia).
  pose proof (le_val_bound _ (bytes_ztake k C HbC)) as Hb. rewrite zlen_ztake in Hb by lia. pose proof (val_range l Hd).
  rewrite (be_mod _ (val l)) by lia. f_equal. rewrite <- (le_val_of_cells l Hd). fold C. rewrite Z2Nat.id by lia. rewrite <- (ztake_zdrop k C) at 2.
  rewrite le_val_app, zlen_ztake by lia. rewrite (Z.mul_comm (256 ^ k)), Z.mod_add by (apply Z.pow_nonzero; lia). by rewrite Z.mod_small.
Qed.
Lemma be_pad k n v : 0 <= v < 256 ^ Z.of_nat k -> be (n + k) v = zrep (Z.of_nat n) 0 ++ be k v.
Proof. intros Hv. rewrite be_app by lia. rewrite Z.div_small by lia. by rewrite be_zero. Qed.

Lemma BN_bn2le_padded_spec out len x ng l s :
  shows s x ng l -> room out 0 len ->
  wp (BN_bn2le_padded out len x) (fun o s' => s' = s /\ val l < 256 ^ len /\ o = put_at out 0 (rev (be (Z.to_nat len) (val l)))) (fun s' => s' = s /\ 256 ^ len <= val l) s.
Proof.
  intros Hs (_ & Hlen & Hroom). unfold BN_bn2le_padded. destruct (shows_digits _ _ _ _ Hs) as [Hd _]. pose proof (val_range l Hd). apply wp_bind.
  wp_call padded_bytes_spec; [exact Hs|done| |done]. intros r ? (-> & Hv & k & -> & Hk & Hkz & Hvk).
  apply wp_bind. eapply wp_deref. { unfold ptr_read. cbn. rewrite (proj2 (Z.leb_le 0 k)), (proj2 (Z.leb_le k _)) by lia. done. }
  assert (Hzk : zlen (ztake k (of_cells l)) = k) by (apply zlen_ztake; lia).
  apply wp_bind. eapply wp_deref; [apply zput_put_at; unfold room; lia|]. assert (Hzr : zlen (zrep (len - k) 0) = len - k) by (apply zlen_zrep; lia).
  eapply wp_deref; [apply zput_put_at, room_put_at; unfold room; lia|]. split_and!; [done|done|].
  pose proof (put_at_app out 0 (ztake k (of_cells l)) (zrep (len - k) 0)) as Hp. rewrite Hzk in Hp. rewrite Z.add_0_l in Hp. rewrite Hp by (unfold room; lia). f_equal.
  replace (Z.to_nat len) with (Z.to_nat (len - k) + Z.to_nat k)%nat by lia. rewrite be_pad by (rewrite Z2Nat.id by lia; lia).
  rewrite rev_app_distr, <- low_bytes by (done || lia). rewrite rev_involutive, Z2Nat.id by lia. f_equal. symmetry. apply rev_zrep.
Qed.

Lemma BN_bn2bin_padded_spec out len x ng l s :
  shows s x ng l -> room out 0 len ->
  wp (BN_bn2bin_padded out len x) (fun o s' => s' = s /\ val l < 256 ^ len /\ o = put_at out 0 (be (Z.to_nat len) (val l))) (fun s' => s' = s /\ 256 ^ len <= val l) s.
Proof.
  intros Hs (_ & Hlen & Hroom). unfold BN_bn2bin_padded. destruct (shows_digits _ _ _ _ Hs) as [Hd _]. pose proof (val_range l Hd). apply wp_bind.
  wp_call padded_bytes_spec; [exact Hs|done| |done]. intros r ? (-> & Hv & k & -> & Hk & Hkz & Hvk). apply wp_bind.
  apply (wp_for (fun i o s' => s' = s /\ o = put_at out (len - i) (be (Z.to_nat i) (val l)))).
  - split; [done|]. symmetry. apply (put_at_nil out (len - 0)). lia.
  - intros i o ? Hi [-> ->]. set (C := of_cells l) in *. destruct (zget_lt C i) as [b Hget]; [lia|]. apply wp_bind. eapply wp_deref; [exact Hget|].
    assert (Hb : b = (val l / 256 ^ i) mod 256).
    { pose proof (low_bytes l (i + 1) Hd ltac:(fold C; lia)) as Hlow. fold C in Hlow. rewrite (ztake_next _ _ _ Hget), rev_app_distr in Hlow. cbn [rev app] in Hlow.
      replace (Z.to_nat (i + 1)) with (S (Z.to_nat i)) in Hlow by lia. rewrite be_cons, Z2Nat.id in Hlow by lia. by injection Hlow as -> _. }
    assert (Hzi : zlen (be (Z.to_nat i) (val l)) = i) by (rewrite zlen_be; lia).
    eapply wp_deref; [apply zset_put_at, room_put_at; unfold room; change (zlen [b]) with 1 || idtac; lia|]. split; [done|].
    replace (Z.to_nat (i + 1)) with (S (Z.to_nat i)) by lia. rewrite be_cons, Z2Nat.id, <- Hb by lia.
    replace (len - i - 1) with (len - (i + 1)) by lia. replace (len - i) with (len - (i + 1) + 1) by lia. apply put_at_front; [lia|]. rewrite Hzi. unfold room. lia.
  - intros o ? [-> ->]. replace (0 + Z.of_nat (Z.to_nat k)) with k by lia. assert (Hzk : zlen (be (Z.to_nat k) (val l)) = k) by (rewrite zlen_be; lia).
    assert (Hzr : zlen (zrep (len - k) 0) = len - k) by (apply zlen_zrep; lia).
    eapply wp_deref; [apply zput_put_at, room_put_at; unfold room; lia|]. split_and!; [done|done|].
    replace (Z.to_nat len) with (Z.to_nat (len - k) + Z.to_nat k)%nat by lia. rewrite be_pad by (rewrite Z2Nat.id by lia; lia). rewrite Z2Nat.id by lia.
    apply put_at_before; [lia|]. unfold room. lia.
Qed.

Lemma BN_get_u64_spec x u s : holds s x u -> wp (BN_get_u64 x) (fun w s' => s' = s /\ w = Z.abs u /\ word w) (fun s' => s' = s /\ BASE <= Z.abs u) s.
Proof.
  intros Hx. destruct (holds_sign _ _ _ Hx) as (l & Hs & <-). unfold BN_get_u64. apply wp_bind. wp_call bn_minimal_width_spec; [exact Hs| |done]. intros w ? [-> ->].
  destruct (shows_digits _ _ _ _ Hs) as [Hd _]. destruct (shows_shrink _ _ _ _ Hs) as [Hat _].
  destruct (shrink_cases l Hd) as [[-> ->]|(l' & t & -> & Hd' & Hw & Hpos & Hv & Hget & _ & Hlen)]; [by apply wp_ret|].
  rewrite zlen_snoc, Hv, val_snoc. pose proof (zlen_nonneg l'). pose proof (val_range l' Hd'). rewrite (proj2 (Z.eqb_neq _ 0)) by lia. destruct (Z.eqb_spec (zlen l' + 1) 1) as [E|E].
  - assert (zlen l' = 0) as E0 by lia. rewrite E0 in *. apply zlen_0 in E0 as ->. eapply wp_rd_word; [by eapply shows_at|exact Hget|]. change (val []) with 0. change (BASE ^ 0) with 1. split_and!; [done|lia|done].
  - apply wp_fail. split; [done|]. assert (BASE ^ 1 <= BASE ^ zlen l') by (apply Z.pow_le_mono_r; lia). change (BASE ^ 1) with BASE in *. nia.
Qed.
End Numbers.
