(* ===== verification/BnSpec.v ===== *)
(** The contract of [Bn]: integers under names. A program of operations on the store
    computes what the same program computes on integers. *)
From S2P Require Import Prelude Mem Ct BnWords BnWordsFacts CtFacts Bn BnFacts BnCmp BnAddFacts BnArith BnOneWord BnTests BnShift BnShiftFacts BnRshiftFacts BnBitsFacts.

(** The operations that set a number, [r] being its name. *)
Inductive bn_op : Type :=
| OpZero (r : nat)
| OpSetWord (r : nat) (w : Z)
| OpCopy (r a : nat)
| OpAdd (r a b : nat)
| OpSub (r a b : nat)
| OpAddWord (r : nat) (w : Z)
| OpSubWord (r : nat) (w : Z)
| OpMulWord (r : nat) (w : Z)
| OpLshift (r a : nat) (n : Z)
| OpLshift1 (r a : nat)
| OpRshift (r a : nat) (n : Z)
| OpRshift1 (r a : nat)
| OpSetBit (r : nat) (n : Z).

Definition op_target (o : bn_op) : nat :=
  match o with
  | OpZero r | OpSetWord r _ | OpCopy r _ | OpAdd r _ _ | OpSub r _ _ | OpAddWord r _ | OpSubWord r _ | OpMulWord r _ | OpLshift r _ _ | OpLshift1 r _
  | OpRshift r _ _ | OpRshift1 r _ | OpSetBit r _ => r
  end.
(** Its names are among [k], its word is one, its shift a natural number of bits. *)
Definition op_ok (k : nat) (o : bn_op) : Prop :=
  match o with
  | OpZero r => (r < k)%nat
  | OpCopy r a | OpLshift1 r a | OpRshift1 r a => (r < k)%nat /\ (a < k)%nat
  | OpAdd r a b | OpSub r a b => (r < k)%nat /\ (a < k)%nat /\ (b < k)%nat
  | OpSetWord r w | OpAddWord r w | OpSubWord r w | OpMulWord r w => (r < k)%nat /\ word w
  | OpLshift r a n | OpRshift r a n => (r < k)%nat /\ (a < k)%nat /\ 0 <= n
  | OpSetBit r n => (r < k)%nat /\ 0 <= n
  end.

(** The words it may need for its result. *)
Definition op_need (s : bn_store) (o : bn_op) : Z :=
  match o with
  | OpZero _ => 0
  | OpSetWord _ _ => 1
  | OpCopy _ a | OpRshift _ a _ | OpRshift1 _ a => words_of s a
  | OpAdd _ a b | OpSub _ a b => Z.max (words_of s a) (words_of s b) + 1
  | OpAddWord r _ | OpSubWord r _ | OpMulWord r _ => words_of s r + 1
  | OpLshift _ a n => words_of s a + n / 64 + 1
  | OpLshift1 _ a => words_of s a + 1
  | OpSetBit _ n => n / 64 + 1
  end.

(** On integers. *)
Definition eval_op (f : list Z) (o : bn_op) : list Z :=
  match o with
  | OpZero r => <[r := 0]> f
  | OpSetWord r w => <[r := w]> f
  | OpCopy r a => <[r := f !!! a]> f
  | OpAdd r a b => <[r := f !!! a + f !!! b]> f
  | OpSub r a b => <[r := f !!! a - f !!! b]> f
  | OpAddWord r w => <[r := f !!! r + w]> f
  | OpSubWord r w => <[r := f !!! r - w]> f
  | OpMulWord r w => <[r := f !!! r * w]> f
  | OpLshift r a n => <[r := f !!! a * 2 ^ n]> f
  | OpLshift1 r a => <[r := 2 * f !!! a]> f
  | OpRshift r a n => <[r := Z.quot (f !!! a) (2 ^ n)]> f
  | OpRshift1 r a => <[r := Z.quot (f !!! a) 2]> f
  | OpSetBit r n => <[r := signed (f !!! r <? 0) (Z.lor (Z.abs (f !!! r)) (2 ^ n))]> f
  end.
Definition eval_ops (ops : list bn_op) (f : list Z) : list Z := foldl eval_op f ops.

Section Run.
Context `{alloc : Allocator}.

(** On the store. *)
Definition run_op (o : bn_op) : M bn_store unit :=
  match o with
  | OpZero r => BN_zero r
  | OpSetWord r w => BN_set_word r w
  | OpCopy r a => BN_copy r a
  | OpAdd r a b => BN_add r a b
  | OpSub r a b => BN_sub r a b
  | OpAddWord r w => BN_add_word r w
  | OpSubWord r w => BN_sub_word r w
  | OpMulWord r w => BN_mul_word r w
  | OpLshift r a n => BN_lshift r a n
  | OpLshift1 r a => BN_lshift1 r a
  | OpRshift r a n => BN_rshift r a n
  | OpRshift1 r a => BN_rshift1 r a
  | OpSetBit r n => BN_set_bit r n
  end.
Fixpoint run_ops (ops : list bn_op) : M bn_store unit :=
  match ops with [] => mret tt | o :: ops => run_op o;; run_ops ops end.

(** The store stands for the integers [f]. *)
Definition denotes (s : bn_store) (f : list Z) : Prop :=
  length (nums s) = length f /\ forall x z, f !! x = Some z -> holds s x z.

Lemma denotes_get s f x : denotes s f -> (x < length f)%nat -> holds s x (f !!! x).
Proof.
  intros [_ H] [z Hz]%lookup_lt_is_Some. rewrite (list_lookup_total_correct _ _ _ Hz). by apply H.
Qed.
Lemma denotes_sets s s' f r z : denotes s f -> sets r z s s' -> denotes s' (<[r := z]> f).
Proof.
  intros [Hl H] [Ho Hr]. split; [rewrite length_insert; by destruct Ho as [-> _]|].
  intros x v Hx. destruct (decide (x = r)) as [->|Hne].
  - assert (v = z) as ->; [|done]. apply lookup_lt_Some in Hx as Hlt. rewrite length_insert in Hlt. rewrite list_lookup_insert_eq in Hx by done. congruence.
  - rewrite list_lookup_insert_ne in Hx by done. by eapply holds_others, H.
Qed.

Lemma run_op_denotes s f o :
  denotes s f -> op_ok (length f) o -> wp (run_op o) (fun _ s' => denotes s' (eval_op f o)) (stunted (op_target o) (op_need s o) s) s.
Proof.
  intros Hf Hok. assert (Hget : forall x, (x < length f)%nat -> holds s x (f !!! x)) by (intros; by apply denotes_get).
  assert (Hroom : forall x, (x < length f)%nat -> roomy s x 0) by (intros; eapply holds_roomy; by apply Hget).
  assert (Hend : forall r z k (m : M bn_store unit), wp m (fun _ => sets r z s) (stunted r k s) s -> wp m (fun _ s' => denotes s' (<[r := z]> f)) (stunted r k s) s).
  { intros r z k m Hm. wp_call Hm. 2: done. intros [] s' H. by apply (denotes_sets s). }
  destruct o; cbn [op_ok run_op op_target op_need eval_op] in *; destruct_and?; apply Hend.
  - destruct (Hget _ Hok) as (ng & l & Hs & _). wp_call BN_zero_spec; [exact Hs|done|done].
  - by apply BN_set_word_spec; auto.
  - by apply BN_copy_spec; auto.
  - by apply BN_add_spec; auto.
  - by apply BN_sub_spec; auto.
  - by apply BN_add_word_spec; auto.
  - by apply BN_sub_word_spec; auto.
  - by apply BN_mul_word_spec; auto.
  - by apply BN_lshift_spec; auto.
  - by apply BN_lshift1_spec; auto.
  - by apply BN_rshift_spec; auto.
  - by apply BN_rshift1_spec; auto.
  - by apply BN_set_bit_spec; auto.
Qed.

Lemma length_eval_op f o : length (eval_op f o) = length f.
Proof. destruct o; apply length_insert. Qed.

(** A program stops at its operation [o]: the numbers but the one [o] sets are those
    computed so far, and that one could not get the words it needed, which are few. *)
Definition stops (ops : list bn_op) (f : list Z) (s' : bn_store) : Prop :=
  exists done o rest, ops = done ++ o :: rest /\
    (forall x z, x <> op_target o -> eval_ops done f !! x = Some z -> holds s' x z) /\
    exists s1 k, denotes s1 (eval_ops done f) /\ k <= op_need s1 o /\ cannot_grow s1 (op_target o) k.

Lemma run_ops_denotes ops s f :
  denotes s f -> Forall (op_ok (length f)) ops -> wp (run_ops ops) (fun _ s' => denotes s' (eval_ops ops f)) (stops ops f) s.
Proof.
  revert s f. induction ops as [|o ops IH]; intros s f Hf Hok; cbn [run_ops]; [by apply wp_ret|]. apply Forall_cons in Hok as [Ho Hops].
  apply wp_bind. wp_call run_op_denotes; [exact Hf|exact Ho| |].
  - intros [] s1 Hs1. wp_call IH; [exact Hs1|by rewrite length_eval_op|done|].
    intros s' (dn & o' & rest & -> & H). exists (o :: dn), o', rest. by split.
  - intros s' (Hoth & _ & k & Hk & Hc). exists [], o, ops. split_and!; [done| |by exists s, k].
    intros x z Hx Hz. eapply holds_others; [exact Hoth|done|]. by apply Hf.
Qed.
End Run.
