(* ===== verification/BnThms.v ===== *)
(** What the arithmetic of crypto/fipsmodule/bn computes: the loops over words, the
    products and squares, the comparisons and tests, and programs of the operations
    on signed numbers. *)
From S2P Require Import Prelude Mem Ct BnWords BnWordsFacts BnMulFacts BnSqr CtFacts Bn BnFacts BnCmp BnAddFacts BnArith BnOneWord BnTests BnShift BnShiftFacts BnRshiftFacts BnBitsFacts BnSpec.

Section Thms.
Context `{alloc : Allocator}.

(** C5. Refinement: a store of BIGNUMs implements integers under names. Any program of BN_zero,
    BN_set_word, BN_copy, BN_add, BN_sub, BN_add_word, BN_sub_word, BN_mul_word, the shifts
    BN_lshift, BN_lshift1, BN_rshift, BN_rshift1 (towards zero) and BN_set_bit, whatever
    the numbers it names have in common, leaves the store denoting the integers that the
    program computes; zero is never negative. Its only failure is that the number an operation sets
    could not get the words it needed, which are no more than [op_need] counts from its operands;
    all the other numbers then have the values computed so far. *)
Theorem BN_programs_refine_integers ops s f :
  denotes s f -> Forall (op_ok (length f)) ops ->
  wp (run_ops ops) (fun _ s' => denotes s' (eval_ops ops f)) (stops ops f) s.
Proof. apply run_ops_denotes. Qed.

(** C33. The comparisons decide: BN_ucmp orders the absolute values, BN_cmp the numbers and
    BN_cmp_word a number and a word; BN_equal_consttime is true exactly of equal numbers.
    None of them changes the store, and none reads outside the words of the numbers. *)
Theorem BN_comparisons_decide a b u v w s :
  aligned s -> holds s a u -> holds s b v -> word w ->
  wp (BN_ucmp a b) (fun r s' => s' = s /\ r = cmp_sign (Z.abs u) (Z.abs v)) (fun _ => False) s /\
  wp (BN_cmp (Some a) (Some b)) (fun r s' => s' = s /\ r = cmp_sign u v) (fun _ => False) s /\
  wp (BN_cmp_word a w) (fun r s' => s' = s /\ r = cmp_sign u w) (fun _ => False) s /\
  wp (BN_equal_consttime a b) (fun r s' => s' = s /\ r = (u =? v)) (fun _ => False) s.
Proof.
  intros Hal Ha Hb Hw. split_and!; [| | by apply BN_cmp_word_spec|]; clear w Hw; destruct Ha as (na & la & Ha & Hca & ->), Hb as (nb & lb & Hb & Hcb & ->);
    pose proof (val_range la ltac:(by eapply shows_digits)); pose proof (val_range lb ltac:(by eapply shows_digits)).
  - assert (forall ng v, 0 <= v -> Z.abs (signed ng v) = v) as Habs by (intros [] v; cbn; lia). rewrite !Habs by lia. by eapply BN_ucmp_spec.
  - by eapply BN_cmp_spec.
  - wp_call BN_equal_consttime_spec; [exact Ha|exact Hb| |done]. intros r s' [-> ->]. split; [done|]. apply eq_true_iff_eq.
    rewrite andb_true_iff, eqb_true_iff, !Z.eqb_eq. unfold canonical in *. destruct na, nb; cbn [signed].
    + split; [lia|split; [done|lia]].
    + specialize (Hca eq_refl). split; [by intros []|lia].
    + specialize (Hcb eq_refl). split; [by intros []|lia].
    + split; [by intros []|done].
Qed.

(** The tests of one number: BN_is_zero, BN_is_one, BN_is_word, BN_is_odd and BN_is_pow2 say
    what they are named for, BN_num_bits is the position of the highest bit plus one (zero for
    zero) and BN_num_bytes that length in bytes; no 32-bit result wraps. *)
Theorem BN_tests_exact x v w s :
  holds s x v -> word w ->
  wp (BN_is_zero x) (fun r s' => s' = s /\ r = (v =? 0)) (fun _ => False) s /\
  wp (BN_is_one x) (fun r s' => s' = s /\ r = (v =? 1)) (fun _ => False) s /\
  wp (BN_is_word x w) (fun r s' => s' = s /\ r = (v =? w)) (fun _ => False) s /\
  wp (BN_is_odd x) (fun r s' => s' = s /\ r = Z.odd v) (fun _ => False) s /\
  wp (BN_is_pow2 x) (fun r s' => s' = s /\ (r = true <-> exists k, 0 <= k /\ v = 2 ^ k)) (fun _ => False) s /\
  wp (BN_num_bits x) (fun r s' => s' = s /\ r = bit_length (Z.abs v)) (fun _ => False) s /\
  wp (BN_num_bytes x) (fun r s' => s' = s /\ r = (bit_length (Z.abs v) + 7) / 8) (fun _ => False) s.
Proof.
  intros Hx Hw. assert (exists ng l, shows s x ng l /\ Z.abs v = val l /\ Z.odd v = Z.odd (val l)) as (ng & l & Hs & Habs & Hodd).
  { destruct Hx as (ng & l & Hs & _ & ->). exists ng, l. split; [done|]. pose proof (val_range l ltac:(by eapply shows_digits)).
    destruct ng; cbn [signed]; [|split; [lia|done]]. split; [lia|apply Z.odd_opp]. }
  rewrite Habs, Hodd. split_and!; eauto using BN_is_zero_holds, BN_is_one_spec, BN_is_word_spec, BN_is_odd_spec, BN_is_pow2_spec, BN_num_bits_spec, BN_num_bytes_spec.
Qed.

(** Bits and masks of the absolute value: BN_is_bit_set reads bit [n] (no for a negative [n]),
    BN_count_low_zero_bits is the position of the lowest bit set, or zero; BN_clear_bit clears
    bit [n] and BN_mask_bits leaves the remainder by the [n]-th power of two, both with the sign
    kept and zero never negative; these two fail, changing nothing, exactly when the number has
    no word for bit [n]. *)
Theorem BN_bits_exact a u n s :
  holds s a u -> 0 <= n ->
  wp (BN_is_bit_set a n) (fun b s' => s' = s /\ b = Z.testbit (Z.abs u) n) (fun _ => False) s /\
  wp (BN_is_bit_set a (- n - 1)) (fun b s' => s' = s /\ b = false) (fun _ => False) s /\
  wp (BN_count_low_zero_bits a) (fun k s' => s' = s /\ if u =? 0 then k = 0 else lowest_bit (Z.abs u) k) (fun _ => False) s /\
  wp (BN_clear_bit a n) (fun _ s' => spans s a n /\ sets a (signed (u <? 0) (Z.ldiff (Z.abs u) (2 ^ n))) s s') (fun s' => s' = s /\ ~ spans s a n) s /\
  wp (BN_mask_bits a n) (fun _ s' => spans s a n /\ sets a (Z.rem u (2 ^ n)) s s') (fun s' => s' = s /\ ~ spans s a n) s.
Proof.
  intros Hx Hn. split_and!; [| |by apply BN_count_low_zero_bits_spec|by apply BN_clear_bit_spec|by apply BN_mask_bits_spec].
  - wp_call BN_is_bit_set_spec; [exact Hx| |done]. intros b s' [-> ->]. by rewrite (proj2 (Z.leb_le 0 n)) by lia.
  - wp_call BN_is_bit_set_spec; [exact Hx| |done]. intros b s' [-> ->]. by rewrite (proj2 (Z.leb_gt 0 (- n - 1))) by lia.
Qed.
End Thms.

(** The loops of generic.c: whatever the width, including the unrolled part, the words at
    the result and the carry are the sum, the difference, and the product with a word (added
    to what was there), provided the result is not ahead of an operand inside it; the same
    array may be both. *)
Theorem bn_word_loops_exact m r a b la lb lr n w :
  at_ m a la -> at_ m b lb -> at_ m r lr -> digits la -> digits lb -> digits lr -> zlen la = n -> zlen lb = n -> zlen lr = n -> word w ->
  ahead r n a -> ahead r n b ->
  wp (bn_add_words r a b n) (result m r n 1 bit (val la + val lb)) (fun _ => False) m /\
  wp (bn_sub_words r a b n) (result m r n (-1) bit (val la - val lb)) (fun _ => False) m /\
  wp (bn_mul_words r a n w) (result m r n 1 word (w * val la)) (fun _ => False) m /\
  wp (bn_mul_add_words r a n w) (result m r n 1 word (w * val la + val lr)) (fun _ => False) m.
Proof.
  intros Ha Hb Hr Hda Hdb Hdr Hla Hlb Hlr Hw Hra Hrb. assert (writable m r n) by (rewrite <- Hlr; by apply at_writable).
  split_and!; [by eapply bn_add_words_spec|by eapply bn_sub_words_spec|by eapply bn_mul_words_spec|by eapply bn_mul_add_words_spec].
Qed.

(** C16. The products: the row-wise bn_mul_normal for any two widths (zero included), bn_mul_small,
    which fails exactly when the room given is not the sum of the widths, and the unrolled
    column-wise products of four and eight words all write the product of the numbers, and
    nothing else. *)
Theorem bn_products_exact m r a b la lb num :
  digits la -> digits lb -> at_ m a la -> at_ m b lb -> writable m r (zlen la + zlen lb) -> writable m r num ->
  apart r (zlen la + zlen lb) a (zlen la) -> apart r (zlen la + zlen lb) b (zlen lb) -> apart r num a (zlen la) -> apart r num b (zlen lb) ->
  wp (bn_mul_normal r a (zlen la) b (zlen lb)) (fun _ => product m r la lb) (fun _ => False) m /\
  wp (bn_mul_small r num a (zlen la) b (zlen lb)) (fun _ m' => num = zlen la + zlen lb /\ product m r la lb m')
    (fun m' => m' = m /\ num <> zlen la + zlen lb) m /\
  (zlen la = 4 -> zlen lb = 4 -> wp (bn_mul_comba4 r a b) (fun _ => product m r la lb) (fun _ => False) m) /\
  (zlen la = 8 -> zlen lb = 8 -> wp (bn_mul_comba8 r a b) (fun _ => product m r la lb) (fun _ => False) m).
Proof.
  intros Hda Hdb Ha Hb Hr Hn Hra Hrb Hna Hnb. split_and!.
  - by apply bn_mul_normal_spec.
  - by apply bn_mul_small_spec.
  - intros E1 E2. rewrite E1, E2 in *. wp_call (bn_mul_comba4_spec m r a b la lb); [done..| |done]. intros [] m' (ws & H). exists ws. by rewrite E1, E2.
  - intros E1 E2. rewrite E1, E2 in *. wp_call (bn_mul_comba8_spec m r a b la lb); [done..| |done]. intros [] m' (ws & H). exists ws. by rewrite E1, E2.
Qed.

(** C17. The squares are the products of a number with itself: bn_sqr_normal, with its scratch space,
    for any width but zero, and the unrolled ones of four and eight words, which do half
    of the multiplications. *)
Theorem bn_squares_are_products m r a tmp la :
  digits la -> 0 < zlen la -> at_ m a la -> writable m r (2 * zlen la) -> writable m tmp (2 * zlen la) ->
  apart r (2 * zlen la) a (zlen la) -> apart tmp (2 * zlen la) a (zlen la) -> apart r (2 * zlen la) tmp (2 * zlen la) ->
  wp (bn_sqr_normal r a (zlen la) tmp) (fun _ => sqr_done m r tmp la) (fun _ => False) m /\
  (zlen la = 4 -> wp (bn_sqr_comba4 r a) (fun _ => product m r la la) (fun _ => False) m) /\
  (zlen la = 8 -> wp (bn_sqr_comba8 r a) (fun _ => product m r la la) (fun _ => False) m).
Proof.
  intros Hda Hn Ha Hr Ht Hra Hta Hrt. split_and!.
  - wp_call (bn_sqr_normal_spec m r a tmp la); [done..| |done]. intros [] m' [[? _]|H]; [lia|done].
  - intros E. rewrite E in *. wp_call (bn_sqr_comba4_spec m r a la); [done..| |done]. intros [] m' (ws & H). exists ws. by rewrite E.
  - intros E. rewrite E in *. wp_call (bn_sqr_comba8_spec m r a la); [done..| |done]. intros [] m' (ws & H). exists ws. by rewrite E.
Qed.

(** The constant-time masks of crypto/internal.h, computed without a branch, are the comparisons:
    on all 64-bit words they are all ones or zero as the relation holds or not, and a selection
    with such a mask takes the first or the second value. *)
Theorem constant_time_masks_exact a b :
  word a -> word b ->
  constant_time_is_zero_w a = mask_of (a =? 0) /\
  constant_time_eq_w a b = mask_of (a =? b) /\
  constant_time_lt_w a b = mask_of (a <? b) /\
  constant_time_ge_w a b = mask_of (b <=? a) /\
  forall c, constant_time_select_w (mask_of c) a b = if c then a else b.
Proof.
  intros Ha Hb. split_and!; [by apply constant_time_is_zero_w_spec|by apply constant_time_eq_w_spec|by apply constant_time_lt_w_spec| |
    intros c; by apply constant_time_select_w_spec].
  unfold constant_time_ge_w. rewrite constant_time_lt_w_spec, Z.leb_antisym by done. by destruct (a <? b).
Qed.

(** * Witnesses *)

#[local] Existing Instance plenty.

(** The numbers -(2^64 - 1), 2^64 + 5 and 0, the first with a word to spare. *)
Definition ex_store : bn_store :=
  mkStore [mkBN 1 2 true BN_FLG_MALLOCED; mkBN 2 2 false BN_FLG_MALLOCED; mkBN 0 0 false BN_FLG_MALLOCED]
    [[2 ^ 64 - 1; 7]; [5; 1]; []] 0%nat.
Definition ex_ints : list Z := [- (2 ^ 64 - 1); 2 ^ 64 + 5; 0].
Lemma ex_store_shows x n d l :
  nums ex_store !! x = Some n -> arrays ex_store !! x = Some d -> well_formed n d -> width n = zlen l -> ztake (zlen l) d = l -> canonical (neg n) l ->
  holds ex_store x (signed (neg n) (val l)).
Proof. intros. exists (neg n), l. split; [|done]. by exists n, d. Qed.
Lemma ex_store_denotes : denotes ex_store ex_ints.
Proof.
  assert (Hwf : forall x n d, nums ex_store !! x = Some n -> arrays ex_store !! x = Some d -> well_formed n d).
  { intros [|[|[|x]]] n d Hn Hd; cbn in Hn, Hd; simplify_eq; unfold well_formed, max_words; cbn; split_and!; try lia; repeat constructor; lia. }
  split; [done|]. intros [|[|[|x]]] z Hz; cbn in Hz; simplify_eq.
  - apply (ex_store_shows 0 _ _ [2 ^ 64 - 1] eq_refl eq_refl); try done. by apply (Hwf 0%nat).
  - apply (ex_store_shows 1 _ _ [5; 1] eq_refl eq_refl); try done. by apply (Hwf 1%nat).
  - apply (ex_store_shows 2 _ _ [] eq_refl eq_refl); try done. by apply (Hwf 2%nat).
Qed.

Lemma BN_programs_refine_integers_witness :
  exists s', run_ops [OpAdd 2 0 1; OpMulWord 0 3; OpRshift 0 0 65; OpSubWord 2 7; OpLshift 1 2 130] ex_store = Ok tt s' /\
    denotes s' (eval_ops [OpAdd 2 0 1; OpMulWord 0 3; OpRshift 0 0 65; OpSubWord 2 7; OpLshift 1 2 130] ex_ints).
Proof.
  eexists. split; [vm_compute; reflexivity|].
  refine (wp_ok _ _ _ _ _ _ (BN_programs_refine_integers [OpAdd 2 0 1; OpMulWord 0 3; OpRshift 0 0 65; OpSubWord 2 7; OpLshift 1 2 130] ex_store ex_ints ex_store_denotes _) _);
    [|vm_compute; reflexivity]. repeat constructor; cbn; lia.
Defined.

Lemma BN_comparisons_decide_witness :
  wp (BN_cmp (Some 0%nat) (Some 1%nat)) (fun r s' => s' = ex_store /\ r = cmp_sign (- (2 ^ 64 - 1)) (2 ^ 64 + 5)) (fun _ => False) ex_store.
Proof.
  apply (BN_comparisons_decide 0%nat 1%nat (- (2 ^ 64 - 1)) (2 ^ 64 + 5) 0 ex_store eq_refl).
  - by apply (proj2 ex_store_denotes 0%nat).
  - by apply (proj2 ex_store_denotes 1%nat).
  - done.
Defined.

Lemma BN_tests_exact_witness :
  wp (BN_num_bits 1%nat) (fun r s' => s' = ex_store /\ r = bit_length (Z.abs (2 ^ 64 + 5))) (fun _ => False) ex_store.
Proof.
  apply (BN_tests_exact 1%nat (2 ^ 64 + 5) 0 ex_store); [by apply (proj2 ex_store_denotes 1%nat)|done].
Defined.

Lemma BN_bits_exact_witness :
  wp (BN_mask_bits 0%nat 3) (fun _ s' => spans ex_store 0%nat 3 /\ sets 0%nat (Z.rem (- (2 ^ 64 - 1)) (2 ^ 3)) ex_store s')
    (fun s' => s' = ex_store /\ ~ spans ex_store 0%nat 3) ex_store.
Proof.
  apply (BN_bits_exact 0%nat (- (2 ^ 64 - 1)) 3 ex_store); [by apply (proj2 ex_store_denotes 0%nat)|done].
Defined.

Lemma bn_word_loops_exact_witness :
  wp (bn_sub_words (0%nat, 0) (0%nat, 0) (1%nat, 0) 2) (result [[3; 4]; [5; 1]] (0%nat, 0) 2 (-1) bit (val [3; 4] - val [5; 1])) (fun _ => False) [[3; 4]; [5; 1]].
Proof.
  apply (bn_word_loops_exact [[3; 4]; [5; 1]] (0%nat, 0) (0%nat, 0) (1%nat, 0) [3; 4] [5; 1] [3; 4] 2 0).
  all: try done.
  - by exists [3; 4].
  - by exists [5; 1].
  - by exists [3; 4].
  - repeat constructor; lia.
  - repeat constructor; lia.
  - repeat constructor; lia.
  - right; left; cbn; lia.
  - left; done.
Defined.

Lemma bn_products_exact_witness :
  wp (bn_mul_normal (1%nat, 0) (0%nat, 0) 2 (0%nat, 2) 1) (fun _ => product [[3; 4; 9]; [0; 0; 0]] (1%nat, 0) [3; 4] [9]) (fun _ => False) [[3; 4; 9]; [0; 0; 0]].
Proof.
  apply (bn_products_exact [[3; 4; 9]; [0; 0; 0]] (1%nat, 0) (0%nat, 0) (0%nat, 2) [3; 4] [9] 3).
  all: try (left; done).
  - repeat constructor; lia.
  - repeat constructor; lia.
  - by exists [3; 4; 9].
  - by exists [3; 4; 9].
  - by exists [0; 0; 0].
  - by exists [0; 0; 0].
Defined.

Lemma bn_squares_are_products_witness :
  wp (bn_sqr_normal (1%nat, 0) (0%nat, 0) 2 (2%nat, 0)) (fun _ => sqr_done [[3; 4]; [0; 0; 0; 0]; [0; 0; 0; 0]] (1%nat, 0) (2%nat, 0) [3; 4]) (fun _ => False)
    [[3; 4]; [0; 0; 0; 0]; [0; 0; 0; 0]].
Proof.
  apply (bn_squares_are_products [[3; 4]; [0; 0; 0; 0]; [0; 0; 0; 0]] (1%nat, 0) (0%nat, 0) (2%nat, 0) [3; 4]).
  all: try (left; done).
  - repeat constructor; lia.
  - done.
  - by exists [3; 4].
  - by exists [0; 0; 0; 0].
  - by exists [0; 0; 0; 0].
Defined.

Lemma constant_time_masks_exact_witness : constant_time_lt_w 3 (2 ^ 63) = mask_of (3 <? 2 ^ 63).
Proof. apply (constant_time_masks_exact 3 (2 ^ 63)); done. Defined.
