(* ===== verification/BnBytesThms.v ===== *)
(** Theorems about crypto/fipsmodule/bn/bytes.c: numbers and their big-endian and
    little-endian bytes. *)
From S2P Require Import Prelude Mem Der MemFacts Cells Ct BnWords BnWordsFacts CtFacts Bn BnBytes BnFacts BnCmp BnAddFacts BnArith BnTests BnShiftFacts BnBitsFacts BnBytesFacts.

Section Thms.
Context `{alloc : Allocator}.

(** C6. A number written with BN_bn2bin_padded or BN_bn2le_padded and read back with BN_bin2bn or
    BN_le2bn is the absolute value of the number, for every width that the number fits in, up
    to what follows the bytes in the buffer. The number read into is not negative before. *)
Theorem BN_bytes_roundtrip out len x u r s :
  holds s x u -> room out 0 len -> roomy s r 0 -> (exists l, shows s r false l) ->
  wp (o ← BN_bn2bin_padded out len x; BN_bin2bn (P o) len (Some r))
    (fun _ s' => Z.abs u < 256 ^ len /\ sets r (Z.abs u) s s') (fun s' => s' = s /\ 256 ^ len <= Z.abs u \/ stunted r ((len - 1) / 8 + 1) s s') s /\
  wp (o ← BN_bn2le_padded out len x; BN_le2bn (P o) len (Some r))
    (fun _ s' => Z.abs u < 256 ^ len /\ sets r (Z.abs u) s s') (fun s' => s' = s /\ 256 ^ len <= Z.abs u \/ stunted r ((len - 1) / 8 + 1) s s') s.
Proof.
  intros Hx Hroom Hr Hpos. destruct (holds_sign _ _ _ Hx) as (l & Hs & Hv). pose proof Hroom as (_ & Hlen & Hout).
  assert (Hin : forall b, bytes b -> zlen b = len -> input_is (P (put_at out 0 b)) len b).
  { intros b Hb Hz. split; [|done]. unfold ptr_read. cbn [ptr_bytes]. rewrite zlen_put_at by (unfold room; lia). rewrite (proj2 (Z.leb_le 0 len)), (proj2 (Z.leb_le len _)) by lia.
    cbn [andb]. f_equal. rewrite <- (zdrop_0 (put_at out 0 b)), <- Hz. apply put_at_read. unfold room. lia. }
  assert (Hz : zlen (be (Z.to_nat len) (val l)) = len) by (rewrite zlen_be; lia). pose proof (val_range l ltac:(by eapply shows_digits)).
  split; apply wp_bind.
  - wp_call BN_bn2bin_padded_spec; [exact Hs|exact Hroom| |].
    + intros o s' (-> & Hfit & ->). rewrite Hv in *. wp_call BN_bin2bn_spec; [apply Hin; [apply bytes_be|done]|exact Hr|exact Hpos| |by right].
      intros y s' (-> & Ho & Hh). split; [done|]. split; [done|]. rewrite be_val_be in Hh by (rewrite Z2Nat.id by lia; lia). by apply (has_holds _ _ false).
    + intros s' [-> Hbig]. left. rewrite Hv in Hbig. by split.
  - wp_call BN_bn2le_padded_spec; [exact Hs|exact Hroom| |].
    + intros o s' (-> & Hfit & ->). rewrite Hv in *. wp_call BN_le2bn_spec; [apply Hin; [apply bytes_rev, bytes_be|by rewrite zlen_rev]|exact Hr|exact Hpos| |by right].
      intros y s' (-> & Ho & Hh). split; [done|]. split; [done|]. unfold le_val in Hh. rewrite rev_involutive, be_val_be in Hh by (rewrite Z2Nat.id by lia; lia). by apply (has_holds _ _ false).
    + intros s' [-> Hbig]. left. rewrite Hv in Hbig. by split.
Qed.

(** What the writers write: BN_bn2bin exactly the bytes of the absolute value without leading
    zeros, BN_bn2bin_padded and BN_bn2le_padded exactly [len] bytes, failing exactly when
    the number does not fit in them, and BN_get_u64 the value when it is below 2^64. None
    changes a number, and none writes outside the bytes it is given. *)
Theorem BN_to_bytes_exact out len x u s :
  let n := (bit_length (Z.abs u) + 7) / 8 in
  holds s x u -> room out 0 len -> n <= len ->
  wp (BN_bn2bin x out) (fun r s' => s' = s /\ r = (put_at out 0 (be (Z.to_nat n) (Z.abs u)), n)) (fun _ => False) s /\
  (forall k, 0 <= k <= len -> wp (BN_bn2bin_padded out k x)
    (fun o s' => s' = s /\ Z.abs u < 256 ^ k /\ o = put_at out 0 (be (Z.to_nat k) (Z.abs u))) (fun s' => s' = s /\ 256 ^ k <= Z.abs u) s) /\
  (forall k, 0 <= k <= len -> wp (BN_bn2le_padded out k x)
    (fun o s' => s' = s /\ Z.abs u < 256 ^ k /\ o = put_at out 0 (rev (be (Z.to_nat k) (Z.abs u)))) (fun s' => s' = s /\ 256 ^ k <= Z.abs u) s) /\
  wp (BN_get_u64 x) (fun w s' => s' = s /\ w = Z.abs u /\ word w) (fun s' => s' = s /\ 2 ^ 64 <= Z.abs u) s.
Proof.
  intros n Hx (_ & Hlen & Hroom) Hn. unfold n in *. destruct (holds_sign _ _ _ Hx) as (l & Hs & Hv). rewrite <- Hv in *.
  assert (Hsub : forall k, 0 <= k <= len -> room out 0 k) by (unfold room; intros; lia).
  assert (0 <= (bit_length (val l) + 7) / 8) by (destruct (bit_length_range _ l ltac:(by eapply shows_digits) (Z.le_refl _)); apply Z.div_pos; lia).
  split_and!.
  - eapply BN_bn2bin_spec; [exact Hs|apply Hsub; lia].
  - intros k Hk. eapply BN_bn2bin_padded_spec; [exact Hs|by apply Hsub].
  - intros k Hk. eapply BN_bn2le_padded_spec; [exact Hs|by apply Hsub].
  - rewrite Hv. by apply BN_get_u64_spec.
Qed.

(** C36. The readers take the sign of the number they read into where they do not set it: reading an
    empty string with BN_bin2bn leaves a negative number a negative zero (its width is zero
    and its sign is still set), and BN_le2bn of any other string leaves a negative number
    negative, so that an unsigned number is read as its negation. *)
Theorem BN_from_bytes_keeps_sign inp len l r s :
  input_is inp len l -> roomy s r 0 -> (exists l, shows s r true l) ->
  (len = 0 -> wp (BN_bin2bn inp len (Some r)) (fun _ s' => shows s' r true []) (fun _ => False) s) /\
  (0 < be_val (rev l) -> wp (BN_le2bn inp len (Some r)) (fun _ s' => sets r (- le_val l) s s') (stunted r ((len - 1) / 8 + 1) s) s).
Proof.
  intros Hin Hr Hneg. split.
  - intros ->. unfold BN_bin2bn. apply wp_bind, wp_ret. cbn [Z.eqb]. apply wp_bind. wp_call set_width_0; [exact Hneg| |done].
    intros [] s' [_ Hs']. by apply wp_ret.
  - intros Hpos. wp_call BN_le2bn_spec; [exact Hin|exact Hr|exact Hneg| |done]. intros y s' (-> & Ho & Hh). split; [done|].
    destruct (Z.eqb_spec len 0) as [->|]; [|by apply (has_holds _ _ true)].
    pose proof (input_len _ _ _ Hin) as E. apply zlen_0 in E as ->. done.
Qed.
End Thms.

(** * Witnesses *)

#[local] Existing Instance plenty.

(** The numbers 2^64 + 5, 0 and -1. *)
Definition ex_nums : bn_store :=
  mkStore [mkBN 2 2 false BN_FLG_MALLOCED; mkBN 0 2 false BN_FLG_MALLOCED; mkBN 1 1 true BN_FLG_MALLOCED] [[5; 1]; [0; 0]; [1]] 0%nat.
Lemma ex_nums_is x n d : nums ex_nums !! x = Some n -> arrays ex_nums !! x = Some d -> bn_is ex_nums x n d.
Proof.
  intros Hn Hd. split_and!; [done|done|]. destruct x as [|[|[|x]]]; cbn in Hn, Hd; simplify_eq; unfold well_formed, max_words; cbn; split_and!; try lia; repeat constructor; lia.
Qed.
Lemma ex_nums_roomy x n d : nums ex_nums !! x = Some n -> arrays ex_nums !! x = Some d -> roomy ex_nums x 0.
Proof. intros Hn Hd. pose proof (ex_nums_is x n d Hn Hd) as H. exists n, d. split; [done|]. destruct H as (_ & _ & (_ & ? & _)). lia. Qed.
Lemma ex_nums_holds : holds ex_nums 0%nat (2 ^ 64 + 5).
Proof. exists false, [5; 1]. split; [|done]. eexists _, _. split; [by apply ex_nums_is|done]. Qed.

Lemma BN_bytes_roundtrip_witness :
  exists s', (o ← BN_bn2bin_padded (zrep 12 7) 10 0%nat; BN_bin2bn (P o) 10 (Some 1%nat)) ex_nums = Ok 1%nat s' /\
    (Z.abs (2 ^ 64 + 5) < 256 ^ 10 /\ sets 1%nat (Z.abs (2 ^ 64 + 5)) ex_nums s').
Proof.
  eexists. split; [vm_compute; reflexivity|].
  refine (wp_ok _ _ _ _ _ _ (proj1 (BN_bytes_roundtrip (zrep 12 7) 10 0%nat (2 ^ 64 + 5) 1%nat ex_nums ex_nums_holds _ _ _)) _); [| | |vm_compute; reflexivity].
  - done.
  - by eapply ex_nums_roomy.
  - exists [], (mkBN 0 2 false BN_FLG_MALLOCED), [0; 0]. split; [by apply ex_nums_is|done].
Defined.

Lemma BN_to_bytes_exact_witness :
  wp (BN_bn2bin_padded (zrep 12 7) 9 0%nat)
    (fun o s' => s' = ex_nums /\ Z.abs (2 ^ 64 + 5) < 256 ^ 9 /\ o = put_at (zrep 12 7) 0 (be (Z.to_nat 9) (Z.abs (2 ^ 64 + 5)))) (fun s' => s' = ex_nums /\ 256 ^ 9 <= Z.abs (2 ^ 64 + 5)) ex_nums.
Proof. apply (BN_to_bytes_exact (zrep 12 7) 12 0%nat (2 ^ 64 + 5) ex_nums ex_nums_holds); done. Defined.

(** 258, read into a number that was -1, is -258. *)
Lemma BN_from_bytes_keeps_sign_witness :
  exists s', BN_le2bn (P [2; 1]) 2 (Some 2%nat) ex_nums = Ok 2%nat s' /\ sets 2%nat (- le_val [2; 1]) ex_nums s'.
Proof.
  eexists. split; [vm_compute; reflexivity|].
  refine (wp_ok _ _ _ _ _ _ (proj2 (BN_from_bytes_keeps_sign (P [2; 1]) 2 [2; 1] 2%nat ex_nums _ _ _) _) _); [| | | |vm_compute; reflexivity].
  - split; [done|repeat constructor; done].
  - by eapply ex_nums_roomy.
  - exists [1], (mkBN 1 1 true BN_FLG_MALLOCED), [1]. split; [by apply ex_nums_is|done].
  - done.
Defined.
