(* ===== verification/BnMul.v ===== *)
(** crypto/fipsmodule/bn/mul.c: the recursive (Karatsuba) products and squares, on words.
    Sizes are [int]s that stay far from their bounds. [fuel] bounds the depth of the
    recursion, which halves the size. *)
From S2P Require Import Prelude Ct BnWords Bn.

Definition BN_MUL_RECURSIVE_SIZE_NORMAL : Z := 16.
Definition BN_SQR_RECURSIVE_SIZE_NORMAL : Z := 16.

Definition bn_abs_sub_words (r a b : wptr) (num : Z) (tmp : wptr) : M words unit :=
  borrow ← bn_sub_words tmp a b num;
  bn_sub_words r b a num;;
  bn_select_words r (u64 (0 - borrow)) r tmp num.

(** * Differences of different lengths *)

(** The turns at [ks], with a carry [c] and the count [dl], until the count is used up. *)
Fixpoint part_turns (turn : Z -> Z -> M words Z) (ks : list Z) (c dl : Z) : M words (Z * Z * bool) :=
  match ks with
  | [] => mret (c, dl, false)
  | k :: ks =>
      c ← turn k c;
      let dl := dl - 1 in
      if dl <=? 0 then mret (c, dl, true) else part_turns turn ks c dl
  end.

(** [t = b[k]; r[k] = 0 - t - c; if (t != 0) c = 1;] *)
Definition negate_turn (r b : wptr) (k c : Z) : M words Z :=
  t ← rd b k; wr r k (u64 (u64 (0 - t) - c));; mret (if negb (t =? 0) then 1 else c).
(** [t = a[k]; r[k] = t - c; if (t != 0) c = 0;] *)
Definition borrow_turn (r a : wptr) (k c : Z) : M words Z :=
  t ← rd a k; wr r k (u64 (t - c));; mret (if negb (t =? 0) then 0 else c).
(** [r[k] = a[k];] *)
Definition copy_turn (r a : wptr) (k c : Z) : M words Z :=
  t ← rd a k; wr r k t;; mret c.

(** [for (;;)], four turns at a time; the count is that of the words left. *)
Definition part_loop (turn : wptr -> wptr -> Z -> Z -> M words Z) '((r, x, c, dl) : wptr * wptr * Z * Z)
    : M words (wptr * wptr * Z * Z + Z) :=
  '(c, dl, broke) ← part_turns (turn r x) [0; 1; 2; 3] c dl;
  if (broke : bool) then mret (inr c) else mret (inl (wadd r 4, wadd x 4, c, dl)).

(** [while (c)]: [r], [a], [c], [dl] and [save_dl]. *)
Definition borrow_loop '((r, a, c, dl, save_dl) : wptr * wptr * Z * Z * Z)
    : M words (wptr * wptr * Z * Z * Z + wptr * wptr * Z * Z * Z) :=
  if c =? 0 then mret (inr (r, a, c, dl, save_dl)) else
  '(c, dl, broke) ← part_turns (borrow_turn r a) [0; 1; 2; 3] c dl;
  if (broke : bool) then mret (inr (r, a, c, dl, save_dl)) else mret (inl (wadd r 4, wadd a 4, c, dl, dl)).

(** The words of the switch that starts at case [k]. *)
Definition cases_from (k : Z) : list Z :=
  if k =? 1 then [1; 2; 3] else if k =? 2 then [2; 3] else if k =? 3 then [3] else [].

Definition bn_sub_part_words (r a b : wptr) (cl dl : Z) : M words Z :=
  assert_ (0 <=? cl);;
  c ← bn_sub_words r a b cl;
  if dl =? 0 then mret c else
  let r := wadd r cl in
  let a := wadd a cl in
  let b := wadd b cl in
  if dl <? 0 then iter (S (Z.to_nat (- dl))) (part_loop negate_turn) (r, b, c, - dl)
  else
    '(r, a, c, dl, save_dl) ← iter (S (Z.to_nat dl)) borrow_loop (r, a, c, dl, dl);
    '(r, a, dl) ← (if (0 <? dl) && (dl <? save_dl) then
        '(_, dl, _) ← part_turns (copy_turn r a) (cases_from (save_dl - dl)) c dl;
        mret (wadd r 4, wadd a 4, dl)
      else mret (r, a, dl));
    if 0 <? dl then iter (S (Z.to_nat dl)) (part_loop copy_turn) (r, a, c, dl) else mret c.

Definition bn_abs_sub_part_words (r a b : wptr) (cl dl : Z) (tmp : wptr) : M words Z :=
  borrow ← bn_sub_part_words tmp a b cl dl;
  bn_sub_part_words r b a cl (- dl);;
  let r_len := cl + (if dl <? 0 then - dl else dl) in
  let borrow := u64 (0 - borrow) in
  bn_select_words r borrow r tmp r_len;;
  mret borrow.

(** * Putting the three products together *)

(** [for (int i = n + n2; i < n2 + n2; i++)]: the carry goes to the end of [r]. *)
Definition propagate_carry (r : wptr) (n n2 c : Z) : M words unit :=
  c ← for_ (n + n2) (Z.to_nat (n2 + n2 - (n + n2))) (fun i c =>
    old ← rd r i; wr r i (u64 (old + c));; mret (b2z (u64 (old + c) <? old))) c;
  assert_ (c =? 0).

(** The products are at [r] and [r + n2], and at [t + n2] with the sign [neg]. *)
Definition mul_combine (r t : wptr) (n n2 neg : Z) : M words unit :=
  c ← bn_add_words t r (wadd r n2) n2;
  borrow ← bn_sub_words (wadd t (n2 * 2)) t (wadd t n2) n2;
  let c_neg := u64 (c - borrow) in
  carry ← bn_add_words (wadd t n2) t (wadd t n2) n2;
  let c_pos := u64 (c + carry) in
  bn_select_words (wadd t n2) neg (wadd t (n2 * 2)) (wadd t n2) n2;;
  let c := constant_time_select_w neg c_neg c_pos in
  carry ← bn_add_words (wadd r n) (wadd r n) (wadd t n2) n2;
  propagate_carry r n n2 (u64 (c + carry)).

(** * The recursive products *)

Definition is_pow2 (n : Z) : bool := negb (n =? 0) && (Z.land n (n - 1) =? 0).

Fixpoint bn_mul_recursive (fuel : nat) (r a b : wptr) (n2 dna dnb : Z) (t : wptr) : M words unit :=
  match fuel with
  | O => stuck
  | S fuel =>
      assert_ (is_pow2 n2);;
      assert_ ((- BN_MUL_RECURSIVE_SIZE_NORMAL / 2 <=? dna) && (dna <=? 0));;
      assert_ ((- BN_MUL_RECURSIVE_SIZE_NORMAL / 2 <=? dnb) && (dnb <=? 0));;
      if (n2 =? 8) && (dna =? 0) && (dnb =? 0) then bn_mul_comba8 r a b else
      if n2 <? BN_MUL_RECURSIVE_SIZE_NORMAL then
        bn_mul_normal r a (n2 + dna) b (n2 + dnb);;
        if dna + dnb <? 0 then wzero (wadd r (2 * n2 + dna + dnb)) (- (dna + dnb)) else mret tt
      else
        let n := n2 / 2 in
        let tna := n + dna in
        let tnb := n + dnb in
        neg ← bn_abs_sub_part_words t a (wadd a n) tna (n - tna) (wadd t n2);
        neg' ← bn_abs_sub_part_words (wadd t n) (wadd b n) b tnb (tnb - n) (wadd t n2);
        let neg := Z.lxor neg neg' in
        (if (n =? 4) && (dna =? 0) && (dnb =? 0) then
           bn_mul_comba4 (wadd t n2) t (wadd t n);;
           bn_mul_comba4 r a b;;
           bn_mul_comba4 (wadd r n2) (wadd a n) (wadd b n)
         else if (n =? 8) && (dna =? 0) && (dnb =? 0) then
           bn_mul_comba8 (wadd t n2) t (wadd t n);;
           bn_mul_comba8 r a b;;
           bn_mul_comba8 (wadd r n2) (wadd a n) (wadd b n)
         else
           let p := wadd t (n2 * 2) in
           bn_mul_recursive fuel (wadd t n2) t (wadd t n) n 0 0 p;;
           bn_mul_recursive fuel r a b n 0 0 p;;
           bn_mul_recursive fuel (wadd r n2) (wadd a n) (wadd b n) n dna dnb p);;
        mul_combine r t n n2 neg
  end.

(** [memset(p, 0, k)]: [k] bytes, least significant first in each word. *)
Definition bzero (p : wptr) (k : Z) : M words unit :=
  wzero p (k / BN_BYTES);;
  let rest := 8 * (k mod BN_BYTES) in
  if rest =? 0 then mret tt else
  w ← rd p (k / BN_BYTES); wr p (k / BN_BYTES) (Z.shiftl (Z.shiftr w rest) rest).

Fixpoint bn_mul_part_recursive (fuel : nat) (r a b : wptr) (n tna tnb : Z) (t : wptr) : M words unit :=
  match fuel with
  | O => stuck
  | S fuel =>
      assert_ (is_pow2 n);;
      assert_ ((0 <=? tna) && (tna <? n));;
      assert_ ((0 <=? tnb) && (tnb <? n));;
      assert_ ((-1 <=? tna - tnb) && (tna - tnb <=? 1));;
      let n2 := n * 2 in
      if n <? 8 then
        bn_mul_normal r a (n + tna) b (n + tnb);;
        bzero (wadd r (n2 + tna + tnb)) (n2 - tna - tnb)
      else
        neg ← bn_abs_sub_part_words t a (wadd a n) tna (n - tna) (wadd t n2);
        neg' ← bn_abs_sub_part_words (wadd t n) (wadd b n) b tnb (tnb - n) (wadd t n2);
        let neg := Z.lxor neg neg' in
        (if n =? 8 then
           bn_mul_comba8 (wadd t n2) t (wadd t n);;
           bn_mul_comba8 r a b;;
           bn_mul_normal (wadd r n2) (wadd a n) tna (wadd b n) tnb;;
           wzero (wadd r (n2 + tna + tnb)) (n2 - tna - tnb)
         else
           let p := wadd t (n2 * 2) in
           bn_mul_recursive fuel (wadd t n2) t (wadd t n) n 0 0 p;;
           bn_mul_recursive fuel r a b n 0 0 p;;
           wzero (wadd r n2) n2;;
           if (tna <? BN_MUL_RECURSIVE_SIZE_NORMAL) && (tnb <? BN_MUL_RECURSIVE_SIZE_NORMAL) then
             bn_mul_normal (wadd r n2) (wadd a n) tna (wadd b n) tnb
           else
             iter (S (Z.to_nat n)) (fun i =>
               let i := i / 2 in
               if (i <? tna) || (i <? tnb) then
                 bn_mul_part_recursive fuel (wadd r n2) (wadd a n) (wadd b n) i (tna - i) (tnb - i) p;;
                 mret (inr tt)
               else if (i =? tna) || (i =? tnb) then
                 bn_mul_recursive fuel (wadd r n2) (wadd a n) (wadd b n) i (tna - i) (tnb - i) p;;
                 mret (inr tt)
               else mret (inl i)) n);;
        mul_combine r t n n2 neg
  end.

Fixpoint bn_sqr_recursive (fuel : nat) (r a : wptr) (n2 : Z) (t : wptr) : M words unit :=
  match fuel with
  | O => stuck
  | S fuel =>
      assert_ (is_pow2 n2);;
      if n2 =? 4 then bn_sqr_comba4 r a else
      if n2 =? 8 then bn_sqr_comba8 r a else
      if n2 <? BN_SQR_RECURSIVE_SIZE_NORMAL then bn_sqr_normal r a n2 t else
      let n := n2 / 2 in
      let t_recursive := wadd t (n2 * 2) in
      bn_abs_sub_words t a (wadd a n) n (wadd t n);;
      bn_sqr_recursive fuel (wadd t n2) t n t_recursive;;
      bn_sqr_recursive fuel r a n t_recursive;;
      bn_sqr_recursive fuel (wadd r n2) (wadd a n) n t_recursive;;
      c ← bn_add_words t r (wadd r n2) n2;
      borrow ← bn_sub_words (wadd t n2) t (wadd t n2) n2;
      let c := u64 (c - borrow) in
      carry ← bn_add_words (wadd r n) (wadd r n) (wadd t n2) n2;
      propagate_carry r n n2 (u64 (c + carry))
  end.

(** The depth of the recursion on [n] words. *)
Definition levels (n : Z) : nat := S (Z.to_nat (Z.log2 n)).

(** [BN_SMALL_MAX_WORDS] (internal.h), for 521-bit numbers. *)
Definition BN_SMALL_MAX_WORDS : Z := 9.
