(* ===== verification/BnPartFacts.v ===== *)
(** Facts about [BnMul]: differences of numbers of different lengths, and their absolute
    values. *)
From S2P Require Import Prelude Ct BnWords BnWordsFacts BnMulFacts CtFacts Bn BnMul.

(** * Memory that is left alone *)

(** The regions [Rs] may change; the arrays keep their lengths and hold words. *)
Definition keeps (m m' : words) (Rs : list (wptr * Z)) : Prop :=
  (forall q n, writable m' q n <-> writable m q n) /\
  (forall q l, at_ m q l -> Forall (fun R => apart R.1 R.2 q (zlen l)) Rs -> at_ m' q l) /\
  (forall y arr, m !! y = Some arr -> digits arr -> exists arr', m' !! y = Some arr' /\ digits arr').

Lemma keeps_refl m Rs : keeps m m Rs.
Proof. split_and!; [done|done|]. intros y arr. by exists arr. Qed.
Lemma keeps_trans m1 m2 m3 Rs : keeps m1 m2 Rs -> keeps m2 m3 Rs -> keeps m1 m3 Rs.
Proof. intros (H1 & H2 & H3) (H4 & H5 & H6). split_and!; [intros q n; by rewrite H4|eauto|].
  intros y arr Hy Hd. destruct (H3 y arr Hy Hd) as (arr' & Hy' & Hd'). by apply (H6 y arr'). Qed.
Lemma keeps_writable m m' Rs q n : keeps m m' Rs -> writable m q n -> writable m' q n.
Proof. intros [H _]. apply H. Qed.
Lemma wput_writable_iff m p l q n : writable m p (zlen l) -> writable (wput m p l) q n <-> writable m q n.
Proof.
  intros Hw. split; [|by apply wput_writable]. destruct Hw as (arr & Hm & Hr). unfold writable, wput. rewrite Hm. cbn.
  destruct (decide (q.1 = p.1)) as [E|E]; [|by rewrite list_lookup_insert_ne by done].
  rewrite E, list_lookup_insert_eq by (by eapply lookup_lt_Some). intros (arr' & [= <-] & Hr'). exists arr. split; [done|]. unfold room in *. by rewrite zlen_put_at in Hr' by done.
Qed.
Lemma wput_digits m p l y arr : writable m p (zlen l) -> digits l -> m !! y = Some arr -> digits arr -> exists arr', wput m p l !! y = Some arr' /\ digits arr'.
Proof.
  intros (b & Hm & Hr) Hl Hy Hd. unfold wput. rewrite Hm. cbn. destruct (decide (y = p.1)) as [->|Hne]; [|by exists arr; rewrite list_lookup_insert_ne by done].
  rewrite Hm in Hy. injection Hy as ->. eexists. rewrite list_lookup_insert_eq by (by eapply lookup_lt_Some). split; [done|].
  unfold put_at. apply digits_app. split; [by apply digits_ztake|]. apply digits_app. split; [done|by apply digits_zdrop].
Qed.
Lemma keeps_put m p l Rs n : writable m p (zlen l) -> n = zlen l -> digits l -> (p, n) ∈ Rs -> keeps m (wput m p l) Rs.
Proof.
  intros Hw -> Hd Hin. split_and!; [intros; by apply wput_writable_iff| |intros; by eapply wput_digits]. intros q k Hq HRs. apply wput_apart; [done|done|].
  exact (proj1 (Forall_forall _ _) HRs _ Hin).
Qed.
(** [p] and [k] words are inside [q] and [n] words. *)
Definition inside (p : wptr) (k : Z) (q : wptr) (n : Z) : Prop := p.1 = q.1 /\ q.2 <= p.2 /\ p.2 + k <= q.2 + n.
Lemma keeps_mono m m' Rs Rs' : Forall (fun R => Exists (fun R' => inside R.1 R.2 R'.1 R'.2) Rs') Rs -> keeps m m' Rs -> keeps m m' Rs'.
Proof.
  intros Hin (H1 & H2 & H3). split_and!; [done| |done]. intros q l Hq HRs. apply H2; [done|]. apply Forall_forall. intros [p k] HR.
  pose proof (proj1 (Forall_forall _ _) Hin _ HR) as HE. apply Exists_exists in HE as ([p' k'] & HR' & E1 & E2 & E3).
  pose proof (proj1 (Forall_forall _ _) HRs _ HR') as Hap. cbn [fst snd] in *. unfold apart in *. lia.
Qed.

(** Regions are apart, ahead or inside by their offsets. *)
Ltac regions := unfold apart, ahead, inside, wadd in *; cbn [fst snd] in *; lia.

Lemma lxor_mask p q : Z.lxor (mask_of p) (mask_of q) = mask_of (xorb p q).
Proof. by destruct p, q. Qed.
Lemma neg_bit c : bit c -> u64 (0 - c) = mask_of (c =? 1).
Proof. unfold bit. intros. assert (c = 0 \/ c = 1) as [->| ->] by lia; done. Qed.

(** * The selection of words *)

Lemma bn_select_words_spec m r a b la lb c n :
  at_ m a la -> at_ m b lb -> digits la -> digits lb -> zlen la = n -> zlen lb = n -> writable m r n -> ahead r n a -> ahead r n b ->
  wp (bn_select_words r (mask_of c) a b n) (fun _ m' => m' = wput m r (if c then la else lb)) (fun _ => False) m.
Proof.
  intros Ha Hb Hda Hdb Hla Hlb Hr Hra Hrb. set (l := if c then la else lb). assert (Hl : zlen l = n) by (unfold l; by destruct c). pose proof (zlen_nonneg la).
  assert (Hfit : forall i k, 0 <= i -> 0 <= k -> i + k <= n -> writable m (wadd r i) k) by (intros; by apply (writable_sub _ _ n)).
  assert (Hfit0 : forall k, 0 <= k <= n -> writable m r k) by (intros; rewrite <- (wadd_0 r); apply Hfit; lia).
  unfold bn_select_words. apply (wp_for (fun i _ m' => m' = wput m r (ztake i l))).
  - rewrite ztake_0. symmetry. apply wput_nil, Hfit0. lia.
  - intros i [] m' Hi ->. destruct (zget_lt la i) as [x Hx]; [lia|]. destruct (zget_lt lb i) as [y Hy]; [lia|]. assert (Hzt : zlen (ztake i l) = i) by (rewrite zlen_ztake; lia).
    assert (Hr' : writable m r (zlen la)) by (rewrite Hla; apply Hfit0; lia).
    apply wp_bind. wp_call (ahead_read m r la Hr' a la i (ztake i l) i x); [exact Ha|done|by rewrite Hla|done|lia|done| |done]. intros ? ? [-> ->].
    apply wp_bind. wp_call (ahead_read m r la Hr' b lb i (ztake i l) i y); [exact Hb|by rewrite Hla|by rewrite Hla|done|lia|done| |done]. intros ? ? [-> ->].
    wp_call wr_spec; [apply wput_writable; [rewrite Hzt; apply Hfit0; lia|apply Hfit; lia]| |done]. intros [] m' ->.
    rewrite constant_time_select_w_spec by (exact (digits_zget _ _ _ Hda Hx) || exact (digits_zget _ _ _ Hdb Hy)). rewrite <- Hzt at 2. rewrite wput_app by (rewrite Hzt; change (zlen [_]) with 1; apply Hfit0; lia).
    f_equal. symmetry. apply ztake_next. unfold l. by destruct c.
  - intros [] m' ->. f_equal. rewrite Z.add_0_l, Z2Nat.id by lia. rewrite <- Hl. apply ztake_all.
Qed.

(** * The turns of bn_sub_part_words *)

Lemma negate_step t c : word t -> bit c -> u64 (u64 (0 - t) - c) = (sub_step 0 t c).1 /\ (if negb (t =? 0) then 1 else c) = (sub_step 0 t c).2.
Proof.
  unfold word, bit. intros Ht Hc. unfold sub_step. cbn [fst snd]. split; [done|]. destruct (Z.eqb_spec t 0) as [->|Hne]; [done|].
  rewrite (proj2 (Z.eqb_neq 0 t)), (proj2 (Z.ltb_lt 0 t)) by lia. done.
Qed.
Lemma borrow_step t c : word t -> bit c -> u64 (t - c) = (sub_step t 0 c).1 /\ (if negb (t =? 0) then 0 else c) = (sub_step t 0 c).2.
Proof.
  unfold word, bit. intros Ht Hc. unfold sub_step. cbn [fst snd]. rewrite Z.sub_0_r, (u64_id t) by done. split; [done|].
  destruct (Z.eqb_spec t 0); cbn [negb]; [done|]. rewrite (proj2 (Z.ltb_ge t 0)) by lia. done.
Qed.
Lemma copy_step t : word t -> sub_step t 0 0 = (t, 0).
Proof.
  intros Ht. destruct (borrow_step t 0) as [H1 H2]; [done|unfold bit; lia|]. rewrite (surjective_pairing (sub_step t 0 0)), <- H1, <- H2, Z.sub_0_r, u64_id by done. by destruct (_ =? _).
Qed.

(** The words of [l] from [k] on are still to do: those before are at [r], as [f] makes them,
    with the carry [c]. *)
Section PartWords.
Variables (m : words) (r x : wptr) (l pre : list Z) (cl : Z) (f : Z -> Z -> Z * Z).
Local Abbreviation n := (zlen l) (only parsing).
Hypothesis Hcl : zlen pre = cl.
Hypothesis Hr : writable m r (cl + n).
Hypothesis Hx : at_ m x l.
Hypothesis Hdl : digits l.
Hypothesis Hap : apart r (cl + n) x n.
Hypothesis Hf : forall t c, word t -> bit c -> word (f t c).1 /\ bit (f t c).2.

Fixpoint run_turns (l : list Z) (c : Z) : list Z * Z :=
  match l with
  | [] => ([], c)
  | t :: l => let '(w, c) := f t c in let '(ws, c) := run_turns l c in (w :: ws, c)
  end.
Lemma run_turns_snoc l0 t c : run_turns (l0 ++ [t]) c = let '(ws, c1) := run_turns l0 c in let '(w, c2) := f t c1 in (ws ++ [w], c2).
Proof.
  revert c. induction l0 as [|y l0 IH]; intros c; cbn; [by destruct (f t c)|]. destruct (f y c) as [w c1]. rewrite IH. destruct (run_turns l0 c1) as [ws c2]. by destruct (f t c2).
Qed.
Lemma zlen_run_turns l0 c : zlen (run_turns l0 c).1 = zlen l0.
Proof.
  revert c. induction l0 as [|y l0 IH]; intros c; [done|]. cbn. destruct (f y c) as [w c1]. specialize (IH c1). destruct (run_turns l0 c1) as [ws c2]. cbn [fst] in *. rewrite !zlen_cons. lia.
Qed.
Lemma run_turns_word l0 c : digits l0 -> bit c -> digits (run_turns l0 c).1 /\ bit (run_turns l0 c).2.
Proof.
  intros Hd. revert c. induction Hd as [|y l0 Hy Hd IH]; intros c Hc; cbn; [split; [constructor|done]|]. destruct (Hf y c Hy Hc) as [H1 H2].
  destruct (f y c) as [w c1]. destruct (IH c1 H2) as [H3 H4]. destruct (run_turns l0 c1) as [ws c2]. cbn in *. split; [by constructor|done].
Qed.

Variable c0 : Z.
Hypothesis Hc0 : bit c0.
Definition part_done (k c : Z) (m' : words) : Prop :=
  0 <= k <= n /\ exists ws, run_turns (ztake k l) c0 = (ws, c) /\ m' = wput m r (pre ++ ws).

Lemma part_done_start : part_done 0 c0 (wput m r pre).
Proof. split; [pose proof (zlen_nonneg l); lia|]. exists []. rewrite ztake_0, app_nil_r. done. Qed.
Lemma part_done_bit k c m' : part_done k c m' -> bit c.
Proof.
  intros (Hk & ws & E & _). pose proof (run_turns_word (ztake k l) c0 ltac:(by apply digits_ztake) Hc0) as [_ H]. by rewrite E in H.
Qed.


Lemma part_done_fits k ws c : 0 <= k <= n -> run_turns (ztake k l) c0 = (ws, c) -> zlen (pre ++ ws) = cl + k.
Proof.
  intros Hk E. pose proof (zlen_run_turns (ztake k l) c0) as Hz. rewrite E, zlen_ztake in Hz by lia. cbn [fst] in Hz. rewrite zlen_app. lia.
Qed.

(** One turn at the word [j + k]. *)
Lemma turn_spec g1 g2 j k c m' :
  (forall t, word t -> g1 t c = (f t c).1 /\ g2 t c = (f t c).2) -> part_done (j + k) c m' -> 0 <= j -> 0 <= k -> j + k < n ->
  wp (t ← rd (wadd x j) k; wr (wadd r (cl + j)) k (g1 t c);; mret (g2 t c)) (fun c' m2 => (exists t, word t /\ c' = (f t c).2) /\ part_done (j + k + 1) c' m2) (fun _ => False) m'.
Proof.
  intros Hg (Hk & ws & E & ->) Hj Hk0 Hlt. pose proof (part_done_fits _ _ _ Hk E) as Hz. pose proof (zlen_nonneg pre). destruct (zget_lt l (j + k)) as [t Ht]; [lia|].
  assert (Hw : forall i, 0 <= i <= cl + n -> writable m r i) by (intros; rewrite <- (wadd_0 r); apply (writable_sub _ _ (cl + n)); [done|lia..]).
  apply wp_bind. rewrite rd_wadd. wp_call rd_spec; [apply wput_apart; [rewrite Hz; apply Hw; lia|exact Hx|rewrite Hz; regions]|exact Ht| |done]. intros ? ? [-> ->].
  destruct (Hg t (digits_zget _ _ _ Hdl Ht)) as [-> ->]. apply wp_bind. rewrite wr_wadd. wp_call wr_spec; [| |done].
  - apply wput_writable; [rewrite Hz; apply Hw; lia|]. apply (writable_sub _ _ (cl + n)); [done|lia..].
  - intros [] m' ->. apply wp_ret. split; [exists t; split; [exact (digits_zget _ _ _ Hdl Ht)|done]|]. split; [lia|]. exists (ws ++ [(f t c).1]). rewrite (ztake_next _ _ _ Ht), run_turns_snoc, E. destruct (f t c) as [w c'] eqn:Ef. split; [done|].
    cbn [fst]. replace (cl + j + k) with (zlen (pre ++ ws)) by lia. rewrite wput_app by (rewrite Hz; change (zlen [w]) with 1; apply Hw; lia). by rewrite app_assoc.
Qed.

Lemma part_turns_spec (ok : Z -> Prop) turn ks k j c m' :
  (forall k c m', ok c -> part_done (j + k) c m' -> 0 <= k -> j + k < n -> wp (turn k c) (fun c' m2 => ok c' /\ part_done (j + k + 1) c' m2) (fun _ => False) m') ->
  ks = seqZ k (zlen ks) -> ok c -> part_done (j + k) c m' -> 0 <= k -> j + k < n ->
  wp (part_turns turn ks c (n - (j + k)))
    (fun '(c', dl', broke) m2 => ok c' /\ if (broke : bool) then dl' = 0 /\ part_done n c' m2 else dl' = n - (j + k + zlen ks) /\ 0 < dl' /\ part_done (j + k + zlen ks) c' m2) (fun _ => False) m'.
Proof.
  intros Hturn. revert k c m'. induction ks as [|k' ks IH]; intros k c m' Hks Hok Hd Hk Hlt; cbn [part_turns].
  - apply wp_ret. split; [done|]. change (zlen (@nil Z)) with 0. rewrite Z.add_0_r. split_and!; [done|lia|done].
  - rewrite zlen_cons in *. pose proof (zlen_nonneg ks). rewrite seqZ_cons in Hks by lia. injection Hks as -> Hks. replace (Z.pred (1 + zlen ks)) with (zlen ks) in Hks by lia.
    apply wp_bind. wp_call Hturn; [done|done|done|done| |done]. intros c' m2 [Hok' Hd']. cbv zeta. destruct (Z.leb_spec (n - (j + k) - 1) 0) as [Hle|Hgt].
    + apply wp_ret. split; [done|]. split; [lia|]. by replace n with (j + k + 1) by lia.
    + replace (n - (j + k) - 1) with (n - (j + Z.succ k)) by lia. wp_call (IH (Z.succ k)); [done|done| |lia|lia| |done].
      * by replace (j + Z.succ k) with (j + k + 1) by lia.
      * intros [[c2 dl2] broke] m3 [Ho Hres]. split; [done|]. replace (j + (Z.succ k) + zlen ks) with (j + k + (1 + zlen ks)) in Hres by lia. done.
Qed.

Lemma part_loop_spec (ok : Z -> Prop) turn fuel j c m' :
  (forall j k c m', ok c -> part_done (j + k) c m' -> 0 <= j -> 0 <= k -> j + k < n -> wp (turn (wadd r (cl + j)) (wadd x j) k c) (fun c' m2 => ok c' /\ part_done (j + k + 1) c' m2) (fun _ => False) m') ->
  ok c -> part_done j c m' -> 0 <= j < n -> n - j < Z.of_nat fuel ->
  wp (iter fuel (part_loop turn) (wadd r (cl + j), wadd x j, c, n - j)) (fun c' m2 => ok c' /\ part_done n c' m2) (fun _ => False) m'.
Proof.
  intros Hturn. revert j c m'. induction fuel as [|fuel IH]; intros j c m' Hok Hd Hj Hfuel; [lia|]. cbn [iter]. apply wp_bind. unfold part_loop at 1. apply wp_bind.
  replace (n - j) with (n - (j + 0)) by lia. wp_call (part_turns_spec ok (turn (wadd r (cl + j)) (wadd x j)) [0; 1; 2; 3] 0 j c m'); [intros k2 c2 m2 ? ? ? ?; apply Hturn; lia || done|done|done|by rewrite Z.add_0_r|done|lia| |done].
  intros [[c' dl'] broke] m2 [Hok2 Hres]. destruct broke; [destruct Hres as [_ Hres]; by apply wp_ret, wp_ret|]. destruct Hres as (-> & Hpos & Hres). change (zlen [0; 1; 2; 3]) with 4 in *. rewrite Z.add_0_r in *.
  apply wp_ret. rewrite !wadd_wadd. replace (cl + j + 4) with (cl + (j + 4)) by lia. apply IH; [done|done|lia|lia].
Qed.

(** The loop that ends when there is nothing left to borrow. *)
Lemma borrow_loop_spec fuel j c m' :
  (forall t c, word t -> bit c -> f t c = sub_step t 0 c) -> part_done j c m' -> 0 <= j < n -> n - j < Z.of_nat fuel ->
  wp (iter fuel borrow_loop (wadd r (cl + j), wadd x j, c, n - j, n - j))
    (fun st m2 =>
      (exists j', st = (wadd r (cl + j'), wadd x j', 0, n - j', n - j') /\ 0 <= j' < n /\ part_done j' 0 m2) \/
      (exists q p c' save, st = (q, p, c', 0, save) /\ part_done n c' m2)) (fun _ => False) m'.
Proof.
  intros Hsub. revert j c m'. induction fuel as [|fuel IH]; intros j c m' Hd Hj Hfuel; [lia|]. cbn [iter]. apply wp_bind. unfold borrow_loop at 1.
  destruct (Z.eqb_spec c 0) as [->|Hc]; [apply wp_ret, wp_ret; left; by exists j|]. apply wp_bind. replace (n - j) with (n - (j + 0)) by lia.
  wp_call (part_turns_spec (fun _ => True) (borrow_turn (wadd r (cl + j)) (wadd x j)) [0; 1; 2; 3] 0 j c m'); [|done|done|by rewrite Z.add_0_r|done|lia| |done].
  - intros k c1 m1 _ Hd1 Hk Hlt. pose proof (part_done_bit _ _ _ Hd1) as Hb. wp_call (turn_spec (fun t c => u64 (t - c)) (fun t c => if negb (t =? 0) then 0 else c)); [|exact Hd1|lia|done|done|by intros c' m2 [_ H]|done].
    intros t Ht. rewrite Hsub by done. by apply borrow_step.
  - intros [[c' dl'] broke] m2 [_ Hres]. destruct broke.
    + destruct Hres as [-> Hres]. apply wp_ret, wp_ret. right. eauto 10.
    + destruct Hres as (-> & Hpos & Hres). change (zlen [0; 1; 2; 3]) with 4 in *. rewrite Z.add_0_r in *. apply wp_ret. rewrite !wadd_wadd.
      replace (cl + j + 4) with (cl + (j + 4)) by lia. apply IH; [done|lia|lia].
Qed.

Lemma run_turns_val s :
  (forall t c, word t -> bit c -> (f t c).1 - BASE * (f t c).2 = s * t - c) ->
  forall l0 c, digits l0 -> bit c -> val (run_turns l0 c).1 - BASE ^ zlen l0 * (run_turns l0 c).2 = s * val l0 - c.
Proof.
  intros Hs l0 c Hd. revert c. induction Hd as [|y l0 Hy Hd IH]; intros c Hc; [cbn; change (BASE ^ zlen (@nil Z)) with 1; lia|]. cbn [run_turns].
  destruct (Hf y c Hy Hc) as [H1 H2]. specialize (Hs y c Hy Hc). destruct (f y c) as [w c1]. cbn [fst snd] in *. specialize (IH c1 H2). destruct (run_turns l0 c1) as [ws c2].
  cbn [fst snd val] in *. rewrite zlen_cons, (Z.add_comm 1), B_pow by apply zlen_nonneg. nia.
Qed.
End PartWords.

Lemma sub_step_words x y c : word x -> word y -> bit c -> word (sub_step x y c).1 /\ bit (sub_step x y c).2 /\ (sub_step x y c).1 - BASE * (sub_step x y c).2 = x - y - c.
Proof. intros Hx Hy Hc. destruct (sub_step_is x y c Hx Hy Hc) as (H1 & H2 & H3). split_and!; [done|done|lia]. Qed.

(** The words that are left over, behind the difference [pre] of the common ones. *)
Lemma part_result m r l pre cl f c0 s v n c' m' :
  (forall t c, word t -> bit c -> word (f t c).1 /\ bit (f t c).2) -> (forall t c, word t -> bit c -> (f t c).1 - BASE * (f t c).2 = s * t - c) ->
  zlen pre = cl -> digits pre -> digits l -> bit c0 -> val pre - BASE ^ cl * c0 = v -> n = cl + zlen l ->
  part_done m r l pre f c0 (zlen l) c' m' -> result m r n (-1) bit (v + BASE ^ cl * (s * val l)) c' m'.
Proof.
  intros Hf Hs Hcl Hdp Hdl Hc0 Hv -> (_ & ws & E & ->). rewrite ztake_all in E. pose proof (zlen_run_turns f l c0) as Hz. pose proof (run_turns_word f Hf l c0 Hdl Hc0) as [Hd Hb].
  pose proof (run_turns_val f Hf s Hs l c0 Hdl Hc0) as Hval. rewrite E in Hz, Hd, Hb, Hval. cbn [fst snd] in *. pose proof (zlen_nonneg l). pose proof (zlen_nonneg pre).
  exists (pre ++ ws). rewrite zlen_app, val_app, Hcl. split_and!; [done|lia|by apply digits_app|done|]. rewrite Z.pow_add_r by lia. nia.
Qed.

Lemma bn_sub_part_words_spec m r a b la lb cl dl n :
  digits la -> digits lb -> at_ m a la -> at_ m b lb -> 0 <= cl -> zlen la = cl + Z.max 0 dl -> zlen lb = cl + Z.max 0 (- dl) -> n = cl + Z.abs dl ->
  writable m r n -> apart r n a (zlen la) -> apart r n b (zlen lb) ->
  wp (bn_sub_part_words r a b cl dl) (result m r n (-1) bit (val la - val lb)) (fun _ => False) m.
Proof.
  intros Hda Hdb Ha Hb Hcl Hla Hlb Hn Hr Hra Hrb. unfold bn_sub_part_words. apply wp_bind, wp_assert; [by apply Z.leb_le|].
  apply wp_bind. wp_call (bn_sub_words_spec m r a b (ztake cl la) (ztake cl lb) cl);
    [apply at_take; [done|lia]|apply at_take; [done|lia]|by apply digits_ztake|by apply digits_ztake|rewrite zlen_ztake; lia|rewrite zlen_ztake; lia| |regions|regions| |done].
  { rewrite <- (wadd_0 r). apply (writable_sub _ _ n); [done|lia..]. }
  intros c0 m1 (pre & -> & Hz & Hd & Hc & Hv). assert (Hv' : val pre - BASE ^ cl * c0 = val (ztake cl la) - val (ztake cl lb)) by lia. clear Hv.
  assert (Hea : val la = val (ztake cl la) + BASE ^ cl * val (zdrop cl la)) by (apply val_split; lia).
  assert (Heb : val lb = val (ztake cl lb) + BASE ^ cl * val (zdrop cl lb)) by (apply val_split; lia).
  assert (Hza : zlen (zdrop cl la) = Z.max 0 dl) by (rewrite zlen_zdrop; lia). assert (Hzb : zlen (zdrop cl lb) = Z.max 0 (- dl)) by (rewrite zlen_zdrop; lia).
  assert (Hempty : forall l : list Z, zlen l = 0 -> val l = 0) by (intros l E; by apply zlen_0 in E as ->).
  destruct (Z.eqb_spec dl 0) as [->|Hne].
  { apply wp_ret. exists pre. assert (n = cl) as -> by lia. split_and!; [done|done|done|done|]. rewrite Hea, Heb, (Hempty (zdrop cl la)), (Hempty (zdrop cl lb)) by lia. lia. }
  pose proof (part_done_start m r (zdrop cl la) pre) as Hsa. pose proof (part_done_start m r (zdrop cl lb) pre) as Hsb. destruct (Z.ltb_spec dl 0) as [Hneg|Hpos].
  - set (l := zdrop cl lb) in *. assert (Hr' : writable m r (cl + zlen l)) by (by replace (cl + zlen l) with n by lia).
    assert (Hx : at_ m (wadd b cl) l) by (apply at_drop; [done|lia]). assert (Hdl : digits l) by by apply digits_zdrop. assert (Hap : apart r (cl + zlen l) (wadd b cl) (zlen l)) by regions.
    pose (f t c := sub_step 0 t c). assert (Hf : forall t c, word t -> bit c -> word (f t c).1 /\ bit (f t c).2) by (intros t c Ht Hb'; destruct (sub_step_words 0 t c word_0 Ht Hb') as (? & ? & _); done).
    replace (- dl) with (zlen l - 0) by lia. replace (wadd r cl) with (wadd r (cl + 0)) by (f_equal; lia). rewrite <- (wadd_0 (wadd b cl)).
    wp_call (part_loop_spec m r (wadd b cl) l pre cl f c0 (fun _ => True) negate_turn);
      [|done|apply Hsb|lia|lia| |done].
    + intros j k c m2 _ Hdone Hj Hk Hlt. pose proof (part_done_bit _ _ _ _ _ Hdl Hf _ Hc _ _ _ Hdone) as Hbit.
      wp_call (turn_spec m r (wadd b cl) l pre cl f Hz Hr' Hx Hdl Hap c0 (fun t c => u64 (u64 (0 - t) - c)) (fun t c => if negb (t =? 0) then 1 else c));
        [|exact Hdone|done|done|done|by intros c' m3 [_ H]|done]. intros t Ht. by apply negate_step.
    + intros c' m2 [_ Hdone]. replace (val la - val lb) with (val (ztake cl la) - val (ztake cl lb) + BASE ^ cl * ((-1) * val l)); [|rewrite Hea, Heb, (Hempty (zdrop cl la)) by lia; lia].
      eapply (part_result m r l pre cl f c0 (-1)); try done; [|lia]. intros t c Ht Hb'. destruct (sub_step_words 0 t c word_0 Ht Hb') as (_ & _ & E). unfold f. lia.
  - set (l := zdrop cl la) in *. assert (Hr' : writable m r (cl + zlen l)) by (by replace (cl + zlen l) with n by lia).
    assert (Hx : at_ m (wadd a cl) l) by (apply at_drop; [done|lia]). assert (Hdl : digits l) by by apply digits_zdrop. assert (Hap : apart r (cl + zlen l) (wadd a cl) (zlen l)) by regions.
    pose (f t c := sub_step t 0 c). assert (Hf : forall t c, word t -> bit c -> word (f t c).1 /\ bit (f t c).2) by (intros t c Ht Hb'; destruct (sub_step_words t 0 c Ht word_0 Hb') as (? & ? & _); done).
    assert (Hend : forall c' m2, part_done m r l pre f c0 (zlen l) c' m2 -> result m r n (-1) bit (val la - val lb) c' m2).
    { intros c' m2 Hdone. replace (val la - val lb) with (val (ztake cl la) - val (ztake cl lb) + BASE ^ cl * (1 * val l)); [|rewrite Hea, Heb, (Hempty (zdrop cl lb)) by lia; lia].
      eapply (part_result m r l pre cl f c0 1); try done; [|lia]. intros t c Ht Hb'. destruct (sub_step_words t 0 c Ht word_0 Hb') as (_ & _ & E). unfold f. lia. }
    replace dl with (zlen l - 0) by lia. replace (wadd r cl) with (wadd r (cl + 0)) by (f_equal; lia). rewrite <- (wadd_0 (wadd a cl)). apply wp_bind.
    wp_call (borrow_loop_spec m r (wadd a cl) l pre cl f Hz Hr' Hx Hdl Hap Hf c0 Hc); [done|apply Hsa|lia|lia| |done].
    intros st m2 [(j & -> & Hj & Hdone)|(q & p & c' & save & -> & Hdone)].
    + rewrite (proj2 (Z.ltb_lt 0 (zlen l - j))), (proj2 (Z.ltb_ge (zlen l - j) (zlen l - j))) by lia. cbn [andb]. apply wp_bind, wp_ret. rewrite (proj2 (Z.ltb_lt 0 (zlen l - j))) by lia.
      wp_call (part_loop_spec m r (wadd a cl) l pre cl f c0 (fun c => c = 0) copy_turn);
        [|done|exact Hdone|lia|lia| |done]; [|intros c' m3 [_ Hd']; by apply Hend].
      intros j' k c m3 -> Hd3 Hj' Hk Hlt.
      wp_call (turn_spec m r (wadd a cl) l pre cl f Hz Hr' Hx Hdl Hap c0 (fun t c => t) (fun t c => c)); [|exact Hd3|done|done|done| |done].
      * intros t Ht. unfold f. by rewrite copy_step.
      * intros c' m4 [(t & Ht & ->) Hd4]. unfold f in *. by rewrite copy_step in *.
    + cbn [Z.ltb Z.compare andb]. apply wp_bind, wp_ret, wp_ret. by apply Hend.
Qed.

(** * Absolute differences *)

Lemma sub_sign B x y w c : bit c -> 0 <= w < B -> 0 <= x < B -> 0 <= y < B -> w + -1 * B * c = x - y -> (c =? 1) = (x <? y) /\ w = if x <? y then x - y + B else x - y.
Proof.
  unfold bit. intros Hc Hw Hx Hy E. assert (c = 0 \/ c = 1) as [->| ->] by lia; [rewrite (proj2 (Z.ltb_ge x y)) by lia|rewrite (proj2 (Z.ltb_lt x y)) by lia]; (split; [done|lia]).
Qed.

(** Both differences, the one that is not negative being kept. *)
Definition abs_diff (m : words) (r tmp : wptr) (n : Z) (la lb : list Z) (m' : words) : Prop :=
  exists ws, at_ m' r ws /\ zlen ws = n /\ digits ws /\ val ws = Z.abs (val la - val lb) /\ keeps m m' [(r, n); (tmp, n)].

Lemma abs_diff_select m r tmp n w1 w2 c1 c2 la lb :
  digits la -> digits lb -> zlen la <= n -> zlen lb <= n ->
  writable m r n -> writable m tmp n -> apart r n tmp n ->
  zlen w1 = n -> digits w1 -> bit c1 -> val w1 + -1 * BASE ^ n * c1 = val la - val lb ->
  zlen w2 = n -> digits w2 -> bit c2 -> val w2 + -1 * BASE ^ n * c2 = val lb - val la ->
  wp (bn_select_words r (u64 (0 - c1)) r tmp n)
    (fun _ m' => u64 (0 - c1) = mask_of (val la <? val lb) /\ abs_diff m r tmp n la lb m') (fun _ => False) (wput (wput m tmp w1) r w2).
Proof.
  intros Hda Hdb Hla Hlb Hr Htmp Hap Hz1 Hd1 Hc1 Hv1 Hz2 Hd2 Hc2 Hv2. pose proof (zlen_nonneg w1). rewrite neg_bit by done.
  assert (Hpow : forall l, digits l -> zlen l <= n -> 0 <= val l < BASE ^ n).
  { intros l Hl Hz. destruct (val_range l Hl) as [H0 H1]. split; [done|]. eapply Z.lt_le_trans; [exact H1|]. apply Z.pow_le_mono_r; lia. }
  pose proof (Hpow w1 Hd1 ltac:(lia)) as Hr1. pose proof (Hpow w2 Hd2 ltac:(lia)) as Hr2. pose proof (Hpow la Hda Hla) as Hra. pose proof (Hpow lb Hdb Hlb) as Hrb.
  destruct (sub_sign _ _ _ _ _ Hc1 Hr1 Hra Hrb Hv1) as [E1 E2]. destruct (sub_sign _ _ _ _ _ Hc2 Hr2 Hrb Hra Hv2) as [_ E3]. rewrite E1.
  assert (Hw1 : writable m tmp (zlen w1)) by by rewrite Hz1. assert (Hw2 : writable (wput m tmp w1) r (zlen w2)) by (rewrite Hz2; by apply wput_writable).
  wp_call (bn_select_words_spec (wput (wput m tmp w1) r w2) r r tmp w2 w1 (val la <? val lb) n); [by apply wput_at| |done|done|done|done| |apply ahead_refl|regions| |done].
  { apply wput_apart; [done|by apply wput_at|]. rewrite Hz1, Hz2. regions. }
  { apply wput_writable; [done|]. by apply wput_writable. }
  intros [] m' ->. split; [done|]. set (ws := if val la <? val lb then w2 else w1). assert (Hz : zlen ws = n) by (unfold ws; by destruct (_ <? _)).
  assert (Hw : writable (wput (wput m tmp w1) r w2) r (zlen ws)) by (rewrite Hz, <- Hz2; apply wput_writable; done).
  exists ws. split; [by apply wput_at|]. split; [done|]. split; [unfold ws; by destruct (_ <? _)|]. split; [unfold ws; destruct (Z.ltb_spec (val la) (val lb)), (Z.ltb_spec (val lb) (val la)); lia|].
  eapply keeps_trans; [apply (keeps_put _ _ _ _ n Hw1); [done|done|right; by left]|]. eapply keeps_trans; [apply (keeps_put _ _ _ _ n Hw2); [done|done|by left]|].
  apply (keeps_put _ _ _ _ n Hw); [done|unfold ws; by destruct (_ <? _)|by left].
Qed.

Lemma bn_abs_sub_part_words_spec m r a b la lb cl dl tmp n :
  digits la -> digits lb -> at_ m a la -> at_ m b lb -> 0 <= cl -> zlen la = cl + Z.max 0 dl -> zlen lb = cl + Z.max 0 (- dl) -> n = cl + Z.abs dl ->
  writable m r n -> writable m tmp n -> apart r n a (zlen la) -> apart r n b (zlen lb) -> apart tmp n a (zlen la) -> apart tmp n b (zlen lb) -> apart r n tmp n ->
  wp (bn_abs_sub_part_words r a b cl dl tmp) (fun mask m' => mask = mask_of (val la <? val lb) /\ abs_diff m r tmp n la lb m') (fun _ => False) m.
Proof.
  intros Hda Hdb Ha Hb Hcl Hla Hlb Hn Hr Htmp Hra Hrb Hta Htb Hrt. unfold bn_abs_sub_part_words. apply wp_bind.
  wp_call (bn_sub_part_words_spec m tmp a b la lb cl dl n); [done..| |done]. intros c1 m1 (w1 & -> & Hz1 & Hd1 & Hc1 & Hv1). assert (Hw1 : writable m tmp (zlen w1)) by by rewrite Hz1.
  apply wp_bind. wp_call (bn_sub_part_words_spec (wput m tmp w1) r b a lb la cl (- dl) n);
    [done|done|by apply wput_apart; [|done|rewrite Hz1]|by apply wput_apart; [|done|rewrite Hz1]|done|lia|lia|lia|by apply wput_writable|done|done| |done].
  intros c2 m2 (w2 & -> & Hz2 & Hd2 & Hc2 & Hv2). replace (cl + (if dl <? 0 then - dl else dl)) with n by (destruct (Z.ltb_spec dl 0); lia).
  apply wp_bind. wp_call (abs_diff_select m r tmp n w1 w2 c1 c2 la lb); try (done || lia).
Qed.

Lemma bn_abs_sub_words_spec m r a b la lb n tmp :
  digits la -> digits lb -> at_ m a la -> at_ m b lb -> zlen la = n -> zlen lb = n ->
  writable m r n -> writable m tmp n -> apart r n a n -> apart r n b n -> apart tmp n a n -> apart tmp n b n -> apart r n tmp n ->
  wp (bn_abs_sub_words r a b n tmp) (fun _ m' => abs_diff m r tmp n la lb m') (fun _ => False) m.
Proof.
  intros Hda Hdb Ha Hb Hla Hlb Hr Htmp Hra Hrb Hta Htb Hrt. pose proof (zlen_nonneg la). unfold bn_abs_sub_words. apply wp_bind.
  wp_call (bn_sub_words_spec m tmp a b la lb n); [done|done|done|done|done|done|done|regions|regions| |done]. intros c1 m1 (w1 & -> & Hz1 & Hd1 & Hc1 & Hv1). assert (Hw1 : writable m tmp (zlen w1)) by by rewrite Hz1.
  apply wp_bind. wp_call (bn_sub_words_spec (wput m tmp w1) r b a lb la n);
    [by apply wput_apart; [|done|rewrite Hz1, Hlb]|by apply wput_apart; [|done|rewrite Hz1, Hla]|done|done|done|done|by apply wput_writable|regions|regions| |done].
  intros c2 m2 (w2 & -> & Hz2 & Hd2 & Hc2 & Hv2). wp_call (abs_diff_select m r tmp n w1 w2 c1 c2 la lb); try (done || lia). by intros [] m3 [_ Hd3].
Qed.
