(* ===== verification/BnKaratsuba.v ===== *)
(** Facts about [BnMul]: the Karatsuba products and squares compute the product of the
    numbers, for every power of two of words. *)
From S2P Require Import Prelude Ct BnWords BnWordsFacts BnMulFacts BnSqr CtFacts Bn BnMul BnPartFacts.

Lemma writable_take m p n k : writable m p n -> 0 <= k <= n -> writable m p k.
Proof. intros H Hk. rewrite <- (wadd_0 p). apply (writable_sub _ _ n); [done|lia..]. Qed.
Lemma at_app m p l1 l2 : at_ m p l1 -> at_ m (wadd p (zlen l1)) l2 -> at_ m p (l1 ++ l2).
Proof.
  intros (arr & Hm & H0 & H1 & H2) (arr' & Hm' & H0' & H1' & H2'). cbn [wadd fst snd] in *. rewrite Hm in Hm'. injection Hm' as <-. pose proof (zlen_nonneg l1). pose proof (zlen_nonneg l2).
  exists arr. rewrite zlen_app. split_and!; [done|lia|lia|]. rewrite ztake_split by lia. f_equal; [done|]. rewrite zdrop_zdrop by lia. done.
Qed.

Lemma apart_in p n q k p' n' q' k' : apart p n q k -> inside p' n' p n -> inside q' k' q k -> apart p' n' q' k'.
Proof. intros Hap (E1 & ? & ?) (E2 & ? & ?). unfold apart in *. rewrite E1, E2. lia. Qed.
(** Regions within regions, and within one array, are apart. *)
Ltac placed := repeat match goal with H : apart _ _ _ _ |- _ => clear H end; unfold apart, ahead, inside, wadd; cbn [fst snd]; lia.
Ltac within :=
  first [ match goal with H : apart ?p ?n ?q ?k |- apart ?p' ?n' ?q' ?k' => solve [apply (apart_in p n q k p' n' q' k' H); placed] end | placed | regions ].

(** What is at a place, or may be written there, after changes elsewhere. *)
Ltac kept :=
  first [ eassumption
        | match goal with
          | K : keeps ?m ?m' _ |- at_ ?m' _ _ => apply (proj1 (proj2 K)); [kept | repeat first [exact I | apply Forall_cons_2 | apply Forall_nil_2]; within]
          | K : keeps ?m ?m' _ |- writable ?m' _ _ => apply (keeps_writable m m' _ _ _ K); kept
          | H : writable ?m ?p ?n |- writable ?m ?p ?k => apply (writable_take m p n k H); lia
          | H : writable ?m ?p ?n |- writable ?m (wadd ?p ?i) ?k => apply (writable_sub m p n i k H); lia
          end ].

(** ** The carry to the end *)

Lemma carry_step old c : word old -> 0 <= c <= 3 -> word (u64 (old + c)) /\ 0 <= b2z (u64 (old + c) <? old) <= 1 /\ u64 (old + c) + BASE * b2z (u64 (old + c) <? old) = old + c.
Proof.
  intros Ho Hc. unfold word in *. split; [apply u64_word|]. destruct (Z.lt_ge_cases (old + c) BASE) as [H|H].
  - rewrite u64_id by (unfold word; lia). rewrite (proj2 (Z.ltb_ge _ _)) by lia. cbn [b2z]. lia.
  - assert (u64 (old + c) = old + c - BASE) as ->.
    { unfold u64. change 18446744073709551616 with BASE. rewrite <- (Z.mod_add _ (-1)) by lia. rewrite Z.mod_small; lia. }
    rewrite (proj2 (Z.ltb_lt _ _)) by lia. cbn [b2z]. lia.
Qed.

Lemma propagate_carry_spec m r lr n n2 c :
  at_ m r lr -> digits lr -> zlen lr = 2 * n2 -> 0 <= n <= n2 -> 0 <= c <= 3 -> val lr + BASE ^ (n + n2) * c < BASE ^ (2 * n2) ->
  wp (propagate_carry r n n2 c)
    (fun _ m' => exists ws, at_ m' r ws /\ zlen ws = 2 * n2 /\ digits ws /\ val ws = val lr + BASE ^ (n + n2) * c /\ keeps m m' [(r, 2 * n2)]) (fun _ => False) m.
Proof.
  intros Hr Hd Hz Hn Hc Hlt. unfold propagate_carry. set (k := n + n2) in *. set (hi := zdrop k lr). assert (Hzh : zlen hi = n2 - n) by (unfold hi; rewrite zlen_zdrop; lia).
  assert (Hhi : at_ m (wadd r k) hi) by (apply at_drop; [done|lia]). assert (Hdh : digits hi) by by apply digits_zdrop. pose proof (at_writable _ _ _ Hhi) as Hw. rewrite Hzh in Hw.
  assert (Hv : val lr = val (ztake k lr) + BASE ^ k * val hi) by (apply val_split; lia). pose proof (val_range _ (digits_ztake k lr Hd)) as Hlo. rewrite zlen_ztake in Hlo by lia.
  apply wp_bind. apply (wp_for (fun i c' m' => exists ws, m' = wput m (wadd r k) ws /\ zlen ws = i - k /\ digits ws /\ 0 <= c' <= 3 /\ val ws + BASE ^ (i - k) * c' = val (ztake (i - k) hi) + c)).
  - exists []. rewrite wput_nil by kept. rewrite Z.sub_diag, ztake_0. split_and!; [done|done|constructor|lia|lia|cbn; lia].
  - intros i c' m' Hi (ws & -> & Hzw & Hdw & Hc' & Hvw). destruct (zget_lt hi (i - k)) as [old Hold]; [lia|]. assert (Hww : writable m (wadd r k) (zlen ws)) by (rewrite Hzw; kept).
    apply wp_bind. replace i with (k + (i - k)) at 1 by lia. rewrite <- rd_wadd.
    wp_call (ahead_read m (wadd r k) hi ltac:(by rewrite Hzh) (wadd r k) hi (i - k) ws (i - k) old); [done|done|apply ahead_refl|done|lia|done| |done]. intros ? ? [-> ->].
    destruct (carry_step old c' (digits_zget _ _ _ Hdh Hold) Hc') as (Hs1 & Hs2 & Hs3). apply wp_bind. replace i with (k + (i - k)) at 1 by lia. rewrite <- wr_wadd. wp_call wr_spec; [| |done].
    { apply wput_writable; [done|]. rewrite wadd_wadd. rewrite <- wadd_wadd. apply (writable_sub _ _ (n2 - n)); [done|lia..]. }
    intros [] m' ->. apply wp_ret. exists (ws ++ [u64 (old + c')]). rewrite <- Hzw at 1. rewrite wput_app by (rewrite Hzw; change (zlen [_]) with 1; kept).
    rewrite zlen_snoc, val_snoc, Hzw. replace (i + 1 - k) with (i - k + 1) by lia. rewrite (ztake_next _ _ _ Hold), val_snoc, zlen_ztake, B_pow by lia.
    split_and!; [done|lia|by apply digits_snoc|lia|lia|]. nia.
  - intros c' m' (ws & -> & Hzw & Hdw & Hc' & Hvw). replace (k + Z.of_nat (Z.to_nat (n2 + n2 - k)) - k) with (n2 - n) in * by lia. rewrite <- Hzh, ztake_all, Hzh in Hvw.
    assert (Hww : writable m (wadd r k) (zlen ws)) by by rewrite Hzw. pose proof (val_range _ Hdw) as Hrw. rewrite Hzw in Hrw.
    assert (Hpow : BASE ^ (2 * n2) = BASE ^ k * BASE ^ (n2 - n)) by (rewrite <- Z.pow_add_r by lia; f_equal; lia). pose proof (Z.pow_pos_nonneg BASE k ltac:(lia) ltac:(lia)).
    assert (c' = 0) as ->. { pose proof (Z.pow_pos_nonneg BASE (n2 - n) ltac:(lia) ltac:(lia)). assert (val hi + c < BASE ^ (n2 - n)) by (apply (Z.mul_lt_mono_pos_l (BASE ^ k)); lia). nia. }
    apply wp_assert; [done|]. rewrite Z.mul_0_r, Z.add_0_r in Hvw. assert (K : keeps m (wput m (wadd r k) ws) [(r, 2 * n2)]).
    { eapply (keeps_mono _ _ [(wadd r k, zlen ws)]); [repeat constructor; within|]. apply (keeps_put _ _ _ _ (zlen ws)); [done|done|done|by left]. }
    exists (ztake k lr ++ ws). assert (Hzt : zlen (ztake k lr) = k) by (rewrite zlen_ztake; lia). split_and!.
    + apply at_app; [|rewrite Hzt; by apply wput_at]. apply wput_apart; [done|apply at_take; [done|lia]|]. rewrite Hzt. within.
    + rewrite zlen_app. lia.
    + apply digits_app. split; [by apply digits_ztake|done].
    + rewrite val_app, Hzt, Hvw, Hv. lia.
    + done.
Qed.

(** ** The three products *)

(** What a function may change: its result and its scratch space. *)
Abbreviation mine r rn t tn := [(r, rn); (t, tn)] (only parsing).

Lemma keeps_one m p l Rs q n : writable m p (zlen l) -> digits l -> (q, n) ∈ Rs -> inside p (zlen l) q n -> keeps m (wput m p l) Rs.
Proof.
  intros Hw Hd Hin Hi. eapply (keeps_mono _ _ [(p, zlen l)]); [|by apply (keeps_put _ _ _ _ (zlen l)); [|done|done|left]].
  constructor; [|constructor]. apply Exists_exists. exists (q, n). by split.
Qed.

(** The last steps of both: [M], the middle term, is added in at the word [n]. *)
Lemma add_middle m r t lr mid n n2 c Rs :
  n2 = 2 * n -> 0 < n -> at_ m r lr -> zlen lr = 2 * n2 -> digits lr -> at_ m (wadd t n2) mid -> zlen mid = n2 -> digits mid -> writable m r (2 * n2) -> apart r (2 * n2) (wadd t n2) n2 ->
  0 <= c <= 2 -> val lr + BASE ^ n * (val mid + BASE ^ n2 * c) < BASE ^ (2 * n2) -> (r, 2 * n2) ∈ Rs ->
  wp (carry ← bn_add_words (wadd r n) (wadd r n) (wadd t n2) n2; propagate_carry r n n2 (u64 (c + carry)))
    (fun _ m' => exists ws, at_ m' r ws /\ zlen ws = 2 * n2 /\ digits ws /\ val ws = val lr + BASE ^ n * (val mid + BASE ^ n2 * c) /\ keeps m m' Rs) (fun _ => False) m.
Proof.
  intros Hn Hn0 Hr Hz Hd Hm Hzm Hdm Hwr Hap Hc Hlt HRs. set (mr := ztake n2 (zdrop n lr)). assert (Hzmr : zlen mr = n2) by (unfold mr; rewrite zlen_ztake; [done|rewrite zlen_zdrop; lia]).
  assert (Hmr : at_ m (wadd r n) mr) by (apply at_sub; [done|lia..]). assert (Hdmr : digits mr) by by apply digits_ztake, digits_zdrop.
  apply wp_bind. wp_call (bn_add_words_spec m (wadd r n) (wadd r n) (wadd t n2) mr mid n2); [done|done|done|done|done|done|kept|apply ahead_refl|within| |done].
  intros ca m1 (f & -> & Hzf & Hdf & Hca & Hvf). rewrite Z.mul_1_l in Hvf. unfold bit in Hca. rewrite u64_id by (unfold word; lia).
  assert (Hwf : writable m (wadd r n) (zlen f)) by (rewrite Hzf; kept).
  set (lo := ztake n lr). set (hi := zdrop (n + n2) lr). assert (Hzlo : zlen lo = n) by (unfold lo; rewrite zlen_ztake; lia). assert (Hzhi : zlen hi = n) by (unfold hi; rewrite zlen_zdrop; lia).
  assert (Hsplit : lr = lo ++ mr ++ hi). { unfold lo, mr, hi. replace (zdrop (n + n2) lr) with (zdrop n2 (zdrop n lr)) by (rewrite zdrop_zdrop by lia; f_equal; lia). by rewrite !ztake_zdrop. }
  assert (Hvl : val lr = val lo + BASE ^ n * (val mr + BASE ^ n2 * val hi)) by (rewrite Hsplit at 1; rewrite !val_app, Hzlo, Hzmr; lia).
  assert (Hpow : BASE ^ (n + n2) = BASE ^ n * BASE ^ n2) by (rewrite <- Z.pow_add_r by lia; done).
  assert (Hat : at_ (wput m (wadd r n) f) r (lo ++ f ++ hi)).
  { apply at_app; [|rewrite Hzlo; apply at_app; [by apply wput_at|]]; [apply wput_apart; [done|apply at_take; [done|lia]|within]|].
    rewrite wadd_wadd, Hzf. apply wput_apart; [done|apply at_drop; [done|lia]|]. fold hi. within. }
  assert (Hval : val (lo ++ f ++ hi) + BASE ^ (n + n2) * (c + ca) = val lr + BASE ^ n * (val mid + BASE ^ n2 * c)) by (rewrite !val_app, Hzlo, Hzf, Hvl, Hpow; nia).
  wp_call (propagate_carry_spec (wput m (wadd r n) f) r (lo ++ f ++ hi) n n2 (c + ca)); [exact Hat| |rewrite !zlen_app; lia|lia|lia|lia| |done].
  { apply digits_app. split; [by apply digits_ztake|]. apply digits_app. split; [done|by apply digits_zdrop]. }
  intros [] m2 (ws & Hws & Hzw & Hdw & Hvw & K). exists ws. split_and!; [done|done|done|lia|]. eapply keeps_trans; [eapply keeps_one; [done|done|exact HRs|within]|].
  eapply keeps_mono; [|exact K]. constructor; [|constructor]. apply Exists_exists. exists (r, 2 * n2). split; [done|within].
Qed.

Lemma signed_carry (ng : bool) B S T d e c bo ca :
  bit c -> bit bo -> bit ca -> 0 <= d < B -> 0 <= e < B ->
  d + -1 * B * bo = S - T -> e + 1 * B * ca = S + T -> 0 <= (S + B * c) + (if ng then - T else T) ->
  constant_time_select_w (mask_of ng) (u64 (c - bo)) (u64 (c + ca)) = (if ng then c - bo else c + ca) /\
  0 <= (if ng then c - bo else c + ca) <= 2 /\ (if ng then d else e) + B * (if ng then c - bo else c + ca) = S + B * c + (if ng then - T else T).
Proof.
  unfold bit. intros Hc Hb Hca Hd He Hvd Hve Hpos. rewrite constant_time_select_w_spec by apply u64_word. destruct ng.
  - assert (0 <= c - bo) by nia. rewrite u64_id by (unfold word; lia). split_and!; [done|lia|lia|lia].
  - rewrite u64_id by (unfold word; lia). split_and!; [done|lia|lia|lia].
Qed.

Lemma mul_combine_spec m r t n n2 l01 l23 lt (ng : bool) :
  n2 = 2 * n -> 0 < n -> at_ m r l01 -> at_ m (wadd r n2) l23 -> at_ m (wadd t n2) lt -> zlen l01 = n2 -> zlen l23 = n2 -> zlen lt = n2 -> digits l01 -> digits l23 -> digits lt ->
  writable m r (2 * n2) -> writable m t (4 * n2) -> apart r (2 * n2) t (4 * n2) ->
  let M := val l01 + val l23 + (if ng then - val lt else val lt) in
  0 <= M -> val l01 + BASE ^ n2 * val l23 + BASE ^ n * M < BASE ^ (2 * n2) ->
  wp (mul_combine r t n n2 (mask_of ng))
    (fun _ m' => exists ws, at_ m' r ws /\ zlen ws = 2 * n2 /\ digits ws /\ val ws = val l01 + BASE ^ n2 * val l23 + BASE ^ n * M /\
       keeps m m' (mine r (2 * n2) t (4 * n2))) (fun _ => False) m.
Proof.
  intros Hn Hn0 H01 H23 Ht Hz01 Hz23 Hzt Hd01 Hd23 Hdt Hwr Hwt Hap M HM Hlt. unfold mul_combine.
  apply wp_bind. wp_call (bn_add_words_spec m t r (wadd r n2) l01 l23 n2); [done|done|done|done|done|done|kept|within|within| |done].
  intros c m1 (s & E1 & Hzs & Hds & Hc & Hvs). assert (K1 : keeps m m1 [(t, n2)]) by (subst m1; apply (keeps_put _ _ _ _ n2); [rewrite Hzs; kept|done|done|by left]).
  assert (As : at_ m1 t s) by (subst m1; apply wput_at; rewrite Hzs; kept). clear E1.
  apply wp_bind. wp_call (bn_sub_words_spec m1 (wadd t (n2 * 2)) t (wadd t n2) s lt n2); [done|kept|done|done|done|done|kept|within|within| |done].
  intros bo m2 (d & E2 & Hzd & Hdd & Hbo & Hvd). assert (K2 : keeps m1 m2 [(wadd t (n2 * 2), n2)]) by (subst m2; apply (keeps_put _ _ _ _ n2); [rewrite Hzd; kept|done|done|by left]).
  assert (Ad : at_ m2 (wadd t (n2 * 2)) d) by (subst m2; apply wput_at; rewrite Hzd; kept). clear E2.
  apply wp_bind. wp_call (bn_add_words_spec m2 (wadd t n2) t (wadd t n2) s lt n2); [kept|kept|done|done|done|done|kept|within|within| |done].
  intros ca m3 (e & E3 & Hze & Hde & Hca & Hve). assert (K3 : keeps m2 m3 [(wadd t n2, n2)]) by (subst m3; apply (keeps_put _ _ _ _ n2); [rewrite Hze; kept|done|done|by left]).
  assert (Ae : at_ m3 (wadd t n2) e) by (subst m3; apply wput_at; rewrite Hze; kept). clear E3.
  apply wp_bind. wp_call (bn_select_words_spec m3 (wadd t n2) (wadd t (n2 * 2)) (wadd t n2) d e ng n2); [kept|done|done|done|done|done|kept|within|within| |done].
  intros [] m4 E4. set (mid := if ng then d else e) in *. assert (Hzm : zlen mid = n2) by (unfold mid; by destruct ng). assert (Hdm : digits mid) by (unfold mid; by destruct ng).
  assert (K4 : keeps m3 m4 [(wadd t n2, n2)]) by (subst m4; apply (keeps_put _ _ _ _ n2); [rewrite Hzm; kept|done|done|by left]).
  assert (Am : at_ m4 (wadd t n2) mid) by (subst m4; apply wput_at; rewrite Hzm; kept). clear E4.
  pose proof (val_range d Hdd) as Hrd. pose proof (val_range e Hde) as Hre. rewrite Hzd in Hrd. rewrite Hze in Hre.
  destruct (signed_carry ng (BASE ^ n2) (val s) (val lt) (val d) (val e) c bo ca) as (Esel & Hcr & Hmid); [done..|lia|]. rewrite Esel.
  replace (if ng then val d else val e) with (val mid) in Hmid by (unfold mid; by destruct ng). set (cc := if ng then c - bo else c + ca) in *.
  assert (Hmid' : val mid + BASE ^ n2 * cc = M) by lia. assert (Hlr : at_ m4 r (l01 ++ l23)) by (apply at_app; [kept|rewrite Hz01; kept]).
  wp_call (add_middle m4 r t (l01 ++ l23) mid n n2 cc (mine r (2 * n2) t (4 * n2))); [done|done|exact Hlr|rewrite zlen_app; lia|by apply digits_app|done|done|done|kept|within|done| |by left| |done].
  { rewrite val_app, Hz01, Hmid'. done. }
  intros [] m5 (ws & Hws & Hzw & Hdw & Hvw & K5). exists ws. rewrite val_app, Hz01, Hmid' in Hvw. split_and!; [done|done|done|done|].
  assert (Kt : forall m m' p k, keeps m m' [(p, k)] -> inside p k t (4 * n2) -> keeps m m' (mine r (2 * n2) t (4 * n2))).
  { intros x y p k K Hi. eapply keeps_mono; [|exact K]. constructor; [|constructor]. apply Exists_exists. exists (t, 4 * n2). split; [right; by left|done]. }
  eapply keeps_trans; [eapply Kt; [exact K1|within]|]. eapply keeps_trans; [eapply Kt; [exact K2|within]|]. eapply keeps_trans; [eapply Kt; [exact K3|within]|].
  eapply keeps_trans; [eapply Kt; [exact K4|within]|exact K5].
Qed.

(** * One level of the recursion *)

(** The [n] words at [r] are now the number [v]; else only they and the [tn] words at [t] changed. *)
Definition computes (m : words) (r t : wptr) (n tn v : Z) (m' : words) : Prop :=
  exists ws, at_ m' r ws /\ zlen ws = n /\ digits ws /\ val ws = v /\ keeps m m' (mine r n t tn).

Lemma keeps_in m m' Rs Rs' : keeps m m' Rs -> Forall (fun R => exists R', R' ∈ Rs' /\ inside R.1 R.2 R'.1 R'.2) Rs -> keeps m m' Rs'.
Proof.
  intros K HRs. eapply keeps_mono; [|exact K]. eapply Forall_impl; [exact HRs|]. intros R (R' & Hin & Hi). apply Exists_exists. by exists R'.
Qed.
Lemma keeps_first m m' r n t tn p k : keeps m m' [(p, k)] -> inside p k r n -> keeps m m' (mine r n t tn).
Proof. intros K Hi. eapply keeps_in; [exact K|]. repeat constructor. exists (r, n). split; [by left|done]. Qed.
Lemma keeps_inner m m' p k q l r n t tn :
  keeps m m' (mine p k q l) -> inside p k r n \/ inside p k t tn -> inside q l t tn -> keeps m m' (mine r n t tn).
Proof.
  intros K Hp Hq. eapply keeps_in; [exact K|]. constructor; [|constructor; [|constructor]].
  - destruct Hp; [exists (r, n)|exists (t, tn)]; (split; [|done]); [by left|right; by left].
  - exists (t, tn). split; [right; by left|done].
Qed.

Lemma computes_put m r t n tn v ws : writable m r n -> zlen ws = n -> digits ws -> val ws = v -> computes m r t n tn v (wput m r ws).
Proof.
  intros Hr <- Hd Hv. exists ws. split_and!; [by apply wput_at|done|done|done|]. eapply keeps_first; [by apply (keeps_put _ _ _ _ (zlen ws)); [|done|done|left]|]. unfold inside. lia.
Qed.

(** The words above the product, cleared after it. *)
Lemma zero_after (P : M words unit) m r t n tn v k :
  0 <= k <= n -> writable m r n -> apart r n t tn -> wp P (fun _ m' => computes m r t k tn v m') (fun _ => False) m ->
  wp (P;; wzero (wadd r k) (n - k)) (fun _ m' => computes m r t n tn v m') (fun _ => False) m.
Proof.
  intros Hk Hr Hap HP. apply wp_bind. wp_call HP; [|done]. intros [] m1 (ws & Hws & Hz & Hd & Hv & K).
  wp_call wzero_spec; [lia|kept| |done]. intros [] m2 ->. assert (Hzr : zlen (zrep (n - k) 0) = n - k) by (apply zlen_zrep; lia).
  assert (Hw : writable m1 (wadd r k) (zlen (zrep (n - k) 0))) by (rewrite Hzr; kept).
  exists (ws ++ zrep (n - k) 0). split_and!.
  - apply at_app; [|rewrite Hz; by apply wput_at]. apply wput_apart; [done|done|]. rewrite Hzr, Hz. within.
  - rewrite zlen_app. lia.
  - apply digits_app. split; [done|apply digits_zrep].
  - by rewrite val_app, val_zrep, Z.mul_0_r, Z.add_0_r.
  - eapply keeps_trans; [eapply keeps_inner; [exact K|left; within|within]|]. eapply keeps_one; [done|apply digits_zrep|by left|]. rewrite Hzr. within.
Qed.
(** All the words, cleared before the product is written to the low ones. *)
Lemma zero_before (P : M words unit) m r t n tn v :
  0 <= n -> writable m r n -> apart r n t tn ->
  (forall m', keeps m m' [(r, n)] -> wp P (fun _ m2 => exists k, 0 <= k <= n /\ computes m' r t k tn v m2) (fun _ => False) m') ->
  wp (wzero r n;; P) (fun _ m' => computes m r t n tn v m') (fun _ => False) m.
Proof.
  intros Hn Hr Hap HP. assert (Hzr : zlen (zrep n 0) = n) by (apply zlen_zrep; lia). apply wp_bind. wp_call wzero_spec; [lia|done| |done]. intros [] m1 E.
  assert (K1 : keeps m m1 [(r, n)]) by (subst m1; apply (keeps_put _ _ _ _ n); [by rewrite Hzr|done|apply digits_zrep|by left]).
  assert (A1 : at_ m1 r (zrep n 0)) by (subst m1; apply wput_at; by rewrite Hzr). clear E. wp_call (HP m1 K1); [|done]. intros [] m2 (k & Hk & ws & Hws & Hz & Hd & Hv & K2).
  assert (Hrest : at_ m1 (wadd r k) (zrep (n - k) 0)).
  { replace (zrep (n - k) 0) with (zdrop k (zrep n 0)) by (unfold zdrop, zrep; rewrite drop_replicate; f_equal; lia). apply at_drop; [done|lia]. }
  assert (Hzk : zlen (zrep (n - k) 0) = n - k) by (apply zlen_zrep; lia).
  exists (ws ++ zrep (n - k) 0). split_and!.
  - apply at_app; [done|]. rewrite Hz. apply (proj1 (proj2 K2)); [done|]. apply Forall_cons_2; [|apply Forall_cons_2; [|by apply Forall_nil_2]]; cbn [fst snd]; rewrite Hzk; within.
  - rewrite zlen_app. lia.
  - apply digits_app. split; [done|apply digits_zrep].
  - by rewrite val_app, val_zrep, Z.mul_0_r, Z.add_0_r.
  - eapply keeps_trans; [eapply keeps_first; [exact K1|within]|]. eapply keeps_inner; [exact K2|left; within|within].
Qed.

(** The words of a factor. *)
Definition factor (m : words) (p : wptr) (n : Z) (l : list Z) : Prop := at_ m p l /\ zlen l = n /\ digits l.

(** The three smaller products, by whatever programs, make the product. *)
Section Karatsuba.
Variables (m : words) (r a b t : wptr) (la lb : list Z) (n n2 tna tnb tn : Z).
Hypothesis Hn2 : n2 = 2 * n.
Hypothesis Hn : 0 < n.
Hypothesis Hna : 0 <= tna <= n.
Hypothesis Hnb : 0 <= tnb <= n.
Hypothesis Hla : zlen la = n + tna.
Hypothesis Hlb : zlen lb = n + tnb.
Hypothesis Hda : digits la.
Hypothesis Hdb : digits lb.
Hypothesis Ha : at_ m a la.
Hypothesis Hb : at_ m b lb.
Hypothesis Htn : 4 * n2 <= tn.
Hypothesis Hwr : writable m r (2 * n2).
Hypothesis Hwt : writable m t tn.
Hypothesis Hra : apart r (2 * n2) a (zlen la).
Hypothesis Hrb : apart r (2 * n2) b (zlen lb).
Hypothesis Hta : apart t tn a (zlen la).
Hypothesis Htb : apart t tn b (zlen lb).
Hypothesis Hrt : apart r (2 * n2) t tn.
Local Abbreviation a0 := (ztake n la).
Local Abbreviation a1 := (zdrop n la).
Local Abbreviation b0 := (ztake n lb).
Local Abbreviation b1 := (zdrop n lb).
Local Abbreviation own := (mine r (2 * n2) t tn).

Lemma middle_term : let d := Z.abs (val a0 - val a1) * Z.abs (val b1 - val b0) in
  val a0 * val b0 + val a1 * val b1 + (if xorb (val a0 <? val a1) (val b1 <? val b0) then - d else d) = val a0 * val b1 + val a1 * val b0.
Proof. cbv zeta. destruct (Z.ltb_spec (val a0) (val a1)), (Z.ltb_spec (val b1) (val b0)); cbn [xorb]; nia. Qed.

Lemma four_products :
  val a0 * val b0 + BASE ^ n2 * (val a1 * val b1) + BASE ^ n * (val a0 * val b1 + val a1 * val b0) = val la * val lb.
Proof.
  rewrite (val_split n la), (val_split n lb) by lia. assert (BASE ^ n2 = BASE ^ n * BASE ^ n) as -> by (rewrite <- Z.pow_add_r by lia; f_equal; lia). nia.
Qed.
Lemma product_bound : val la * val lb < BASE ^ (2 * n2).
Proof.
  pose proof (val_range la Hda). pose proof (val_range lb Hdb). assert (BASE ^ (2 * n2) = BASE ^ n2 * BASE ^ n2) as -> by (rewrite <- Z.pow_add_r by lia; f_equal; lia).
  assert (BASE ^ zlen la <= BASE ^ n2) by (apply Z.pow_le_mono_r; lia). assert (BASE ^ zlen lb <= BASE ^ n2) by (apply Z.pow_le_mono_r; lia). nia.
Qed.

(** [P] multiplies the words at [p] and [q] into [d], above the scratch space in use. *)
Definition multiplies (P : M words unit) (d p : wptr) (np : Z) (q : wptr) (nq : Z) : Prop :=
  forall m' x y, keeps m m' own -> factor m' p np x -> factor m' q nq y ->
    wp P (fun _ m2 => computes m' d (wadd t (n2 * 2)) n2 (tn - 2 * n2) (val x * val y) m2) (fun _ => False) m'.

Lemma karatsuba_spec (P1 P2 P3 : M words unit) :
  multiplies P1 (wadd t n2) t n (wadd t n) n -> multiplies P2 r a n b n -> multiplies P3 (wadd r n2) (wadd a n) tna (wadd b n) tnb ->
  wp (neg ← bn_abs_sub_part_words t a (wadd a n) tna (n - tna) (wadd t n2);
      neg' ← bn_abs_sub_part_words (wadd t n) (wadd b n) b tnb (tnb - n) (wadd t n2);
      (P1;; P2;; P3);; mul_combine r t n n2 (Z.lxor neg neg'))
    (fun _ m' => computes m r t (2 * n2) tn (val la * val lb) m') (fun _ => False) m.
Proof.
  intros H1 H2 H3. assert (Hz0 : zlen a0 = n) by (rewrite zlen_ztake; lia). assert (Hz1 : zlen a1 = tna) by (rewrite zlen_zdrop; lia).
  assert (Hy0 : zlen b0 = n) by (rewrite zlen_ztake; lia). assert (Hy1 : zlen b1 = tnb) by (rewrite zlen_zdrop; lia).
  assert (Aa0 : at_ m a a0) by (apply at_take; [done|lia]). assert (Aa1 : at_ m (wadd a n) a1) by (apply at_drop; [done|lia]).
  assert (Ab0 : at_ m b b0) by (apply at_take; [done|lia]). assert (Ab1 : at_ m (wadd b n) b1) by (apply at_drop; [done|lia]).
  assert (Da0 : digits a0) by by apply digits_ztake. assert (Da1 : digits a1) by by apply digits_zdrop.
  assert (Db0 : digits b0) by by apply digits_ztake. assert (Db1 : digits b1) by by apply digits_zdrop.
  apply wp_bind. wp_call (bn_abs_sub_part_words_spec m t a (wadd a n) a0 a1 tna (n - tna) (wadd t n2) n);
    [done|done|done|done|lia|lia|lia|lia|kept|kept|rewrite ?Hz0, ?Hz1; within..| |done].
  intros mask m1 [-> (x & Ax & Hzx & Hdx & Hvx & K1)]. apply wp_bind.
  wp_call (bn_abs_sub_part_words_spec m1 (wadd t n) (wadd b n) b b1 b0 tnb (tnb - n) (wadd t n2) n);
    [done|done|kept|kept|lia|lia|lia|lia|kept|kept|rewrite ?Hy0, ?Hy1; within..| |done].
  intros mask m2 [-> (y & Ay & Hzy & Hdy & Hvy & K2)]. rewrite lxor_mask. set (ng := xorb _ _).
  assert (Ax2 : at_ m2 t x) by kept. assert (KK : keeps m m2 own).
  { eapply keeps_trans; [eapply keeps_inner; [exact K1|right; within|within]|eapply keeps_inner; [exact K2|right; within|within]]. }
  apply wp_bind, wp_bind. wp_call (H1 m2 x y KK); [by split_and!|by split_and!| |done]. intros [] m3 (lt & At & Hzt & Hdt & Hvt & K3).
  assert (KK3 : keeps m m3 own) by (eapply keeps_trans; [exact KK|eapply keeps_inner; [exact K3|right; within|within]]).
  apply wp_bind. wp_call (H2 m3 a0 b0 KK3); [split_and!; [kept|done|done]|split_and!; [kept|done|done]| |done]. intros [] m4 (l01 & A01 & Hz01 & Hd01 & Hv01 & K4).
  assert (KK4 : keeps m m4 own) by (eapply keeps_trans; [exact KK3|eapply keeps_inner; [exact K4|left; within|within]]).
  wp_call (H3 m4 a1 b1 KK4); [split_and!; [kept|done|done]|split_and!; [kept|done|done]| |done]. intros [] m5 (l23 & A23 & Hz23 & Hd23 & Hv23 & K5).
  assert (KK5 : keeps m m5 own) by (eapply keeps_trans; [exact KK4|eapply keeps_inner; [exact K5|left; within|within]]).
  pose proof middle_term as HM. pose proof four_products as HP. pose proof product_bound as HB. cbv zeta in HM. fold ng in HM. rewrite <- Hvx, <- Hvy, <- Hvt, <- Hv01, <- Hv23 in HM. rewrite <- Hv01, <- Hv23, <- HM in HP.
  assert (HM0 : 0 <= val l01 + val l23 + (if ng then - val lt else val lt)).
  { rewrite HM. pose proof (val_range _ Da0). pose proof (val_range _ Da1). pose proof (val_range _ Db0). pose proof (val_range _ Db1). apply Z.add_nonneg_nonneg; apply Z.mul_nonneg_nonneg; lia. }
  rewrite <- HP in HB. assert (At5 : at_ m5 (wadd t n2) lt) by kept. assert (A015 : at_ m5 r l01) by kept. assert (Hwr5 : writable m5 r (2 * n2)) by kept. assert (Hwt5 : writable m5 t (4 * n2)) by kept.
  wp_call (mul_combine_spec m5 r t n n2 l01 l23 lt ng); [exact Hn2|exact Hn|exact A015|exact A23|exact At5|exact Hz01|exact Hz23|exact Hzt|exact Hd01|exact Hd23|exact Hdt|exact Hwr5|exact Hwt5|within|exact HM0|exact HB| |done].
  intros [] m6 (ws & Hws & Hzw & Hdw & Hvw & K6). exists ws. rewrite Hvw, HP. split_and!; [done|done|done|done|]. eapply keeps_trans; [exact KK5|].
  eapply keeps_inner; [exact K6|left; within|within].
Qed.
End Karatsuba.
