(* ===== verification/BnMulRecursive.v ===== *)
(** Facts about [BnMul]: the recursive products and squares, by induction on the fuel, for
    every power of two of words. *)
From S2P Require Import Prelude Ct BnWords BnWordsFacts BnMulFacts BnSqr CtFacts Bn BnMul BnPartFacts BnKaratsuba.

(** * Powers of two *)

Lemma is_pow2_pow k : is_pow2 (2 ^ Z.of_nat k) = true.
Proof.
  unfold is_pow2. pose proof (Z.pow_pos_nonneg 2 (Z.of_nat k) ltac:(lia) ltac:(lia)). rewrite (proj2 (Z.eqb_neq _ _)) by lia.
  rewrite Z.sub_1_r, <- Z.ones_equiv, Z.land_ones, Z.mod_same by lia. done.
Qed.
Lemma pow_half k : 1 < 2 ^ Z.of_nat k -> exists j, k = S j /\ 2 ^ Z.of_nat k / 2 = 2 ^ Z.of_nat j /\ 2 ^ Z.of_nat k = 2 * 2 ^ Z.of_nat j.
Proof.
  intros H. destruct k as [|j]; [cbn in H; lia|]. exists j. rewrite Nat2Z.inj_succ, Z.pow_succ_r by lia. rewrite (Z.mul_comm 2), Z.div_mul by lia. lia.
Qed.
(** Between two powers there is no other. *)
Lemma pow_gap j c : 2 ^ Z.of_nat c < 2 ^ Z.of_nat j -> 2 * 2 ^ Z.of_nat c <= 2 ^ Z.of_nat j.
Proof. intros H. apply Z.pow_lt_mono_r_iff in H; [|lia..]. rewrite <- Z.pow_succ_r by lia. apply Z.pow_le_mono_r; lia. Qed.

(** * From products to what a recursive product computes *)

Lemma product_computes m r t la lb n tn m' :
  writable m r n -> zlen la + zlen lb = n -> product m r la lb m' -> computes m r t n tn (val la * val lb) m'.
Proof. intros Hr Hn (ws & -> & Hz & Hd & Hv). apply computes_put; [done|lia|done|done]. Qed.

Section Small.
Variables (m : words) (r a b t : wptr) (la lb : list Z) (na nb tn : Z).
Hypothesis Hfa : factor m a na la.
Hypothesis Hfb : factor m b nb lb.

Lemma comba8_computes : na = 8 -> nb = 8 -> writable m r 16 -> apart r 16 a 8 -> apart r 16 b 8 ->
  wp (bn_mul_comba8 r a b) (fun _ m' => computes m r t 16 tn (val la * val lb) m') (fun _ => False) m.
Proof.
  intros -> -> Hr Hra Hrb. destruct Hfa as (? & ? & ?), Hfb as (? & ? & ?). wp_call (bn_mul_comba8_spec m r a b la lb); [done..| |done]. intros [] m' (ws & -> & Hz & Hd & Hv). by apply computes_put.
Qed.
Lemma normal_computes k : k = na + nb -> writable m r k -> apart r k a na -> apart r k b nb ->
  wp (bn_mul_normal r a na b nb) (fun _ m' => computes m r t k tn (val la * val lb) m') (fun _ => False) m.
Proof.
  intros -> Hr Hra Hrb. destruct Hfa as (? & <- & ?), Hfb as (? & <- & ?). wp_call (bn_mul_normal_spec m r a b la lb); [done..| |done]. intros [] m' Hp. by apply product_computes.
Qed.
(** With the words above cleared, for numbers of fewer than [n] words. *)
Lemma normal_padded n : na + nb <= n -> writable m r n -> apart r n a na -> apart r n b nb -> apart r n t tn ->
  wp (bn_mul_normal r a na b nb;; wzero (wadd r (na + nb)) (n - (na + nb))) (fun _ m' => computes m r t n tn (val la * val lb) m') (fun _ => False) m.
Proof.
  intros Hn Hr Hra Hrb Hrt. pose proof Hfa as (_ & Hla & _). pose proof Hfb as (_ & Hlb & _). pose proof (zlen_nonneg la). pose proof (zlen_nonneg lb).
  apply zero_after; [lia|done|done|]. apply normal_computes; [done|kept|regions|regions].
Qed.
End Small.

(** * bn_mul_recursive *)

Lemma bn_mul_recursive_spec fuel k m r a b la lb n2 dna dnb t tn :
  n2 = 2 ^ Z.of_nat k -> (k < fuel)%nat -> -8 <= dna <= 0 -> -8 <= dnb <= 0 -> 4 * n2 <= tn ->
  factor m a (n2 + dna) la -> factor m b (n2 + dnb) lb ->
  writable m r (2 * n2) -> writable m t tn -> apart r (2 * n2) a (n2 + dna) -> apart r (2 * n2) b (n2 + dnb) ->
  apart t tn a (n2 + dna) -> apart t tn b (n2 + dnb) -> apart r (2 * n2) t tn ->
  wp (bn_mul_recursive fuel r a b n2 dna dnb t) (fun _ m' => computes m r t (2 * n2) tn (val la * val lb) m') (fun _ => False) m.
Proof.
  revert k m r a b la lb n2 dna dnb t tn. induction fuel as [|fuel IH]; intros k m r a b la lb n2 dna dnb t tn Hn2 Hk Hdna Hdnb Htn Hfa Hfb Hr Ht Hra Hrb Hta Htb Hrt; [lia|].
  pose proof Hfa as (Ha & Hla & Hda). pose proof Hfb as (Hb & Hlb & Hdb). pose proof (zlen_nonneg la). pose proof (zlen_nonneg lb).
  cbn [bn_mul_recursive]. change (- BN_MUL_RECURSIVE_SIZE_NORMAL / 2) with (-8).
  apply wp_bind, wp_assert; [rewrite Hn2; apply is_pow2_pow|]. do 2 (apply wp_bind, wp_assert; [apply andb_true_intro; split; apply Z.leb_le; lia|]).
  destruct ((n2 =? 8) && (dna =? 0) && (dnb =? 0)) eqn:E8.
  { apply andb_prop in E8 as [[E8 E1]%andb_prop E2]. apply Z.eqb_eq in E8, E1, E2. subst dna dnb. rewrite E8 in *. by apply (comba8_computes m r a b t la lb (8 + 0) (8 + 0)). }
  destruct (Z.ltb_spec n2 BN_MUL_RECURSIVE_SIZE_NORMAL) as [Hlt|Hge]; change BN_MUL_RECURSIVE_SIZE_NORMAL with 16 in *.
  { pose proof (normal_padded m r a b t la lb _ _ tn Hfa Hfb (2 * n2) ltac:(lia) Hr Hra Hrb Hrt) as Hp.
    replace (n2 + dna + (n2 + dnb)) with (2 * n2 + dna + dnb) in Hp by lia. replace (2 * n2 - (2 * n2 + dna + dnb)) with (- (dna + dnb)) in Hp by lia.
    destruct (Z.ltb_spec (dna + dnb) 0); [done|]. apply wp_bind. wp_call (normal_computes m r a b t la lb _ _ tn Hfa Hfb (2 * n2)); [lia|done|done|done| |done].
    intros [] m' Hm'. by apply wp_ret. }
  destruct (pow_half k) as (j & -> & Hhalf & Htwo); [lia|]. rewrite <- Hn2 in Hhalf, Htwo. cbv zeta. rewrite Hhalf in *. set (n := 2 ^ Z.of_nat j) in *.
  rewrite (proj2 (Z.eqb_neq n 4)) by lia. cbn [andb].
  rewrite <- Hla in Hra, Hta. rewrite <- Hlb in Hrb, Htb.
  pose proof (karatsuba_spec m r a b t la lb n n2 (n + dna) (n + dnb) tn ltac:(lia) ltac:(lia) ltac:(lia) ltac:(lia) ltac:(lia) ltac:(lia) Hda Hdb Ha Hb Htn Hr Ht Hra Hrb Hta Htb Hrt) as Hkar.
  rewrite Hla in Hra, Hta. rewrite Hlb in Hrb, Htb. unfold multiplies in Hkar.
  destruct ((n =? 8) && (dna =? 0) && (dnb =? 0)) eqn:E8'.
  - apply andb_prop in E8' as [[E E1]%andb_prop E2]. apply Z.eqb_eq in E, E1, E2. subst dna dnb. clear E8 Hhalf Hn2. clearbody n. assert (n2 = 16) by lia. subst n n2. apply Hkar; clear Hkar; intros m' x y K Hx Hy.
    all: eapply comba8_computes; [exact Hx|exact Hy|done|done|kept|regions|regions].
  - apply Hkar; clear Hkar; intros m' x y K Hx Hy; rewrite Htwo.
    all: apply (IH j); [done|lia|lia|lia|lia|rewrite ?Z.add_0_r; exact Hx|rewrite ?Z.add_0_r; exact Hy|kept|kept|within..].
Qed.

(** * bn_mul_part_recursive *)

(** The halving that finds the power of two for the upper words. *)
Lemma halving_spec (call_part call_rec : Z -> M words unit) tna tnb fuel j i Q m :
  i = 2 ^ Z.of_nat j -> 0 <= tna < i -> 0 <= tnb < i -> -1 <= tna - tnb <= 1 -> 16 <= tna \/ 16 <= tnb -> (j < fuel)%nat ->
  (forall j', (j' < j)%nat -> let i' := 2 ^ Z.of_nat j' in 16 <= i' -> 0 <= tna - i' < i' -> 0 <= tnb - i' < i' -> wp (call_part i') (fun _ => Q) (fun _ => False) m) ->
  (forall j', (j' < j)%nat -> let i' := 2 ^ Z.of_nat j' in -8 <= tna - i' <= 0 -> -8 <= tnb - i' <= 0 -> wp (call_rec i') (fun _ => Q) (fun _ => False) m) ->
  wp (iter fuel (fun i => let i := i / 2 in
        if (i <? tna) || (i <? tnb) then call_part i;; mret (inr tt)
        else if (i =? tna) || (i =? tnb) then call_rec i;; mret (inr tt)
        else mret (inl i)) i) (fun _ => Q) (fun _ => False) m.
Proof.
  revert j i. induction fuel as [|fuel IH]; intros j i Hi Ha Hb Hd H16 Hfuel Hp Hr; [lia|]. cbn [iter]. apply wp_bind. cbv zeta.
  destruct (pow_half j) as (j' & -> & Hhalf & Htwo); [lia|]. rewrite Hi, Hhalf. rewrite Htwo in Hi. specialize (Hp j' ltac:(lia)) as Hp'. specialize (Hr j' ltac:(lia)) as Hr'. cbv zeta in Hp', Hr'.
  assert (H16' : 16 <= 2 ^ Z.of_nat j').
  { destruct (Z.le_gt_cases 16 (2 ^ Z.of_nat j')) as [|Hlt]; [done|]. assert (2 * 2 ^ Z.of_nat j' <= 2 ^ Z.of_nat 4) by (apply pow_gap; exact Hlt). change (2 ^ Z.of_nat 4) with 16 in *. lia. }
  set (i' := 2 ^ Z.of_nat j') in *. destruct (Z.ltb_spec i' tna), (Z.ltb_spec i' tnb); cbn [orb]; try (apply wp_bind; wp_call Hp'; [done|lia|lia| |done]; intros [] m' HQ; by apply wp_ret, wp_ret).
  destruct (Z.eqb_spec i' tna), (Z.eqb_spec i' tnb); cbn [orb]; try (apply wp_bind; wp_call Hr'; [lia|lia| |done]; intros [] m' HQ; by apply wp_ret, wp_ret).
  apply wp_ret. apply (IH j'); [done|lia|lia|lia|lia|lia|intros; apply Hp; lia|intros; apply Hr; lia].
Qed.

Lemma bn_mul_part_recursive_spec fuel k m r a b la lb n tna tnb t tn :
  n = 2 ^ Z.of_nat k -> 8 <= n -> (S k < fuel)%nat -> 0 <= tna < n -> 0 <= tnb < n -> -1 <= tna - tnb <= 1 -> 8 * n <= tn ->
  factor m a (n + tna) la -> factor m b (n + tnb) lb ->
  writable m r (4 * n) -> writable m t tn -> apart r (4 * n) a (n + tna) -> apart r (4 * n) b (n + tnb) ->
  apart t tn a (n + tna) -> apart t tn b (n + tnb) -> apart r (4 * n) t tn ->
  wp (bn_mul_part_recursive fuel r a b n tna tnb t) (fun _ m' => computes m r t (4 * n) tn (val la * val lb) m') (fun _ => False) m.
Proof.
  revert k m r a b la lb n tna tnb t tn. induction fuel as [|fuel IH]; intros k m r a b la lb n tna tnb t tn Hn H8 Hk Hna Hnb Hd Htn Hfa Hfb Hr Ht Hra Hrb Hta Htb Hrt; [lia|].
  pose proof Hfa as (Ha & Hla & Hda). pose proof Hfb as (Hb & Hlb & Hdb). cbn [bn_mul_part_recursive].
  apply wp_bind, wp_assert; [rewrite Hn; apply is_pow2_pow|]. do 2 (apply wp_bind, wp_assert; [apply andb_true_intro; split; [apply Z.leb_le|apply Z.ltb_lt]; lia|]).
  apply wp_bind, wp_assert; [apply andb_true_intro; split; apply Z.leb_le; lia|]. cbv zeta. rewrite (proj2 (Z.ltb_ge n 8)) by done.
  set (n2 := n * 2). assert (Hn2 : n2 = 2 * n) by lia. clearbody n2. replace (4 * n) with (2 * n2) in * by lia.
  rewrite <- Hla in Hra, Hta. rewrite <- Hlb in Hrb, Htb.
  pose proof (karatsuba_spec m r a b t la lb n n2 tna tnb tn ltac:(lia) ltac:(lia) ltac:(lia) ltac:(lia) ltac:(lia) ltac:(lia) Hda Hdb Ha Hb ltac:(lia) Hr Ht Hra Hrb Hta Htb Hrt) as Hkar.
  rewrite Hla in Hra, Hta. rewrite Hlb in Hrb, Htb. unfold multiplies in Hkar.
  destruct (Z.eqb_spec n 8) as [E|E].
  - clear Hn IH. assert (n2 = 16) by lia. clear Hn2. subst n n2. apply Hkar; clear Hkar; intros m' x y K Hx Hy.
    1,2: eapply comba8_computes; [exact Hx|exact Hy|done|done|kept|within|within].
    replace (wadd r (16 + tna + tnb)) with (wadd (wadd r 16) (tna + tnb)) by (rewrite wadd_wadd; f_equal; lia). replace (16 - tna - tnb) with (16 - (tna + tnb)) by lia.
    eapply normal_padded; [exact Hx|exact Hy|lia|kept|within|within|within].
  - apply Hkar; clear Hkar; intros m' x y K Hx Hy.
    1,2: rewrite Hn2; apply (bn_mul_recursive_spec fuel k); [done|lia|lia|lia|lia|rewrite ?Z.add_0_r; exact Hx|rewrite ?Z.add_0_r; exact Hy|kept|kept|within..].
    change BN_MUL_RECURSIVE_SIZE_NORMAL with 16.
    apply zero_before; [lia|kept|within|]. intros m1 K1.
    assert (Hx1 : factor m1 (wadd a n) tna x) by (destruct Hx as (? & ? & ?); split_and!; [kept|done|done]).
    assert (Hy1 : factor m1 (wadd b n) tnb y) by (destruct Hy as (? & ? & ?); split_and!; [kept|done|done]).
    assert (Hw1 : writable m1 (wadd r n2) n2) by kept. assert (Ht1 : writable m1 (wadd t (n2 * 2)) (tn - 2 * n2)) by kept.
    destruct ((tna <? 16) && (tnb <? 16)) eqn:E16.
    { wp_call (normal_computes m1 (wadd r n2) (wadd a n) (wadd b n) (wadd t (n2 * 2)) x y tna tnb (tn - 2 * n2) Hx1 Hy1 (tna + tnb)); [done|kept|within|within| |done].
      intros [] m2 H2. exists (tna + tnb). split; [lia|done]. }
    assert (Hbig : 16 <= tna \/ 16 <= tnb) by (apply andb_false_iff in E16 as [?%Z.ltb_ge|?%Z.ltb_ge]; [by left|by right]).
    assert (Hroom : forall j', (j' < k)%nat -> 2 * 2 ^ Z.of_nat j' <= n) by (intros j' Hj'; rewrite Hn; apply pow_gap, Z.pow_lt_mono_r; lia).
    apply (halving_spec (fun i => bn_mul_part_recursive fuel (wadd r n2) (wadd a n) (wadd b n) i (tna - i) (tnb - i) (wadd t (n2 * 2)))
                        (fun i => bn_mul_recursive fuel (wadd r n2) (wadd a n) (wadd b n) i (tna - i) (tnb - i) (wadd t (n2 * 2))) tna tnb _ k);
      [done|done|done|done|done|rewrite Hn; pose proof (Z.pow_gt_lin_r 2 (Z.of_nat k)); lia| |]; intros j' Hj' i'; specialize (Hroom j' Hj'); fold i' in Hroom.
    + intros H16 Hia Hib. wp_call (IH j' m1 (wadd r n2) (wadd a n) (wadd b n) x y i' (tna - i') (tnb - i') (wadd t (n2 * 2)) (tn - 2 * n2));
        [done|lia|lia|lia|lia|lia|lia|by rewrite Zplus_minus|by rewrite Zplus_minus|kept|done|rewrite ?Zplus_minus; within..| |done].
      intros [] m2 H2. exists (4 * i'). split; [lia|done].
    + intros Hia Hib. wp_call (bn_mul_recursive_spec fuel j' m1 (wadd r n2) (wadd a n) (wadd b n) x y i' (tna - i') (tnb - i') (wadd t (n2 * 2)) (tn - 2 * n2));
        [done|lia|lia|lia|lia|by rewrite Zplus_minus|by rewrite Zplus_minus|kept|done|rewrite ?Zplus_minus; within..| |done].
      intros [] m2 H2. exists (2 * i'). split; [lia|done].
Qed.

(** * bn_sqr_recursive *)

Lemma sqr_small m r a t la n n' tn :
  factor m a n la -> 0 < n -> n' = 2 * n -> n' <= tn -> writable m r n' -> writable m t tn -> apart r n' a n -> apart t tn a n -> apart r n' t tn ->
  (n = 4 -> wp (bn_sqr_comba4 r a) (fun _ m' => computes m r t n' tn (val la * val la) m') (fun _ => False) m) /\
  (n = 8 -> wp (bn_sqr_comba8 r a) (fun _ m' => computes m r t n' tn (val la * val la) m') (fun _ => False) m) /\
  wp (bn_sqr_normal r a n t) (fun _ m' => computes m r t n' tn (val la * val la) m') (fun _ => False) m.
Proof.
  intros (Ha & Hla & Hda) Hn -> Htn Hr Ht Hra Hta Hrt. split_and!.
  - intros ->. wp_call (bn_sqr_comba4_spec m r a la); [done..| |done]. intros [] m' (ws & -> & Hz & Hd & Hv). by apply computes_put.
  - intros ->. wp_call (bn_sqr_comba8_spec m r a la); [done..| |done]. intros [] m' (ws & -> & Hz & Hd & Hv). by apply computes_put.
  - subst n. wp_call (bn_sqr_normal_spec m r a t la); [done|done|done|kept|done|within|within| |done].
    intros [] m' [[? _]|(w1 & sq & ws & -> & Hz1 & Hzs & Hd1 & Hds & Hz & Hd & Hv)]; [lia|].
    assert (W1 : writable m r (zlen w1)) by by rewrite Hz1. assert (W2 : writable (wput m r w1) t (zlen sq)) by (rewrite Hzs; apply wput_writable; [done|kept]).
    assert (W3 : writable (wput (wput m r w1) t sq) r (zlen ws)) by (rewrite Hz; apply wput_writable; [done|by apply wput_writable]).
    exists ws. split_and!; [by apply wput_at|done|done|done|].
    eapply keeps_trans; [eapply keeps_one; [done|done|by left|rewrite Hz1; placed]|]. eapply keeps_trans; [eapply keeps_one; [done|done|right; by left|rewrite Hzs; placed]|].
    eapply keeps_one; [done|done|by left|rewrite Hz; placed].
Qed.

(** The last steps: twice the cross product is what the squares leave of the square of the difference. *)
Lemma sqr_combine_spec m r t n n2 l01 l23 lt tn :
  n2 = 2 * n -> 0 < n -> at_ m r l01 -> at_ m (wadd r n2) l23 -> at_ m (wadd t n2) lt -> zlen l01 = n2 -> zlen l23 = n2 -> zlen lt = n2 -> digits l01 -> digits l23 -> digits lt ->
  writable m r (2 * n2) -> writable m t tn -> 4 * n2 <= tn -> apart r (2 * n2) t tn ->
  let M := val l01 + val l23 - val lt in
  0 <= M -> val l01 + BASE ^ n2 * val l23 + BASE ^ n * M < BASE ^ (2 * n2) ->
  wp (c ← bn_add_words t r (wadd r n2) n2;
      borrow ← bn_sub_words (wadd t n2) t (wadd t n2) n2;
      carry ← bn_add_words (wadd r n) (wadd r n) (wadd t n2) n2;
      propagate_carry r n n2 (u64 (u64 (c - borrow) + carry)))
    (fun _ m' => computes m r t (2 * n2) tn (val l01 + BASE ^ n2 * val l23 + BASE ^ n * M) m') (fun _ => False) m.
Proof.
  intros Hn Hn0 H01 H23 Ht Hz01 Hz23 Hzt Hd01 Hd23 Hdt Hwr Hwt Htn Hap M HM Hlt.
  apply wp_bind. wp_call (bn_add_words_spec m t r (wadd r n2) l01 l23 n2); [done|done|done|done|done|done|kept|regions|regions| |done].
  intros c m1 (s & E1 & Hzs & Hds & Hc & Hvs). assert (K1 : keeps m m1 (mine r (2 * n2) t tn)) by (subst m1; eapply keeps_one; [rewrite Hzs; kept|done|right; by left|rewrite Hzs; placed]).
  assert (As : at_ m1 t s) by (subst m1; apply wput_at; rewrite Hzs; kept).
  assert (K1' : keeps m m1 [(t, n2)]) by (subst m1; apply (keeps_put _ _ _ _ n2); [rewrite Hzs; kept|done|done|by left]). clear E1.
  apply wp_bind. wp_call (bn_sub_words_spec m1 (wadd t n2) t (wadd t n2) s lt n2); [done|kept|done|done|done|done|kept|regions|regions| |done].
  intros bo m2 (d & E2 & Hzd & Hdd & Hbo & Hvd). assert (K2 : keeps m1 m2 [(wadd t n2, n2)]) by (subst m2; apply (keeps_put _ _ _ _ n2); [rewrite Hzd; kept|done|done|by left]).
  assert (Ad : at_ m2 (wadd t n2) d) by (subst m2; apply wput_at; rewrite Hzd; kept). clear E2.
  pose proof (val_range d Hdd) as Hrd. rewrite Hzd in Hrd. unfold bit in Hc, Hbo.
  assert (Hcc : 0 <= c - bo) by (unfold M in HM; nia). rewrite (u64_id (c - bo)) by (unfold word; lia).
  assert (Hlr : at_ m2 r (l01 ++ l23)) by (apply at_app; [kept|rewrite Hz01; kept]). assert (Hmid : val d + BASE ^ n2 * (c - bo) = M) by (unfold M; lia).
  wp_call (add_middle m2 r t (l01 ++ l23) d n n2 (c - bo) (mine r (2 * n2) t tn)); [done|done|exact Hlr|rewrite zlen_app; lia|by apply digits_app|done|done|done|kept|within|lia| |by left| |done].
  { rewrite val_app, Hz01, Hmid. done. }
  intros [] m5 (ws & Hws & Hzw & Hdw & Hvw & K5). exists ws. rewrite val_app, Hz01, Hmid in Hvw. split_and!; [done|done|done|done|].
  eapply keeps_trans; [exact K1|]. eapply keeps_trans; [|exact K5]. eapply keeps_in; [exact K2|]. repeat constructor. exists (t, tn). split; [right; by left|placed].
Qed.

Lemma square_bound n2 la : digits la -> zlen la = n2 -> val la * val la < BASE ^ (2 * n2).
Proof.
  intros Hd <-. pose proof (val_range la Hd). pose proof (zlen_nonneg la). assert (BASE ^ (2 * zlen la) = BASE ^ zlen la * BASE ^ zlen la) as -> by (rewrite <- Z.pow_add_r by lia; f_equal; lia). nia.
Qed.

Lemma bn_sqr_recursive_spec fuel k m r a la n2 t tn :
  n2 = 2 ^ Z.of_nat k -> (k < fuel)%nat -> 4 * n2 <= tn -> factor m a n2 la ->
  writable m r (2 * n2) -> writable m t tn -> apart r (2 * n2) a n2 -> apart t tn a n2 -> apart r (2 * n2) t tn ->
  wp (bn_sqr_recursive fuel r a n2 t) (fun _ m' => computes m r t (2 * n2) tn (val la * val la) m') (fun _ => False) m.
Proof.
  revert k m r a la n2 t tn. induction fuel as [|fuel IH]; intros k m r a la n2 t tn Hn2 Hk Htn Hfa Hr Ht Hra Hta Hrt; [lia|].
  pose proof Hfa as (Ha & Hla & Hda). pose proof (Z.pow_pos_nonneg 2 (Z.of_nat k) ltac:(lia) ltac:(lia)).
  cbn [bn_sqr_recursive]. apply wp_bind, wp_assert; [rewrite Hn2; apply is_pow2_pow|].
  destruct (sqr_small m r a t la n2 (2 * n2) tn Hfa) as (H4 & H8 & Hnormal); [lia|done|lia|done|done|done|done|done|].
  destruct (Z.eqb_spec n2 4) as [E4|N4]; [by apply H4|]. destruct (Z.eqb_spec n2 8) as [E8|N8]; [by apply H8|]. change BN_SQR_RECURSIVE_SIZE_NORMAL with 16.
  destruct (Z.ltb_spec n2 16) as [Hlt|Hge]; [exact Hnormal|]. clear H4 H8 Hnormal.
  destruct (pow_half k) as (j & -> & Hhalf & Htwo); [lia|]. rewrite <- Hn2 in Hhalf, Htwo. cbv zeta. rewrite Hhalf in *. set (n := 2 ^ Z.of_nat j) in *.
  set (a0 := ztake n la). set (a1 := zdrop n la). assert (Hz0 : zlen a0 = n) by (unfold a0; rewrite zlen_ztake; lia). assert (Hz1 : zlen a1 = n) by (unfold a1; rewrite zlen_zdrop; lia).
  assert (Aa0 : at_ m a a0) by (apply at_take; [done|lia]). assert (Aa1 : at_ m (wadd a n) a1) by (apply at_drop; [done|lia]).
  assert (Da0 : digits a0) by by apply digits_ztake. assert (Da1 : digits a1) by by apply digits_zdrop.
  assert (Hva : val la = val a0 + BASE ^ n * val a1) by (apply val_split; lia).
  apply wp_bind. wp_call (bn_abs_sub_words_spec m t a (wadd a n) a0 a1 n (wadd t n)); [done|done|done|done|done|done|kept|kept|within|within|within|within|within| |done].
  intros [] m1 (x & Ax & Hzx & Hdx & Hvx & K1). assert (KK1 : keeps m m1 (mine r (2 * n2) t tn)) by (eapply keeps_inner; [exact K1|right; placed|placed]).
  apply wp_bind. wp_call (IH j m1 (wadd t n2) t x n (wadd t (n2 * 2)) (tn - 2 * n2)); [done|lia|lia|by split_and!|kept|kept|within|within|within| |done].
  rewrite <- Htwo. intros [] m2 (lt & At & Hzt & Hdt & Hvt & K2). assert (KK2 : keeps m m2 (mine r (2 * n2) t tn)) by (eapply keeps_trans; [exact KK1|eapply keeps_inner; [exact K2|right; placed|placed]]).
  apply wp_bind. wp_call (IH j m2 r a a0 n (wadd t (n2 * 2)) (tn - 2 * n2)); [done|lia|lia|split_and!; [kept|done|done]|kept|kept|within|within|within| |done].
  rewrite <- Htwo. intros [] m3 (l01 & A01 & Hz01 & Hd01 & Hv01 & K3). assert (KK3 : keeps m m3 (mine r (2 * n2) t tn)) by (eapply keeps_trans; [exact KK2|eapply keeps_inner; [exact K3|left; placed|placed]]).
  apply wp_bind. wp_call (IH j m3 (wadd r n2) (wadd a n) a1 n (wadd t (n2 * 2)) (tn - 2 * n2)); [done|lia|lia|split_and!; [kept|done|done]|kept|kept|within|within|within| |done].
  rewrite <- Htwo. intros [] m4 (l23 & A23 & Hz23 & Hd23 & Hv23 & K4). assert (KK4 : keeps m m4 (mine r (2 * n2) t tn)) by (eapply keeps_trans; [exact KK3|eapply keeps_inner; [exact K4|left; placed|placed]]).
  assert (HM : val l01 + val l23 - val lt = 2 * (val a0 * val a1)) by (rewrite Hv01, Hv23, Hvt, Hvx; destruct (Z.abs_spec (val a0 - val a1)) as [[_ ->]|[_ ->]]; lia).
  assert (Hpow : BASE ^ n2 = BASE ^ n * BASE ^ n) by (rewrite <- Z.pow_add_r by lia; f_equal; lia).
  assert (HP : val l01 + BASE ^ n2 * val l23 + BASE ^ n * (val l01 + val l23 - val lt) = val la * val la) by (rewrite HM, Hv01, Hv23, Hva, Hpow; lia).
  assert (HM0 : 0 <= val l01 + val l23 - val lt) by (rewrite HM; pose proof (val_range _ Da0); pose proof (val_range _ Da1); apply Z.mul_nonneg_nonneg; [lia|]; apply Z.mul_nonneg_nonneg; lia).
  pose proof (square_bound n2 la Hda Hla) as HB. rewrite <- HP in HB. assert (At4 : at_ m4 (wadd t n2) lt) by kept. assert (A014 : at_ m4 r l01) by kept.
  wp_call (sqr_combine_spec m4 r t n n2 l01 l23 lt tn); [exact Htwo|lia|exact A014|exact A23|exact At4|exact Hz01|exact Hz23|exact Hzt|exact Hd01|exact Hd23|exact Hdt|kept|kept|lia|exact Hrt|exact HM0|exact HB| |done].
  intros [] m5 (ws & Hws & Hzw & Hdw & Hvw & K5). exists ws. rewrite Hvw, HP. split_and!; [done|done|done|done|]. by eapply keeps_trans.
Qed.
