(* ===== verification/BnMulThms.v ===== *)
(** What the recursive products and squares of mul.c compute. *)
From S2P Require Import Prelude Ct BnWords BnWordsFacts Bn BnMul BnPartFacts BnKaratsuba BnMulRecursive.

Lemma levels_enough k : (k < levels (2 ^ Z.of_nat k))%nat.
Proof. unfold levels. rewrite Z.log2_pow2, Nat2Z.id by lia. lia. Qed.

(** Karatsuba's products: for every power of two [n = 2^k] of words, bn_mul_recursive, given
    factors of [n] words or up to eight less, and bn_mul_part_recursive, given factors of [n] words
    and fewer than [n] more, their widths differing by one at most, end after at most
    [log2 n + 2] levels, never fail, write the [2n] (or [4n]) words of the product of the
    numbers, and change nothing but these words and their scratch space [t]. *)
Theorem bn_recursive_products_exact k m r a b t la lb na nb tn :
  let n := 2 ^ Z.of_nat k in
  factor m a na la -> factor m b nb lb -> writable m t tn ->
  apart t tn a na -> apart t tn b nb ->
  (n - 8 <= na <= n -> n - 8 <= nb <= n -> writable m r (2 * n) -> apart r (2 * n) a na -> apart r (2 * n) b nb -> apart r (2 * n) t tn -> 4 * n <= tn ->
   wp (bn_mul_recursive (levels n) r a b n (na - n) (nb - n) t) (fun _ m' => computes m r t (2 * n) tn (val la * val lb) m') (fun _ => False) m) /\
  (n <= na < 2 * n -> n <= nb < 2 * n -> -1 <= na - nb <= 1 -> 8 <= n -> writable m r (4 * n) -> apart r (4 * n) a na -> apart r (4 * n) b nb -> apart r (4 * n) t tn -> 8 * n <= tn ->
   wp (bn_mul_part_recursive (S (levels n)) r a b n (na - n) (nb - n) t) (fun _ m' => computes m r t (4 * n) tn (val la * val lb) m') (fun _ => False) m).
Proof.
  intros n Hfa Hfb Ht Hta Htb. pose proof (levels_enough k). fold n in H.
  split; intros; [apply (bn_mul_recursive_spec _ k)|apply (bn_mul_part_recursive_spec _ k)]; rewrite ?Zplus_minus; try done; lia.
Qed.

(** Squares: for every power of two [n = 2^k] of words, bn_sqr_recursive, which replaces the
    middle product by the square of a difference, ends after at most [log2 n + 1] levels and
    writes the product of the number with itself, using [4n] words of scratch space. *)
Theorem bn_recursive_squares_exact k m r a t la :
  let n := 2 ^ Z.of_nat k in
  factor m a n la -> writable m r (2 * n) -> writable m t (4 * n) -> apart r (2 * n) a n -> apart t (4 * n) a n -> apart r (2 * n) t (4 * n) ->
  wp (bn_sqr_recursive (levels n) r a n t) (fun _ m' => computes m r t (2 * n) (4 * n) (val la * val la) m') (fun _ => False) m.
Proof. intros n Hfa Hr Ht Hra Hta Hrt. by apply (bn_sqr_recursive_spec _ k); [|apply levels_enough|..]. Qed.

(** * What bn_mul_part_recursive does below eight words *)

(** The words above the product are cleared by a number of bytes, not of words: the fifteenth
    and sixteenth word of the product of two numbers of seven words are left as they were,
    but for two bytes. BN_mul never asks for it. *)
Lemma bn_mul_part_recursive_leaves_words :
  let a := [1; 0; 0; 0; 0; 0; 0] in
  exists m', bn_mul_part_recursive 1 (1%nat, 0) (0%nat, 0) (0%nat, 0) 4 3 3 (2%nat, 0) [a; zrep 16 (2 ^ 64 - 1); zrep 32 0] = Ok tt m' /\
    m' !! 1%nat = Some ([1] ++ zrep 13 0 ++ [2 ^ 64 - 2 ^ 16; 2 ^ 64 - 1]).
Proof. eexists. split; vm_compute; reflexivity. Qed.

(** * Witnesses *)

Definition ex_a : list Z := zrep 16 (2 ^ 64 - 1).
Definition ex_b : list Z := zrep 15 (2 ^ 64 - 1) .
Lemma ex_factor m p n l arr :
  m !! p.1 = Some arr -> ztake (zlen l) (zdrop p.2 arr) = l -> zlen l = n -> forallb (fun w => (0 <=? w) && (w <? BASE)) l = true -> (0 <=? p.2) && (p.2 + zlen l <=? zlen arr) = true -> factor m p n l.
Proof.
  intros Hm Hl Hn Hd Hr. apply andb_prop in Hr as [H1%Z.leb_le H2%Z.leb_le]. split_and!; [by exists arr|done|].
  apply List.Forall_forall. intros w Hw. pose proof (proj1 (List.forallb_forall _ _) Hd w Hw) as [H3%Z.leb_le H4%Z.ltb_lt]%andb_prop. split; done.
Qed.
Lemma ex_room m p n arr : m !! p.1 = Some arr -> (0 <=? p.2) && (0 <=? n) && (p.2 + n <=? zlen arr) = true -> writable m p n.
Proof. intros Hm Hr. apply andb_prop in Hr as [[H1%Z.leb_le H2%Z.leb_le]%andb_prop H3%Z.leb_le]. exists arr. by split; [|unfold room; lia]. Qed.

Lemma bn_recursive_products_exact_witness :
  wp (bn_mul_recursive 5 (1%nat, 0) (0%nat, 0) (0%nat, 16) 16 0 (-1) (2%nat, 0))
    (fun _ m' => computes [ex_a ++ ex_b; zrep 32 0; zrep 64 0] (1%nat, 0) (2%nat, 0) 32 64 (val ex_a * val ex_b) m') (fun _ => False)
    [ex_a ++ ex_b; zrep 32 0; zrep 64 0].
Proof.
  pose proof (bn_recursive_products_exact 4 [ex_a ++ ex_b; zrep 32 0; zrep 64 0] (1%nat, 0) (0%nat, 0) (0%nat, 16) (2%nat, 0) ex_a ex_b 16 15 64) as H.
  change (2 ^ Z.of_nat 4) with 16 in H. change (levels 16) with 5%nat in H.
  destruct H as [H _]; [by eapply ex_factor|by eapply ex_factor|by eapply ex_room|left; done|left; done|].
  apply H; [lia|lia|by eapply ex_room|left; done|left; done|left; done|lia].
Defined.

Lemma bn_recursive_squares_exact_witness :
  wp (bn_sqr_recursive 5 (1%nat, 0) (0%nat, 0) 16 (2%nat, 0))
    (fun _ m' => computes [ex_a; zrep 32 0; zrep 64 0] (1%nat, 0) (2%nat, 0) 32 64 (val ex_a * val ex_a) m') (fun _ => False)
    [ex_a; zrep 32 0; zrep 64 0].
Proof.
  pose proof (bn_recursive_squares_exact 4 [ex_a; zrep 32 0; zrep 64 0] (1%nat, 0) (0%nat, 0) (2%nat, 0) ex_a) as H.
  change (2 ^ Z.of_nat 4) with 16 in H. change (levels 16) with 5%nat in H.
  apply H; [by eapply ex_factor|by eapply ex_room|by eapply ex_room|left; done|left; done|left; done].
Defined.
