(* ===== verification/BnCtx.v ===== *)
(** crypto/fipsmodule/bn/ctx.c: the scratch context, a stack of frames of numbers taken
    from a pool; and the products and squares of mul.c that use it. The BIGNUMs of the pool
    live in the store of [Bn] with all the others. *)
From S2P Require Import Prelude Mem Der Cells Ct BnWords Bn BnMul.

Definition BN_CTX_POOL_SIZE : Z := 16.
Definition BN_CTX_START_FRAMES : Z := 32.

(** Sixteen numbers, named from [vals] on; items are named by their position. *)
Record BN_POOL_ITEM := mkItem {
  vals : bn;
  item_prev : option nat;
  item_next : option nat;
}.
Record BN_POOL := mkPool {
  head : option nat;
  current : option nat;
  tail : option nat;
  pool_used : Z;
  pool_size : Z;
}.
Record BN_STACK := mkStack {
  indexes : list Z;
  depth : Z;
  stack_size : Z;
}.
Record BN_CTX := mkCtx {
  pool : BN_POOL;
  stack : BN_STACK;
  used : Z;
  err_stack : Z;
  too_many : bool;
}.
(** A context, its items, and the store. *)
Record ctx_store := mkCtxStore {
  ctx : BN_CTX;
  items : list BN_POOL_ITEM;
  store : bn_store;
}.

Definition on_store {A} (m : M bn_store A) : M ctx_store A := zoom store (fun t s => mkCtxStore (ctx s) (items s) t) m.
Definition get_ctx : M ctx_store BN_CTX := s ← get; mret (ctx s).
Definition put_ctx (c : BN_CTX) : M ctx_store unit := modify (fun s => mkCtxStore c (items s) (store s)).
Definition put_pool (p : BN_POOL) : M ctx_store unit :=
  c ← get_ctx; put_ctx (mkCtx p (stack c) (used c) (err_stack c) (too_many c)).
Definition put_stack (st : BN_STACK) : M ctx_store unit :=
  c ← get_ctx; put_ctx (mkCtx (pool c) st (used c) (err_stack c) (too_many c)).
(** [p->field], [p] being a pointer to an item. *)
Definition item_at (p : option nat) : M ctx_store BN_POOL_ITEM := s ← get; i ← deref p; deref (items s !! i).
(** [p->next = q] *)
Definition set_next (p q : option nat) : M ctx_store unit :=
  it ← item_at p; i ← deref p;
  modify (fun s => mkCtxStore (ctx s) (<[i := mkItem (vals it) (item_prev it) q]> (items s)) (store s)).

Section Ctx.
Context `{alloc : Allocator}.

(** An array of [unsigned], least significant byte first. *)
Definition to_uints (l : list Z) : list Z :=
  (fun i => be_val (rev (ztake 4 (zdrop (4 * i) l)))) <$> zseq 0 (zlen l / 4).
Definition malloc_uints (n : Z) : M heap (option (list Z)) :=
  p ← OPENSSL_malloc (u64 (n * 4)); mret (to_uints <$> p).

Definition BN_POOL_init : BN_POOL := mkPool None None None 0 0.
Definition BN_STACK_init : BN_STACK := mkStack [] 0 0.

Definition sizeof_BN_CTX : Z := 80.
Definition BN_CTX_new : M bn_store ctx_store := fun s =>
  match on_heap (OPENSSL_malloc sizeof_BN_CTX) s with
  | Ok (Some _) s => Ok (mkCtxStore (mkCtx BN_POOL_init BN_STACK_init 0 0 false) [] s) s
  | Ok None s => Fail s
  | Fail s => Fail s
  | Stuck => Stuck
  end.

Definition BN_STACK_push (idx : Z) : M ctx_store unit :=
  c ← get_ctx;
  let st := stack c in
  st ← (if depth st =? stack_size st then
      let newsize := if negb (stack_size st =? 0) then u32 (stack_size st * 3) / 2 else BN_CTX_START_FRAMES in
      newitems ← on_store (on_heap (malloc_uints newsize));
      match newitems with
      | None => fail
      | Some newitems =>
          newitems ← (if negb (depth st =? 0) then
              old ← deref (ptr_read (P (indexes st)) (depth st)); deref (zput newitems 0 old)
            else mret newitems);
          mret (mkStack newitems (depth st) newsize)
      end
    else mret st);
  indexes ← deref (zset (indexes st) (depth st) idx);
  put_stack (mkStack indexes (u32 (depth st + 1)) (stack_size st)).

Definition BN_STACK_pop : M ctx_store Z :=
  c ← get_ctx;
  let st := stack c in
  let d := u32 (depth st - 1) in
  put_stack (mkStack (indexes st) d (stack_size st));;
  deref (zget (indexes st) d).

Definition sizeof_BN_POOL_ITEM : Z := 400.
(** NULL is [None]. *)
Definition BN_POOL_get : M ctx_store (option bn) :=
  c ← get_ctx;
  let p := pool c in
  if pool_used p =? pool_size p then
    item ← on_store (on_heap (OPENSSL_malloc sizeof_BN_POOL_ITEM));
    match item with
    | None => mret None
    | Some _ =>
        s ← get;
        let item := length (items s) in
        let v := length (nums (store s)) in
        for_ 0 (Z.to_nat BN_CTX_POOL_SIZE) (fun _ _ => on_store (_ ← bn_alloc (mkBN 0 0 false 0) []; mret tt)) tt;;
        modify (fun s => mkCtxStore (ctx s) (items s ++ [mkItem v (tail p) None]) (store s));;
        p ← (match head p with
             | None => mret (mkPool (Some item) (Some item) (Some item) (pool_used p) (pool_size p))
             | Some _ => set_next (tail p) (Some item);; mret (mkPool (head p) (Some item) (Some item) (pool_used p) (pool_size p))
             end);
        put_pool (mkPool (head p) (current p) (tail p) (u32 (pool_used p + 1)) (u32 (pool_size p + BN_CTX_POOL_SIZE)));;
        mret (Some v)
    end
  else
    cur ← (if pool_used p =? 0 then mret (head p)
           else if pool_used p mod BN_CTX_POOL_SIZE =? 0 then it ← item_at (current p); mret (item_next it)
           else mret (current p));
    put_pool (mkPool (head p) cur (tail p) (u32 (pool_used p + 1)) (pool_size p));;
    it ← item_at cur;
    mret (Some (vals it + Z.to_nat (pool_used p mod BN_CTX_POOL_SIZE))%nat).

Definition BN_POOL_release (num : Z) : M ctx_store unit :=
  c ← get_ctx;
  let p := pool c in
  let offset := u32 (pool_used p - 1) mod BN_CTX_POOL_SIZE in
  '(_, cur) ← for_ 0 (Z.to_nat num) (fun _ '(offset, cur) =>
    if offset =? 0 then it ← item_at cur; mret (BN_CTX_POOL_SIZE - 1, item_prev it)
    else mret (offset - 1, cur)) (offset, current p);
  put_pool (mkPool (head p) cur (tail p) (u32 (pool_used p - num)) (pool_size p)).

Definition put_err (e : Z) : M ctx_store unit := c ← get_ctx; put_ctx (mkCtx (pool c) (stack c) (used c) e (too_many c)).
(** [ctx->err_stack++], an [int]. *)
Definition incr_err : M ctx_store unit := c ← get_ctx; assert_ (err_stack c + 1 <? 2 ^ 31);; put_err (err_stack c + 1).
Definition put_used (n : Z) (t : bool) : M ctx_store unit := c ← get_ctx; put_ctx (mkCtx (pool c) (stack c) n (err_stack c) t).

Definition BN_CTX_start : M ctx_store unit :=
  c ← get_ctx;
  if negb (err_stack c =? 0) || too_many c then incr_err else
  ok ← succeeds (BN_STACK_push (used c));
  if (ok : bool) then mret tt else incr_err.

Definition BN_CTX_get : M ctx_store (option bn) :=
  c ← get_ctx;
  if negb (err_stack c =? 0) || too_many c then mret None else
  ret ← BN_POOL_get;
  match ret with
  | None => put_used (used c) true;; mret None
  | Some x =>
      on_store (BN_zero x);;
      put_used (u32 (used c + 1)) (too_many c);;
      mret (Some x)
  end.

Definition BN_CTX_end : M ctx_store unit :=
  c ← get_ctx;
  if negb (err_stack c =? 0) then put_err (err_stack c - 1) else
  fp ← BN_STACK_pop;
  (if fp <? used c then BN_POOL_release (used c - fp) else mret tt);;
  put_used fp false.

(** * mul.c: the products with a scratch context *)

(** An array of [n] words on the caller's stack, for the time of a call. *)
Definition with_array {A} (n : Z) (k : wptr -> M bn_store A) : M bn_store A :=
  s ← get;
  modify (fun s => mkStore (nums s) (arrays s ++ [to_cells (garbage (bn_heap s) <$> zseq 0 (8 * n))]) (bn_heap s));;
  r ← k (length (arrays s), 0);
  modify (fun t => mkStore (nums t) (take (length (arrays s)) (arrays t)) (bn_heap t));;
  mret r.

Definition bn_get_ctx (x : bn) : M ctx_store BIGNUM := on_store (bn_get x).

(** [j = 1 << (j - 1)], the larger power of two up to the larger length. *)
Definition mul_power (al bl : Z) : Z :=
  let j := if 0 <=? al - bl then BN_num_bits_word al else BN_num_bits_word bl in
  Z.shiftl 1 (j - 1).

(** The product goes to [rr]. *)
Definition mul_words (rr a b : bn) (al bl : Z) : M ctx_store unit :=
  let i := al - bl in
  if (i =? 0) && (al =? 8) then
    on_store (bn_wexpand rr 16;; bn_set_width rr 16;; on_words (bn_mul_comba8 (bn_d rr) (bn_d a) (bn_d b)))
  else
    let top := al + bl in
    let kMulNormalSize := 16 in
    if (kMulNormalSize <=? al) && (kMulNormalSize <=? bl) && ((-1 <=? i) && (i <=? 1)) then
      let j := mul_power al bl in
      assert_ ((j <=? al) || (j <=? bl));;
      t ← BN_CTX_get;
      t ← match t with None => fail | Some t => mret t end;
      (if (j <? al) || (j <? bl) then
         assert_ ((j <=? al) && (j <=? bl));;
         on_store (bn_wexpand t (j * 8);; bn_wexpand rr (j * 4);;
                   on_words (bn_mul_part_recursive (S (levels j)) (bn_d rr) (bn_d a) (bn_d b) j (al - j) (bl - j) (bn_d t)))
       else
         on_store (bn_wexpand t (j * 4);; bn_wexpand rr (j * 2);;
                   on_words (bn_mul_recursive (levels j) (bn_d rr) (bn_d a) (bn_d b) j (al - j) (bl - j) (bn_d t))));;
      on_store (bn_set_width rr top)
    else
      on_store (bn_wexpand rr top;; bn_set_width rr top;; on_words (bn_mul_normal (bn_d rr) (bn_d a) al (bn_d b) bl)).

Definition bn_mul_impl (r a b : bn) : M ctx_store unit :=
  x ← bn_get_ctx a; y ← bn_get_ctx b;
  let al := width x in
  let bl := width y in
  if (al =? 0) || (bl =? 0) then on_store (BN_zero r) else
  BN_CTX_start;;
  ret ← succeeds (
    rr ← (if Nat.eqb r a || Nat.eqb r b then BN_CTX_get (* and [r == NULL], which is never so *) else mret (Some r));
    rr ← deref rr;
    x ← bn_get_ctx a; y ← bn_get_ctx b;
    on_store (bn_set_neg rr (xorb (neg x) (neg y)));;
    mul_words rr a b al bl;;
    if negb (Nat.eqb r rr) then on_store (BN_copy r rr) else mret tt);
  BN_CTX_end;;
  require ret.

Definition BN_mul (r a b : bn) : M ctx_store unit := bn_mul_impl r a b;; on_store (bn_set_minimal_width r).

Definition bn_mul_fixed (r a b : bn) : M ctx_store unit :=
  x ← bn_get_ctx a; y ← bn_get_ctx b;
  if neg x || neg y then fail else bn_mul_impl r a b.

(** The square goes to [rr], with the scratch number [tmp]. *)
Definition sqr_words (rr a tmp : bn) (al : Z) : M bn_store unit :=
  let max := 2 * al in
  if al =? 4 then on_words (bn_sqr_comba4 (bn_d rr) (bn_d a))
  else if al =? 8 then on_words (bn_sqr_comba8 (bn_d rr) (bn_d a))
  else if al <? BN_SQR_RECURSIVE_SIZE_NORMAL then
    with_array (BN_SQR_RECURSIVE_SIZE_NORMAL * 2) (fun t => on_words (bn_sqr_normal (bn_d rr) (bn_d a) al t))
  else if is_pow2 al then
    bn_wexpand tmp (al * 4);; on_words (bn_sqr_recursive (levels al) (bn_d rr) (bn_d a) al (bn_d tmp))
  else
    bn_wexpand tmp max;; on_words (bn_sqr_normal (bn_d rr) (bn_d a) al (bn_d tmp)).

Definition bn_sqr_fixed (r a : bn) : M ctx_store unit :=
  x ← bn_get_ctx a;
  let al := width x in
  if al <=? 0 then on_store (bn_set_width r 0;; bn_set_neg r false) else
  BN_CTX_start;;
  ret ← succeeds (
    rr ← (if negb (Nat.eqb a r) then mret (Some r) else BN_CTX_get);
    tmp ← BN_CTX_get;
    match rr, tmp with
    | Some rr, Some tmp =>
        let max := 2 * al in
        on_store (bn_wexpand rr max;; sqr_words rr a tmp al;; bn_set_neg rr false;; bn_set_width rr max);;
        if negb (Nat.eqb rr r) then on_store (BN_copy r rr) else mret tt
    | _, _ => fail
    end);
  BN_CTX_end;;
  require ret.

Definition BN_sqr (r a : bn) : M ctx_store unit := bn_sqr_fixed r a;; on_store (bn_set_minimal_width r).

Definition bn_sqr_small (r : wptr) (num_r : Z) (a : wptr) (num_a : Z) : M bn_store unit :=
  if negb (num_r =? 2 * num_a) || (BN_SMALL_MAX_WORDS <? num_a) then fail else
  if num_a =? 4 then on_words (bn_sqr_comba4 r a)
  else if num_a =? 8 then on_words (bn_sqr_comba8 r a)
  else with_array (2 * BN_SMALL_MAX_WORDS) (fun tmp =>
    on_words (bn_sqr_normal r a num_a tmp;; wzero tmp (2 * num_a))).
End Ctx.
