(* ===== verification/BnCtxFacts.v ===== *)
(** Facts about [BnCtx]: the context is a stack of frames of numbers, which it takes in the
    order of its pool; BN_CTX_start, BN_CTX_get and BN_CTX_end on that stack. *)
From S2P Require Import Prelude Mem Der MemFacts Cells Ct BnWords BnWordsFacts Bn BnFacts BnCmp BnAddFacts BnArith BnMul BnCtx.

(** * The pool *)

(** The names of the numbers, block by block. *)
Definition pool_names (bl : list bn) : list bn := flat_map (fun v => seq v 16) bl.
Lemma pool_names_app b1 b2 : pool_names (b1 ++ b2) = pool_names b1 ++ pool_names b2.
Proof. apply flat_map_app. Qed.
Lemma length_pool_names bl : length (pool_names bl) = (16 * length bl)%nat.
Proof. induction bl as [|v bl IH]; [done|]. unfold pool_names in *. cbn [flat_map]. rewrite length_app, length_seq, IH. cbn [length]. lia. Qed.
Lemma pool_names_lookup bl i j v : bl !! i = Some v -> (j < 16)%nat -> pool_names bl !! (16 * i + j)%nat = Some (v + j)%nat.
Proof.
  revert i. induction bl as [|w bl IH]; intros [|i] Hi Hj; try done; unfold pool_names; cbn [flat_map].
  - injection Hi as ->. rewrite lookup_app_l by (rewrite length_seq; lia). by rewrite lookup_seq_lt by lia.
  - rewrite lookup_app_r by (rewrite length_seq; lia). rewrite length_seq. replace (16 * S i + j - 16)%nat with (16 * i + j)%nat by lia. by apply IH.
Qed.

(** The items of a pool, from the first allocated to the last. *)
Definition item_of (k i : nat) (v : bn) : BN_POOL_ITEM :=
  mkItem v (if Nat.eqb i 0 then None else Some (i - 1)%nat) (if Nat.eqb (S i) k then None else Some (S i)).
Definition linked (bl : list bn) : list BN_POOL_ITEM := imap (item_of (length bl)) bl.
Lemma linked_lookup bl i v : bl !! i = Some v -> linked bl !! i = Some (item_of (length bl) i v).
Proof. intros H. unfold linked. by rewrite list_lookup_imap, H. Qed.

(** One more item behind the last. *)
Lemma linked_snoc_nil v : [mkItem v None None] = linked [v].
Proof. done. Qed.
Lemma linked_snoc bl v w k : bl !! k = Some w -> S k = length bl ->
  <[k := mkItem w (item_prev (item_of (length bl) k w)) (Some (length bl))]> (linked bl ++ [mkItem v (Some k) None]) = linked (bl ++ [v]).
Proof.
  intros Hw Hk. apply list_eq. intros i. unfold linked. rewrite imap_app, length_app. cbn [imap length]. assert (Hlen : length (imap (item_of (length bl)) bl) = length bl) by apply length_imap.
  destruct (decide (i = k)) as [->|Hne].
  - rewrite list_lookup_insert_eq by (rewrite length_app, Hlen; lia). rewrite lookup_app_l by (rewrite length_imap; lia). rewrite list_lookup_imap, Hw. unfold item_of. cbn [fmap option_fmap option_map item_prev].
    rewrite (proj2 (Nat.eqb_neq (S k) (length bl + 1))) by lia. by rewrite <- Hk.
  - rewrite list_lookup_insert_ne by done. destruct (Nat.lt_ge_cases i (length bl)) as [Hi|Hi].
    + rewrite !lookup_app_l by (rewrite length_imap; lia). rewrite !list_lookup_imap. destruct (bl !! i) as [u|]; [|done]. cbn [fmap option_fmap option_map]. unfold item_of. by rewrite (proj2 (Nat.eqb_neq (S i) (length bl))), (proj2 (Nat.eqb_neq (S i) (length bl + 1))) by lia.
    + rewrite !lookup_app_r by (rewrite length_imap; lia). rewrite !length_imap. destruct (i - length bl)%nat as [|d] eqn:E; [|done]. cbn [fmap option_fmap option_map lookup list_lookup]. unfold item_of. rewrite Nat.add_0_r, (proj2 (Nat.eqb_neq (length bl) 0)), (proj2 (Nat.eqb_eq (S (length bl)) (length bl + 1))) by lia.
      do 3 f_equal. lia.
Qed.

(** The place of the number taken last. *)
Definition at_number (u : Z) : nat := Z.to_nat ((u - 1) / 16).

Definition pool_ok (p : BN_POOL) (its : list BN_POOL_ITEM) (bl : list bn) (u : Z) : Prop :=
  its = linked bl /\ pool_used p = u /\ 0 <= u <= pool_size p /\ pool_size p = 16 * Z.of_nat (length bl) /\ pool_size p <= 2 ^ 31 /\
  head p = (match bl with [] => None | _ => Some 0%nat end) /\ tail p = (match bl with [] => None | _ => Some (length bl - 1)%nat end) /\
  (0 < u -> current p = Some (at_number u)).

(** * The stack of frames *)

(** How many numbers were taken when each frame was opened, innermost first. *)
Fixpoint marks_ok (u : Z) (fr : list Z) : Prop :=
  match fr with [] => 0 <= u | m :: fr => 0 <= m <= u /\ marks_ok m fr end.
Definition stack_ok (st : BN_STACK) (fr : list Z) : Prop :=
  zlen (indexes st) = stack_size st /\ depth st = zlen fr /\ ztake (zlen fr) (indexes st) = rev fr /\ zlen fr <= stack_size st /\ (stack_size st = 0 \/ 32 <= stack_size st) /\ zlen fr <= 2 ^ 30.

(** * The context *)

(** The numbers of the blocks [bl] are those of the pool; the first [used] are taken, in the
    frames [fr]. *)
Definition ctx_ok (s : ctx_store) (bl : list bn) (fr : list Z) : Prop :=
  pool_ok (pool (ctx s)) (items s) bl (used (ctx s)) /\ stack_ok (stack (ctx s)) fr /\ marks_ok (used (ctx s)) fr /\ 0 <= err_stack (ctx s) /\
  length (nums (store s)) = length (arrays (store s)) /\ NoDup (pool_names bl) /\ Forall (fun x => roomy (store s) x 0) (pool_names bl).
(** The numbers of the pool that are not taken. *)
Definition unused (s : ctx_store) (bl : list bn) : list bn := drop (Z.to_nat (used (ctx s))) (pool_names bl).
(** It can take [n] more numbers. *)
Definition spacious (s : ctx_store) (n : Z) : Prop := used (ctx s) + n + 16 <= 2 ^ 31.
Definition jammed (s : ctx_store) : bool := negb (err_stack (ctx s) =? 0) || too_many (ctx s).

(** From [s] to [s'] only the numbers [rs], unused numbers and new ones have changed. *)
Definition calm (rs : list bn) (s : ctx_store) (bl : list bn) (s' : ctx_store) (bl' : list bn) : Prop :=
  (exists more, bl' = bl ++ more /\ Forall (fun x => (length (nums (store s)) <= x)%nat) (pool_names more)) /\
  (length (nums (store s)) <= length (nums (store s')))%nat /\
  forall x, (x < length (nums (store s)))%nat -> x ∉ unused s bl -> x ∉ rs ->
    nums (store s') !! x = nums (store s) !! x /\ arrays (store s') !! x = arrays (store s) !! x.

Definition same_store (s s' : ctx_store) : Prop := nums (store s') = nums (store s) /\ arrays (store s') = arrays (store s).

Lemma calm_refl rs s bl : calm rs s bl s bl.
Proof. split_and!; [exists []; by rewrite app_nil_r|done|done]. Qed.
Lemma calm_same rs s bl s' : same_store s s' -> calm rs s bl s' bl.
Proof. intros [H1 H2]. split_and!; [exists []; by rewrite app_nil_r|by rewrite H1|]. intros. by rewrite H1, H2. Qed.
(** Later changes are to numbers that were unused then, new ones included. *)
Lemma calm_trans rs rs' s1 b1 s2 b2 s3 b3 :
  0 <= used (ctx s1) <= used (ctx s2) -> used (ctx s1) <= 16 * Z.of_nat (length b1) -> Forall (fun x => x ∈ rs \/ x ∈ unused s1 b1 \/ (length (nums (store s1)) <= x)%nat) rs' ->
  calm rs s1 b1 s2 b2 -> calm rs' s2 b2 s3 b3 -> calm rs s1 b1 s3 b3.
Proof.
  intros Hu Hb Hrs' ((m1 & -> & Hm1) & Hl1 & H1) ((m2 & -> & Hm2) & Hl2 & H2). split_and!; [|lia|].
  - exists (m1 ++ m2). split; [by rewrite app_assoc|]. rewrite pool_names_app. apply Forall_app. split; [done|]. eapply Forall_impl; [exact Hm2|]. cbn. intros. lia.
  - intros x Hx Hun Hrs. destruct (H1 x Hx Hun Hrs) as [<- <-]. apply H2; [lia| |].
    + intros Hin. unfold unused in *. rewrite pool_names_app in Hin. pose proof (length_pool_names b1). rewrite drop_app in Hin. apply elem_of_app in Hin as [Hin|Hin].
      * apply Hun. replace (Z.to_nat (used (ctx s2))) with (Z.to_nat (used (ctx s1)) + (Z.to_nat (used (ctx s2)) - Z.to_nat (used (ctx s1))))%nat in Hin by lia.
        rewrite <- drop_drop in Hin. by eapply subseteq_drop.
      * apply subseteq_drop in Hin. pose proof (proj1 (Forall_forall _ _) Hm1 x Hin). cbn in *. lia.
    + intros Hin. destruct (proj1 (Forall_forall _ _) Hrs' x Hin) as [?|[?|?]]; [done|done|lia].
Qed.
(** A change to one number that may change. *)
Lemma calm_store rs s1 b1 s2 b2 s3 x :
  calm rs s1 b1 s2 b2 -> others x (store s2) (store s3) -> x ∈ rs \/ x ∈ unused s1 b1 \/ (length (nums (store s1)) <= x)%nat -> calm rs s1 b1 s3 b2.
Proof.
  intros (Hm & Hl & H) (Ho1 & Ho2 & Ho3) Hx. split_and!; [done|lia|]. intros y Hy Hun Hrs. destruct (H y Hy Hun Hrs) as [<- <-]. apply Ho3.
  intros ->. destruct Hx as [?|[?|?]]; [done|done|lia].
Qed.

(** * The primitive steps *)

Lemma wp_get_ctx Q E s : Q (ctx s) s -> wp get_ctx Q E s.
Proof. done. Qed.
Lemma wp_put_pool p (Q : unit -> ctx_store -> Prop) E s :
  Q tt (mkCtxStore (mkCtx p (stack (ctx s)) (used (ctx s)) (err_stack (ctx s)) (too_many (ctx s))) (items s) (store s)) -> wp (put_pool p) Q E s.
Proof. done. Qed.
Lemma wp_put_stack st (Q : unit -> ctx_store -> Prop) E s :
  Q tt (mkCtxStore (mkCtx (pool (ctx s)) st (used (ctx s)) (err_stack (ctx s)) (too_many (ctx s))) (items s) (store s)) -> wp (put_stack st) Q E s.
Proof. done. Qed.
Lemma wp_put_err e (Q : unit -> ctx_store -> Prop) E s :
  Q tt (mkCtxStore (mkCtx (pool (ctx s)) (stack (ctx s)) (used (ctx s)) e (too_many (ctx s))) (items s) (store s)) -> wp (put_err e) Q E s.
Proof. done. Qed.
Lemma wp_incr_err (Q : unit -> ctx_store -> Prop) E s :
  err_stack (ctx s) < 2 ^ 31 - 1 ->
  Q tt (mkCtxStore (mkCtx (pool (ctx s)) (stack (ctx s)) (used (ctx s)) (err_stack (ctx s) + 1) (too_many (ctx s))) (items s) (store s)) -> wp incr_err Q E s.
Proof. intros He HQ. unfold incr_err. apply wp_bind, wp_get_ctx, wp_bind, wp_assert; [apply Z.ltb_lt; lia|]. by apply wp_put_err. Qed.
Lemma wp_put_used n t (Q : unit -> ctx_store -> Prop) E s :
  Q tt (mkCtxStore (mkCtx (pool (ctx s)) (stack (ctx s)) n (err_stack (ctx s)) t) (items s) (store s)) -> wp (put_used n t) Q E s.
Proof. done. Qed.
Lemma wp_on_store {A} (m : M bn_store A) (Q : A -> ctx_store -> Prop) E s :
  wp m (fun a t => Q a (mkCtxStore (ctx s) (items s) t)) (fun t => E (mkCtxStore (ctx s) (items s) t)) (store s) -> wp (on_store m) Q E s.
Proof. apply (wp_zoom store (fun t s => mkCtxStore (ctx s) (items s) t)). Qed.
Lemma wp_item_at i it Q E s : items s !! i = Some it -> Q it s -> wp (item_at (Some i)) Q E s.
Proof. intros H HQ. unfold item_at. apply wp_bind, wp_get, wp_bind. eapply wp_deref; [done|]. by eapply wp_deref. Qed.
Lemma wp_set_next i it q (Q : unit -> ctx_store -> Prop) E s :
  items s !! i = Some it -> Q tt (mkCtxStore (ctx s) (<[i := mkItem (vals it) (item_prev it) q]> (items s)) (store s)) -> wp (set_next (Some i) q) Q E s.
Proof. intros H HQ. unfold set_next. apply wp_bind. eapply wp_item_at; [exact H|]. apply wp_bind. eapply wp_deref; [done|]. by apply wp_modify. Qed.

Section Facts.
Context `{alloc : Allocator}.

(** A request of the allocator changes neither numbers nor words. *)
Lemma wp_alloc_store {A} (m : M heap A) Q s :
  wp m (fun a _ => Q a) (fun _ => False) (bn_heap s) ->
  wp (on_heap m) (fun a s' => Q a /\ nums s' = nums s /\ arrays s' = arrays s) (fun _ => False) s.
Proof. intros H. apply wp_on_heap. wp_call H; [|done]. intros a h Ha. by split_and!. Qed.

(** ** The pool *)

Lemma new_numbers k s :
  wp (for_ 0 k (fun _ _ => on_store (_ ← bn_alloc (mkBN 0 0 false 0) []; mret tt)) tt)
    (fun _ s' => s' = mkCtxStore (ctx s) (items s) (mkStore (nums (store s) ++ replicate k (mkBN 0 0 false 0)) (arrays (store s) ++ replicate k []) (bn_heap (store s))))
    (fun _ => False) s.
Proof.
  apply (wp_for (fun i _ s' => s' = mkCtxStore (ctx s) (items s)
    (mkStore (nums (store s) ++ replicate (Z.to_nat i) (mkBN 0 0 false 0)) (arrays (store s) ++ replicate (Z.to_nat i) []) (bn_heap (store s))))).
  - rewrite !app_nil_r. by destruct s as [? ? []].
  - intros j [] s' Hj ->. apply wp_on_store. unfold wp, mbind, M_bind, bn_alloc. cbn [nums arrays bn_heap store ctx items]. cbn. rewrite <- !app_assoc.
    replace (Z.to_nat (j + 1)) with (Z.to_nat j + 1)%nat by lia. by rewrite !replicate_add.
  - intros [] s' ->. by rewrite Z.add_0_l, Nat2Z.id.
Qed.

(** A request of at most [k] bytes can be refused. *)
Definition out_of_memory (k : Z) : Prop := exists i n, n <= k /\ malloc_ok i n = false.
Lemma out_of_memory_le k k' : k <= k' -> out_of_memory k -> out_of_memory k'.
Proof. intros Hk (i & n & Hn & H). exists i, n. split; [lia|done]. Qed.
Lemma store_malloc_spec size s : 0 <= size < 2 ^ 64 - 8 ->
  wp (on_heap (OPENSSL_malloc size)) (fun p s' => (p = None -> out_of_memory (size + 8)) /\ nums s' = nums s /\ arrays s' = arrays s) (fun _ => False) s.
Proof. intros Hsz. apply wp_alloc_store. wp_call OPENSSL_malloc_spec; [done| |done]. intros [p|] h Hp; [done|]. intros _. destruct Hp as [n Hn]. by exists n, (size + 8). Qed.
(** Some number may not grow, for its flags; [tame]: no other than before. *)
Definition static_in (s : ctx_store) : Prop := exists x n, nums (store s) !! x = Some n /\ Z.land (flags n) BN_FLG_STATIC_DATA <> 0.
Definition tame (s s1 : ctx_store) : Prop := static_in s1 -> static_in s.
Lemma tame_same s s1 : same_store s s1 -> tame s s1.
Proof. intros [E _] (x & n & Hx & Hf). rewrite E in Hx. by exists x, n. Qed.
(** A number changes, but not its flags. *)
Lemma tame_flags s c its st x : others x (store s) st -> (forall n', nums st !! x = Some n' -> exists n, nums (store s) !! x = Some n /\ flags n = flags n') -> tame s (mkCtxStore c its st).
Proof.
  intros (_ & _ & Ho) Hx (y & n & Hy & Hf). cbn in Hy. destruct (decide (y = x)) as [->|Hne].
  - destruct (Hx n Hy) as (n0 & Hn0 & E). exists x, n0. by rewrite E.
  - destruct (Ho y Hne) as [E _]. rewrite E in Hy. by exists y, n.
Qed.

Definition same_frames (s s' : ctx_store) : Prop :=
  stack (ctx s') = stack (ctx s) /\ used (ctx s') = used (ctx s) /\ err_stack (ctx s') = err_stack (ctx s) /\ too_many (ctx s') = too_many (ctx s).

(** The next number of the pool [bl]. *)
Definition takes (s : ctx_store) (bl : list bn) (x : bn) (s' : ctx_store) (bl' : list bn) : Prop :=
  calm [] s bl s' bl' /\ tame s s' /\ pool_names bl' !! Z.to_nat (used (ctx s)) = Some x /\ pool_ok (pool (ctx s')) (items s') bl' (used (ctx s) + 1) /\
  length (nums (store s')) = length (arrays (store s')) /\ NoDup (pool_names bl') /\ Forall (fun x => roomy (store s') x 0) (pool_names bl').

Lemma roomy_new s x h : length (nums s) = length (arrays s) -> roomy s x 0 -> forall n d, roomy (mkStore (nums s ++ n) (arrays s ++ d) h) x 0.
Proof.
  intros Hl (n0 & d0 & (H1 & H2 & H3) & H4) n d. exists n0, d0. split; [split_and!|done]; [|  |done]; cbn; by apply lookup_app_l_Some.
Qed.
Lemma roomy_fresh s x h k : (length (nums s) <= x < length (nums s) + k)%nat -> length (nums s) = length (arrays s) ->
  roomy (mkStore (nums s ++ replicate k (mkBN 0 0 false 0)) (arrays s ++ replicate k []) h) x 0.
Proof.
  intros Hx Hl. exists (mkBN 0 0 false 0), []. split; [split_and!|done]; cbn.
  - rewrite lookup_app_r by lia. apply lookup_replicate. split; [done|lia].
  - rewrite lookup_app_r by lia. apply lookup_replicate. split; [done|lia].
  - unfold well_formed, max_words. cbn. split_and!; try done. constructor.
Qed.

(** Taking the first number of a new block. *)
Lemma pool_get_new s bl fr :
  ctx_ok s bl fr -> spacious s 1 -> used (ctx s) = pool_size (pool (ctx s)) ->
  wp BN_POOL_get (fun o s' => match o with
      | Some x => same_frames s s' /\ exists bl', takes s bl x s' bl'
      | None => ctx s' = ctx s /\ items s' = items s /\ same_store s s' /\ out_of_memory 408
      end) (fun _ => False) s.
Proof.
  intros ((Hits & Hpu & Hur & Hps & H31 & Hhd & Htl & Hcur) & Hst & Hmk & Herr & Hlen & Hnd & Hroom) Hsp Hfull. unfold spacious in Hsp. unfold BN_POOL_get. apply wp_bind, wp_get_ctx. cbv zeta. rewrite Hpu, Hfull, Z.eqb_refl.
  apply wp_bind, wp_on_store. wp_call (store_malloc_spec sizeof_BN_POOL_ITEM); [done| |done].
  intros [item|] st (Hmem & Hn & Ha); [|apply wp_ret; split_and!; [done|done|done|by apply Hmem]].
  apply wp_bind, wp_get, wp_bind. cbn [store items]. wp_call new_numbers; [|done]. intros [] s1 ->. cbn [store nums arrays bn_heap ctx items]. change (Z.to_nat BN_CTX_POOL_SIZE) with 16%nat. rewrite Hn, Ha.
  set (v := length (nums (store s))). set (st1 := mkStore _ _ _). set (k := length bl) in *.
  apply wp_bind, wp_modify, wp_bind. cbn [ctx items store]. rewrite Hhd, Htl, Hits.
  assert (Hlen1 : length (linked bl) = k) by apply length_imap. rewrite Hlen1. unfold u32.
  assert (Hend : forall its, its = linked (bl ++ [v]) -> forall p0, p0 = mkPool (Some 0%nat) (Some k) (Some k) (pool_size (pool (ctx s))) (pool_size (pool (ctx s))) ->
    wp (put_pool (mkPool (head p0) (current p0) (tail p0) ((pool_used p0 + 1) mod 4294967296) ((pool_size p0 + BN_CTX_POOL_SIZE) mod 4294967296));; mret (Some v))
      (fun o s' => match o with
        | Some x => same_frames s s' /\ exists bl', takes s bl x s' bl'
        | None => ctx s' = ctx s /\ items s' = items s /\ same_store s s' /\ out_of_memory 408
        end) (fun _ => False) (mkCtxStore (ctx s) its st1)).
  { intros its -> p0 ->. apply wp_bind, wp_put_pool, wp_ret. cbn [ctx items store head current tail pool_used pool_size stack used err_stack too_many]. split; [done|]. exists (bl ++ [v]).
    assert (Hnew : pool_names [v] = seq v 16) by (unfold pool_names; cbn [flat_map]; apply app_nil_r). pose proof (length_pool_names bl) as Hlp. fold k in Hlp.
    assert (Hlt : Forall (fun x => (x < v)%nat) (pool_names bl)).
    { eapply Forall_impl; [exact Hroom|]. intros x (n & d & Hbn & _). apply bn_is_lt in Hbn as [? _]. done. }
    split_and!.
    - split_and!; [exists [v]; split; [done|]|unfold st1; cbn [nums store]; rewrite length_app; fold v; lia|].
      + rewrite Hnew. apply Forall_forall. intros x Hx%elem_of_seq. fold v. lia.
      + intros x Hx _ _. cbn [store st1 nums arrays]. by rewrite !lookup_app_l by lia.
    - intros (y & n0 & Hn0 & Hne). cbn [store st1 nums] in Hn0. apply lookup_app_Some in Hn0 as [Hn0|[_ [-> _]%lookup_replicate]]; [by exists y, n0|done].
    - rewrite pool_names_app, Hnew. rewrite lookup_app_r by (rewrite Hlp; lia). rewrite Hlp. replace (Z.to_nat (used (ctx s)) - 16 * k)%nat with 0%nat by lia. done.
    - rewrite Z.mod_small by lia. change BN_CTX_POOL_SIZE with 16. rewrite Z.mod_small by lia.
      unfold pool_ok. cbn [ctx pool items head current tail pool_used pool_size]. rewrite length_app. cbn [length]. fold k. split_and!; [done|lia|lia|lia|lia|lia|by destruct bl| |].
      + destruct bl; cbn; f_equal; unfold k; cbn; lia.
      + intros _. unfold at_number. f_equal. rewrite Hfull, Hps, Z.add_simpl_r. rewrite Z.mul_comm, Z.div_mul by lia. lia.
    - unfold st1. cbn [store nums arrays]. by rewrite !length_app, !length_replicate, Hlen.
    - rewrite pool_names_app, Hnew. apply NoDup_app. split_and!; [done| |apply NoDup_seq]. intros x Hx Hs%elem_of_seq. pose proof (proj1 (Forall_forall _ _) Hlt x Hx). cbn in *. lia.
    - rewrite pool_names_app, Hnew. apply Forall_app. split.
      + eapply Forall_impl; [exact Hroom|]. intros x Hx. by apply roomy_new.
      + apply Forall_forall. intros x Hx%elem_of_seq. apply roomy_fresh; [fold v; lia|done]. }
  destruct (snoc_or_nil bl) as [->|(bl0 & w & ->)].
  - by apply wp_ret, Hend.
  - assert (Hk : k = S (length bl0)) by (unfold k; rewrite length_app; cbn; lia). assert (Hw : (bl0 ++ [w]) !! (k - 1)%nat = Some w) by (rewrite Hk, lookup_app_r by lia; by replace (S (length bl0) - 1 - length bl0)%nat with 0%nat by lia).
    replace (match bl0 ++ [w] with [] => None | _ => Some 0%nat end) with (Some 0%nat) by (by destruct bl0). replace (match bl0 ++ [w] with [] => None | _ => Some (k - 1)%nat end) with (Some (k - 1)%nat) by (by destruct bl0).
    apply wp_bind. eapply wp_set_next; [cbn [items]; rewrite lookup_app_l by (rewrite Hlen1; lia); by apply linked_lookup|]. cbn [vals item_of ctx items store]. apply wp_ret.
    apply Hend; [|done]. pose proof (linked_snoc (bl0 ++ [w]) v w (k - 1) Hw ltac:(fold k; lia)) as Hl. fold k in Hl. exact Hl.
Qed.

(** Taking the next number of a block that is there. *)
Lemma pool_get_next s bl fr :
  ctx_ok s bl fr -> used (ctx s) < pool_size (pool (ctx s)) ->
  wp BN_POOL_get (fun o s' => match o with Some x => same_frames s s' /\ takes s bl x s' bl | None => False end) (fun _ => False) s.
Proof.
  intros ((Hits & Hpu & Hur & Hps & H31 & Hhd & Htl & Hcur) & Hst & Hmk & Herr & Hlen & Hnd & Hroom) Hlt. unfold BN_POOL_get. apply wp_bind, wp_get_ctx. cbv zeta.
  rewrite Hpu, (proj2 (Z.eqb_neq (used (ctx s)) (pool_size (pool (ctx s))))) by lia. set (u := used (ctx s)) in *. set (i := Z.to_nat (u / 16)). pose proof (Z.div_mod u 16 ltac:(lia)) as Hdm. pose proof (Z.mod_pos_bound u 16 ltac:(lia)) as Hmod.
  assert (Hi : (i < length bl)%nat) by (unfold i; lia). destruct (lookup_lt_is_Some_2 bl i Hi) as [v Hv]. assert (Hne : bl <> []) by (intros ->; cbn in Hi; lia).
  assert (Hval : forall its, its = items s -> forall cur, cur = Some i ->
    wp (put_pool (mkPool (head (pool (ctx s))) cur (tail (pool (ctx s))) (u32 (u + 1)) (pool_size (pool (ctx s))));;
        it ← item_at cur; mret (Some (vals it + Z.to_nat (u mod BN_CTX_POOL_SIZE))%nat))
      (fun o s' => match o with Some x => same_frames s s' /\ takes s bl x s' bl | None => False end) (fun _ => False) s).
  { intros its -> cur ->. apply wp_bind, wp_put_pool, wp_bind. eapply wp_item_at; [cbn [items]; rewrite Hits; by apply linked_lookup|]. apply wp_ret. cbn [vals item_of]. change BN_CTX_POOL_SIZE with 16.
    split; [done|]. unfold takes, unused. cbn [ctx pool items store used]. fold u. unfold u32. rewrite Z.mod_small by lia. split_and!.
    - by apply calm_same.
    - by apply tame_same.
    - replace (Z.to_nat u) with (16 * i + Z.to_nat (u mod 16))%nat by (unfold i; lia). apply pool_names_lookup; [done|lia].
    - unfold pool_ok. cbn [head current tail pool_used pool_size]. split_and!; try done; try lia. intros _. unfold at_number. by rewrite Z.add_simpl_r.
    - done.
    - done.
    - done. }
  apply wp_bind. change BN_CTX_POOL_SIZE with 16. destruct (Z.eqb_spec u 0) as [E0|E0]; [|destruct (Z.eqb_spec (u mod 16) 0) as [E16|E16]].
  - apply wp_ret, (Hval (items s)); [done|]. rewrite Hhd. destruct bl; [done|]. f_equal. unfold i. rewrite E0. done.
  - rewrite Hcur by lia. assert (Hj : S (at_number u) = i) by (unfold at_number, i; dlia). destruct (lookup_lt_is_Some_2 bl (at_number u) ltac:(lia)) as [w Hw].
    apply wp_bind. eapply wp_item_at; [rewrite Hits; by apply linked_lookup|]. apply wp_ret, (Hval (items s)); [done|]. cbn [item_next item_of]. rewrite (proj2 (Nat.eqb_neq _ _)) by lia. by rewrite Hj.
  - apply wp_ret, (Hval (items s)); [done|]. rewrite Hcur by lia. f_equal. unfold at_number, i. f_equal. dlia.
Qed.

(** [BN_CTX_get] gives the next number, as zero, unless the context is jammed or memory is out. *)
Definition got (s : ctx_store) (bl : list bn) (fr : list Z) (o : option bn) (s' : ctx_store) : Prop :=
  exists bl', ctx_ok s' bl' fr /\ calm [] s bl s' bl' /\ err_stack (ctx s') = err_stack (ctx s) /\ stack (ctx s') = stack (ctx s) /\
  match o with
  | Some x => pool_names bl' !! Z.to_nat (used (ctx s)) = Some x /\ used (ctx s') = used (ctx s) + 1 /\ too_many (ctx s') = too_many (ctx s) /\ jammed s = false /\
      holds (store s') x 0 /\ tame s s'
  | None => bl' = bl /\ same_store s s' /\ used (ctx s') = used (ctx s) /\ (jammed s = true /\ s' = s \/ jammed s = false /\ too_many (ctx s') = true /\ out_of_memory 408)
  end.

Lemma marks_ok_le u u' fr : marks_ok u fr -> u <= u' -> marks_ok u' fr.
Proof. destruct fr as [|m fr]; cbn; [lia|]. intros [? ?] ?. split; [lia|done]. Qed.

(** The number taken was unused, or is new. *)
Definition live (s : ctx_store) (bl : list bn) (x : bn) : Prop := (x < length (nums (store s)))%nat /\ x ∉ unused s bl.
Lemma got_fresh s bl s' bl' x rs : calm rs s bl s' bl' -> pool_names bl' !! Z.to_nat (used (ctx s)) = Some x -> x ∈ unused s bl \/ (length (nums (store s)) <= x)%nat.
Proof.
  intros ((more & -> & Hmore) & _) Hx. destruct (Nat.lt_ge_cases x (length (nums (store s)))) as [Hlt|Hge]; [left|by right].
  unfold unused. apply list_elem_of_lookup. exists 0%nat. rewrite lookup_drop, Nat.add_0_r.
  destruct (Nat.lt_ge_cases (Z.to_nat (used (ctx s))) (length (pool_names bl))) as [Hin|Hout].
  - by rewrite pool_names_app, lookup_app_l in Hx by done.
  - rewrite pool_names_app, lookup_app_r in Hx by lia. apply list_elem_of_lookup_2 in Hx. pose proof (proj1 (Forall_forall _ _) Hmore x Hx). cbn in *. lia.
Qed.

(** [BN_zero] of a number keeps its flags. *)
Lemma zero_flags x s n d : bn_is s x n d ->
  wp (BN_zero x) (fun _ s' => sets x 0 s s' /\ nums s' !! x = Some (mkBN 0 (dmax n) false (flags n))) (fun _ => False) s.
Proof.
  intros Hbn. assert (Hs : shows s x (neg n) (ztake (width n) d)).
  { exists n, d. pose proof Hbn as (_ & _ & (H1 & H2 & _)). rewrite zlen_ztake by lia. by split_and!. }
  pose proof (BN_zero_spec x _ _ _ Hs) as H1. destruct Hbn as (Hn & _). 
  assert (H2 : wp (BN_zero x) (fun _ s' => nums s' !! x = Some (mkBN 0 (dmax n) false (flags n))) (fun _ => False) s).
  { unfold BN_zero. apply wp_bind. eapply wp_set_width; [exact Hn|]. eapply wp_set_neg; [cbn [nums]; apply list_lookup_insert_eq; by eapply lookup_lt_Some|]. cbn [nums dmax neg flags width].
    rewrite list_insert_insert_eq. apply list_lookup_insert_eq. by eapply lookup_lt_Some. }
  eapply wp_mono; [exact (wp_conj _ _ _ _ _ _ H1 H2)|done|by intros ? []].
Qed.

Lemma forall_roomy_sets x z s s' l : sets x z s s' -> Forall (fun y => roomy s y 0) l -> Forall (fun y => roomy s' y 0) l.
Proof.
  intros [(Ho1 & Ho2 & Ho3) Hx] Hl. eapply Forall_impl; [exact Hl|]. intros y Hy. destruct (decide (y = x)) as [->|Hne]; [by eapply holds_roomy|].
  destruct Hy as (n & d & (H1 & H2 & H3) & H4). destruct (Ho3 y Hne) as [E1 E2]. exists n, d. unfold bn_is. by rewrite E1, E2.
Qed.

Lemma BN_CTX_get_spec s bl fr : ctx_ok s bl fr -> spacious s 1 -> wp BN_CTX_get (got s bl fr) (fun _ => False) s.
Proof.
  intros Hok Hsp. pose proof Hok as (Hpool & Hst & Hmk & Herr & Hlen & Hnd & Hroom). unfold BN_CTX_get. apply wp_bind, wp_get_ctx. fold (jammed s).
  destruct (jammed s) eqn:Ej; [apply wp_ret; exists bl; split_and!; try done; [apply calm_refl|by left]|].
  assert (Hget : wp BN_POOL_get (fun o s' => match o with
      | Some x => same_frames s s' /\ exists bl', takes s bl x s' bl'
      | None => ctx s' = ctx s /\ items s' = items s /\ same_store s s' /\ out_of_memory 408
      end) (fun _ => False) s).
  { destruct (decide (used (ctx s) = pool_size (pool (ctx s)))); [by eapply pool_get_new|]. destruct Hpool as (_ & _ & ? & _).
    wp_call (pool_get_next s bl fr); [done|lia| |done]. intros [x|] s'; [|done]. intros [? ?]. split; [done|by exists bl]. }
  apply wp_bind. wp_call Hget; [|done]. intros [x|] s1.
  - intros ((Hsf & Hu & He & Ht) & bl' & Hcalm & Htr & Hx & Hp' & Hlen' & Hnd' & Hroom'). pose proof (proj1 (Forall_forall _ _) Hroom' x) as Hrx.
    destruct Hrx as (n & d & Hbn & _); [apply list_elem_of_lookup_2 in Hx; done|]. apply wp_bind, wp_on_store. wp_call zero_flags; [exact Hbn| |done]. intros [] st [Hset Hfl]. pose proof Hset as [Ho Hz].
    apply wp_bind, wp_put_used, wp_ret. cbn [ctx items store pool stack used err_stack too_many]. unfold u32. rewrite Z.mod_small by (destruct Hpool as (_ & _ & ? & _ & ? & _); lia).
    exists bl'. cbn [ctx items store pool stack used err_stack too_many]. split_and!.
    + unfold ctx_ok. cbn [ctx items store pool stack used err_stack too_many]. rewrite Hsf, He. split_and!; try done.
      * eapply marks_ok_le; [done|lia].
      * destruct Ho as (E1 & E2 & _). congruence.
      * by eapply forall_roomy_sets.
    + eapply calm_store; [exact Hcalm|exact Ho|]. right. by eapply (got_fresh s bl s1 bl').
    + done.
    + done.
    + done.
    + done.
    + done.
    + done.
    + done.
    + intros Hs. apply Htr. eapply (tame_flags s1 _ _ st x); [exact Ho| |exact Hs]. intros n' Hn'. rewrite Hfl in Hn'. injection Hn' as <-. destruct Hbn as (Hn & _). by exists n.
  - intros (Hc & Hi & Hsame & Hmem). apply wp_bind, wp_put_used, wp_ret. cbn [ctx items store pool stack used err_stack too_many]. exists bl. rewrite Hc, Hi.
    destruct Hsame as [E1 E2]. split_and!; try done; [|by apply calm_same|right; done].
    unfold ctx_ok. cbn [ctx items store pool stack used err_stack too_many]. rewrite E1, E2. split_and!; try done. eapply Forall_impl; [exact Hroom|]. intros y (n & d & (H1 & H2 & H3) & H4). exists n, d. unfold bn_is. by rewrite E1, E2.
Qed.

(** ** The frames *)

Lemma malloc_uints_spec n h : 0 <= n < 2 ^ 32 -> wp (malloc_uints n) (fun p _ => match p with Some l => zlen l = n | None => out_of_memory (4 * n + 8) end) (fun _ => False) h.
Proof.
  intros Hn. unfold malloc_uints, u64. rewrite Z.mod_small by lia. apply wp_bind. wp_call OPENSSL_malloc_spec; [lia| |done]. intros [l|] h'; [|intros [i Hi]; exists i, (n * 4 + 8); split; [lia|done]].
  intros (Hz & _). apply wp_ret. cbn [fmap option_fmap option_map]. unfold to_uints. rewrite zlen_fmap, zlen_zseq; rewrite Hz, Z.div_mul; lia.
Qed.

Lemma stack_put st fr idx : stack_ok st fr -> zlen fr < stack_size st -> zlen fr < 2 ^ 30 ->
  exists ix, zset (indexes st) (depth st) idx = Some ix /\ stack_ok (mkStack ix (u32 (depth st + 1)) (stack_size st)) (idx :: fr).
Proof.
  intros (H1 & H2 & H3 & H4 & H5 & H6) Hlt H30. pose proof (zlen_nonneg fr). eexists. rewrite H2. split; [apply zset_Some; lia|]. unfold stack_ok. cbn [indexes depth stack_size]. rewrite zlen_cons. unfold u32. rewrite Z.mod_small by lia.
  assert (Hz : zlen (ztake (zlen fr) (indexes st)) = zlen fr) by (apply zlen_ztake; lia). split_and!; try lia.
  - rewrite zlen_app, zlen_cons, Hz, zlen_zdrop by lia. lia.
  - cbn [rev]. rewrite H3. rewrite (Z.add_comm 1). replace (rev fr ++ idx :: zdrop (zlen fr + 1) (indexes st)) with ((rev fr ++ [idx]) ++ zdrop (zlen fr + 1) (indexes st)) by (by rewrite <- app_assoc).
    apply ztake_app. rewrite zlen_snoc, <- H3. lia.
Qed.

Lemma BN_STACK_push_spec idx s fr : stack_ok (stack (ctx s)) fr -> zlen fr < 2 ^ 30 ->
  wp (BN_STACK_push idx)
    (fun _ s' => exists st, stack_ok st (idx :: fr) /\ ctx s' = mkCtx (pool (ctx s)) st (used (ctx s)) (err_stack (ctx s)) (too_many (ctx s)) /\ items s' = items s /\ same_store s s')
    (fun s' => ctx s' = ctx s /\ items s' = items s /\ same_store s s' /\ out_of_memory (136 + 6 * zlen fr)) s.
Proof.
  intros Hst H30. pose proof Hst as (H1 & H2 & H3 & H4 & H5 & H6). pose proof (zlen_nonneg fr). unfold BN_STACK_push. apply wp_bind, wp_get_ctx. cbv zeta. apply wp_bind. destruct (Z.eqb_spec (depth (stack (ctx s))) (stack_size (stack (ctx s)))) as [E|E].
  - set (n := if negb (stack_size (stack (ctx s)) =? 0) then _ else _). assert (Hn : zlen fr < n < 2 ^ 32 /\ 32 <= n /\ 4 * n + 8 <= 136 + 6 * zlen fr).
    { unfold n, u32, BN_CTX_START_FRAMES. destruct (Z.eqb_spec (stack_size (stack (ctx s))) 0); cbn [negb]; [lia|]. rewrite Z.mod_small by lia. dlia. }
    apply wp_bind, wp_on_store. wp_call (wp_alloc_store (malloc_uints n) (fun p => match p with Some l => zlen l = n | None => out_of_memory (4 * n + 8) end)); [|  |done].
    { apply malloc_uints_spec. lia. }
    intros [l|] st (Hl & Hs1 & Hs2); [|apply wp_fail; split_and!; try done; eapply out_of_memory_le; [|exact Hl]; lia]. apply wp_bind.
    assert (Hend : forall l', zlen l' = n -> ztake (zlen fr) l' = rev fr ->
      wp (indexes ← deref (zset (indexes (mkStack l' (depth (stack (ctx s))) n)) (depth (mkStack l' (depth (stack (ctx s))) n)) idx);
          put_stack (mkStack indexes (u32 (depth (mkStack l' (depth (stack (ctx s))) n) + 1)) (stack_size (mkStack l' (depth (stack (ctx s))) n))))
        (fun _ s' => exists st, stack_ok st (idx :: fr) /\ ctx s' = mkCtx (pool (ctx s)) st (used (ctx s)) (err_stack (ctx s)) (too_many (ctx s)) /\ items s' = items s /\ same_store s s')
        (fun s' => ctx s' = ctx s /\ items s' = items s /\ same_store s s' /\ out_of_memory (136 + 6 * zlen fr)) (mkCtxStore (ctx s) (items s) st)).
    { intros l' Hl' Ht'. destruct (stack_put (mkStack l' (depth (stack (ctx s))) n) fr idx) as (ix & Hix & Hok); [unfold stack_ok; cbn [indexes depth stack_size]; split_and!; done || lia|cbn; lia|done|].
      apply wp_bind. eapply wp_deref; [exact Hix|]. apply wp_put_stack. by eexists. }
    destruct (Z.eqb_spec (depth (stack (ctx s))) 0) as [E0|E0]; cbn [negb].
    + apply wp_ret, wp_ret, Hend; [done|]. assert (fr = []) as -> by (apply zlen_0; lia). by rewrite ztake_0.
    + apply wp_bind. eapply (wp_deref _ (rev fr)).
      { unfold ptr_read. cbn. rewrite H2, (proj2 (Z.leb_le 0 _)), (proj2 (Z.leb_le _ _)) by lia. cbn [andb]. by rewrite H3. }
      assert (Hzr : zlen (rev fr) = zlen fr) by (unfold zlen; by rewrite length_rev).
      eapply wp_deref; [apply zput_Some; rewrite ?Z.add_0_l; lia|]. rewrite ztake_0, Z.add_0_l. apply wp_ret, Hend.
      * cbn [app]. rewrite zlen_app, zlen_zdrop; lia.
      * cbn [app]. by apply ztake_app.
  - apply wp_ret. destruct (stack_put (stack (ctx s)) fr idx) as (ix & Hix & Hok); [done|lia|done|].
    apply wp_bind. eapply wp_deref; [exact Hix|]. apply wp_put_stack. by eexists.
Qed.

Lemma ctx_ok_frame s bl fr s' st u : ctx_ok s bl fr -> 0 <= u ->
  pool (ctx s') = pool (ctx s) -> items s' = items s -> used (ctx s') = used (ctx s) -> same_store s s' -> stack (ctx s') = st -> stack_ok st (u :: fr) -> marks_ok (used (ctx s)) (u :: fr) -> 0 <= err_stack (ctx s') -> ctx_ok s' bl (u :: fr).
Proof.
  intros (Hpool & Hst & Hmk & Herr & Hlen & Hnd & Hroom) Hu Hp Hi Hus [E1 E2] Hs' Hst' Hmk' He. unfold ctx_ok. rewrite Hp, Hi, Hus, E1, E2, Hs'. split_and!; try done; try lia.
  eapply Forall_impl; [exact Hroom|]. intros y (n & d & (H1 & H2 & H3) & H4). exists n, d. unfold bn_is. by rewrite E1, E2.
Qed.
Lemma ctx_ok_same s bl fr s' : ctx_ok s bl fr -> same_store s s' -> pool (ctx s') = pool (ctx s) -> items s' = items s -> used (ctx s') = used (ctx s) -> stack (ctx s') = stack (ctx s) -> 0 <= err_stack (ctx s') -> ctx_ok s' bl fr.
Proof.
  intros (Hpool & Hst & Hmk & Herr & Hlen & Hnd & Hroom) [E1 E2] Hp Hi Hus Hs' He. unfold ctx_ok. rewrite Hp, Hi, Hus, E1, E2, Hs'. split_and!; try done; try lia.
  eapply Forall_impl; [exact Hroom|]. intros y (n & d & (H1 & H2 & H3) & H4). exists n, d. unfold bn_is. by rewrite E1, E2.
Qed.

(** [BN_CTX_start] opens a frame, or counts one that it could not open. *)
Definition started (s : ctx_store) (bl : list bn) (fr : list Z) (s' : ctx_store) : Prop :=
  same_store s s' /\ used (ctx s') = used (ctx s) /\ too_many (ctx s') = too_many (ctx s) /\
  (jammed s = false /\ err_stack (ctx s') = 0 /\ ctx_ok s' bl (used (ctx s) :: fr) \/
   (jammed s = true \/ out_of_memory (136 + 6 * zlen fr)) /\ err_stack (ctx s') = err_stack (ctx s) + 1 /\ ctx_ok s' bl fr).
(** One more frame can be opened, or counted as not opened. *)
Definition nestable (s : ctx_store) (fr : list Z) : Prop := zlen fr < 2 ^ 30 /\ err_stack (ctx s) < 2 ^ 31 - 1.
Lemma BN_CTX_start_spec s bl fr : ctx_ok s bl fr -> nestable s fr -> wp BN_CTX_start (fun _ s' => started s bl fr s') (fun _ => False) s.
Proof.
  intros Hok [H30 H31]. pose proof Hok as (Hpool & Hst & Hmk & Herr & _). assert (Hu : 0 <= used (ctx s)) by (destruct Hpool as (_ & _ & ? & _); lia).
  unfold BN_CTX_start. apply wp_bind, wp_get_ctx. fold (jammed s). destruct (jammed s) eqn:Ej.
  - apply wp_incr_err; [done|]. unfold started. cbn [ctx items store pool stack used err_stack too_many]. split_and!; try done. right. split_and!; [by left|done|].
    eapply ctx_ok_same; [exact Hok|done|done|done|done|done|cbn; lia].
  - apply orb_false_iff in Ej as Ej'. destruct Ej' as [Ee%negb_false_iff%Z.eqb_eq Et]. apply wp_bind, wp_succeeds. wp_call (BN_STACK_push_spec (used (ctx s)) s fr); [done|done| |].
    + intros [] s' (st & Hst' & Hc & Hi & Hsame). apply wp_ret. unfold started. rewrite Hc. cbn [pool stack used err_stack too_many]. split_and!; try done. left. split_and!; [done|done|].
      eapply (ctx_ok_frame s bl fr s' st (used (ctx s))); rewrite ?Hc; done.
    + intros s' (Hc & Hi & Hsame & Hmem). apply wp_incr_err; [by rewrite Hc|]. unfold started. cbn [ctx items store pool stack used err_stack too_many]. rewrite Hc. split_and!; try done. right. split_and!; [by right|done|].
      eapply ctx_ok_same; [exact Hok|done|done|done|done|done|cbn; lia].
Qed.

Lemma BN_STACK_pop_spec s m fr : stack_ok (stack (ctx s)) (m :: fr) ->
  wp BN_STACK_pop (fun x s' => x = m /\ exists st, stack_ok st fr /\ s' = mkCtxStore (mkCtx (pool (ctx s)) st (used (ctx s)) (err_stack (ctx s)) (too_many (ctx s))) (items s) (store s)) (fun _ => False) s.
Proof.
  intros (H1 & H2 & H3 & H4 & H5 & H6). rewrite zlen_cons in *. pose proof (zlen_nonneg fr). unfold BN_STACK_pop. apply wp_bind, wp_get_ctx. cbv zeta. unfold u32. rewrite H2, Z.mod_small by lia. replace (1 + zlen fr - 1) with (zlen fr) by lia.
  assert (Hsplit : indexes (stack (ctx s)) = rev fr ++ m :: zdrop (1 + zlen fr) (indexes (stack (ctx s)))).
  { rewrite <- (ztake_zdrop (1 + zlen fr) (indexes (stack (ctx s)))) at 1. rewrite H3. cbn [rev]. by rewrite <- app_assoc. }
  assert (Hzr : zlen (rev fr) = zlen fr) by (unfold zlen; by rewrite length_rev).
  apply wp_bind, wp_put_stack. eapply wp_deref; [rewrite Hsplit; by apply zget_middle|]. split; [done|]. eexists. split; [|done].
  unfold stack_ok. cbn [indexes depth stack_size]. split_and!; try done; try lia. rewrite Hsplit. by apply ztake_app.
Qed.

Lemma BN_POOL_release_spec s bl u n : pool_ok (pool (ctx s)) (items s) bl u -> 0 <= n <= u -> 0 < n ->
  wp (BN_POOL_release n) (fun _ s' => exists p, pool_ok p (items s) bl (u - n) /\ s' = mkCtxStore (mkCtx p (stack (ctx s)) (used (ctx s)) (err_stack (ctx s)) (too_many (ctx s))) (items s) (store s)) (fun _ => False) s.
Proof.
  intros (Hits & Hpu & Hur & Hps & H31 & Hhd & Htl & Hcur) Hn Hn0. unfold BN_POOL_release. apply wp_bind, wp_get_ctx. cbv zeta. unfold u32. rewrite Hpu, (Z.mod_small (u - 1)) by lia. change BN_CTX_POOL_SIZE with 16. apply wp_bind.
  apply (wp_for (fun i '(off, cur) s' => s' = s /\ off = (u - i - 1) mod 16 /\ (i < u -> cur = Some (at_number (u - i))))).
  - rewrite Z.sub_0_r. split_and!; [done|done|]. intros. apply Hcur. lia.
  - intros i [off cur] s' Hi (-> & -> & Hc). specialize (Hc ltac:(lia)). subst cur. unfold at_number at 1. destruct (Z.eqb_spec ((u - i - 1) mod 16) 0) as [E|E].
    + assert (Hlt : (Z.to_nat ((u - i - 1) / 16) < length bl)%nat) by dlia. destruct (lookup_lt_is_Some_2 _ _ Hlt) as [v Hv].
      apply wp_bind. eapply wp_item_at; [rewrite Hits; by apply linked_lookup|]. apply wp_ret. split_and!; [done|dlia|]. intros Hiu. cbn [item_prev item_of].
      rewrite (proj2 (Nat.eqb_neq _ _)) by dlia. f_equal. unfold at_number. dlia.
    + apply wp_ret. split_and!; [done|dlia|]. intros Hiu. f_equal. unfold at_number. dlia.
  - intros [off cur] s' (-> & _ & Hc). apply wp_put_pool. rewrite Z2Nat.id, Z.add_0_l in Hc by lia. rewrite Z.mod_small by lia. eexists. split; [|done]. unfold pool_ok. cbn [head current tail pool_used pool_size].
    split_and!; try done; try lia. intros. apply Hc. lia.
Qed.

Definition ended (s : ctx_store) (bl : list bn) (fr : list Z) (s' : ctx_store) : Prop :=
  same_store s s' /\
  (0 < err_stack (ctx s) /\ err_stack (ctx s') = err_stack (ctx s) - 1 /\ used (ctx s') = used (ctx s) /\ too_many (ctx s') = too_many (ctx s) /\ ctx_ok s' bl fr \/
   err_stack (ctx s) = 0 /\ exists m fr', fr = m :: fr' /\ used (ctx s') = m /\ too_many (ctx s') = false /\ err_stack (ctx s') = 0 /\ ctx_ok s' bl fr').
Lemma BN_CTX_end_spec s bl fr : ctx_ok s bl fr -> fr <> [] \/ 0 < err_stack (ctx s) -> wp BN_CTX_end (fun _ s' => ended s bl fr s') (fun _ => False) s.
Proof.
  intros Hok Hfr. pose proof Hok as (Hpool & Hst & Hmk & Herr & Hlen & Hnd & Hroom). unfold BN_CTX_end. apply wp_bind, wp_get_ctx.
  destruct (Z.eqb_spec (err_stack (ctx s)) 0) as [E|E]; cbn [negb].
  - destruct Hfr as [Hfr|?]; [|lia]. destruct fr as [|m fr]; [done|]. destruct Hmk as [Hm Hmk]. apply wp_bind. wp_call BN_STACK_pop_spec; [exact Hst| |done]. intros ? s1 (-> & st & Hst' & ->).
    set (u := used (ctx s)) in *. eapply wp_bind, (wp_mono _ (fun _ s' => exists p, pool_ok p (items s) bl m /\ s' = mkCtxStore (mkCtx p st u (err_stack (ctx s)) (too_many (ctx s))) (items s) (store s)) _ (fun _ => False)); [| |done].
    { destruct (Z.ltb_spec m u) as [Hlt|Hge].
      - wp_call (BN_POOL_release_spec (mkCtxStore (mkCtx (pool (ctx s)) st u (err_stack (ctx s)) (too_many (ctx s))) (items s) (store s)) bl u (u - m)); [done|lia|lia| |done].
        intros [] s2 (p & Hp & ->). exists p. split; [|done]. by replace (u - (u - m)) with m in Hp by lia.
      - apply wp_ret. exists (pool (ctx s)). split; [|done]. by replace m with u by lia. }
    intros [] s2 (p & Hp & ->). apply wp_put_used. split; [done|]. right. split; [done|]. exists m, fr. cbn [ctx items store pool stack used err_stack too_many]. split_and!; done.
  - apply wp_put_err. split; [done|]. left. cbn [ctx items store pool stack used err_stack too_many]. split_and!; try done; [lia|].
    eapply ctx_ok_same; [exact Hok|done|done|done|done|done|cbn; lia].
Qed.
End Facts.
