(* ===== verification/BnMulCtx.v ===== *)
(** Facts about [BnCtx]: BN_mul and its relatives compute products with numbers of the scratch
    context, which they give back. *)
From S2P Require Import Prelude Mem Der MemFacts Cells Ct BnWords BnWordsFacts BnMulFacts BnSqr CtFacts Bn BnFacts BnCmp BnAddFacts BnArith BnTests BnMul BnPartFacts BnKaratsuba BnMulRecursive BnMulThms BnCtx BnCtxFacts.

(** * What a computation on words leaves in the store *)

Lemma keeps_length m m' Rs y : keeps m m' Rs -> zlen <$> (m' !! y) = zlen <$> (m !! y).
Proof.
  intros [H _]. assert (Hw : forall n, writable m' (y, 0) n <-> writable m (y, 0) n) by (intros; apply H).
  assert (Hr : forall k arr n, k !! y = Some arr -> writable k (y, 0) n <-> 0 <= n <= zlen arr).
  { intros k arr n Hk. split; [intros (arr' & Hk' & _ & ? & ?); cbn in *; simplify_eq; lia|]. intros ?. exists arr. split; [done|]. unfold room. cbn. lia. }
  destruct (m !! y) as [arr|] eqn:E, (m' !! y) as [arr'|] eqn:E'; cbn; [|exfalso..|done].
  - f_equal. pose proof (zlen_nonneg arr). pose proof (zlen_nonneg arr'). pose proof (Hw (zlen arr)) as G1. pose proof (Hw (zlen arr')) as G2.
    rewrite (Hr _ _ _ E), (Hr _ _ _ E') in G1. rewrite (Hr _ _ _ E), (Hr _ _ _ E') in G2. lia.
  - pose proof (Hw 0) as G1. rewrite (Hr _ _ _ E) in G1. pose proof (zlen_nonneg arr). destruct (proj2 G1 ltac:(lia)) as (b & Hb & _). cbn in Hb. congruence.
  - pose proof (Hw 0) as G1. rewrite (Hr _ _ _ E') in G1. pose proof (zlen_nonneg arr'). destruct (proj1 G1 ltac:(lia)) as (b & Hb & _). cbn in Hb. congruence.
Qed.
Lemma keeps_other m m' Rs y : keeps m m' Rs -> Forall (fun R => R.1.1 <> y) Rs -> m' !! y = m !! y.
Proof.
  intros K HR. pose proof (keeps_length _ _ _ y K) as Hl. destruct (m !! y) as [arr|] eqn:E, (m' !! y) as [arr'|] eqn:E'; try done. cbn in Hl. injection Hl as Hl.
  assert (Ha : at_ m (y, 0) arr) by (exists arr; cbn; rewrite zdrop_0, ztake_all; split_and!; [done|done|lia|done]).
  destruct K as (_ & K & _). destruct (K _ _ Ha) as (b & Hb & _ & _ & Ht).
  { eapply Forall_impl; [exact HR|]. intros R HRy. by left. }
  cbn in Hb, Ht. rewrite E' in Hb. injection Hb as <-. rewrite zdrop_0, <- Hl, ztake_all in Ht. by rewrite Ht.
Qed.
Lemma keeps_size m m' Rs : keeps m m' Rs -> length m' = length m.
Proof.
  intros K. assert (H : forall y, is_Some (m' !! y) <-> is_Some (m !! y)).
  { intros y. pose proof (keeps_length _ _ _ y K) as Hl. destruct (m !! y), (m' !! y); try done; split; intros [? ?]; try done; by eexists. }
  destruct (Nat.lt_trichotomy (length m') (length m)) as [Hlt|[?|Hlt]]; [|done|]; exfalso; apply lookup_lt_is_Some in Hlt; apply H in Hlt; apply lookup_lt_is_Some in Hlt; lia.
Qed.

(** The numbers [xs] may differ. *)
Definition others_in (xs : list bn) (s s' : bn_store) : Prop :=
  length (nums s') = length (nums s) /\ length (arrays s') = length (arrays s) /\
  forall y, y ∉ xs -> nums s' !! y = nums s !! y /\ arrays s' !! y = arrays s !! y.
Lemma others_in_refl xs s : others_in xs s s.
Proof. done. Qed.
Lemma others_in_trans xs s1 s2 s3 : others_in xs s1 s2 -> others_in xs s2 s3 -> others_in xs s1 s3.
Proof. intros (H1 & H2 & H3) (H4 & H5 & H6). split_and!; [congruence|congruence|]. intros y Hy. destruct (H3 y Hy), (H6 y Hy). split; congruence. Qed.
Lemma others_in_one xs s s' x : others x s s' -> x ∈ xs -> others_in xs s s'.
Proof. intros (H1 & H2 & H3) Hx. split_and!; [done|done|]. intros y Hy. apply H3. by intros ->. Qed.
Lemma shows_in xs s s' y ng l : others_in xs s s' -> y ∉ xs -> shows s y ng l -> shows s' y ng l.
Proof. intros (_ & _ & H) Hy (n & d & (H1 & H2 & H3) & H4). destruct (H y Hy) as [E1 E2]. exists n, d. unfold bn_is. by rewrite E1, E2. Qed.

(** The words that changed still belong to well-formed numbers. *)
Lemma keeps_is s m' Rs h x n d : keeps (arrays s) m' Rs -> bn_is s x n d -> exists d', bn_is (mkStore (nums s) m' h) x n d'.
Proof.
  intros K (H1 & H2 & (H3 & H4 & H5 & H6)). pose proof (keeps_length _ _ _ x K) as Hl. pose proof K as (_ & _ & Hd). destruct (Hd x d H2 H6) as (d' & Hd' & Hdd).
  rewrite H2, Hd' in Hl. cbn in Hl. injection Hl as Hl. exists d'. split_and!; [done|done|]. unfold well_formed. split_and!; try done; lia.
Qed.
Lemma keeps_others_in s m' Rs h xs : keeps (arrays s) m' Rs -> Forall (fun R => R.1.1 ∈ xs) Rs -> others_in xs s (mkStore (nums s) m' h).
Proof.
  intros K HR. split_and!; [done|by eapply keeps_size|]. intros y Hy. split; [done|]. eapply keeps_other; [exact K|]. eapply Forall_impl; [exact HR|]. intros R H1 H2. by subst y.
Qed.

Section Products.
Context `{alloc : Allocator}.

(** [k] words of the number [rr] are [ws]; its sign is [ng]. *)
Definition stores (s : bn_store) (rr : bn) (ng : bool) (k v : Z) : Prop :=
  exists n d ws, bn_is s rr n d /\ neg n = ng /\ 0 <= k <= dmax n /\ ztake k d = ws /\ val ws = v.

(** Setting the width to what the number needs. *)
Lemma stores_width s rr ng k v top : stores s rr ng k v -> 0 <= top <= k -> v < BASE ^ top ->
  wp (bn_set_width rr top) (fun _ s' => others rr s s' /\ exists l, shows s' rr ng l /\ zlen l = top /\ val l = v) (fun _ => False) s.
Proof.
  intros (n & d & ws & Hbn & Hng & Hk & <- & <-) Htop Hv. pose proof Hbn as (Hn & Hd & (H1 & H2 & H3 & H4)). destruct (bn_is_lt _ _ _ _ Hbn) as [Hlt _].
  eapply wp_set_width; [exact Hn|]. split.
  - unfold others. cbn. rewrite length_insert. split_and!; [done|done|]. intros y Hy. by rewrite list_lookup_insert_ne.
  - exists (ztake top d). assert (Hz : zlen (ztake top d) = top) by (rewrite zlen_ztake; lia). split_and!; [|done|].
    + eexists _, d. split; [split_and!; [by apply list_lookup_insert_eq|exact Hd|]|].
      * unfold well_formed. cbn [width dmax]. split_and!; try done; lia.
      * cbn [neg width]. by rewrite Hz.
    + assert (Hdt : digits (ztake k d)) by by apply digits_ztake. rewrite (val_split top (ztake k d)) in * by (rewrite zlen_ztake; lia).
      rewrite ztake_ztake in * by lia. pose proof (val_range _ (digits_zdrop top _ Hdt)) as [Hr _]. pose proof (val_range _ (digits_ztake top _ H4)) as [Hr' _].
      destruct (Z.eq_dec (val (zdrop top (ztake k d))) 0) as [->|Hne]; [lia|]. assert (0 < BASE ^ top) by (apply Z.pow_pos_nonneg; lia). nia.
Qed.

Lemma shows_factor s x ng l : shows s x ng l -> factor (arrays s) (bn_d x) (zlen l) l.
Proof. intros H. split_and!; [by eapply shows_at|done|]. by destruct (shows_digits _ _ _ _ H). Qed.
Lemma cannot_grow_same s s1 x k : nums s1 !! x = nums s !! x -> cannot_grow s1 x k -> cannot_grow s x k.
Proof. intros E (n & Hn & H). exists n. by rewrite <- E. Qed.
Lemma roomy_weaken s x k k' : k' <= k -> roomy s x k -> roomy s x k'.
Proof. intros Hk (n & d & Hbn & H). exists n, d. split; [done|lia]. Qed.
Lemma roomy_in s s' x k : nums s' !! x = nums s !! x -> arrays s' !! x = arrays s !! x -> roomy s x k -> roomy s' x k.
Proof. intros E1 E2 (n & d & (H1 & H2 & H3) & H4). exists n, d. unfold bn_is. by rewrite E1, E2. Qed.

Lemma same_number s s' x ng l : nums s' !! x = nums s !! x -> arrays s' !! x = arrays s !! x -> shows s x ng l -> shows s' x ng l.
Proof. intros E1 E2 (n & d & (H1 & H2 & H3) & H4). exists n, d. unfold bn_is. by rewrite E1, E2. Qed.

(** Words computed into [rr], with [kt] words at [t]. *)
Lemma words_run (P : M words unit) rr t s kr kt v n0 d0 :
  bn_is s rr n0 d0 -> 0 <= kr <= dmax n0 -> roomy s t kt ->
  wp P (fun _ m' => computes (arrays s) (bn_d rr) (bn_d t) kr kt v m') (fun _ => False) (arrays s) ->
  wp (on_words P) (fun _ s' => others_in [rr; t] s s' /\ stores s' rr (neg n0) kr v /\ roomy s' t 0) (fun _ => False) s.
Proof.
  intros Hbn Hkr Hrt HP. apply wp_on_words. wp_call HP; [|done]. intros [] m' (ws & Hws & Hz & Hd & Hv & K). split_and!.
  - eapply keeps_others_in; [exact K|]. constructor; [cbn; by left|]. constructor; [cbn; right; by left|constructor].
  - destruct (keeps_is _ _ _ (bn_heap s) _ _ _ K Hbn) as (d' & Hbn'). exists n0, d', ws. split_and!; try done; [lia|lia|].
    destruct Hws as (arr & Harr & _ & _ & Htk). destruct Hbn' as (_ & Hd' & _). cbn in Harr, Hd', Htk. rewrite Hd' in Harr. injection Harr as <-. by rewrite zdrop_0, Hz in Htk.
  - destruct Hrt as (n & d & Hbt & Hroom). destruct (keeps_is _ _ _ (bn_heap s) _ _ _ K Hbt) as (d' & Hbn'). exists n, d'. split; [done|]. destruct Hbt as (_ & _ & (_ & ? & _)). lia.
Qed.

(** A product by words, to [rr], with room for [kt] words at [t]. *)
Lemma scratch_words (P : M words unit) rr t a b s na nb ng la lb lr kr kt v :
  shows s a na la -> shows s b nb lb -> shows s rr ng lr -> roomy s t 0 -> a <> rr -> b <> rr -> t <> rr -> t <> a -> t <> b -> 0 <= kt -> 0 <= kr ->
  (forall m, factor m (bn_d a) (zlen la) la -> factor m (bn_d b) (zlen lb) lb -> writable m (bn_d rr) kr -> writable m (bn_d t) kt ->
     wp P (fun _ m' => computes m (bn_d rr) (bn_d t) kr kt v m') (fun _ => False) m) ->
  wp (bn_wexpand t kt;; bn_wexpand rr kr;; on_words P)
    (fun _ s' => others_in [rr; t] s s' /\ stores s' rr ng kr v /\ roomy s' t 0)
    (fun s' => others_in [rr; t] s s' /\ roomy s' rr 0 /\ roomy s' t 0 /\ (cannot_grow s t kt \/ cannot_grow s rr kr)) s.
Proof.
  intros Ha Hb Hrr Ht Har Hbr Htr Hta Htb Hkt Hkr HP.
  apply wp_bind. wp_call bn_wexpand_spec; [exact Ht|done| |].
  2: { intros s' (E1 & E2 & Hc). pose proof (others_same t s s' E1 E2) as Ho. split_and!; [by eapply others_in_one; [|right; left]|eapply roomy_in; [by rewrite E1|by rewrite E2|by eapply roomy_shows]|eapply roomy_in; [by rewrite E1|by rewrite E2|done]|by left]. }
  intros [] s1 (Ho1 & Hsh1 & Hrt). assert (Hin1 : others_in [rr; t] s s1) by (eapply others_in_one; [done|right; by left]).
  apply wp_bind. wp_call bn_wexpand_spec; [eapply roomy_shows, Hsh1, Hrr|done| |].
  2: { intros s' (E1 & E2 & Hc). split_and!.
    - eapply others_in_trans; [exact Hin1|]. eapply others_in_one; [by apply others_same|by left].
    - eapply roomy_in; [by rewrite E1|by rewrite E2|eapply roomy_shows, Hsh1, Hrr].
    - eapply roomy_weaken; [|eapply roomy_in; [by rewrite E1|by rewrite E2|exact Hrt]]. lia.
    - right. eapply cannot_grow_same; [|exact Hc]. destruct Ho1 as (_ & _ & Ho1). by apply Ho1. }
  intros [] s2 (Ho2 & Hsh2 & Hrrr). assert (Hin2 : others_in [rr; t] s s2) by (eapply others_in_trans; [exact Hin1|eapply others_in_one; [done|by left]]).
  assert (Hrt2 : roomy s2 t kt) by (destruct Ho2 as (_ & _ & Ho2); destruct (Ho2 t Htr); by eapply roomy_in).
  destruct Hrrr as (n & d & Hbn & Hroom). assert (Hng : neg n = ng).
  { destruct (shows_get _ _ _ _ (Hsh2 _ _ _ (Hsh1 _ _ _ Hrr))) as (n' & Hn' & Hng & _). destruct Hbn as (Hn & _). rewrite Hn in Hn'. by injection Hn' as <-. }
  wp_call (words_run P rr t s2 kr kt v n d); [exact Hbn|done|exact Hrt2| | |done].
  { apply HP; [by eapply shows_factor, Hsh2, Hsh1|by eapply shows_factor, Hsh2, Hsh1|apply roomy_writable; [by exists n, d|done]|by apply roomy_writable]. }
  intros [] s3 (Ho3 & Hstore & Ht3). rewrite <- Hng. split_and!; [by eapply others_in_trans|done|done].
Qed.

(** A product by words, to [rr], that needs no other room. *)
Lemma plain_words (P : M words unit) rr a b s na nb ng la lb lr k v :
  shows s a na la -> shows s b nb lb -> shows s rr ng lr -> a <> rr -> b <> rr -> 0 <= k ->
  (forall m, factor m (bn_d a) (zlen la) la -> factor m (bn_d b) (zlen lb) lb -> writable m (bn_d rr) k ->
     wp P (fun _ m' => exists ws, m' = wput m (bn_d rr) ws /\ zlen ws = k /\ digits ws /\ val ws = v) (fun _ => False) m) ->
  wp (bn_wexpand rr k;; bn_set_width rr k;; on_words P)
    (fun _ s' => others rr s s' /\ exists l, shows s' rr ng l /\ zlen l = k /\ val l = v)
    (fun s' => nums s' = nums s /\ arrays s' = arrays s /\ cannot_grow s rr k) s.
Proof.
  intros Ha Hb Hrr Har Hbr Hk HP. apply wp_bind. wp_call bn_wexpand_spec; [by eapply roomy_shows|done| |done]. intros [] s1 (Ho1 & Hsh1 & n & d & Hbn & Hroom).
  pose proof Hbn as (Hn & Hd & (H1 & H2 & H3 & H4)). destruct (bn_is_lt _ _ _ _ Hbn) as [Hlt _]. apply wp_bind. eapply wp_set_width; [exact Hn|].
  set (s2 := mkStore _ _ _). assert (Ho2 : others rr s1 s2).
  { unfold others, s2. cbn. rewrite length_insert. split_and!; [done|done|]. intros y Hy. by rewrite list_lookup_insert_ne. }
  assert (Hz : zlen (ztake k d) = k) by (rewrite zlen_ztake; lia). assert (Hs2 : shows s2 rr (neg n) (ztake k d)).
  { eexists _, d. split; [split_and!; [by apply list_lookup_insert_eq|exact Hd|]|].
    - unfold well_formed. cbn [width dmax]. split_and!; try done; lia.
    - cbn [neg width]. by rewrite Hz. }
  assert (Hng : neg n = ng) by (destruct (shows_get _ _ _ _ (Hsh1 _ _ _ Hrr)) as (n' & Hn' & Hng & _); rewrite Hn in Hn'; by injection Hn' as <-).
  apply wp_on_words. wp_call (HP (arrays s2)); [by eapply shows_factor, shows_others, Hsh1|by eapply shows_factor, shows_others, Hsh1|rewrite <- Hz; by eapply at_writable, shows_at| |done].
  intros [] m' (ws & -> & Hzw & Hdw & Hv). destruct (shows_get _ _ _ _ Hs2) as (n2 & Hn2 & _).
  destruct (rewritten s2 rr (neg n) (ztake k d) ws (bn_heap s2) n2) as [Hs3 Ho3]; [done|done|done|lia|]. split; [by do 2 (eapply others_trans; [done|])|]. exists ws. by rewrite <- Hng.
Qed.

(** * Steps on the context *)

Lemma ctx_ok_store s bl fr st xs : ctx_ok s bl fr -> others_in xs (store s) st -> Forall (fun x => roomy st x 0) xs -> ctx_ok (mkCtxStore (ctx s) (items s) st) bl fr.
Proof.
  intros (Hpool & Hst & Hmk & Herr & Hlen & Hnd & Hroom) (E1 & E2 & Ho) Hxs. unfold ctx_ok. cbn [ctx items store]. split_and!; try done; [congruence|].
  eapply Forall_impl; [exact Hroom|]. intros y Hy. destruct (decide (y ∈ xs)) as [Hin|Hout]; [exact (proj1 (Forall_forall _ _) Hxs y Hin)|]. destruct (Ho y Hout). by eapply roomy_in.
Qed.
Lemma calm_stores rs s1 b1 s2 b2 st xs :
  calm rs s1 b1 s2 b2 -> others_in xs (store s2) st -> Forall (fun x => x ∈ rs \/ x ∈ unused s1 b1 \/ (length (nums (store s1)) <= x)%nat) xs ->
  calm rs s1 b1 (mkCtxStore (ctx s2) (items s2) st) b2.
Proof.
  intros (Hm & Hl & H) (Ho1 & Ho2 & Ho3) Hx. split_and!; [done|cbn; lia|]. intros y Hy Hun Hrs. destruct (H y Hy Hun Hrs) as [<- <-]. apply Ho3.
  intros Hin. destruct (proj1 (Forall_forall _ _) Hx y Hin) as [?|[?|?]]; [done|done|lia].
Qed.
Lemma calm_shows rs s bl s' bl' x ng l : calm rs s bl s' bl' -> live s bl x -> x ∉ rs -> shows (store s) x ng l -> shows (store s') x ng l.
Proof.
  intros (_ & _ & H) [Hx Hu] Hrs (n & d & (H1 & H2 & H3) & H4). destruct (H x Hx Hu Hrs) as [E1 E2]. exists n, d. unfold bn_is. by rewrite E1, E2.
Qed.
Lemma calm_mono rs rs' s bl s' bl' : rs ⊆ rs' -> calm rs s bl s' bl' -> calm rs' s bl s' bl'.
Proof. intros Hrs (H1 & H2 & H3). split_and!; [done|done|]. intros x Hx Hu Hn. apply H3; [done|done|]. intros Hin. by apply Hn, Hrs. Qed.

(** Why a product of [w] words can fail. *)
Definition blocked (s : ctx_store) (w : Z) : Prop := jammed s = true \/ out_of_memory (416 + 64 * w) \/ static_in s \/ max_words < 8 * w.
Lemma grow_blocked s s1 x k w : cannot_grow (store s1) x k -> tame s s1 -> k <= 8 * w -> 0 <= w -> blocked s w.
Proof.
  intros (n & Hn & Hlt & [H|[H|[i H]]]) Ht Hk Hw; unfold blocked.
  - right; right; right. lia.
  - right; right; left. apply Ht. by exists x, n.
  - right; left. exists i, (8 * k + 8). split; [lia|done].
Qed.

(** What a call has done to the frames, for better or worse. *)
Definition steady (s : ctx_store) (bl : list bn) (fr : list Z) (rs : list bn) (n : Z) (s' : ctx_store) (bl' : list bn) : Prop :=
  ctx_ok s' bl' fr /\ calm rs s bl s' bl' /\ err_stack (ctx s') = err_stack (ctx s) /\ used (ctx s) <= used (ctx s') <= used (ctx s) + n /\
  (jammed s = true -> too_many (ctx s') = too_many (ctx s) /\ used (ctx s') = used (ctx s)).

Lemma mul_power_spec al bl :
  16 <= al <= max_words -> 16 <= bl <= max_words -> -1 <= al - bl <= 1 ->
  exists k, mul_power al bl = 2 ^ Z.of_nat k /\ 16 <= 2 ^ Z.of_nat k /\ 2 ^ Z.of_nat k <= Z.max al bl < 2 * 2 ^ Z.of_nat k.
Proof.
  intros Ha Hb Hd. unfold mul_power, max_words in *. assert ((if 0 <=? al - bl then BN_num_bits_word al else BN_num_bits_word bl) = bit_length (Z.max al bl)) as ->.
  { destruct (Z.leb_spec 0 (al - bl)); rewrite BN_num_bits_word_spec by (unfold word; lia); f_equal; lia. }
  set (m := Z.max al bl). unfold bit_length. rewrite (proj2 (Z.eqb_neq _ _)), Z.add_simpl_r by lia. pose proof (Z.log2_spec m ltac:(lia)) as [Hl1 Hl2]. pose proof (Z.log2_nonneg m).
  exists (Z.to_nat (Z.log2 m)). rewrite Z.shiftl_mul_pow2, Z.mul_1_l by lia. rewrite Z2Nat.id by lia. rewrite Z.pow_succ_r in Hl2 by lia. split_and!; [done| |lia|lia].
  change 16 with (2 ^ 4). apply Z.pow_le_mono_r; [lia|]. apply Z.log2_le_pow2; lia.
Qed.

Lemma steady_refl s bl fr rs n : ctx_ok s bl fr -> 0 <= n -> steady s bl fr rs n s bl.
Proof. intros H Hn. split_and!; try done; [apply calm_refl|lia]. Qed.
Lemma steady_store s bl fr rs n s1 bl1 st xs :
  steady s bl fr rs n s1 bl1 -> others_in xs (store s1) st -> Forall (fun x => roomy st x 0) xs ->
  Forall (fun x => x ∈ rs \/ x ∈ unused s bl \/ (length (nums (store s)) <= x)%nat) xs -> steady s bl fr rs n (mkCtxStore (ctx s1) (items s1) st) bl1.
Proof.
  intros (H1 & H2 & H3 & H4 & H5) Ho Hr Hf. unfold steady. cbn [ctx items store]. split; [by eapply ctx_ok_store|]. split; [by eapply calm_stores|done].
Qed.
Lemma steady_got s bl fr rs o s' : got s bl fr o s' -> exists bl', steady s bl fr rs 1 s' bl' /\ (o = None -> same_store s s' /\ bl' = bl).
Proof.
  intros (bl' & Hok & Hc & He & Hst & H). exists bl'. pose proof (calm_mono [] rs _ _ _ _ ltac:(set_solver) Hc) as Hc'. destruct o as [x|].
  - destruct H as (_ & Hu & Ht & Hj & _). split; [|done]. split_and!; try done; [lia|lia|congruence].
  - destruct H as (-> & Hsame & Hu & Hcase). split; [|done]. split_and!; try done; [lia|lia|]. intros Ej. destruct Hcase as [[_ ->]|[? _]]; [done|congruence].
Qed.

Lemma product_fits la lb : digits la -> digits lb -> val la * val lb < BASE ^ (zlen la + zlen lb).
Proof.
  intros Ha Hb. pose proof (val_range la Ha). pose proof (val_range lb Hb). rewrite Z.pow_add_r by apply zlen_nonneg. nia.
Qed.

Section Words.
Variables (s : ctx_store) (bl : list bn) (fr : list Z) (rr a b : bn) (na nb ng : bool) (la lb lr : list Z).
Hypothesis Hok : ctx_ok s bl fr.
Hypothesis Hsp : spacious s 1.
Hypothesis Hlr : live s bl rr.
Hypothesis Hla : live s bl a.
Hypothesis Hlb : live s bl b.
Hypothesis Hsa : shows (store s) a na la.
Hypothesis Hsb : shows (store s) b nb lb.
Hypothesis Hsr : shows (store s) rr ng lr.
Hypothesis Har : a <> rr.
Hypothesis Hbr : b <> rr.
Local Abbreviation w := (zlen la + zlen lb).

Definition multiplied (s' : ctx_store) : Prop :=
  exists bl', steady s bl fr [rr] 1 s' bl' /\ exists l, shows (store s') rr ng l /\ zlen l = w /\ val l = val la * val lb.
Definition stopped (s' : ctx_store) : Prop := exists bl', steady s bl fr [rr] 1 s' bl' /\ blocked s w.

Lemma rr_fresh : Forall (fun x => x ∈ [rr] \/ x ∈ unused s bl \/ (length (nums (store s)) <= x)%nat) [rr].
Proof. constructor; [left; by left|constructor]. Qed.

Lemma plain_product (P : M words unit) k :
  k = w ->
  (forall m, factor m (bn_d a) (zlen la) la -> factor m (bn_d b) (zlen lb) lb -> writable m (bn_d rr) k ->
     wp P (fun _ m' => exists ws, m' = wput m (bn_d rr) ws /\ zlen ws = k /\ digits ws /\ val ws = val la * val lb) (fun _ => False) m) ->
  wp (on_store (bn_wexpand rr k;; bn_set_width rr k;; on_words P)) (fun _ => multiplied) stopped s.
Proof.
  intros -> HP. pose proof (zlen_nonneg la). pose proof (zlen_nonneg lb). apply wp_on_store.
  wp_call (plain_words P rr a b (store s) na nb ng la lb lr w (val la * val lb)); [exact Hsa|exact Hsb|exact Hsr|done|done|lia|exact HP| |].
  - intros [] st [Ho (l & Hl & Hz & Hv)]. exists bl. split; [|by exists l]. eapply (steady_store _ _ _ _ _ s bl _ [rr]); [apply steady_refl; [done|lia]|eapply others_in_one; [done|by left]| |apply rr_fresh].
    constructor; [by eapply roomy_shows|constructor].
  - intros st (E1 & E2 & Hc). exists bl. split; [|eapply (grow_blocked s s); [exact Hc|by apply tame_same|lia|lia]].
    eapply (steady_store _ _ _ _ _ s bl _ []); [apply steady_refl; [done|lia]| |constructor|constructor]. split_and!; [by rewrite E1|by rewrite E2|]. intros y _. by rewrite E1, E2.
Qed.

Lemma scratch_product (P : M words unit) t kr kt s1 :
  0 <= kt <= 8 * w -> w <= kr <= 8 * w -> got s bl fr (Some t) s1 ->
  (forall m, factor m (bn_d a) (zlen la) la -> factor m (bn_d b) (zlen lb) lb -> writable m (bn_d rr) kr -> writable m (bn_d t) kt -> t <> a -> t <> b -> t <> rr ->
     wp P (fun _ m' => computes m (bn_d rr) (bn_d t) kr kt (val la * val lb) m') (fun _ => False) m) ->
  wp (on_store (bn_wexpand t kt;; bn_wexpand rr kr;; on_words P);; on_store (bn_set_width rr w)) (fun _ => multiplied) stopped s1.
Proof.
  intros Hkt Hkr Hgot HP. pose proof (zlen_nonneg la). pose proof (zlen_nonneg lb). destruct (steady_got _ _ _ [rr] _ _ Hgot) as (bl1 & Hst & _).
  pose proof Hgot as (bl' & _ & Hcalm & _ & _ & Hx & _ & _ & _ & Hz & Htr). pose proof (got_fresh _ _ _ _ _ _ Hcalm Hx) as Hfresh.
  assert (Hdiff : forall y, live s bl y -> t <> y) by (intros y [Hy1 Hy2] ->; destruct Hfresh; [done|lia]).
  assert (Hsh : forall y ng l, live s bl y -> shows (store s) y ng l -> shows (store s1) y ng l) by (intros y ng' l Hy; eapply calm_shows; [exact Hcalm|done|set_solver]).
  apply wp_bind, wp_on_store. wp_call (scratch_words P rr t a b (store s1) na nb ng la lb lr kr kt (val la * val lb));
    [by apply Hsh|by apply Hsh|by apply Hsh|by eapply holds_roomy|done|done|by apply Hdiff|by apply Hdiff|by apply Hdiff|lia|lia|intros; apply HP; auto| |].
  - intros [] st (Ho & Hstore & Hrt). apply wp_on_store. cbn [ctx items store]. pose proof Hsa as Hsa'. destruct (shows_digits _ _ _ _ Hsa) as [Hda _]. destruct (shows_digits _ _ _ _ Hsb) as [Hdb _].
    wp_call stores_width; [exact Hstore|lia|by apply product_fits| |done]. intros [] st2 [Ho2 (l & Hl & Hzl & Hv)]. exists bl1. split; [|by exists l].
    eapply (steady_store _ _ _ _ _ s1 bl1 _ [rr; t]); [exact Hst|eapply others_in_trans; [exact Ho|eapply others_in_one; [done|by left]]| |].
    + constructor; [by eapply roomy_shows|]. constructor; [|constructor]. destruct Ho2 as (_ & _ & Ho2). destruct (Ho2 t (Hdiff rr Hlr)). by eapply roomy_in.
    + constructor; [left; by left|]. constructor; [by right|constructor].
  - intros st (Ho & Hr1 & Hr2 & Hc). exists bl1. split.
    + eapply (steady_store _ _ _ _ _ s1 bl1 _ [rr; t]); [exact Hst|exact Ho|by repeat constructor|]. constructor; [left; by left|]. constructor; [by right|constructor].
    + destruct Hc as [Hc|Hc]; by (eapply (grow_blocked s s1); [exact Hc|done|lia|lia]).
Qed.

Lemma number_apart (x y : bn) n k : x <> y -> apart (bn_d x) n (bn_d y) k.
Proof. intros H. by left. Qed.

Lemma mul_words_spec : 0 < zlen la -> 0 < zlen lb -> wp (mul_words rr a b (zlen la) (zlen lb)) (fun _ => multiplied) stopped s.
Proof.
  intros Ha0 Hb0. destruct (shows_digits _ _ _ _ Hsa) as [Hda Hma]. destruct (shows_digits _ _ _ _ Hsb) as [Hdb Hmb]. unfold mul_words. cbv zeta.
  destruct ((zlen la - zlen lb =? 0) && (zlen la =? 8)) eqn:E8.
  { apply andb_prop in E8 as [E1%Z.eqb_eq E2%Z.eqb_eq]. apply plain_product; [lia|]. intros m (Fa & _) (Fb & _) Hw.
    wp_call (bn_mul_comba8_spec m (bn_d rr) (bn_d a) (bn_d b) la lb); [done|done|done|done|done|lia|done|by apply number_apart|by apply number_apart|done|done]. }
  destruct ((16 <=? zlen la) && (16 <=? zlen lb) && ((-1 <=? zlen la - zlen lb) && (zlen la - zlen lb <=? 1))) eqn:E16.
  - apply andb_prop in E16 as [[E1%Z.leb_le E2%Z.leb_le]%andb_prop [E3%Z.leb_le E4%Z.leb_le]%andb_prop].
    destruct (mul_power_spec (zlen la) (zlen lb)) as (k & -> & H16 & Hj); [lia|lia|lia|]. set (j := 2 ^ Z.of_nat k) in *.
    apply wp_bind, wp_assert; [apply orb_true_iff; rewrite !Z.leb_le; lia|]. apply wp_bind. wp_call BN_CTX_get_spec; [exact Hok|done| |done]. intros [t|] s1 Hgot.
    + apply wp_bind, wp_ret. destruct ((j <? zlen la) || (j <? zlen lb)) eqn:Ej.
      * assert (Hbig : j < zlen la \/ j < zlen lb) by (apply orb_true_iff in Ej as [?%Z.ltb_lt|?%Z.ltb_lt]; [by left|by right]). apply wp_assoc.
        apply wp_bind, wp_assert; [apply andb_true_iff; rewrite !Z.leb_le; lia|].
        apply (scratch_product _ t (j * 4) (j * 8)); [lia|lia|done|]. intros m Fa Fb Hw Ht Hta Htb Htr.
        pose proof (levels_enough k) as Hlev. fold j in Hlev. replace (j * 4) with (4 * j) in * by lia.
        apply (bn_mul_part_recursive_spec _ k); rewrite ?Zplus_minus; try done; try (by apply number_apart); try lia.
      * assert (Hsmall : zlen la <= j /\ zlen lb <= j) by (apply orb_false_iff in Ej as [?%Z.ltb_ge ?%Z.ltb_ge]; done).
        apply (scratch_product _ t (j * 2) (j * 4)); [lia|lia|done|]. intros m Fa Fb Hw Ht Hta Htb Htr.
        pose proof (levels_enough k) as Hlev. fold j in Hlev. replace (j * 2) with (2 * j) in * by lia.
        apply (bn_mul_recursive_spec _ k); rewrite ?Zplus_minus; try done; try (by apply number_apart); try lia.
    + apply wp_bind, wp_fail. destruct (steady_got _ _ _ [rr] _ _ Hgot) as (bl1 & Hst & _). exists bl1. split; [done|].
      destruct Hgot as (bl' & _ & _ & _ & _ & _ & _ & _ & [[Hj1 _]|(_ & _ & Hmem)]); [by left|]. right. left. eapply out_of_memory_le; [|exact Hmem]. lia.
  - apply plain_product; [done|]. intros m (Fa & _) (Fb & _) Hw.
    wp_call (bn_mul_normal_spec m (bn_d rr) (bn_d a) (bn_d b) la lb); [done|done|done|done|done|by apply number_apart|by apply number_apart| |done]. intros [] m' (ws & ? & ? & ? & ?). by exists ws.
Qed.
End Words.

(** * Frames opened and closed *)

Lemma steady_trans s bl fr rs rs' n n' s1 bl1 s2 bl2 :
  ctx_ok s bl fr -> Forall (fun x => x ∈ rs \/ x ∈ unused s bl \/ (length (nums (store s)) <= x)%nat) rs' ->
  steady s bl fr rs n s1 bl1 -> steady s1 bl1 fr rs' n' s2 bl2 -> steady s bl fr rs (n + n') s2 bl2.
Proof.
  intros ((_ & _ & Hu & Hps & _) & _) Hrs (_ & Hc1 & He1 & Hu1 & Hj1) (Hok2 & Hc2 & He2 & Hu2 & Hj2). split_and!; [done| |lia|lia|lia|].
  - eapply calm_trans; [|  |exact Hrs|exact Hc1|exact Hc2]; lia.
  - intros Hj. destruct (Hj1 Hj) as [Ht1 Hus1]. assert (Hj' : jammed s1 = true) by (unfold jammed in *; by rewrite He1, Ht1). destruct (Hj2 Hj') as [-> ->]. done.
Qed.

(** After the frame is closed everything but the numbers [rs] is as it was. *)
Definition restored (s : ctx_store) (bl : list bn) (fr : list Z) (rs : list bn) (s' : ctx_store) (bl' : list bn) : Prop :=
  ctx_ok s' bl' fr /\ calm rs s bl s' bl' /\ used (ctx s') = used (ctx s) /\ err_stack (ctx s') = err_stack (ctx s) /\ too_many (ctx s') = too_many (ctx s).

Definition refused (s : ctx_store) (fr : list Z) (w : Z) : Prop :=
  jammed s = true \/ out_of_memory (416 + 6 * zlen fr + 64 * w) \/ static_in s \/ max_words < 8 * w.

(** How a frame is open. *)
Definition opened (s : ctx_store) (fr : list Z) (s1 : ctx_store) (fr1 : list Z) : Prop :=
  same_store s s1 /\ used (ctx s1) = used (ctx s) /\ too_many (ctx s1) = too_many (ctx s) /\
  (jammed s = false /\ err_stack (ctx s1) = 0 /\ fr1 = used (ctx s) :: fr \/
   (jammed s = true \/ out_of_memory (136 + 6 * zlen fr)) /\ err_stack (ctx s1) = err_stack (ctx s) + 1 /\ fr1 = fr).
Lemma opened_jam s fr s1 fr1 : 0 <= err_stack (ctx s) -> opened s fr s1 fr1 -> jammed s1 = true -> jammed s = true \/ out_of_memory (136 + 6 * zlen fr).
Proof.
  intros He (_ & _ & Ht & [(Hj & E & _)|(Hj & _)]) Hj1; [|done]. unfold jammed in *. apply orb_false_iff in Hj as [_ Hj]. rewrite E, Ht, Hj in Hj1. done.
Qed.

Lemma close_frame s bl fr rs n s1 fr1 s2 bl2 :
  ctx_ok s bl fr -> opened s fr s1 fr1 -> steady s1 bl fr1 rs n s2 bl2 ->
  wp BN_CTX_end (fun _ s3 => restored s bl fr rs s3 bl2 /\ same_store s2 s3) (fun _ => False) s2.
Proof.
  intros Hok ([E1 E2] & Hu & Ht & Hcase) (Hok2 & Hcalm & He2 & Hu2 & Hj2). pose proof Hok as (_ & _ & _ & Herr & _).
  assert (Hcalm' : forall s3, same_store s2 s3 -> calm rs s bl s3 bl2).
  { intros s3 [F1 F2]. destruct Hcalm as (Hm & Hl & H). unfold calm, unused in *. rewrite E1, E2, Hu in *. rewrite F1, F2. done. }
  wp_call BN_CTX_end_spec; [exact Hok2| | |done].
  { destruct Hcase as [(_ & _ & ->)|(_ & E & _)]; [by left|right; lia]. }
  intros [] s3 (Hsame & Hend). split; [|done]. destruct Hcase as [(Hj & E & ->)|(Hj & E & ->)].
  - destruct Hend as [(Hpos & _)|(_ & m & fr' & [= <- <-] & Hu3 & Ht3 & He3 & Hok3)]; [lia|]. unfold jammed in Hj. apply orb_false_iff in Hj as [Hj1%negb_false_iff%Z.eqb_eq Hj2']. split_and!; [done|by apply Hcalm'|done|congruence|congruence].
  - destruct Hend as [(Hpos & He3 & Hu3 & Ht3 & Hok3)|(Hz & _)]; [|lia]. assert (Hj1 : jammed s1 = true) by (unfold jammed; by rewrite (proj2 (Z.eqb_neq _ _)) by lia).
    destruct (Hj2 Hj1) as [Ht2 Hus2]. split_and!; [done|by apply Hcalm'|congruence|lia|congruence].
Qed.

(** A call between BN_CTX_start and BN_CTX_end; [B] says why it fails, where the frame is open. *)
Lemma framed_why (m : M ctx_store unit) (Q : bn_store -> Prop) (B : ctx_store -> list Z -> Prop) s bl fr rs n :
  ctx_ok s bl fr -> nestable s fr ->
  (forall st st', nums st' = nums st -> arrays st' = arrays st -> Q st -> Q st') ->
  (forall s1 fr1, opened s fr s1 fr1 -> ctx_ok s1 bl fr1 ->
     wp m (fun _ s2 => exists bl2, steady s1 bl fr1 rs n s2 bl2 /\ Q (store s2)) (fun s2 => exists bl2, steady s1 bl fr1 rs n s2 bl2 /\ B s1 fr1) s1) ->
  wp (BN_CTX_start;; ret ← succeeds m; BN_CTX_end;; require ret)
    (fun _ s' => exists bl', restored s bl fr rs s' bl' /\ Q (store s'))
    (fun s' => exists bl', restored s bl fr rs s' bl' /\ exists s1 fr1, opened s fr s1 fr1 /\ B s1 fr1) s.
Proof.
  intros Hok H30 HQ Hm. pose proof Hok as (_ & _ & _ & Herr & _). apply wp_bind. wp_call BN_CTX_start_spec; [exact Hok|done| |done]. intros [] s1 (Hsame & Hu & Ht & Hcase).
  assert (exists fr1, opened s fr s1 fr1 /\ ctx_ok s1 bl fr1) as (fr1 & Hop & Hok1).
  { destruct Hcase as [(Hj & He & Hok1)|(Hj & He & Hok1)]; eexists; (split; [split_and!; [done|done|done|]|exact Hok1]); [by left|by right]. }
  apply wp_bind, wp_succeeds. wp_call (Hm s1 fr1 Hop Hok1).
  - intros [] s2 (bl2 & Hst & HQ2). apply wp_bind. wp_call close_frame; [exact Hok|exact Hop|exact Hst| |done]. intros [] s3 [Hr [F1 F2]]. apply wp_ret. exists bl2. split; [done|]. by eapply HQ.
  - intros s2 (bl2 & Hst & Hbl). apply wp_bind. wp_call close_frame; [exact Hok|exact Hop|exact Hst| |done]. intros [] s3 [Hr _]. apply wp_fail. exists bl2. split; [done|]. by exists s1, fr1.
Qed.

(** The reasons in an open frame are reasons where it was opened, with what the frame takes. *)
Lemma opened_refused s bl fr s1 fr1 w w' : ctx_ok s bl fr -> opened s fr s1 fr1 -> refused s1 fr1 w -> 0 <= w -> w < w' -> refused s fr w'.
Proof.
  intros (_ & _ & _ & Herr & _) Hop Hbl Hw Hlt. pose proof Hop as ([E1 _] & _ & _ & Hcase). assert (Hz : zlen fr1 <= zlen fr + 1) by (destruct Hcase as [(_ & _ & ->)|(_ & _ & ->)]; rewrite ?zlen_cons; lia). destruct Hbl as [Hj|[Hmem|[Hs|Hbig]]].
  - destruct (opened_jam _ _ _ _ Herr Hop Hj) as [?|Hmem]; [by left|]. right; left. eapply out_of_memory_le; [|exact Hmem]. lia.
  - right; left. eapply out_of_memory_le; [|exact Hmem]. lia.
  - right; right; left. destruct Hs as (x & k & Hx & Hf). rewrite E1 in Hx. by exists x, k.
  - right; right; right. lia.
Qed.
Lemma opened_blocked s bl fr s1 fr1 w : ctx_ok s bl fr -> opened s fr s1 fr1 -> blocked s1 w -> 0 <= w -> refused s fr w.
Proof.
  intros (_ & _ & _ & Herr & _) Hop Hbl Hw. pose proof Hop as ([E1 _] & _). pose proof (zlen_nonneg fr). destruct Hbl as [Hj|[Hmem|[Hs|Hbig]]].
  - destruct (opened_jam _ _ _ _ Herr Hop Hj) as [?|Hmem]; [by left|]. right; left. eapply out_of_memory_le; [|exact Hmem]. lia.
  - right; left. eapply out_of_memory_le; [|exact Hmem]. lia.
  - right; right; left. destruct Hs as (x & k & Hx & Hf). rewrite E1 in Hx. by exists x, k.
  - right; right; by right.
Qed.

Lemma framed (m : M ctx_store unit) (Q : bn_store -> Prop) s bl fr rs n w :
  ctx_ok s bl fr -> nestable s fr -> 0 <= w ->
  (forall st st', nums st' = nums st -> arrays st' = arrays st -> Q st -> Q st') ->
  (forall s1 fr1, opened s fr s1 fr1 -> ctx_ok s1 bl fr1 ->
     wp m (fun _ s2 => exists bl2, steady s1 bl fr1 rs n s2 bl2 /\ Q (store s2)) (fun s2 => exists bl2, steady s1 bl fr1 rs n s2 bl2 /\ blocked s1 w) s1) ->
  wp (BN_CTX_start;; ret ← succeeds m; BN_CTX_end;; require ret)
    (fun _ s' => exists bl', restored s bl fr rs s' bl' /\ Q (store s'))
    (fun s' => exists bl', restored s bl fr rs s' bl' /\ refused s fr w) s.
Proof.
  intros Hok H30 Hw HQ Hm. wp_call (framed_why m Q (fun s1 _ => blocked s1 w)); [exact Hok|done|exact HQ|exact Hm|done|].
  intros s' (bl' & Hr & s1 & fr1 & Hop & Hb). exists bl'. split; [done|]. by eapply opened_blocked.
Qed.

(** ** The body of bn_mul_impl *)

Lemma live_later s bl rs s' bl' y : used (ctx s) <= 16 * Z.of_nat (length bl) -> 0 <= used (ctx s) <= used (ctx s') -> calm rs s bl s' bl' -> live s bl y -> live s' bl' y.
Proof.
  intros Hb Hu ((more & -> & Hmore) & Hl & _) [Hy Hun]. split; [lia|]. intros Hin. unfold unused in *. rewrite pool_names_app, drop_app in Hin. pose proof (length_pool_names bl). apply elem_of_app in Hin as [Hin|Hin].
  - apply Hun. replace (Z.to_nat (used (ctx s'))) with (Z.to_nat (used (ctx s)) + (Z.to_nat (used (ctx s')) - Z.to_nat (used (ctx s))))%nat in Hin by lia.
    rewrite <- drop_drop in Hin. by eapply subseteq_drop.
  - apply subseteq_drop in Hin. pose proof (proj1 (Forall_forall _ _) Hmore y Hin). cbn in *. lia.
Qed.

Lemma set_neg_flags x b ng l s : shows s x ng l ->
  wp (bn_set_neg x b) (fun _ s' => shows s' x b l /\ others x s s' /\ forall n', nums s' !! x = Some n' -> exists n, nums s !! x = Some n /\ flags n = flags n') (fun _ => False) s.
Proof.
  intros Hs. destruct (shows_get _ _ _ _ Hs) as (n & Hn & _). pose proof (bn_set_neg_spec x ng b l s Hs) as H1.
  assert (H2 : wp (bn_set_neg x b) (fun _ s' => forall n', nums s' !! x = Some n' -> exists n, nums s !! x = Some n /\ flags n = flags n') (fun _ => False) s).
  { eapply wp_set_neg; [exact Hn|]. cbn [nums]. rewrite list_lookup_insert_eq by (by eapply lookup_lt_Some). intros n' [= <-]. by exists n. }
  eapply wp_mono; [exact (wp_conj _ _ _ _ _ _ H1 H2)| |by intros ? []]. intros [] s' [[? ?] ?]. done.
Qed.

(** Numbers that are not live can be changed. *)
Lemma not_live s bl x : ~ live s bl x -> x ∈ unused s bl \/ (length (nums (store s)) <= x)%nat.
Proof. intros H. destruct (decide (x ∈ unused s bl)); [by left|]. destruct (Nat.lt_ge_cases x (length (nums (store s)))); [by destruct H|by right]. Qed.

(** What a number taken from the pool is good for. *)
Lemma got_some s bl fr x s1 : ctx_ok s bl fr -> got s bl fr (Some x) s1 ->
  exists bl1, ctx_ok s1 bl1 fr /\ (forall rs, steady s bl fr rs 1 s1 bl1) /\ ~ live s bl x /\ live s1 bl1 x /\ roomy (store s1) x 0 /\ tame s s1 /\
    used (ctx s1) = used (ctx s) + 1 /\ jammed s1 = jammed s /\
    forall y, live s bl y -> live s1 bl1 y /\ y <> x /\ nums (store s1) !! y = nums (store s) !! y /\ arrays (store s1) !! y = arrays (store s) !! y.
Proof.
  intros ((_ & _ & Hub & Hps & _) & _) (bl1 & Hok1 & Hcalm & He1 & _ & Hx & Hu1 & Ht1 & Hj0 & Hz & Htame). pose proof (got_fresh _ _ _ _ _ _ Hcalm Hx) as Hfresh.
  assert (Hnl : ~ live s bl x) by (intros [Hy1 Hy2]; destruct Hfresh; [done|lia]). exists bl1. split_and!; try done.
  - intros rs. split_and!; try done; [eapply calm_mono; [|exact Hcalm]; set_solver|lia|lia|congruence].
  - split; [destruct Hz as (? & ? & Hz & _); destruct Hz as (? & ? & Hbn & _); by apply bn_is_lt in Hbn as [? _]|].
    unfold unused. rewrite Hu1. destruct Hok1 as (_ & _ & _ & _ & _ & Hnd & _).
    intros [i Hi]%list_elem_of_lookup. rewrite lookup_drop in Hi. pose proof (NoDup_lookup _ _ _ _ Hnd Hx Hi). lia.
  - by eapply holds_roomy.
  - unfold jammed. by rewrite He1, Ht1.
  - intros y Hy. split; [|split; [by intros ->|]].
    + eapply live_later; [| |exact Hcalm|done]; lia.
    + destruct Hcalm as (_ & _ & Hc). destruct Hy. apply Hc; [done|done|set_solver].
Qed.

Section Impl.
Variables (s : ctx_store) (bl : list bn) (fr : list Z) (r a b : bn) (na nb : bool) (la lb : list Z).
Hypothesis Hok : ctx_ok s bl fr.
Hypothesis Hsp : spacious s 2.
Hypothesis Hlr : live s bl r.
Hypothesis Hla : live s bl a.
Hypothesis Hlb : live s bl b.
Hypothesis Hsa : shows (store s) a na la.
Hypothesis Hsb : shows (store s) b nb lb.
Hypothesis Hrr : roomy (store s) r 0.
Hypothesis Ha0 : 0 < zlen la.
Hypothesis Hb0 : 0 < zlen lb.
Hypothesis Halias : r = a \/ r = b -> jammed s = false /\ ~ out_of_memory 408.
Local Abbreviation w := (zlen la + zlen lb).
Local Abbreviation ng := (xorb na nb).
Definition product_shown (st : bn_store) : Prop := exists l, shows st r ng l /\ zlen l = w /\ val l = val la * val lb.

Definition mul_body : M ctx_store unit :=
  rr ← (if Nat.eqb r a || Nat.eqb r b then BN_CTX_get else mret (Some r));
  rr ← deref rr;
  x ← bn_get_ctx a; y ← bn_get_ctx b;
  on_store (bn_set_neg rr (xorb (neg x) (neg y)));;
  mul_words rr a b (zlen la) (zlen lb);;
  if negb (Nat.eqb r rr) then on_store (BN_copy r rr) else mret tt.

(** The product in [rr], from a state [s1] in which it is live. *)
Lemma mul_into s1 bl1 rr (K : unit -> M ctx_store unit) (Q : unit -> ctx_store -> Prop) E :
  ctx_ok s1 bl1 fr -> spacious s1 1 -> live s1 bl1 rr -> live s1 bl1 a -> live s1 bl1 b -> shows (store s1) a na la -> shows (store s1) b nb lb -> roomy (store s1) rr 0 -> a <> rr -> b <> rr ->
  (forall s2, (exists bl2, steady s1 bl1 fr [rr] 1 s2 bl2 /\ exists l, shows (store s2) rr ng l /\ zlen l = w /\ val l = val la * val lb) -> wp (K tt) Q E s2) ->
  (forall s2, (exists bl2, steady s1 bl1 fr [rr] 1 s2 bl2 /\ blocked s1 w) -> E s2) ->
  wp (x ← bn_get_ctx a; y ← bn_get_ctx b; on_store (bn_set_neg rr (xorb (neg x) (neg y)));; u ← mul_words rr a b (zlen la) (zlen lb); K u) Q E s1.
Proof.
  intros Hok1 Hsp1 Hl1 Hla1 Hlb1 Hsa1 Hsb1 Hrr1 Har Hbr HK HE. destruct (shows_get _ _ _ _ Hsa1) as (xa & Hxa & Hna & _). destruct (shows_get _ _ _ _ Hsb1) as (xb & Hxb & Hnb & _).
  assert (Hsr : exists n0 l0, shows (store s1) rr n0 l0).
  { destruct Hrr1 as (n & d & Hbn & _). pose proof Hbn as (_ & _ & (H1 & H2 & _)). exists (neg n), (ztake (width n) d), n, d. rewrite zlen_ztake by lia. by split_and!. }
  destruct Hsr as (n0 & l0 & Hsr). unfold bn_get_ctx. apply wp_bind, wp_on_store. eapply wp_bn_get; [exact Hxa|]. apply wp_bind, wp_on_store. cbn [ctx items store]. eapply wp_bn_get; [exact Hxb|]. rewrite Hna, Hnb.
  apply wp_bind, wp_on_store. cbn [ctx items store]. wp_call set_neg_flags; [exact Hsr| |done]. intros [] st (Hst & Ho & Hfl). set (s1' := mkCtxStore (ctx s1) (items s1) st).
  assert (Hfr : Forall (fun x => x ∈ [rr] \/ x ∈ unused s1 bl1 \/ (length (nums (store s1)) <= x)%nat) [rr]) by (constructor; [left; by left|constructor]).
  assert (Hst0 : steady s1 bl1 fr [rr] 0 s1' bl1).
  { eapply (steady_store _ _ _ _ _ s1 bl1 st [rr]); [by apply steady_refl|eapply others_in_one; [done|by left]| |done]. constructor; [by eapply roomy_shows|constructor]. }
  assert (Hlive : forall y, live s1 bl1 y -> live s1' bl1 y) by (intros y [H1 H2]; split; [destruct Ho as (Ho & _); cbn; by rewrite Ho|done]).
  assert (Hok1' : ctx_ok s1' bl1 fr) by apply Hst0.
  apply wp_bind. wp_call (mul_words_spec s1' bl1 fr rr a b na nb ng la lb l0); [exact Hok1'|exact Hsp1|by apply Hlive|by apply Hlive|by apply Hlive|by eapply shows_others|by eapply shows_others|exact Hst|done|done|done|done| |].
  - intros [] s2 (bl2 & Hst2 & Hres). apply HK. exists bl2. split; [|done]. exact (steady_trans _ _ _ _ _ _ _ _ _ _ _ Hok1 Hfr Hst0 Hst2).
  - intros s2 (bl2 & Hst2 & Hbl). apply HE. exists bl2. split; [exact (steady_trans _ _ _ _ _ _ _ _ _ _ _ Hok1 Hfr Hst0 Hst2)|].
    destruct Hbl as [?|[?|[Hs|?]]]; [by left|right; by left| |right; right; by right]. right; right; left. by eapply (tame_flags s1).
Qed.

Lemma mul_body_spec :
  wp mul_body (fun _ s2 => exists bl2, steady s bl fr [r] 2 s2 bl2 /\ product_shown (store s2)) (fun s2 => exists bl2, steady s bl fr [r] 2 s2 bl2 /\ blocked s w) s.
Proof.
  pose proof Hok as ((_ & _ & Hub & Hps & _) & _). pose proof (zlen_nonneg la). pose proof (zlen_nonneg lb).
  assert (Hfr : Forall (fun x => x ∈ [r] \/ x ∈ unused s bl \/ (length (nums (store s)) <= x)%nat) [r]) by (constructor; [left; by left|constructor]).
  assert (Hwide : forall k bl2 s2, 0 <= k <= 2 -> steady s bl fr [r] k s2 bl2 -> steady s bl fr [r] 2 s2 bl2) by (intros k bl2 s2 Hk (? & ? & ? & ? & ?); split_and!; try done; lia).
  unfold mul_body. apply wp_bind. destruct (Nat.eqb r a || Nat.eqb r b) eqn:Eal.
  - destruct Halias as [Hj Hmem]; [apply orb_true_iff in Eal as [->%Nat.eqb_eq| ->%Nat.eqb_eq]; [by left|by right]|].
    wp_call BN_CTX_get_spec; [exact Hok|unfold spacious in *; lia| |done]. intros [x|] s1 Hgot.
    2: { exfalso. destruct Hgot as (bl' & _ & _ & _ & _ & _ & _ & _ & [[? _]|(_ & _ & ?)]); [congruence|done]. }
    destruct (got_some _ _ _ _ _ Hok Hgot) as (bl1 & Hok1 & Hst1 & Hnl & Hlx & Hrx & Htame & Hu1 & Hj1 & Hkeep). specialize (Hst1 [r]).
    assert (Hsh : forall y ng l, live s bl y -> shows (store s) y ng l -> shows (store s1) y ng l) by (intros y ng' l Hy; destruct (Hkeep y Hy) as (_ & _ & E1 & E2); by apply same_number).
    assert (Hx' : Forall (fun x => x ∈ [r] \/ x ∈ unused s bl \/ (length (nums (store s)) <= x)%nat) [x]) by (constructor; [right; by apply not_live|constructor]).
    assert (Hback : blocked s1 w -> blocked s w).
    { intros [Hj'|[?|[?|?]]]; [|by right; left|right; right; left; by apply Htame|by right; right; right]. left. congruence. }
    apply wp_bind, wp_deref with x; [done|]. apply (mul_into s1 bl1 x (fun _ => if negb (Nat.eqb r x) then on_store (BN_copy r x) else mret tt));
      [done|unfold spacious in *; lia|done|by apply Hkeep|by apply Hkeep|by apply Hsh|by apply Hsh|done|by apply Hkeep|by apply Hkeep| |].
    + intros s2 (bl2 & Hst2 & l & Hl & Hzl & Hv). destruct (Hkeep r Hlr) as ([Hlr1 Hlr2] & Hrx' & En1 & Ea1). rewrite (proj2 (Nat.eqb_neq _ _)) by done. cbn [negb].
      pose proof (steady_trans _ _ _ _ _ _ _ _ _ _ _ Hok Hx' Hst1 Hst2) as Hst. change (1 + 1) with 2 in Hst.
      pose proof Hst2 as (_ & (_ & _ & Hc2) & _). destruct (Hc2 r Hlr1 Hlr2 ltac:(set_solver)) as [En Ea].
      apply wp_on_store. wp_call BN_copy_shows; [exact Hl|apply (roomy_in (store s)); [by rewrite En, En1|by rewrite Ea, Ea1|exact Hrr]| |].
      * intros [] st [Ho Hs']. exists bl2. split; [|by exists l]. eapply (steady_store _ _ _ _ _ s2 bl2 st [r]); [exact Hst|eapply others_in_one; [done|by left]| |exact Hfr]. constructor; [by eapply roomy_shows|constructor].
      * intros st (E1 & E2 & Hc). exists bl2. split.
        -- eapply (steady_store _ _ _ _ _ s2 bl2 st []); [exact Hst| |constructor|constructor]. split_and!; [by rewrite E1|by rewrite E2|]. intros y _. by rewrite E1, E2.
        -- eapply (grow_blocked s s); [apply (cannot_grow_same (store s) (store s2)); [by rewrite En, En1|exact Hc]|by apply tame_same|lia|lia].
    + intros s2 (bl2 & Hst2 & Hbl). exists bl2. split; [|by apply Hback]. exact (steady_trans _ _ _ _ _ _ _ _ _ _ _ Hok Hx' Hst1 Hst2).
  - apply wp_ret, wp_bind, wp_deref with r; [done|]. apply orb_false_iff in Eal as [Hra%Nat.eqb_neq Hrb%Nat.eqb_neq].
    apply (mul_into s bl r (fun _ => if negb (Nat.eqb r r) then on_store (BN_copy r r) else mret tt));
      [done|unfold spacious in *; lia|done|done|done|done|done|done|by apply not_eq_sym|by apply not_eq_sym| |].
    + intros s2 (bl2 & Hst2 & Hres). rewrite Nat.eqb_refl. apply wp_ret. exists bl2. split; [eapply Hwide; [|exact Hst2]; lia|done].
    + intros s2 (bl2 & Hst2 & Hbl). exists bl2. split; [eapply Hwide; [|exact Hst2]; lia|done].
Qed.
End Impl.

(** ** bn_mul_impl and its callers *)

Lemma opened_live s bl fr s1 fr1 x : opened s fr s1 fr1 -> live s bl x -> live s1 bl x.
Proof. intros ([E1 _] & Hu & _) [H1 H2]. unfold live, unused in *. by rewrite E1, Hu. Qed.
Lemma opened_shows s fr s1 fr1 x ng l : opened s fr s1 fr1 -> shows (store s) x ng l -> shows (store s1) x ng l.
Proof. intros ([E1 E2] & _). by apply same_shows. Qed.
Lemma opened_roomy s fr s1 fr1 x k : opened s fr s1 fr1 -> roomy (store s) x k -> roomy (store s1) x k.
Proof. intros ([E1 E2] & _). apply roomy_in; by rewrite ?E1, ?E2. Qed.

(** The state after a step outside any frame that sets [r]. *)
Lemma restored_store s bl fr r st : ctx_ok s bl fr -> others r (store s) st -> roomy st r 0 -> restored s bl fr [r] (mkCtxStore (ctx s) (items s) st) bl.
Proof.
  intros Hok Ho Hr. split_and!; try done.
  - eapply ctx_ok_store; [done|eapply others_in_one; [done|by left]|by constructor].
  - eapply calm_stores; [apply calm_refl|eapply others_in_one; [done|by left]|]. constructor; [left; by left|constructor].
Qed.
Lemma restored_then s bl fr r s1 bl1 st : restored s bl fr [r] s1 bl1 -> others r (store s1) st -> roomy st r 0 -> restored s bl fr [r] (mkCtxStore (ctx s1) (items s1) st) bl1.
Proof.
  intros (Hok & Hc & ? & ? & ?) Ho Hr. split_and!; try done.
  - eapply ctx_ok_store; [done|eapply others_in_one; [done|by left]|by constructor].
  - eapply calm_stores; [exact Hc|eapply others_in_one; [done|by left]|]. constructor; [left; by left|constructor].
Qed.

Section Mul.
Variables (s : ctx_store) (bl : list bn) (fr : list Z) (r a b : bn) (na nb : bool) (la lb : list Z).
Hypothesis Hok : ctx_ok s bl fr.
Hypothesis Hsp : spacious s 2.
Hypothesis H30 : nestable s fr.
Hypothesis Hlr : live s bl r.
Hypothesis Hla : live s bl a.
Hypothesis Hlb : live s bl b.
Hypothesis Hsa : shows (store s) a na la.
Hypothesis Hsb : shows (store s) b nb lb.
Hypothesis Hrr : roomy (store s) r 0.
Hypothesis Halias : r = a \/ r = b -> jammed s = false /\ ~ out_of_memory (408 + 6 * zlen fr).
Local Abbreviation none := ((zlen la =? 0) || (zlen lb =? 0)).

(** As many words as those of both factors, or none. *)
Definition impl_result (st : bn_store) : Prop :=
  exists l, shows st r (negb none && xorb na nb) l /\ zlen l = (if none then 0 else zlen la + zlen lb) /\ val l = val la * val lb.

Lemma bn_mul_impl_spec :
  wp (bn_mul_impl r a b) (fun _ s' => exists bl', restored s bl fr [r] s' bl' /\ impl_result (store s'))
    (fun s' => exists bl', restored s bl fr [r] s' bl' /\ refused s fr (zlen la + zlen lb)) s.
Proof.
  pose proof (zlen_nonneg la). pose proof (zlen_nonneg lb). pose proof (zlen_nonneg fr). pose proof Hok as (_ & _ & _ & Herr & _).
  destruct (shows_get _ _ _ _ Hsa) as (xa & Hxa & Hna & Hwa). destruct (shows_get _ _ _ _ Hsb) as (xb & Hxb & Hnb & Hwb).
  unfold bn_mul_impl, bn_get_ctx at 1 2. apply wp_bind, wp_on_store. eapply wp_bn_get; [exact Hxa|]. apply wp_bind, wp_on_store. cbn [ctx items store]. eapply wp_bn_get; [exact Hxb|].
  assert (mkCtxStore (ctx s) (items s) (store s) = s) as -> by (by destruct s). cbv zeta. rewrite Hwa, Hwb. unfold impl_result. destruct none eqn:En.
  - destruct Hrr as (n & d & Hbn & _). apply wp_on_store. assert (Hs : shows (store s) r (neg n) (ztake (width n) d)).
    { exists n, d. pose proof Hbn as (_ & _ & (H1' & H2' & _)). rewrite zlen_ztake by lia. by split_and!. }
    pose proof (shows_digits _ _ _ _ Hs) as [Hd _]. wp_call zero_flags; [exact Hbn| |done]. intros [] st [[Ho (ng & l & Hl & _ & Hv)] Hn]. exists bl. split; [apply restored_store; [done|done|by eapply roomy_shows]|].
    destruct (shows_get _ _ _ _ Hl) as (n' & Hn' & Hng & Hw). rewrite Hn in Hn'. injection Hn' as <-. cbn [neg width] in Hng, Hw. exists l. rewrite <- Hng in Hl. split_and!; [done|done|].
    symmetry in Hw. apply zlen_0 in Hw as ->. apply orb_true_iff in En as [E%Z.eqb_eq|E%Z.eqb_eq]; apply zlen_0 in E as ->; cbn [val]; lia.
  - apply orb_false_iff in En as [E1%Z.eqb_neq E2%Z.eqb_neq].
    wp_call (framed (mul_body r a b la lb) (product_shown r na nb la lb) s bl fr [r] 2 (zlen la + zlen lb)); [done|done|lia| | | |done].
    + intros st st' F1 F2 (l & Hl & Hrest). exists l. split; [by eapply same_shows|done].
    + intros s1 fr1 Hop Hok1. apply mul_body_spec; [done|unfold spacious; by destruct Hop as (_ & -> & _)|by eapply opened_live|by eapply opened_live|by eapply opened_live|by eapply opened_shows|by eapply opened_shows|by eapply opened_roomy|lia|lia|].
      intros Hal. destruct (Halias Hal) as [Hj Hmem]. split; [|intros Hm; apply Hmem; eapply out_of_memory_le; [|exact Hm]; lia].
      destruct (jammed s1) eqn:Ej; [|done]. destruct (opened_jam _ _ _ _ Herr Hop Ej) as [?|Hm]; [congruence|]. exfalso. apply Hmem. eapply out_of_memory_le; [|exact Hm]. lia.
    + intros [] s' (bl' & Hr & l & Hl & Hz & Hv). exists bl'. split; [done|]. by exists l.
Qed.
End Mul.

(** [BN_mul] on signed numbers. *)
Lemma BN_mul_sized s bl fr r a b u v w :
  ctx_ok s bl fr -> spacious s 2 -> nestable s fr -> live s bl r -> live s bl a -> live s bl b ->
  (exists na la nb lb, shows (store s) a na la /\ shows (store s) b nb lb /\ canonical na la /\ canonical nb lb /\ u = signed na (val la) /\ v = signed nb (val lb) /\ w = zlen la + zlen lb) ->
  roomy (store s) r 0 -> (r = a \/ r = b -> jammed s = false /\ ~ out_of_memory (408 + 6 * zlen fr)) ->
  wp (BN_mul r a b) (fun _ s' => exists bl', restored s bl fr [r] s' bl' /\ holds (store s') r (u * v) /\ words_of (store s') r <= w)
    (fun s' => exists bl', restored s bl fr [r] s' bl' /\ refused s fr w) s.
Proof.
  intros Hok Hsp H30 Hlr Hla Hlb (na & la & nb & lb & Hsa & Hsb & Hca & Hcb & -> & -> & ->) Hrr Hal. unfold BN_mul. apply wp_bind.
  wp_call bn_mul_impl_spec; [exact Hok|done|done|done|exact Hla|exact Hlb|exact Hsa|exact Hsb|done|done| |done]. intros [] s1 (bl1 & Hres & l & Hl & Hz & Hv).
  apply wp_on_store. wp_call bn_set_minimal_width_spec; [exact Hl| |done]. intros [] st [Hs' Ho]. exists bl1. split; [eapply restored_then; [exact Hres|done|by eapply roomy_shows]|].
  split; [|cbn [store]; rewrite (shows_words _ _ _ _ Hs'); pose proof (zlen_shrink l); pose proof (zlen_nonneg la); pose proof (zlen_nonneg lb); destruct (_ || _); lia].
  destruct (shrink_spec l) as (_ & Hvs & _). eexists _, _. split; [exact Hs'|]. rewrite Hvs, Hv.
  pose proof (val_range la ltac:(by eapply shows_digits)). pose proof (val_range lb ltac:(by eapply shows_digits)). unfold canonical. rewrite Hvs, Hv.
  assert (Hzero : (zlen la =? 0) || (zlen lb =? 0) = true -> val la * val lb = 0).
  { intros [E%Z.eqb_eq|E%Z.eqb_eq]%orb_true_iff; apply zlen_0 in E as ->; cbn [val]; lia. }
  destruct (_ || _) eqn:En; cbn [negb andb].
  - specialize (Hzero eq_refl). rewrite Hzero. split; [done|]. destruct na, nb; cbn [signed]; lia.
  - destruct (Z.eqb_spec (val la * val lb) 0) as [E|E]; cbn [negb]; rewrite ?andb_false_r, ?andb_true_r.
    + split; [done|]. rewrite E. destruct na, nb; cbn [signed]; lia.
    + split; [intros _; nia|]. destruct na, nb; cbn [signed xorb]; lia.
Qed.
Lemma BN_mul_spec s bl fr r a b u v w :
  ctx_ok s bl fr -> spacious s 2 -> nestable s fr -> live s bl r -> live s bl a -> live s bl b ->
  (exists na la nb lb, shows (store s) a na la /\ shows (store s) b nb lb /\ canonical na la /\ canonical nb lb /\ u = signed na (val la) /\ v = signed nb (val lb) /\ w = zlen la + zlen lb) ->
  roomy (store s) r 0 -> (r = a \/ r = b -> jammed s = false /\ ~ out_of_memory (408 + 6 * zlen fr)) ->
  wp (BN_mul r a b) (fun _ s' => exists bl', restored s bl fr [r] s' bl' /\ holds (store s') r (u * v))
    (fun s' => exists bl', restored s bl fr [r] s' bl' /\ refused s fr w) s.
Proof. intros. wp_call BN_mul_sized; [done..| |done]. intros [] s' (bl' & ? & ? & _). by exists bl'. Qed.
End Products.
