(* ===== verification/BnSqrCtx.v ===== *)
(** Facts about [BnCtx]: BN_sqr and its relatives compute squares, with scratch space from the
    context or the stack. *)
From S2P Require Import Prelude Mem Der MemFacts Cells Ct BnWords BnWordsFacts BnMulFacts BnSqr CtFacts Bn BnFacts BnCmp BnAddFacts BnArith BnTests BnMul BnPartFacts BnKaratsuba BnMulRecursive BnMulThms BnCtx BnCtxFacts BnMulCtx.

Section Squares.
Context `{alloc : Allocator}.

(** * Arrays on the stack *)

Lemma stack_array h n : 0 <= n -> zlen (to_cells (garbage h <$> zseq 0 (8 * n))) = n /\ digits (to_cells (garbage h <$> zseq 0 (8 * n))).
Proof.
  intros Hn. split; [|apply digits_to_cells, bytes_garbage]. rewrite zlen_to_cells, zlen_fmap, zlen_zseq by lia. rewrite Z.mul_comm, Z.div_mul; lia.
Qed.

(** A computation with such an array leaves no trace of it. *)
Lemma with_array_run {A} (k : wptr -> M words A) n s (Q : A -> words -> Prop) :
  0 <= n ->
  (forall g, zlen g = n -> digits g -> wp (k (length (arrays s), 0)) Q (fun _ => False) (arrays s ++ [g])) ->
  wp (with_array n (fun t => on_words (k t))) (fun x s' => exists m', Q x m' /\ s' = mkStore (nums s) (take (length (arrays s)) m') (bn_heap s)) (fun _ => False) s.
Proof.
  intros Hn Hk. destruct (stack_array (bn_heap s) n Hn) as [Hz Hd]. specialize (Hk _ Hz Hd). unfold with_array. apply wp_bind, wp_get, wp_bind, wp_modify, wp_bind, wp_on_words. cbn [arrays nums bn_heap].
  wp_call Hk; [|done]. intros x m' HQ. cbn [arrays nums bn_heap]. apply wp_bind, wp_modify, wp_ret. cbn [arrays nums bn_heap]. by exists m'.
Qed.

Lemma at_snoc m g q l : at_ m q l -> at_ (m ++ [g]) q l.
Proof. intros (arr & Hm & H). exists arr. split; [by apply lookup_app_l_Some|done]. Qed.
Lemma writable_snoc m g q n : writable m q n -> writable (m ++ [g]) q n.
Proof. intros (arr & Hm & H). exists arr. split; [by apply lookup_app_l_Some|done]. Qed.
Lemma writable_last m g n : zlen g = n -> 0 <= n -> writable (m ++ [g]) (length m, 0) n.
Proof. intros <- Hn. exists g. split; [by apply list_lookup_middle|]. unfold room. cbn. lia. Qed.

(** Without the last array. *)
Lemma keeps_take m g m' Rs : keeps (m ++ [g]) m' Rs -> keeps m (take (length m) m') Rs.
Proof.
  intros K. pose proof (keeps_size _ _ _ K) as Hlen. rewrite length_app in Hlen. cbn in Hlen. destruct K as (H1 & H2 & H3). split_and!.
  - intros q n. split.
    + intros (arr & Hm & Hr). apply lookup_take_Some in Hm as [Hm Hlt]. destruct (proj1 (H1 q n)) as (b & Hb & Hrb); [by exists arr|]. exists b. split; [|done]. by rewrite lookup_app_l in Hb.
    + intros (arr & Hm & Hr). destruct (proj2 (H1 q n)) as (b & Hb & Hrb); [apply writable_snoc; by exists arr|]. exists b. split; [|done]. apply lookup_take_Some. split; [done|]. by eapply lookup_lt_Some.
  - intros q l Hat HR. pose proof Hat as (b & Hb & _). destruct (H2 q l (at_snoc _ _ _ _ Hat) HR) as (arr & Hm & H). exists arr. split; [|done]. apply lookup_take_Some. split; [done|]. by eapply lookup_lt_Some.
  - intros y arr Hy Hd. destruct (H3 y arr) as (arr' & Hy' & Hd'); [by apply lookup_app_l_Some|done|]. exists arr'. split; [|done]. apply lookup_take_Some. split; [done|]. by eapply lookup_lt_Some.
Qed.

(** * sqr_words *)

Lemma square_normal_array s rr a la n d :
  bn_is s rr n d -> a <> rr -> factor (arrays s) (bn_d a) (zlen la) la -> 0 < zlen la < 16 -> 2 * zlen la <= dmax n ->
  wp (with_array (BN_SQR_RECURSIVE_SIZE_NORMAL * 2) (fun t => on_words (bn_sqr_normal (bn_d rr) (bn_d a) (zlen la) t)))
    (fun _ s' => others rr s s' /\ stores s' rr (neg n) (2 * zlen la) (val la * val la)) (fun _ => False) s.
Proof.
  intros Hbn Har Hfa Hla Hk. change (BN_SQR_RECURSIVE_SIZE_NORMAL * 2) with 32. set (t := (length (arrays s), 0)).
  pose proof (bn_is_lt _ _ _ _ Hbn) as [_ Hlt]. assert (Ha : (a < length (arrays s))%nat) by (destruct Hfa as ((b & Hb & _) & _); by eapply lookup_lt_Some).
  wp_call (with_array_run (bn_sqr_normal (bn_d rr) (bn_d a) (zlen la)) 32 s (fun _ m' => exists g, computes (arrays s ++ [g]) (bn_d rr) t (2 * zlen la) 32 (val la * val la) m')); [lia| | |done].
  - intros g Hg Hdg. destruct Hfa as (Fa & _ & Fd).
    destruct (sqr_small (arrays s ++ [g]) (bn_d rr) (bn_d a) t la (zlen la) (2 * zlen la) 32) as (_ & _ & Hs);
      [split_and!; [by apply at_snoc|done|done]|lia|done|lia| |by apply writable_last|by left|left; cbn; lia|left; cbn; lia|].
    { apply writable_snoc, roomy_writable; [by exists n, d|lia]. }
    wp_call Hs; [|done]. intros [] m' H. by exists g.
  - intros [] s' (m' & (g & ws & Hws & Hz & Hd & Hv & K) & ->). pose proof (keeps_take _ _ _ _ K) as Kt. split.
    + assert (Ho : others_in [rr] s (mkStore (nums s) (take (length (arrays s)) m') (bn_heap s))); [|destruct Ho as (O1 & O2 & O3); split_and!; [done|done|]; intros y Hy; apply O3; set_solver].
      split_and!; [done|by eapply keeps_size|]. intros y Hy. split; [done|]. cbn [arrays]. destruct (Nat.lt_ge_cases y (length (arrays s))) as [Hl|Hl].
      * eapply keeps_other; [exact Kt|]. constructor; [cbn; set_solver|]. constructor; [cbn; lia|constructor].
      * rewrite !lookup_ge_None_2; [done|done|]. pose proof (keeps_size _ _ _ Kt). lia.
    + destruct (keeps_is _ _ _ (bn_heap s) _ _ _ Kt Hbn) as (d' & Hbn'). exists n, d', ws. split_and!; try done; [lia|].
      destruct Hws as (arr & Harr & _ & _ & Htk). destruct Hbn' as (_ & Hd' & _). cbn in Harr, Hd', Htk. apply lookup_take_Some in Hd' as [Hd' _]. rewrite Hd' in Harr. injection Harr as <-. by rewrite zdrop_0, Hz in Htk.
Qed.

Lemma is_pow2_spec n : 0 < n < BASE -> is_pow2 n = true -> exists k, n = 2 ^ Z.of_nat k.
Proof.
  intros Hn H. unfold is_pow2 in H. apply andb_prop in H as [_ H%Z.eqb_eq]. pose proof (pow2_word n ltac:(unfold word; lia) ltac:(lia)) as Hp.
  rewrite u64_id, H in Hp by (unfold word; lia). symmetry in Hp. apply Z.eqb_eq in Hp. exists (Z.to_nat (Z.log2 n)). rewrite Z2Nat.id by apply Z.log2_nonneg. done.
Qed.

Lemma comba_computes (P : M words unit) m r t v k : writable m r k ->
  wp P (fun _ m' => exists ws, m' = wput m r ws /\ zlen ws = k /\ digits ws /\ val ws = v) (fun _ => False) m -> wp P (fun _ m' => computes m r t k 0 v m') (fun _ => False) m.
Proof. intros Hw HP. wp_call HP; [|done]. intros [] m' (ws & -> & Hz & Hd & Hv). by apply computes_put. Qed.

Lemma number_apart_0 (x y : bn) n k : x <> y -> apart (bn_d x) n (bn_d y) k.
Proof. intros H. by left. Qed.

Lemma sqr_words_spec s rr a tmp na la n d :
  shows s a na la -> bn_is s rr n d -> 2 * zlen la <= dmax n -> roomy s tmp 0 -> a <> rr -> a <> tmp -> rr <> tmp -> 0 < zlen la ->
  wp (sqr_words rr a tmp (zlen la))
    (fun _ s' => others_in [rr; tmp] s s' /\ stores s' rr (neg n) (2 * zlen la) (val la * val la) /\ roomy s' tmp 0)
    (fun s' => nums s' = nums s /\ arrays s' = arrays s /\ exists k, k <= 4 * zlen la /\ cannot_grow s tmp k) s.
Proof.
  intros Hsa Hbn Hk Htmp Har Hat Hrt Hla. pose proof (shows_factor _ _ _ _ Hsa) as Hfa. destruct (shows_digits _ _ _ _ Hsa) as [Hda Hmax]. unfold max_words in Hmax. pose proof Hfa as (Fa & _).
  assert (Hrr : writable (arrays s) (bn_d rr) (2 * zlen la)) by (apply roomy_writable; [by exists n, d|lia]). unfold sqr_words. cbv zeta.
  assert (Hrun : forall (P : M words unit), wp P (fun _ m' => exists ws, m' = wput (arrays s) (bn_d rr) ws /\ zlen ws = 2 * zlen la /\ digits ws /\ val ws = val la * val la) (fun _ => False) (arrays s) ->
    wp (on_words P) (fun _ s' => others_in [rr; tmp] s s' /\ stores s' rr (neg n) (2 * zlen la) (val la * val la) /\ roomy s' tmp 0)
      (fun s' => nums s' = nums s /\ arrays s' = arrays s /\ exists k, k <= 4 * zlen la /\ cannot_grow s tmp k) s).
  { intros P HP. wp_call (words_run P rr tmp s (2 * zlen la) 0 (val la * val la) n d); [exact Hbn|lia|exact Htmp|by apply comba_computes|done|done]. }
  destruct (Z.eqb_spec (zlen la) 4) as [E4|E4].
  { apply Hrun. rewrite E4 in *. apply (bn_sqr_comba4_spec (arrays s) (bn_d rr) (bn_d a) la); try done. by apply number_apart_0. }
  destruct (Z.eqb_spec (zlen la) 8) as [E8|E8].
  { apply Hrun. rewrite E8 in *. apply (bn_sqr_comba8_spec (arrays s) (bn_d rr) (bn_d a) la); try done. by apply number_apart_0. }
  change BN_SQR_RECURSIVE_SIZE_NORMAL with 16 at 1. destruct (Z.ltb_spec (zlen la) 16) as [Hlt|Hge].
  { wp_call square_normal_array; [exact Hbn|done|exact Hfa|lia|done| |done]. intros [] s' [Ho Hst]. split_and!; [eapply others_in_one; [done|by left]|done|]. destruct Ho as (_ & _ & Ho). destruct (Ho tmp); [done|]. by eapply roomy_in. }
  assert (Hgrown : forall k (P : M words unit), 2 * zlen la <= k <= 4 * zlen la ->
    (forall m, factor m (bn_d a) (zlen la) la -> writable m (bn_d rr) (2 * zlen la) -> writable m (bn_d tmp) k -> wp P (fun _ m' => computes m (bn_d rr) (bn_d tmp) (2 * zlen la) k (val la * val la) m') (fun _ => False) m) ->
    wp (bn_wexpand tmp k;; on_words P) (fun _ s' => others_in [rr; tmp] s s' /\ stores s' rr (neg n) (2 * zlen la) (val la * val la) /\ roomy s' tmp 0)
      (fun s' => nums s' = nums s /\ arrays s' = arrays s /\ exists k, k <= 4 * zlen la /\ cannot_grow s tmp k) s).
  { intros k P Hk' HP. apply wp_bind. wp_call bn_wexpand_spec; [exact Htmp|lia| |].
    2: { intros s' (E1 & E2 & Hc). split_and!; [done|done|]. exists k. split; [lia|done]. }
    intros [] s1 (Ho1 & Hsh1 & Hr1). assert (Hbn1 : bn_is s1 rr n d) by (destruct Ho1 as (_ & _ & Ho1); destruct (Ho1 rr Hrt) as [En Ea]; destruct Hbn as (H1 & H2 & H3); split_and!; congruence).
    wp_call (words_run P rr tmp s1 (2 * zlen la) k (val la * val la) n d); [exact Hbn1|lia|exact Hr1|apply HP; [by eapply shows_factor, Hsh1|apply roomy_writable; [by exists n, d|lia]|apply roomy_writable; [done|lia]]| |done].
    intros [] s2 (Ho2 & Hst & Ht). split_and!; [|done|done]. eapply others_in_trans; [eapply others_in_one; [exact Ho1|right; by left]|done]. }
  destruct (is_pow2 (zlen la)) eqn:Ep.
  - destruct (is_pow2_spec (zlen la) ltac:(lia) Ep) as (k & Ek). replace (zlen la * 4) with (4 * zlen la) by lia. apply Hgrown; [lia|]. intros m Ma Mr Mt.
    apply (bn_sqr_recursive_spec _ k); [done|rewrite Ek; apply levels_enough|lia|done|done|done|by apply number_apart_0|by apply number_apart_0, not_eq_sym|by apply number_apart_0].
  - apply Hgrown; [lia|]. intros m Ma Mr Mt.
    apply (sqr_small m (bn_d rr) (bn_d a) (bn_d tmp) la (zlen la) (2 * zlen la) (2 * zlen la)); [done|lia|done|lia|done|done|by apply number_apart_0, not_eq_sym|by apply number_apart_0, not_eq_sym|by apply number_apart_0].
Qed.

(** * bn_sqr_fixed *)

Lemma stores_neg s rr ng k v b : stores s rr ng k v -> wp (bn_set_neg rr b) (fun _ s' => others rr s s' /\ stores s' rr b k v) (fun _ => False) s.
Proof.
  intros (n & d & ws & Hbn & _ & Hk & Hws & Hv). pose proof Hbn as (Hn & Hd & Hwf). destruct (bn_is_lt _ _ _ _ Hbn) as [Hlt _]. eapply wp_set_neg; [exact Hn|]. split.
  - unfold others. cbn. rewrite length_insert. split_and!; [done|done|]. intros y Hy. by rewrite list_lookup_insert_ne.
  - eexists _, d, ws. split; [split_and!; [by apply list_lookup_insert_eq|exact Hd|exact Hwf]|done].
Qed.

(** The steps on the numbers. *)
Definition sqr_steps (rr a tmp : bn) (al : Z) : M bn_store unit :=
  let max := 2 * al in bn_wexpand rr max;; sqr_words rr a tmp al;; bn_set_neg rr false;; bn_set_width rr max.

Lemma sqr_steps_spec s rr a tmp na la :
  shows s a na la -> roomy s rr 0 -> roomy s tmp 0 -> a <> rr -> a <> tmp -> rr <> tmp -> 0 < zlen la ->
  wp (sqr_steps rr a tmp (zlen la))
    (fun _ s' => others_in [rr; tmp] s s' /\ roomy s' tmp 0 /\ exists l, shows s' rr false l /\ zlen l = 2 * zlen la /\ val l = val la * val la)
    (fun s' => others_in [rr; tmp] s s' /\ roomy s' rr 0 /\ roomy s' tmp 0 /\ exists k, k <= 4 * zlen la /\ (cannot_grow s tmp k \/ cannot_grow s rr k)) s.
Proof.
  intros Hsa Hrr Htmp Har Hat Hrt Hla. unfold sqr_steps. cbv zeta. apply wp_bind. wp_call bn_wexpand_spec; [exact Hrr|lia| |].
  2: { intros s' (E1 & E2 & Hc). split_and!; [split_and!; [by rewrite E1|by rewrite E2|intros y _; by rewrite E1, E2]|eapply roomy_in; [by rewrite E1|by rewrite E2|done]|eapply roomy_in; [by rewrite E1|by rewrite E2|done]|].
    exists (2 * zlen la). split; [lia|by right]. }
  intros [] s1 (Ho1 & Hsh1 & Hr1). pose proof (Hsh1 _ _ _ Hsa) as Hsa1. pose proof Hr1 as (n & d & Hbn & Hk). assert (Ht1 : nums s1 !! tmp = nums s !! tmp /\ arrays s1 !! tmp = arrays s !! tmp) by (destruct Ho1 as (_ & _ & Ho1); apply Ho1; by apply not_eq_sym).
  destruct Ht1 as [En Ea]. assert (Htmp1 : roomy s1 tmp 0) by by eapply roomy_in. assert (Hin1 : others_in [rr; tmp] s s1) by (eapply others_in_one; [done|by left]).
  apply wp_bind. wp_call sqr_words_spec; [exact Hsa1|exact Hbn|done|exact Htmp1|done|done|done|done| |].
  2: { intros s' (E1 & E2 & k & Hk4 & Hc). split_and!; [eapply others_in_trans; [exact Hin1|split_and!; [by rewrite E1|by rewrite E2|intros y _; by rewrite E1, E2]]| | |].
    - eapply roomy_in; [by rewrite E1|by rewrite E2|]. apply (roomy_weaken _ _ (2 * zlen la)); [lia|done].
    - eapply roomy_in; [by rewrite E1|by rewrite E2|done].
    - exists k. split; [done|]. left. by eapply cannot_grow_same. }
  intros [] s2 (Ho2 & Hst & Ht2). apply wp_bind. wp_call stores_neg; [exact Hst| |done]. intros [] s3 [Ho3 Hst3].
  wp_call stores_width; [exact Hst3|lia|destruct (shows_digits _ _ _ _ Hsa); by apply square_bound| |done]. intros [] s4 [Ho4 Hres]. assert (Ho24 : others rr s2 s4) by by eapply others_trans. split_and!; [|destruct Ho24 as (_ & _ & Ho24); destruct (Ho24 tmp (not_eq_sym Hrt)); by eapply roomy_in|done].
  eapply others_in_trans; [exact Hin1|]. eapply others_in_trans; [exact Ho2|]. eapply others_in_one; [done|by left].
Qed.

Section Body.
Variables (s : ctx_store) (bl : list bn) (fr : list Z) (r a : bn) (na : bool) (la : list Z).
Hypothesis Hok : ctx_ok s bl fr.
Hypothesis Hsp : spacious s 2.
Hypothesis Hlr : live s bl r.
Hypothesis Hla : live s bl a.
Hypothesis Hsa : shows (store s) a na la.
Hypothesis Hrr : roomy (store s) r 0.
Hypothesis Ha0 : 0 < zlen la.
Local Abbreviation w := (2 * zlen la).

Definition sqr_body : M ctx_store unit :=
  rr ← (if negb (Nat.eqb a r) then mret (Some r) else BN_CTX_get);
  tmp ← BN_CTX_get;
  match rr, tmp with
  | Some rr, Some tmp =>
      on_store (sqr_steps rr a tmp (zlen la));;
      if negb (Nat.eqb rr r) then on_store (BN_copy r rr) else mret tt
  | _, _ => fail
  end.
Definition square_shown (st : bn_store) : Prop := exists l, shows st r false l /\ zlen l = w /\ val l = val la * val la.

(** The rest, from a state in which [rr] and [tmp] are there. *)
Lemma sqr_into s1 bl1 rr tmp :
  steady s bl fr [r] 2 s1 bl1 -> shows (store s1) a na la -> roomy (store s1) r 0 -> roomy (store s1) rr 0 -> roomy (store s1) tmp 0 -> tame s s1 ->
  a <> rr -> tmp <> a -> tmp <> rr -> tmp <> r -> rr = r \/ ~ live s bl rr -> ~ live s bl tmp -> (r <> rr -> nums (store s1) !! r = nums (store s) !! r) ->
  wp (on_store (sqr_steps rr a tmp (zlen la));; if negb (Nat.eqb rr r) then on_store (BN_copy r rr) else mret tt)
    (fun _ s2 => exists bl2, steady s bl fr [r] 2 s2 bl2 /\ square_shown (store s2)) (fun s2 => exists bl2, steady s bl fr [r] 2 s2 bl2 /\ blocked s w) s1.
Proof.
  intros Hst Hsa1 Hr1 Hrr1 Ht1 Htame Har Hat Hrt Htr Hcase Hnl En.
  assert (Hch : Forall (fun x => x ∈ [r] \/ x ∈ unused s bl \/ (length (nums (store s)) <= x)%nat) [rr; tmp]).
  { constructor; [destruct Hcase as [->|?]; [left; by left|right; by apply not_live]|]. constructor; [right; by apply not_live|constructor]. }
  assert (Hfr : Forall (fun x => x ∈ [r] \/ x ∈ unused s bl \/ (length (nums (store s)) <= x)%nat) [r]) by (constructor; [left; by left|constructor]).
  apply wp_bind, wp_on_store. wp_call sqr_steps_spec; [exact Hsa1|exact Hrr1|exact Ht1|done|by apply not_eq_sym|by apply not_eq_sym|done| |].
  - intros [] st (Ho & Hrt' & l & Hl & Hz & Hv). assert (Hst' : steady s bl fr [r] 2 (mkCtxStore (ctx s1) (items s1) st) bl1).
    { eapply (steady_store _ _ _ _ _ s1 bl1 st [rr; tmp]); [exact Hst|exact Ho| |exact Hch]. constructor; [by eapply roomy_shows|]. constructor; [done|constructor]. }
    destruct (Nat.eqb_spec rr r) as [->|Hne]; cbn [negb]; [apply wp_ret; exists bl1; split; [done|by exists l]|].
    assert (Hsame : nums st !! r = nums (store s1) !! r /\ arrays st !! r = arrays (store s1) !! r).
    { destruct Ho as (_ & _ & Ho). apply Ho. rewrite !not_elem_of_cons. split_and!; [by apply not_eq_sym|by apply not_eq_sym|set_solver]. }
    destruct Hsame as [En' Ea']. apply wp_on_store. cbn [ctx items store]. wp_call BN_copy_shows; [exact Hl|by eapply roomy_in| |].
    + intros [] st2 [Ho2 Hs2]. exists bl1. split; [|by exists l]. eapply (steady_store _ _ _ _ _ (mkCtxStore (ctx s1) (items s1) st) bl1 st2 [r]); [exact Hst'|eapply others_in_one; [done|by left]| |exact Hfr]. constructor; [by eapply roomy_shows|constructor].
    + intros st2 (E1 & E2 & Hc). exists bl1. split.
      * eapply (steady_store _ _ _ _ _ (mkCtxStore (ctx s1) (items s1) st) bl1 st2 []); [exact Hst'| |constructor|constructor]. split_and!; [by rewrite E1|by rewrite E2|]. intros y _. by rewrite E1, E2.
      * eapply (grow_blocked s s); [eapply (cannot_grow_same (store s) st); [by rewrite En', En; [|apply not_eq_sym]|exact Hc]|by apply tame_same|lia|lia].
  - intros st (Ho & Hr2 & Ht2 & k & Hk & Hc). exists bl1. split.
    + eapply (steady_store _ _ _ _ _ s1 bl1 st [rr; tmp]); [exact Hst|exact Ho| |exact Hch]. by repeat constructor.
    + destruct Hc as [Hc|Hc]; (eapply (grow_blocked s s1); [exact Hc|done|lia|lia]).
Qed.

Lemma got_none s0 rs s1 k : 0 <= k -> got s0 bl fr None s1 -> steady s0 bl fr rs 1 s1 bl /\ blocked s0 k.
Proof.
  intros Hk Hgot. destruct (steady_got _ _ _ rs _ _ Hgot) as (bl1 & Hst & Hsame). destruct (Hsame eq_refl) as [_ ->]. split; [done|].
  destruct Hgot as (bl' & _ & _ & _ & _ & _ & _ & _ & [[Hj _]|(_ & _ & Hmem)]); [by left|]. right. left. eapply out_of_memory_le; [|exact Hmem]. lia.
Qed.

Lemma sqr_body_spec :
  wp sqr_body (fun _ s2 => exists bl2, steady s bl fr [r] 2 s2 bl2 /\ square_shown (store s2)) (fun s2 => exists bl2, steady s bl fr [r] 2 s2 bl2 /\ blocked s w) s.
Proof.
  assert (Hwide : forall k bl2 s2, 0 <= k <= 2 -> steady s bl fr [r] k s2 bl2 -> steady s bl fr [r] 2 s2 bl2) by (intros k bl2 s2 Hk (? & ? & ? & ? & ?); split_and!; try done; lia).
  assert (Hfr : Forall (fun x => x ∈ [r] \/ x ∈ unused s bl \/ (length (nums (store s)) <= x)%nat) [r]) by (constructor; [left; by left|constructor]).
  unfold sqr_body. apply wp_bind. destruct (Nat.eqb_spec a r) as [Ear|Hne]; cbn [negb].
  - wp_call BN_CTX_get_spec; [exact Hok|unfold spacious in *; lia| |done]. intros [x|] s1 Hgot.
    + destruct (got_some _ _ _ _ _ Hok Hgot) as (bl1 & Hok1 & Hst1 & Hnx & Hlx & Hrx & Htame & Hu1 & Hj1 & Hkeep). destruct (Hkeep r Hlr) as (Hlr1 & Hrx' & En1 & Ea1).
      apply wp_bind. wp_call BN_CTX_get_spec; [exact Hok1|unfold spacious in *; lia| |done]. intros [tmp|] s2 Hgot2.
      * destruct (got_some _ _ _ _ _ Hok1 Hgot2) as (bl2 & Hok2 & Hst2 & Hnt & Hlt & Hrt & Htame2 & _ & _ & Hkeep2). destruct (Hkeep2 r Hlr1) as (_ & Hrt' & En2 & Ea2). destruct (Hkeep2 x Hlx) as (_ & Hxt & Enx & Eax).
        pose proof (steady_trans _ _ _ _ _ _ _ _ _ _ _ Hok Hfr (Hst1 [r]) (Hst2 [r])) as Hst. change (1 + 1) with 2 in Hst.
        apply (sqr_into s2 bl2 x tmp); [done|eapply (same_number (store s)); [by rewrite Ear, En2|by rewrite Ear, Ea2|done]|eapply (roomy_in (store s)); [by rewrite En2|by rewrite Ea2|done]
          |eapply (roomy_in (store s1)); [by rewrite Enx|by rewrite Eax|done]|done|intros ?; apply Htame, Htame2; done|congruence|rewrite Ear; by apply not_eq_sym|by apply not_eq_sym|by apply not_eq_sym|by right| |by rewrite En2].
        intros Hl. apply Hnt, Hkeep, Hl.
      * apply wp_fail. exists bl1. destruct (steady_got _ _ _ [r] _ _ Hgot2) as (bl2 & Hst2 & Hsame). destruct (Hsame eq_refl) as [_ ->].
        pose proof (steady_trans _ _ _ _ _ _ _ _ _ _ _ Hok Hfr (Hst1 [r]) Hst2) as Hst. split; [exact Hst|].
        destruct Hgot2 as (bl' & _ & _ & _ & _ & _ & _ & _ & [[Hj _]|(_ & _ & Hmem)]); [left; congruence|]. right. left. eapply out_of_memory_le; [|exact Hmem]. lia.
    + destruct (got_none s [r] s1 w ltac:(lia) Hgot) as [Hst1 Hbl]. apply wp_bind. wp_call BN_CTX_get_spec; [apply Hst1|destruct Hst1 as (_ & _ & _ & ? & _); unfold spacious in *; lia| |done].
      intros tmp s2 Hgot2. apply wp_fail. destruct (steady_got _ _ _ [r] _ _ Hgot2) as (bl2 & Hst2 & _). exists bl2. split; [|done]. exact (steady_trans _ _ _ _ _ _ _ _ _ _ _ Hok Hfr Hst1 Hst2).
  - apply wp_ret, wp_bind. wp_call BN_CTX_get_spec; [exact Hok|unfold spacious in *; lia| |done]. intros [tmp|] s1 Hgot.
    + destruct (got_some _ _ _ _ _ Hok Hgot) as (bl1 & Hok1 & Hst1 & Hnt & Hlt & Hrt & Htame & _ & _ & Hkeep). destruct (Hkeep r Hlr) as (_ & Hrt' & En & Ea). destruct (Hkeep a Hla) as (_ & Hat & Ena & Eaa).
      apply (sqr_into s1 bl1 r tmp); [eapply Hwide, Hst1; lia|by eapply same_number|by eapply roomy_in|by eapply roomy_in|done|done|done|by apply not_eq_sym|by apply not_eq_sym|by apply not_eq_sym|by left|done|done].
    + destruct (got_none s [r] s1 w ltac:(lia) Hgot) as [Hst1 Hbl]. apply wp_fail. exists bl. split; [eapply Hwide, Hst1; lia|done].
Qed.
End Body.

Section Sqr.
Variables (s : ctx_store) (bl : list bn) (fr : list Z) (r a : bn) (na : bool) (la : list Z).
Hypothesis Hok : ctx_ok s bl fr.
Hypothesis Hsp : spacious s 2.
Hypothesis H30 : nestable s fr.
Hypothesis Hlr : live s bl r.
Hypothesis Hla : live s bl a.
Hypothesis Hsa : shows (store s) a na la.
Hypothesis Hrr : roomy (store s) r 0.

Lemma bn_sqr_fixed_spec :
  wp (bn_sqr_fixed r a) (fun _ s' => exists bl', restored s bl fr [r] s' bl' /\ square_shown r la (store s'))
    (fun s' => exists bl', restored s bl fr [r] s' bl' /\ refused s fr (2 * zlen la)) s.
Proof.
  pose proof (zlen_nonneg la). destruct (shows_get _ _ _ _ Hsa) as (xa & Hxa & Hna & Hwa).
  unfold bn_sqr_fixed, bn_get_ctx. apply wp_bind, wp_on_store. eapply wp_bn_get; [exact Hxa|]. assert (mkCtxStore (ctx s) (items s) (store s) = s) as -> by (by destruct s). cbv zeta. rewrite Hwa. destruct (Z.leb_spec (zlen la) 0) as [Hz|Hpos].
  - destruct Hrr as (n & d & Hbn & _). pose proof Hbn as (Hn & Hd & (H1' & H2' & H3' & H4')). destruct (bn_is_lt _ _ _ _ Hbn) as [Hlt _]. assert (la = []) as -> by (apply zlen_0; lia).
    apply wp_on_store, wp_bind. eapply wp_set_width; [exact Hn|]. eapply wp_set_neg; [by apply list_lookup_insert_eq|]. cbn [nums arrays bn_heap width dmax neg flags]. rewrite list_insert_insert_eq.
    set (st := mkStore _ _ _). assert (Hs : shows st r false []) by (eexists _, d; split; [split_and!; [by apply list_lookup_insert_eq|exact Hd|unfold well_formed; cbn [width dmax]; split_and!; try done; lia]|done]).
    exists bl. split; [apply restored_store; [done| |by eapply roomy_shows]|by exists []]. unfold others, st. cbn [nums arrays]. rewrite length_insert. split_and!; [done|done|]. intros y Hy. by rewrite list_lookup_insert_ne.
  - wp_call (framed (sqr_body r a la) (square_shown r la) s bl fr [r] 2 (2 * zlen la)); [done|done|lia| | | |done].
    + intros st st' F1 F2 (l & Hl & Hrest). exists l. split; [by eapply same_shows|done].
    + intros s1 fr1 Hop Hok1. apply (sqr_body_spec s1 bl fr1 r a na la); [done|unfold spacious; by destruct Hop as (_ & -> & _)|by eapply opened_live|by eapply opened_live|by eapply opened_shows|by eapply opened_roomy|lia].
    + done.
Qed.
End Sqr.

(** [BN_sqr] on signed numbers. *)
Lemma BN_sqr_sized s bl fr r a u w :
  ctx_ok s bl fr -> spacious s 2 -> nestable s fr -> live s bl r -> live s bl a ->
  (exists na la, shows (store s) a na la /\ canonical na la /\ u = signed na (val la) /\ w = 2 * zlen la) -> roomy (store s) r 0 ->
  wp (BN_sqr r a) (fun _ s' => exists bl', restored s bl fr [r] s' bl' /\ holds (store s') r (u * u) /\ words_of (store s') r <= w)
    (fun s' => exists bl', restored s bl fr [r] s' bl' /\ refused s fr w) s.
Proof.
  intros Hok Hsp H30 Hlr Hla (na & la & Hsa & Hca & -> & ->) Hrr. unfold BN_sqr. apply wp_bind.
  wp_call bn_sqr_fixed_spec; [exact Hok|done|done|done|exact Hla|exact Hsa|done| |done]. intros [] s1 (bl1 & Hres & l & Hl & Hz & Hv).
  apply wp_on_store. wp_call bn_set_minimal_width_spec; [exact Hl| |done]. intros [] st [Hs' Ho]. exists bl1. split; [eapply restored_then; [exact Hres|done|by eapply roomy_shows]|].
  split; [|cbn [store]; rewrite (shows_words _ _ _ _ Hs'); pose proof (zlen_shrink l); lia].
  destruct (shrink_spec l) as (_ & Hvs & _). eexists _, _. split; [exact Hs'|]. rewrite Hvs, Hv. cbn [andb]. split; [done|]. destruct na; cbn [signed]; lia.
Qed.
Lemma BN_sqr_spec s bl fr r a u w :
  ctx_ok s bl fr -> spacious s 2 -> nestable s fr -> live s bl r -> live s bl a ->
  (exists na la, shows (store s) a na la /\ canonical na la /\ u = signed na (val la) /\ w = 2 * zlen la) -> roomy (store s) r 0 ->
  wp (BN_sqr r a) (fun _ s' => exists bl', restored s bl fr [r] s' bl' /\ holds (store s') r (u * u))
    (fun s' => exists bl', restored s bl fr [r] s' bl' /\ refused s fr w) s.
Proof. intros. wp_call BN_sqr_sized; [done..| |done]. intros [] s' (bl' & ? & ? & _). by exists bl'. Qed.

(** [bn_mul_fixed] takes no negative factor, and keeps as many words as the factors have. *)
Lemma bn_mul_fixed_spec s bl fr r a b na nb la lb :
  ctx_ok s bl fr -> spacious s 2 -> nestable s fr -> live s bl r -> live s bl a -> live s bl b -> shows (store s) a na la -> shows (store s) b nb lb -> roomy (store s) r 0 ->
  (r = a \/ r = b -> jammed s = false /\ ~ out_of_memory (408 + 6 * zlen fr)) ->
  wp (bn_mul_fixed r a b) (fun _ s' => na = false /\ nb = false /\ exists bl', restored s bl fr [r] s' bl' /\ impl_result r na nb la lb (store s'))
    (fun s' => na || nb = true /\ s' = s \/ exists bl', restored s bl fr [r] s' bl' /\ refused s fr (zlen la + zlen lb)) s.
Proof.
  intros Hok Hsp H30 Hlr Hla Hlb Hsa Hsb Hrr Hal. destruct (shows_get _ _ _ _ Hsa) as (xa & Hxa & Hna & _). destruct (shows_get _ _ _ _ Hsb) as (xb & Hxb & Hnb & _).
  unfold bn_mul_fixed, bn_get_ctx. apply wp_bind, wp_on_store. eapply wp_bn_get; [exact Hxa|]. apply wp_bind, wp_on_store. cbn [ctx items store]. eapply wp_bn_get; [exact Hxb|].
  assert (mkCtxStore (ctx s) (items s) (store s) = s) as -> by (by destruct s). rewrite Hna, Hnb. destruct (na || nb) eqn:E; [apply wp_fail; by left|]. apply orb_false_iff in E as [-> ->].
  wp_call bn_mul_impl_spec; [exact Hok|done|done|done|exact Hla|exact Hlb|exact Hsa|exact Hsb|done|done| |].
  - intros [] s' H. done.
  - intros s' H. by right.
Qed.

(** * bn_sqr_small *)

Lemma keeps_forget m m' r n k : keeps m m' (mine r n (length m, 0) k) -> keeps m m' [(r, n)].
Proof.
  intros (H1 & H2 & H3). split_and!; [done| |done]. intros q l Hat HR. apply H2; [done|]. inversion HR; subst. constructor; [done|]. constructor; [|constructor].
  left. cbn. destruct Hat as (b & Hb & _). apply lookup_lt_Some in Hb. lia.
Qed.

(** The square of the words [la] is written to [r]; nothing else changes. *)
Definition squares (s : bn_store) (r : wptr) (la : list Z) (s' : bn_store) : Prop :=
  nums s' = nums s /\ keeps (arrays s) (arrays s') [(r, 2 * zlen la)] /\
  exists ws, at_ (arrays s') r ws /\ zlen ws = 2 * zlen la /\ digits ws /\ val ws = val la * val la.

Lemma bn_sqr_small_spec s r num_r a la :
  at_ (arrays s) a la -> digits la -> writable (arrays s) r (2 * zlen la) -> apart r (2 * zlen la) a (zlen la) -> 0 < zlen la ->
  wp (bn_sqr_small r num_r a (zlen la)) (fun _ s' => num_r = 2 * zlen la /\ zlen la <= BN_SMALL_MAX_WORDS /\ squares s r la s')
    (fun s' => s' = s /\ (num_r <> 2 * zlen la \/ BN_SMALL_MAX_WORDS < zlen la)) s.
Proof.
  intros Ha Hda Hr Hra Hpos. unfold bn_sqr_small. destruct (negb (num_r =? 2 * zlen la) || (BN_SMALL_MAX_WORDS <? zlen la)) eqn:E.
  { apply wp_fail. split; [done|]. apply orb_true_iff in E as [E%negb_true_iff%Z.eqb_neq|E%Z.ltb_lt]; [by left|by right]. }
  apply orb_false_iff in E as [E1%negb_false_iff%Z.eqb_eq E2%Z.ltb_ge]. change BN_SMALL_MAX_WORDS with 9 in *.
  assert (Hrun : forall (P : M words unit), wp P (fun _ m' => exists ws, m' = wput (arrays s) r ws /\ zlen ws = 2 * zlen la /\ digits ws /\ val ws = val la * val la) (fun _ => False) (arrays s) ->
    wp (on_words P) (fun _ s' => num_r = 2 * zlen la /\ zlen la <= 9 /\ squares s r la s') (fun s' => s' = s /\ (num_r <> 2 * zlen la \/ 9 < zlen la)) s).
  { intros P HP. apply wp_on_words. wp_call HP; [|done]. intros [] m' (ws & -> & Hz & Hd & Hv). do 2 (split; [lia|]). split_and!; [done| |].
    - apply keeps_put with (2 * zlen la); [by rewrite Hz|done|done|by left].
    - exists ws. split_and!; try done. apply wput_at. by rewrite Hz. }
  destruct (Z.eqb_spec (zlen la) 4) as [E4|E4].
  { apply Hrun. rewrite E4 in *. by apply (bn_sqr_comba4_spec (arrays s) r a la). }
  destruct (Z.eqb_spec (zlen la) 8) as [E8|E8].
  { apply Hrun. rewrite E8 in *. by apply (bn_sqr_comba8_spec (arrays s) r a la). }
  clear Hrun. set (t := (length (arrays s), 0)). pose proof Ha as (ba & Hba & _). pose proof Hr as (br & Hbr & _). apply lookup_lt_Some in Hba, Hbr.
  wp_call (with_array_run (fun t => bn_sqr_normal r a (zlen la) t;; wzero t (2 * zlen la)) 18 s (fun _ m' => exists g, computes (arrays s ++ [g]) r t (2 * zlen la) 18 (val la * val la) m')); [lia| | |done].
  - intros g Hg Hdg. assert (Hrt : apart r (2 * zlen la) t 18) by (left; cbn; lia).
    destruct (sqr_small (arrays s ++ [g]) r a t la (zlen la) (2 * zlen la) 18) as (_ & _ & Hs);
      [split_and!; [by apply at_snoc|done|done]|lia|done|lia|by apply writable_snoc|by apply writable_last|done|left; cbn; lia|done|].
    apply wp_bind. wp_call Hs; [|done]. intros [] m1 (ws & Hws & Hz & Hd & Hv & K).
    assert (Ht : writable m1 t (2 * zlen la)).
    { eapply keeps_writable; [exact K|]. rewrite <- (wadd_0 t). apply (writable_sub _ _ 18); [by apply writable_last|lia..]. }
    wp_call wzero_spec; [lia|exact Ht| |done]. intros [] m2 ->. assert (Hzr : zlen (zrep (2 * zlen la) 0) = 2 * zlen la) by (apply zlen_zrep; lia). exists g, ws. split_and!; try done.
    + apply wput_apart; [by rewrite Hzr|done|]. rewrite Hzr, Hz. left. cbn. lia.
    + eapply keeps_trans; [exact K|]. eapply keeps_one; [by rewrite Hzr|apply digits_zrep|right; by left|]. rewrite Hzr. unfold inside. cbn. lia.
  - intros [] s' (m' & (g & ws & Hws & Hz & Hd & Hv & K) & ->). pose proof (keeps_forget _ _ _ _ _ (keeps_take _ _ _ _ K)) as Kt. do 2 (split; [lia|]). split_and!; [done|done|]. exists ws. split_and!; try done.
    destruct Hws as (b & Hb & H). exists b. split; [|done]. apply lookup_take_Some. split; [done|lia].
Qed.
End Squares.
