(* ===== verification/BnFrames.v ===== *)
(** What the scratch context of [BnCtx] promises: a stack of frames of numbers, no number in two
    places, and the lemmas that its calls keep that promise. *)
From S2P Require Import Prelude Mem Der MemFacts Cells Ct BnWords Bn BnFacts BnArith BnMul BnCtx BnCtxFacts BnMulCtx.

(** * The specification *)

(** The frames, innermost first; the last one holds what was taken outside of all frames.
    [broken] frames could not be opened, and are not among them; [full]: a number was refused. *)
Record frames := mkFrames {
  open_frames : list (list bn);
  broken : Z;
  full : bool;
}.
Definition closed_for (A : frames) : bool := negb (broken A =? 0) || full A.

Inductive call := Start | Get | End.

Section Frames.
Context `{alloc : Allocator}.

(** What a call returns, and what it does to the frames. *)
Inductive act : call -> option bn -> frames -> frames -> Prop :=
  | act_start F : act Start None (mkFrames F 0 false) (mkFrames ([] :: F) 0 false)
  | act_start_broken A :
      closed_for A = true \/ out_of_memory (136 + 6 * (zlen (open_frames A) - 1)) ->
      act Start None A (mkFrames (open_frames A) (broken A + 1) (full A))
  | act_get x f F :
      x ∉ concat (f :: F) -> act Get (Some x) (mkFrames (f :: F) 0 false) (mkFrames ((f ++ [x]) :: F) 0 false)
  | act_get_closed A : closed_for A = true -> act Get None A A
  | act_get_full F : out_of_memory 408 -> act Get None (mkFrames F 0 false) (mkFrames F 0 true)
  | act_end f g F t : act End None (mkFrames (f :: g :: F) 0 t) (mkFrames (g :: F) 0 false)
  | act_end_broken A : 0 < broken A -> act End None A (mkFrames (open_frames A) (broken A - 1) (full A)).

(** Some frame can be closed; nothing outgrows an [unsigned] or [int]. *)
Definition may (c : call) (A : frames) : Prop :=
  match c with
  | Start => zlen (open_frames A) <= 2 ^ 30 /\ broken A < 2 ^ 31 - 1
  | Get => zlen (concat (open_frames A)) + 17 <= 2 ^ 31
  | End => 1 < zlen (open_frames A) \/ 0 < broken A
  end.

Definition run_call (c : call) : M ctx_store (option bn) :=
  match c with
  | Start => BN_CTX_start;; mret None
  | Get => BN_CTX_get
  | End => BN_CTX_end;; mret None
  end.

(** * What a context holds *)

(** The numbers taken since each frame was opened. *)
Fixpoint cut (names : list bn) (u : Z) (fr : list Z) : list (list bn) :=
  match fr with
  | [] => [ztake u names]
  | m :: fr => ztake (u - m) (zdrop m names) :: cut names m fr
  end.

Definition represents (s : ctx_store) (bl : list bn) (A : frames) : Prop :=
  exists fr, ctx_ok s bl fr /\ A = mkFrames (cut (pool_names bl) (used (ctx s)) fr) (err_stack (ctx s)) (too_many (ctx s)).

Lemma zlen_cut names u fr : zlen (cut names u fr) = zlen fr + 1.
Proof. revert u. induction fr as [|m fr IH]; intros u; [done|]. cbn [cut]. rewrite !zlen_cons, IH. lia. Qed.

Lemma cut_take names u fr : marks_ok u fr -> u <= zlen names -> concat (cut names u fr) ≡ₚ ztake u names.
Proof.
  revert u. induction fr as [|m fr IH]; intros u Hm Hu; cbn [cut concat].
  - by rewrite app_nil_r.
  - destruct Hm as [Hm Hmk]. rewrite IH by (done || lia). rewrite (Permutation_app_comm (ztake (u - m) _)), <- (ztake_split m (u - m)) by (done || lia). by replace (m + (u - m)) with u by lia.
Qed.

Lemma cut_more names more u fr : marks_ok u fr -> u <= zlen names -> cut (names ++ more) u fr = cut names u fr.
Proof.
  revert u. induction fr as [|m fr IH]; intros u Hm Hu; cbn [cut].
  - cbn in Hm. by rewrite ztake_app_le by lia.
  - destruct Hm as [Hm Hmk]. rewrite IH by (done || lia). f_equal. rewrite zdrop_app_le by lia. apply ztake_app_le. rewrite zlen_zdrop by (destruct fr as [|k fr]; cbn in Hmk; lia). destruct fr as [|k fr]; cbn in Hmk; lia.
Qed.

Lemma marks_nonneg u fr : marks_ok u fr -> 0 <= u.
Proof. destruct fr as [|m fr]; cbn; [done|]. intros [? _]. lia. Qed.

Lemma zget_zdrop {B} (l : list B) m i : 0 <= m -> 0 <= i -> zget (zdrop m l) i = zget l (m + i).
Proof. intros Hm Hi. unfold zget, zdrop. rewrite (proj2 (Z.leb_le 0 i)), (proj2 (Z.leb_le 0 (m + i))) by lia. rewrite lookup_drop. f_equal. lia. Qed.

Lemma cut_next names u fr x : marks_ok u fr -> zget names u = Some x -> exists f F, cut names u fr = f :: F /\ cut names (u + 1) fr = (f ++ [x]) :: F.
Proof.
  intros Hm Hx. destruct fr as [|m fr]; cbn [cut].
  - exists (ztake u names), []. by rewrite (ztake_next names u x).
  - destruct Hm as [Hm _]. exists (ztake (u - m) (zdrop m names)), (cut names m fr). split; [done|]. f_equal. replace (u + 1 - m) with (u - m + 1) by lia.
    apply ztake_next. rewrite zget_zdrop by lia. by replace (m + (u - m)) with u by lia.
Qed.

(** * The calls *)

Lemma used_bounds s bl fr : ctx_ok s bl fr -> 0 <= used (ctx s) <= zlen (pool_names bl).
Proof.
  intros ((_ & _ & Hu & Hps & _) & _). unfold zlen. rewrite length_pool_names. lia.
Qed.
Lemma concat_used s bl fr : ctx_ok s bl fr -> zlen (concat (cut (pool_names bl) (used (ctx s)) fr)) = used (ctx s).
Proof.
  intros Hok. pose proof (used_bounds _ _ _ Hok) as Hu. destruct Hok as (_ & _ & Hm & _). pose proof (cut_take _ _ _ Hm (proj2 Hu)) as Hp.
  unfold zlen at 1. rewrite (Permutation_length Hp). apply zlen_ztake. lia.
Qed.

Lemma represents_nodup s bl A : represents s bl A -> NoDup (concat (open_frames A)).
Proof.
  intros (fr & Hok & ->). pose proof (used_bounds _ _ _ Hok) as Hu. destruct Hok as (_ & _ & Hm & _ & _ & Hnd & _). cbn [open_frames]. rewrite cut_take by (done || lia).
  eapply sublist_NoDup; [exact Hnd|apply sublist_take].
Qed.

(** What each call leaves as it was: all numbers that are not waiting in the pool. *)
Definition call_post (s : ctx_store) (bl : list bn) (A : frames) (c : call) (o : option bn) (s' : ctx_store) : Prop :=
  exists bl' A', represents s' bl' A' /\ act c o A A' /\ calm [] s bl s' bl' /\ tame s s' /\
  match o with Some x => holds (store s') x 0 | None => same_store s s' end.

Lemma start_refines s bl A : represents s bl A -> may Start A -> wp (run_call Start) (call_post s bl A Start) (fun _ => False) s.
Proof.
  intros (fr & Hok & ->) Hmay. cbn [may open_frames] in Hmay. rewrite zlen_cut in Hmay. cbn [run_call]. apply wp_bind. wp_call BN_CTX_start_spec; [exact Hok|split; [lia|apply Hmay]| |done].
  intros [] s' (Hsame & Hu & Ht & Hcase). apply wp_ret. exists bl. destruct Hcase as [(Hj & He & Hok')|(Hj & He & Hok')]; eexists; (split; [by eexists|]).
  - rewrite Hu, Ht, He. unfold jammed in Hj. apply orb_false_iff in Hj as [->%negb_false_iff%Z.eqb_eq ->]. cbn [cut]. rewrite Z.sub_diag, ztake_0. split_and!; [constructor|by apply calm_same|by apply tame_same|apply Hsame..].
  - rewrite Hu, Ht, He. split_and!; [|by apply calm_same|by apply tame_same|apply Hsame..].
    apply (act_start_broken (mkFrames _ (err_stack (ctx s)) (too_many (ctx s)))). destruct Hj as [Hj|Hj]; [by left|right]. cbn [open_frames]. rewrite zlen_cut. by replace (zlen fr + 1 - 1) with (zlen fr) by lia.
Qed.

Lemma get_refines s bl A : represents s bl A -> may Get A -> wp (run_call Get) (call_post s bl A Get) (fun _ => False) s.
Proof.
  intros (fr & Hok & ->) Hmay. cbn [may open_frames] in Hmay. rewrite (concat_used s bl fr Hok) in Hmay. cbn [run_call]. pose proof (used_bounds _ _ _ Hok) as Hub. pose proof Hok as (_ & _ & Hm & _).
  wp_call BN_CTX_get_spec; [exact Hok|unfold spacious; lia| |done]. intros [x|] s' (bl' & Hok' & Hc & He & _ & Hcase); exists bl'; eexists; (split; [by eexists|]).
  - destruct Hcase as (Hx & Hu & Ht & Hj & Hz & Htame). rewrite Hu, Ht, He. unfold jammed in Hj. apply orb_false_iff in Hj as [->%negb_false_iff%Z.eqb_eq ->].
    pose proof Hc as ((more & -> & Hmore) & _). rewrite pool_names_app in *. destruct (cut_next (pool_names bl ++ pool_names more) (used (ctx s)) fr x) as (f & F & E1 & E2); [done| |].
    { unfold zget. rewrite (proj2 (Z.leb_le _ _)) by lia. done. }
    rewrite E2. rewrite cut_more in E1 by (done || lia). rewrite E1. split_and!; [|done|done|done]. apply act_get. rewrite <- E1. rewrite cut_take by (done || lia).
    destruct Hok' as (_ & _ & _ & _ & _ & Hnd & _). rewrite pool_names_app in Hnd. intros Hin. apply list_elem_of_lookup in Hin as [i Hi]. unfold ztake in Hi. apply lookup_take_Some in Hi as [Hi Hlt].
    pose proof (NoDup_lookup _ _ _ x Hnd Hx (lookup_app_l_Some _ _ _ _ Hi)). lia.
  - destruct Hcase as (-> & Hsame & Hu & Hcase). rewrite Hu, He. destruct Hcase as [[Hj ->]|(Hj & Ht & Hmem)].
    + split_and!; [by apply act_get_closed|done|by apply tame_same|done..].
    + rewrite Ht. unfold jammed in Hj. apply orb_false_iff in Hj as [->%negb_false_iff%Z.eqb_eq ->]. split_and!; [by apply act_get_full|done|by apply tame_same|apply Hsame..].
Qed.

Lemma end_refines s bl A : represents s bl A -> may End A -> wp (run_call End) (call_post s bl A End) (fun _ => False) s.
Proof.
  intros (fr & Hok & ->) Hmay. cbn [may open_frames broken] in Hmay. rewrite zlen_cut in Hmay. cbn [run_call]. apply wp_bind. wp_call BN_CTX_end_spec; [exact Hok| | |done].
  { destruct Hmay as [Hf|?]; [left|by right]. intros ->. change (zlen (@nil Z)) with 0 in Hf. lia. }
  intros [] s' (Hsame & Hcase). apply wp_ret. exists bl. destruct Hcase as [(Hpos & He & Hu & Ht & Hok')|(Hz & m & fr' & -> & Hu & Ht & He & Hok')]; eexists; (split; [by eexists|]).
  - rewrite Hu, Ht, He. split_and!; [by apply (act_end_broken (mkFrames _ (err_stack (ctx s)) (too_many (ctx s))))|by apply calm_same|by apply tame_same|apply Hsame..].
  - rewrite Hu, Ht, He, Hz. split_and!; [|by apply calm_same|by apply tame_same|apply Hsame..]. cbn [cut]. destruct (cut (pool_names bl) m fr') as [|g F] eqn:E; [|apply act_end].
    pose proof (zlen_cut (pool_names bl) m fr') as Hl. rewrite E in Hl. change (zlen (@nil (list bn))) with 0 in Hl. pose proof (zlen_nonneg fr'). lia.
Qed.

Lemma call_refines c s bl A : represents s bl A -> may c A -> wp (run_call c) (call_post s bl A c) (fun _ => False) s.
Proof. destruct c; [apply start_refines|apply get_refines|apply end_refines]. Qed.

(** * A new context *)

Definition new_ctx (st : bn_store) : ctx_store := mkCtxStore (mkCtx BN_POOL_init BN_STACK_init 0 0 false) [] st.
Lemma new_ctx_ok st : length (nums st) = length (arrays st) -> ctx_ok (new_ctx st) [] [].
Proof. intros Hlen. unfold ctx_ok, pool_ok, stack_ok. cbn. change (zlen (@nil Z)) with 0. split_and!; try done; try lia; try constructor; done. Qed.

Lemma BN_CTX_new_shape st :
  wp BN_CTX_new (fun s st' => s = new_ctx st' /\ nums st' = nums st /\ arrays st' = arrays st) (fun st' => out_of_memory 88 /\ nums st' = nums st /\ arrays st' = arrays st) st.
Proof.
  pose proof (store_malloc_spec sizeof_BN_CTX st ltac:(done)) as H. change (sizeof_BN_CTX + 8) with 88 in H.
  unfold wp, BN_CTX_new in *. destruct (on_heap _ st) as [[p|] s1|s1|]; [| |done|done]; destruct H as (Hp & En & Ea); split; auto.
Qed.
Lemma BN_CTX_new_spec st : length (nums st) = length (arrays st) ->
  wp BN_CTX_new (fun s _ => represents s [] (mkFrames [[]] 0 false) /\ same_store (new_ctx st) s) (fun _ => out_of_memory 88) st.
Proof.
  intros Hlen. wp_call BN_CTX_new_shape; [|by intros ? [? _]]. intros s st' (-> & En & Ea). split; [|done]. exists []. split; [|done]. apply new_ctx_ok. congruence.
Qed.

(** * Many calls *)

Fixpoint run_calls (cs : list call) : M ctx_store (list (option bn)) :=
  match cs with
  | [] => mret []
  | c :: cs => o ← run_call c; os ← run_calls cs; mret (o :: os)
  end.
Inductive acts : list call -> list (option bn) -> frames -> frames -> Prop :=
  | acts_nil A : acts [] [] A A
  | acts_cons c cs o os A1 A2 A3 : act c o A1 A2 -> acts cs os A2 A3 -> acts (c :: cs) (o :: os) A1 A3.

(** No more frames are closed than were opened. *)
Fixpoint balanced (n : Z) (cs : list call) : bool :=
  match cs with
  | [] => true
  | Start :: cs => balanced (n + 1) cs
  | Get :: cs => balanced n cs
  | End :: cs => (0 <? n) && balanced (n - 1) cs
  end.

(** Frames opened, or tried to. *)
Definition tally (A : frames) : Z := zlen (open_frames A) - 1 + broken A.
Definition sound (A : frames) : Prop := 0 < zlen (open_frames A) /\ 0 <= broken A.

Lemma act_sound c o A A' : sound A -> act c o A A' ->
  sound A' /\ zlen (concat (open_frames A')) <= zlen (concat (open_frames A)) + 1 /\ tally A' = tally A + (match c with Start => 1 | Get => 0 | End => -1 end).
Proof.
  unfold sound, tally. intros [H1 H2] Hact. destruct Hact; cbn [open_frames broken concat] in *; rewrite ?zlen_cons, ?zlen_app, ?zlen_cons in *; change (zlen (@nil bn)) with 0 in *;
    repeat match goal with |- context [zlen ?l] => lazymatch goal with H : 0 <= zlen l |- _ => fail | _ => pose proof (zlen_nonneg l) end end; lia.
Qed.

Lemma runs_refine cs s bl A : represents s bl A -> balanced (tally A) cs = true -> tally A + zlen cs < 2 ^ 30 -> zlen (concat (open_frames A)) + zlen cs + 17 <= 2 ^ 31 ->
  wp (run_calls cs) (fun os s' => exists bl' A', represents s' bl' A' /\ acts cs os A A') (fun _ => False) s.
Proof.
  revert s bl A. induction cs as [|c cs IH]; intros s bl A Hrep Hbal Ht Hsz; cbn [run_calls]; [apply wp_ret; exists bl, A; split; [done|constructor]|].
  rewrite zlen_cons in *. pose proof (zlen_nonneg cs). assert (Hs : sound A).
  { destruct Hrep as (fr & Hok & ->). unfold sound. cbn [open_frames broken]. rewrite zlen_cut. pose proof (zlen_nonneg fr). destruct Hok as (_ & _ & _ & ? & _). lia. }
  assert (Hmay : may c A).
  { destruct Hs. unfold tally in *. destruct c; cbn [may]; [split; lia|lia|]. cbn [balanced] in Hbal. apply andb_prop in Hbal as [?%Z.ltb_lt _]. lia. }
  apply wp_bind. wp_call call_refines; [exact Hrep|exact Hmay| |done]. intros o s1 (bl1 & A1 & Hrep1 & Hact & _). destruct (act_sound _ _ _ _ Hs Hact) as (Hs1 & Hc & Htl).
  apply wp_bind. wp_call (IH s1 bl1 A1); [done| |destruct c; lia|lia| |done].
  - destruct c; cbn [balanced] in Hbal; rewrite Htl; [done|by rewrite Z.add_0_r|by apply andb_prop in Hbal as [_ ?]].
  - intros os s2 (bl2 & A2 & Hrep2 & Hacts). apply wp_ret. exists bl2, A2. split; [done|]. by econstructor.
Qed.
End Frames.
