(* ===== verification/BnCtxThms.v ===== *)
(** What the scratch context of the bignums promises, and what the products and squares that
    use it compute. *)
From S2P Require Import Prelude Mem Ct BnWords BnWordsFacts Bn BnFacts BnCmp BnAddFacts BnArith BnTests BnMul BnPartFacts BnCtx BnCtxFacts BnMulCtx BnSqrCtx BnFrames.

Lemma bind_ok {S A B} (m : M S A) (k : A -> M S B) s a s' : m s = Ok a s' -> (x ← m; k x) s = k a s'.
Proof. intros H. unfold mbind, M_bind. by rewrite H. Qed.

Section Thms.
Context `{alloc : Allocator}.

(** C13. Refinement: a context is a stack of frames of numbers. Each of BN_CTX_start, BN_CTX_get
    and BN_CTX_end, called on a context that represents some frames (where a frame can be
    closed, and the counts fit an [unsigned] and an [int]), returns, to a context that represents the
    frames the specification allows: BN_CTX_get adds to the innermost frame a number that is in
    no frame yet, and zero; BN_CTX_end takes the frame with all its numbers away; frames that could
    not be opened are counted, and BN_CTX_get refuses while there are any, or after it has
    refused once in the frame. No number is in two places, and no number outside the pool or
    in a frame changes. *)
Theorem BN_CTX_refines_frames c s bl A :
  represents s bl A -> may c A ->
  NoDup (concat (open_frames A)) /\ wp (run_call c) (call_post s bl A c) (fun _ => False) s.
Proof. intros Hrep Hmay. split; [by eapply represents_nodup|by apply call_refines]. Qed.

(** C14. Whatever calls follow BN_CTX_new, fewer than 2^30 of them and never closing more frames
    than were opened, opened with success or not, none follows a NULL pointer or leaves an array:
    all return, as the specification of the frames allows. *)
Theorem BN_CTX_balanced_calls_return cs st :
  length (nums st) = length (arrays st) -> balanced 0 cs = true -> zlen cs < 2 ^ 30 ->
  wp BN_CTX_new (fun s _ =>
    wp (run_calls cs) (fun os s' => exists bl A, represents s' bl A /\ acts cs os (mkFrames [[]] 0 false) A) (fun _ => False) s)
    (fun _ => out_of_memory 88) st.
Proof.
  intros Hlen Hbal Hcs. wp_call BN_CTX_new_spec; [done| |done]. intros s st' [Hrep _].
  apply (runs_refine cs s [] (mkFrames [[]] 0 false)); [done|done|change (0 + zlen cs < 2 ^ 30); lia|change (0 + zlen cs + 17 <= 2 ^ 31); lia].
Qed.

(** The number [x] has the value [u], in [k] words. *)
Definition number (s : ctx_store) (x : bn) (u k : Z) : Prop :=
  exists ng l, shows (store s) x ng l /\ canonical ng l /\ u = signed ng (val l) /\ k = zlen l.

Lemma number_holds s x u k : number s x u k -> holds (store s) x u /\ k = words_of (store s) x.
Proof. intros (ng & l & Hl & Hc & -> & ->). split; [by exists ng, l|]. by rewrite (shows_words _ _ _ _ Hl). Qed.

(** C8. BN_mul, on any three numbers of the store, the same or not, sets the first to the product
    of the others, whichever of comba, Karatsuba and schoolbook products their lengths
    select, and gives every number of the pool back: the frames and all other numbers are as
    they were. It fails only if the context is jammed, memory is out, a number is too long or
    may not grow, leaving no frame open either. A result that is also a factor needs a context
    that is not jammed and an allocator that does not refuse the temporary number; without them
    the code writes through a null pointer. *)
Theorem BN_mul_exact s bl fr r a b u v wa wb :
  ctx_ok s bl fr -> spacious s 2 -> nestable s fr -> live s bl r -> live s bl a -> live s bl b ->
  number s a u wa -> number s b v wb -> roomy (store s) r 0 ->
  (r = a \/ r = b -> jammed s = false /\ ~ out_of_memory (408 + 6 * zlen fr)) ->
  wp (BN_mul r a b)
    (fun _ s' => exists bl', restored s bl fr [r] s' bl' /\ holds (store s') r (u * v))
    (fun s' => exists bl', restored s bl fr [r] s' bl' /\ refused s fr (wa + wb)) s.
Proof.
  intros Hok Hsp H30 Hlr Hla Hlb (na & la & Hsa & Hca & -> & ->) (nb & lb & Hsb & Hcb & -> & ->) Hrr Hal.
  apply (BN_mul_spec s bl fr r a b _ _ _); try done. by exists na, la, nb, lb.
Qed.

(** C9. BN_sqr sets its first argument to the square of the second, in place or not, with a
    temporary array of the stack, of the context, or none, as the length selects; it gives
    every number of the pool back, and fails only as BN_mul does. *)
Theorem BN_sqr_exact s bl fr r a u wa :
  ctx_ok s bl fr -> spacious s 2 -> nestable s fr -> live s bl r -> live s bl a -> number s a u wa -> roomy (store s) r 0 ->
  wp (BN_sqr r a)
    (fun _ s' => exists bl', restored s bl fr [r] s' bl' /\ holds (store s') r (u * u))
    (fun s' => exists bl', restored s bl fr [r] s' bl' /\ refused s fr (2 * wa)) s.
Proof.
  intros Hok Hsp H30 Hlr Hla (na & la & Hsa & Hca & -> & ->) Hrr. apply BN_sqr_spec; try done. by exists na, la.
Qed.

(** C40. In a context that has refused a number before, BN_mul with its result among its factors
    writes through the NULL that BN_CTX_get returns: the check for it looks at the result
    instead of the temporary. *)
Theorem BN_mul_null_temporary s r a b x y :
  nums (store s) !! a = Some x -> nums (store s) !! b = Some y -> width x <> 0 -> width y <> 0 -> jammed s = true -> r = a \/ r = b -> 0 <= err_stack (ctx s) < 2 ^ 31 - 1 ->
  BN_mul r a b s = Stuck.
Proof.
  intros Hx Hy Hwx Hwy Hj Hr He.
  assert (Ha : bn_get_ctx a s = Ok x s) by (unfold bn_get_ctx, on_store, zoom, bn_get, mbind, M_bind, get, deref; rewrite Hx; by destruct s).
  assert (Hb : bn_get_ctx b s = Ok y s) by (unfold bn_get_ctx, on_store, zoom, bn_get, mbind, M_bind, get, deref; rewrite Hy; by destruct s).
  set (c := mkCtx (pool (ctx s)) (stack (ctx s)) (used (ctx s)) (err_stack (ctx s) + 1) (too_many (ctx s))).
  assert (Hs : BN_CTX_start s = Ok tt (mkCtxStore c (items s) (store s))).
  { unfold BN_CTX_start. rewrite (bind_ok get_ctx _ s (ctx s) s) by done. fold (jammed s). rewrite Hj. unfold incr_err. rewrite (bind_ok get_ctx _ s (ctx s) s) by done. by rewrite (proj2 (Z.ltb_lt _ _)) by lia. }
  assert (Hg : BN_CTX_get (mkCtxStore c (items s) (store s)) = Ok None (mkCtxStore c (items s) (store s))).
  { unfold BN_CTX_get. rewrite (bind_ok get_ctx _ _ c (mkCtxStore c (items s) (store s))) by done. cbn [c err_stack]. by rewrite (proj2 (Z.eqb_neq _ _)) by lia. }
  unfold BN_mul, mbind at 1, M_bind at 1. assert (Himpl : bn_mul_impl r a b s = Stuck); [|by rewrite Himpl].
  unfold bn_mul_impl. rewrite (bind_ok _ _ _ _ _ Ha), (bind_ok _ _ _ _ _ Hb). cbv zeta. rewrite !(proj2 (Z.eqb_neq _ _)) by done. cbn [orb].
  rewrite (bind_ok _ _ _ _ _ Hs). assert (Nat.eqb r a || Nat.eqb r b = true) as -> by (apply orb_true_iff; rewrite !Nat.eqb_eq; tauto).
  unfold mbind at 1, M_bind at 1, succeeds. by rewrite (bind_ok _ _ _ _ _ Hg).
Qed.
End Thms.

(** * Witnesses *)

#[local] Existing Instance plenty.

Definition ex_words (n : Z) : list Z := zrep n (2 ^ 64 - 1).
(** The numbers -(2^1024 - 1) and 2^960 - 1. *)
Definition ex_numbers : bn_store := mkStore [mkBN 16 16 true BN_FLG_MALLOCED; mkBN 15 16 false BN_FLG_MALLOCED] [ex_words 16; ex_words 15 ++ [7]] 0%nat.
Definition ex_ctx : ctx_store := new_ctx ex_numbers.
Lemma ex_shows s x n d l :
  nums s !! x = Some n -> arrays s !! x = Some d ->
  (zlen d =? dmax n) && (0 <=? width n) && (width n <=? dmax n) && (dmax n <=? max_words) && forallb (fun w => (0 <=? w) && (w <? BASE)) d = true ->
  width n = zlen l -> ztake (zlen l) d = l -> shows s x (neg n) l.
Proof.
  intros Hn Hd Hwf Hw Hl. exists n, d. rewrite !andb_true_iff, Z.eqb_eq, !Z.leb_le in Hwf. destruct Hwf as ((((? & ?) & ?) & ?) & Hdig). split; [|by split_and!]. split; [done|]. split; [done|]. unfold well_formed. do 3 (split; [lia|]).
  apply List.Forall_forall. intros w Hin. pose proof (proj1 (List.forallb_forall _ _) Hdig w Hin) as [H3%Z.leb_le H4%Z.ltb_lt]%andb_prop. done.
Qed.
Lemma ex_shows_0 : shows (store ex_ctx) 0%nat true (ex_words 16).
Proof. by apply (ex_shows _ _ (mkBN 16 16 true BN_FLG_MALLOCED) (ex_words 16)). Qed.
Lemma ex_shows_1 : shows (store ex_ctx) 1%nat false (ex_words 15).
Proof. by apply (ex_shows _ _ (mkBN 15 16 false BN_FLG_MALLOCED) (ex_words 15 ++ [7])). Qed.
Lemma ex_memory : ~ out_of_memory 408.
Proof. intros (i & n & Hn & H). cbn in H. apply Z.leb_gt in H. lia. Qed.
Lemma ex_live x : (x < 2)%nat -> live ex_ctx [] x.
Proof. intros Hx. split; [done|]. unfold unused. cbn. set_solver. Qed.

Lemma BN_CTX_refines_frames_witness :
  NoDup (concat (open_frames (mkFrames [[]] 0 false))) /\
  wp (run_call Get) (call_post ex_ctx [] (mkFrames [[]] 0 false) Get) (fun _ => False) ex_ctx.
Proof.
  apply BN_CTX_refines_frames; [|done]. exists []. split; [by apply new_ctx_ok|done].
Defined.

Lemma BN_CTX_balanced_calls_return_witness :
  wp BN_CTX_new (fun s _ =>
    wp (run_calls [Start; Get; Start; Get; Get; End; Get; End]) (fun os s' => exists bl A, represents s' bl A /\ acts [Start; Get; Start; Get; Get; End; Get; End] os (mkFrames [[]] 0 false) A) (fun _ => False) s)
    (fun _ => out_of_memory 88) ex_numbers.
Proof. by apply (BN_CTX_balanced_calls_return [Start; Get; Start; Get; Get; End; Get; End] ex_numbers). Defined.

Lemma BN_mul_exact_witness :
  wp (BN_mul 0%nat 0%nat 1%nat)
    (fun _ s' => exists bl', restored ex_ctx [] [] [0%nat] s' bl' /\ holds (store s') 0%nat (signed true (val (ex_words 16)) * signed false (val (ex_words 15))))
    (fun s' => exists bl', restored ex_ctx [] [] [0%nat] s' bl' /\ refused ex_ctx [] (16 + 15)) ex_ctx.
Proof.
  apply (BN_mul_exact ex_ctx [] [] 0%nat 0%nat 1%nat _ _ 16 15).
  - by apply new_ctx_ok.
  - done.
  - done.
  - apply ex_live. lia.
  - apply ex_live. lia.
  - apply ex_live. lia.
  - exists true, (ex_words 16). split; [apply ex_shows_0|by split_and!].
  - exists false, (ex_words 15). split; [apply ex_shows_1|by split_and!].
  - eapply roomy_shows, ex_shows_0.
  - intros _. split; [done|apply ex_memory].
Defined.

Lemma BN_sqr_exact_witness :
  wp (BN_sqr 1%nat 0%nat)
    (fun _ s' => exists bl', restored ex_ctx [] [] [1%nat] s' bl' /\ holds (store s') 1%nat (signed true (val (ex_words 16)) * signed true (val (ex_words 16))))
    (fun s' => exists bl', restored ex_ctx [] [] [1%nat] s' bl' /\ refused ex_ctx [] (2 * 16)) ex_ctx.
Proof.
  apply (BN_sqr_exact ex_ctx [] [] 1%nat 0%nat _ 16).
  - by apply new_ctx_ok.
  - done.
  - done.
  - apply ex_live. lia.
  - apply ex_live. lia.
  - exists true, (ex_words 16). split; [apply ex_shows_0|by split_and!].
  - eapply roomy_shows, ex_shows_1.
Defined.

(** A context that has refused a number. *)
Definition ex_full : ctx_store := mkCtxStore (mkCtx BN_POOL_init BN_STACK_init 0 0 true) [] ex_numbers.
Lemma BN_mul_null_temporary_witness : BN_mul 0%nat 0%nat 1%nat ex_full = Stuck.
Proof. by apply (BN_mul_null_temporary ex_full 0%nat 0%nat 1%nat (mkBN 16 16 true BN_FLG_MALLOCED) (mkBN 15 16 false BN_FLG_MALLOCED)); [..|left|]. Defined.
