(* ===== verification/BnDiv.v ===== *)
(** crypto/fipsmodule/bn/div.c: division, by numbers and by words, and the modular sums, products
    and shifts. The configuration is that of [BnWords]: without assembly, with 128-bit
    integers that can be divided. *)
From S2P Require Import Prelude Mem Cells Ct BnWords Bn BnShift BnMul BnCtx.

(** The quotient and the remainder of the two words [n0 n1] by [d0]. *)
Definition bn_div_rem_words (n0 n1 d0 : Z) : Z * Z :=
  let n := Z.lor (u128 (Z.shiftl n0 BN_BITS2)) n1 in
  let q := u64 (n / d0) in
  (q, u64 (n1 - u64 (q * d0))).

Section Div.
Context `{alloc : Allocator}.

(** * BN_div *)

(** [for (;;)]: the quotient of the two leading words goes down until the third agrees. *)
Definition refine_quotient (wnump : wptr) (d0 d1 : Z) '((q, rm, t2) : Z * Z * Z) : M words (Z * Z * Z + Z) :=
  w ← rd wnump (-2);
  if t2 <=? Z.lor (u128 (Z.shiftl rm BN_BITS2)) w then mret (inr q) else
  let q := u64 (q - 1) in
  let rm := u64 (rm + d0) in
  if rm <? d0 then mret (inr q) else
  mret (inl (q, rm, u128 (t2 - d1))).

(** One word of the quotient, to [resp]; [wnum] is decremented. *)
Definition div_turn (wnum wnump resp sdiv tmp : wptr) (div_n d0 d1 : Z) : M words unit :=
  n0 ← rd wnump 0;
  n1 ← rd wnump (-1);
  q ← (if n0 =? d0 then mret BN_MASK2 else
       let '(q, rm) := bn_div_rem_words n0 n1 d0 in
       iter 2 (refine_quotient wnump d0 d1) (q, rm, u128 (d1 * q)));
  l0 ← bn_mul_words tmp sdiv div_n q;
  wr tmp div_n l0;;
  let wnum := wadd wnum (-1) in
  borrow ← bn_sub_words wnum wnum tmp (div_n + 1);
  q ← (if negb (borrow =? 0) then
         carry ← bn_add_words wnum wnum sdiv div_n;
         (if negb (carry =? 0) then w ← rd wnump 0; wr wnump 0 (u64 (w + 1)) else mret tt);;
         mret (u64 (q - 1))
       else mret q);
  wr resp 0 q.

(** After [i] turns the pointers are [i] words below where they were. *)
Definition div_loop (res snum sdiv tmp : bn) (num_n div_n d0 d1 : Z) : M words unit :=
  let loop := num_n - div_n in
  for_ 0 (Z.to_nat (loop - 1)) (fun i _ =>
    div_turn (wadd (bn_d snum) (loop - i)) (wadd (bn_d snum) (num_n - 1 - i)) (wadd (bn_d res) (loop - 2 - i))
      (bn_d sdiv) (bn_d tmp) div_n d0 d1) tt.

(** The divisor with its highest bit set, to [sdiv], and the numerator shifted as far, with zeros
    in front, to [snum]. Returns [norm_shift]. *)
Definition div_normalise (snum sdiv numerator divisor : bn) : M bn_store Z :=
  bits ← BN_num_bits divisor;
  let norm_shift := BN_BITS2 - bits mod BN_BITS2 in
  BN_lshift sdiv divisor norm_shift;;
  bn_set_minimal_width sdiv;; bn_set_neg sdiv false;;
  let norm_shift := norm_shift + BN_BITS2 in
  BN_lshift snum numerator norm_shift;;
  bn_set_minimal_width snum;; bn_set_neg snum false;;
  x ← bn_get snum; y ← bn_get sdiv;
  (if width x <=? width y + 1 then
     bn_wexpand snum (width y + 2);;
     on_words (for_ (width x) (Z.to_nat (width y + 2 - width x)) (fun i _ => wr (bn_d snum) i 0) tt);;
     bn_set_width snum (width y + 2)
   else
     bn_wexpand snum (width x + 1);;
     on_words (wr (bn_d snum) (width x) 0);;
     bn_set_width snum (width x + 1));;
  mret norm_shift.

(** The words of the quotient, to [res], which leaves the remainder in [snum]. *)
Definition div_words (res tmp snum sdiv numerator divisor : bn) : M bn_store unit :=
  y ← bn_get sdiv; x ← bn_get snum;
  let div_n := width y in
  let num_n := width x in
  let loop := num_n - div_n in
  d0 ← on_words (rd (bn_d sdiv) (div_n - 1));
  d1 ← (if div_n =? 1 then mret 0 else on_words (rd (bn_d sdiv) (div_n - 2)));
  u ← bn_get numerator; v ← bn_get divisor;
  bn_set_neg res (xorb (neg u) (neg v));;
  bn_wexpand res (loop + 1);;
  bn_set_width res (loop - 1);;
  bn_wexpand tmp (div_n + 1);;
  r ← bn_get res;
  (if width r =? 0 then bn_set_neg res false else mret tt);;
  on_words (div_loop res snum sdiv tmp num_n div_n d0 d1).

Definition div_remainder (rem : option bn) (snum numerator : bn) (norm_shift : Z) : M bn_store unit :=
  match rem with
  | None => mret tt
  | Some rem =>
      u ← bn_get numerator;
      BN_rshift rem snum norm_shift;;
      z ← BN_is_zero rem;
      if (z : bool) then mret tt else bn_set_neg rem (neg u)
  end.

Definition div_numbers (res : bn) (rem : option bn) (numerator divisor tmp snum sdiv : bn) : M bn_store unit :=
  norm_shift ← div_normalise snum sdiv numerator divisor;
  div_words res tmp snum sdiv numerator divisor;;
  bn_set_minimal_width snum;;
  div_remainder rem snum numerator norm_shift;;
  bn_set_minimal_width res.

(** Whether the highest of [w] words is zero. *)
Definition zero_padded (x : bn) (w : Z) : M bn_store bool :=
  if 0 <? w then d ← on_words (rd (bn_d x) (w - 1)); mret (d =? 0) else mret false.

Definition BN_div (quotient rem : option bn) (numerator divisor : bn) : M ctx_store unit :=
  numerator_width ← on_store (bn_minimal_width numerator);
  divisor_width ← on_store (bn_minimal_width divisor);
  padded ← on_store (zero_padded numerator numerator_width);
  padded ← (if (padded : bool) then mret true else on_store (zero_padded divisor divisor_width));
  if (padded : bool) then fail else
  z ← on_store (BN_is_zero divisor);
  if (z : bool) then fail else
  BN_CTX_start;;
  ret ← succeeds (
    tmp ← BN_CTX_get;
    snum ← BN_CTX_get;
    sdiv ← BN_CTX_get;
    res ← (match quotient with None => BN_CTX_get | Some q => mret (Some q) end);
    match sdiv, res with
    | Some sdiv, Some res =>
        tmp ← deref tmp; snum ← deref snum;
        on_store (div_numbers res rem numerator divisor tmp snum sdiv)
    | _, _ => fail
    end);
  BN_CTX_end;;
  require ret.

(** * Remainders that are not negative *)

Definition BN_mod (rem numerator divisor : bn) : M ctx_store unit := BN_div None (Some rem) numerator divisor.
Definition BN_nnmod (r m d : bn) : M ctx_store unit :=
  BN_mod r m d;;
  x ← bn_get_ctx r;
  if negb (neg x) then mret tt else
  y ← bn_get_ctx d;
  on_store ((if neg y then BN_sub else BN_add) r r d).

(** * Modular sums and differences *)

Definition bn_mod_sub_words (r a b m tmp : wptr) (num : Z) : M words unit :=
  borrow ← bn_sub_words r a b num;
  _ ← bn_add_words tmp r m num;
  bn_select_words r (u64 (0 - borrow)) tmp r num.
Definition bn_mod_add_words (r a b m tmp : wptr) (num : Z) : M words unit :=
  carry ← bn_add_words tmp a b num;
  borrow ← bn_sub_words r tmp m num;
  let carry := u64 (carry - borrow) in
  assert_ ((carry =? 0) || (carry =? BN_MASK2));;
  bn_select_words r carry tmp r num.

(** NULL is [None]. *)
Definition bn_scratch_space_from_ctx (w : Z) : M ctx_store (option bn) :=
  ret ← BN_CTX_get;
  match ret with
  | None => mret None
  | Some x =>
      ok ← succeeds (on_store (bn_wexpand x w));
      if (ok : bool) then on_store (bn_set_neg x false;; bn_set_width x w);; mret (Some x) else mret None
  end.
Definition bn_resized_from_ctx (x : bn) (w : Z) : M ctx_store (option bn) :=
  n ← bn_get_ctx x;
  if w <=? width n then
    fits ← on_store (bn_fits_in_words x w); assert_ fits;; mret (Some x)
  else
    ret ← bn_scratch_space_from_ctx w;
    match ret with
    | None => mret None
    | Some y =>
        ok ← succeeds (on_store (BN_copy y x;; bn_resize_words y w));
        mret (if (ok : bool) then Some y else None)
    end.

(** The common part of [bn_mod_add_quick_ctx] and [bn_mod_sub_quick_ctx], which differ in
    the computation on words. *)
Definition mod_quick_ctx (op : wptr -> wptr -> wptr -> wptr -> wptr -> Z -> M words unit) (r a b m : bn) : M ctx_store unit :=
  BN_CTX_start;;
  ok ← succeeds (
    x ← bn_get_ctx m;
    a ← bn_resized_from_ctx a (width x);
    b ← bn_resized_from_ctx b (width x);
    tmp ← bn_scratch_space_from_ctx (width x);
    match a, b, tmp with
    | Some a, Some b, Some tmp =>
        on_store (
          bn_wexpand r (width x);;
          on_words (op (bn_d r) (bn_d a) (bn_d b) (bn_d m) (bn_d tmp) (width x));;
          bn_set_width r (width x))
    | _, _, _ => fail
    end);
  BN_CTX_end;;
  require ok.
Definition bn_mod_add_quick_ctx : bn -> bn -> bn -> bn -> M ctx_store unit := mod_quick_ctx bn_mod_add_words.
Definition bn_mod_sub_quick_ctx : bn -> bn -> bn -> bn -> M ctx_store unit := mod_quick_ctx bn_mod_sub_words.

(** A context for the time of a call; its numbers go with it ([BN_CTX_free]). *)
Definition with_ctx {A} (m : M ctx_store A) : M bn_store A := fun s =>
  let drop t := mkStore (take (length (nums s)) (nums t)) (take (length (arrays s)) (arrays t)) (bn_heap t) in
  match BN_CTX_new s with
  | Ok c _ => match m c with Ok a t => Ok a (drop (store t)) | Fail t => Fail (drop (store t)) | Stuck => Stuck end
  | Fail s => Fail s
  | Stuck => Stuck
  end.
Definition BN_mod_add_quick (r a b m : bn) : M bn_store unit := with_ctx (bn_mod_add_quick_ctx r a b m).
Definition BN_mod_sub_quick (r a b m : bn) : M bn_store unit := with_ctx (bn_mod_sub_quick_ctx r a b m).

Definition BN_mod_add (r a b m : bn) : M ctx_store unit := on_store (BN_add r a b);; BN_nnmod r r m.
Definition BN_mod_sub (r a b m : bn) : M ctx_store unit := on_store (BN_sub r a b);; BN_nnmod r r m.

(** * Modular products and shifts *)

Definition BN_mod_mul (r a b m : bn) : M ctx_store unit :=
  BN_CTX_start;;
  ret ← succeeds (
    t ← BN_CTX_get;
    match t with
    | None => fail
    | Some t => (if Nat.eqb a b then BN_sqr t a else BN_mul t a b);; BN_nnmod r t m
    end);
  BN_CTX_end;;
  require ret.
Definition BN_mod_sqr (r a m : bn) : M ctx_store unit := BN_sqr r a;; BN_mod r r m.

Definition bn_mod_lshift1_quick_ctx (r a m : bn) : M ctx_store unit := bn_mod_add_quick_ctx r a a m.
Definition bn_mod_lshift_quick_ctx (r a : bn) (n : Z) (m : bn) : M ctx_store unit :=
  on_store (BN_copy r a);;
  for_ 0 (Z.to_nat n) (fun _ _ => bn_mod_lshift1_quick_ctx r r m) tt.
Definition BN_mod_lshift_quick (r a : bn) (n : Z) (m : bn) : M bn_store unit := with_ctx (bn_mod_lshift_quick_ctx r a n m).
Definition BN_mod_lshift1_quick (r a m : bn) : M bn_store unit := with_ctx (bn_mod_lshift1_quick_ctx r a m).

Definition BN_mod_lshift (r a : bn) (n : Z) (m : bn) : M ctx_store unit :=
  BN_nnmod r a m;;
  x ← bn_get_ctx m;
  abs_m ← (if neg x then on_store (abs_m ← BN_dup m; bn_set_neg abs_m false;; mret abs_m) else mret m);
  bn_mod_lshift_quick_ctx r r n abs_m.
Definition BN_mod_lshift1 (r a m : bn) : M ctx_store unit := on_store (BN_lshift1 r a);; BN_nnmod r r m.

(** * Words and powers of two *)

(** An error is the word of all ones. *)
Definition BN_div_word (a : bn) (w : Z) : M bn_store Z :=
  if w =? 0 then mret BN_MASK2 else
  x ← bn_get a;
  if width x =? 0 then mret 0 else
  let j := BN_BITS2 - BN_num_bits_word w in
  let w := u64 (Z.shiftl w j) in
  ok ← succeeds (BN_lshift a a j);
  if negb ok then mret BN_MASK2 else
  x ← bn_get a;
  ret ← on_words (for_ 0 (Z.to_nat (width x)) (fun k ret =>
    let i := width x - 1 - k in
    l ← rd (bn_d a) i;
    let '(d, _) := bn_div_rem_words ret l w in
    wr (bn_d a) i d;;
    mret (u64 (l - u64 (d * w)))) 0);
  bn_set_minimal_width a;;
  mret (Z.shiftr ret j).

Definition BN_mod_word (a : bn) (w : Z) : M bn_store Z :=
  if w =? 0 then mret BN_MASK2 else
  x ← bn_get a;
  ret ← on_words (for_ 0 (Z.to_nat (width x)) (fun k ret =>
    d ← rd (bn_d a) (width x - 1 - k);
    mret (Z.lor (u128 (Z.shiftl ret BN_BITS2)) d mod w)) 0);
  mret (u64 ret).

(** [p[i] &= mask] *)
Definition wand (p : wptr) (i mask : Z) : M words unit := w ← rd p i; wr p i (Z.land w mask).

Definition BN_mod_pow2 (r a : bn) (e : Z) : M bn_store unit :=
  x ← bn_get a;
  if (e =? 0) || (width x =? 0) then BN_zero r else
  let num_words := 1 + (e - 1) / BN_BITS2 in
  if width x <? num_words then BN_copy r a else
  bn_wexpand r num_words;;
  ws ← on_words (wread (bn_d a) num_words);
  on_words (wwrite (bn_d r) ws);;
  let top_word_exponent := e mod 64 in
  (if negb (top_word_exponent =? 0) then on_words (wand (bn_d r) (num_words - 1) (u64 (u64 (Z.shiftl 1 top_word_exponent) - 1))) else mret tt);;
  x ← bn_get a;
  bn_set_neg r (neg x);;
  bn_set_width r num_words;;
  bn_set_minimal_width r.

(** [2^e - |r|] less one: the words of [r] turned round. *)
Definition complement_pow2 (r : bn) (e : Z) : M bn_store unit :=
  x ← bn_get r;
  let num_words := 1 + (e - 1) / BN_BITS2 in
  bn_wexpand r num_words;;
  on_words (wzero (wadd (bn_d r) (width x)) (num_words - width x));;
  bn_set_neg r false;;
  bn_set_width r num_words;;
  on_words (for_ 0 (Z.to_nat num_words) (fun i _ => w ← rd (bn_d r) i; wr (bn_d r) i (u64 (Z.lnot w))) tt);;
  let top_word_exponent := e mod BN_BITS2 in
  (if negb (top_word_exponent =? 0) then on_words (wand (bn_d r) (num_words - 1) (u64 (u64 (Z.shiftl 1 top_word_exponent) - 1))) else mret tt);;
  bn_set_minimal_width r.

Definition BN_nnmod_pow2 (r a : bn) (e : Z) : M bn_store unit :=
  BN_mod_pow2 r a e;;
  z ← BN_is_zero r;
  x ← bn_get r;
  if z || negb (neg x) then mret tt else
  complement_pow2 r e;;
  (* [BN_value_one()] *)
  ok ← with_static 1 (fun one => succeeds (BN_add r r one));
  require ok.
End Div.
