(* ===== verification/BnFlags.v ===== *)
(** What every operation of the bignums leaves alone, whatever its arguments and however it
    ends: the flags of the numbers, which say who owns their words. *)
From S2P Require Import Prelude Mem Der Cells Ct BnWords Bn BnShift BnBytes BnMul BnCtx BnDiv.

(** * Relations that a computation keeps *)

(** If [m] returns, with success or not, the states before and after are related. *)
Definition always {S A} (R : S -> S -> Prop) (m : M S A) : Prop :=
  forall s, match m s with Ok _ s' | Fail s' => R s s' | Stuck => True end.
#[global] Typeclasses Opaque always.

Lemma wp_with {S A} (R : S -> S -> Prop) (m : M S A) Q E s :
  always R m -> wp m Q E s -> wp m (fun a s' => Q a s' /\ R s s') (fun s' => E s' /\ R s s') s.
Proof. intros HR. specialize (HR s). unfold wp. by destruct (m s). Qed.

Create HintDb always.

Section Always.
Context {S : Type} (R : S -> S -> Prop) `{!PreOrder R}.

Lemma always_ret {A} (a : A) : always R (mret a).
Proof. intros s. cbn. reflexivity. Qed.
Lemma always_bind {A B} (m : M S A) (k : A -> M S B) : always R m -> (forall a, always R (k a)) -> always R (m ≫= k).
Proof.
  intros Hm Hk s. specialize (Hm s). unfold mbind, M_bind. destruct (m s) as [a s'|s'|]; [|done..]. specialize (Hk a s'). destruct (k a s'); [by etransitivity..|done].
Qed.
Lemma always_get : always R get.
Proof. intros s. cbn. reflexivity. Qed.
Lemma always_fail {A} : always R (@fail S A).
Proof. intros s. cbn. reflexivity. Qed.
Lemma always_require b : always R (require b).
Proof. intros s. destruct b; cbn; reflexivity. Qed.
Lemma always_assert b : always R (assert_ b).
Proof. intros s. destruct b; cbn; reflexivity || done. Qed.
Lemma always_deref {A} (o : option A) : always R (deref o).
Proof. intros s. destruct o; cbn; reflexivity || done. Qed.
Lemma always_succeeds {A} (m : M S A) : always R m -> always R (succeeds m).
Proof. intros Hm s. specialize (Hm s). unfold succeeds. by destruct (m s). Qed.
Lemma always_for {A} (body : Z -> A -> M S A) i n x : (forall i x, always R (body i x)) -> always R (for_ i n body x).
Proof. intros Hb. revert i x. induction n as [|n IH]; intros i x; cbn [for_]; [apply always_ret|]. apply always_bind; [apply Hb|]. intros a. apply IH. Qed.
Lemma always_iter {A B} (body : A -> M S (A + B)) n x : (forall x, always R (body x)) -> always R (iter n body x).
Proof.
  intros Hb. revert x. induction n as [|n IH]; intros x; cbn [iter]; [done|]. apply always_bind; [apply Hb|]. intros [y|b]; [apply IH|apply always_ret].
Qed.
End Always.
#[export] Hint Resolve always_ret always_bind always_get always_fail always_require always_assert always_deref always_succeeds always_for always_iter : always.

(** Following the structure of a computation; known ones are in the database. *)
Ltac always :=
  repeat first
    [ progress intros
    | solve [eauto 2 with always typeclass_instances]
    | match goal with
      | |- always _ (_ ≫= _) => apply always_bind
      | |- always _ (succeeds _) => apply always_succeeds
      | |- always _ (for_ _ _ _ _) => apply always_for
      | |- always _ (iter _ _ _) => apply always_iter
      | |- always _ (if ?b then _ else _) => destruct b
      | |- always _ (let '(_, _) := ?p in _) => destruct p
      | |- always _ (match ?o with _ => _ end) => destruct o
      end
    | progress cbv beta zeta ].

(** * The flags *)

(** Numbers may have been added, none of them with static words. *)
Definition flags_kept (s s' : bn_store) : Prop :=
  exists more, flags <$> nums s' = (flags <$> nums s) ++ more /\ Forall (fun f => Z.land f BN_FLG_STATIC_DATA = 0) more.
#[global] Instance flags_kept_preorder : PreOrder flags_kept.
Proof.
  split.
  - intros s. exists []. by rewrite app_nil_r.
  - intros s1 s2 s3 (m1 & E1 & H1) (m2 & E2 & H2). exists (m1 ++ m2). by rewrite E2, E1, app_assoc, Forall_app.
Qed.

Lemma flags_same s s' : flags <$> nums s' = flags <$> nums s -> flags_kept s s'.
Proof. intros E. exists []. by rewrite app_nil_r. Qed.
Lemma flags_of s s' x n' : flags_kept s s' -> nums s' !! x = Some n' -> Z.land (flags n') BN_FLG_STATIC_DATA <> 0 -> exists n, nums s !! x = Some n /\ flags n = flags n'.
Proof.
  intros (more & E & Hm) Hx Hf. assert (H : (flags <$> nums s') !! x = Some (flags n')) by (by rewrite list_lookup_fmap, Hx). rewrite E in H. apply lookup_app_Some in H as [H|[_ H]].
  - rewrite list_lookup_fmap in H. destruct (nums s !! x) as [n|] eqn:En; [|done]. injection H as H. by exists n.
  - destruct Hf. by apply (Forall_lookup_1 _ _ _ _ Hm H).
Qed.
Lemma flags_kept_on s s' x n : flags_kept s s' -> nums s !! x = Some n -> exists n', nums s' !! x = Some n' /\ flags n' = flags n.
Proof.
  intros (more & E & _) Hx. assert (H : (flags <$> nums s') !! x = Some (flags n)).
  { rewrite E, lookup_app_l by (rewrite length_fmap; by eapply lookup_lt_Some). by rewrite list_lookup_fmap, Hx. }
  rewrite list_lookup_fmap in H. destruct (nums s' !! x) as [n'|]; [|done]. injection H as H. by exists n'.
Qed.

Abbreviation always_flags := (always flags_kept) (only parsing).

Lemma always_zoom {S T A} (g : S -> T) (p : T -> S -> S) (R : S -> S -> Prop) (m : M T A) : (forall s t, R s (p t s)) -> always R (zoom g p m).
Proof. intros H s. unfold zoom. destruct (m (g s)); [apply H..|done]. Qed.

Section Flags.
Context `{alloc : Allocator}.

Lemma flags_on_words {A} (m : M words A) : always_flags (on_words m).
Proof. apply always_zoom. intros. by apply flags_same. Qed.
Lemma flags_on_heap {A} (m : M heap A) : always_flags (on_heap m).
Proof. apply always_zoom. intros. by apply flags_same. Qed.
Lemma flags_get x : always_flags (bn_get x).
Proof. unfold bn_get. always. Qed.

(** Replacing a number by one with the same flags. *)
Lemma flags_insert s x n n' arrs h : nums s !! x = Some n -> flags n' = flags n -> flags_kept s (mkStore (<[x := n']> (nums s)) arrs h).
Proof.
  intros Hx Hf. apply flags_same. cbn [nums]. rewrite list_fmap_insert, Hf. apply list_insert_id. by rewrite list_lookup_fmap, Hx.
Qed.
Lemma flags_from_get {A} x (k : BIGNUM -> M bn_store A) s :
  (forall n, nums s !! x = Some n -> match k n s with Ok _ s' | Fail s' => flags_kept s s' | Stuck => True end) ->
  match (n ← bn_get x; k n) s with Ok _ s' | Fail s' => flags_kept s s' | Stuck => True end.
Proof. intros H. unfold bn_get, mbind, M_bind, get, deref. destruct (nums s !! x) as [n|] eqn:E; [|done]. by apply H. Qed.
Lemma flags_put s x n n' : nums s !! x = Some n -> flags n' = flags n -> match bn_put x n' s with Ok _ s' | Fail s' => flags_kept s s' | Stuck => True end.
Proof. intros Hx Hf. unfold bn_put. apply flags_from_get. intros n0 Hn0. cbn. by apply (flags_insert _ _ n). Qed.
Lemma flags_set_width x w : always_flags (bn_set_width x w).
Proof. intros s. unfold bn_set_width. apply flags_from_get. intros n Hn. by apply (flags_put _ _ n). Qed.
Lemma flags_set_neg x b : always_flags (bn_set_neg x b).
Proof. intros s. unfold bn_set_neg. apply flags_from_get. intros n Hn. by apply (flags_put _ _ n). Qed.
Lemma flags_alloc n d : Z.land (flags n) BN_FLG_STATIC_DATA = 0 -> always_flags (bn_alloc n d).
Proof. intros Hf s. exists [flags n]. cbn. rewrite fmap_app. split; [done|by constructor]. Qed.
#[local] Hint Resolve flags_on_words flags_on_heap flags_get flags_set_width flags_set_neg : always.

(** A part that leaves the numbers as they are, before a step that looks at one. *)
Lemma flags_then {A B} (m : M bn_store A) (k : A -> M bn_store B) s :
  (forall s', match m s with Ok _ t | Fail t => t = s' -> nums s' = nums s | Stuck => True end) ->
  (forall a s', nums s' = nums s -> match k a s' with Ok _ t | Fail t => flags_kept s' t | Stuck => True end) ->
  match (m ≫= k) s with Ok _ t | Fail t => flags_kept s t | Stuck => True end.
Proof.
  intros Hm Hk. unfold mbind, M_bind. destruct (m s) as [a t|t|]; [| |done]; specialize (Hm t eq_refl).
  - specialize (Hk a t Hm). destruct (k a t) as [b u|u|]; [| |done]; destruct Hk as (more & E & H); exists more; by rewrite <- Hm.
  - by apply flags_same; rewrite Hm.
Qed.

Lemma flags_wexpand x n : always_flags (bn_wexpand x n).
Proof.
  intros s. unfold bn_wexpand. apply flags_from_get. intros b Hb. destruct (n <=? dmax b); [by apply flags_same|]. destruct (_ <? n); [by apply flags_same|]. destruct (negb _); [by apply flags_same|].
  apply flags_then; [intros s'; unfold on_heap, zoom; destruct (malloc_cells _ _) as [?|?|]; try done; by intros <-|]. intros [a|] s1 E1; [|by apply flags_same].
  apply flags_then; [intros s'; unfold on_words, zoom; destruct (wread _ _ _) as [?|?|]; try done; by intros <-|]. intros old s2 E2.
  unfold deref. destruct (zput a 0 old) as [a'|]; [|done]. cbn. apply (flags_insert _ _ b); [by rewrite E2, E1|done].
Qed.
End Flags.
#[export] Hint Resolve flags_on_words flags_on_heap flags_get flags_set_width flags_set_neg flags_alloc flags_wexpand : always.

(** ** bn.c, cmp.c, add.c, shift.c *)

Section Operations.
Context `{alloc : Allocator}.

Lemma flags_minimal_width x : always_flags (bn_minimal_width x).
Proof. unfold bn_minimal_width. always. Qed.
#[local] Hint Resolve flags_minimal_width : always.
Lemma flags_set_minimal_width x : always_flags (bn_set_minimal_width x).
Proof. unfold bn_set_minimal_width. always. Qed.
#[local] Hint Resolve flags_set_minimal_width : always.
Lemma flags_zero x : always_flags (BN_zero x).
Proof. unfold BN_zero. always. Qed.
Lemma flags_is_zero x : always_flags (BN_is_zero x).
Proof. unfold BN_is_zero. always. Qed.
Lemma flags_num_bits x : always_flags (BN_num_bits x).
Proof. unfold BN_num_bits. always. Qed.
#[local] Hint Resolve flags_zero flags_is_zero flags_num_bits : always.
Lemma flags_set_word x w : always_flags (BN_set_word x w).
Proof. unfold BN_set_word. always. Qed.
Lemma flags_copy dest src : always_flags (BN_copy dest src).
Proof. unfold BN_copy. always. Qed.
Lemma flags_set_negative x b : always_flags (BN_set_negative x b).
Proof. unfold BN_set_negative. always. Qed.
Lemma flags_resize x n : always_flags (bn_resize_words x n).
Proof. unfold bn_resize_words, bn_fits_in_words. always. Qed.
Lemma flags_ucmp a b : always_flags (BN_ucmp a b).
Proof. unfold BN_ucmp. always. Qed.
Lemma flags_usub r a b : always_flags (BN_usub r a b).
Proof. unfold BN_usub, usub_borrow. always. Qed.
Lemma flags_uadd r a b : always_flags (BN_uadd r a b).
Proof. unfold BN_uadd, bn_uadd_fixed. always. Qed.
#[local] Hint Resolve flags_set_word flags_copy flags_set_negative flags_resize flags_ucmp flags_usub flags_uadd : always.
Lemma flags_sub_signed r a b : always_flags (sub_signed r a b).
Proof. unfold sub_signed. always. Qed.
#[local] Hint Resolve flags_sub_signed : always.
Lemma flags_add r a b : always_flags (BN_add r a b).
Proof. unfold BN_add. always. Qed.
Lemma flags_sub r a b : always_flags (BN_sub r a b).
Proof. unfold BN_sub. always. Qed.
Lemma flags_add_word_pos x w : always_flags (add_word_pos x w).
Proof. unfold add_word_pos, add_word_turn. always. Qed.
Lemma flags_sub_word_pos x w : always_flags (sub_word_pos x w).
Proof. unfold sub_word_pos, sub_word_turn. always. Qed.
#[local] Hint Resolve flags_add_word_pos flags_sub_word_pos : always.
Lemma flags_add_word x w : always_flags (BN_add_word x w).
Proof. unfold BN_add_word. always. Qed.
Lemma flags_sub_word x w : always_flags (BN_sub_word x w).
Proof. unfold BN_sub_word. always. Qed.
Lemma flags_mul_word x w : always_flags (BN_mul_word x w).
Proof. unfold BN_mul_word. always. Qed.
Lemma flags_lshift r a n : always_flags (BN_lshift r a n).
Proof. unfold BN_lshift. always. Qed.
Lemma flags_lshift1 r a : always_flags (BN_lshift1 r a).
Proof. unfold BN_lshift1. always. Qed.
Lemma flags_rshift r a n : always_flags (BN_rshift r a n).
Proof. unfold BN_rshift. always. Qed.
Lemma flags_rshift1 r a : always_flags (BN_rshift1 r a).
Proof. unfold BN_rshift1. always. Qed.
Lemma flags_set_bit a n : always_flags (BN_set_bit a n).
Proof. unfold BN_set_bit. always. Qed.
Lemma flags_clear_bit a n : always_flags (BN_clear_bit a n).
Proof. unfold BN_clear_bit. always. Qed.
Lemma flags_mask_bits a n : always_flags (BN_mask_bits a n).
Proof. unfold BN_mask_bits. always. Qed.
End Operations.
(** Calling a specified operation, with what is known of the flags. *)
Ltac wp_flags H := eapply wp_mono; [eapply (wp_with flags_kept); [solve [always]|eapply H]| |]; cbv beta.

#[export] Hint Resolve flags_minimal_width flags_set_minimal_width flags_zero flags_is_zero flags_num_bits flags_set_word flags_copy flags_set_negative flags_resize flags_ucmp
  flags_usub flags_uadd flags_add flags_sub flags_add_word flags_sub_word flags_mul_word flags_lshift flags_lshift1 flags_rshift flags_rshift1 flags_set_bit flags_clear_bit flags_mask_bits : always.

(** ** ctx.c, mul.c *)

Definition ctx_flags_kept (s s' : ctx_store) : Prop := flags_kept (store s) (store s').
#[global] Instance ctx_flags_kept_preorder : PreOrder ctx_flags_kept.
Proof. split; [intros s; unfold ctx_flags_kept; reflexivity|]. intros s1 s2 s3. unfold ctx_flags_kept. by etransitivity. Qed.

Section Context.
Context `{alloc : Allocator}.

Lemma flags_on_store {A} (m : M bn_store A) : always_flags m -> always ctx_flags_kept (on_store m).
Proof. intros H s. unfold on_store, zoom. specialize (H (store s)). by destruct (m (store s)). Qed.
Lemma flags_get_ctx : always ctx_flags_kept get_ctx.
Proof. unfold get_ctx. always. Qed.
Lemma flags_modify (f : ctx_store -> ctx_store) : (forall s, store (f s) = store s) -> always ctx_flags_kept (modify f).
Proof. intros H s. cbn. unfold ctx_flags_kept. by rewrite H. Qed.
#[local] Hint Resolve flags_on_store flags_get_ctx : always.
#[local] Hint Extern 1 (always _ (bn_alloc _ _)) => (by apply flags_alloc) : always.
#[local] Hint Extern 3 (always _ (on_store _)) => (apply flags_on_store; solve [always]) : always.
#[local] Hint Extern 1 (always _ (modify _)) => (by apply flags_modify) : always.
Lemma flags_put_ctx c : always ctx_flags_kept (put_ctx c).
Proof. by apply flags_modify. Qed.
#[local] Hint Resolve flags_put_ctx : always.
Lemma flags_put_pool p : always ctx_flags_kept (put_pool p).
Proof. unfold put_pool. always. Qed.
Lemma flags_put_stack st : always ctx_flags_kept (put_stack st).
Proof. unfold put_stack. always. Qed.
Lemma flags_put_err e : always ctx_flags_kept (put_err e).
Proof. unfold put_err. always. Qed.
Lemma flags_put_used n b : always ctx_flags_kept (put_used n b).
Proof. unfold put_used. always. Qed.
Lemma flags_item_at p : always ctx_flags_kept (item_at p).
Proof. unfold item_at. always. Qed.
#[local] Hint Resolve flags_put_pool flags_put_stack flags_put_err flags_put_used flags_item_at : always.
Lemma flags_incr_err : always ctx_flags_kept incr_err.
Proof. unfold incr_err. always. Qed.
Lemma flags_set_next p q : always ctx_flags_kept (set_next p q).
Proof. unfold set_next. always. Qed.
Lemma flags_push i : always ctx_flags_kept (BN_STACK_push i).
Proof. unfold BN_STACK_push. always. Qed.
Lemma flags_pop : always ctx_flags_kept BN_STACK_pop.
Proof. unfold BN_STACK_pop. always. Qed.
#[local] Hint Resolve flags_incr_err flags_set_next flags_push flags_pop : always.
Lemma flags_pool_get : always ctx_flags_kept BN_POOL_get.
Proof. unfold BN_POOL_get. always. Qed.
Lemma flags_pool_release n : always ctx_flags_kept (BN_POOL_release n).
Proof. unfold BN_POOL_release. always. Qed.
#[local] Hint Resolve flags_pool_get flags_pool_release : always.
Lemma flags_CTX_start : always ctx_flags_kept BN_CTX_start.
Proof. unfold BN_CTX_start. always. Qed.
Lemma flags_CTX_get : always ctx_flags_kept BN_CTX_get.
Proof. unfold BN_CTX_get. always. Qed.
Lemma flags_CTX_end : always ctx_flags_kept BN_CTX_end.
Proof. unfold BN_CTX_end. always. Qed.
#[local] Hint Resolve flags_CTX_start flags_CTX_get flags_CTX_end : always.

Lemma flags_with_array {A} n (k : wptr -> M bn_store A) : (forall p, always_flags (k p)) -> always_flags (with_array n k).
Proof.
  intros Hk s. unfold with_array. specialize (Hk (length (arrays s), 0)). unfold mbind, M_bind, get, modify at 1.
  set (s1 := mkStore _ _ _). specialize (Hk s1). cbn [modify]. by destruct (k _ s1).
Qed.
#[local] Hint Resolve flags_with_array : always.
Lemma flags_sqr_words rr a tmp n : always_flags (sqr_words rr a tmp n).
Proof. unfold sqr_words. always. Qed.
Lemma flags_get_number x : always ctx_flags_kept (bn_get_ctx x).
Proof. unfold bn_get_ctx. always. Qed.
#[local] Hint Resolve flags_sqr_words flags_get_number : always.
Lemma flags_mul_words rr a b al bl : always ctx_flags_kept (mul_words rr a b al bl).
Proof. unfold mul_words. always. Qed.
#[local] Hint Resolve flags_mul_words : always.
Lemma flags_mul_impl r a b : always ctx_flags_kept (bn_mul_impl r a b).
Proof. unfold bn_mul_impl. always. Qed.
Lemma flags_sqr_fixed r a : always ctx_flags_kept (bn_sqr_fixed r a).
Proof. unfold bn_sqr_fixed. always. Qed.
#[local] Hint Resolve flags_mul_impl flags_sqr_fixed : always.
Lemma flags_mul r a b : always ctx_flags_kept (BN_mul r a b).
Proof. unfold BN_mul. always. Qed.
Lemma flags_mul_fixed r a b : always ctx_flags_kept (bn_mul_fixed r a b).
Proof. unfold bn_mul_fixed. always. Qed.
Lemma flags_sqr r a : always ctx_flags_kept (BN_sqr r a).
Proof. unfold BN_sqr. always. Qed.
#[local] Hint Resolve flags_mul flags_mul_fixed flags_sqr : always.

(** ** div.c *)

Lemma flags_div_numbers res rem u v tmp snum sdiv : always_flags (div_numbers res rem u v tmp snum sdiv).
Proof. unfold div_numbers, div_normalise, div_words, div_remainder. always. Qed.
#[local] Hint Resolve flags_div_numbers : always.
Lemma flags_div q r u v : always ctx_flags_kept (BN_div q r u v).
Proof. unfold BN_div, zero_padded. always. Qed.
#[local] Hint Resolve flags_div : always.
Lemma flags_nnmod r m d : always ctx_flags_kept (BN_nnmod r m d).
Proof. unfold BN_nnmod, BN_mod. always; apply flags_on_store; destruct (neg _); always. Qed.
#[local] Hint Resolve flags_nnmod : always.
Lemma flags_scratch w : always ctx_flags_kept (bn_scratch_space_from_ctx w).
Proof. unfold bn_scratch_space_from_ctx. always. Qed.
#[local] Hint Resolve flags_scratch : always.
Lemma flags_resized x w : always ctx_flags_kept (bn_resized_from_ctx x w).
Proof. unfold bn_resized_from_ctx, bn_fits_in_words. always. Qed.
#[local] Hint Resolve flags_resized : always.
Lemma flags_mod_quick op r a b m : always ctx_flags_kept (mod_quick_ctx op r a b m).
Proof. unfold mod_quick_ctx. always. Qed.
#[local] Hint Resolve flags_mod_quick : always.
Lemma flags_mod_add r a b m : always ctx_flags_kept (BN_mod_add r a b m).
Proof. unfold BN_mod_add. always. Qed.
Lemma flags_mod_sub r a b m : always ctx_flags_kept (BN_mod_sub r a b m).
Proof. unfold BN_mod_sub. always. Qed.
Lemma flags_mod_mul r a b m : always ctx_flags_kept (BN_mod_mul r a b m).
Proof. unfold BN_mod_mul. always. Qed.
Lemma flags_mod_sqr r a m : always ctx_flags_kept (BN_mod_sqr r a m).
Proof. unfold BN_mod_sqr, BN_mod. always. Qed.
Lemma flags_mod_lshift_quick r a n m : always ctx_flags_kept (bn_mod_lshift_quick_ctx r a n m).
Proof. unfold bn_mod_lshift_quick_ctx, bn_mod_lshift1_quick_ctx, bn_mod_add_quick_ctx. always. Qed.
#[local] Hint Resolve flags_mod_lshift_quick : always.
Lemma flags_dup src : always_flags (BN_dup src).
Proof. unfold BN_dup, BN_new. always. Qed.
#[local] Hint Resolve flags_dup : always.
Lemma flags_mod_lshift r a n m : always ctx_flags_kept (BN_mod_lshift r a n m).
Proof. unfold BN_mod_lshift. always. Qed.
Lemma flags_mod_lshift1 r a m : always ctx_flags_kept (BN_mod_lshift1 r a m).
Proof. unfold BN_mod_lshift1. always. Qed.

(** A static number of the time of a call is gone afterwards. *)
Lemma flags_with_static {A} w (k : bn -> M bn_store A) : (forall x, always_flags (k x)) -> (forall x s, match k x s with Fail _ => False | _ => True end) -> always_flags (with_static w k).
Proof.
  intros Hk Hf s. unfold with_static, mbind, M_bind, bn_alloc, modify. set (n := mkBN _ _ _ _). set (s1 := mkStore (nums s ++ [n]) _ _). specialize (Hk (length (nums s)) s1). specialize (Hf (length (nums s)) s1).
  destruct (k _ s1) as [a t|t|]; [|done..]. destruct Hk as (more & E & _). apply flags_same. cbn [nums]. rewrite fmap_take, E. unfold s1. cbn [nums].
  rewrite fmap_app, <- app_assoc. by rewrite take_app_length' by (by rewrite length_fmap).
Qed.
Lemma flags_div_word a w : always_flags (BN_div_word a w).
Proof. unfold BN_div_word. always. Qed.
Lemma flags_mod_word a w : always_flags (BN_mod_word a w).
Proof. unfold BN_mod_word. always. Qed.
Lemma flags_mod_pow2 r a e : always_flags (BN_mod_pow2 r a e).
Proof. unfold BN_mod_pow2. always. Qed.
Lemma flags_complement r e : always_flags (complement_pow2 r e).
Proof. unfold complement_pow2. always. Qed.
#[local] Hint Resolve flags_mod_pow2 flags_complement : always.
Lemma flags_nnmod_pow2 r a e : always_flags (BN_nnmod_pow2 r a e).
Proof.
  unfold BN_nnmod_pow2. always; (apply flags_with_static; [intros; always|]); intros x s; unfold succeeds; by destruct (BN_add _ _ _ s).
Qed.
End Context.
#[export] Hint Resolve flags_div_word flags_mod_word flags_mod_pow2 flags_complement flags_nnmod_pow2 flags_on_store flags_get_number flags_CTX_start flags_CTX_get flags_CTX_end flags_mul flags_sqr flags_mul_fixed flags_sqr_fixed flags_div_numbers flags_div flags_nnmod
  flags_scratch flags_resized flags_mod_quick flags_mod_lshift_quick flags_dup : always.
