(* ===== verification/BnDivFacts.v ===== *)
(** Facts about the words of [BnDiv]: a digit of the quotient from the leading words, one turn
    of the long division, and all of them. *)
From S2P Require Import Prelude Ct BnWords BnWordsFacts BnMulFacts Bn BnMul BnPartFacts BnKaratsuba BnDiv.

(** Steps taken together. *)
Lemma wp_group2 {S A B C} (a : M S A) (b : A -> M S B) (c : B -> M S C) Q E s :
  wp (x ← a; b x) (fun y s => wp (c y) Q E s) E s -> wp (x ← a; y ← b x; c y) Q E s.
Proof. unfold wp, mbind, M_bind. by destruct (a s) as [x s'| |]; [destruct (b x s')| |]. Qed.
Lemma wp_group3 {S A B C D} (a : M S A) (b : A -> M S B) (c : A -> B -> M S C) (d : C -> M S D) Q E s :
  wp (x ← a; y ← b x; c x y) (fun z s => wp (d z) Q E s) E s -> wp (x ← a; y ← b x; z ← c x y; d z) Q E s.
Proof. unfold wp, mbind, M_bind. destruct (a s) as [x s'| |]; [|done..]. destruct (b x s') as [y s''| |]; [|done..]. by destruct (c x y s''). Qed.

(** * A digit of the quotient *)

Lemma bn_div_rem_words_spec n0 n1 d0 :
  0 <= n0 < d0 -> word d0 -> word n1 -> bn_div_rem_words n0 n1 d0 = ((n0 * BASE + n1) / d0, (n0 * BASE + n1) mod d0).
Proof.
  unfold word. intros H0 Hd H1. unfold bn_div_rem_words. change BN_BITS2 with 64. rewrite (u128_id (Z.shiftl n0 64)) by (rewrite Z.shiftl_mul_pow2 by lia; change (2 ^ 64) with BASE; nia).
  rewrite lor_shiftl by lia. change (2 ^ 64) with BASE. set (N := n0 * BASE + n1). assert (HN : 0 <= N < BASE * d0) by (unfold N; nia).
  assert (Hq : 0 <= N / d0 < BASE) by (split; [apply Z.div_pos; lia|apply Z.div_lt_upper_bound; lia]). rewrite (u64_id (N / d0)) by done. f_equal.
  rewrite !u64_mod, Zminus_mod_idemp_r. rewrite (Z.mod_eq N d0) by lia. pose proof (Z.mod_pos_bound N d0 ltac:(lia)). pose proof (Z.div_mod N d0 ltac:(lia)).
  replace (n1 - N / d0 * d0) with (N - d0 * (N / d0) + (- n0) * BASE) by (unfold N; lia). rewrite Z.mod_add by lia. apply Z.mod_small. lia.
Qed.

(** The words [n0 n1] and [w] behind them over [d0 d1]: the refined digit is the exact quotient. *)
Section Refine.
Variables (m : words) (wnump : wptr) (n0 n1 w d0 d1 : Z).
Hypothesis Hw : forall Q E, Q w m -> wp (rd wnump (-2)) Q E m.
Hypothesis Hww : word w.
Hypothesis Hn0 : 0 <= n0 < d0.
Hypothesis Hn1 : word n1.
Hypothesis Hd0 : 2 ^ 63 <= d0 < BASE.
Hypothesis Hd1 : word d1.
Local Abbreviation N := ((n0 * BASE + n1) * BASE + w).
Local Abbreviation D := (d0 * BASE + d1).

(** The quotient [q] so far, its remainder [rm], and whether it was lowered. *)
Definition refining (q rm : Z) : Prop := word q /\ q * d0 + rm = n0 * BASE + n1 /\ 0 <= rm < BASE /\ N < (q + 1) * D.

Lemma refine_turn q rm Q E :
  refining q rm ->
  (q * D <= N -> Q (inr q) m) ->
  (forall rm', refining (q - 1) rm' -> rm' = rm + d0 -> Q (inl (q - 1, rm', d1 * (q - 1))) m) ->
  (N < q * D -> BASE <= rm + d0 -> word (q - 1) -> (q - 1) * D <= N -> Q (inr (q - 1)) m) ->
  wp (refine_quotient wnump d0 d1 (q, rm, d1 * q)) Q E m.
Proof.
  intros (Hq & Hrm & Hr & Hup) HQ1 HQ2 HQ3. unfold word in *. unfold refine_quotient. apply wp_bind, Hw. change BN_BITS2 with 64.
  rewrite (u128_id (Z.shiftl rm 64)) by (rewrite Z.shiftl_mul_pow2 by lia; lia). rewrite lor_shiftl by (unfold word; lia).
  destruct (Z.leb_spec (d1 * q) (rm * BASE + w)) as [Hle|Hgt]; [apply wp_ret, HQ1; nia|]. assert (Hq1 : 0 < q) by nia. rewrite (u64_id (q - 1)) by (unfold word; lia).
  rewrite u64_mod. destruct (Z.lt_ge_cases (rm + d0) BASE) as [Hlt|Hge].
  - rewrite (Z.mod_small (rm + d0)) by lia. rewrite (proj2 (Z.ltb_ge _ _)) by lia. apply wp_ret. rewrite u128_id by nia. replace (d1 * q - d1) with (d1 * (q - 1)) by lia.
    apply HQ2; [|done]. unfold refining, word. split_and!; first [lia|nia].
  - assert ((rm + d0) mod BASE = rm + d0 - BASE) as ->.
    { replace (rm + d0) with (rm + d0 - BASE + 1 * BASE) at 1 by lia. rewrite Z.mod_add by lia. apply Z.mod_small. lia. }
    rewrite (proj2 (Z.ltb_lt _ _)) by lia. apply wp_ret, HQ3; [nia|lia|lia|nia].
Qed.

Lemma refine_quotient_spec :
  wp (let '(q, rm) := bn_div_rem_words n0 n1 d0 in iter 2 (refine_quotient wnump d0 d1) (q, rm, u128 (d1 * q)))
    (fun q m' => m' = m /\ word q /\ q * D <= N < (q + 1) * D) (fun _ => False) m.
Proof.
  assert (Hwd : word d0) by (unfold word; lia). rewrite bn_div_rem_words_spec by done. set (q := (n0 * BASE + n1) / d0). set (rm := (n0 * BASE + n1) mod d0).
  pose proof (Z.mod_pos_bound (n0 * BASE + n1) d0 ltac:(lia)) as Hrm. fold rm in Hrm. pose proof (Z.div_mod (n0 * BASE + n1) d0 ltac:(lia)) as Hdm. fold q rm in Hdm.
  assert (Hq : word q) by (unfold word in *; split; [apply Z.div_pos; lia|apply Z.div_lt_upper_bound; lia]). pose proof (word_mul d1 q Hd1 Hq) as Hm. unfold word in *.
  assert (H1 : refining q rm) by (unfold refining, word; split_and!; try lia; nia). rewrite u128_id by lia.
  cbn [iter]. apply wp_bind. apply (refine_turn q rm); [exact H1| | |].
  - intros Hle. apply wp_ret. unfold word in *. destruct H1 as (_ & _ & _ & Hup). split_and!; first [done|lia].
  - intros rm' H2 ->. apply wp_bind. apply (refine_turn (q - 1) (rm + d0)); [exact H2| | |].
    + intros Hle. apply wp_ret. unfold word in *. destruct H2 as (? & _ & _ & Hup). unfold word in *. split_and!; first [done|lia].
    + intros rm' (_ & _ & Hr & _) ->. exfalso. lia.
    + intros Hlt Hge Hq' Hle. apply wp_ret. unfold word in *. replace (q - 1 - 1 + 1) with (q - 1) by lia. split_and!; first [done|lia].
  - intros Hlt Hge Hq' Hle. apply wp_ret. unfold word in *. replace (q - 1 + 1) with q by lia. split_and!; first [done|lia].
Qed.
End Refine.

(** The quotient of the leading words is that of the numbers, or one more. *)
Lemma digit_close B H P XU BD U D x q N D2 low low' :
  0 < P -> 1 < B -> H * P <= D -> 0 <= x < B -> XU = x + B * U -> BD = B * D -> XU = N * P + low -> BD = D2 * P + low' -> 0 <= low < P -> 0 <= low' < P ->
  0 <= q < B -> 2 <= H -> q * D2 <= N < (q + 1) * D2 -> q * D < U + D /\ U < (q + 1) * D.
Proof.
  intros HP HB HD Hx -> -> EN ED Hl Hl' Hq H2 [Hle Hgt]. split.
  - assert (q * (B * D) <= N * P + q * low') by nia. assert (q * low' <= (B - 1) * P) by nia. assert (B * (q * D) < B * (U + D)); [|nia]. nia.
  - assert (x + B * U < (q + 1) * (B * D)) by nia. nia.
Qed.
(** When the first words are equal the digit is the largest there is. *)
Lemma digit_close_max B P U D d0 up :
  0 < P -> B <= 2 * d0 -> d0 * P <= D < (d0 + 1) * P -> U = d0 * (B * P) + up -> 0 <= up -> U < B * D -> 2 <= B -> (B - 1) * D < U + D /\ U < (B - 1 + 1) * D.
Proof. intros HP Hd HD -> Hup HU HB. split; [|lia]. assert ((B - 2) * D <= (B - 2) * ((d0 + 1) * P)) by nia. nia. Qed.

Lemma leading_le B P U D XU x n0 n1 w rest d0 :
  0 < P -> 0 < B -> 0 <= x < B -> 0 <= n1 -> 0 <= w -> 0 <= rest -> XU = x + B * U -> XU = ((n0 * B + n1) * B + w) * P + rest -> U < B * D -> D < (d0 + 1) * P -> n0 <= d0.
Proof.
  intros HP HB Hx H1 H2 Hr E1 E2 HU HD. assert (XU < B * (B * D)) by nia. assert (B * (B * D) <= B * (B * ((d0 + 1) * P))) by (apply Z.mul_le_mono_nonneg_l; [lia|]; nia).
  assert (0 <= (n1 * B + w) * P) by (apply Z.mul_nonneg_nonneg; nia). assert (B * (B * P) * n0 < B * (B * P) * (d0 + 1)) by nia. assert (n0 < d0 + 1); [|lia].
  apply (Z.mul_lt_mono_pos_l (B * (B * P))); [nia|done].
Qed.

(** * One turn *)

Lemma val_top l i x : zget l i = Some x -> i + 1 = zlen l -> val l = val (ztake i l) + BASE ^ i * x.
Proof.
  intros Hx Hi. pose proof (ztake_next l i x Hx) as E. rewrite Hi, ztake_all in E. rewrite E at 1. pose proof (zget_Some _ _ _ Hx). rewrite val_snoc, zlen_ztake by lia. done.
Qed.

(** The divisor: its two leading words, the first of which has its highest bit set. *)
Definition normal (ld : list Z) (n d0 d1 : Z) : Prop :=
  digits ld /\ zlen ld = n /\ 0 < n /\ zget ld (n - 1) = Some d0 /\ 2 ^ 63 <= d0 /\ (if n =? 1 then d1 = 0 else zget ld (n - 2) = Some d1).
Lemma normal_value ld n d0 d1 : normal ld n d0 d1 ->
  word d0 /\ word d1 /\ d0 * BASE ^ (n - 1) <= val ld < (d0 + 1) * BASE ^ (n - 1) /\
  exists low, BASE * val ld = (d0 * BASE + d1) * BASE ^ (n - 1) + low /\ 0 <= low < BASE ^ (n - 1).
Proof.
  intros (Hd & Hz & Hn & H0 & Htop & H1). pose proof (digits_zget _ _ _ Hd H0) as Hw0. pose proof (val_top ld (n - 1) d0 H0 ltac:(lia)) as Hv.
  pose proof (val_range _ (digits_ztake (n - 1) ld Hd)) as Hr. rewrite zlen_ztake in Hr by lia. assert (HP : 0 < BASE ^ (n - 1)) by (apply Z.pow_pos_nonneg; lia).
  split; [done|]. destruct (Z.eqb_spec n 1) as [->|Hne].
  - subst d1. change (BASE ^ (1 - 1)) with 1 in *. split_and!; [done|nia|nia|]. exists 0. split; [|lia]. assert (val (ztake (1 - 1) ld) = 0) as E by lia. rewrite Hv, E. lia.
  - pose proof (digits_zget _ _ _ Hd H1) as Hw1. split_and!; [done|nia|nia|].
    assert (Hg : zget (ztake (n - 1) ld) (n - 2) = Some d1). { rewrite <- (ztake_zdrop (n - 1) ld), zget_app_l in H1 by (rewrite zlen_ztake; lia). done. }
    pose proof (val_top _ _ _ Hg ltac:(rewrite zlen_ztake; lia)) as Hv1. rewrite ztake_ztake in Hv1 by lia.
    pose proof (val_range _ (digits_ztake (n - 2) ld Hd)) as Hr2. rewrite zlen_ztake in Hr2 by lia. assert (HB : BASE ^ (n - 1) = BASE * BASE ^ (n - 2)) by (rewrite <- B_pow by lia; f_equal; lia).
    exists (BASE * val (ztake (n - 2) ld)). split; [|rewrite HB; nia]. rewrite Hv, Hv1, HB. nia.
Qed.

Section Turn.
Variables (m : words) (wnum sdiv tmp resp : wptr) (X ld : list Z) (n d0 d1 : Z).
Hypothesis Hld : normal ld n d0 d1.
Hypothesis HX : at_ m (wadd wnum (-2)) X.
Hypothesis HdX : digits X.
Hypothesis HzX : zlen X = n + 2.
Hypothesis Hsdiv : at_ m sdiv ld.
Hypothesis Htmp : writable m tmp (n + 1).
Hypothesis Hresp : writable m resp 1.
Hypothesis Htw : tmp.1 <> wnum.1.
Hypothesis Hsw : sdiv.1 <> wnum.1.
Hypothesis Hrw : resp.1 <> wnum.1.
Hypothesis Hts : tmp.1 <> sdiv.1.
Local Abbreviation U := (val (zdrop 1 X)).
Local Abbreviation D := (val ld).
Hypothesis HU : U < BASE * D.
Local Abbreviation win := (wadd wnum (-1)).

Lemma win_at : at_ m win (zdrop 1 X) /\ zlen (zdrop 1 X) = n + 1 /\ digits (zdrop 1 X).
Proof.
  pose proof (at_drop _ _ _ 1 HX ltac:(destruct Hld as (_ & _ & ? & _); lia)) as H. rewrite wadd_wadd in H. split_and!; [done| |auto with zlist].
  destruct Hld as (_ & _ & ? & _). rewrite zlen_zdrop; lia.
Qed.

(** The guessed digit. *)
Lemma digit_spec :
  wp (n0 ← rd (wadd wnum (n - 1)) 0; n1 ← rd (wadd wnum (n - 1)) (-1);
      if n0 =? d0 then mret BN_MASK2 else
      let '(q, rm) := bn_div_rem_words n0 n1 d0 in
      iter 2 (refine_quotient (wadd wnum (n - 1)) d0 d1) (q, rm, u128 (d1 * q)))
    (fun q m' => m' = m /\ word q /\ q * D < U + D /\ U < (q + 1) * D) (fun _ => False) m.
Proof.
  pose proof (normal_value _ _ _ _ Hld) as (Hw0 & Hw1 & HD & low & ED & Hlow). pose proof Hld as (Hd & Hz & Hn & _ & Htop & _).
  destruct (zget_lt X (n + 1)) as [n0 Hn0]; [lia|]. destruct (zget_lt X n) as [n1 Hn1]; [lia|]. destruct (zget_lt X (n - 1)) as [w Hw]; [lia|].
  assert (Hrd : forall k i x Q (E : words -> Prop), zget X k = Some x -> k = i + n + 1 -> Q x m -> wp (rd (wadd wnum (n - 1)) i) Q E m).
  { intros k i x Q E Hk -> HQ. replace (rd (wadd wnum (n - 1)) i) with (rd (wadd wnum (-2)) (i + n + 1)) by (rewrite !rd_wadd; f_equal; lia). wp_call rd_spec; [exact HX|exact Hk| |done]. by intros ? ? [-> ->]. }
  pose proof (digits_zget _ _ _ HdX Hn0) as W0. pose proof (digits_zget _ _ _ HdX Hn1) as W1. pose proof (digits_zget _ _ _ HdX Hw) as W2.
  assert (HP : 0 < BASE ^ (n - 1)) by (apply Z.pow_pos_nonneg; lia). set (P := BASE ^ (n - 1)) in *.
  destruct (zget_lt X 0) as [x Hx]; [lia|]. pose proof (digits_zget _ _ _ HdX Hx) as Wx. assert (EX : val X = x + BASE * U).
  { rewrite <- (zdrop_0 X) at 1. by rewrite (zdrop_next _ _ _ Hx), val_cons. }
  assert (EN : exists rest, val X = ((n0 * BASE + n1) * BASE + w) * P + rest /\ 0 <= rest < P).
  { exists (val (ztake (n - 1) X)). pose proof (val_range _ (digits_ztake (n - 1) X HdX)) as Hr. rewrite zlen_ztake in Hr by lia. split; [|done].
    rewrite (val_split (n - 1) X) by lia. rewrite (zdrop_next _ _ _ Hw), (zdrop_next X (n - 1 + 1) n1), (zdrop_next X (n - 1 + 1 + 1) n0) by (rewrite <- ?Hn1, <- ?Hn0; f_equal; lia).
    assert (zdrop (n - 1 + 1 + 1 + 1) X = []) as -> by (replace (n - 1 + 1 + 1 + 1) with (zlen X) by lia; apply zdrop_all). rewrite !val_cons. cbn [val]. fold P. lia. }
  destruct EN as (rest & EN & Hrest). unfold word in *.
  apply wp_bind. eapply Hrd; [exact Hn0|lia|]. apply wp_bind. eapply Hrd; [exact Hn1|lia|]. destruct (Z.eqb_spec n0 d0) as [->|Hne].
  - apply wp_ret. change BN_MASK2 with (BASE - 1). split; [done|]. split; [lia|].
    assert (EU : exists up, U = d0 * (BASE * P) + up /\ 0 <= up).
    { exists (val (ztake n (zdrop 1 X))). pose proof (val_range _ (digits_ztake n _ (digits_zdrop 1 X HdX))). split; [|lia].
      assert (Hg : zget (zdrop 1 X) n = Some d0). { replace (zget (zdrop 1 X) n) with (zget X (n + 1)); [done|]. rewrite (zdrop_next X 0 x Hx) || idtac. rewrite <- (ztake_zdrop 1 X) at 1. rewrite zget_app_r by (rewrite zlen_ztake; lia). rewrite zlen_ztake by lia. f_equal. lia. }
      rewrite (val_top _ _ _ Hg) by (rewrite zlen_zdrop; lia). replace n with (n - 1 + 1) at 2 by lia. rewrite B_pow by lia. fold P. lia. }
    destruct EU as (up & EU & Hup). apply (digit_close_max BASE P U D d0 up); first [done|lia].
  - wp_call (refine_quotient_spec m (wadd wnum (n - 1)) n0 n1 w d0 d1); [|done| |done|lia|done| |done].
    + intros Q E HQ. eapply Hrd; [exact Hw|lia|done].
    + pose proof (leading_le BASE P U D (val X) x n0 n1 w rest d0). lia.
    + intros q m' (-> & Hq & Hqd). split; [done|]. split; [done|]. unfold word in Hq.
      apply (digit_close BASE (2 ^ 63) P (val X) (BASE * D) U D x q ((n0 * BASE + n1) * BASE + w) (d0 * BASE + d1) rest low); try done.
      transitivity (d0 * P); [apply Z.mul_le_mono_nonneg_r; lia|apply HD].
Qed.

(** What a turn leaves. *)
Local Abbreviation regions_of := [(win, n + 1); (tmp, n + 1); (resp, 1)].
Definition divided (m' : words) : Prop :=
  (exists W, at_ m' win W /\ zlen W = n + 1 /\ digits W /\ val W = U mod D) /\ at_ m' resp [U / D] /\ word (U / D) /\ keeps m m' regions_of.

(** The digit and the window, once it is known which they are. *)
Lemma digit_done q R : word q -> 0 <= R < D -> U = q * D + R -> U / D = q /\ U mod D = R.
Proof.
  intros Hq HR E. assert (HD : 0 < D) by lia. rewrite E, Z.add_comm. split.
  - rewrite Z.div_add by lia. rewrite Z.div_small by lia. lia.
  - rewrite Z.mod_add by lia. by apply Z.mod_small.
Qed.

(** Taking the digit times the divisor from the window. *)
Lemma subtract_spec q :
  word q ->
  wp (l0 ← bn_mul_words tmp sdiv n q; wr tmp n l0;; bn_sub_words win win tmp (n + 1))
    (fun c m' => exists W, at_ m' win W /\ zlen W = n + 1 /\ digits W /\ bit c /\ val W - BASE ^ (n + 1) * c = U - q * D /\ keeps m m' [(win, n + 1); (tmp, n + 1)]) (fun _ => False) m.
Proof.
  intros Hq. pose proof Hld as (Hd & Hz & Hn & _). destruct win_at as (HW & HzW & HdW). assert (Htn : writable m tmp n) by by apply (writable_take _ _ (n + 1)); [|lia].
  apply wp_bind. wp_call (bn_mul_words_spec m tmp sdiv ld n q); [done|done|done|done|done|by left| |done]. intros l0 m1 (ws & -> & Hzw & Hdw & Hl0 & Hv).
  apply wp_bind. wp_call wr_spec; [apply wput_writable; [by rewrite Hzw|apply (writable_sub _ _ (n + 1)); [done|lia..]]| |done]. intros [] m2 ->.
  assert (wput (wput m tmp ws) (wadd tmp n) [l0] = wput m tmp (ws ++ [l0])) as -> by (rewrite <- Hzw at 1; apply wput_app; by rewrite Hzw). set (T := ws ++ [l0]). assert (HzT : zlen T = n + 1) by (unfold T; rewrite zlen_snoc; lia).
  assert (HdT : digits T) by (by apply digits_snoc). assert (HvT : val T = q * D) by (unfold T; rewrite val_snoc, Hzw; lia). assert (HT : writable m tmp (zlen T)) by by rewrite HzT.
  assert (HW2 : at_ (wput m tmp T) win (zdrop 1 X)) by (apply wput_apart; [done|done|by left]).
  assert (Hww : writable (wput m tmp T) win (n + 1)) by (rewrite <- HzW; by apply at_writable).
  wp_call (bn_sub_words_spec (wput m tmp T) win win tmp (zdrop 1 X) T (n + 1)); [done|by apply wput_at|done|done|done|done|done|apply ahead_refl|left; by apply not_eq_sym| |done].
  intros c m3 (W & -> & HzW' & HdW' & Hc & HvW). exists W. split_and!; [apply wput_at; by rewrite HzW'|done|done|done|lia|].
  apply (keeps_trans _ (wput m tmp T)).
  - apply keeps_put with (n + 1); [done|done|done|right; by left].
  - apply keeps_put with (n + 1); [by rewrite HzW'|done|done|by left].
Qed.

(** Giving the divisor back when too much was taken. *)
Lemma give_back_spec m1 W q :
  keeps m m1 [(win, n + 1); (tmp, n + 1)] -> at_ m1 win W -> zlen W = n + 1 -> digits W -> 0 < q * D - U < D -> val W = U - q * D + BASE ^ (n + 1) ->
  wp (carry ← bn_add_words win win sdiv n;
      (if negb (carry =? 0) then w ← rd (wadd wnum (n - 1)) 0; wr (wadd wnum (n - 1)) 0 (u64 (w + 1)) else mret tt))
    (fun _ m' => exists W', at_ m' win W' /\ zlen W' = n + 1 /\ digits W' /\ val W' = U - (q - 1) * D /\ keeps m m' [(win, n + 1); (tmp, n + 1)]) (fun _ => False) m1.
Proof.
  intros K HW HzW HdW Hlt Hv. pose proof Hld as (Hd & Hz & Hn & _). pose proof (val_range ld Hd) as HD. rewrite Hz in HD.
  assert (Hs1 : at_ m1 sdiv ld).
  { destruct K as (_ & K & _). apply K; [done|]. constructor; [left; by apply not_eq_sym|]. constructor; [by left|constructor]. }
  destruct (zget_lt W n) as [t Ht]; [lia|]. pose proof (val_top _ _ _ Ht ltac:(lia)) as Hvt. pose proof (val_range _ (digits_ztake n W HdW)) as Hlow. rewrite zlen_ztake in Hlow by lia.
  pose proof (digits_zget _ _ _ HdW Ht) as Hwt. set (low := ztake n W) in *. assert (HB : BASE ^ (n + 1) = BASE * BASE ^ n) by (apply B_pow; lia).
  assert (Ht1 : t = BASE - 1) by (unfold word in Hwt; rewrite HB in Hv; nia). subst t.
  assert (Hww : writable m1 win (n + 1)) by (rewrite <- HzW; by apply at_writable).
  assert (Hlo : at_ m1 win low) by (apply at_take; [done|lia]).
  apply wp_bind. wp_call (bn_add_words_spec m1 win win sdiv low ld n); [done|done|by apply digits_ztake|done|unfold low; rewrite zlen_ztake; lia|done|by apply (writable_take _ _ (n + 1)); [|lia]|apply ahead_refl|left; by apply not_eq_sym| |done].
  intros c m2 (L & -> & HzL & HdL & Hc & HvL). assert (Hc1 : c = 1) by (pose proof (val_range _ HdL); unfold bit in Hc; rewrite HzL in *; nia). subst c. cbn [Z.eqb negb].
  assert (HL : writable m1 win (zlen L)) by (rewrite HzL; by apply (writable_take _ _ (n + 1)); [|lia]). set (m2 := wput m1 win L).
  assert (Htop : at_ m2 (wadd win n) [BASE - 1]).
  { apply wput_apart; [done| |right; left; cbn; lia]. pose proof (at_drop _ _ _ n HW ltac:(lia)) as H. rewrite (zdrop_next _ _ _ Ht) in H. replace (n + 1) with (zlen W) in H by lia. by rewrite zdrop_all in H. }
  assert (Ew : forall i, rd (wadd wnum (n - 1)) i = rd (wadd win n) i) by (intros; rewrite !rd_wadd; f_equal; lia). rewrite Ew.
  assert (Ewr : forall w, wr (wadd wnum (n - 1)) 0 w = wr (wadd win n) 0 w) by (intros; rewrite !wr_wadd; f_equal; lia).
  apply wp_bind. wp_call rd_spec; [exact Htop|done| |done]. intros ? ? [-> ->]. rewrite Ewr. change (u64 (BASE - 1 + 1)) with 0.
  assert (Hw1 : writable m2 (wadd win n) 1) by exact (at_writable _ _ _ Htop).
  wp_call wr_spec; [by rewrite wadd_0| |done]. intros [] m3 ->. rewrite wadd_0. exists (L ++ [0]). split_and!.
  - apply at_app; [|rewrite HzL; by apply wput_at]. apply wput_apart; [done|by apply wput_at|right; right; cbn; lia].
  - rewrite zlen_snoc. lia.
  - by apply digits_snoc.
  - rewrite val_snoc, HzL. lia.
  - eapply keeps_trans; [exact K|]. eapply keeps_trans; (eapply keeps_one; [done|try done; by constructor|by left|]); [rewrite HzL|change (zlen [0]) with 1]; (split_and!; [done|cbn; lia|cbn; lia]).
Qed.

Lemma div_turn_spec : wp (div_turn wnum (wadd wnum (n - 1)) resp sdiv tmp n d0 d1) (fun _ => divided) (fun _ => False) m.
Proof.
  unfold div_turn. pose proof Hld as (Hd & Hz & Hn & _). pose proof (val_range ld Hd) as HD. rewrite Hz in HD. destruct win_at as (_ & HzW0 & HdW0). pose proof (val_range _ HdW0) as HU0.
  apply wp_group3. wp_call digit_spec; [|done]. intros q m' (-> & Hq & Hlo & Hup). apply wp_group3. wp_call (subtract_spec q Hq); [|done].
  intros c m1 (W & HW & HzW & HdW & Hc & Hv & K). pose proof (val_range _ HdW) as HrW. rewrite HzW in HrW.
  assert (Hend : forall m2 W2 qq, keeps m m2 [(win, n + 1); (tmp, n + 1)] -> at_ m2 win W2 -> zlen W2 = n + 1 -> digits W2 -> word qq -> 0 <= val W2 < D -> U = qq * D + val W2 ->
    wp (wr resp 0 qq) (fun _ => divided) (fun _ => False) m2).
  { intros m2 W2 qq K2 HW2 HzW2 HdW2 Hqq HR E. destruct (digit_done qq (val W2) Hqq HR E) as [Eq Er]. assert (Hwr : writable m2 resp 1) by (eapply keeps_writable; [exact K2|done]).
    wp_call wr_spec; [by rewrite wadd_0| |done]. intros [] m3 ->. rewrite wadd_0. unfold divided. rewrite Eq, Er. split_and!.
    - exists W2. split_and!; [|done|done|done]. apply wput_apart; [done|done|by left].
    - by apply wput_at.
    - done.
    - eapply keeps_trans; [eapply keeps_in; [exact K2|]|].
      + constructor; [exists (win, n + 1); split; [by left|split_and!; first [done|cbn; lia]]|]. constructor; [exists (tmp, n + 1); split; [right; by left|split_and!; first [done|cbn; lia]]|constructor].
      + apply keeps_put with 1; [done|done|by constructor|right; right; by left]. }
  destruct (Z.eqb_spec c 0) as [->|Hc0]; cbn [negb].
  - apply wp_bind, wp_ret. apply (Hend m1 W q); try done; lia.
  - assert (c = 1) as -> by (unfold bit in Hc; lia). assert (BASE ^ (n + 1) = BASE * BASE ^ n) by (apply B_pow; lia). assert (0 < q) by nia.
    apply wp_bind, wp_group2. wp_call (give_back_spec m1 W q); [done|done|done|done|nia|lia| |done].
    intros [] m2 (W2 & HW2 & HzW2 & HdW2 & Hv2 & K2). apply wp_ret. rewrite u64_id by (unfold word in *; lia). apply (Hend m2 W2 (q - 1)); try done; [unfold word in *; lia|nia|lia].
Qed.
End Turn.

(** * All the turns *)

Section Loop.
Variables (m : words) (res snum sdiv tmp : bn) (S0 ld : list Z) (n d0 d1 : Z).
Local Abbreviation num_n := (zlen S0).
Local Abbreviation loop := (num_n - n).
Local Abbreviation D := (val ld).
Hypothesis Hld : normal ld n d0 d1.
Hypothesis HS : at_ m (bn_d snum) S0.
Hypothesis HdS : digits S0.
Hypothesis Hloop : 2 <= loop.
Hypothesis Htop : zget S0 (num_n - 1) = Some 0.
Hypothesis Hsdiv : at_ m (bn_d sdiv) ld.
Hypothesis Htmp : writable m (bn_d tmp) (n + 1).
Hypothesis Hres : writable m (bn_d res) (loop - 1).
Hypothesis Hts : tmp <> snum.
Hypothesis Hds : sdiv <> snum.
Hypothesis Hrs : res <> snum.
Hypothesis Htd : tmp <> sdiv.
Hypothesis Hrd : res <> sdiv.
Hypothesis Hrt : res <> tmp.
Local Abbreviation Rs := [(bn_d snum, num_n); (bn_d tmp, n + 1); (bn_d res, loop - 1)].

(** The words from [j] on are divided. *)
Definition divided_to (j : Z) (m' : words) : Prop :=
  exists R Q, at_ m' (bn_d snum) (ztake j S0 ++ R) /\ zlen R = num_n - j /\ digits R /\ at_ m' (wadd (bn_d res) (j - 1)) Q /\ zlen Q = loop - j /\ digits Q /\
    0 <= val R < D /\ val (zdrop j S0) = val Q * D + val R /\ keeps m m' Rs.

Lemma divided_to_start : divided_to loop m.
Proof.
  pose proof Hld as (Hd & Hz & Hn & _). pose proof (normal_value _ _ _ _ Hld) as (_ & _ & HD & _). pose proof Hld as (_ & _ & _ & _ & Hd0 & _).
  exists (zdrop loop S0), []. assert (HP : 0 < BASE ^ (n - 1)) by (apply Z.pow_pos_nonneg; lia). split_and!; try done.
  - by rewrite ztake_zdrop.
  - rewrite zlen_zdrop; lia.
  - by apply digits_zdrop.
  - destruct Hres as (arr & Ha & Hr). exists arr. unfold room in Hr. cbn [wadd bn_d fst snd] in *. change (zlen (@nil Z)) with 0. split_and!; [done|lia|lia|apply ztake_0].
  - change (zlen (@nil Z)) with 0. lia.
  - constructor.
  - by apply val_range, digits_zdrop.
  - assert (Hg : zget (zdrop loop S0) (n - 1) = Some 0).
    { pose proof (zget_app_r (ztake loop S0) (zdrop loop S0) (num_n - 1)) as E. rewrite ztake_zdrop, zlen_ztake in E by lia. rewrite E in Htop by lia. rewrite <- Htop. f_equal. lia. }
    rewrite (val_top _ _ _ Hg) by (rewrite zlen_zdrop; lia). pose proof (val_range _ (digits_ztake (n - 1) _ (digits_zdrop loop S0 HdS))) as Hr.
    rewrite zlen_ztake in Hr by (rewrite zlen_zdrop; lia).
    assert (1 * BASE ^ (n - 1) <= d0 * BASE ^ (n - 1)) by (apply Z.mul_le_mono_nonneg_r; lia). lia.
  - apply keeps_refl.
Qed.

Lemma divided_to_turn i m' :
  0 <= i < loop - 1 -> divided_to (loop - i) m' ->
  wp (div_turn (wadd (bn_d snum) (loop - i)) (wadd (bn_d snum) (num_n - 1 - i)) (wadd (bn_d res) (loop - 2 - i)) (bn_d sdiv) (bn_d tmp) n d0 d1)
    (fun _ => divided_to (loop - (i + 1))) (fun _ => False) m'.
Proof.
  set (j := loop - i). intros Hi (R & Q & HR & HzR & HdR & HQ & HzQ & HdQ & Hlt & Hv & K). pose proof Hld as (Hd & Hz & Hn & _). assert (Hj : 2 <= j <= loop) by (unfold j; lia).
  pose proof (val_range ld Hd) as HD. rewrite Hz in HD.
  destruct (zget_lt S0 (j - 1)) as [x Hx]; [lia|]. destruct (zget_lt S0 (j - 2)) as [y Hy]; [lia|]. pose proof (digits_zget _ _ _ HdS Hx) as Hwx. pose proof (digits_zget _ _ _ HdS Hy) as Hwy.
  assert (Etake : ztake j S0 = ztake (j - 2) S0 ++ [y; x]).
  { replace j with (j - 2 + 1 + 1) at 1 by lia. rewrite (ztake_next _ (j - 2 + 1) x) by (rewrite <- Hx; f_equal; lia). rewrite (ztake_next _ _ _ Hy). by rewrite <- app_assoc. }
  (* the window, above the word [y] *)
  set (W := x :: ztake n R). assert (HzW : zlen W = n + 1) by (unfold W; rewrite zlen_cons, zlen_ztake; lia).
  assert (Hzero : val (zdrop n R) = 0).
  { pose proof (val_range _ (digits_zdrop n R HdR)). pose proof (val_split n R ltac:(lia)) as E. pose proof (val_range _ (digits_ztake n R HdR)). assert (0 < BASE ^ n) by (apply Z.pow_pos_nonneg; lia). nia. }
  assert (HvW : val W = x + BASE * val R) by (unfold W; rewrite val_cons; pose proof (val_split n R ltac:(lia)); lia).
  assert (HR' : at_ m' (bn_d snum) (ztake (j - 2) S0 ++ y :: W ++ zdrop n R)).
  { rewrite Etake, <- app_assoc in HR. unfold W. cbn [app]. by rewrite ztake_zdrop. }
  assert (Hz2 : zlen (ztake (j - 2) S0) = j - 2) by (apply zlen_ztake; lia).
  assert (Hat : at_ m' (wadd (bn_d snum) (j - 2)) (y :: W ++ zdrop n R)).
  { pose proof (at_drop _ _ _ (j - 2) HR' ltac:(rewrite zlen_app, Hz2; pose proof (zlen_nonneg (y :: W ++ zdrop n R)); lia)) as H. by rewrite zdrop_app in H. }
  assert (HatX : at_ m' (wadd (wadd (bn_d snum) j) (-2)) (y :: W)).
  { rewrite wadd_wadd. replace (j + -2) with (j - 2) by lia. rewrite <- (ztake_app (zlen (y :: W)) (y :: W) (zdrop n R) eq_refl). apply at_take; [done|]. cbn [app]. rewrite (app_comm_cons W), zlen_app.
    pose proof (zlen_nonneg (zdrop n R)). pose proof (zlen_nonneg (y :: W)). lia. }
  assert (HdX : digits (y :: W)) by (constructor; [done|]; constructor; [done|by apply digits_ztake]). assert (HzX : zlen (y :: W) = n + 2) by (rewrite zlen_cons; lia).
  replace (num_n - 1 - i) with (j + (n - 1)) by (unfold j; lia). rewrite <- (wadd_wadd _ j (n - 1)). replace (loop - 2 - i) with (j - 2) by (unfold j; lia).
  wp_call (div_turn_spec m' (wadd (bn_d snum) j) (bn_d sdiv) (bn_d tmp) (wadd (bn_d res) (j - 2)) (y :: W) ld n d0 d1); try done; try (by apply not_eq_sym).
  - destruct K as (_ & K & _). apply K; [done|]. constructor; [left; cbn; by apply not_eq_sym|]. constructor; [by left|]. constructor; [by left|constructor].
  - by eapply keeps_writable.
  - eapply keeps_writable; [exact K|]. apply (writable_sub _ _ (loop - 1)); [done|lia..].
  - change (zdrop 1 (y :: W)) with W. unfold word in *. nia.
  - intros [] m2 ((W' & HW' & HzW' & HdW' & HvW') & Hq & Hwq & K2). change (zdrop 1 (y :: W)) with W in *. rewrite HvW in *. rewrite !wadd_wadd in *.
    assert (K2' : keeps m' m2 Rs).
    { eapply keeps_in; [exact K2|]. constructor; [exists (bn_d snum, num_n); split; [by left|split_and!; [done|cbn; lia|cbn; lia]]|].
      constructor; [exists (bn_d tmp, n + 1); split; [right; by left|split_and!; [done|cbn; lia|cbn; lia]]|]. constructor; [|constructor].
      exists (bn_d res, loop - 1). split; [right; right; by left|split_and!; [done|cbn; lia|cbn; lia]]. }
    assert (HzT : zlen (ztake (j - 1) S0) = j - 1) by (apply zlen_ztake; lia). pose proof K2 as (_ & Keep & _).
    assert (Hstay : forall o l, at_ m' (wadd (bn_d snum) o) l -> o + zlen l <= j - 1 \/ j + n <= o -> at_ m2 (wadd (bn_d snum) o) l).
    { intros o l Hol Hap. apply Keep; [done|]. constructor; [right; cbn; lia|]. constructor; [by left|]. constructor; [by left|constructor]. }
    assert (HzZ : zlen (zdrop n R) = num_n - j - n) by (rewrite zlen_zdrop; lia).
    exists (W' ++ zdrop n R), (((x + BASE * val R) / D) :: Q). replace (loop - (i + 1)) with (j - 1) by (unfold j; lia). split_and!.
    + apply at_app; [rewrite <- (wadd_0 (bn_d snum)); apply Hstay; [rewrite wadd_0|lia]|rewrite HzT; apply at_app; [by replace (j - 1) with (j + -1) by lia|]].
      * pose proof (at_take _ _ _ (j - 1) HR) as H. rewrite ztake_app_le, ztake_ztake in H by (rewrite ?zlen_ztake; lia). apply H. rewrite zlen_app, zlen_ztake; lia.
      * rewrite wadd_wadd, HzW'. replace (j - 1 + (n + 1)) with (j + n) by lia. apply Hstay; [|lia].
        pose proof (at_drop _ _ _ (j + n) HR) as H. rewrite zdrop_app_ge, zlen_ztake in H by (rewrite ?zlen_ztake; lia). replace (j + n - j) with n in H by lia. apply H. rewrite zlen_app, zlen_ztake; lia.
    + rewrite zlen_app. lia.
    + apply digits_app. split; [done|by apply digits_zdrop].
    + replace (j - 1 - 1) with (j - 2) by lia. apply (at_app _ _ [_]); [done|]. rewrite wadd_wadd. change (zlen [_]) with 1. replace (j - 2 + 1) with (j - 1) by lia.
      apply Keep; [done|]. constructor; [left; cbn; by apply not_eq_sym|]. constructor; [left; cbn; by apply not_eq_sym|]. constructor; [right; left; cbn; lia|constructor].
    + rewrite zlen_cons. lia.
    + by constructor.
    + rewrite val_app, Hzero, HvW'. pose proof (Z.mod_pos_bound (x + BASE * val R) D ltac:(lia)). lia.
    + rewrite val_app, Hzero, HvW'. pose proof (Z.mod_pos_bound (x + BASE * val R) D ltac:(lia)). lia.
    + rewrite (zdrop_next _ _ _ Hx), !val_cons, val_app, Hzero, HvW'. replace (j - 1 + 1) with j by lia. pose proof (Z.div_mod (x + BASE * val R) D ltac:(lia)). lia.
    + by eapply keeps_trans.
Qed.

Lemma div_loop_spec :
  wp (div_loop res snum sdiv tmp num_n n d0 d1)
    (fun _ m' => (exists R, at_ m' (bn_d snum) (ztake 1 S0 ++ R) /\ zlen R = num_n - 1 /\ digits R /\ val R = val (zdrop 1 S0) mod D) /\
      (exists Q, at_ m' (bn_d res) Q /\ zlen Q = loop - 1 /\ digits Q /\ val Q = val (zdrop 1 S0) / D) /\ keeps m m' Rs) (fun _ => False) m.
Proof.
  unfold div_loop. cbv zeta. apply (wp_for (fun i _ m' => divided_to (loop - i) m')).
  - rewrite Z.sub_0_r. apply divided_to_start.
  - intros i [] m' Hi Hdiv. apply divided_to_turn; [lia|done].
  - intros [] m' (R & Q & HR & HzR & HdR & HQ & HzQ & HdQ & Hlt & Hv & K). rewrite Z2Nat.id, Z.add_0_l in * by lia. replace (loop - (loop - 1)) with 1 in * by lia. rewrite wadd_0 in HQ.
    assert (val (zdrop 1 S0) / D = val Q /\ val (zdrop 1 S0) mod D = val R) as [-> ->].
    { rewrite Hv, Z.add_comm. split; [rewrite Z.div_add, Z.div_small by lia; lia|rewrite Z.mod_add by lia; by apply Z.mod_small]. }
    split_and!; [by exists R|by exists Q|done].
Qed.
End Loop.
