(* ===== verification/BnDivNums.v ===== *)
(** Facts about the numbers of [BnDiv]: normalising, dividing and the remainder, in a store. *)
From S2P Require Import Prelude Mem Ct BnWords BnWordsFacts BnMulFacts Bn BnFacts BnCmp BnAddFacts BnArith BnOneWord BnTests BnShift BnShiftFacts BnRshiftFacts BnBitsFacts BnMul BnPartFacts BnKaratsuba BnCtx BnCtxFacts BnMulCtx BnDiv BnFlags BnDivFacts.

(** Membership in lists that are written out. *)
Ltac mem := clear; set_solver.
Ltac notin := rewrite ?not_elem_of_cons; split_and?; try apply not_elem_of_nil; first [done|by apply not_eq_sym].

Section Nums.
Context `{alloc : Allocator}.

(** * Why an operation that needs [K] words at most in a number fails *)

Definition static_number (s : bn_store) : Prop := exists x n, nums s !! x = Some n /\ Z.land (flags n) BN_FLG_STATIC_DATA <> 0.
Definition no_room (K : Z) (s : bn_store) : Prop := max_words < K \/ out_of_memory (8 * K + 8) \/ static_number s.
Lemma static_kept s s' : flags_kept s s' -> static_number s -> static_number s'.
Proof. intros Hf (x & n & Hx & H). destruct (flags_kept_on _ _ _ _ Hf Hx) as (n' & Hx' & E). exists x, n'. by rewrite E. Qed.
Lemma static_back s s' : flags_kept s s' -> static_number s' -> static_number s.
Proof. intros Hf (x & n & Hx & H). destruct (flags_of _ _ _ _ Hf Hx H) as (n' & Hx' & E). exists x, n'. by rewrite E. Qed.
Lemma no_room_kept K s s' : flags_kept s s' -> no_room K s -> no_room K s'.
Proof. intros Hf [H|[H|H]]; [by left|by right; left|right; right; by eapply static_kept]. Qed.
Lemma no_room_back K s s' : flags_kept s s' -> no_room K s' -> no_room K s.
Proof. intros Hf [H|[H|H]]; [by left|right; by left|right; right; by eapply static_back]. Qed.
Lemma no_room_le K K' s : K <= K' -> no_room K s -> no_room K' s.
Proof. intros HK [H|[H|H]]; [left; lia|right; left; eapply out_of_memory_le; [|exact H]; lia|by right; right]. Qed.
Lemma cannot_grow_room s x k K : cannot_grow s x k -> k <= K -> no_room K s.
Proof.
  intros (n & Hn & _ & [H|[H|[i H]]]) HK; [left; lia|right; right; by exists x, n|]. right; left. exists i, (8 * k + 8). split; [lia|done].
Qed.
Lemma stunted_room r k s s' K : flags_kept s s' -> stunted r k s s' -> k <= K -> no_room K s'.
Proof. intros Hf (_ & _ & k' & Hk & Hc) HK. eapply no_room_kept; [exact Hf|]. eapply cannot_grow_room; [exact Hc|lia]. Qed.

(** * The divisor and the numerator *)

Lemma bit_length_shift v k : 0 < v -> 0 <= k -> bit_length (v * 2 ^ k) = bit_length v + k.
Proof.
  intros Hv Hk. assert (0 < 2 ^ k) by (apply Z.pow_pos_nonneg; lia). unfold bit_length. rewrite (proj2 (Z.eqb_neq _ _)) by nia. rewrite (proj2 (Z.eqb_neq _ _)) by lia.
  rewrite <- Z.shiftl_mul_pow2, Z.log2_shiftl by lia. lia.
Qed.
(** The highest bit of the shifted divisor is set. *)
Lemma normalised l v : digits l -> minimal l -> 0 < v -> val l = v * 2 ^ (64 - bit_length v mod 64) -> exists d0 d1, normal l (zlen l) d0 d1.
Proof.
  intros Hd Hm Hv E. set (k := 64 - bit_length v mod 64) in *. assert (Hmod : 0 <= bit_length v mod 64 < 64) by (apply Z.mod_pos_bound; lia).
  assert (Hlen : bit_length (val l) = 64 * (bit_length v / 64 + 1)). { rewrite E, bit_length_shift by lia. unfold k. pose proof (Z.div_mod (bit_length v) 64). lia. }
  destruct Hm as [->|(l' & w & -> & Hw)]; [assert (0 < 2 ^ k) by (apply Z.pow_pos_nonneg; lia); cbn in E; nia|].
  apply digits_app in Hd as Hd'. destruct Hd' as [Hd' [Hww _]%Forall_cons]. pose proof Hww as Hww'. unfold word in Hww'. rewrite bit_length_top in Hlen by (done || lia).
  assert (Hbw : 0 < bit_length w <= 64).
  { unfold bit_length. rewrite (proj2 (Z.eqb_neq _ _)) by done. pose proof (Z.log2_nonneg w). assert (Z.log2 w < 64) by (apply Z.log2_lt_pow2; lia). lia. }
  assert (bit_length w = 64) as Hb by lia. assert (Htop : 2 ^ 63 <= w).
  { unfold bit_length in Hb. rewrite (proj2 (Z.eqb_neq _ _)) in Hb by done. pose proof (Z.log2_spec w ltac:(lia)) as [H _]. by replace (Z.log2 w) with 63 in H by lia. }
  rewrite zlen_snoc. pose proof (zlen_nonneg l'). exists w.
  assert (exists d1, if zlen l' + 1 =? 1 then d1 = 0 else zget (l' ++ [w]) (zlen l' + 1 - 2) = Some d1) as [d1 H1].
  { destruct (Z.eqb_spec (zlen l' + 1) 1); [by exists 0|]. apply zget_lt. rewrite zlen_snoc. lia. }
  exists d1. split_and!; try done; [by rewrite zlen_snoc|lia|]. apply zget_middle. lia.
Qed.

(** [BN_lshift] of the absolute value, with the least width. *)
Lemma shifted_abs r a u n s :
  holds s a u -> roomy s r 0 -> 0 <= n ->
  wp (BN_lshift r a n;; bn_set_minimal_width r;; bn_set_neg r false)
    (fun _ s' => others r s s' /\ flags_kept s s' /\ exists l, shows s' r false l /\ minimal l /\ val l = Z.abs u * 2 ^ n)
    (fun s' => others r s s' /\ roomy s' r 0 /\ no_room (words_of s a + n / 64 + 1) s') s.
Proof.
  intros Ha Hr Hn. assert (Hpow : 0 < 2 ^ n) by (apply Z.pow_pos_nonneg; lia). apply wp_bind. wp_flags BN_lshift_spec; [exact Ha|done|done| |].
  2: { intros s' [Hst Hf]. split_and!; [apply Hst|apply Hst|]. by eapply stunted_room. }
  intros [] s1 [[Ho1 (ng & l & Hs1 & _ & Hv)] Hf1]. apply wp_bind. wp_flags bn_set_minimal_width_spec; [exact Hs1| |by intros ? []].
  intros [] s2 [[Hs2 Ho2] Hf2]. wp_flags bn_set_neg_spec; [exact Hs2| |by intros ? []]. intros [] s3 [[Hs3 Ho3] Hf3].
  split_and!; [by do 2 (eapply others_trans; [done|])|by do 2 (etransitivity; [done|])|]. exists (shrink l). destruct (shrink_spec l) as (Hm & Hvs & _). split_and!; [done|done|].
  rewrite Hvs. pose proof (val_range l ltac:(by eapply shows_digits)). destruct ng; cbn [signed] in Hv; nia.
Qed.

(** The width of the shifted numerator. *)
Lemma minimal_width l l' n k : digits l -> minimal l -> digits l' -> val l = val l' * 2 ^ k -> 0 <= k <= 128 -> zlen l' <= n -> zlen l <= n + 2.
Proof.
  intros Hd Hm Hd' E Hk Hn. pose proof (val_range l' Hd') as Hr. pose proof (zlen_nonneg l'). destruct (minimal_range l Hd Hm) as [[->|Hlow] _]; [change (zlen (@nil Z)) with 0; lia|].
  destruct (Z.lt_ge_cases (n + 2) (zlen l)) as [Hlt|]; [|done]. exfalso.
  assert (BASE ^ (n + 2) <= BASE ^ (zlen l - 1)) by (apply Z.pow_le_mono_r; lia). assert (BASE ^ zlen l' <= BASE ^ n) by (apply Z.pow_le_mono_r; lia).
  assert (2 ^ k <= 2 ^ 128) by (apply Z.pow_le_mono_r; lia). assert (BASE ^ (n + 2) = BASE ^ n * 2 ^ 128) as E2 by (rewrite Z.pow_add_r by lia; done). assert (0 < 2 ^ k) by (apply Z.pow_pos_nonneg; lia). nia.
Qed.

(** Numbers [r] that may be set, the failure being that some [K] words could not be had. *)
Definition short_of (K : Z) (xs : list bn) (s s' : bn_store) : Prop := others_in xs s s' /\ Forall (fun x => roomy s' x 0) xs /\ no_room K s'.

Lemma others_in_mono xs ys s s' : ys ⊆ xs -> others_in ys s s' -> others_in xs s s'.
Proof. intros Hsub (H1 & H2 & H3). split_and!; [done|done|]. intros y Hy. apply H3. set_solver. Qed.
Lemma roomy_all xs ys s s' : others_in ys s s' -> Forall (fun x => roomy s' x 0) ys -> Forall (fun x => roomy s x 0) xs -> Forall (fun x => roomy s' x 0) xs.
Proof.
  intros (_ & _ & Ho) Hy Hx. apply Forall_forall. intros x Hin. destruct (decide (x ∈ ys)) as [H|H]; [exact (proj1 (Forall_forall _ _) Hy x H)|].
  destruct (Ho x H). eapply roomy_in; [done|done|exact (proj1 (Forall_forall _ _) Hx x Hin)].
Qed.
Lemma short_of_in K K' ys xs s s1 s' :
  others_in xs s s1 -> Forall (fun x => roomy s1 x 0) xs -> ys ⊆ xs -> K <= K' -> short_of K ys s1 s' -> short_of K' xs s s'.
Proof.
  intros Ho Hr Hsub HK (Ho' & Hr' & Hn). split_and!; [eapply others_in_trans; [done|by eapply others_in_mono]|by eapply roomy_all|by eapply no_room_le].
Qed.

Section Normalise.
Variables (s : bn_store) (snum sdiv numerator divisor : bn) (u v : Z).
Hypothesis Hu : holds s numerator u.
Hypothesis Hv : holds s divisor v.
Hypothesis Hv0 : v <> 0.
Hypothesis Hrn : roomy s snum 0.
Hypothesis Hrd : roomy s sdiv 0.
Hypothesis Hnd : snum <> sdiv.
Hypothesis Hnu : numerator <> snum.
Hypothesis Hdu : numerator <> sdiv.
Local Abbreviation K := (words_of s numerator + words_of s divisor + 4).

(** The divisor's words [ld] and the numerator's [S0], both shifted [k] bits, the latter
    one word more, with at least one zero in front. *)
Definition normal_numbers (sh : Z) (s' : bn_store) (S0 ld : list Z) : Prop :=
  exists k d0 d1, sh = k + 64 /\ 1 <= k <= 64 /\ shows s' snum false S0 /\ shows s' sdiv false ld /\ normal ld (zlen ld) d0 d1 /\
    val ld = Z.abs v * 2 ^ k /\ val S0 = Z.abs u * 2 ^ (k + 64) /\ 2 <= zlen S0 - zlen ld /\ zget S0 (zlen S0 - 1) = Some 0 /\ zlen S0 <= K /\ zlen ld + 1 <= K.

Lemma zrep_zget n i (z : Z) : zget (zrep n 0) i = Some z -> z = 0.
Proof. unfold zget, zrep. destruct (0 <=? i); [|done]. by intros [-> _]%lookup_replicate. Qed.
(** The zeros in front. *)
Lemma pad_spec s1 l ld :
  shows s1 snum false l -> shows s1 sdiv false ld ->
  wp (x ← bn_get snum; y ← bn_get sdiv;
      if width x <=? width y + 1 then
        bn_wexpand snum (width y + 2);;
        on_words (for_ (width x) (Z.to_nat (width y + 2 - width x)) (fun i _ => wr (bn_d snum) i 0) tt);;
        bn_set_width snum (width y + 2)
      else
        bn_wexpand snum (width x + 1);;
        on_words (wr (bn_d snum) (width x) 0);;
        bn_set_width snum (width x + 1))
    (fun _ s2 => others snum s1 s2 /\ exists S0, shows s2 snum false S0 /\ val S0 = val l /\ 2 <= zlen S0 - zlen ld /\ zget S0 (zlen S0 - 1) = Some 0 /\ zlen S0 = Z.max (zlen l) (zlen ld + 1) + 1)
    (stunted snum (Z.max (zlen l) (zlen ld + 1) + 1) s1) s1.
Proof.
  intros Hl Hld. destruct (shows_get _ _ _ _ Hl) as (x & Hx & _ & Hwx). destruct (shows_get _ _ _ _ Hld) as (y & Hy & _ & Hwy). pose proof (zlen_nonneg l). pose proof (zlen_nonneg ld).
  apply wp_bind. eapply wp_bn_get; [exact Hx|]. apply wp_bind. eapply wp_bn_get; [exact Hy|]. destruct (Z.leb_spec (width x) (width y + 1)) as [Hle|Hgt].
  - rewrite Hwx, Hwy in *. replace (Z.max (zlen l) (zlen ld + 1) + 1) with (zlen ld + 2) by lia. wp_call pad_words; [exact Hl|lia| |done].
    intros [] s2 [Ho Hs2]. split; [done|]. assert (Hz : zlen (l ++ zrep (zlen ld + 2 - zlen l) 0) = zlen ld + 2) by (rewrite zlen_app, zlen_zrep; lia).
    eexists. split_and!; [exact Hs2|rewrite val_app, val_zrep; lia|lia| |lia]. rewrite Hz, zget_app_r by lia.
    destruct (zget_lt (zrep (zlen ld + 2 - zlen l) 0) (zlen ld + 2 - 1 - zlen l)) as [z Hzz]; [rewrite zlen_zrep; lia|]. rewrite Hzz. f_equal. by eapply zrep_zget.
  - rewrite Hwx. replace (Z.max (zlen l) (zlen ld + 1) + 1) with (zlen l + 1) by lia. rewrite <- Hwx. wp_call (grow_one s1 snum false l x 0); [done|done|done| |by rewrite Hwx].
    intros [] s2 [Ho Hs2]. split; [done|]. exists (l ++ [0]). rewrite zlen_snoc. split_and!; [done|rewrite val_snoc; lia|lia|apply zget_middle; lia|lia].
Qed.

Lemma div_normalise_spec :
  wp (div_normalise snum sdiv numerator divisor)
    (fun sh s' => others_in [snum; sdiv] s s' /\ exists S0 ld, normal_numbers sh s' S0 ld) (short_of K [snum; sdiv] s) s.
Proof.
  destruct (holds_sign _ _ _ Hu) as (lu & Hsu & Hlu). destruct (holds_sign _ _ _ Hv) as (lv & Hsv & Hlv). pose proof (zlen_nonneg lu). pose proof (zlen_nonneg lv).
  assert (Hwu : words_of s numerator = zlen lu) by by eapply shows_words. assert (Hwv : words_of s divisor = zlen lv) by by eapply shows_words.
  unfold div_normalise. apply wp_bind. wp_call BN_num_bits_spec; [exact Hsv| |done]. intros b s0 [-> ->]. rewrite Hlv. change BN_BITS2 with 64. set (k := 64 - bit_length (Z.abs v) mod 64).
  assert (Hk : 1 <= k <= 64) by (pose proof (Z.mod_pos_bound (bit_length (Z.abs v)) 64); unfold k; lia).
  (* the divisor *)
  apply wp_group3. wp_call (shifted_abs sdiv divisor v k s); [done|done|lia| |].
  2: { intros s1 (Ho1 & Hr1 & Hno). unfold short_of; split_and!; [eapply others_in_one; [done|right; by left]| |].
    - constructor; [|constructor; [done|constructor]]. destruct Ho1 as (_ & _ & Ho1). destruct (Ho1 snum Hnd). by eapply roomy_in.
    - eapply no_room_le; [|exact Hno]. assert (k / 64 <= 1) by (apply Z.div_le_upper_bound; lia). lia. }
  intros [] s1 (Ho1 & Hf1 & ld & Hld & Hmd & Hvd). assert (Hu1 : holds s1 numerator u) by (eapply holds_others; done). assert (Hrn1 : roomy s1 snum 0) by (destruct Ho1 as (_ & _ & Ho1); destruct (Ho1 snum Hnd); by eapply roomy_in).
  assert (Hw1 : words_of s1 numerator = zlen lu) by (destruct Ho1 as (_ & _ & Ho1); destruct (Ho1 numerator Hdu) as [E _]; unfold words_of in *; by rewrite E).
  pose proof (shows_digits _ _ _ _ Hld) as [Hdd _]. pose proof (shows_digits _ _ _ _ Hsu) as [Hdu' _]. pose proof (shows_digits _ _ _ _ Hsv) as [Hdv _].
  destruct (normalised ld (Z.abs v) Hdd Hmd ltac:(lia) Hvd) as (d0 & d1 & Hnorm). assert (Hzd : zlen ld <= zlen lv + 2) by (eapply (minimal_width ld lv); try done; [by rewrite Hlv|lia]).
  (* the numerator *)
  apply wp_group3. wp_call (shifted_abs snum numerator u (k + 64) s1); [done|done|lia| |].
  2: { intros s2 (Ho2 & Hr2 & Hno). unfold short_of; split_and!; [eapply others_in_trans; [eapply others_in_one; [done|right; by left]|eapply others_in_one; [done|by left]]| |].
    - constructor; [done|constructor; [|constructor]]. destruct Ho2 as (_ & _ & Ho2). destruct (Ho2 sdiv (not_eq_sym Hnd)). eapply roomy_in; [done|done|by eapply roomy_shows].
    - eapply no_room_le; [|exact Hno]. assert ((k + 64) / 64 <= 2) by (apply Z.div_le_upper_bound; lia). lia. }
  intros [] s2 (Ho2 & Hf2 & l & Hl & Hml & Hvl). pose proof (shows_others _ _ _ _ _ _ Ho2 (not_eq_sym Hnd) Hld) as Hld2. pose proof (shows_digits _ _ _ _ Hl) as [Hdl _].
  assert (Hzl : zlen l <= zlen lu + 2) by (eapply (minimal_width l lu); try done; [by rewrite Hlu|lia]). pose proof (zlen_nonneg ld).
  (* the zeros *)
  apply wp_group3. wp_flags pad_spec; [exact Hl|exact Hld2| |].
  - intros [] s3 [(Ho3 & S0 & HS0 & HvS & Hge & Htop & HzS) _]. apply wp_ret. split.
    + eapply others_in_trans; [eapply others_in_one; [exact Ho1|right; by left]|]. eapply others_in_trans; eapply others_in_one; [exact Ho2|by left|exact Ho3|by left].
    + exists S0, ld, k, d0, d1. pose proof (shows_others _ _ _ _ _ _ Ho3 (not_eq_sym Hnd) Hld2). split_and!; first [done|by rewrite HvS|lia].
  - intros s3 [Hst Hf]. pose proof Hst as (Ho3 & Hr3 & _). unfold short_of. split_and!.
    + eapply others_in_trans; [eapply others_in_one; [exact Ho1|right; by left]|]. eapply others_in_trans; eapply others_in_one; [exact Ho2|by left|exact Ho3|by left].
    + constructor; [done|constructor; [|constructor]]. eapply roomy_shows, shows_others; [exact Ho3|by apply not_eq_sym|exact Hld2].
    + eapply stunted_room; [exact Hf|exact Hst|lia].
Qed.
End Normalise.

(** * The words of the quotient *)

Lemma set_any_width s x ng l k w :
  shows s x ng l -> roomy s x k -> 0 <= w <= k ->
  wp (bn_set_width x w) (fun _ s' => others x s s' /\ roomy s' x k /\ exists l', zlen l' = w /\ shows s' x ng l') (fun _ => False) s.
Proof.
  intros Hs (n & d & Hbn & Hk) Hw. pose proof Hbn as (Hn & Hd & (H1 & H2 & H3 & H4)). destruct (shows_get _ _ _ _ Hs) as (n' & Hn' & Hng & _). rewrite Hn in Hn'. injection Hn' as <-.
  destruct (bn_is_lt _ _ _ _ Hbn) as [Hlt _]. assert (Hbn' : bn_is (mkStore (<[x := mkBN w (dmax n) (neg n) (flags n)]> (nums s)) (arrays s) (bn_heap s)) x (mkBN w (dmax n) (neg n) (flags n)) d).
  { split_and!; [by apply list_lookup_insert_eq|exact Hd|]. unfold well_formed. cbn [width dmax]. split_and!; try done; lia. }
  eapply wp_set_width; [exact Hn|]. split_and!.
  - unfold others. cbn. rewrite length_insert. split_and!; [done|done|]. intros y Hy. by rewrite list_lookup_insert_ne.
  - by eexists _, d.
  - exists (ztake w d). assert (Hz : zlen (ztake w d) = w) by (apply zlen_ztake; lia). split; [done|]. eexists _, d. split_and!; [exact Hbn'|done|by rewrite Hz|by rewrite Hz].
Qed.

Lemma shows_words_at s x n d l : bn_is s x n d -> width n = zlen l -> at_ (arrays s) (bn_d x) l -> shows s x (neg n) l.
Proof. intros Hbn Hw (arr & Harr & _ & _ & Ht). exists n, d. split_and!; [done|done|done|]. destruct Hbn as (_ & Hd & _). cbn in Harr, Ht. rewrite Hd in Harr. injection Harr as <-. by rewrite zdrop_0 in Ht. Qed.
(** A number whose words were computed, with others. *)
Lemma shows_computed s m' Rs h x ng l0 l : keeps (arrays s) m' Rs -> shows s x ng l0 -> zlen l = zlen l0 -> at_ m' (bn_d x) l -> shows (mkStore (nums s) m' h) x ng l.
Proof.
  intros K (n & d & Hbn & Hng & Hw & _) Hz Hat. destruct (keeps_is _ _ _ h _ _ _ K Hbn) as (d' & Hbn'). rewrite <- Hng. eapply shows_words_at; [exact Hbn'|lia|done].
Qed.

Section Words.
Variables (s : bn_store) (res tmp snum sdiv numerator divisor : bn) (S0 ld lu lv : list Z) (d0 d1 K : Z) (nu nv : bool).
Hypothesis HS : shows s snum false S0.
Hypothesis HD : shows s sdiv false ld.
Hypothesis Hu : shows s numerator nu lu.
Hypothesis Hv : shows s divisor nv lv.
Hypothesis Hld : normal ld (zlen ld) d0 d1.
Hypothesis Hloop : 2 <= zlen S0 - zlen ld.
Hypothesis Htop : zget S0 (zlen S0 - 1) = Some 0.
Hypothesis Hrr : roomy s res 0.
Hypothesis Hrt : roomy s tmp 0.
Hypothesis Hts : tmp <> snum.
Hypothesis Hds : sdiv <> snum.
Hypothesis Hrs : res <> snum.
Hypothesis Htd : tmp <> sdiv.
Hypothesis Hrd : res <> sdiv.
Hypothesis Hrt' : res <> tmp.
Hypothesis HK : zlen S0 <= K /\ zlen ld + 1 <= K.
Local Abbreviation loop := (zlen S0 - zlen ld).
Local Abbreviation U := (val (zdrop 1 S0)).

Definition words_divided (s' : bn_store) : Prop :=
  (exists R, shows s' snum false (ztake 1 S0 ++ R) /\ val R = U mod val ld /\ zlen R = zlen S0 - 1) /\
  (exists Q, shows s' res (xorb nu nv) Q /\ val Q = U / val ld) /\ shows s' sdiv false ld /\ roomy s' tmp 0.

Lemma div_words_spec :
  wp (div_words res tmp snum sdiv numerator divisor)
    (fun _ s' => others_in [res; tmp; snum] s s' /\ words_divided s') (short_of K [res; tmp; snum] s) s.
Proof.
  pose proof Hld as (Hdd & _ & Hn & Hg0 & _ & Hg1). pose proof (shows_digits _ _ _ _ HS) as [HdS _].
  destruct (shows_get _ _ _ _ HS) as (xs & Hxs & _ & Hws). destruct (shows_get _ _ _ _ HD) as (xd & Hxd & _ & Hwd). destruct (shows_get _ _ _ _ Hu) as (xu & Hxu & Hnu & _). destruct (shows_get _ _ _ _ Hv) as (xv & Hxv & Hnv & _).
  unfold div_words. apply wp_bind. eapply wp_bn_get; [exact Hxd|]. apply wp_bind. eapply wp_bn_get; [exact Hxs|]. rewrite Hws, Hwd. cbv zeta.
  apply wp_bind. eapply wp_rd_word; [by eapply shows_at|exact Hg0|]. apply wp_bind. apply (wp_mono _ (fun d s' => d = d1 /\ s' = s) _ (fun _ => False)); [| |done].
  { destruct (zlen ld =? 1); [by apply wp_ret|]. eapply wp_rd_word; [by eapply shows_at|exact Hg1|done]. }
  intros ? ? [-> ->]. apply wp_bind. eapply wp_bn_get; [exact Hxu|]. apply wp_bind. eapply wp_bn_get; [exact Hxv|]. rewrite Hnu, Hnv.
  (* the header of the result *)
  destruct (roomy_inv _ _ Hrr) as (n0 & l0 & Hr0). apply wp_bind. wp_call bn_set_neg_spec; [exact Hr0| |done]. intros [] s1 [Hr1 Ho1].
  apply wp_bind. wp_flags bn_wexpand_spec; [by eapply roomy_shows|lia| |].
  2: { intros s2 [(E1 & E2 & Hc) Hf]. unfold short_of. split_and!.
    - eapply others_in_trans; eapply others_in_one; [exact Ho1|by left|by apply others_same|by left].
    - destruct Ho1 as (_ & _ & Ho1). destruct (Ho1 tmp (not_eq_sym Hrt')) as [F1 F2]. destruct (Ho1 snum (not_eq_sym Hrs)) as [F3 F4].
      constructor; [by eapply roomy_same; [..|eapply roomy_shows]|]. constructor; [by eapply (roomy_in s); [rewrite E1|rewrite E2|]|]. constructor; [|constructor]. eapply (roomy_in s); [by rewrite E1|by rewrite E2|by eapply roomy_shows].
    - eapply no_room_kept; [exact Hf|]. eapply cannot_grow_room; [exact Hc|lia]. }
  intros [] s2 [(Ho2 & Hsh2 & Hroom2) _]. apply wp_bind. wp_call set_any_width; [by eapply Hsh2|exact Hroom2|lia| |done]. intros [] s3 (Ho3 & Hroom3 & l3 & Hz3 & Hr3).
  assert (Ho13 : others res s s3) by (eapply others_trans; [exact Ho1|by eapply others_trans]). apply wp_bind. wp_flags bn_wexpand_spec; [|lia| |].
  { destruct Ho13 as (_ & _ & Ho). destruct (Ho tmp (not_eq_sym Hrt')). by eapply roomy_in. }
  2: { intros s4 [(E1 & E2 & Hc) Hf]. unfold short_of. assert (Hin : others_in [res; tmp; snum] s s3) by (eapply others_in_one; [exact Ho13|by left]). split_and!.
    - eapply others_in_trans; [exact Hin|]. eapply others_in_one; [by apply others_same|by left].
    - destruct Ho13 as (_ & _ & Ho). destruct (Ho tmp (not_eq_sym Hrt')) as [F1 F2]. destruct (Ho snum (not_eq_sym Hrs)) as [F3 F4].
      constructor; [eapply roomy_same; [done..|by eapply roomy_shows]|]. constructor; [by eapply (roomy_in s); [rewrite E1|rewrite E2|]|]. constructor; [|constructor]. eapply (roomy_in s); [by rewrite E1|by rewrite E2|by eapply roomy_shows].
    - eapply no_room_kept; [exact Hf|]. eapply cannot_grow_room; [exact Hc|lia]. }
  intros [] s4 [(Ho4 & Hsh4 & Hroom4) _]. pose proof (Hsh4 _ _ _ Hr3) as Hr4. destruct (shows_get _ _ _ _ Hr4) as (x4 & Hx4 & _ & Hw4). apply wp_bind. eapply wp_bn_get; [exact Hx4|]. rewrite Hw4, Hz3, (proj2 (Z.eqb_neq _ _)) by lia.
  apply wp_bind, wp_ret. assert (HS4 : shows s4 snum false S0) by (by apply Hsh4; eapply shows_others). assert (HD4 : shows s4 sdiv false ld) by (apply Hsh4; eapply shows_others; [exact Ho13|by apply not_eq_sym|done]).
  apply wp_on_words. wp_call (div_loop_spec (arrays s4) res snum sdiv tmp S0 ld (zlen ld) d0 d1); [done|by eapply shows_at|done|done|done|by eapply shows_at|apply roomy_writable; [done|lia]| |done..| |done].
  { rewrite <- Hz3. by eapply at_writable, shows_at. }
  intros [] m' ((R & HR & HzR & HdR & HvR) & (Q & HQ & HzQ & HdQ & HvQ) & Km). split.
  - eapply others_in_trans; [eapply others_in_one; [exact Ho13|by left]|]. eapply others_in_trans; [eapply others_in_one; [exact Ho4|right; by left]|].
    eapply keeps_others_in; [exact Km|]. constructor; [right; right; by left|]. constructor; [right; by left|]. constructor; [by left|constructor].
  - assert (HzR' : zlen (ztake 1 S0 ++ R) = zlen S0) by (rewrite zlen_app, zlen_ztake; lia). split_and!.
    + exists R. split_and!; [|done|done]. by eapply shows_computed.
    + exists Q. split; [|done]. eapply shows_computed; [exact Km|exact Hr4|lia|done].
    + eapply shows_computed; [exact Km|exact HD4|done|]. destruct Km as (_ & Km & _). apply Km; [by eapply shows_at|]. constructor; [left; by apply not_eq_sym|]. constructor; [by left|]. constructor; [by left|constructor].
    + destruct Hroom4 as (n & d & Hbn & Hk). destruct (keeps_is _ _ _ (bn_heap s4) _ _ _ Km Hbn) as (d' & Hbn'). exists n, d'. split; [exact Hbn'|]. lia.
Qed.
End Words.

(** * The remainder *)

Lemma holds_nonneg s r w : holds s r w -> 0 <= w -> exists l, shows s r false l /\ val l = w.
Proof. intros H Hw. destruct (holds_sign _ _ _ H) as (l & Hl & Hv). rewrite (proj2 (Z.ltb_ge _ _)) in Hl by lia. exists l. split; [done|lia]. Qed.

Definition targets (rem : option bn) : list bn := match rem with Some r => [r] | None => [] end.

Lemma div_remainder_spec s rem snum numerator sh l xu :
  shows s snum false l -> nums s !! numerator = Some xu -> Forall (fun r => roomy s r 0) (targets rem) -> 0 <= sh ->
  wp (div_remainder rem snum numerator sh)
    (fun _ s' => others_in (targets rem) s s' /\ forall r, rem = Some r -> holds s' r (signed (neg xu) (val l / 2 ^ sh)) /\ words_of s' r <= zlen l)
    (short_of (zlen l) (targets rem) s) s.
Proof.
  intros Hs Hxu Hr Hsh. destruct rem as [r|]; cbn [div_remainder targets] in *; [|by apply wp_ret]. apply Forall_cons in Hr as [Hr _]. assert (0 < 2 ^ sh) by (apply Z.pow_pos_nonneg; lia).
  pose proof (val_range l ltac:(by eapply shows_digits)). assert (Hq : 0 <= val l / 2 ^ sh) by (apply Z.div_pos; lia).
  apply wp_bind. eapply wp_bn_get; [exact Hxu|]. apply wp_bind. wp_flags BN_rshift_sized; [by apply holds_pos|exact Hr|exact Hsh| |].
  2: { intros s1 [Hst Hf]. rewrite (shows_words _ _ _ _ Hs) in Hst. unfold short_of. split_and!; [eapply others_in_one; [apply Hst|by left]|constructor; [apply Hst|constructor]|]. by eapply stunted_room. }
  intros [] s1 [[[Ho1 H1] Hw1] _]. rewrite (shows_words _ _ _ _ Hs) in Hw1. rewrite Z.quot_div_nonneg in H1 by lia. apply wp_bind. wp_call BN_is_zero_holds; [exact H1| |done]. intros b s1' [-> ->]. destruct (Z.eqb_spec (val l / 2 ^ sh) 0) as [E|E].
  - apply wp_ret. split; [eapply others_in_one; [done|by left]|]. intros r' [= <-]. rewrite E in *. split; [by destruct (neg xu)|done].
  - destruct (holds_nonneg _ _ _ H1 Hq) as (l1 & Hl1 & Hv1). wp_call bn_set_neg_spec; [exact Hl1| |done]. intros [] s2 [Hs2 Ho2]. split.
    + eapply others_in_trans; eapply others_in_one; [done|by left|done|by left].
    + intros r' [= <-]. rewrite (shows_words _ _ _ _ Hl1) in Hw1. rewrite (shows_words _ _ _ _ Hs2). split; [|done]. exists (neg xu), l1. rewrite Hv1. split_and!; [done|intros _; lia|done].
Qed.

(** * All steps *)

Lemma quot_signed u v : v <> 0 -> signed (xorb (u <? 0) (v <? 0)) (Z.abs u / Z.abs v) = Z.quot u v.
Proof.
  intros Hv. rewrite <- Z.quot_div_nonneg by lia. destruct (Z.ltb_spec u 0), (Z.ltb_spec v 0); cbn [xorb signed].
  - rewrite !Z.abs_neq by lia. by rewrite Z.quot_opp_opp by lia.
  - rewrite Z.abs_neq, Z.abs_eq, Z.quot_opp_l by lia. lia.
  - rewrite Z.abs_eq, Z.abs_neq, Z.quot_opp_r by lia. lia.
  - by rewrite !Z.abs_eq by lia.
Qed.
Lemma rem_signed u v : v <> 0 -> signed (u <? 0) (Z.abs u mod Z.abs v) = Z.rem u v.
Proof.
  intros Hv. rewrite <- Z.rem_mod_nonneg by lia. rewrite Z.rem_abs_r by done. destruct (Z.ltb_spec u 0); cbn [signed].
  - rewrite Z.abs_neq by lia. rewrite Z.rem_opp_l by done. lia.
  - by rewrite Z.abs_eq by lia.
Qed.
(** What the shifts do to the quotient and the remainder. *)
Lemma unshift (U V k x R t : Z) :
  0 <= U -> 0 < V -> 0 <= k -> 0 <= x < BASE -> x + BASE * t = U * 2 ^ (k + 64) -> R = t mod (V * 2 ^ k) ->
  t / (V * 2 ^ k) = U / V /\ (x + BASE * R) / 2 ^ (k + 64) = U mod V.
Proof.
  intros HU HV Hk Hx E ->. assert (0 < 2 ^ k) by (apply Z.pow_pos_nonneg; lia). rewrite Z.pow_add_r in * by lia. change (2 ^ 64) with BASE in *.
  assert (x = 0) as -> by (assert (BASE * (U * 2 ^ k - t) = x) by lia; nia). assert (t = U * 2 ^ k) as -> by lia. split; [by rewrite Z.div_mul_cancel_r by lia|].
  rewrite Zmult_mod_distr_r. replace (0 + BASE * (U mod V * 2 ^ k)) with (U mod V * (2 ^ k * BASE)) by lia. apply Z.div_mul. lia.
Qed.

Lemma unshifted S0 R D u v k :
  digits S0 -> v <> 0 -> 1 <= k <= 64 -> val S0 = Z.abs u * 2 ^ (k + 64) -> D = Z.abs v * 2 ^ k -> val R = val (zdrop 1 S0) mod D -> zlen R = zlen S0 - 1 -> 1 <= zlen S0 ->
  val (zdrop 1 S0) / D = Z.abs u / Z.abs v /\ val (ztake 1 S0 ++ R) / 2 ^ (k + 64) = Z.abs u mod Z.abs v /\ zlen (ztake 1 S0 ++ R) = zlen S0.
Proof.
  intros HdS Hv Hk HvS -> HvR HzR Hz. destruct (zget_lt S0 0) as [x Hx]; [lia|]. pose proof (digits_zget _ _ _ HdS Hx) as Hwx.
  assert (Htake : ztake 1 S0 = [x]) by (change 1 with (0 + 1); by rewrite (ztake_next _ _ _ Hx), ztake_0).
  assert (HvS0 : x + BASE * val (zdrop 1 S0) = Z.abs u * 2 ^ (k + 64)) by (rewrite <- HvS; change (val (x :: zdrop (0 + 1) S0) = val S0); by rewrite <- (zdrop_next _ _ _ Hx), zdrop_0).
  destruct (unshift (Z.abs u) (Z.abs v) k x (val R) (val (zdrop 1 S0))) as [Eq Er]; try done; [lia..|]. rewrite Htake. split_and!; [done| |rewrite zlen_app; change (zlen [x]) with 1; lia].
  change (val ([x] ++ R)) with (x + BASE * val R). done.
Qed.

Section All.
Variables (s : bn_store) (res : bn) (rem : option bn) (numerator divisor tmp snum sdiv : bn) (u v : Z).
Hypothesis Hu : holds s numerator u.
Hypothesis Hv : holds s divisor v.
Hypothesis Hv0 : v <> 0.
Local Abbreviation xs := (targets rem ++ [res; tmp; snum; sdiv]).
Hypothesis Hroom : Forall (fun x => roomy s x 0) xs.
Hypothesis Hnd : NoDup [tmp; snum; sdiv].
Hypothesis Hfree : Forall (fun x => x ∉ [tmp; snum; sdiv]) (targets rem ++ [res; numerator; divisor]).
Local Abbreviation K := (words_of s numerator + words_of s divisor + 4).
(** The sign of the remainder, which is read in the numerator after the quotient may have gone there. *)
Definition rem_sign : bool := if decide (res = numerator) then xorb (u <? 0) (v <? 0) else u <? 0.

Lemma div_numbers_spec :
  wp (div_numbers res rem numerator divisor tmp snum sdiv)
    (fun _ s' => others_in xs s s' /\ Forall (fun x => roomy s' x 0) xs /\ (rem <> Some res -> holds s' res (Z.quot u v)) /\
      forall r, rem = Some r -> holds s' r (signed rem_sign (Z.abs u mod Z.abs v)) /\ words_of s' r <= K)
    (short_of K xs s) s.
Proof.
  assert (Hns : tmp <> snum /\ tmp <> sdiv /\ snum <> sdiv) by (rewrite !NoDup_cons, !not_elem_of_cons in Hnd; tauto). destruct Hns as (Nts & Ntd & Nsd).
  assert (Hout : forall x, x ∈ targets rem ++ [res; numerator; divisor] -> x <> tmp /\ x <> snum /\ x <> sdiv).
  { intros x Hx. pose proof (proj1 (Forall_forall _ _) Hfree x Hx) as H. cbn beta in H. rewrite !not_elem_of_cons in H. tauto. }
  destruct (Hout res ltac:(mem)) as (Nrt & Nrs & Nrd). destruct (Hout numerator ltac:(mem)) as (Nnt & Nns & Nnd). destruct (Hout divisor ltac:(mem)) as (Ndt & Nds & Ndd).
  assert (Hrm : forall x, x ∈ xs -> roomy s x 0) by exact (proj1 (Forall_forall _ _) Hroom). unfold div_numbers.
  (* normalising *)
  apply wp_bind. wp_call (div_normalise_spec s snum sdiv numerator divisor u v); [done|done|done|apply Hrm; mem|apply Hrm; mem|done|done|done| |].
  2: { intros s1 Hsh. eapply (short_of_in _ _ [snum; sdiv] _ s s s1); [apply others_in_refl|done|mem|reflexivity|done]. }
  intros sh s1 (Ho1 & S0 & ld & k & d0 & d1 & -> & Hk & HS & HD & Hnorm & HvD & HvS & Hloop & Htop & HK1 & HK2).
  assert (Hr1 : Forall (fun x => roomy s1 x 0) xs).
  { eapply roomy_all; [exact Ho1| |exact Hroom]. constructor; [by eapply roomy_shows|]. constructor; [by eapply roomy_shows|constructor]. }
  assert (Hi1 : others_in xs s s1) by (eapply others_in_mono; [|exact Ho1]; mem).
  destruct (holds_sign _ _ _ Hu) as (lu & Hsu & Hlu). destruct (holds_sign _ _ _ Hv) as (lv & Hsv & Hlv).
  assert (Hsu1 : shows s1 numerator (u <? 0) lu) by (eapply shows_in; [exact Ho1|notin|done]). assert (Hsv1 : shows s1 divisor (v <? 0) lv) by (eapply shows_in; [exact Ho1|notin|done]).
  (* the quotient *)
  assert (Hrm1 : forall x, x ∈ xs -> roomy s1 x 0) by exact (proj1 (Forall_forall _ _) Hr1).
  apply wp_bind. wp_call (div_words_spec s1 res tmp snum sdiv numerator divisor S0 ld lu lv d0 d1 K (u <? 0) (v <? 0)); try done; try (by apply not_eq_sym); try (apply Hrm1; mem).
  2: { intros s2 Hsh. eapply (short_of_in _ _ [res; tmp; snum] _ s s1 s2); [done|done|mem|reflexivity|done]. }
  intros [] s2 (Ho2 & (R & HR & HvR & HzR) & (Q & HQ & HvQ) & HD2 & Ht2).
  assert (Hr2 : Forall (fun x => roomy s2 x 0) xs).
  { eapply roomy_all; [exact Ho2| |exact Hr1]. constructor; [by eapply roomy_shows|]. constructor; [done|]. constructor; [by eapply roomy_shows|constructor]. }
  assert (Hi2 : others_in xs s s2) by (eapply others_in_trans; [exact Hi1|eapply others_in_mono; [|exact Ho2]; mem]).
  (* the remainder *)
  apply wp_bind. wp_call bn_set_minimal_width_spec; [exact HR| |done]. intros [] s3 [HR3 Ho3]. set (S1 := ztake 1 S0 ++ R) in *. cbn [andb] in HR3.
  assert (Hr3 : Forall (fun x => roomy s3 x 0) xs).
  { eapply (roomy_all _ [snum]); [by eapply others_in_one; [|left]| |exact Hr2]. constructor; [by eapply roomy_shows|constructor]. }
  assert (Hi3 : others_in xs s s3) by (eapply others_in_trans; [exact Hi2|eapply others_in_one; [exact Ho3|mem]]).
  assert (HQ3 : shows s3 res (xorb (u <? 0) (v <? 0)) Q) by by eapply shows_others.
  assert (Hxu : exists xu, nums s3 !! numerator = Some xu /\ neg xu = rem_sign).
  { unfold rem_sign. destruct (decide (res = numerator)) as [<-|Hne]; [destruct (shows_get _ _ _ _ HQ3) as (xu & H1 & H2 & _); by exists xu|].
    assert (H3 : shows s3 numerator (u <? 0) lu) by (eapply shows_others; [exact Ho3|done|]; eapply shows_in; [exact Ho2|notin|done]).
    destruct (shows_get _ _ _ _ H3) as (xu & H1 & H2 & _). by exists xu. }
  destruct Hxu as (xu & Hxu & Hneg). destruct (shrink_spec S1) as (_ & Hvs & _). pose proof (shows_digits _ _ _ _ HS) as [HdS _].
  destruct (unshifted S0 R (val ld) u v k HdS Hv0 Hk HvS HvD HvR HzR) as (Eq & Er & HzS); [destruct Hnorm as (_ & _ & ? & _); clear -Hloop H; lia|]. fold S1 in Er, HzS.
  apply wp_bind. wp_call (div_remainder_spec s3 rem snum numerator (k + 64) (shrink S1) xu); [done|done| |clear -Hk; lia| |].
  { by apply Forall_app in Hr3 as [? _]. }
  2: { intros s4 Hsh. eapply (short_of_in _ _ (targets rem) _ s s3 s4); [done|done|mem| |exact Hsh]. etransitivity; [apply zlen_shrink|]. by rewrite HzS. }
  intros [] s4 [Ho4 Hrem]. rewrite Hneg, Hvs in Hrem. rewrite Er in Hrem.
  assert (Hr4 : Forall (fun x => roomy s4 x 0) xs).
  { eapply roomy_all; [exact Ho4| |exact Hr3]. apply Forall_forall. intros y Hy. destruct rem as [r|]; [|by apply elem_of_nil in Hy]. apply list_elem_of_singleton in Hy as ->. destruct (Hrem r eq_refl) as [H _]. by eapply holds_roomy. }
  assert (Hi4 : others_in xs s s4) by (eapply others_in_trans; [exact Hi3|eapply others_in_mono; [|exact Ho4]; mem]).
  destruct (roomy_inv s4 res (proj1 (Forall_forall _ _) Hr4 res ltac:(mem))) as (n4 & l4 & Hl4).
  assert (HwS : zlen (shrink S1) <= K) by (etransitivity; [apply zlen_shrink|]; by rewrite HzS).
  wp_call minimal_sized; [exact Hl4| |done]. intros [] s5 [[Ho5 H5] Hw5]. split_and!.
  - eapply others_in_trans; [exact Hi4|]. eapply others_in_one; [exact Ho5|mem].
  - eapply (roomy_all _ [res]); [by eapply others_in_one; [|left]| |exact Hr4]. constructor; [by eapply holds_roomy|constructor].
  - intros Hne. assert (HQ4 : shows s4 res (xorb (u <? 0) (v <? 0)) Q).
    { eapply shows_in; [exact Ho4| |exact HQ3]. destruct rem as [r|]; cbn [targets]; [|apply not_elem_of_nil]. intros ->%list_elem_of_singleton. done. }
    destruct (shows_inj _ _ _ _ _ _ Hl4 HQ4) as [-> ->]. rewrite HvQ, Eq, quot_signed in H5 by done. done.
  - intros r ->. destruct (Hrem r eq_refl) as [Hr' Hw']. destruct (decide (r = res)) as [->|Hne].
    + rewrite (shows_words _ _ _ _ Hl4) in Hw'. split; [|clear -Hw' Hw5 HwS; lia]. destruct Hr' as (n & l & Hl & _ & Ev). destruct (shows_inj _ _ _ _ _ _ Hl4 Hl) as [-> ->]. by rewrite Ev.
    + split; [by eapply holds_others|]. unfold words_of in Hw' |- *. destruct Ho5 as (_ & _ & Ho5). destruct (Ho5 r Hne) as [-> _]. clear -Hw' HwS. unfold words_of in HwS. lia.
Qed.
End All.
End Nums.
