(* ===== verification/BnDivCtx.v ===== *)
(** Facts about [BnDiv]: BN_div with the numbers it takes from the scratch context. *)
From S2P Require Import Prelude Mem Ct BnWords BnWordsFacts Bn BnFacts BnCmp BnAddFacts BnArith BnOneWord BnTests BnShift BnShiftFacts BnBitsFacts BnMul BnCtx BnCtxFacts BnMulCtx BnSqrCtx BnDiv BnFlags BnDivFacts BnDivNums.

Section Ctx.
Context `{alloc : Allocator}.

(** * Taking several numbers *)

(** The numbers [xs] were taken since [s], and nothing that was live has changed. *)
Definition taken (s : ctx_store) (bl : list bn) (fr : list Z) (xs : list bn) (s1 : ctx_store) : Prop :=
  exists bl1, ctx_ok s1 bl1 fr /\ (forall rs, steady s bl fr rs (zlen xs) s1 bl1) /\ NoDup xs /\ jammed s1 = jammed s /\ used (ctx s1) = used (ctx s) + zlen xs /\
    Forall (fun x => ~ live s bl x /\ live s1 bl1 x /\ roomy (store s1) x 0) xs /\
    (forall y, live s bl y -> live s1 bl1 y /\ (y ∉ xs) /\ nums (store s1) !! y = nums (store s) !! y /\ arrays (store s1) !! y = arrays (store s) !! y) /\
    ctx_flags_kept s s1.
(** A number was refused, so that all are from now on. *)
Definition not_taken (s : ctx_store) (bl : list bn) (fr : list Z) (n : Z) (s1 : ctx_store) : Prop :=
  exists bl1, (forall rs, steady s bl fr rs n s1 bl1) /\ blocked s 0 /\ jammed s1 = true.

Lemma taken_none s bl fr : ctx_ok s bl fr -> taken s bl fr [] s.
Proof.
  intros Hok. exists bl. change (zlen []) with 0. split_and!; [done|intros rs; by apply steady_refl|apply NoDup_nil_2|done|lia|constructor| |unfold ctx_flags_kept; reflexivity].
  intros y Hy. split_and!; [done|apply not_elem_of_nil|done|done].
Qed.

Lemma take_next s bl fr xs s1 :
  ctx_ok s bl fr -> taken s bl fr xs s1 -> spacious s (zlen xs + 1) ->
  wp BN_CTX_get (fun o s2 => match o with Some x => taken s bl fr (xs ++ [x]) s2 | None => not_taken s bl fr (zlen xs + 1) s2 end) (fun _ => False) s1.
Proof.
  intros Hok (bl1 & Hok1 & Hst1 & Hnd & Hj & Hu & Hxs & Hlive & Hf1) Hsp. pose proof (zlen_nonneg xs).
  eapply wp_mono; [eapply (wp_with ctx_flags_kept); [apply flags_CTX_get|apply BN_CTX_get_spec; [exact Hok1|unfold spacious in *; lia]]| |by intros ? []]. cbv beta.
  assert (Hall : forall rs : list bn, Forall (fun x => x ∈ rs \/ x ∈ unused s bl \/ (length (nums (store s)) <= x)%nat) []) by (intros; constructor).
  intros [x|] s2 [Hgot Hf2].
  - destruct (got_some _ _ _ _ _ Hok1 Hgot) as (bl2 & Hok2 & Hst2 & Hnx & Hlx & Hrx & _ & Hu2 & Hj2 & Hkeep). exists bl2. rewrite zlen_snoc. split_and!.
    + done.
    + intros rs. exact (steady_trans _ _ _ _ _ _ _ _ _ _ _ Hok (Hall rs) (Hst1 rs) (Hst2 [])).
    + apply NoDup_app. split_and!; [done| |apply NoDup_singleton]. intros y Hy ->%list_elem_of_singleton. by destruct (proj1 (Forall_forall _ _) Hxs x Hy) as (_ & ? & _).
    + congruence.
    + lia.
    + apply Forall_app. split.
      * eapply Forall_impl; [exact Hxs|]. intros y (Hy1 & Hy2 & Hy3). destruct (Hkeep y Hy2) as (? & _ & ? & ?). split_and!; [done|done|by eapply roomy_in].
      * constructor; [|constructor]. split_and!; [|done|done]. intros Hlx0. apply Hnx, Hlive, Hlx0.
    + intros y Hy. destruct (Hlive y Hy) as (Hy1 & Hn1 & E1 & E2). destruct (Hkeep y Hy1) as (Hy2 & Hne & E3 & E4). split_and!; [done| |congruence|congruence].
      rewrite not_elem_of_app. split; [done|]. by intros ->%list_elem_of_singleton.
    + by etransitivity.
  - destruct (got_none bl1 fr s1 [] s2 0 ltac:(lia) Hgot) as [_ Hbl]. destruct (steady_got _ _ _ [] _ _ Hgot) as (bl2 & Hst2 & _).
    assert (Hj2 : jammed s2 = true).
    { destruct Hgot as (? & _ & _ & He & _ & _ & _ & _ & [[Hj1 ->]|(_ & Ht & _)]); [done|]. unfold jammed. rewrite Ht. by rewrite orb_true_r. }
    exists bl2. split_and!; [|destruct Hbl as [?|[?|[Hs|?]]]; [left; congruence|by right; left| |right; right; by right]|done].
    + intros rs. exact (steady_trans _ _ _ _ _ _ _ _ _ _ _ Hok (Hall rs) (Hst1 rs) Hst2).
    + right; right; left. by eapply (static_back (store s) (store s1)).
Qed.

(** Once a number was refused, nothing more is done. *)
Lemma take_refused s1 : jammed s1 = true -> wp BN_CTX_get (fun o s2 => o = None /\ s2 = s1) (fun _ => False) s1.
Proof. intros Hj. unfold BN_CTX_get. apply wp_bind, wp_get_ctx. unfold jammed in Hj. rewrite Hj. by apply wp_ret. Qed.

(** * BN_div *)

Lemma zero_padded_spec s x ng l : shows s x ng l -> wp (zero_padded x (zlen (shrink l))) (fun b s' => b = false /\ s' = s) (fun _ => False) s.
Proof.
  intros Hs. unfold zero_padded. pose proof (zlen_nonneg (shrink l)). destruct (Z.ltb_spec 0 (zlen (shrink l))) as [Hpos|]; [|by apply wp_ret].
  destruct (shows_shrink _ _ _ _ Hs) as [Hat _]. destruct (shrink_spec l) as ([E|(l' & w & E & Hw)] & _); [rewrite E in Hpos; by cbn in Hpos|]. rewrite E in *.
  apply wp_bind. eapply wp_rd_word; [exact Hat|apply zget_middle; rewrite zlen_snoc; lia|]. apply wp_ret. split; [by apply Z.eqb_neq|done].
Qed.

(** What a number [r] for the remainder receives; in place of the numerator, the quotient passes its sign on. *)
Definition remainder_of (quotient : option bn) (numerator : bn) (u v : Z) : Z :=
  signed (if decide (quotient = Some numerator) then xorb (u <? 0) (v <? 0) else u <? 0) (Z.abs u mod Z.abs v).
(** The number for the remainder has at most [k] words. *)
Definition narrow (rem : option bn) (k : Z) (st : bn_store) : Prop := forall r, rem = Some r -> words_of st r <= k.
Definition divides_to (quotient rem : option bn) (numerator : bn) (u v : Z) (st : bn_store) : Prop :=
  (forall q, quotient = Some q -> rem <> Some q -> holds st q (Z.quot u v)) /\ forall r, rem = Some r -> holds st r (remainder_of quotient numerator u v).

Section Div.
Variables (quotient rem : option bn) (numerator divisor : bn) (u v : Z).
Hypothesis Hv0 : v <> 0.
Local Abbreviation rs := (targets quotient ++ targets rem).

Definition div_body : M ctx_store unit :=
  tmp ← BN_CTX_get;
  snum ← BN_CTX_get;
  sdiv ← BN_CTX_get;
  res ← (match quotient with None => BN_CTX_get | Some q => mret (Some q) end);
  match sdiv, res with
  | Some sdiv, Some res =>
      tmp ← deref tmp; snum ← deref snum;
      on_store (div_numbers res rem numerator divisor tmp snum sdiv)
  | _, _ => fail
  end.

Section Body.
Variables (s : ctx_store) (bl : list bn) (fr : list Z).
Hypothesis Hok : ctx_ok s bl fr.
Hypothesis Hsp : spacious s 4.
Hypothesis Hlu : live s bl numerator.
Hypothesis Hlv : live s bl divisor.
Hypothesis Hlr : Forall (live s bl) rs.
Hypothesis Hu : holds (store s) numerator u.
Hypothesis Hv : holds (store s) divisor v.
Hypothesis Hrr : Forall (fun x => roomy (store s) x 0) rs.
Local Abbreviation w := (words_of (store s) numerator + words_of (store s) divisor).
Definition div_result (s2 : ctx_store) : Prop := exists bl2, steady s bl fr rs 4 s2 bl2 /\ (divides_to quotient rem numerator u v (store s2) /\ narrow rem (w + 4) (store s2)).
Definition div_stop (s2 : ctx_store) : Prop := exists bl2, steady s bl fr rs 4 s2 bl2 /\ blocked s w.

Lemma steady_wider s0 b0 f0 rs0 n n' s1 b1 : n <= n' -> steady s0 b0 f0 rs0 n s1 b1 -> steady s0 b0 f0 rs0 n' s1 b1.
Proof. intros Hn (? & ? & ? & ? & ?). split_and!; try done; lia. Qed.
Lemma blocked_wider s0 w0 w1 : 0 <= w0 <= w1 -> blocked s0 w0 -> blocked s0 w1.
Proof. intros Hw [?|[?|[?|?]]]; [by left|right; left; eapply out_of_memory_le; [|done]; lia|right; right; by left|right; right; right; lia]. Qed.
Lemma words_pos st x z : holds st x z -> z <> 0 -> 1 <= words_of st x.
Proof.
  intros Hx Hz. destruct (holds_sign _ _ _ Hx) as (l & Hl & Hval). rewrite (shows_words _ _ _ _ Hl). pose proof (zlen_nonneg l).
  destruct (Z.eq_dec (zlen l) 0) as [E|]; [apply zlen_0 in E as ->; cbn in Hval; lia|lia].
Qed.
Lemma words_nonneg st x z : holds st x z -> 0 <= words_of st x.
Proof. intros Hx. destruct (holds_sign _ _ _ Hx) as (l & Hl & _). rewrite (shows_words _ _ _ _ Hl). apply zlen_nonneg. Qed.

(** The division, once its numbers are taken. *)
Lemma div_taken xs s1 res tmp snum sdiv :
  taken s bl fr xs s1 -> zlen xs <= 4 -> tmp ∈ xs -> snum ∈ xs -> sdiv ∈ xs -> NoDup [tmp; snum; sdiv] ->
  (quotient = Some res \/ quotient = None /\ res ∈ xs /\ res ∉ [tmp; snum; sdiv]) ->
  wp (on_store (div_numbers res rem numerator divisor tmp snum sdiv)) (fun _ => div_result) div_stop s1.
Proof.
  intros (bl1 & Hok1 & Hst1 & Hnd & Hj & Hused & Hxs & Hlive & Hf1) Hz Ht Hn Hd Hnd3 Hres.
  assert (Hx : forall x, x ∈ xs -> ~ live s bl x /\ live s1 bl1 x /\ roomy (store s1) x 0) by exact (proj1 (Forall_forall _ _) Hxs).
  assert (Hin : forall x, x ∈ rs -> live s bl x) by exact (proj1 (Forall_forall _ _) Hlr).
  assert (Hqr : quotient = Some res -> res ∈ rs) by (intros ->; clear; set_solver).
  assert (Hkeep : forall x, live s bl x -> forall k, roomy (store s) x k -> roomy (store s1) x k) by (intros x Hlx k Hk; destruct (Hlive x Hlx) as (_ & _ & ? & ?); by eapply roomy_in).
  assert (Hnotin : forall x, live s bl x -> x ∉ [tmp; snum; sdiv]).
  { intros x Hlx. rewrite !not_elem_of_cons. split_and!; [intros ->; by destruct (Hx tmp Ht)|intros ->; by destruct (Hx snum Hn)|intros ->; by destruct (Hx sdiv Hd)|apply not_elem_of_nil]. }
  assert (Hhold : forall x z, live s bl x -> holds (store s) x z -> holds (store s1) x z) by (intros x z Hlx (ng & l & Hl & Hrest); destruct (Hlive x Hlx) as (_ & _ & ? & ?); exists ng, l; split; [by eapply same_number|done]).
  assert (Hwords : forall x, live s bl x -> words_of (store s1) x = words_of (store s) x) by (intros x Hlx; destruct (Hlive x Hlx) as (_ & _ & E & _); unfold words_of; by rewrite E).
  assert (Hroom : Forall (fun x => roomy (store s1) x 0) (targets rem ++ [res; tmp; snum; sdiv])).
  { apply Forall_app. split.
    - apply Forall_forall. intros x Hxr. assert (x ∈ rs) by (apply elem_of_app; by right). apply Hkeep; [by apply Hin|]. by eapply (proj1 (Forall_forall _ _) Hrr).
    - constructor; [destruct Hres as [E|(_ & Hr & _)]; [specialize (Hqr E); apply Hkeep; [by apply Hin|by eapply (proj1 (Forall_forall _ _) Hrr)]|by apply Hx]|].
      constructor; [by apply Hx|]. constructor; [by apply Hx|]. constructor; [by apply Hx|constructor]. }
  assert (Hfree : Forall (fun x => x ∉ [tmp; snum; sdiv]) (targets rem ++ [res; numerator; divisor])).
  { apply Forall_app. split.
    - apply Forall_forall. intros x Hxr. apply Hnotin, Hin, elem_of_app. by right.
    - constructor; [destruct Hres as [E|(_ & _ & Hr)]; [by apply Hnotin, Hin, Hqr|done]|]. constructor; [by apply Hnotin|]. constructor; [by apply Hnotin|constructor]. }
  assert (Hchg : Forall (fun x => x ∈ rs \/ x ∈ unused s bl \/ (length (nums (store s)) <= x)%nat) (targets rem ++ [res; tmp; snum; sdiv])).
  { apply Forall_app. split; [apply Forall_forall; intros x Hxr; left; apply elem_of_app; by right|].
    constructor; [destruct Hres as [E|(_ & Hr & _)]; [left; by apply Hqr|right; by apply not_live, Hx]|]. constructor; [right; by apply not_live, Hx|]. constructor; [right; by apply not_live, Hx|].
    constructor; [right; by apply not_live, Hx|constructor]. }
  pose proof (words_nonneg _ _ _ Hu). pose proof (words_pos _ _ _ Hv Hv0).
  apply wp_on_store. wp_flags div_numbers_spec; [by apply Hhold|by apply Hhold|done|exact Hroom|exact Hnd3|exact Hfree| |].
  - intros [] st [(Ho & Hroom' & Hq & Hr) _]. exists bl1. split; [apply (steady_wider _ _ _ _ (zlen xs)); [done|]; by eapply (steady_store _ _ _ _ _ s1 bl1 st)|].
    cbn [store]. rewrite !Hwords in Hr by done. split; [split|intros r ->; by apply Hr].
    + intros q -> Hne. destruct Hres as [[= ->]|(? & _)]; [|done]. by apply Hq.
    + intros r ->. destruct (Hr r eq_refl) as [Hr' _]. clear Hr. rename Hr' into Hr. unfold remainder_of, rem_sign in *. destruct Hres as [->|(-> & Hrx & _)].
      * destruct (decide (res = numerator)) as [->|Hne]; [by rewrite decide_True|]. rewrite decide_False; [done|]. by intros [= ->].
      * rewrite decide_False by done. rewrite decide_False in Hr; [done|]. intros ->. by apply (proj1 (Hx _ Hrx)).
  - intros st [(Ho & Hroom' & Hno) Hf]. exists bl1. split; [apply (steady_wider _ _ _ _ (zlen xs)); [done|]; by eapply (steady_store _ _ _ _ _ s1 bl1 st)|].
    rewrite !Hwords in Hno by done. destruct Hno as [?|[?|Hs]]; [right; right; right; lia|right; left; eapply out_of_memory_le; [|done]; lia|].
    right; right; left. apply (static_back (store s) (store s1)); [done|]. by eapply static_back.
Qed.

Lemma not_taken_stop n s1 : 0 <= n <= 4 -> not_taken s bl fr n s1 -> div_stop s1.
Proof.
  intros Hn (bl1 & Hst & Hbl & _). pose proof (words_nonneg _ _ _ Hu). pose proof (words_nonneg _ _ _ Hv).
  exists bl1. split; [by apply (steady_wider _ _ _ _ n); [lia|]|]. by apply (blocked_wider _ 0); [lia|].
Qed.
(** Without the divisor's number the call fails. *)
Lemma div_refused n s1 (t n' : option bn) : 0 <= n <= 4 -> not_taken s bl fr n s1 ->
  wp (sdiv ← BN_CTX_get;
      res ← (match quotient with None => BN_CTX_get | Some q => mret (Some q) end);
      match sdiv, res with
      | Some sdiv, Some res => tmp ← deref t; snum ← deref n'; on_store (div_numbers res rem numerator divisor tmp snum sdiv)
      | _, _ => fail
      end) (fun _ => div_result) div_stop s1.
Proof.
  intros Hn Hnt. pose proof Hnt as (bl1 & _ & _ & Hj). apply wp_bind. wp_call take_refused; [exact Hj| |done]. intros ? ? [-> ->].
  apply wp_bind. destruct quotient as [q|]; [by apply wp_ret, wp_fail, (not_taken_stop n)|]. wp_call take_refused; [exact Hj| |done]. intros ? ? [-> ->]. by apply wp_fail, (not_taken_stop n).
Qed.

Lemma div_body_spec : wp div_body (fun _ => div_result) div_stop s.
Proof.
  unfold spacious in Hsp. unfold div_body. apply wp_bind. wp_call take_next; [exact Hok|by apply taken_none|change (zlen []) with 0; unfold spacious; lia| |done].
  intros [tmp|] s1 H1.
  2: { pose proof H1 as (_ & _ & _ & Hj). apply wp_bind. wp_call take_refused; [exact Hj| |done]. intros ? ? [-> ->]. by apply (div_refused 1); [lia|]. }
  apply wp_bind. wp_call take_next; [exact Hok|exact H1|change (zlen ([] ++ [tmp])) with 1; unfold spacious; lia| |done].
  intros [snum|] s2 H2. 2: by apply (div_refused 2); [lia|].
  apply wp_bind. wp_call take_next; [exact Hok|exact H2|change (zlen _) with 2; unfold spacious; lia| |done].
  intros [sdiv|] s3 H3; cbn [app] in *.
  2: { apply wp_bind. assert (Hstop : div_stop s3) by by apply (not_taken_stop 3); [lia|]. destruct quotient as [q|]; [by apply wp_ret, wp_fail|].
    wp_call take_refused; [by destruct H3 as (_ & _ & _ & ?)| |done]. intros ? ? [-> ->]. by apply wp_fail. }
  assert (Hnd : NoDup [tmp; snum; sdiv]) by by destruct H3 as (? & _ & _ & ? & _).
  assert (Hres : forall o, quotient = o ->
    wp (res ← (match o with None => BN_CTX_get | Some q => mret (Some q) end);
        match res with
        | Some res => tmp ← deref (Some tmp); snum ← deref (Some snum); on_store (div_numbers res rem numerator divisor tmp snum sdiv)
        | None => fail
        end) (fun _ => div_result) div_stop s3); [|by apply Hres].
  intros [q|] Eq; apply wp_bind.
  - apply wp_ret, wp_bind, wp_deref with tmp; [done|]. apply wp_bind, wp_deref with snum; [done|].
    apply (div_taken [tmp; snum; sdiv]); [done|done|mem|mem|mem|done|by left].
  - wp_call take_next; [exact Hok|exact H3|change (zlen _) with 3; unfold spacious; lia| |done]. intros [res|] s4 H4; cbn [app] in *.
    + apply wp_bind, wp_deref with tmp; [done|]. apply wp_bind, wp_deref with snum; [done|].
      apply (div_taken [tmp; snum; sdiv; res]); [done|done|mem|mem|mem|done|]. right. split_and!; [done|mem|]. destruct H4 as (? & _ & _ & Hnd4 & _). change [tmp; snum; sdiv; res] with ([tmp; snum; sdiv] ++ [res]) in Hnd4. apply NoDup_app in Hnd4 as (_ & Hd & _). intros Hin. by apply (Hd res Hin), list_elem_of_singleton.
    + by apply wp_fail, (not_taken_stop 4); [lia|].
Qed.
End Body.
End Div.

Lemma opened_holds s fr s1 fr1 x z : opened s fr s1 fr1 -> holds (store s) x z -> holds (store s1) x z.
Proof. intros Hop (n & l & Hl & H). exists n, l. split; [by eapply opened_shows|done]. Qed.
Lemma opened_words s fr s1 fr1 x : opened s fr s1 fr1 -> words_of (store s1) x = words_of (store s) x.
Proof. intros ([E _] & _). unfold words_of. by rewrite E. Qed.
Lemma divides_same q r n u v st st' : nums st' = nums st -> arrays st' = arrays st -> divides_to q r n u v st -> divides_to q r n u v st'.
Proof.
  intros E1 E2 [H1 H2]. assert (Hh : forall x z, holds st x z -> holds st' x z) by (intros x z (g & l & Hl & H); exists g, l; split; [by eapply same_shows|done]).
  split; intros; apply Hh; eauto.
Qed.

Lemma BN_div_spec s bl fr quotient rem numerator divisor u v :
  let rs := targets quotient ++ targets rem in
  ctx_ok s bl fr -> spacious s 4 -> nestable s fr -> live s bl numerator -> live s bl divisor -> Forall (live s bl) rs ->
  holds (store s) numerator u -> holds (store s) divisor v -> Forall (fun x => roomy (store s) x 0) rs ->
  wp (BN_div quotient rem numerator divisor)
    (fun _ s' => v <> 0 /\ exists bl', restored s bl fr rs s' bl' /\ (divides_to quotient rem numerator u v (store s') /\ narrow rem (words_of (store s) numerator + words_of (store s) divisor + 4) (store s')))
    (fun s' => v = 0 /\ s' = s \/ v <> 0 /\ exists bl', restored s bl fr rs s' bl' /\ refused s fr (words_of (store s) numerator + words_of (store s) divisor)) s.
Proof.
  intros rs Hok Hsp H30 Hlu Hlv Hlr Hu Hv Hrr. destruct (holds_sign _ _ _ Hu) as (lu & Hsu & _). destruct (holds_sign _ _ _ Hv) as (lv & Hsv & _). unfold BN_div.
  assert (Eta : mkCtxStore (ctx s) (items s) (store s) = s) by by destruct s.
  assert (Hpure : forall A B (m : M bn_store A) (k : A -> M ctx_store B) Q E (a : A), wp m (fun x st => x = a /\ st = store s) (fun _ => False) (store s) -> wp (k a) Q E s -> wp (x ← on_store m; k x) Q E s).
  { intros A B m k Q E a Hm Hk. apply wp_bind, wp_on_store. wp_call Hm; [|done]. intros ? ? [-> ->]. by rewrite Eta. }
  eapply Hpure; [eapply bn_minimal_width_spec, Hsu|]. eapply Hpure; [eapply bn_minimal_width_spec, Hsv|]. eapply Hpure; [eapply zero_padded_spec, Hsu|]. cbn iota.
  eapply Hpure; [eapply zero_padded_spec, Hsv|]. cbn iota. eapply Hpure; [eapply wp_mono; [eapply BN_is_zero_holds, Hv| |done]; intros ? ? [-> ->]; by split|].
  destruct (Z.eqb_spec v 0) as [E|Hv0]; [apply wp_fail; by left|]. pose proof (words_nonneg _ _ _ Hu). pose proof (words_nonneg _ _ _ Hv).
  wp_call (framed (div_body quotient rem numerator divisor) (fun st => divides_to quotient rem numerator u v st /\ narrow rem (words_of (store s) numerator + words_of (store s) divisor + 4) st) s bl fr rs 4 (words_of (store s) numerator + words_of (store s) divisor)); [done|done|lia| | | |].
  - intros st st' E1 E2 [Hdt Hw]. split; [by eapply divides_same|]. unfold narrow, words_of in *. by rewrite E1.
  - intros s1 fr1 Hop Hok1. rewrite <- (opened_words _ _ _ _ numerator Hop), <- (opened_words _ _ _ _ divisor Hop).
    apply (div_body_spec quotient rem numerator divisor u v Hv0 s1 bl fr1); [done|unfold spacious; by destruct Hop as (_ & -> & _)|by eapply opened_live|by eapply opened_live| |by eapply opened_holds|by eapply opened_holds|].
    + eapply Forall_impl; [exact Hlr|]. intros x Hx. by eapply opened_live.
    + eapply Forall_impl; [exact Hrr|]. intros x Hx. by eapply opened_roomy.
  - intros [] s' H'. by split.
  - intros s' H'. by right.
Qed.
End Ctx.
