(* ===== verification/BnDivWord.v ===== *)
(** Facts about [BnDiv]: quotients and remainders by a word and by a power of two. *)
From S2P Require Import Prelude Mem Ct BnWords BnWordsFacts BnMulFacts CtFacts Bn BnFacts BnCmp BnAddFacts BnArith BnOneWord BnTests BnShift BnShiftFacts BnRshiftFacts BnBitsFacts BnMul BnPartFacts BnKaratsuba BnCtx BnCtxFacts BnMulCtx BnDiv BnFlags BnDivFacts BnDivNums.

(** * By a word *)

(** One more word of the dividend. *)
Lemma next_remainder v p l w : 0 < w -> (v mod w * p + l) mod w = (l + p * v) mod w.
Proof. intros Hw. rewrite (Z.add_comm l), <- (Zplus_mod_idemp_l (p * v)), (Z.mul_comm p v), <- (Z.mul_mod_idemp_l v p w), Zplus_mod_idemp_l by lia. done. Qed.
Lemma val_zdrop_next l i x : zget l i = Some x -> val (zdrop i l) = x + BASE * val (zdrop (i + 1) l).
Proof. intros Hx. by rewrite (zdrop_next _ _ _ Hx), val_cons. Qed.

Section Words.
Context `{alloc : Allocator}.

Lemma BN_mod_word_spec a u w s :
  holds s a u -> word w -> wp (BN_mod_word a w) (fun r s' => s' = s /\ r = if w =? 0 then BN_MASK2 else Z.abs u mod w) (fun _ => False) s.
Proof.
  intros Hx Hw. unfold BN_mod_word. destruct (Z.eqb_spec w 0) as [->|Hw0]; [by apply wp_ret|]. destruct (holds_sign _ _ _ Hx) as (l & Hs & Hv).
  destruct (shows_get _ _ _ _ Hs) as (x & Hxg & _ & Hwd). destruct (shows_digits _ _ _ _ Hs) as [Hd _]. pose proof (shows_at _ _ _ _ Hs) as Hat. pose proof (zlen_nonneg l). unfold word in Hw.
  apply wp_bind. eapply wp_bn_get; [exact Hxg|]. rewrite Hwd. apply wp_bind, wp_on_words. apply (wp_for (fun k ret m => m = arrays s /\ ret = val (zdrop (zlen l - k) l) mod w)).
  - rewrite Z.sub_0_r, zdrop_all. by rewrite Z.mod_0_l.
  - intros k ret m Hk [-> ->]. destruct (zget_lt l (zlen l - 1 - k)) as [d Hget]; [lia|]. pose proof (digits_zget _ _ _ Hd Hget) as Hwdd. unfold word in Hwdd.
    apply wp_bind. wp_call rd_spec; [exact Hat|exact Hget| |done]. intros ? ? [-> ->]. apply wp_ret. split; [done|]. change BN_BITS2 with 64.
    pose proof (Z.mod_pos_bound (val (zdrop (zlen l - k) l)) w ltac:(lia)). rewrite u128_id by (rewrite Z.shiftl_mul_pow2 by lia; change (2 ^ 64) with BASE; nia). rewrite lor_shiftl by (unfold word; lia).
    change (2 ^ 64) with BASE. rewrite next_remainder by lia. replace (zlen l - (k + 1)) with (zlen l - 1 - k) by lia. rewrite (val_zdrop_next _ _ _ Hget). by replace (zlen l - 1 - k + 1) with (zlen l - k) by lia.
  - intros ret m [-> ->]. rewrite eta_store. replace (zlen l - (0 + Z.of_nat (Z.to_nat (zlen l)))) with 0 by lia. rewrite zdrop_0, Hv. apply wp_ret. split; [done|]. pose proof (Z.mod_pos_bound (Z.abs u) w ltac:(lia)). apply u64_id. unfold word. lia.
Qed.

(** The words of the quotient come from the top down, in place. *)
Lemma div_word_loop m a l w :
  at_ m (bn_d a) l -> digits l -> 0 < w -> word w ->
  wp (for_ 0 (Z.to_nat (zlen l)) (fun k ret =>
       let i := zlen l - 1 - k in
       l ← rd (bn_d a) i;
       let '(d, _) := bn_div_rem_words ret l w in
       wr (bn_d a) i d;;
       mret (u64 (l - u64 (d * w)))) 0)
    (fun r m' => exists qs, m' = wput m (bn_d a) qs /\ zlen qs = zlen l /\ digits qs /\ val l = val qs * w + r /\ 0 <= r < w) (fun _ => False) m.
Proof.
  intros Hat Hd Hw0 Hw. pose proof (zlen_nonneg l). pose proof (at_writable _ _ _ Hat) as Hwr.
  assert (Hfit : forall i k, 0 <= i -> 0 <= k -> i + k <= zlen l -> writable m (wadd (bn_d a) i) k) by (intros; apply (writable_sub _ _ (zlen l)); [done|lia..]).
  apply (wp_for (fun k ret m' => exists qs, m' = wput m (wadd (bn_d a) (zlen l - k)) qs /\ zlen qs = k /\ digits qs /\ val (zdrop (zlen l - k) l) = val qs * w + ret /\ 0 <= ret < w)).
  - exists []. rewrite Z.sub_0_r, zdrop_all, wput_nil by (apply Hfit; lia). split_and!; [done|done|constructor|cbn; lia|lia..].
  - intros k ret m' Hk (qs & -> & Hz & Hdq & Hv & Hr). destruct (zget_lt l (zlen l - 1 - k)) as [d Hget]; [lia|]. pose proof (digits_zget _ _ _ Hd Hget) as Hwdd.
    cbv zeta. apply wp_bind. wp_call read_below; [exact Hat|rewrite Hz; replace (zlen l - k + k) with (zlen l) by lia; exact Hwr|lia|lia|exact Hget| |done]. intros ? ? [-> ->].
    rewrite bn_div_rem_words_spec by (unfold word in *; lia || done). set (q := (ret * BASE + d) / w). unfold word in Hw, Hwdd.
    assert (Hq : 0 <= q < BASE) by (split; [apply Z.div_pos; lia|apply Z.div_lt_upper_bound; nia]). pose proof (Z.div_mod (ret * BASE + d) w ltac:(lia)) as Hdm. fold q in Hdm. pose proof (Z.mod_pos_bound (ret * BASE + d) w ltac:(lia)).
    apply wp_bind. rewrite wr_at. replace (zlen l - k) with (zlen l - 1 - k + 1) by lia. rewrite <- wadd_wadd. wp_call (wr_front m (wadd (bn_d a) (zlen l - 1 - k)) q qs (k + 1)); [apply Hfit; lia|lia| |done].
    intros [] m' ->. apply wp_ret. exists (q :: qs). replace (zlen l - (k + 1)) with (zlen l - 1 - k) by lia. rewrite zlen_cons, Hz.
    assert (Hrem : u64 (d - u64 (q * w)) = (ret * BASE + d) mod w).
    { rewrite !u64_mod, Zminus_mod_idemp_r. replace (d - q * w) with ((ret * BASE + d) mod w + (- ret) * BASE) by lia. rewrite Z.mod_add by lia. apply Z.mod_small. lia. }
    rewrite Hrem. split_and!; [done|lia|by constructor| |lia..]. rewrite (val_zdrop_next _ _ _ Hget), val_cons. replace (zlen l - 1 - k + 1) with (zlen l - k) by lia. rewrite Hv. lia.
  - intros r m' (qs & -> & Hz & Hdq & Hv & Hr). replace (0 + Z.of_nat (Z.to_nat (zlen l))) with (zlen l) in * by lia. rewrite Z.sub_diag in *. rewrite zdrop_0 in Hv. exists qs. by rewrite wadd_0.
Qed.

(** The word shifted so that its highest bit is set. *)
Lemma normal_word w : word w -> 0 < w -> let j := BN_BITS2 - BN_num_bits_word w in 0 <= j < 64 /\ u64 (Z.shiftl w j) = w * 2 ^ j /\ word (w * 2 ^ j) /\ 0 < w * 2 ^ j.
Proof.
  intros Hw H0. cbv zeta. rewrite BN_num_bits_word_spec by done. unfold bit_length. rewrite (proj2 (Z.eqb_neq _ _)) by lia. change BN_BITS2 with 64. pose proof Hw as Hw'. unfold word in Hw'.
  pose proof (Z.log2_nonneg w). assert (Z.log2 w < 64) by (apply Z.log2_lt_pow2; lia). pose proof (Z.log2_spec w H0) as [_ Hlt]. set (j := 64 - (Z.log2 w + 1)).
  assert (0 < 2 ^ j) by (apply Z.pow_pos_nonneg; unfold j; lia). assert (Hb : w * 2 ^ j < BASE).
  { apply Z.lt_le_trans with (2 ^ Z.succ (Z.log2 w) * 2 ^ j); [nia|]. rewrite <- Z.pow_add_r by (unfold j; lia). by replace (Z.succ (Z.log2 w) + j) with 64 by (unfold j; lia). }
  rewrite Z.shiftl_mul_pow2 by (unfold j; lia). rewrite u64_id by (unfold word; nia). unfold word. split_and!; unfold j in *; first [done|nia|lia].
Qed.

(** The remainder is returned, or all ones when there is none. *)
Lemma BN_div_word_spec a u w s :
  holds s a u -> word w ->
  wp (BN_div_word a w)
    (fun r s' => if w =? 0 then r = BN_MASK2 /\ s' = s else
       r = Z.abs u mod w /\ r <> BN_MASK2 /\ sets a (Z.quot u w) s s' \/ r = BN_MASK2 /\ stunted a (words_of s a + 1) s s') (fun _ => False) s.
Proof.
  intros Hx Hw. unfold BN_div_word. destruct (Z.eqb_spec w 0) as [->|Hw0]; [by apply wp_ret|]. pose proof Hw as Hw'. unfold word in Hw'.
  assert (Hdist : forall v, 0 <= v -> v mod w <> BN_MASK2) by (intros v Hv; pose proof (Z.mod_pos_bound v w ltac:(lia)); unfold BN_MASK2; lia).
  destruct (holds_sign _ _ _ Hx) as (l & Hs & Hv). destruct (shows_get _ _ _ _ Hs) as (x & Hxg & _ & Hwd). apply wp_bind. eapply wp_bn_get; [exact Hxg|]. rewrite Hwd.
  destruct (Z.eqb_spec (zlen l) 0) as [E|E].
  { apply wp_ret. left. apply zlen_0 in E as ->. cbn [val] in Hv. assert (u = 0) as -> by lia. rewrite Z.mod_0_l, Z.quot_0_l by lia. split_and!; [done|done|split; [done|exact Hx]]. }
  destruct (normal_word w Hw ltac:(lia)) as (Hj & -> & Hww & Hwp). set (j := BN_BITS2 - BN_num_bits_word w) in *.
  apply wp_bind, wp_succeeds. wp_call BN_lshift_spec; [exact Hx|by eapply holds_roomy|lia| |].
  2: { intros s1 Hst. apply wp_ret. right. split; [done|]. rewrite Z.div_small in Hst by lia. by rewrite Z.add_0_r in Hst. }
  intros [] s1 [Ho1 Hx1]. cbn [negb]. destruct (holds_sign _ _ _ Hx1) as (l1 & Hs1 & Hv1). destruct (shows_get _ _ _ _ Hs1) as (x1 & Hxg1 & _ & Hwd1). destruct (shows_digits _ _ _ _ Hs1) as [Hd1 _].
  apply wp_bind. eapply wp_bn_get; [exact Hxg1|]. rewrite Hwd1. apply wp_bind, wp_on_words. wp_call div_word_loop; [by eapply shows_at|done|done|done| |done].
  intros r m' (qs & -> & Hz & Hdq & Hval & Hr). destruct (rewritten s1 a (u * 2 ^ j <? 0) l1 qs (bn_heap s1) x1 Hs1 Hxg1 Hdq Hz) as [Hs2 Ho2]. set (s2 := mkStore _ _ _) in *.
  apply wp_bind. wp_call minimal_holds; [exact Hs2| |done]. intros [] s3 [Ho3 Hx3]. apply wp_ret. left.
  assert (Hpow : 0 < 2 ^ j) by (apply Z.pow_pos_nonneg; lia). rewrite Hv1, Z.abs_mul, (Z.abs_eq (2 ^ j)) in Hval by lia.
  assert (Hrm : r = (Z.abs u mod w) * 2 ^ j) by (rewrite <- Z.mul_mod_distr_r by lia; apply (Z.mod_unique_pos _ _ (val qs)); lia).
  assert (Hqv : val qs = Z.abs u / w) by (rewrite <- (Z.div_mul_cancel_r _ w (2 ^ j)) by lia; apply (Z.div_unique_pos _ _ _ r); lia).
  rewrite Hrm, Z.shiftr_div_pow2, Z.div_mul by lia. split_and!; [done|apply Hdist; lia|]. split; [by do 2 (eapply others_trans; [done|])|].
  replace (Z.quot u w) with (signed (u * 2 ^ j <? 0) (val qs)); [done|]. rewrite Hqv. destruct (Z.ltb_spec (u * 2 ^ j) 0); cbn [signed].
  - replace u with (- Z.abs u) at 2 by nia. by rewrite Z.quot_opp_l, Z.quot_div_nonneg by lia.
  - by rewrite Z.quot_div_nonneg, Z.abs_eq by nia.
Qed.
End Words.

(** * By a power of two *)

Section Pow2.
Context `{alloc : Allocator}.

Lemma val_ztake_mod k l : digits l -> 0 <= k <= zlen l -> val (ztake k l) = val l mod 2 ^ (64 * k).
Proof.
  intros Hd Hk. pose proof (val_split k l ltac:(lia)) as Hv. pose proof (val_range (ztake k l) (digits_ztake _ _ Hd)) as Hr. rewrite zlen_ztake in Hr by lia.
  rewrite Z.pow_mul_r by lia. change (2 ^ 64) with BASE. apply (Z.mod_unique_pos _ _ (val (zdrop k l))); lia.
Qed.

(** The word [i] of those written to [r] goes through a mask. *)
Lemma wand_spec m r l1 w l2 mask :
  writable m (bn_d r) (zlen (l1 ++ w :: l2)) ->
  wp (wand (bn_d r) (zlen l1) mask) (fun _ m' => m' = wput m (bn_d r) (l1 ++ Z.land w mask :: l2)) (fun _ => False) (wput m (bn_d r) (l1 ++ w :: l2)).
Proof.
  intros Hw. pose proof (zlen_nonneg l1). pose proof (zlen_nonneg l2). assert (Hz : zlen (l1 ++ w :: l2) = zlen l1 + 1 + zlen l2) by (rewrite zlen_app, zlen_cons; lia). unfold wand.
  apply wp_bind. wp_call rd_spec; [by apply wput_at|by apply zget_middle| |done]. intros ? ? [-> ->].
  wp_call wr_spec; [apply wput_writable; [done|rewrite Hz in Hw; by apply (writable_sub _ _ (zlen l1 + 1 + zlen l2)); [done|lia..]]| |done]. intros [] m' ->.
  apply (wput_over m (bn_d r) l1 [w] l2 [Z.land w mask]); [|done]. change (zlen [w]) with 1. by rewrite <- Hz.
Qed.

Local Abbreviation words_for e := (1 + (e - 1) / 64).
Lemma words_for_range e : 0 < e -> 64 * (words_for e - 1) < e <= 64 * words_for e /\ 0 < words_for e.
Proof. intros He. pose proof (Z.div_mod (e - 1) 64 ltac:(lia)). pose proof (Z.mod_pos_bound (e - 1) 64 ltac:(lia)). lia. Qed.
Lemma words_for_top e : 0 < e -> e mod 64 <> 0 -> 64 * (words_for e - 1) + e mod 64 = e.
Proof. intros He Hm. pose proof (words_for_range e He). pose proof (Z.div_mod e 64 ltac:(lia)). pose proof (Z.mod_pos_bound e 64 ltac:(lia)). lia. Qed.
Lemma words_for_whole e : 0 < e -> e mod 64 = 0 -> 64 * words_for e = e.
Proof. intros He Hm. pose proof (words_for_range e He). pose proof (Z.div_mod e 64 ltac:(lia)). lia. Qed.

(** The highest of the words for [e] bits loses what is above. *)
Lemma mask_top nms hp m r l e :
  writable m (bn_d r) (zlen l) -> digits l -> 0 < e -> zlen l = words_for e ->
  wp (if negb (e mod 64 =? 0) then on_words (wand (bn_d r) (words_for e - 1) (u64 (u64 (Z.shiftl 1 (e mod 64)) - 1))) else mret tt)
    (fun _ s' => exists ws, s' = mkStore nms (wput m (bn_d r) ws) hp /\ zlen ws = zlen l /\ digits ws /\ val ws = val l mod 2 ^ e) (fun _ => False) (mkStore nms (wput m (bn_d r) l) hp).
Proof.
  intros Hwr Hd He Hz. destruct (words_for_range e He) as [Hrange Hpos]. destruct (Z.eqb_spec (e mod 64) 0) as [E|E]; cbn [negb].
  - apply wp_ret. exists l. split_and!; [done|done|done|]. pose proof (val_ztake_mod (zlen l) l Hd ltac:(lia)) as Hv. rewrite ztake_all in Hv. rewrite Hv at 1. by rewrite Hz, words_for_whole.
  - pose proof (Z.mod_pos_bound e 64 ltac:(lia)) as Hb. destruct (zget_lt l (words_for e - 1)) as [w Hget]; [lia|]. destruct (split_at _ _ _ Hget) as [El Hz1].
    set (l1 := ztake (words_for e - 1) l) in *. set (l2 := zdrop (words_for e - 1 + 1) l) in *. rewrite El in Hd, Hwr |- *. rewrite <- Hz1. apply wp_on_words. cbn [arrays nums bn_heap].
    wp_call wand_spec; [exact Hwr| |done]. intros [] m' ->. eexists. split; [done|].
    assert (Hp : 0 < 2 ^ (e mod 64) < BASE) by (split; [apply Z.pow_pos_nonneg; lia|apply (Z.pow_lt_mono_r 2 _ 64); lia]).
    assert (Hmask : u64 (u64 (Z.shiftl 1 (e mod 64)) - 1) = 2 ^ (e mod 64) - 1).
    { rewrite Z.shiftl_mul_pow2, Z.mul_1_l by lia. rewrite !u64_id by (unfold word; rewrite ?u64_id by (unfold word; lia); lia). done. }
    rewrite Hmask, land_low by lia. assert (l2 = []) as ->.
    { apply zlen_0. apply (f_equal zlen) in El. rewrite zlen_app, zlen_cons in El. lia. }
    rewrite !zlen_app, !zlen_cons. split; [done|]. split.
    + apply digits_app in Hd as Hd'. destruct Hd' as [Hd1 [Hww _]%Forall_cons]. apply digits_snoc; [done|]. pose proof (Z.mod_pos_bound w (2 ^ (e mod 64)) ltac:(lia)). unfold word. lia.
    + rewrite val_snoc, (mask_value l1 w [] (e mod 64)) by done. by rewrite Hz1, words_for_top.
Qed.

Lemma rem_pow2 u n : 0 <= n -> Z.rem u (2 ^ n) = signed (u <? 0) (Z.abs u mod 2 ^ n).
Proof.
  intros Hn. assert (0 < 2 ^ n) by (apply Z.pow_pos_nonneg; lia). destruct (Z.ltb_spec u 0); cbn [signed].
  - replace u with (- Z.abs u) at 1 by lia. rewrite Z.rem_opp_l by lia. by rewrite Z.rem_mod_nonneg by lia.
  - by rewrite Z.rem_mod_nonneg, Z.abs_eq by lia.
Qed.

(** A remainder that is not zero has no more words than the power of two. *)
Lemma BN_mod_pow2_spec r a u e s :
  holds s a u -> roomy s r 0 -> 0 <= e ->
  wp (BN_mod_pow2 r a e) (fun _ s' => sets r (Z.rem u (2 ^ e)) s s' /\ (Z.rem u (2 ^ e) = 0 \/ words_of s' r <= words_for e)) (stunted r (words_for e) s) s.
Proof.
  intros Hx Hr He. destruct (holds_sign _ _ _ Hx) as (l & Hs & Hv). destruct (shows_get _ _ _ _ Hs) as (x & Hxg & Hng & Hwd). destruct (shows_digits _ _ _ _ Hs) as [Hd _]. pose proof (zlen_nonneg l).
  unfold BN_mod_pow2. change BN_BITS2 with 64. apply wp_bind. eapply wp_bn_get; [exact Hxg|]. rewrite Hwd. rewrite rem_pow2 by done.
  destruct ((e =? 0) || (zlen l =? 0)) eqn:Etriv.
  { destruct (roomy_inv _ _ Hr) as (ng & lr & Hlr). wp_call BN_zero_spec; [exact Hlr| |done]. intros [] s' H'.
    assert (Z.abs u mod 2 ^ e = 0) as ->; [|destruct (u <? 0); cbn [signed]; split; auto]. apply orb_true_iff in Etriv as [->%Z.eqb_eq|E0%Z.eqb_eq]; [apply Z.mod_1_r|].
    apply zlen_0 in E0 as ->. rewrite <- Hv. apply Z.mod_0_l. apply Z.pow_nonzero; lia. }
  apply orb_false_iff in Etriv as [E1%Z.eqb_neq E2%Z.eqb_neq]. destruct (words_for_range e ltac:(lia)) as [Hrange Hpos].
  destruct (Z.ltb_spec (zlen l) (words_for e)) as [Hlt|Hge].
  { wp_call BN_copy_shows; [exact Hs|exact Hr| |].
    2: { intros s' (H1 & H2 & H3). eapply stunted_same; [done|done|done|exact H3|lia]. }
    intros [] s' [Ho Hs']. assert (Z.abs u mod 2 ^ e = Z.abs u) as ->.
    { apply Z.mod_small. split; [lia|]. pose proof (val_range l Hd) as Hval. rewrite Hv in Hval. apply Z.lt_le_trans with (BASE ^ zlen l); [lia|]. change BASE with (2 ^ 64). rewrite <- Z.pow_mul_r by lia. apply Z.pow_le_mono_r; lia. }
    split; [split; [done|]|right; rewrite (shows_words _ _ _ _ Hs'); lia]. exists (u <? 0), l. rewrite Hv. split_and!; [done| |done]. intros Hn%Z.ltb_lt. lia. }
  apply wp_bind. wp_call bn_wexpand_spec; [exact Hr|lia| |].
  2: { intros s' (H1 & H2 & H3). by eapply stunted_same. }
  intros [] s1 (Ho1 & Hsh1 & n1 & d1 & Hbn1 & Hroom1). pose proof (Hsh1 _ _ _ Hs) as Hs1. destruct (shows_get _ _ _ _ Hs1) as (x1 & Hxg1 & Hng1 & Hwd1). pose proof Hbn1 as (Hn1 & _).
  assert (Hzt : zlen (ztake (words_for e) l) = words_for e) by (apply zlen_ztake; lia). assert (Hwr1 : writable (arrays s1) (bn_d r) (words_for e)) by (apply roomy_writable; [by exists n1, d1|lia]).
  apply wp_bind, wp_on_words. pose proof (wread_spec (arrays s1) (bn_d a) (ztake (words_for e) l)) as Hread. rewrite Hzt in Hread. wp_call Hread; [apply at_take; [by eapply shows_at|lia]| |done]. intros ? ? [-> ->]. rewrite eta_store.
  apply wp_bind, wp_on_words. wp_call wwrite_spec; [by rewrite Hzt| |done]. intros [] m' ->.
  apply wp_bind. wp_call (mask_top (nums s1) (bn_heap s1) (arrays s1) r (ztake (words_for e) l) e); [by rewrite Hzt|by apply digits_ztake|lia|done| |done].
  intros [] s2 (ws & -> & Hz & Hdw & Hval). rewrite Hzt in Hz.
  apply wp_bind. eapply wp_bn_get; [exact Hxg1|]. apply wp_bind. eapply wp_set_neg; [exact Hn1|]. cbn [nums arrays bn_heap].
  apply wp_bind. eapply wp_set_width; [apply list_lookup_insert_eq; by eapply lookup_lt_Some|]. cbn [nums arrays bn_heap width dmax flags neg]. rewrite list_insert_insert_eq.
  destruct (written s1 r n1 d1 ws (mkBN (words_for e) (dmax n1) (neg x1) (flags n1)) (bn_heap s1)) as (Hs2 & Ho2 & _); [done|done|lia|cbn; lia|done|]. cbn [neg] in Hs2. rewrite Hng1 in *.
  wp_call bn_set_minimal_width_spec; [exact Hs2| |done]. intros [] s3 [Hs3 Ho3]. destruct (shrink_spec ws) as (_ & Hvs & _). pose proof (zlen_shrink ws).
  assert (Hm : val ws = Z.abs u mod 2 ^ e).
  { rewrite Hval, (val_ztake_mod _ _ Hd), Z.mod_mod_divide, Hv; [done|apply Z.pow_pos_nonneg; lia..| |lia]. exists (2 ^ (64 * words_for e - e)). rewrite <- Z.pow_add_r by lia. f_equal. lia. }
  split; [|right; rewrite (shows_words _ _ _ _ Hs3); lia]. split; [by do 2 (eapply others_trans; [done|])|]. exists ((u <? 0) && negb (val ws =? 0)), (shrink ws). unfold canonical. rewrite Hvs, Hm.
  assert (0 <= Z.abs u mod 2 ^ e) by (apply Z.mod_pos_bound, Z.pow_pos_nonneg; lia). split_and!; [by rewrite <- Hm| |]; destruct (u <? 0); cbn; try done; destruct (Z.eqb_spec (Z.abs u mod 2 ^ e) 0); cbn; done || lia.
Qed.

(** ** Turning the words round *)

Local Abbreviation flipped := (map (fun w => u64 (Z.lnot w))).
Lemma flip_word w : word w -> u64 (Z.lnot w) = BASE - 1 - w.
Proof. unfold word. intros Hw. rewrite u64_mod. unfold Z.lnot. replace (Z.pred (- w)) with (BASE - 1 - w + (-1) * BASE) by lia. rewrite Z.mod_add by lia. apply Z.mod_small. lia. Qed.
Lemma flipped_value l : digits l -> digits (flipped l) /\ zlen (flipped l) = zlen l /\ val (flipped l) = BASE ^ zlen l - 1 - val l.
Proof.
  intros Hd. split; [|split].
  - induction Hd as [|w l Hw Hd IH]; [constructor|]. constructor; [apply u64_word|exact IH].
  - unfold zlen. by rewrite length_map.
  - induction Hd as [|w l Hw Hd IH]; [done|]. cbn [map]. rewrite zlen_cons, !val_cons, IH, flip_word by done. pose proof (zlen_nonneg l). rewrite Z.pow_add_r by lia. change (BASE ^ 1) with BASE. lia.
Qed.
Lemma flip_loop m r l n :
  at_ m (bn_d r) l -> n = zlen l ->
  wp (for_ 0 (Z.to_nat n) (fun i _ => w ← rd (bn_d r) i; wr (bn_d r) i (u64 (Z.lnot w))) tt) (fun _ m' => m' = wput m (bn_d r) (flipped l)) (fun _ => False) m.
Proof.
  intros Hat ->. pose proof (at_writable _ _ _ Hat) as Hwr. pose proof (zlen_nonneg l). assert (Hzf : forall k : list Z, zlen (flipped k) = zlen k) by (intros k; unfold zlen; by rewrite length_map).
  apply (wp_for (fun i _ m' => m' = wput m (bn_d r) (flipped (ztake i l)))).
  - rewrite ztake_0. cbn [map]. rewrite wput_nil; [done|]. rewrite <- (wadd_0 (bn_d r)). apply (writable_sub _ _ (zlen l)); [done|lia..].
  - intros i [] m' Hi ->. destruct (zget_lt l i) as [w Hget]; [lia|]. assert (Hz : zlen (flipped (ztake i l)) = i) by (rewrite Hzf; apply zlen_ztake; lia).
    apply wp_bind. wp_call read_behind; [exact Hat|rewrite Hz; rewrite <- (wadd_0 (bn_d r)); apply (writable_sub _ _ (zlen l)); [done|lia..]|by rewrite Hz|exact Hget| |done]. intros ? ? [-> ->].
    rewrite <- Hz at 1. wp_call write_next; [exact Hwr|lia| |done]. intros [] m' ->. by rewrite (ztake_next _ _ _ Hget), map_app.
  - intros [] m' ->. replace (0 + Z.of_nat (Z.to_nat (zlen l))) with (zlen l) by lia. by rewrite ztake_all.
Qed.

(** What is above the words of [2^e] does not matter. *)
Lemma flip_mod B e v : 0 <= e -> (exists k, B = 2 ^ e * k) -> 0 <= v < 2 ^ e -> (B - 1 - v) mod 2 ^ e = 2 ^ e - 1 - v.
Proof.
  intros He [k ->] Hv. replace (2 ^ e * k - 1 - v) with (2 ^ e - 1 - v + (k - 1) * 2 ^ e) by lia. rewrite Z.mod_add by lia. apply Z.mod_small. lia.
Qed.

Lemma complement_pow2_spec r ng l e s :
  shows s r ng l -> 0 < e -> zlen l <= words_for e -> val l < 2 ^ e ->
  wp (complement_pow2 r e) (fun _ s' => others r s s' /\ exists l', shows s' r false l' /\ val l' = 2 ^ e - 1 - val l /\ zlen l' <= words_for e) (stunted r (words_for e) s) s.
Proof.
  intros Hs He Hz Hv. destruct (words_for_range e He) as [Hrange Hpos]. destruct (shows_get _ _ _ _ Hs) as (x & Hxg & _ & Hwd). destruct (shows_digits _ _ _ _ Hs) as [Hd _]. pose proof (zlen_nonneg l). pose proof (val_range l Hd).
  unfold complement_pow2. change BN_BITS2 with 64. apply wp_bind. eapply wp_bn_get; [exact Hxg|]. rewrite Hwd. cbv zeta. apply wp_bind. wp_call bn_wexpand_spec; [by eapply roomy_shows|lia| |].
  2: { intros s' (H1 & H2 & H3). eapply stunted_same; [by eapply roomy_shows|done|done|exact H3|lia]. }
  intros [] s1 (Ho1 & Hsh1 & n1 & d1 & Hbn1 & Hroom1). pose proof (Hsh1 _ _ _ Hs) as Hs1. pose proof Hbn1 as (Hn1 & _). assert (Hwr1 : writable (arrays s1) (bn_d r) (words_for e)) by (apply roomy_writable; [by exists n1, d1|lia]).
  set (k := words_for e - zlen l). set (l1 := l ++ zrep k 0). assert (Hzk : zlen (zrep k 0) = k) by (apply zlen_zrep; unfold k; lia). assert (Hz1 : zlen l1 = words_for e) by (unfold l1; rewrite zlen_app, Hzk; unfold k; lia).
  assert (Hd1 : digits l1) by (apply digits_app; split; [done|apply digits_zrep]).
  apply wp_bind, wp_on_words. wp_call wzero_spec; [unfold k; lia|apply (writable_sub _ _ (words_for e)); [done|unfold k; lia..]| |done]. intros [] m' ->.
  rewrite (append_put _ _ _ _ _ Hs1) by (rewrite Hzk; unfold k; by replace (zlen l + (words_for e - zlen l)) with (words_for e) by lia). fold l1. apply wp_bind. eapply wp_set_neg; [exact Hn1|]. cbn [nums arrays bn_heap].
  apply wp_bind. eapply wp_set_width; [apply list_lookup_insert_eq; by eapply lookup_lt_Some|]. cbn [nums arrays bn_heap width dmax flags neg]. rewrite list_insert_insert_eq.
  set (n2 := mkBN (words_for e) (dmax n1) false (flags n1)). destruct (written s1 r n1 d1 l1 n2 (bn_heap s1)) as (Hs2 & Ho2 & _); [done|done|lia|cbn; lia|done|]. cbn [neg n2] in Hs2. set (s2 := mkStore _ _ _) in *.
  assert (Hn2 : nums s2 !! r = Some n2) by (apply list_lookup_insert_eq; by eapply lookup_lt_Some).
  apply wp_bind, wp_on_words. wp_call flip_loop; [by eapply shows_at|by rewrite Hz1| |done]. intros [] m' ->. destruct (flipped_value l1 Hd1) as (Hdf & Hzf & Hvf).
  apply wp_bind. wp_call (mask_top (nums s2) (bn_heap s2) (arrays s2) r (flipped l1) e); [rewrite Hzf; apply at_writable; by eapply shows_at|done|done|by rewrite Hzf| |done].
  intros [] s3 (ws & -> & Hzw & Hdw & Hval). destruct (rewritten s2 r false l1 ws (bn_heap s2) n2) as [Hs3 Ho3]; [done|done|done|congruence|].
  wp_call bn_set_minimal_width_spec; [exact Hs3| |done]. intros [] s4 [Hs4 Ho4]. split; [by do 3 (eapply others_trans; [done|])|]. destruct (shrink_spec ws) as (_ & Hvs & _). pose proof (zlen_shrink ws).
  exists (shrink ws). split_and!; [done| |lia]. rewrite Hvs, Hval, Hvf, Hz1. unfold l1. rewrite val_pad. apply flip_mod; [lia| |lia].
  exists (2 ^ (64 * words_for e - e)). change BASE with (2 ^ 64). rewrite <- Z.pow_mul_r, <- Z.pow_add_r by lia. f_equal. lia.
Qed.

(** ** The remainder that is not negative *)

(** After the static number is gone. *)
Lemma dropped s s1 t r :
  aligned s -> length (nums s1) = S (length (nums s)) -> length (arrays s1) = S (length (nums s)) -> (forall y, (y < length (nums s))%nat -> nums s1 !! y = nums s !! y /\ arrays s1 !! y = arrays s !! y) ->
  (r < length (nums s))%nat -> others r s1 t ->
  let t' := mkStore (take (length (nums s)) (nums t)) (take (length (nums s)) (arrays t)) (bn_heap t) in
  others r s t' /\ nums t' !! r = nums t !! r /\ arrays t' !! r = arrays t !! r.
Proof.
  intros Hal Hl1 Hl2 Hold Hr (Ho1 & Ho2 & Ho3). cbv zeta. cbn [nums arrays]. unfold aligned in Hal. split; [|split; by apply lookup_take_lt].
  - unfold others. cbn [nums arrays]. rewrite !length_take. split_and!; [lia|lia|]. intros y Hy. destruct (Nat.lt_ge_cases y (length (nums s))) as [Hlt|Hge].
    + rewrite !lookup_take_lt by done. destruct (Ho3 y Hy) as [-> ->]. by apply Hold.
    + rewrite !lookup_take_ge by done. split; symmetry; apply lookup_ge_None_2; lia.
Qed.

Lemma nnmod_pow2_value u e : 0 <= e -> u mod 2 ^ e = let v := Z.rem u (2 ^ e) in if v <? 0 then v + 2 ^ e else v.
Proof.
  intros He. assert (0 < 2 ^ e) by (apply Z.pow_pos_nonneg; lia). pose proof (Z.quot_rem' u (2 ^ e)) as E. pose proof (Z.rem_bound_abs u (2 ^ e) ltac:(lia)). cbv zeta. symmetry.
  destruct (Z.ltb_spec (Z.rem u (2 ^ e)) 0); [apply (Z.mod_unique_pos _ _ (Z.quot u (2 ^ e) - 1))|apply (Z.mod_unique_pos _ _ (Z.quot u (2 ^ e)))]; lia.
Qed.

Lemma BN_nnmod_pow2_spec r a u e s :
  aligned s -> holds s a u -> roomy s r 0 -> 0 <= e ->
  wp (BN_nnmod_pow2 r a e) (fun _ => sets r (u mod 2 ^ e) s) (fun s' => others r s s' /\ roomy s' r 0 /\ no_room (words_for e + 1) s) s.
Proof.
  intros Hal Hx Hr He. unfold BN_nnmod_pow2. apply wp_bind. wp_flags BN_mod_pow2_spec; [exact Hx|exact Hr|exact He| |].
  2: { intros s1 [Hst Hf]. split_and!; [apply Hst|apply Hst|]. eapply no_room_back; [exact Hf|]. eapply stunted_room; [exact Hf|exact Hst|lia]. }
  intros [] s1 [[[Ho1 Hx1] Hw1] Hf1]. rewrite nnmod_pow2_value by done. set (v := Z.rem u (2 ^ e)) in *. cbv zeta.
  apply wp_bind. wp_call BN_is_zero_holds; [exact Hx1| |done]. intros z ? [-> ->]. destruct (holds_sign _ _ _ Hx1) as (l1 & Hs1 & Hv1). destruct (shows_get _ _ _ _ Hs1) as (x1 & Hxg1 & Hng1 & _).
  apply wp_bind. eapply wp_bn_get; [exact Hxg1|]. rewrite Hng1. destruct (Z.ltb_spec v 0) as [Hneg|Hpos]; cbn [negb]; [|rewrite orb_true_r; by apply wp_ret].
  rewrite (proj2 (Z.eqb_neq _ _)) by lia. cbn [orb]. destruct Hw1 as [?|Hw1]; [lia|]. rewrite (shows_words _ _ _ _ Hs1) in Hw1.
  assert (Hrem : Z.abs v < 2 ^ e) by (pose proof (Z.rem_bound_abs u (2 ^ e) ltac:(apply Z.pow_nonzero; lia)) as Hb; rewrite (Z.abs_eq (2 ^ e)) in Hb by (apply Z.pow_nonneg; lia); exact Hb).
  assert (He0 : 0 < e) by (destruct (Z.eq_dec e 0) as [->|]; [change (2 ^ 0) with 1 in Hrem|]; lia). destruct (words_for_range e He0) as [_ Hpos].
  apply wp_bind. wp_flags complement_pow2_spec; [exact Hs1|done|done|lia| |].
  2: { intros s2 [Hst Hf2]. destruct Hst as (Ho2 & Hr2 & Hst). split_and!; [by eapply others_trans|done|]. eapply no_room_back; [exact Hf1|]. destruct Hst as (k' & Hk & Hc). eapply cannot_grow_room; [exact Hc|lia]. }
  intros [] s2 [(Ho2 & l2 & Hs2 & Hv2 & Hw2) Hf2]. assert (Ho : others r s s2) by by eapply others_trans. assert (Hf : flags_kept s s2) by by etransitivity.
  assert (Hal2 : aligned s2) by (unfold aligned in *; destruct Ho as (-> & -> & _); done). assert (Hr2 : (r < length (nums s2))%nat) by (destruct Hs2 as (n & d & Hbn & _); by eapply bn_is_lt).
  apply wp_bind, with_static_spec; [done|unfold word; lia|]. intros s3 one Hl1 Hl2 -> (lw & Hsw & Hvw & Hzw) Hsh Hold _. pose proof (Hsh _ _ _ Hs2) as Hs3.
  apply wp_succeeds. wp_call BN_add_spec; [apply holds_pos; exact Hs3|apply holds_pos; exact Hsw|by eapply roomy_shows| |].
  - intros [] t [Hot Hxt]. destruct (dropped s2 s3 t r Hal2 Hl1 Hl2 Hold Hr2 Hot) as (Ho4 & E1 & E2). set (t' := mkStore _ _ _) in *. apply wp_ret. split; [by eapply others_trans|].
    destruct Hxt as (ng & lt & Hst & Hc & Hvt). exists ng, lt. split_and!; [by eapply same_number|done|]. rewrite <- Hvt, Hv2, Hvw. lia.
  - intros t (Hot & Hrt & k' & Hk & Hc). destruct (dropped s2 s3 t r Hal2 Hl1 Hl2 Hold Hr2 Hot) as (Ho4 & E1 & E2). apply wp_fail. split_and!; [by eapply others_trans|by eapply roomy_in|].
    rewrite (shows_words _ _ _ _ Hs3), (shows_words _ _ _ _ Hsw) in Hk. eapply no_room_back; [exact Hf|]. destruct Hc as (n & Hn & Hc). destruct (Hold r Hr2) as [E3 _].
    eapply (cannot_grow_room s2 r k'); [|lia]. exists n. by rewrite <- E3.
Qed.
End Pow2.
