(* ===== verification/BnModFacts.v ===== *)
(** Facts about the modular operations of [BnDiv] that divide: remainders that are not negative, and
    sums, products and shifts with such a remainder. *)
From S2P Require Import Prelude Mem Ct BnWords BnWordsFacts Bn BnFacts BnCmp BnAddFacts BnArith BnOneWord BnTests BnShift BnShiftFacts BnBitsFacts BnMul BnCtx BnCtxFacts BnMulCtx BnSqrCtx BnDiv BnFlags BnDivFacts BnDivNums BnDivCtx BnDivWord.

Section Mod.
Context `{alloc : Allocator}.

(** * One call after the other *)

(** What the second call needs of the state that the first leaves. *)
Section Then.
Variables (s : ctx_store) (bl : list bn) (fr : list Z) (rs : list bn) (s1 : ctx_store) (bl1 : list bn).
Hypothesis Hok : ctx_ok s bl fr.
Hypothesis Hres : restored s bl fr rs s1 bl1.

Lemma restored_ok : ctx_ok s1 bl1 fr.
Proof. by destruct Hres. Qed.
Lemma restored_live x : live s bl x -> live s1 bl1 x.
Proof. destruct Hres as (_ & Hc & Hu & _). destruct Hok as ((_ & _ & H1 & H2 & _) & _). intros Hx. eapply live_later; [| |exact Hc|exact Hx]; lia. Qed.
Lemma restored_spacious n : spacious s n -> spacious s1 n.
Proof. destruct Hres as (_ & _ & Hu & _). unfold spacious. by rewrite Hu. Qed.
Lemma restored_nestable : nestable s fr -> nestable s1 fr.
Proof. destruct Hres as (_ & _ & _ & He & _). unfold nestable. by rewrite He. Qed.
Lemma restored_same x : live s bl x -> x ∉ rs -> nums (store s1) !! x = nums (store s) !! x /\ arrays (store s1) !! x = arrays (store s) !! x.
Proof. destruct Hres as (_ & (_ & _ & Hc) & _). intros [H1 H2] H3. by apply Hc. Qed.
Lemma restored_holds x z : live s bl x -> x ∉ rs -> holds (store s) x z -> holds (store s1) x z.
Proof. intros Hl Hx (ng & l & Hs & H). destruct (restored_same x Hl Hx). exists ng, l. split; [by eapply same_number|done]. Qed.
Lemma restored_words x : live s bl x -> x ∉ rs -> words_of (store s1) x = words_of (store s) x.
Proof. intros Hl Hx. destruct (restored_same x Hl Hx) as [E _]. unfold words_of. by rewrite E. Qed.
Lemma restored_jammed : jammed s1 = jammed s.
Proof. destruct Hres as (_ & _ & _ & He & Ht). unfold jammed. by rewrite He, Ht. Qed.
Lemma restored_trans rs' s2 bl2 : rs' ⊆ rs -> restored s1 bl1 fr rs' s2 bl2 -> restored s bl fr rs s2 bl2.
Proof.
  destruct Hres as (Hok1 & Hc1 & Hu1 & He1 & Ht1). destruct Hok as ((_ & _ & Hu & Hps & _) & _). intros Hsub (Hok2 & Hc2 & Hu2 & He2 & Ht2). split_and!; [done| |congruence..].
  eapply calm_trans; [|  | |exact Hc1|exact Hc2]; [lia|lia|]. apply Forall_forall. intros x Hx. left. by apply Hsub.
Qed.
End Then.

Lemma restored_mono s bl fr rs rs' s' bl' : rs ⊆ rs' -> restored s bl fr rs s' bl' -> restored s bl fr rs' s' bl'.
Proof. intros Hrs (H1 & H2 & H3). split; [done|]. split; [by eapply calm_mono|done]. Qed.
Lemma restored_refl s bl fr rs : ctx_ok s bl fr -> restored s bl fr rs s bl.
Proof. intros Hok. split; [done|]. split; [apply calm_refl|done]. Qed.
Lemma restored_step s bl fr r s1 bl1 rs s2 bl2 : ctx_ok s bl fr -> restored s bl fr [r] s1 bl1 -> restored s1 bl1 fr rs s2 bl2 -> restored s bl fr (r :: rs) s2 bl2.
Proof.
  intros Hok H1 H2. eapply (restored_trans s bl fr (r :: rs) s1 bl1 Hok); [|by apply (list_subseteq_cons r rs rs)|exact H2].
  eapply restored_mono; [|exact H1]. intros x Hx%list_elem_of_singleton. rewrite Hx. left.
Qed.

(** Nor are there other reasons to fail. *)
Lemma refused_back s s1 fr w w' : jammed s1 = jammed s -> ctx_flags_kept s s1 -> refused s1 fr w -> 0 <= w <= w' -> refused s fr w'.
Proof.
  intros Ej Hf [Hj|[Hm|[Hs|Hw]]] Hle; [left; by rewrite <- Ej|right; left; eapply out_of_memory_le; [|exact Hm]; lia| |right; right; right; lia].
  right; right; left. by eapply (static_back (store s) (store s1)).
Qed.
Lemma restored_refused s bl fr rs s1 bl1 w w' : restored s bl fr rs s1 bl1 -> ctx_flags_kept s s1 -> refused s1 fr w -> 0 <= w <= w' -> refused s fr w'.
Proof. intros Hres. by eapply refused_back, restored_jammed. Qed.
Lemma restored_steady s bl fr rs s1 bl1 : restored s bl fr rs s1 bl1 -> steady s bl fr rs 0 s1 bl1.
Proof. intros (H1 & H2 & H3 & H4 & H5). split_and!; try done; lia. Qed.
Lemma blocked_refused s fr w w' : blocked s w -> 0 <= w <= w' -> refused s fr w'.
Proof. pose proof (zlen_nonneg fr). intros [?|[Hm|[?|?]]] Hw; [by left|right; left; eapply out_of_memory_le; [|exact Hm]; lia|right; right; by left|right; right; right; lia]. Qed.

(** Numbers that could not be had. *)
Lemma no_room_refused s fr k w : no_room k (store s) -> k <= 8 * w -> refused s fr w.
Proof. intros [H|[H|H]] Hk; [right; right; right; lia| |right; right; by left]. right; left. pose proof (zlen_nonneg fr). eapply out_of_memory_le; [|exact H]. lia. Qed.

(** Reading a number changes nothing. *)
Lemma wp_get_number x n (Q : BIGNUM -> ctx_store -> Prop) E s : nums (store s) !! x = Some n -> Q n s -> wp (bn_get_ctx x) Q E s.
Proof. intros Hx HQ. unfold bn_get_ctx. apply wp_on_store. eapply wp_bn_get; [exact Hx|]. by destruct s. Qed.

(** * BN_nnmod *)

Lemma rem_nonneg u v : v <> 0 -> u mod Z.abs v = let w := Z.rem u v in if w <? 0 then (if v <? 0 then w - v else w + v) else w.
Proof.
  intros Hv. pose proof (Z.quot_rem' u v) as E. pose proof (Z.rem_bound_abs u v Hv). cbv zeta. symmetry.
  destruct (Z.ltb_spec (Z.rem u v) 0), (Z.ltb_spec v 0); [apply (Z.mod_unique_pos _ _ (- Z.quot u v - 1))|apply (Z.mod_unique_pos _ _ (Z.quot u v - 1))|apply (Z.mod_unique_pos _ _ (- Z.quot u v))|apply (Z.mod_unique_pos _ _ (Z.quot u v))]; lia.
Qed.

Lemma BN_mod_spec s bl fr r m d u v :
  ctx_ok s bl fr -> spacious s 4 -> nestable s fr -> live s bl r -> live s bl m -> live s bl d -> holds (store s) m u -> holds (store s) d v -> roomy (store s) r 0 ->
  wp (BN_mod r m d)
    (fun _ s' => v <> 0 /\ exists bl', restored s bl fr [r] s' bl' /\ sized r (Z.rem u v) (words_of (store s) m + words_of (store s) d + 4) (store s') (store s'))
    (fun s' => v = 0 /\ s' = s \/ v <> 0 /\ exists bl', restored s bl fr [r] s' bl' /\ refused s fr (words_of (store s) m + words_of (store s) d)) s.
Proof.
  intros Hok Hsp H30 Hlr Hlm Hld Hu Hv Hr. unfold BN_mod. wp_call BN_div_spec; [exact Hok|exact Hsp|exact H30|exact Hlm|exact Hld|by constructor|exact Hu|exact Hv|by constructor| |done].
  intros [] s1 (Hv0 & bl1 & Hres & [_ Hrem] & Hw). split; [done|]. exists bl1. split; [done|]. split; [|by apply Hw]. split; [apply others_refl|]. specialize (Hrem r eq_refl). unfold remainder_of in Hrem. by rewrite decide_False, rem_signed in Hrem.
Qed.

Lemma BN_nnmod_spec s bl fr r m d u v :
  ctx_ok s bl fr -> spacious s 4 -> nestable s fr -> live s bl r -> live s bl m -> live s bl d -> r <> d -> holds (store s) m u -> holds (store s) d v -> roomy (store s) r 0 ->
  wp (BN_nnmod r m d)
    (fun _ s' => v <> 0 /\ exists bl', restored s bl fr [r] s' bl' /\ holds (store s') r (u mod Z.abs v))
    (fun s' => v = 0 /\ s' = s \/ v <> 0 /\ exists bl', restored s bl fr [r] s' bl' /\ refused s fr (words_of (store s) m + words_of (store s) d)) s.
Proof.
  intros Hok Hsp H30 Hlr Hlm Hld Hne Hu Hv Hr. unfold BN_nnmod. apply wp_bind.
  eapply wp_mono; [eapply (wp_with ctx_flags_kept); [apply flags_div|by eapply BN_mod_spec]| |by intros s' []]. cbv beta.
  intros [] s1 [(Hv0 & bl1 & Hres & [[_ Hrem] Hw]) Hf]. rewrite rem_nonneg by done. cbv zeta. pose proof (words_nonneg _ _ _ Hu). pose proof (words_pos _ _ _ Hv Hv0).
  assert (Hd : d ∉ [r]) by (rewrite list_elem_of_singleton; congruence). pose proof (restored_holds _ _ _ _ _ _ Hres d v Hld Hd Hv) as Hv1. pose proof (restored_words _ _ _ _ _ _ Hres d Hld Hd) as Hwd.
  destruct (holds_sign _ _ _ Hrem) as (lr & Hsr & _). destruct (shows_get _ _ _ _ Hsr) as (x & Hx & Hng & _). destruct (holds_sign _ _ _ Hv1) as (ld & Hsd & _). destruct (shows_get _ _ _ _ Hsd) as (y & Hy & Hngd & _).
  apply wp_bind. eapply wp_get_number; [exact Hx|]. rewrite Hng. destruct (Z.ltb_spec (Z.rem u v) 0) as [Hneg|Hpos]; cbn [negb]; [|apply wp_ret; split; [done|by exists bl1]].
  apply wp_bind. eapply wp_get_number; [exact Hy|]. rewrite Hngd.
  assert (Hend : forall op z, (forall st, holds st r (Z.rem u v) -> holds st d v -> roomy st r 0 -> wp (op r r d : M bn_store unit) (fun _ => sets r z st) (stunted r (Z.max (words_of st r) (words_of st d) + 1) st) st) ->
    always flags_kept (op r r d) ->
    wp (on_store (op r r d)) (fun _ s' => v <> 0 /\ exists bl', restored s bl fr [r] s' bl' /\ holds (store s') r z)
      (fun s' => v = 0 /\ s' = s \/ v <> 0 /\ exists bl', restored s bl fr [r] s' bl' /\ refused s fr (words_of (store s) m + words_of (store s) d)) s1).
  { intros op z Hop Hfl. apply wp_on_store. eapply wp_mono; [eapply (wp_with flags_kept); [exact Hfl|apply Hop; [done|done|by eapply holds_roomy]]| |]; cbv beta.
    - intros [] st [[Ho Hz] _]. split; [done|]. exists bl1. split; [|done]. eapply restored_then; [exact Hres|exact Ho|by eapply holds_roomy].
    - intros st [Hst Hfs]. right. split; [done|]. exists bl1. destruct Hst as (Ho & Hroom & k' & Hk & Hc). split; [by eapply restored_then|].
      apply (restored_refused s bl fr [r] s1 bl1 (words_of (store s) m + words_of (store s) d)); [exact Hres|exact Hf| |lia]. apply (no_room_refused _ _ (words_of (store s) m + words_of (store s) d + 5)); [|lia].
      eapply cannot_grow_room; [exact Hc|]. rewrite Hwd in Hk. lia. }
  destruct (v <? 0); [apply (Hend BN_sub)|apply (Hend BN_add)]; try (apply flags_sub || apply flags_add); intros st Hr1 Hd1 Hr0; [by apply BN_sub_spec|by apply BN_add_spec].
Qed.

(** * Sums, products and shifts *)

(** Why one of these fails: there is no remainder by zero, or something of [w] words could not be had. *)
Definition mod_failed (v : Z) (s : ctx_store) (bl : list bn) (fr : list Z) (r : bn) (w : Z) (s' : ctx_store) : Prop :=
  exists bl', restored s bl fr [r] s' bl' /\ (v = 0 \/ refused s fr w).
Definition mod_done (v z : Z) (s : ctx_store) (bl : list bn) (fr : list Z) (r : bn) (s' : ctx_store) : Prop :=
  v <> 0 /\ exists bl', restored s bl fr [r] s' bl' /\ holds (store s') r (z mod Z.abs v).

(** A step that sets [r], and the remainder of it. *)
Lemma then_nnmod s bl fr r m v z k (op : M bn_store unit) :
  ctx_ok s bl fr -> spacious s 4 -> nestable s fr -> live s bl r -> live s bl m -> r <> m -> holds (store s) m v -> 0 <= k ->
  always flags_kept op -> wp op (fun _ => sized r z k (store s)) (stunted r k (store s)) (store s) ->
  wp (on_store op;; BN_nnmod r r m) (fun _ => mod_done v z s bl fr r) (mod_failed v s bl fr r (k + words_of (store s) m)) s.
Proof.
  intros Hok Hsp H30 Hlr Hlm Hne Hv Hk Hfl Hop. pose proof (words_nonneg _ _ _ Hv). apply wp_bind, wp_on_store. eapply wp_mono; [exact (wp_with _ _ _ _ _ Hfl Hop)| |]; cbv beta.
  2: { intros st [(Ho & Hroom & k' & Hk' & Hc) Hf]. exists bl. split; [by apply restored_store|]. right. apply (no_room_refused _ _ k); [|lia]. by eapply cannot_grow_room. }
  intros [] st [[[Ho Hz] Hw] Hf]. assert (Hres : restored s bl fr [r] (mkCtxStore (ctx s) (items s) st) bl) by (apply restored_store; [done|done|by eapply holds_roomy]). set (s1 := mkCtxStore _ _ _) in *.
  assert (Hm : m ∉ [r]) by (rewrite list_elem_of_singleton; congruence).
  eapply wp_mono; [apply (BN_nnmod_spec s1 bl fr r r m z v)|..].
  - by eapply restored_ok.
  - done.
  - by eapply (restored_nestable s bl).
  - by eapply (restored_live s bl).
  - by eapply (restored_live s bl).
  - by eapply (restored_live s bl).
  - done.
  - done.
  - by eapply (restored_holds s bl).
  - by eapply holds_roomy.
  - intros [] s2 (Hv0 & bl2 & Hres2 & Hz2). split; [done|]. exists bl2. split; [|done]. by eapply (restored_trans s bl fr [r]).
  - intros s2 [[-> ->]|(Hv0 & bl2 & Hres2 & Hrf)]; [exists bl; split; [done|by left]|]. exists bl2. split; [by eapply (restored_trans s bl fr [r])|]. right.
    pose proof (words_nonneg _ _ _ Hz). eapply restored_refused; [exact Hres|exact Hf|exact Hrf|]. pose proof (restored_words s bl fr [r] s1 bl Hres m Hlm Hm) as Ew. cbn [store s1] in *. lia.
Qed.

Section Ops.
Variables (s : ctx_store) (bl : list bn) (fr : list Z) (r a b m : bn) (u w v : Z).
Hypothesis Hok : ctx_ok s bl fr.
Hypothesis Hsp : spacious s 5.
Hypothesis H30 : nestable s fr.
Hypothesis Hlr : live s bl r.
Hypothesis Hla : live s bl a.
Hypothesis Hlb : live s bl b.
Hypothesis Hlm : live s bl m.
Hypothesis Hne : r <> m.
Hypothesis Hu : holds (store s) a u.
Hypothesis Hw : holds (store s) b w.
Hypothesis Hv : holds (store s) m v.
Hypothesis Hr : roomy (store s) r 0.
Local Abbreviation wa := (words_of (store s) a).
Local Abbreviation wb := (words_of (store s) b).
Local Abbreviation wm := (words_of (store s) m).

Lemma BN_mod_add_spec : wp (BN_mod_add r a b m) (fun _ => mod_done v (u + w) s bl fr r) (mod_failed v s bl fr r (Z.max wa wb + 1 + wm)) s.
Proof. pose proof (words_nonneg _ _ _ Hu). apply then_nnmod; try done; [unfold spacious in *; lia|lia|apply flags_add|by apply BN_add_sized]. Qed.
Lemma BN_mod_sub_spec : wp (BN_mod_sub r a b m) (fun _ => mod_done v (u - w) s bl fr r) (mod_failed v s bl fr r (Z.max wa wb + 1 + wm)) s.
Proof. pose proof (words_nonneg _ _ _ Hu). apply then_nnmod; try done; [unfold spacious in *; lia|lia|apply flags_sub|by apply BN_sub_sized]. Qed.
Lemma BN_mod_lshift1_spec : wp (BN_mod_lshift1 r a m) (fun _ => mod_done v (2 * u) s bl fr r) (mod_failed v s bl fr r (wa + 1 + wm)) s.
Proof. pose proof (words_nonneg _ _ _ Hu). apply then_nnmod; try done; [unfold spacious in *; lia|lia|apply flags_lshift1|by apply BN_lshift1_sized]. Qed.

(** Two calls of the context, the second in place. *)
Lemma BN_mod_sqr_spec : wp (BN_mod_sqr r a m) (fun _ => mod_done v (u * u) s bl fr r) (mod_failed v s bl fr r (2 * wa + wm)) s.
Proof.
  pose proof (words_nonneg _ _ _ Hu). pose proof (words_nonneg _ _ _ Hv). pose proof Hu as (na & la & Hsa & Hca & Eu). unfold BN_mod_sqr. apply wp_bind.
  eapply wp_mono; [eapply (wp_with ctx_flags_kept); [apply flags_sqr|apply (BN_sqr_sized s bl fr r a u (2 * wa)); try done]| |]; cbv beta.
  - unfold spacious in *; lia.
  - exists na, la. by rewrite (shows_words _ _ _ _ Hsa).
  - intros [] s1 [(bl1 & Hres & Hz & Hwr) Hf]. assert (Hm : m ∉ [r]) by (rewrite list_elem_of_singleton; congruence).
    eapply wp_mono; [apply (BN_mod_spec s1 bl1 fr r r m (u * u) v)|..].
    + by eapply restored_ok.
    + eapply (restored_spacious s bl); [exact Hres|]. unfold spacious in *; lia.
    + by eapply (restored_nestable s bl).
    + by eapply (restored_live s bl).
    + by eapply (restored_live s bl).
    + by eapply (restored_live s bl).
    + done.
    + by eapply (restored_holds s bl).
    + by eapply holds_roomy.
    + intros [] s2 (Hv0 & bl2 & Hres2 & [[_ Hz2] _]). split; [done|]. exists bl2. split; [by eapply (restored_trans s bl fr [r])|].
      rewrite rem_nonneg by done. cbv zeta. rewrite (proj2 (Z.ltb_ge _ _)); [done|]. apply Z.rem_nonneg; [done|nia].
    + intros s2 [[-> ->]|(Hv0 & bl2 & Hres2 & Hrf)]; [exists bl1; split; [done|by left]|]. exists bl2. split; [by eapply (restored_trans s bl fr [r])|]. right.
      pose proof (words_nonneg _ _ _ Hz). eapply restored_refused; [exact Hres|exact Hf|exact Hrf|]. rewrite (restored_words s bl fr [r] s1 bl1 Hres m Hlm Hm). lia.
  - intros s1 [(bl1 & Hres & Hrf) _]. exists bl1. split; [done|]. right. destruct Hrf as [?|[Hmem|[?|?]]]; [by left|right; left; eapply out_of_memory_le; [|exact Hmem]; lia|right; right; by left|right; right; right; lia].
Qed.

(** The product in a number [t] of its own. *)
Lemma any_product s1 bl1 fr1 t :
  ctx_ok s1 bl1 fr1 -> spacious s1 2 -> nestable s1 fr1 -> live s1 bl1 t -> live s1 bl1 a -> live s1 bl1 b -> t <> a -> t <> b -> holds (store s1) a u -> holds (store s1) b w -> roomy (store s1) t 0 ->
  wp (if Nat.eqb a b then BN_sqr t a else BN_mul t a b)
    (fun _ s2 => exists bl2, restored s1 bl1 fr1 [t] s2 bl2 /\ holds (store s2) t (u * w) /\ words_of (store s2) t <= words_of (store s1) a + words_of (store s1) b)
    (fun s2 => exists bl2, restored s1 bl1 fr1 [t] s2 bl2 /\ refused s1 fr1 (words_of (store s1) a + words_of (store s1) b)) s1.
Proof.
  intros Hok1 Hsp1 Hn1 Ht Ha Hb Hta Htb (na & la & Hsa & Hca & Eu) (nb & lb & Hsb & Hcb & Ew) Hrt. destruct (Nat.eqb_spec a b) as [E|Hab].
  - rewrite <- E in Hsb |- *. destruct (shows_inj _ _ _ _ _ _ Hsa Hsb) as [<- <-]. rewrite (shows_words _ _ _ _ Hsa), Ew, <- Eu. replace (zlen la + zlen la) with (2 * zlen la) by lia.
    apply BN_sqr_sized; try done. by exists na, la.
  - rewrite (shows_words _ _ _ _ Hsa), (shows_words _ _ _ _ Hsb). apply BN_mul_sized; try done; [by exists na, la, nb, lb|]. intros [?|?]; congruence.
Qed.

Definition mul_mod_body : M ctx_store unit :=
  t ← BN_CTX_get;
  match t with
  | None => fail
  | Some t => (if Nat.eqb a b then BN_sqr t a else BN_mul t a b);; BN_nnmod r t m
  end.
Lemma mul_mod_body_spec s1 fr1 :
  opened s fr s1 fr1 -> ctx_ok s1 bl fr1 -> nestable s1 fr1 ->
  wp mul_mod_body (fun _ s2 => exists bl2, steady s1 bl fr1 [r] 1 s2 bl2 /\ (v <> 0 /\ holds (store s2) r ((u * w) mod Z.abs v)))
    (fun s2 => exists bl2, steady s1 bl fr1 [r] 1 s2 bl2 /\ (v = 0 \/ refused s1 fr1 (wa + wb + wm))) s1.
Proof.
  intros Hop Hok1 Hn1. pose proof (words_nonneg _ _ _ Hu). pose proof (words_nonneg _ _ _ Hw). pose proof (words_nonneg _ _ _ Hv).
  assert (Hsp1 : spacious s1 5) by (unfold spacious in *; by destruct Hop as (_ & -> & _)). unfold spacious in Hsp1.
  unfold mul_mod_body. apply wp_bind. eapply wp_mono; [eapply (wp_with ctx_flags_kept); [apply flags_CTX_get|apply BN_CTX_get_spec; [exact Hok1|unfold spacious; lia]]| |by intros ? []]. cbv beta.
  intros [t|] s2 [Hgot Hf].
  2: { destruct (got_none bl fr1 s1 [r] s2 0 ltac:(lia) Hgot) as [Hst Hb]. apply wp_fail. exists bl. split; [done|]. right. eapply blocked_refused; [exact Hb|lia]. }
  destruct (got_some _ _ _ _ _ Hok1 Hgot) as (bl1 & Hok2 & Hst & Hnt & Hlt & Hrt & _ & Hus & Hj & Hkeep).
  assert (Hin : forall x z, live s bl x -> holds (store s) x z -> live s2 bl1 x /\ t <> x /\ holds (store s2) x z /\ words_of (store s2) x = words_of (store s) x).
  { intros x z Hx Hz. assert (Hx1 : live s1 bl x) by by eapply opened_live. destruct (Hkeep x Hx1) as (Hx2 & Hnx & E1 & E2). split; [done|]. split; [congruence|]. assert (Hz1 : holds (store s1) x z) by by eapply opened_holds.
    split; [destruct Hz1 as (ng & l & Hl & Hz1); exists ng, l; split; [by eapply same_number|done]|]. rewrite <- (opened_words _ _ _ _ x Hop). unfold words_of. by rewrite E1. }
  destruct (Hin a u Hla Hu) as (Hla2 & Nta & Hu2 & Ea), (Hin b w Hlb Hw) as (Hlb2 & Ntb & Hw2 & Eb), (Hin m v Hlm Hv) as (Hlm2 & Ntm & Hv2 & Em).
  assert (Hr2 : live s2 bl1 r /\ t <> r /\ roomy (store s2) r 0).
  { assert (Hx1 : live s1 bl r) by by eapply opened_live. destruct (Hkeep r Hx1) as (? & ? & E1 & E2). split_and!; [done|congruence|]. eapply roomy_in; [exact E1|exact E2|]. by eapply opened_roomy. }
  destruct Hr2 as (Hlr2 & Ntr & Hrr2). assert (Hn2 : nestable s2 fr1) by (destruct (Hst []) as (_ & _ & He & _); unfold nestable; by rewrite He).
  assert (Hall : Forall (fun x => x ∈ [r] \/ x ∈ unused s1 bl \/ (length (nums (store s1)) <= x)%nat) [t]) by (constructor; [right; by apply not_live|constructor]).
  apply wp_bind. eapply wp_mono; [eapply (wp_with ctx_flags_kept); [destruct (Nat.eqb a b); [apply flags_sqr|apply flags_mul]|apply (any_product s2 bl1 fr1 t); try done; unfold spacious; lia]| |]; cbv beta; rewrite Ea, Eb.
  2: { intros s3 [(bl3 & Hres & Hrf) _]. exists bl3. split; [exact (steady_trans _ _ _ _ _ 1 0 _ _ _ _ Hok1 Hall (Hst [r]) (restored_steady _ _ _ _ _ _ Hres))|]. right. eapply refused_back; [exact Hj|exact Hf|exact Hrf|lia]. }
  intros [] s3 [(bl3 & Hres & Hz & Hwt) Hf3]. assert (Hnin : forall x, t <> x -> x ∉ [t]) by (intros x Hx; rewrite list_elem_of_singleton; congruence).
  assert (Hst3 : steady s1 bl fr1 [r] 1 s3 bl3) by exact (steady_trans _ _ _ _ _ 1 0 _ _ _ _ Hok1 Hall (Hst [r]) (restored_steady _ _ _ _ _ _ Hres)).
  assert (Hself : Forall (fun x => x ∈ [r] \/ x ∈ unused s1 bl \/ (length (nums (store s1)) <= x)%nat) [r]) by (constructor; [left; by left|constructor]).
  eapply wp_mono; [apply (BN_nnmod_spec s3 bl3 fr1 r t m (u * w) v)|..].
  - by eapply restored_ok.
  - eapply (restored_spacious s2 bl1); [exact Hres|]. unfold spacious. lia.
  - by eapply (restored_nestable s2 bl1).
  - by eapply (restored_live s2 bl1).
  - by eapply (restored_live s2 bl1).
  - by eapply (restored_live s2 bl1).
  - exact Hne.
  - exact Hz.
  - eapply (restored_holds s2 bl1); [exact Hres|exact Hlm2|by apply Hnin|exact Hv2].
  - destruct (restored_same s2 bl1 fr1 [t] s3 bl3 Hres r Hlr2 (Hnin _ Ntr)). by eapply roomy_in.
  - intros [] s4 (Hv0 & bl4 & Hres4 & Hz4). exists bl4. split; [|by split]. exact (steady_trans _ _ _ _ _ 1 0 _ _ _ _ Hok1 Hself Hst3 (restored_steady _ _ _ _ _ _ Hres4)).
  - intros s4 [[-> ->]|(Hv0 & bl4 & Hres4 & Hrf)]; [exists bl3; split; [done|by left]|]. exists bl4. split; [exact (steady_trans _ _ _ _ _ 1 0 _ _ _ _ Hok1 Hself Hst3 (restored_steady _ _ _ _ _ _ Hres4))|]. right.
    pose proof (words_nonneg _ _ _ Hz). eapply refused_back; [exact Hj|exact Hf| |]; [eapply (restored_refused s2 bl1); [exact Hres|exact Hf3|exact Hrf|]|]; rewrite ?(restored_words s2 bl1 fr1 [t] s3 bl3 Hres m Hlm2 (Hnin _ Ntm)), ?Em; [split; [lia|reflexivity]|lia].
Qed.

Lemma BN_mod_mul_spec : zlen fr < 2 ^ 30 - 1 -> err_stack (ctx s) < 2 ^ 31 - 2 ->
  wp (BN_mod_mul r a b m) (fun _ => mod_done v (u * w) s bl fr r) (mod_failed v s bl fr r (wa + wb + wm + 1)) s.
Proof.
  intros H1 H2. pose proof (words_nonneg _ _ _ Hu). pose proof (words_nonneg _ _ _ Hw). pose proof (words_nonneg _ _ _ Hv).
  wp_call (framed_why mul_mod_body (fun st => v <> 0 /\ holds st r ((u * w) mod Z.abs v)) (fun s1 fr1 => v = 0 \/ refused s1 fr1 (wa + wb + wm)) s bl fr [r] 1); [exact Hok|done| | | |].
  - intros st st' E1 E2 [Hv0 (ng & l & Hl & Hz)]. split; [done|]. exists ng, l. split; [by eapply same_shows|done].
  - intros s1 fr1 Hop Hok1. apply mul_mod_body_spec; [done|done|]. destruct Hop as (_ & _ & _ & Hcase). unfold nestable. destruct Hcase as [(_ & -> & ->)|(_ & -> & ->)]; rewrite ?zlen_cons; lia.
  - intros [] s' (bl' & Hres & Hv0 & Hz). split; [done|]. by exists bl'.
  - intros s' (bl' & Hres & s1 & fr1 & Hop & Hb). exists bl'. split; [done|]. destruct Hb as [?|Hb]; [by left|right]. eapply opened_refused; [exact Hok|exact Hop|exact Hb|lia|lia].
Qed.
End Ops.
End Mod.
