(* ===== verification/BnQuickFacts.v ===== *)
(** Facts about the modular operations of [BnDiv] on numbers that are reduced already: by words
    that do not depend on the values, with numbers of the scratch context. *)
From S2P Require Import Prelude Mem MemFacts Ct BnWords BnWordsFacts BnMulFacts CtFacts Bn BnFacts BnCmp BnAddFacts BnArith BnTests BnShift BnShiftFacts BnBitsFacts BnMul BnPartFacts BnKaratsuba BnCtx BnCtxFacts BnMulCtx BnSqrCtx BnFrames BnDiv BnFlags BnDivFacts BnDivNums BnDivCtx BnModFacts.

(** * Words *)

Section Words.
Variables (m : words) (r a b p tmp : wptr) (la lb lm : list Z) (n : Z).
Hypothesis Ha : at_ m a la.
Hypothesis Hb : at_ m b lb.
Hypothesis Hp : at_ m p lm.
Hypothesis Hda : digits la.
Hypothesis Hdb : digits lb.
Hypothesis Hdp : digits lm.
Hypothesis Hza : zlen la = n.
Hypothesis Hzb : zlen lb = n.
Hypothesis Hzp : zlen lm = n.
Hypothesis Hr : writable m r n.
Hypothesis Ht : writable m tmp n.
Hypothesis Hra : ahead r n a.
Hypothesis Hrb : ahead r n b.
Hypothesis Hrp : apart r n p n.
Hypothesis Hrt : apart r n tmp n.
Hypothesis Hta : apart tmp n a n.
Hypothesis Htb : apart tmp n b n.
Hypothesis Htp : apart tmp n p n.
Hypothesis Hltz : val la < val lm.
Hypothesis Hltb : val lb < val lm.

(** One of the two numbers at [tmp] and at [r] is kept. *)
Lemma select_from m2 lt lr (c : bool) v :
  keeps m m2 (mine r n tmp n) -> at_ m2 tmp lt -> at_ m2 r lr -> digits lt -> digits lr -> zlen lt = n -> zlen lr = n -> v = val (if c then lt else lr) ->
  wp (bn_select_words r (mask_of c) tmp r n) (fun _ m' => computes m r tmp n n v m') (fun _ => False) m2.
Proof.
  intros K At Ar Dt Dr Zt Zr ->. pose proof (zlen_nonneg la). assert (Hw : writable m2 r n) by (eapply keeps_writable; [exact K|done]).
  wp_call (bn_select_words_spec m2 r tmp r lt lr c n); [done|done|done|done|done|done|done|regions|apply ahead_refl| |done]. intros [] m' ->. set (l := if c then lt else lr).
  assert (Hz : zlen l = n) by (unfold l; by destruct c). assert (Hd : digits l) by (unfold l; by destruct c). exists l. split_and!; [apply wput_at; by rewrite Hz|done|done|done|].
  eapply keeps_trans; [exact K|]. apply (keeps_put _ _ _ _ n); [by rewrite Hz|done|done|by left].
Qed.
(** The two numbers as they are written. *)
Lemma both_put (x y : wptr) lx ly :
  (x = r /\ y = tmp \/ x = tmp /\ y = r) -> digits lx -> digits ly -> zlen lx = n -> zlen ly = n ->
  keeps m (wput (wput m x lx) y ly) (mine r n tmp n) /\ at_ (wput (wput m x lx) y ly) x lx /\ at_ (wput (wput m x lx) y ly) y ly.
Proof.
  intros Hxy Dx Dy Zx Zy. assert (Hwx : writable m x (zlen lx)) by (rewrite Zx; by destruct Hxy as [[-> ->]|[-> ->]]). assert (Hwy : writable (wput m x lx) y (zlen ly)) by (apply wput_writable; [done|]; rewrite Zy; by destruct Hxy as [[-> ->]|[-> ->]]).
  split; [|split; [|by apply wput_at]].
  - eapply keeps_trans; [apply (keeps_put _ _ _ _ n Hwx)|apply (keeps_put _ _ _ _ n Hwy)]; try done; destruct Hxy as [[-> ->]|[-> ->]]; by repeat constructor.
  - apply wput_apart; [done|by apply wput_at|]. rewrite Zx, Zy. destruct Hxy as [[-> ->]|[-> ->]]; regions.
Qed.

Lemma bn_mod_add_words_spec : wp (bn_mod_add_words r a b p tmp n) (fun _ m' => computes m r tmp n n ((val la + val lb) mod val lm) m') (fun _ => False) m.
Proof.
  pose proof (zlen_nonneg la). pose proof (val_range la Hda) as Va. pose proof (val_range lb Hdb) as Vb. pose proof (val_range lm Hdp) as Vp. rewrite Hza in Va. rewrite Hzb in Vb. rewrite Hzp in Vp.
  unfold bn_mod_add_words. apply wp_bind. wp_call (bn_add_words_spec m tmp a b la lb n); [done|done|done|done|done|done|done|regions|regions| |done]. intros c m1 (w1 & -> & Z1 & D1 & C1 & V1).
  assert (Hw1 : writable m tmp (zlen w1)) by by rewrite Z1.
  apply wp_bind. wp_call (bn_sub_words_spec (wput m tmp w1) r tmp p w1 lm n); [by apply wput_at|apply wput_apart; [done|done|by rewrite Z1, Hzp]|done|done|done|done|by apply wput_writable|regions|regions| |done].
  intros o m2 (w2 & -> & Z2 & D2 & C2 & V2). pose proof (val_range w1 D1) as W1. pose proof (val_range w2 D2) as W2. rewrite Z1 in W1. rewrite Z2 in W2. set (P := BASE ^ n) in *. unfold bit in *.
  assert (Hcase : u64 (c - o) = mask_of (val la + val lb <? val lm) /\ (val la + val lb) mod val lm = val (if val la + val lb <? val lm then w1 else w2)).
  { destruct (Z.ltb_spec (val la + val lb) (val lm)) as [Hlt|Hge].
    - assert (c = 0) as -> by nia. assert (o = 1) as -> by nia. split; [done|]. rewrite Z.mod_small by lia. lia.
    - assert (c = o) as -> by (assert (c = 0 \/ c = 1) as [->| ->] by lia; assert (o = 0 \/ o = 1) as [->| ->] by lia; nia). rewrite Z.sub_diag. split; [done|].
      assert (Ew : val w2 = val la + val lb - val lm) by nia. symmetry. apply (Z.mod_unique_pos _ _ 1); rewrite Ew; lia. }
  destruct Hcase as [-> ->]. cbv zeta. apply wp_bind. apply wp_assert; [by destruct (val la + val lb <? val lm)|].
  destruct (both_put tmp r w1 w2 ltac:(by right) D1 D2 Z1 Z2) as (K & At & Ar). by eapply select_from.
Qed.

Lemma bn_mod_sub_words_spec : wp (bn_mod_sub_words r a b p tmp n) (fun _ m' => computes m r tmp n n ((val la - val lb) mod val lm) m') (fun _ => False) m.
Proof.
  pose proof (zlen_nonneg la). pose proof (val_range la Hda) as Va. pose proof (val_range lb Hdb) as Vb. pose proof (val_range lm Hdp) as Vp. rewrite Hza in Va. rewrite Hzb in Vb. rewrite Hzp in Vp.
  unfold bn_mod_sub_words. apply wp_bind. wp_call (bn_sub_words_spec m r a b la lb n); [done|done|done|done|done|done|done|done|done| |done]. intros o m1 (w1 & -> & Z1 & D1 & C1 & V1).
  assert (Hw1 : writable m r (zlen w1)) by by rewrite Z1.
  apply wp_bind. wp_call (bn_add_words_spec (wput m r w1) tmp r p w1 lm n); [by apply wput_at|apply wput_apart; [done|done|by rewrite Z1, Hzp]|done|done|done|done|by apply wput_writable|regions|regions| |done].
  intros c m2 (w2 & -> & Z2 & D2 & C2 & V2). pose proof (val_range w1 D1) as W1. pose proof (val_range w2 D2) as W2. rewrite Z1 in W1. rewrite Z2 in W2. rewrite neg_bit by done. set (P := BASE ^ n) in *. unfold bit in *.
  destruct (both_put r tmp w1 w2 ltac:(by left) D1 D2 Z1 Z2) as (K & Ar & At). eapply select_from; [exact K|exact At|exact Ar|done|done|done|done|].
  assert (o = 0 \/ o = 1) as [->| ->] by lia; cbn [Z.eqb Pos.eqb].
  - rewrite Z.mod_small by lia. lia.
  - assert (Ew : val w2 = val la - val lb + val lm) by (unfold bit in C2; assert (c = 0 \/ c = 1) as [->| ->] by lia; lia). symmetry. apply (Z.mod_unique_pos _ _ (-1)); rewrite Ew; lia.
Qed.
End Words.

(** * Numbers of as many words as the modulus *)

Section Resized.
Context `{alloc : Allocator}.

Lemma bn_fits_in_words_spec s x ng l k : shows s x ng l -> 0 <= k -> wp (bn_fits_in_words x k) (fun b s' => s' = s /\ b = (val (zdrop k l) =? 0)) (fun _ => False) s.
Proof.
  intros Hs Hk. destruct (shows_get _ _ _ _ Hs) as (n & Hn & _ & Hw). destruct (shows_digits _ _ _ _ Hs) as [Hd _]. unfold bn_fits_in_words. apply wp_bind. eapply wp_bn_get; [exact Hn|]. rewrite Hw.
  apply wp_bind, wp_on_words. wp_call or_words_spec; [by eapply shows_at|done|apply word_0|done|lia| |done]. intros mask m' (-> & _ & Hiff). rewrite eta_store. apply wp_ret. split; [done|].
  apply eq_true_iff_eq. rewrite !Z.eqb_eq, Hiff. destruct (rest_words k (zlen l) l eq_refl) as [->|Hgt]; [tauto|]. unfold zdrop. rewrite drop_ge by (unfold zlen in Hgt; lia). unfold ztake. by rewrite take_nil.
Qed.

(** Zero words are put behind a number. *)
Lemma bn_resize_words_spec s x ng l k :
  shows s x ng l -> zlen l <= k -> wp (bn_resize_words x k) (fun _ s' => others x s s' /\ shows s' x ng (l ++ zrep (k - zlen l) 0)) (stunted x k s) s.
Proof.
  intros Hs Hk. pose proof (zlen_nonneg l). destruct (shows_get _ _ _ _ Hs) as (n & Hn & _ & Hw). unfold bn_resize_words. apply wp_bind. eapply wp_bn_get; [exact Hn|]. rewrite Hw, (proj2 (Z.leb_le _ _)) by lia.
  apply wp_bind. wp_call bn_wexpand_spec; [by eapply roomy_shows|lia| |].
  2: { intros s' (H1 & H2 & H3). eapply stunted_same; [by eapply roomy_shows|done|done|exact H3|lia]. }
  intros [] s1 (Ho1 & Hsh1 & Hr1). pose proof (Hsh1 _ _ _ Hs) as Hs1.
  assert (Hwr : writable (arrays s1) (bn_d x) k) by (apply roomy_writable; [done|lia]). assert (Hz : zlen (zrep (k - zlen l) 0) = k - zlen l) by (apply zlen_zrep; lia).
  apply wp_bind, wp_on_words. wp_call wzero_spec; [lia|apply (writable_sub _ _ k); [done|lia..]| |done]. intros [] m' ->. rewrite (append_put _ _ _ _ _ Hs1) by (rewrite Hz; by replace (zlen l + (k - zlen l)) with k by lia).
  assert (Hzl : zlen (l ++ zrep (k - zlen l) 0) = k) by (rewrite zlen_app, Hz; lia). rewrite <- Hzl at 1.
  wp_call store_words; [exact Hs1|exact Hr1| |lia| |done].
  - apply digits_app. split; [by eapply shows_digits|apply digits_zrep].
  - intros [] s2 [Ho2 Hs2]. split; [by eapply others_trans|done].
Qed.

(** [n] numbers at most were taken from the context; those there were have not changed. *)
Definition extends (s : ctx_store) (bl : list bn) (fr : list Z) (n : Z) (s' : ctx_store) (bl' : list bn) : Prop :=
  (forall rs, steady s bl fr rs n s' bl') /\ ctx_flags_kept s s' /\
  forall y, live s bl y -> live s' bl' y /\ nums (store s') !! y = nums (store s) !! y /\ arrays (store s') !! y = arrays (store s) !! y.
Lemma extends_refl s bl fr n : ctx_ok s bl fr -> 0 <= n -> extends s bl fr n s bl.
Proof. intros Hok Hn. split; [intros rs; by apply steady_refl|]. split; [unfold ctx_flags_kept; reflexivity|done]. Qed.
Lemma extends_trans s bl fr n s1 bl1 n1 s2 bl2 : ctx_ok s bl fr -> extends s bl fr n s1 bl1 -> extends s1 bl1 fr n1 s2 bl2 -> extends s bl fr (n + n1) s2 bl2.
Proof.
  intros Hok (H1 & H2 & H3) (H4 & H5 & H6). split; [intros rs; eapply (steady_trans _ _ _ _ []); [done|constructor|apply H1|apply H4]|]. split; [by etransitivity|].
  intros y Hy. destruct (H3 y Hy) as (Hy1 & E1 & E2), (H6 y (proj1 (H3 y Hy))) as (Hy2 & E3 & E4). split_and!; [done|congruence|congruence].
Qed.
(** What a call does to a number that was taken. *)
Lemma extends_store s bl fr n s1 bl1 x st :
  ctx_ok s bl fr -> extends s bl fr n s1 bl1 -> ~ live s bl x -> others x (store s1) st -> flags_kept (store s1) st -> roomy st x 0 -> extends s bl fr n (mkCtxStore (ctx s1) (items s1) st) bl1.
Proof.
  intros Hok (H1 & H2 & H3) Hx Ho Hf Hr. split; [|split].
  - intros rs. eapply steady_store; [apply H1|by eapply others_in_one; [|left]|by constructor|]. constructor; [right; by apply not_live|constructor].
  - unfold ctx_flags_kept in *. cbn [store]. by etransitivity.
  - intros y Hy. destruct (H3 y Hy) as ((Hl & Hun) & E1 & E2). assert (Hne : y <> x) by (by intros ->). destruct Ho as (Hlen & _ & Ho). destruct (Ho y Hne) as [E3 E4]. cbn [store]. split; [|split; congruence].
    split; [cbn [store]; by rewrite Hlen|exact Hun].
Qed.

Lemma bn_scratch_spec s bl fr w :
  ctx_ok s bl fr -> spacious s 1 -> 0 <= w ->
  wp (bn_scratch_space_from_ctx w)
    (fun o s' => exists bl', extends s bl fr 1 s' bl' /\
       match o with
       | Some x => ~ live s bl x /\ live s' bl' x /\ jammed s' = jammed s /\ exists l, shows (store s') x false l /\ zlen l = w
       | None => refused s fr w
       end) (fun _ => False) s.
Proof.
  intros Hok Hsp Hw. unfold bn_scratch_space_from_ctx. apply wp_bind. eapply wp_mono; [eapply (wp_with ctx_flags_kept); [apply flags_CTX_get|by apply BN_CTX_get_spec]| |by intros ? []]. cbv beta.
  intros [x|] s1 [Hgot Hf].
  2: { apply wp_ret. exists bl. split; [split; [|split; [done|]]|].
    - intros rs. by destruct (got_none bl fr s rs s1 0 ltac:(lia) Hgot).
    - intros y Hy. destruct (steady_got _ _ _ [] _ _ Hgot) as (bl' & _ & Hsame). destruct (Hsame eq_refl) as [[E1 E2] ->]. rewrite E1, E2. split; [|done].
      destruct Hgot as (bl2 & _ & _ & _ & _ & -> & _ & Hu & _). unfold live, unused in *. by rewrite E1, Hu.
    - destruct (got_none bl fr s [] s1 0 ltac:(lia) Hgot) as [_ Hb]. eapply blocked_refused; [exact Hb|lia]. }
  destruct (got_some _ _ _ _ _ Hok Hgot) as (bl1 & Hok1 & Hst & Hnx & Hlx & Hrx & _ & Hu & Hj & Hkeep).
  assert (Hex : extends s bl fr 1 s1 bl1) by (split; [done|]; split; [done|]; intros y Hy; by destruct (Hkeep y Hy) as (? & _ & ? & ?)).
  apply wp_bind, wp_succeeds, wp_on_store. wp_flags bn_wexpand_spec; [exact Hrx|done| |].
  2: { intros st [(E1 & E2 & Hc) Hfs]. apply wp_ret. exists bl1. split; [eapply extends_store; try done; [by apply others_same|by eapply roomy_same]|].
    eapply refused_back; [exact Hj|exact Hf| |split; [exact Hw|reflexivity]]. apply (no_room_refused _ _ w); [|lia]. by eapply cannot_grow_room. }
  intros [] st [(Ho & Hsh & Hroom) Hfs]. destruct (roomy_inv _ _ (roomy_weaken _ _ _ _ Hw Hroom)) as (ng & l & Hs). apply wp_bind, wp_on_store. cbn [store ctx items].
  destruct Hroom as (n & d & Hbn & Hk). pose proof Hbn as (Hn & Hd & (H1 & H2 & H3 & H4)). destruct (bn_is_lt _ _ _ _ Hbn) as [Hlt _].
  apply wp_bind. eapply wp_set_neg; [exact Hn|]. eapply wp_set_width; [by apply list_lookup_insert_eq|]. cbn [nums arrays bn_heap width dmax neg flags]. rewrite list_insert_insert_eq.
  set (st2 := mkStore _ _ _). apply wp_ret. assert (Hs2 : shows st2 x false (ztake w d)).
  { assert (Hz : zlen (ztake w d) = w) by (apply zlen_ztake; lia). exists (mkBN w (dmax n) false (flags n)), d. rewrite Hz. split; [|done]. split; [by apply list_lookup_insert_eq|]. split; [done|]. unfold well_formed. cbn [width dmax]. split_and!; done || lia. }
  assert (Ho2 : others x st st2) by (unfold others, st2; cbn; rewrite length_insert; split_and!; [done|done|]; intros y Hy; by rewrite list_lookup_insert_ne).
  assert (Hf2 : flags_kept st st2) by by apply (flags_insert _ _ n).
  exists bl1. split; [eapply extends_store; try done; [by eapply others_trans|by etransitivity|by eapply roomy_shows]|]. split; [done|].
  split; [destruct Hlx as [Hlen Hun]; split; [|exact Hun]; cbn [store]; destruct Ho as (E & _), Ho2 as (E' & _); by rewrite E', E|]. split; [done|]. exists (ztake w d). split; [done|apply zlen_ztake; lia].
Qed.

Lemma bn_resized_spec s bl fr a k na la :
  ctx_ok s bl fr -> spacious s 1 -> 0 <= k -> live s bl a -> shows (store s) a na la -> val la < BASE ^ k ->
  wp (bn_resized_from_ctx a k)
    (fun o s' => exists bl', extends s bl fr 1 s' bl' /\
       match o with
       | Some y => live s' bl' y /\ (y = a \/ ~ live s bl y) /\ jammed s' = jammed s /\ exists ng l, shows (store s') y ng l /\ k <= zlen l /\ val (ztake k l) = val la
       | None => refused s fr k
       end) (fun _ => False) s.
Proof.
  intros Hok Hsp Hk Hla Hsa Hv. destruct (shows_get _ _ _ _ Hsa) as (x & Hx & _ & Hw). destruct (shows_digits _ _ _ _ Hsa) as [Hd _]. pose proof (zlen_nonneg la). unfold bn_resized_from_ctx. apply wp_bind. eapply wp_get_number; [exact Hx|]. rewrite Hw.
  destruct (Z.leb_spec k (zlen la)) as [Hle|Hlt].
  - assert (Hfit : val (zdrop k la) = 0 /\ val (ztake k la) = val la).
    { pose proof (val_split k la ltac:(lia)) as E. pose proof (val_range _ (digits_ztake k _ Hd)). pose proof (val_range _ (digits_zdrop k _ Hd)). assert (val (zdrop k la) = 0) by nia. lia. }
    destruct Hfit as [Hz Ht]. apply wp_bind, wp_on_store. wp_call bn_fits_in_words_spec; [exact Hsa|done| |done]. intros b st [-> ->]. rewrite Hz.
    assert (mkCtxStore (ctx s) (items s) (store s) = s) as -> by by destruct s. apply wp_bind, wp_assert; [done|]. apply wp_ret. exists bl. split; [apply extends_refl; [done|lia]|]. split; [done|]. split; [by left|]. split; [done|]. by exists na, la.
  - apply wp_bind. wp_call bn_scratch_spec; [exact Hok|exact Hsp|exact Hk| |done]. intros [y|] s1 (bl1 & Hex & Hy); [|apply wp_ret; by exists bl1].
    destruct Hy as (Hny & Hly & Hj & l0 & Hs0 & Hz0). pose proof Hex as (_ & Hf & Hkeep). destruct (Hkeep a Hla) as (_ & E1 & E2). assert (Hsa1 : shows (store s1) a na la) by by eapply same_number.
    assert (Hfail : forall st, others y (store s1) st -> roomy st y 0 -> flags_kept (store s1) st -> no_room k st ->
      exists bl', extends s bl fr 1 (mkCtxStore (ctx s1) (items s1) st) bl' /\ refused s fr k).
    { intros st Ho Hr Hfs Hno. exists bl1. split; [by eapply extends_store|]. eapply refused_back; [exact Hj|exact Hf| |split; [exact Hk|reflexivity]]. apply (no_room_refused _ _ k); [|lia]. by eapply no_room_back. }
    apply wp_bind, wp_succeeds, wp_on_store, wp_bind. wp_flags BN_copy_shows; [exact Hsa1|by eapply roomy_shows| |].
    2: { intros st [(F1 & F2 & Hc) Hfs]. apply wp_ret. apply Hfail; [by apply others_same|by eapply roomy_same, roomy_shows|done|]. eapply no_room_kept; [exact Hfs|]. eapply cannot_grow_room; [exact Hc|lia]. }
    intros [] st [[Ho Hsy] Hfs]. wp_flags bn_resize_words_spec; [exact Hsy|lia| |].
    + intros [] st2 [[Ho2 Hs2] Hfs2]. apply wp_ret. assert (Ho' : others y (store s1) st2) by by eapply others_trans. exists bl1. split; [eapply extends_store; try done; [by etransitivity|by eapply roomy_shows]|].
      split; [destruct Hly as [Hlen Hun]; split; [|exact Hun]; cbn [store]; destruct Ho' as (E & _); by rewrite E|]. split; [by right|]. split; [done|]. eexists _, _. split; [exact Hs2|].
      assert (Hz : zlen (la ++ zrep (k - zlen la) 0) = k) by (rewrite zlen_app, zlen_zrep by lia; lia). rewrite Hz. split; [lia|]. rewrite <- Hz at 1. rewrite ztake_all, val_app, val_zrep. lia.
    + intros st2 [Hst Hfs2]. apply wp_ret. pose proof Hst as (Ho2 & Hr2 & _). apply Hfail; [by eapply others_trans|done|by etransitivity|]. by eapply stunted_room.
Qed.

End Resized.

(** * The quick sums and differences *)

(** What an operation on [n] words promises for numbers less than the modulus. *)
Definition modular (op : wptr -> wptr -> wptr -> wptr -> wptr -> Z -> M words unit) (f : Z -> Z -> Z) : Prop :=
  forall m (r a b p tmp : wptr) la lb lm n,
    at_ m a la -> at_ m b lb -> at_ m p lm -> digits la -> digits lb -> digits lm -> zlen la = n -> zlen lb = n -> zlen lm = n -> writable m r n -> writable m tmp n ->
    ahead r n a -> ahead r n b -> apart r n p n -> apart r n tmp n -> apart tmp n a n -> apart tmp n b n -> apart tmp n p n -> val la < val lm -> val lb < val lm ->
    wp (op r a b p tmp n) (fun _ m' => computes m r tmp n n (f (val la) (val lb) mod val lm) m') (fun _ => False) m.
Lemma add_modular : modular bn_mod_add_words Z.add.
Proof. unfold modular. intros. by eapply bn_mod_add_words_spec. Qed.
Lemma sub_modular : modular bn_mod_sub_words Z.sub.
Proof. unfold modular. intros. by eapply bn_mod_sub_words_spec. Qed.

Section Quick.
Context `{alloc : Allocator}.
Variables (op : wptr -> wptr -> wptr -> wptr -> wptr -> Z -> M words unit) (f : Z -> Z -> Z).
Hypothesis Hop : modular op f.
Variables (s : ctx_store) (bl : list bn) (fr : list Z) (r a b m : bn) (na nb nm ngr : bool) (la lb lm lr : list Z).
Hypothesis Hlr : live s bl r.
Hypothesis Hla : live s bl a.
Hypothesis Hlb : live s bl b.
Hypothesis Hlm : live s bl m.
Hypothesis Hne : r <> m.
Hypothesis Hsa : shows (store s) a na la.
Hypothesis Hsb : shows (store s) b nb lb.
Hypothesis Hsm : shows (store s) m nm lm.
Hypothesis Hsr : shows (store s) r ngr lr.
Hypothesis Ham : val la < val lm.
Hypothesis Hbm : val lb < val lm.
Local Abbreviation n := (zlen lm).
Local Abbreviation v := (f (val la) (val lb) mod val lm).

(** As many words as the modulus has; the sign is what it was. *)
Definition quick_result (st : bn_store) : Prop := exists l, shows st r ngr l /\ zlen l = n /\ val l = v.

Lemma quick_words st a' b' tmp xa xb ka kb (lt : list Z) :
  shows st a' xa ka -> shows st b' xb kb -> shows st m nm lm -> shows st r ngr lr -> shows st tmp false lt -> zlen lt = n ->
  n <= zlen ka -> val (ztake n ka) = val la -> n <= zlen kb -> val (ztake n kb) = val lb -> tmp <> a' -> tmp <> b' -> tmp <> m -> tmp <> r ->
  wp (bn_wexpand r n;; on_words (op (bn_d r) (bn_d a') (bn_d b') (bn_d m) (bn_d tmp) n);; bn_set_width r n)
    (fun _ st' => others_in [r; tmp] st st' /\ roomy st' tmp 0 /\ quick_result st') (stunted r n st) st.
Proof.
  intros Ha Hb Hm Hr Ht Hzt Hka Hva Hkb Hvb Nta Ntb Ntm Ntr. pose proof (zlen_nonneg lm). destruct (shows_digits _ _ _ _ Hm) as [Hdm _]. pose proof (val_range _ Hdm) as Vm. destruct (shows_digits _ _ _ _ Hsa) as [Hda _]. pose proof (val_range _ Hda).
  apply wp_bind. wp_call bn_wexpand_spec; [by eapply roomy_shows|done| |].
  2: { intros s' (H1 & H2 & H3). eapply stunted_same; [by eapply roomy_shows|done|done|exact H3|lia]. }
  intros [] s1 (Ho1 & Hsh1 & n0 & d0 & Hbn0 & Hroom0). assert (Hng : neg n0 = ngr).
  { destruct (shows_get _ _ _ _ (Hsh1 _ _ _ Hr)) as (n' & Hn' & Hng & _). destruct Hbn0 as (Hn & _). rewrite Hn in Hn'. by injection Hn' as <-. }
  pose proof (Hsh1 _ _ _ Ha) as Ha1. pose proof (Hsh1 _ _ _ Hb) as Hb1. pose proof (Hsh1 _ _ _ Hm) as Hm1. pose proof (Hsh1 _ _ _ Ht) as Ht1. pose proof (roomy_width _ _ _ _ Ht1) as Hrt. rewrite Hzt in Hrt.
  apply wp_bind. wp_call (words_run (op (bn_d r) (bn_d a') (bn_d b') (bn_d m) (bn_d tmp) n) r tmp s1 n n v n0 d0); [exact Hbn0|done|exact Hrt| | |done].
  - rewrite <- Hva, <- Hvb. apply Hop; try (by eapply shows_at); try (apply digits_ztake; by eapply shows_digits); try (by apply zlen_ztake); try done; try (by rewrite ?Hva, ?Hvb);
      try (by left; cbn; congruence); try (by right; left; cbn; lia).
    + apply at_take; [by eapply shows_at|lia].
    + apply at_take; [by eapply shows_at|lia].
    + apply roomy_writable; [by exists n0, d0|done].
    + by apply roomy_writable.
  - intros [] s2 (Ho2 & Hst & Hrt2). rewrite Hng in Hst. assert (Hv : 0 <= v < val lm) by (apply Z.mod_pos_bound; lia).
    wp_call stores_width; [exact Hst|lia|lia| |done]. intros [] s3 (Ho3 & l & Hl & Hz & Hval). split; [|split; [|by exists l]].
    + eapply others_in_trans; [eapply others_in_one; [exact Ho1|by left]|]. eapply others_in_trans; [exact Ho2|]. eapply others_in_one; [exact Ho3|by left].
    + destruct Ho3 as (_ & _ & Ho3). destruct (Ho3 tmp Ntr). by eapply roomy_in.
Qed.

(** ** With the numbers of the context *)

Definition quick_body : M ctx_store unit :=
  x ← bn_get_ctx m;
  a ← bn_resized_from_ctx a (width x);
  b ← bn_resized_from_ctx b (width x);
  tmp ← bn_scratch_space_from_ctx (width x);
  match a, b, tmp with
  | Some a, Some b, Some tmp =>
      on_store (
        bn_wexpand r (width x);;
        on_words (op (bn_d r) (bn_d a) (bn_d b) (bn_d m) (bn_d tmp) (width x));;
        bn_set_width r (width x))
  | _, _, _ => fail
  end.
Hypothesis Hok : ctx_ok s bl fr.
Hypothesis Hsp : spacious s 3.

Lemma extends_shows s0 b0 f0 k s1 b1 x ng l : extends s0 b0 f0 k s1 b1 -> live s0 b0 x -> shows (store s0) x ng l -> live s1 b1 x /\ shows (store s1) x ng l.
Proof. intros (_ & _ & Hk) Hx Hs. destruct (Hk x Hx) as (? & ? & ?). split; [done|by eapply same_number]. Qed.
Lemma extends_ok s0 b0 f0 k s1 b1 : extends s0 b0 f0 k s1 b1 -> ctx_ok s1 b1 f0 /\ used (ctx s1) <= used (ctx s0) + k.
Proof. intros (Hst & _ & _). destruct (Hst []) as (? & _ & _ & ? & _). split; [done|lia]. Qed.

Lemma quick_body_spec :
  wp quick_body (fun _ s' => exists bl', steady s bl fr [r] 3 s' bl' /\ quick_result (store s')) (fun s' => exists bl', steady s bl fr [r] 3 s' bl' /\ refused s fr n) s.
Proof.
  pose proof (zlen_nonneg lm). destruct (shows_digits _ _ _ _ Hsm) as [Hdm _]. pose proof (val_range _ Hdm) as Vm. unfold spacious in Hsp.
  destruct (shows_get _ _ _ _ Hsm) as (x & Hx & _ & Hw). unfold quick_body. apply wp_bind. eapply wp_get_number; [exact Hx|]. rewrite Hw.
  (* the first number *)
  apply wp_bind. wp_call (bn_resized_spec s bl fr a n na la); [exact Hok|unfold spacious; lia|done|exact Hla|exact Hsa|lia| |done]. intros oa s1 (bl1 & E1 & Ha). destruct (extends_ok _ _ _ _ _ _ E1) as [Hok1 Hu1].
  destruct (extends_shows _ _ _ _ _ _ _ _ _ E1 Hlb Hsb) as [Hlb1 Hsb1].
  (* the second *)
  apply wp_bind. wp_call (bn_resized_spec s1 bl1 fr b n nb lb); [exact Hok1|unfold spacious; lia|done|exact Hlb1|exact Hsb1|lia| |done]. intros ob s2 (bl2 & E2 & Hb). destruct (extends_ok _ _ _ _ _ _ E2) as [Hok2 Hu2].
  pose proof (extends_trans _ _ _ _ _ _ _ _ _ Hok E1 E2) as E12.
  (* the third *)
  apply wp_bind. wp_call (bn_scratch_spec s2 bl2 fr n); [exact Hok2|unfold spacious; lia|done| |done]. intros ot s3 (bl3 & E3 & Ht). pose proof (extends_trans _ _ _ _ _ _ _ _ _ Hok E12 E3) as E123. change (1 + 1 + 1) with 3 in E123.
  assert (Hfail : refused s fr n -> exists bl', steady s bl fr [r] 3 s3 bl' /\ refused s fr n) by (intros Hrf; exists bl3; split; [apply E123|done]).
  destruct oa as [a'|]; [|apply wp_fail; by apply Hfail]. destruct Ha as (Hla1 & Hca & Hj1 & xa & ka & Hka & Hzka & Hva).
  destruct ob as [b'|]; [|apply wp_fail, Hfail; eapply refused_back; [exact Hj1|apply E1|exact Hb|lia]]. destruct Hb as (Hlb2 & Hcb & Hj2 & xb & kb & Hkb & Hzkb & Hvb).
  assert (Hj12 : jammed s2 = jammed s) by congruence.
  destruct ot as [tmp|]; [|apply wp_fail, Hfail; eapply refused_back; [exact Hj12|apply E12|exact Ht|lia]]. destruct Ht as (Hnt & Hlt & Hj3 & l0 & Ht & Hzt).
  (* all are there *)
  assert (Hlive : forall y, live s2 bl2 y -> tmp <> y) by (intros y Hy ->; done). destruct (extends_shows _ _ _ _ _ _ _ _ _ E2 Hla1 Hka) as [Hla2 Hka2].
  destruct (extends_shows _ _ _ _ _ _ _ _ _ E12 Hlm Hsm) as [Hlm2 Hsm2]. destruct (extends_shows _ _ _ _ _ _ _ _ _ E12 Hlr Hsr) as [Hlr2 Hsr2].
  destruct (extends_shows _ _ _ _ _ _ _ _ _ E3 Hla2 Hka2) as [_ Hka3]. destruct (extends_shows _ _ _ _ _ _ _ _ _ E3 Hlb2 Hkb) as [_ Hkb3].
  destruct (extends_shows _ _ _ _ _ _ _ _ _ E3 Hlm2 Hsm2) as [_ Hsm3]. destruct (extends_shows _ _ _ _ _ _ _ _ _ E3 Hlr2 Hsr2) as [_ Hsr3].
  assert (Hnt0 : ~ live s bl tmp) by (intros Hl; destruct (extends_shows _ _ _ _ _ _ r ngr lr E12 Hlr Hsr) as [_ _]; destruct E12 as (_ & _ & Hk); by destruct (Hk tmp Hl) as (? & _)).
  assert (Hall : Forall (fun y => y ∈ [r] \/ y ∈ unused s bl \/ (length (nums (store s)) <= y)%nat) [r; tmp]) by (constructor; [left; by left|constructor; [right; by apply not_live|constructor]]).
  apply wp_on_store. wp_call (quick_words (store s3) a' b' tmp xa xb ka kb l0); try done; [by apply Hlive|by apply Hlive|by apply Hlive|by apply Hlive| |].
  - intros [] st (Ho & Hrt & Hq). exists bl3. split; [|exact Hq]. eapply steady_store; [apply E123|exact Ho| |exact Hall]. destruct Hq as (l & Hl & _). constructor; [by eapply roomy_shows|by repeat constructor].
  - intros st (Ho & Hrr & k' & Hk' & Hc). exists bl3. split; [eapply (steady_store _ _ _ _ _ _ _ _ [r]); [apply E123|by eapply others_in_one; [|left]|by constructor|constructor; [left; by left|constructor]]|].
    eapply (refused_back s s3); [congruence|apply E123| |split; [done|reflexivity]]. apply (no_room_refused _ _ n); [|lia]. by eapply cannot_grow_room.
Qed.
End Quick.

Section Calls.
Context `{alloc : Allocator}.

(** The sign of [r] is what it was, even if that is that of a negative number. *)
Lemma mod_quick_spec op f s bl fr r a b m na nb nm ngr la lb lm lr :
  modular op f -> ctx_ok s bl fr -> spacious s 3 -> nestable s fr -> live s bl r -> live s bl a -> live s bl b -> live s bl m -> r <> m ->
  shows (store s) a na la -> shows (store s) b nb lb -> shows (store s) m nm lm -> shows (store s) r ngr lr -> val la < val lm -> val lb < val lm ->
  wp (mod_quick_ctx op r a b m)
    (fun _ s' => exists bl', restored s bl fr [r] s' bl' /\ quick_result f r ngr la lb lm (store s'))
    (fun s' => exists bl', restored s bl fr [r] s' bl' /\ refused s fr (zlen lm + 1)) s.
Proof.
  intros Hop Hok Hsp H30 Hlr Hla Hlb Hlm Hne Hsa Hsb Hsm Hsr Ham Hbm. pose proof (zlen_nonneg lm).
  wp_call (framed_why (quick_body op r a b m) (quick_result f r ngr la lb lm) (fun s1 fr1 => refused s1 fr1 (zlen lm)) s bl fr [r] 3); [exact Hok|exact H30| | |done|].
  - intros st st' E1 E2 (l & Hl & Hrest). exists l. split; [by eapply same_shows|done].
  - intros s1 fr1 Ho Hok1. eapply quick_body_spec; try done; [by eapply opened_live|by eapply opened_live|by eapply opened_live|by eapply opened_live|by eapply opened_shows|by eapply opened_shows|by eapply opened_shows|by eapply opened_shows|].
    unfold spacious in *. by destruct Ho as (_ & -> & _).
  - intros s' (bl' & Hres & s1 & fr1 & Ho & Hrf). exists bl'. split; [done|]. eapply opened_refused; [exact Hok|exact Ho|exact Hrf|done|lia].
Qed.

(** On reduced numbers, for a result that was not negative. *)
Lemma mod_quick_sized op f s bl fr r a b m u w v z :
  modular op f -> ctx_ok s bl fr -> spacious s 3 -> nestable s fr -> live s bl r -> live s bl a -> live s bl b -> live s bl m -> r <> m ->
  holds (store s) a u -> holds (store s) b w -> holds (store s) m v -> holds (store s) r z -> 0 <= u < v -> 0 <= w < v -> 0 <= z ->
  wp (mod_quick_ctx op r a b m)
    (fun _ s' => exists bl', restored s bl fr [r] s' bl' /\ holds (store s') r (f u w mod v) /\ words_of (store s') r = words_of (store s) m)
    (fun s' => exists bl', restored s bl fr [r] s' bl' /\ refused s fr (words_of (store s) m + 1)) s.
Proof.
  intros Hop Hok Hsp H30 Hlr Hla Hlb Hlm Hne Hu Hw Hv Hz Bu Bw Bz. destruct (holds_nonneg _ _ _ Hu ltac:(lia)) as (la & Hsa & <-). destruct (holds_nonneg _ _ _ Hw ltac:(lia)) as (lb & Hsb & <-).
  destruct (holds_nonneg _ _ _ Hv ltac:(lia)) as (lm & Hsm & <-). destruct (holds_nonneg _ _ _ Hz Bz) as (lr & Hsr & _). rewrite (shows_words _ _ _ _ Hsm).
  eapply wp_mono; [apply (mod_quick_spec op f s bl fr r a b m false false false false la lb lm lr); try done; lia| |done].
  intros [] s' (bl' & Hres & l & Hl & Hz' & <-). exists bl'. split; [done|]. split; [by apply holds_pos|]. by rewrite (shows_words _ _ _ _ Hl).
Qed.
Lemma mod_quick_holds op f s bl fr r a b m u w v z :
  modular op f -> ctx_ok s bl fr -> spacious s 3 -> nestable s fr -> live s bl r -> live s bl a -> live s bl b -> live s bl m -> r <> m ->
  holds (store s) a u -> holds (store s) b w -> holds (store s) m v -> holds (store s) r z -> 0 <= u < v -> 0 <= w < v -> 0 <= z ->
  wp (mod_quick_ctx op r a b m)
    (fun _ s' => exists bl', restored s bl fr [r] s' bl' /\ holds (store s') r (f u w mod v))
    (fun s' => exists bl', restored s bl fr [r] s' bl' /\ refused s fr (words_of (store s) m + 1)) s.
Proof. intros. wp_call mod_quick_sized; [eassumption..| |done]. intros [] s' (bl' & ? & ? & _). by exists bl'. Qed.

(** * Shifts *)

(** A number copied to itself needs nothing. *)
Definition copy_need (r a : bn) (st : bn_store) : Z := if Nat.eqb a r then 0 else words_of st a.
Lemma wp_copy_store r a u (s : ctx_store) bl fr :
  ctx_ok s bl fr -> live s bl r -> holds (store s) a u -> roomy (store s) r 0 ->
  wp (on_store (BN_copy r a)) (fun _ s' => (exists bl', restored s bl fr [r] s' bl') /\ holds (store s') r u /\ ctx_flags_kept s s')
    (fun s' => exists bl', restored s bl fr [r] s' bl' /\ refused s fr (copy_need r a (store s))) s.
Proof.
  intros Hok Hlr Hu Hr. pose proof (words_nonneg _ _ _ Hu). apply wp_on_store. unfold copy_need. destruct (Nat.eqb_spec a r) as [->|Hne].
  { unfold BN_copy. rewrite Nat.eqb_refl. apply wp_ret. split; [exists bl; apply restored_store; [done|apply others_refl|done]|]. split; [done|]. unfold ctx_flags_kept. cbn [store]. reflexivity. } wp_flags BN_copy_spec; [exact Hu|exact Hr| |].
  - intros [] st [[Ho Hz] Hf]. split; [exists bl; apply restored_store; [done|done|by eapply holds_roomy]|]. by split.
  - intros st [(Ho & Hroom & k' & Hk' & Hc) Hf]. exists bl. split; [by apply restored_store|]. apply (no_room_refused _ _ (words_of (store s) a)); [|lia]. by eapply cannot_grow_room.
Qed.

Lemma double_mod x v k : 0 < v -> 0 <= k -> (2 ^ k * x mod v + 2 ^ k * x mod v) mod v = 2 ^ (k + 1) * x mod v.
Proof. intros Hv Hk. rewrite <- Z.add_mod by lia. f_equal. rewrite Z.pow_add_r by lia. lia. Qed.

Lemma bn_mod_lshift_quick_sized s bl fr r a m n u v :
  ctx_ok s bl fr -> spacious s 3 -> nestable s fr -> live s bl r -> live s bl a -> live s bl m -> r <> m -> holds (store s) a u -> holds (store s) m v -> roomy (store s) r 0 -> 0 <= u < v -> 0 <= n ->
  wp (bn_mod_lshift_quick_ctx r a n m)
    (fun _ s' => exists bl', restored s bl fr [r] s' bl' /\ holds (store s') r (2 ^ n * u mod v) /\ (0 < n -> words_of (store s') r = words_of (store s) m))
    (fun s' => exists bl', restored s bl fr [r] s' bl' /\ refused s fr (copy_need r a (store s) + words_of (store s) m + 1)) s.
Proof.
  intros Hok Hsp H30 Hlr Hla Hlm Hne Hu Hv Hr Bu Hn. assert (0 <= copy_need r a (store s)) by (unfold copy_need; destruct (Nat.eqb a r); [done|by eapply words_nonneg]). pose proof (words_nonneg _ _ _ Hv). unfold bn_mod_lshift_quick_ctx. apply wp_bind.
  wp_call wp_copy_store; [exact Hok|exact Hlr|exact Hu|exact Hr| |].
  2: { intros s1 (bl1 & Hres & Hrf). exists bl1. split; [done|]. eapply (refused_back s s); [done|unfold ctx_flags_kept; reflexivity|exact Hrf|lia]. }
  intros [] s1 ((bl1 & Hres) & Hz & Hf). assert (Hm : m ∉ [r]) by (rewrite list_elem_of_singleton; congruence).
  apply (wp_for (fun k _ s' => exists bl', restored s bl fr [r] s' bl' /\ ctx_flags_kept s s' /\ holds (store s') r (2 ^ k * u mod v) /\ (0 < k -> words_of (store s') r = words_of (store s) m))).
  - exists bl1. split; [done|]. split; [done|]. rewrite Z.mul_1_l, Z.mod_small by lia. split; [done|lia].
  - intros k [] s' Hk (bl' & Hres' & Hf' & Hz' & _). assert (Hb : 0 <= 2 ^ k * u mod v < v) by (apply Z.mod_pos_bound; lia). unfold bn_mod_lshift1_quick_ctx, bn_mod_add_quick_ctx.
    eapply wp_mono; [eapply (wp_with ctx_flags_kept); [apply flags_mod_quick|apply (mod_quick_sized bn_mod_add_words Z.add s' bl' fr r r r m (2 ^ k * u mod v) (2 ^ k * u mod v) v (2 ^ k * u mod v) add_modular)]| |]; cbv beta; try done.
    + by eapply restored_ok.
    + by eapply (restored_spacious s bl).
    + by eapply (restored_nestable s bl).
    + by eapply (restored_live s bl).
    + by eapply (restored_live s bl).
    + by eapply (restored_live s bl).
    + by eapply (restored_live s bl).
    + by eapply (restored_holds s bl).
    + lia.
    + intros [] s2 [(bl2 & Hres2 & Hz2 & Hw2) Hf2]. exists bl2. split; [by eapply (restored_trans s bl fr [r] s' bl')|]. split; [by etransitivity|]. rewrite double_mod in Hz2 by lia. split; [done|]. intros _. by rewrite Hw2, (restored_words s bl fr [r] s' bl' Hres' m Hlm Hm).
    + intros s2 [(bl2 & Hres2 & Hrf) Hf2]. exists bl2. split; [by eapply (restored_trans s bl fr [r] s' bl')|]. rewrite (restored_words s bl fr [r] s' bl' Hres' m Hlm Hm) in Hrf.
      eapply restored_refused; [exact Hres'|exact Hf'|exact Hrf|lia].
  - intros [] s' (bl' & Hres' & _ & Hz' & Hw'). replace (0 + Z.of_nat (Z.to_nat n)) with n in * by lia. by exists bl'.
Qed.
Lemma bn_mod_lshift_quick_spec s bl fr r a m n u v :
  ctx_ok s bl fr -> spacious s 3 -> nestable s fr -> live s bl r -> live s bl a -> live s bl m -> r <> m -> holds (store s) a u -> holds (store s) m v -> roomy (store s) r 0 -> 0 <= u < v -> 0 <= n ->
  wp (bn_mod_lshift_quick_ctx r a n m)
    (fun _ s' => exists bl', restored s bl fr [r] s' bl' /\ holds (store s') r (2 ^ n * u mod v))
    (fun s' => exists bl', restored s bl fr [r] s' bl' /\ refused s fr (copy_need r a (store s) + words_of (store s) m + 1)) s.
Proof. intros. wp_call bn_mod_lshift_quick_sized; [eassumption..| |done]. intros [] s' (bl' & ? & ? & _). by exists bl'. Qed.

(** * With a context for the time of the call *)

(** What the caller still sees. *)
Definition dropped_to (st t : bn_store) : bn_store := mkStore (take (length (nums st)) (nums t)) (take (length (arrays st)) (arrays t)) (bn_heap t).
Lemma dropped_shows st t x ng l : aligned st -> (x < length (nums st))%nat -> shows t x ng l -> shows (dropped_to st t) x ng l.
Proof. intros Hal Hx. unfold aligned in Hal. apply same_number; cbn; apply lookup_take_lt; lia. Qed.

(** A call that gives everything back but [r], on a new context. *)
Lemma with_ctx_spec (m : M ctx_store unit) (P : bn_store -> Prop) st r w :
  aligned st ->
  (forall st1, nums st1 = nums st -> arrays st1 = arrays st -> ctx_ok (new_ctx st1) [] [] -> (forall x, (x < length (nums st))%nat -> live (new_ctx st1) [] x) ->
     wp m (fun _ s' => exists bl', restored (new_ctx st1) [] [] [r] s' bl' /\ P (store s')) (fun s' => exists bl', restored (new_ctx st1) [] [] [r] s' bl' /\ refused (new_ctx st1) [] w) (new_ctx st1)) ->
  wp (with_ctx m) (fun _ st' => others r st st' /\ exists t, P t /\ st' = dropped_to st t)
    (fun st' => others r st st' /\ (out_of_memory 88 \/ out_of_memory (416 + 64 * w) \/ static_number st \/ max_words < 8 * w)) st.
Proof.
  intros Hal Hm. pose proof (BN_CTX_new_shape st) as Hnew. unfold with_ctx, wp in *. destruct (BN_CTX_new st) as [s st1|st1|]; [| |done].
  2: { destruct Hnew as (Hmem & E1 & E2). split; [by apply others_same|by left]. }
  destruct Hnew as (-> & E1 & E2). assert (Hlive : forall x, (x < length (nums st))%nat -> live (new_ctx st1) [] x).
  { intros x Hx. split; [cbn; by rewrite E1|]. unfold unused. cbn. rewrite drop_nil. apply not_elem_of_nil. }
  assert (Hok : ctx_ok (new_ctx st1) [] []) by (apply new_ctx_ok; rewrite E1, E2; exact Hal).
  assert (Hdrop : forall s' bl', restored (new_ctx st1) [] [] [r] s' bl' -> others r st (dropped_to st (store s'))).
  { intros s' bl' ((_ & _ & _ & _ & Hlen & _) & (_ & Hl & Hc) & _). cbn [new_ctx store] in Hl, Hc. unfold aligned in Hal. rewrite E1 in Hl, Hc. rewrite E2 in Hc. unfold others, dropped_to. cbn [nums arrays]. rewrite !length_take.
    split_and!; [lia|lia|]. intros y Hy. destruct (Nat.lt_ge_cases y (length (nums st))) as [Hlt|Hge].
    - rewrite !lookup_take_lt by lia. destruct (Hlive y Hlt) as [_ Hun]. apply Hc; [done|exact Hun|by rewrite list_elem_of_singleton].
    - rewrite !lookup_take_ge by lia. split; symmetry; apply lookup_ge_None_2; lia. }
  specialize (Hm st1 E1 E2 Hok Hlive). destruct (m (new_ctx st1)) as [[] t|t|]; [| |done]; destruct Hm as (bl' & Hres & HP); (split; [by eapply Hdrop|]).
  - by exists (store t).
  - right. destruct HP as [?|[?|[(x & k & Hx & Hf)|?]]]; [done|by left|right; left; exists x, k; cbn in Hx; by rewrite <- E1|by right; right].
Qed.

(** The functions that make a context of their own. *)
Definition call_failed (st : bn_store) (r : bn) (w : Z) (st' : bn_store) : Prop :=
  others r st st' /\ (out_of_memory 88 \/ out_of_memory (416 + 64 * w) \/ static_number st \/ max_words < 8 * w).
Lemma own_ctx_call (m : M ctx_store unit) st r z w :
  aligned st -> (r < length (nums st))%nat ->
  (forall st1, (forall x y, holds st x y -> holds (store (new_ctx st1)) x y) -> (forall x, words_of st x = words_of (store (new_ctx st1)) x) -> (forall x, roomy st x 0 -> roomy (store (new_ctx st1)) x 0) ->
     ctx_ok (new_ctx st1) [] [] -> (forall x, (x < length (nums st))%nat -> live (new_ctx st1) [] x) ->
     wp m (fun _ s' => exists bl', restored (new_ctx st1) [] [] [r] s' bl' /\ holds (store s') r z) (fun s' => exists bl', restored (new_ctx st1) [] [] [r] s' bl' /\ refused (new_ctx st1) [] w) (new_ctx st1)) ->
  wp (with_ctx m) (fun _ => sets r z st) (call_failed st r w) st.
Proof.
  intros Hal Hr Hm. eapply wp_mono; [apply (with_ctx_spec m (fun st' => holds st' r z) st r w Hal)| |done].
  - intros st1 E1 E2 Hok Hlive. apply Hm; [|intros x; unfold words_of; cbn; by rewrite E1|intros x Hx; eapply roomy_in; [cbn; by rewrite E1|cbn; by rewrite E2|exact Hx]|done|done].
    intros x y (ng & l & Hl & Hrest). exists ng, l. split; [by eapply same_shows|done].
  - intros [] st' (Ho & t & (ng & l & Hl & Hrest) & ->). split; [done|]. exists ng, l. split; [|done]. by apply dropped_shows.
Qed.
Lemma holds_lt st x y : holds st x y -> (x < length (nums st))%nat.
Proof. intros (ng & l & (n & d & Hbn & _) & _). by eapply bn_is_lt. Qed.

Lemma quick_call_spec op f st r a b m u w v z :
  modular op f -> aligned st -> r <> m -> holds st a u -> holds st b w -> holds st m v -> holds st r z -> 0 <= u < v -> 0 <= w < v -> 0 <= z ->
  wp (with_ctx (mod_quick_ctx op r a b m)) (fun _ => sets r (f u w mod v) st) (call_failed st r (words_of st m + 1)) st.
Proof.
  intros Hop Hal Hne Hu Hw Hv Hz Bu Bw Bz. apply own_ctx_call; [done|by eapply holds_lt|]. intros st1 Hst Hwd Hrm Hok Hlive. rewrite Hwd.
  apply (mod_quick_holds op f (new_ctx st1) [] [] r a b m u w v z); try done; try (apply Hlive; by eapply holds_lt); by apply Hst.
Qed.
Lemma lshift_call_spec st r a m n u v :
  aligned st -> r <> m -> holds st a u -> holds st m v -> roomy st r 0 -> 0 <= u < v -> 0 <= n ->
  wp (BN_mod_lshift_quick r a n m) (fun _ => sets r (2 ^ n * u mod v) st) (call_failed st r (copy_need r a st + words_of st m + 1)) st.
Proof.
  intros Hal Hne Hu Hv Hr Bu Hn. assert (Hlt : (r < length (nums st))%nat) by (destruct Hr as (n0 & d0 & Hbn & _); by eapply bn_is_lt). apply own_ctx_call; [done|done|]. intros st1 Hst Hwd Hrm Hok Hlive.
  assert (copy_need r a st = copy_need r a (store (new_ctx st1))) as -> by (unfold copy_need; by rewrite Hwd). rewrite Hwd.
  apply (bn_mod_lshift_quick_spec (new_ctx st1) [] [] r a m n u v); try done; try (by apply Hlive); try (apply Hlive; by eapply holds_lt); try (by apply Hst). by apply Hrm.
Qed.

(** * With a copy of the modulus *)

(** Numbers were added; those there were are as they were. *)
Definition grown (st st' : bn_store) : Prop :=
  aligned st' /\ (length (nums st) <= length (nums st'))%nat /\ flags_kept st st' /\ forall y, (y < length (nums st))%nat -> nums st' !! y = nums st !! y /\ arrays st' !! y = arrays st !! y.
Lemma grown_same st st' : aligned st -> nums st' = nums st -> arrays st' = arrays st -> grown st st'.
Proof. intros Hal E1 E2. unfold grown, aligned in *. rewrite E1, E2. split_and!; [done|done|by apply flags_same; rewrite E1|done]. Qed.

Lemma bn_alloc_spec st fl : aligned st -> Z.land fl BN_FLG_STATIC_DATA = 0 ->
  wp (bn_alloc (mkBN 0 0 false fl) []) (fun x st' => x = length (nums st) /\ grown st st' /\ length (nums st') = S (length (nums st)) /\ shows st' x false []) (fun _ => False) st.
Proof.
  intros Hal Hfl. unfold wp, bn_alloc, aligned in *. set (n := mkBN 0 0 false fl). split; [done|]. split; [|split].
  - unfold grown, aligned. cbn [nums arrays]. rewrite !length_app, Hal. split_and!; [done|lia| |].
    + exists [flags n]. cbn [nums]. rewrite fmap_app. split; [done|by constructor].
    + intros y Hy. by rewrite !lookup_app_l by lia.
  - cbn [nums]. rewrite length_app. cbn. lia.
  - exists n, []. split; [|done]. split; [cbn; by rewrite list_lookup_middle|]. split; [cbn; rewrite Hal; by rewrite list_lookup_middle|]. unfold well_formed, max_words. cbn. split_and!; try done. constructor.
Qed.
Lemma store_grown_trans st1 st2 st3 : grown st1 st2 -> grown st2 st3 -> grown st1 st3.
Proof. intros (_ & L1 & F1 & K1) (Hal & L2 & F2 & K2). split; [done|]. split; [lia|]. split; [by etransitivity|]. intros y Hy. destruct (K1 y Hy) as [<- <-]. apply K2. lia. Qed.
Lemma grown_shows st st' x ng l : grown st st' -> shows st x ng l -> shows st' x ng l.
Proof. intros (_ & _ & _ & K) Hx. pose proof Hx as (n & d & Hbn & _). destruct (K x) as [E1 E2]; [by eapply bn_is_lt|]. by eapply same_number. Qed.
Lemma BN_new_spec st : aligned st ->
  wp BN_new (fun x st' => x = length (nums st) /\ grown st st' /\ shows st' x false []) (fun st' => grown st st' /\ out_of_memory 32) st.
Proof.
  intros Hal. unfold BN_new. apply wp_bind. wp_call store_malloc_spec; [done| |done]. intros [p|] st1 (Hp & E1 & E2); [|apply wp_fail; split; [by apply grown_same|by apply Hp]]. pose proof (grown_same _ _ Hal E1 E2) as Hg1.
  wp_call bn_alloc_spec; [by destruct Hg1|done| |done]. intros x st2 (-> & Hg2 & _ & Hx). split; [by rewrite E1|]. split; [by eapply store_grown_trans|done].
Qed.

(** A copy in a number of its own. *)
Lemma BN_dup_spec st src u : aligned st -> holds st src u ->
  wp (BN_dup src) (fun x st' => x = length (nums st) /\ grown st st' /\ holds st' x u /\ words_of st' x = words_of st src) (fun st' => grown st st' /\ (out_of_memory 32 \/ no_room (words_of st src) st)) st.
Proof.
  intros Hal Hu. assert (Hlt : (src < length (nums st))%nat) by (destruct Hu as (ng & l & (n & d & Hbn & _) & _); by eapply bn_is_lt). unfold BN_dup. apply wp_bind. wp_call BN_new_spec; [exact Hal| |].
  2: { intros st' [H1 H2]. split; [done|by left]. }
  intros x st1 (-> & (Hal1 & Hlen & Hf & Hkeep) & Hx). destruct (Hkeep src Hlt) as [E1 E2]. destruct Hu as (ng & l & Hl & Hrest). assert (Hl1 : shows st1 src ng l) by by eapply same_number.
  assert (Hgrow : forall st2, others (length (nums st)) st1 st2 -> flags_kept st1 st2 -> grown st st2).
  { intros st2 (F1 & F2 & F3) Hf2. unfold grown, aligned in *. split_and!; [congruence|lia|by etransitivity|]. intros y Hy. destruct (Hkeep y Hy) as [<- <-]. apply F3. lia. }
  rewrite (shows_words _ _ _ _ Hl). apply wp_bind. wp_flags BN_copy_shows; [exact Hl1|by eapply roomy_shows| |].
  - intros [] st2 [[Ho Hz] Hf2]. apply wp_ret. split; [done|]. split; [by apply Hgrow|]. split; [by exists ng, l|by eapply shows_words].
  - intros st2 [(F1 & F2 & Hc) Hf2]. split; [by apply Hgrow; [apply others_same|]|]. right. eapply no_room_back; [exact Hf|]. by eapply cannot_grow_room.
Qed.

Lemma restored_grown s bl fr st : ctx_ok s bl fr -> grown (store s) st -> restored s bl fr [] (mkCtxStore (ctx s) (items s) st) bl.
Proof.
  intros (Hpool & Hst & Hmk & Herr & Hlen & Hnd & Hroom) (Hal & Hle & _ & Hk). split_and!; try done.
  - unfold ctx_ok. cbn [ctx items store]. split_and!; try done. eapply Forall_impl; [exact Hroom|]. intros y Hy. destruct (Hk y) as [E1 E2]; [destruct Hy as (n & d & Hbn & _); by eapply bn_is_lt|]. by eapply roomy_in.
  - split; [exists []; split; [by rewrite app_nil_r|constructor]|]. split; [exact Hle|]. intros y Hy _ _. by apply Hk.
Qed.

Lemma new_number_live s bl fr st x : ctx_ok s bl fr -> (length (nums (store s)) <= x < length (nums st))%nat -> live (mkCtxStore (ctx s) (items s) st) bl x.
Proof.
  intros (_ & _ & _ & _ & _ & _ & Hroom) Hx. split; [cbn; lia|]. intros Hin. apply subseteq_drop in Hin. pose proof (proj1 (Forall_forall _ _) Hroom _ Hin) as (n & d & Hbn & _). apply bn_is_lt in Hbn as [? _]. lia.
Qed.

Lemma BN_mod_lshift_spec s bl fr r a m n u v :
  ctx_ok s bl fr -> spacious s 4 -> nestable s fr -> live s bl r -> live s bl a -> live s bl m -> r <> m -> holds (store s) a u -> holds (store s) m v -> roomy (store s) r 0 -> 0 <= n ->
  wp (BN_mod_lshift r a n m) (fun _ => mod_done v (2 ^ n * u) s bl fr r) (mod_failed v s bl fr r (words_of (store s) a + words_of (store s) m + 1)) s.
Proof.
  intros Hok Hsp H30 Hlr Hla Hlm Hne Hu Hv Hr Hn. pose proof (words_nonneg _ _ _ Hu). pose proof (words_nonneg _ _ _ Hv). unfold BN_mod_lshift. apply wp_bind.
  eapply wp_mono; [eapply (wp_with ctx_flags_kept); [apply flags_nnmod|by apply (BN_nnmod_spec s bl fr r a m u v)]| |]; cbv beta.
  2: { intros s1 [[[-> ->]|(Hv0 & bl1 & Hres & Hrf)] _].
    - exists bl. split; [|by left]. assert (Hs : mkCtxStore (ctx s) (items s) (store s) = s) by by destruct s. rewrite <- Hs at 2. by apply restored_store.
    - exists bl1. split; [done|]. right. eapply (refused_back s s); [done|unfold ctx_flags_kept; reflexivity|exact Hrf|lia]. }
  intros [] s1 [(Hv0 & bl1 & Hres & Hz) Hf]. assert (Hm : m ∉ [r]) by (rewrite list_elem_of_singleton; congruence). pose proof (restored_holds _ _ _ _ _ _ Hres m v Hlm Hm Hv) as Hv1. pose proof (restored_words _ _ _ _ _ _ Hres m Hlm Hm) as Hwm.
  destruct (holds_sign _ _ _ Hv1) as (lm & Hsm & Hvm). destruct (shows_get _ _ _ _ Hsm) as (x & Hx & Hng & _). apply wp_bind. eapply wp_get_number; [exact Hx|]. rewrite Hng.
  pose proof (restored_ok _ _ _ _ _ _ Hres) as Hok1. pose proof (restored_live _ _ _ _ _ _ Hok Hres r Hlr) as Hlr1. pose proof (restored_live _ _ _ _ _ _ Hok Hres m Hlm) as Hlm1.
  assert (Hval : 2 ^ n * (u mod Z.abs v) mod Z.abs v = 2 ^ n * u mod Z.abs v) by (apply Z.mul_mod_idemp_r; lia).
  (* the shift by a positive modulus *)
  assert (Hshift : forall s2 y, restored s1 bl1 fr [] s2 bl1 -> ctx_flags_kept s1 s2 -> live s2 bl1 y -> r <> y -> holds (store s2) y (Z.abs v) -> words_of (store s2) y <= words_of (store s) m ->
    wp (bn_mod_lshift_quick_ctx r r n y) (fun _ => mod_done v (2 ^ n * u) s bl fr r) (mod_failed v s bl fr r (words_of (store s) a + words_of (store s) m + 1)) s2).
  { intros s2 y Hres2 Hf2 Hly Hry Hy Hwy. assert (Hnil : r ∉ []) by apply not_elem_of_nil. pose proof (restored_holds _ _ _ _ _ _ Hres2 r _ Hlr1 Hnil Hz) as Hz2. pose proof (words_nonneg _ _ _ Hy).
    assert (Hres12 : restored s bl fr [r] s2 bl1) by (eapply (restored_trans s bl fr [r] s1 bl1 Hok Hres []); [set_solver|done]).
    eapply wp_mono; [apply (bn_mod_lshift_quick_spec s2 bl1 fr r r y n (u mod Z.abs v) (Z.abs v))|..].
    - by eapply restored_ok.
    - eapply (restored_spacious s bl); [exact Hres12|]. unfold spacious in *. lia.
    - by eapply (restored_nestable s bl).
    - by eapply (restored_live s bl).
    - by eapply (restored_live s bl).
    - done.
    - done.
    - done.
    - done.
    - by eapply holds_roomy.
    - apply Z.mod_pos_bound. lia.
    - done.
    - intros [] s3 (bl3 & Hres3 & Hz3). split; [done|]. exists bl3. split; [by eapply (restored_trans s bl fr [r] s2 bl1)|]. by rewrite Hval in Hz3.
    - intros s3 (bl3 & Hres3 & Hrf). exists bl3. split; [by eapply (restored_trans s bl fr [r] s2 bl1)|]. right. unfold copy_need in Hrf. rewrite Nat.eqb_refl in Hrf.
      eapply (restored_refused s bl fr [r] s2 bl1); [exact Hres12|by etransitivity|exact Hrf|lia]. }
  destruct (Z.ltb_spec v 0) as [Hneg|Hpos].
  - (* its absolute value, in a copy *)
    apply wp_bind, wp_on_store, wp_bind. assert (Hal1 : aligned (store s1)) by by destruct Hok1 as (_ & _ & _ & _ & ? & _). wp_call BN_dup_spec; [exact Hal1|exact Hv1| |].
    + intros y st2 (-> & Hg & Hy & Hwy). destruct (holds_sign _ _ _ Hy) as (ly & Hsy & Hvy). apply wp_bind. wp_flags bn_set_neg_spec; [exact Hsy| |by intros ? []]. intros [] st3 [[Hs3 Ho3] Hf3]. apply wp_ret.
      assert (Hg3 : grown (store s1) st3).
      { destruct Hg as (G1 & G2 & G3 & G4), Ho3 as (F1 & F2 & F3). unfold grown, aligned in *. split_and!; [congruence|lia|by etransitivity|]. intros z Hzl. destruct (G4 z Hzl) as [<- <-]. apply F3. lia. }
      apply Hshift.
      * by apply restored_grown.
      * by destruct Hg3 as (_ & _ & ? & _).
      * apply (new_number_live _ _ fr); [done|]. destruct Hs3 as (n3 & d3 & Hbn3 & _). apply bn_is_lt in Hbn3 as [? _]. lia.
      * destruct Hlr1 as [? _]. lia.
      * rewrite <- Hvy. by apply holds_pos.
      * cbn [store]. rewrite (shows_words _ _ _ _ Hs3). rewrite (shows_words _ _ _ _ Hsy) in Hwy. lia.
    + intros st2 [Hg Hrf]. exists bl1. split; [eapply (restored_trans s bl fr [r] s1 bl1 Hok Hres []); [set_solver|by apply restored_grown]|]. right.
      eapply (restored_refused s bl fr [r] s1 bl1 (words_of (store s) m)); [exact Hres|exact Hf| |lia]. destruct Hrf as [Hmem|Hno]; [right; left; pose proof (zlen_nonneg fr); eapply out_of_memory_le; [|exact Hmem]; lia|].
      apply (no_room_refused _ _ (words_of (store s1) m)); [done|lia].
  - apply wp_bind, wp_ret. apply (Hshift s1 m); [| |done|done|by rewrite Z.abs_eq by lia|lia].
    + split_and!; try done. apply calm_refl.
    + unfold ctx_flags_kept. reflexivity.
Qed.
End Calls.
