(* ===== verification/BnPrograms.v ===== *)
(** Programs of calls with a scratch context, one after the other: what holds of every call holds of all
    of them. The contracts of [BnModThms] and [BnMontThms] are about such programs. *)
From S2P Require Import Prelude Mem Bn BnFacts BnArith BnMul BnCtx BnCtxFacts BnMulCtx BnFrames BnDiv BnFlags BnModFacts.

(** Numbers by their names. *)
Abbreviation env := (gmap bn Z).

Section Programs.
Context `{alloc : Allocator}.

(** The numbers [f] are there, in the hands of the caller. *)
Definition means (s : ctx_store) (bl : list bn) (f : env) : Prop := forall x z, f !! x = Some z -> live s bl x /\ holds (store s) x z.
Lemma means_get s bl f x : means s bl f -> is_Some (f !! x) -> live s bl x /\ holds (store s) x (f !!! x).
Proof. intros H [z Hz]. rewrite (lookup_total_correct _ _ _ Hz). by apply H. Qed.
(** A number that is set; the others are as they were. *)
Lemma means_kept s bl fr f r s' bl' x z : means s bl f -> restored s bl fr [r] s' bl' -> x <> r -> f !! x = Some z -> holds (store s') x z.
Proof. intros Hf Hres Hx Hz. destruct (Hf x z Hz). eapply (restored_holds s bl); [exact Hres|done|by rewrite list_elem_of_singleton|done]. Qed.
Lemma means_set s bl fr f r z s' bl' : ctx_ok s bl fr -> means s bl f -> is_Some (f !! r) -> restored s bl fr [r] s' bl' -> holds (store s') r z -> means s' bl' (<[r := z]> f).
Proof.
  intros Hok Hf [z0 Hr] Hres Hz x y Hx. destruct (decide (x = r)) as [->|Hne].
  - rewrite lookup_insert_eq in Hx. injection Hx as <-. split; [|done]. destruct (Hf r z0 Hr). by eapply (restored_live s bl).
  - rewrite lookup_insert_ne in Hx by done. split; [destruct (Hf x y Hx); by eapply (restored_live s bl)|by eapply means_kept].
Qed.

(** Calls [op], each with the number [target] that it sets; what they do to the numbers, given by a state [A] with the numbers [nums_of]. *)
Section Calls.
Context {op A : Type} (target : op -> bn) (run : op -> M ctx_store unit) (nums_of : A -> env) (eval : A -> op -> option A).
(** A state to compute in, the calls there may be, and why one may fail. *)
Context (fr : list Z) (inv : ctx_store -> list bn -> A -> Prop) (allowed : op -> Prop) (why : ctx_store -> op -> Prop).
(** What every call that succeeds shows. *)
Context (shown : Prop).

Fixpoint run_all (os : list op) : M ctx_store unit := match os with [] => mret tt | o :: os => run o;; run_all os end.
Fixpoint eval_all (f : A) (os : list op) : option A := match os with [] => Some f | o :: os => eval f o ≫= fun f' => eval_all f' os end.

(** The calls stop at the call [o]: all numbers but the one that [o] sets are those computed so far. *)
Definition stops (os : list op) (f : A) (s : ctx_store) (bl : list bn) (s' : ctx_store) : Prop :=
  exists dn o rest f1 bl', os = dn ++ o :: rest /\ eval_all f dn = Some f1 /\ restored s bl fr (map target (dn ++ [o])) s' bl' /\
    (forall x z, x <> target o -> nums_of f1 !! x = Some z -> holds (store s') x z) /\
    exists s1 bl1, restored s bl fr (map target dn) s1 bl1 /\ means s1 bl1 (nums_of f1) /\ why s1 o.

Hypothesis inv_ctx : forall s bl f, inv s bl f -> ctx_ok s bl fr.
Hypothesis inv_means : forall s bl f, inv s bl f -> means s bl (nums_of f).
Hypothesis run_spec : forall s bl f o f', inv s bl f -> allowed o -> eval f o = Some f' ->
  wp (run o) (fun _ s' => shown /\ exists bl', restored s bl fr [target o] s' bl' /\ inv s' bl' f')
    (fun s' => exists bl', restored s bl fr [target o] s' bl' /\ why s o) s.

Lemma run_all_spec os s bl f f' : inv s bl f -> Forall allowed os -> eval_all f os = Some f' ->
  wp (run_all os) (fun _ s' => (os = [] \/ shown) /\ exists bl', restored s bl fr (map target os) s' bl' /\ inv s' bl' f') (stops os f s bl) s.
Proof.
  revert s bl f. induction os as [|o os IH]; intros s bl f Hinv Hall Hev; pose proof (inv_ctx _ _ _ Hinv) as Hok; cbn [run_all].
  { cbn in Hev. injection Hev as <-. apply wp_ret. split; [by left|]. exists bl. split; [by apply restored_refl|done]. }
  apply Forall_cons in Hall as [Ho Hos]. cbn [eval_all] in Hev. apply bind_Some in Hev as (f1 & Hf1 & Hev). pose proof (inv_means _ _ _ Hinv) as Hf. apply wp_bind. wp_call run_spec; [exact Hinv|exact Ho|exact Hf1| |].
  - intros [] s1 (Hsh & bl1 & Hres & Hinv1). wp_call IH; [exact Hinv1|exact Hos|exact Hev| |].
    + intros [] s2 (_ & bl2 & Hres2 & Hinv2). split; [by right|]. exists bl2. split; [by eapply restored_step|done].
    + intros s2 (dn & o' & rest & f2 & bl2 & -> & Ef & Hres2 & Hz & s3 & bl3 & H3 & Hrest). exists (o :: dn), o', rest, f2, bl2. split; [done|].
      split; [cbn [eval_all]; by rewrite Hf1|]. split; [by eapply restored_step|]. split; [exact Hz|]. exists s3, bl3. split; [by eapply restored_step|done].
  - intros s1 (bl1 & Hres & Hwhy). exists [], o, os, f, bl1. split; [done|]. split; [done|]. split; [done|]. split.
    + intros x z Hx Hz. by eapply means_kept.
    + exists s, bl. split; [by apply restored_refl|done].
Qed.
End Calls.
End Programs.
