(* ===== verification/BnMont.v ===== *)
(** crypto/fipsmodule/bn/montgomery.c and montgomery_inv.c: products modulo an odd number without
    division. The configuration is that of [BnWords]: without assembly, so that the products are
    [bn_mul_fixed] and [bn_sqr_fixed] (or [bn_mul_small] and [bn_sqr_small]) and a reduction. *)
From S2P Require Import Prelude Mem Ct BnWords Bn BnShift BnMul BnCtx BnDiv.

(** The two numbers of the struct are named in the store like all others. *)
Record BN_MONT_CTX := mkMont {
  RR : bn;
  N : bn;
  n0 : Z * Z;
}.

(** * montgomery_inv.c *)

Definition LG_LITTLE_R : Z := 64.

(** [(BN_ULLONG)u * 2 * alpha - (BN_ULLONG)v * beta] *)
Definition inv_difference (u v alpha beta : Z) : Z := u128 (u128 (u128 (u128 (u * 2) * alpha)) - u128 (v * beta)).
Definition neg_inv_turn {S} (alpha beta : Z) (i : Z) '((u, v) : Z * Z) : M S (Z * Z) :=
  assert_ (u128 (Z.shiftl 1 (LG_LITTLE_R - i)) =? inv_difference u v alpha beta);;
  let u_is_odd := u64 (0 - Z.land u 1) in
  let beta_if_u_is_odd := Z.land beta u_is_odd in
  let u := u64 (Z.shiftr (Z.lxor u beta_if_u_is_odd) 1 + Z.land u beta_if_u_is_odd) in
  let alpha_if_u_is_odd := Z.land alpha u_is_odd in
  let v := u64 (Z.shiftr v 1 + alpha_if_u_is_odd) in
  mret (u, v).
Definition bn_neg_inv_mod_r_u64 {S} (n : Z) : M S Z :=
  assert_ (n mod 2 =? 1);;
  let alpha := u64 (Z.shiftl 1 (LG_LITTLE_R - 1)) in
  let beta := n in
  '(u, v) ← for_ 0 (Z.to_nat LG_LITTLE_R) (neg_inv_turn alpha beta) (1, 0);
  assert_ (1 =? inv_difference u v alpha beta);;
  mret v.

Section Mont.
Context `{alloc : Allocator}.

Definition bn_mont_n0 (n : bn) : M bn_store Z :=
  z ← BN_is_zero n; assert_ (negb z);;
  ng ← BN_is_negative n; assert_ (negb ng);;
  odd ← BN_is_odd n; assert_ odd;;
  n_mod_r ← on_words (rd (bn_d n) 0);
  bn_neg_inv_mod_r_u64 n_mod_r.

(** [r = 2^p mod n] *)
Definition bn_mod_exp_base_2_consttime (r : bn) (p : Z) (n : bn) : M ctx_store unit :=
  z ← on_store (BN_is_zero n); assert_ (negb z);;
  ng ← on_store (BN_is_negative n); assert_ (negb ng);;
  odd ← on_store (BN_is_odd n); assert_ odd;;
  on_store (BN_zero r);;
  n_bits ← on_store (BN_num_bits n);
  assert_ (negb (n_bits =? 0));;
  assert_ (n_bits <? p);;
  if n_bits =? 1 then mret tt else
  on_store (BN_set_bit r (n_bits - 1));;
  bn_mod_lshift_quick_ctx r r (p - (n_bits - 1)) n.

(** * montgomery.c *)

Definition sizeof_BN_MONT_CTX : Z := 64.
Definition BN_MONT_CTX_new : M bn_store BN_MONT_CTX :=
  p ← on_heap (OPENSSL_malloc sizeof_BN_MONT_CTX);
  match p with
  | None => fail
  | Some _ =>
      RR ← bn_alloc (mkBN 0 0 false 0) [];
      N ← bn_alloc (mkBN 0 0 false 0) [];
      mret (mkMont RR N (0, 0))
  end.

(** Contexts are told apart by their numbers. *)
Definition BN_MONT_CTX_copy (to from : BN_MONT_CTX) : M bn_store BN_MONT_CTX :=
  if Nat.eqb (N to) (N from) then mret to else
  BN_copy (RR to) (RR from);;
  BN_copy (N to) (N from);;
  mret (mkMont (RR to) (N to) (n0 from)).

(** A context that is being set, and what is around it. *)
Record mont_store := mkMontStore { mont_ctx : BN_MONT_CTX; around : ctx_store }.
Definition on_ctx {A} (m : M ctx_store A) : M mont_store A := zoom around (fun t s => mkMontStore (mont_ctx s) t) m.

(** The modulus and [n0]. *)
Definition mont_set_modulus (m : bn) : M mont_store unit :=
  s ← get; let N := N (mont_ctx s) in
  z ← on_ctx (on_store (BN_is_zero m));
  if (z : bool) then fail else
  odd ← on_ctx (on_store (BN_is_odd m));
  if negb odd then fail else
  ng ← on_ctx (on_store (BN_is_negative m));
  if (ng : bool) then fail else
  on_ctx (on_store (BN_copy N m));;
  on_ctx (on_store (bn_set_minimal_width N));;
  n0 ← on_ctx (on_store (bn_mont_n0 N));
  modify (fun s => mkMontStore (mkMont (RR (mont_ctx s)) N (n0, 0)) (around s)).
(** With the scratch context of the caller. *)
Definition BN_MONT_CTX_set (m : bn) : M mont_store unit :=
  mont_set_modulus m;;
  s ← get; let N := N (mont_ctx s) in
  x ← on_ctx (bn_get_ctx N);
  let lgBigR := u32 (width x * BN_BITS2) in
  on_ctx (bn_mod_exp_base_2_consttime (RR (mont_ctx s)) (u32 (lgBigR * 2)) N).

Definition BN_MONT_CTX_new_for_modulus (m : bn) : M ctx_store BN_MONT_CTX := fun s =>
  match on_store BN_MONT_CTX_new s with
  | Ok mont s =>
      match BN_MONT_CTX_set m (mkMontStore mont s) with
      | Ok _ t => Ok (mont_ctx t) (around t)
      | Fail t => Fail (around t)
      | Stuck => Stuck
      end
  | Fail s => Fail s
  | Stuck => Stuck
  end.

(** ** The reduction *)

(** A multiple of [n] is added that makes the word [i] of [a] zero. *)
Definition reduce_turn (a n : wptr) (num_n n0 : Z) (i carry : Z) : M words Z :=
  w ← rd a i;
  v ← bn_mul_add_words (wadd a i) n num_n (u64 (w * n0));
  y ← rd a (i + num_n);
  let v := u64 (v + u64 (carry + y)) in
  let carry := Z.lor carry (b2z (negb (v =? y))) in
  let carry := Z.land carry (b2z (v <=? y)) in
  wr a (i + num_n) v;;
  mret carry.
(** [n] is taken away where there is room for it. *)
Definition reduce_once (r a n : wptr) (num_n carry : Z) : M words unit :=
  borrow ← bn_sub_words r a n num_n;
  let v := u64 (borrow - carry) in
  let v := u64 (0 - v) in
  for_ 0 (Z.to_nat num_n) (fun i _ =>
    x ← rd a i; y ← rd r i;
    wr r i (constant_time_select_w v x y);;
    wr a i 0) tt.

Definition bn_from_montgomery_in_place (r : wptr) (num_r : Z) (a : wptr) (num_a : Z) (mont : BN_MONT_CTX) : M bn_store unit :=
  x ← bn_get (N mont);
  let n := bn_d (N mont) in
  let num_n := width x in
  if negb (num_r =? num_n) || negb (num_a =? 2 * num_n) then fail else
  on_words (
    carry ← for_ 0 (Z.to_nat num_n) (reduce_turn a n num_n (n0 mont).1) 0;
    reduce_once r (wadd a num_n) n num_n carry).

Definition BN_from_montgomery_word (ret r : bn) (mont : BN_MONT_CTX) : M bn_store unit :=
  x ← bn_get r;
  if neg x then fail else
  n ← bn_get (N mont);
  if width n =? 0 then bn_set_width ret 0 else
  let max := 2 * width n in
  bn_resize_words r max;;
  bn_wexpand ret (width n);;
  bn_set_width ret (width n);;
  bn_set_neg ret false;;
  x ← bn_get ret; y ← bn_get r;
  bn_from_montgomery_in_place (bn_d ret) (width x) (bn_d r) (width y) mont.

Definition BN_from_montgomery (r a : bn) (mont : BN_MONT_CTX) : M ctx_store unit :=
  BN_CTX_start;;
  ret ← succeeds (
    t ← BN_CTX_get;
    match t with
    | None => fail
    | Some t => on_store (BN_copy t a);; on_store (BN_from_montgomery_word r t mont)
    end);
  BN_CTX_end;;
  require ret.

(** [R - n], for a modulus with its highest bit set. *)
Definition complement_words (r n : wptr) (num_n : Z) : M words unit :=
  w ← rd n 0; wr r 0 (u64 (0 - w));;
  for_ 1 (Z.to_nat (num_n - 1)) (fun i _ => w ← rd n i; wr r i (u64 (Z.lnot w))) tt.
(** [n->width > 0 && (n->d[n->width - 1] >> (BN_BITS2 - 1)) != 0] *)
Definition has_high_bit (n : bn) : M bn_store bool :=
  x ← bn_get n;
  if 0 <? width x then w ← on_words (rd (bn_d n) (width x - 1)); mret (negb (Z.shiftr w (BN_BITS2 - 1) =? 0)) else mret false.

Definition bn_one_to_montgomery (r : bn) (mont : BN_MONT_CTX) : M ctx_store unit :=
  high ← on_store (has_high_bit (N mont));
  if (high : bool) then
    on_store (
      x ← bn_get (N mont);
      bn_wexpand r (width x);;
      on_words (complement_words (bn_d r) (bn_d (N mont)) (width x));;
      bn_set_width r (width x);;
      bn_set_neg r false)
  else BN_from_montgomery r (RR mont) mont.

(** ** Products *)

Definition bn_mod_mul_montgomery_fallback (r a b : bn) (mont : BN_MONT_CTX) : M ctx_store unit :=
  BN_CTX_start;;
  ret ← succeeds (
    tmp ← BN_CTX_get;
    match tmp with
    | None => fail
    | Some tmp =>
        (if Nat.eqb a b then bn_sqr_fixed tmp a else bn_mul_fixed tmp a b);;
        on_store (BN_from_montgomery_word r tmp mont)
    end);
  BN_CTX_end;;
  require ret.
Definition BN_mod_mul_montgomery (r a b : bn) (mont : BN_MONT_CTX) : M ctx_store unit :=
  x ← bn_get_ctx a; y ← bn_get_ctx b;
  if neg x || neg y then fail else
  bn_mod_mul_montgomery_fallback r a b mont.
Definition BN_to_montgomery (ret a : bn) (mont : BN_MONT_CTX) : M ctx_store unit := BN_mod_mul_montgomery ret a (RR mont) mont.

Definition bn_less_than_montgomery_R (x : bn) (mont : BN_MONT_CTX) : M bn_store bool :=
  ng ← BN_is_negative x;
  if (ng : bool) then mret false else
  n ← bn_get (N mont); bn_fits_in_words x (width n).

(** ** On arrays of a few words *)

(** The array on the stack is cleansed and goes. *)
Definition bn_from_montgomery_small (r : wptr) (num_r : Z) (a : wptr) (num_a : Z) (mont : BN_MONT_CTX) : M bn_store unit :=
  x ← bn_get (N mont);
  let num_n := width x in
  if (2 * num_n <? num_a) || negb (num_r =? num_n) || (BN_SMALL_MAX_WORDS <? num_n) then fail else
  with_array (BN_SMALL_MAX_WORDS * 2) (fun tmp =>
    let num_tmp := 2 * num_n in
    ws ← on_words (wread a num_a);
    on_words (wwrite tmp ws);;
    on_words (wzero (wadd tmp num_a) (num_tmp - num_a));;
    bn_from_montgomery_in_place r num_r tmp num_tmp mont).

Definition bn_one_to_montgomery_small (r : wptr) (num_r : Z) (mont : BN_MONT_CTX) : M bn_store unit :=
  x ← bn_get (N mont);
  let num_n := width x in
  if (num_n =? 0) || negb (num_r =? num_n) then fail else
  high ← has_high_bit (N mont);
  if (high : bool) then on_words (complement_words r (bn_d (N mont)) num_n) else
  y ← bn_get (RR mont);
  bn_from_montgomery_small r num_r (bn_d (RR mont)) (width y) mont.

Definition bn_mod_mul_montgomery_small (r : wptr) (num_r : Z) (a : wptr) (num_a : Z) (b : wptr) (num_b : Z) (mont : BN_MONT_CTX) : M bn_store unit :=
  x ← bn_get (N mont);
  let num_n := width x in
  if negb (num_r =? num_n) || (2 * num_n <? num_a + num_b) || (BN_SMALL_MAX_WORDS <? num_n) then fail else
  with_array (2 * BN_SMALL_MAX_WORDS) (fun tmp =>
    let num_tmp := 2 * num_n in
    let num_ab := num_a + num_b in
    (if bool_decide (a = b) && (num_a =? num_b) then bn_sqr_small tmp num_ab a num_a
     else on_words (bn_mul_small tmp num_ab a num_a b num_b));;
    on_words (wzero (wadd tmp num_ab) (num_tmp - num_ab));;
    bn_from_montgomery_in_place r num_r tmp num_tmp mont).
Definition bn_to_montgomery_small (r : wptr) (num_r : Z) (a : wptr) (num_a : Z) (mont : BN_MONT_CTX) : M bn_store unit :=
  y ← bn_get (RR mont);
  bn_mod_mul_montgomery_small r num_r a num_a (bn_d (RR mont)) (width y) mont.
End Mont.
