(* ===== verification/BnMontWords.v ===== *)
(** Facts about the words of [BnMont]: the inverse of a modulus modulo 2^64, and the reduction. *)
From S2P Require Import Prelude Mem Ct BnWords BnWordsFacts BnMulFacts CtFacts Bn BnFacts BnAddFacts BnArith BnMul BnPartFacts BnKaratsuba BnCtx BnDiv BnMont.

(** * The inverse *)

Lemma land_mask a c : word a -> Z.land a (mask_of c) = if c then a else 0.
Proof. intros Ha. destruct c; cbn [mask_of]; [|by rewrite Z.land_0_r]. unfold BN_MASK2. change 0xffffffffffffffff with (BASE - 1). rewrite land_low by lia. by apply Z.mod_small. Qed.
Lemma odd_mask u : u64 (0 - Z.land u 1) = mask_of (Z.odd u).
Proof. change 1 with (Z.ones 1) at 1. rewrite Z.land_ones by lia. change (2 ^ 1) with 2. rewrite Zmod_odd. by destruct (Z.odd u). Qed.
(** The mean of two numbers without their sum. *)
Lemma dietz x y : Z.shiftr (Z.lxor x y) 1 + Z.land x y = (x + y) / 2.
Proof. rewrite Z.shiftr_div_pow2 by lia. change (2 ^ 1) with 2. rewrite <- (Z.add_lxor_2land x y), (Z.mul_comm 2), Z.div_add by lia. done. Qed.

Section Inverse.
Context {S : Type}.
Variables (n : Z).
Hypothesis Hn : word n.
Hypothesis Hodd : n mod 2 = 1.

Definition inverse_so_far (i : Z) '((u, v) : Z * Z) : Prop := u * BASE - v * n = 2 ^ (64 - i) /\ 0 < u <= n /\ word v.
Lemma inverse_bound (u v : Z) : 0 < u <= n -> word v -> 0 <= u * BASE < BASE * BASE /\ 0 <= v * n < BASE * BASE.
Proof. unfold word in *. intros. nia. Qed.

Lemma difference_exact i u v : 0 <= i <= 64 -> inverse_so_far i (u, v) -> inv_difference u v (2 ^ 63) n = 2 ^ (64 - i).
Proof.
  intros Hi (E & Hu & Hv). destruct (inverse_bound u v Hu Hv) as [H1 H2]. unfold inv_difference. unfold word in *.
  assert (Ea : u128 (u128 (u * 2) * 2 ^ 63) = u * BASE) by (rewrite (u128_id (u * 2)) by lia; rewrite u128_id by lia; lia).
  rewrite Ea, (u128_id (u * BASE)), (u128_id (v * n)), E by lia. apply u128_id. assert (0 < 2 ^ (64 - i) <= 2 ^ 64) by (split; [apply Z.pow_pos_nonneg; lia|apply Z.pow_le_mono_r; lia]). lia.
Qed.

Lemma neg_inv_turn_spec i u v (s : S) : 0 <= i < 64 -> inverse_so_far i (u, v) -> wp (neg_inv_turn (2 ^ 63) n i (u, v)) (fun p s' => s' = s /\ inverse_so_far (i + 1) p) (fun _ => False) s.
Proof.
  intros Hi HI. pose proof HI as (E & Hu & Hv). unfold neg_inv_turn. apply wp_bind, wp_assert.
  { rewrite (difference_exact i) by (done || lia). unfold LG_LITTLE_R. rewrite Z.shiftl_mul_pow2, Z.mul_1_l by lia. apply Z.eqb_eq, u128_id.
    assert (0 < 2 ^ (64 - i) <= 2 ^ 64) by (split; [apply Z.pow_pos_nonneg; lia|apply Z.pow_le_mono_r; lia]). lia. }
  assert (Hwu : word u) by (unfold word in *; lia). assert (Ha : word (2 ^ 63)) by (unfold word; lia). rewrite odd_mask, !land_mask, dietz by done. apply wp_ret. split; [done|].
  assert (Ep : 2 ^ (64 - i) = 2 * 2 ^ (64 - (i + 1))) by (rewrite <- Z.pow_succ_r by lia; f_equal; lia).
  (* v is even *)
  assert (Hev : v mod 2 = 0) by (assert (v * n mod 2 = 0) as H; [replace (v * n) with ((u * 2 ^ 63 - 2 ^ (64 - (i + 1))) * 2) by lia; by apply Z.mod_mul|]; rewrite Z.mul_mod, Hodd, Z.mul_1_r, Z.mod_mod in H by lia; done).
  pose proof (Z.div_mod v 2 ltac:(lia)) as Dv. rewrite Z.shiftr_div_pow2 by lia. change (2 ^ 1) with 2. pose proof (Zmod_odd u) as Ou. unfold word in *. destruct (Z.odd u).
  - pose proof (Z.div_mod n 2 ltac:(lia)) as Dn. pose proof (Z.div_mod u 2 ltac:(lia)) as Du. assert (Eh : (u + n) / 2 = u / 2 + n / 2 + 1) by (symmetry; apply (Z.div_unique_pos _ _ _ 0); lia).
    rewrite !u64_id by (unfold word; lia). unfold inverse_so_far, word. split_and!; lia || nia.
  - pose proof (Z.div_mod u 2 ltac:(lia)) as Du. rewrite !Z.add_0_r. rewrite !u64_id by (unfold word; lia). unfold inverse_so_far, word. split_and!; lia || nia.
Qed.

Lemma bn_neg_inv_spec (s : S) : wp (bn_neg_inv_mod_r_u64 n) (fun v s' => s' = s /\ word v /\ (v * n + 1) mod BASE = 0) (fun _ => False) s.
Proof.
  unfold bn_neg_inv_mod_r_u64. apply wp_bind, wp_assert; [by apply Z.eqb_eq|]. change (u64 (Z.shiftl 1 (LG_LITTLE_R - 1))) with (2 ^ 63).
  apply wp_bind, (wp_for (fun i p s' => s' = s /\ inverse_so_far i p)).
  - split; [done|]. unfold inverse_so_far, word in *. assert (n <> 0) by (intros ->; done). split_and!; lia.
  - intros i [u v] s' Hi [-> HI]. change (Z.of_nat (Z.to_nat LG_LITTLE_R)) with 64 in Hi. by apply neg_inv_turn_spec; [lia|].
  - intros [u v] s' [-> HI]. change (0 + Z.of_nat (Z.to_nat LG_LITTLE_R)) with 64 in HI. apply wp_bind, wp_assert; [by rewrite (difference_exact 64)|]. apply wp_ret. destruct HI as (E & Hu & Hv). split; [done|]. split; [done|].
    replace (v * n + 1) with (u * BASE) by lia. by apply Z.mod_mul.
Qed.
End Inverse.

(** * The reduction *)

(** Words written inside others. *)
Lemma at_put m p l1 l2 l3 l : at_ m p (l1 ++ l2 ++ l3) -> zlen l = zlen l2 -> at_ (wput m (wadd p (zlen l1)) l) p (l1 ++ l ++ l3).
Proof.
  intros Hat Hz. pose proof (zlen_nonneg l1). pose proof (zlen_nonneg l2). pose proof (zlen_nonneg l3). pose proof (at_writable _ _ _ Hat) as Hw. rewrite !zlen_app in Hw.
  assert (Hwl : writable m (wadd p (zlen l1)) (zlen l)) by (eapply writable_sub; [exact Hw|lia..]).
  assert (A1 : at_ m p l1) by (pose proof (at_take _ _ _ (zlen l1) Hat ltac:(rewrite !zlen_app; lia)) as A1; by rewrite ztake_app in A1).
  assert (A3 : at_ m (wadd (wadd p (zlen l1)) (zlen l)) l3).
  { rewrite wadd_wadd, Hz. pose proof (at_drop _ _ _ (zlen l1 + zlen l2) Hat ltac:(rewrite !zlen_app; lia)) as A3. rewrite app_assoc, zdrop_app in A3; [done|by rewrite zlen_app]. }
  apply at_app; [apply wput_apart; [done|exact A1|regions]|]. apply at_app; [by apply wput_at|]. apply wput_apart; [done|exact A3|regions].
Qed.
Lemma keeps_inside m p l q k : writable m p (zlen l) -> digits l -> inside p (zlen l) q k -> keeps m (wput m p l) [(q, k)].
Proof. intros Hw Hd Hin. eapply keeps_mono; [|apply (keeps_put _ _ _ [(p, zlen l)] (zlen l)); [done|done|done|by left]]. constructor; [|constructor]. by constructor. Qed.

(** The carry of the code is that of the sum. *)
Lemma carry_exact c carry y :
  word c -> bit carry -> word y -> let v := u64 (c + u64 (carry + y)) in
  let carry' := Z.land (Z.lor carry (b2z (negb (v =? y)))) (b2z (v <=? y)) in bit carry' /\ v + BASE * carry' = c + carry + y.
Proof.
  intros Hc Hb Hy. assert (Hbits : forall p q r, Z.land (Z.lor (b2z p) (b2z q)) (b2z r) = b2z ((p || q) && r)) by by intros [] [] [].
  assert (Hv : u64 (c + u64 (carry + y)) = (c + carry + y) mod BASE) by (rewrite !u64_mod, Zplus_mod_idemp_r; f_equal; lia). cbv zeta. rewrite Hv. unfold word, bit in *.
  destruct (Z.lt_ge_cases (c + carry + y) BASE) as [Hlt|Hge]; [rewrite Z.mod_small by lia|replace ((c + carry + y) mod BASE) with (c + carry + y - BASE) by (apply (Z.mod_unique_pos _ _ 1); lia)].
  all: assert (carry = 0 \/ carry = 1) as [->| ->] by lia; [change (Z.lor 0) with (Z.lor (b2z false))|change (Z.lor 1) with (Z.lor (b2z true))]; rewrite Hbits.
  all: match goal with |- context [?t =? ?z] => destruct (Z.eqb_spec t z), (Z.leb_spec t z) end; cbn [b2z negb orb andb]; lia.
Qed.

Section Reduce.
Variables (m : words) (a n : wptr) (la ln : list Z) (k n0 : Z).
Hypothesis Ha : at_ m a la.
Hypothesis Hn : at_ m n ln.
Hypothesis Hda : digits la.
Hypothesis Hdn : digits ln.
Hypothesis Hza : zlen la = 2 * k.
Hypothesis Hzn : zlen ln = k.
Hypothesis Han : apart a (2 * k) n k.
Hypothesis Hn0 : (n0 * val ln + 1) mod BASE = 0.

(** After [i] turns, [i] words are zero, and a multiple of the modulus has been added. *)
Definition reduced_to (i carry : Z) (m' : words) : Prop :=
  bit carry /\ keeps m m' [(a, 2 * k)] /\
  exists hi q, at_ m' a (zrep i 0 ++ hi) /\ zlen hi = 2 * k - i /\ digits hi /\ 0 <= q < BASE ^ i /\ BASE ^ i * val hi + carry * BASE ^ (k + i) = val la + q * val ln.

Lemma reduced_start : reduced_to 0 0 m.
Proof. split; [apply bit_0|]. split; [apply keeps_refl|]. exists la, 0. change (BASE ^ 0) with 1. split_and!; [done|lia|done|lia..]. Qed.

(** The multiple makes the lowest word zero. *)
Lemma turn_zero x mid mid' c : digits (x :: mid) -> digits mid' -> zlen mid' = k -> 0 < k -> val mid' + 1 * BASE ^ k * c = u64 (x * n0) * val ln + val (x :: mid) -> exists mid'', mid' = 0 :: mid''.
Proof.
  intros Hd Hd' Hz Hk E. destruct (zlen_pos mid' ltac:(lia)) as (z & l & ->). exists l. f_equal. rewrite !val_cons in E. replace k with (k - 1 + 1) in E by lia. rewrite B_pow in E by lia.
  apply Forall_cons in Hd as [Hx _]. apply Forall_cons in Hd' as [Hz' _]. assert (Em : z mod BASE = 0).
  { rewrite u64_mod in E. assert (Ez : z = (x * n0) mod BASE * val ln + x + (val mid - val l - BASE ^ (k - 1) * c) * BASE) by lia. rewrite Ez, Z.mod_add by lia.
    rewrite Z.add_mod, Zmult_mod_idemp_l, <- Z.add_mod by lia. replace (x * n0 * val ln + x) with (x * (n0 * val ln + 1)) by lia. by rewrite Z.mul_mod, Hn0, Z.mul_0_r by lia. }
  unfold word in Hz'. rewrite Z.mod_small in Em; lia.
Qed.

Lemma reduce_turn_spec i carry m' : 0 <= i < k -> reduced_to i carry m' -> wp (reduce_turn a n k n0 i carry) (fun c => reduced_to (i + 1) c) (fun _ => False) m'.
Proof.
  intros Hi (Hb & K & hi & q & Hat & Hzh & Hdh & Hq & Hval). assert (Hzr : zlen (zrep i 0) = i) by (apply zlen_zrep; lia).
  pose proof (ztake_zdrop k hi) as Esp. set (mid := ztake k hi) in *. assert (Hzm : zlen mid = k) by (apply zlen_ztake; lia). destruct (zget_lt hi k) as [y Hy]; [lia|]. rewrite (zdrop_next _ _ _ Hy) in Esp. set (rest := zdrop (k + 1) hi) in *.
  assert (Hdm : digits mid) by by apply digits_ztake. assert (Hdr : digits rest) by by apply digits_zdrop. pose proof (digits_zget _ _ _ Hdh Hy) as Hwy. rewrite <- Esp in Hat, Hval.
  assert (Hatm : at_ m' (wadd a i) (mid ++ y :: rest)) by (pose proof (at_drop _ _ _ i Hat ltac:(rewrite zlen_app, Hzr, Esp; lia)) as H; by rewrite zdrop_app in H).
  assert (Hatn : at_ m' n ln) by (destruct K as (_ & K & _); apply K; [done|]; constructor; [cbn; by rewrite Hzn|constructor]).
  destruct (zlen_pos mid ltac:(lia)) as (x & mid0 & Em). unfold reduce_turn.
  apply wp_bind. wp_call (rd_spec m' a _ i x Hat); [rewrite Em; by apply zget_middle|  |done]. intros ? ? [-> ->].
  assert (Hatm0 : at_ m' (wadd a i) mid) by (pose proof (at_take _ _ _ k Hatm ltac:(rewrite zlen_app; pose proof (zlen_nonneg (y :: rest)); lia)) as H; by rewrite ztake_app in H).
  apply wp_bind. wp_call (bn_mul_add_words_spec m' (wadd a i) n mid ln k); [exact Hatm0|done|done|done|done|done|apply u64_word|regions| |done].
  intros c m1 (mid' & -> & Hz' & Hd' & Hc & Hv). assert (Hw1 : writable m' (wadd a i) (zlen mid')) by (rewrite Hz', <- Hzm; by apply at_writable).
  pose proof (at_put m' a (zrep i 0) mid (y :: rest) mid' Hat ltac:(congruence)) as Hat1. rewrite Hzr in Hat1.
  apply wp_bind. wp_call (rd_spec _ a _ (i + k) y Hat1); [| |done]. { rewrite app_assoc. apply zget_middle. rewrite zlen_app. lia. } intros ? ? [-> ->].
  destruct (carry_exact c carry y Hc Hb Hwy) as [Hb' Ev]. cbv zeta in *. set (v := u64 (c + u64 (carry + y))) in *. set (carry' := Z.land _ _) in *.
  assert (Hwv : writable (wput m' (wadd a i) mid') (wadd a (i + k)) 1) by (apply wput_writable; [done|]; pose proof (at_writable _ _ _ Hat) as H; rewrite !zlen_app, zlen_cons in H; pose proof (zlen_nonneg rest); eapply writable_sub; [exact H|lia..]).
  apply wp_bind. wp_call wr_spec; [exact Hwv| |done]. intros [] m2 ->. apply wp_ret. split; [done|]. assert (Hdv : digits [v]) by (constructor; [apply u64_word|constructor]). split.
  { eapply keeps_trans; [exact K|]. eapply keeps_trans; [apply (keeps_inside m' (wadd a i) mid' a (2 * k)); [done|done|rewrite Hz'; unfold inside; cbn; lia]|apply (keeps_inside _ (wadd a (i + k)) [v] a (2 * k)); [done|done|]; change (zlen [v]) with 1; unfold inside; cbn; lia]. }
  destruct (turn_zero x mid0 mid' c) as [mid'' E']; [by rewrite <- Em|done|done|lia|by rewrite <- Em|]. exists (mid'' ++ v :: rest), (q + BASE ^ i * u64 (x * n0)).
  assert (Hzr1 : zrep i 0 ++ mid' = zrep (i + 1) 0 ++ mid'') by (rewrite E'; unfold zrep; rewrite (Z2Nat.inj_add i 1), replicate_add by lia; by rewrite <- app_assoc).
  assert (Hz'' : 1 + zlen mid'' = k) by (rewrite E', zlen_cons in Hz'; lia). pose proof (u64_word (x * n0)) as Hwx. unfold word in Hwx. assert (Hrest : zlen rest = 2 * k - i - k - 1) by (unfold rest; rewrite zlen_zdrop; lia).
  split_and!.
  - rewrite app_assoc in Hat1. pose proof (at_put _ a (zrep i 0 ++ mid') [y] rest [v] Hat1 eq_refl) as Hat2. rewrite zlen_app, Hzr, Hz' in Hat2. by rewrite Hzr1, <- app_assoc in Hat2.
  - rewrite zlen_app, zlen_cons. lia.
  - apply digits_app. split; [rewrite E' in Hd'; by apply Forall_cons in Hd' as [_ ?]|]. constructor; [apply u64_word|done].
  - nia.
  - rewrite B_pow by lia. assert (0 < BASE ^ i) by (apply Z.pow_pos_nonneg; lia). nia.
  - rewrite val_app, val_cons, Hzm in Hval. rewrite val_app, val_cons. assert (Em' : val mid' = BASE * val mid'') by (rewrite E', val_cons; lia). rewrite Em' in Hv.
    replace (zlen mid'') with (k - 1) by lia. rewrite B_pow by lia. replace (k + (i + 1)) with (k + i + 1) by lia. rewrite B_pow, Z.pow_add_r in * by lia. assert (EP : BASE ^ k = BASE * BASE ^ (k - 1)) by (rewrite <- B_pow by lia; f_equal; lia). nia.
Qed.
End Reduce.

Section Once.
Variables (m : words) (r a n : wptr) (hi ln : list Z) (k carry : Z).
Hypothesis Ha : at_ m a hi.
Hypothesis Hn : at_ m n ln.
Hypothesis Hr : writable m r k.
Hypothesis Hda : digits hi.
Hypothesis Hdn : digits ln.
Hypothesis Hza : zlen hi = k.
Hypothesis Hzn : zlen ln = k.
Hypothesis Hra : apart r k a k.
Hypothesis Hrn : apart r k n k.
Hypothesis Hb : bit carry.
Local Abbreviation A := (val hi + carry * BASE ^ k).
Hypothesis HA : A < BASE ^ k + val ln.

(** The words of the result replace those of [r] one by one, and those of [a] become zero. *)
Lemma select_and_clear m1 w (c : bool) :
  keeps m m1 [(r, k); (a, k)] -> at_ m1 r w -> at_ m1 a hi -> zlen w = k -> digits w ->
  wp (for_ 0 (Z.to_nat k) (fun i _ => x ← rd a i; y ← rd r i; wr r i (constant_time_select_w (mask_of c) x y);; wr a i 0) tt)
    (fun _ m' => at_ m' r (if c then hi else w) /\ keeps m m' [(r, k); (a, k)]) (fun _ => False) m1.
Proof.
  intros K1 Hrw Haw Hzw Hdw. set (sel := if c then hi else w). assert (Hzs : zlen sel = k) by (unfold sel; by destruct c). assert (Hds : digits sel) by (unfold sel; by destruct c). pose proof (zlen_nonneg hi).
  apply (wp_for (fun i _ m' => keeps m m' [(r, k); (a, k)] /\ at_ m' r (ztake i sel ++ zdrop i w) /\ at_ m' a (zrep i 0 ++ zdrop i hi))).
  - by rewrite ztake_0, !zdrop_0.
  - intros i [] m' Hi (K & Hatr & Hata). destruct (zget_lt hi i) as [x Hx]; [lia|]. destruct (zget_lt w i) as [y Hy]; [lia|]. rewrite (zdrop_next _ _ _ Hy) in Hatr. rewrite (zdrop_next _ _ _ Hx) in Hata.
    assert (Hzt : zlen (ztake i sel) = i) by (apply zlen_ztake; lia). assert (Hzr : zlen (zrep i 0) = i) by (apply zlen_zrep; lia).
    apply wp_bind. wp_call (rd_spec m' a _ i x Hata); [by apply zget_middle| |done]. intros ? ? [-> ->]. apply wp_bind. wp_call (rd_spec m' r _ i y Hatr); [by apply zget_middle| |done]. intros ? ? [-> ->].
    rewrite constant_time_select_w_spec by (exact (digits_zget _ _ _ Hda Hx) || exact (digits_zget _ _ _ Hdw Hy)). set (z := if c then x else y). assert (Hz : zget sel i = Some z) by (unfold sel, z; by destruct c).
    assert (Hwr : writable m' (wadd r i) 1) by (eapply (writable_sub _ _ k); [by eapply keeps_writable|lia..]). assert (Hdz : digits [z]) by (constructor; [exact (digits_zget _ _ _ Hds Hz)|constructor]).
    apply wp_bind. wp_call wr_spec; [exact Hwr| |done]. intros [] m2 ->.
    assert (Hwa : writable m' (wadd a i) 1) by (eapply (writable_sub _ _ k); [eapply keeps_writable; [exact K|]; rewrite <- Hza; by eapply at_writable|lia..]).
    wp_call wr_spec; [by apply wput_writable| |done]. intros [] m3 ->.
    assert (K2 : keeps m' (wput m' (wadd r i) [z]) [(r, k)]) by (apply keeps_inside; [done|done|change (zlen [z]) with 1; unfold inside; cbn; lia]).
    assert (K3 : keeps (wput m' (wadd r i) [z]) (wput (wput m' (wadd r i) [z]) (wadd a i) [0]) [(a, k)]).
    { apply keeps_inside; [by apply wput_writable|constructor; [apply word_0|constructor]|change (zlen [0]) with 1; unfold inside; cbn; lia]. }
    pose proof (at_put m' r (ztake i sel) [y] (zdrop (i + 1) w) [z] Hatr eq_refl) as Hatr2. rewrite Hzt in Hatr2.
    assert (Hata2 : at_ (wput m' (wadd r i) [z]) a (zrep i 0 ++ [x] ++ zdrop (i + 1) hi)).
    { apply wput_apart; [done|exact Hata|]. rewrite !zlen_app, zlen_zdrop, Hzr by lia. change (zlen [z]) with 1. change (zlen [x]) with 1. replace (i + (1 + (zlen hi - (i + 1)))) with k by lia. clear - Hra Hi. regions. }
    pose proof (at_put _ a (zrep i 0) [x] (zdrop (i + 1) hi) [0] Hata2 eq_refl) as Hata3. rewrite Hzr in Hata3. split_and!.
    + eapply keeps_trans; [exact K|]. eapply keeps_trans; [eapply keeps_mono; [|exact K2]|eapply keeps_mono; [|exact K3]].
      * by repeat constructor.
      * constructor; [right; by repeat constructor|constructor].
    + apply wput_apart; [by apply wput_writable| |].
      * by rewrite (ztake_next _ _ _ Hz), <- app_assoc.
      * rewrite zlen_app, zlen_ztake, zlen_zdrop by lia. change (zlen [0]) with 1. replace (i + 1 + (zlen w - (i + 1))) with k by lia. clear - Hra Hi. regions.
    + unfold zrep in *. rewrite (Z2Nat.inj_add i 1), replicate_add, <- app_assoc by lia. exact Hata3.
  - intros [] m' (K & Hatr & _). split; [|done]. rewrite Z.add_0_l, Z2Nat.id in Hatr by lia. rewrite <- Hzs in Hatr at 1. by rewrite ztake_all, <- Hzw, zdrop_all, app_nil_r in Hatr.
Qed.

Lemma reduce_once_spec :
  wp (reduce_once r a n k carry)
    (fun _ m' => exists w, at_ m' r w /\ zlen w = k /\ digits w /\ val w = (if A <? val ln then A else A - val ln) /\ keeps m m' [(r, k); (a, k)]) (fun _ => False) m.
Proof.
  unfold reduce_once. apply wp_bind. wp_call (bn_sub_words_spec m r a n hi ln k); [done|done|done|done|done|done|done| | | |done]. { clear - Hra. regions. } { clear - Hrn. regions. }
  intros o m1 (w & -> & Zw & Dw & Ho & Vw). pose proof (val_range _ Dw) as W. pose proof (val_range _ Hda) as VA. pose proof (val_range _ Hdn) as VN. rewrite Zw in W. rewrite Hza in VA. rewrite Hzn in VN. pose proof (zlen_nonneg hi).
  assert (Hw1 : writable m r (zlen w)) by by rewrite Zw. cbv zeta. unfold bit in *. set (P := BASE ^ k) in *.
  assert (Hcase : u64 (0 - u64 (o - carry)) = mask_of (A <? val ln) /\ (if A <? val ln then val hi else val w) = (if A <? val ln then A else A - val ln)).
  { fold P in HA |- *. remember (val hi + carry * P) as t eqn:Et. assert (carry = 0 \/ carry = 1) as [Ec|Ec] by lia; assert (o = 0 \/ o = 1) as [Eo|Eo] by lia; rewrite Ec, Eo in *; destruct (Z.ltb_spec t (val ln)); try lia; (split; [done|lia]). }
  destruct Hcase as [-> Hv]. subst P. wp_call (select_and_clear (wput m r w) w (A <? val ln)); [|by apply wput_at|apply wput_apart; [done|done|]|done|done| |done].
  - eapply keeps_put; [done|symmetry; exact Zw|done|by left].
  - rewrite Zw, Hza. exact Hra.
  - intros [] m' [Hat K]. eexists. split; [exact Hat|]. split_and!; [by destruct (A <? val ln)|by destruct (A <? val ln)|by rewrite <- Hv; destruct (A <? val ln)|done].
Qed.
End Once.

(** The result times [2^(64k)] is the number that was there, modulo the modulus. *)
Definition reduces (k v N z : Z) : Prop := 0 <= z < BASE ^ k /\ (z * BASE ^ k) mod N = v mod N /\ (v < N * BASE ^ k -> z < N).

Lemma reduction_spec m (r a n : wptr) la ln k n0 :
  at_ m a la -> at_ m n ln -> writable m r k -> digits la -> digits ln -> zlen la = 2 * k -> zlen ln = k -> apart a (2 * k) n k -> apart r k a (2 * k) -> apart r k n k -> (n0 * val ln + 1) mod BASE = 0 ->
  wp (carry ← for_ 0 (Z.to_nat k) (reduce_turn a n k n0) 0; reduce_once r (wadd a k) n k carry)
    (fun _ m' => exists z, computes m r a k (2 * k) z m' /\ reduces k (val la) (val ln) z) (fun _ => False) m.
Proof.
  intros Ha Hn Hr Hda Hdn Hza Hzn Han Hra Hrn Hn0. pose proof (zlen_nonneg ln). pose proof (val_range _ Hda) as VA. pose proof (val_range _ Hdn) as VN. rewrite Hza in VA. rewrite Hzn in VN.
  apply wp_bind, (wp_for (fun i c m' => reduced_to m a la ln k i c m')).
  - by apply reduced_start.
  - intros i c m' Hi HI. by apply (reduce_turn_spec m a n la ln k n0); [..|lia|].
  - intros c m1 HI. rewrite Z.add_0_l, Z2Nat.id in HI by lia. destruct HI as (Hb & K & hi & q & Hat & Hzh & Hdh & Hq & Hval). assert (Hzr : zlen (zrep k 0) = k) by (apply zlen_zrep; lia).
    assert (Hhi : at_ m1 (wadd a k) hi) by (pose proof (at_drop _ _ _ k Hat ltac:(rewrite zlen_app; pose proof (zlen_nonneg hi); lia)) as H'; by rewrite zdrop_app in H').
    assert (Hn1 : at_ m1 n ln) by (destruct K as (_ & K & _); apply K; [done|]; constructor; [cbn; by rewrite Hzn|constructor]).
    rewrite Z.pow_add_r in Hval by lia. replace (2 * k) with (k + k) in VA by lia. rewrite Z.pow_add_r in VA by lia. set (P := BASE ^ k) in *. assert (HP : 0 < P) by (apply Z.pow_pos_nonneg; lia).
    assert (HA : (val hi + c * P) * P = val la + q * val ln) by lia.
    wp_call (reduce_once_spec m1 r (wadd a k) n hi ln k c); [done|done|by eapply keeps_writable|done|done|lia|done| |done|done| | |done].
    + clear - Hra H Hzn. regions.
    + fold P. nia.
    + intros [] m' (w & Hw & Zw & Dw & Vw & K'). fold P in Vw. pose proof (val_range _ Dw) as W. rewrite Zw in W. fold P in W. exists (val w). split.
      * exists w. split_and!; try done. eapply keeps_trans; [eapply keeps_mono; [|exact K]|eapply keeps_mono; [|exact K']].
        -- constructor; [right; left; cbn; unfold inside; cbn; lia|constructor].
        -- constructor; [left; cbn; unfold inside; cbn; lia|]. constructor; [right; left; cbn; unfold inside; cbn; lia|constructor].
      * split; [done|]. fold P. split.
        -- assert (E : val ln <> 0) by (intros E; by rewrite E, Z.mul_0_r in Hn0). rewrite Vw. destruct (Z.ltb_spec (val hi + c * P) (val ln)); [rewrite HA, Z.mod_add by done; done|]. replace ((val hi + c * P - val ln) * P) with (val la + (q - P) * val ln) by lia. by rewrite Z.mod_add by done.
        -- intros Hlt. rewrite Vw. destruct (Z.ltb_spec (val hi + c * P) (val ln)); [done|]. nia.
Qed.
