(* ===== verification/BnMontNums.v ===== *)
(** Facts about the numbers of [BnMont]: what a Montgomery context holds, the reduction of a number, and
    products and the way out of the Montgomery form with a scratch context. *)
From S2P Require Import Prelude Mem Ct BnWords BnWordsFacts BnMulFacts CtFacts Bn BnShift BnFacts BnCmp BnAddFacts BnArith BnTests BnShiftFacts BnBitsFacts BnMul BnPartFacts BnKaratsuba BnCtx BnCtxFacts BnMulCtx BnSqrCtx BnFrames BnDiv BnFlags BnDivNums BnDivCtx BnModFacts BnQuickFacts BnMont BnMontWords.

(** * Contexts *)

(** The modulus [v], of [k] words, and the word that goes with it. *)
Definition modulus (s : bn_store) (mt : BN_MONT_CTX) (v k : Z) : Prop :=
  exists ln, shows s (N mt) false ln /\ zlen ln = k /\ val ln = v /\ ((n0 mt).1 * v + 1) mod BASE = 0.
(** And the square of [2^(64k)]. *)
Definition mont_is (s : bn_store) (mt : BN_MONT_CTX) (v k : Z) : Prop :=
  modulus s mt v k /\ RR mt <> N mt /\ exists lr, shows s (RR mt) false lr /\ val lr = BASE ^ (2 * k) mod v.

Lemma modulus_odd s mt v k : modulus s mt v k -> Z.odd v = true /\ 0 < v < BASE ^ k /\ 0 < k.
Proof.
  intros (ln & Hs & <- & <- & Hn). destruct (shows_digits _ _ _ _ Hs) as [Hd _]. pose proof (val_range _ Hd) as Hv. set (v := val ln) in *.
  assert (Ho : Z.odd v = true).
  { destruct (Z.odd v) eqn:E; [done|exfalso]. apply (f_equal (fun z => z mod 2)) in Hn. change BASE with (2 * 2 ^ 63) in Hn. rewrite Z.rem_mul_r in Hn by lia.
    rewrite (Z.mul_comm 2), Z.mod_add, Z.mod_mod, Zmod_odd, Z.odd_add, Z.odd_mul, E, andb_false_r in Hn by lia. done. }
  assert (v <> 0) by (intros E; by rewrite E in Ho). pose proof (zlen_nonneg ln). split; [done|]. split; [lia|]. destruct (Z.eq_dec (zlen ln) 0) as [E|]; [|lia]. rewrite E in Hv. cbn in Hv. lia.
Qed.
Lemma modulus_same s s' mt v k : nums s' !! N mt = nums s !! N mt -> arrays s' !! N mt = arrays s !! N mt -> modulus s mt v k -> modulus s' mt v k.
Proof. intros E1 E2 (ln & Hs & H). exists ln. split; [by eapply same_number|done]. Qed.
Lemma modulus_words s mt v k : modulus s mt v k -> words_of s (N mt) = k.
Proof. intros (ln & Hs & <- & _). by rewrite (shows_words _ _ _ _ Hs). Qed.

(** [2^(64k)] cancels modulo an odd number. *)
Lemma cancel_two v a : Z.odd v = true -> (2 * a) mod v = 0 -> a mod v = 0.
Proof.
  intros Ho H. assert (Hv : v <> 0) by (intros E; by rewrite E in Ho). apply Z.mod_divide in H as [q E]; [|done]. apply Z.mod_divide; [done|]. exists (q / 2).
  assert (Hq : Z.odd q = false) by (apply (f_equal Z.odd) in E; rewrite !Z.odd_mul, Ho, andb_true_r in E; by rewrite <- E). pose proof (Z.div_mod q 2 ltac:(lia)) as Dq. rewrite Zmod_odd, Hq in Dq. nia.
Qed.
Lemma cancel_pow2 v n a : Z.odd v = true -> 0 <= n -> (2 ^ n * a) mod v = 0 -> a mod v = 0.
Proof.
  intros Ho Hn. revert a. pattern n. apply natlike_ind; [|clear n Hn; intros n Hn IH|done]; intros a H; [by rewrite Z.mul_1_l in H|]. apply IH, cancel_two; [done|]. by rewrite Z.mul_assoc, <- Z.pow_succ_r by done.
Qed.
Lemma cancel_R v k a b : Z.odd v = true -> 0 <= k -> (a * BASE ^ k) mod v = (b * BASE ^ k) mod v -> a mod v = b mod v.
Proof.
  intros Ho Hk H. assert (Hv : v <> 0) by (intros E; by rewrite E in Ho). assert (H0 : (BASE ^ k * (a - b)) mod v = 0) by (rewrite Z.mul_sub_distr_l, Zminus_mod, !(Z.mul_comm (BASE ^ k)), H, Z.sub_diag; by apply Z.mod_0_l).
  change BASE with (2 ^ 64) in H0. rewrite <- Z.pow_mul_r in H0 by lia. apply cancel_pow2 in H0; [|done|lia]. apply Z.mod_divide in H0 as [q E]; [|done]. replace a with (b + q * v) by lia. by apply Z.mod_add.
Qed.
(** The result of a reduction, where the number is small enough. *)
Lemma reduces_exact v k t z : Z.odd v = true -> 0 < v -> 0 <= k -> reduces k t v z -> t < v * BASE ^ k -> forall x, (x * BASE ^ k) mod v = t mod v -> z = x mod v.
Proof.
  intros Ho Hv Hk (Hz & Hm & Hlt) Ht x Hx. rewrite <- (Z.mod_small z v) by (specialize (Hlt Ht); lia). apply (cancel_R v k); [done|done|congruence].
Qed.

Section Nums.
Context `{alloc : Allocator}.

(** * The reduction *)

Lemma in_place_spec s mt v k (r a : wptr) la :
  modulus s mt v k -> at_ (arrays s) a la -> digits la -> zlen la = 2 * k -> writable (arrays s) r k -> apart r k a (2 * k) -> r.1 <> N mt -> a.1 <> N mt ->
  wp (bn_from_montgomery_in_place r k a (2 * k) mt)
    (fun _ s' => exists m' z, s' = mkStore (nums s) m' (bn_heap s) /\ computes (arrays s) r a k (2 * k) z m' /\ reduces k (val la) v z) (fun _ => False) s.
Proof.
  intros (ln & Hs & Hzn & Hv & Hn0) Ha Hda Hza Hr Hra Hrn Han. destruct (shows_get _ _ _ _ Hs) as (n & Hn & _ & Hw). destruct (shows_digits _ _ _ _ Hs) as [Hdn _].
  unfold bn_from_montgomery_in_place. apply wp_bind. eapply wp_bn_get; [exact Hn|]. rewrite Hw, Hzn, !Z.eqb_refl. cbn [negb orb]. apply wp_on_words.
  wp_call (reduction_spec (arrays s) r a (bn_d (N mt)) la ln k (n0 mt).1); [done|by apply shows_at in Hs|done|done|done|done|done|by left|done|by left|by rewrite Hv| |done].
  intros [] m' (z & Hc & Hred). rewrite Hv in Hred. by exists m', z.
Qed.

(** Words computed into a number of their width. *)
Lemma computes_shows s rr n d t k kt z m' h :
  bn_is s rr n d -> width n = k -> computes (arrays s) (bn_d rr) t k kt z m' -> exists l, shows (mkStore (nums s) m' h) rr (neg n) l /\ zlen l = k /\ val l = z.
Proof.
  intros Hbn Hk (ws & Hws & Hz & Hd & Hv & K). destruct (keeps_is _ _ _ h _ _ _ K Hbn) as (d' & Hbn'). exists ws. split; [|done]. exists n, d'. split_and!; [exact Hbn'|done|congruence|].
  destruct Hws as (arr & Harr & _ & _ & Htk). destruct Hbn' as (_ & Hd' & _). cbn in Harr, Hd', Htk. rewrite Hd' in Harr. injection Harr as <-. by rewrite zdrop_0 in Htk.
Qed.

(** A number with the words it needs, whatever it had. *)
Lemma bn_resize_words_any s x ng l k :
  shows s x ng l -> 0 <= k ->
  wp (bn_resize_words x k) (fun _ s' => others x s s' /\ exists l', shows s' x ng l' /\ zlen l' = k /\ val l' = val l) (fun s' => stunted x k s s' \/ s' = s /\ BASE ^ k <= val l) s.
Proof.
  intros Hs Hk. destruct (Z.le_gt_cases (zlen l) k) as [Hle|Hgt].
  - wp_call bn_resize_words_spec; [exact Hs|exact Hle| |by left]. intros [] s' [Ho Hs']. split; [done|]. eexists. split; [exact Hs'|]. rewrite zlen_app, zlen_zrep, val_app, val_zrep by lia. split; lia.
  - destruct (shows_get _ _ _ _ Hs) as (n & Hn & _ & Hw). destruct (shows_digits _ _ _ _ Hs) as [Hd _]. unfold bn_resize_words. apply wp_bind. eapply wp_bn_get; [exact Hn|]. rewrite Hw, (proj2 (Z.leb_gt _ _)) by lia.
    apply wp_bind. wp_call bn_fits_in_words_spec; [exact Hs|done| |done]. intros b s' [-> ->]. pose proof (val_split k l ltac:(lia)) as E. pose proof (val_range _ (digits_ztake k _ Hd)) as R1. pose proof (val_range _ (digits_zdrop k _ Hd)) as R2. rewrite zlen_ztake in R1 by lia.
    destruct (Z.eqb_spec (val (zdrop k l)) 0) as [E0|E0]; cbn [negb]; [|apply wp_fail; right; split; [done|nia]].
    eapply wp_mono; [eapply (stores_width s x ng (zlen l) (val l) k)| |done]; [|lia|nia|].
    + destruct Hs as (n' & d & Hbn & Hng & Hw' & Ht). exists n', d, l. pose proof Hbn as (_ & _ & (H1 & H2 & _)). split_and!; try done; lia.
    + intros [] s' (Ho & l' & Hl' & Hz & Hv). split; [done|]. by exists l'.
Qed.

Section Word.
Variables (s : bn_store) (ret r : bn) (mt : BN_MONT_CTX) (v k : Z) (ngr : bool) (lr : list Z).
Hypothesis Hm : modulus s mt v k.
Hypothesis Hs : shows s r ngr lr.
Hypothesis Hret : roomy s ret 0.
Hypothesis Hne : r <> ret.
Hypothesis Hrn : r <> N mt.
Hypothesis Hretn : ret <> N mt.

Lemma BN_from_montgomery_word_spec :
  wp (BN_from_montgomery_word ret r mt)
    (fun _ s' => ngr = false /\ others_in [ret; r] s s' /\ roomy s' r 0 /\ exists l, shows s' ret false l /\ zlen l = k /\ reduces k (val lr) v (val l))
    (fun s' => s' = s /\ (ngr = true \/ BASE ^ (2 * k) <= val lr) \/ short_of (2 * k) [ret; r] s s') s.
Proof.
  destruct (modulus_odd _ _ _ _ Hm) as (_ & Hv & Hk). pose proof Hm as (ln & Hsn & Hzn & _). destruct (shows_get _ _ _ _ Hsn) as (n & Hn & _ & Hwn). destruct (shows_get _ _ _ _ Hs) as (x & Hx & Hng & _).
  unfold BN_from_montgomery_word. apply wp_bind. eapply wp_bn_get; [exact Hx|]. rewrite Hng. destruct ngr; [apply wp_fail; left; split; [done|by left]|].
  apply wp_bind. eapply wp_bn_get; [exact Hn|]. rewrite Hwn, Hzn, (proj2 (Z.eqb_neq _ _)) by lia. cbv zeta.
  apply wp_bind. wp_flags bn_resize_words_any; [exact Hs|lia| |].
  2: { intros s' [[Hst|[-> Hbig]] Hf]; [right|left; split; [done|by right]]. pose proof Hst as (Ho & Hr' & _). split_and!; [eapply others_in_one; [exact Ho|right; by left]| |by eapply stunted_room].
    constructor; [destruct Ho as (_ & _ & Ho); destruct (Ho ret ltac:(congruence)); by eapply roomy_in|by constructor]. }
  intros [] s1 [(Ho1 & l1 & Hs1 & Hz1 & Hv1) Hf1]. assert (Hret1 : roomy s1 ret 0) by (destruct Ho1 as (_ & _ & Ho1); destruct (Ho1 ret ltac:(congruence)); by eapply roomy_in).
  assert (Hin1 : others_in [ret; r] s s1) by (eapply others_in_one; [exact Ho1|right; by left]).
  apply wp_bind. wp_call bn_wexpand_spec; [exact Hret1|lia| |].
  2: { intros s' (E1 & E2 & Hc). right. split_and!.
    - eapply others_in_trans; [exact Hin1|]. eapply others_in_one; [by apply (others_same ret)|by left].
    - constructor; [by eapply roomy_same|]. constructor; [eapply roomy_same; [done|done|by eapply roomy_shows]|constructor].
    - eapply (no_room_kept _ s1); [by apply flags_same; rewrite E1|]. eapply cannot_grow_room; [exact Hc|lia]. }
  intros [] s2 (Ho2 & Hsh2 & n2 & d2 & Hbn2 & Hroom2). pose proof (Hsh2 _ _ _ Hs1) as Hs2. pose proof Hbn2 as (Hn2 & Hd2 & (W1 & W2 & W3 & W4)). destruct (bn_is_lt _ _ _ _ Hbn2) as [Hlt2 _].
  apply wp_bind. eapply wp_set_width; [exact Hn2|]. apply wp_bind. eapply wp_set_neg; [by apply list_lookup_insert_eq|]. cbn [nums arrays bn_heap width dmax neg flags]. rewrite list_insert_insert_eq.
  set (n3 := mkBN k (dmax n2) false (flags n2)). set (s3 := mkStore _ _ _). assert (Hbn3 : bn_is s3 ret n3 d2) by (split_and!; [by apply list_lookup_insert_eq|exact Hd2|unfold well_formed; cbn; split_and!; done || lia]).
  assert (Ho3 : others ret s2 s3) by (unfold others, s3; cbn; rewrite length_insert; split_and!; [done|done|]; intros y Hy; by rewrite list_lookup_insert_ne).
  assert (Hs3 : shows s3 r false l1) by by eapply shows_others. assert (Hm3 : modulus s3 mt v k).
  { destruct Ho1 as (_ & _ & G1), Ho2 as (_ & _ & G2), Ho3 as (_ & _ & G3). destruct (G1 (N mt) ltac:(congruence)), (G2 (N mt) ltac:(congruence)), (G3 (N mt) ltac:(congruence)). eapply modulus_same; [| |exact Hm]; congruence. }
  destruct (shows_get _ _ _ _ Hs3) as (x3 & Hx3 & _ & Hw3). destruct (shows_digits _ _ _ _ Hs3) as [Hd1 _].
  apply wp_bind. eapply wp_bn_get; [by destruct Hbn3|]. apply wp_bind. eapply wp_bn_get; [exact Hx3|]. rewrite Hw3, Hz1. cbn [width n3].
  wp_call (in_place_spec s3 mt v k (bn_d ret) (bn_d r) l1); [done|by eapply shows_at|done|done|apply roomy_writable; [by exists n3, d2|lia]|by left; cbn; congruence|done|done| |done].
  intros [] s4 (m' & z & -> & Hc & Hred). rewrite Hv1 in Hred. destruct (computes_shows _ _ _ _ _ _ _ _ _ (bn_heap s3) Hbn3 eq_refl Hc) as (l & Hl & Hzl & <-). pose proof Hc as (_ & _ & _ & _ & _ & K).
  split; [done|]. split; [|split; [|by exists l]].
  - eapply others_in_trans; [exact Hin1|]. eapply others_in_trans; [eapply others_in_one; [exact Ho2|by left]|]. eapply others_in_trans; [eapply others_in_one; [exact Ho3|by left]|].
    eapply keeps_others_in; [exact K|]. constructor; [by left|]. constructor; [right; by left|constructor].
  - destruct Hs3 as (x' & d' & Hbn' & _). destruct (keeps_is _ _ _ (bn_heap s3) _ _ _ K Hbn') as (d'' & Hbn''). exists x', d''. split; [done|]. destruct Hbn'' as (_ & _ & (? & ? & _)). lia.
Qed.
End Word.
End Nums.

(** * With a scratch context *)


Section Flags.
Context `{alloc : Allocator}.
Lemma flags_from_montgomery_word ret r mt : always flags_kept (BN_from_montgomery_word ret r mt).
Proof. unfold BN_from_montgomery_word, bn_from_montgomery_in_place. always. Qed.
End Flags.
#[export] Hint Resolve flags_from_montgomery_word : always.

Section Mont.
Context `{alloc : Allocator}.

(** The number [r] has the words of a reduction of [t]. *)
Definition mont_result (v k t : Z) (r : bn) (st : bn_store) : Prop := exists l, shows st r false l /\ zlen l = k /\ reduces k t v (val l).
Lemma mont_result_same v k t r st st' : nums st' = nums st -> arrays st' = arrays st -> mont_result v k t r st -> mont_result v k t r st'.
Proof. intros E1 E2 (l & Hl & H). exists l. split; [by eapply same_shows|done]. Qed.
(** It is the number that times [2^(64k)] is [t]. *)
Lemma mont_result_exact v k t r st x : Z.odd v = true -> 0 < v -> 0 <= k -> t < v * BASE ^ k -> (x * BASE ^ k) mod v = t mod v -> mont_result v k t r st -> holds st r (x mod v) /\ words_of st r = k.
Proof. intros Ho Hv Hk Ht Hx (l & Hl & Hz & Hred). rewrite <- (reduces_exact v k t (val l)) by done. split; [by apply holds_pos|]. by rewrite (shows_words _ _ _ _ Hl). Qed.

Section Ops.
Variables (s : ctx_store) (bl : list bn) (fr : list Z) (r : bn) (mt : BN_MONT_CTX) (v k : Z).
Hypothesis Hok : ctx_ok s bl fr.
Hypothesis Hsp : spacious s 3.
Hypothesis H30 : zlen fr < 2 ^ 30 - 1.
Hypothesis Herr : err_stack (ctx s) < 2 ^ 31 - 2.
Hypothesis Hlr : live s bl r.
Hypothesis Hlm : live s bl (N mt).
Hypothesis Hne : r <> N mt.
Hypothesis Hm : modulus (store s) mt v k.
Hypothesis Hr : roomy (store s) r 0.

Definition mont_done (t : Z) (s' : ctx_store) : Prop := exists bl', restored s bl fr [r] s' bl' /\ mont_result v k t r (store s').
(** The number is not less than the square of [2^(64k)], or there is a reason as for other operations. *)
Definition mont_failed (t w : Z) (s' : ctx_store) : Prop := exists bl', restored s bl fr [r] s' bl' /\ (BASE ^ (2 * k) <= t \/ refused s fr w).

(** ** The body of a frame *)

Section Frame.
Variables (s1 : ctx_store) (fr1 : list Z).
Hypothesis Hop : opened s fr s1 fr1.
Hypothesis Hok1 : ctx_ok s1 bl fr1.

Definition body_done (t : Z) (s2 : ctx_store) : Prop := exists bl2, steady s1 bl fr1 [r] 1 s2 bl2 /\ mont_result v k t r (store s2).
Definition body_failed (t w : Z) (s2 : ctx_store) : Prop := exists bl2, steady s1 bl fr1 [r] 1 s2 bl2 /\ (BASE ^ (2 * k) <= t \/ refused s1 fr1 w).

Lemma opened_nestable : nestable s1 fr1.
Proof. destruct Hop as (_ & _ & _ & Hcase). unfold nestable. destruct Hcase as [(_ & -> & ->)|(_ & -> & ->)]; rewrite ?zlen_cons; lia. Qed.
Lemma self_allowed : Forall (fun x => x ∈ [r] \/ x ∈ unused s1 bl \/ (length (nums (store s1)) <= x)%nat) [r].
Proof. constructor; [left; by left|constructor]. Qed.

(** The reduction of the scratch number [t]. *)
Lemma scratch_word s3 bl3 t l w :
  steady s1 bl fr1 [r] 1 s3 bl3 -> ctx_flags_kept s1 s3 -> ~ live s1 bl t -> shows (store s3) t false l -> modulus (store s3) mt v k -> roomy (store s3) r 0 -> t <> r -> t <> N mt -> 2 * k <= 8 * w -> 0 <= w ->
  wp (on_store (BN_from_montgomery_word r t mt)) (fun _ => body_done (val l)) (body_failed (val l) w) s3.
Proof.
  intros Hst Hf Hnt Ht Hm3 Hr3 Ntr Ntm Hw Hw0.
  assert (Hall : Forall (fun x => x ∈ [r] \/ x ∈ unused s1 bl \/ (length (nums (store s1)) <= x)%nat) [r; t]) by (constructor; [left; by left|constructor; [right; by apply not_live|constructor]]).
  apply wp_on_store. wp_flags (BN_from_montgomery_word_spec (store s3) r t mt v k false l); [done|done|done|done|done|done| |].
  - intros [] st [(_ & Ho & Hrt & l' & Hl' & Hz & Hred) _]. exists bl3. split; [|by exists l']. eapply steady_store; [exact Hst|exact Ho| |exact Hall]. constructor; [by eapply roomy_shows|by constructor].
  - intros st [[[-> [?|Hbig]]|(Ho & Hroom & Hno)] Hf']; [done| |].
    + exists bl3. assert (mkCtxStore (ctx s3) (items s3) (store s3) = s3) as -> by by destruct s3. split; [done|by left].
    + exists bl3. split; [by eapply steady_store|]. right. apply (no_room_refused _ _ (2 * k)); [|lia]. eapply (no_room_back _ (store s1) st); [by etransitivity|done].
Qed.

(** A number of the context; [rest] goes on with it. *)
Lemma scratch_body (rest : bn -> M ctx_store unit) Q E :
  (forall s2, (exists bl2, steady s1 bl fr1 [r] 1 s2 bl2 /\ refused s1 fr1 0) -> E s2) ->
  (forall t s2 bl2, ctx_ok s2 bl2 fr1 -> (forall rs, steady s1 bl fr1 rs 1 s2 bl2) -> ctx_flags_kept s1 s2 -> ~ live s1 bl t -> live s2 bl2 t -> roomy (store s2) t 0 -> spacious s2 2 -> nestable s2 fr1 -> jammed s2 = jammed s1 ->
     (forall y, live s bl y -> live s2 bl2 y /\ t <> y /\ nums (store s2) !! y = nums (store s) !! y /\ arrays (store s2) !! y = arrays (store s) !! y) -> wp (rest t) Q E s2) ->
  wp (t ← BN_CTX_get; match t with None => fail | Some t => rest t end) Q E s1.
Proof.
  intros HE HQ. assert (Hsp1 : spacious s1 3) by (unfold spacious in *; by destruct Hop as (_ & -> & _)). unfold spacious in Hsp1. pose proof opened_nestable as Hn1.
  apply wp_bind. eapply wp_mono; [eapply (wp_with ctx_flags_kept); [apply flags_CTX_get|apply BN_CTX_get_spec; [exact Hok1|unfold spacious; lia]]| |by intros ? []]. cbv beta.
  intros [t|] s2 [Hgot Hf].
  2: { destruct (got_none bl fr1 s1 [r] s2 0 ltac:(lia) Hgot) as [Hst Hb]. apply wp_fail, HE. exists bl. split; [done|]. eapply blocked_refused; [exact Hb|lia]. }
  destruct (got_some _ _ _ _ _ Hok1 Hgot) as (bl1 & Hok2 & Hst & Hnt & Hlt & Hrt & _ & Hus & Hj & Hkeep).
  apply (HQ t s2 bl1); try done; [unfold spacious; lia|destruct (Hst []) as (_ & _ & He & _); unfold nestable; by rewrite He|].
  intros y Hy. destruct (Hkeep y) as (H1 & H2 & E1 & E2); [by eapply opened_live|]. destruct Hop as ([F1 F2] & _). split_and!; [done|congruence|congruence|congruence].
Qed.
End Frame.

(** A frame with such a body. *)
Lemma framed_mont (body : M ctx_store unit) t w :
  0 <= w ->
  (forall s1 fr1, opened s fr s1 fr1 -> ctx_ok s1 bl fr1 -> wp body (fun _ => body_done s1 fr1 t) (body_failed s1 fr1 t w) s1) ->
  wp (BN_CTX_start;; ret ← succeeds body; BN_CTX_end;; require ret) (fun _ => mont_done t) (mont_failed t (w + 1)) s.
Proof.
  intros Hw Hbody. wp_call (framed_why body (mont_result v k t r) (fun s1 fr1 => BASE ^ (2 * k) <= t \/ refused s1 fr1 w) s bl fr [r] 1); [exact Hok|unfold nestable; lia|intros; by eapply mont_result_same|exact Hbody|done|].
  intros s' (bl' & Hres & s1 & fr1 & Hop & Hb). exists bl'. split; [done|]. destruct Hb as [?|Hb]; [by left|right]. eapply opened_refused; [exact Hok|exact Hop|exact Hb|lia|lia].
Qed.

(** ** Out of the form *)

Lemma BN_from_montgomery_spec a la :
  live s bl a -> shows (store s) a false la -> wp (BN_from_montgomery r a mt) (fun _ => mont_done (val la)) (mont_failed (val la) (zlen la + 2 * k + 1)) s.
Proof.
  intros Hla Hsa. pose proof (zlen_nonneg la). destruct (modulus_odd _ _ _ _ Hm) as (_ & _ & Hk). apply framed_mont; [lia|]. intros s1 fr1 Hop Hok1. apply (scratch_body s1 fr1 Hop Hok1).
  { intros s2 (bl2 & Hst & Hrf). exists bl2. split; [done|]. right. eapply (refused_back s1 s1); [done|unfold ctx_flags_kept; reflexivity|exact Hrf|lia]. }
  intros t s2 bl2 Hok2 Hst Hf Hnt Hlt Hrt _ _ Hj Hkeep. destruct (Hkeep a Hla) as (_ & _ & Ea1 & Ea2), (Hkeep r Hlr) as (_ & Ntr & Er1 & Er2), (Hkeep (N mt) Hlm) as (_ & Ntm & Em1 & Em2).
  apply wp_bind, wp_on_store. wp_flags BN_copy_shows; [by eapply same_number|exact Hrt| |].
  2: { intros st [(F1 & F2 & Hc) Hf']. exists bl2. split; [eapply (steady_store _ _ _ _ _ s2 bl2 st []); [apply Hst| |constructor|constructor]; split_and!; [by rewrite F1|by rewrite F2|]; intros y _; by rewrite F1, F2|].
    right. apply (no_room_refused _ _ (zlen la)); [|lia]. eapply (no_room_back _ (store s1) (store s2)); [done|]. eapply cannot_grow_room; [exact Hc|lia]. }
  intros [] st [[Ho Hst'] Hf']. destruct Ho as (G1 & G2 & G3). destruct (G3 r ltac:(congruence)) as [Gr1 Gr2], (G3 (N mt) ltac:(congruence)) as [Gm1 Gm2].
  apply (scratch_word s1 fr1 (mkCtxStore (ctx s2) (items s2) st) bl2 t la).
  - eapply (steady_store _ _ _ _ _ s2 bl2 st [t]); [apply Hst|eapply others_in_one; [by split_and!|by left]|constructor; [by eapply roomy_shows|constructor]|]. constructor; [right; by apply not_live|constructor].
  - unfold ctx_flags_kept in *. cbn [store]. by etransitivity.
  - done.
  - done.
  - eapply modulus_same; [| |exact Hm]; cbn [store]; congruence.
  - eapply roomy_in; [| |exact Hr]; cbn [store]; congruence.
  - done.
  - done.
  - lia.
  - lia.
Qed.

(** ** Products *)

Lemma any_fixed s1 bl1 fr1 a b t la lb :
  ctx_ok s1 bl1 fr1 -> spacious s1 2 -> nestable s1 fr1 -> live s1 bl1 t -> live s1 bl1 a -> live s1 bl1 b -> t <> a -> t <> b -> shows (store s1) a false la -> shows (store s1) b false lb -> roomy (store s1) t 0 ->
  wp (if Nat.eqb a b then bn_sqr_fixed t a else bn_mul_fixed t a b)
    (fun _ s2 => exists bl2, restored s1 bl1 fr1 [t] s2 bl2 /\ exists l, shows (store s2) t false l /\ val l = val la * val lb)
    (fun s2 => exists bl2, restored s1 bl1 fr1 [t] s2 bl2 /\ refused s1 fr1 (zlen la + zlen lb)) s1.
Proof.
  intros Hok1 Hsp1 Hn1 Ht Ha Hb Nta Ntb Hsa Hsb Hrt. destruct (Nat.eqb_spec a b) as [E|Hab].
  - rewrite <- E in Hsb. destruct (shows_inj _ _ _ _ _ _ Hsa Hsb) as [_ <-]. wp_call (bn_sqr_fixed_spec s1 bl1 fr1 t a false la); try done.
    + intros [] s2 (bl2 & Hres & l & Hl & _ & Hv). exists bl2. split; [done|]. by exists l.
    + replace (zlen la + zlen la) with (2 * zlen la) by lia. done.
  - wp_call (bn_mul_fixed_spec s1 bl1 fr1 t a b false false la lb); try done; [intros [?|?]; congruence| |].
    + intros [] s2 (_ & _ & bl2 & Hres & l & Hl & _ & Hv). exists bl2. split; [done|]. exists l. split; [|done]. by rewrite andb_false_r in Hl.
    + intros s2 [[? _]|?]; done.
Qed.

Lemma fallback_spec a b la lb :
  live s bl a -> live s bl b -> shows (store s) a false la -> shows (store s) b false lb ->
  wp (bn_mod_mul_montgomery_fallback r a b mt) (fun _ => mont_done (val la * val lb)) (mont_failed (val la * val lb) (zlen la + zlen lb + 2 * k + 1)) s.
Proof.
  intros Hla Hlb Hsa Hsb. pose proof (zlen_nonneg la). pose proof (zlen_nonneg lb). destruct (modulus_odd _ _ _ _ Hm) as (_ & _ & Hk). apply framed_mont; [lia|]. intros s1 fr1 Hop Hok1. apply (scratch_body s1 fr1 Hop Hok1).
  { intros s2 (bl2 & Hst & Hrf). exists bl2. split; [done|]. right. eapply (refused_back s1 s1); [done|unfold ctx_flags_kept; reflexivity|exact Hrf|lia]. }
  intros t s2 bl2 Hok2 Hst Hf Hnt Hlt Hrt Hsp2 Hn2 Hj Hkeep.
  destruct (Hkeep a Hla) as (Hla2 & Nta & Ea1 & Ea2), (Hkeep b Hlb) as (Hlb2 & Ntb & Eb1 & Eb2), (Hkeep r Hlr) as (Hlr2 & Ntr & Er1 & Er2), (Hkeep (N mt) Hlm) as (Hlm2 & Ntm & Em1 & Em2).
  assert (Hall : Forall (fun x => x ∈ [r] \/ x ∈ unused s1 bl \/ (length (nums (store s1)) <= x)%nat) [t]) by (constructor; [right; by apply not_live|constructor]).
  apply wp_bind. eapply wp_mono; [eapply (wp_with ctx_flags_kept); [destruct (Nat.eqb a b); [apply flags_sqr_fixed|apply flags_mul_fixed]|]| |]; cbv beta.
  { apply (any_fixed s2 bl2 fr1 a b t la lb); try done; by eapply same_number. }
  2: { intros s3 [(bl3 & Hres & Hrf) _]. exists bl3. split; [exact (steady_trans _ _ _ _ _ 1 0 _ _ _ _ Hok1 Hall (Hst [r]) (restored_steady _ _ _ _ _ _ Hres))|]. right. eapply refused_back; [exact Hj|exact Hf|exact Hrf|lia]. }
  intros [] s3 [(bl3 & Hres & l & Hl & Hv) Hf3]. assert (Hnin : forall x, t <> x -> x ∉ [t]) by (intros x Hx; rewrite list_elem_of_singleton; congruence).
  destruct (restored_same s2 bl2 fr1 [t] s3 bl3 Hres r Hlr2 (Hnin _ Ntr)) as [Gr1 Gr2], (restored_same s2 bl2 fr1 [t] s3 bl3 Hres (N mt) Hlm2 (Hnin _ Ntm)) as [Gm1 Gm2].
  rewrite <- Hv. apply (scratch_word s1 fr1 s3 bl3 t l).
  - exact (steady_trans _ _ _ _ _ 1 0 _ _ _ _ Hok1 Hall (Hst [r]) (restored_steady _ _ _ _ _ _ Hres)).
  - by etransitivity.
  - done.
  - done.
  - eapply modulus_same; [| |exact Hm]; congruence.
  - eapply roomy_in; [| |exact Hr]; congruence.
  - done.
  - done.
  - lia.
  - lia.
Qed.

Lemma BN_mod_mul_montgomery_spec a b na nb la lb :
  live s bl a -> live s bl b -> shows (store s) a na la -> shows (store s) b nb lb ->
  wp (BN_mod_mul_montgomery r a b mt) (fun _ s' => na || nb = false /\ mont_done (val la * val lb) s')
    (fun s' => na || nb = true /\ s' = s \/ na || nb = false /\ mont_failed (val la * val lb) (zlen la + zlen lb + 2 * k + 1) s') s.
Proof.
  intros Hla Hlb Hsa Hsb. destruct (shows_get _ _ _ _ Hsa) as (x & Hx & Hnx & _), (shows_get _ _ _ _ Hsb) as (y & Hy & Hny & _). unfold BN_mod_mul_montgomery.
  apply wp_bind. eapply wp_get_number; [exact Hx|]. apply wp_bind. eapply wp_get_number; [exact Hy|]. rewrite Hnx, Hny. destruct (na || nb) eqn:E; [apply wp_fail; by left|]. apply orb_false_iff in E as [-> ->].
  wp_call (fallback_spec a b la lb); [done|done|done|done| |].
  - by intros [] s' H.
  - intros s' H. by right.
Qed.
End Ops.
End Mont.
