(* ===== verification/BnMontForm.v ===== *)
(** Facts about the ways into and out of the Montgomery form of [BnMont], and about its operations on arrays of a few
    words, which compute in an array on the stack. *)
From S2P Require Import Prelude Mem Ct BnWords BnWordsFacts BnMulFacts CtFacts Bn BnShift BnFacts BnCmp BnAddFacts BnArith BnTests BnShiftFacts BnBitsFacts BnMul BnPartFacts BnKaratsuba BnCtx BnCtxFacts BnMulCtx BnSqrCtx BnFrames BnDiv BnFlags BnDivNums BnDivCtx BnModFacts BnQuickFacts BnMont BnMontWords BnMontNums.

(** * [2^(64k)] less the modulus *)

Lemma complement_words_spec m (r n : wptr) ln k :
  at_ m n ln -> digits ln -> zlen ln = k -> val ln mod BASE <> 0 -> writable m r k -> apart r k n k ->
  wp (complement_words r n k) (fun _ m' => exists ws, m' = wput m r ws /\ zlen ws = k /\ digits ws /\ val ws + val ln = BASE ^ k) (fun _ => False) m.
Proof.
  intros Hn Hd Hz H0 Hr Hap. destruct ln as [|w0 ln0] eqn:El; [done|]. rewrite <- El in *. pose proof (zlen_nonneg ln0). assert (Hk : 0 < k) by (rewrite <- Hz, El, zlen_cons; lia).
  assert (Hw0 : word w0 /\ w0 <> 0).
  { rewrite El in Hd. apply Forall_cons in Hd as [Hw _]. split; [done|]. rewrite El, val_cons, (Z.mul_comm BASE), Z.mod_add in H0 by lia. unfold word in Hw. by rewrite Z.mod_small in H0. }
  assert (Hfit : forall j, 0 <= j <= k -> writable m r j) by (intros; rewrite <- (wadd_0 r); apply (writable_sub _ _ k); [done|lia..]).
  assert (Hread : forall ws i x, zlen ws <= k -> zget ln i = Some x -> wp (rd n i) (fun y m' => y = x /\ m' = wput m r ws) (fun _ => False) (wput m r ws)).
  { intros ws i x Hws Hx. eapply rd_spec; [|exact Hx]. pose proof (zlen_nonneg ws). apply wput_apart; [apply Hfit; lia|exact Hn|]. rewrite Hz. clear - Hap Hws H1. regions. }
  unfold complement_words. apply wp_bind. rewrite <- (wput_nil m r) at 1 by (apply Hfit; lia). wp_call (Hread [] 0 w0); [change (zlen []) with 0; lia|by rewrite El| |done]. intros ? ? [-> ->].
  rewrite wput_nil by (apply Hfit; lia). apply wp_bind. wp_call wr_spec; [rewrite wadd_0; apply Hfit; lia| |done]. intros [] m1 ->. rewrite wadd_0.
  apply (wp_for (fun i _ m' => exists ws, m' = wput m r ws /\ zlen ws = i /\ digits ws /\ val ws + val (ztake i ln) = BASE ^ i)).
  - exists [u64 (0 - w0)]. assert (E1 : ztake 1 ln = [w0]) by by rewrite El. rewrite E1. split_and!; [done|done|constructor; [apply u64_word|constructor]|]. cbn [val]. destruct Hw0 as [Hw Hne]. unfold word in Hw.
    replace (u64 (0 - w0)) with (BASE - w0) by (rewrite u64_mod; apply (Z.mod_unique_pos _ _ (-1)); lia). lia.
  - intros i [] m' Hi (ws & -> & Hzw & Hdw & Hv). destruct (zget_lt ln i) as [x Hx]; [lia|]. pose proof (digits_zget _ _ _ Hd Hx) as Hwx. apply wp_bind. wp_call Hread; [lia|exact Hx| |done]. intros ? ? [-> ->].
    rewrite u64_lnot by done. wp_call wr_spec; [apply wput_writable; [apply Hfit; lia|eapply (writable_sub _ _ k); [done|lia..]]| |done]. intros [] m' ->. exists (ws ++ [BASE - 1 - x]).
    rewrite <- Hzw at 1. rewrite wput_app by (apply Hfit; change (zlen [BASE - 1 - x]) with 1; lia). rewrite zlen_snoc, (ztake_next _ _ _ Hx), !val_snoc, zlen_ztake, B_pow, Hzw by lia. unfold word in Hwx. split_and!; [done|done|apply digits_snoc; [done|unfold word; lia]|nia].
  - intros [] m' (ws & -> & Hzw & Hdw & Hv). replace (1 + Z.of_nat (Z.to_nat (k - 1))) with k in * by lia. rewrite <- Hz, ztake_all, Hz in Hv. by exists ws.
Qed.

Section Form.
Context `{alloc : Allocator}.

Lemma has_high_bit_spec s x ng l : shows s x ng l -> wp (has_high_bit x) (fun b s' => s' = s /\ (b = true <-> BASE ^ zlen l <= 2 * val l)) (fun _ => False) s.
Proof.
  intros Hs. destruct (shows_get _ _ _ _ Hs) as (n & Hn & _ & Hw). destruct (shows_digits _ _ _ _ Hs) as [Hd _]. unfold has_high_bit. apply wp_bind. eapply wp_bn_get; [exact Hn|]. rewrite Hw.
  destruct (Z.ltb_spec 0 (zlen l)) as [Hpos|Hle].
  2: { apply wp_ret. split; [done|]. pose proof (zlen_nonneg l). assert (l = []) as -> by (apply zlen_0; lia). by split. }
  destruct (zget_lt l (zlen l - 1)) as [w Hx]; [lia|]. apply wp_bind. eapply wp_rd_word; [by eapply shows_at|exact Hx|]. apply wp_ret. split; [done|].
  pose proof (digits_zget _ _ _ Hd Hx) as Hww. unfold word in Hww. change (BN_BITS2 - 1) with 63. rewrite Z.shiftr_div_pow2 by lia. pose proof (ztake_next _ _ _ Hx) as E. replace (zlen l - 1 + 1) with (zlen l) in E by lia. rewrite ztake_all in E.
  pose proof (val_range _ (digits_ztake (zlen l - 1) _ Hd)) as V. rewrite zlen_ztake in V by lia. apply (f_equal val) in E. rewrite val_snoc, zlen_ztake in E by lia.
  assert (BASE ^ zlen l = 2 * 2 ^ 63 * BASE ^ (zlen l - 1)) as Ep by (replace (zlen l) with (zlen l - 1 + 1) at 1 by lia; rewrite B_pow by lia; change (2 * 2 ^ 63) with BASE; lia).
  assert (0 < BASE ^ (zlen l - 1)) by (apply Z.pow_pos_nonneg; lia). rewrite Ep. destruct (Z.eqb_spec (w / 2 ^ 63) 0) as [Hb|Hb]; cbn [negb].
  - split; [done|]. assert (w < 2 ^ 63) by (apply Z.div_small_iff in Hb; lia). nia.
  - split; [|done]. intros _. assert (2 ^ 63 <= w) by (destruct (Z.lt_ge_cases w (2 ^ 63)); [exfalso; apply Hb, Z.div_small; lia|done]). nia.
Qed.

(** For a modulus with its highest bit set it is [2^(64k)] reduced. *)
Lemma complement_modulus_spec s mt v k (r : wptr) :
  modulus s mt v k -> BASE ^ k <= 2 * v -> writable (arrays s) r k -> apart r k (bn_d (N mt)) k ->
  wp (complement_words r (bn_d (N mt)) k) (fun _ m' => exists ws, m' = wput (arrays s) r ws /\ zlen ws = k /\ digits ws /\ val ws = BASE ^ k mod v) (fun _ => False) (arrays s).
Proof.
  intros Hmod Hhigh Hr Hap. destruct (modulus_odd _ _ _ _ Hmod) as (Ho & Hv & Hk). destruct Hmod as (ln & Hsn & Hzn & Hvn & _). destruct (shows_digits _ _ _ _ Hsn) as [Hdn _].
  wp_call complement_words_spec; [by eapply shows_at|exact Hdn|exact Hzn| |exact Hr|exact Hap| |done].
  - rewrite Hvn. intros E. apply (f_equal (fun z => z mod 2)) in E. change BASE with (2 * 2 ^ 63) in E. rewrite Z.rem_mul_r, (Z.mul_comm 2), Z.mod_add, Z.mod_mod, Zmod_odd, Ho in E by lia. done.
  - intros [] m' (ws & -> & Hzw & Hdw & Hvw). exists ws. split_and!; try done. rewrite Hvn in Hvw. apply (Z.mod_unique_pos _ _ 1); [|lia]. split; [lia|].
    (* the modulus is odd and not half of R *)
    destruct (Z.eq_dec (2 * v) (BASE ^ k)) as [E|]; [exfalso|lia]. replace k with (k - 1 + 1) in E by lia. rewrite B_pow in E by lia. assert (E' : v = 2 * (2 ^ 62 * BASE ^ (k - 1))) by lia. by rewrite E', Z.odd_mul in Ho.
Qed.

Section Ops.
Variables (s : ctx_store) (bl : list bn) (fr : list Z) (r : bn) (mt : BN_MONT_CTX) (v k : Z).
Hypothesis Hok : ctx_ok s bl fr.
Hypothesis Hsp : spacious s 3.
Hypothesis H30 : zlen fr < 2 ^ 30 - 1.
Hypothesis Herr : err_stack (ctx s) < 2 ^ 31 - 2.
Hypothesis Hlr : live s bl r.
Hypothesis Hlm : live s bl (N mt).
Hypothesis HlR : live s bl (RR mt).
Hypothesis Hne : r <> N mt.
Hypothesis Hm : mont_is (store s) mt v k.
Hypothesis Hr : roomy (store s) r 0.
Local Abbreviation R := (BASE ^ k).

(** [r] holds [z], in as many words as the modulus has. *)
Definition form_done (z : Z) (s' : ctx_store) : Prop := exists bl', restored s bl fr [r] s' bl' /\ holds (store s') r z /\ words_of (store s') r = k.
Definition form_failed (w : Z) (s' : ctx_store) : Prop := exists bl', restored s bl fr [r] s' bl' /\ refused s fr w.

(** The reduction of a number that is small enough. *)
Lemma mont_done_exact t x s' : t < v * R -> (x * R) mod v = t mod v -> mont_done s bl fr r v k t s' -> form_done (x mod v) s'.
Proof.
  intros Ht Hx (bl' & Hres & Hres'). destruct Hm as [Hmod _]. destruct (modulus_odd _ _ _ _ Hmod) as (Ho & Hv & Hk). exists bl'. split; [done|]. apply (mont_result_exact v k t); try done; lia.
Qed.
Lemma square_R : BASE ^ (2 * k) = R * R.
Proof. destruct Hm as [Hmod _]. destruct (modulus_odd _ _ _ _ Hmod) as (_ & _ & Hk). replace (2 * k) with (k + k) by lia. apply Z.pow_add_r; lia. Qed.
Lemma mont_failed_exact t w s' : t < v * R -> mont_failed s bl fr r k t w s' -> form_failed w s'.
Proof.
  intros Ht (bl' & Hres & Hb). exists bl'. split; [done|]. destruct Hb as [Hbig|?]; [exfalso|done]. rewrite square_R in Hbig. destruct Hm as [Hmod _]. destruct (modulus_odd _ _ _ _ Hmod) as (_ & Hv & _). nia.
Qed.

Lemma mul_montgomery_exact a b u w : live s bl a -> live s bl b -> holds (store s) a u -> holds (store s) b w -> 0 <= u -> 0 <= w -> u * w < v * R ->
  forall x, (x * R) mod v = (u * w) mod v ->
  wp (BN_mod_mul_montgomery r a b mt) (fun _ => form_done (x mod v)) (form_failed (words_of (store s) a + words_of (store s) b + 2 * k + 1)) s.
Proof.
  intros Hla Hlb Hu Hw Bu Bw Hlt x Hx. destruct (holds_nonneg _ _ _ Hu Bu) as (la & Hsa & <-), (holds_nonneg _ _ _ Hw Bw) as (lb & Hsb & <-). rewrite (shows_words _ _ _ _ Hsa), (shows_words _ _ _ _ Hsb).
  eapply wp_mono; [apply (BN_mod_mul_montgomery_spec s bl fr r mt v k) with (na := false) (nb := false) (la := la) (lb := lb); try done; by destruct Hm| |]; cbv beta; cbn [orb].
  - intros [] s' [_ Hdone]. by eapply mont_done_exact.
  - intros s' [[? _]|[_ Hfail]]; [done|]. by eapply mont_failed_exact.
Qed.
Lemma to_montgomery_exact a u : live s bl a -> holds (store s) a u -> 0 <= u < R ->
  wp (BN_to_montgomery r a mt) (fun _ => form_done ((u * R) mod v)) (form_failed (words_of (store s) a + words_of (store s) (RR mt) + 2 * k + 1)) s.
Proof.
  intros Hla Hu Bu. pose proof Hm as (Hmod & _ & lr & Hsr & Hv). destruct (modulus_odd _ _ _ _ Hmod) as (_ & Hv0 & Hk). pose proof (Z.mod_pos_bound (BASE ^ (2 * k)) v ltac:(lia)) as Hb.
  apply (mul_montgomery_exact a (RR mt) u (val lr)); [done|done|done|by apply holds_pos|lia|lia|rewrite Hv; nia|]. rewrite Hv, Zmult_mod_idemp_r, square_R. f_equal. lia.
Qed.
Lemma from_montgomery_exact a u : live s bl a -> holds (store s) a u -> 0 <= u < v * R -> forall x, (x * R) mod v = u mod v ->
  wp (BN_from_montgomery r a mt) (fun _ => form_done (x mod v)) (form_failed (words_of (store s) a + 2 * k + 1)) s.
Proof.
  intros Hla Hu Bu x Hx. destruct (holds_nonneg _ _ _ Hu ltac:(lia)) as (la & Hsa & <-). rewrite (shows_words _ _ _ _ Hsa). eapply wp_mono; [apply (BN_from_montgomery_spec s bl fr r mt v k) with (la := la); try done; by destruct Hm| |]; cbv beta.
  - intros [] s' Hdone. eapply mont_done_exact; [|exact Hx|exact Hdone]. lia.
  - intros s' Hfail. eapply mont_failed_exact; [|exact Hfail]. lia.
Qed.

Lemma one_montgomery_exact : wp (bn_one_to_montgomery r mt) (fun _ => form_done (R mod v)) (form_failed (words_of (store s) (RR mt) + 2 * k + 1)) s.
Proof.
  pose proof Hm as (Hmod & _ & lr & Hsr & Hvr). destruct (modulus_odd _ _ _ _ Hmod) as (Ho & Hv & Hk). pose proof Hmod as (ln & Hsn & Hzn & Hvn & Hn0).
  assert (Eta : mkCtxStore (ctx s) (items s) (store s) = s) by by destruct s. unfold bn_one_to_montgomery. apply wp_bind, wp_on_store. wp_call has_high_bit_spec; [exact Hsn| |done]. intros b st [-> [Hhigh _]]; rewrite Eta. destruct b.
  - specialize (Hhigh eq_refl). rewrite Hzn, Hvn in Hhigh. destruct (shows_get _ _ _ _ Hsn) as (n & Hn & _ & Hw). pose proof (shows_words _ _ _ _ Hsr). pose proof (zlen_nonneg lr).
    apply wp_on_store, wp_bind. eapply wp_bn_get; [exact Hn|]. rewrite Hw, Hzn. apply wp_bind. wp_flags bn_wexpand_spec; [exact Hr|lia| |].
    2: { intros st [(F1 & F2 & Hc) Hf]. exists bl. split; [apply restored_store; [done|by apply others_same|by eapply roomy_same]|]. apply (no_room_refused _ _ k); [|lia]. eapply cannot_grow_room; [exact Hc|lia]. }
    intros [] s1 [(Ho1 & Hsh1 & Hr1) _]. pose proof (Hsh1 _ _ _ Hsn) as Hsn1. destruct (roomy_inv _ _ (roomy_weaken _ _ k 0 ltac:(lia) Hr1)) as (ngr & l0 & Hs1).
    assert (Hmod1 : modulus s1 mt v k) by by exists ln.
    apply wp_bind, wp_on_words. wp_call (complement_modulus_spec s1 mt v k (bn_d r)); [exact Hmod1|done|apply roomy_writable; [exact Hr1|lia]|by left| |done].
    intros [] m' (ws & -> & Hzw & Hdw & Hvw). apply wp_bind. rewrite <- Hzw at 1. wp_call store_words; [exact Hs1|exact Hr1|exact Hdw|lia| |done]. intros [] s2 [Ho2 Hs2].
    wp_call bn_set_neg_spec; [exact Hs2| |done]. intros [] s3 [Hs3 Ho3]. exists bl. split; [apply restored_store; [done|eapply others_trans; [exact Ho1|by eapply others_trans]|by eapply roomy_shows]|]. cbn [store].
    rewrite (shows_words _ _ _ _ Hs3). split; [|done]. rewrite <- Hvw. by apply holds_pos.
  - pose proof (Z.mod_pos_bound (BASE ^ (2 * k)) v ltac:(lia)) as Hb. assert (0 < R) by (apply Z.pow_pos_nonneg; lia). apply (from_montgomery_exact (RR mt) (val lr)); [done|by apply holds_pos|rewrite Hvr; nia|]. by rewrite Hvr, Z.mod_mod, square_R by lia.
Qed.
End Ops.
End Form.

(** * On arrays of a few words *)


Section Small.
Context `{alloc : Allocator}.

(** * The array on the stack *)

(** A computation that does not fail, in a state with such an array; the array goes. *)
Lemma with_array_spec {A} (k : wptr -> M bn_store A) n s (Q : A -> bn_store -> Prop) E :
  0 <= n ->
  (forall g, zlen g = n -> digits g -> wp (k (length (arrays s), 0)) (fun x s' => Q x (mkStore (nums s') (take (length (arrays s)) (arrays s')) (bn_heap s'))) (fun _ => False) (mkStore (nums s) (arrays s ++ [g]) (bn_heap s))) ->
  wp (with_array n k) Q E s.
Proof.
  intros Hn Hk. destruct (stack_array (bn_heap s) n Hn) as [Hz Hd]. specialize (Hk _ Hz Hd). unfold with_array. apply wp_bind, wp_get, wp_bind, wp_modify, wp_bind.
  wp_call Hk; [|done]. intros x s' HQ. by apply wp_bind, wp_modify, wp_ret.
Qed.

(** Zeros behind the words. *)
Lemma extend_spec m (t : wptr) lp k n :
  at_ m t lp -> digits lp -> zlen lp <= 2 * k <= n -> writable m t n ->
  wp (wzero (wadd t (zlen lp)) (2 * k - zlen lp)) (fun _ m' => exists lt, at_ m' t lt /\ digits lt /\ zlen lt = 2 * k /\ val lt = val lp /\ keeps m m' [(t, n)]) (fun _ => False) m.
Proof.
  intros Hat Hd Hz Hw. pose proof (zlen_nonneg lp). assert (Hwz : writable m (wadd t (zlen lp)) (2 * k - zlen lp)) by (eapply writable_sub; [exact Hw|lia..]). wp_call wzero_spec; [lia|exact Hwz| |done].
  intros [] m' ->. set (zs := zrep (2 * k - zlen lp) 0). assert (Hzz : zlen zs = 2 * k - zlen lp) by (apply zlen_zrep; lia). rewrite <- Hzz in Hwz. exists (lp ++ zs).
  split; [|split; [apply Forall_app; split; [done|apply digits_zrep]|split; [rewrite zlen_app; lia|split]]].
  - apply at_app; [|by apply wput_at]. apply wput_apart; [done|done|]. rewrite Hzz. right. right. cbn. lia.
  - rewrite val_app. unfold zs. rewrite val_zrep. lia.
  - eapply keeps_one; [exact Hwz|apply digits_zrep|by left|]. rewrite Hzz. unfold inside. cbn. lia.
Qed.

(** The words [z] are written to [r]; nothing else changes. *)
Definition written (s : bn_store) (r : wptr) (k z : Z) (s' : bn_store) : Prop :=
  nums s' = nums s /\ keeps (arrays s) (arrays s') [(r, k)] /\ exists ws, at_ (arrays s') r ws /\ zlen ws = k /\ digits ws /\ val ws = z.

Section Array.
Variables (s : bn_store) (mt : BN_MONT_CTX) (v k : Z) (r : wptr) (g : list Z).
Hypothesis Hm : modulus s mt v k.
Hypothesis Hk : 2 * k <= 18.
Hypothesis Hr : writable (arrays s) r k.
Hypothesis Hrn : r.1 <> N mt.
Hypothesis Hg : zlen g = 18.
Local Abbreviation t := (length (arrays s), 0).
Local Abbreviation shorter s' := (mkStore (nums s') (take (length (arrays s)) (arrays s')) (bn_heap s')).

Lemma array_writable : writable (arrays s ++ [g]) t 18.
Proof. by apply writable_last. Qed.
(** What the array holds is reduced. *)
Lemma array_reduced s1 lt :
  nums s1 = nums s -> keeps (arrays s ++ [g]) (arrays s1) [(t, 18)] -> at_ (arrays s1) t lt -> digits lt -> zlen lt = 2 * k ->
  wp (bn_from_montgomery_in_place r k t (2 * k) mt) (fun _ s' => exists z, written s r k z (shorter s') /\ reduces k (val lt) v z) (fun _ => False) s1.
Proof.
  intros En K Hat Hd Hz. pose proof Hm as (ln & Hsn & _). destruct Hsn as (n & dn & (Hn & Hdn & _) & _). pose proof (lookup_lt_Some _ _ _ Hdn) as HltN. pose proof Hr as (br & Hbr & _). apply lookup_lt_Some in Hbr.
  assert (Hm1 : modulus s1 mt v k). { apply (modulus_same s); [by rewrite En| |done]. rewrite (keeps_other _ _ _ (N mt) K) by (constructor; [cbn; lia|constructor]). by apply lookup_app_l. }
  wp_call (in_place_spec s1 mt v k r t lt); [exact Hm1|done|done|done|eapply keeps_writable; [exact K|by apply writable_snoc]|left; cbn; lia|done|cbn; lia| |done].
  intros [] s' (m' & z & -> & (ws & Hws & Hzw & Hdw & Hvw & K') & Hred). exists z. split; [|done]. split_and!; [by cbn| |].
  - cbn [arrays]. apply (keeps_forget _ _ r k 18), (keeps_take _ g). eapply keeps_trans; [eapply keeps_mono; [|exact K]|eapply keeps_mono; [|exact K']].
    + constructor; [right; left; unfold inside; cbn; lia|constructor].
    + constructor; [left; unfold inside; cbn; lia|]. constructor; [right; left; unfold inside; cbn; lia|constructor].
  - exists ws. split_and!; try done. destruct Hws as (b & Hb & H). exists b. split; [|done]. apply lookup_take_Some. split; [done|lia].
Qed.
(** Words in the array that are fewer. *)
Lemma array_extended s1 lp :
  nums s1 = nums s -> keeps (arrays s ++ [g]) (arrays s1) [(t, 18)] -> at_ (arrays s1) t lp -> digits lp -> zlen lp <= 2 * k ->
  wp (on_words (wzero (wadd t (zlen lp)) (2 * k - zlen lp));; bn_from_montgomery_in_place r k t (2 * k) mt) (fun _ s' => exists z, written s r k z (shorter s') /\ reduces k (val lp) v z) (fun _ => False) s1.
Proof.
  intros En K Hat Hd Hz. apply wp_bind, wp_on_words. wp_call (extend_spec (arrays s1) t lp k 18); [done|done|lia|eapply keeps_writable; [exact K|apply array_writable]| |done].
  intros [] m' (lt & Hlt & Hdt & Hzt & <- & K'). apply array_reduced; [done| |done..]. eapply keeps_trans; [exact K|exact K'].
Qed.
End Array.

(** * The operations *)

Section Ops.
Variables (s : bn_store) (mt : BN_MONT_CTX) (v k : Z) (r : wptr) (num_r : Z).
Hypothesis Hm : modulus s mt v k.
Hypothesis Hr : writable (arrays s) r num_r.
Hypothesis Hrn : r.1 <> N mt.

Definition reduced_into (x : Z) (s' : bn_store) : Prop := exists z, written s r k z s' /\ reduces k x v z.
Lemma wp_modulus {A} (f : BIGNUM -> M bn_store A) Q E : (forall n, width n = k -> wp (f n) Q E s) -> wp (bn_get (N mt) ≫= f) Q E s.
Proof. intros H. pose proof Hm as (ln & Hsn & Hzn & _). destruct (shows_get _ _ _ _ Hsn) as (n & Hn & _ & Hw). apply wp_bind. eapply wp_bn_get; [exact Hn|]. apply H. congruence. Qed.

Lemma bn_from_montgomery_small_spec a la :
  at_ (arrays s) a la -> digits la ->
  wp (bn_from_montgomery_small r num_r a (zlen la) mt) (fun _ s' => num_r = k /\ zlen la <= 2 * k <= 18 /\ reduced_into (val la) s') (fun s' => s' = s /\ ~ (num_r = k /\ zlen la <= 2 * k <= 18)) s.
Proof.
  intros Ha Hda. unfold bn_from_montgomery_small. apply wp_modulus. intros nx ->. cbv zeta. change BN_SMALL_MAX_WORDS with 9. destruct ((2 * k <? zlen la) || negb (num_r =? k) || (9 <? k)) eqn:E; [apply wp_fail; split; [done|lia]|].
  assert (Hsz : num_r = k /\ zlen la <= 2 * k <= 18) by lia. destruct Hsz as [-> Hsz]. apply with_array_spec; [lia|]. intros g Hg Hdg. pose proof (zlen_nonneg la).
  set (t := (length (arrays s), 0)). apply wp_bind, wp_on_words. wp_call wread_spec; [by apply at_snoc| |done]. intros l m1 [-> ->].
  assert (Hw : writable (arrays s ++ [g]) t (zlen la)) by (rewrite <- (wadd_0 t); eapply writable_sub; [by apply array_writable|lia..]).
  apply wp_bind, wp_on_words. wp_call wwrite_spec; [exact Hw| |done]. intros [] m1 ->. cbn [nums arrays bn_heap].
  eapply wp_mono; [apply (array_extended s mt v k r g Hm)| |done]; cbn [nums arrays]; try done; [lia|by apply (keeps_one _ _ _ _ t 18); [..|by left|unfold inside; cbn; lia]|by apply wput_at|lia].
Qed.

Lemma bn_mod_mul_montgomery_small_spec a la b lb :
  at_ (arrays s) a la -> digits la -> at_ (arrays s) b lb -> digits lb -> 0 < zlen la ->
  wp (bn_mod_mul_montgomery_small r num_r a (zlen la) b (zlen lb) mt)
    (fun _ s' => num_r = k /\ zlen la + zlen lb <= 2 * k <= 18 /\ reduced_into (val la * val lb) s') (fun s' => s' = s /\ ~ (num_r = k /\ zlen la + zlen lb <= 2 * k <= 18)) s.
Proof.
  intros Ha Hda Hb Hdb Hpos. unfold bn_mod_mul_montgomery_small. apply wp_modulus. intros nx ->. cbv zeta. change BN_SMALL_MAX_WORDS with 9. destruct (negb (num_r =? k) || (2 * k <? zlen la + zlen lb) || (9 <? k)) eqn:E; [apply wp_fail; split; [done|lia]|].
  assert (Hsz : num_r = k /\ zlen la + zlen lb <= 2 * k <= 18) by lia. destruct Hsz as [-> Hsz]. apply with_array_spec; [lia|]. intros g Hg Hdg. pose proof (zlen_nonneg lb).
  set (t := (length (arrays s), 0)). assert (Hfit : forall n, 0 <= n <= 18 -> writable (arrays s ++ [g]) t n) by (intros n Hn; rewrite <- (wadd_0 t); eapply writable_sub; [by apply array_writable|lia..]).
  assert (Hout : forall c l, at_ (arrays s) c l -> forall n, apart t n c (zlen l)) by (intros c l (bc & Hc & _) n; apply lookup_lt_Some in Hc; left; cbn; lia).
  apply wp_bind. eapply (wp_mono _ (fun _ s1 => exists lp, nums s1 = nums s /\ keeps (arrays s ++ [g]) (arrays s1) [(t, 18)] /\ at_ (arrays s1) t lp /\ digits lp /\ zlen lp = zlen la + zlen lb /\ val lp = val la * val lb) _ (fun _ => False)); [| |done].
  - destruct (bool_decide_reflect (a = b)) as [<-|_]; cbn [andb]; [destruct (Z.eqb_spec (zlen la) (zlen lb)) as [El|_]|].
    + destruct Ha as (arr & Harr & Ha1 & Ha2 & Ha3), Hb as (arr' & Harr' & _ & _ & Hb3). rewrite Harr in Harr'. injection Harr' as <-. rewrite <- El, Ha3 in Hb3. subst lb. assert (Ha : at_ (arrays s) a la) by by exists arr.
      wp_call (bn_sqr_small_spec (mkStore (nums s) (arrays s ++ [g]) (bn_heap s)) t (zlen la + zlen la) a la); cbn [arrays]; [by apply at_snoc|done|apply Hfit; lia|by apply Hout|done| |intros ? [_ Hbad]; change BN_SMALL_MAX_WORDS with 9 in Hbad; lia].
      intros [] s1 (_ & _ & En & K & ws & Hws & Hz & Hd & Hv). exists ws. split_and!; try done; [|lia]. eapply keeps_mono; [|exact K]. constructor; [left; unfold inside; cbn; lia|constructor].
    + apply wp_on_words. wp_call (bn_mul_small_spec (arrays s ++ [g]) t (zlen la + zlen lb) a a la lb); [done|done|by apply at_snoc|by apply at_snoc|apply Hfit; lia|by apply Hout|by apply Hout| |by intros ? [_ []]].
      intros [] m1 (_ & ws & -> & Hz & Hd & Hv). exists ws. cbn [nums arrays]. split_and!; try done; [|apply wput_at, Hfit; lia]. apply (keeps_one _ _ _ _ t 18); [apply Hfit; lia|done|by left|unfold inside; cbn; lia].
    + apply wp_on_words. wp_call (bn_mul_small_spec (arrays s ++ [g]) t (zlen la + zlen lb) a b la lb); [done|done|by apply at_snoc|by apply at_snoc|apply Hfit; lia|by apply Hout|by apply Hout| |by intros ? [_ []]].
      intros [] m1 (_ & ws & -> & Hz & Hd & Hv). exists ws. cbn [nums arrays]. split_and!; try done; [|apply wput_at, Hfit; lia]. apply (keeps_one _ _ _ _ t 18); [apply Hfit; lia|done|by left|unfold inside; cbn; lia].
  - intros [] s1 (lp & En & K & Hat & Hd & Hz & Hv). rewrite <- Hz, <- Hv. eapply wp_mono; [apply (array_extended s mt v k r g Hm)| |done]; try done; [lia|lia|]. intros [] s' H'. split; [done|]. split; [lia|done].
Qed.
End Ops.

(** * With a whole context *)

Section Whole.
Variables (s : bn_store) (mt : BN_MONT_CTX) (v k : Z) (r : wptr) (num_r : Z).
Hypothesis Hm : mont_is s mt v k.
Hypothesis Hr : writable (arrays s) r num_r.
Hypothesis Hrn : r.1 <> N mt.
Local Abbreviation R := (BASE ^ k).

Lemma reduced_into_exact t x s' : t < v * R -> (x * R) mod v = t mod v -> reduced_into s v k r t s' -> written s r k (x mod v) s'.
Proof. intros Ht Hx (z & Hz & Hred). destruct (modulus_odd _ _ _ _ (proj1 Hm)) as (Ho & Hv & Hk). by rewrite <- (reduces_exact v k t z) by (done || lia). Qed.
Lemma reduced_into_residue t s' : t < v * R -> reduced_into s v k r t s' -> exists z, written s r k z s' /\ 0 <= z < v /\ (z * R) mod v = t mod v.
Proof. intros Ht (z & Hz & (H0 & H1 & H2)). exists z. split; [done|]. split; [|done]. specialize (H2 Ht). lia. Qed.
(** The square of [2^(64k)]. *)
Lemma square_in : exists lr, shows s (RR mt) false lr /\ at_ (arrays s) (bn_d (RR mt)) lr /\ digits lr /\ zlen lr = words_of s (RR mt) /\ val lr = (R * R) mod v /\ 0 <= val lr < v.
Proof.
  pose proof Hm as (Hmod & _ & lr & Hsr & Hv). destruct (modulus_odd _ _ _ _ Hmod) as (_ & Hv0 & Hk). replace (2 * k) with (k + k) in Hv by lia. rewrite Z.pow_add_r in Hv by lia. exists lr. destruct (shows_digits _ _ _ _ Hsr) as [Hd _].
  split; [done|]. split; [by eapply shows_at|]. split; [done|]. split; [symmetry; by eapply shows_words|]. split; [done|]. rewrite Hv. apply Z.mod_pos_bound. lia.
Qed.
Lemma wp_square {A} (f : BIGNUM -> M bn_store A) Q E : (forall n, width n = words_of s (RR mt) -> wp (f n) Q E s) -> wp (bn_get (RR mt) ≫= f) Q E s.
Proof. intros H. destruct square_in as (lr & Hsr & _ & _ & Hz & _). destruct (shows_get _ _ _ _ Hsr) as (n & Hn & _ & Hw). apply wp_bind. eapply wp_bn_get; [exact Hn|]. apply H. congruence. Qed.

Lemma bn_to_montgomery_small_spec a la :
  at_ (arrays s) a la -> digits la -> 0 < zlen la -> val la < R ->
  wp (bn_to_montgomery_small r num_r a (zlen la) mt)
    (fun _ s' => num_r = k /\ zlen la + words_of s (RR mt) <= 2 * k <= 18 /\ written s r k ((val la * R) mod v) s') (fun s' => s' = s /\ ~ (num_r = k /\ zlen la + words_of s (RR mt) <= 2 * k <= 18)) s.
Proof.
  intros Ha Hd Hpos Hlt. unfold bn_to_montgomery_small. apply wp_square. intros n ->. destruct square_in as (lr & _ & Har & Hdr & <- & Hv & Hb). pose proof (val_range _ Hd) as [H0 _].
  wp_call (bn_mod_mul_montgomery_small_spec s mt v k r num_r (proj1 Hm) Hr Hrn a la (bn_d (RR mt)) lr); try done. intros [] s' (H1 & H2 & Hred). split; [done|]. split; [done|]. eapply reduced_into_exact; [|  |exact Hred]; [nia|]. rewrite Hv, Zmult_mod_idemp_r. f_equal. lia.
Qed.

Lemma bn_one_to_montgomery_small_spec :
  words_of s (RR mt) <= 2 * k ->
  wp (bn_one_to_montgomery_small r num_r mt) (fun _ s' => (num_r = k /\ (k <= 9 \/ R <= 2 * v)) /\ written s r k (R mod v) s') (fun s' => s' = s /\ ~ (num_r = k /\ (k <= 9 \/ R <= 2 * v))) s.
Proof.
  intros Hrr. pose proof Hm as (Hmod & _). destruct (modulus_odd _ _ _ _ Hmod) as (Ho & Hv & Hk). pose proof Hmod as (ln & Hsn & Hzn & Hvn & _). destruct (shows_digits _ _ _ _ Hsn) as [Hdn _].
  unfold bn_one_to_montgomery_small. apply (wp_modulus s mt v k Hmod). intros n ->. cbv zeta. rewrite (proj2 (Z.eqb_neq k 0)) by lia. cbn [orb]. destruct (Z.eqb_spec num_r k) as [->|]; [|apply wp_fail; split; [done|lia]]. cbn [negb].
  apply wp_bind. wp_call has_high_bit_spec; [exact Hsn| |done]. intros b st [-> Hhigh]. rewrite Hzn, Hvn in Hhigh. destruct b.
  - assert (R <= 2 * v) as Hge by by apply Hhigh. clear Hhigh. rename Hge into Hhigh. apply wp_on_words. wp_call (complement_modulus_spec s mt v k r); [done|done|done|by left| |done].
    intros [] m' (ws & -> & Hzw & Hdw & Hvw). split; [auto|]. split_and!; [done|by apply (keeps_put _ _ _ _ k); [rewrite Hzw|..|left]|]. exists ws. split_and!; [apply wput_at; by rewrite Hzw|done..].
  - apply wp_square. intros x ->. destruct square_in as (lr & _ & Har & Hdr & Hz & Hvr & Hb). rewrite <- Hz in *. wp_call (bn_from_montgomery_small_spec s mt v k r k Hmod Hr Hrn (bn_d (RR mt)) lr); [done|done| |].
    + intros [] s' (_ & Hfit & Hred). split; [split; [done|left; lia]|]. eapply reduced_into_exact; [| |exact Hred]; [nia|]. by rewrite Hvr, Z.mod_mod by lia.
    + intros s' [-> Hbad]. split; [done|]. assert (~ R <= 2 * v) by (intros H; by apply Hhigh in H). lia.
Qed.
End Whole.
End Small.
