(* ===== verification/BnMontSet.v ===== *)
(** How a context of [BnMont] is set: the word of the modulus and the square of [2^(64k)]. *)
From S2P Require Import Prelude Mem Ct BnWords BnWordsFacts BnMulFacts CtFacts Bn BnFacts BnCmp BnAddFacts BnArith BnTests BnShift BnShiftFacts BnBitsFacts BnMul BnPartFacts BnKaratsuba BnCtx BnCtxFacts BnMulCtx BnSqrCtx BnFrames BnDiv BnFlags BnDivNums BnDivCtx BnModFacts BnQuickFacts BnMont BnMontWords BnMontNums BnMontForm.

Section Setting.
Context `{alloc : Allocator}.

Lemma BN_is_negative_spec x ng l s : shows s x ng l -> wp (BN_is_negative x) (fun b s' => s' = s /\ b = ng) (fun _ => False) s.
Proof. intros Hs. destruct (shows_get _ _ _ _ Hs) as (n & Hn & Hng & _). unfold BN_is_negative. apply wp_bind. eapply wp_bn_get; [exact Hn|]. by apply wp_ret. Qed.

(** * The word *)

Lemma bn_mont_n0_spec x l s : shows s x false l -> Z.odd (val l) = true -> wp (bn_mont_n0 x) (fun v s' => s' = s /\ (v * val l + 1) mod BASE = 0) (fun _ => False) s.
Proof.
  intros Hs Ho. destruct (shows_digits _ _ _ _ Hs) as [Hd _]. unfold bn_mont_n0.
  apply wp_bind. wp_call BN_is_zero_spec; [exact Hs| |done]. intros ? ? [-> ->]. apply wp_bind, wp_assert; [apply negb_true_iff, Z.eqb_neq; intros E; by rewrite E in Ho|].
  apply wp_bind. wp_call BN_is_negative_spec; [exact Hs| |done]. intros ? ? [-> ->]. apply wp_bind, wp_assert; [done|].
  apply wp_bind. wp_call BN_is_odd_spec; [exact Hs| |done]. intros ? ? [-> ->]. apply wp_bind, wp_assert; [done|].
  destruct l as [|d l]; [done|]. apply Forall_cons in Hd as [Hw _]. rewrite val_cons in *. change BASE with (2 * 2 ^ 63) in Ho. rewrite <- Z.mul_assoc, Z.odd_add_mul_2 in Ho.
  apply wp_bind. eapply wp_rd_word; [by eapply shows_at|done|]. wp_call (bn_neg_inv_spec (S := bn_store) d); [done|by rewrite Zmod_odd, Ho| |done]. intros v s' (-> & _ & E). split; [done|].
  replace (v * (d + BASE * val l) + 1) with (v * d + 1 + v * val l * BASE) by lia. by rewrite Z.mod_add.
Qed.

(** * Powers of two *)

Lemma bit_length_bounds v : 0 < v -> 2 ^ (bit_length v - 1) <= v < 2 ^ bit_length v /\ 0 < bit_length v.
Proof. intros Hv. unfold bit_length. rewrite (proj2 (Z.eqb_neq _ _)) by lia. replace (Z.log2 v + 1 - 1) with (Z.log2 v) by lia. pose proof (Z.log2_spec v Hv). pose proof (Z.log2_nonneg v). replace (Z.log2 v + 1) with (Z.succ (Z.log2 v)) by lia. lia. Qed.

Lemma bn_mod_exp_base_2_spec s bl fr r p n ln :
  ctx_ok s bl fr -> spacious s 3 -> nestable s fr -> live s bl r -> live s bl n -> r <> n -> shows (store s) n false ln -> Z.odd (val ln) = true -> roomy (store s) r 0 -> bit_length (val ln) < p ->
  wp (bn_mod_exp_base_2_consttime r p n)
    (fun _ s' => exists bl', restored s bl fr [r] s' bl' /\ holds (store s') r (2 ^ p mod val ln) /\ words_of (store s') r <= zlen ln)
    (fun s' => exists bl', restored s bl fr [r] s' bl' /\ refused s fr (zlen ln + 1)) s.
Proof.
  intros Hok Hsp H30 Hlr Hln Hne Hs Ho Hr Hp. destruct (shows_digits _ _ _ _ Hs) as [Hd _]. pose proof (val_range _ Hd) as [Hv0 _]. set (v := val ln) in *. assert (Hv : 0 < v) by (assert (v <> 0) by (intros E; by rewrite E in Ho); lia).
  destruct (bit_length_bounds v Hv) as [[B1 B2] B3]. pose proof (bit_length_range (zlen ln) ln Hd ltac:(lia)) as B4. fold v in B4. assert (Eta : mkCtxStore (ctx s) (items s) (store s) = s) by by destruct s. unfold bn_mod_exp_base_2_consttime.
  apply wp_bind, wp_on_store. wp_call BN_is_zero_spec; [exact Hs| |done]. intros ? ? [-> ->]. rewrite Eta. apply wp_bind, wp_assert; [apply negb_true_iff, Z.eqb_neq; fold v; lia|].
  apply wp_bind, wp_on_store. wp_call BN_is_negative_spec; [exact Hs| |done]. intros ? ? [-> ->]. rewrite Eta. apply wp_bind, wp_assert; [done|].
  apply wp_bind, wp_on_store. wp_call BN_is_odd_spec; [exact Hs| |done]. intros ? ? [-> ->]. rewrite Eta. apply wp_bind, wp_assert; [done|].
  destruct (roomy_inv _ _ Hr) as (ngr & l0 & Hs0). apply wp_bind, wp_on_store. wp_flags BN_zero_shows; [exact Hs0| |by intros ? []]. intros [] st [[Ho1 Hs1] Hf1].
  assert (Hsn1 : shows st n false ln) by (eapply shows_others; [exact Ho1|by apply not_eq_sym|exact Hs]).
  apply wp_bind, wp_on_store. cbn [store ctx items]. wp_call BN_num_bits_spec; [exact Hsn1| |done]. intros ? ? [-> ->]. fold v. apply wp_bind, wp_assert; [apply negb_true_iff, Z.eqb_neq; lia|]. apply wp_bind, wp_assert; [by apply Z.ltb_lt|].
  assert (Hres1 : restored s bl fr [r] (mkCtxStore (ctx s) (items s) st) bl) by (apply restored_store; [done|done|by eapply roomy_shows]).
  destruct (Z.eqb_spec (bit_length v) 1) as [E|Hbits].
  { apply wp_ret. exists bl. split; [done|]. cbn [store]. assert (Ev : v = 1) by (rewrite E in B1, B2; change (2 ^ (1 - 1)) with 1 in B1; change (2 ^ 1) with 2 in B2; lia). rewrite Ev, Z.mod_1_r. split; [by apply (holds_pos _ _ [])|]. rewrite (shows_words _ _ _ _ Hs1). apply zlen_nonneg. }
  set (nb := bit_length v) in *. apply wp_bind, wp_on_store. cbn [store ctx items]. wp_flags (BN_set_bit_spec r 0 (nb - 1)); [by apply (holds_pos _ _ [])|lia| |].
  2: { intros st2 [(Ho2 & Hr2 & k & Hk & Hc) Hf2]. exists bl. split; [by eapply (restored_then s bl fr r (mkCtxStore (ctx s) (items s) st) bl st2)|]. apply (no_room_refused _ _ k); [|pose proof (zlen_nonneg ln); assert ((nb - 1) / 64 < zlen ln) by (apply Z.div_lt_upper_bound; lia); lia].
    eapply (no_room_back _ _ st); [exact Hf1|]. by eapply cannot_grow_room. }
  intros [] st2 [[Ho2 Hz2] Hf2]. change (0 <? 0) with false in Hz2. cbn [signed] in Hz2. rewrite Z.abs_0, Z.lor_0_l in Hz2.
  assert (Hres2 : restored s bl fr [r] (mkCtxStore (ctx s) (items s) st2) bl) by (by eapply (restored_then s bl fr r (mkCtxStore (ctx s) (items s) st) bl st2); [..|eapply holds_roomy]). set (s2 := mkCtxStore (ctx s) (items s) st2) in *.
  assert (Hm : n ∉ [r]) by (rewrite list_elem_of_singleton; congruence). assert (Hlt : 2 ^ (nb - 1) < v).
  { destruct (Z.eq_dec (2 ^ (nb - 1)) v) as [E|]; [exfalso|lia]. rewrite <- E in Ho. replace (nb - 1) with (Z.succ (nb - 2)) in Ho by lia. by rewrite Z.pow_succ_r, Z.odd_mul in Ho by lia. }
  assert (0 < 2 ^ (nb - 1)) by (apply Z.pow_pos_nonneg; lia).
  eapply wp_mono; [apply (bn_mod_lshift_quick_sized s2 bl fr r r n (p - (nb - 1)) (2 ^ (nb - 1)) v)|..].
  - by eapply restored_ok.
  - by eapply (restored_spacious s bl).
  - by eapply (restored_nestable s bl).
  - by eapply (restored_live s bl).
  - by eapply (restored_live s bl).
  - by eapply (restored_live s bl).
  - done.
  - done.
  - eapply (restored_holds s bl); [exact Hres2|done|done|]. by apply holds_pos.
  - by eapply holds_roomy.
  - lia.
  - lia.
  - intros [] s3 (bl3 & Hres3 & Hz3 & Hw3). exists bl3. split; [by eapply (restored_trans s bl fr [r] s2 bl)|]. rewrite <- Z.pow_add_r in Hz3 by lia. replace (p - (nb - 1) + (nb - 1)) with p in Hz3 by lia. split; [done|].
    rewrite Hw3 by lia. by rewrite (restored_words s bl fr [r] s2 bl Hres2 n Hln Hm), (shows_words _ _ _ _ Hs).
  - intros s3 (bl3 & Hres3 & Hrf). exists bl3. split; [by eapply (restored_trans s bl fr [r] s2 bl)|]. unfold copy_need in Hrf. rewrite Nat.eqb_refl, (restored_words s bl fr [r] s2 bl Hres2 n Hln Hm), (shows_words _ _ _ _ Hs) in Hrf.
    eapply (restored_refused s bl fr [r] s2 bl); [exact Hres2|unfold ctx_flags_kept; cbn [store s2]; by etransitivity|exact Hrf|pose proof (zlen_nonneg ln); lia].
Qed.

(** * The context *)

Section Ctx.
Variables (c : ctx_store) (mt : BN_MONT_CTX) (bl : list bn) (fr : list Z) (m : bn) (u : Z).
Hypothesis Hok : ctx_ok c bl fr.
Hypothesis Hsp : spacious c 3.
Hypothesis H30 : nestable c fr.
Hypothesis HlN : live c bl (N mt).
Hypothesis HlR : live c bl (RR mt).
Hypothesis Hlm : live c bl m.
Hypothesis Hne : RR mt <> N mt.
Hypothesis Hu : holds (store c) m u.
Hypothesis HrN : roomy (store c) (N mt) 0.
Hypothesis HrR : roomy (store c) (RR mt) 0.
Local Abbreviation rs := [N mt; RR mt].
Local Abbreviation s := (mkMontStore mt c).
Local Abbreviation wm := (words_of (store c) m).

Lemma wp_on_ctx {A} (f : M ctx_store A) (Q : A -> mont_store -> Prop) E mt' c' :
  wp f (fun a t => Q a (mkMontStore mt' t)) (fun t => E (mkMontStore mt' t)) c' -> wp (on_ctx f) Q E (mkMontStore mt' c').
Proof. intros H. apply wp_zoom. exact H. Qed.
(** A step on the numbers. *)
Lemma wp_on_nums {A} (f : M bn_store A) (Q : A -> mont_store -> Prop) E mt' c' :
  wp f (fun a t => Q a (mkMontStore mt' (mkCtxStore (ctx c') (items c') t))) (fun t => E (mkMontStore mt' (mkCtxStore (ctx c') (items c') t))) (store c') -> wp (on_ctx (on_store f)) Q E (mkMontStore mt' c').
Proof. intros H. apply wp_on_ctx, wp_on_store. exact H. Qed.

Definition valid_modulus : Prop := 0 < u /\ Z.odd u = true.
(** The modulus is there, without zeros in front, and its word. *)
Definition modulus_set (s' : mont_store) : Prop :=
  valid_modulus /\ exists st mt' k, s' = mkMontStore mt' (mkCtxStore (ctx c) (items c) st) /\ others (N mt) (store c) st /\ flags_kept (store c) st /\
    N mt' = N mt /\ RR mt' = RR mt /\ modulus st mt' u k /\ BASE ^ (k - 1) <= u /\ k <= wm.
Definition set_failed (w : Z) (s' : mont_store) : Prop :=
  ~ valid_modulus /\ s' = s \/ valid_modulus /\ exists bl', restored c bl fr rs (around s') bl' /\ refused c fr w.

Lemma mont_set_modulus_spec : wp (mont_set_modulus m) (fun _ => modulus_set) (set_failed wm) s.
Proof.
  destruct (holds_sign _ _ _ Hu) as (l & Hs & Hv). assert (Eta : mkCtxStore (ctx c) (items c) (store c) = c) by by destruct c. pose proof (shows_words _ _ _ _ Hs) as Hwm. pose proof (zlen_nonneg l).
  assert (Hodd : Z.odd (val l) = Z.odd u) by (rewrite Hv; destruct (Z.abs_spec u) as [[_ ->]|[_ ->]]; [done|apply Z.odd_opp]).
  unfold mont_set_modulus. apply wp_bind, wp_get. cbn [mont_ctx].
  apply wp_bind, wp_on_nums. wp_call BN_is_zero_spec; [exact Hs| |done]. intros ? ? [-> ->]. rewrite Eta. destruct (Z.eqb_spec (val l) 0) as [E|Hne0]; [apply wp_fail; left; split; [|done]; intros [? _]; lia|].
  apply wp_bind, wp_on_nums. wp_call BN_is_odd_spec; [exact Hs| |done]. intros ? ? [-> ->]. rewrite Eta, Hodd. destruct (Z.odd u) eqn:Ho; cbn [negb]; [|apply wp_fail; left; split; [|done]; intros [_ H']; congruence].
  apply wp_bind, wp_on_nums. wp_call BN_is_negative_spec; [exact Hs| |done]. intros ? ? [-> ->]. rewrite Eta. destruct (Z.ltb_spec u 0) as [Hneg|Hpos]; [apply wp_fail; left; split; [|done]; intros [? _]; lia|].
  assert (Hvalid : valid_modulus) by (split; [lia|done]). rewrite Z.abs_eq in Hv by lia.
  apply wp_bind, wp_on_nums. wp_flags BN_copy_shows; [exact Hs|exact HrN| |].
  2: { intros st [(F1 & F2 & Hc) Hf]. right. split; [done|]. exists bl. split; [cbn [around]; eapply restored_mono; [|apply (restored_store c bl fr (N mt)); [done|by apply others_same|by eapply roomy_same]]; intros x Hx%list_elem_of_singleton; rewrite Hx; left|].
    apply (no_room_refused _ _ (zlen l)); [|lia]. eapply cannot_grow_room; [exact Hc|lia]. }
  intros [] st [[Ho1 Hs1] Hf1]. apply wp_bind, wp_on_nums. cbn [store ctx items]. wp_flags bn_set_minimal_width_spec; [exact Hs1| |by intros ? []]. intros [] st2 [[Hs2 Ho2] Hf2].
  destruct (shrink_spec l) as (Hmin & Hvs & _). assert (Hs2' : shows st2 (N mt) false (shrink l)) by exact Hs2.
  apply wp_bind, wp_on_nums. cbn [store ctx items]. wp_call bn_mont_n0_spec; [exact Hs2'|by rewrite Hvs, Hodd| |done]. intros n ? [-> Hn]. cbn [store ctx items]. apply wp_modify. cbn [mont_ctx around]. split; [done|].
  pose proof (digits_shrink l (proj1 (shows_digits _ _ _ _ Hs))) as Hds. destruct (minimal_range _ Hds Hmin) as [[E|Hge] _]; [rewrite E in Hvs; cbn in Hvs; lia|].
  exists st2, (mkMont (RR mt) (N mt) (n, 0)), (zlen (shrink l)). split; [done|]. split; [by eapply others_trans|]. split; [by etransitivity|]. split; [done|]. split; [done|]. split.
  - exists (shrink l). split; [done|]. split; [done|]. split; [lia|]. rewrite Hvs, Hv in Hn. done.
  - split; [lia|]. pose proof (zlen_shrink l). lia.
Qed.

(** All of it. *)
Definition mont_set (s' : mont_store) : Prop :=
  valid_modulus /\ exists bl' k, restored c bl fr rs (around s') bl' /\ N (mont_ctx s') = N mt /\ RR (mont_ctx s') = RR mt /\
    mont_is (store (around s')) (mont_ctx s') u k /\ BASE ^ (k - 1) <= u /\ words_of (store (around s')) (RR mt) <= k.
Lemma BN_MONT_CTX_set_spec : wp (BN_MONT_CTX_set m) (fun _ => mont_set) (set_failed (wm + 1)) s.
Proof.
  pose proof Hu as (ngu & lu & Hsu & _). pose proof (shows_words _ _ _ _ Hsu) as Hwu. pose proof (zlen_nonneg lu). unfold BN_MONT_CTX_set. apply wp_bind. wp_call mont_set_modulus_spec.
  2: { intros s' [?|(Hvalid & bl' & Hres & Hrf)]; [by left|right]. split; [done|]. exists bl'. split; [done|]. eapply (refused_back c c); [done|unfold ctx_flags_kept; reflexivity|exact Hrf|lia]. }
  intros [] s1 (Hvalid & st & mt' & k & -> & Ho & Hf & EN & ER & Hmod & Hk & Hkw). destruct (modulus_odd _ _ _ _ Hmod) as (Hodd & Hv & Hk0). pose proof Hmod as (ln & Hsn & Hzn & Hvn & Hn0). rewrite EN in Hsn. set (c1 := mkCtxStore (ctx c) (items c) st) in *.
  assert (Hres1 : restored c bl fr [N mt] c1 bl) by (apply restored_store; [done|done|by eapply roomy_shows]).
  destruct (shows_get _ _ _ _ Hsn) as (x & Hx & _ & Hw). apply wp_bind, wp_get. cbn [mont_ctx]. rewrite EN, ER.
  apply wp_bind, wp_on_ctx. eapply wp_get_number; [exact Hx|]. rewrite Hw. cbv zeta. assert (Hmax : zlen ln <= max_words) by by destruct (shows_digits _ _ _ _ Hsn). unfold max_words in Hmax. change BN_BITS2 with 64.
  assert (Ep : u32 (u32 (zlen ln * 64) * 2) = 128 * k) by (unfold u32; rewrite (Z.mod_small (zlen ln * 64)) by lia; rewrite Z.mod_small by lia; lia). rewrite Ep.
  assert (HNR : RR mt ∉ [N mt]) by by rewrite list_elem_of_singleton. destruct (restored_same c bl fr [N mt] c1 bl Hres1 (RR mt) HlR HNR) as [ER1 ER2].
  assert (Hbits : bit_length (val ln) < 128 * k) by (destruct (shows_digits _ _ _ _ Hsn) as [Hd _]; pose proof (bit_length_range k ln Hd ltac:(lia)); lia).
  apply wp_on_ctx. eapply wp_mono; [apply (bn_mod_exp_base_2_spec c1 bl fr (RR mt) (128 * k) (N mt) ln)|..]; cbv beta.
  - by eapply restored_ok.
  - by eapply (restored_spacious c bl).
  - by eapply (restored_nestable c bl).
  - by eapply (restored_live c bl).
  - by eapply (restored_live c bl).
  - done.
  - exact Hsn.
  - by rewrite Hvn.
  - by eapply roomy_in.
  - exact Hbits.
  - intros [] c2 (bl2 & Hres2 & Hz & Hwz). assert (HRN : N mt ∉ [RR mt]) by (rewrite list_elem_of_singleton; congruence).
    destruct (restored_same c1 bl fr [RR mt] c2 bl2 Hres2 (N mt)) as [EN1 EN2]; [by eapply (restored_live c bl)|done|]. split; [done|]. exists bl2, k. cbn [around mont_ctx]. split; [by eapply restored_step|]. split; [done|]. split; [done|].
    assert (Hp : 2 ^ (128 * k) = BASE ^ (2 * k)) by (change BASE with (2 ^ 64); rewrite <- Z.pow_mul_r by lia; f_equal; lia). split; [|by rewrite <- Hzn at 2].
    split; [eapply (modulus_same (store c1)); rewrite ?EN; done|]. split; [by rewrite ER, EN|]. rewrite ER, <- Hp, <- Hvn. destruct (holds_nonneg _ _ _ Hz) as (lr & Hlr & Hvr); [apply Z.mod_pos_bound; lia|]. by exists lr.
  - intros c2 (bl2 & Hres2 & Hrf). right. split; [done|]. exists bl2. cbn [around]. split; [by eapply restored_step|]. eapply (restored_refused c bl fr [N mt] c1 bl); [exact Hres1|exact Hf|exact Hrf|lia].
Qed.
End Ctx.

(** * New contexts *)

Definition new_context (st : bn_store) (mt : BN_MONT_CTX) (st' : bn_store) : Prop :=
  grown st st' /\ RR mt = length (nums st) /\ N mt = S (length (nums st)) /\ length (nums st') = S (S (length (nums st))) /\ shows st' (RR mt) false [] /\ shows st' (N mt) false [].
Lemma BN_MONT_CTX_new_spec st : aligned st -> wp BN_MONT_CTX_new (new_context st) (fun st' => grown st st' /\ out_of_memory 72) st.
Proof.
  intros Hal. unfold BN_MONT_CTX_new. apply wp_bind. wp_call store_malloc_spec; [done| |done]. intros [p|] st1 (Hp & E1 & E2); [|apply wp_fail; split; [by apply grown_same|by apply Hp]]. pose proof (grown_same _ _ Hal E1 E2) as Hg1.
  apply wp_bind. wp_call bn_alloc_spec; [by destruct Hg1|done| |done]. intros rr st2 (-> & Hg2 & L2 & Hs2). apply wp_bind. wp_call bn_alloc_spec; [by destruct Hg2|done| |done]. intros n st3 (-> & Hg3 & L3 & Hs3).
  apply wp_ret. split; [eapply store_grown_trans; [exact Hg1|]; by eapply store_grown_trans|]. cbn [RR N]. rewrite L3, L2, E1. split_and!; [done..| |by rewrite E1, L2 in *]. rewrite <- E1. by eapply grown_shows.
Qed.

(** What is done to new numbers only is nothing to the caller. *)
Lemma restored_new s bl fr s1 rs s2 bl2 :
  ctx_ok s bl fr -> restored s bl fr [] s1 bl -> Forall (fun x => (length (nums (store s)) <= x)%nat) rs -> restored s1 bl fr rs s2 bl2 -> restored s bl fr [] s2 bl2.
Proof.
  intros Hok (Hok1 & Hc1 & Hu1 & He1 & Ht1) Hrs (Hok2 & Hc2 & Hu2 & He2 & Ht2). destruct Hok as ((_ & _ & Hu & Hps & _) & _). split_and!; [done| |congruence..].
  eapply calm_trans; [| | |exact Hc1|exact Hc2]; [lia|lia|]. eapply Forall_impl; [exact Hrs|]. intros x Hx. by right; right.
Qed.

Lemma wp_new_for_modulus m (Q : BN_MONT_CTX -> ctx_store -> Prop) E c :
  wp (on_store BN_MONT_CTX_new) (fun mt c' => wp (BN_MONT_CTX_set m) (fun _ t => Q (mont_ctx t) (around t)) (fun t => E (around t)) (mkMontStore mt c')) E c -> wp (BN_MONT_CTX_new_for_modulus m) Q E c.
Proof. unfold wp, BN_MONT_CTX_new_for_modulus. destruct (on_store BN_MONT_CTX_new c) as [mt c'|c'|]; [|done|done]. by destruct (BN_MONT_CTX_set m _). Qed.
Lemma BN_MONT_CTX_new_for_modulus_spec c bl fr m u :
  ctx_ok c bl fr -> spacious c 3 -> nestable c fr -> live c bl m -> holds (store c) m u ->
  wp (BN_MONT_CTX_new_for_modulus m)
    (fun mt c' => valid_modulus u /\ exists bl' k, restored c bl fr [] c' bl' /\ RR mt = length (nums (store c)) /\ N mt = S (RR mt) /\ live c' bl' (N mt) /\ live c' bl' (RR mt) /\
       mont_is (store c') mt u k /\ BASE ^ (k - 1) <= u /\ words_of (store c') (RR mt) <= k)
    (fun c' => exists bl', restored c bl fr [] c' bl' /\ (~ valid_modulus u \/ refused c fr (words_of (store c) m + 1))) c.
Proof.
  intros Hok Hsp H30 Hlm Hu. assert (Hal : aligned (store c)) by by destruct Hok as (_ & _ & _ & _ & ? & _). pose proof (words_nonneg _ _ _ Hu) as Hwm. pose proof (zlen_nonneg fr) as Hfr. apply wp_new_for_modulus, wp_on_store. wp_call BN_MONT_CTX_new_spec; [exact Hal| |].
  2: { intros st [Hg Hmem]. exists bl. split; [by apply restored_grown|]. right; right; left. eapply out_of_memory_le; [|exact Hmem]. lia. }
  intros mt st (Hg & ER & EN & Hlen & HsR & HsN). pose proof (restored_grown _ _ _ _ Hok Hg) as Hres1. set (c1 := mkCtxStore (ctx c) (items c) st) in *. assert (Hnil : m ∉ []) by apply not_elem_of_nil.
  assert (Hlive : forall x, x = N mt \/ x = RR mt -> live c1 bl x) by (intros x Hx; apply (new_number_live c bl fr); [done|lia]). assert (Hf1 : ctx_flags_kept c c1) by by destruct Hg as (_ & _ & ? & _).
  assert (Hnew : Forall (fun x => (length (nums (store c)) <= x)%nat) [N mt; RR mt]) by (repeat constructor; lia).
  eapply wp_mono; [apply (BN_MONT_CTX_set_spec c1 mt bl fr m u)|..].
  - by eapply restored_ok.
  - by eapply (restored_spacious c bl).
  - by eapply (restored_nestable c bl).
  - apply Hlive. by left.
  - apply Hlive. by right.
  - by eapply (restored_live c bl).
  - lia.
  - by eapply (restored_holds c bl).
  - by eapply roomy_shows.
  - by eapply roomy_shows.
  - intros [] [mt' c2] (Hv & bl2 & k & Hres2 & EN2 & ER2 & Hm & Hk & Hw). cbn [mont_ctx around] in *. split; [done|]. exists bl2, k. assert (Hok1 : ctx_ok c1 bl fr) by by eapply restored_ok.
    split; [eapply (restored_new c); [exact Hok|exact Hres1|exact Hnew|exact Hres2]|]. split; [congruence|]. split; [congruence|]. rewrite EN2, ER2. split; [eapply (restored_live c1 bl); [exact Hok1|exact Hres2|apply Hlive; by left]|]. split; [eapply (restored_live c1 bl); [exact Hok1|exact Hres2|apply Hlive; by right]|]. split; [done|]. split; [done|]. done.
  - intros [mt' c2] [[Hv [= -> ->]]|(Hv & bl2 & Hres2 & Hrf)]; cbn [around].
    + exists bl. split; [done|by left].
    + exists bl2. split; [by eapply restored_new|]. right. rewrite (restored_words c bl fr [] c1 bl Hres1 m Hlm Hnil) in Hrf. eapply (restored_refused c bl fr [] c1 bl); [exact Hres1|exact Hf1|exact Hrf|lia].
Qed.
End Setting.
