(* ===== verification/BnDivThms.v ===== *)
(** What the divisions of the bignums compute, and what no operation of theirs changes. *)
From S2P Require Import Prelude Mem Ct BnWords BnWordsFacts Bn BnFacts BnCmp BnAddFacts BnArith BnTests BnShift BnBytes BnSpec BnMul BnCtx BnCtxFacts BnMulCtx BnFrames BnCtxThms BnDiv BnFlags BnDivNums BnDivCtx BnDivWord BnModFacts BnMont BnMontNums.

Section Thms.
Context `{alloc : Allocator}.

(** C7. BN_div, with or without a number for the quotient and one for the remainder, which are not the same
    (the quotient is not put in place of the numerator either; all others may be the same): the quotient
    is rounded towards zero, and the remainder has the sign of the numerator. The scratch numbers
    are given back, and all other numbers are as they were. It fails for a zero divisor, doing nothing,
    or if the context is jammed, memory is out, a number is too long or may not grow. *)
Theorem BN_div_exact s bl fr quotient rem numerator divisor u v wu wv :
  let rs := targets quotient ++ targets rem in
  ctx_ok s bl fr -> spacious s 4 -> nestable s fr -> live s bl numerator -> live s bl divisor -> Forall (live s bl) rs ->
  number s numerator u wu -> number s divisor v wv -> Forall (fun x => roomy (store s) x 0) rs ->
  (forall q, quotient = Some q -> rem <> Some q /\ q <> numerator) ->
  wp (BN_div quotient rem numerator divisor)
    (fun _ s' => v <> 0 /\ exists bl', restored s bl fr rs s' bl' /\
       (forall q, quotient = Some q -> holds (store s') q (Z.quot u v)) /\ (forall r, rem = Some r -> holds (store s') r (Z.rem u v)))
    (fun s' => v = 0 /\ s' = s \/ v <> 0 /\ exists bl', restored s bl fr rs s' bl' /\ refused s fr (wu + wv)) s.
Proof.
  intros rs Hok Hsp H30 Hlu Hlv Hlr Hu Hv Hrr Hq. apply number_holds in Hu as [Hu ->], Hv as [Hv ->].
  wp_call (BN_div_spec s bl fr quotient rem numerator divisor u v); try done. intros [] s' (Hv0 & bl' & Hres & [Hdq Hdr] & _). split; [done|]. exists bl'. split; [done|]. split.
  - intros q Eq. apply Hdq; [done|]. by apply Hq.
  - intros r Er. specialize (Hdr r Er). unfold remainder_of in Hdr. rewrite decide_False, rem_signed in Hdr; [done|done|]. intros E. by destruct (Hq numerator E).
Qed.

(** C37. When the quotient of BN_div takes the place of the numerator, the remainder gets the sign of the quotient:
    for a negative divisor it is the negation of the remainder. *)
Theorem BN_div_in_place_remainder s bl fr r numerator divisor u v :
  let rs := [numerator; r] in
  ctx_ok s bl fr -> spacious s 4 -> nestable s fr -> live s bl numerator -> live s bl divisor -> live s bl r -> r <> numerator ->
  holds (store s) numerator u -> holds (store s) divisor v -> roomy (store s) r 0 ->
  wp (BN_div (Some numerator) (Some r) numerator divisor)
    (fun _ s' => v <> 0 /\ exists bl', restored s bl fr rs s' bl' /\ holds (store s') numerator (Z.quot u v) /\ holds (store s') r (if v <? 0 then - Z.rem u v else Z.rem u v))
    (fun s' => v = 0 /\ s' = s \/ v <> 0 /\ exists bl', restored s bl fr rs s' bl' /\ refused s fr (words_of (store s) numerator + words_of (store s) divisor)) s.
Proof.
  intros rs Hok Hsp H30 Hlu Hlv Hlr Hne Hu Hv Hrr. wp_call (BN_div_spec s bl fr (Some numerator) (Some r) numerator divisor u v); try done.
  - by apply Forall_cons_2; [|apply Forall_cons_2; [|apply Forall_nil_2]].
  - by apply Forall_cons_2; [eapply holds_roomy|apply Forall_cons_2; [|apply Forall_nil_2]].
  - intros [] s' (Hv0 & bl' & Hres & [Hdq Hdr] & _). split; [done|]. exists bl'. split; [done|]. split; [apply Hdq; [done|congruence]|]. specialize (Hdr r eq_refl). unfold remainder_of in Hdr. rewrite decide_True in Hdr by done.
    rewrite <- (rem_signed u v Hv0). by destruct (u <? 0), (v <? 0); cbn [xorb signed] in *; rewrite ?Z.opp_involutive.
Qed.

(** C34. Division of a number by a word and by a power of two. BN_mod_word returns the remainder of the absolute value,
    BN_div_word as well, leaving the quotient; both return the word of all ones, which no remainder is,
    for a zero word, and BN_div_word when its number cannot get a word more. BN_mod_pow2 takes the remainder with the sign of
    the number, in place or not, BN_nnmod_pow2 the one that is not negative. *)
Theorem BN_small_divisions_exact s r a u w e :
  aligned s -> holds s a u -> roomy s r 0 -> word w -> 0 <= e ->
  wp (BN_mod_word a w) (fun d s' => s' = s /\ d = if w =? 0 then BN_MASK2 else Z.abs u mod w) (fun _ => False) s /\
  wp (BN_div_word a w)
    (fun d s' => if w =? 0 then d = BN_MASK2 /\ s' = s else
       d = Z.abs u mod w /\ d <> BN_MASK2 /\ sets a (Z.quot u w) s s' \/ d = BN_MASK2 /\ stunted a (words_of s a + 1) s s') (fun _ => False) s /\
  wp (BN_mod_pow2 r a e) (fun _ => sets r (Z.rem u (2 ^ e)) s) (stunted r (1 + (e - 1) / 64) s) s /\
  wp (BN_nnmod_pow2 r a e) (fun _ => sets r (u mod 2 ^ e) s) (fun s' => others r s s' /\ roomy s' r 0 /\ no_room (1 + (e - 1) / 64 + 1) s) s.
Proof.
  intros Hal Hu Hr Hw He. split; [by apply BN_mod_word_spec|]. split; [by apply BN_div_word_spec|]. split; [|by apply BN_nnmod_pow2_spec].
  wp_call BN_mod_pow2_spec; [exact Hu|exact Hr|exact He| |done]. by intros [] s' [H _].
Qed.
End Thms.

(** * The calls *)

(** Everything that changes numbers. *)
Inductive bn_call : Type :=
| Simple (o : bn_op)
| ClearBit (a : bn) (n : Z)
| MaskBits (a : bn) (n : Z)
| DivWord (a : bn) (w : Z)
| ModPow2 (r a : bn) (e : Z)
| NnmodPow2 (r a : bn) (e : Z)
| Dup (a : bn)
| CtxStart
| CtxGet
| CtxEnd
| Mul (r a b : bn)
| Sqr (r a : bn)
| Div (quotient rem : option bn) (numerator divisor : bn)
| Nnmod (r m d : bn)
| ModAdd (r a b m : bn)
| ModSub (r a b m : bn)
| ModMul (r a b m : bn)
| ModSqr (r a m : bn)
| ModAddQuick (r a b m : bn)
| ModSubQuick (r a b m : bn)
| ModLshiftQuick (r a : bn) (n : Z) (m : bn)
| ModLshift (r a : bn) (n : Z) (m : bn)
| ModLshift1 (r a m : bn)
(* made, cleared, resized, put together from words or bytes *)
| New
| Clear (a : bn)
| One (a : bn)
| SetU64 (a : bn) (w : Z)
| SetWords (a : bn) (ws : wptr) (num : Z)
| Wexpand (a : bn) (words : Z)
| Expand (a : bn) (bits : Z)
| ResizeWords (a : bn) (num : Z)
| MinimalWidth (a : bn)
| SetNegative (a : bn) (sign : bool)
| Bin2bn (inp : ptr) (len : Z) (ret : option bn)
| Le2bn (inp : ptr) (len : Z) (ret : option bn)
| Words (m : M words unit)
(* sums of absolute values, fixed products, residues *)
| UaddFixed (r a b : bn)
| Uadd (r a b : bn)
| Usub (r a b : bn)
| MulFixed (r a b : bn)
| SqrFixed (r a : bn)
| SqrSmall (r : wptr) (num_r : Z) (a : wptr) (num_a : Z)
| ModWord (a : bn) (w : Z)
| ModLshift1QuickCtx (r a m : bn)
| OwnModAddQuick (r a b m : bn)
| OwnModSubQuick (r a b m : bn)
| OwnModLshiftQuick (r a : bn) (n : Z) (m : bn)
| OwnModLshift1Quick (r a m : bn)
(* Montgomery *)
| ModExpBase2 (r : bn) (p : Z) (n : bn)
| MontNew
| MontCopy (to from : BN_MONT_CTX)
| MontSet (mont : BN_MONT_CTX) (m : bn)
| MontNewForModulus (m : bn)
| FromMontgomery (r a : bn) (mont : BN_MONT_CTX)
| ToMontgomery (r a : bn) (mont : BN_MONT_CTX)
| MulMontgomery (r a b : bn) (mont : BN_MONT_CTX)
| OneToMontgomery (r : bn) (mont : BN_MONT_CTX)
| FromMontgomerySmall (r : wptr) (num_r : Z) (a : wptr) (num_a : Z) (mont : BN_MONT_CTX)
| ToMontgomerySmall (r : wptr) (num_r : Z) (a : wptr) (num_a : Z) (mont : BN_MONT_CTX)
| OneToMontgomerySmall (r : wptr) (num_r : Z) (mont : BN_MONT_CTX)
| MulMontgomerySmall (r : wptr) (num_r : Z) (a : wptr) (num_a : Z) (b : wptr) (num_b : Z) (mont : BN_MONT_CTX).

(** A call on a Montgomery context, whose words are not looked at afterwards. *)
Definition with_mont (mont : BN_MONT_CTX) (m : M mont_store unit) : M ctx_store unit := fun s =>
  match m (mkMontStore mont s) with Ok _ t => Ok tt (around t) | Fail t => Fail (around t) | Stuck => Stuck end.

Section Calls.
Context `{alloc : Allocator}.
(** What a call returns is not looked at. *)
Definition run_bn_call (c : bn_call) : M ctx_store unit :=
  match c with
  | Simple o => on_store (run_op o)
  | ClearBit a n => on_store (BN_clear_bit a n)
  | MaskBits a n => on_store (BN_mask_bits a n)
  | DivWord a w => _ ← on_store (BN_div_word a w); mret tt
  | ModPow2 r a e => on_store (BN_mod_pow2 r a e)
  | NnmodPow2 r a e => on_store (BN_nnmod_pow2 r a e)
  | Dup a => _ ← on_store (BN_dup a); mret tt
  | CtxStart => BN_CTX_start
  | CtxGet => _ ← BN_CTX_get; mret tt
  | CtxEnd => BN_CTX_end
  | Mul r a b => BN_mul r a b
  | Sqr r a => BN_sqr r a
  | Div q r n d => BN_div q r n d
  | Nnmod r m d => BN_nnmod r m d
  | ModAdd r a b m => BN_mod_add r a b m
  | ModSub r a b m => BN_mod_sub r a b m
  | ModMul r a b m => BN_mod_mul r a b m
  | ModSqr r a m => BN_mod_sqr r a m
  | ModAddQuick r a b m => bn_mod_add_quick_ctx r a b m
  | ModSubQuick r a b m => bn_mod_sub_quick_ctx r a b m
  | ModLshiftQuick r a n m => bn_mod_lshift_quick_ctx r a n m
  | ModLshift r a n m => BN_mod_lshift r a n m
  | ModLshift1 r a m => BN_mod_lshift1 r a m
  | New => _ ← on_store BN_new; mret tt
  | Clear a => on_store (BN_clear a)
  | One a => on_store (BN_one a)
  | SetU64 a w => on_store (BN_set_u64 a w)
  | SetWords a ws num => on_store (bn_set_words a ws num)
  | Wexpand a words => on_store (bn_wexpand a words)
  | Expand a bits => on_store (bn_expand a bits)
  | ResizeWords a num => on_store (bn_resize_words a num)
  | MinimalWidth a => on_store (bn_set_minimal_width a)
  | SetNegative a sign => on_store (BN_set_negative a sign)
  | Bin2bn inp len ret => _ ← on_store (BN_bin2bn inp len ret); mret tt
  | Le2bn inp len ret => _ ← on_store (BN_le2bn inp len ret); mret tt
  | Words m => on_store (on_words m)
  | UaddFixed r a b => on_store (bn_uadd_fixed r a b)
  | Uadd r a b => on_store (BN_uadd r a b)
  | Usub r a b => on_store (BN_usub r a b)
  | MulFixed r a b => bn_mul_fixed r a b
  | SqrFixed r a => bn_sqr_fixed r a
  | SqrSmall r num_r a num_a => on_store (bn_sqr_small r num_r a num_a)
  | ModWord a w => _ ← on_store (BN_mod_word a w); mret tt
  | ModLshift1QuickCtx r a m => bn_mod_lshift1_quick_ctx r a m
  | OwnModAddQuick r a b m => on_store (BN_mod_add_quick r a b m)
  | OwnModSubQuick r a b m => on_store (BN_mod_sub_quick r a b m)
  | OwnModLshiftQuick r a n m => on_store (BN_mod_lshift_quick r a n m)
  | OwnModLshift1Quick r a m => on_store (BN_mod_lshift1_quick r a m)
  | ModExpBase2 r p n => bn_mod_exp_base_2_consttime r p n
  | MontNew => _ ← on_store BN_MONT_CTX_new; mret tt
  | MontCopy to from => _ ← on_store (BN_MONT_CTX_copy to from); mret tt
  | MontSet mont m => with_mont mont (BN_MONT_CTX_set m)
  | MontNewForModulus m => _ ← BN_MONT_CTX_new_for_modulus m; mret tt
  | FromMontgomery r a mont => BN_from_montgomery r a mont
  | ToMontgomery r a mont => BN_to_montgomery r a mont
  | MulMontgomery r a b mont => BN_mod_mul_montgomery r a b mont
  | OneToMontgomery r mont => bn_one_to_montgomery r mont
  | FromMontgomerySmall r num_r a num_a mont => on_store (bn_from_montgomery_small r num_r a num_a mont)
  | ToMontgomerySmall r num_r a num_a mont => on_store (bn_to_montgomery_small r num_r a num_a mont)
  | OneToMontgomerySmall r num_r mont => on_store (bn_one_to_montgomery_small r num_r mont)
  | MulMontgomerySmall r num_r a num_a b num_b mont => on_store (bn_mod_mul_montgomery_small r num_r a num_a b num_b mont)
  end.
Fixpoint run_bn_calls (cs : list bn_call) : M ctx_store unit :=
  match cs with [] => mret tt | c :: cs => _ ← succeeds (run_bn_call c); run_bn_calls cs end.

Lemma flags_run_op o : always flags_kept (run_op o).
Proof. destruct o; cbn [run_op]; always. Qed.
(** The numbers of a context that is made for a call go with it. *)
Lemma flags_with_ctx {A} (m : M ctx_store A) : always ctx_flags_kept m -> always flags_kept (with_ctx m).
Proof.
  intros Hm s. unfold with_ctx, BN_CTX_new, on_heap, zoom. destruct (OPENSSL_malloc _ _) as [[p|] h|h|]; cbn; [|by apply flags_same..|done].
  set (c := mkCtxStore _ _ _). specialize (Hm c). unfold ctx_flags_kept in Hm. cbn [store c] in Hm.
  destruct (m c) as [a t|t|]; [| |done]; destruct Hm as (more & E & _); apply flags_same; cbn [nums] in *;
    rewrite fmap_take, E; by rewrite take_app_length' by (by rewrite length_fmap).
Qed.

(** A context that is set. *)
Definition mont_flags_kept (s s' : mont_store) : Prop := ctx_flags_kept (around s) (around s').
#[local] Instance mont_flags_kept_preorder : PreOrder mont_flags_kept.
Proof. split; [intros s; unfold mont_flags_kept; reflexivity|]. intros s1 s2 s3. unfold mont_flags_kept. by etransitivity. Qed.
Lemma flags_on_ctx {A} (m : M ctx_store A) : always ctx_flags_kept m -> always mont_flags_kept (on_ctx m).
Proof. intros Hm s. unfold on_ctx, zoom. specialize (Hm (around s)). by destruct (m (around s)). Qed.
Lemma flags_mont_modify (f : mont_store -> mont_store) : (forall s, around (f s) = around s) -> always mont_flags_kept (modify f).
Proof. intros H s. cbn. unfold mont_flags_kept. rewrite H. reflexivity. Qed.
#[local] Hint Resolve flags_with_ctx flags_on_ctx flags_with_array : always.
#[local] Hint Extern 3 (always _ (on_store _)) => (apply flags_on_store; solve [always]) : always.
#[local] Hint Extern 3 (always _ (on_ctx _)) => (apply flags_on_ctx; solve [always]) : always.
#[local] Hint Extern 3 (always _ (with_ctx _)) => (apply flags_with_ctx; solve [always]) : always.
#[local] Hint Extern 3 (always _ (with_array _ _)) => (apply flags_with_array; intros; solve [always]) : always.
#[local] Hint Extern 1 (always _ (bn_alloc _ _)) => (by apply flags_alloc) : always.
#[local] Hint Extern 1 (always _ (modify _)) => (by apply flags_mont_modify) : always.

Lemma flags_new : always flags_kept BN_new.
Proof. unfold BN_new. always. Qed.
#[local] Hint Resolve flags_new : always.
Lemma flags_bin2bn inp len ret : always flags_kept (BN_bin2bn inp len ret).
Proof. unfold BN_bin2bn, bin2bn_turn. always. Qed.
Lemma flags_le2bn inp len ret : always flags_kept (BN_le2bn inp len ret).
Proof. unfold BN_le2bn. always. Qed.
Lemma flags_sqr_small r num_r a num_a : always flags_kept (bn_sqr_small r num_r a num_a).
Proof. unfold bn_sqr_small. always. Qed.
Lemma flags_base_2 r p n : always ctx_flags_kept (bn_mod_exp_base_2_consttime r p n).
Proof. unfold bn_mod_exp_base_2_consttime, BN_is_negative, BN_is_odd. always. Qed.
Lemma flags_mont_new : always flags_kept BN_MONT_CTX_new.
Proof. unfold BN_MONT_CTX_new. always. Qed.
Lemma flags_mont_n0 n : always flags_kept (bn_mont_n0 n).
Proof. unfold bn_mont_n0, BN_is_negative, BN_is_odd, bn_neg_inv_mod_r_u64, neg_inv_turn. always. Qed.
#[local] Hint Resolve flags_sqr_small flags_base_2 flags_mont_new flags_mont_n0 : always.
Lemma flags_mont_set m : always mont_flags_kept (BN_MONT_CTX_set m).
Proof. unfold BN_MONT_CTX_set, mont_set_modulus, BN_is_negative, BN_is_odd. always. Qed.
Lemma flags_with_mont mont m : always ctx_flags_kept (with_mont mont (BN_MONT_CTX_set m)).
Proof. intros s. unfold with_mont. pose proof (flags_mont_set m (mkMontStore mont s)) as H. by destruct (BN_MONT_CTX_set m _). Qed.
Lemma flags_new_for_modulus m : always ctx_flags_kept (BN_MONT_CTX_new_for_modulus m).
Proof.
  intros s. unfold BN_MONT_CTX_new_for_modulus. pose proof (flags_on_store _ flags_mont_new s) as H. destruct (on_store BN_MONT_CTX_new s) as [mont s1|s1|]; [|done..].
  pose proof (flags_mont_set m (mkMontStore mont s1)) as H1. unfold mont_flags_kept in H1. destruct (BN_MONT_CTX_set m _); [by etransitivity..|done].
Qed.
Lemma flags_from_montgomery r a mt : always ctx_flags_kept (BN_from_montgomery r a mt).
Proof. unfold BN_from_montgomery. always. Qed.
Lemma flags_mul_montgomery r a b mt : always ctx_flags_kept (BN_mod_mul_montgomery r a b mt).
Proof. unfold BN_mod_mul_montgomery, bn_mod_mul_montgomery_fallback. always. Qed.
#[local] Hint Resolve flags_from_montgomery : always.
Lemma flags_one_to_montgomery r mt : always ctx_flags_kept (bn_one_to_montgomery r mt).
Proof. unfold bn_one_to_montgomery, has_high_bit. always. Qed.
Lemma flags_from_small r num_r a num_a mt : always flags_kept (bn_from_montgomery_small r num_r a num_a mt).
Proof. unfold bn_from_montgomery_small, bn_from_montgomery_in_place. always. Qed.
Lemma flags_mul_small r num_r a num_a b num_b mt : always flags_kept (bn_mod_mul_montgomery_small r num_r a num_a b num_b mt).
Proof. unfold bn_mod_mul_montgomery_small, bn_from_montgomery_in_place. always. Qed.
#[local] Hint Resolve flags_from_small flags_mul_small : always.

Lemma flags_call c : always ctx_flags_kept (run_bn_call c).
Proof.
  assert (Hdrop : forall A (m : M ctx_store A), always ctx_flags_kept m -> always ctx_flags_kept (_ ← m; mret tt)) by (intros A m Hm; apply always_bind; [apply _|exact Hm|intros; apply always_ret, _]).
  destruct c; cbn [run_bn_call]; try apply Hdrop; try apply flags_on_store;
    try first [apply flags_run_op|apply flags_clear_bit|apply flags_mask_bits|apply flags_div_word|apply flags_mod_pow2|apply flags_nnmod_pow2|apply flags_dup|apply flags_CTX_start|apply flags_CTX_get|apply flags_CTX_end
      |apply flags_mul|apply flags_sqr|apply flags_div|apply flags_nnmod|apply flags_mod_add|apply flags_mod_sub|apply flags_mod_mul|apply flags_mod_sqr|apply flags_mod_quick|apply flags_mod_lshift_quick|apply flags_mod_lshift|apply flags_mod_lshift1
      |apply flags_bin2bn|apply flags_le2bn|apply flags_with_mont|apply flags_new_for_modulus|apply flags_mul_montgomery|apply flags_one_to_montgomery];
    unfold BN_clear, BN_one, BN_set_u64, bn_set_words, bn_expand, bn_uadd_fixed, bn_mod_lshift1_quick_ctx, bn_mod_add_quick_ctx, BN_mod_add_quick, BN_mod_sub_quick, BN_mod_lshift_quick, BN_mod_lshift1_quick,
      bn_mod_lshift1_quick_ctx, bn_mod_add_quick_ctx, bn_mod_sub_quick_ctx, BN_MONT_CTX_copy, bn_one_to_montgomery_small, has_high_bit, bn_to_montgomery_small; always.
Qed.

(** C35. Whoever owns the words of a number goes on owning them: after any of the calls listed in [bn_call], which are all the
    modelled ones that change numbers, in any order, with any arguments, and whether they succeed or fail, every number is
    still there with the flags it had ([BN_FLG_MALLOCED], [BN_FLG_STATIC_DATA]), and no number that was added has static
    words, the temporary [BN_value_one()] of BN_nnmod_pow2 being gone. Nothing is said of calls that do not return because
    an argument is not a number at all. *)
Theorem BN_calls_keep_flags cs s :
  match run_bn_calls cs s with Ok _ s' | Fail s' => ctx_flags_kept s s' | Stuck => True end.
Proof.
  revert s. assert (H : always ctx_flags_kept (run_bn_calls cs)); [|exact H]. induction cs as [|c cs IH]; cbn [run_bn_calls]; [apply always_ret, _|].
  apply always_bind; [apply _|apply always_succeeds, flags_call|intros; exact IH].
Qed.
End Calls.

(** * Witnesses *)

#[local] Existing Instance plenty.

(** The numbers -7, -2, and two without words. *)
Definition ex_div : bn_store :=
  mkStore [mkBN 1 2 true BN_FLG_MALLOCED; mkBN 1 2 true BN_FLG_MALLOCED; mkBN 0 2 false BN_FLG_MALLOCED; mkBN 0 2 false BN_FLG_MALLOCED] [[7; 0]; [2; 0]; [0; 0]; [0; 0]] 0%nat.
Lemma new_live st x : (x < length (nums st))%nat -> live (new_ctx st) [] x.
Proof. intros Hx. split; [done|]. unfold unused. cbn. rewrite drop_nil. apply not_elem_of_nil. Qed.
Lemma ex_div_0 : shows ex_div 0%nat true [7].
Proof. by apply (ex_shows _ _ (mkBN 1 2 true BN_FLG_MALLOCED) [7; 0]). Qed.
Lemma ex_div_1 : shows ex_div 1%nat true [2].
Proof. by apply (ex_shows _ _ (mkBN 1 2 true BN_FLG_MALLOCED) [2; 0]). Qed.
Lemma ex_div_2 : shows ex_div 2%nat false [].
Proof. by apply (ex_shows _ _ (mkBN 0 2 false BN_FLG_MALLOCED) [0; 0]). Qed.
Lemma ex_div_3 : shows ex_div 3%nat false [].
Proof. by apply (ex_shows _ _ (mkBN 0 2 false BN_FLG_MALLOCED) [0; 0]). Qed.
Lemma ex_holds_0 : holds ex_div 0%nat (-7).
Proof. exists true, [7]. split; [apply ex_div_0|by split]. Qed.
Lemma ex_holds_1 : holds ex_div 1%nat (-2).
Proof. exists true, [2]. split; [apply ex_div_1|by split]. Qed.

Lemma BN_div_exact_witness :
  wp (BN_div (Some 2%nat) (Some 3%nat) 0%nat 1%nat)
    (fun _ s' => -2 <> 0 /\ exists bl', restored (new_ctx ex_div) [] [] [2%nat; 3%nat] s' bl' /\
       (forall q, Some 2%nat = Some q -> holds (store s') q (Z.quot (-7) (-2))) /\ (forall r, Some 3%nat = Some r -> holds (store s') r (Z.rem (-7) (-2))))
    (fun s' => -2 = 0 /\ s' = new_ctx ex_div \/ -2 <> 0 /\ exists bl', restored (new_ctx ex_div) [] [] [2%nat; 3%nat] s' bl' /\ refused (new_ctx ex_div) [] (1 + 1)) (new_ctx ex_div).
Proof.
  apply (BN_div_exact (new_ctx ex_div) [] [] (Some 2%nat) (Some 3%nat) 0%nat 1%nat (-7) (-2) 1 1).
  - by apply new_ctx_ok.
  - done.
  - done.
  - apply new_live. cbn. lia.
  - apply new_live. cbn. lia.
  - apply Forall_cons_2; [|apply Forall_cons_2; [|apply Forall_nil_2]]; apply new_live; cbn; lia.
  - exists true, [7]. split; [apply ex_div_0|by split_and!].
  - exists true, [2]. split; [apply ex_div_1|by split_and!].
  - apply Forall_cons_2; [eapply roomy_shows, ex_div_2|apply Forall_cons_2; [eapply roomy_shows, ex_div_3|apply Forall_nil_2]].
  - by intros q [= <-].
Defined.

Lemma BN_div_in_place_remainder_witness :
  wp (BN_div (Some 0%nat) (Some 3%nat) 0%nat 1%nat)
    (fun _ s' => -2 <> 0 /\ exists bl', restored (new_ctx ex_div) [] [] [0%nat; 3%nat] s' bl' /\ holds (store s') 0%nat (Z.quot (-7) (-2)) /\ holds (store s') 3%nat (- Z.rem (-7) (-2)))
    (fun s' => -2 = 0 /\ s' = new_ctx ex_div \/ -2 <> 0 /\ exists bl', restored (new_ctx ex_div) [] [] [0%nat; 3%nat] s' bl' /\ refused (new_ctx ex_div) [] (1 + 1)) (new_ctx ex_div).
Proof.
  apply (BN_div_in_place_remainder (new_ctx ex_div) [] [] 3%nat 0%nat 1%nat (-7) (-2)).
  - by apply new_ctx_ok.
  - done.
  - done.
  - apply new_live. cbn. lia.
  - apply new_live. cbn. lia.
  - apply new_live. cbn. lia.
  - done.
  - apply ex_holds_0.
  - apply ex_holds_1.
  - eapply roomy_shows, ex_div_3.
Defined.

Lemma BN_small_divisions_exact_witness :
  wp (BN_mod_word 0%nat 4) (fun d s' => s' = ex_div /\ d = 3) (fun _ => False) ex_div /\
  wp (BN_nnmod_pow2 3%nat 0%nat 2) (fun _ => sets 3%nat 1 ex_div) (fun s' => others 3%nat ex_div s' /\ roomy s' 3%nat 0 /\ no_room 2 ex_div) ex_div.
Proof.
  destruct (BN_small_divisions_exact ex_div 3%nat 0%nat (-7) 4 2) as (H1 & _ & _ & H4).
  - done.
  - apply ex_holds_0.
  - eapply roomy_shows, ex_div_3.
  - done.
  - done.
  - split; [exact H1|exact H4].
Defined.
