(* ===== verification/BnModThms.v ===== *)
(** The contract of the modular operations of the bignums: integers modulo the modulus; and what
    the versions for reduced numbers do. *)
From S2P Require Import Prelude Mem Ct BnWords BnWordsFacts Bn BnFacts BnCmp BnAddFacts BnArith BnTests BnMul BnCtx BnCtxFacts BnMulCtx BnFrames BnCtxThms BnDiv BnFlags BnDivNums BnModFacts BnQuickFacts BnPrograms BnDivThms.

(** * Programs of modular operations *)

(** The operations with a remainder that is not negative, but for the modulus, which is the same for all. *)
Inductive mod_op : Type :=
| Reduce (r a : bn)
| Plus (r a b : bn)
| Minus (r a b : bn)
| Times (r a b : bn)
| Square (r a : bn)
| Double (r a : bn)
| Shift (r a : bn) (n : Z).

Definition mod_target (o : mod_op) : bn :=
  match o with Reduce r _ | Plus r _ _ | Minus r _ _ | Times r _ _ | Square r _ | Double r _ | Shift r _ _ => r end.
Definition mod_value (f : env) (o : mod_op) : Z :=
  match o with
  | Reduce _ a => f !!! a
  | Plus _ a b => f !!! a + f !!! b
  | Minus _ a b => f !!! a - f !!! b
  | Times _ a b => f !!! a * f !!! b
  | Square _ a => f !!! a * f !!! a
  | Double _ a => 2 * f !!! a
  | Shift _ a n => 2 ^ n * f !!! a
  end.
(** In Z/pZ, with the representatives from 0 to p - 1. *)
Definition eval_mod (p : Z) (f : env) (o : mod_op) : env := <[mod_target o := mod_value f o mod p]> f.
Definition eval_mods (p : Z) (os : list mod_op) (f : env) : env := foldl (eval_mod p) f os.

(** All names are there. *)
Definition mod_ok (f : env) (o : mod_op) : Prop :=
  match o with
  | Reduce r a | Square r a | Double r a => is_Some (f !! r) /\ is_Some (f !! a)
  | Plus r a b | Minus r a b | Times r a b => is_Some (f !! r) /\ is_Some (f !! a) /\ is_Some (f !! b)
  | Shift r a n => is_Some (f !! r) /\ is_Some (f !! a) /\ 0 <= n
  end.
(** The words an operation may need. *)
Definition mod_need (s : bn_store) (m : bn) (o : mod_op) : Z :=
  match o with
  | Reduce _ a => words_of s a + words_of s m
  | Plus _ a b | Minus _ a b => Z.max (words_of s a) (words_of s b) + 1 + words_of s m
  | Times _ a b => words_of s a + words_of s b + words_of s m + 1
  | Square _ a => 2 * words_of s a + words_of s m
  | Double _ a => words_of s a + 1 + words_of s m
  | Shift _ a _ => words_of s a + words_of s m + 1
  end.

Section Programs.
Context `{alloc : Allocator}.

Definition run_mod_op (m : bn) (o : mod_op) : M ctx_store unit :=
  match o with
  | Reduce r a => BN_nnmod r a m
  | Plus r a b => BN_mod_add r a b m
  | Minus r a b => BN_mod_sub r a b m
  | Times r a b => BN_mod_mul r a b m
  | Square r a => BN_mod_sqr r a m
  | Double r a => BN_mod_lshift1 r a m
  | Shift r a n => BN_mod_lshift r a n m
  end.
Definition run_mod_ops (m : bn) : list mod_op -> M ctx_store unit := run_all (run_mod_op m).

(** A state to compute in, with the modulus [v] in [m]. *)
Definition ready (s : ctx_store) (bl : list bn) (fr : list Z) (m : bn) (v : Z) : Prop :=
  ctx_ok s bl fr /\ spacious s 5 /\ zlen fr < 2 ^ 30 - 1 /\ err_stack (ctx s) < 2 ^ 31 - 2 /\ live s bl m /\ holds (store s) m v.

Lemma ready_set s bl fr m v r s' bl' : ready s bl fr m v -> r <> m -> restored s bl fr [r] s' bl' -> ready s' bl' fr m v.
Proof.
  intros (Hok & Hsp & H1 & H2 & Hl & Hv) Hne Hres. pose proof Hres as (Hok' & _ & _ & He & _). split; [done|]. split; [by eapply (restored_spacious s bl)|]. split; [done|]. split; [by rewrite He|]. split; [by eapply (restored_live s bl)|].
  eapply (restored_holds s bl); [exact Hres|done|rewrite list_elem_of_singleton; congruence|done].
Qed.
Lemma mod_ok_eval p f o o' : mod_ok f o' -> mod_ok (eval_mod p f o) o'.
Proof. assert (H : forall x, is_Some (f !! x) -> is_Some (eval_mod p f o !! x)) by (intros x Hx; apply lookup_insert_is_Some; by destruct (decide (mod_target o = x)); [left|right]). destruct o'; cbn; naive_solver. Qed.
Lemma mod_ok_target f o : mod_ok f o -> is_Some (f !! mod_target o).
Proof. by destruct o; intros []. Qed.

Lemma run_mod_op_spec s bl fr m v f o :
  ready s bl fr m v -> f !! m = None -> means s bl f -> mod_ok f o ->
  wp (run_mod_op m o) (fun _ s' => v <> 0 /\ exists bl', restored s bl fr [mod_target o] s' bl' /\ means s' bl' (eval_mod (Z.abs v) f o))
    (mod_failed v s bl fr (mod_target o) (mod_need (store s) m o)) s.
Proof.
  intros (Hok & Hsp & H1 & H2 & Hlm & Hv) Hm Hf Ho. assert (H30 : nestable s fr) by (unfold nestable; lia). assert (Hsp4 : spacious s 4) by (unfold spacious in *; lia).
  assert (Hget : forall x, is_Some (f !! x) -> live s bl x /\ x <> m /\ holds (store s) x (f !!! x) /\ roomy (store s) x 0).
  { intros x Hx. destruct (means_get _ _ _ _ Hf Hx). split_and!; [done|intros ->; by rewrite Hm in Hx; destruct Hx|done|by eapply holds_roomy]. }
  pose proof (Hget _ (mod_ok_target _ _ Ho)) as (Hlr & Hne & _ & Hrr).
  assert (Hend : forall c : M ctx_store unit, wp c (fun _ => mod_done v (mod_value f o) s bl fr (mod_target o)) (mod_failed v s bl fr (mod_target o) (mod_need (store s) m o)) s ->
    wp c (fun _ s' => v <> 0 /\ exists bl', restored s bl fr [mod_target o] s' bl' /\ means s' bl' (eval_mod (Z.abs v) f o)) (mod_failed v s bl fr (mod_target o) (mod_need (store s) m o)) s).
  { intros c Hc. eapply wp_mono; [exact Hc| |done]. intros [] s' (Hv0 & bl' & Hres & Hz). split; [done|]. exists bl'. split; [done|]. eapply means_set; try done. by apply mod_ok_target. }
  apply Hend. destruct o; cbn [mod_ok mod_target mod_value mod_need run_mod_op] in *; destruct_and?;
    repeat match goal with H : is_Some (f !! ?x) |- _ => destruct (Hget x H) as (? & ? & ? & ?); clear H end.
  - wp_call BN_nnmod_spec; [exact Hok|exact Hsp4|exact H30|exact Hlr|eassumption|exact Hlm|done|eassumption|exact Hv|exact Hrr|done|].
    intros s' [[-> ->]|(Hv0 & bl' & Hres & Hrf)]; [exists bl; split; [by apply restored_refl|by left]|exists bl'; split; [done|by right]].
  - by apply BN_mod_add_spec.
  - by apply BN_mod_sub_spec.
  - by apply BN_mod_mul_spec.
  - by apply BN_mod_sqr_spec.
  - by apply BN_mod_lshift1_spec.
  - by apply BN_mod_lshift_spec.
Qed.

(** A program stops at its operation [o]: all numbers but the one that [o] sets are those computed so far. *)
Definition mod_stops (m : bn) (v : Z) (os : list mod_op) (f : env) (s : ctx_store) (bl : list bn) (fr : list Z) (s' : ctx_store) : Prop :=
  exists dn o rest bl', os = dn ++ o :: rest /\ restored s bl fr (map mod_target (dn ++ [o])) s' bl' /\
    (forall x z, x <> mod_target o -> eval_mods (Z.abs v) dn f !! x = Some z -> holds (store s') x z) /\
    (v = 0 \/ exists s1 bl1, restored s bl fr (map mod_target dn) s1 bl1 /\ means s1 bl1 (eval_mods (Z.abs v) dn f) /\ refused s1 fr (mod_need (store s1) m o)).

Lemma eval_mods_all p os f : eval_all (fun f o => Some (eval_mod p f o)) f os = Some (eval_mods p os f).
Proof. revert f. induction os as [|o os IH]; intros f; [done|]. cbn [eval_all]. apply IH. Qed.
Lemma run_mod_ops_spec os s bl fr m v f :
  ready s bl fr m v -> f !! m = None -> means s bl f -> Forall (mod_ok f) os ->
  wp (run_mod_ops m os)
    (fun _ s' => (os = [] \/ v <> 0) /\ exists bl', restored s bl fr (map mod_target os) s' bl' /\ means s' bl' (eval_mods (Z.abs v) os f) /\ holds (store s') m v)
    (mod_stops m v os f s bl fr) s.
Proof.
  intros Hrdy Hm Hf Hall. set (inv := fun s bl f1 => ready s bl fr m v /\ f1 !! m = None /\ means s bl f1 /\ (forall o, mod_ok f o -> mod_ok f1 o)).
  eapply wp_mono; [apply (run_all_spec mod_target (run_mod_op m) id (fun f o => Some (eval_mod (Z.abs v) f o)) fr inv (mod_ok f) (fun s o => v = 0 \/ refused s fr (mod_need (store s) m o)) (v <> 0))|..]; cbv beta.
  - by intros s1 bl1 f1 [[? _] _].
  - by intros s1 bl1 f1 (_ & _ & ? & _).
  - intros s1 bl1 f1 o f2 (Hrdy1 & Hm1 & Hf1 & Ho1) Ho [= <-]. specialize (Ho1 o Ho) as Ho2. eapply wp_mono; [by apply run_mod_op_spec| |by intros s2 (bl2 & ? & ?); exists bl2].
    assert (Hne : mod_target o <> m) by (intros E; apply mod_ok_target in Ho2; rewrite E, Hm1 in Ho2; by destruct Ho2).
    intros [] s2 (Hv0 & bl2 & Hres & Hf2). split; [done|]. exists bl2. split; [done|]. split; [by eapply ready_set|]. split; [unfold eval_mod; by rewrite lookup_insert_ne|]. split; [done|]. intros o' Ho'. by apply mod_ok_eval, Ho1.
  - done.
  - exact Hall.
  - apply eval_mods_all.
  - intros [] s' (Hv & bl' & Hres & (_ & _ & _ & _ & _ & Hmv) & _ & Hf' & _). split; [done|]. by exists bl'.
  - intros s' (dn & o & rest & f1 & bl' & -> & Ef & Hres & Hz & s1 & bl1 & H1 & Hf1 & Hwhy). rewrite eval_mods_all in Ef. injection Ef as <-. exists dn, o, rest, bl'. split; [done|]. split; [done|]. split; [done|].
    destruct Hwhy as [?|?]; [by left|right]. by exists s1, bl1.
Qed.
End Programs.

Section Thms.
Context `{alloc : Allocator}.

(** C10. Refinement: the operations modulo a number compute in the ring of integers modulo its absolute value. A program
    of BN_nnmod, BN_mod_add, BN_mod_sub, BN_mod_mul, BN_mod_sqr, BN_mod_lshift1 and BN_mod_lshift, whatever the sizes and signs
    of the numbers and in place or not, ends with the numbers the program has there, all from 0 to the modulus, which
    is unchanged like every number that is not set; no frame is left open. It stops, with the numbers computed so far, only for a zero modulus, or
    where memory or the words a number may have do not suffice for the operands. *)
Theorem BN_mod_refines_ring os s bl fr m v f :
  ready s bl fr m v -> f !! m = None -> means s bl f -> Forall (mod_ok f) os ->
  wp (run_mod_ops m os)
    (fun _ s' => (os = [] \/ v <> 0) /\ exists bl', restored s bl fr (map mod_target os) s' bl' /\ means s' bl' (eval_mods (Z.abs v) os f) /\ holds (store s') m v)
    (mod_stops m v os f s bl fr) s.
Proof. apply run_mod_ops_spec. Qed.

(** C39. bn_mod_add_quick_ctx and bn_mod_sub_quick_ctx on numbers whose absolute values are less than that of the modulus, padded with
    zeros or not, in place or not: as many words as the modulus has, with the sum or difference modulo it, by words that do not depend on
    the values. The sign of the result is not set: it stays that of the number there was, so that the
    sum in place of a negative number is negated. The scratch numbers are given back. *)
Theorem quick_sums_keep_sign s bl fr r a b m na nb nm ngr la lb lm lr :
  ctx_ok s bl fr -> spacious s 3 -> nestable s fr -> live s bl r -> live s bl a -> live s bl b -> live s bl m -> r <> m ->
  shows (store s) a na la -> shows (store s) b nb lb -> shows (store s) m nm lm -> shows (store s) r ngr lr -> val la < val lm -> val lb < val lm ->
  let ends z s' := exists bl' l, restored s bl fr [r] s' bl' /\ shows (store s') r ngr l /\ zlen l = zlen lm /\ val l = z in
  let fails s' := exists bl', restored s bl fr [r] s' bl' /\ refused s fr (zlen lm + 1) in
  wp (bn_mod_add_quick_ctx r a b m) (fun _ => ends ((val la + val lb) mod val lm)) fails s /\
  wp (bn_mod_sub_quick_ctx r a b m) (fun _ => ends ((val la - val lb) mod val lm)) fails s.
Proof.
  intros Hok Hsp H30 Hlr Hla Hlb Hlm Hne Hsa Hsb Hsm Hsr Ham Hbm ends fails.
  split; (eapply wp_mono; [eapply mod_quick_spec; try done; [apply add_modular || apply sub_modular|..]; done| |done]; intros [] s' (bl' & Hres & l & Hl); by exists bl', l).
Qed.

(** C15. BN_mod_add_quick, BN_mod_sub_quick, BN_mod_lshift_quick and BN_mod_lshift1_quick, which make a context of their own, on
    numbers from 0 to the modulus, give what BN_mod_add, BN_mod_sub, BN_mod_lshift and BN_mod_lshift1 would,
    where the number that is set was not negative (BN_mod_lshift_quick for any number). Nothing else
    changes, and no number is left behind. *)
Theorem quick_calls_exact st r a b m n u w v z :
  aligned st -> r <> m -> holds st a u -> holds st b w -> holds st m v -> holds st r z -> 0 <= u < v -> 0 <= w < v -> 0 <= n ->
  (0 <= z ->
     wp (BN_mod_add_quick r a b m) (fun _ => sets r ((u + w) mod v) st) (call_failed st r (words_of st m + 1)) st /\
     wp (BN_mod_sub_quick r a b m) (fun _ => sets r ((u - w) mod v) st) (call_failed st r (words_of st m + 1)) st /\
     wp (BN_mod_lshift1_quick r a m) (fun _ => sets r (2 * u mod v) st) (call_failed st r (words_of st m + 1)) st) /\
  wp (BN_mod_lshift_quick r a n m) (fun _ => sets r (2 ^ n * u mod v) st) (call_failed st r (copy_need r a st + words_of st m + 1)) st.
Proof.
  intros Hal Hne Hu Hw Hv Hz Bu Bw Hn. split; [|apply lshift_call_spec; try done; by eapply holds_roomy]. intros Bz. split; [|split].
  - by eapply (quick_call_spec _ _ _ _ _ _ _ _ _ _ _ add_modular).
  - by eapply (quick_call_spec _ _ _ _ _ _ _ _ _ _ _ sub_modular).
  - rewrite <- Z.add_diag. by eapply (quick_call_spec _ _ _ _ _ _ _ _ _ _ _ add_modular).
Qed.
End Thms.

(** * Witnesses *)

#[local] Existing Instance plenty.

(** The numbers 5, 3, 0 and the modulus -7, and the same with the modulus 7 and the result -2. *)
Definition ex_small (z0 : Z) (ng0 : bool) (ngm : bool) : bn_store :=
  mkStore [mkBN 1 2 false BN_FLG_MALLOCED; mkBN 1 2 false BN_FLG_MALLOCED; mkBN z0 2 ng0 BN_FLG_MALLOCED; mkBN 1 2 ngm BN_FLG_MALLOCED] [[5; 0]; [3; 0]; [2 * z0; 0]; [7; 0]] 0%nat.
Definition ex_mod : bn_store := ex_small 0 false true.
Definition ex_quick : bn_store := ex_small 1 true false.
Definition ex_quick0 : bn_store := ex_small 0 false false.
Definition ex_program : list mod_op := [Plus 2 0 1; Times 0 2 1; Minus 1 1 0; Shift 2 1 3].
Definition ex_env : env := {[0%nat := 5; 1%nat := 3; 2%nat := 0]}.

Lemma ex_small_0 z0 ng0 ngm : shows (ex_small z0 ng0 ngm) 0%nat false [5].
Proof. by apply (ex_shows _ _ (mkBN 1 2 false BN_FLG_MALLOCED) [5; 0]). Qed.
Lemma ex_small_1 z0 ng0 ngm : shows (ex_small z0 ng0 ngm) 1%nat false [3].
Proof. by apply (ex_shows _ _ (mkBN 1 2 false BN_FLG_MALLOCED) [3; 0]). Qed.
Lemma ex_small_3 z0 ng0 ngm : shows (ex_small z0 ng0 ngm) 3%nat ngm [7].
Proof. by apply (ex_shows _ _ (mkBN 1 2 ngm BN_FLG_MALLOCED) [7; 0]). Qed.
Lemma ex_small_2 ngm : shows (ex_small 0 false ngm) 2%nat false [].
Proof. by apply (ex_shows _ _ (mkBN 0 2 false BN_FLG_MALLOCED) [0; 0]). Qed.
Lemma ex_quick_2 : shows ex_quick 2%nat true [2].
Proof. by apply (ex_shows _ _ (mkBN 1 2 true BN_FLG_MALLOCED) [2; 0]). Qed.

Lemma BN_mod_refines_ring_witness :
  wp (run_mod_ops 3%nat ex_program)
    (fun _ s' => (ex_program = [] \/ -7 <> 0) /\ exists bl', restored (new_ctx ex_mod) [] [] [2%nat; 0%nat; 1%nat; 2%nat] s' bl' /\
       means s' bl' (eval_mods 7 ex_program ex_env) /\ holds (store s') 3%nat (-7))
    (mod_stops 3%nat (-7) ex_program ex_env (new_ctx ex_mod) [] []) (new_ctx ex_mod) /\
  map (fun x => eval_mods 7 ex_program ex_env !!! x) [0%nat; 1%nat; 2%nat] = [3; 0; 0].
Proof.
  split; [|by vm_compute]. apply (BN_mod_refines_ring ex_program (new_ctx ex_mod) [] [] 3%nat (-7) ex_env).
  - split; [by apply new_ctx_ok|]. split; [done|]. split; [done|]. split; [done|]. split; [apply new_live; cbn; lia|]. exists true, [7]. split; [apply ex_small_3|by split].
  - done.
  - intros x z. unfold ex_env. rewrite !lookup_insert_Some, lookup_singleton_Some. intros [[<- <-]|[_ [[<- <-]|[_ [<- <-]]]]]; (split; [apply new_live; cbn; lia|]).
    + apply (holds_pos _ _ [5]), ex_small_0.
    + apply (holds_pos _ _ [3]), ex_small_1.
    + apply (holds_pos _ _ []), ex_small_2.
  - assert (H0 : is_Some (ex_env !! 0%nat)) by by exists 5. assert (H1 : is_Some (ex_env !! 1%nat)) by by exists 3. assert (H2 : is_Some (ex_env !! 2%nat)) by by exists 0.
    by apply Forall_cons_2; [|apply Forall_cons_2; [|apply Forall_cons_2; [|apply Forall_cons_2; [|apply Forall_nil_2]]]].
Defined.

(** 5 + 3 modulo 7, in place of the number -2: the result is -1. *)
Lemma quick_sums_keep_sign_witness :
  wp (bn_mod_add_quick_ctx 2%nat 0%nat 1%nat 3%nat)
    (fun _ s' => exists bl' l, restored (new_ctx ex_quick) [] [] [2%nat] s' bl' /\ shows (store s') 2%nat true l /\ zlen l = 1 /\ val l = 1)
    (fun s' => exists bl', restored (new_ctx ex_quick) [] [] [2%nat] s' bl' /\ refused (new_ctx ex_quick) [] 2) (new_ctx ex_quick).
Proof.
  destruct (quick_sums_keep_sign (new_ctx ex_quick) [] [] 2%nat 0%nat 1%nat 3%nat false false false true [5] [3] [7] [2]) as [H _].
  - by apply new_ctx_ok.
  - done.
  - done.
  - apply new_live. cbn. lia.
  - apply new_live. cbn. lia.
  - apply new_live. cbn. lia.
  - apply new_live. cbn. lia.
  - done.
  - apply ex_small_0.
  - apply ex_small_1.
  - apply ex_small_3.
  - apply ex_quick_2.
  - done.
  - done.
  - exact H.
Defined.

Lemma quick_calls_exact_witness :
  wp (BN_mod_sub_quick 2%nat 1%nat 0%nat 3%nat) (fun _ => sets 2%nat 5 ex_quick0) (call_failed ex_quick0 2%nat 2) ex_quick0 /\
  wp (BN_mod_lshift_quick 2%nat 1%nat 4 3%nat) (fun _ => sets 2%nat 6 ex_quick0) (call_failed ex_quick0 2%nat 3) ex_quick0.
Proof.
  destruct (quick_calls_exact ex_quick0 2%nat 1%nat 0%nat 3%nat 4 3 5 7 0) as [H1 H2].
  - done.
  - done.
  - apply (holds_pos _ _ [3]), ex_small_1.
  - apply (holds_pos _ _ [5]), ex_small_0.
  - apply (holds_pos _ _ [7]), ex_small_3.
  - apply (holds_pos _ _ []), ex_small_2.
  - done.
  - done.
  - done.
  - destruct (H1 ltac:(lia)) as (_ & H3 & _). split; [exact H3|exact H2].
Defined.
