(* ===== verification/BnMontThms.v ===== *)
(** The contract of Montgomery contexts: how one is set, and integers modulo its modulus. *)
From S2P Require Import Prelude Mem Ct BnWords BnWordsFacts Bn BnFacts BnCmp BnAddFacts BnArith BnTests BnMul BnCtx BnCtxFacts BnMulCtx BnFrames BnCtxThms BnDiv BnFlags BnDivNums BnModFacts BnQuickFacts BnPrograms BnMont BnMontNums BnMontForm BnMontSet BnDivThms.

(** * Programs in the Montgomery form *)

(** The calls, but for the context, which is the same for all. *)
Inductive mont_op : Type :=
| ToMont (r a : bn)
| FromMont (r a : bn)
| MontTimes (r a b : bn)
| MontOne (r : bn).
Definition mont_target (o : mont_op) : bn := match o with ToMont r _ | FromMont r _ | MontTimes r _ _ | MontOne r => r end.

(** What a number stands for: itself, or the residue [z] in its Montgomery form. *)
Inductive form : Type :=
| Plain (z : Z)
| Mont (z : Z).
Definition held (v k : Z) (w : form) : Z := match w with Plain z => z | Mont z => (z * BASE ^ k) mod v end.

(** In Z/vZ. Numbers as they are may have the words of the modulus; a product with one of the factors in the Montgomery form is
    a number as it is. Residues are not to be mistaken for numbers. *)
Definition fits_R (k z : Z) : bool := (0 <=? z) && (z <? BASE ^ k).
Lemma fits_R_range k z : fits_R k z = true -> 0 <= z < BASE ^ k.
Proof. unfold fits_R. lia. Qed.
Definition mont_value (v k : Z) (f : gmap bn form) (o : mont_op) : option form :=
  match o with
  | ToMont _ a => match f !! a with Some (Plain u) => if fits_R k u then Some (Mont (u mod v)) else None | _ => None end
  | FromMont _ a => match f !! a with Some (Mont z) => Some (Plain (z mod v)) | _ => None end
  | MontTimes _ a b =>
      match f !! a, f !! b with
      | Some (Mont x), Some (Mont y) => Some (Mont ((x * y) mod v))
      | Some (Mont x), Some (Plain y) | Some (Plain y), Some (Mont x) => if fits_R k y then Some (Plain ((x * y) mod v)) else None
      | _, _ => None
      end
  | MontOne _ => Some (Mont (1 mod v))
  end.
Definition eval_mont (v k : Z) (f : gmap bn form) (o : mont_op) : option (gmap bn form) := w ← mont_value v k f o; Some (<[mont_target o := w]> f).

(** The words a call may need. *)
Definition mont_need (s : bn_store) (mt : BN_MONT_CTX) (k : Z) (o : mont_op) : Z :=
  match o with
  | ToMont _ a => words_of s a + words_of s (RR mt) + 2 * k + 1
  | FromMont _ a => words_of s a + 2 * k + 1
  | MontTimes _ a b => words_of s a + words_of s b + 2 * k + 1
  | MontOne _ => words_of s (RR mt) + 2 * k + 1
  end.

Section Programs.
Context `{alloc : Allocator}.

Definition run_mont (mt : BN_MONT_CTX) (o : mont_op) : M ctx_store unit :=
  match o with
  | ToMont r a => BN_to_montgomery r a mt
  | FromMont r a => BN_from_montgomery r a mt
  | MontTimes r a b => BN_mod_mul_montgomery r a b mt
  | MontOne r => bn_one_to_montgomery r mt
  end.

(** A state to compute in, with the context [mt] of the modulus [v], of [k] words. *)
Definition mont_ready (s : ctx_store) (bl : list bn) (fr : list Z) (mt : BN_MONT_CTX) (v k : Z) : Prop :=
  ctx_ok s bl fr /\ spacious s 3 /\ zlen fr < 2 ^ 30 - 1 /\ err_stack (ctx s) < 2 ^ 31 - 2 /\ live s bl (N mt) /\ live s bl (RR mt) /\ mont_is (store s) mt v k.
Lemma mont_ready_set s bl fr mt v k r s' bl' : mont_ready s bl fr mt v k -> r <> N mt -> r <> RR mt -> restored s bl fr [r] s' bl' -> mont_ready s' bl' fr mt v k.
Proof.
  intros (Hok & Hsp & H1 & H2 & HlN & HlR & Hm & HR & lr & Hr & Hv) HN HRR Hres. pose proof Hres as (Hok' & _ & _ & He & _). destruct (restored_same s bl fr [r] s' bl' Hres (N mt)) as [E1 E2]; [done|rewrite list_elem_of_singleton; congruence|].
  destruct (restored_same s bl fr [r] s' bl' Hres (RR mt)) as [E3 E4]; [done|rewrite list_elem_of_singleton; congruence|]. split; [done|]. split; [by eapply (restored_spacious s bl)|]. split; [done|]. split; [by rewrite He|].
  split; [by eapply (restored_live s bl)|]. split; [by eapply (restored_live s bl)|]. split; [by eapply modulus_same|]. split; [done|]. exists lr. split; [by eapply same_number|done].
Qed.

(** Residues times [2^(64k)]. *)
Lemma mont_to_exact v k u : (u * BASE ^ k) mod v = held v k (Mont (u mod v)).
Proof. cbn. by rewrite Zmult_mod_idemp_l. Qed.
Lemma mont_mul_exact v k x y : (((x * y) * BASE ^ k) * BASE ^ k) mod v = ((x * BASE ^ k) mod v * ((y * BASE ^ k) mod v)) mod v.
Proof. rewrite <- Zmult_mod. f_equal. lia. Qed.
Lemma mont_mul_plain v k x y : ((x * y) * BASE ^ k) mod v = ((x * BASE ^ k) mod v * y) mod v.
Proof. rewrite Zmult_mod_idemp_l. f_equal. lia. Qed.

Lemma run_mont_spec s bl fr mt v k f o f' :
  mont_ready s bl fr mt v k -> f !! N mt = None -> is_Some (f !! mont_target o) -> means s bl (held v k <$> f) -> eval_mont v k f o = Some f' ->
  wp (run_mont mt o) (fun _ s' => exists bl', restored s bl fr [mont_target o] s' bl' /\ means s' bl' (held v k <$> f'))
    (fun s' => exists bl', restored s bl fr [mont_target o] s' bl' /\ refused s fr (mont_need (store s) mt k o)) s.
Proof.
  intros (Hok & Hsp & H1 & H2 & HlN & HlR & Hm) HN Ht Hf Hev. apply bind_Some in Hev as (w & Hw & [= <-]). destruct (modulus_odd _ _ _ _ (proj1 Hm)) as (_ & Hv & _).
  assert (Hget : forall x y, f !! x = Some y -> live s bl x /\ holds (store s) x (held v k y)) by (intros x y Hx; apply Hf; by rewrite lookup_fmap, Hx).
  pose proof Ht as [y0 Hy0]. destruct (Hget _ _ Hy0) as [Hlr Hzr]. assert (Hne : mont_target o <> N mt) by congruence. assert (Hrr : roomy (store s) (mont_target o) 0) by by eapply holds_roomy.
  assert (Hheld : forall z, 0 <= held v k (Mont z) < v) by (intros z; apply Z.mod_pos_bound; lia).
  assert (HR : 0 < BASE ^ k) by lia. assert (Hsmall : forall z, 0 <= z < v -> 0 <= z < v * BASE ^ k) by (intros; nia).
  assert (Hprod : forall x y, 0 <= x < v -> 0 <= y < BASE ^ k -> x * y < v * BASE ^ k) by (intros; nia).
  assert (Hend : forall c : M ctx_store unit, wp c (fun _ => form_done s bl fr (mont_target o) k (held v k w)) (form_failed s bl fr (mont_target o) (mont_need (store s) mt k o)) s ->
    wp c (fun _ s' => exists bl', restored s bl fr [mont_target o] s' bl' /\ means s' bl' (held v k <$> <[mont_target o := w]> f)) (fun s' => exists bl', restored s bl fr [mont_target o] s' bl' /\ refused s fr (mont_need (store s) mt k o)) s).
  { intros c Hc. eapply wp_mono; [exact Hc| |done]. intros [] s' (bl' & Hres & Hz & _). exists bl'. split; [done|]. rewrite fmap_insert. eapply means_set; try done. by rewrite lookup_fmap, fmap_is_Some. }
  apply Hend. clear Hend. destruct o as [r a|r a|r a b|r]; cbn [mont_value mont_target mont_need run_mont] in *.
  - destruct (f !! a) as [[u|]|] eqn:Ea; [|done|done]. destruct (Hget _ _ Ea) as [Hla Hza]. destruct (fits_R k u) eqn:Eu; [|done]. apply fits_R_range in Eu. injection Hw as <-. rewrite <- mont_to_exact. by apply (to_montgomery_exact s bl fr r mt v k).
  - destruct (f !! a) as [[|z]|] eqn:Ea; [done| |done]. destruct (Hget _ _ Ea) as [Hla Hza]. injection Hw as <-. apply (from_montgomery_exact s bl fr r mt v k) with (u := held v k (Mont z)); try done; [by apply Hsmall|]. cbn [held]. by rewrite Z.mod_mod by lia.
  - destruct (f !! a) as [[x|x]|] eqn:Ea; [| |done]; (destruct (f !! b) as [[y|y]|] eqn:Eb; [| |done]); try done; destruct (Hget _ _ Ea) as [Hla Hza], (Hget _ _ Eb) as [Hlb Hzb].
    + destruct (fits_R k x) eqn:Ex; [|done]. apply fits_R_range in Ex. injection Hw as <-. specialize (Hheld y). apply (mul_montgomery_exact s bl fr r mt v k) with (u := x) (w := held v k (Mont y)); try done; [lia|lia|rewrite Z.mul_comm; by apply Hprod|]. rewrite (Z.mul_comm x). apply mont_mul_plain.
    + destruct (fits_R k y) eqn:Ey; [|done]. apply fits_R_range in Ey. injection Hw as <-. specialize (Hheld x). apply (mul_montgomery_exact s bl fr r mt v k) with (u := held v k (Mont x)) (w := y); try done; [lia|lia|by apply Hprod|]. apply mont_mul_plain.
    + injection Hw as <-. pose proof (Hheld x). pose proof (Hheld y). rewrite <- mont_to_exact. apply (mul_montgomery_exact s bl fr r mt v k) with (u := held v k (Mont x)) (w := held v k (Mont y)); try done; [lia|lia|apply Hprod; lia|]. apply mont_mul_exact.
  - injection Hw as <-. cbn [held]. rewrite Zmult_mod_idemp_l, Z.mul_1_l. by apply (one_montgomery_exact s bl fr r mt v k).
Qed.
End Programs.

Section Thms.
Context `{alloc : Allocator}.

(** C12. BN_MONT_CTX_set takes the odd positive moduli and refuses all others, doing nothing. The context it leaves has the modulus without
    zeros in front, the word that times the modulus is -1 modulo 2^64, and the square of 2^(64k), for a modulus of k
    words, reduced by it and in no more words: what the Montgomery products need. No other number
    has changed, and the scratch numbers are given back. It fails for a valid modulus
    only where memory or the words a number may have do not suffice. BN_MONT_CTX_new_for_modulus does the same with two new numbers, and changes no number there was. *)
Theorem BN_MONT_CTX_set_exact c mt bl fr m u :
  ctx_ok c bl fr -> spacious c 3 -> zlen fr < 2 ^ 30 - 1 -> err_stack (ctx c) < 2 ^ 31 - 2 -> live c bl (N mt) -> live c bl (RR mt) -> live c bl m -> RR mt <> N mt ->
  holds (store c) m u -> roomy (store c) (N mt) 0 -> roomy (store c) (RR mt) 0 ->
  let valid := 0 < u /\ Z.odd u = true in
  let short := refused c fr (words_of (store c) m + 1) in
  let made mt' c' bl' := exists k, mont_ready c' bl' fr mt' u k /\ BASE ^ (k - 1) <= u < BASE ^ k /\ words_of (store c') (RR mt') <= k in
  wp (BN_MONT_CTX_set m)
    (fun _ s' => valid /\ (N (mont_ctx s'), RR (mont_ctx s')) = (N mt, RR mt) /\ exists bl', restored c bl fr [N mt; RR mt] (around s') bl' /\ made (mont_ctx s') (around s') bl')
    (fun s' => ~ valid /\ s' = mkMontStore mt c \/ valid /\ exists bl', restored c bl fr [N mt; RR mt] (around s') bl' /\ short) (mkMontStore mt c) /\
  wp (BN_MONT_CTX_new_for_modulus m)
    (fun mt' c' => valid /\ (RR mt', N mt') = (length (nums (store c)), S (length (nums (store c)))) /\ exists bl', restored c bl fr [] c' bl' /\ made mt' c' bl')
    (fun c' => exists bl', restored c bl fr [] c' bl' /\ (~ valid \/ short)) c.
Proof.
  intros Hok Hsp H1 H2 HlN HlR Hlm Hne Hu HrN HrR valid short made. assert (H30 : nestable c fr) by (unfold nestable; lia).
  assert (Hmade : forall rs c' bl' mt' k, restored c bl fr rs c' bl' -> live c' bl' (N mt') -> live c' bl' (RR mt') -> mont_is (store c') mt' u k -> BASE ^ (k - 1) <= u -> words_of (store c') (RR mt') <= k -> made mt' c' bl').
  { intros rs c' bl' mt' k Hres L1 L2 Hm Hk Hw. destruct (modulus_odd _ _ _ _ (proj1 Hm)) as (_ & Hvk & _). exists k. split; [|split; [lia|done]]. pose proof Hres as (Hok' & _ & _ & He & _).
    split; [done|]. split; [by eapply (restored_spacious c bl)|]. split; [done|]. split; [by rewrite He|done]. }
  split.
  - wp_call (BN_MONT_CTX_set_spec c mt bl fr m u); try done. intros [] s' (Hv & bl' & k & Hres & EN & ER & Hm & Hk & Hw). split; [exact Hv|]. split; [by rewrite EN, ER|]. exists bl'. split; [exact Hres|]. rewrite <- ER in Hw.
    eapply (Hmade [N mt; RR mt]); [exact Hres|rewrite EN|rewrite ER|exact Hm|exact Hk|exact Hw]; by eapply (restored_live c bl).
  - wp_call (BN_MONT_CTX_new_for_modulus_spec c bl fr m u); try done. intros mt' c' (Hv & bl' & k & Hres & ER & EN & L1 & L2 & Hm & Hk & Hw). split; [exact Hv|]. split; [by rewrite EN, ER|]. exists bl'. split; [exact Hres|]. by eapply Hmade.
Qed.

(** C11. Refinement: BN_to_montgomery, BN_from_montgomery, BN_mod_mul_montgomery and bn_one_to_montgomery compute in the ring of integers modulo the
    modulus, where a number stands for itself or for the residue z whose form is z * 2^(64k) modulo the modulus. A program of them, in place or not, whose
    operands are of the right kind, ends with the numbers it has in the ring: a product of two forms is a form, and a product of a form and a number
    is a number. The context is unchanged, like every number that is not set. The program stops, with the numbers computed so far,
    only where memory or the words a number may have do not suffice for the operands. *)
Theorem BN_montgomery_refines_ring os s bl fr mt v k f f' :
  mont_ready s bl fr mt v k -> f !! N mt = None -> f !! RR mt = None -> means s bl (held v k <$> f) -> Forall (fun o => is_Some (f !! mont_target o)) os -> eval_all (eval_mont v k) f os = Some f' ->
  wp (run_all (run_mont mt) os)
    (fun _ s' => exists bl', restored s bl fr (map mont_target os) s' bl' /\ means s' bl' (held v k <$> f') /\ mont_ready s' bl' fr mt v k)
    (stops mont_target (fun f => held v k <$> f) (eval_mont v k) fr (fun s o => refused s fr (mont_need (store s) mt k o)) os f s bl) s.
Proof.
  intros Hrdy HN HR Hf Hall Hev. set (inv := fun s bl f1 => mont_ready s bl fr mt v k /\ means s bl (held v k <$> f1) /\ f1 !! N mt = None /\ f1 !! RR mt = None /\ dom f1 = dom f).
  eapply wp_mono; [apply (run_all_spec mont_target (run_mont mt) (fun f => held v k <$> f) (eval_mont v k) fr inv (fun o => is_Some (f !! mont_target o)) (fun s o => refused s fr (mont_need (store s) mt k o)) True) with (f' := f')|..]; cbv beta.
  - by intros s1 bl1 f1 [[? _] _].
  - by intros s1 bl1 f1 (_ & ? & _).
  - intros s1 bl1 f1 o f2 (Hr1 & Hf1 & HN1 & HR1 & Hd1) Ho Ev. rewrite <- elem_of_dom, <- Hd1, elem_of_dom in Ho. pose proof Ho as [w0 Hw0]. wp_call (run_mont_spec s1 bl1 fr mt v k f1 o f2); try done.
    intros [] s2 (bl2 & Hres & Hf2). split; [done|]. exists bl2. split; [done|]. apply bind_Some in Ev as (w & _ & [= <-]). split; [eapply (mont_ready_set s1 bl1 fr mt v k (mont_target o)); [exact Hr1|congruence..|exact Hres]|]. split; [done|].
    split; [rewrite lookup_insert_ne; congruence|]. split; [rewrite lookup_insert_ne; congruence|]. apply elem_of_dom in Ho. rewrite dom_insert_L, <- Hd1. set_solver.
  - done.
  - exact Hall.
  - exact Hev.
  - intros [] s' (_ & bl' & Hres & Hr' & Hf' & _). by exists bl'.
  - done.
Qed.

(** C38. On arrays of words (the result may be in place of an operand), for a first number below 2^(64k) and
    a second one below the modulus of k words: bn_mod_mul_montgomery_small and bn_from_montgomery_small give the number below
    the modulus that times 2^(64k) is the product, or the first number; bn_to_montgomery_small and bn_one_to_montgomery_small
    give the forms of the first number and of 1. Nothing but the k words of the result changes. Each succeeds exactly for a
    result of k words, and, of the factors together (the single operand; the operand and the square of 2^(64k)), at most 2k
    words, k being at most nine; the operand need not have k words. bn_one_to_montgomery_small also takes a longer modulus
    if its highest bit is set. Otherwise a call fails and does nothing. *)
Theorem bn_montgomery_small_exact s mt v k r num_r a la b lb :
  mont_is s mt v k -> words_of s (RR mt) <= k -> writable (arrays s) r num_r -> r.1 <> N mt -> at_ (arrays s) a la -> digits la -> at_ (arrays s) b lb -> digits lb -> 0 < zlen la ->
  val la < BASE ^ k -> val lb < v ->
  let residue x s' := exists z, written s r k z s' /\ 0 <= z < v /\ (z * BASE ^ k) mod v = x mod v in
  let fits n := num_r = k /\ n <= 2 * k <= 2 * BN_SMALL_MAX_WORDS in
  let takes := num_r = k /\ (k <= BN_SMALL_MAX_WORDS \/ BASE ^ k <= 2 * v) in
  wp (bn_mod_mul_montgomery_small r num_r a (zlen la) b (zlen lb) mt) (fun _ s' => fits (zlen la + zlen lb) /\ residue (val la * val lb) s') (fun s' => s' = s /\ ~ fits (zlen la + zlen lb)) s /\
  wp (bn_from_montgomery_small r num_r a (zlen la) mt) (fun _ s' => fits (zlen la) /\ residue (val la) s') (fun s' => s' = s /\ ~ fits (zlen la)) s /\
  wp (bn_to_montgomery_small r num_r a (zlen la) mt) (fun _ s' => fits (zlen la + words_of s (RR mt)) /\ written s r k ((val la * BASE ^ k) mod v) s') (fun s' => s' = s /\ ~ fits (zlen la + words_of s (RR mt))) s /\
  wp (bn_one_to_montgomery_small r num_r mt) (fun _ s' => takes /\ written s r k (BASE ^ k mod v) s') (fun s' => s' = s /\ ~ takes) s.
Proof.
  intros Hm Hw Hr Hrn Ha Hda Hb Hdb Hpos Hla Hlb residue fits takes. pose proof (proj1 Hm) as Hmod. destruct (modulus_odd _ _ _ _ Hmod) as (_ & Hv & Hk). pose proof (val_range _ Hda) as [H0 _]. pose proof (val_range _ Hdb) as [H1 _].
  assert (Hres : forall x s', x < v * BASE ^ k -> reduced_into s v k r x s' -> residue x s') by (intros; by eapply reduced_into_residue). unfold fits. change (2 * BN_SMALL_MAX_WORDS) with 18. split; [|split; [|split]].
  - wp_call (bn_mod_mul_montgomery_small_spec s mt v k r num_r); try done. intros [] s' (E1 & E2 & Hred). split; [done|]. apply Hres; [nia|exact Hred].
  - wp_call (bn_from_montgomery_small_spec s mt v k r num_r); try done. intros [] s' (E1 & E2 & Hred). split; [done|]. apply Hres; [nia|exact Hred].
  - wp_call (bn_to_montgomery_small_spec s mt v k r num_r); try done. intros [] s' (E1 & E2 & Hred). by split.
  - wp_call (bn_one_to_montgomery_small_spec s mt v k r num_r); try done; lia.
Qed.
End Thms.

(** * Witnesses *)

#[local] Existing Instance plenty.

(** The numbers 5, 3 and 0, the modulus 7 and the square of 2^64 modulo 7. *)
Definition ex_mont : bn_store :=
  mkStore [mkBN 1 2 false BN_FLG_MALLOCED; mkBN 1 2 false BN_FLG_MALLOCED; mkBN 0 2 false BN_FLG_MALLOCED; mkBN 1 2 false BN_FLG_MALLOCED; mkBN 1 2 false BN_FLG_MALLOCED] [[5; 0]; [3; 0]; [0; 0]; [7; 0]; [4; 0]] 0%nat.
Definition ex_context : BN_MONT_CTX := mkMont 4%nat 3%nat (10540996613548315209, 0).
Definition ex_forms : gmap bn form := {[0%nat := Plain 5; 1%nat := Plain 3; 2%nat := Plain 0]}.
Definition ex_mont_program : list mont_op := [ToMont 0 0; MontTimes 2 0 1; ToMont 1 1; MontTimes 1 1 0; FromMont 1 1; MontOne 0].
Definition ex_forms_end : gmap bn form := {[0%nat := Mont 1; 1%nat := Plain 1; 2%nat := Plain 1]}.

Lemma ex_mont_0 : holds ex_mont 0%nat 5.
Proof. apply (holds_pos _ _ [5]). by apply (ex_shows _ _ (mkBN 1 2 false BN_FLG_MALLOCED) [5; 0]). Qed.
Lemma ex_mont_1 : holds ex_mont 1%nat 3.
Proof. apply (holds_pos _ _ [3]). by apply (ex_shows _ _ (mkBN 1 2 false BN_FLG_MALLOCED) [3; 0]). Qed.
Lemma ex_mont_2 : holds ex_mont 2%nat 0.
Proof. apply (holds_pos _ _ []). by apply (ex_shows _ _ (mkBN 0 2 false BN_FLG_MALLOCED) [0; 0]). Qed.
Lemma ex_mont_3 : shows ex_mont 3%nat false [7].
Proof. by apply (ex_shows _ _ (mkBN 1 2 false BN_FLG_MALLOCED) [7; 0]). Qed.
Lemma ex_mont_4 : shows ex_mont 4%nat false [4].
Proof. by apply (ex_shows _ _ (mkBN 1 2 false BN_FLG_MALLOCED) [4; 0]). Qed.
Lemma ex_mont_ready : mont_ready (new_ctx ex_mont) [] [] ex_context 7 1.
Proof.
  split; [by apply new_ctx_ok|]. split; [done|]. split; [done|]. split; [done|]. split; [apply new_live; cbn; lia|]. split; [apply new_live; cbn; lia|]. split; [exists [7]; split; [apply ex_mont_3|done]|].
  split; [done|]. exists [4]. split; [apply ex_mont_4|done].
Qed.

(** The context of the modulus 7, in the numbers 1 and 2, and in new ones. *)
Lemma BN_MONT_CTX_set_exact_witness :
  let made mt' c' bl' := exists k, mont_ready c' bl' [] mt' 7 k /\ BASE ^ (k - 1) <= 7 < BASE ^ k /\ words_of (store c') (RR mt') <= k in
  wp (BN_MONT_CTX_new_for_modulus 3%nat)
    (fun mt' c' => (0 < 7 /\ Z.odd 7 = true) /\ (RR mt', N mt') = (5%nat, 6%nat) /\ exists bl', restored (new_ctx ex_mont) [] [] [] c' bl' /\ made mt' c' bl')
    (fun c' => exists bl', restored (new_ctx ex_mont) [] [] [] c' bl' /\ (~ (0 < 7 /\ Z.odd 7 = true) \/ refused (new_ctx ex_mont) [] 2)) (new_ctx ex_mont).
Proof.
  destruct (BN_MONT_CTX_set_exact (new_ctx ex_mont) (mkMont 2%nat 1%nat (0, 0)) [] [] 3%nat 7) as [_ H].
  - by apply new_ctx_ok.
  - done.
  - done.
  - done.
  - apply new_live. cbn. lia.
  - apply new_live. cbn. lia.
  - apply new_live. cbn. lia.
  - done.
  - apply (holds_pos _ _ [7]), ex_mont_3.
  - eapply holds_roomy, ex_mont_1.
  - eapply holds_roomy, ex_mont_2.
  - exact H.
Defined.

(** 5 and 3 modulo 7: their product in both ways, and the form of 1. *)
Lemma BN_montgomery_refines_ring_witness :
  wp (run_all (run_mont ex_context) ex_mont_program)
    (fun _ s' => exists bl', restored (new_ctx ex_mont) [] [] [0%nat; 2%nat; 1%nat; 1%nat; 1%nat; 0%nat] s' bl' /\ means s' bl' (held 7 1 <$> ex_forms_end) /\ mont_ready s' bl' [] ex_context 7 1)
    (stops mont_target (fun f => held 7 1 <$> f) (eval_mont 7 1) [] (fun s o => refused s [] (mont_need (store s) ex_context 1 o)) ex_mont_program ex_forms (new_ctx ex_mont) []) (new_ctx ex_mont).
Proof.
  apply (BN_montgomery_refines_ring ex_mont_program (new_ctx ex_mont) [] [] ex_context 7 1 ex_forms ex_forms_end).
  - apply ex_mont_ready.
  - done.
  - done.
  - intros x z. rewrite lookup_fmap, fmap_Some. intros (w & Hw & ->). revert Hw. unfold ex_forms. rewrite !lookup_insert_Some, lookup_singleton_Some. intros [[<- <-]|[_ [[<- <-]|[_ [<- <-]]]]]; (split; [apply new_live; cbn; lia|]).
    + apply ex_mont_0.
    + apply ex_mont_1.
    + apply ex_mont_2.
  - by apply Forall_forall; intros o Ho; repeat (apply elem_of_cons in Ho as [->|Ho]; [by eexists|]); apply elem_of_nil in Ho.
  - by vm_compute.
Defined.

(** 5 and 3 again, as words, the results in place of 5. *)
Lemma bn_montgomery_small_exact_witness :
  wp (bn_mod_mul_montgomery_small (0%nat, 0) 1 (0%nat, 0) 1 (1%nat, 0) 1 ex_context)
    (fun _ s' => (1 = 1 /\ 2 <= 2 <= 18) /\ exists z, written ex_mont (0%nat, 0) 1 z s' /\ 0 <= z < 7 /\ (z * BASE) mod 7 = 15 mod 7) (fun s' => s' = ex_mont /\ ~ (1 = 1 /\ 2 <= 2 <= 18)) ex_mont /\
  wp (bn_one_to_montgomery_small (0%nat, 0) 1 ex_context) (fun _ s' => (1 = 1 /\ (1 <= 9 \/ BASE <= 14)) /\ written ex_mont (0%nat, 0) 1 2 s') (fun s' => s' = ex_mont /\ ~ (1 = 1 /\ (1 <= 9 \/ BASE <= 14))) ex_mont.
Proof.
  destruct (bn_montgomery_small_exact ex_mont ex_context 7 1 (0%nat, 0) 1 (0%nat, 0) [5] (1%nat, 0) [3]) as (H1 & _ & _ & H2).
  - apply ex_mont_ready.
  - done.
  - exists [5; 0]. split; [done|]. unfold room. change (zlen [5; 0]) with 2. cbn. lia.
  - done.
  - by exists [5; 0].
  - by repeat constructor.
  - by exists [3; 0].
  - by repeat constructor.
  - done.
  - done.
  - done.
  - split; [exact H1|exact H2].
Defined.
